(* ===== verification/_CoqProject ===== *)
-Q . S2P
Prelude.v
Constants.v
Wire.v
Buffer.v
Extensions.v
Base64.v
Asn1.v
Crypto.v
Cipher.v
Ffx.v
QuicLb.v
ChaChaPoly.v
OpensslCipher.v
OpensslTicket.v
Log.v
KeySchedule.v
Tls.v
Minicrypto.v
OpensslKex.v
Record.v
Emit.v
Negotiate.v
Hpke.v
ClientHello.v
HelloFormat.v
HelloDecode.v
Receive.v
Conn.v
Ech.v
EchMessage.v
Export.v
Handshake.v
Progress.v
Ticket.v
ServerHello.v
Cookie.v
Psk.v
Certificate.v
Steps.v
CertCompress.v
Client.v
ClientAuth.v
EchConfirm.v
Server.v
Session.v
ServerAuth.v
OpensslSign.v
Faults.v
Gf2.v
Simd.v
FusionGhash.v
FusionAes.v
FusionLoad.v
FusionContext.v
Gcm.v
FusionIter.v
FusionEncrypt.v
FusionDecrypt.v
FusionAead.v
FusionQuicLb.v
