(* ===== verification/Prelude.v ===== *)
(** * zpicotls: a verification development

    zpicotls is a TLS 1.3 library in C (a fork of picotls).  [lib/picotls.c], with
    [include/zpicotls.h], is the protocol: a connection object ([ptls_t]) that turns bytes from the
    network into handshake messages and application data, and what it has to say into bytes in a
    caller's buffer.  It does no I/O.  The cryptographic primitives are objects full of function
    pointers, provided by the backends ([lib/openssl.c], [lib/fusion.c], [lib/mbedtls.c],
    [lib/cifra.c], ...); memory comes from an allocator of the context; certificates, tickets and
    callbacks are the application's.  [lib/pembase64.c], [lib/asn1.c] and [lib/minicrypto-pem.c]
    load certificates and private keys.  This library translates that code into Rocq functions and
    proves what makes it correct.

    ** How the code is represented

    A C integer is a [Z] with the reduction to its width written out ([u8], [u16], [u32], [u64];
    [size_t] has 64 bits); a range of memory is the list of its bytes; a pair of pointers
    [src], [end] is the list of the bytes between, and advancing [src] gives a shorter list.  A
    function that can fail gives a result and the state it reaches; the error codes are those of
    the header ([Constants]).  What is written when an operation fails is part of the model, since
    callers rely on it.  Reading outside of an object is a value of its own ([None] in [Asn1],
    [OVER_READ] in [Export]), never a silent default.

    Code that is not in the repository, or belongs to a backend or to the application, is a
    parameter: the memory allocator is the class [Allocator] ([Buffer]: each request is given a
    fresh region or refused, by an arbitrary function of the request and its number), a hash
    algorithm is a record of functions with the law [hash_ok], an AEAD one with [aead_ok]
    ([Crypto]: opening undoes sealing under the same key, nonce and additional data; sizes are as
    declared), and the callbacks of [ptls_context_t] are functions ([Tls], [Ticket]).  Instances
    ([toy_hash], [toy_aead], [ideal_alloc], ...) show that the laws can hold; the witnesses use them.

    ** The files

    - [Prelude]: bytes, fixed-width integers, list lemmas, and the state-and-error monad [M] with
      its Hoare triples ([triple]) and proof steps.
    - [Constants]: the numbers of the headers.
    - [Wire]: [ntoh16] ... [ptls_decode64], QUIC integers, length-prefixed blocks on the read side.
    - [Buffer]: [ptls_buffer_t] (growth, alignment, RX/TX direction, clearing of released memory),
      the push functions and [ptls_buffer_push_block].  [emits] is the abstract specification of an
      append-only output; every push operation refines it.  [HasBuffer] is the interface by which
      operations on larger states use the lemmas on buffers.
    - [Extensions]: the table of permitted extensions, the duplicate check, [decode_extensions].
    - [Base64], [Asn1]: base64 and PEM; BER validation, PKCS #8 and ECDSA private keys.
    - [Crypto]: HMAC, HKDF, the TLS 1.2 PRF, construction and use of AEAD contexts, [mem_equal].
    - [KeySchedule]: the TLS 1.3 key schedule over all hashes that may still be chosen, transcript
      hashes, [derive_secret], Finished data, the ECH confirmation and the HelloRetryRequest
      transform.
    - [Tls]: [ptls_context_t], [ptls_t] with its states, [new_instance].
    - [Record]: sealing ([aead_encrypt] to [buffer_push_encrypted_records], in-place
      [buffer_encrypt_record]), for TLS 1.3 and TLS 1.2.
    - [Receive]: [parse_record] with its buffered path, [handle_input], reassembly of handshake
      messages, alerts, skipping of early data, [ptls_receive].
    - [Conn]: traffic keys, KeyUpdate, Finished, message emitters, [ptls_send], alerts, exporters,
      the detached sending side ([ptls_tx_t]).
    - [Export]: [ptls_export], [ptls_import], [ptls_build_tls12_export_params].
    - [Handshake]: dispatch of handshake messages by state and epoch, [ptls_handshake],
      [ptls_handle_message].
    - [Ticket]: session identifiers, NewSessionTicket, and the client's stored tickets.
    - [Emit]: what a function that builds a message writes ([writes]): rules for the push macros and
      for nested length-prefixed blocks.
    - [Negotiate]: selection of cipher suite and key share, [buffer_push_extension].
    - [Hpke]: RFC 9180 in base mode ([lib/hpke.c]).
    - [ClientHello]: [encode_client_hello] in its three modes (plain, inner, outer) and
      [decode_client_hello]; [HelloFormat]: the message in closed form and the proof that the encoder
      writes it; [HelloDecode]: what the decoder makes of it.
    - [Ech]: ECH configurations, [client_setup_ech], GREASE, [rebuild_ch_inner]; [EchMessage]: the
      encoded inner ClientHello, its padding and sealing into the outer one, opening at the server.
    - [EchConfirm]: the confirmation by which a server tells that it has accepted ECH.
    - [ServerHello], [Cookie], [Psk], [Certificate]: the other messages of the negotiation, their
      encoders, decoders and checks: ServerHello and HelloRetryRequest, the cookie of a stateless
      retry, binders and the selection of pre-shared keys, certificates and their proofs.
    - [Progress]: the loops over the input as loops without a count, and that they end.
    - [Steps]: what an operation leaves as it was ([steps R m] for a preorder [R], with a database of
      lemmas and a tactic that follows the code), and what it leads to ([leads]); the class
      [Emitter] is what the handlers rely on in the two ways of writing messages out.
    - [Client], [Server]: [send_client_hello] and all handlers of the client; [server_handle_hello]
      with its whole flight, [server_finish_handshake], session tickets.
    - [ClientAuth], [ServerAuth]: the runs of the two state machines and their invariants.
    - [Session]: a client and a server driven against each other; [Faults]: runs that leave what C
      defines.
    - [Cipher]: [ptls_cipher_algorithm_t] as an object with a private state; the classes
      [StreamCipher] and [BlockCipher] are what the constructions on ciphers rely on.
    - [Ffx], [QuicLb]: the Feistel networks of [lib/ffx.c] and [lib/quiclb-impl.h], which use such an
      object and are one; [ChaChaPoly]: the callbacks of an AEAD context and the AEAD of
      [lib/chacha20poly1305.h].
    - [Minicrypto]: the signer and the key exchanges of [lib/uecc.c] and [lib/cifra/x25519.c], the
      ASN.1 pushes; [CertCompress]: [lib/certificate_compression.c].
    - [Log]: log lines and their elements, loggers and their filters, the cached bitmaps.
    - [OpensslCipher], [OpensslTicket], [OpensslKex], [OpensslSign]: [lib/openssl.c], over the functions
      of the library as records ([evp_ops], [mac_ops], [ec_ops], [pkey_ops], ...) and classes for what
      they promise ([EvpAead], [TicketKeys], [EcGroup], [Signatures], ...): ciphers and AEADs, tickets,
      key exchanges, signatures and certificates.
    - [Gf2]: polynomials over the field of two elements as numbers, carry-less products and congruence
      (a ring, so that [ring] proves identities), the product of SP 800-38D and GHASH; [Gcm]: AES-GCM.
    - [Simd]: the vector instructions that [lib/fusion.c] is written in, as Intel documents them, and
      memory made of pages.  [FusionGhash]: multiplication and reduction; [FusionAes]: key expansion and
      rounds with the AES instructions, and FIPS 197; [FusionLoad]: partial loads, scattered input;
      [FusionContext]: contexts and their tables of powers; [FusionIter]: encryption of scattered input;
      [FusionEncrypt], [FusionDecrypt]: six blocks at a time, with the hash between the rounds of AES;
      [FusionAead], [FusionQuicLb]: the AES-CTR, AES-GCM and QUIC-LB objects that the engine offers.

    ** What is proved

    - Data: what [ptls_send] writes [ptls_receive] gives back ([send_receive_roundtrip]), whatever
      the allocator does and up to the counters of both sides; no byte reaches the application that
      the AEAD did not open under the current key, counter and header ([only_authentic_data]); the
      result does not depend on how the stream was cut ([record_parsing_ignores_segmentation]) nor
      on how messages lie in records ([handshake_reassembly]); sealing splits, counts and keeps what
      the buffer held ([push_encrypted_records_correct], [encrypt_record_correct]); nonces do not
      repeat ([aead_nonce_unique]).
    - Keys: HKDF, HMAC, P_hash and the schedule are those of the RFCs ([key_derivation_rfc],
      [key_schedule_rfc8446], [key_schedule_select_correct]); a KeyUpdate leaves both sides at the
      same next secret ([key_update_in_step]).
    - Handshake: the server goes on only with a genuine Finished ([server_finished_authenticates]),
      and a genuine one is accepted ([finished_accepted]); an error leaves only an alert in the
      output ([failed_handshake_sends_alert]).
    - Handover: [export_import_roundtrip], [detach_tx_moves_sender], [tx_sendv_is_send],
      [session_identifier_roundtrip], [stored_ticket_roundtrip].
    - Buffers and codecs: released memory is cleared ([buffer_released_memory_cleared]), reserving
      is right on every branch, blocks and integers read back, the extension decoder accepts exactly
      the permitted blocks, base64, PEM and PKCS #8 round trips, BER validation stays in bounds.
    - Hello: a ClientHello that the client writes is read back field by field
      ([client_hello_roundtrip]); the server recovers exactly the inner ClientHello that was sealed
      ([ech_inner_recovered]); both sides of HPKE get the same context ([hpke_setup_agrees]);
      configurations read back ([ech_config_roundtrip]); the cipher suite is the first acceptable
      one in the preferred order ([select_cipher_correct]).
    - Authentication: by an invariant over all runs of the dispatch, a client that completes has
      had the server's certificate and signature over this transcript verified, or uses a pre-shared
      key ([client_authenticates_server]); a server that asks for a certificate does not complete
      without ([server_authenticates_client]); a pre-shared key is selected only with a right binder
      ([psk_selection_authentic]), a cookie is accepted only if it was made for the connection's
      parameters ([cookie_binds]), ECH counts as accepted only by the right confirmation
      ([ech_confirmation_decides]); session tickets leave the transcript as it was
      ([session_ticket_keeps_transcript]).
    - Agreement: what one side writes the other reads and accepts ([server_hello_roundtrip],
      [cookie_accepted], [psk_binder_accepted], [certificate_roundtrip],
      [certificate_verify_accepted]); in every configuration of [Session] the handshake of the two
      completes and their keys match ([sessions_complete]); the loops over the input end
      ([input_loops_terminate]).
    - Constructions: the ChaCha20-Poly1305 of this library is that of RFC 8439 and keeps [aead_ok],
      the law that the theorems on records rely on ([chacha20poly1305_refines]); FFX and QUIC-LB
      decrypt what they have encrypted ([ffx_roundtrip], [quiclb_roundtrip]); a compressed
      certificate is read back as the one that was compressed ([compressed_certificate_roundtrip]);
      signatures are DER that reads back ([signature_der_valid]) and both sides of a key exchange
      agree ([minicrypto_kex_agree]).
    - Logging: the elements of a line stay within the space reserved for them
      ([log_elements_in_bounds]); a cached bitmap of the current generation is the one that would be
      computed ([log_cache_sound]).
    - The OpenSSL backend: its AEADs are what the library uses ([openssl_aead_refines]), ChaCha20 over
      BoringSSL does not depend on how its input is cut ([boringssl_chacha20_stream]), tickets read back
      and only genuine ones are opened ([openssl_ticket_roundtrip], [openssl_ticket_authentic]), key
      exchanges agree ([openssl_kex_agree]), signatures are accepted ([openssl_signature_accepted]), and
      a client with its verifier has talked to the host it meant ([openssl_client_authenticates], which
      puts the verifier under the state machine of [ClientAuth]).
    - The fusion engine: its AES is FIPS 197 ([aesecb_is_aes]), its products are those of GCM
      ([gfmul_correct]), its contexts have the right powers of the hash key ([new_aesgcm_ok],
      [set_capacity_ok]), partial loads stay on mapped pages ([loadn128_correct]), and what it writes for
      scattered input is AES-GCM ([encrypt_iter_correct]), and so is what the pipelined encryption writes
      ([encrypt_correct]) and what the decryption accepts and gives back ([decrypt_correct]).  Behind the callbacks of an AEAD, a
      record that one context writes another one opens ([fusion_aead_roundtrip]), pieces of text are gathered
      rightly however they overlap with the record ([encrypt_v_gathers]), and the mask of a packet number is
      that of the finished record ([encrypt_v_s_correct]).  Its QUIC-LB is that of the other backends
      ([quiclb_backends_agree]).
    - Departures from the intention of the code are theorems as well: [import_reads_beyond],
      [imported_server_skips_forgeries], [base64_garbage_after_padding],
      [truncated_ecdsa_key_null], [ech_rejected_name_lost], [oversized_binder_overflows],
      [raw_cookie_retry_aborts], [psk_only_ticket_null], [log_filter_ignored], [log_sni_stale],
      [ffx_extra_bits_touched], [ffx_odd_rounds_not_inverse], [ffx_setup_failure_aborts],
      [loadn256_loses_byte], [async_failure_sends_zeroes], [create_key_exchange_releases_twice].

    ** Fuel

    Loops whose recursion is not structural take fuel, and the bound is proved enough, not assumed:
    every round of [message_loop], [handshake_loop], [receive_loop] and [push_records_loop] uses up
    at least one byte (or ends the loop), so the length of the input is enough
    ([input_loops_terminate]); [TURNS] of [Session] is enough by [sessions_complete]; [grow_capacity]
    doubles, so 64 rounds are enough for a [size_t]; [hkdf_expand_loop] and [phash_loop] produce one
    digest per round; the BER validation loops use up a byte per round and at most
    [PTLS_ASN1_MAX_RECURSION] levels.

    ** What is not modelled

    Accessors without logic are left out.  Alerts that the application sends by itself, and the
    release of memory, are not followed.  The calls of log points are left out of the handlers: they
    do not change a connection ([Log] has what they do).  The mbedTLS and bcrypt backends are bindings to
    libraries outside of the repository or to vendored code and are represented by the laws above.
    Of [lib/fusion.c], the non-temporal and the 256-bit variants are left out. *)

From stdpp Require Export base tactics list numbers option relations.
From Stdlib Require Export ZArith Lia.
From Stdlib Require String Ascii.
Export String.StringSyntax.
#[global] Open Scope Z_scope.

(** ** Bytes and fixed-width integers

    C integers are kept as [Z] with their reduction written out: [u8], [u16], [u32] and [u64]
    are the conversions to the unsigned types of those widths ([size_t] is 64 bits wide). *)

Abbreviation bytes := (list Z).

Definition u8 (x : Z) : Z := x mod 2 ^ 8.
Definition u16 (x : Z) : Z := x mod 2 ^ 16.
Definition u32 (x : Z) : Z := x mod 2 ^ 32.
Definition u64 (x : Z) : Z := x mod 2 ^ 64.

Definition SIZE_MAX : Z := 2 ^ 64 - 1.
Definition UINT64_MAX : Z := 2 ^ 64 - 1.
Definition UINT32_MAX : Z := 2 ^ 32 - 1.
Definition UINT16_MAX : Z := 2 ^ 16 - 1.

(** The length of a byte string as a C [size_t]. *)
Definition len {A} (l : list A) : Z := Z.of_nat (length l).

Definition is_byte (b : Z) : Prop := 0 <= b < 256.
Abbreviation is_bytes := (Forall is_byte).

#[global] Instance is_byte_dec b : Decision (is_byte b).
Proof. unfold is_byte. apply _. Defined.

(** The bytes of a C string literal, without its terminating NUL. *)
Definition str (s : String.string) : bytes :=
  (λ c, Z.of_nat (Ascii.nat_of_ascii c)) <$> String.list_ascii_of_string s.
Arguments str s%_string_scope.

(** The C string in an array: its bytes up to the first NUL, [strlen] of them. *)
Fixpoint c_string (s : bytes) : bytes :=
  match s with
  | 0 :: _ | [] => []
  | b :: s => b :: c_string s
  end.

Lemma c_string_id (s : bytes) : Forall (λ b, b <> 0) s -> c_string s = s.
Proof. induction 1 as [|b s Hb Hs IH]; [done|]. cbn. destruct b; [done| |]; by rewrite IH. Qed.

(** ** Results

    A C function that returns zero or an error code is a function into [result]. *)

Inductive result (A : Type) : Type :=
| Ok (a : A)
| Err (e : Z).
Arguments Ok {A} a.
Arguments Err {A} e.

#[global] Instance result_ret : MRet result := fun A a => Ok a.
#[global] Instance result_bind : MBind result := fun A B f m =>
  match m with Ok a => f a | Err e => Err e end.
#[global] Instance result_fmap : FMap result := fun A B f m =>
  match m with Ok a => Ok (f a) | Err e => Err e end.

Definition is_ok {A} (r : result A) : bool := match r with Ok _ => true | Err _ => false end.

#[global] Instance result_eq_dec `{EqDecision A} : EqDecision (result A).
Proof. solve_decision. Defined.

(** [guard_err c e]: the C idiom [if (!c) { ret = e; goto Exit; }]. *)
Definition guard_err (c : bool) (e : Z) : result unit := if c then Ok () else Err e.

(** Not an error of the code: marks a model loop whose fuel ran out.  Every loop is shown never to
    return it. *)
Definition OUT_OF_FUEL : Z := -1.

(** Not an error of the code: the process stops, at a failed [assert], in [abort], or at a NULL pointer
    that is dereferenced. *)
Definition ABORTED : Z := -2.

(** Not an error of the code: it reads beyond the bytes it was given. *)
Definition OVER_READ : Z := -3.

(** Not an error of the code: it writes beyond the array it was given. *)
Definition OVER_WRITE : Z := -4.

(** ** The state-and-error monad

    Code that mutates a state [S] and may [goto Exit] with an error is a computation of [M S]:
    the state reached is kept whether the computation succeeds or fails. *)

Definition M (S A : Type) : Type := S -> result A * S.

#[global] Instance M_ret S : MRet (M S) := fun A a s => (Ok a, s).
#[global] Instance M_bind S : MBind (M S) := fun A B f m s =>
  match m s with
  | (Ok a, s') => f a s'
  | (Err e, s') => (Err e, s')
  end.

Definition fail {S A} (e : Z) : M S A := fun s => (Err e, s).
Definition gets {S A} (f : S -> A) : M S A := fun s => (Ok (f s), s).
Definition modify {S} (f : S -> S) : M S unit := fun s => (Ok (), f s).
Definition lift {S A} (r : result A) : M S A := fun s => (r, s).
(** What is done with an error, from the state it leaves. *)
Definition catch {S A} (m : M S A) (h : Z -> M S A) : M S A := fun s => match m s with (Ok a, s) => (Ok a, s) | (Err e, s) => h e s end.
Definition when {S} (c : bool) (m : M S unit) : M S unit := if c then m else mret ().

(** A computation that succeeds went through. *)
Lemma bind_ok {S A B} (m : M S A) (f : A -> M S B) s b s' :
  (m ≫= f) s = (Ok b, s') -> exists a s1, m s = (Ok a, s1) /\ f a s1 = (Ok b, s').
Proof. unfold mbind, M_bind. destruct (m s) as [[a|e] s1]; [|done]. by exists a, s1. Qed.

(** ** Tactics *)

(** Case analysis on every [match] and [if] of the goal or of the hypotheses. *)
Ltac split_match :=
  repeat (case_match; simplify_eq/=; try done).

(** Inversion of a successful bind, in [result] or in [M]. *)
Lemma result_bind_ok {A B} (m : result A) (f : A -> result B) b :
  (m ≫= f) = Ok b <-> exists a, m = Ok a /\ f a = Ok b.
Proof. destruct m; simpl; naive_solver. Qed.

Lemma result_bind_err {A B} (m : result A) (f : A -> result B) e :
  (m ≫= f) = Err e <-> m = Err e \/ exists a, m = Ok a /\ f a = Err e.
Proof. destruct m; simpl; naive_solver. Qed.

Lemma guard_err_ok c e u : guard_err c e = Ok u <-> c = true.
Proof. destruct c, u; simpl; naive_solver. Qed.

Lemma M_bind_run {S A B} (m : M S A) (f : A -> M S B) s :
  (m ≫= f) s = match m s with (Ok a, s') => f a s' | (Err e, s') => (Err e, s') end.
Proof. reflexivity. Qed.

Ltac inv_ok :=
  repeat match goal with
  | H : (_ ≫= _) = Ok _ |- _ =>
      let a := fresh "a" in let Ha := fresh "Ha" in
      apply result_bind_ok in H as (a & Ha & H)
  | H : guard_err _ _ = Ok _ |- _ => apply guard_err_ok in H
  | H : Ok _ = Ok _ |- _ => injection H; clear H; intros; subst
  | H : (_ * _)%type |- _ => destruct H
  end.

(** ** Hint databases *)

Create HintDb zpico.
Create HintDb zpico_len.

(** ** Integers *)

Lemma u8_range x : is_byte (u8 x).
Proof. unfold is_byte, u8. apply Z.mod_pos_bound. lia. Qed.

Lemma u8_small b : is_byte b -> u8 b = b.
Proof. unfold u8, is_byte. intros. apply Z.mod_small. lia. Qed.

Lemma u16_range x : 0 <= u16 x < 2 ^ 16.
Proof. apply Z.mod_pos_bound. lia. Qed.

Lemma u16_small x : 0 <= x < 2 ^ 16 -> u16 x = x.
Proof. apply Z.mod_small. Qed.

Lemma u32_range x : 0 <= u32 x < 2 ^ 32.
Proof. apply Z.mod_pos_bound. lia. Qed.

Lemma u32_small x : 0 <= x < 2 ^ 32 -> u32 x = x.
Proof. apply Z.mod_small. Qed.

Lemma u64_range x : 0 <= u64 x < 2 ^ 64.
Proof. apply Z.mod_pos_bound. lia. Qed.

Lemma u64_small x : 0 <= x < 2 ^ 64 -> u64 x = x.
Proof. apply Z.mod_small. Qed.

#[export] Hint Resolve u8_range : zpico.

(** Shifting left and or-ing a value that fits below the shift is an addition. *)
Lemma lor_shiftl_add a b n : 0 <= n -> 0 <= b < 2 ^ n -> Z.lor (Z.shiftl a n) b = a * 2 ^ n + b.
Proof.
  intros Hn Hb. rewrite <- Z.add_nocarry_lor; [by rewrite Z.shiftl_mul_pow2 by lia|].
  apply Z.bits_inj'. intros i Hi. rewrite Z.land_spec, Z.bits_0, Z.shiftl_spec by lia.
  destruct (decide (i < n)).
  - by rewrite Z.testbit_neg_r by lia.
  - destruct (decide (b = 0)) as [->|]; [by rewrite Z.bits_0, andb_false_r|].
    rewrite (Z.bits_above_log2 b), andb_false_r; [done|lia|].
    apply Z.lt_le_trans with n; [apply Z.log2_lt_pow2; lia|lia].
Qed.

Lemma lor_shiftl_byte a b : is_byte b -> Z.lor (Z.shiftl a 8) b = a * 256 + b.
Proof. intros. rewrite lor_shiftl_add; [done|lia|apply H]. Qed.

(** ** Lists and lengths *)

Lemma len_nonneg {A} (l : list A) : 0 <= len l.
Proof. unfold len. lia. Qed.

Lemma len_nil {A} : len (@nil A) = 0.
Proof. reflexivity. Qed.

Lemma len_cons {A} (x : A) l : len (x :: l) = 1 + len l.
Proof. unfold len. simpl. lia. Qed.

Lemma len_app {A} (l k : list A) : len (l ++ k) = len l + len k.
Proof. unfold len. rewrite length_app. lia. Qed.

Lemma len_replicate {A} n (x : A) : len (replicate n x) = Z.of_nat n.
Proof. unfold len. by rewrite length_replicate. Qed.

Lemma len_take {A} n (l : list A) : len (take n l) = Z.min (Z.of_nat n) (len l).
Proof. unfold len. rewrite length_take. lia. Qed.

Lemma len_drop {A} n (l : list A) : len (drop n l) = Z.max 0 (len l - Z.of_nat n).
Proof. unfold len. rewrite length_drop. lia. Qed.

Lemma len_zero {A} (l : list A) : len l = 0 <-> l = [].
Proof. unfold len. destruct l; simpl; naive_solver lia. Qed.

#[export] Hint Rewrite @len_nil @len_cons @len_app @len_replicate @len_take @len_drop : zpico_len.

Ltac len_simpl := autorewrite with zpico_len in *.

Lemma to_nat_len {A} (l : list A) : Z.to_nat (len l) = length l.
Proof. unfold len. lia. Qed.

Lemma take_len_app {A} (l k : list A) : take (Z.to_nat (len l)) (l ++ k) = l.
Proof. rewrite to_nat_len. apply take_app_length. Qed.

Lemma drop_len_app {A} (l k : list A) : drop (Z.to_nat (len l)) (l ++ k) = k.
Proof. rewrite to_nat_len. apply drop_app_length. Qed.

#[export] Hint Resolve Forall_nil_2 Forall_cons_2 Forall_app_2 Forall_take Forall_drop : zpico.
