(* ===== verification/Constants.v ===== *)
(** * Constants

    The numeric constants of [include/zpicotls.h] and [lib/picotls.c] that the modelled code
    uses, under their own names: versions, alerts, error codes, message and extension types. *)

From S2P Require Import Prelude.

(* src include/zpicotls.h:82 PTLS_HELLO_RANDOM_SIZE *)
Definition PTLS_HELLO_RANDOM_SIZE : Z := 32.
(* src include/zpicotls.h:86 PTLS_AES_BLOCK_SIZE *)
Definition PTLS_AES_BLOCK_SIZE : Z := 16.
(* src include/zpicotls.h:84 PTLS_AES128_KEY_SIZE *)
Definition PTLS_AES128_KEY_SIZE : Z := 16.
(* src include/zpicotls.h:85 PTLS_AES256_KEY_SIZE *)
Definition PTLS_AES256_KEY_SIZE : Z := 32.
(* src include/zpicotls.h:88 PTLS_AESGCM_IV_SIZE *)
Definition PTLS_AESGCM_IV_SIZE : Z := 12.
(* src include/zpicotls.h:89 PTLS_AESGCM_TAG_SIZE *)
Definition PTLS_AESGCM_TAG_SIZE : Z := 16.
(* src include/zpicotls.h:96 PTLS_CHACHA20_IV_SIZE *)
Definition PTLS_CHACHA20_IV_SIZE : Z := 16.
(* src include/zpicotls.h:97 PTLS_CHACHA20POLY1305_IV_SIZE *)
Definition PTLS_CHACHA20POLY1305_IV_SIZE : Z := 12.
(* src include/zpicotls.h:98 PTLS_CHACHA20POLY1305_TAG_SIZE *)
Definition PTLS_CHACHA20POLY1305_TAG_SIZE : Z := 16.
(* src include/zpicotls.h:117 PTLS_QUICLB_KEY_SIZE *)
Definition PTLS_QUICLB_KEY_SIZE : Z := 16.
(* src include/zpicotls.h:118 PTLS_QUICLB_MIN_BLOCK_SIZE *)
Definition PTLS_QUICLB_MIN_BLOCK_SIZE : Z := 7.
(* src include/zpicotls.h:119 PTLS_QUICLB_MAX_BLOCK_SIZE *)
Definition PTLS_QUICLB_MAX_BLOCK_SIZE : Z := 19.
(* src include/zpicotls.h:124 PTLS_SHA256_BLOCK_SIZE *)
Definition PTLS_SHA256_BLOCK_SIZE : Z := 64.
(* src include/zpicotls.h:125 PTLS_SHA256_DIGEST_SIZE *)
Definition PTLS_SHA256_DIGEST_SIZE : Z := 32.
(* src include/zpicotls.h:127 PTLS_SHA384_BLOCK_SIZE *)
Definition PTLS_SHA384_BLOCK_SIZE : Z := 128.
(* src include/zpicotls.h:128 PTLS_SHA384_DIGEST_SIZE *)
Definition PTLS_SHA384_DIGEST_SIZE : Z := 48.
(* src include/zpicotls.h:130 PTLS_SHA512_BLOCK_SIZE *)
Definition PTLS_SHA512_BLOCK_SIZE : Z := 128.
(* src include/zpicotls.h:131 PTLS_SHA512_DIGEST_SIZE *)
Definition PTLS_SHA512_DIGEST_SIZE : Z := 64.
(* src include/zpicotls.h:133 PTLS_MAX_SECRET_SIZE *)
Definition PTLS_MAX_SECRET_SIZE : Z := 32.
(* src include/zpicotls.h:134 PTLS_MAX_IV_SIZE *)
Definition PTLS_MAX_IV_SIZE : Z := 32.
(* src include/zpicotls.h:135 PTLS_MAX_DIGEST_SIZE *)
Definition PTLS_MAX_DIGEST_SIZE : Z := 64.
(* src include/zpicotls.h:136 PTLS_MAX_SIGNATURE_ALGORITHMS *)
Definition PTLS_MAX_SIGNATURE_ALGORITHMS : Z := 64.
(* src include/zpicotls.h:139 PTLS_PROTOCOL_VERSION_TLS12 *)
Definition PTLS_PROTOCOL_VERSION_TLS12 : Z := 0x0303.
(* src include/zpicotls.h:140 PTLS_PROTOCOL_VERSION_TLS13 *)
Definition PTLS_PROTOCOL_VERSION_TLS13 : Z := 0x0304.
(* src include/zpicotls.h:204 PTLS_HPKE_MODE_BASE *)
Definition PTLS_HPKE_MODE_BASE : Z := 0.
(* src include/zpicotls.h:219 PTLS_ERROR_CLASS_SELF_ALERT *)
Definition PTLS_ERROR_CLASS_SELF_ALERT : Z := 0.
(* src include/zpicotls.h:220 PTLS_ERROR_CLASS_PEER_ALERT *)
Definition PTLS_ERROR_CLASS_PEER_ALERT : Z := 0x100.
(* src include/zpicotls.h:221 PTLS_ERROR_CLASS_INTERNAL *)
Definition PTLS_ERROR_CLASS_INTERNAL : Z := 0x200.
(* src include/zpicotls.h:232 PTLS_ALERT_LEVEL_WARNING *)
Definition PTLS_ALERT_LEVEL_WARNING : Z := 1.
(* src include/zpicotls.h:233 PTLS_ALERT_LEVEL_FATAL *)
Definition PTLS_ALERT_LEVEL_FATAL : Z := 2.
(* src include/zpicotls.h:235 PTLS_ALERT_CLOSE_NOTIFY *)
Definition PTLS_ALERT_CLOSE_NOTIFY : Z := 0.
(* src include/zpicotls.h:236 PTLS_ALERT_UNEXPECTED_MESSAGE *)
Definition PTLS_ALERT_UNEXPECTED_MESSAGE : Z := 10.
(* src include/zpicotls.h:237 PTLS_ALERT_BAD_RECORD_MAC *)
Definition PTLS_ALERT_BAD_RECORD_MAC : Z := 20.
(* src include/zpicotls.h:238 PTLS_ALERT_HANDSHAKE_FAILURE *)
Definition PTLS_ALERT_HANDSHAKE_FAILURE : Z := 40.
(* src include/zpicotls.h:239 PTLS_ALERT_BAD_CERTIFICATE *)
Definition PTLS_ALERT_BAD_CERTIFICATE : Z := 42.
(* src include/zpicotls.h:240 PTLS_ALERT_UNSUPPORTED_CERTIFICATE *)
Definition PTLS_ALERT_UNSUPPORTED_CERTIFICATE : Z := 43.
(* src include/zpicotls.h:241 PTLS_ALERT_CERTIFICATE_REVOKED *)
Definition PTLS_ALERT_CERTIFICATE_REVOKED : Z := 44.
(* src include/zpicotls.h:242 PTLS_ALERT_CERTIFICATE_EXPIRED *)
Definition PTLS_ALERT_CERTIFICATE_EXPIRED : Z := 45.
(* src include/zpicotls.h:243 PTLS_ALERT_CERTIFICATE_UNKNOWN *)
Definition PTLS_ALERT_CERTIFICATE_UNKNOWN : Z := 46.
(* src include/zpicotls.h:244 PTLS_ALERT_ILLEGAL_PARAMETER *)
Definition PTLS_ALERT_ILLEGAL_PARAMETER : Z := 47.
(* src include/zpicotls.h:245 PTLS_ALERT_UNKNOWN_CA *)
Definition PTLS_ALERT_UNKNOWN_CA : Z := 48.
(* src include/zpicotls.h:246 PTLS_ALERT_ACCESS_DENIED *)
Definition PTLS_ALERT_ACCESS_DENIED : Z := 49.
(* src include/zpicotls.h:247 PTLS_ALERT_DECODE_ERROR *)
Definition PTLS_ALERT_DECODE_ERROR : Z := 50.
(* src include/zpicotls.h:248 PTLS_ALERT_DECRYPT_ERROR *)
Definition PTLS_ALERT_DECRYPT_ERROR : Z := 51.
(* src include/zpicotls.h:249 PTLS_ALERT_PROTOCOL_VERSION *)
Definition PTLS_ALERT_PROTOCOL_VERSION : Z := 70.
(* src include/zpicotls.h:250 PTLS_ALERT_INTERNAL_ERROR *)
Definition PTLS_ALERT_INTERNAL_ERROR : Z := 80.
(* src include/zpicotls.h:251 PTLS_ALERT_USER_CANCELED *)
Definition PTLS_ALERT_USER_CANCELED : Z := 90.
(* src include/zpicotls.h:252 PTLS_ALERT_MISSING_EXTENSION *)
Definition PTLS_ALERT_MISSING_EXTENSION : Z := 109.
(* src include/zpicotls.h:253 PTLS_ALERT_UNSUPPORTED_EXTENSION *)
Definition PTLS_ALERT_UNSUPPORTED_EXTENSION : Z := 110.
(* src include/zpicotls.h:254 PTLS_ALERT_UNRECOGNIZED_NAME *)
Definition PTLS_ALERT_UNRECOGNIZED_NAME : Z := 112.
(* src include/zpicotls.h:255 PTLS_ALERT_UNKNOWN_PSK_IDENTITY *)
Definition PTLS_ALERT_UNKNOWN_PSK_IDENTITY : Z := 115.
(* src include/zpicotls.h:256 PTLS_ALERT_CERTIFICATE_REQUIRED *)
Definition PTLS_ALERT_CERTIFICATE_REQUIRED : Z := 116.
(* src include/zpicotls.h:257 PTLS_ALERT_NO_APPLICATION_PROTOCOL *)
Definition PTLS_ALERT_NO_APPLICATION_PROTOCOL : Z := 120.
(* src include/zpicotls.h:258 PTLS_ALERT_ECH_REQUIRED *)
Definition PTLS_ALERT_ECH_REQUIRED : Z := 121.
(* src include/zpicotls.h:261 PTLS_TLS12_MASTER_SECRET_SIZE *)
Definition PTLS_TLS12_MASTER_SECRET_SIZE : Z := 48.
(* src include/zpicotls.h:262 PTLS_TLS12_AAD_SIZE *)
Definition PTLS_TLS12_AAD_SIZE : Z := 13.
(* src include/zpicotls.h:263 PTLS_TLS12_AESGCM_FIXED_IV_SIZE *)
Definition PTLS_TLS12_AESGCM_FIXED_IV_SIZE : Z := 4.
(* src include/zpicotls.h:264 PTLS_TLS12_AESGCM_RECORD_IV_SIZE *)
Definition PTLS_TLS12_AESGCM_RECORD_IV_SIZE : Z := 8.
(* src include/zpicotls.h:265 PTLS_TLS12_CHACHAPOLY_FIXED_IV_SIZE *)
Definition PTLS_TLS12_CHACHAPOLY_FIXED_IV_SIZE : Z := 12.
(* src include/zpicotls.h:266 PTLS_TLS12_CHACHAPOLY_RECORD_IV_SIZE *)
Definition PTLS_TLS12_CHACHAPOLY_RECORD_IV_SIZE : Z := 0.
(* src include/zpicotls.h:269 PTLS_ERROR_NO_MEMORY *)
Definition PTLS_ERROR_NO_MEMORY : Z := (PTLS_ERROR_CLASS_INTERNAL + 1).
(* src include/zpicotls.h:270 PTLS_ERROR_IN_PROGRESS *)
Definition PTLS_ERROR_IN_PROGRESS : Z := (PTLS_ERROR_CLASS_INTERNAL + 2).
(* src include/zpicotls.h:271 PTLS_ERROR_LIBRARY *)
Definition PTLS_ERROR_LIBRARY : Z := (PTLS_ERROR_CLASS_INTERNAL + 3).
(* src include/zpicotls.h:272 PTLS_ERROR_INCOMPATIBLE_KEY *)
Definition PTLS_ERROR_INCOMPATIBLE_KEY : Z := (PTLS_ERROR_CLASS_INTERNAL + 4).
(* src include/zpicotls.h:273 PTLS_ERROR_SESSION_NOT_FOUND *)
Definition PTLS_ERROR_SESSION_NOT_FOUND : Z := (PTLS_ERROR_CLASS_INTERNAL + 5).
(* src include/zpicotls.h:274 PTLS_ERROR_STATELESS_RETRY *)
Definition PTLS_ERROR_STATELESS_RETRY : Z := (PTLS_ERROR_CLASS_INTERNAL + 6).
(* src include/zpicotls.h:275 PTLS_ERROR_NOT_AVAILABLE *)
Definition PTLS_ERROR_NOT_AVAILABLE : Z := (PTLS_ERROR_CLASS_INTERNAL + 7).
(* src include/zpicotls.h:276 PTLS_ERROR_COMPRESSION_FAILURE *)
Definition PTLS_ERROR_COMPRESSION_FAILURE : Z := (PTLS_ERROR_CLASS_INTERNAL + 8).
(* src include/zpicotls.h:277 PTLS_ERROR_REJECT_EARLY_DATA *)
Definition PTLS_ERROR_REJECT_EARLY_DATA : Z := (PTLS_ERROR_CLASS_INTERNAL + 9).
(* src include/zpicotls.h:278 PTLS_ERROR_DELEGATE *)
Definition PTLS_ERROR_DELEGATE : Z := (PTLS_ERROR_CLASS_INTERNAL + 10).
(* src include/zpicotls.h:279 PTLS_ERROR_ASYNC_OPERATION *)
Definition PTLS_ERROR_ASYNC_OPERATION : Z := (PTLS_ERROR_CLASS_INTERNAL + 11).
(* src include/zpicotls.h:280 PTLS_ERROR_BLOCK_OVERFLOW *)
Definition PTLS_ERROR_BLOCK_OVERFLOW : Z := (PTLS_ERROR_CLASS_INTERNAL + 12).
(* src include/zpicotls.h:282 PTLS_ERROR_INCORRECT_BASE64 *)
Definition PTLS_ERROR_INCORRECT_BASE64 : Z := (PTLS_ERROR_CLASS_INTERNAL + 50).
(* src include/zpicotls.h:283 PTLS_ERROR_PEM_LABEL_NOT_FOUND *)
Definition PTLS_ERROR_PEM_LABEL_NOT_FOUND : Z := (PTLS_ERROR_CLASS_INTERNAL + 51).
(* src include/zpicotls.h:284 PTLS_ERROR_BER_INCORRECT_ENCODING *)
Definition PTLS_ERROR_BER_INCORRECT_ENCODING : Z := (PTLS_ERROR_CLASS_INTERNAL + 52).
(* src include/zpicotls.h:285 PTLS_ERROR_BER_MALFORMED_TYPE *)
Definition PTLS_ERROR_BER_MALFORMED_TYPE : Z := (PTLS_ERROR_CLASS_INTERNAL + 53).
(* src include/zpicotls.h:286 PTLS_ERROR_BER_MALFORMED_LENGTH *)
Definition PTLS_ERROR_BER_MALFORMED_LENGTH : Z := (PTLS_ERROR_CLASS_INTERNAL + 54).
(* src include/zpicotls.h:287 PTLS_ERROR_BER_EXCESSIVE_LENGTH *)
Definition PTLS_ERROR_BER_EXCESSIVE_LENGTH : Z := (PTLS_ERROR_CLASS_INTERNAL + 55).
(* src include/zpicotls.h:288 PTLS_ERROR_BER_ELEMENT_TOO_SHORT *)
Definition PTLS_ERROR_BER_ELEMENT_TOO_SHORT : Z := (PTLS_ERROR_CLASS_INTERNAL + 56).
(* src include/zpicotls.h:289 PTLS_ERROR_BER_UNEXPECTED_EOC *)
Definition PTLS_ERROR_BER_UNEXPECTED_EOC : Z := (PTLS_ERROR_CLASS_INTERNAL + 57).
(* src include/zpicotls.h:290 PTLS_ERROR_DER_INDEFINITE_LENGTH *)
Definition PTLS_ERROR_DER_INDEFINITE_LENGTH : Z := (PTLS_ERROR_CLASS_INTERNAL + 58).
(* src include/zpicotls.h:291 PTLS_ERROR_INCORRECT_ASN1_SYNTAX *)
Definition PTLS_ERROR_INCORRECT_ASN1_SYNTAX : Z := (PTLS_ERROR_CLASS_INTERNAL + 59).
(* src include/zpicotls.h:292 PTLS_ERROR_INCORRECT_PEM_KEY_VERSION *)
Definition PTLS_ERROR_INCORRECT_PEM_KEY_VERSION : Z := (PTLS_ERROR_CLASS_INTERNAL + 60).
(* src include/zpicotls.h:293 PTLS_ERROR_INCORRECT_PEM_ECDSA_KEY_VERSION *)
Definition PTLS_ERROR_INCORRECT_PEM_ECDSA_KEY_VERSION : Z := (PTLS_ERROR_CLASS_INTERNAL + 61).
(* src include/zpicotls.h:294 PTLS_ERROR_INCORRECT_PEM_ECDSA_CURVE *)
Definition PTLS_ERROR_INCORRECT_PEM_ECDSA_CURVE : Z := (PTLS_ERROR_CLASS_INTERNAL + 62).
(* src include/zpicotls.h:295 PTLS_ERROR_INCORRECT_PEM_ECDSA_KEYSIZE *)
Definition PTLS_ERROR_INCORRECT_PEM_ECDSA_KEYSIZE : Z := (PTLS_ERROR_CLASS_INTERNAL + 63).
(* src include/zpicotls.h:296 PTLS_ERROR_INCORRECT_ASN1_ECDSA_KEY_SYNTAX *)
Definition PTLS_ERROR_INCORRECT_ASN1_ECDSA_KEY_SYNTAX : Z := (PTLS_ERROR_CLASS_INTERNAL + 64).
(* src include/zpicotls.h:298 PTLS_HANDSHAKE_TYPE_CLIENT_HELLO *)
Definition PTLS_HANDSHAKE_TYPE_CLIENT_HELLO : Z := 1.
(* src include/zpicotls.h:299 PTLS_HANDSHAKE_TYPE_SERVER_HELLO *)
Definition PTLS_HANDSHAKE_TYPE_SERVER_HELLO : Z := 2.
(* src include/zpicotls.h:300 PTLS_HANDSHAKE_TYPE_NEW_SESSION_TICKET *)
Definition PTLS_HANDSHAKE_TYPE_NEW_SESSION_TICKET : Z := 4.
(* src include/zpicotls.h:301 PTLS_HANDSHAKE_TYPE_END_OF_EARLY_DATA *)
Definition PTLS_HANDSHAKE_TYPE_END_OF_EARLY_DATA : Z := 5.
(* src include/zpicotls.h:302 PTLS_HANDSHAKE_TYPE_ENCRYPTED_EXTENSIONS *)
Definition PTLS_HANDSHAKE_TYPE_ENCRYPTED_EXTENSIONS : Z := 8.
(* src include/zpicotls.h:303 PTLS_HANDSHAKE_TYPE_CERTIFICATE *)
Definition PTLS_HANDSHAKE_TYPE_CERTIFICATE : Z := 11.
(* src include/zpicotls.h:304 PTLS_HANDSHAKE_TYPE_CERTIFICATE_REQUEST *)
Definition PTLS_HANDSHAKE_TYPE_CERTIFICATE_REQUEST : Z := 13.
(* src include/zpicotls.h:305 PTLS_HANDSHAKE_TYPE_CERTIFICATE_VERIFY *)
Definition PTLS_HANDSHAKE_TYPE_CERTIFICATE_VERIFY : Z := 15.
(* src include/zpicotls.h:306 PTLS_HANDSHAKE_TYPE_FINISHED *)
Definition PTLS_HANDSHAKE_TYPE_FINISHED : Z := 20.
(* src include/zpicotls.h:307 PTLS_HANDSHAKE_TYPE_KEY_UPDATE *)
Definition PTLS_HANDSHAKE_TYPE_KEY_UPDATE : Z := 24.
(* src include/zpicotls.h:308 PTLS_HANDSHAKE_TYPE_COMPRESSED_CERTIFICATE *)
Definition PTLS_HANDSHAKE_TYPE_COMPRESSED_CERTIFICATE : Z := 25.
(* src include/zpicotls.h:309 PTLS_HANDSHAKE_TYPE_MESSAGE_HASH *)
Definition PTLS_HANDSHAKE_TYPE_MESSAGE_HASH : Z := 254.
(* src include/zpicotls.h:310 PTLS_HANDSHAKE_TYPE_PSEUDO_HRR *)
Definition PTLS_HANDSHAKE_TYPE_PSEUDO_HRR : Z := -1.
(* src include/zpicotls.h:312 PTLS_CERTIFICATE_TYPE_X509 *)
Definition PTLS_CERTIFICATE_TYPE_X509 : Z := 0.
(* src include/zpicotls.h:313 PTLS_CERTIFICATE_TYPE_RAW_PUBLIC_KEY *)
Definition PTLS_CERTIFICATE_TYPE_RAW_PUBLIC_KEY : Z := 2.
(* src include/zpicotls.h:336 PTLS_DEFAULT_MAX_TICKETS_TO_SERVE *)
Definition PTLS_DEFAULT_MAX_TICKETS_TO_SERVE : Z := 4.
(* src include/zpicotls.h:1255 PTLS_ENCODE_QUICINT_CAPACITY *)
Definition PTLS_ENCODE_QUICINT_CAPACITY : Z := 8.
(* src include/zpicotls.h:1257 PTLS_QUICINT_MAX *)
Definition PTLS_QUICINT_MAX : Z := 4611686018427387903.
(* src lib/picotls.c:52 PTLS_MAX_PLAINTEXT_RECORD_SIZE *)
Definition PTLS_MAX_PLAINTEXT_RECORD_SIZE : Z := 16384.
(* src lib/picotls.c:53 PTLS_MAX_ENCRYPTED_RECORD_SIZE *)
Definition PTLS_MAX_ENCRYPTED_RECORD_SIZE : Z := (16384 + 256).
(* src lib/picotls.c:55 PTLS_RECORD_VERSION_MAJOR *)
Definition PTLS_RECORD_VERSION_MAJOR : Z := 3.
(* src lib/picotls.c:56 PTLS_RECORD_VERSION_MINOR *)
Definition PTLS_RECORD_VERSION_MINOR : Z := 3.
(* src lib/picotls.c:58 PTLS_CONTENT_TYPE_CHANGE_CIPHER_SPEC *)
Definition PTLS_CONTENT_TYPE_CHANGE_CIPHER_SPEC : Z := 20.
(* src lib/picotls.c:59 PTLS_CONTENT_TYPE_ALERT *)
Definition PTLS_CONTENT_TYPE_ALERT : Z := 21.
(* src lib/picotls.c:60 PTLS_CONTENT_TYPE_HANDSHAKE *)
Definition PTLS_CONTENT_TYPE_HANDSHAKE : Z := 22.
(* src lib/picotls.c:61 PTLS_CONTENT_TYPE_APPDATA *)
Definition PTLS_CONTENT_TYPE_APPDATA : Z := 23.
(* src lib/picotls.c:63 PTLS_PSK_KE_MODE_PSK *)
Definition PTLS_PSK_KE_MODE_PSK : Z := 0.
(* src lib/picotls.c:64 PTLS_PSK_KE_MODE_PSK_DHE *)
Definition PTLS_PSK_KE_MODE_PSK_DHE : Z := 1.
(* src lib/picotls.c:66 PTLS_HANDSHAKE_HEADER_SIZE *)
Definition PTLS_HANDSHAKE_HEADER_SIZE : Z := 4.
(* src lib/picotls.c:68 PTLS_EXTENSION_TYPE_SERVER_NAME *)
Definition PTLS_EXTENSION_TYPE_SERVER_NAME : Z := 0.
(* src lib/picotls.c:69 PTLS_EXTENSION_TYPE_STATUS_REQUEST *)
Definition PTLS_EXTENSION_TYPE_STATUS_REQUEST : Z := 5.
(* src lib/picotls.c:70 PTLS_EXTENSION_TYPE_SUPPORTED_GROUPS *)
Definition PTLS_EXTENSION_TYPE_SUPPORTED_GROUPS : Z := 10.
(* src lib/picotls.c:71 PTLS_EXTENSION_TYPE_SIGNATURE_ALGORITHMS *)
Definition PTLS_EXTENSION_TYPE_SIGNATURE_ALGORITHMS : Z := 13.
(* src lib/picotls.c:72 PTLS_EXTENSION_TYPE_ALPN *)
Definition PTLS_EXTENSION_TYPE_ALPN : Z := 16.
(* src lib/picotls.c:73 PTLS_EXTENSION_TYPE_SERVER_CERTIFICATE_TYPE *)
Definition PTLS_EXTENSION_TYPE_SERVER_CERTIFICATE_TYPE : Z := 20.
(* src lib/picotls.c:74 PTLS_EXTENSION_TYPE_COMPRESS_CERTIFICATE *)
Definition PTLS_EXTENSION_TYPE_COMPRESS_CERTIFICATE : Z := 27.
(* src lib/picotls.c:75 PTLS_EXTENSION_TYPE_PRE_SHARED_KEY *)
Definition PTLS_EXTENSION_TYPE_PRE_SHARED_KEY : Z := 41.
(* src lib/picotls.c:76 PTLS_EXTENSION_TYPE_EARLY_DATA *)
Definition PTLS_EXTENSION_TYPE_EARLY_DATA : Z := 42.
(* src lib/picotls.c:77 PTLS_EXTENSION_TYPE_SUPPORTED_VERSIONS *)
Definition PTLS_EXTENSION_TYPE_SUPPORTED_VERSIONS : Z := 43.
(* src lib/picotls.c:78 PTLS_EXTENSION_TYPE_COOKIE *)
Definition PTLS_EXTENSION_TYPE_COOKIE : Z := 44.
(* src lib/picotls.c:79 PTLS_EXTENSION_TYPE_PSK_KEY_EXCHANGE_MODES *)
Definition PTLS_EXTENSION_TYPE_PSK_KEY_EXCHANGE_MODES : Z := 45.
(* src lib/picotls.c:80 PTLS_EXTENSION_TYPE_CERTIFICATE_AUTHORITIES *)
Definition PTLS_EXTENSION_TYPE_CERTIFICATE_AUTHORITIES : Z := 47.
(* src lib/picotls.c:81 PTLS_EXTENSION_TYPE_KEY_SHARE *)
Definition PTLS_EXTENSION_TYPE_KEY_SHARE : Z := 51.
(* src lib/picotls.c:82 PTLS_EXTENSION_TYPE_TICKET_REQUEST *)
Definition PTLS_EXTENSION_TYPE_TICKET_REQUEST : Z := 58.
(* src lib/picotls.c:83 PTLS_EXTENSION_TYPE_ECH_OUTER_EXTENSIONS *)
Definition PTLS_EXTENSION_TYPE_ECH_OUTER_EXTENSIONS : Z := 0xfd00.
(* src lib/picotls.c:84 PTLS_EXTENSION_TYPE_ENCRYPTED_CLIENT_HELLO *)
Definition PTLS_EXTENSION_TYPE_ENCRYPTED_CLIENT_HELLO : Z := 0xfe0d.
(* src lib/picotls.c:86 PTLS_SERVER_NAME_TYPE_HOSTNAME *)
Definition PTLS_SERVER_NAME_TYPE_HOSTNAME : Z := 0.
(* src lib/picotls.c:88 PTLS_ECH_CONFIG_VERSION *)
Definition PTLS_ECH_CONFIG_VERSION : Z := 0xfe0d.
(* src lib/picotls.c:89 PTLS_ECH_CLIENT_HELLO_TYPE_OUTER *)
Definition PTLS_ECH_CLIENT_HELLO_TYPE_OUTER : Z := 0.
(* src lib/picotls.c:90 PTLS_ECH_CLIENT_HELLO_TYPE_INNER *)
Definition PTLS_ECH_CLIENT_HELLO_TYPE_INNER : Z := 1.
(* src lib/picotls.c:92 PTLS_ECH_CONFIRM_LENGTH *)
Definition PTLS_ECH_CONFIRM_LENGTH : Z := 8.
(* src lib/picotls.c:101 PTLS_EARLY_DATA_MAX_DELAY *)
Definition PTLS_EARLY_DATA_MAX_DELAY : Z := 10000.
(* src lib/picotls.c:104 PTLS_MAX_EARLY_DATA_SKIP_SIZE *)
Definition PTLS_MAX_EARLY_DATA_SKIP_SIZE : Z := 65536.
(* src lib/picotls.c:357 MAX_UNKNOWN_EXTENSIONS *)
Definition MAX_UNKNOWN_EXTENSIONS : Z := 16.
(* src lib/picotls.c:358 MAX_CERTIFICATE_TYPES *)
Definition MAX_CERTIFICATE_TYPES : Z := 8.

(* src include/zpicotls.h:223 PTLS_ERROR_GET_CLASS *)
Definition PTLS_ERROR_GET_CLASS (e : Z) : Z := Z.land e (Z.lnot 0xff).
(* src include/zpicotls.h:225 PTLS_ALERT_TO_PEER_ERROR *)
Definition PTLS_ALERT_TO_PEER_ERROR (e : Z) : Z := e + PTLS_ERROR_CLASS_PEER_ALERT.

(* src include/zpicotls.h:147 PTLS_CIPHER_SUITE_CHACHA20_POLY1305_SHA256 *)
Definition PTLS_CIPHER_SUITE_CHACHA20_POLY1305_SHA256 : Z := 0x1303.
(* src include/zpicotls.h:193 PTLS_SIGNATURE_RSA_PKCS1_SHA1 *)
Definition PTLS_SIGNATURE_RSA_PKCS1_SHA1 : Z := 0x0201.
(* src include/zpicotls.h:194 PTLS_SIGNATURE_RSA_PKCS1_SHA256 *)
Definition PTLS_SIGNATURE_RSA_PKCS1_SHA256 : Z := 0x0401.
(* src include/zpicotls.h:195 PTLS_SIGNATURE_ECDSA_SECP256R1_SHA256 *)
Definition PTLS_SIGNATURE_ECDSA_SECP256R1_SHA256 : Z := 0x0403.
(* src include/zpicotls.h:196 PTLS_SIGNATURE_ECDSA_SECP384R1_SHA384 *)
Definition PTLS_SIGNATURE_ECDSA_SECP384R1_SHA384 : Z := 0x0503.
(* src include/zpicotls.h:198 PTLS_SIGNATURE_RSA_PSS_RSAE_SHA256 *)
Definition PTLS_SIGNATURE_RSA_PSS_RSAE_SHA256 : Z := 0x0804.
(* src include/zpicotls.h:199 PTLS_SIGNATURE_RSA_PSS_RSAE_SHA384 *)
Definition PTLS_SIGNATURE_RSA_PSS_RSAE_SHA384 : Z := 0x0805.
(* src include/zpicotls.h:200 PTLS_SIGNATURE_RSA_PSS_RSAE_SHA512 *)
Definition PTLS_SIGNATURE_RSA_PSS_RSAE_SHA512 : Z := 0x0806.
(* src include/zpicotls.h:201 PTLS_SIGNATURE_ED25519 *)
Definition PTLS_SIGNATURE_ED25519 : Z := 0x0807.
(* src include/zpicotls.h:197 PTLS_SIGNATURE_ECDSA_SECP521R1_SHA512 *)
Definition PTLS_SIGNATURE_ECDSA_SECP521R1_SHA512 : Z := 0x0603.
(* src include/zpicotls.h:210 PTLS_HPKE_KEM_X25519_SHA256 *)
Definition PTLS_HPKE_KEM_X25519_SHA256 : Z := 32.
(* src include/zpicotls.h:211 PTLS_HPKE_HKDF_SHA256 *)
Definition PTLS_HPKE_HKDF_SHA256 : Z := 1.
(* src include/zpicotls.h:214 PTLS_HPKE_AEAD_AES_128_GCM *)
Definition PTLS_HPKE_AEAD_AES_128_GCM : Z := 1.

(* src lib/picotls.c:94 ech_info_prefix *)
Definition ech_info_prefix : bytes := str "tls ech" ++ [0].

(* src lib/picotls.c:137-139 hello_retry_random *)
Definition hello_retry_random : bytes :=
  [0xCF; 0x21; 0xAD; 0x74; 0xE5; 0x9A; 0x61; 0x11; 0xBE; 0x1D; 0x8C;
   0x02; 0x1E; 0x65; 0xB8; 0x91; 0xC2; 0xA2; 0x11; 0x16; 0x7A; 0xBB;
   0x8C; 0x5E; 0x07; 0x9E; 0x09; 0xE2; 0xC8; 0xA8; 0x33; 0x9C].
