(* ===== verification/Wire.v ===== *)
(** * Wire: integers, variable-length integers and length-prefixed blocks

    The scalar codec of [lib/picotls.c] ([ntoh16] ... [ptls_decode_quicint]) and of the macros
    and inline functions of [include/zpicotls.h] ([ptls_buffer_push16] ..., [ptls_encode_quicint],
    [ptls_decode_open_block], [ptls_decode_block]).  A C pair of pointers [src]/[end] is the list
    of the bytes between them; advancing [*src] is returning a shorter list. *)

From S2P Require Import Prelude Constants.

(** ** Reading and writing big-endian integers *)

Definition byte_at (src : bytes) (i : nat) : Z := nth i src 0.

(* src lib/picotls.c:536-539 ntoh16 *)
Definition ntoh16 (src : bytes) : Z :=
  Z.lor (Z.shiftl (byte_at src 0) 8) (byte_at src 1).

(* src lib/picotls.c:543-546 ntoh24 *)
Definition ntoh24 (src : bytes) : Z :=
  Z.lor (Z.lor (Z.shiftl (byte_at src 0) 16) (Z.shiftl (byte_at src 1) 8)) (byte_at src 2).

(* src lib/picotls.c:550-553 ntoh32 *)
Definition ntoh32 (src : bytes) : Z :=
  Z.lor (Z.lor (Z.lor (Z.shiftl (byte_at src 0) 24) (Z.shiftl (byte_at src 1) 16))
               (Z.shiftl (byte_at src 2) 8)) (byte_at src 3).

(* src lib/picotls.c:557-561 ntoh64 *)
Definition ntoh64 (src : bytes) : Z :=
  Z.lor (Z.lor (Z.lor (Z.lor (Z.lor (Z.lor (Z.lor
    (Z.shiftl (byte_at src 0) 56) (Z.shiftl (byte_at src 1) 48)) (Z.shiftl (byte_at src 2) 40))
    (Z.shiftl (byte_at src 3) 32)) (Z.shiftl (byte_at src 4) 24)) (Z.shiftl (byte_at src 5) 16))
    (Z.shiftl (byte_at src 6) 8)) (byte_at src 7).

(* src lib/picotls.c:564-568 encode64 *)
Definition encode64 (v : Z) : bytes :=
  (λ i, u8 (Z.shiftr v (56 - 8 * Z.of_nat i))) <$> seq 0 8.

(* src include/zpicotls.h:1272-1276 ptls_buffer_push16 *)
Definition bytes16 (v : Z) : bytes :=
  let _v := u16 v in [u8 (Z.shiftr _v 8); u8 _v].

(* src include/zpicotls.h:1278-1282 ptls_buffer_push24 *)
Definition bytes24 (v : Z) : bytes :=
  let _v := u32 v in [u8 (Z.shiftr _v 16); u8 (Z.shiftr _v 8); u8 _v].

(* src include/zpicotls.h:1284-1288 ptls_buffer_push32 *)
Definition bytes32 (v : Z) : bytes :=
  let _v := u32 v in
  [u8 (Z.shiftr _v 24); u8 (Z.shiftr _v 16); u8 (Z.shiftr _v 8); u8 _v].

(* src include/zpicotls.h:1290-1295 ptls_buffer_push64 *)
Definition bytes64 (v : Z) : bytes :=
  let _v := u64 v in
  [u8 (Z.shiftr _v 56); u8 (Z.shiftr _v 48); u8 (Z.shiftr _v 40); u8 (Z.shiftr _v 32);
   u8 (Z.shiftr _v 24); u8 (Z.shiftr _v 16); u8 (Z.shiftr _v 8); u8 _v].

(* src lib/picotls.c:967-973 ptls_decode8 *)
Definition ptls_decode8 (src : bytes) : result (Z * bytes) :=
  match src with
  | [] => Err PTLS_ALERT_DECODE_ERROR
  | b :: src => Ok (b, src)
  end.

(* src lib/picotls.c:975-982 ptls_decode16 *)
Definition ptls_decode16 (src : bytes) : result (Z * bytes) :=
  if len src <? 2 then Err PTLS_ALERT_DECODE_ERROR else Ok (ntoh16 src, drop 2 src).

(* src lib/picotls.c:984-991 ptls_decode24 *)
Definition ptls_decode24 (src : bytes) : result (Z * bytes) :=
  if len src <? 3 then Err PTLS_ALERT_DECODE_ERROR
  else Ok (Z.lor (Z.lor (Z.shiftl (byte_at src 0) 16) (Z.shiftl (byte_at src 1) 8)) (byte_at src 2),
           drop 3 src).

(* src lib/picotls.c:993-1000 ptls_decode32 *)
Definition ptls_decode32 (src : bytes) : result (Z * bytes) :=
  if len src <? 4 then Err PTLS_ALERT_DECODE_ERROR else Ok (ntoh32 src, drop 4 src).

(* src lib/picotls.c:1002-1009 ptls_decode64 *)
Definition ptls_decode64 (src : bytes) : result (Z * bytes) :=
  if len src <? 8 then Err PTLS_ALERT_DECODE_ERROR else Ok (ntoh64 src, drop 8 src).

(** ** QUIC variable-length integers *)

(** The loops that accumulate [v = (v << 8) | byte] while [--bytes_left != 0], of
    [ptls_decode_quicint] and of [ptls_decode_open_block]. *)
(* src lib/picotls.c:1025-1027 bytes_left *)
Fixpoint be_loop (bytes_left : nat) (v : Z) (src : bytes) : Z * bytes :=
  match bytes_left, src with
  | S n, b :: src => be_loop n (Z.lor (u64 (Z.shiftl v 8)) b) src
  | _, _ => (v, src)
  end.

(** Returns the value ([UINT64_MAX] upon error) and the advanced source. *)
(* src lib/picotls.c:1011-1029 ptls_decode_quicint *)
Definition ptls_decode_quicint (src : bytes) : Z * bytes :=
  match src with
  | [] => (UINT64_MAX, [])
  | b :: src =>
      if b <=? 0x3f then (b, src)
      else
        let v := Z.land b 0x3f in
        let bytes_left := Z.shiftl 1 (Z.shiftr b 6) - 1 in
        if len src <? bytes_left then (UINT64_MAX, src)
        else be_loop (Z.to_nat bytes_left) v src
  end.

(** The bytes written by the [do ... while ((sb -= 8) != 0)] loop, for [sb = 8 * n]. *)
Fixpoint quicint_tail (n : nat) (v : Z) : bytes :=
  match n with
  | O => []
  | S n' => u8 (Z.shiftr v (8 * Z.of_nat n)) :: quicint_tail n' v
  end.

(* src include/zpicotls.h:2204-2226 ptls_encode_quicint *)
Definition ptls_encode_quicint (v : Z) : bytes :=
  (if 63 <? v then
     if 16383 <? v then
       if 1073741823 <? v then Z.lor 0xc0 (u8 (Z.shiftr v 56)) :: quicint_tail 6 v
       else Z.lor 0x80 (u8 (Z.shiftr v 24)) :: quicint_tail 2 v
     else [Z.lor 0x40 (u8 (Z.shiftr (u16 v) 8))]
   else [])
  ++ [u8 v].

(** ** Length-prefixed blocks *)

(** The block opened by [ptls_decode_open_block]: its contents and what follows it.
    [capacity] is [-1] for a QUIC integer, otherwise the number of bytes of the length. *)
(* src include/zpicotls.h:1377-1403 ptls_decode_open_block *)
Definition split_block (capacity : Z) (src : bytes) : result (bytes * bytes) :=
  '(block_size, src) ←
    (if capacity =? -1 then
       let '(v, src') := ptls_decode_quicint src in
       if v =? UINT64_MAX then Err PTLS_ALERT_DECODE_ERROR else Ok (v, src')
     else if len src <? capacity then Err PTLS_ALERT_DECODE_ERROR
     else Ok (be_loop (Z.to_nat capacity) 0 src));
  if len src <? block_size then Err PTLS_ALERT_DECODE_ERROR
  else Ok (take (Z.to_nat block_size) src, drop (Z.to_nat block_size) src).

(* src include/zpicotls.h:1417-1423 ptls_decode_assert_block_close *)
Definition ptls_decode_assert_block_close (src : bytes) : result unit :=
  match src with [] => Ok () | _ => Err PTLS_ALERT_DECODE_ERROR end.

(** [block] runs on the contents and must consume them all. *)
(* src include/zpicotls.h:1377-1415 ptls_decode_open_block *)
Definition ptls_decode_open_block {A} (capacity : Z) (block : bytes -> result (A * bytes))
    (src : bytes) : result (A * bytes) :=
  '(inner, rest) ← split_block capacity src;
  '(a, inner') ← block inner;
  _ ← ptls_decode_assert_block_close inner';
  Ok (a, rest).

(* src include/zpicotls.h:1425-1429 ptls_decode_block *)
Definition ptls_decode_block {A} (capacity : Z) (block : bytes -> result (A * bytes))
    (src : bytes) : result A :=
  '(a, rest) ← ptls_decode_open_block capacity block src;
  _ ← ptls_decode_assert_block_close rest;
  Ok a.

(** ** Reference definitions *)

Definition be_decode (l : bytes) : Z := foldl (λ acc b, acc * 256 + b) 0 l.

Fixpoint be_encode (n : nat) (v : Z) : bytes :=
  match n with
  | O => []
  | S n' => u8 (Z.shiftr v (8 * Z.of_nat n')) :: be_encode n' v
  end.

(** ** Big-endian lemmas *)

Lemma be_encode_length n v : length (be_encode n v) = n.
Proof. induction n; simpl; congruence. Qed.

Lemma be_encode_bytes n v : is_bytes (be_encode n v).
Proof. induction n; simpl; auto with zpico. Qed.

#[export] Hint Resolve be_encode_bytes : zpico.

Lemma be_foldl_acc l acc :
  foldl (λ acc b, acc * 256 + b) acc l = acc * 256 ^ len l + be_decode l.
Proof.
  unfold be_decode. revert acc. induction l as [|b l IH]; intros acc; simpl.
  - rewrite len_nil. lia.
  - rewrite IH, (IH (0 * 256 + b)), len_cons, Z.pow_add_r by (pose proof (len_nonneg l); lia). lia.
Qed.

Lemma be_decode_cons b l : be_decode (b :: l) = b * 256 ^ len l + be_decode l.
Proof. unfold be_decode at 1. simpl. apply be_foldl_acc. Qed.

Lemma be_decode_app l k : be_decode (l ++ k) = be_decode l * 256 ^ len k + be_decode k.
Proof. unfold be_decode at 1. rewrite foldl_app. apply be_foldl_acc. Qed.

Lemma be_decode_bound l : is_bytes l -> 0 <= be_decode l < 256 ^ len l.
Proof.
  induction 1 as [|b l Hb Hl IH]; [done|].
  rewrite be_decode_cons, len_cons, Z.pow_add_r by (pose proof (len_nonneg l); lia).
  unfold is_byte in Hb. nia.
Qed.

Lemma be_decode_encode n v : be_decode (be_encode n v) = v mod 256 ^ Z.of_nat n.
Proof.
  induction n as [|n IH]; [by rewrite Z.mod_1_r|]. cbn [be_encode].
  rewrite be_decode_cons, IH. unfold len. rewrite be_encode_length.
  unfold u8. rewrite Z.shiftr_div_pow2, Z.pow_mul_r by lia.
  change (2 ^ 8) with 256. replace (Z.of_nat (S n)) with (Z.of_nat n + 1) by lia.
  assert (0 < 256 ^ Z.of_nat n) by (apply Z.pow_pos_nonneg; lia).
  rewrite Z.pow_add_r, Z.pow_1_r, Z.rem_mul_r by lia. lia.
Qed.

Lemma be_encode_mod n v : be_encode n (v mod 256 ^ Z.of_nat n) = be_encode n v.
Proof.
  assert (forall k, (k <= n)%nat -> be_encode k (v mod 256 ^ Z.of_nat n) = be_encode k v) as H;
    [|by apply H].
  induction k as [|k IH]; [done|]. intros Hk. cbn [be_encode]. f_equal; [|apply IH; lia].
  unfold u8. rewrite !Z.shiftr_div_pow2, !Z.pow_mul_r by lia. change (2 ^ 8) with 256.
  assert (0 < 256 ^ Z.of_nat k) by (apply Z.pow_pos_nonneg; lia).
  assert (0 < 256 ^ (Z.of_nat n - Z.of_nat k - 1)) by (apply Z.pow_pos_nonneg; lia).
  replace (Z.of_nat n) with (Z.of_nat k + (1 + (Z.of_nat n - Z.of_nat k - 1))) by lia.
  rewrite !Z.pow_add_r, Z.pow_1_r by lia.
  rewrite Z.rem_mul_r by lia. rewrite Z.mul_comm, Z.div_add by lia.
  rewrite Z.div_small by (apply Z.mod_pos_bound; lia). rewrite Z.add_0_l.
  rewrite Z.rem_mul_r by lia. rewrite Z.mul_comm, Z_mod_plus_full, Zmod_mod. done.
Qed.

(** Encoding what a byte string decodes to gives the byte string back. *)
Lemma be_encode_decode l : is_bytes l -> be_encode (length l) (be_decode l) = l.
Proof.
  induction 1 as [|b l Hb Hl IH]; [done|]. cbn [be_encode length].
  pose proof (be_decode_bound l Hl) as Hd. rewrite be_decode_cons. f_equal.
  - unfold u8. rewrite Z.shiftr_div_pow2, Z.pow_mul_r by lia. change (2 ^ 8) with 256.
    fold (len l). rewrite Z.div_add_l, Z.div_small, Z.add_0_r by lia.
    apply Z.mod_small, Hb.
  - etrans; [|exact IH]. rewrite <- be_encode_mod. f_equal.
    change (256 ^ Z.of_nat (length l)) with (256 ^ len l).
    rewrite Z.add_comm, Z_mod_plus_full. by apply Z.mod_small.
Qed.

(** ** The scalar codec against the reference *)

Lemma shiftl_byte_add a b m n :
  0 <= n -> m = n + 8 -> is_byte b ->
  Z.lor (Z.shiftl a m) (Z.shiftl b n) = Z.shiftl (a * 256 + b) n.
Proof.
  intros Hn -> Hb. rewrite Z.add_comm, <- Z.shiftl_shiftl by lia.
  by rewrite <- Z.shiftl_lor, lor_shiftl_byte.
Qed.

Ltac fold_shifts := rewrite ?shiftl_byte_add, lor_shiftl_byte by (done || lia).

Lemma ntoh16_be a b r : is_bytes [a; b] -> ntoh16 (a :: b :: r) = be_decode [a; b].
Proof. intros H. decompose_Forall_hyps. unfold ntoh16, byte_at. simpl. fold_shifts. reflexivity. Qed.

Lemma ntoh24_be a b c r : is_bytes [a; b; c] -> ntoh24 (a :: b :: c :: r) = be_decode [a; b; c].
Proof. intros H. decompose_Forall_hyps. unfold ntoh24, byte_at. simpl. fold_shifts. reflexivity. Qed.

Lemma ntoh32_be a b c d r :
  is_bytes [a; b; c; d] -> ntoh32 (a :: b :: c :: d :: r) = be_decode [a; b; c; d].
Proof. intros H. decompose_Forall_hyps. unfold ntoh32, byte_at. simpl. fold_shifts. reflexivity. Qed.

Lemma ntoh64_be a b c d e f g h r :
  is_bytes [a; b; c; d; e; f; g; h] ->
  ntoh64 (a :: b :: c :: d :: e :: f :: g :: h :: r) = be_decode [a; b; c; d; e; f; g; h].
Proof. intros H. decompose_Forall_hyps. unfold ntoh64, byte_at. simpl. fold_shifts. reflexivity. Qed.

Lemma bytes16_be v : bytes16 v = be_encode 2 v.
Proof. rewrite <- be_encode_mod. reflexivity. Qed.

Lemma bytes24_be v : 0 <= v < 2 ^ 32 -> bytes24 v = be_encode 3 v.
Proof. intros. unfold bytes24. rewrite u32_small by done. reflexivity. Qed.

Lemma bytes32_be v : bytes32 v = be_encode 4 v.
Proof. rewrite <- be_encode_mod. reflexivity. Qed.

Lemma bytes64_be v : bytes64 v = be_encode 8 v.
Proof. rewrite <- be_encode_mod. reflexivity. Qed.

Lemma encode64_be v : encode64 v = be_encode 8 v.
Proof. reflexivity. Qed.

Lemma decode8_cons b r : ptls_decode8 (b :: r) = Ok (b, r).
Proof. reflexivity. Qed.

Lemma decode16_be l r :
  length l = 2%nat -> is_bytes l -> ptls_decode16 (l ++ r) = Ok (be_decode l, r).
Proof.
  intros Hl Hb. destruct l as [|a [|b [|]]]; simplify_eq/=. unfold ptls_decode16.
  rewrite (ntoh16_be a b r Hb), !len_cons. pose proof (len_nonneg r).
  rewrite (proj2 (Z.ltb_ge _ _)) by lia. reflexivity.
Qed.

Lemma decode24_be l r :
  length l = 3%nat -> is_bytes l -> ptls_decode24 (l ++ r) = Ok (be_decode l, r).
Proof.
  intros Hl Hb. destruct l as [|a [|b [|c [|]]]]; simplify_eq/=. unfold ptls_decode24.
  rewrite !len_cons. pose proof (len_nonneg r). rewrite (proj2 (Z.ltb_ge _ _)) by lia.
  pose proof (ntoh24_be a b c r Hb) as E. unfold ntoh24 in E. rewrite E. reflexivity.
Qed.

Lemma decode32_be l r :
  length l = 4%nat -> is_bytes l -> ptls_decode32 (l ++ r) = Ok (be_decode l, r).
Proof.
  intros Hl Hb. destruct l as [|a [|b [|c [|d [|]]]]]; simplify_eq/=. unfold ptls_decode32.
  rewrite (ntoh32_be a b c d r Hb), !len_cons. pose proof (len_nonneg r).
  rewrite (proj2 (Z.ltb_ge _ _)) by lia. reflexivity.
Qed.

Lemma decode64_be l r :
  length l = 8%nat -> is_bytes l -> ptls_decode64 (l ++ r) = Ok (be_decode l, r).
Proof.
  intros Hl Hb. do 8 (destruct l as [|? l]; [done|]). destruct l; [|done].
  unfold ptls_decode64. cbn [app]. rewrite (ntoh64_be _ _ _ _ _ _ _ _ r Hb), !len_cons.
  pose proof (len_nonneg r). rewrite (proj2 (Z.ltb_ge _ _)) by lia. reflexivity.
Qed.

Lemma decode_be_round (n : nat) (dec : bytes -> result (Z * bytes)) v r :
  (forall l r, length l = n -> is_bytes l -> dec (l ++ r) = Ok (be_decode l, r)) ->
  0 <= v < 256 ^ Z.of_nat n -> dec (be_encode n v ++ r) = Ok (v, r).
Proof.
  intros H Hv. rewrite H by (auto using be_encode_length, be_encode_bytes).
  by rewrite be_decode_encode, Z.mod_small.
Qed.

Lemma decode16_push16 v r : 0 <= v < 2 ^ 16 -> ptls_decode16 (bytes16 v ++ r) = Ok (v, r).
Proof. intros. rewrite bytes16_be. by apply (decode_be_round 2), H; apply decode16_be. Qed.

Lemma decode24_push24 v r : 0 <= v < 2 ^ 24 -> ptls_decode24 (bytes24 v ++ r) = Ok (v, r).
Proof. intros. rewrite bytes24_be by lia. by apply (decode_be_round 3), H; apply decode24_be. Qed.

Lemma decode32_push32 v r : 0 <= v < 2 ^ 32 -> ptls_decode32 (bytes32 v ++ r) = Ok (v, r).
Proof. intros. rewrite bytes32_be. by apply (decode_be_round 4), H; apply decode32_be. Qed.

Lemma decode64_push64 v r : 0 <= v < 2 ^ 64 -> ptls_decode64 (bytes64 v ++ r) = Ok (v, r).
Proof. intros. rewrite bytes64_be. by apply (decode_be_round 8), H; apply decode64_be. Qed.

(** ** The accumulating loop and QUIC integers *)

Lemma be_loop_spec n acc src :
  (n <= length src)%nat -> is_bytes (take n src) -> 0 <= acc ->
  (acc + 1) * 256 ^ Z.of_nat n <= 2 ^ 64 ->
  be_loop n acc src = (acc * 256 ^ Z.of_nat n + be_decode (take n src), drop n src).
Proof.
  revert acc src. induction n as [|n IH]; intros acc src Hn Hb Ha Hlim; simpl.
  - destruct src; simpl; f_equal; cbv [be_decode foldl]; lia.
  - destruct src as [|b src]; [simpl in *; lia|]. simpl in *.
    apply Forall_cons_1 in Hb as [Hb Hbs].
    replace (Z.of_nat (S n)) with (1 + Z.of_nat n) in * by lia.
    rewrite Z.pow_add_r, Z.pow_1_r in * by lia.
    assert (0 < 256 ^ Z.of_nat n) by (apply Z.pow_pos_nonneg; lia).
    unfold is_byte in Hb.
    assert (acc * 256 < 2 ^ 64) by nia.
    rewrite u64_small by (rewrite Z.shiftl_mul_pow2 by lia; lia).
    rewrite lor_shiftl_byte by done.
    rewrite IH by (try done; try lia; nia).
    f_equal. rewrite be_decode_cons. unfold len. rewrite length_take, Nat.min_l by lia. lia.
Qed.

Lemma be_loop_encode n acc v r :
  0 <= acc -> (acc + 1) * 256 ^ Z.of_nat n <= 2 ^ 64 ->
  be_loop n acc (be_encode n v ++ r) = (acc * 256 ^ Z.of_nat n + v mod 256 ^ Z.of_nat n, r).
Proof.
  intros Ha Hlim. pose proof (be_encode_length n v) as Hl.
  rewrite be_loop_spec; rewrite ?length_app, ?Hl; try done; try lia.
  - by rewrite take_app_length', drop_app_length', be_decode_encode by done.
  - rewrite take_app_length' by done. apply be_encode_bytes.
Qed.

Lemma quicint_tail_be n v : quicint_tail n v ++ [u8 v] = be_encode (S n) v.
Proof.
  induction n as [|n IH]; [by cbn; rewrite Z.shiftr_0_r|].
  cbn [quicint_tail app]. rewrite IH. reflexivity.
Qed.

(** The first byte of a QUIC integer with prefix [k] and payload [x]. *)
Lemma quicint_prefix k x :
  1 <= k <= 3 -> 0 <= x < 64 ->
  let b := Z.lor (Z.shiftl k 6) x in
  63 < b /\ Z.land b 0x3f = x /\ Z.shiftr b 6 = k.
Proof.
  intros Hk Hx b. unfold b. rewrite lor_shiftl_add by lia. change (2 ^ 6) with 64.
  split_and!; [lia| |].
  - change 0x3f with (Z.ones 6). rewrite Z.land_ones by lia. change (2 ^ 6) with 64.
    rewrite Z.add_comm, Z_mod_plus_full. by apply Z.mod_small.
  - rewrite Z.shiftr_div_pow2 by lia. change (2 ^ 6) with 64.
    rewrite Z.div_add_l, Z.div_small by lia. lia.
Qed.

(** Decoding the long form: prefix [k], [m = 2^k - 1] further bytes. *)
Lemma decode_quicint_long k (m : nat) v r :
  1 <= k <= 3 -> Z.of_nat m = Z.shiftl 1 k - 1 -> 0 <= v < 64 * 256 ^ Z.of_nat m ->
  ptls_decode_quicint
    (Z.lor (Z.shiftl k 6) (u8 (Z.shiftr v (8 * Z.of_nat m))) :: be_encode m v ++ r) = (v, r).
Proof.
  intros Hk Hm Hv. assert (0 < 256 ^ Z.of_nat m) by (apply Z.pow_pos_nonneg; lia).
  assert (0 <= Z.shiftr v (8 * Z.of_nat m) < 64) as Hx.
  { rewrite Z.shiftr_div_pow2, Z.pow_mul_r by lia. change (2 ^ 8) with 256.
    split; [apply Z.div_pos; lia|]. apply Z.div_lt_upper_bound; lia. }
  rewrite u8_small by (unfold is_byte; lia).
  destruct (quicint_prefix k _ Hk Hx) as (H1 & H2 & H3). simpl in H1, H2, H3.
  unfold ptls_decode_quicint. rewrite H2, H3, <- Hm.
  rewrite (proj2 (Z.leb_gt _ _)) by done.
  rewrite len_app, (proj2 (Z.ltb_ge _ _))
    by (unfold len at 1; rewrite be_encode_length; pose proof (len_nonneg r); lia).
  rewrite Nat2Z.id, be_loop_encode; [|lia|].
  - rewrite Z.shiftr_div_pow2, Z.pow_mul_r by lia. change (2 ^ 8) with 256. f_equal.
    pose proof (Z.div_mod v (256 ^ Z.of_nat m)). lia.
  - assert (256 ^ Z.of_nat m <= 256 ^ 7) as Hp.
    { apply Z.pow_le_mono_r; [lia|]. rewrite Hm.
      assert (k = 1 \/ k = 2 \/ k = 3) as [->|[->| ->]] by lia; done. }
    change (2 ^ 64) with (256 * 256 ^ 7). nia.
Qed.

Lemma decode_quicint_short k (m : nat) x l :
  1 <= k <= 3 -> Z.of_nat m = Z.shiftl 1 k - 1 -> 0 <= x < 64 -> (length l < m)%nat ->
  ptls_decode_quicint (Z.lor (Z.shiftl k 6) x :: l) = (UINT64_MAX, l).
Proof.
  intros Hk Hm Hx Hl. destruct (quicint_prefix k x Hk Hx) as (H1 & H2 & H3). simpl in H1, H2, H3.
  unfold ptls_decode_quicint. rewrite H3, <- Hm.
  rewrite (proj2 (Z.leb_gt _ _)), (proj2 (Z.ltb_lt _ _)) by (unfold len; lia). done.
Qed.

(** The shape of an encoding: one byte, or a prefix byte and [m = 2^k - 1] more. *)
Lemma encode_quicint_shape v :
  0 <= v <= PTLS_QUICINT_MAX ->
  (v <= 63 /\ ptls_encode_quicint v = [v]) \/
  exists k m, 1 <= k <= 3 /\ Z.of_nat m = Z.shiftl 1 k - 1 /\ 0 <= v < 64 * 256 ^ Z.of_nat m /\
    ptls_encode_quicint v
    = Z.lor (Z.shiftl k 6) (u8 (Z.shiftr v (8 * Z.of_nat m))) :: be_encode m v.
Proof.
  unfold PTLS_QUICINT_MAX. intros Hv. unfold ptls_encode_quicint.
  destruct (Z.ltb_spec 63 v); [right|left; split; [done|];
    by rewrite u8_small by (unfold is_byte; lia)].
  destruct (Z.ltb_spec 16383 v); [destruct (Z.ltb_spec 1073741823 v)|].
  - exists 3, 7%nat. change (64 * 256 ^ Z.of_nat 7) with (2 ^ 62). cbn [app].
    rewrite quicint_tail_be. split_and!; (done || lia).
  - exists 2, 3%nat. change (64 * 256 ^ Z.of_nat 3) with (2 ^ 30). cbn [app].
    rewrite quicint_tail_be. split_and!; (done || lia).
  - exists 1, 1%nat. change (64 * 256 ^ Z.of_nat 1) with (2 ^ 14). rewrite u16_small by lia.
    cbn [app be_encode]. rewrite Z.shiftr_0_r. split_and!; (done || lia).
Qed.

Lemma decode_encode_quicint v r :
  0 <= v <= PTLS_QUICINT_MAX -> ptls_decode_quicint (ptls_encode_quicint v ++ r) = (v, r).
Proof.
  intros Hv. destruct (encode_quicint_shape v Hv) as [[Hs ->]|(k & m & Hk & Hm & Hb & ->)].
  - simpl. by rewrite (proj2 (Z.leb_le _ _)) by lia.
  - by apply decode_quicint_long.
Qed.

(** ** Blocks *)

Lemma split_block_fixed (cap : nat) body rest :
  (1 <= cap <= 8)%nat -> len body < 256 ^ Z.of_nat cap ->
  split_block (Z.of_nat cap) (be_encode cap (len body) ++ body ++ rest) = Ok (body, rest).
Proof.
  intros Hc Hb. pose proof (len_nonneg body). pose proof (len_nonneg rest).
  assert (256 ^ Z.of_nat cap <= 256 ^ 8) by (apply Z.pow_le_mono_r; lia).
  unfold split_block. rewrite (proj2 (Z.eqb_neq _ _)) by lia.
  rewrite !len_app, (proj2 (Z.ltb_ge _ _))
    by (unfold len at 1; rewrite be_encode_length; lia).
  rewrite Nat2Z.id, be_loop_encode by (try lia; change (2 ^ 64) with (256 ^ 8); lia).
  rewrite Z.mul_0_l, Z.add_0_l, Z.mod_small by lia. cbn.
  rewrite len_app, (proj2 (Z.ltb_ge _ _)) by lia. by rewrite take_len_app, drop_len_app.
Qed.

Lemma split_block_quic body rest :
  len body <= PTLS_QUICINT_MAX ->
  split_block (-1) (ptls_encode_quicint (len body) ++ body ++ rest) = Ok (body, rest).
Proof.
  intros Hb. pose proof (len_nonneg body). pose proof (len_nonneg rest).
  unfold split_block. rewrite Z.eqb_refl, decode_encode_quicint by lia.
  rewrite (proj2 (Z.eqb_neq _ _)) by (unfold PTLS_QUICINT_MAX, UINT64_MAX in *; lia). cbn.
  rewrite len_app, (proj2 (Z.ltb_ge _ _)) by lia. by rewrite take_len_app, drop_len_app.
Qed.

(** What a successfully opened block is: its length field, its contents, the rest. *)
Lemma split_block_inv (cap : nat) src inner rest :
  (1 <= cap <= 8)%nat -> is_bytes src ->
  split_block (Z.of_nat cap) src = Ok (inner, rest) ->
  src = be_encode cap (len inner) ++ inner ++ rest /\ len inner < 256 ^ Z.of_nat cap.
Proof.
  intros Hc Hb H. unfold split_block in H. rewrite (proj2 (Z.eqb_neq _ _)) in H by lia.
  destruct (Z.ltb_spec (len src) (Z.of_nat cap)); [done|].
  assert (256 ^ Z.of_nat cap <= 256 ^ 8) by (apply Z.pow_le_mono_r; lia).
  unfold len in *. rewrite Nat2Z.id, be_loop_spec in H;
    [|lia|auto with zpico|lia|change (2 ^ 64) with (256 ^ 8); lia].
  assert (length (take cap src) = cap) as Hl by (rewrite length_take; lia).
  pose proof (be_decode_bound (take cap src)) as Hd. unfold len in Hd. rewrite Hl in Hd.
  specialize (Hd ltac:(auto with zpico)). rewrite Z.mul_0_l, Z.add_0_l in H. cbn in H.
  destruct (Z.ltb_spec (Z.of_nat (length (drop cap src))) (be_decode (take cap src))); [done|].
  simplify_eq. rewrite length_take. rewrite Nat.min_l by lia. rewrite Z2Nat.id by lia.
  split; [|lia]. rewrite <- Hl at 1. rewrite be_encode_decode by auto with zpico.
  by rewrite !take_drop.
Qed.

Lemma open_block_ok {A} (cap : nat) (block : bytes -> result (A * bytes)) body rest a :
  (1 <= cap <= 8)%nat -> len body < 256 ^ Z.of_nat cap -> block body = Ok (a, []) ->
  ptls_decode_open_block (Z.of_nat cap) block (be_encode cap (len body) ++ body ++ rest)
  = Ok (a, rest).
Proof.
  intros Hc Hb Ha. unfold ptls_decode_open_block. rewrite split_block_fixed by done.
  cbn. by rewrite Ha.
Qed.

Lemma open_block_inv {A} (cap : nat) (block : bytes -> result (A * bytes)) src rest a :
  (1 <= cap <= 8)%nat -> is_bytes src ->
  ptls_decode_open_block (Z.of_nat cap) block src = Ok (a, rest) ->
  exists body, src = be_encode cap (len body) ++ body ++ rest /\
    len body < 256 ^ Z.of_nat cap /\ block body = Ok (a, []).
Proof.
  intros Hc Hb H. unfold ptls_decode_open_block in H.
  apply result_bind_ok in H as ([inner r] & Hs & H).
  apply split_block_inv in Hs as [-> Hl]; [|done..].
  apply result_bind_ok in H as ([a' l'] & Ha & H). destruct l'; simplify_eq/=. eauto.
Qed.

Lemma block_ok {A} (cap : nat) (block : bytes -> result (A * bytes)) body a :
  (1 <= cap <= 8)%nat -> len body < 256 ^ Z.of_nat cap -> block body = Ok (a, []) ->
  ptls_decode_block (Z.of_nat cap) block (be_encode cap (len body) ++ body) = Ok a.
Proof.
  intros Hc Hb Ha. unfold ptls_decode_block.
  rewrite <- (app_nil_r body) at 2. by rewrite (open_block_ok cap block body [] a).
Qed.

Lemma block_inv {A} (cap : nat) (block : bytes -> result (A * bytes)) src a :
  (1 <= cap <= 8)%nat -> is_bytes src ->
  ptls_decode_block (Z.of_nat cap) block src = Ok a ->
  exists body, src = be_encode cap (len body) ++ body /\
    len body < 256 ^ Z.of_nat cap /\ block body = Ok (a, []).
Proof.
  intros Hc Hb H. unfold ptls_decode_block in H.
  apply result_bind_ok in H as ([a' l'] & Ha & H). destruct l'; simplify_eq/=.
  apply open_block_inv in Ha as (body & -> & ? & ?); [|done..].
  exists body. by rewrite app_nil_r.
Qed.

(** Errors and consumption, on every branch. *)

Lemma be_loop_length n v src : (length (snd (be_loop n v src)) <= length src)%nat.
Proof.
  revert v src. induction n as [|n IH]; intros v src; [by destruct src|].
  destruct src as [|b src]; [done|]. simpl. etrans; [apply IH|]. lia.
Qed.

Lemma decode_quicint_length src : (length (snd (ptls_decode_quicint src)) <= length src)%nat.
Proof.
  destruct src as [|b src]; [done|]. unfold ptls_decode_quicint.
  repeat case_match; simpl; try lia. pose proof (be_loop_length (Z.to_nat (1 ≪ (b ≫ 6) - 1)) (Z.land b 63) src).
  lia.
Qed.

Lemma decode8_err src e : ptls_decode8 src = Err e -> e = PTLS_ALERT_DECODE_ERROR.
Proof. unfold ptls_decode8. case_match; naive_solver. Qed.
Lemma decode16_err src e : ptls_decode16 src = Err e -> e = PTLS_ALERT_DECODE_ERROR.
Proof. unfold ptls_decode16. case_match; naive_solver. Qed.
Lemma decode24_err src e : ptls_decode24 src = Err e -> e = PTLS_ALERT_DECODE_ERROR.
Proof. unfold ptls_decode24. case_match; naive_solver. Qed.
Lemma decode32_err src e : ptls_decode32 src = Err e -> e = PTLS_ALERT_DECODE_ERROR.
Proof. unfold ptls_decode32. case_match; naive_solver. Qed.
Lemma decode64_err src e : ptls_decode64 src = Err e -> e = PTLS_ALERT_DECODE_ERROR.
Proof. unfold ptls_decode64. case_match; naive_solver. Qed.

Lemma decode8_length src v r : ptls_decode8 src = Ok (v, r) -> length src = S (length r).
Proof. unfold ptls_decode8. case_match; naive_solver. Qed.

Lemma decode16_length src v r : ptls_decode16 src = Ok (v, r) -> length src = S (S (length r)).
Proof.
  unfold ptls_decode16, len. case_match eqn:E; [done|]. intros. simplify_eq. rewrite length_drop.
  apply Z.ltb_ge in E. lia.
Qed.

Lemma split_block_err cap src e : split_block cap src = Err e -> e = PTLS_ALERT_DECODE_ERROR.
Proof.
  unfold split_block. intros H. apply result_bind_err in H as [H|([sz r] & _ & H)].
  - destruct (cap =? -1); [destruct (ptls_decode_quicint src)|]; case_match; naive_solver.
  - case_match; naive_solver.
Qed.

Lemma split_block_length cap src inner rest :
  split_block cap src = Ok (inner, rest) -> (length inner + length rest <= length src)%nat.
Proof.
  unfold split_block. intros H. apply result_bind_ok in H as ([sz r] & Hr & H).
  case_match; [done|]. simplify_eq. rewrite <- length_app, take_drop.
  destruct (cap =? -1).
  - destruct (ptls_decode_quicint src) as [v src'] eqn:E. case_match; simplify_eq.
    pose proof (decode_quicint_length src) as Hq. by rewrite E in Hq.
  - case_match; [done|]. injection Hr as Hr. pose proof (be_loop_length (Z.to_nat cap) 0 src) as Hq.
    by rewrite Hr in Hq.
Qed.

(** The widths the protocol uses, as literals. *)
Lemma split_block1 body rest :
  len body < 2 ^ 8 -> split_block 1 (be_encode 1 (len body) ++ body ++ rest) = Ok (body, rest).
Proof. apply (split_block_fixed 1). lia. Qed.
Lemma split_block2 body rest :
  len body < 2 ^ 16 -> split_block 2 (be_encode 2 (len body) ++ body ++ rest) = Ok (body, rest).
Proof. apply (split_block_fixed 2). lia. Qed.
Lemma split_block3 body rest :
  len body < 2 ^ 24 -> split_block 3 (be_encode 3 (len body) ++ body ++ rest) = Ok (body, rest).
Proof. apply (split_block_fixed 3). lia. Qed.

Lemma open_block1 {A} (block : bytes -> result (A * bytes)) body rest a :
  len body < 2 ^ 8 -> block body = Ok (a, []) ->
  ptls_decode_open_block 1 block (be_encode 1 (len body) ++ body ++ rest) = Ok (a, rest).
Proof. apply (open_block_ok 1). lia. Qed.
Lemma open_block2 {A} (block : bytes -> result (A * bytes)) body rest a :
  len body < 2 ^ 16 -> block body = Ok (a, []) ->
  ptls_decode_open_block 2 block (be_encode 2 (len body) ++ body ++ rest) = Ok (a, rest).
Proof. apply (open_block_ok 2). lia. Qed.
Lemma open_block3 {A} (block : bytes -> result (A * bytes)) body rest a :
  len body < 2 ^ 24 -> block body = Ok (a, []) ->
  ptls_decode_open_block 3 block (be_encode 3 (len body) ++ body ++ rest) = Ok (a, rest).
Proof. apply (open_block_ok 3). lia. Qed.

(** QUIC variable-length integers: for every value up to the documented maximum
    [PTLS_QUICINT_MAX] = 2^62 - 1, decoding the encoding gives the value back and leaves exactly
    the bytes that followed it, and decoding any strictly shorter prefix of the encoding reports
    the error value [UINT64_MAX]. *)
Theorem quicint_roundtrip v :
  0 <= v <= PTLS_QUICINT_MAX ->
  (forall r, ptls_decode_quicint (ptls_encode_quicint v ++ r) = (v, r)) /\
  (forall n, (n < length (ptls_encode_quicint v))%nat ->
     fst (ptls_decode_quicint (take n (ptls_encode_quicint v))) = UINT64_MAX).
Proof.
  intros Hv. split; [intros; by apply decode_encode_quicint|]. intros [|n] Hn; [done|].
  destruct (encode_quicint_shape v Hv) as [[Hs E]|(k & m & Hk & Hm & Hb & E)];
    rewrite E in *; simpl in Hn; [lia|]. cbn [take].
  assert (0 < 256 ^ Z.of_nat m) by (apply Z.pow_pos_nonneg; lia).
  rewrite be_encode_length in Hn. rewrite (decode_quicint_short k m); try done.
  - rewrite Z.shiftr_div_pow2, Z.pow_mul_r by lia. change (2 ^ 8) with 256.
    assert (0 <= v / 256 ^ Z.of_nat m < 64)
      by (split; [apply Z.div_pos; lia|apply Z.div_lt_upper_bound; lia]).
    by rewrite u8_small by (unfold is_byte; lia).
  - rewrite length_take, be_encode_length. lia.
Qed.

Lemma quicint_roundtrip_witness :
  (0 <= 494878333 <= PTLS_QUICINT_MAX) /\
  ptls_encode_quicint 494878333 = [0x9d; 0x7f; 0x3e; 0x7d] /\
  (forall r, ptls_decode_quicint (ptls_encode_quicint 494878333 ++ r) = (494878333, r)) /\
  (forall n, (n < length (ptls_encode_quicint 494878333))%nat ->
     fst (ptls_decode_quicint (take n (ptls_encode_quicint 494878333))) = UINT64_MAX).
Proof.
  split; [vm_compute; split; discriminate|]. split; [reflexivity|].
  apply (quicint_roundtrip 494878333). vm_compute. split; discriminate.
Defined.

#[global] Arguments be_encode : simpl never.
#[global] Arguments be_decode : simpl never.
#[global] Arguments split_block : simpl never.
#[global] Arguments bytes16 : simpl never.
#[global] Arguments bytes24 : simpl never.
#[global] Arguments bytes32 : simpl never.
#[global] Arguments bytes64 : simpl never.
#[global] Arguments ptls_decode8 : simpl never.
#[global] Arguments ptls_decode16 : simpl never.
#[global] Arguments ptls_decode24 : simpl never.
#[global] Arguments ptls_decode32 : simpl never.
#[global] Arguments ptls_decode64 : simpl never.
#[global] Arguments ptls_encode_quicint : simpl never.
#[global] Arguments ptls_decode_quicint : simpl never.
#[global] Arguments ptls_decode_open_block : simpl never.
#[global] Arguments ptls_decode_block : simpl never.
