(* ===== verification/Buffer.v ===== *)
(** * Buffer: [ptls_buffer_t], its growth policy and the push operations

    Models the output buffers of [lib/picotls.c] (lines 581-743) and the push macros of
    [include/zpicotls.h].  A buffer owns a memory region [mem] at address [base] (NULL is 0); the
    first [off] bytes are the data.  The memory allocator is the interface [Allocator]; what a
    buffer gives up when it grows or is disposed is logged in the ghost field [past], so that the
    clearing of released memory can be stated.

    [emits] is the abstract specification: a buffer as an append-only byte string.  Every push
    operation is shown to implement it, whatever the allocator does. *)

From S2P Require Import Prelude Constants Wire.

(** ** The allocator interface

    [malloc n] and [posix_memalign bits n] return NULL ([None]) or the address and the
    (uninitialised) contents of a region of [n] bytes. *)

Class Allocator := {
  malloc : Z -> option (Z * bytes);
  posix_memalign : Z -> Z -> option (Z * bytes);
  malloc_spec : forall n p m, malloc n = Some (p, m) -> 0 < p /\ len m = n;
  posix_memalign_spec : forall a n p m, posix_memalign a n = Some (p, m) ->
    0 < p /\ len m = n /\ p mod 2 ^ a = 0;
}.

(** An allocator that never fails. *)
Definition alloc_total `{Allocator} : Prop :=
  (forall n, 0 <= n <= SIZE_MAX -> is_Some (malloc n)) /\
  (forall a n, 0 <= n <= SIZE_MAX -> is_Some (posix_memalign a n)).

(** ** Data *)

(** A region the buffer no longer owns: its contents at the time, how many bytes of it had been
    data, and whether it was handed to [ptls_buffer_free]. *)
Record region := mkRegion { reg_mem : bytes; reg_off : Z; reg_freed : bool }.

(* src include/zpicotls.h:354-362 ptls_buffer_t *)
Record ptls_buffer_t := mkBuffer {
  base : Z;
  mem : bytes;
  origin : Z;
  capacity : Z;
  off : Z;
  is_allocated : bool;
  align_bits : Z;
  tx : Z;
  past : list region;
}.

(** Writing [src] over the bytes of [m] from index [i]. *)
Definition mem_write (m : bytes) (i : Z) (src : bytes) : bytes :=
  take (Z.to_nat i) m ++ src ++ drop (Z.to_nat (i + len src)) m.

(** [memset(p, 0, n)] on the first [n] bytes, as [ptls_clear_memory] does. *)
Definition mem_clear (m : bytes) (n : Z) : bytes := mem_write m 0 (replicate (Z.to_nat n) 0).

Definition set_mem (m : bytes) (b : ptls_buffer_t) : ptls_buffer_t :=
  mkBuffer (base b) m (origin b) (capacity b) (off b) (is_allocated b) (align_bits b) (tx b) (past b).
Definition set_off (o : Z) (b : ptls_buffer_t) : ptls_buffer_t :=
  mkBuffer (base b) (mem b) (origin b) (capacity b) o (is_allocated b) (align_bits b) (tx b) (past b).

(** ** States that contain a buffer *)

Class HasBuffer (S : Type) := {
  get_buf : S -> ptls_buffer_t;
  put_buf : ptls_buffer_t -> S -> S;
  get_put_buf : forall b s, get_buf (put_buf b s) = b;
  put_get_buf : forall s, put_buf (get_buf s) s = s;
  put_put_buf : forall b b' s, put_buf b (put_buf b' s) = put_buf b s;
}.

#[global] Instance HasBuffer_id : HasBuffer ptls_buffer_t.
Proof. by refine {| get_buf := λ b, b; put_buf := λ b _, b |}. Defined.

Definition on_buf {S A} `{HasBuffer S} (m : M ptls_buffer_t A) : M S A := λ s,
  let '(r, b) := m (get_buf s) in (r, put_buf b s).

Section Ops.
Context `{Allocator}.

(* src include/zpicotls.h:2175-2186 ptls_buffer_init *)
Definition ptls_buffer_init (smallbuf : Z) (smallmem : bytes) (t : Z) : ptls_buffer_t :=
  mkBuffer smallbuf smallmem 0 (len smallmem) 0 false 0 t [].

(* src include/zpicotls.h:2188-2191 ptls_buffer_init_rx *)
Definition ptls_buffer_init_rx (smallbuf : Z) (smallmem : bytes) : ptls_buffer_t :=
  ptls_buffer_init smallbuf smallmem 0.

(* src include/zpicotls.h:2193-2196 ptls_buffer_init_tx *)
Definition ptls_buffer_init_tx (smallbuf : Z) (smallmem : bytes) : ptls_buffer_t :=
  ptls_buffer_init smallbuf smallmem 1.

(** [assert] aborts in a debug build; a release build returns the error. *)
(* src lib/picotls.c:581-588 buffer_require_direction *)
Definition buffer_require_direction (buf : ptls_buffer_t) (t : Z) : result unit :=
  if tx buf =? t then Ok () else Err PTLS_ERROR_LIBRARY.

(* src lib/picotls.c:605-610 ptls_buffer__release_memory *)
Definition ptls_buffer__release_memory (buf : ptls_buffer_t) : ptls_buffer_t :=
  let cleared := mem_clear (mem buf) (off buf) in
  mkBuffer (base buf) cleared (origin buf) (capacity buf) (off buf) (is_allocated buf)
    (align_bits buf) (tx buf) (mkRegion cleared (off buf) (is_allocated buf) :: past buf).

(* src include/zpicotls.h:2198-2202 ptls_buffer_dispose *)
Definition ptls_buffer_dispose (buf : ptls_buffer_t) : ptls_buffer_t :=
  mkBuffer 0 [] 0 0 0 false 0 0 (past (ptls_buffer__release_memory buf)).

(* src lib/picotls.c:612-637 buffer_alloc *)
Definition buffer_alloc (buf : ptls_buffer_t) (new_capacity align : Z) (t : Z)
    : option ptls_buffer_t :=
  match (if align =? 0 then malloc new_capacity else posix_memalign align new_capacity) with
  | None => None
  | Some (newp, newmem) =>
      let newmem := mem_write newmem 0 (take (Z.to_nat (off buf)) (mem buf)) in
      let old := mem_clear (mem buf) (off buf) in
      Some (mkBuffer newp newmem (origin buf) new_capacity (off buf) true align (u8 t)
              (mkRegion old (off buf) (is_allocated buf) :: past buf))
  end.

(** The loop that doubles the capacity. *)
(* src lib/picotls.c:660-666 new_capacity *)
Fixpoint grow_capacity (fuel : nat) (new_capacity required : Z) : option Z :=
  match fuel with
  | O => None
  | S fuel =>
      if new_capacity <? required then
        if SIZE_MAX / 2 <? new_capacity then Some required
        else grow_capacity fuel (new_capacity * 2) required
      else Some new_capacity
  end.

(** The doubling starts at 1024 or above and stops beyond 2^63. *)
Definition grow_fuel : nat := 64.

Definition misaligned (buf : ptls_buffer_t) (align : Z) : bool :=
  (align_bits buf <? align) &&
  negb (Z.land (base buf) (u64 (Z.shiftl 1 align) - 1) =? 0).

(* src lib/picotls.c:641-672 ptls_buffer_reserve_aligned *)
Definition reserve_aligned (delta align t : Z) (buf : ptls_buffer_t) : result unit * ptls_buffer_t :=
  match buffer_require_direction buf t with
  | Err e => (Err e, buf)
  | Ok _ =>
      if base buf =? 0 then (Err PTLS_ERROR_NO_MEMORY, buf)
      else if SIZE_MAX - off buf <? delta then (Err PTLS_ERROR_NO_MEMORY, buf)
      else
        let required := off buf + delta in
        if (capacity buf <? required) || misaligned buf align then
          let new_capacity := if capacity buf <? 1024 then 1024 else capacity buf in
          match grow_capacity grow_fuel new_capacity required with
          | None => (Err PTLS_ERROR_NO_MEMORY, buf)
          | Some new_capacity =>
              match buffer_alloc buf new_capacity align t with
              | None => (Err PTLS_ERROR_NO_MEMORY, buf)
              | Some buf => (Ok (), buf)
              end
          end
        else (Ok (), buf)
  end.

(* src lib/picotls.c:674-677 ptls_buffer_reserve *)
Definition reserve (delta t : Z) : M ptls_buffer_t unit := reserve_aligned delta 0 t.

(* src lib/picotls.c:679-690 ptls_buffer__do_pushv *)
Definition do_pushv (src : bytes) : M ptls_buffer_t unit :=
  if len src =? 0 then mret ()
  else
    t ← gets tx;
    _ ← reserve (len src) t;
    modify (λ b, set_off (off b + len src) (set_mem (mem_write (mem b) (off b) src) b)).

(* src lib/picotls.c:692-710 ptls_buffer__adjust_quic_blocksize *)
Definition ptls_buffer__adjust_quic_blocksize (body_size : Z) : M ptls_buffer_t unit :=
  let sizebuf := ptls_encode_quicint body_size in
  let sizelen := len sizebuf in
  _ ← (if negb (sizelen =? 1) then
         t ← gets tx;
         _ ← reserve (sizelen - 1) t;
         modify (λ b,
           let body := take (Z.to_nat body_size) (drop (Z.to_nat (off b - body_size)) (mem b)) in
           set_off (off b + (sizelen - 1))
             (set_mem (mem_write (mem b) (off b - body_size - 1 + sizelen) body) b))
       else mret ());
  modify (λ b, set_mem (mem_write (mem b) (off b - body_size - sizelen) sizebuf) b).

Section Push.
Context {S : Type} `{HasBuffer S}.

(* src include/zpicotls.h:1260-1264 ptls_buffer_pushv *)
Definition ptls_buffer_pushv (src : bytes) : M S unit := on_buf (do_pushv src).

(* src include/zpicotls.h:1266-1270 ptls_buffer_push *)
Definition ptls_buffer_push (l : list Z) : M S unit := ptls_buffer_pushv (u8 <$> l).

(* src include/zpicotls.h:1272-1276 ptls_buffer_push16 *)
Definition ptls_buffer_push16 (v : Z) : M S unit := ptls_buffer_pushv (bytes16 v).
(* src include/zpicotls.h:1278-1282 ptls_buffer_push24 *)
Definition ptls_buffer_push24 (v : Z) : M S unit := ptls_buffer_pushv (bytes24 v).
(* src include/zpicotls.h:1284-1288 ptls_buffer_push32 *)
Definition ptls_buffer_push32 (v : Z) : M S unit := ptls_buffer_pushv (bytes32 v).
(* src include/zpicotls.h:1290-1295 ptls_buffer_push64 *)
Definition ptls_buffer_push64 (v : Z) : M S unit := ptls_buffer_pushv (bytes64 v).

(* src include/zpicotls.h:1297-1303 ptls_buffer_push_quicint *)
Definition ptls_buffer_push_quicint (v : Z) : M S unit :=
  on_buf (t ← gets tx;
          _ ← reserve PTLS_ENCODE_QUICINT_CAPACITY t;
          modify (λ b,
            let d := ptls_encode_quicint v in
            set_off (off b + len d) (set_mem (mem_write (mem b) (off b) d) b))).

(** Stores the [cap] bytes of the size in front of [body_start], most significant first. *)
Fixpoint store_size (cap : nat) (body_start body_size : Z) (m : bytes) : bytes :=
  match cap with
  | O => m
  | Datatypes.S cap' =>
      store_size cap' body_start body_size
        (mem_write m (body_start - Z.of_nat cap) [u8 (Z.shiftr body_size (8 * Z.of_nat cap'))])
  end.

(** [capacity] is [-1] for a QUIC integer, else the width of the length field in bytes. *)
(* src include/zpicotls.h:1305-1325 ptls_buffer_push_block *)
Definition ptls_buffer_push_block {A} (cap : Z) (block : M S A) : M S A :=
  _ ← ptls_buffer_pushv (replicate (Z.to_nat (if cap =? -1 then 1 else cap)) 0);
  body_start ← gets (λ s, off (get_buf s));
  a ← block;
  body_end ← gets (λ s, off (get_buf s));
  let body_size := body_end - body_start in
  _ ← (if negb (cap =? -1) then
         if (cap <? 8) && (Z.shiftl 1 (cap * 8) <=? body_size) then fail PTLS_ERROR_BLOCK_OVERFLOW
         else on_buf (modify (λ b,
                set_mem (store_size (Z.to_nat cap) body_start body_size (mem b)) b))
       else on_buf (ptls_buffer__adjust_quic_blocksize body_size));
  mret a.

End Push.
End Ops.

(** ** The invariant and the abstract view *)

(** The data of a buffer. *)
Definition contents (b : ptls_buffer_t) : bytes := take (Z.to_nat (off b)) (mem b).

(** A region is clean when every byte that had been data is zero. *)
Definition region_clean (r : region) : Prop :=
  reg_off r <= len (reg_mem r) /\ Forall (λ x, x = 0) (take (Z.to_nat (reg_off r)) (reg_mem r)).

Record buf_wf (b : ptls_buffer_t) : Prop := {
  wf_base : 0 < base b;
  wf_mem : len (mem b) = capacity b;
  wf_off : 0 <= off b <= capacity b;
  wf_cap : capacity b <= SIZE_MAX;
  wf_tx : tx b = 0 \/ tx b = 1;
  wf_align : 0 <= align_bits b < 64 /\ base b mod 2 ^ align_bits b = 0;
  wf_past : Forall region_clean (past b);
}.

(** [emits m r]: on every well-formed buffer, [m] behaves as [r] says -- appends the bytes of
    [Ok (a, bs)] and returns [a], or fails with [e] for [Err e] -- or else it fails with
    [PTLS_ERROR_NO_MEMORY].  In all cases the buffer stays well-formed and the data it held
    before is kept. *)
Definition outcome {S A} `{HasBuffer S} (r : result (A * bytes)) (c : bytes) (t : Z)
    (o : result A * S) : Prop :=
  buf_wf (get_buf (snd o)) /\ tx (get_buf (snd o)) = t /\
  match r, fst o with
  | Ok (a, bs), Ok a' => a' = a /\ contents (get_buf (snd o)) = c ++ bs
  | _, Err e => (e = PTLS_ERROR_NO_MEMORY \/ exists e', r = Err e' /\ e = e') /\
                exists bs, contents (get_buf (snd o)) = c ++ bs
  | Err _, Ok _ => False
  end.

Definition emits {S A} `{HasBuffer S} (m : M S A) (r : result (A * bytes)) : Prop :=
  forall s, buf_wf (get_buf s) -> outcome r (contents (get_buf s)) (tx (get_buf s)) (m s).

(** ** Lemmas on memory writes *)

Lemma mem_write_split m i src :
  0 <= i -> i + len src <= len m ->
  exists a b c, m = a ++ b ++ c /\ len a = i /\ len b = len src /\
    mem_write m i src = a ++ src ++ c.
Proof.
  intros Hi Hl. pose proof (len_nonneg src).
  exists (take (Z.to_nat i) m), (take (Z.to_nat (len src)) (drop (Z.to_nat i) m)),
    (drop (Z.to_nat (i + len src)) m).
  split_and!.
  - replace (Z.to_nat (i + len src)) with (Z.to_nat i + Z.to_nat (len src))%nat by lia.
    by rewrite <- drop_drop, !take_drop.
  - rewrite len_take. lia.
  - rewrite len_take, len_drop. lia.
  - reflexivity.
Qed.

Lemma len_mem_write m i src :
  0 <= i -> i + len src <= len m -> len (mem_write m i src) = len m.
Proof.
  intros Hi Hl. destruct (mem_write_split m i src Hi Hl) as (a & b & c & -> & ? & ? & ->).
  rewrite !len_app. lia.
Qed.

Lemma take_mem_write_before m i src n :
  0 <= i -> i + len src <= len m -> n <= i ->
  take (Z.to_nat n) (mem_write m i src) = take (Z.to_nat n) m.
Proof.
  intros Hi Hl Hn. destruct (mem_write_split m i src Hi Hl) as (a & b & c & -> & Ha & Hb & ->).
  unfold len in *. rewrite !take_app_le by lia. done.
Qed.

Lemma take_mem_write m i src :
  0 <= i -> i + len src <= len m ->
  take (Z.to_nat (i + len src)) (mem_write m i src) = take (Z.to_nat i) m ++ src.
Proof.
  intros Hi Hl. destruct (mem_write_split m i src Hi Hl) as (a & b & c & -> & Ha & Hb & ->).
  rewrite app_assoc. rewrite <- Ha, <- len_app, take_len_app. by rewrite take_len_app.
Qed.

Lemma mem_clear_clean m n freed :
  0 <= n <= len m -> region_clean (mkRegion (mem_clear m n) n freed).
Proof.
  intros Hn. unfold region_clean, mem_clear. simpl.
  assert (len (replicate (Z.to_nat n) 0) = n) as E by (rewrite len_replicate; lia).
  split; [rewrite len_mem_write; rewrite ?E; lia|].
  replace (Z.to_nat n) with (Z.to_nat (0 + len (replicate (Z.to_nat n) 0))) at 1 by (rewrite E; done).
  rewrite take_mem_write by (rewrite ?E; lia). simpl. by apply Forall_replicate.
Qed.

(** ** Growth *)

Lemma grow_capacity_spec fuel c required :
  0 < c -> 2 ^ 64 <= c * 2 ^ Z.of_nat fuel -> 0 <= required <= SIZE_MAX -> c <= SIZE_MAX ->
  exists c', grow_capacity (S fuel) c required = Some c' /\ required <= c' <= SIZE_MAX /\ c <= c'.
Proof.
  unfold SIZE_MAX. revert c. induction fuel as [|fuel IH]; intros c Hc Hf Hr Hm.
  - simpl in *. destruct (Z.ltb_spec c required); [lia|]. eexists. split; [done|]. lia.
  - cbn [grow_capacity]. destruct (Z.ltb_spec c required); [|eexists; split; [done|]; lia].
    destruct (Z.ltb_spec (SIZE_MAX / 2) c) as [Hh|Hh].
    + eexists. split; [done|]. lia.
    + assert (c * 2 <= 2 ^ 64 - 1).
      { change (SIZE_MAX / 2) with (2 ^ 63 - 1) in Hh. lia. }
      replace (Z.of_nat (S fuel)) with (1 + Z.of_nat fuel) in Hf by lia.
      rewrite Z.pow_add_r in Hf by lia.
      destruct (IH (c * 2)) as (c' & E & Hc1 & Hc2); [lia..|].
      exists c'. split; [exact E|]. lia.
Qed.

Lemma buffer_grow_capacity c required :
  1024 <= c <= SIZE_MAX -> 0 <= required <= SIZE_MAX ->
  exists c', grow_capacity grow_fuel c required = Some c' /\ required <= c' <= SIZE_MAX /\ c <= c'.
Proof.
  intros Hc Hr. apply (grow_capacity_spec 63); [lia| |lia..].
  change (2 ^ Z.of_nat 63) with (2 ^ 63). lia.
Qed.

Section Reserve.
Context `{Allocator}.

Lemma buffer_alloc_spec b c align t b' :
  buf_wf b -> off b <= c <= SIZE_MAX -> 0 <= align < 64 -> t = tx b ->
  buffer_alloc b c align t = Some b' ->
  buf_wf b' /\ contents b' = contents b /\ off b' = off b /\ tx b' = tx b /\
  capacity b' = c /\ align_bits b' = align.
Proof.
  intros [] Hc Ha -> E. unfold buffer_alloc in E.
  destruct (if align =? 0 then malloc c else posix_memalign align c) as [[p m]|] eqn:Em; [|done].
  simplify_eq/=.
  assert (0 < p /\ len m = c /\ p mod 2 ^ align = 0) as (Hp & Hm & Hal).
  { destruct (Z.eqb_spec align 0) as [->|].
    - apply malloc_spec in Em as [??]. by rewrite Z.mod_1_r.
    - by apply posix_memalign_spec in Em. }
  assert (len (take (Z.to_nat (off b)) (mem b)) = off b) as Hlen by (rewrite len_take; lia).
  assert (take (Z.to_nat (off b)) (mem_write m 0 (take (Z.to_nat (off b)) (mem b)))
          = take (Z.to_nat (off b)) (mem b)) as Htake.
  { pose proof (take_mem_write m 0 (take (Z.to_nat (off b)) (mem b))) as E.
    rewrite Hlen, Z.add_0_l in E. apply E; lia. }
  split_and!; try done.
  - split; simpl; try done; try lia.
    + rewrite len_mem_write; rewrite ?Hlen; lia.
    + destruct wf_tx0 as [->| ->]; auto.
    + constructor; [|done]. apply mem_clear_clean. lia.
  - destruct wf_tx0 as [E|E]; rewrite E; done.
Qed.

(** What a reservation does, on every branch. *)
Lemma reserve_aligned_cases delta align t b :
  buf_wf b -> 0 <= delta -> 0 <= align < 64 ->
  match reserve_aligned delta align t b with
  | (Ok _, b') =>
      buf_wf b' /\ contents b' = contents b /\ off b' = off b /\ tx b' = tx b /\ t = tx b /\
      off b + delta <= capacity b' /\ base b' mod 2 ^ align = 0
  | (Err e, b') =>
      b' = b /\ ((t <> tx b /\ e = PTLS_ERROR_LIBRARY) \/
                 (t = tx b /\ e = PTLS_ERROR_NO_MEMORY /\
                  (alloc_total -> SIZE_MAX < off b + delta)))
  end.
Proof.
  intros Hwf Hd Ha. pose proof Hwf as [].
  unfold reserve_aligned, buffer_require_direction.
  destruct (Z.eqb_spec (tx b) t) as [<-|]; [|naive_solver].
  rewrite (proj2 (Z.eqb_neq _ _)) by lia.
  destruct (Z.ltb_spec (SIZE_MAX - off b) delta); [split; [done|right; split_and!; (done || lia)]|].
  destruct ((capacity b <? off b + delta) || misaligned b align) eqn:Eg.
  - destruct (buffer_grow_capacity (if capacity b <? 1024 then 1024 else capacity b) (off b + delta))
      as (c & -> & Hc1 & Hc2).
    { unfold SIZE_MAX in *. destruct (Z.ltb_spec (capacity b) 1024); lia. }
    { lia. }
    assert (off b <= c) by (destruct (Z.ltb_spec (capacity b) 1024); lia).
    destruct (buffer_alloc b c align (tx b)) as [b'|] eqn:Eb.
    + destruct (buffer_alloc_spec b c align (tx b) b') as (Hw' & ? & ? & ? & ? & Hal); try done; [lia|].
      split_and!; try done; [lia|]. rewrite <- Hal. apply Hw'.
    + split; [done|right]. split_and!; try done. intros [Hm Hp]. unfold buffer_alloc in Eb.
      destruct (Z.eqb_spec align 0).
      * destruct (Hm c) as [[??] E]; [lia|]. by rewrite E in Eb.
      * destruct (Hp align c) as [[??] E]; [lia|]. by rewrite E in Eb.
  - apply orb_false_iff in Eg as [Ec Em]. split_and!; try done; [lia|].
    unfold misaligned in Em. destruct wf_align0 as [Hb Hmod].
    destruct (Z.ltb_spec (align_bits b) align) as [Hlt|Hge].
    + simpl in Em. apply negb_false_iff, Z.eqb_eq in Em.
      rewrite u64_small in Em.
      * rewrite Z.shiftl_1_l in Em.
        replace (2 ^ align - 1) with (Z.ones align) in Em by (rewrite Z.ones_equiv; lia).
        by rewrite Z.land_ones in Em by lia.
      * rewrite Z.shiftl_1_l. split; [lia|]. apply Z.pow_lt_mono_r; lia.
    + replace (align_bits b) with (align + (align_bits b - align)) in Hmod by lia.
      assert (0 < 2 ^ (align_bits b - align)) by (apply Z.pow_pos_nonneg; lia).
      rewrite Z.pow_add_r, Z.rem_mul_r in Hmod by lia.
      assert (0 <= (base b / 2 ^ align) mod 2 ^ (align_bits b - align))
        by (apply Z.mod_pos_bound; lia).
      pose proof (Z.mod_pos_bound (base b) (2 ^ align)). nia.
Qed.

End Reserve.

(** ** Every push operation appends *)

Section Emits.
Context `{Allocator} {S : Type} `{HasBuffer S}.

Lemma emits_ret {A} (a : A) : emits (S:=S) (mret a) (Ok (a, [])).
Proof. intros s Hwf. split_and!; try done. simpl. by rewrite app_nil_r. Qed.

Lemma emits_fail {A} e : emits (S:=S) (A:=A) (fail e) (Err e).
Proof.
  intros s Hwf. split_and!; try done. simpl. split; [by eauto|]. exists []. by rewrite app_nil_r.
Qed.

Lemma emits_lift {A} (r : result A) : emits (S:=S) (lift r) (a ← r; Ok (a, [])).
Proof. destruct r; [apply emits_ret|apply emits_fail]. Qed.

Lemma emits_bind {A B} (m : M S A) (f : A -> M S B) a bs r :
  emits m (Ok (a, bs)) -> emits (f a) r ->
  emits (m ≫= f) ('(b, cs) ← r; Ok (b, bs ++ cs)).
Proof.
  intros Hm Hf s Hwf. specialize (Hm s Hwf). rewrite M_bind_run.
  destruct (m s) as [[a'|e] s1]; destruct Hm as (Hw & Ht & Hm); simpl in *.
  - destruct Hm as [-> Hc]. specialize (Hf s1 Hw).
    destruct (f a s1) as [o s2]. destruct Hf as (Hw2 & Ht2 & Hf). simpl in *.
    split_and!; [done|simpl; congruence|].
    destruct r as [[b cs]|e1]; simpl; destruct o as [b'|e2]; simpl in *; try done.
    + destruct Hf as [-> ->]. by rewrite Hc, <- app_assoc.
    + destruct Hf as [[->|(?&?&?)] (ds & Hd)]; [|done]. split; [by left|].
      exists (bs ++ ds). by rewrite app_assoc, <- Hc.
    + destruct Hf as [He (ds & Hd)]. split; [naive_solver|].
      exists (bs ++ ds). by rewrite app_assoc, <- Hc.
  - destruct Hm as [[->|(?&?&?)] Hc]; [|done]. split_and!; try done.
    destruct r as [[b cs]|e1]; simpl; (split; [by left|done]).
Qed.

Lemma emits_seq {A B} (m : M S A) (k : M S B) a b bs cs :
  emits m (Ok (a, bs)) -> emits k (Ok (b, cs)) -> emits (_ ← m; k) (Ok (b, bs ++ cs)).
Proof. intros Hm Hk. apply (emits_bind m (λ _, k) a bs (Ok (b, cs)) Hm Hk). Qed.

Lemma emits_on_buf {A} (m : M ptls_buffer_t A) r : emits m r -> emits (S:=S) (on_buf m) r.
Proof.
  intros Hm s Hwf. specialize (Hm _ Hwf). unfold outcome, on_buf in *. simpl in *.
  destruct (m (get_buf s)) as [o b]. simpl in *. by rewrite get_put_buf.
Qed.

End Emits.

Section EmitsOps.
Context `{Allocator} {S : Type} `{HasBuffer S}.

Lemma wf_write b i src :
  buf_wf b -> 0 <= i -> i + len src <= capacity b -> buf_wf (set_mem (mem_write (mem b) i src) b).
Proof.
  intros [] Hi Hl. split; try done. simpl. rewrite len_mem_write; lia.
Qed.

(** Appending at [off] once the space is reserved. *)
Lemma append_at_off b src :
  buf_wf b -> off b + len src <= capacity b ->
  buf_wf (set_off (off b + len src) (set_mem (mem_write (mem b) (off b) src) b)) /\
  contents (set_off (off b + len src) (set_mem (mem_write (mem b) (off b) src) b))
  = contents b ++ src.
Proof.
  intros Hwf Hl. pose proof Hwf as []. pose proof (len_nonneg src). split.
  - destruct (wf_write b (off b) src) as []; [done|lia|done|]. split; simpl in *; try done; lia.
  - unfold contents. simpl. apply take_mem_write; lia.
Qed.

(** A buffer action that reserves [delta] bytes and then runs [f]. *)
Lemma emits_reserve_modify delta align (f : ptls_buffer_t -> ptls_buffer_t) src :
  0 <= delta -> 0 <= align < 64 ->
  (forall b, buf_wf b -> off b + delta <= capacity b ->
     buf_wf (f b) /\ contents (f b) = contents b ++ src /\ tx (f b) = tx b) ->
  emits (S:=ptls_buffer_t)
    (t ← gets tx; _ ← reserve_aligned delta align t; modify f) (Ok ((), src)).
Proof.
  intros Hd Ha Hf b Hwf. rewrite !M_bind_run. simpl in *. rewrite M_bind_run.
  pose proof (reserve_aligned_cases delta align (tx b) b Hwf Hd Ha) as Hr.
  destruct (reserve_aligned delta align (tx b) b) as [[[]|e] b'].
  - destruct Hr as (Hw & Hc & Ho & Ht & _ & Hcap & _). rewrite <- Ho in Hcap.
    destruct (Hf b' Hw Hcap) as (? & Hc' & Ht'). split_and!; [done|simpl; congruence|simpl; split; [done|congruence]].
  - destruct Hr as (-> & [[? ?]|(_ & -> & _)]); [done|].
    split_and!; try done. simpl. split; [by left|]. exists []. by rewrite app_nil_r.
Qed.

Lemma emits_do_pushv src : emits (S:=ptls_buffer_t) (do_pushv src) (Ok ((), src)).
Proof.
  unfold do_pushv. destruct (Z.eqb_spec (len src) 0) as [E|E].
  - apply len_zero in E as ->. apply emits_ret.
  - apply emits_reserve_modify; [apply len_nonneg|lia|].
    intros b Hw Hc. split_and!; try done; by apply append_at_off.
Qed.

Lemma emits_pushv src : emits (S:=S) (ptls_buffer_pushv src) (Ok ((), src)).
Proof. apply emits_on_buf, emits_do_pushv. Qed.

Lemma emits_push l : is_bytes l -> emits (S:=S) (ptls_buffer_push l) (Ok ((), l)).
Proof.
  intros Hl. unfold ptls_buffer_push. replace (u8 <$> l) with l; [apply emits_pushv|].
  induction Hl; [done|]. simpl. by rewrite u8_small by done; f_equal.
Qed.

Lemma emits_push16 v : emits (S:=S) (ptls_buffer_push16 v) (Ok ((), bytes16 v)).
Proof. apply emits_pushv. Qed.
Lemma emits_push24 v : emits (S:=S) (ptls_buffer_push24 v) (Ok ((), bytes24 v)).
Proof. apply emits_pushv. Qed.
Lemma emits_push32 v : emits (S:=S) (ptls_buffer_push32 v) (Ok ((), bytes32 v)).
Proof. apply emits_pushv. Qed.
Lemma emits_push64 v : emits (S:=S) (ptls_buffer_push64 v) (Ok ((), bytes64 v)).
Proof. apply emits_pushv. Qed.

Lemma encode_quicint_length v :
  0 <= v <= PTLS_QUICINT_MAX -> 1 <= len (ptls_encode_quicint v) <= 8.
Proof.
  intros Hv. unfold ptls_encode_quicint. repeat case_match; vm_compute; split; discriminate.
Qed.

Lemma emits_push_quicint v :
  0 <= v <= PTLS_QUICINT_MAX ->
  emits (S:=S) (ptls_buffer_push_quicint v) (Ok ((), ptls_encode_quicint v)).
Proof.
  intros Hv. apply emits_on_buf, emits_reserve_modify; [done|lia|].
  intros b Hw Hc. pose proof (encode_quicint_length v Hv).
  unfold PTLS_ENCODE_QUICINT_CAPACITY in Hc. split_and!; try done; apply append_at_off; (done || lia).
Qed.


(** ** Length-prefixed blocks *)

Lemma contents_len b : buf_wf b -> len (contents b) = off b.
Proof. intros []. unfold contents. rewrite len_take. lia. Qed.

Lemma contents_mem b : buf_wf b -> mem b = contents b ++ drop (Z.to_nat (off b)) (mem b).
Proof. intros _. symmetry. apply take_drop. Qed.

Lemma mem_write_app a b c src :
  len src = len b -> mem_write (a ++ b ++ c) (len a) src = a ++ src ++ c.
Proof.
  intros E. unfold mem_write. rewrite take_len_app, E. f_equal. f_equal.
  rewrite <- len_app, app_assoc, drop_len_app. done.
Qed.

Lemma store_size_spec cap (a z c : bytes) size :
  length z = cap ->
  store_size cap (len a + len z) size (a ++ z ++ c) = a ++ be_encode cap size ++ c.
Proof.
  revert a z. induction cap as [|cap IH]; intros a z Hz.
  - by destruct z.
  - destruct z as [|x z]; [done|]. injection Hz as Hz. cbn [store_size be_encode].
    replace (len a + len (x :: z) - Z.of_nat (Datatypes.S cap)) with (len a)
      by (rewrite len_cons; unfold len; lia).
    rewrite (mem_write_app a [x] (z ++ c)) by done.
    replace (len a + len (x :: z)) with (len (a ++ [u8 (Z.shiftr size (8 * Z.of_nat cap))]) + len z)
      by (len_simpl; lia).
    change (?l ++ [?y] ++ ?r) with (l ++ [y] ++ r). rewrite (app_assoc a [_]), IH by done.
    by rewrite <- app_assoc.
Qed.

(** Overwriting [z] in the data [c ++ z ++ bs] by [z'] of the same length. *)
Lemma overwrite_contents b c z z' bs (f : bytes -> bytes) :
  buf_wf b -> contents b = c ++ z ++ bs -> len z' = len z ->
  (forall tl, f (c ++ z ++ tl) = c ++ z' ++ tl) ->
  buf_wf (set_mem (f (mem b)) b) /\ contents (set_mem (f (mem b)) b) = c ++ z' ++ bs.
Proof.
  intros Hw Hc Hz Hf. pose proof (contents_mem b Hw) as Hm. pose proof (contents_len b Hw) as Ho.
  rewrite Hc, <- !app_assoc in Hm. split.
  - destruct Hw. split; simpl; try done. rewrite Hm in *. rewrite Hf. rewrite !len_app in *. lia.
  - unfold contents. simpl. rewrite Hm, Hf. rewrite Hc in Ho. rewrite <- Ho.
    replace (len (c ++ z ++ bs)) with (len (c ++ z' ++ bs)) by (rewrite !len_app; lia).
    set (tl := drop _ _). replace (c ++ z' ++ bs ++ tl) with ((c ++ z' ++ bs) ++ tl)
      by (by rewrite <- !app_assoc). apply take_len_app.
Qed.

(** The part common to both kinds of block: a hole [z], the body, and then [k]. *)
Lemma emits_hole {A} z (block : M S A) a bs (k : Z -> Z -> A -> M S A) r :
  emits block (Ok (a, bs)) ->
  (forall s c t, buf_wf (get_buf s) -> contents (get_buf s) = c ++ z ++ bs -> tx (get_buf s) = t ->
     outcome r c t (k (len c + len z) (len c + len z + len bs) a s)) ->
  emits (_ ← ptls_buffer_pushv z;
         start ← gets (λ s, off (get_buf s));
         a ← block;
         stop ← gets (λ s, off (get_buf s));
         k start stop a) r.
Proof.
  intros Hb Hk s Hw. rewrite M_bind_run. pose proof (emits_pushv z s Hw) as H1.
  destruct (ptls_buffer_pushv z s) as [[[]|e] s1]; destruct H1 as (Hw1 & Ht1 & H1); simpl in *.
  - destruct H1 as [_ Hc1]. rewrite M_bind_run. simpl. rewrite M_bind_run.
    specialize (Hb s1 Hw1).
    destruct (block s1) as [[a'|e] s2]; destruct Hb as (Hw2 & Ht2 & H2); simpl in *.
    + destruct H2 as [-> Hc2]. rewrite M_bind_run. simpl.
      rewrite <- (contents_len _ Hw1), <- (contents_len _ Hw2), Hc2, Hc1, !len_app.
      apply Hk; [done| |congruence]. by rewrite Hc2, Hc1, <- app_assoc.
    + destruct H2 as [[->|(?&?&?)] (ds & Hd)]; [|done]. split_and!; simpl; [done|congruence|].
      rewrite Hc1, <- app_assoc in Hd. destruct r as [[]|]; simpl; (split; [by left|by eauto]).
  - destruct H1 as [[->|(?&?&?)] (ds & Hd)]; [|done]. split_and!; simpl; [done|congruence|].
    destruct r as [[]|]; simpl; (split; [by left|by eauto]).
Qed.

Lemma emits_push_block {A} (cap : nat) (block : M S A) a bs :
  (1 <= cap <= 8)%nat -> emits block (Ok (a, bs)) ->
  emits (ptls_buffer_push_block (Z.of_nat cap) block)
    (if (Z.of_nat cap <? 8) && (256 ^ Z.of_nat cap <=? len bs) then Err PTLS_ERROR_BLOCK_OVERFLOW
     else Ok (a, be_encode cap (len bs) ++ bs)).
Proof.
  intros Hc Hb. unfold ptls_buffer_push_block. rewrite (proj2 (Z.eqb_neq _ _)) by lia.
  rewrite Nat2Z.id. apply emits_hole with (bs := bs) (a := a); [done|].
  intros s c t Hw Hs Ht. cbn [negb].
  replace (len c + len (replicate cap 0) + len bs - (len c + len (replicate cap 0))) with (len bs) by lia.
  rewrite Z.shiftl_1_l, Z.mul_comm, Z.pow_mul_r by lia. change (2 ^ 8) with 256.
  destruct ((Z.of_nat cap <? 8) && (256 ^ Z.of_nat cap <=? len bs)).
  - split; [done|]. split; [done|]. simpl. split; [by eauto|by eauto].
  - unfold outcome, on_buf. rewrite M_bind_run. simpl. rewrite get_put_buf.
    destruct (overwrite_contents (get_buf s) c (replicate cap 0) (be_encode cap (len bs)) bs
      (store_size cap (len c + len (replicate cap 0)) (len bs))) as [Hw' Hc']; try done.
    + unfold len. by rewrite be_encode_length, length_replicate.
    + intros tl. by apply store_size_spec, length_replicate.
Qed.

Lemma take_len_split (l : bytes) n :
  0 <= n <= len l -> exists a b, l = a ++ b /\ len a = n.
Proof.
  intros Hn. exists (take (Z.to_nat n) l), (drop (Z.to_nat n) l).
  split; [by rewrite take_drop|]. rewrite len_take. lia.
Qed.

(** Moving the body [bs] forward by [len sz - 1] bytes and writing [sz] in front of it. *)
Lemma quic_shift c x bs tl sz :
  1 <= len sz <= 1 + len tl ->
  exists tl', len tl' = len tl - (len sz - 1) /\
    mem_write (mem_write (c ++ x :: bs ++ tl) (len c + len sz) bs) (len c) sz
    = c ++ sz ++ bs ++ tl'.
Proof.
  intros Hs. pose proof (len_nonneg bs).
  destruct (take_len_split (x :: bs ++ tl) (len sz)) as (a & b & E & Ha);
    [rewrite len_cons, len_app; lia|].
  assert (len b = len bs + len tl - (len sz - 1)) as Hb.
  { assert (len (x :: bs ++ tl) = len (a ++ b)) as El by (by rewrite E).
    rewrite len_cons, !len_app in El. lia. }
  destruct (take_len_split b (len bs)) as (b1 & b2 & -> & Hb1); [lia|].
  rewrite len_app in Hb. exists b2. split; [lia|].
  rewrite E. rewrite <- Ha, <- len_app. rewrite (app_assoc c a).
  rewrite (mem_write_app (c ++ a) b1 b2 bs) by done.
  rewrite <- (app_assoc c a). by rewrite (mem_write_app c a (bs ++ b2) sz) by done.
Qed.

Lemma emits_push_quic_block {A} (block : M S A) a bs :
  len bs <= PTLS_QUICINT_MAX -> emits block (Ok (a, bs)) ->
  emits (ptls_buffer_push_block (-1) block) (Ok (a, ptls_encode_quicint (len bs) ++ bs)).
Proof.
  intros Hq Hb. unfold ptls_buffer_push_block. simpl (if _ =? _ then _ else _).
  apply emits_hole with (bs := bs) (a := a); [done|]. intros s c t Hw Hs Ht.
  change (replicate (Z.to_nat 1) 0) with [0] in *. cbn [negb Z.eqb Pos.eqb].
  replace (len c + len [0] + len bs - (len c + len [0])) with (len bs) by lia.
  set (sz := ptls_encode_quicint (len bs)).
  pose proof (len_nonneg bs). pose proof (encode_quicint_length (len bs)) as Hsz.
  specialize (Hsz ltac:(lia)). fold sz in Hsz.
  unfold outcome, on_buf. rewrite M_bind_run. unfold ptls_buffer__adjust_quic_blocksize. fold sz.
  rewrite M_bind_run. destruct (Z.eqb_spec (len sz) 1) as [E1|E1]; cbn [negb].
  - simpl. rewrite get_put_buf.
    pose proof (contents_len _ Hw) as Ho. rewrite Hs, !len_app in Ho.
    change (len [0]) with 1 in Ho.
    destruct (overwrite_contents (get_buf s) c [0] sz bs
      (λ m, mem_write m (off (get_buf s) - len bs - len sz) sz)) as [Hw' Hc']; try done.
    intros tl. replace (off (get_buf s) - len bs - len sz) with (len c) by lia.
    by apply mem_write_app.
  - unfold mbind, M_bind, gets, reserve. cbv beta iota.
    pose proof (reserve_aligned_cases (len sz - 1) 0 (tx (get_buf s)) (get_buf s) Hw) as Hr.
    specialize (Hr ltac:(lia) ltac:(lia)).
    destruct (reserve_aligned (len sz - 1) 0 (tx (get_buf s)) (get_buf s)) as [[[]|e] b'].
    + destruct Hr as (Hw' & Hc' & Ho' & Ht' & _ & Hcap & _). simpl. rewrite get_put_buf.
      pose proof (contents_mem b' Hw') as Hm. rewrite Hc', Hs in Hm.
      pose proof (contents_len b' Hw') as Ho. rewrite Hc', Hs, !len_app in Ho.
      change (len [0]) with 1 in Ho. change ([0] ++ bs) with (0 :: bs) in Hm.
      rewrite <- app_assoc in Hm. cbn [app] in Hm. set (tl := drop _ _) in Hm.
      assert (len tl = capacity b' - off b') as Htl.
      { destruct Hw'. unfold tl. rewrite len_drop, wf_mem0. lia. }
      destruct (quic_shift c 0 bs tl sz) as (tl' & Htl' & Eq); [lia|].
      assert (take (Z.to_nat (len bs)) (drop (Z.to_nat (off b' - len bs)) (mem b')) = bs) as ->.
      { rewrite Hm. replace (off b' - len bs) with (len (c ++ [0])) by (rewrite len_app; change (len [0]) with 1; lia).
        change (c ++ 0 :: bs ++ tl) with (c ++ [0] ++ bs ++ tl).
        rewrite (app_assoc c [0]), drop_len_app. apply take_len_app. }
      replace (off b' - len bs - 1 + len sz) with (len c + len sz) by lia.
      replace (off b' + (len sz - 1) - len bs - len sz) with (len c) by lia.
      rewrite Hm, Eq. split; [|split; [simpl; congruence|split; [done|]]].
      * destruct Hw'. split; simpl; try done; [rewrite !len_app; lia|lia].
      * unfold contents. simpl.
        replace (off b' + (len sz - 1)) with (len (c ++ sz ++ bs)) by (rewrite !len_app; lia).
        replace (c ++ sz ++ bs ++ tl') with ((c ++ sz ++ bs) ++ tl') by (by rewrite <- !app_assoc).
        apply take_len_app.
    + destruct Hr as (-> & [[? ?]|(_ & -> & _)]); [done|]. simpl. rewrite get_put_buf.
      split; [done|]. split; [done|]. split; [by left|]. by eauto.
Qed.

End EmitsOps.

(** ** The operations of a buffer's owner, as steps *)

Section Steps.
Context `{Allocator}.

Inductive buf_step : ptls_buffer_t -> ptls_buffer_t -> Prop :=
| step_reserve delta align t b : 0 <= delta -> 0 <= align < 64 ->
    buf_step b (snd (reserve_aligned delta align t b))
| step_pushv src b : buf_step b (snd (do_pushv src b))
| step_push_quicint v b : 0 <= v <= PTLS_QUICINT_MAX ->
    buf_step b (snd (ptls_buffer_push_quicint v b))
| step_store i src b : 0 <= i -> i + len src <= off b ->
    buf_step b (set_mem (mem_write (mem b) i src) b).

Lemma buf_step_wf b b' : buf_step b b' -> buf_wf b -> buf_wf b'.
Proof.
  intros Hs Hw. destruct Hs as [delta align t b Hd Ha|src b|v b Hv|i src b Hi Hl].
  - pose proof (reserve_aligned_cases delta align t b Hw Hd Ha) as Hr.
    destruct (reserve_aligned delta align t b) as [[] b']; naive_solver.
  - by apply (emits_do_pushv src b Hw).
  - pose proof (emits_push_quicint (S:=ptls_buffer_t) v Hv b Hw) as [Hw' _]. exact Hw'.
  - apply wf_write; try done. destruct Hw. lia.
Qed.

Lemma buf_steps_wf b b' : rtc buf_step b b' -> buf_wf b -> buf_wf b'.
Proof. induction 1; eauto using buf_step_wf. Qed.

Lemma buffer_init_wf p m t :
  0 < p -> len m <= SIZE_MAX -> t = 0 \/ t = 1 -> buf_wf (ptls_buffer_init p m t).
Proof.
  intros Hp Hm Ht. pose proof (len_nonneg m).
  split; simpl; try done; try lia. by rewrite Z.mod_1_r.
Qed.

(** C39: no secret is left behind in memory a buffer gives up: start from any initialised buffer,
    run any sequence of reservations, pushes and stores into the data, and dispose of it; every
    region the buffer ever released (each outgrown region and the last one) was zero-filled over
    all the data it held. *)
Theorem buffer_released_memory_cleared p m t b :
  0 < p -> len m <= SIZE_MAX -> t = 0 \/ t = 1 ->
  rtc buf_step (ptls_buffer_init p m t) b ->
  Forall region_clean (past (ptls_buffer_dispose b)).
Proof.
  intros Hp Hm Ht Hs. pose proof (buf_steps_wf _ _ Hs (buffer_init_wf p m t Hp Hm Ht)) as [].
  simpl. constructor; [|done]. apply mem_clear_clean. lia.
Qed.

(** [ptls_buffer_reserve_aligned] on every branch: success keeps the data, provides [delta]
    bytes of room and a base address aligned to [2^align] bytes; a direction mismatch is
    [PTLS_ERROR_LIBRARY]; the only other failure is [PTLS_ERROR_NO_MEMORY], which leaves the buffer
    unchanged and, with an allocator that never fails, happens only if the size would not fit a
    [size_t].  In particular the capacity-doubling loop terminates. *)
Theorem buffer_reserve_correct delta align t b :
  buf_wf b -> 0 <= delta -> 0 <= align < 64 ->
  match reserve_aligned delta align t b with
  | (Ok _, b') =>
      buf_wf b' /\ contents b' = contents b /\ off b' = off b /\ tx b' = tx b /\ t = tx b /\
      off b + delta <= capacity b' /\ base b' mod 2 ^ align = 0
  | (Err e, b') =>
      b' = b /\ ((t <> tx b /\ e = PTLS_ERROR_LIBRARY) \/
                 (t = tx b /\ e = PTLS_ERROR_NO_MEMORY /\
                  (alloc_total -> SIZE_MAX < off b + delta)))
  end.
Proof. apply reserve_aligned_cases. Qed.

End Steps.

(** a block pushed with a [cap]-byte length field refines the abstract append: if the body
    appends [bs], the whole appends a string that [ptls_decode_open_block] splits back into
    exactly [bs] and whatever follows; a body of [256^cap] bytes or more is refused with
    [PTLS_ERROR_BLOCK_OVERFLOW] (never truncated), and the data already in the buffer is kept in
    every case. *)
Theorem push_block_refines `{Allocator} {St : Type} `{HasBuffer St} {A}
    (cap : nat) (block : M St A) (a : A) (bs : bytes) :
  (1 <= cap <= 7)%nat -> emits block (Ok (a, bs)) ->
  exists r, emits (ptls_buffer_push_block (Z.of_nat cap) block) r /\
    match r with
    | Ok (a', out) => a' = a /\ len bs < 256 ^ Z.of_nat cap /\
        forall rest, split_block (Z.of_nat cap) (out ++ rest) = Ok (bs, rest)
    | Err e => e = PTLS_ERROR_BLOCK_OVERFLOW /\ 256 ^ Z.of_nat cap <= len bs
    end.
Proof.
  intros Hc Hb. eexists. split; [apply emits_push_block; [lia|exact Hb]|].
  destruct (Z.ltb_spec (Z.of_nat cap) 8); [|lia].
  destruct (Z.leb_spec (256 ^ Z.of_nat cap) (len bs)); simpl; [done|].
  split_and!; [done..|]. intros rest. rewrite <- app_assoc. apply split_block_fixed; lia.
Qed.

(** The same for a block whose length is a QUIC integer: the body is moved to make room for the
    length, and the result is split back into exactly the body. *)
Theorem push_quic_block_refines `{Allocator} {St : Type} `{HasBuffer St} {A}
    (block : M St A) (a : A) (bs : bytes) :
  len bs <= PTLS_QUICINT_MAX -> emits block (Ok (a, bs)) ->
  exists out, emits (ptls_buffer_push_block (-1) block) (Ok (a, out)) /\
    forall rest, split_block (-1) (out ++ rest) = Ok (bs, rest).
Proof.
  intros Hq Hb. eexists. split; [by apply emits_push_quic_block|].
  intros rest. rewrite <- app_assoc. by apply split_block_quic.
Qed.

(** ** Witnesses *)

(** An allocator that always succeeds, with page-aligned addresses below [2^63]. *)
Definition bump_allocator : Allocator.
Proof.
  refine {| malloc := λ n, if 0 <=? n then Some (4096, replicate (Z.to_nat n) 0xaa) else None;
            posix_memalign := λ a n, if (0 <=? n) && (0 <=? a)
                                     then Some (2 ^ a, replicate (Z.to_nat n) 0xaa) else None |}.
  - intros n p m E. destruct (Z.leb_spec 0 n); simplify_eq. rewrite len_replicate. lia.
  - intros a n p m E. destruct (Z.leb_spec 0 n); [|done].
    destruct (Z.leb_spec 0 a); simplify_eq/=. rewrite len_replicate.
    split_and!; [lia|lia|]. apply Z.mod_same. lia.
Defined.

Lemma bump_push_witness_wf : buf_wf (ptls_buffer_init 64 [0; 0; 0; 0] 1).
Proof. apply buffer_init_wf; vm_compute; auto; discriminate. Qed.

Lemma buffer_released_memory_cleared_witness :
  Forall region_clean
    (past (ptls_buffer_dispose
       (snd (@do_pushv bump_allocator [1; 2; 3; 4; 5; 6] (ptls_buffer_init 64 [0; 0; 0; 0] 1))))).
Proof.
  apply (@buffer_released_memory_cleared bump_allocator 64 [0; 0; 0; 0] 1);
    [lia|vm_compute; discriminate|by right|].
  apply rtc_once. apply (@step_pushv bump_allocator).
Defined.

Lemma buffer_reserve_correct_witness :
  exists b', @reserve_aligned bump_allocator 2000 4 1 (ptls_buffer_init 64 [9; 9] 1) = (Ok (), b') /\
    capacity b' = 2048 /\ base b' mod 2 ^ 4 = 0.
Proof.
  pose proof (@buffer_reserve_correct bump_allocator 2000 4 1 (ptls_buffer_init 64 [9; 9] 1)) as Hc.
  specialize (Hc ltac:(apply buffer_init_wf; vm_compute; auto; discriminate) ltac:(lia) ltac:(lia)).
  exists (snd (@reserve_aligned bump_allocator 2000 4 1 (ptls_buffer_init 64 [9; 9] 1))).
  assert (@reserve_aligned bump_allocator 2000 4 1 (ptls_buffer_init 64 [9; 9] 1)
    = (Ok (), snd (@reserve_aligned bump_allocator 2000 4 1 (ptls_buffer_init 64 [9; 9] 1)))) as E
    by (vm_compute; reflexivity).
  split; [exact E|]. split; [vm_compute; reflexivity|]. rewrite E in Hc. apply Hc.
Defined.

Lemma push_block_refines_witness :
  exists r, @emits ptls_buffer_t () _
    (@ptls_buffer_push_block bump_allocator ptls_buffer_t _ () (Z.of_nat 2)
       (@ptls_buffer_pushv bump_allocator ptls_buffer_t _ [5; 6; 7])) r /\
    match r with
    | Ok (a', out) => a' = () /\ len [5; 6; 7] < 256 ^ Z.of_nat 2 /\
        forall rest, split_block (Z.of_nat 2) (out ++ rest) = Ok ([5; 6; 7], rest)
    | Err e => e = PTLS_ERROR_BLOCK_OVERFLOW /\ 256 ^ Z.of_nat 2 <= len [5; 6; 7]
    end.
Proof. apply push_block_refines; [lia|]. apply (@emits_pushv bump_allocator). Defined.

Lemma push_quic_block_refines_witness :
  exists out, @emits ptls_buffer_t () _
    (@ptls_buffer_push_block bump_allocator ptls_buffer_t _ () (-1)
       (@ptls_buffer_pushv bump_allocator ptls_buffer_t _ (replicate 70 1))) (Ok ((), out)) /\
    forall rest, split_block (-1) (out ++ rest) = Ok (replicate 70 1, rest).
Proof.
  apply push_quic_block_refines; [vm_compute; discriminate|]. apply (@emits_pushv bump_allocator).
Defined.
