(* ===== verification/Extensions.v ===== *)
(** * Extensions: which extension may appear where, and the extension-block decoder

    [extension_bitmap_testandset] of [lib/picotls.c] (RFC 8446 section 4.2) and the macros
    [decode_open_extensions] / [decode_extensions] built on it. *)

From S2P Require Import Prelude Constants Wire.

(* src lib/picotls.c:135 supported_versions *)
Definition supported_versions : list Z := [PTLS_PROTOCOL_VERSION_TLS13].

(* src lib/picotls.c:462-469 is_supported_version *)
Definition is_supported_version (v : Z) : bool := existsb (λ x, x =? v) supported_versions.

(** ** The bitmap *)

(* src lib/picotls.c:473 HSTYPE_TO_BIT *)
Definition HSTYPE_TO_BIT (hstype : Z) : Z := Z.shiftl 1 (hstype + 1).

Definition CH := HSTYPE_TO_BIT PTLS_HANDSHAKE_TYPE_CLIENT_HELLO.
Definition SH := HSTYPE_TO_BIT PTLS_HANDSHAKE_TYPE_SERVER_HELLO.
Definition HRR := HSTYPE_TO_BIT PTLS_HANDSHAKE_TYPE_PSEUDO_HRR.
Definition EE := HSTYPE_TO_BIT PTLS_HANDSHAKE_TYPE_ENCRYPTED_EXTENSIONS.
Definition CR := HSTYPE_TO_BIT PTLS_HANDSHAKE_TYPE_CERTIFICATE_REQUEST.
Definition CT := HSTYPE_TO_BIT PTLS_HANDSHAKE_TYPE_CERTIFICATE.
Definition NST := HSTYPE_TO_BIT PTLS_HANDSHAKE_TYPE_NEW_SESSION_TICKET.

(** The table of the [EXT(...)] lines, in their order. *)
(* src lib/picotls.c:484-516 EXT *)
Definition ext_table : list (Z * Z) :=
  [ (PTLS_EXTENSION_TYPE_SERVER_NAME             , CH + EE       );
    (PTLS_EXTENSION_TYPE_STATUS_REQUEST          , CH + CR + CT  );
    (PTLS_EXTENSION_TYPE_SUPPORTED_GROUPS        , CH + EE       );
    (PTLS_EXTENSION_TYPE_SIGNATURE_ALGORITHMS    , CH + CR       );
    (PTLS_EXTENSION_TYPE_ALPN                    , CH + EE       );
    (PTLS_EXTENSION_TYPE_SERVER_CERTIFICATE_TYPE , CH + EE       );
    (PTLS_EXTENSION_TYPE_KEY_SHARE               , CH + SH + HRR );
    (PTLS_EXTENSION_TYPE_PRE_SHARED_KEY          , CH + SH       );
    (PTLS_EXTENSION_TYPE_PSK_KEY_EXCHANGE_MODES  , CH            );
    (PTLS_EXTENSION_TYPE_EARLY_DATA              , CH + EE + NST );
    (PTLS_EXTENSION_TYPE_COOKIE                  , CH + HRR      );
    (PTLS_EXTENSION_TYPE_SUPPORTED_VERSIONS      , CH + SH + HRR );
    (PTLS_EXTENSION_TYPE_COMPRESS_CERTIFICATE    , CH + CR       );
    (PTLS_EXTENSION_TYPE_ENCRYPTED_CLIENT_HELLO  , CH + HRR + EE );
    (PTLS_EXTENSION_TYPE_ECH_OUTER_EXTENSIONS    , 0             ) ].

(** The chain of comparisons: the entry found and its bit, the mask shifting at each miss. *)
Fixpoint find_ext (tbl : list (Z * Z)) (ext_bitmap_mask extid : Z) : option (Z * Z) :=
  match tbl with
  | [] => None
  | (candext, allowed_bits) :: tbl =>
      if extid =? candext then Some (allowed_bits, ext_bitmap_mask)
      else find_ext tbl (u64 (Z.shiftl ext_bitmap_mask 1)) extid
  end.

(** Returns the C truth value and the bitmap afterwards. *)
(* src lib/picotls.c:471-533 extension_bitmap_testandset *)
Definition extension_bitmap_testandset (bits hstype extid : Z) : bool * Z :=
  match find_ext ext_table 1 extid with
  | None => (true, bits)
  | Some (allowed_hs_bits, ext_bitmap_mask) =>
      if Z.land allowed_hs_bits (HSTYPE_TO_BIT hstype) =? 0 then (false, bits)
      else if negb (Z.land bits ext_bitmap_mask =? 0) then (false, bits)
      else (true, Z.lor bits ext_bitmap_mask)
  end.

(** ** The extension-block decoder

    [block exttype rest_len a inner] is the body of the macro: [exttype] is the type just read,
    [inner] the bytes of the extension, [rest_len] how many bytes of the block follow it, and [a]
    stands for the variables the body updates. *)

Fixpoint ext_loop {A} (fuel : nat) (bits hstype : Z)
    (block : Z -> Z -> A -> bytes -> result (A * bytes)) (a : A) (src : bytes)
    : result (A * bytes) :=
  match src, fuel with
  | [], _ => Ok (a, [])
  | _, O => Err OUT_OF_FUEL
  | _, S fuel =>
      '(exttype, src) ← ptls_decode16 src;
      let '(ok, bits) := extension_bitmap_testandset bits hstype exttype in
      _ ← guard_err ok PTLS_ALERT_ILLEGAL_PARAMETER;
      '(inner, rest) ← split_block 2 src;
      '(a, inner') ← block exttype (len rest) a inner;
      _ ← ptls_decode_assert_block_close inner';
      ext_loop fuel bits hstype block a rest
  end.

(* src lib/picotls.c:945-959 decode_open_extensions *)
Definition decode_open_extensions {A} (hstype : Z)
    (block : Z -> Z -> A -> bytes -> result (A * bytes)) (a : A) (src : bytes)
    : result (A * bytes) :=
  ptls_decode_open_block 2 (λ src, ext_loop (length src) 0 hstype block a src) src.

(* src lib/picotls.c:961-965 decode_extensions *)
Definition decode_extensions {A} (hstype : Z)
    (block : Z -> Z -> A -> bytes -> result (A * bytes)) (a : A) (src : bytes) : result A :=
  '(a, rest) ← decode_open_extensions hstype block a src;
  _ ← ptls_decode_assert_block_close rest;
  Ok a.

(** ** Specification *)

Definition recognized (t : Z) : Prop := t ∈ (fst <$> ext_table).
#[global] Instance recognized_dec t : Decision (recognized t).
Proof. unfold recognized. apply _. Defined.

(** The extensions that a message of type [hstype] may carry, by the table. *)
Definition allowed_in (hstype t : Z) : bool :=
  match find_ext ext_table 1 t with
  | None => true
  | Some (allowed, _) => negb (Z.land allowed (HSTYPE_TO_BIT hstype) =? 0)
  end.

(** A list of extension types is acceptable for a message: each recognized one is allowed there
    and occurs once. *)
Definition acceptable (hstype : Z) (types : list Z) : Prop :=
  Forall (λ t, allowed_in hstype t = true) types /\
  NoDup (filter recognized types).

(** Running the bitmap over the types in order. *)
Fixpoint bitmap_run (bits hstype : Z) (types : list Z) : option Z :=
  match types with
  | [] => Some bits
  | t :: types =>
      let '(ok, bits) := extension_bitmap_testandset bits hstype t in
      if ok then bitmap_run bits hstype types else None
  end.

Definition enc_ext (e : Z * bytes) : bytes :=
  bytes16 (fst e) ++ be_encode 2 (len (snd e)) ++ snd e.

Definition enc_exts (es : list (Z * bytes)) : bytes := concat (enc_ext <$> es).

Definition ext_ok (e : Z * bytes) : Prop := 0 <= fst e < 2 ^ 16 /\ len (snd e) < 2 ^ 16.

(** The handlers run over the extensions in order. *)
Inductive run_exts {A} (block : Z -> Z -> A -> bytes -> result (A * bytes))
    : A -> list (Z * bytes) -> A -> Prop :=
| run_exts_nil a : run_exts block a [] a
| run_exts_cons a t body es a' a'' :
    block t (len (enc_exts es)) a body = Ok (a', []) ->
    run_exts block a' es a'' -> run_exts block a ((t, body) :: es) a''.

(** ** Lemmas: the bitmap *)

Lemma land_pow2_zero a i : 0 <= i -> (Z.land a (2 ^ i) =? 0) = negb (Z.testbit a i).
Proof.
  intros Hi. destruct (Z.testbit a i) eqn:E; simpl.
  - apply Z.eqb_neq. intros Hz. apply (f_equal (λ z, Z.testbit z i)) in Hz.
    by rewrite Z.land_spec, Z.pow2_bits_true, E, Z.bits_0 in Hz by lia.
  - apply Z.eqb_eq, Z.bits_inj'. intros j Hj. rewrite Z.land_spec, Z.bits_0.
    destruct (decide (i = j)) as [->|]; [by rewrite E|].
    by rewrite Z.pow2_bits_false, andb_false_r by lia.
Qed.

Lemma find_ext_index tbl k t :
  0 <= k -> k + len tbl <= 63 ->
  match find_ext tbl (2 ^ k) t with
  | None => t ∉ (fst <$> tbl)
  | Some (al, mask) => exists i : nat, tbl !! i = Some (t, al) /\ mask = 2 ^ (k + Z.of_nat i)
  end.
Proof.
  revert k. induction tbl as [|[c al] tbl IH]; intros k Hk Hl; simpl; [apply not_elem_of_nil|].
  rewrite len_cons in Hl. pose proof (len_nonneg tbl).
  destruct (Z.eqb_spec t c) as [->|Hne].
  - exists 0%nat. simpl. by rewrite Z.add_0_r.
  - assert (u64 (Z.shiftl (2 ^ k) 1) = 2 ^ (k + 1)) as ->.
    { rewrite Z.shiftl_mul_pow2, Z.pow_add_r by lia. apply u64_small.
      change (2 ^ 1) with 2. assert (2 ^ k < 2 ^ 63) by (apply Z.pow_lt_mono_r; lia). lia. }
    specialize (IH (k + 1) ltac:(lia) ltac:(lia)).
    destruct (find_ext tbl (2 ^ (k + 1)) t) as [[al' mask]|].
    + destruct IH as (i & Hi & ->). exists (S i). split; [done|]. f_equal. lia.
    + by rewrite not_elem_of_cons.
Qed.

Lemma ext_table_nodup : NoDup (fst <$> ext_table).
Proof. apply (bool_decide_unpack (NoDup (fst <$> ext_table))). vm_compute. exact I. Qed.

Lemma find_ext_cases t :
  match find_ext ext_table 1 t with
  | None => ~ recognized t
  | Some (al, mask) => recognized t /\ exists i : nat,
      (fst <$> ext_table) !! i = Some t /\ mask = 2 ^ Z.of_nat i
  end.
Proof.
  pose proof (find_ext_index ext_table 0 t) as H. specialize (H ltac:(lia) ltac:(vm_compute; discriminate)).
  change (2 ^ 0) with 1 in H. destruct (find_ext ext_table 1 t) as [[al mask]|]; [|done].
  destruct H as (i & Hi & ->).
  assert ((fst <$> ext_table) !! i = Some t) as Hf by (by rewrite list_lookup_fmap, Hi).
  split; [|by exists i]. unfold recognized. by eapply list_elem_of_lookup_2.
Qed.

(** The bitmap [bits] records exactly the recognized types of [seen]. *)
Definition bitmap_repr (bits : Z) (seen : list Z) : Prop :=
  forall (i : nat) t, (fst <$> ext_table) !! i = Some t ->
    Z.testbit bits (Z.of_nat i) = bool_decide (t ∈ seen).

Lemma bitmap_repr_0 : bitmap_repr 0 [].
Proof. intros i t _. by rewrite Z.bits_0, bool_decide_eq_false_2 by apply not_elem_of_nil. Qed.

Lemma testandset_spec bits hstype t seen :
  bitmap_repr bits seen ->
  extension_bitmap_testandset bits hstype t =
    (if allowed_in hstype t && negb (bool_decide (recognized t /\ t ∈ seen)) then
       (true, snd (extension_bitmap_testandset bits hstype t))
     else (false, bits)) /\
  (fst (extension_bitmap_testandset bits hstype t) = true ->
   bitmap_repr (snd (extension_bitmap_testandset bits hstype t)) (t :: seen)).
Proof.
  intros Hr. unfold extension_bitmap_testandset, allowed_in.
  pose proof (find_ext_cases t) as Hf. destruct (find_ext ext_table 1 t) as [[al mask]|].
  - destruct Hf as (Hrec & i & Hi & ->). rewrite !land_pow2_zero, (Hr i t Hi) by lia.
    destruct (Z.land al (HSTYPE_TO_BIT hstype) =? 0); [by split|]. simpl.
    destruct (decide (t ∈ seen)) as [Hin|Hout].
    + rewrite !bool_decide_eq_true_2 by done. by split.
    + rewrite !bool_decide_eq_false_2 by naive_solver. simpl. split; [done|]. intros _ j t' Hj.
      rewrite Z.lor_spec, (Hr j t' Hj). destruct (decide (i = j)) as [->|Hne].
      * simplify_eq. rewrite Z.pow2_bits_true, orb_true_r by lia.
        by rewrite bool_decide_eq_true_2 by left.
      * rewrite Z.pow2_bits_false, orb_false_r by lia. apply bool_decide_ext.
        rewrite elem_of_cons. split; [by right|]. intros [->|]; [|done].
        exfalso. apply Hne. by eapply (NoDup_lookup _ _ _ _ ext_table_nodup).
  - simpl. rewrite bool_decide_eq_false_2 by naive_solver. split; [done|]. intros _ j t' Hj.
    rewrite (Hr j t' Hj). apply bool_decide_ext. rewrite elem_of_cons. split; [by right|].
    intros [->|]; [|done]. exfalso. apply Hf. unfold recognized. by eapply list_elem_of_lookup_2.
Qed.

Lemma bitmap_run_spec bits hstype types seen :
  bitmap_repr bits seen ->
  is_Some (bitmap_run bits hstype types) <->
  Forall (λ t, allowed_in hstype t = true) types /\
  NoDup (filter recognized types) /\
  (forall t, t ∈ types -> recognized t -> t ∉ seen).
Proof.
  revert bits seen. induction types as [|t types IH]; intros bits seen Hr; simpl.
  - split; [intros _|by eauto]. split_and!; [done|apply NoDup_nil_2|].
    intros t Ht. by apply not_elem_of_nil in Ht.
  - destruct (testandset_spec bits hstype t seen Hr) as [E Hn]. rewrite E in Hn |- *.
    rewrite Forall_cons, filter_cons.
    destruct (allowed_in hstype t && negb (bool_decide (recognized t /\ t ∈ seen))) eqn:Eb; simpl in *.
    + apply andb_true_iff in Eb as [-> Eb]. apply negb_true_iff, bool_decide_eq_false in Eb.
      rewrite (IH _ (t :: seen) (Hn eq_refl)). split.
      * intros (Hf & Hd & Hs). split_and!; [done|done| |].
        -- case_decide as Hc; [|done]. constructor; [|done].
           rewrite list_elem_of_filter. intros [_ Hin]. apply (Hs t Hin Hc). by left.
        -- intros t' [->|Hin]%elem_of_cons Hrec; [naive_solver|].
           intros Hseen. apply (Hs t' Hin Hrec). by right.
      * intros ((_ & Hf) & Hd & Hs). split_and!; [done|by case_decide; [inv Hd|]|].
        intros t' Hin Hrec [->|Hseen]%elem_of_cons.
        -- case_decide; [|done]. inv Hd. apply H2. by rewrite list_elem_of_filter.
        -- apply (Hs t'); [by right|done|done].
    + split; [by intros []|]. intros ((Ha & _) & _ & Hs). exfalso.
      rewrite Ha in Eb. simpl in Eb. apply negb_false_iff, bool_decide_eq_true in Eb as [Hrec Hin].
      by apply (Hs t); [left| |].
Qed.

(** ** Lemmas: the loop *)

Lemma bitmap_run_acceptable hstype types :
  is_Some (bitmap_run 0 hstype types) <-> acceptable hstype types.
Proof.
  rewrite (bitmap_run_spec 0 hstype types [] bitmap_repr_0). unfold acceptable.
  split; [naive_solver|]. intros [? ?]. split_and!; try done. intros ???. apply not_elem_of_nil.
Qed.

Lemma enc_exts_cons e es : enc_exts (e :: es) = enc_ext e ++ enc_exts es.
Proof. reflexivity. Qed.

Lemma decode16_inv src v rest :
  is_bytes src -> ptls_decode16 src = Ok (v, rest) -> src = bytes16 v ++ rest /\ 0 <= v < 2 ^ 16.
Proof.
  intros Hb. destruct src as [|x [|y r]]; try done. intros H.
  apply Forall_cons_1 in Hb as [Hx Hb]. apply Forall_cons_1 in Hb as [Hy _].
  assert (is_bytes [x; y]) as H2 by auto with zpico.
  change (x :: y :: r) with ([x; y] ++ r) in H. rewrite (decode16_be [x; y] r) in H by done.
  simplify_eq. pose proof (be_decode_bound [x; y] H2) as Hd. change (256 ^ len [x; y]) with (2 ^ 16) in Hd.
  split; [|done]. rewrite bytes16_be. change 2%nat with (length [x; y]).
  by rewrite (be_encode_decode [x; y] H2).
Qed.

Lemma ext_loop_sound {A} fuel bits hstype block (a a' : A) src l :
  is_bytes src -> ext_loop fuel bits hstype block a src = Ok (a', l) ->
  l = [] /\ exists es, src = enc_exts es /\ Forall ext_ok es /\
    is_Some (bitmap_run bits hstype (fst <$> es)) /\ run_exts block a es a'.
Proof.
  revert bits a src. induction fuel as [|fuel IH]; intros bits a src Hb H.
  - destruct src; [|done]. simplify_eq/=. split; [done|]. exists []. repeat split; eauto; constructor.
  - destruct src as [|x src].
    { simplify_eq/=. split; [done|]. exists []. repeat split; eauto; constructor. }
    cbn [ext_loop] in H. apply result_bind_ok in H as ([t src1] & H16 & H).
    apply decode16_inv in H16 as [E Ht]; [|done]. rewrite E in Hb.
    apply Forall_app in Hb as [_ Hb].
    destruct (extension_bitmap_testandset bits hstype t) as [ok bits'] eqn:Et.
    apply result_bind_ok in H as ([] & Hok & H). apply guard_err_ok in Hok as ->.
    apply result_bind_ok in H as ([inner rest] & Hs & H).
    apply (split_block_inv 2) in Hs as [-> Hl]; [|lia|done].
    apply result_bind_ok in H as ([a1 inner'] & Hk & H).
    apply result_bind_ok in H as ([] & Hc & H). destruct inner'; [|done].
    apply Forall_app in Hb as [_ Hb]. apply Forall_app in Hb as [_ Hb].
    destruct (IH bits' a1 rest Hb H) as (-> & es & -> & Hes & Hr & Hrun).
    split; [done|]. exists ((t, inner) :: es). split_and!.
    + rewrite E, enc_exts_cons. unfold enc_ext. cbn [fst snd]. by rewrite <- !app_assoc.
    + constructor; [|done]. by split.
    + simpl. by rewrite Et.
    + by econstructor.
Qed.

Lemma ext_loop_complete {A} fuel bits hstype block (a a' : A) es :
  (length (enc_exts es) <= fuel)%nat -> Forall ext_ok es ->
  is_Some (bitmap_run bits hstype (fst <$> es)) -> run_exts block a es a' ->
  ext_loop fuel bits hstype block a (enc_exts es) = Ok (a', []).
Proof.
  intros Hf Hes Hr Hrun. revert fuel bits Hf Hr. induction Hrun; intros fuel bits Hf Hr.
  { by destruct fuel. }
  inv Hes. destruct H2 as [Ht Hl]. simpl in Ht, Hl. rewrite enc_exts_cons in *.
  unfold enc_ext in *. cbn [fst snd fmap list_fmap bitmap_run] in *. rewrite <- !app_assoc in *.
  rewrite length_app in Hf. change (length (bytes16 t)) with 2%nat in Hf.
  destruct fuel as [|fuel]; [lia|].
  change (bytes16 t ++ be_encode 2 (len body) ++ body ++ enc_exts es)
    with (u8 (Z.shiftr (u16 t) 8) :: ([u8 (u16 t)] ++ be_encode 2 (len body) ++ body ++ enc_exts es)).
  cbn [ext_loop].
  change (u8 (Z.shiftr (u16 t) 8) :: ([u8 (u16 t)] ++ be_encode 2 (len body) ++ body ++ enc_exts es))
    with (bytes16 t ++ be_encode 2 (len body) ++ body ++ enc_exts es).
  rewrite decode16_push16 by done. cbn -[ext_loop].
  destruct (extension_bitmap_testandset bits hstype t) as [[] bits'] eqn:Et; [|by destruct Hr].
  cbn -[ext_loop be_encode split_block]. rewrite split_block2 by done.
  cbn -[ext_loop]. rewrite H. cbn -[ext_loop]. apply IHHrun; try done.
  rewrite !length_app, be_encode_length in Hf. lia.
Qed.

(** The fuel given by the macro's model is always enough. *)
Lemma ext_loop_fuel {A} fuel bits hstype block (a : A) src :
  (forall t n a b, block t n a b <> Err OUT_OF_FUEL) ->
  (length src <= fuel)%nat -> ext_loop fuel bits hstype block a src <> Err OUT_OF_FUEL.
Proof.
  intros Hbl. revert bits a src. induction fuel as [|fuel IH]; intros bits a src Hl.
  { by destruct src; simpl in Hl; [|lia]. }
  destruct src as [|x src]; [done|]. cbn [ext_loop].
  destruct (ptls_decode16 (x :: src)) as [[t src1]|e] eqn:E16; cbn -[ext_loop split_block].
  2: { apply decode16_err in E16 as ->. done. }
  apply decode16_length in E16.
  destruct (extension_bitmap_testandset bits hstype t) as [[] bits']; cbn -[ext_loop split_block];
    [|done].
  destruct (split_block 2 src1) as [[inner rest]|e] eqn:Es; cbn -[ext_loop].
  2: { apply split_block_err in Es as ->. done. }
  apply split_block_length in Es.
  destruct (block t (len rest) a inner) as [[a1 inner']|e] eqn:Ek; cbn -[ext_loop].
  - destruct inner'; cbn -[ext_loop]; [apply IH; simpl in Hl, E16; lia|done].
  - intros [= ->]. by apply Hbl in Ek.
Qed.

Lemma decode_extensions_complete {A} hstype block (a a' : A) es :
  len (enc_exts es) < 2 ^ 16 -> Forall ext_ok es -> acceptable hstype (fst <$> es) -> run_exts block a es a' ->
  decode_extensions hstype block a (be_encode 2 (len (enc_exts es)) ++ enc_exts es) = Ok a'.
Proof.
  intros Hl Hes Hacc Hrun. apply (block_ok 2); [lia|done|]. apply ext_loop_complete; try done. by apply bitmap_run_acceptable.
Qed.

(** the extension block decoder accepts exactly the well-formed, permitted blocks: it succeeds
    on a byte string if and only if the string is a 2-byte length followed by a sequence of
    extensions (type, 2-byte length, body), every recognized extension is one that RFC 8446's table
    permits in this handshake message and occurs at most once, and the per-extension handlers all
    succeed and consume their bodies; the result is that of running the handlers in order. *)
Theorem decode_extensions_spec {A} hstype block (a a' : A) src :
  is_bytes src ->
  decode_extensions hstype block a src = Ok a' <->
  exists es, src = be_encode 2 (len (enc_exts es)) ++ enc_exts es /\
    len (enc_exts es) < 2 ^ 16 /\ Forall ext_ok es /\
    acceptable hstype (fst <$> es) /\ run_exts block a es a'.
Proof.
  intros Hb. split.
  - intros H. unfold decode_extensions, decode_open_extensions in H.
    apply (block_inv 2) in H as (body & -> & Hl & H); [|lia|done].
    apply Forall_app in Hb as [_ Hb].
    apply ext_loop_sound in H as (_ & es & -> & Hes & Hr & Hrun); [|done].
    exists es. rewrite <- bitmap_run_acceptable. done.
  - intros (es & -> & Hl & Hes & Hacc & Hrun). by apply decode_extensions_complete.
Qed.

(** A ClientHello-like block: server_name, then an unrecognized extension twice. *)
Definition example_exts : list (Z * bytes) := [(0, [1; 2]); (0xabcd, []); (0xabcd, [3])].

Lemma decode_extensions_spec_witness :
  decode_extensions PTLS_HANDSHAKE_TYPE_CLIENT_HELLO
    (λ t _ (a : list Z) _, Ok (a ++ [t], [])) []
    [0; 15; 0; 0; 0; 2; 1; 2; 0xab; 0xcd; 0; 0; 0xab; 0xcd; 0; 1; 3] = Ok [0; 0xabcd; 0xabcd].
Proof.
  apply decode_extensions_spec.
  - apply (bool_decide_unpack _). vm_compute. exact I.
  - exists example_exts. split_and!.
    + reflexivity.
    + reflexivity.
    + repeat constructor; simpl; try lia; vm_compute; reflexivity.
    + split; [repeat constructor|]. apply (bool_decide_unpack _). vm_compute. exact I.
    + repeat econstructor.
Defined.
