(* ===== verification/Base64.v ===== *)
(** * Base64: base64 and PEM ([lib/pembase64.c])

    Encoding, the incremental decoder with its state [ptls_base64_decode_state_t], and the reading
    of PEM objects.  A [char *] text is the list of its characters before the NUL, each the value of
    a (signed) [char].  A [FILE *] open for reading is the list of the characters still to be read;
    failures of [ftell] and [fseek] are not modelled. *)

From S2P Require Import Prelude Constants Wire Buffer.

(* src lib/pembase64.c:32-35 ptls_base64_alphabet *)
Definition ptls_base64_alphabet : list Z :=
  str "ABCDEFGHIJKLMNOPQRSTUVWXYZabcdefghijklmnopqrstuvwxyz0123456789+/".

(* src lib/pembase64.c:37-53 ptls_base64_values *)
Definition ptls_base64_values : list Z :=
  [ -1; -1; -1; -1; -1; -1; -1; -1; -1; -1; -1; -1; -1; -1; -1; -1;
    -1; -1; -1; -1; -1; -1; -1; -1; -1; -1; -1; -1; -1; -1; -1; -1;
    -1; -1; -1; -1; -1; -1; -1; -1; -1; -1; -1; 62; -1; -1; -1; 63;
    52; 53; 54; 55; 56; 57; 58; 59; 60; 61; -1; -1; -1; -1; -1; -1;
    -1; 0; 1; 2; 3; 4; 5; 6; 7; 8; 9; 10; 11; 12; 13; 14;
    15; 16; 17; 18; 19; 20; 21; 22; 23; 24; 25; -1; -1; -1; -1; -1;
    -1; 26; 27; 28; 29; 30; 31; 32; 33; 34; 35; 36; 37; 38; 39; 40;
    41; 42; 43; 44; 45; 46; 47; 48; 49; 50; 51; -1; -1; -1; -1; -1 ].

Definition alphabet_at (n : Z) : Z := nth (Z.to_nat n) ptls_base64_alphabet 0.

Definition EQUALS : Z := 0x3d.

(* src lib/pembase64.c:55-67 ptls_base64_cell *)
Definition ptls_base64_cell (d0 d1 d2 : Z) : list Z :=
  alphabet_at <$>
    [ Z.shiftr d0 2;
      Z.lor (Z.shiftl (Z.land d0 3) 4) (Z.shiftr d1 4);
      Z.lor (Z.shiftl (Z.land d1 15) 2) (Z.shiftr d2 6);
      Z.land d2 63 ].

(* src lib/pembase64.c:69-72 ptls_base64_howlong *)
Definition ptls_base64_howlong (data_length : Z) : Z := u64 (u64 (data_length + 2) / 3 * 4).

(** The characters before the terminating NUL. *)
(* src lib/pembase64.c:79-102 data_len *)
Fixpoint base64_text (data : bytes) : list Z :=
  match data with
  | d0 :: d1 :: d2 :: data => ptls_base64_cell d0 d1 d2 ++ base64_text data
  | [d0] =>
      [ alphabet_at (Z.shiftr d0 2); alphabet_at (Z.shiftl (Z.land d0 3) 4); EQUALS; EQUALS ]
  | [d0; d1] =>
      [ alphabet_at (Z.shiftr d0 2);
        alphabet_at (Z.lor (Z.shiftl (Z.land d0 3) 4) (Z.shiftr d1 4));
        alphabet_at (Z.shiftl (Z.land d1 15) 2); EQUALS ]
  | [] => []
  end.

(** What is written to [ptls_base64_text], and the return value (its length with the NUL). *)
(* src lib/pembase64.c:74-106 ptls_base64_encode *)
Definition ptls_base64_encode (data : bytes) : list Z * Z :=
  let text := base64_text data ++ [0] in (text, len text).

(** ** Decoding *)

(* src include/zpicotls/pembase64.h:24 PTLS_BASE64_DECODE_DONE *)
Definition PTLS_BASE64_DECODE_DONE : Z := 0.
(* src include/zpicotls/pembase64.h:25 PTLS_BASE64_DECODE_IN_PROGRESS *)
Definition PTLS_BASE64_DECODE_IN_PROGRESS : Z := 1.
(* src include/zpicotls/pembase64.h:26 PTLS_BASE64_DECODE_FAILED *)
Definition PTLS_BASE64_DECODE_FAILED : Z := -1.

(* src include/zpicotls/pembase64.h:28-33 ptls_base64_decode_state_t *)
Record ptls_base64_decode_state_t := mkB64 { nbc : Z; nbo : Z; status : Z; v : Z }.

(* src lib/pembase64.c:115-121 ptls_base64_decode_init *)
Definition ptls_base64_decode_init : ptls_base64_decode_state_t :=
  mkB64 0 3 PTLS_BASE64_DECODE_IN_PROGRESS 0.

(** The two objects the decoder mutates. *)
Record b64_env := mkEnv { st : ptls_base64_decode_state_t; outb : ptls_buffer_t }.

#[global] Instance b64_has_buffer : HasBuffer b64_env.
Proof. by refine {| get_buf := outb; put_buf := λ b e, mkEnv (st e) b |}; [|intros []|]. Defined.

Definition set_st (s : ptls_base64_decode_state_t) : M b64_env unit :=
  modify (λ e, mkEnv s (outb e)).

Definition is_blank (c : Z) : bool :=
  (c =? 0x20) || (c =? 0x09) || (c =? 0x0d) || (c =? 0x0a).
Definition is_final_blank (c : Z) : bool := is_blank c || (c =? 0x0b) || (c =? 0x0c).

Fixpoint skip_while (p : Z -> bool) (text : list Z) : list Z :=
  match text with
  | c :: text' => if p c then skip_while p text' else text
  | [] => []
  end.

Definition char_value (c : Z) : Z :=
  if (0 <? c) && (c <? 0x7f) then nth (Z.to_nat c) ptls_base64_values (-1) else -1.

Section Decode.
Context `{Allocator}.

(** The end of the loop body: emit a complete cell, then continue, or stop after padding.  The
    loop that looks at the rest of the text after padding consumes all of it, whatever it is. *)
(* src lib/pembase64.c:180-212 nbc *)
Definition finish_cell (continue : M b64_env unit) : M b64_env unit :=
  s ← gets st;
  if nbc s =? 4 then
    let decoded := (λ j, u8 (Z.shiftr (v s) (8 * (2 - Z.of_nat j)))) <$> seq 0 (Z.to_nat (nbo s)) in
    _ ← ptls_buffer_pushv decoded;
    if nbo s <? 3 then set_st (mkB64 (nbc s) (nbo s) PTLS_BASE64_DECODE_DONE (v s))
    else _ ← set_st (mkB64 0 3 (status s) 0); continue
  else continue.

(** The main loop. *)
(* src lib/pembase64.c:142-213 text_index *)
Fixpoint decode_loop (text : list Z) : M b64_env unit :=
  match text with
  | [] => mret ()
  | c :: text =>
      s ← gets st;
      if negb (status s =? PTLS_BASE64_DECODE_IN_PROGRESS) then mret ()
      else
        let vc := char_value c in
        if vc =? -1 then
          match text with
          | c' :: text' =>
              if (nbc s =? 2) && (c =? EQUALS) && (c' =? EQUALS) then
                _ ← set_st (mkB64 4 1 (status s) (u32 (Z.shiftl (v s) 12)));
                finish_cell (decode_loop text')
              else if (nbc s =? 3) && (c =? EQUALS) then
                _ ← set_st (mkB64 4 2 (status s) (u32 (Z.shiftl (v s) 6)));
                finish_cell (decode_loop text)
              else
                match skip_while is_final_blank (c :: text) with
                | [] => mret ()
                | _ =>
                    _ ← set_st (mkB64 (nbc s) 0 PTLS_BASE64_DECODE_FAILED (v s));
                    fail PTLS_ERROR_INCORRECT_BASE64
                end
          | [] =>
              if (nbc s =? 3) && (c =? EQUALS) then
                _ ← set_st (mkB64 4 2 (status s) (u32 (Z.shiftl (v s) 6)));
                finish_cell (decode_loop text)
              else if is_final_blank c then mret ()
              else
                _ ← set_st (mkB64 (nbc s) 0 PTLS_BASE64_DECODE_FAILED (v s));
                fail PTLS_ERROR_INCORRECT_BASE64
          end
        else
          _ ← set_st (mkB64 (nbc s + 1) (nbo s) (status s) (Z.lor (u32 (Z.shiftl (v s) 6)) vc));
          finish_cell (decode_loop text)
  end.

(* src lib/pembase64.c:123-215 ptls_base64_decode *)
Definition ptls_base64_decode (text : list Z) : M b64_env unit :=
  decode_loop (skip_while is_blank text).

(** ** PEM objects *)

(** [strncmp(a, b, n) == 0] on NUL-terminated strings. *)
Definition strncmp_eq (a b : list Z) (n : nat) : bool := bool_decide (take n a = take n b).

(** Whether [ptls_compare_separator_line] returns zero. *)
(* src lib/pembase64.c:239-266 ptls_compare_separator_line *)
Definition ptls_compare_separator_line (line begin_or_end label : list Z) : bool :=
  strncmp_eq line (str "-----") 5 &&
  (let line := drop 5 line in
   strncmp_eq line begin_or_end (length begin_or_end) &&
   (let line := drop (length begin_or_end) line in
    (match line with c :: _ => c =? 0x20 | [] => false end) &&
    (let line := drop 1 line in
     strncmp_eq line label (length label) &&
     (let line := drop (length label) line in strncmp_eq line (str "-----") 5)))).

(** [fgets(line, n + 1, F)]: at most [n] characters, up to and including a newline. *)
Fixpoint fgets (n : nat) (F : list Z) : list Z * list Z :=
  match n, F with
  | S n, c :: F =>
      if c =? 0x0a then ([c], F) else let '(l, F) := fgets n F in (c :: l, F)
  | _, _ => ([], F)
  end.

(* src lib/pembase64.c:268-279 ptls_pem_buffer_init_capacity *)
Definition ptls_pem_buffer_init_capacity (capacity : Z) : result ptls_buffer_t :=
  let capacity := if capacity =? 0 then 1 else capacity in
  match malloc capacity with
  | None => Err PTLS_ERROR_NO_MEMORY
  | Some (p, m) => Ok (ptls_buffer_init_tx p m)
  end.

(* src lib/pembase64.c:281-299 ptls_get_pem_object_capacity *)
Fixpoint ptls_get_pem_object_capacity (fuel : nat) (F label : list Z) (capacity : Z) : result Z :=
  match F, fuel with
  | [], _ => Err PTLS_ERROR_PEM_LABEL_NOT_FOUND
  | _, O => Err OUT_OF_FUEL
  | _, S fuel =>
      let '(line, F) := fgets 255 F in
      if ptls_compare_separator_line line (str "END") label then Ok capacity
      else if SIZE_MAX - capacity <? len line then Err PTLS_ERROR_NO_MEMORY
      else ptls_get_pem_object_capacity fuel F label (capacity + len line)
  end.

(** The lines up to the matching [BEGIN] line; what follows it. *)
Fixpoint find_begin (fuel : nat) (F label : list Z) : result (list Z) :=
  match F, fuel with
  | [], _ => Err PTLS_ERROR_PEM_LABEL_NOT_FOUND
  | _, O => Err OUT_OF_FUEL
  | _, S fuel =>
      let '(line, F) := fgets 255 F in
      if ptls_compare_separator_line line (str "BEGIN") label then Ok F
      else find_begin fuel F label
  end.

(** The second loop, up to the [END] line; returns what is left of the file. *)
Fixpoint decode_body (fuel : nat) (F label : list Z) : M b64_env (list Z) :=
  match F, fuel with
  | [], _ => mret []
  | _, O => fail OUT_OF_FUEL
  | _, S fuel =>
      let '(line, F) := fgets 255 F in
      if ptls_compare_separator_line line (str "END") label then
        s ← gets st;
        if (status s =? PTLS_BASE64_DECODE_DONE) ||
           ((status s =? PTLS_BASE64_DECODE_IN_PROGRESS) && (nbc s =? 0)) then mret F
        else fail PTLS_ERROR_INCORRECT_BASE64
      else
        _ ← ptls_base64_decode line;
        decode_body fuel F label
  end.

(** The object, [None] for a NULL base (an empty object), and the rest of the file. *)
(* src lib/pembase64.c:301-350 ptls_get_pem_object_malloc *)
Definition ptls_get_pem_object_malloc (F label : list Z) : result (option bytes * list Z) :=
  F ← find_begin (length F) F label;
  capacity ← ptls_get_pem_object_capacity (length F) F label 0;
  buf ← ptls_pem_buffer_init_capacity capacity;
  let '(r, e) := decode_body (length F) F label (mkEnv ptls_base64_decode_init buf) in
  rest ← r;
  Ok (if 0 <? off (outb e) then Some (contents (outb e)) else None, rest).

(** The loop of [ptls_load_pem_objects] over the contents of the file: the objects stored in [list]
    and the return value. *)
(* src lib/pembase64.c:371-389 list_max *)
Fixpoint load_loop (fuel : nat) (F label : list Z) (list_max : Z) (acc : list bytes)
    : list bytes * Z :=
  match fuel with
  | O => (acc, OUT_OF_FUEL)
  | S fuel =>
      if len acc <? list_max then
        match ptls_get_pem_object_malloc F label with
        | Ok (Some object, F) => load_loop fuel F label list_max (acc ++ [object])
        | Ok (None, F) => load_loop fuel F label list_max acc
        | Err e => (acc, e)
        end
      else (acc, 0)
  end.

(** [file] is [None] when [fopen] fails. *)
(* src lib/pembase64.c:352-398 ptls_load_pem_objects *)
Definition ptls_load_pem_objects (file : option (list Z)) (label : list Z) (list_max : Z)
    : result (list bytes) :=
  match file with
  | None => Err (-1)
  | Some F =>
      let '(objects, ret) := load_loop (S (length F)) F label list_max [] in
      if (ret =? 0) || ((ret =? PTLS_ERROR_PEM_LABEL_NOT_FOUND) && (0 <? len objects))
      then Ok objects else Err ret
  end.

End Decode.

(** ** Encoding *)

Lemma alphabet_value n : 0 <= n < 64 -> char_value (alphabet_at n) = n.
Proof.
  intros Hn. assert (forallb (λ i, char_value (alphabet_at (Z.of_nat i)) =? Z.of_nat i) (seq 0 64) = true)
    as Ha by (vm_compute; reflexivity).
  rewrite forallb_forall in Ha. specialize (Ha (Z.to_nat n)).
  rewrite Z2Nat.id in Ha by lia. apply Z.eqb_eq, Ha, in_seq. lia.
Qed.

Lemma alphabet_positive n : 0 <= n < 64 -> 43 <= alphabet_at n < 123.
Proof.
  intros Hn.
  assert (forallb (λ i, (43 <=? alphabet_at (Z.of_nat i)) && (alphabet_at (Z.of_nat i) <? 123)) (seq 0 64) = true)
    as Ha by (vm_compute; reflexivity).
  rewrite forallb_forall in Ha. specialize (Ha (Z.to_nat n)).
  rewrite Z2Nat.id in Ha by lia. specialize (Ha ltac:(apply in_seq; lia)). lia.
Qed.

(** Induction on data three bytes at a time. *)
Lemma triple_ind {A} (P : list A -> Prop) :
  P [] -> (forall a, P [a]) -> (forall a b, P [a; b]) ->
  (forall a b c l, P l -> P (a :: b :: c :: l)) -> forall l, P l.
Proof.
  intros H0 H1 H2 H3. fix IH 1. intros [|a [|b [|c l]]]; [done|apply H1|apply H2|].
  apply H3, IH.
Qed.

Lemma base64_text_length data : len (base64_text data) = (len data + 2) / 3 * 4.
Proof.
  induction data as [|a|a b|a b c l IH] using triple_ind; try done.
  cbn [base64_text]. rewrite len_app, IH, !len_cons. change (len (ptls_base64_cell a b c)) with 4.
  replace (1 + (1 + (1 + len l)) + 2) with (len l + 2 + 1 * 3) by lia. rewrite Z.div_add by lia. lia.
Qed.

(** The four six-bit numbers of three bytes, arithmetically. *)
Lemma cell_numbers a b c :
  is_byte a -> is_byte b -> is_byte c ->
  [ Z.shiftr a 2; Z.lor (Z.shiftl (Z.land a 3) 4) (Z.shiftr b 4);
    Z.lor (Z.shiftl (Z.land b 15) 2) (Z.shiftr c 6); Z.land c 63 ]
  = [ a / 4; a mod 4 * 16 + b / 16; b mod 16 * 4 + c / 64; c mod 64 ].
Proof.
  unfold is_byte. intros Ha Hb Hc.
  change 3 with (Z.ones 2). change 15 with (Z.ones 4). change 63 with (Z.ones 6).
  rewrite !Z.land_ones by lia. rewrite !Z.shiftr_div_pow2 by lia.
  change (2 ^ 2) with 4. change (2 ^ 4) with 16. change (2 ^ 6) with 64.
  rewrite !lor_shiftl_add; [done|lia| |lia|].
  all: change (2 ^ 2) with 4; change (2 ^ 4) with 16; split; [apply Z.div_pos; lia|];
    apply Z.div_lt_upper_bound; lia.
Qed.

(** ** Decoding *)

Section DecodeProofs.
Context `{Allocator}.

Definition six (c n : Z) : Prop := 0 <= n < 64 /\ char_value c = n.

Lemma six_alphabet n : 0 <= n < 64 -> six (alphabet_at n) n.
Proof. intros. split; [done|by apply alphabet_value]. Qed.

(** One alphabet character, before the cell's bytes are emitted. *)
Lemma decode_char c n k o w text b :
  six c n -> 0 <= w < 2 ^ 26 ->
  decode_loop (c :: text) (mkEnv (mkB64 k o PTLS_BASE64_DECODE_IN_PROGRESS w) b)
  = finish_cell (decode_loop text)
      (mkEnv (mkB64 (k + 1) o PTLS_BASE64_DECODE_IN_PROGRESS (w * 64 + n)) b).
Proof.
  intros [Hn E] Hw. cbn [decode_loop]. rewrite E, (proj2 (Z.eqb_neq n (-1))) by lia.
  rewrite M_bind_run. cbn -[decode_loop finish_cell Z.shiftl u32 Z.mul].
  rewrite u32_small by (rewrite Z.shiftl_mul_pow2 by lia; lia).
  rewrite (lor_shiftl_add w n 6) by lia. done.
Qed.

Lemma finish_cell_skip cont k o s w b :
  k <> 4 -> finish_cell cont (mkEnv (mkB64 k o s w) b) = cont (mkEnv (mkB64 k o s w) b).
Proof.
  intros Hk. unfold finish_cell. rewrite M_bind_run. cbn.
  by rewrite (proj2 (Z.eqb_neq k 4)).
Qed.

(** The [o] leading octets of a 24-bit value, as the loop over [decoded] computes them. *)
Definition cell_octets (w o : Z) : bytes :=
  (λ j, u8 (Z.shiftr w (8 * (2 - Z.of_nat j)))) <$> seq 0 (Z.to_nat o).

Lemma octets a b c :
  is_byte a -> is_byte b -> is_byte c ->
  cell_octets ((a * 256 + b) * 256 + c) 3 = [a; b; c].
Proof.
  unfold is_byte. intros Ha Hb Hc. unfold cell_octets, u8.
  change (seq 0 (Z.to_nat 3)) with [0; 1; 2]%nat. cbn [fmap list_fmap].
  change (8 * (2 - Z.of_nat 0)) with 16. change (8 * (2 - Z.of_nat 1)) with 8.
  change (8 * (2 - Z.of_nat 2)) with 0. rewrite !Z.shiftr_div_pow2 by lia.
  change (2 ^ 16) with 65536. change (2 ^ 8) with 256. change (2 ^ 0) with 1.
  repeat f_equal; Z.div_mod_to_equations; lia.
Qed.

Lemma cell_octets_take w o : 0 <= o <= 3 -> cell_octets w o = take (Z.to_nat o) (cell_octets w 3).
Proof. intros Ho. assert (o = 0 \/ o = 1 \/ o = 2 \/ o = 3) as [->|[->|[->| ->]]] by lia; done. Qed.

Lemma finish_cell_emit cont o s w b :
  finish_cell cont (mkEnv (mkB64 4 o s w) b)
  = (_ ← ptls_buffer_pushv (cell_octets w o);
     if o <? 3 then set_st (mkB64 4 o PTLS_BASE64_DECODE_DONE w)
     else _ ← set_st (mkB64 0 3 s 0); cont) (mkEnv (mkB64 4 o s w) b).
Proof. reflexivity. Qed.

Lemma cell_value a b c :
  is_byte a -> is_byte b -> is_byte c ->
  (((0 * 64 + a / 4) * 64 + (a mod 4 * 16 + b / 16)) * 64 + (b mod 16 * 4 + c / 64)) * 64 + c mod 64
  = (a * 256 + b) * 256 + c.
Proof. unfold is_byte. intros Ha Hb Hc. Z.div_mod_to_equations. lia. Qed.

Lemma six_ranges a b c :
  is_byte a -> is_byte b -> is_byte c ->
  0 <= a / 4 < 64 /\ 0 <= a mod 4 * 16 + b / 16 < 64 /\
  0 <= b mod 16 * 4 + c / 64 < 64 /\ 0 <= c mod 64 < 64.
Proof. unfold is_byte. intros Ha Hb Hc. Z.div_mod_to_equations. lia. Qed.

(** A complete cell emits its three bytes and the state starts over. *)
Lemma decode_cell a b c text buf :
  is_byte a -> is_byte b -> is_byte c ->
  decode_loop (ptls_base64_cell a b c ++ text) (mkEnv ptls_base64_decode_init buf)
  = match do_pushv [a; b; c] buf with
    | (Ok _, buf') => decode_loop text (mkEnv ptls_base64_decode_init buf')
    | (Err e, buf') =>
        (Err e, mkEnv (mkB64 4 3 PTLS_BASE64_DECODE_IN_PROGRESS ((a * 256 + b) * 256 + c)) buf')
    end.
Proof.
  intros Ha Hb Hc. unfold ptls_base64_cell. rewrite cell_numbers by done.
  destruct (six_ranges a b c Ha Hb Hc) as (R0 & R1 & R2 & R3).
  cbn [fmap list_fmap app]. unfold ptls_base64_decode_init at 1.
  rewrite (decode_char _ _ _ _ _ _ _ (six_alphabet _ R0)), finish_cell_skip by lia.
  rewrite (decode_char _ _ _ _ _ _ _ (six_alphabet _ R1)), finish_cell_skip by lia.
  rewrite (decode_char _ _ _ _ _ _ _ (six_alphabet _ R2)), finish_cell_skip by lia.
  rewrite (decode_char _ _ _ _ _ _ _ (six_alphabet _ R3)) by lia.
  rewrite cell_value by done. rewrite finish_cell_emit, octets by done.
  rewrite !M_bind_run. unfold ptls_buffer_pushv, on_buf. cbn -[decode_loop do_pushv].
  by destruct (do_pushv [a; b; c] buf) as [[[]|e] b'].
Qed.

(** Padding. *)
Lemma decode_pad2 text o w b :
  decode_loop (EQUALS :: EQUALS :: text) (mkEnv (mkB64 2 o PTLS_BASE64_DECODE_IN_PROGRESS w) b)
  = finish_cell (decode_loop text)
      (mkEnv (mkB64 4 1 PTLS_BASE64_DECODE_IN_PROGRESS (u32 (Z.shiftl w 12))) b).
Proof. reflexivity. Qed.

Lemma decode_pad1 text o w b :
  decode_loop (EQUALS :: text) (mkEnv (mkB64 3 o PTLS_BASE64_DECODE_IN_PROGRESS w) b)
  = finish_cell (decode_loop text)
      (mkEnv (mkB64 4 2 PTLS_BASE64_DECODE_IN_PROGRESS (u32 (Z.shiftl w 6))) b).
Proof. destruct text; reflexivity. Qed.

(** A padded cell: emit [bs] and stop. *)
Lemma finish_cell_done cont o w b bs :
  0 <= o < 3 -> cell_octets w o = bs ->
  finish_cell cont (mkEnv (mkB64 4 o PTLS_BASE64_DECODE_IN_PROGRESS w) b)
  = match do_pushv bs b with
    | (Ok _, b') => (Ok (), mkEnv (mkB64 4 o PTLS_BASE64_DECODE_DONE w) b')
    | (Err e, b') => (Err e, mkEnv (mkB64 4 o PTLS_BASE64_DECODE_IN_PROGRESS w) b')
    end.
Proof.
  intros Ho <-. rewrite finish_cell_emit, (proj2 (Z.ltb_lt o 3)) by lia.
  rewrite M_bind_run. unfold ptls_buffer_pushv, on_buf. cbn -[do_pushv cell_octets].
  by destruct (do_pushv (cell_octets w o) b) as [[[]|e] b'].
Qed.

(** The two padded endings; [text], what follows the padding, is ignored. *)
Lemma decode_tail1 a buf :
  is_byte a -> exists w, forall text,
  decode_loop (base64_text [a] ++ text) (mkEnv ptls_base64_decode_init buf)
  = match do_pushv [a] buf with
    | (Ok _, buf') => (Ok (), mkEnv (mkB64 4 1 PTLS_BASE64_DECODE_DONE w) buf')
    | (Err e, buf') => (Err e, mkEnv (mkB64 4 1 PTLS_BASE64_DECODE_IN_PROGRESS w) buf')
    end.
Proof.
  intros Ha. assert (is_byte 0) as Hz by (unfold is_byte; lia).
  destruct (six_ranges a 0 0 Ha Hz Hz) as (R0 & R1 & _ & _).
  pose proof (cell_numbers a 0 0 Ha Hz Hz) as E. injection E as E0 E1.
  eexists. intros text. cbn [base64_text app]. rewrite Z.lor_0_r in E1. rewrite E0, E1.
  unfold ptls_base64_decode_init.
  rewrite (decode_char _ _ _ _ _ _ _ (six_alphabet _ R0)), finish_cell_skip by lia.
  rewrite (decode_char _ _ _ _ _ _ _ (six_alphabet _ R1)), finish_cell_skip by lia.
  change (0 + 1 + 1) with 2. rewrite decode_pad2.
  apply finish_cell_done; [lia|]. rewrite cell_octets_take by lia.
  match goal with |- context [u32 ?x] => replace (u32 x) with ((a * 256 + 0) * 256 + 0) end.
  - by rewrite octets.
  - rewrite Z.shiftl_mul_pow2 by lia. rewrite u32_small; unfold is_byte in Ha;
      change (2 ^ 12) with 4096; Z.div_mod_to_equations; lia.
Qed.

Lemma decode_tail2 a b buf :
  is_byte a -> is_byte b -> exists w, forall text,
  decode_loop (base64_text [a; b] ++ text) (mkEnv ptls_base64_decode_init buf)
  = match do_pushv [a; b] buf with
    | (Ok _, buf') => (Ok (), mkEnv (mkB64 4 2 PTLS_BASE64_DECODE_DONE w) buf')
    | (Err e, buf') => (Err e, mkEnv (mkB64 4 2 PTLS_BASE64_DECODE_IN_PROGRESS w) buf')
    end.
Proof.
  intros Ha Hb. assert (is_byte 0) as Hz by (unfold is_byte; lia).
  destruct (six_ranges a b 0 Ha Hb Hz) as (R0 & R1 & R2 & _).
  pose proof (cell_numbers a b 0 Ha Hb Hz) as E. injection E as E0 E1 E2.
  eexists. intros text. cbn [base64_text app]. rewrite Z.lor_0_r in E2. rewrite E0, E1, E2.
  unfold ptls_base64_decode_init.
  rewrite (decode_char _ _ _ _ _ _ _ (six_alphabet _ R0)), finish_cell_skip by lia.
  rewrite (decode_char _ _ _ _ _ _ _ (six_alphabet _ R1)), finish_cell_skip by lia.
  rewrite (decode_char _ _ _ _ _ _ _ (six_alphabet _ R2)), finish_cell_skip by lia.
  change (0 + 1 + 1 + 1) with 3. rewrite decode_pad1.
  apply finish_cell_done; [lia|]. rewrite cell_octets_take by lia.
  match goal with |- context [u32 ?x] => replace (u32 x) with ((a * 256 + b) * 256 + 0) end.
  - by rewrite octets.
  - rewrite Z.shiftl_mul_pow2 by lia. rewrite u32_small; unfold is_byte in Ha, Hb;
      change (2 ^ 6) with 64; Z.div_mod_to_equations; lia.
Qed.

(** The state the decoder is left in after the text of [data]. *)
Definition decoded_state (data : bytes) (s : ptls_base64_decode_state_t) : Prop :=
  if len data mod 3 =? 0 then s = ptls_base64_decode_init else status s = PTLS_BASE64_DECODE_DONE.

(** A line ending: nothing, or a newline. *)
Definition line_end (tl : list Z) : Prop := tl = [] \/ tl = [0x0a].

Lemma decode_line_end tl b :
  line_end tl ->
  decode_loop tl (mkEnv ptls_base64_decode_init b) = (Ok (), mkEnv ptls_base64_decode_init b).
Proof. intros [-> | ->]; reflexivity. Qed.

Lemma decode_loop_text data tl buf :
  is_bytes data -> buf_wf buf -> line_end tl ->
  let o := decode_loop (base64_text data ++ tl) (mkEnv ptls_base64_decode_init buf) in
  outcome (Ok ((), data)) (contents buf) (tx buf) o /\
  (fst o = Ok () -> decoded_state data (st (snd o))).
Proof.
  intros Hd Hw Hl. revert buf Hw.
  induction data as [|a|a b|a b c l IH] using triple_ind; intros buf Hw o; unfold o.
  - cbn [base64_text app]. rewrite decode_line_end by done. split; [|done].
    split; [done|]. split; [done|]. split; [done|]. by rewrite app_nil_r.
  - destruct (decode_tail1 a buf) as [w E]; [by inv Hd|]. rewrite E.
    pose proof (emits_do_pushv [a] buf Hw) as Ho. by destruct (do_pushv [a] buf) as [[[]|e] b'].
  - destruct (decode_tail2 a b buf) as [w E]; [by decompose_Forall_hyps..|]. rewrite E.
    pose proof (emits_do_pushv [a; b] buf Hw) as Ho. by destruct (do_pushv [a; b] buf) as [[[]|e] b'].
  - cbn [base64_text]. rewrite <- app_assoc. apply Forall_cons_1 in Hd as [Ha Hd].
    apply Forall_cons_1 in Hd as [Hb Hd]. apply Forall_cons_1 in Hd as [Hc Hd].
    rewrite decode_cell by done.
    pose proof (emits_do_pushv [a; b; c] buf Hw) as Ho.
    destruct (do_pushv [a; b; c] buf) as [[[]|e] b'].
    + destruct Ho as (Hw' & Ht' & _ & Hc'). simpl in *. specialize (IH ltac:(done) b' Hw').
      destruct IH as [(Hw2 & Ht2 & Ho2) Hs]. split.
      * split; [done|]. split; [congruence|]. cbn in Ho2 |- *.
        destruct (decode_loop (base64_text l ++ tl) (mkEnv ptls_base64_decode_init b')) as [[[]|e] e2];
          simpl in *.
        -- destruct Ho2 as [_ ->]. by rewrite Hc', <- app_assoc.
        -- destruct Ho2 as ([->|(?&?&?)] & ds & ->); [|done]. split; [by left|]. exists ([a; b; c] ++ ds).
           by rewrite Hc', <- app_assoc.
      * intros Hok. specialize (Hs Hok). unfold decoded_state in *. rewrite !len_cons.
        replace (1 + (1 + (1 + len l))) with (len l + 1 * 3) by lia. by rewrite Z_mod_plus_full.
    + destruct Ho as (Hw' & Ht' & [->|(?&?&?)] & Ho); [|done].
      split; [|done]. split; [done|]. split; [done|]. split; [by left|done].
Qed.

Lemma base64_text_head data c text :
  is_bytes data -> base64_text data = c :: text -> 43 <= c < 123.
Proof.
  destruct data as [|a [|b [|d l]]]; intros Hd; [done| | |];
    intros E; cbn in E; injection E as <- _; decompose_Forall_hyps; apply alphabet_positive;
    rewrite Z.shiftr_div_pow2 by lia; unfold is_byte in *; change (2 ^ 2) with 4;
    (split; [apply Z.div_pos|apply Z.div_lt_upper_bound]; lia).
Qed.

Lemma skip_blank_text data tl :
  is_bytes data -> line_end tl ->
  decode_loop (skip_while is_blank (base64_text data ++ tl)) = decode_loop (base64_text data ++ tl) \/
  base64_text data = [].
Proof.
  intros Hd Hl. destruct (base64_text data) as [|c text] eqn:E; [by right|left].
  pose proof (base64_text_head data c text Hd E). cbn [app skip_while].
  replace (is_blank c) with false by (unfold is_blank; lia). done.
Qed.

Lemma base64_text_nil data : base64_text data = [] -> data = [].
Proof. by destruct data as [|a [|b [|c l]]]. Qed.

Lemma base64_decode_text data tl buf :
  is_bytes data -> buf_wf buf -> line_end tl ->
  let o := ptls_base64_decode (base64_text data ++ tl) (mkEnv ptls_base64_decode_init buf) in
  outcome (Ok ((), data)) (contents buf) (tx buf) o /\
  (fst o = Ok () -> decoded_state data (st (snd o))).
Proof.
  intros Hd Hw Hl. unfold ptls_base64_decode.
  destruct (skip_blank_text data tl Hd Hl) as [-> | E]; [by apply decode_loop_text|].
  apply base64_text_nil in E as ->. cbn [base64_text app].
  destruct Hl as [-> | ->]; apply (decode_loop_text [] []); (done || by left).
Qed.

End DecodeProofs.

(** ** PEM files *)

(** The lines of a PEM file holding one object, given as the chunks encoded on each line. *)
Definition NL : Z := 0x0a.
Definition sep_line (kind label : list Z) : list Z :=
  str "-----" ++ kind ++ [0x20] ++ label ++ str "-----" ++ [NL].
Definition b64_line (chunk : bytes) : list Z := base64_text chunk ++ [NL].
Definition pem_body (chunks : list bytes) : list Z := concat (b64_line <$> chunks).
Definition pem_file (label : list Z) (chunks : list bytes) : list Z :=
  sep_line (str "BEGIN") label ++ pem_body chunks ++ sep_line (str "END") label.

(** Chunks as an encoder produces them: every line but the last holds whole cells, and no line is
    longer than the line buffer. *)
Fixpoint pem_chunks (chunks : list bytes) : Prop :=
  match chunks with
  | [] => True
  | [c] => is_bytes c /\ len c <= 189
  | c :: cs => is_bytes c /\ len c <= 189 /\ len c mod 3 = 0 /\ pem_chunks cs
  end.

Definition label_ok (label : list Z) : Prop := NL ∉ label /\ len label <= 200.

Lemma fgets_line n body F :
  NL ∉ body -> (length body < n)%nat -> fgets n (body ++ NL :: F) = (body ++ [NL], F).
Proof.
  revert n. induction body as [|c body IH]; intros [|n] Hn Hl; simpl in Hl; try lia; [done|].
  apply not_elem_of_cons in Hn as [Hc Hn]. cbn [fgets app].
  rewrite (proj2 (Z.eqb_neq c 0x0a)) by (intros ->; by apply Hc).
  by rewrite IH by (done || lia).
Qed.

Lemma strncmp_prefix a b : strncmp_eq (a ++ b) a (length a) = true.
Proof. unfold strncmp_eq. by rewrite take_app_length, bool_decide_eq_true_2 by (by rewrite firstn_all). Qed.

Lemma compare_sep_line kind label :
  ptls_compare_separator_line (sep_line kind label) kind label = true.
Proof.
  unfold ptls_compare_separator_line, sep_line.
  change 5%nat with (length (str "-----")). rewrite strncmp_prefix, drop_app_length. simpl.
  rewrite strncmp_prefix, drop_app_length. simpl. rewrite drop_0, strncmp_prefix. simpl.
  by rewrite drop_app_length.
Qed.

Lemma sep_line_fgets kind label F :
  label_ok label -> kind = str "BEGIN" \/ kind = str "END" ->
  fgets 255 (sep_line kind label ++ F) = (sep_line kind label, F).
Proof.
  intros [Hn Hl] Hk. unfold sep_line.
  replace ((str "-----" ++ kind ++ [0x20] ++ label ++ str "-----" ++ [NL]) ++ F)
    with ((str "-----" ++ kind ++ [0x20] ++ label ++ str "-----") ++ NL :: F)
    by (by rewrite <- !app_assoc).
  rewrite fgets_line; [by rewrite <- !app_assoc| |].
  - destruct Hk as [-> | ->]; rewrite !not_elem_of_app; repeat split; try done;
      apply (bool_decide_unpack _); vm_compute; exact I.
  - unfold len in Hl. rewrite !length_app. destruct Hk as [-> | ->]; simpl; lia.
Qed.

Lemma alphabet_not_special n : 0 <= n < 64 -> alphabet_at n <> NL /\ alphabet_at n <> 0x2d.
Proof.
  intros Hn.
  assert (forallb (λ i, negb (alphabet_at (Z.of_nat i) =? NL) && negb (alphabet_at (Z.of_nat i) =? 0x2d))
    (seq 0 64) = true) as Ha by (vm_compute; reflexivity).
  rewrite forallb_forall in Ha. specialize (Ha (Z.to_nat n)).
  rewrite Z2Nat.id in Ha by lia. specialize (Ha ltac:(apply in_seq; lia)). lia.
Qed.

(** Every character of an encoded chunk is neither a newline nor a dash. *)
Lemma base64_text_chars data :
  is_bytes data -> Forall (λ c, c <> NL /\ c <> 0x2d) (base64_text data).
Proof.
  assert (is_byte 0) as Hz by (unfold is_byte; lia).
  induction data as [|a|a b|a b c l IH] using triple_ind; intros Hd.
  - constructor.
  - apply Forall_cons_1 in Hd as [Ha _]. cbn [base64_text].
    pose proof (cell_numbers a 0 0 Ha Hz Hz) as E. injection E as E0 E1. rewrite Z.lor_0_r in E1.
    destruct (six_ranges a 0 0 Ha Hz Hz) as (R0 & R1 & _ & _). rewrite E0, E1.
    apply alphabet_not_special in R0, R1. repeat (apply Forall_cons_2); try done.
  - apply Forall_cons_1 in Hd as [Ha Hd]. apply Forall_cons_1 in Hd as [Hb _]. cbn [base64_text].
    pose proof (cell_numbers a b 0 Ha Hb Hz) as E. injection E as E0 E1 E2. rewrite Z.lor_0_r in E2.
    destruct (six_ranges a b 0 Ha Hb Hz) as (R0 & R1 & R2 & _). rewrite E0, E1, E2.
    apply alphabet_not_special in R0, R1, R2. repeat (apply Forall_cons_2); try done.
  - apply Forall_cons_1 in Hd as [Ha Hd]. apply Forall_cons_1 in Hd as [Hb Hd].
    apply Forall_cons_1 in Hd as [Hc Hd]. cbn [base64_text]. apply Forall_app. split; [|by apply IH].
    unfold ptls_base64_cell. rewrite cell_numbers by done.
    destruct (six_ranges a b c Ha Hb Hc) as (R0 & R1 & R2 & R3). cbn [fmap list_fmap].
    apply alphabet_not_special in R0, R1, R2, R3. repeat (apply Forall_cons_2); done.
Qed.

Lemma b64_line_fgets chunk F :
  is_bytes chunk -> len chunk <= 189 -> fgets 255 (b64_line chunk ++ F) = (b64_line chunk, F).
Proof.
  intros Hb Hl. unfold b64_line. rewrite <- app_assoc. apply fgets_line.
  - intros Hin. pose proof (base64_text_chars chunk Hb) as Hc. rewrite Forall_forall in Hc.
    by destruct (Hc NL Hin).
  - assert (len (base64_text chunk) < 255); [|unfold len in *; lia].
    rewrite base64_text_length. pose proof (len_nonneg chunk).
    assert ((len chunk + 2) / 3 < 64) by (apply Z.div_lt_upper_bound; lia). lia.
Qed.

Lemma b64_line_not_sep chunk kind label :
  is_bytes chunk -> ptls_compare_separator_line (b64_line chunk) kind label = false.
Proof.
  intros Hb. unfold ptls_compare_separator_line, b64_line, strncmp_eq.
  rewrite bool_decide_eq_false_2; [done|]. pose proof (base64_text_chars chunk Hb) as Hc.
  destruct (base64_text chunk) as [|c text]; [done|]. apply Forall_cons_1 in Hc as [[_ Hc] _].
  intros E. by injection E.
Qed.

Lemma pem_chunks_cons c cs :
  pem_chunks (c :: cs) ->
  is_bytes c /\ len c <= 189 /\ (cs = [] \/ len c mod 3 = 0) /\ pem_chunks cs.
Proof. destruct cs; simpl; naive_solver. Qed.

(** The capacity pass finds the END line. *)
Lemma pem_capacity fuel chunks label acc F :
  label_ok label -> pem_chunks chunks -> 0 <= acc ->
  (length chunks < fuel)%nat -> acc + len (pem_body chunks) <= SIZE_MAX ->
  ptls_get_pem_object_capacity fuel (pem_body chunks ++ sep_line (str "END") label ++ F) label acc
  = Ok (acc + len (pem_body chunks)).
Proof.
  intros Hlab. revert fuel acc. induction chunks as [|c cs IH]; intros [|fuel] acc Hc Ha Hf Hs;
    simpl in Hf; try lia.
  - change (pem_body []) with (@nil Z) in *. cbn [app ptls_get_pem_object_capacity].
    destruct (sep_line (str "END") label ++ F) as [|x l] eqn:E; [done|]. rewrite <- E.
    rewrite sep_line_fgets by auto. rewrite compare_sep_line. rewrite len_nil. f_equal. lia.
  - apply pem_chunks_cons in Hc as (Hb & Hl & _ & Hcs).
    change (pem_body (c :: cs)) with (b64_line c ++ pem_body cs) in *. rewrite <- app_assoc.
    destruct (b64_line c ++ pem_body cs ++ sep_line (str "END") label ++ F) as [|x l] eqn:E.
    { exfalso. unfold b64_line in E. by destruct (base64_text c). }
    cbn [ptls_get_pem_object_capacity]. rewrite <- E, b64_line_fgets by done.
    rewrite b64_line_not_sep by done. rewrite len_app in Hs |- *.
    pose proof (len_nonneg (pem_body cs)). pose proof (len_nonneg (b64_line c)).
    rewrite (proj2 (Z.ltb_ge _ _)) by lia. rewrite IH by (done || lia). f_equal. lia.
Qed.

Lemma length_le_body chunks : (length chunks <= length (pem_body chunks))%nat.
Proof.
  induction chunks as [|c cs IH]; [done|].
  change (pem_body (c :: cs)) with (b64_line c ++ pem_body cs).
  rewrite length_app. unfold b64_line. rewrite length_app. simpl. lia.
Qed.

Section PemProofs.
Context `{Allocator}.

(** Emitting [bs] and then [bs']. *)
Lemma outcome_trans {S A B} `{HasBuffer S} (a : A) (b : B) bs bs' c t s1 o :
  outcome (Ok (a, bs)) c t (Ok a, s1) ->
  outcome (Ok (b, bs')) (contents (get_buf s1)) (tx (get_buf s1)) o ->
  outcome (Ok (b, bs ++ bs')) c t o.
Proof.
  intros (_ & Ht & _ & Hc) (Hw & Ht' & Ho). simpl in *. split; [done|]. split; [congruence|].
  destruct (fst o) as [b'|e].
  - destruct Ho as [-> ->]. by rewrite Hc, app_assoc.
  - destruct Ho as ([->|(?&?&?)] & ds & ->); [|done]. split; [by left|]. exists (bs ++ ds).
    by rewrite Hc, app_assoc.
Qed.

Lemma decode_body_end fuel label F e :
  label_ok label -> buf_wf (outb e) ->
  st e = ptls_base64_decode_init \/ status (st e) = PTLS_BASE64_DECODE_DONE ->
  outcome (Ok (F, [])) (contents (outb e)) (tx (outb e))
    (decode_body (S fuel) (sep_line (str "END") label ++ F) label e).
Proof.
  intros Hl Hw Hs. cbn [decode_body].
  destruct (sep_line (str "END") label ++ F) as [|x l] eqn:E; [done|]. rewrite <- E.
  rewrite sep_line_fgets, compare_sep_line by auto. rewrite M_bind_run. cbn [gets].
  assert ((status (st e) =? PTLS_BASE64_DECODE_DONE) ||
    ((status (st e) =? PTLS_BASE64_DECODE_IN_PROGRESS) && (nbc (st e) =? 0)) = true) as ->
    by (by destruct Hs as [-> | ->]).
  split; [done|]. split; [done|]. split; [done|]. by rewrite app_nil_r.
Qed.

Lemma decode_body_chunks fuel chunks label F buf :
  label_ok label -> pem_chunks chunks -> buf_wf buf -> (length chunks < fuel)%nat ->
  outcome (Ok (F, concat chunks)) (contents buf) (tx buf)
    (decode_body fuel (pem_body chunks ++ sep_line (str "END") label ++ F) label
       (mkEnv ptls_base64_decode_init buf)).
Proof.
  intros Hlab. revert fuel buf. induction chunks as [|c cs IH]; intros [|fuel] buf Hc Hw Hf;
    simpl in Hf; try lia; [by apply decode_body_end; auto|].
  apply pem_chunks_cons in Hc as (Hb & Hl & Hlast & Hcs).
  change (pem_body (c :: cs)) with (b64_line c ++ pem_body cs) in *. rewrite <- app_assoc.
  destruct (b64_line c ++ pem_body cs ++ sep_line (str "END") label ++ F) as [|x l] eqn:E.
  { exfalso. unfold b64_line in E. by destruct (base64_text c). }
  cbn [decode_body concat]. rewrite <- E, b64_line_fgets, b64_line_not_sep by done.
  rewrite M_bind_run. unfold b64_line.
  destruct (base64_decode_text c [NL] buf Hb Hw) as [Ho Hs]; [by right|].
  destruct (ptls_base64_decode _ _) as [[[]|e] e1].
  - apply (outcome_trans () F c _ _ _ e1 _ Ho). destruct Ho as (Hw1 & _). specialize (Hs eq_refl).
    unfold decoded_state in Hs. simpl in Hs. destruct cs as [|c' cs'].
    + destruct fuel; [simpl in Hf; lia|]. apply decode_body_end; [done|done|].
      destruct (_ =? _); auto.
    + destruct Hlast as [|Hm]; [done|]. rewrite Hm in Hs. simpl in Hs. destruct e1 as [s1 b1].
      simpl in Hs. subst s1. by apply IH; [done| |lia].
  - destruct Ho as (Hw1 & Ht1 & [->|(?&?&?)] & ds & Hd); [|done].
    split; [done|]. split; [done|]. split; [by left|]. by exists ds.
Qed.

(** Reading back the objects of a PEM file that an encoder wrote. *)
Lemma get_pem_object_file chunks label F :
  label_ok label -> pem_chunks chunks -> len (pem_file label chunks) <= SIZE_MAX ->
  ptls_get_pem_object_malloc (pem_file label chunks ++ F) label
  = Ok (if 0 <? len (concat chunks) then Some (concat chunks) else None, F) \/
  ptls_get_pem_object_malloc (pem_file label chunks ++ F) label = Err PTLS_ERROR_NO_MEMORY.
Proof.
  intros Hl Hc Hs. unfold ptls_get_pem_object_malloc, pem_file in *. rewrite <- !app_assoc.
  rewrite !len_app in Hs. pose proof (length_le_body chunks) as Hlb.
  set (B := pem_body chunks ++ sep_line (str "END") label ++ F).
  assert (find_begin (length (sep_line (str "BEGIN") label ++ B))
    (sep_line (str "BEGIN") label ++ B) label = Ok B) as ->.
  { destruct (sep_line (str "BEGIN") label ++ B) as [|x l] eqn:E; [done|].
    cbn [find_begin length]. rewrite <- E, sep_line_fgets, compare_sep_line by auto. done. }
  cbn [mbind result_bind].
  assert (length chunks < length B)%nat as Hf by (unfold B; rewrite !length_app; simpl; lia).
  pose proof (len_nonneg (pem_body chunks)).
  pose proof (len_nonneg (sep_line (str "BEGIN") label)).
  pose proof (len_nonneg (sep_line (str "END") label)).
  pose proof (pem_capacity (length B) chunks label 0 F Hl Hc ltac:(lia) Hf ltac:(lia)) as Hcap.
  fold B in Hcap. rewrite Hcap. cbn [mbind result_bind].
  unfold ptls_pem_buffer_init_capacity.
  destruct (malloc _) as [[p m]|] eqn:Em; [|by right]. cbn [mbind result_bind].
  apply malloc_spec in Em as [Hp Hm].
  assert (len m <= SIZE_MAX) as Hm'.
  { rewrite Hm. destruct (_ =? 0) eqn:Ez; [done|lia]. }
  pose proof (decode_body_chunks (length B) chunks label F (ptls_buffer_init_tx p m) Hl Hc
    (buffer_init_wf p m 1 Hp Hm' (or_intror eq_refl)) Hf) as Ho. fold B in Ho.
  destruct (decode_body _ _ _ _) as [[rest|e] e1].
  - left. destruct Ho as (Hw & _ & -> & Hcont). cbn in Hcont |- *. rewrite Hcont.
    rewrite <- (contents_len (outb e1) Hw), Hcont. done.
  - right. destruct Ho as (_ & _ & [->|(?&?&?)] & _); done.
Qed.

(** The decoder gives back what the encoder was given, or runs out of memory. *)
(** Base64 round trip.  The text [ptls_base64_encode] writes has [ptls_base64_howlong] characters
    and a NUL; decoding it from the initial state appends exactly the encoded bytes to the buffer and
    succeeds with the decoder done or back at a cell boundary, or fails with PTLS_ERROR_NO_MEMORY. *)
Theorem base64_roundtrip data buf :
  is_bytes data -> buf_wf buf -> len data < 2 ^ 60 ->
  let '(text, n) := ptls_base64_encode data in
  n = ptls_base64_howlong (len data) + 1 /\
  exists t, text = t ++ [0] /\
  match ptls_base64_decode t (mkEnv ptls_base64_decode_init buf) with
  | (Ok _, e) => contents (outb e) = contents buf ++ data /\ decoded_state data (st e)
  | (Err e, _) => e = PTLS_ERROR_NO_MEMORY
  end.
Proof.
  intros Hd Hw Hl. cbn. pose proof (len_nonneg data). split.
  - rewrite len_app, base64_text_length. unfold ptls_base64_howlong.
    rewrite (u64_small (len data + 2)) by lia. rewrite u64_small; [done|].
    Z.div_mod_to_equations; lia.
  - exists (base64_text data). split; [done|].
    pose proof (base64_decode_text data [] buf Hd Hw (or_introl eq_refl)) as [Ho Hs].
    rewrite app_nil_r in Ho, Hs. destruct (ptls_base64_decode _ _) as [[[]|e] e1].
    + destruct Ho as (_ & _ & _ & Hc). split; [done|]. by apply Hs.
    + by destruct Ho as (_ & _ & [->|(?&?&?)] & _).
Qed.

(** Reading a PEM file.  From a file that starts with a BEGIN line, the base64 of [chunks] one
    per line, and an END line, whatever follows, [ptls_load_pem_objects] with room for one object
    returns exactly the concatenation of the chunks, or PTLS_ERROR_NO_MEMORY. *)
Theorem load_pem_object chunks label F :
  label_ok label -> pem_chunks chunks -> len (pem_file label chunks) <= SIZE_MAX ->
  concat chunks <> [] ->
  ptls_load_pem_objects (Some (pem_file label chunks ++ F)) label 1 = Ok [concat chunks] \/
  ptls_load_pem_objects (Some (pem_file label chunks ++ F)) label 1 = Err PTLS_ERROR_NO_MEMORY.
Proof.
  intros Hl Hc Hs Hne. unfold ptls_load_pem_objects.
  assert (0 <? len (concat chunks) = true) as Hpos.
  { apply Z.ltb_lt. pose proof (len_nonneg (concat chunks)). pose proof (proj1 (len_zero (concat chunks))).
    destruct (decide (len (concat chunks) = 0)); [naive_solver|lia]. }
  cbn [load_loop]. change (len [] <? 1) with true.
  destruct (get_pem_object_file chunks label F Hl Hc Hs) as [-> | ->]; [left|by right].
  rewrite Hpos. cbn [app]. destruct (length _) eqn:En.
  { exfalso. unfold pem_file in En. rewrite !length_app in En. simpl in En. lia. }
  reflexivity.
Qed.

(** What follows the padding of a base64 text is not looked at: any characters, alphabet
    characters or not, may follow, and the decoder reports success with the same output. *)
Theorem base64_garbage_after_padding data junk buf :
  is_bytes data -> buf_wf buf -> len data mod 3 <> 0 ->
  ptls_base64_decode (base64_text data ++ junk) (mkEnv ptls_base64_decode_init buf)
  = ptls_base64_decode (base64_text data) (mkEnv ptls_base64_decode_init buf).
Proof.
  intros Hd Hw Hm. unfold ptls_base64_decode.
  destruct (base64_text data) as [|c text] eqn:E; [by apply base64_text_nil in E as ->|].
  pose proof (base64_text_head data c text Hd E). cbn [app skip_while].
  replace (is_blank c) with false by (unfold is_blank; lia).
  change (c :: text ++ junk) with ((c :: text) ++ junk). rewrite <- E. clear c text E H0.
  revert buf Hw. induction data as [|a|a b|a b c l IH] using triple_ind; intros buf Hw; [done| | |].
  - destruct (decode_tail1 a buf) as [w E]; [by inv Hd|].
    rewrite E. by rewrite <- (app_nil_r (base64_text [a])), E.
  - destruct (decode_tail2 a b buf) as [w E]; [by decompose_Forall_hyps..|].
    rewrite E. by rewrite <- (app_nil_r (base64_text [a; b])), E.
  - cbn [base64_text]. rewrite <- app_assoc. apply Forall_cons_1 in Hd as [Ha Hd].
    apply Forall_cons_1 in Hd as [Hb Hd]. apply Forall_cons_1 in Hd as [Hc Hd].
    rewrite !decode_cell by done. pose proof (emits_do_pushv [a; b; c] buf Hw) as Ho.
    destruct (do_pushv [a; b; c] buf) as [[[]|e] b']; [|done]. apply IH; [done| |apply Ho].
    rewrite !len_cons in Hm. replace (1 + (1 + (1 + len l))) with (len l + 1 * 3) in Hm by lia.
    by rewrite Z_mod_plus_full in Hm.
Qed.

End PemProofs.

(** ** Witnesses *)

Definition b64_test_buf : ptls_buffer_t := ptls_buffer_init 64 [0; 0] 1.

Lemma b64_test_buf_wf : buf_wf b64_test_buf.
Proof. apply buffer_init_wf; vm_compute; auto; discriminate. Qed.

Lemma base64_roundtrip_witness :
  let '(text, n) := ptls_base64_encode (str "hello") in
  n = ptls_base64_howlong (len (str "hello")) + 1 /\
  exists t, text = t ++ [0] /\
  match @ptls_base64_decode bump_allocator t (mkEnv ptls_base64_decode_init b64_test_buf) with
  | (Ok _, e) => contents (outb e) = contents b64_test_buf ++ str "hello" /\
                 decoded_state (str "hello") (st e)
  | (Err e, _) => e = PTLS_ERROR_NO_MEMORY
  end.
Proof.
  apply (@base64_roundtrip bump_allocator (str "hello") b64_test_buf).
  - apply (bool_decide_unpack _). vm_compute. exact I.
  - apply b64_test_buf_wf.
  - vm_compute. reflexivity.
Defined.

Lemma load_pem_object_witness :
  @ptls_load_pem_objects bump_allocator
    (Some (pem_file (str "CERTIFICATE") [str "abcdef"; str "gh"] ++ str "trailer"))
    (str "CERTIFICATE") 1 = Ok [str "abcdefgh"].
Proof.
  destruct (@load_pem_object bump_allocator [str "abcdef"; str "gh"] (str "CERTIFICATE") (str "trailer"))
    as [E|E].
  - split; [apply (bool_decide_unpack _); vm_compute; exact I|vm_compute; discriminate].
  - split; [apply (bool_decide_unpack _); vm_compute; exact I|].
    split; [vm_compute; discriminate|]. split; [reflexivity|].
    split; [apply (bool_decide_unpack _); vm_compute; exact I|vm_compute; discriminate].
  - vm_compute. discriminate.
  - discriminate.
  - exact E.
  - exfalso. revert E. vm_compute. discriminate.
Defined.

Lemma base64_garbage_after_padding_witness :
  @ptls_base64_decode bump_allocator (base64_text (str "hello") ++ str "!garbage!")
    (mkEnv ptls_base64_decode_init b64_test_buf)
  = @ptls_base64_decode bump_allocator (base64_text (str "hello"))
    (mkEnv ptls_base64_decode_init b64_test_buf).
Proof.
  apply (@base64_garbage_after_padding bump_allocator).
  - apply (bool_decide_unpack _). vm_compute. exact I.
  - apply b64_test_buf_wf.
  - vm_compute. discriminate.
Defined.
