(* ===== verification/Asn1.v ===== *)
(** * Asn1: BER validation and private keys ([lib/asn1.c], [lib/minicrypto-pem.c])

    A pair [bytes, bytes_max] is the list of the [bytes_max] bytes, and every read [bytes[i]] is
    checked against it: [None] stands for a read outside of the array (or, in the validation loops,
    for fuel that ran out), and the theorems below show that it does not happen.  [log] says whether
    a log context is given; of the logging only the reads it makes are modelled, not the text.
    Lengths of arrays are below PTRDIFF_MAX, so sums of a [size_t] index and a [uint32_t] length
    do not wrap. *)

From S2P Require Import Prelude Constants Wire Buffer Base64.

(* src lib/asn1.c:46 PTLS_ASN1_MAX_RECURSION *)
Definition PTLS_ASN1_MAX_RECURSION : Z := 32.

(** [bytes[i]] *)
Definition rd (bytes : bytes) (i : Z) : option Z :=
  if i <? 0 then None else bytes !! Z.to_nat i.

(** The sub-array [bytes + i] of [n] elements. *)
Definition sub (i n : Z) (bytes : bytes) : list Z := take (Z.to_nat n) (drop (Z.to_nat i) bytes).

(** The result of reading a sequence of array elements: only whether all exist. *)
Fixpoint rd_all (bytes : bytes) (i : Z) (n : nat) : option unit :=
  match n with
  | O => Some ()
  | S n => _ ← rd bytes i; rd_all bytes (i + 1) n
  end.

(* src lib/asn1.c:66-81 ptls_asn1_dump_content *)
Definition ptls_asn1_dump_content (log : bool) (bytes : bytes) (bytes_max byte_index : Z)
    : option unit :=
  if log && (byte_index <? bytes_max) then
    rd_all bytes byte_index (Z.to_nat (Z.min 16 (bytes_max - byte_index)))
  else Some ().

(** ** Identifier octets *)

(* src lib/asn1.c:95 type_number_limit *)
Definition type_number_limit : Z := 0x07FFFFFFF.

(** The loop over the octets of a long type: index, number, and whether the last octet was found. *)
(* src lib/asn1.c:99-107 end_found *)
Fixpoint type_loop (rest : bytes) (byte_index long_type : Z) : Z * Z * bool :=
  match rest with
  | [] => (byte_index, long_type, false)
  | next_byte :: rest =>
      if long_type <=? type_number_limit then
        let long_type := Z.lor (u32 (Z.shiftl long_type 7)) (Z.land next_byte 127) in
        if Z.land next_byte 128 =? 0 then (byte_index + 1, long_type, true)
        else type_loop rest (byte_index + 1) long_type
      else (byte_index, long_type, false)
  end.

Record asn1_type := mkType
  { structure_bit : Z; type_class : Z; type_number : Z; type_end : Z; type_err : Z }.

(* src lib/asn1.c:83-119 ptls_asn1_read_type *)
Definition ptls_asn1_read_type (bytes : bytes) (err : Z) : option asn1_type :=
  first_byte ← rd bytes 0;
  let sb := Z.land (Z.shiftr first_byte 5) 1 in
  let tc := Z.land (Z.shiftr first_byte 6) 3 in
  let tn := Z.land first_byte 31 in
  if tn =? 31 then
    let '(byte_index, long_type, end_found) := type_loop (drop 1 bytes) 1 0 in
    if (end_found : bool) then Some (mkType sb tc long_type byte_index err)
    else Some (mkType sb tc tn byte_index PTLS_ERROR_BER_MALFORMED_TYPE)
  else Some (mkType sb tc tn 1 err).

(** ** Length octets *)

Record asn1_length := mkLength
  { length_ : Z; indefinite : bool; last_byte : Z; length_end : Z; length_err : Z }.

(* src lib/asn1.c:154-157 length_of_length *)
Fixpoint length_loop (n : nat) (bytes : bytes) (byte_index length : Z) : option (Z * Z) :=
  match n with
  | O => Some (byte_index, length)
  | S n =>
      if byte_index <? len bytes then
        b ← rd bytes byte_index;
        length_loop n bytes (byte_index + 1) (Z.lor (u32 (Z.shiftl length 8)) b)
      else Some (byte_index, length)
  end.

(** [if ( *decode_error == 0) { if ( *last_byte > bytes_max) ... }] *)
(* src lib/asn1.c:170-176 last_byte *)
Definition check_last_byte (bytes_max : Z) (l : asn1_length) : asn1_length :=
  if (length_err l =? 0) && (bytes_max <? last_byte l) then
    mkLength (length_ l) (indefinite l) (last_byte l) (length_end l) PTLS_ERROR_BER_EXCESSIVE_LENGTH
  else l.

(* src lib/asn1.c:134-180 ptls_asn1_read_length *)
Definition ptls_asn1_read_length (bytes : bytes) (byte_index err : Z) : option asn1_length :=
  let bytes_max := len bytes in
  if byte_index <? bytes_max then
    length ← rd bytes byte_index;
    let byte_index := byte_index + 1 in
    if negb (Z.land length 128 =? 0) then
      let length_of_length := Z.land length 127 in
      if bytes_max <=? byte_index + length_of_length then
        Some (check_last_byte bytes_max
          (mkLength 0 false bytes_max byte_index PTLS_ERROR_BER_MALFORMED_LENGTH))
      else
        '(byte_index, length) ← length_loop (Z.to_nat length_of_length) bytes byte_index 0;
        Some (check_last_byte bytes_max
          (if length_of_length =? 0 then mkLength length true bytes_max byte_index err
           else mkLength length false (byte_index + length) byte_index err))
    else
      Some (check_last_byte bytes_max (mkLength length false (byte_index + length) byte_index err))
  else Some (mkLength 0 false bytes_max byte_index err).

(** [indefinite_length] is NULL in every call.  When the type does not match, the caller's
    [length] and [last_byte] are left as they were: they are passed in [before]. *)
(* src lib/asn1.c:182-212 ptls_asn1_get_expected_type_and_length *)
Definition ptls_asn1_get_expected_type_and_length (bytes : bytes) (byte_index expected_type err : Z)
    (before : asn1_length) : option asn1_length :=
  if len bytes <=? byte_index then
    Some (mkLength (length_ before) (indefinite before) (last_byte before) byte_index
            PTLS_ERROR_INCORRECT_ASN1_SYNTAX)
  else
    b ← rd bytes byte_index;
    if negb (b =? expected_type) then
      Some (mkLength (length_ before) (indefinite before) (last_byte before) byte_index
              PTLS_ERROR_INCORRECT_ASN1_SYNTAX)
    else
      l ← ptls_asn1_read_length bytes (byte_index + 1) err;
      Some (if indefinite l
            then mkLength (length_ l) (indefinite l) (last_byte l) (length_end l)
                   PTLS_ERROR_DER_INDEFINITE_LENGTH
            else l).

(** ** Validation *)

(** The loop over the elements of a structured value; [rec] is the recursive call.  Gives the index
    reached and the error. *)
(* src lib/asn1.c:248-281 byte_index *)
Fixpoint content_loop (rec : bytes -> Z -> option (Z * Z)) (fuel : nat) (bytes : bytes)
    (indefinite_length : bool) (last byte_index err : Z) : option (Z * Z) :=
  if byte_index <? last then
    match fuel with
    | O => None
    | S fuel =>
        eoc ← (if indefinite_length then b ← rd bytes byte_index; Some (b =? 0) else Some false);
        if (eoc : bool) then
          bad ← (if len bytes <? byte_index + 2 then Some true
                 else b ← rd bytes (byte_index + 1); Some (negb (b =? 0)));
          if (bad : bool) then Some (len bytes, PTLS_ERROR_BER_UNEXPECTED_EOC)
          else Some (byte_index + 2, err)
        else
          '(n, err) ← rec (sub byte_index (last - byte_index) bytes) err;
          if negb (err =? 0) then Some (len bytes, err)
          else content_loop rec fuel bytes indefinite_length last (byte_index + n) err
    end
  else Some (byte_index, err).

(** The index reached and the error.  [depth] bounds the recursion: 33 levels suffice, the
    function refuses deeper ones itself. *)
(* src lib/asn1.c:214-294 ptls_asn1_validation_recursive *)
Fixpoint ptls_asn1_validation_recursive (depth : nat) (log : bool) (bytes : bytes) (err level : Z)
    : option (Z * Z) :=
  if PTLS_ASN1_MAX_RECURSION <? level then Some (0, PTLS_ERROR_INCORRECT_ASN1_SYNTAX)
  else
    match depth with
    | O => None
    | S depth =>
        t ← ptls_asn1_read_type bytes err;
        l ← ptls_asn1_read_length bytes (type_end t) (type_err t);
        if last_byte l <=? len bytes then
          if negb (structure_bit t =? 0) then
            content_loop (λ b e, ptls_asn1_validation_recursive depth log b e (level + 1))
              (length bytes) bytes (indefinite l) (last_byte l) (length_end l) (length_err l)
          else
            _ ← ptls_asn1_dump_content log bytes (last_byte l) (length_end l);
            Some (last_byte l, length_err l)
        else Some (length_end l, length_err l)
    end.

Definition validation_depth (level : Z) : nat := Z.to_nat (PTLS_ASN1_MAX_RECURSION + 1 - level).

(* src lib/asn1.c:296-309 ptls_asn1_validation *)
Definition ptls_asn1_validation (log : bool) (bytes : bytes) : option Z :=
  '(decoded, err) ← ptls_asn1_validation_recursive (validation_depth 0) log bytes 0 0;
  Some (if (err =? 0) && (decoded <? len bytes) then PTLS_ERROR_BER_ELEMENT_TOO_SHORT else err).

(** ** PKCS #8 private keys *)

(* src include/zpicotls/minicrypto.h:63-71 ptls_asn1_pkcs8_private_key_t *)
Record ptls_asn1_pkcs8_private_key_t := mkPkey
  { vec : bytes;
    algorithm_index : Z; algorithm_length : Z;
    parameters_index : Z; parameters_length : Z;
    key_data_index : Z; key_data_length : Z }.

Definition no_length : asn1_length := mkLength 0 false 0 0 0.

(** [bytes[i] != a || bytes[i+1] != b || bytes[i+2] != c], negated. *)
Definition rd3_is (bytes : bytes) (i a b c : Z) : option bool :=
  x ← rd bytes i;
  if negb (x =? a) then Some false else
  y ← rd bytes (i + 1);
  if negb (y =? b) then Some false else
  z ← rd bytes (i + 2);
  Some (z =? c).

(** The parts of the function, each skipped once an error is recorded: [decode_error == 0] is the
    [Ok] case, the index reached then is kept in it.  An [Err] is the recorded error. *)

(** Sequence header and version. *)
(* src lib/minicrypto-pem.c:57-80 seq0_length *)
Definition pkey_version (bytes : bytes) : option (result (Z * Z)) :=
  l0 ← ptls_asn1_get_expected_type_and_length bytes 0 0x30 0 no_length;
  if negb (length_err l0 =? 0) then Some (Err (length_err l0))
  else if negb (len bytes =? last_byte l0) then Some (Err PTLS_ERROR_BER_EXCESSIVE_LENGTH)
  else if len bytes <? length_end l0 + 3 then Some (Err PTLS_ERROR_INCORRECT_PEM_KEY_VERSION)
  else
    v0 ← rd3_is bytes (length_end l0) 0x02 0x01 0x00;
    Some (if (v0 : bool) then Ok (length_end l0 + 3, last_byte l0)
          else Err PTLS_ERROR_INCORRECT_PEM_KEY_VERSION).

(** Algorithm identifier: the key with its algorithm and parameters fields, and the index after. *)
(* src lib/minicrypto-pem.c:82-135 seq1_length *)
Definition pkey_algorithm (log : bool) (bytes : bytes) (byte_index : Z)
    : option (result (ptls_asn1_pkcs8_private_key_t * Z)) :=
  l1 ← ptls_asn1_get_expected_type_and_length bytes byte_index 0x30 0 no_length;
  if negb (length_err l1 =? 0) then Some (Err (length_err l1)) else
  let last_byte1 := last_byte l1 in
  lo ← ptls_asn1_get_expected_type_and_length (sub 0 last_byte1 bytes) (length_end l1) 0x06 0 no_length;
  if negb (length_err lo =? 0) then Some (Err (length_err lo)) else
  _ ← ptls_asn1_dump_content log (drop (Z.to_nat (length_end lo)) bytes) (length_ lo) 0;
  let byte_index := length_end lo + length_ lo in
  if last_byte1 <=? byte_index then
    Some (if negb (byte_index =? last_byte1) then Err PTLS_ERROR_BER_ELEMENT_TOO_SHORT
          else Ok (mkPkey bytes (length_end lo) (length_ lo) 0 0 0 0, byte_index))
  else
    '(n, err) ← ptls_asn1_validation_recursive (validation_depth 2) log
                  (sub byte_index (last_byte1 - byte_index) bytes) 0 2;
    Some (if negb (err =? 0) then Err err
          else if negb (byte_index + u32 n =? last_byte1) then Err PTLS_ERROR_BER_ELEMENT_TOO_SHORT
          else Ok (mkPkey bytes (length_end lo) (length_ lo) byte_index (u32 n) 0 0,
                   byte_index + u32 n)).

(** Key data.  With a log context the key data is validated too, and an error found there counts. *)
(* src lib/minicrypto-pem.c:137-159 key_data_length *)
Definition pkey_key_data (log : bool) (bytes : bytes) (pkey : ptls_asn1_pkcs8_private_key_t)
    (byte_index last_byte0 : Z) : option (result ptls_asn1_pkcs8_private_key_t) :=
  lk ← ptls_asn1_get_expected_type_and_length (sub 0 last_byte0 bytes) byte_index 0x04 0 no_length;
  if negb (length_err lk =? 0) then Some (Err (length_err lk)) else
  let pkey := mkPkey (vec pkey) (algorithm_index pkey) (algorithm_length pkey)
                (parameters_index pkey) (parameters_length pkey) (length_end lk) (length_ lk) in
  let byte_index := length_end lk + length_ lk in
  err ← (if log then
           '(_, err) ← ptls_asn1_validation_recursive (validation_depth 1) log
                         (sub (length_end lk) (length_ lk) bytes) 0 1;
           Some err
         else Some 0);
  Some (if negb (err =? 0) then Err err
        else if negb (byte_index =? last_byte0) then Err PTLS_ERROR_BER_ELEMENT_TOO_SHORT
        else Ok pkey).

(* src lib/minicrypto-pem.c:40-166 ptls_minicrypto_asn1_decode_private_key *)
Definition ptls_minicrypto_asn1_decode_private_key (log : bool) (bytes : bytes)
    : option (result ptls_asn1_pkcs8_private_key_t) :=
  r0 ← pkey_version bytes;
  match r0 with
  | Err e => Some (Err e)
  | Ok (byte_index, last_byte0) =>
      r1 ← pkey_algorithm log bytes byte_index;
      match r1 with
      | Err e => Some (Err e)
      | Ok (pkey, byte_index) => pkey_key_data log bytes pkey byte_index last_byte0
      end
  end.

(* src lib/minicrypto-pem.c:168-195 ptls_pem_parse_private_key *)
Definition ptls_pem_parse_private_key `{Allocator} (file : option (list Z)) (log : bool)
    : option (result ptls_asn1_pkcs8_private_key_t) :=
  match ptls_load_pem_objects file (str "PRIVATE KEY") 1 with
  | Err e => Some (Err e)
  | Ok [vec] => ptls_minicrypto_asn1_decode_private_key log vec
  | Ok _ => Some (Err PTLS_ERROR_PEM_LABEL_NOT_FOUND)
  end.

(* src lib/minicrypto-pem.c:197 ptls_asn1_algorithm_ecdsa *)
Definition ptls_asn1_algorithm_ecdsa : bytes := [0x2a; 0x86; 0x48; 0xce; 0x3d; 0x02; 0x01].

(* src lib/minicrypto-pem.c:199 ptls_asn1_curve_secp256r1 *)
Definition ptls_asn1_curve_secp256r1 : bytes := [0x2a; 0x86; 0x48; 0xce; 0x3d; 0x03; 0x01; 0x07].

(* src include/zpicotls/minicrypto.h:31 SECP256R1_PRIVATE_KEY_SIZE *)
Definition SECP256R1_PRIVATE_KEY_SIZE : Z := 32.

(** [key_base] is [None] for a NULL pointer, from which [memcpy] reads: no result. *)
(* src lib/uecc.c:180-190 ptls_minicrypto_init_secp256r1sha256_sign_certificate *)
Definition ptls_minicrypto_init_secp256r1sha256_sign_certificate (key_base : option bytes) (key_len : Z)
    : option (result bytes) :=
  if negb (key_len =? SECP256R1_PRIVATE_KEY_SIZE) then Some (Err PTLS_ERROR_INCOMPATIBLE_KEY)
  else key ← key_base; Some (Ok key).

(** The curve of the key's parameters: the error, the curve identifier, NULL after an error, and its
    length, which is set even then. *)
(* src lib/minicrypto-pem.c:215-234 curve_id *)
Definition ecdsa_curve (log : bool) (pkey : ptls_asn1_pkcs8_private_key_t)
    : option (Z * option bytes * Z) :=
  let params := sub (parameters_index pkey) (parameters_length pkey) (vec pkey) in
  lc ← ptls_asn1_get_expected_type_and_length params 0 0x06 0 no_length;
  let err := if (length_err lc =? 0) && negb (len params =? last_byte lc)
             then PTLS_ERROR_BER_EXCESSIVE_LENGTH else length_err lc in
  if err =? 0 then
    _ ← ptls_asn1_dump_content log (drop (Z.to_nat (length_end lc)) params) (length_ lc) 0;
    Some (0, Some (sub (length_end lc) (length_ lc) params), length_ lc)
  else Some (err, None, length_ lc).

(** The private key octet string: NULL unless found without an error, and its length, which is set as
    soon as its length octets are read. *)
(* src lib/minicrypto-pem.c:236-277 ecdsa_key_data *)
Definition ecdsa_key_data (pkey : ptls_asn1_pkcs8_private_key_t) (err : Z) : option (option bytes * Z) :=
  let bytes := sub (key_data_index pkey) (key_data_length pkey) (vec pkey) in
  if negb (err =? 0) then Some (None, 0) else
  ls ← ptls_asn1_get_expected_type_and_length bytes 0 0x30 0 no_length;
  if negb (length_err ls =? 0) || negb (len bytes =? last_byte ls) then Some (None, 0)
  else if len bytes <? length_end ls + 3 then Some (None, 0)
  else
    v1 ← rd3_is bytes (length_end ls) 0x02 0x01 0x01;
    if negb v1 then Some (None, 0)
    else
      lk ← ptls_asn1_get_expected_type_and_length (sub 0 (last_byte ls) bytes) (length_end ls + 3)
             0x04 0 no_length;
      Some (if length_err lk =? 0 then Some (sub (length_end lk) (length_ lk) bytes) else None,
            length_ lk).

(** The key installed in [ctx->sign_certificate], or the error; [alloc] says whether the [malloc] of
    the signer succeeds.  No result stands for a read through a NULL pointer. *)
(* src lib/minicrypto-pem.c:201-322 ptls_set_ecdsa_private_key *)
Definition ptls_set_ecdsa_private_key (alloc log : bool) (pkey : ptls_asn1_pkcs8_private_key_t)
    : option (result bytes) :=
  '(err, curve_id, curve_id_length) ← ecdsa_curve log pkey;
  '(key_data, key_data_length) ← ecdsa_key_data pkey err;
  if (curve_id_length =? len ptls_asn1_curve_secp256r1) &&
     bool_decide (curve_id = Some ptls_asn1_curve_secp256r1) then
    if negb (SECP256R1_PRIVATE_KEY_SIZE =? key_data_length)
    then Some (Err PTLS_ERROR_INCORRECT_PEM_ECDSA_KEYSIZE)
    else if negb alloc then Some (Err PTLS_ERROR_NO_MEMORY)
    else ptls_minicrypto_init_secp256r1sha256_sign_certificate key_data key_data_length
  else Some (Err PTLS_ERROR_INCORRECT_PEM_ECDSA_CURVE).

(* src lib/minicrypto-pem.c:324-350 ptls_minicrypto_load_private_key *)
Definition ptls_minicrypto_load_private_key `{Allocator} (alloc : bool) (file : option (list Z))
    : option (result bytes) :=
  r ← ptls_pem_parse_private_key file false;
  match r with
  | Err e => Some (Err e)
  | Ok pkey =>
      if negb (algorithm_length pkey =? len ptls_asn1_algorithm_ecdsa) ||
         negb (bool_decide (sub (algorithm_index pkey) (algorithm_length pkey) (vec pkey)
                            = ptls_asn1_algorithm_ecdsa))
      then Some (Err (-1))
      else ptls_set_ecdsa_private_key alloc false pkey
  end.

(** ** Reads stay inside the array *)

Lemma rd_in bytes i : 0 <= i < len bytes -> exists b, rd bytes i = Some b /\ b ∈ bytes.
Proof.
  intros Hi. unfold rd. rewrite (proj2 (Z.ltb_ge i 0)) by lia.
  destruct (lookup_lt_is_Some_2 bytes (Z.to_nat i)) as [b E]; [unfold len in Hi; lia|].
  exists b. split; [done|]. by eapply list_elem_of_lookup_2.
Qed.

Lemma rd_some bytes i :
  is_bytes bytes -> 0 <= i < len bytes -> exists b, rd bytes i = Some b /\ is_byte b.
Proof.
  intros Hb Hi. destruct (rd_in bytes i Hi) as (b & E & Hin). exists b. split; [done|].
  rewrite Forall_forall in Hb. by apply Hb.
Qed.

Lemma len_sub i n bytes : 0 <= i -> 0 <= n -> i + n <= len bytes -> len (sub i n bytes) = n.
Proof. intros. unfold sub. rewrite len_take, len_drop. lia. Qed.

Lemma sub_bytes i n bytes : is_bytes bytes -> is_bytes (sub i n bytes).
Proof. intros. unfold sub. auto with zpico. Qed.

Lemma rd_all_some bytes i n :
  0 <= i -> i + Z.of_nat n <= len bytes -> rd_all bytes i n = Some ().
Proof.
  revert i. induction n as [|n IH]; intros i Hi Hl; [done|]. cbn [rd_all].
  destruct (rd_in bytes i) as (b & -> & _); [lia|]. apply IH; lia.
Qed.

Lemma dump_content_safe log bytes m i :
  0 <= i -> m <= len bytes -> ptls_asn1_dump_content log bytes m i = Some ().
Proof.
  intros Hi Hm. unfold ptls_asn1_dump_content. destruct log; [|done]. simpl.
  destruct (Z.ltb_spec i m); [|done]. apply rd_all_some; lia.
Qed.

Lemma type_loop_bounds rest bi lt :
  let '(bi', _, _) := type_loop rest bi lt in bi <= bi' <= bi + len rest.
Proof.
  revert bi lt. induction rest as [|b rest IH]; intros bi lt; cbn [type_loop]; [rewrite len_nil; lia|].
  rewrite len_cons. pose proof (len_nonneg rest). destruct (_ <=? _); [|lia].
  destruct (_ =? 0); [lia|]. match goal with |- context [type_loop rest ?x ?y] => specialize (IH x y) end.
  destruct (type_loop rest _ _) as [[bi' lt'] f]. lia.
Qed.

Lemma read_type_safe bytes err :
  is_bytes bytes -> bytes <> [] ->
  exists t, ptls_asn1_read_type bytes err = Some t /\ 1 <= type_end t <= len bytes /\
    (type_err t = 0 -> err = 0).
Proof.
  intros Hb Hne. destruct bytes as [|b rest]; [done|]. rewrite len_cons.
  pose proof (len_nonneg rest). unfold ptls_asn1_read_type.
  change (rd (b :: rest) 0) with (Some b). cbn [mbind option_bind drop].
  destruct (_ =? 31); [|eexists; split; [done|simpl; split; [lia|done]]].
  pose proof (type_loop_bounds rest 1 0) as Hl. rewrite drop_0.
  destruct (type_loop rest 1 0) as [[bi lt] []]; eexists; (split; [done|simpl; split; [lia|]]);
    [done|intros [=]].
Qed.

Lemma length_loop_safe n bytes bi l :
  is_bytes bytes -> 0 <= bi -> bi + Z.of_nat n <= len bytes -> 0 <= l ->
  exists l', length_loop n bytes bi l = Some (bi + Z.of_nat n, l') /\ 0 <= l'.
Proof.
  intros Hb. revert bi l. induction n as [|n IH]; intros bi l Hbi Hl Hl0; cbn [length_loop].
  - exists l. split; [f_equal; f_equal; lia|done].
  - rewrite (proj2 (Z.ltb_lt _ _)) by lia. destruct (rd_some bytes bi Hb) as (b & -> & Hbb); [lia|].
    cbn [mbind option_bind].
    destruct (IH (bi + 1) (Z.lor (u32 (Z.shiftl l 8)) b)) as (l' & -> & Hl'); [lia|lia| |].
    + apply Z.lor_nonneg. split; [apply u32_range|apply Hbb].
    + exists l'. split; [f_equal; f_equal; lia|done].
Qed.

(** What a caller knows of the length octets. *)
Definition length_ok (bytes : bytes) (bi err : Z) (l : asn1_length) : Prop :=
  bi <= length_end l <= len bytes /\ length_end l <= last_byte l /\ 0 <= length_ l /\
  (indefinite l = true -> last_byte l = len bytes) /\
  (length_err l = 0 -> err = 0 /\ last_byte l <= len bytes /\
     (indefinite l = false -> last_byte l = length_end l + length_ l)).

Lemma check_last_byte_ok bytes bi err l :
  (length_err l = 0 -> err = 0 /\ (indefinite l = false -> last_byte l = length_end l + length_ l)) ->
  bi <= length_end l <= len bytes -> length_end l <= last_byte l -> 0 <= length_ l ->
  (indefinite l = true -> last_byte l = len bytes) ->
  length_ok bytes bi err (check_last_byte (len bytes) l).
Proof.
  intros He Hb Hl Hn Hi. unfold check_last_byte, length_ok.
  destruct (Z.eqb_spec (length_err l) 0) as [E|E]; simpl.
  - destruct (Z.ltb_spec (len bytes) (last_byte l)); simpl; [split_and!; first [lia|done|by intros [=]]|].
    split_and!; try lia; try done. intros _. destruct (He E) as [-> Hlast]. by split_and!.
  - split_and!; try lia; try done.
Qed.

Lemma read_length_safe bytes bi err :
  is_bytes bytes -> 0 <= bi <= len bytes ->
  exists l, ptls_asn1_read_length bytes bi err = Some l /\ length_ok bytes bi err l.
Proof.
  intros Hb Hbi. unfold ptls_asn1_read_length.
  destruct (Z.ltb_spec bi (len bytes)) as [Hlt|Hge].
  2:{ eexists. split; [done|]. unfold length_ok. simpl. split_and!; try lia; done. }
  destruct (rd_some bytes bi Hb) as (b & -> & Hbb); [lia|]. cbn [mbind option_bind].
  destruct (_ =? 0); simpl.
  - eexists. split; [done|]. unfold is_byte in Hbb. apply check_last_byte_ok; simpl; try lia; done.
  - assert (0 <= Z.land b 127) as Hk by (apply Z.land_nonneg; lia).
    destruct (Z.leb_spec (len bytes) (bi + 1 + Z.land b 127)).
    + eexists. split; [done|]. apply check_last_byte_ok; simpl; try lia; done.
    + destruct (length_loop_safe (Z.to_nat (Z.land b 127)) bytes (bi + 1) 0) as (l' & -> & Hl');
        [done|lia|lia|lia|]. cbn [mbind option_bind].
      destruct (_ =? 0); eexists; (split; [done|]); apply check_last_byte_ok; simpl; try lia; done.
Qed.

Lemma get_expected_safe bytes bi ty err l0 :
  is_bytes bytes -> 0 <= bi ->
  exists l, ptls_asn1_get_expected_type_and_length bytes bi ty err l0 = Some l /\
    (length_err l = 0 ->
       bi + 1 <= length_end l /\ 0 <= length_ l /\ last_byte l = length_end l + length_ l /\
       last_byte l <= len bytes /\ indefinite l = false).
Proof.
  intros Hb Hbi. unfold ptls_asn1_get_expected_type_and_length.
  destruct (Z.leb_spec (len bytes) bi); [eexists; split; [done|done]|].
  destruct (rd_some bytes bi Hb) as (b & -> & _); [lia|]. cbn [mbind option_bind].
  destruct (b =? ty); simpl; [|eexists; split; [done|done]].
  destruct (read_length_safe bytes (bi + 1) err Hb) as (l & -> & Hl); [lia|]. cbn [mbind option_bind].
  eexists. split; [done|]. destruct Hl as (H1 & H2 & H3 & H4 & H5).
  destruct (indefinite l) eqn:Ei; simpl; [done|]. intros E. destruct (H5 E) as (? & ? & Hn).
  specialize (Hn eq_refl). repeat split; (lia || done).
Qed.

(** What the recursive call guarantees. *)
Definition validates (bytes : bytes) (err : Z) (o : option (Z * Z)) : Prop :=
  exists n e, o = Some (n, e) /\ 0 <= n <= len bytes /\ (e = 0 -> err = 0 /\ 1 <= n).

Lemma content_loop_safe rec fuel bytes ind last bi err :
  (forall b e, is_bytes b -> b <> [] -> validates b e (rec b e)) ->
  is_bytes bytes -> 0 < bi -> bi <= len bytes -> last <= len bytes -> (ind = true -> last = len bytes) ->
  last - bi <= Z.of_nat fuel ->
  exists n e, content_loop rec fuel bytes ind last bi err = Some (n, e) /\
    bi <= n <= len bytes /\ (e = 0 -> err = 0).
Proof.
  intros Hrec Hb. revert bi err.
  induction fuel as [|fuel IH]; intros bi err H0 Hbi Hlast Hind Hf; cbn [content_loop];
    destruct (Z.ltb_spec bi last); try (eexists _, _; split; [done|split; [lia|done]]); [lia|].
  destruct (rd_some bytes bi Hb) as (b & Eb & _); [lia|]. rewrite Eb.
  set (eoc := if ind then _ else _).
  assert (eoc = Some (ind && (b =? 0))) as -> by (by subst eoc; destruct ind).
  cbn [mbind option_bind]. destruct (ind && (b =? 0)).
  - destruct (Z.ltb_spec (len bytes) (bi + 2)); cbn [mbind option_bind];
      [by eexists _, _; split; [done|split; [lia|done || intros [=]]]|].
    destruct (rd_some bytes (bi + 1) Hb) as (b1 & -> & _); [lia|]. cbn [mbind option_bind].
    destruct (negb _); by eexists _, _; (split; [done|split; [lia|done]]).
  - assert (len (sub bi (last - bi) bytes) = last - bi) as Hs by (apply len_sub; lia).
    destruct (Hrec (sub bi (last - bi) bytes) err) as (n & e & -> & Hn & He).
    { by apply sub_bytes. }
    { intros E. rewrite E in Hs. rewrite len_nil in Hs. lia. }
    cbn [mbind option_bind]. destruct (Z.eqb_spec e 0) as [->|Hne]; simpl.
    + destruct (He eq_refl) as [-> Hn1].
      destruct (IH (bi + n) 0) as (n' & e' & -> & Hn' & He'); try lia; try done.
      eexists _, _. split; [done|]. split; [lia|done].
    + by eexists _, _; split; [done|split; [lia|done || intros [=]]].
Qed.

Lemma validation_recursive_safe depth log bytes err level :
  is_bytes bytes -> bytes <> [] -> 0 <= level ->
  PTLS_ASN1_MAX_RECURSION + 1 - level <= Z.of_nat depth ->
  validates bytes err (ptls_asn1_validation_recursive depth log bytes err level).
Proof.
  revert bytes err level. induction depth as [|depth IH]; intros bytes err level Hb Hne Hl Hd;
    cbn [ptls_asn1_validation_recursive]; destruct (Z.ltb_spec PTLS_ASN1_MAX_RECURSION level);
    try lia; try (eexists _, _; split; [done|]; pose proof (len_nonneg bytes); split; [lia|done]).
  destruct (read_type_safe bytes err Hb Hne) as (t & -> & Ht & Hte). cbn [mbind option_bind].
  destruct (read_length_safe bytes (type_end t) (type_err t) Hb) as (l & -> & Hlen); [lia|].
  cbn [mbind option_bind]. destruct Hlen as (H1 & H2 & H3 & H4 & H5).
  destruct (Z.leb_spec (last_byte l) (len bytes)).
  - destruct (structure_bit t =? 0); simpl.
    + rewrite dump_content_safe by lia. cbn [mbind option_bind].
      eexists _, _. split; [done|]. split; [lia|]. naive_solver lia.
    + destruct (content_loop_safe
        (λ b e, ptls_asn1_validation_recursive depth log b e (level + 1)) (length bytes) bytes
        (indefinite l) (last_byte l) (length_end l) (length_err l)) as (n & e & -> & Hn & He);
        try done; try lia.
      * intros b e Hbb Hbne. apply IH; (done || lia).
      * unfold len in *. lia.
      * eexists _, _. split; [done|]. split; [lia|]. naive_solver lia.
  - eexists _, _. split; [done|]. split; [lia|]. naive_solver lia.
Qed.

(** C40: BER validation of a nonempty array, with or without logging, never reads outside of the array
    and always terminates; it reports no error only if the element covers the array exactly. *)
Theorem asn1_validation_safe log bytes :
  is_bytes bytes -> bytes <> [] ->
  exists e, ptls_asn1_validation log bytes = Some e /\
    (e = 0 -> ptls_asn1_validation_recursive (validation_depth 0) log bytes 0 0 = Some (len bytes, 0)).
Proof.
  intros Hb Hne. unfold ptls_asn1_validation.
  destruct (validation_recursive_safe (validation_depth 0) log bytes 0 0 Hb Hne) as (n & e & -> & Hn & He);
    [lia|vm_compute; discriminate|].
  cbn [mbind option_bind]. eexists. split; [done|].
  destruct (Z.eqb_spec e 0) as [->|]; simpl; [|done].
  destruct (Z.ltb_spec n (len bytes)); [done|]. intros _. repeat f_equal. lia.
Qed.

(** ** DER: the encodings a certificate or a key is made of

    [tlv tag body] is an element with a one-octet identifier and a definite length. *)

Definition der_length (n : Z) : bytes :=
  if n <? 0x80 then [n]
  else if n <? 2 ^ 8 then 0x81 :: be_encode 1 n
  else if n <? 2 ^ 16 then 0x82 :: be_encode 2 n
  else if n <? 2 ^ 24 then 0x83 :: be_encode 3 n
  else 0x84 :: be_encode 4 n.

Definition tlv (tag : Z) (body : bytes) : bytes := tag :: der_length (len body) ++ body.

Inductive der :=
| Primitive (tag : Z) (content : bytes)
| Constructed (tag : Z) (children : list der).

Fixpoint der_encode (t : der) : bytes :=
  match t with
  | Primitive tag content => tlv tag content
  | Constructed tag children => tlv tag (concat (map der_encode children))
  end.

(** A tree whose tags are one octet and agree with its shape, whose lengths fit 32 bits, and that
    nests no deeper than the validator allows when its root is at [level]. *)
Fixpoint der_ok (level : Z) (t : der) : Prop :=
  level <= PTLS_ASN1_MAX_RECURSION /\
  match t with
  | Primitive tag content =>
      Z.land tag 31 <> 31 /\ Z.land (Z.shiftr tag 5) 1 = 0 /\ len content < 2 ^ 32
  | Constructed tag children =>
      Z.land tag 31 <> 31 /\ Z.land (Z.shiftr tag 5) 1 = 1 /\
      len (concat (map der_encode children)) < 2 ^ 32 /\
      fold_right (λ c P, der_ok (level + 1) c /\ P) True children
  end.

Lemma rd_app pre b rest : rd (pre ++ b :: rest) (len pre) = Some b.
Proof.
  unfold rd. pose proof (len_nonneg pre). rewrite (proj2 (Z.ltb_ge _ _)) by lia.
  rewrite to_nat_len. by apply list_lookup_middle.
Qed.

Lemma length_loop_be ds pre rest acc :
  is_bytes ds -> 0 <= acc -> acc * 256 ^ len ds + be_decode ds < 2 ^ 32 ->
  length_loop (length ds) (pre ++ ds ++ rest) (len pre) acc
  = Some (len pre + len ds, acc * 256 ^ len ds + be_decode ds).
Proof.
  intros Hb. revert pre acc. induction Hb as [|d ds Hd Hds IH]; intros pre acc Ha Hs.
  - rewrite len_nil. unfold be_decode. cbn [length length_loop foldl]. f_equal. f_equal; lia.
  - pose proof (be_decode_bound ds Hds). pose proof (len_nonneg ds). pose proof (len_nonneg rest).
    rewrite be_decode_cons, len_cons, Z.pow_add_r, Z.pow_1_r in Hs |- * by lia.
    cbn [length length_loop].
    rewrite (proj2 (Z.ltb_lt _ _)) by (rewrite !len_app, len_cons; lia). cbn [app].
    rewrite rd_app. cbn [mbind option_bind].
    assert (0 < 256 ^ len ds) by (apply Z.pow_pos_nonneg; lia). unfold is_byte in Hd.
    replace (acc * (256 * 256 ^ len ds) + (d * 256 ^ len ds + be_decode ds))
      with ((acc * 256 + d) * 256 ^ len ds + be_decode ds) in * by ring.
    assert (acc * 256 + d < 2 ^ 32) by nia.
    rewrite u32_small by (rewrite Z.shiftl_mul_pow2 by lia; change (2 ^ 8) with 256; lia).
    rewrite lor_shiftl_byte by done.
    replace (pre ++ d :: ds ++ rest) with ((pre ++ [d]) ++ ds ++ rest) by (by rewrite <- app_assoc).
    replace (len pre + 1) with (len (pre ++ [d])) by (rewrite len_app, len_cons, len_nil; lia).
    rewrite IH by lia. rewrite len_app, len_cons, len_nil. f_equal. f_equal; lia.
Qed.

(** A long form of [k] octets. *)
Lemma read_length_long k n pre body rest :
  (1 <= k <= 4)%nat -> len body = n -> 1 <= n < 256 ^ Z.of_nat k ->
  ptls_asn1_read_length (pre ++ (0x80 + Z.of_nat k :: be_encode k n) ++ body ++ rest) (len pre) 0
  = Some (mkLength n false (len pre + 1 + Z.of_nat k + n) (len pre + 1 + Z.of_nat k) 0).
Proof.
  intros Hk Hb Hn. pose proof (len_nonneg rest). pose proof (len_nonneg pre).
  assert (len (be_encode k n) = Z.of_nat k) as Hlen by (unfold len; by rewrite be_encode_length).
  unfold ptls_asn1_read_length.
  set (all := pre ++ (0x80 + Z.of_nat k :: be_encode k n) ++ body ++ rest).
  assert (len all = len pre + 1 + Z.of_nat k + n + len rest) as Hall
    by (unfold all; rewrite !len_app, len_cons; lia).
  rewrite (proj2 (Z.ltb_lt _ _)) by lia.
  assert (rd all (len pre) = Some (0x80 + Z.of_nat k)) as -> by apply rd_app.
  cbn [mbind option_bind].
  assert (negb (Z.land (0x80 + Z.of_nat k) 128 =? 0) = true /\ Z.land (0x80 + Z.of_nat k) 127 = Z.of_nat k)
    as [-> ->].
  { assert (k = 1 \/ k = 2 \/ k = 3 \/ k = 4)%nat as [->|[->|[->| ->]]] by lia; done. }
  rewrite (proj2 (Z.leb_gt _ _)) by lia.
  replace all with ((pre ++ [0x80 + Z.of_nat k]) ++ be_encode k n ++ body ++ rest) at 1
    by (unfold all; by rewrite <- app_assoc).
  replace (len pre + 1) with (len (pre ++ [0x80 + Z.of_nat k])) at 1
    by (rewrite len_app, len_cons, len_nil; lia).
  rewrite Nat2Z.id. rewrite <- (be_encode_length k n) at 1.
  assert (256 ^ Z.of_nat k <= 2 ^ 32).
  { change (2 ^ 32) with (256 ^ 4). apply Z.pow_le_mono_r; lia. }
  rewrite length_loop_be; rewrite ?be_decode_encode, ?Z.mod_small, ?Hlen by lia; auto with zpico; try lia.
  cbn [mbind option_bind]. rewrite (proj2 (Z.eqb_neq _ _)) by lia.
  unfold check_last_byte. simpl. rewrite len_app, len_cons, len_nil.
  rewrite (proj2 (Z.ltb_ge _ _)) by lia. repeat f_equal; lia.
Qed.

Lemma read_length_short n pre body rest :
  len body = n -> n < 128 ->
  ptls_asn1_read_length (pre ++ [n] ++ body ++ rest) (len pre) 0
  = Some (mkLength n false (len pre + 1 + n) (len pre + 1) 0).
Proof.
  intros Hb Hn. pose proof (len_nonneg rest). pose proof (len_nonneg pre). pose proof (len_nonneg body).
  unfold ptls_asn1_read_length. rewrite (proj2 (Z.ltb_lt _ _)) by (len_simpl; lia).
  cbn [app]. rewrite rd_app. cbn [mbind option_bind].
  assert (Z.land n 128 = 0) as ->.
  { apply Z.bits_inj'. intros i Hi. rewrite Z.land_spec, Z.bits_0.
    change 128 with (2 ^ 7). rewrite Z.pow2_bits_eqb by lia.
    destruct (Z.eqb_spec 7 i) as [<-|]; [|by rewrite andb_false_r].
    rewrite andb_true_r. apply Z.testbit_false; [lia|]. by rewrite Z.div_small by lia. }
  simpl. unfold check_last_byte. simpl.
  rewrite (proj2 (Z.ltb_ge _ _)) by (len_simpl; lia). done.
Qed.

Lemma read_length_der pre body rest :
  len body < 2 ^ 32 ->
  ptls_asn1_read_length (pre ++ der_length (len body) ++ body ++ rest) (len pre) 0
  = Some (mkLength (len body) false (len pre + len (der_length (len body)) + len body)
            (len pre + len (der_length (len body))) 0).
Proof.
  intros Hn. unfold der_length. pose proof (len_nonneg body).
  destruct (Z.ltb_spec (len body) 0x80); [by rewrite read_length_short|].
  repeat match goal with |- context [?x <? ?y] => destruct (Z.ltb_spec x y) end.
  1: rewrite (read_length_long 1) by (done || lia).
  2: rewrite (read_length_long 2) by (done || lia).
  3: rewrite (read_length_long 3) by (done || lia).
  4: rewrite (read_length_long 4) by (done || lia).
  all: rewrite !len_cons; unfold len; rewrite be_encode_length; f_equal; f_equal; lia.
Qed.

Lemma len_tlv tag body : len (tlv tag body) = 1 + len (der_length (len body)) + len body.
Proof. unfold tlv. rewrite len_cons, len_app. lia. Qed.

(** The header of an element inside an array. *)
Lemma get_expected_tlv pre tag body rest l0 :
  len body < 2 ^ 32 ->
  ptls_asn1_get_expected_type_and_length (pre ++ tlv tag body ++ rest) (len pre) tag 0 l0
  = Some (mkLength (len body) false (len pre + len (tlv tag body))
            (len pre + 1 + len (der_length (len body))) 0).
Proof.
  intros Hl. unfold ptls_asn1_get_expected_type_and_length. pose proof (len_nonneg rest).
  pose proof (len_nonneg body). pose proof (len_nonneg (der_length (len body))).
  rewrite (proj2 (Z.leb_gt _ _)) by (rewrite !len_app, len_tlv; lia).
  unfold tlv at 1 2. cbn [app]. rewrite rd_app. cbn [mbind option_bind]. rewrite Z.eqb_refl. cbn [negb].
  replace (pre ++ tag :: (der_length (len body) ++ body) ++ rest)
    with ((pre ++ [tag]) ++ der_length (len body) ++ body ++ rest) by (by rewrite <- !app_assoc).
  replace (len pre + 1) with (len (pre ++ [tag])) by (by rewrite len_app).
  rewrite read_length_der by done. cbn [mbind option_bind indefinite].
  rewrite len_tlv, len_app, len_cons, len_nil. f_equal. f_equal; lia.
Qed.

Lemma read_type_tlv tag body rest :
  Z.land tag 31 <> 31 ->
  ptls_asn1_read_type (tlv tag body ++ rest) 0
  = Some (mkType (Z.land (Z.shiftr tag 5) 1) (Z.land (Z.shiftr tag 6) 3) (Z.land tag 31) 1 0).
Proof.
  intros Ht. unfold ptls_asn1_read_type, tlv. cbn [app]. change (rd (tag :: _) 0) with (Some tag).
  cbn [mbind option_bind]. by rewrite (proj2 (Z.eqb_neq _ _)) by done.
Qed.

Lemma sub_app pre l rest : sub (len pre) (len l) (pre ++ l ++ rest) = l.
Proof. unfold sub. by rewrite drop_len_app, take_len_app. Qed.

Lemma sub_app_end pre l n : n = len l -> sub (len pre) n (pre ++ l) = l.
Proof. intros ->. unfold sub. rewrite drop_len_app, to_nat_len. apply firstn_all. Qed.

(** Induction on trees. *)
Lemma der_tree_ind (P : der -> Prop) :
  (forall tag content, P (Primitive tag content)) ->
  (forall tag children, Forall P children -> P (Constructed tag children)) -> forall t, P t.
Proof.
  intros HP HC. fix IH 1. intros [tag content|tag children]; [apply HP|]. apply HC.
  induction children as [|c cs IHc]; constructor; [apply IH|apply IHc].
Qed.

Lemma der_encode_cons t : exists b l, der_encode t = b :: l.
Proof. destruct t; by eexists _, _. Qed.

(** The loop over the children. *)
Lemma content_loop_children rec children :
  Forall (λ c, forall rest, rec (der_encode c ++ rest) 0 = Some (len (der_encode c), 0)) children ->
  forall fuel pre rest,
  let body := concat (map der_encode children) in
  (length children <= fuel)%nat ->
  content_loop rec fuel (pre ++ body ++ rest) false (len pre + len body) (len pre) 0
  = Some (len pre + len body, 0).
Proof.
  induction 1 as [|c cs Hc Hcs IH]; intros fuel pre rest body Hf; subst body; cbn [map concat] in *.
  - rewrite len_nil, Z.add_0_r. destruct fuel; cbn [content_loop]; by rewrite Z.ltb_irrefl.
  - destruct fuel as [|fuel]; simpl in Hf; [lia|]. cbn [content_loop].
    pose proof (len_nonneg (concat (map der_encode cs))). rewrite len_app.
    assert (0 < len (der_encode c)).
    { destruct (der_encode_cons c) as (b & l & ->). rewrite len_cons. pose proof (len_nonneg l). lia. }
    rewrite (proj2 (Z.ltb_lt _ _)) by lia. cbn [mbind option_bind].
    replace (len pre + (len (der_encode c) + len (concat (map der_encode cs))) - len pre)
      with (len (der_encode c ++ concat (map der_encode cs))) by (rewrite len_app; lia).
    rewrite sub_app, Hc. cbn [mbind option_bind Z.eqb negb].
    specialize (IH fuel (pre ++ der_encode c) rest ltac:(lia)). rewrite len_app in IH.
    rewrite <- !app_assoc in *. rewrite <- Z.add_assoc in IH. exact IH.
Qed.

Lemma fold_right_Forall {A} (P : A -> Prop) l : fold_right (λ c Q, P c /\ Q) True l <-> Forall P l.
Proof. induction l as [|x l IH]; simpl; [by split|]. rewrite IH, Forall_cons. done. Qed.

Lemma children_le (children : list der) :
  (length children <= length (concat (map der_encode children)))%nat.
Proof.
  induction children as [|c cs IH]; [done|]. cbn [map concat length]. rewrite length_app.
  destruct (der_encode_cons c) as (b & l & ->). simpl. lia.
Qed.

(** One element: what is left is its content, and the validator stops at its end. *)
Lemma validation_tlv tag body log depth level rest :
  level <= PTLS_ASN1_MAX_RECURSION -> Z.land tag 31 <> 31 -> len body < 2 ^ 32 ->
  let pre := tag :: der_length (len body) in
  ptls_asn1_validation_recursive (S depth) log (tlv tag body ++ rest) 0 level
  = if Z.land (Z.shiftr tag 5) 1 =? 0 then Some (len (tlv tag body), 0)
    else content_loop (λ b e, ptls_asn1_validation_recursive depth log b e (level + 1))
           (length (tlv tag body ++ rest)) (pre ++ body ++ rest) false (len pre + len body) (len pre) 0.
Proof.
  intros Hlev Ht Hlen pre. cbn [ptls_asn1_validation_recursive].
  rewrite (proj2 (Z.ltb_ge _ _)) by lia. rewrite read_type_tlv by done.
  cbn [mbind option_bind type_end type_err].
  pose proof (read_length_der [tag] body rest Hlen) as Hr.
  assert (tlv tag body ++ rest = [tag] ++ der_length (len body) ++ body ++ rest) as E
    by (unfold tlv; cbn [app]; by rewrite <- app_assoc).
  change (len [tag]) with 1 in Hr. rewrite E, Hr.
  cbn [mbind option_bind last_byte length_end length_err structure_bit indefinite].
  pose proof (len_nonneg rest). pose proof (len_nonneg body).
  pose proof (len_nonneg (der_length (len body))).
  rewrite (proj2 (Z.leb_le _ _)) by (len_simpl; lia).
  destruct (_ =? 0); cbn [negb].
  - rewrite dump_content_safe by (len_simpl; lia). cbn [mbind option_bind]. by rewrite len_tlv.
  - unfold pre. rewrite len_cons. done.
Qed.

(** The validator accepts every DER element and stops at its end. *)
Lemma validation_der t log depth level rest :
  der_ok level t -> PTLS_ASN1_MAX_RECURSION + 1 - level <= Z.of_nat depth ->
  ptls_asn1_validation_recursive depth log (der_encode t ++ rest) 0 level = Some (len (der_encode t), 0).
Proof.
  revert depth level rest.
  induction t as [tag body|tag children IH] using der_tree_ind; intros depth level rest Hok Hd.
  - destruct Hok as (Hlev & Ht & Hs & Hlen). destruct depth; [lia|].
    cbn [der_encode]. rewrite validation_tlv by done. by rewrite Hs.
  - destruct Hok as (Hlev & Ht & Hs & Hlen & Hch). destruct depth; [lia|].
    cbn [der_encode]. rewrite validation_tlv by done. rewrite Hs. cbn [Z.eqb].
    rewrite content_loop_children.
    + rewrite len_tlv, len_cons. done.
    + apply fold_right_Forall in Hch. apply Forall_forall. intros c Hc rest'.
      rewrite Forall_forall in IH, Hch. apply IH; [done|by apply Hch|lia].
    + unfold tlv. cbn [app length]. rewrite !length_app. pose proof (children_le children). lia.
Qed.

(** Every DER element (one-octet tags, definite lengths below 2^32, at most 32 levels of nesting)
    passes BER validation. *)
Theorem asn1_validation_der t log :
  der_ok 0 t -> ptls_asn1_validation log (der_encode t) = Some 0.
Proof.
  intros Hok. unfold ptls_asn1_validation. rewrite <- (app_nil_r (der_encode t)).
  rewrite validation_der by (done || vm_compute; discriminate). cbn [mbind option_bind].
  by rewrite app_nil_r, Z.ltb_irrefl.
Qed.

(** ** Private keys *)

(** The three slices lie inside the key, the key data at its end. *)
Definition pkey_ok (pkey : ptls_asn1_pkcs8_private_key_t) : Prop :=
  0 <= algorithm_index pkey /\ 0 <= algorithm_length pkey /\
  algorithm_index pkey + algorithm_length pkey <= key_data_index pkey /\
  0 <= parameters_index pkey /\ 0 <= parameters_length pkey /\
  parameters_index pkey + parameters_length pkey <= key_data_index pkey /\
  0 <= key_data_length pkey /\ key_data_index pkey + key_data_length pkey = len (vec pkey).

Lemma rd3_safe bytes i a b c :
  0 <= i -> i + 3 <= len bytes -> exists r, rd3_is bytes i a b c = Some r.
Proof.
  intros Hi Hl. unfold rd3_is. destruct (rd_in bytes i) as (x & -> & _); [lia|].
  destruct (rd_in bytes (i + 1)) as (y & -> & _); [lia|].
  destruct (rd_in bytes (i + 2)) as (z & -> & _); [lia|]. cbn [mbind option_bind].
  destruct (x =? a), (y =? b); by eexists.
Qed.

Lemma pkey_version_safe bytes :
  is_bytes bytes ->
  exists r, pkey_version bytes = Some r /\
    (forall bi last0, r = Ok (bi, last0) -> 0 < bi /\ last0 = len bytes).
Proof.
  intros Hb. unfold pkey_version.
  destruct (get_expected_safe bytes 0 0x30 0 no_length Hb) as (l0 & -> & H0); [lia|].
  cbn [mbind option_bind]. destruct (Z.eqb_spec (length_err l0) 0) as [E|]; cbn [negb];
    [|by eexists; split; [done|]].
  destruct (H0 E) as (? & ? & ? & ? & _). destruct (Z.eqb_spec (len bytes) (last_byte l0)); cbn [negb];
    [|by eexists; split; [done|]].
  destruct (Z.ltb_spec (len bytes) (length_end l0 + 3)); [by eexists; split; [done|]|].
  destruct (rd3_safe bytes (length_end l0) 2 1 0) as [v ->]; [lia|lia|]. cbn [mbind option_bind].
  eexists. split; [done|]. destruct v; intros bi last0 [=]. lia.
Qed.

Lemma pkey_algorithm_safe log bytes bi :
  is_bytes bytes -> 0 < bi ->
  exists r, pkey_algorithm log bytes bi = Some r /\
    (forall pkey bi', r = Ok (pkey, bi') -> vec pkey = bytes /\ 0 <= bi' /\
       0 <= algorithm_index pkey /\ 0 <= algorithm_length pkey /\
       algorithm_index pkey + algorithm_length pkey <= bi' /\
       0 <= parameters_index pkey /\ 0 <= parameters_length pkey /\
       parameters_index pkey + parameters_length pkey <= bi').
Proof.
  intros Hb Hbi. unfold pkey_algorithm.
  destruct (get_expected_safe bytes bi 0x30 0 no_length Hb) as (l1 & -> & H1); [lia|].
  cbn [mbind option_bind]. destruct (Z.eqb_spec (length_err l1) 0) as [E1|]; cbn [negb];
    [|by eexists; split; [done|]].
  destruct (H1 E1) as (? & ? & ? & ? & _).
  destruct (get_expected_safe (sub 0 (last_byte l1) bytes) (length_end l1) 0x06 0 no_length)
    as (lo & -> & Ho); [by apply sub_bytes|lia|].
  cbn [mbind option_bind]. destruct (Z.eqb_spec (length_err lo) 0) as [Eo|]; cbn [negb];
    [|by eexists; split; [done|]].
  destruct (Ho Eo) as (? & ? & ? & Hlast & _). rewrite len_sub in Hlast by lia.
  rewrite dump_content_safe; [|lia|rewrite len_drop; lia]. cbn [mbind option_bind].
  destruct (Z.leb_spec (last_byte l1) (length_end lo + length_ lo)).
  - eexists. split; [done|]. destruct (negb _); intros pkey bi' [= <- <-]. cbn. split; [done|lia].
  - set (param := sub _ _ _). assert (len param = last_byte l1 - (length_end lo + length_ lo)) as Hp
      by (apply len_sub; lia).
    destruct (validation_recursive_safe (validation_depth 2) log param 0 2) as (n & e & -> & Hn & He).
    { by apply sub_bytes. }
    { intros E. rewrite E, len_nil in Hp. lia. }
    { lia. }
    { vm_compute. discriminate. }
    cbn [mbind option_bind]. eexists. split; [done|]. pose proof (u32_range n).
    destruct (negb _); [done|]. destruct (negb _); intros pkey bi' [= <- <-]. cbn. split; [done|lia].
Qed.

(** Decoding a private key never reads outside of the key, and the slices it finds lie inside of
    the key: the algorithm and the parameters before the key data, the key data up to its end. *)
Theorem private_key_slices bytes :
  is_bytes bytes ->
  exists r, ptls_minicrypto_asn1_decode_private_key false bytes = Some r /\
    (forall pkey, r = Ok pkey -> vec pkey = bytes /\ pkey_ok pkey).
Proof.
  intros Hb. unfold ptls_minicrypto_asn1_decode_private_key.
  destruct (pkey_version_safe bytes Hb) as ([[bi last0]|e] & -> & Hv); cbn [mbind option_bind];
    [|by eexists; split; [done|]].
  destruct (Hv bi last0 eq_refl) as [Hbi ->].
  destruct (pkey_algorithm_safe false bytes bi Hb Hbi) as ([[pkey bi']|e] & -> & Ha);
    cbn [mbind option_bind]; [|by eexists; split; [done|]].
  destruct (Ha pkey bi' eq_refl) as (Hvec & ? & ? & ? & ? & ? & ? & ?). unfold pkey_key_data.
  destruct (get_expected_safe (sub 0 (len bytes) bytes) bi' 0x04 0 no_length)
    as (lk & -> & Hk); [by apply sub_bytes|lia|].
  cbn [mbind option_bind]. destruct (Z.eqb_spec (length_err lk) 0) as [Ek|]; cbn [negb];
    [|by eexists; split; [done|]].
  destruct (Hk Ek) as (? & ? & ? & ? & _). cbn [mbind option_bind Z.eqb negb].
  eexists. split; [done|]. destruct (Z.eqb_spec (length_end lk + length_ lk) (len bytes)); [|done].
  intros pkey' [= <-]. unfold pkey_ok. simpl. rewrite Hvec. split; [done|lia].
Qed.

(** The encoding of a key; [params] is absent or one element. *)
Definition pkcs8 (alg : bytes) (params : option der) (key : bytes) : bytes :=
  tlv 0x30 ([2; 1; 0] ++ tlv 0x30 (tlv 0x06 alg ++ from_option der_encode [] params) ++ tlv 0x04 key).

Definition slice_of (pkey : ptls_asn1_pkcs8_private_key_t) (index length : Z) : bytes :=
  sub index length (vec pkey).

Lemma rd3_app pre a b c rest : rd3_is (pre ++ [a; b; c] ++ rest) (len pre) a b c = Some true.
Proof.
  unfold rd3_is. cbn [app]. rewrite rd_app. cbn [mbind option_bind]. rewrite Z.eqb_refl. cbn [negb].
  replace (pre ++ a :: b :: c :: rest) with ((pre ++ [a]) ++ b :: c :: rest) by (by rewrite <- app_assoc).
  replace (len pre + 1) with (len (pre ++ [a])) by (by rewrite len_app). rewrite rd_app.
  cbn [mbind option_bind]. rewrite Z.eqb_refl. cbn [negb].
  replace ((pre ++ [a]) ++ b :: c :: rest) with ((pre ++ [a; b]) ++ c :: rest) by (by rewrite <- !app_assoc).
  replace (len pre + 2) with (len (pre ++ [a; b])) by (by rewrite len_app). rewrite rd_app.
  cbn [mbind option_bind]. by rewrite Z.eqb_refl.
Qed.

(** An element with its header split off. *)
Definition tlv_header (tag : Z) (body : bytes) : bytes := tag :: der_length (len body).

Lemma tlv_split tag body : tlv tag body = tlv_header tag body ++ body.
Proof. reflexivity. Qed.

Lemma len_header tag body : len (tlv_header tag body) = 1 + len (der_length (len body)).
Proof. unfold tlv_header. by rewrite len_cons. Qed.

Lemma get_expected_at bytes i pre tag body rest :
  bytes = pre ++ tlv tag body ++ rest -> i = len pre -> len body < 2 ^ 32 ->
  ptls_asn1_get_expected_type_and_length bytes i tag 0 no_length
  = Some (mkLength (len body) false (len pre + len (tlv tag body)) (len pre + len (tlv_header tag body)) 0).
Proof.
  intros -> -> Hl. rewrite get_expected_tlv by done. rewrite len_header. f_equal. f_equal. lia.
Qed.

Lemma sub_at bytes i n pre l rest : bytes = pre ++ l ++ rest -> i = len pre -> n = len l -> sub i n bytes = l.
Proof. intros -> -> ->. apply sub_app. Qed.

Lemma pkey_version_pkcs8 rest :
  len rest + 3 < 2 ^ 32 ->
  pkey_version (tlv 0x30 ([2; 1; 0] ++ rest))
  = Some (Ok (len (tlv_header 0x30 ([2; 1; 0] ++ rest)) + 3, len (tlv 0x30 ([2; 1; 0] ++ rest)))).
Proof.
  intros Hl. unfold pkey_version. pose proof (len_nonneg rest).
  rewrite (get_expected_at _ 0 [] 0x30 ([2; 1; 0] ++ rest) []);
    [|by rewrite app_nil_r|done|rewrite len_app; change (len [2; 1; 0]) with 3; lia].
  cbn [mbind option_bind length_err last_byte length_end]. change (len []) with 0.
  rewrite !Z.add_0_l. cbn [Z.eqb negb]. rewrite Z.eqb_refl. cbn [negb].
  rewrite (proj2 (Z.ltb_ge _ _)).
  - rewrite tlv_split at 1. rewrite rd3_app. done.
  - rewrite tlv_split, len_app, (len_app [2; 1; 0]). change (len [2; 1; 0]) with 3. lia.
Qed.

Lemma pkey_algorithm_pkcs8 log all pre alg params rest :
  len (tlv 0x06 alg ++ from_option der_encode [] params) < 2 ^ 32 ->
  (forall t, params = Some t -> der_ok 2 t) ->
  all = pre ++ tlv 0x30 (tlv 0x06 alg ++ from_option der_encode [] params) ++ rest ->
  exists ai al pi pl,
    pkey_algorithm log all (len pre)
    = Some (Ok (mkPkey all ai al pi pl 0 0,
                len pre + len (tlv 0x30 (tlv 0x06 alg ++ from_option der_encode [] params)))) /\
    sub ai al all = alg /\ sub pi pl all = from_option der_encode [] params.
Proof.
  intros Hl Hp Hall. set (P := from_option der_encode [] params) in *.
  pose proof (len_nonneg P). pose proof (len_nonneg alg). pose proof (len_nonneg rest).
  pose proof (len_nonneg (der_length (len alg))).
  assert (len (tlv 0x06 alg) + len P < 2 ^ 32) as Hl' by (by rewrite <- len_app).
  rewrite len_tlv in Hl'.
  unfold pkey_algorithm. rewrite (get_expected_at _ _ pre 0x30 (tlv 0x06 alg ++ P) rest) by done.
  cbn [mbind option_bind length_err last_byte length_end Z.eqb negb].
  set (h1 := tlv_header 0x30 (tlv 0x06 alg ++ P)).
  assert (tlv 0x30 (tlv 0x06 alg ++ P) = h1 ++ tlv 0x06 alg ++ P) as Ht1 by reflexivity.
  assert (all = (pre ++ h1 ++ tlv_header 0x06 alg) ++ alg ++ P ++ rest) as Halg
    by (rewrite Hall, Ht1, (tlv_split 0x06); by rewrite <- !app_assoc).
  assert (all = (pre ++ h1 ++ tlv 0x06 alg) ++ P ++ rest) as Hpar
    by (rewrite Hall, Ht1; by rewrite <- !app_assoc).
  rewrite (sub_at all 0 _ [] (pre ++ tlv 0x30 (tlv 0x06 alg ++ P)) rest);
    [|rewrite Hall; by rewrite <- app_assoc|done|by rewrite len_app].
  rewrite (get_expected_at _ _ (pre ++ h1) 0x06 alg P);
    [|rewrite Ht1; by rewrite <- !app_assoc|by rewrite len_app|lia].
  cbn [mbind option_bind length_err last_byte length_end length_ Z.eqb negb].
  rewrite dump_content_safe; [|lia|].
  2:{ rewrite len_drop, Halg, !len_app. pose proof (len_nonneg pre). pose proof (len_nonneg h1).
      pose proof (len_nonneg (tlv_header 0x06 alg)). lia. }
  cbn [mbind option_bind].
  assert (len (pre ++ h1) + len (tlv_header 0x06 alg) + len alg = len (pre ++ h1 ++ tlv 0x06 alg)) as Hbi
    by (rewrite (tlv_split 0x06), !len_app; lia).
  assert (len pre + len (tlv 0x30 (tlv 0x06 alg ++ P)) = len (pre ++ h1 ++ tlv 0x06 alg) + len P) as Hlast
    by (rewrite Ht1, !len_app; lia).
  rewrite Hbi, Hlast. subst P. destruct params as [t|]; cbn [from_option] in *.
  - destruct (der_encode_cons t) as (b & l & Eb).
    rewrite (proj2 (Z.leb_gt _ _)) by (rewrite Eb, len_cons; pose proof (len_nonneg l); lia).
    rewrite (sub_at all _ _ (pre ++ h1 ++ tlv 0x06 alg) (der_encode t) rest) by (done || lia).
    pose proof (validation_der t log (validation_depth 2) 2 [] (Hp t eq_refl)) as Hv.
    rewrite app_nil_r in Hv. rewrite Hv by (vm_compute; discriminate). cbn [mbind option_bind Z.eqb negb].
    rewrite u32_small by lia. rewrite Z.eqb_refl. cbn [negb].
    eexists _, _, _, _. split; [done|]. split; [eapply sub_at; [exact Halg| |done]|].
    + rewrite !len_app. lia.
    + eapply sub_at; done.
  - rewrite len_nil, Z.add_0_r. rewrite (proj2 (Z.leb_le _ _)) by lia. rewrite Z.eqb_refl. cbn [negb].
    eexists _, _, _, _. split; [done|]. split; [|done].
    eapply sub_at; [exact Halg| |done]. rewrite !len_app. lia.
Qed.

(** Decoding the PKCS #8 encoding of a key (version 0, algorithm identifier [alg] with parameters
    [params] or none, key data [key]) succeeds and finds exactly these three parts. *)
Theorem private_key_roundtrip alg params key :
  (forall t, params = Some t -> der_ok 2 t) ->
  len (pkcs8 alg params key) < 2 ^ 32 ->
  exists pkey,
    ptls_minicrypto_asn1_decode_private_key false (pkcs8 alg params key) = Some (Ok pkey) /\
    slice_of pkey (algorithm_index pkey) (algorithm_length pkey) = alg /\
    slice_of pkey (parameters_index pkey) (parameters_length pkey) = from_option der_encode [] params /\
    slice_of pkey (key_data_index pkey) (key_data_length pkey) = key.
Proof.
  intros Hp Hl. unfold ptls_minicrypto_asn1_decode_private_key.
  set (A := tlv 0x06 alg ++ from_option der_encode [] params).
  set (all := pkcs8 alg params key) in *.
  set (h := tlv_header 0x30 ([2; 1; 0] ++ tlv 0x30 A ++ tlv 0x04 key)).
  assert (all = (h ++ [2; 1; 0]) ++ tlv 0x30 A ++ tlv 0x04 key) as E1
    by (unfold all, pkcs8; fold A; rewrite tlv_split; by rewrite <- app_assoc).
  assert (len all = len h + 3 + len (tlv 0x30 A) + len (tlv 0x04 key)) as El
    by (rewrite E1, !len_app; change (len [2; 1; 0]) with 3; lia).
  pose proof (len_nonneg h). pose proof (len_nonneg A). pose proof (len_nonneg key).
  pose proof (len_tlv 0x30 A). pose proof (len_tlv 0x04 key).
  pose proof (len_nonneg (der_length (len A))). pose proof (len_nonneg (der_length (len key))).
  assert (pkey_version all = Some (Ok (len h + 3, len all))) as ->
    by (apply (pkey_version_pkcs8 (tlv 0x30 A ++ tlv 0x04 key)); rewrite (len_app (tlv 0x30 A)); lia).
  cbn [mbind option_bind].
  destruct (pkey_algorithm_pkcs8 false all (h ++ [2; 1; 0]) alg params (tlv 0x04 key))
    as (ai & al & pi & pl & Ea & Hai & Hpi); [fold A; lia|done|exact E1|]. fold A in Ea.
  replace (len (h ++ [2; 1; 0])) with (len h + 3) in Ea by (by rewrite len_app).
  rewrite Ea. cbn [mbind option_bind]. unfold pkey_key_data.
  rewrite (sub_app_end [] all) by done.
  rewrite (get_expected_at _ _ ((h ++ [2; 1; 0]) ++ tlv 0x30 A) 0x04 key []);
    [|rewrite app_nil_r, E1; by rewrite <- !app_assoc|rewrite !len_app; change (len [2; 1; 0]) with 3; lia|lia].
  cbn [mbind option_bind length_err last_byte length_end length_ Z.eqb negb].
  rewrite (proj2 (Z.eqb_eq _ _)).
  2:{ rewrite El, (tlv_split 0x04), !len_app. change (len [2; 1; 0]) with 3. lia. }
  cbn [negb]. eexists. split; [done|]. unfold slice_of. cbn. split; [done|]. split; [done|].
  eapply (sub_at _ _ _ (((h ++ [2; 1; 0]) ++ tlv 0x30 A) ++ tlv_header 0x04 key) key []);
    [|by rewrite (len_app (_ ++ tlv 0x30 A))|done].
  rewrite E1, (tlv_split 0x04), app_nil_r. by rewrite <- !app_assoc.
Qed.

(** A key whose octet string announces 32 bytes of private key but ends before them, on the
    expected curve: the decoding error is dropped, and the signer is initialised from a NULL
    pointer (no result of the model).  One such key, in a PKCS #8 file that decodes without an
    error. *)
Theorem truncated_ecdsa_key_null :
  let params := Primitive 0x06 ptls_asn1_curve_secp256r1 in
  let key := tlv 0x30 ([2; 1; 1] ++ [0x04; 0x20] ++ [1; 2; 3]) in
  exists pkey,
    ptls_minicrypto_asn1_decode_private_key false (pkcs8 ptls_asn1_algorithm_ecdsa (Some params) key)
    = Some (Ok pkey) /\
    (exists err, ptls_asn1_get_expected_type_and_length (drop 2 key) 3 0x04 0 no_length = Some err /\
       length_err err = PTLS_ERROR_BER_EXCESSIVE_LENGTH) /\
    ptls_set_ecdsa_private_key true false pkey = None.
Proof. eexists. split; [vm_compute; reflexivity|]. split; [eexists; by split|]. vm_compute. reflexivity. Qed.

(** ** Witnesses *)

Definition test_der : der := Constructed 0x30 [Primitive 0x02 [5]; Constructed 0x31 [Primitive 0x0c (str "zpico")]].

Lemma test_der_ok level : level <= 30 -> der_ok level test_der.
Proof.
  intros Hl. cbn -[Z.land Z.shiftr len Z.pow Z.le]. unfold PTLS_ASN1_MAX_RECURSION.
  repeat split; try lia; try (vm_compute; congruence).
Qed.

Lemma asn1_validation_der_witness : ptls_asn1_validation true (der_encode test_der) = Some 0.
Proof. apply (asn1_validation_der test_der true). apply test_der_ok. lia. Defined.

Lemma asn1_validation_safe_witness :
  exists e, ptls_asn1_validation false [0x30; 0x84; 0; 0; 0] = Some e /\
    (e = 0 -> ptls_asn1_validation_recursive (validation_depth 0) false [0x30; 0x84; 0; 0; 0] 0 0
              = Some (len [0x30; 0x84; 0; 0; 0], 0)).
Proof.
  apply (asn1_validation_safe false [0x30; 0x84; 0; 0; 0]); [|discriminate].
  apply (bool_decide_unpack _). vm_compute. exact I.
Defined.

Lemma private_key_slices_witness :
  exists r, ptls_minicrypto_asn1_decode_private_key false (pkcs8 [1; 2] (Some test_der) [3; 4; 5]) = Some r /\
    (forall pkey, r = Ok pkey -> vec pkey = pkcs8 [1; 2] (Some test_der) [3; 4; 5] /\ pkey_ok pkey).
Proof. apply private_key_slices. apply (bool_decide_unpack _). vm_compute. exact I. Defined.

Lemma private_key_roundtrip_witness :
  exists pkey,
    ptls_minicrypto_asn1_decode_private_key false (pkcs8 [1; 2] (Some test_der) [3; 4; 5]) = Some (Ok pkey) /\
    slice_of pkey (algorithm_index pkey) (algorithm_length pkey) = [1; 2] /\
    slice_of pkey (parameters_index pkey) (parameters_length pkey) = der_encode test_der /\
    slice_of pkey (key_data_index pkey) (key_data_length pkey) = [3; 4; 5].
Proof.
  apply (private_key_roundtrip [1; 2] (Some test_der) [3; 4; 5]).
  - intros t [= <-]. apply test_der_ok. lia.
  - vm_compute. reflexivity.
Defined.
