(* ===== verification/Crypto.v ===== *)
(** * Crypto: hashes, HMAC, HKDF, the TLS 1.2 PRF, AEAD contexts ([lib/picotls.c])

    The primitives themselves belong to the crypto backends, which are called through the callbacks
    of the algorithm objects.  An algorithm object is a record whose function fields stand for what
    the callbacks compute; [hash_ok] and [aead_ok] state what the headers document of them.  An
    algorithm is identified by the address of its object ([hash_id], [aead_id]), which is what the
    code compares. *)

From S2P Require Import Prelude Constants Wire Buffer.

(** ** Hash algorithms *)

(* src include/zpicotls.h:633-654 ptls_hash_algorithm_t *)
Record ptls_hash_algorithm_t := mkHash {
  hash_id : Z;
  block_size : Z;
  digest_size : Z;
  create_ok : bool;              (* whether the constructor succeeds *)
  digest : bytes -> bytes;
  empty_digest : bytes;
}.

(** A hash context is the data fed so far. *)
Abbreviation ptls_hash_context_t := bytes.

(* src include/zpicotls.h:597-610 ptls_hash_final_mode_t *)
Inductive ptls_hash_final_mode_t :=
| PTLS_HASH_FINAL_MODE_FREE
| PTLS_HASH_FINAL_MODE_RESET
| PTLS_HASH_FINAL_MODE_SNAPSHOT.

Definition hash_create (a : ptls_hash_algorithm_t) : option ptls_hash_context_t :=
  if create_ok a then Some [] else None.

Record hash_ok (a : ptls_hash_algorithm_t) : Prop := {
  digest_len : forall m, len (digest a m) = digest_size a;
  digest_bytes : forall m, is_bytes (digest a m);
  digest_size_pos : 0 < digest_size a;
  digest_size_max : digest_size a <= PTLS_MAX_DIGEST_SIZE;
  digest_block : digest_size a <= block_size a;
  empty_digest_spec : empty_digest a = digest a [];
}.

(** ** HMAC *)

(* src lib/picotls.c:6578-6583 st_picotls_hmac_context_t *)
Record st_picotls_hmac_context_t := mkHmac
  { hmac_algo : ptls_hash_algorithm_t; hmac_hash : ptls_hash_context_t; hmac_key : bytes }.

(** [offsetof(struct st_picotls_hmac_context_t, key)]: five pointers. *)
Definition HMAC_CONTEXT_KEY_OFFSET : Z := 40.

(* src lib/picotls.c:6585-6589 hmac_update *)
Definition hmac_update (src : bytes) (ctx : st_picotls_hmac_context_t) : st_picotls_hmac_context_t :=
  mkHmac (hmac_algo ctx) (hmac_hash ctx ++ src) (hmac_key ctx).

Definition xor_pad (pad : Z) (key : bytes) : bytes := (λ b, Z.lxor b pad) <$> key.

(* src lib/picotls.c:6591-6600 hmac_apply_key *)
Definition hmac_apply_key (pad : Z) (ctx : st_picotls_hmac_context_t) : st_picotls_hmac_context_t :=
  let key := xor_pad pad (hmac_key ctx) in
  mkHmac (hmac_algo ctx) (hmac_hash ctx ++ key) (xor_pad pad key).

Definition hmac_reset_hash (ctx : st_picotls_hmac_context_t) : st_picotls_hmac_context_t :=
  mkHmac (hmac_algo ctx) [] (hmac_key ctx).

(** With [md] given: the digest and the context, [None] once freed. *)
(* src lib/picotls.c:6602-6627 hmac_final *)
Definition hmac_final (mode : ptls_hash_final_mode_t) (ctx : st_picotls_hmac_context_t)
    : bytes * option st_picotls_hmac_context_t :=
  let a := hmac_algo ctx in
  let md := digest a (hmac_hash ctx) in
  let ctx := hmac_reset_hash ctx in
  let ctx := hmac_apply_key 0x5c ctx in
  let ctx := hmac_update md ctx in
  let md := digest a (hmac_hash ctx) in
  match mode with
  | PTLS_HASH_FINAL_MODE_FREE => (md, None)
  | PTLS_HASH_FINAL_MODE_RESET => (md, Some (hmac_apply_key 0x36 (hmac_reset_hash ctx)))
  | PTLS_HASH_FINAL_MODE_SNAPSHOT => (md, Some ctx)
  end.

(* src lib/picotls.c:6629-6638 ptls_calc_hash *)
Definition ptls_calc_hash (a : ptls_hash_algorithm_t) (src : bytes) : result bytes :=
  match hash_create a with
  | None => Err PTLS_ERROR_NO_MEMORY
  | Some ctx => Ok (digest a (ctx ++ src))
  end.

Section Hkdf.
Context `{Allocator}.

(** [Ok None] is a NULL context. *)
(* src lib/picotls.c:6640-6660 ptls_hmac_create *)
Definition ptls_hmac_create (a : ptls_hash_algorithm_t) (key : bytes)
    : result (option st_picotls_hmac_context_t) :=
  _ ← guard_err (len key <=? block_size a) ABORTED;
  match malloc (HMAC_CONTEXT_KEY_OFFSET + block_size a) with
  | None => Ok None
  | Some _ =>
      match hash_create a with
      | None => Ok None
      | Some h =>
          let key := mem_write (replicate (Z.to_nat (block_size a)) 0) 0 key in
          Ok (Some (hmac_apply_key 0x36 (mkHmac a h key)))
      end
  end.

(** The context, or the error every caller returns for a NULL one. *)
Definition hmac_new (a : ptls_hash_algorithm_t) (key : bytes) : result st_picotls_hmac_context_t :=
  c ← ptls_hmac_create a key;
  match c with None => Err PTLS_ERROR_NO_MEMORY | Some c => Ok c end.

Definition zeroes_of_max_digest_size : bytes := replicate (Z.to_nat PTLS_MAX_DIGEST_SIZE) 0.

(* src lib/picotls.c:6662-6674 ptls_hkdf_extract *)
Definition ptls_hkdf_extract (a : ptls_hash_algorithm_t) (salt ikm : bytes) : result bytes :=
  let salt := if len salt =? 0 then take (Z.to_nat (digest_size a)) zeroes_of_max_digest_size
              else salt in
  hash ← hmac_new a salt;
  Ok (hmac_final PTLS_HASH_FINAL_MODE_FREE (hmac_update ikm hash)).1.

(** The loop; [hmac] is NULL in the first round. *)
(* src lib/picotls.c:6682-6698 digest *)
Fixpoint hkdf_expand_loop (fuel : nat) (a : ptls_hash_algorithm_t) (outlen : Z) (prk info : bytes)
    (i : Z) (hmac : option st_picotls_hmac_context_t) (dig output : bytes) : result bytes :=
  if i * digest_size a <? outlen then
    match fuel with
    | O => Err OUT_OF_FUEL
    | S fuel =>
        hm ← match hmac with
             | None => hmac_new a prk
             | Some hm => Ok (hmac_update dig hm)
             end;
        let hm := hmac_update [u8 (i + 1)] (hmac_update info hm) in
        let '(dig, hmac) := hmac_final PTLS_HASH_FINAL_MODE_RESET hm in
        let off_start := i * digest_size a in
        let off_end := Z.min (off_start + digest_size a) outlen in
        hkdf_expand_loop fuel a outlen prk info (i + 1) hmac dig
          (output ++ take (Z.to_nat (off_end - off_start)) dig)
    end
  else Ok output.

(* src lib/picotls.c:6676-6706 ptls_hkdf_expand *)
Definition ptls_hkdf_expand (a : ptls_hash_algorithm_t) (outlen : Z) (prk info : bytes) : result bytes :=
  hkdf_expand_loop (Z.to_nat outlen) a outlen prk info 0 None [] [].

(** A buffer over an array of [n] bytes on the stack; its address is not NULL. *)
Definition smallbuf (n : nat) : ptls_buffer_t := ptls_buffer_init_tx 64 (replicate n 0).

(* src include/zpicotls.h:229 PTLS_HKDF_EXPAND_LABEL_PREFIX *)
Definition PTLS_HKDF_EXPAND_LABEL_PREFIX : bytes := str "tls13 ".

(** [label_prefix] is [None] for NULL. *)
(* src lib/picotls.c:6708-6731 ptls_hkdf_expand_label *)
Definition ptls_hkdf_expand_label (a : ptls_hash_algorithm_t) (outlen : Z) (secret label hash_value : bytes)
    (label_prefix : option bytes) : result bytes :=
  let '(r, hkdf_label) :=
    (_ ← ptls_buffer_push16 (u16 outlen);
     _ ← ptls_buffer_push_block 1
           (_ ← ptls_buffer_pushv (default PTLS_HKDF_EXPAND_LABEL_PREFIX label_prefix);
            ptls_buffer_pushv label);
     ptls_buffer_push_block 1 (ptls_buffer_pushv hash_value)) (smallbuf 80) in
  _ ← r;
  ptls_hkdf_expand a outlen secret (contents hkdf_label).

(** The loop of the PRF: [An] is A(i). *)
(* src lib/picotls.c:6749-6767 An *)
Fixpoint phash_loop (fuel : nat) (a : ptls_hash_algorithm_t) (outlen : Z) (label seed : bytes)
    (hmac : st_picotls_hmac_context_t) (An output : bytes) : result bytes :=
  match fuel with
  | O => Err OUT_OF_FUEL
  | S fuel =>
      let hmac := hmac_update seed (hmac_update label (hmac_update An hmac)) in
      if outlen - len output <=? digest_size a then
        let '(md, _) := hmac_final PTLS_HASH_FINAL_MODE_FREE hmac in
        Ok (output ++ take (Z.to_nat (outlen - len output)) md)
      else
        match hmac_final PTLS_HASH_FINAL_MODE_RESET hmac with
        | (md, Some hmac) =>
            match hmac_final PTLS_HASH_FINAL_MODE_RESET (hmac_update An hmac) with
            | (An, Some hmac) => phash_loop fuel a outlen label seed hmac An (output ++ md)
            | (_, None) => Err ABORTED
            end
        | (_, None) => Err ABORTED
        end
  end.

(** [label] is empty for NULL. *)
(* src lib/picotls.c:6733-6772 ptls_tls12_phash *)
Definition ptls_tls12_phash (a : ptls_hash_algorithm_t) (outlen : Z) (secret label seed : bytes)
    : result bytes :=
  hmac ← hmac_new a secret;
  match hmac_final PTLS_HASH_FINAL_MODE_RESET (hmac_update seed (hmac_update label hmac)) with
  | (An, Some hmac) => phash_loop (S (Z.to_nat outlen)) a outlen label seed hmac An []
  | (_, None) => Err ABORTED
  end.

End Hkdf.

(** ** AEAD *)

(* src include/zpicotls.h:531-592 ptls_aead_algorithm_t *)
Record ptls_aead_algorithm_t := mkAead {
  aead_id : Z;
  key_size : Z;
  iv_size : Z;
  tag_size : Z;
  tls12_fixed_iv_size : Z;
  tls12_record_iv_size : Z;
  aead_align_bits : Z;
  context_size : Z;
  setup_ok : bool;                                    (* whether [setup_crypto] succeeds *)
  seal : bytes -> bytes -> bytes -> bytes -> bytes;   (* key, nonce, additional data, plaintext *)
  open : bytes -> bytes -> bytes -> bytes -> option bytes;
}.

Record aead_ok (a : ptls_aead_algorithm_t) : Prop := {
  seal_len : forall k iv aad p, len (seal a k iv aad p) = len p + tag_size a;
  seal_bytes : forall k iv aad p, is_bytes p -> is_bytes (seal a k iv aad p);
  open_seal : forall k iv aad p, open a k iv aad (seal a k iv aad p) = Some p;
  open_len : forall k iv aad c p, open a k iv aad c = Some p -> len c = len p + tag_size a;
  tag_size_range : 0 <= tag_size a <= 255;
  align_range : 0 <= aead_align_bits a < 64;
  iv_size_range : 8 <= iv_size a <= PTLS_MAX_IV_SIZE;
  record_iv_range : tls12_record_iv_size a = 0 \/ tls12_record_iv_size a = 8;
}.

(* src include/zpicotls.h:469-526 ptls_aead_context_t *)
Record ptls_aead_context_t := mkAeadCtx
  { aead_algo : ptls_aead_algorithm_t; aead_is_enc : bool; aead_key : bytes; static_iv : bytes }.

(* src include/zpicotls.h:656-673 ptls_cipher_suite_t *)
Record ptls_cipher_suite_t := mkSuite
  { cs_id : Z; cs_aead : ptls_aead_algorithm_t; cs_hash : ptls_hash_algorithm_t }.

(** The first bytes of the IV are copied, the last eight xor-ed with the sequence number. *)
(* src lib/picotls.c:6852-6866 ptls_aead__build_iv *)
Definition ptls_aead__build_iv (iv_size : Z) (static_iv : bytes) (seq : Z) : bytes :=
  let n := Z.to_nat (iv_size - 8) in
  take n static_iv ++
  zip_with (λ s i, Z.lxor s (u8 (Z.shiftr seq i))) (take 8 (drop n static_iv))
    [56; 48; 40; 32; 24; 16; 8; 0].

Definition aead_nonce (ctx : ptls_aead_context_t) (seq : Z) : bytes :=
  ptls_aead__build_iv (iv_size (aead_algo ctx)) (static_iv ctx) seq.

(** What is written to [output]. *)
(* src include/zpicotls.h:2248-2253 ptls_aead_encrypt *)
Definition ptls_aead_encrypt (ctx : ptls_aead_context_t) (input : bytes) (seq : Z) (aad : bytes) : bytes :=
  seal (aead_algo ctx) (aead_key ctx) (aead_nonce ctx seq) aad input.

(* src include/zpicotls.h:2261-2265 ptls_aead_encrypt_v *)
Definition ptls_aead_encrypt_v (ctx : ptls_aead_context_t) (input : list bytes) (seq : Z) (aad : bytes)
    : bytes :=
  ptls_aead_encrypt ctx (concat input) seq aad.

(** [None] for SIZE_MAX. *)
(* src include/zpicotls.h:2341-2345 ptls_aead_decrypt *)
Definition ptls_aead_decrypt (ctx : ptls_aead_context_t) (input : bytes) (seq : Z) (aad : bytes)
    : option bytes :=
  open (aead_algo ctx) (aead_key ctx) (aead_nonce ctx seq) aad input.

(* src lib/picotls.c:6841-6850 ptls_aead_xor_iv *)
Definition ptls_aead_xor_iv (ctx : ptls_aead_context_t) (b : bytes) : ptls_aead_context_t :=
  let iv := zip_with Z.lxor (take (length b) (static_iv ctx)) b ++ drop (length b) (static_iv ctx) in
  mkAeadCtx (aead_algo ctx) (aead_is_enc ctx) (aead_key ctx) iv.

Section AeadNew.
Context `{Allocator}.

(** [None] for NULL. *)
(* src lib/picotls.c:6818-6833 ptls_aead_new_direct *)
Definition ptls_aead_new_direct (aead : ptls_aead_algorithm_t) (is_enc : bool) (key iv : bytes)
    : option ptls_aead_context_t :=
  match malloc (context_size aead) with
  | None => None
  | Some _ => if setup_ok aead then Some (mkAeadCtx aead is_enc key iv) else None
  end.

(* src lib/picotls.c:1675-1680 get_traffic_key *)
Definition get_traffic_key (a : ptls_hash_algorithm_t) (key_size : Z) (is_iv : bool)
    (secret hash_value : bytes) (label_prefix : option bytes) : result bytes :=
  ptls_hkdf_expand_label a key_size (take (Z.to_nat (digest_size a)) secret)
    (if is_iv then str "iv" else str "key") hash_value label_prefix.

(* src lib/picotls.c:1682-1694 get_traffic_keys *)
Definition get_traffic_keys (aead : ptls_aead_algorithm_t) (hash : ptls_hash_algorithm_t)
    (secret hash_value : bytes) (label_prefix : option bytes) : result (bytes * bytes) :=
  key ← get_traffic_key hash (key_size aead) false secret hash_value label_prefix;
  iv ← get_traffic_key hash (iv_size aead) true secret hash_value label_prefix;
  Ok (key, iv).

(** NULL on any error. *)
(* src lib/picotls.c:6794-6810 new_aead *)
Definition new_aead (aead : ptls_aead_algorithm_t) (hash : ptls_hash_algorithm_t) (is_enc : bool)
    (secret hash_value : bytes) (label_prefix : option bytes) : option ptls_aead_context_t :=
  match get_traffic_keys aead hash secret hash_value label_prefix with
  | Err _ => None
  | Ok (key, iv) => ptls_aead_new_direct aead is_enc key iv
  end.

(* src lib/picotls.c:6812-6816 ptls_aead_new *)
Definition ptls_aead_new (aead : ptls_aead_algorithm_t) (hash : ptls_hash_algorithm_t) (is_enc : bool)
    (secret : bytes) (label_prefix : option bytes) : option ptls_aead_context_t :=
  new_aead aead hash is_enc secret [] label_prefix.

End AeadNew.

(** ** Constant-time comparison *)

(* src lib/picotls.c:6881-6882 len *)
Fixpoint mem_equal_loop (x y : bytes) (t : Z) : Z :=
  match x, y with
  | a :: x, b :: y => mem_equal_loop x y (Z.lor t (Z.lxor a b))
  | _, _ => t
  end.

(** On two arrays of the same length. *)
(* src lib/picotls.c:6876-6885 mem_equal *)
Definition mem_equal (x y : bytes) : bool := mem_equal_loop x y 0 =? 0.

(** ** Reference definitions: RFC 2104, RFC 5869, RFC 8446 section 7.1, RFC 5246 section 5 *)

(** The key padded with zeros to the block size. *)
Definition padded_key (a : ptls_hash_algorithm_t) (key : bytes) : bytes :=
  key ++ replicate (Z.to_nat (block_size a) - length key) 0.

Definition HMAC (a : ptls_hash_algorithm_t) (key m : bytes) : bytes :=
  digest a (xor_pad 0x5c (padded_key a key) ++ digest a (xor_pad 0x36 (padded_key a key) ++ m)).

Definition HKDF_Extract (a : ptls_hash_algorithm_t) (salt ikm : bytes) : bytes :=
  HMAC a (if len salt =? 0 then replicate (Z.to_nat (digest_size a)) 0 else salt) ikm.

(** T(n) *)
Fixpoint HKDF_T (a : ptls_hash_algorithm_t) (prk info : bytes) (n : nat) : bytes :=
  match n with
  | O => []
  | S m => HMAC a prk (HKDF_T a prk info m ++ info ++ [u8 (Z.of_nat n)])
  end.

(** f(1) ++ ... ++ f(n) *)
Fixpoint blocks (f : nat -> bytes) (n : nat) : bytes :=
  match n with O => [] | S m => blocks f m ++ f (S m) end.

Definition ceil_div (x y : Z) : nat := Z.to_nat ((x + y - 1) / y).

Definition HKDF_Expand (a : ptls_hash_algorithm_t) (prk info : bytes) (outlen : Z) : bytes :=
  take (Z.to_nat outlen) (blocks (HKDF_T a prk info) (ceil_div outlen (digest_size a))).

Definition HkdfLabel (outlen : Z) (prefix label context : bytes) : bytes :=
  be_encode 2 outlen ++ be_encode 1 (len (prefix ++ label)) ++ (prefix ++ label) ++
  be_encode 1 (len context) ++ context.

Definition HKDF_Expand_Label (a : ptls_hash_algorithm_t) (secret label context : bytes) (outlen : Z) : bytes :=
  HKDF_Expand a secret (HkdfLabel outlen PTLS_HKDF_EXPAND_LABEL_PREFIX label context) outlen.

(** A(n) *)
Fixpoint PRF_A (a : ptls_hash_algorithm_t) (secret seed : bytes) (n : nat) : bytes :=
  match n with O => seed | S m => HMAC a secret (PRF_A a secret seed m) end.

Definition P_hash (a : ptls_hash_algorithm_t) (secret seed : bytes) (outlen : Z) : bytes :=
  take (Z.to_nat outlen)
    (blocks (λ i, HMAC a secret (PRF_A a secret seed i ++ seed)) (ceil_div outlen (digest_size a))).

(** ** HMAC *)

Lemma xor_pad_twice pad key : xor_pad pad (xor_pad pad key) = key.
Proof.
  unfold xor_pad. rewrite <- list_fmap_compose. rewrite <- (list_fmap_id key) at 2.
  apply list_fmap_ext. intros i x _. simpl. by rewrite Z.lxor_assoc, Z.lxor_nilpotent, Z.lxor_0_r.
Qed.

(** The context of a keyed hash after the message bytes [m]. *)
Definition hmac_at (a : ptls_hash_algorithm_t) (key m : bytes) (c : st_picotls_hmac_context_t) : Prop :=
  c = mkHmac a (xor_pad 0x36 (padded_key a key) ++ m) (padded_key a key).

Lemma hmac_update_at a key m src c : hmac_at a key m c -> hmac_at a key (m ++ src) (hmac_update src c).
Proof. intros ->. unfold hmac_at, hmac_update. simpl. by rewrite app_assoc. Qed.

Lemma hmac_final_at a key m c mode :
  hmac_at a key m c ->
  (hmac_final mode c).1 = HMAC a key m /\
  (mode = PTLS_HASH_FINAL_MODE_RESET -> exists c', (hmac_final mode c).2 = Some c' /\ hmac_at a key [] c').
Proof.
  intros Hc. unfold hmac_at in Hc. subst c. unfold hmac_final, HMAC. simpl. split; [by destruct mode|].
  intros ->. eexists. split; [done|]. unfold hmac_at, hmac_apply_key, hmac_update, hmac_reset_hash. simpl.
  by rewrite !xor_pad_twice, app_nil_r.
Qed.

Section HkdfProofs.
Context `{Allocator}.

Lemma hmac_new_at a key :
  len key <= block_size a ->
  (exists c, hmac_new a key = Ok c /\ hmac_at a key [] c) \/
  hmac_new a key = Err PTLS_ERROR_NO_MEMORY.
Proof.
  intros Hk. unfold hmac_new, ptls_hmac_create. rewrite (proj2 (Z.leb_le _ _)) by done. simpl.
  destruct (malloc _); simpl; [|by right]. unfold hash_create. destruct (create_ok a); simpl; [|by right].
  left. eexists. split; [done|]. unfold hmac_at, hmac_apply_key. simpl. rewrite app_nil_r.
  assert (mem_write (replicate (Z.to_nat (block_size a)) 0) 0 key = padded_key a key) as ->.
  { unfold mem_write, padded_key. simpl. f_equal. rewrite Z.add_0_l, to_nat_len. by rewrite drop_replicate. }
  by rewrite xor_pad_twice.
Qed.

Lemma hkdf_extract_spec a salt ikm :
  hash_ok a -> len salt <= block_size a ->
  ptls_hkdf_extract a salt ikm = Ok (HKDF_Extract a salt ikm) \/
  ptls_hkdf_extract a salt ikm = Err PTLS_ERROR_NO_MEMORY.
Proof.
  intros Ha Hs. unfold ptls_hkdf_extract, HKDF_Extract. pose proof (digest_size_pos a Ha).
  pose proof (digest_size_max a Ha). pose proof (digest_block a Ha).
  replace (take (Z.to_nat (digest_size a)) zeroes_of_max_digest_size)
    with (replicate (Z.to_nat (digest_size a)) 0)
    by (unfold zeroes_of_max_digest_size; rewrite take_replicate; f_equal; lia).
  set (s := if len salt =? 0 then _ else _).
  assert (len s <= block_size a).
  { subst s. destruct (_ =? 0); [|done]. rewrite len_replicate. lia. }
  destruct (hmac_new_at a s) as [(c & -> & Hc)| ->]; [done| |by right]. left. simpl.
  apply hmac_update_at with (src := ikm) in Hc.
  destruct (hmac_final_at _ _ _ _ PTLS_HASH_FINAL_MODE_FREE Hc) as [E _].
  f_equal. exact E.
Qed.

(** ** HKDF-Expand *)

Lemma HMAC_len a key m : hash_ok a -> len (HMAC a key m) = digest_size a.
Proof. intros Ha. apply (digest_len a Ha). Qed.

Lemma blocks_len f n d : (forall i, (1 <= i <= n)%nat -> len (f i) = d) -> len (blocks f n) = Z.of_nat n * d.
Proof.
  induction n as [|n IH]; intros Hf; [done|]. cbn [blocks]. rewrite len_app, IH, Hf by (intros; try apply Hf; lia). lia.
Qed.

Lemma ceil_div_unique outlen d n :
  0 < d -> Z.of_nat n * d < outlen + d -> outlen <= Z.of_nat n * d -> ceil_div outlen d = n.
Proof.
  intros Hd H1 H2. unfold ceil_div.
  assert ((outlen + d - 1) / d = Z.of_nat n) as ->; [|lia].
  symmetry. apply Z.div_unique with (r := outlen + d - 1 - d * Z.of_nat n); nia.
Qed.

(** One more block, cut at [outlen]. *)
Lemma blocks_step f n d outlen :
  0 < d -> (forall i, (1 <= i)%nat -> len (f i) = d) -> Z.of_nat n * d < outlen ->
  take (Z.to_nat outlen) (blocks f n) ++
  take (Z.to_nat (Z.min (Z.of_nat n * d + d) outlen - Z.of_nat n * d)) (f (S n))
  = take (Z.to_nat outlen) (blocks f (S n)).
Proof.
  intros Hd Hf Ho. cbn [blocks].
  assert (len (blocks f n) = Z.of_nat n * d) as Hl by (apply blocks_len; intros; apply Hf; lia).
  pose proof (Hf (S n) ltac:(lia)) as Hs. unfold len in Hl, Hs.
  rewrite take_app, (take_ge (blocks f n)) by lia. f_equal.
  destruct (Z.min_spec (Z.of_nat n * d + d) outlen) as [[? ->]|[? ->]].
  - rewrite !take_ge by lia. done.
  - f_equal. lia.
Qed.

Lemma hkdf_expand_loop_spec a prk info outlen :
  hash_ok a -> len prk <= block_size a ->
  forall fuel n hmac,
  outlen - Z.of_nat n * digest_size a <= Z.of_nat fuel ->
  Z.of_nat n * digest_size a < outlen + digest_size a ->
  match hmac with None => n = O | Some c => n <> O /\ hmac_at a prk [] c end ->
  let r := hkdf_expand_loop fuel a outlen prk info (Z.of_nat n) hmac (HKDF_T a prk info n)
             (take (Z.to_nat outlen) (blocks (HKDF_T a prk info) n)) in
  r = Ok (HKDF_Expand a prk info outlen) \/ (r = Err PTLS_ERROR_NO_MEMORY /\ hmac = None).
Proof.
  intros Ha Hp. pose proof (digest_size_pos a Ha) as Hd.
  induction fuel as [|fuel IH]; intros n hmac Hf Hn Hm; cbn [hkdf_expand_loop];
    destruct (Z.ltb_spec (Z.of_nat n * digest_size a) outlen) as [Hlt|Hge]; try lia;
    try (left; unfold HKDF_Expand; by rewrite (ceil_div_unique _ _ n)).
  assert ((exists hm, match hmac with None => hmac_new a prk
             | Some hm => Ok (hmac_update (HKDF_T a prk info n) hm) end = Ok hm /\
             hmac_at a prk (HKDF_T a prk info n) hm) \/
          (hmac_new a prk = Err PTLS_ERROR_NO_MEMORY /\ hmac = None)) as [(hm & -> & Hhm)|[E ->]].
  { destruct hmac as [c|].
    - left. eexists. split; [done|]. destruct Hm as [_ Hc].
      by apply (hmac_update_at _ _ _ (HKDF_T a prk info n)) in Hc.
    - subst n. destruct (hmac_new_at a prk Hp) as [(c & E & Hc)|E]; [left|by right]. by exists c. }
  2:{ right. split; [|done]. by rewrite E. }
  cbn [mbind result_bind]. apply (hmac_update_at _ _ _ info) in Hhm.
  apply (hmac_update_at _ _ _ [u8 (Z.of_nat n + 1)]) in Hhm.
  destruct (hmac_final_at _ _ _ _ PTLS_HASH_FINAL_MODE_RESET Hhm) as [E1 E2].
  destruct (E2 eq_refl) as (c' & E2' & Hc').
  destruct (hmac_final _ _) as [dig hm'] eqn:Ef. simpl in E1, E2'. subst dig hm'.
  assert (HMAC a prk ((HKDF_T a prk info n ++ info) ++ [u8 (Z.of_nat n + 1)]) = HKDF_T a prk info (S n)) as ->.
  { cbn [HKDF_T]. rewrite <- app_assoc. do 5 f_equal. lia. }
  rewrite (blocks_step (HKDF_T a prk info) n (digest_size a)); [|done| |done].
  2:{ intros [|i] Hi; [lia|]. by apply HMAC_len. }
  replace (Z.of_nat n + 1) with (Z.of_nat (S n)) by lia.
  destruct (IH (S n) (Some c')) as [E|[_ E]]; [lia|lia|done| |done]. left. exact E.
Qed.

Lemma hkdf_expand_spec a prk info outlen :
  hash_ok a -> len prk <= block_size a -> 0 <= outlen ->
  ptls_hkdf_expand a outlen prk info = Ok (HKDF_Expand a prk info outlen) \/
  ptls_hkdf_expand a outlen prk info = Err PTLS_ERROR_NO_MEMORY.
Proof.
  intros Ha Hp Ho. pose proof (digest_size_pos a Ha).
  pose proof (hkdf_expand_loop_spec a prk info outlen Ha Hp (Z.to_nat outlen) 0 None) as Hl.
  change (take (Z.to_nat outlen) (blocks (HKDF_T a prk info) 0)) with (take (Z.to_nat outlen) (@nil Z)) in Hl.
  rewrite take_nil in Hl.
  destruct Hl as [E|[E _]]; [lia|lia|done|left|right]; exact E.
Qed.

Lemma smallbuf_wf n : Z.of_nat n <= SIZE_MAX -> buf_wf (smallbuf n).
Proof. intros Hn. apply buffer_init_wf; [lia| |by right]. by rewrite len_replicate. Qed.

Lemma smallbuf_contents n : contents (smallbuf n) = [].
Proof. done. Qed.

Lemma emits_hkdf_label (outlen : Z) prefix label context :
  len (prefix ++ label) < 256 -> len context < 256 ->
  emits (S:=ptls_buffer_t)
    (_ ← ptls_buffer_push16 (u16 outlen);
     _ ← ptls_buffer_push_block 1 (_ ← ptls_buffer_pushv prefix; ptls_buffer_pushv label);
     ptls_buffer_push_block 1 (ptls_buffer_pushv context))
    (Ok ((), HkdfLabel outlen prefix label context)).
Proof.
  intros Hl Hc. unfold HkdfLabel.
  replace (be_encode 2 outlen) with (bytes16 (u16 outlen)).
  2:{ rewrite bytes16_be. unfold u16. change (2 ^ 16) with (256 ^ Z.of_nat 2). apply be_encode_mod. }
  eapply emits_seq; [apply emits_push16|].
  rewrite app_assoc. eapply emits_seq.
  - pose proof (emits_push_block (S:=ptls_buffer_t) 1 _ () (prefix ++ label) ltac:(lia)
      (emits_seq _ _ () () _ _ (emits_pushv prefix) (emits_pushv label))) as E.
    change (Z.of_nat 1) with 1 in E. rewrite (proj2 (Z.leb_gt _ _)) in E by lia.
    rewrite andb_false_r in E. exact E.
  - pose proof (emits_push_block (S:=ptls_buffer_t) 1 _ () context ltac:(lia) (emits_pushv context)) as E.
    change (Z.of_nat 1) with 1 in E. rewrite (proj2 (Z.leb_gt _ _)) in E by lia.
    rewrite andb_false_r in E. exact E.
Qed.

Lemma hkdf_expand_label_prefix a secret label context outlen prefix :
  hash_ok a -> len secret <= block_size a -> 0 <= outlen ->
  len (default PTLS_HKDF_EXPAND_LABEL_PREFIX prefix ++ label) < 256 -> len context < 256 ->
  ptls_hkdf_expand_label a outlen secret label context prefix
  = Ok (HKDF_Expand a secret (HkdfLabel outlen (default PTLS_HKDF_EXPAND_LABEL_PREFIX prefix) label context)
          outlen) \/
  ptls_hkdf_expand_label a outlen secret label context prefix = Err PTLS_ERROR_NO_MEMORY.
Proof.
  intros Ha Hs Ho Hl Hc. unfold ptls_hkdf_expand_label.
  pose proof (emits_hkdf_label outlen _ label context Hl Hc (smallbuf 80) (smallbuf_wf 80 ltac:(done))) as E.
  match type of E with outcome _ _ _ ?o => destruct o as [[[]|e] b] end; destruct E as (_ & _ & E); cbn [fst snd] in E.
  - destruct E as [_ E]. change (get_buf b) with b in E. change (get_buf (smallbuf 80)) with (smallbuf 80) in E.
    rewrite smallbuf_contents in E. cbn [app] in E. cbn [mbind result_bind]. rewrite E.
    by apply hkdf_expand_spec.
  - destruct E as [[->|(?&?&?)] _]; [by right|done].
Qed.

(** ** The TLS 1.2 PRF *)

Lemma phash_loop_spec a secret label seed outlen :
  hash_ok a -> 0 <= outlen ->
  let f := λ i, HMAC a secret (PRF_A a secret (label ++ seed) i ++ label ++ seed) in
  forall fuel n hmac,
  outlen - Z.of_nat n * digest_size a < Z.of_nat fuel -> (n <> O -> Z.of_nat n * digest_size a < outlen) ->
  hmac_at a secret [] hmac ->
  phash_loop fuel a outlen label seed hmac (PRF_A a secret (label ++ seed) (S n)) (blocks f n)
  = Ok (P_hash a secret (label ++ seed) outlen).
Proof.
  intros Ha Ho f. pose proof (digest_size_pos a Ha) as Hd.
  assert (forall i, len (f i) = digest_size a) as Hf by (intros; by apply HMAC_len).
  induction fuel as [|fuel IH]; intros n hmac Hfuel Hn Hm; [nia|]. cbn [phash_loop].
  assert (len (blocks f n) = Z.of_nat n * digest_size a) as Hlen by (apply blocks_len; auto).
  pose proof Hm as Hm1. apply (hmac_update_at _ _ _ (PRF_A a secret (label ++ seed) (S n))) in Hm1.
  apply (hmac_update_at _ _ _ label) in Hm1. apply (hmac_update_at _ _ _ seed) in Hm1. cbn [app] in Hm1.
  rewrite <- app_assoc in Hm1. fold (f (S n)) in *.
  rewrite Hlen. destruct (Z.leb_spec (outlen - Z.of_nat n * digest_size a) (digest_size a)) as [Hle|Hgt].
  - destruct (hmac_final_at _ _ _ _ PTLS_HASH_FINAL_MODE_FREE Hm1) as [E _].
    destruct (hmac_final _ _) as [md hm]. cbn [fst] in E. subst md. f_equal. unfold P_hash.
    change (HMAC a secret (PRF_A a secret (label ++ seed) (S n) ++ label ++ seed)) with (f (S n)).
    change (λ i, HMAC a secret (PRF_A a secret (label ++ seed) i ++ label ++ seed)) with f.
    destruct (decide (outlen = 0)) as [->|].
    + destruct n as [|n]; [|specialize (Hn ltac:(lia)); lia]. simpl. unfold ceil_div.
      rewrite Z.div_small by lia. done.
    + rewrite (ceil_div_unique outlen (digest_size a) (S n)) by (destruct n; lia).
      pose proof (blocks_step f n (digest_size a) outlen Hd ltac:(auto)) as Hs.
      assert (Z.of_nat n * digest_size a < outlen) as Hlt by (destruct n; [lia|apply Hn; lia]).
      rewrite <- (Hs Hlt). rewrite (take_ge (blocks f n)) by (unfold len in Hlen; lia).
      f_equal. f_equal. lia.
  - destruct (hmac_final_at _ _ _ _ PTLS_HASH_FINAL_MODE_RESET Hm1) as [E1 E2].
    destruct (E2 eq_refl) as (c1 & E2' & Hc1). destruct (hmac_final _ _) as [md hm1]. cbn [fst snd] in *.
    subst md hm1. apply (hmac_update_at _ _ _ (PRF_A a secret (label ++ seed) (S n))) in Hc1.
    destruct (hmac_final_at _ _ _ _ PTLS_HASH_FINAL_MODE_RESET Hc1) as [E3 E4].
    destruct (E4 eq_refl) as (c2 & E4' & Hc2). destruct (hmac_final _ _) as [An hm2]. cbn [fst snd] in *.
    subst An hm2. change (HMAC a secret ([] ++ PRF_A a secret (label ++ seed) (S n)))
      with (PRF_A a secret (label ++ seed) (S (S n))).
    change (blocks f n ++ HMAC a secret (PRF_A a secret (label ++ seed) (S n) ++ label ++ seed))
      with (blocks f (S n)).
    apply IH; [nia|nia|done].
Qed.

Lemma tls12_phash_spec a secret label seed outlen :
  hash_ok a -> len secret <= block_size a -> 0 <= outlen ->
  ptls_tls12_phash a outlen secret label seed = Ok (P_hash a secret (label ++ seed) outlen) \/
  ptls_tls12_phash a outlen secret label seed = Err PTLS_ERROR_NO_MEMORY.
Proof.
  intros Ha Hs Ho. unfold ptls_tls12_phash.
  destruct (hmac_new_at a secret Hs) as [(c & -> & Hc)| ->]; [|by right]. left. cbn [mbind result_bind].
  apply (hmac_update_at _ _ _ label) in Hc. apply (hmac_update_at _ _ _ seed) in Hc. cbn [app] in Hc.
  destruct (hmac_final_at _ _ _ _ PTLS_HASH_FINAL_MODE_RESET Hc) as [E1 E2].
  destruct (E2 eq_refl) as (c1 & E2' & Hc1). destruct (hmac_final _ _) as [md hm1]. cbn [fst snd] in *.
  subst md hm1. pose proof (digest_size_pos a Ha).
  apply (phash_loop_spec a secret label seed outlen Ha Ho (S (Z.to_nat outlen)) 0 c1); [lia|done|done].
Qed.


End HkdfProofs.

(** ** Nonces *)

Lemma zip_xor_inj (s x y : bytes) :
  length s = length x -> length s = length y ->
  zip_with Z.lxor s x = zip_with Z.lxor s y -> x = y.
Proof.
  revert x y. induction s as [|a s IH]; intros [|b x] [|c y]; simpl; try done.
  intros [= Hx] [= Hy] [= E1 E2]. f_equal; [|by apply IH].
  apply (f_equal (Z.lxor a)) in E1. by rewrite <- !Z.lxor_assoc, Z.lxor_nilpotent, !Z.lxor_0_l in E1.
Qed.

Lemma zip_with_fmap_r {A B C D} (f : A -> B -> C) (g : D -> B) (l : list A) (k : list D) :
  zip_with (λ x y, f x (g y)) l k = zip_with f l (g <$> k).
Proof. revert k. induction l as [|x l IH]; intros [|y k]; simpl; try done. by rewrite IH. Qed.

Lemma build_iv_seq n (iv : bytes) seq :
  zip_with (λ s i, Z.lxor s (u8 (Z.shiftr seq i))) (take 8 (drop n iv)) [56; 48; 40; 32; 24; 16; 8; 0]
  = zip_with Z.lxor (take 8 (drop n iv)) (be_encode 8 seq).
Proof. by rewrite (zip_with_fmap_r Z.lxor (λ i, u8 (Z.shiftr seq i))). Qed.

Lemma build_iv_inj iv_size iv seq1 seq2 :
  8 <= iv_size -> len iv = iv_size -> 0 <= seq1 < 2 ^ 64 -> 0 <= seq2 < 2 ^ 64 ->
  ptls_aead__build_iv iv_size iv seq1 = ptls_aead__build_iv iv_size iv seq2 -> seq1 = seq2.
Proof.
  intros Hs Hl H1 H2 E. unfold ptls_aead__build_iv in E. rewrite !build_iv_seq in E.
  apply app_inv_head in E.
  assert (length (take 8 (drop (Z.to_nat (iv_size - 8)) iv)) = 8%nat) as H8.
  { rewrite length_take, length_drop. unfold len in Hl. lia. }
  apply zip_xor_inj in E; [|by rewrite be_encode_length, H8..].
  apply (f_equal be_decode) in E. rewrite !be_decode_encode in E.
  change (256 ^ Z.of_nat 8) with (2 ^ 64) in E. by rewrite !Z.mod_small in E.
Qed.

Lemma build_iv_len iv_size iv seq :
  8 <= iv_size -> len iv = iv_size -> len (ptls_aead__build_iv iv_size iv seq) = iv_size.
Proof.
  intros Hs Hl. unfold ptls_aead__build_iv. rewrite len_app, len_take. unfold len in *.
  rewrite length_zip_with, length_take, length_drop. cbn [length]. lia.
Qed.

(** Nonces never repeat under one key: two records encrypted with the same context under the same
    nonce have the same 64-bit sequence number; every nonce has the size the cipher expects. *)
Theorem aead_nonce_unique ctx seq1 seq2 :
  aead_ok (aead_algo ctx) -> len (static_iv ctx) = iv_size (aead_algo ctx) ->
  0 <= seq1 < 2 ^ 64 -> 0 <= seq2 < 2 ^ 64 ->
  len (aead_nonce ctx seq1) = iv_size (aead_algo ctx) /\
  (aead_nonce ctx seq1 = aead_nonce ctx seq2 -> seq1 = seq2).
Proof.
  intros Ha Hl H1 H2. pose proof (iv_size_range _ Ha). unfold aead_nonce.
  split; [apply build_iv_len; lia|]. apply build_iv_inj; lia.
Qed.

(** ** Comparison *)

Lemma mem_equal_loop_zero x y t :
  length x = length y -> is_bytes x -> is_bytes y -> 0 <= t ->
  mem_equal_loop x y t = 0 <-> t = 0 /\ x = y.
Proof.
  revert y t. induction x as [|a x IH]; intros [|b y] t; cbn [mem_equal_loop length]; try done;
    [naive_solver|]. intros [= Hl] Hx Hy Ht.
  apply Forall_cons_1 in Hx as [Ha Hx]. apply Forall_cons_1 in Hy as [Hb Hy]. unfold is_byte in *.
  rewrite IH; try done.
  - rewrite Z.lor_eq_0_iff, Z.lxor_eq_0_iff. naive_solver.
  - apply Z.lor_nonneg. split; [done|]. apply Z.lxor_nonneg. lia.
Qed.

(** The comparison that takes the same steps whatever the contents decides equality. *)
Lemma mem_equal_spec x y :
  length x = length y -> is_bytes x -> is_bytes y -> mem_equal x y = true <-> x = y.
Proof.
  intros Hl Hx Hy. unfold mem_equal. rewrite Z.eqb_eq, mem_equal_loop_zero by (done || lia). naive_solver.
Qed.

(** ** A toy hash and a toy AEAD, to instantiate the interfaces *)

(** The digest of a message is its length and its byte sum, in eight bytes. *)
Definition toy_hash : ptls_hash_algorithm_t :=
  let d := λ m, be_encode 4 (len m) ++ be_encode 4 (foldr Z.add 0 m) in
  mkHash 1 16 8 true d (d []).

Lemma toy_hash_ok : hash_ok toy_hash.
Proof.
  split; try done.
  intros m. cbn [digest toy_hash]. auto with zpico.
Qed.

(** The "ciphertext" is the plaintext and a tag made of the first byte of the nonce and the length of
    the additional data. *)
Definition toy_tag (iv aad : bytes) : bytes := [u8 (nth 7 iv 0); u8 (len aad)].
Definition toy_aead : ptls_aead_algorithm_t :=
  mkAead 2 16 12 2 4 8 0 64 true
    (λ k iv aad p, p ++ toy_tag iv aad)
    (λ k iv aad c, if (2 <=? len c) && bool_decide (drop (length c - 2) c = toy_tag iv aad)
                   then Some (take (length c - 2) c) else None).

Lemma toy_aead_ok : aead_ok toy_aead.
Proof.
  split; cbn [seal open toy_aead tag_size aead_align_bits iv_size tls12_record_iv_size]; try (intros; lia);
    try (vm_compute; split; congruence); auto.
  - intros. by rewrite len_app.
  - intros. unfold toy_tag. auto 6 with zpico.
  - intros k iv aad p. rewrite len_app. pose proof (len_nonneg p). change (len (toy_tag iv aad)) with 2.
    rewrite (proj2 (Z.leb_le _ _)) by lia. rewrite length_app. change (length (toy_tag iv aad)) with 2%nat.
    replace (length p + 2 - 2)%nat with (length p) by lia. rewrite drop_app_length, take_app_length.
    by rewrite bool_decide_eq_true_2.
  - intros k iv aad c p. destruct (Z.leb_spec 2 (len c)); [|done]. simpl.
    destruct (bool_decide _); [|done]. intros [= <-]. rewrite len_take. unfold len in *. lia.
Qed.

Definition toy_ctx : ptls_aead_context_t := mkAeadCtx toy_aead true (replicate 16 7) (replicate 12 9).

Lemma aead_nonce_unique_witness :
  len (aead_nonce toy_ctx 5) = iv_size (aead_algo toy_ctx) /\
  (aead_nonce toy_ctx 5 = aead_nonce toy_ctx 6 -> 5 = 6).
Proof. apply (aead_nonce_unique toy_ctx 5 6); [apply toy_aead_ok|reflexivity|lia|lia]. Defined.

