(* ===== verification/Cipher.v ===== *)
(** * Cipher: symmetric cipher objects ([include/zpicotls.h], [lib/picotls.c])

    A [ptls_cipher_algorithm_t] is an object of callbacks over a private context: [setup_crypto] keys
    it, [do_init] sets the IV, [do_transform] processes bytes.  The private part of a context is the
    type [cipher_state] of its algorithm.  What the backends promise is stated by two classes:
    [StreamCipher] (ChaCha20, AES-CTR) and [BlockCipher] (AES-ECB, in the direction of encryption);
    [inverts] is what an algorithm promises to whoever decrypts with it. *)

From S2P Require Import Prelude Constants Wire Buffer Crypto.

(** A callback that is NULL is [None]; the name is not modelled. *)
(* src include/zpicotls.h:432-439 ptls_cipher_algorithm_t *)
Record ptls_cipher_algorithm_t := mkCipher {
  cipher_key_size : Z;
  cipher_block_size : Z;
  cipher_iv_size : Z;
  cipher_context_size : Z;
  cipher_state : Type;
  setup_crypto : bool -> bytes -> result cipher_state;              (* is_enc, key *)
  do_init : option (cipher_state -> bytes -> result cipher_state);
  do_transform : cipher_state -> bytes -> result (bytes * cipher_state);
}.

(** The context of the algorithm: [algo] is the index of the type. *)
(* src include/zpicotls.h:421-427 ptls_cipher_context_t *)
Definition ptls_cipher_context_t (algo : ptls_cipher_algorithm_t) : Type := cipher_state algo.

(* src include/zpicotls.h:2228-2231 ptls_cipher_init *)
Definition ptls_cipher_init {algo} (ctx : ptls_cipher_context_t algo) (iv : bytes) : result (ptls_cipher_context_t algo) :=
  match do_init algo with None => Err ABORTED | Some f => f ctx iv end.

(** What is written to [output], and the context. *)
(* src include/zpicotls.h:2233-2236 ptls_cipher_encrypt *)
Definition ptls_cipher_encrypt {algo} (ctx : ptls_cipher_context_t algo) (input : bytes) : result (bytes * ptls_cipher_context_t algo) :=
  do_transform algo ctx input.

Section New.
Context `{Allocator}.

(** [Ok None] is NULL; a context whose set-up stops the process is an error. *)
(* src lib/picotls.c:6774-6786 ptls_cipher_new *)
Definition ptls_cipher_new (algo : ptls_cipher_algorithm_t) (is_enc : bool) (key : bytes) : result (option (ptls_cipher_context_t algo)) :=
  match malloc (cipher_context_size algo) with
  | None => Ok None
  | Some _ =>
      match setup_crypto algo is_enc key with
      | Ok ctx => Ok (Some ctx)
      | Err e => if e =? ABORTED then Err ABORTED else Ok None
      end
  end.

(** A context exists only if the set-up succeeded. *)
Lemma cipher_new_some algo is_enc key ctx :
  ptls_cipher_new algo is_enc key = Ok (Some ctx) -> setup_crypto algo is_enc key = Ok ctx.
Proof. unfold ptls_cipher_new. destruct (malloc _); [|done]. destruct (setup_crypto _ _ _) as [c|e]; [by intros [= ->]|by case_match]. Qed.

End New.

(** ** What a cipher promises *)

(** [stream key iv i] is byte [i] of the key stream; [streams st key iv pos] says that a context is
    keyed, and at position [pos] of the stream of [iv]. *)
Class StreamCipher (algo : ptls_cipher_algorithm_t) := {
  stream : bytes -> bytes -> nat -> Z;
  keyed : cipher_state algo -> bytes -> Prop;
  streams : cipher_state algo -> bytes -> bytes -> nat -> Prop;
  stream_byte : forall key iv i, is_byte (stream key iv i);
  stream_setup : forall is_enc key st, setup_crypto algo is_enc key = Ok st -> keyed st key;
  stream_init : forall st key iv, keyed st key -> exists st', ptls_cipher_init (algo := algo) st iv = Ok st' /\ streams st' key iv 0;
  stream_keyed : forall st key iv pos, streams st key iv pos -> keyed st key;
  stream_transform : forall st key iv pos input, streams st key iv pos ->
    exists st', ptls_cipher_encrypt (algo := algo) st input = Ok (zip_with Z.lxor input (stream key iv <$> seq pos (length input)), st')
      /\ streams st' key iv (pos + length input);
}.

(** A block of 16 bytes is mapped by a function of the key. *)
Class BlockCipher (algo : ptls_cipher_algorithm_t) := {
  block : bytes -> bytes -> bytes;
  block_keyed : cipher_state algo -> bytes -> Prop;
  block_bytes : forall key b, is_bytes (block key b);
  block_len : forall key b, length (block key b) = 16%nat;
  block_setup : forall key st, setup_crypto algo true key = Ok st -> block_keyed st key;
  block_transform : forall st key b, block_keyed st key -> length b = 16%nat ->
    exists st', ptls_cipher_encrypt (algo := algo) st b = Ok (block key b, st') /\ block_keyed st' key;
}.

(** From contexts of one key and one IV, what one encrypts the other decrypts; the ciphertext is as
    long as the plaintext, and in relation with it. *)
Definition inverts (algo : ptls_cipher_algorithm_t) (ok : bytes -> Prop) (rel : bytes -> bytes -> Prop) : Prop :=
  forall key iv p enc dec, setup_crypto algo true key = Ok enc -> setup_crypto algo false key = Ok dec -> ok p -> length iv = 16%nat ->
  exists enc1 c enc2 dec1 dec2,
    ptls_cipher_init (algo := algo) enc iv = Ok enc1 /\ ptls_cipher_encrypt (algo := algo) enc1 p = Ok (c, enc2) /\
    length c = length p /\ rel p c /\
    ptls_cipher_init (algo := algo) dec iv = Ok dec1 /\ ptls_cipher_encrypt (algo := algo) dec1 c = Ok (p, dec2).

(** One use of an algorithm: set up, give the IV, transform. *)
Definition cipher_run (algo : ptls_cipher_algorithm_t) (is_enc : bool) (key iv p : bytes) : result bytes :=
  ctx ← setup_crypto algo is_enc key;
  ctx ← ptls_cipher_init (algo := algo) ctx iv;
  r ← ptls_cipher_encrypt (algo := algo) ctx p;
  Ok r.1.

Lemma inverts_run algo ok rel key iv p :
  inverts algo ok rel -> is_ok (setup_crypto algo true key) -> is_ok (setup_crypto algo false key) -> ok p -> length iv = 16%nat ->
  exists c, cipher_run algo true key iv p = Ok c /\ rel p c /\ cipher_run algo false key iv c = Ok p.
Proof.
  intros Hi He Hd Hp Hiv. destruct (setup_crypto algo true key) as [enc|] eqn:E1; [|done].
  destruct (setup_crypto algo false key) as [dec|] eqn:E2; [|done].
  destruct (Hi key iv p enc dec E1 E2 Hp Hiv) as (e1 & c & e2 & d1 & d2 & He1 & He2 & _ & Hrel & Hd1 & Hd2).
  exists c. unfold cipher_run. rewrite E1, E2. simpl. rewrite He1, Hd1. simpl. by rewrite He2, Hd2.
Qed.

(** A stream cipher is its own inverse. *)
Lemma lxor_cancel a b : Z.lxor (Z.lxor a b) b = a.
Proof. by rewrite Z.lxor_assoc, Z.lxor_nilpotent, Z.lxor_0_r. Qed.

Lemma zip_lxor_cancel (p k : bytes) : length p = length k -> zip_with Z.lxor (zip_with Z.lxor p k) k = p.
Proof. revert k. induction p as [|a p IH]; intros [|b k] Hl; try done. simpl in *. by rewrite lxor_cancel, IH by lia. Qed.

(** Bit by bit. *)
Ltac bitwise := apply Z.bits_inj'; intros ? ?;
  repeat first [rewrite Z.lxor_spec | rewrite Z.land_spec | rewrite Z.lor_spec | rewrite Z.lnot_spec by assumption];
  repeat match goal with |- context [Z.testbit ?x ?n] => destruct (Z.testbit x n) end; reflexivity.

Lemma land_lxor a b m : Z.land (Z.lxor a b) m = Z.lxor (Z.land a m) (Z.land b m).
Proof. bitwise. Qed.

Lemma is_byte_land b : is_byte b <-> Z.land b 255 = b.
Proof.
  change 255 with (Z.ones 8). rewrite Z.land_ones by done. unfold is_byte. split; [intros; by apply Z.mod_small|].
  intros <-. by apply Z.mod_pos_bound.
Qed.

Lemma is_byte_lxor a b : is_byte a -> is_byte b -> is_byte (Z.lxor a b).
Proof. rewrite !is_byte_land, land_lxor. by intros -> ->. Qed.

Lemma is_bytes_zip_lxor (p k : bytes) : is_bytes p -> is_bytes k -> is_bytes (zip_with Z.lxor p k).
Proof. intros Hp. revert k. induction Hp as [|a p Ha Hp IH]; intros [|b k] Hk; simpl; try constructor; inv Hk; auto using is_byte_lxor. Qed.

(* The key stream from a position on. *)
Definition stream_at `{StreamCipher algo} (key iv : bytes) (pos n : nat) : bytes := stream key iv <$> seq pos n.

Lemma stream_at_len `{StreamCipher algo} key iv pos n : length (stream_at key iv pos n) = n.
Proof. unfold stream_at. by rewrite length_fmap, length_seq. Qed.

Lemma stream_at_bytes `{StreamCipher algo} key iv pos n : is_bytes (stream_at key iv pos n).
Proof. unfold stream_at. apply Forall_fmap, Forall_true. intros. apply stream_byte. Qed.

Lemma stream_at_app `{StreamCipher algo} key iv pos n m : stream_at key iv pos (n + m) = stream_at key iv pos n ++ stream_at key iv (pos + n) m.
Proof. unfold stream_at. by rewrite seq_app, fmap_app. Qed.

Lemma stream_inverts `{StreamCipher algo} : inverts algo (fun _ => True) (fun _ _ => True).
Proof.
  intros key iv p enc dec He Hd _ _.
  destruct (stream_init enc key iv (stream_setup _ _ _ He)) as (e1 & He1 & Hs).
  destruct (stream_transform e1 key iv 0 p Hs) as (e2 & He2 & _).
  destruct (stream_init dec key iv (stream_setup _ _ _ Hd)) as (d1 & Hd1 & Hs').
  set (c := zip_with Z.lxor p (stream key iv <$> seq 0 (length p))) in *.
  assert (length c = length p) as Hc by (unfold c; rewrite length_zip_with, length_fmap, length_seq; lia).
  destruct (stream_transform d1 key iv 0 c Hs') as (d2 & Hd2 & _).
  exists e1, c, e2, d1, d2. repeat split; try done. rewrite Hd2, Hc. unfold c.
  by rewrite zip_lxor_cancel by (by rewrite length_fmap, length_seq).
Qed.

(** ** In-place xor of the first bytes of an array *)

(** [for (i = 0; i < n; i++) a[i] ^= b[i];] *)
Fixpoint xor_n (n : nat) (a b : bytes) : bytes :=
  match n, a, b with
  | S n, x :: a, y :: b => Z.lxor x y :: xor_n n a b
  | _, _, _ => a
  end.

Lemma xor_n_len n a b : length (xor_n n a b) = length a.
Proof. revert a b. induction n; intros [|x a] [|y b]; simpl; auto. Qed.

Lemma xor_n_cancel n a b : xor_n n (xor_n n a b) b = a.
Proof. revert a b. induction n; intros [|x a] [|y b]; simpl; try done. by rewrite lxor_cancel, IHn. Qed.

Lemma xor_n_alter n a b f : alter f n (xor_n n a b) = xor_n n (alter f n a) b.
Proof. revert a b. induction n; intros [|x a] [|y b]; simpl; try done. f_equal. apply IHn. Qed.

Lemma xor_n_lookup_ge n a b i : (n <= i)%nat -> xor_n n a b !! i = a !! i.
Proof. revert a b i. induction n; intros [|x a] [|y b] [|i] Hi; simpl; try done; try lia. apply IHn. lia. Qed.

(** ** A small stream cipher and a small block cipher, to evaluate the definitions on *)

Definition toy_byte (key iv : bytes) (i : nat) : Z := u8 (foldr (λ b a, 31 * a + b + 1) (Z.of_nat i) (key ++ iv)).

Definition toy_stream : ptls_cipher_algorithm_t :=
  mkCipher 16 1 16 64 (bytes * bytes * nat) (fun _ key => Ok (key, [], 0%nat)) (Some (fun st iv => Ok (st.1.1, iv, 0%nat)))
    (fun st input => Ok (zip_with Z.lxor input (toy_byte st.1.1 st.1.2 <$> seq st.2 (length input)), (st.1.1, st.1.2, (st.2 + length input)%nat))).

#[export] Instance toy_is_stream : StreamCipher toy_stream.
Proof.
  refine (Build_StreamCipher toy_stream toy_byte (fun st key => st.1.1 = key) (fun st key iv pos => st = (key, iv, pos)) _ _ _ _ _).
  - intros. apply u8_range.
  - intros ? ? ? [= <-]. done.
  - intros [[k iv0] pos] key iv <-. by eexists.
  - by intros ? ? ? ? ->.
  - intros ? key iv pos input ->. by eexists.
Defined.

Definition toy_block (key b : bytes) : bytes := toy_byte key b <$> seq 0 16.

Definition toy_ecb : ptls_cipher_algorithm_t :=
  mkCipher 16 16 0 64 bytes (fun _ key => Ok key) None (fun key b => Ok (toy_block key b, key)).

#[export] Instance toy_is_block : BlockCipher toy_ecb.
Proof.
  refine (Build_BlockCipher toy_ecb toy_block (fun st key => st = key) _ _ _ _).
  - intros. apply Forall_fmap, Forall_true. intros. apply u8_range.
  - intros. unfold toy_block. by rewrite length_fmap, length_seq.
  - by intros ? ? [= <-].
  - intros ? key b -> _. by eexists.
Defined.
