(* ===== verification/Ffx.v ===== *)
(** * Ffx: format-preserving encryption ([lib/ffx.c], [include/zpicotls/ffx.h])

    A Feistel network over the two halves of a block of 2 to 32 bytes, whose round function is a
    stream cipher keyed once: the halves are arrays of 16 bytes, a round xors into one of them the key
    stream whose IV is the tweak, the number of the round and the other half.  The object is itself a
    [ptls_cipher_algorithm_t], so it is shown to keep the promise [inverts] of such an object; a block
    whose length in bits is not a multiple of 8 keeps some bits of its last byte. *)

From S2P Require Import Prelude Constants Wire Buffer Crypto Cipher.

Section Ffx.
Context `{Allocator}.
Context (algo : ptls_cipher_algorithm_t).

(** [ffx_set]: the three callbacks of [super] are those of this file (they are NULL before). *)
(* src include/zpicotls/ffx.h:78-88 ptls_ffx_context_t *)
Record ptls_ffx_context_t := mkFfx {
  ffx_set : bool;
  enc_ctx : option (ptls_cipher_context_t algo);
  nb_rounds : Z;
  ffx_is_enc : bool;
  byte_length : Z;
  nb_left : Z;
  nb_right : Z;
  mask_last_byte : Z;
  tweaks : bytes;
}.

(** [sizeof(ptls_ffx_context_t)] *)
Definition SIZEOF_FFX_CONTEXT : Z := 96.

(** The memory of a context, cleared. *)
Definition ffx_zero : ptls_ffx_context_t := mkFfx false None 0 false 0 0 0 0 (replicate 16 0).

(* src lib/ffx.c:81-102 ffx_dispose *)
Definition ffx_dispose (ctx : ptls_ffx_context_t) : result ptls_ffx_context_t :=
  _ ← guard_err (ffx_set ctx) ABORTED;
  Ok (mkFfx false None 0 false 0 0 0 0 (tweaks ctx)).

(* src lib/ffx.c:39-39 last_byte_mask *)
Definition last_byte_mask : bytes := [0xFF; 0xFE; 0xFC; 0xF8; 0xF0; 0xE0; 0xC0; 0x80].

(** [sizes]: key size, block size and IV size of [ctx->super.algo], [None] when it is NULL. *)
(* src lib/ffx.c:32-79 ptls_ffx_setup_crypto *)
Definition ptls_ffx_setup_crypto (sizes : option (Z * Z * Z)) (ctx : ptls_ffx_context_t) (is_enc : bool) (rounds bit_length : Z) (key : bytes)
    : result ptls_ffx_context_t :=
  let len := u64 (bit_length + 7) / 8 in
  _ ← guard_err ((len <=? 32) && (2 <=? len)) ABORTED;
  _ ← guard_err (negb (ffx_set ctx)) ABORTED;
  _ ← guard_err match sizes with
                | None => true
                | Some (ks, bs, ivs) => (cipher_key_size algo =? ks) && (cipher_iv_size algo =? ivs) && (bs =? len)
                end ABORTED;
  _ ← guard_err (cipher_iv_size algo =? 16) ABORTED;
  enc ← (if (len <=? 32) && (2 <=? len) then ptls_cipher_new algo true key else Ok None);
  match enc with
  | Some enc =>
      Ok (mkFfx true (Some enc) rounds is_enc len (len / 2) (len - len / 2)
            (default 0 (last_byte_mask !! Z.to_nat (bit_length mod 8))) (replicate 16 0))
  | None => _ ← ffx_dispose ctx; Err PTLS_ERROR_LIBRARY
  end.

(** [Ok None] is NULL. *)
(* src lib/ffx.c:104-117 ptls_ffx_new *)
Definition ptls_ffx_new (is_enc : bool) (rounds bit_length : Z) (key : bytes) : result (option ptls_ffx_context_t) :=
  match malloc SIZEOF_FFX_CONTEXT with
  | None => Ok None
  | Some _ =>
      match ptls_ffx_setup_crypto None ffx_zero is_enc rounds bit_length key with
      | Ok ctx => Ok (Some ctx)
      | Err e => if e =? ABORTED then Err ABORTED else Ok None
      end
  end.

(** The target and the context of the cipher. *)
(* src lib/ffx.c:119-136 ptls_ffx_one_pass *)
Definition ptls_ffx_one_pass (enc : ptls_cipher_context_t algo) (source : bytes) (source_size : Z) (target : bytes) (target_size mask : Z)
    (tweaks : bytes) (round rounds : Z) : result (bytes * ptls_cipher_context_t algo) :=
  let iv := take 16 tweaks in
  let iv := alter (λ b, Z.lxor b rounds) (Z.to_nat (Z.land round 15)) iv in
  let iv := xor_n (Z.to_nat source_size) iv source in
  enc ← ptls_cipher_init enc iv;
  '(confusion, enc) ← ptls_cipher_encrypt enc (replicate 16 0);
  let j := Z.to_nat (target_size - 1) in
  let target := xor_n j target confusion in
  let target := alter (λ b, Z.lxor b (Z.land (default 0 (confusion !! j)) mask)) j target in
  Ok (target, enc).

(** The loop of encryption. *)
(* src lib/ffx.c:163-171 ptls_ffx_one_pass *)
Fixpoint ffx_enc_loop (fuel : nat) (ctx : ptls_ffx_context_t) (enc : ptls_cipher_context_t algo) (left right : bytes) (i : Z) : result (bytes * bytes) :=
  if i <? nb_rounds ctx then
    match fuel with
    | O => Err OUT_OF_FUEL
    | S fuel =>
        '(left, enc) ← ptls_ffx_one_pass enc right (nb_right ctx) left (nb_left ctx) 0xFF (tweaks ctx) (u8 i) (u8 (nb_rounds ctx));
        '(right, enc) ← ptls_ffx_one_pass enc left (nb_left ctx) right (nb_right ctx) (mask_last_byte ctx) (tweaks ctx)
                          (u8 (i + 1)) (u8 (nb_rounds ctx));
        ffx_enc_loop fuel ctx enc left right (i + 2)
    end
  else Ok (left, right).

(** The loop of decryption. *)
(* src lib/ffx.c:176-185 ptls_ffx_one_pass *)
Fixpoint ffx_dec_loop (fuel : nat) (ctx : ptls_ffx_context_t) (enc : ptls_cipher_context_t algo) (left right : bytes) (i : Z) : result (bytes * bytes) :=
  if i <? nb_rounds ctx then
    match fuel with
    | O => Err OUT_OF_FUEL
    | S fuel =>
        '(right, enc) ← ptls_ffx_one_pass enc left (nb_left ctx) right (nb_right ctx) (mask_last_byte ctx) (tweaks ctx)
                          (u8 (nb_rounds ctx - 1 - i)) (u8 (nb_rounds ctx));
        '(left, enc) ← ptls_ffx_one_pass enc right (nb_right ctx) left (nb_left ctx) 0xFF (tweaks ctx)
                         (u8 (nb_rounds ctx - 2 - i)) (u8 (nb_rounds ctx));
        ffx_dec_loop fuel ctx enc left right (i + 2)
    end
  else Ok (left, right).

(** The first half of the output and the second, from the halves after the last round. *)
(* src lib/ffx.c:190-195 nb_left *)
Definition ffx_join (ctx : ptls_ffx_context_t) (last_byte : Z) (left right : bytes) : bytes :=
  let k := Z.to_nat (nb_right ctx - 1) in
  let right := alter (λ b, Z.land b (mask_last_byte ctx)) k right in
  let right := alter (λ b, Z.lor b (Z.land last_byte (Z.lnot (mask_last_byte ctx)))) k right in
  take (Z.to_nat (nb_left ctx)) left ++ take (Z.to_nat (nb_right ctx)) right.

(** An array of 16 bytes, the first ones copied. *)
Definition half (input : bytes) (off n : Z) : bytes :=
  take (Z.to_nat n) (drop (Z.to_nat off) input) ++ replicate (16 - Z.to_nat n) 0.

(** The context is the one it is called with. *)
(* src lib/ffx.c:138-200 ffx_encrypt *)
Definition ffx_encrypt (ctx : ptls_ffx_context_t) (input : bytes) : result (bytes * ptls_ffx_context_t) :=
  _ ← guard_err (ffx_set ctx) ABORTED;
  _ ← guard_err (len input =? byte_length ctx) ABORTED;
  if negb (len input =? byte_length ctx) then Ok (replicate (length input) 0, ctx) else
  let left := half input 0 (nb_left ctx) in
  let right := half input (nb_left ctx) (nb_right ctx) in
  let k := Z.to_nat (nb_right ctx - 1) in
  let last_byte := default 0 (right !! k) in
  let right := alter (λ b, Z.land b (mask_last_byte ctx)) k right in
  match enc_ctx ctx with
  | None => Err ABORTED
  | Some enc =>
      '(left, right) ← (if ffx_is_enc ctx then ffx_enc_loop else ffx_dec_loop) (Z.to_nat (nb_rounds ctx)) ctx enc left right 0;
      Ok (ffx_join ctx last_byte left right, ctx)
  end.

(* src lib/ffx.c:202-207 ffx_init *)
Definition ffx_init (ctx : ptls_ffx_context_t) (iv : bytes) : result ptls_ffx_context_t :=
  _ ← guard_err (ffx_set ctx) ABORTED;
  Ok (mkFfx (ffx_set ctx) (enc_ctx ctx) (nb_rounds ctx) (ffx_is_enc ctx) (byte_length ctx) (nb_left ctx) (nb_right ctx)
        (mask_last_byte ctx) (take 16 iv)).

(** The object the macro defines. *)
(* src include/zpicotls/ffx.h:115-122 PTLS_FFX_CIPHER_ALGO *)
Definition PTLS_FFX_CIPHER_ALGO (bitlength nbrounds keysize : Z) : ptls_cipher_algorithm_t :=
  mkCipher keysize ((bitlength + 7) / 8) 16 SIZEOF_FFX_CONTEXT ptls_ffx_context_t
    (fun is_enc key => ptls_ffx_setup_crypto (Some (keysize, (bitlength + 7) / 8, 16)) ffx_zero is_enc nbrounds bitlength key)
    (Some ffx_init) ffx_encrypt.

(** ** The network as pure functions *)

Context `{StreamCipher algo}.

(** What one pass does to its target. *)
Definition pass (key tweaks : bytes) (rounds : Z) (source : bytes) (source_size target_size mask round : Z) (target : bytes) : bytes :=
  let iv := xor_n (Z.to_nat source_size) (alter (λ b, Z.lxor b rounds) (Z.to_nat (Z.land round 15)) (take 16 tweaks)) source in
  let confusion := zip_with Z.lxor (replicate 16 0) (stream_at key iv 0 16) in
  let j := Z.to_nat (target_size - 1) in
  alter (λ b, Z.lxor b (Z.land (default 0 (confusion !! j)) mask)) j (xor_n j target confusion).

Lemma one_pass_pure c key source ss target ts mask tw round rounds :
  keyed c key ->
  exists c', ptls_ffx_one_pass c source ss target ts mask tw round rounds = Ok (pass key tw rounds source ss ts mask round target, c')
    /\ keyed c' key.
Proof.
  intros Hk. unfold ptls_ffx_one_pass. set (iv := xor_n _ _ source).
  destruct (stream_init c key iv Hk) as (c1 & Hi & Hs). rewrite Hi. cbn [mbind result_bind].
  destruct (stream_transform c1 key iv 0 (replicate 16 0) Hs) as (c2 & Ht & Hs2). rewrite Ht. cbn [mbind result_bind].
  exists c2. split; [done|]. by eapply stream_keyed.
Qed.

Lemma pass_cancel key tw rounds source ss ts mask round target :
  pass key tw rounds source ss ts mask round (pass key tw rounds source ss ts mask round target) = target.
Proof.
  unfold pass. cbv zeta. rewrite <- xor_n_alter, xor_n_cancel, list_alter_alter_eq.
  apply list_alter_id. intros. apply lxor_cancel.
Qed.

(** The bytes beyond the target's size, and the bits of its last byte outside the mask, are kept. *)
Lemma pass_drop key tw rounds source ss ts mask round target :
  0 < ts -> drop (Z.to_nat ts) (pass key tw rounds source ss ts mask round target) = drop (Z.to_nat ts) target.
Proof.
  intros Hts. apply list_eq. intros i. rewrite !lookup_drop. unfold pass. cbv zeta.
  rewrite list_lookup_alter_ne by lia. apply xor_n_lookup_ge. lia.
Qed.

Lemma pass_last key tw rounds source ss ts mask round target :
  exists c, pass key tw rounds source ss ts mask round target !! Z.to_nat (ts - 1) =
    (λ b, Z.lxor b (Z.land c mask)) <$> target !! Z.to_nat (ts - 1).
Proof. unfold pass. cbv zeta. rewrite list_lookup_alter_eq, xor_n_lookup_ge by lia. eauto. Qed.

Lemma pass_len key tw rounds source ss ts mask round target :
  length (pass key tw rounds source ss ts mask round target) = length target.
Proof. unfold pass. cbv zeta. by rewrite length_alter, xor_n_len. Qed.

(** The two passes of an iteration from round [i], and their inverse. *)
Definition two_passes (ctx : ptls_ffx_context_t) (key : bytes) (i : Z) (h : bytes * bytes) : bytes * bytes :=
  let left := pass key (tweaks ctx) (u8 (nb_rounds ctx)) h.2 (nb_right ctx) (nb_left ctx) 0xFF (u8 i) h.1 in
  (left, pass key (tweaks ctx) (u8 (nb_rounds ctx)) left (nb_left ctx) (nb_right ctx) (mask_last_byte ctx) (u8 (i + 1)) h.2).

Definition two_passes_back (ctx : ptls_ffx_context_t) (key : bytes) (i : Z) (h : bytes * bytes) : bytes * bytes :=
  let right := pass key (tweaks ctx) (u8 (nb_rounds ctx)) h.1 (nb_left ctx) (nb_right ctx) (mask_last_byte ctx) (u8 (i + 1)) h.2 in
  (pass key (tweaks ctx) (u8 (nb_rounds ctx)) right (nb_right ctx) (nb_left ctx) 0xFF (u8 i) h.1, right).

Lemma two_passes_cancel ctx key i h : two_passes_back ctx key i (two_passes ctx key i h) = h.
Proof. destruct h as [l r]. unfold two_passes, two_passes_back. cbn [fst snd]. by rewrite !pass_cancel. Qed.

Fixpoint forward (ctx : ptls_ffx_context_t) (key : bytes) (n : nat) (i : Z) (h : bytes * bytes) : bytes * bytes :=
  match n with O => h | S n => forward ctx key n (i + 2) (two_passes ctx key i h) end.

Fixpoint backward (ctx : ptls_ffx_context_t) (key : bytes) (n : nat) (i : Z) (h : bytes * bytes) : bytes * bytes :=
  match n with O => h | S n => backward ctx key n (i - 2) (two_passes_back ctx key i h) end.

Lemma backward_last ctx key n i h : backward ctx key (S n) i h = two_passes_back ctx key (i - 2 * Z.of_nat n) (backward ctx key n i h).
Proof.
  revert i h. induction n as [|n IH]; intros i h; [simpl; f_equal; lia|].
  change (backward ctx key (S (S n)) i h) with (backward ctx key (S n) (i - 2) (two_passes_back ctx key i h)).
  rewrite IH. simpl. f_equal. lia.
Qed.

Lemma backward_forward ctx key n i h : backward ctx key n (i + 2 * (Z.of_nat n - 1)) (forward ctx key n i h) = h.
Proof.
  revert i h. induction n as [|n IH]; intros i h; [done|]. rewrite backward_last. simpl forward.
  replace (i + 2 * (Z.of_nat (S n) - 1)) with (i + 2 + 2 * (Z.of_nat n - 1)) by lia. rewrite IH.
  replace (i + 2 + 2 * (Z.of_nat n - 1) - 2 * Z.of_nat n) with i by lia. apply two_passes_cancel.
Qed.

(** The loops run them, with as much fuel as there are rounds. *)
Lemma enc_loop_forward n : forall fuel ctx c key l r i,
  keyed c key -> nb_rounds ctx = i + 2 * Z.of_nat n -> (n <= fuel)%nat ->
  ffx_enc_loop fuel ctx c l r i = Ok (forward ctx key n i (l, r)).
Proof.
  induction n as [|n IH]; intros fuel ctx c key l r i Hk Hn Hf.
  { destruct fuel; simpl; rewrite (proj2 (Z.ltb_ge _ _)) by lia; done. }
  destruct fuel as [|fuel]; [lia|]. cbn [ffx_enc_loop]. rewrite (proj2 (Z.ltb_lt _ _)) by lia.
  edestruct one_pass_pure as (c1 & E1 & Hk1); [exact Hk|]. rewrite E1. cbn [mbind result_bind].
  edestruct one_pass_pure as (c2 & E2 & Hk2); [exact Hk1|]. rewrite E2. cbn [mbind result_bind].
  rewrite (IH fuel ctx c2 key _ _ (i + 2) Hk2) by lia. done.
Qed.

Lemma dec_loop_backward n : forall fuel ctx c key l r i,
  keyed c key -> nb_rounds ctx = i + 2 * Z.of_nat n -> (n <= fuel)%nat ->
  ffx_dec_loop fuel ctx c l r i = Ok (backward ctx key n (nb_rounds ctx - 2 - i) (l, r)).
Proof.
  induction n as [|n IH]; intros fuel ctx c key l r i Hk Hn Hf.
  { destruct fuel; simpl; rewrite (proj2 (Z.ltb_ge _ _)) by lia; done. }
  destruct fuel as [|fuel]; [lia|]. cbn [ffx_dec_loop]. rewrite (proj2 (Z.ltb_lt _ _)) by lia.
  edestruct one_pass_pure as (c1 & E1 & Hk1); [exact Hk|]. rewrite E1. cbn [mbind result_bind].
  edestruct one_pass_pure as (c2 & E2 & Hk2); [exact Hk1|]. rewrite E2. cbn [mbind result_bind].
  rewrite (IH fuel ctx c2 key _ _ (i + 2) Hk2) by lia. 
  cbn [backward]. unfold two_passes_back. cbn [fst snd].
  replace (nb_rounds ctx - 2 - i + 1) with (nb_rounds ctx - 1 - i) by lia. do 2 f_equal. lia.
Qed.

(** ** Halves and blocks *)

(** A keyed context; the fields are those the set-up computes. *)
Record ffx_ok (ctx : ptls_ffx_context_t) (key : bytes) : Prop := {
  ok_set : ffx_set ctx = true;
  ok_enc : exists c, enc_ctx ctx = Some c /\ keyed c key;
  ok_len : 2 <= byte_length ctx <= 32;
  ok_left : nb_left ctx = byte_length ctx / 2;
  ok_right : nb_right ctx = byte_length ctx - byte_length ctx / 2;
}.

(** The index of the last byte of the second half, the halves the rounds start from, and the last byte. *)
Definition last_index (ctx : ptls_ffx_context_t) : nat := Z.to_nat (nb_right ctx - 1).

Definition split_block (ctx : ptls_ffx_context_t) (input : bytes) : bytes * bytes :=
  (half input 0 (nb_left ctx), alter (λ b, Z.land b (mask_last_byte ctx)) (last_index ctx) (half input (nb_left ctx) (nb_right ctx))).

Definition last_of (ctx : ptls_ffx_context_t) (input : bytes) : Z :=
  default 0 (half input (nb_left ctx) (nb_right ctx) !! last_index ctx).

(** Arrays of 16 bytes, zero beyond their half, the last byte of the second within the mask. *)
Record halves_ok (ctx : ptls_ffx_context_t) (h : bytes * bytes) : Prop := {
  left_len : length h.1 = 16%nat;
  right_len : length h.2 = 16%nat;
  left_zero : drop (Z.to_nat (nb_left ctx)) h.1 = replicate (16 - Z.to_nat (nb_left ctx)) 0;
  right_zero : drop (Z.to_nat (nb_right ctx)) h.2 = replicate (16 - Z.to_nat (nb_right ctx)) 0;
  right_mask : forall x, h.2 !! last_index ctx = Some x -> Z.land x (mask_last_byte ctx) = x;
}.

Lemma half_zero input off n :
  0 <= off -> 0 <= n <= 16 -> off + n <= len input ->
  length (half input off n) = 16%nat /\ drop (Z.to_nat n) (half input off n) = replicate (16 - Z.to_nat n) 0.
Proof.
  unfold len, half. intros Ho Hn Hl.
  assert (length (take (Z.to_nat n) (drop (Z.to_nat off) input)) = Z.to_nat n) as Hx by (rewrite length_take, length_drop; lia).
  rewrite length_app, length_replicate, Hx. split; [lia|]. by rewrite drop_app_length'.
Qed.

Lemma ffx_bounds ctx key : ffx_ok ctx key ->
  1 <= nb_left ctx <= 16 /\ 1 <= nb_right ctx <= 16 /\ nb_left ctx + nb_right ctx = byte_length ctx.
Proof. intros [_ _ Hl -> ->]. pose proof (Z.div_mod (byte_length ctx) 2 ltac:(done)). pose proof (Z.mod_pos_bound (byte_length ctx) 2 ltac:(done)). lia. Qed.

Lemma split_halves_ok ctx key input : ffx_ok ctx key -> len input = byte_length ctx -> halves_ok ctx (split_block ctx input).
Proof.
  intros Hok Hl. destruct (ffx_bounds ctx key Hok) as (Hb1 & Hb2 & Hb).
  destruct (half_zero input 0 (nb_left ctx)) as [Hl1 Hz1]; [lia..|].
  destruct (half_zero input (nb_left ctx) (nb_right ctx)) as [Hl2 Hz2]; [lia..|].
  split; cbn [split_block fst snd]; rewrite ?length_alter; try done.
  - rewrite <- Hz2. apply list_eq. intros i. rewrite !lookup_drop. apply list_lookup_alter_ne. unfold last_index. lia.
  - intros x. rewrite list_lookup_alter_eq. intros (y & _ & ->)%fmap_Some. bitwise.
Qed.

Lemma two_passes_ok ctx key i h : 0 < nb_left ctx -> 0 < nb_right ctx -> halves_ok ctx h -> halves_ok ctx (two_passes ctx key i h).
Proof.
  intros Hl Hr [H1 H2 H3 H4 H5]. split; cbn [two_passes fst snd]; rewrite ?pass_len, ?pass_drop; try done.
  intros x. unfold last_index in *. edestruct pass_last as (c & ->). intros (y & Hy & ->)%fmap_Some_1. rewrite land_lxor, (H5 y Hy). f_equal. bitwise.
Qed.

Lemma forward_ok ctx key n : forall i h, 0 < nb_left ctx -> 0 < nb_right ctx -> halves_ok ctx h -> halves_ok ctx (forward ctx key n i h).
Proof. induction n; intros i h Hl Hr Hh; [done|]. apply IHn; try done. by apply two_passes_ok. Qed.

(** Joining and splitting. *)
Lemma join_len ctx key b h : ffx_ok ctx key -> halves_ok ctx h -> len (ffx_join ctx b h.1 h.2) = byte_length ctx.
Proof.
  intros Hok [H1 H2 _ _ _]. destruct (ffx_bounds ctx key Hok) as (Hb1 & Hb2 & Hb). unfold ffx_join, len.
  rewrite length_app, !length_take, !length_alter, H1, H2. lia.
Qed.

Lemma half_join_left ctx key b h : ffx_ok ctx key -> halves_ok ctx h -> half (ffx_join ctx b h.1 h.2) 0 (nb_left ctx) = h.1.
Proof.
  intros Hok [H1 H2 H3 _ _]. destruct (ffx_bounds ctx key Hok) as (Hb1 & Hb2 & Hb). unfold half, ffx_join.
  rewrite drop_0, take_app_length' by (rewrite length_take; lia). rewrite <- H3. apply take_drop.
Qed.

Lemma half_join_right ctx key b h : ffx_ok ctx key -> halves_ok ctx h ->
  half (ffx_join ctx b h.1 h.2) (nb_left ctx) (nb_right ctx) =
  alter (λ x, Z.lor (Z.land x (mask_last_byte ctx)) (Z.land b (Z.lnot (mask_last_byte ctx)))) (last_index ctx) h.2.
Proof.
  intros Hok [H1 H2 _ H4 _]. destruct (ffx_bounds ctx key Hok) as (Hb1 & Hb2 & Hb). unfold half, ffx_join.
  rewrite drop_app_length' by (rewrite length_take; lia). rewrite list_alter_alter_eq, take_take, Nat.min_id.
  etrans; [|apply (take_drop (Z.to_nat (nb_right ctx)))]. f_equal. rewrite <- H4.
  apply list_eq. intros i. rewrite !lookup_drop. symmetry. apply list_lookup_alter_ne. unfold last_index. lia.
Qed.

Lemma split_join ctx key b h : ffx_ok ctx key -> halves_ok ctx h -> split_block ctx (ffx_join ctx b h.1 h.2) = h.
Proof.
  intros Hok Hh. unfold split_block. rewrite (half_join_left ctx key), (half_join_right ctx key) by done.
  destruct h as [l r]. cbn [fst snd]. f_equal. rewrite list_alter_alter_eq. rewrite <- (list_alter_id id r (last_index ctx)) at 2 by done.
  apply list_alter_ext; [|done]. intros x Hx. cbn. pose proof (right_mask _ _ Hh x Hx) as Hm. rewrite <- Hm at 2. bitwise.
Qed.

Lemma last_of_join ctx key b h : ffx_ok ctx key -> halves_ok ctx h ->
  Z.land (last_of ctx (ffx_join ctx b h.1 h.2)) (Z.lnot (mask_last_byte ctx)) = Z.land b (Z.lnot (mask_last_byte ctx)).
Proof.
  intros Hok Hh. unfold last_of. rewrite (half_join_right ctx key), list_lookup_alter_eq by done.
  destruct (lookup_lt_is_Some_2 h.2 (last_index ctx)) as (x & ->).
  { destruct Hh as [_ -> _ _ _]. destruct (ffx_bounds ctx key Hok) as (_ & Hb & _). unfold last_index. lia. }
  cbn. bitwise.
Qed.

Lemma join_split ctx key b p : ffx_ok ctx key -> len p = byte_length ctx ->
  Z.land b (Z.lnot (mask_last_byte ctx)) = Z.land (last_of ctx p) (Z.lnot (mask_last_byte ctx)) ->
  ffx_join ctx b (split_block ctx p).1 (split_block ctx p).2 = p.
Proof.
  intros Hok Hl Hb. destruct (ffx_bounds ctx key Hok) as (Hb1 & Hb2 & Hbs). unfold ffx_join, split_block. cbn [fst snd]. rewrite Hb.
  unfold last_of. change (Z.to_nat (nb_right ctx - 1)) with (last_index ctx). set (R := half p (nb_left ctx) _).
  rewrite !list_alter_alter_eq.
  replace (alter _ _ R) with R.
  - unfold R, half, len in *. rewrite drop_0, !take_app_length' by (rewrite length_take, ?length_drop; lia).
    rewrite (take_ge (drop _ _)) by (rewrite length_drop; lia). apply take_drop.
  - rewrite <- (list_alter_id id R (last_index ctx)) at 1 by done. apply list_alter_ext; [|done]. intros x ->. cbn. bitwise.
Qed.

(** ** Decryption undoes encryption *)

Lemma ffx_encrypt_rounds ctx key n p : ffx_ok ctx key -> len p = byte_length ctx -> nb_rounds ctx = 2 * Z.of_nat n ->
  let h := (if ffx_is_enc ctx then forward ctx key n 0 else backward ctx key n (nb_rounds ctx - 2)) (split_block ctx p) in
  ffx_encrypt ctx p = Ok (ffx_join ctx (last_of ctx p) h.1 h.2, ctx).
Proof.
  intros [Hs (c & Hc & Hk) _ _ _] Hl Hn h. unfold ffx_encrypt. rewrite Hs, Hl, Z.eqb_refl, Hc. cbn [guard_err mbind result_bind negb].
  subst h. unfold split_block, last_of, last_index. destruct (ffx_is_enc ctx).
  - rewrite (enc_loop_forward n _ ctx c key) by (done || lia). cbn [mbind result_bind]. by destruct (forward _ _ _ _ _).
  - rewrite (dec_loop_backward n _ ctx c key) by (done || lia). rewrite Z.sub_0_r. cbn [mbind result_bind]. by destruct (backward _ _ _ _ _).
Qed.

Lemma backward_ext c1 c2 key n : (forall i h, two_passes_back c1 key i h = two_passes_back c2 key i h) ->
  forall i h, backward c1 key n i h = backward c2 key n i h.
Proof. intros Hx. induction n; intros i h; [done|]. simpl. by rewrite Hx, IHn. Qed.

(** Two contexts of one shape, one for each direction. *)
Lemma ffx_pair_inverts ce cd rounds L NL NR m tw key n p :
  let ectx := mkFfx true (Some ce) rounds true L NL NR m tw in
  let dctx := mkFfx true (Some cd) rounds false L NL NR m tw in
  ffx_ok ectx key -> ffx_ok dctx key -> rounds = 2 * Z.of_nat n -> len p = L ->
  exists c, ffx_encrypt ectx p = Ok (c, ectx) /\ len c = L /\ ffx_encrypt dctx c = Ok (p, dctx) /\
    Z.land (last_of ectx c) (Z.lnot m) = Z.land (last_of ectx p) (Z.lnot m).
Proof.
  intros ectx dctx He Hd Hn Hl. destruct (ffx_bounds ectx key He) as (Hb1 & Hb2 & Hb).
  pose proof (ffx_encrypt_rounds ectx key n p He Hl Hn) as Henc. cbn [ffx_is_enc ectx] in Henc. cbv zeta in Henc.
  set (h := forward ectx key n 0 (split_block ectx p)) in *.
  assert (halves_ok ectx h) as Hh by (apply forward_ok; [lia|lia|by eapply split_halves_ok]).
  set (c := ffx_join ectx (last_of ectx p) h.1 h.2) in *. exists c. split; [done|].
  assert (len c = L) as Hc by (by eapply (join_len ectx)). split; [done|].
  pose proof (last_of_join ectx key (last_of ectx p) h He Hh) as Hlast. split; [|done].
  rewrite (ffx_encrypt_rounds dctx key n c Hd Hc Hn). cbn [ffx_is_enc dctx nb_rounds].
  change (split_block dctx c) with (split_block ectx c). unfold c at 2 3. rewrite (split_join ectx key) by done.
  rewrite (backward_ext dctx ectx) by done. replace (rounds - 2) with (0 + 2 * (Z.of_nat n - 1)) by lia.
  unfold h. rewrite backward_forward. do 2 f_equal.
  change (last_of dctx c) with (last_of ectx c). by apply (join_split ectx key).
Qed.
End Ffx.

(** ** What the set-up gives *)

(** The low [n] bits of the last byte are the same. *)
Definition same_low_bits (n : Z) (p c : bytes) : Prop := default 0 (last p) mod 2 ^ n = default 0 (last c) mod 2 ^ n.

Lemma setup_ffx_ok `{Allocator} algo `{StreamCipher algo} sizes is_enc rounds bits key ctx :
  0 <= bits < 2 ^ 63 ->
  ptls_ffx_setup_crypto algo sizes (ffx_zero algo) is_enc rounds bits key = Ok ctx ->
  let L := (bits + 7) / 8 in
  exists c, ctx = mkFfx algo true (Some c) rounds is_enc L (L / 2) (L - L / 2) (default 0 (last_byte_mask !! Z.to_nat (bits mod 8))) (replicate 16 0)
    /\ keyed c key /\ 2 <= L <= 32.
Proof.
  intros Hb Hs L. unfold ptls_ffx_setup_crypto in Hs. rewrite u64_small in Hs by lia. fold L in Hs. inv_ok.
  rewrite Ha in Ha3. destruct a3 as [c|]; [|by destruct (ffx_dispose _ _)]. exists c.
  apply cipher_new_some in Ha3. split; [by injection Hs as <-|]. split; [by eapply stream_setup|]. lia.
Qed.

(** The bits outside the mask of a length are the low bits of the byte. *)
Lemma outside_mask bits x :
  0 <= bits -> Z.land x (Z.lnot (default 0 (last_byte_mask !! Z.to_nat (bits mod 8)))) mod 2 ^ (bits mod 8) = x mod 2 ^ (bits mod 8).
Proof.
  intros Hb. pose proof (Z.mod_pos_bound bits 8 ltac:(done)) as Hr. rewrite <- !Z.land_ones by lia. rewrite <- Z.land_assoc. f_equal.
  assert (bits mod 8 ∈ [0; 1; 2; 3; 4; 5; 6; 7]) as Hin.
  { destruct (decide (bits mod 8 ∈ [0; 1; 2; 3; 4; 5; 6; 7])) as [|Hn]; [done|]. exfalso. apply Hn. rewrite !elem_of_cons. lia. }
  rewrite !elem_of_cons in Hin. destruct_or! Hin; try by rewrite Hin. by apply not_elem_of_nil in Hin.
Qed.

Lemma last_of_last `{Allocator} algo `{StreamCipher algo} ctx key p :
  ffx_ok algo ctx key -> len p = byte_length algo ctx -> last_of algo ctx p = default 0 (last p).
Proof.
  intros Hok Hl. destruct (ffx_bounds algo ctx key Hok) as (Hb1 & Hb2 & Hb). unfold last_of, half, last_index, len in *.
  rewrite lookup_app_l by (rewrite length_take, length_drop; lia).
  rewrite lookup_take_lt, lookup_drop, last_lookup by lia. do 2 f_equal. lia.
Qed.

(** the cipher object that [PTLS_FFX_CIPHER_ALGO] defines over any stream cipher, for an even number
    of rounds, decrypts what it encrypts: a block of the object's length, encrypted by a context set up
    for encryption, is given back by the context set up for decryption with the same key and IV; the
    ciphertext is as long as the block, and of its last byte the low [bitlength mod 8] bits are those of
    the block. *)
Theorem ffx_roundtrip `{Allocator} algo `{StreamCipher algo} bitlength nbrounds keysize :
  0 <= bitlength < 2 ^ 63 -> 0 <= nbrounds -> Z.even nbrounds = true ->
  inverts (PTLS_FFX_CIPHER_ALGO algo bitlength nbrounds keysize) (fun p => len p = (bitlength + 7) / 8)
    (same_low_bits (bitlength mod 8)).
Proof.
  intros Hbits Hn Heven key iv p enc dec He Hd Hp Hiv. cbn in He, Hd.
  destruct (setup_ffx_ok algo _ _ _ _ _ _ Hbits He) as (ce & -> & Hke & HL).
  destruct (setup_ffx_ok algo _ _ _ _ _ _ Hbits Hd) as (cd & -> & Hkd & _). clear He Hd.
  set (L := (bitlength + 7) / 8) in *. set (m := default 0 _).
  set (ectx := mkFfx algo true (Some ce) nbrounds true L (L / 2) (L - L / 2) m (take 16 iv)).
  set (dctx := mkFfx algo true (Some cd) nbrounds false L (L / 2) (L - L / 2) m (take 16 iv)).
  assert (ffx_ok algo ectx key) as Hoe by (split; cbn; eauto).
  assert (ffx_ok algo dctx key) as Hod by (split; cbn; eauto).
  apply Zeven_bool_iff, Zeven_ex in Heven as (k & ->).
  destruct (ffx_pair_inverts algo ce cd (2 * k) L (L / 2) (L - L / 2) m (take 16 iv) key (Z.to_nat k) p)
    as (c & Hc & Hl & Hdec & Hbits'); [done|done|lia|done|].
  exists ectx, c, ectx, dctx, dctx. repeat split; try done; [unfold len in *; lia|].
  fold ectx in Hbits'. rewrite !(last_of_last algo ectx key) in Hbits' by done.
  apply (f_equal (λ x, x mod 2 ^ (bitlength mod 8))) in Hbits'. unfold m in Hbits'. rewrite !outside_mask in Hbits' by lia. done.
Qed.

(** ** Evaluations *)

Definition toy_key : bytes := [1; 2; 3; 4; 5; 6; 7; 8; 9; 10; 11; 12; 13; 14; 15; 16].

Section Evaluations.
#[local] Existing Instance bump_allocator.

Definition toy_ffx (bits rounds : Z) : ptls_cipher_algorithm_t := PTLS_FFX_CIPHER_ALGO toy_stream bits rounds 16.

(** A block of 53 bits, 8 rounds: the last byte keeps its 5 low bits. *)
Lemma ffx_roundtrip_witness :
  exists c, cipher_run (toy_ffx 53 8) true toy_key toy_key [48; 49; 50; 51; 52; 53; 54] = Ok c /\
    same_low_bits 5 [48; 49; 50; 51; 52; 53; 54] c /\
    cipher_run (toy_ffx 53 8) false toy_key toy_key c = Ok [48; 49; 50; 51; 52; 53; 54].
Proof.
  apply (inverts_run _ _ _ toy_key toy_key [48; 49; 50; 51; 52; 53; 54] (ffx_roundtrip toy_stream 53 8 16 ltac:(lia) ltac:(lia) eq_refl));
    reflexivity.
Defined.

(** The header promises that of a block of 33 bits the 7 low bits of the fifth byte are untouched: they
    are not, the mask of the code keeps one bit. *)
Example ffx_extra_bits_touched :
  exists c, cipher_run (toy_ffx 33 4) true toy_key toy_key [1; 2; 3; 4; 5] = Ok c /\ ~ same_low_bits 7 [1; 2; 3; 4; 5] c.
Proof. eexists. split; [vm_compute; reflexivity|]. by vm_compute. Qed.

(** Nothing stops an odd number of rounds, with which decryption does not give the block back. *)
Example ffx_odd_rounds_not_inverse :
  exists c p, cipher_run (toy_ffx 40 3) true toy_key toy_key [1; 2; 3; 4; 5] = Ok c /\
    cipher_run (toy_ffx 40 3) false toy_key toy_key c = Ok p /\ p <> [1; 2; 3; 4; 5].
Proof. eexists. eexists. split; [vm_compute; reflexivity|]. split; [vm_compute; reflexivity|]. done. Qed.

(** When the cipher has no context (its set-up fails), the set-up of FFX does not return the error it
    has: it calls [ffx_dispose], whose first assertion is on a callback that is not yet set. *)
Example ffx_setup_failure_aborts :
  cipher_run (PTLS_FFX_CIPHER_ALGO (mkCipher 16 1 16 64 unit (fun _ _ => Err PTLS_ERROR_LIBRARY) None (fun st _ => Ok ([], st))) 40 4 16)
    true toy_key toy_key [1; 2; 3; 4; 5] = Err ABORTED.
Proof. reflexivity. Qed.

End Evaluations.
