(* ===== verification/QuicLb.v ===== *)
(** * QuicLb: the QUIC-LB block cipher ([lib/quiclb-impl.h], [lib/openssl.c])

    Connection IDs of 7 to 19 bytes are encrypted by four Feistel rounds over AES-ECB.  The halves are
    16-byte blocks; of an odd length they share the middle byte, whose high nibble belongs to the left
    half and whose low nibble to the right one, so a block is only meaningful up to its mask:
    [same_under m] is that equality, a congruence for what the rounds do. *)

From S2P Require Import Prelude Constants Wire Buffer Crypto Cipher.

(** A block is its 16 bytes; the operations on words and on vectors act byte by byte. *)
Abbreviation picotls_quiclb_block := bytes (only parsing).

Definition land_block (a b : bytes) : bytes := zip_with Z.land a b.
Definition lor_block (a b : bytes) : bytes := zip_with Z.lor a b.
Definition xor_block (a b : bytes) : bytes := zip_with Z.lxor a b.

(** The bytes given, zeros up to 16. *)
Definition pad_block (b : bytes) : bytes := b ++ replicate (16 - length b) 0.

(* src lib/quiclb-impl.h:41-44 picotls_quiclb_cipher_aes *)
Definition picotls_quiclb_cipher_aes {algo} (aesecb : ptls_cipher_context_t algo) (block : picotls_quiclb_block)
    : result (picotls_quiclb_block * ptls_cipher_context_t algo) :=
  ptls_cipher_encrypt aesecb block.

Section Transform.
Context {C : Type} (aesecb_func : C -> picotls_quiclb_block -> result (picotls_quiclb_block * C)).

(** [dest] and the cipher's context. *)
(* src lib/quiclb-impl.h:49-69 picotls_quiclb_one_round *)
Definition picotls_quiclb_one_round (aesecb_ctx : C) (x y mask len_pass : picotls_quiclb_block) : result (picotls_quiclb_block * C) :=
  let dest := lor_block (land_block y mask) len_pass in
  '(dest, aesecb_ctx) ← aesecb_func aesecb_ctx dest;
  Ok (xor_block dest x, aesecb_ctx).

(** [n] is the length of the input. *)
(* src lib/quiclb-impl.h:71-83 picotls_quiclb_split_input *)
Definition picotls_quiclb_split_input (input : bytes) (n : Z) : picotls_quiclb_block * picotls_quiclb_block :=
  (pad_block (take (Z.to_nat ((n + 1) / 2)) input),
   pad_block (take (Z.to_nat ((n + 1) / 2)) (drop (Z.to_nat (n / 2)) input))).

(* src lib/quiclb-impl.h:85-101 picotls_quiclb_merge_output *)
Definition picotls_quiclb_merge_output (n : Z) (l r : picotls_quiclb_block) : bytes :=
  let h := Z.to_nat (n / 2) in
  take h l ++
  (if n mod 2 =? 0 then take h r
   else Z.lor (Z.land (default 0 (l !! h)) 0xf0) (Z.land (default 0 (r !! 0%nat)) 0x0f) :: take h (drop 1 r)).

(** The masks of the left and of the right half, by length from 7 on. *)
(* src lib/quiclb-impl.h:111-130 masks *)
Definition masks : list (picotls_quiclb_block * picotls_quiclb_block) :=
  prod_map pad_block pad_block <$>
  [([0xff; 0xff; 0xff; 0xf0], [0x0f; 0xff; 0xff; 0xff]);
   ([0xff; 0xff; 0xff; 0xff], [0xff; 0xff; 0xff; 0xff]);
   ([0xff; 0xff; 0xff; 0xff; 0xf0], [0x0f; 0xff; 0xff; 0xff; 0xff]);
   ([0xff; 0xff; 0xff; 0xff; 0xff], [0xff; 0xff; 0xff; 0xff; 0xff]);
   ([0xff; 0xff; 0xff; 0xff; 0xff; 0xf0], [0x0f; 0xff; 0xff; 0xff; 0xff; 0xff]);
   ([0xff; 0xff; 0xff; 0xff; 0xff; 0xff], [0xff; 0xff; 0xff; 0xff; 0xff; 0xff]);
   ([0xff; 0xff; 0xff; 0xff; 0xff; 0xff; 0xf0], [0x0f; 0xff; 0xff; 0xff; 0xff; 0xff; 0xff]);
   ([0xff; 0xff; 0xff; 0xff; 0xff; 0xff; 0xff], [0xff; 0xff; 0xff; 0xff; 0xff; 0xff; 0xff]);
   ([0xff; 0xff; 0xff; 0xff; 0xff; 0xff; 0xff; 0xf0], [0x0f; 0xff; 0xff; 0xff; 0xff; 0xff; 0xff; 0xff]);
   ([0xff; 0xff; 0xff; 0xff; 0xff; 0xff; 0xff; 0xff], [0xff; 0xff; 0xff; 0xff; 0xff; 0xff; 0xff; 0xff]);
   ([0xff; 0xff; 0xff; 0xff; 0xff; 0xff; 0xff; 0xff; 0xf0], [0x0f; 0xff; 0xff; 0xff; 0xff; 0xff; 0xff; 0xff; 0xff]);
   ([0xff; 0xff; 0xff; 0xff; 0xff; 0xff; 0xff; 0xff; 0xff], [0xff; 0xff; 0xff; 0xff; 0xff; 0xff; 0xff; 0xff; 0xff]);
   ([0xff; 0xff; 0xff; 0xff; 0xff; 0xff; 0xff; 0xff; 0xff; 0xf0], [0x0f; 0xff; 0xff; 0xff; 0xff; 0xff; 0xff; 0xff; 0xff; 0xff])].

(** [len_pass]: the length in byte 14, the round in byte 15. *)
Definition len_pass (n rnd : Z) : picotls_quiclb_block := replicate 14 0 ++ [u8 n; rnd].

(* src lib/quiclb-impl.h:108-162 picotls_quiclb_transform *)
Definition picotls_quiclb_transform (aesecb_ctx : C) (input : bytes) (encrypt : bool) : result (bytes * C) :=
  let n := len input in
  _ ← guard_err ((PTLS_QUICLB_MIN_BLOCK_SIZE <=? n) && (n <=? PTLS_QUICLB_MAX_BLOCK_SIZE)) ABORTED;
  let '(mask_l, mask_r) := default ([], []) (masks !! Z.to_nat (n - PTLS_QUICLB_MIN_BLOCK_SIZE)) in
  if encrypt then
    let '(l0, r0) := picotls_quiclb_split_input input n in
    '(r1, ctx) ← picotls_quiclb_one_round aesecb_ctx r0 l0 mask_l (len_pass n 1);
    '(l1, ctx) ← picotls_quiclb_one_round ctx l0 r1 mask_r (len_pass n 2);
    '(r2, ctx) ← picotls_quiclb_one_round ctx r1 l1 mask_l (len_pass n 3);
    '(l2, ctx) ← picotls_quiclb_one_round ctx l1 r2 mask_r (len_pass n 4);
    Ok (picotls_quiclb_merge_output n l2 r2, ctx)
  else
    let '(l2, r2) := picotls_quiclb_split_input input n in
    '(l1, ctx) ← picotls_quiclb_one_round aesecb_ctx l2 r2 mask_r (len_pass n 4);
    '(r1, ctx) ← picotls_quiclb_one_round ctx r2 l1 mask_l (len_pass n 3);
    '(l0, ctx) ← picotls_quiclb_one_round ctx l1 r1 mask_r (len_pass n 2);
    '(r0, ctx) ← picotls_quiclb_one_round ctx r1 l0 mask_l (len_pass n 1);
    Ok (picotls_quiclb_merge_output n l0 r0, ctx).
End Transform.

(** ** The cipher object over AES-ECB *)

Section Object.
Context `{Allocator}.
Context (aes128ecb : ptls_cipher_algorithm_t).

(** The direction is the [do_transform] that is set. *)
(* src lib/openssl.c:1441-1444 quiclb_context_t *)
Record quiclb_context_t := mkQuicLb { quiclb_is_enc : bool; aesecb : ptls_cipher_context_t aes128ecb }.

(* src lib/openssl.c:1464-1475 quiclb_setup_crypto *)
Definition quiclb_setup_crypto (is_enc : bool) (key : bytes) : result quiclb_context_t :=
  c ← ptls_cipher_new aes128ecb true key;
  match c with
  | None => Err PTLS_ERROR_LIBRARY
  | Some c => Ok (mkQuicLb is_enc c)
  end.

(* src lib/quiclb-impl.h:103-106 picotls_quiclb_do_init *)
Definition picotls_quiclb_do_init (ctx : quiclb_context_t) (iv : bytes) : result quiclb_context_t := Ok ctx.

(* src lib/openssl.c:1452-1456 quiclb_encrypt *)
Definition quiclb_encrypt (ctx : quiclb_context_t) (input : bytes) : result (bytes * quiclb_context_t) :=
  '(out, c) ← picotls_quiclb_transform picotls_quiclb_cipher_aes (aesecb ctx) input true;
  Ok (out, mkQuicLb (quiclb_is_enc ctx) c).

(* src lib/openssl.c:1458-1462 quiclb_decrypt *)
Definition quiclb_decrypt (ctx : quiclb_context_t) (input : bytes) : result (bytes * quiclb_context_t) :=
  '(out, c) ← picotls_quiclb_transform picotls_quiclb_cipher_aes (aesecb ctx) input false;
  Ok (out, mkQuicLb (quiclb_is_enc ctx) c).

(* src lib/openssl.c:2661-2668 ptls_openssl_quiclb *)
Definition ptls_openssl_quiclb : ptls_cipher_algorithm_t :=
  mkCipher PTLS_QUICLB_KEY_SIZE 8 0 40 quiclb_context_t quiclb_setup_crypto (Some picotls_quiclb_do_init)
    (fun ctx => (if quiclb_is_enc ctx then quiclb_encrypt else quiclb_decrypt) ctx).
End Object.

(** ** Equality of blocks under a mask *)

Definition same_under (m a b : bytes) : Prop := land_block a m = land_block b m.

#[global] Instance same_under_equiv m : Equivalence (same_under m).
Proof. split; unfold same_under; [by intros ?|by intros ? ?|intros ? ? ? ->; done]. Qed.

Lemma land_xor_block a b m : land_block (xor_block a b) m = xor_block (land_block a m) (land_block b m).
Proof. unfold land_block, xor_block. revert b m. induction a as [|x a IH]; intros [|y b] [|z m]; simpl; try done. by rewrite land_lxor, IH. Qed.

#[global] Instance xor_block_proper m d : Proper (same_under m ==> same_under m) (xor_block d).
Proof. intros x y Hxy. unfold same_under in *. by rewrite !land_xor_block, Hxy. Qed.

Lemma xor_block_cancel a x : length a = length x -> xor_block a (xor_block a x) = x.
Proof.
  unfold xor_block. revert x. induction a as [|y a IH]; intros [|z x] Hl; try done. simpl in *.
  rewrite IH by lia. f_equal. rewrite <- Z.lxor_assoc, Z.lxor_nilpotent. apply Z.lxor_0_l.
Qed.

(** ** Splitting and merging *)

Ltac destruct_block l := repeat (destruct l as [|? l]; [discriminate|]); destruct l; [|discriminate].

Lemma lengths_7_19 (n : Z) : 7 <= n <= 19 ->
  n = 7 \/ n = 8 \/ n = 9 \/ n = 10 \/ n = 11 \/ n = 12 \/ n = 13 \/ n = 14 \/ n = 15 \/ n = 16 \/ n = 17 \/ n = 18 \/ n = 19.
Proof. lia. Qed.

Ltac each_length Hn := apply lengths_7_19 in Hn; destruct_or! Hn; subst.

Definition mask_of (n : Z) : bytes * bytes := default ([], []) (masks !! Z.to_nat (n - PTLS_QUICLB_MIN_BLOCK_SIZE)).

Lemma mask_of_len n : 7 <= n <= 19 -> length (mask_of n).1 = 16%nat /\ length (mask_of n).2 = 16%nat.
Proof. intros Hn. by each_length Hn. Qed.

Lemma high_nibble a b : Z.land (Z.lor (Z.land a 240) (Z.land b 15)) 240 = Z.land a 240.
Proof. rewrite Z.land_lor_distr_l, <- !Z.land_assoc. change (Z.land 15 240) with 0. by rewrite Z.land_0_r, Z.lor_0_r. Qed.

Lemma low_nibble a b : Z.land (Z.lor (Z.land a 240) (Z.land b 15)) 15 = Z.land b 15.
Proof. rewrite Z.land_lor_distr_l, <- !Z.land_assoc. change (Z.land 240 15) with 0. by rewrite Z.land_0_r, Z.lor_0_l. Qed.

Lemma nibbles a : is_byte a -> Z.lor (Z.land a 240) (Z.land a 15) = a.
Proof. intros Ha. rewrite <- Z.land_lor_distr_r. by apply is_byte_land. Qed.

(** What is merged and split again is the same under the masks. *)
Lemma split_merge n l r : 7 <= n <= 19 -> length l = 16%nat -> length r = 16%nat ->
  same_under (mask_of n).1 (picotls_quiclb_split_input (picotls_quiclb_merge_output n l r) n).1 l /\
  same_under (mask_of n).2 (picotls_quiclb_split_input (picotls_quiclb_merge_output n l r) n).2 r.
Proof.
  intros Hn Hl Hr. unfold same_under, land_block. destruct_block l. destruct_block r.
  each_length Hn; cbv -[Z.land Z.lor]; rewrite ?high_nibble, ?low_nibble, ?Z.land_0_r; done.
Qed.

(** Merging only sees what is under the masks. *)
Lemma merge_masked n l r : 7 <= n <= 19 -> length l = 16%nat -> length r = 16%nat -> is_bytes l -> is_bytes r ->
  picotls_quiclb_merge_output n l r =
  picotls_quiclb_merge_output n (land_block l (mask_of n).1) (land_block r (mask_of n).2).
Proof.
  intros Hn Hl Hr Hbl Hbr. assert (forall a, Z.land (Z.land a 240) 240 = Z.land a 240) as H1 by (intros; by rewrite <- Z.land_assoc).
  assert (forall a, Z.land (Z.land a 15) 15 = Z.land a 15) as H2 by (intros; by rewrite <- Z.land_assoc).
  destruct_block l. destruct_block r. rewrite !Forall_cons, !is_byte_land in Hbl, Hbr. destruct_and! Hbl. destruct_and! Hbr.
  each_length Hn; cbv -[Z.land Z.lor]; rewrite ?H1, ?H2; congruence.
Qed.

Lemma merge_split n p : 7 <= n <= 19 -> len p = n -> is_bytes p ->
  picotls_quiclb_merge_output n (picotls_quiclb_split_input p n).1 (picotls_quiclb_split_input p n).2 = p.
Proof.
  intros Hn Hl Hp. assert (length p = Z.to_nat n) as Hlen by (unfold len in Hl; lia). clear Hl. each_length Hn;
    repeat (destruct p as [|? p]; [discriminate|]); (destruct p; [|discriminate]);
    rewrite !Forall_cons in Hp; destruct_and! Hp; cbv -[Z.land Z.lor]; rewrite ?nibbles by done; done.
Qed.

(** ** Decryption undoes encryption *)

Section Rounds.
Context (algo : ptls_cipher_algorithm_t) `{BlockCipher algo}.

(** One round, as a function of the key. *)
Definition quiclb_round (key x y mask lp : bytes) : bytes := xor_block (block key (lor_block (land_block y mask) lp)) x.

Lemma one_round_pure c key x y mask lp :
  block_keyed c key -> length y = 16%nat -> length mask = 16%nat -> length lp = 16%nat ->
  exists c', picotls_quiclb_one_round (picotls_quiclb_cipher_aes (algo := algo)) c x y mask lp = Ok (quiclb_round key x y mask lp, c')
    /\ block_keyed c' key.
Proof.
  intros Hk Hy Hm Hp. unfold picotls_quiclb_one_round, picotls_quiclb_cipher_aes.
  edestruct (block_transform c key) as (c' & Hc & Hk'); [done| |rewrite Hc; by exists c'].
  unfold lor_block, land_block. rewrite !length_zip_with. lia.
Qed.

Lemma round_len key x y mask lp : length x = 16%nat -> length (quiclb_round key x y mask lp) = 16%nat.
Proof. intros Hx. unfold quiclb_round, xor_block. rewrite length_zip_with, block_len. lia. Qed.

Lemma round_bytes key x y mask lp : is_bytes x -> is_bytes (quiclb_round key x y mask lp).
Proof. intros Hx. apply is_bytes_zip_lxor; [apply block_bytes|done]. Qed.

#[local] Instance round_proper key m mask lp : Proper (same_under m ==> same_under mask ==> same_under m) (λ x y, quiclb_round key x y mask lp).
Proof. intros x x' Hx y y' Hy. unfold quiclb_round. unfold same_under in Hy. rewrite Hy. by apply xor_block_proper. Qed.

Lemma round_cancel key x y mask lp : length x = 16%nat -> quiclb_round key (quiclb_round key x y mask lp) y mask lp = x.
Proof. intros Hx. apply xor_block_cancel. by rewrite block_len. Qed.

(** A round undone from halves that are the same under the masks. *)
Lemma round_undone key m x y mask lp x' y' :
  length x = 16%nat -> same_under m x' (quiclb_round key x y mask lp) -> same_under mask y' y ->
  same_under m (quiclb_round key x' y' mask lp) x.
Proof. intros Hx Hx' Hy. rewrite <- (round_cancel key x y mask lp Hx). by apply round_proper. Qed.

Lemma split_len p n : 7 <= n <= 19 -> len p = n -> is_bytes p ->
  let '(l, r) := picotls_quiclb_split_input p n in
  length l = 16%nat /\ length r = 16%nat /\ is_bytes l /\ is_bytes r.
Proof.
  intros Hn Hl Hp. assert (0 <= (n + 1) / 2 <= 16) as Hh by (split; [apply Z.div_pos|apply Z.div_le_upper_bound]; lia). cbn.
  assert (forall b, is_bytes b -> (length b <= 16)%nat -> length (pad_block b) = 16%nat /\ is_bytes (pad_block b)) as Hpad.
  { intros b Hb Hlb. unfold pad_block. rewrite length_app, length_replicate. split; [lia|].
    apply Forall_app. split; [done|]. by apply Forall_replicate. }
  destruct (Hpad (take (Z.to_nat ((n + 1) / 2)) p)) as [-> ?]; [by apply Forall_take|rewrite length_take; lia|].
  destruct (Hpad (take (Z.to_nat ((n + 1) / 2)) (drop (Z.to_nat (n / 2)) p))) as [-> ?];
    [by apply Forall_take, Forall_drop|rewrite length_take; lia|]. done.
Qed.

Lemma len_pass_len n i : length (len_pass n i) = 16%nat.
Proof. done. Qed.

(** The four rounds, from a split input. *)
Definition enc_rounds (key : bytes) (n : Z) (h : bytes * bytes) : bytes * bytes :=
  let '(l0, r0) := h in let '(ml, mr) := mask_of n in
  let r1 := quiclb_round key r0 l0 ml (len_pass n 1) in
  let l1 := quiclb_round key l0 r1 mr (len_pass n 2) in
  let r2 := quiclb_round key r1 l1 ml (len_pass n 3) in
  (quiclb_round key l1 r2 mr (len_pass n 4), r2).

Definition dec_rounds (key : bytes) (n : Z) (h : bytes * bytes) : bytes * bytes :=
  let '(l2, r2) := h in let '(ml, mr) := mask_of n in
  let l1 := quiclb_round key l2 r2 mr (len_pass n 4) in
  let r1 := quiclb_round key r2 l1 ml (len_pass n 3) in
  let l0 := quiclb_round key l1 r1 mr (len_pass n 2) in
  (l0, quiclb_round key r1 l0 ml (len_pass n 1)).

Definition block_pair_ok (h : bytes * bytes) : Prop := length h.1 = 16%nat /\ length h.2 = 16%nat /\ is_bytes h.1 /\ is_bytes h.2.

Lemma enc_rounds_ok key n h : block_pair_ok h -> block_pair_ok (enc_rounds key n h).
Proof.
  destruct h as [l r]. intros (? & ? & ? & ?). unfold enc_rounds. destruct (mask_of n).
  repeat split; cbn [fst snd] in *; auto using round_len, round_bytes.
Qed.

Lemma dec_rounds_ok key n h : block_pair_ok h -> block_pair_ok (dec_rounds key n h).
Proof.
  destruct h as [l r]. intros (? & ? & ? & ?). unfold dec_rounds. destruct (mask_of n).
  repeat split; cbn [fst snd] in *; auto using round_len, round_bytes.
Qed.

Lemma dec_enc_rounds key n h h' : block_pair_ok h ->
  same_under (mask_of n).1 h'.1 (enc_rounds key n h).1 -> same_under (mask_of n).2 h'.2 (enc_rounds key n h).2 ->
  same_under (mask_of n).1 (dec_rounds key n h').1 h.1 /\ same_under (mask_of n).2 (dec_rounds key n h').2 h.2.
Proof.
  destruct h as [l0 r0], h' as [l2' r2']. intros (Hl & Hr & _ & _). unfold enc_rounds, dec_rounds. destruct (mask_of n) as [ml mr].
  cbn [fst snd] in *. intros H2l H2r.
  pose proof (fun Hx => round_undone key ml _ _ _ _ _ _ Hx H2l H2r) as H1l. specialize (H1l ltac:(by apply round_len)).
  pose proof (fun Hx => round_undone key mr _ _ _ _ _ _ Hx H2r H1l) as H1r. specialize (H1r ltac:(by apply round_len)).
  pose proof (fun Hx => round_undone key ml _ _ _ _ _ _ Hx H1l H1r) as H0l. specialize (H0l Hl).
  pose proof (fun Hx => round_undone key mr _ _ _ _ _ _ Hx H1r H0l) as H0r. specialize (H0r Hr). done.
Qed.

(** The transform runs them. *)
Lemma transform_pure c key p (encrypt : bool) : block_keyed c key -> 7 <= len p <= 19 -> is_bytes p ->
  let h := (if encrypt then enc_rounds else dec_rounds) key (len p) (picotls_quiclb_split_input p (len p)) in
  exists c', picotls_quiclb_transform (picotls_quiclb_cipher_aes (algo := algo)) c p encrypt = Ok (picotls_quiclb_merge_output (len p) h.1 h.2, c')
    /\ block_keyed c' key.
Proof.
  intros Hk Hn Hp h. unfold picotls_quiclb_transform. cbv zeta.
  rewrite (proj2 (Z.leb_le _ (len p))), (proj2 (Z.leb_le (len p) _)) by (unfold PTLS_QUICLB_MIN_BLOCK_SIZE, PTLS_QUICLB_MAX_BLOCK_SIZE; lia).
  cbn [guard_err mbind result_bind andb]. fold (mask_of (len p)). subst h.
  destruct (mask_of_len (len p) Hn) as [Hml Hmr]. pose proof (split_len p (len p) Hn eq_refl Hp) as Hs.
  destruct encrypt; unfold enc_rounds, dec_rounds;
    destruct (mask_of (len p)) as [ml mr], (picotls_quiclb_split_input p (len p)) as [l r];
    cbn [fst snd] in *; destruct Hs as (Hl & Hr & _ & _).
  all: do 4 (edestruct one_round_pure as (? & -> & ?); [eassumption|first [assumption|by repeat apply round_len]|done|done|]; cbn [mbind result_bind]).
  all: by eexists.
Qed.
End Rounds.

Lemma is_bytes_merge n l r : is_bytes l -> is_bytes r -> is_bytes (picotls_quiclb_merge_output n l r).
Proof.
  intros Hl Hr. unfold picotls_quiclb_merge_output. apply Forall_app. split; [by apply Forall_take|].
  destruct (_ =? 0); [by apply Forall_take|]. constructor; [|by apply Forall_take, Forall_drop].
  apply is_byte_land. rewrite Z.land_lor_distr_l, <- !Z.land_assoc. done.
Qed.

Lemma merge_len n l r : 7 <= n <= 19 -> length l = 16%nat -> length r = 16%nat -> len (picotls_quiclb_merge_output n l r) = n.
Proof. intros Hn Hl Hr. destruct_block l. destruct_block r. by each_length Hn. Qed.

(** Contexts of one key: what the four rounds of one have encrypted those of the other decrypt. *)
Lemma transform_inverts (algo : ptls_cipher_algorithm_t) `{BlockCipher algo} key ce cd p :
  block_keyed ce key -> block_keyed cd key -> 7 <= len p <= 19 -> is_bytes p ->
  exists c ce' cd', len c = len p ∧
    picotls_quiclb_transform (picotls_quiclb_cipher_aes (algo := algo)) ce p true = Ok (c, ce') ∧
    picotls_quiclb_transform (picotls_quiclb_cipher_aes (algo := algo)) cd c false = Ok (p, cd').
Proof.
  intros He Hd Hn Hp. set (h := picotls_quiclb_split_input p (len p)).
  assert (block_pair_ok h) as Hh by (pose proof (split_len p (len p) Hn eq_refl Hp) as Hs; unfold h; by destruct (picotls_quiclb_split_input p _)).
  destruct (transform_pure algo ce key p true He Hn Hp) as (ce' & Hce & _). cbv zeta in Hce. fold h in Hce.
  destruct (enc_rounds_ok algo key (len p) h Hh) as (Hel & Her & Hebl & Hebr).
  set (e := enc_rounds algo key (len p) h) in *. set (c := picotls_quiclb_merge_output (len p) e.1 e.2) in *.
  assert (len c = len p) as Hc by (by apply merge_len). assert (is_bytes c) as Hcb by (by apply is_bytes_merge).
  destruct (transform_pure algo cd key c false Hd ltac:(lia) Hcb) as (cd' & Hcd & _). cbv zeta in Hcd. rewrite Hc in Hcd.
  set (h' := picotls_quiclb_split_input c (len p)) in *.
  assert (block_pair_ok h') as Hh' by (pose proof (split_len c (len p) Hn Hc Hcb) as Hs; unfold h'; by destruct (picotls_quiclb_split_input c _)).
  destruct (split_merge (len p) e.1 e.2 Hn Hel Her) as [Hsl Hsr]. fold c h' in Hsl, Hsr.
  destruct (dec_enc_rounds algo key (len p) h h' Hh Hsl Hsr) as [H0l H0r].
  destruct (dec_rounds_ok algo key (len p) h' Hh') as (Hdl & Hdr & Hdbl & Hdbr).
  rewrite merge_masked in Hcd by done. unfold same_under in H0l, H0r. rewrite H0l, H0r in Hcd.
  destruct Hh as (Hl0 & Hr0 & Hb0 & Hb1). rewrite <- merge_masked in Hcd by done. unfold h in Hcd at 1 2. rewrite merge_split in Hcd by done.
  by exists c, ce', cd'.
Qed.

(** The QUIC-LB cipher object, over any block cipher that stands for AES-ECB, decrypts what it
    encrypts, for every length from 7 to 19 bytes: the ciphertext has the length of the plaintext, and a
    context set up for decryption with the same key gives the plaintext back. *)
Theorem quiclb_roundtrip `{Allocator} (aes128ecb : ptls_cipher_algorithm_t) `{BlockCipher aes128ecb} :
  inverts (ptls_openssl_quiclb aes128ecb)
    (fun p => PTLS_QUICLB_MIN_BLOCK_SIZE <= len p <= PTLS_QUICLB_MAX_BLOCK_SIZE /\ is_bytes p) (fun _ _ => True).
Proof.
  intros key iv p enc dec He Hd [Hn Hp] _. change (7 <= len p <= 19) in Hn. cbn in He, Hd. unfold quiclb_setup_crypto in He, Hd. inv_ok.
  destruct a as [cd|]; [|done]. destruct a0 as [ce|]; [|done]. apply cipher_new_some, block_setup in Ha, Ha0. inv_ok.
  destruct (transform_inverts aes128ecb key ce cd p Ha0 Ha Hn Hp) as (c & ce' & cd' & Hc & Hce & Hcd).
  assert (quiclb_encrypt aes128ecb (mkQuicLb _ true ce) p = Ok (c, mkQuicLb _ true ce')) as Henc
    by (unfold quiclb_encrypt; cbn [aesecb quiclb_is_enc]; by rewrite Hce).
  assert (quiclb_decrypt aes128ecb (mkQuicLb _ false cd) c = Ok (p, mkQuicLb _ false cd')) as Hdec
    by (unfold quiclb_decrypt; cbn [aesecb quiclb_is_enc]; by rewrite Hcd).
  exists (mkQuicLb _ true ce), c, (mkQuicLb _ true ce'), (mkQuicLb _ false cd), (mkQuicLb _ false cd').
  repeat split; try done. apply Nat2Z.inj. exact Hc.
Qed.

Section Evaluation.
#[local] Existing Instance bump_allocator.

(** Seven bytes, whose fourth is shared by the halves. *)
Lemma quiclb_roundtrip_witness :
  exists c, cipher_run (ptls_openssl_quiclb toy_ecb) true (replicate 16 7) (replicate 16 0) [0x31; 0x44; 0x1a; 0x9c; 0x69; 0xc2; 0x75] = Ok c /\
    True /\ cipher_run (ptls_openssl_quiclb toy_ecb) false (replicate 16 7) (replicate 16 0) c = Ok [0x31; 0x44; 0x1a; 0x9c; 0x69; 0xc2; 0x75].
Proof.
  apply (inverts_run _ _ _ (replicate 16 7) (replicate 16 0) _ (quiclb_roundtrip toy_ecb)); [reflexivity..| |reflexivity].
  split; [vm_compute; split; discriminate|]. repeat (constructor; [vm_compute; split; congruence|]). constructor.
Defined.
End Evaluation.
