(* ===== verification/ChaChaPoly.v ===== *)
(** * ChaChaPoly: ChaCha20-Poly1305 out of its two primitives ([lib/chacha20poly1305.h]), and the
    callbacks of an AEAD context ([include/zpicotls.h])

    The rest of the library sees an AEAD as the functions [seal] and [open] of a
    [ptls_aead_algorithm_t] (file Crypto).  Here is an implementation of one: an object whose callbacks
    run a stream cipher and a one-time authenticator.  It is shown to compute the construction of RFC
    8439, section 2.8, however the plaintext is cut, and that construction to keep [aead_ok], the
    promise every theorem on records and on the handshake relies on. *)

From S2P Require Import Prelude Constants Wire Buffer Crypto Cipher.

(** ** Callbacks of an AEAD context *)

(** The callbacks that a set-up may leave NULL, over the context [C] of the implementation.  What the
    update and the final step write is returned with the context; [None] from [do_decrypt] is
    [SIZE_MAX]. *)
(* src include/zpicotls.h:469-526 ptls_aead_context_t *)
Record aead_callbacks (C : Type) := mkAeadCallbacks {
  do_encrypt_init : option (C -> Z -> bytes -> result C);
  do_encrypt_update : option (C -> bytes -> result (bytes * C));
  do_encrypt_final : option (C -> result (bytes * C));
  do_decrypt : option (C -> bytes -> Z -> bytes -> result (option bytes * C));
}.
Arguments mkAeadCallbacks {C}.
Arguments do_encrypt_init {C}.
Arguments do_encrypt_update {C}.
Arguments do_encrypt_final {C}.
Arguments do_decrypt {C}.

(** A callback that is called: NULL stops the process. *)
Definition callback {A} (f : option A) : result A := match f with None => Err ABORTED | Some f => Ok f end.

(** [supp_input] is what [input] points to once the output is written: it may point into it. *)
(* src include/zpicotls.h:445-460 ptls_aead_supplementary_encryption_t *)
Record ptls_aead_supplementary_encryption_t := mkSupp
  { supp_algo : ptls_cipher_algorithm_t; supp_ctx : ptls_cipher_context_t supp_algo; supp_input : bytes -> bytes }.

Section Framework.
Context {C : Type} (cb : aead_callbacks C).

(** The updates of an array of inputs, from the output so far. *)
(* src include/zpicotls.h:2329-2330 do_encrypt_update *)
Fixpoint encrypt_updates (ctx : C) (input : list bytes) (output : bytes) : result (bytes * C) :=
  match input with
  | [] => Ok (output, ctx)
  | i :: input =>
      update ← callback (do_encrypt_update cb);
      '(o, ctx) ← update ctx i;
      encrypt_updates ctx input (output ++ o)
  end.

(* src include/zpicotls.h:2321-2332 ptls_aead__do_encrypt_v *)
Definition ptls_aead__do_encrypt_v (ctx : C) (input : list bytes) (seq : Z) (aad : bytes) : result (bytes * C) :=
  init ← callback (do_encrypt_init cb);
  ctx ← init ctx seq aad;
  '(output, ctx) ← encrypt_updates ctx input [];
  final ← callback (do_encrypt_final cb);
  '(tag, ctx) ← final ctx;
  Ok (output ++ tag, ctx).

(** What is written to [supp->output], [None] when [supp] is NULL. *)
(* src include/zpicotls.h:2302-2309 ptls_aead__do_supplementary *)
Definition ptls_aead__do_supplementary (supp : option ptls_aead_supplementary_encryption_t) (output : bytes) : result (option bytes) :=
  match supp with
  | None => Ok None
  | Some supp =>
      c ← ptls_cipher_init (supp_ctx supp) (supp_input supp output);
      '(o, _) ← ptls_cipher_encrypt c (replicate 16 0);
      Ok (Some o)
  end.

(* src include/zpicotls.h:2311-2318 ptls_aead__do_encrypt *)
Definition ptls_aead__do_encrypt (ctx : C) (input : bytes) (seq : Z) (aad : bytes) (supp : option ptls_aead_supplementary_encryption_t)
    : result (bytes * option bytes * C) :=
  '(output, ctx) ← ptls_aead__do_encrypt_v ctx [input] seq aad;
  s ← ptls_aead__do_supplementary supp output;
  Ok (output, s, ctx).

(* src include/zpicotls.h:2334-2339 ptls_aead__do_encrypt_v_s *)
Definition ptls_aead__do_encrypt_v_s (ctx : C) (input : list bytes) (seq : Z) (aad : bytes) (supp : option ptls_aead_supplementary_encryption_t)
    : result (bytes * option bytes * C) :=
  '(output, ctx) ← ptls_aead__do_encrypt_v ctx input seq aad;
  s ← ptls_aead__do_supplementary supp output;
  Ok (output, s, ctx).

(* src include/zpicotls.h:2267-2277 ptls_aead__sum_iovec *)
Fixpoint ptls_aead__sum_iovec (input : list bytes) (inlen : Z) : result Z :=
  match input with
  | [] => Ok inlen
  | i :: input => _ ← guard_err (len i <=? SIZE_MAX - inlen) ABORTED; ptls_aead__sum_iovec input (inlen + len i)
  end.

(** The length returned, the output and the context. *)
(* src include/zpicotls.h:2279-2288 ptls_aead_encrypt_v_s *)
Definition ptls_aead_encrypt_v_s (tag_size : Z) (ctx : C) (input : list bytes) (seq : Z) (aad : bytes)
    (supp : option ptls_aead_supplementary_encryption_t) : result (Z * (bytes * option bytes * C)) :=
  inlen ← ptls_aead__sum_iovec input 0;
  _ ← guard_err (tag_size <=? SIZE_MAX - inlen) ABORTED;
  r ← ptls_aead__do_encrypt_v_s ctx input seq aad supp;
  Ok (inlen + tag_size, r).
End Framework.

(** ** Ciphertext and tag *)

(** What the AEADs of this library have in common: the tag is computed over the ciphertext and follows
    it. *)
Section EncryptThenTag.
Context (n : Z) (text untext : bytes -> bytes -> bytes -> bytes) (tag : bytes -> bytes -> bytes -> bytes -> bytes).

Definition etm_seal (key nonce aad p : bytes) : bytes := let ct := text key nonce p in ct ++ tag key nonce aad ct.

Definition etm_open (key nonce aad c : bytes) : option bytes :=
  let m := len c - n in
  let ct := take (Z.to_nat m) c in
  if (m <? 0) || negb (bool_decide (drop (Z.to_nat m) c = tag key nonce aad ct)) then None else Some (untext key nonce ct).

Context (Hlen : forall k iv p, len (text k iv p) = len p) (Hulen : forall k iv c, len (untext k iv c) = len c).
Context (Htag : forall k iv aad ct, len (tag k iv aad ct) = n) (Hinv : forall k iv p, untext k iv (text k iv p) = p).

Lemma etm_seal_len k iv aad p : len (etm_seal k iv aad p) = len p + n.
Proof. unfold etm_seal. cbv zeta. by rewrite len_app, Htag, Hlen. Qed.

Lemma etm_open_seal k iv aad p : etm_open k iv aad (etm_seal k iv aad p) = Some p.
Proof.
  unfold etm_open. cbv zeta. rewrite etm_seal_len, Z.add_simpl_r, (proj2 (Z.ltb_ge _ _)), <- (Hlen k iv) by apply len_nonneg.
  unfold etm_seal. cbv zeta. rewrite take_len_app, drop_len_app, bool_decide_eq_true_2 by done. cbn. by rewrite Hinv.
Qed.

Lemma etm_open_len k iv aad c p : 0 <= n -> etm_open k iv aad c = Some p -> len c = len p + n.
Proof.
  intros Hn. unfold etm_open. cbv zeta. destruct (Z.ltb_spec (len c - n) 0) as [|Hm]; [done|]. cbn [orb]. destruct (negb _); [done|].
  intros [= <-]. rewrite Hulen, len_take. lia.
Qed.
End EncryptThenTag.

(** ** The implementation *)

(** The one-time authenticator of the backend: its state, and what it promises. *)
Record poly1305_ops := mkPoly {
  poly_state : Type;
  poly1305_init : bytes -> poly_state;
  poly1305_update : poly_state -> bytes -> poly_state;
  poly1305_finish : poly_state -> bytes;
}.

(** A state has absorbed a message under a key, the first 32 bytes given to [poly1305_init]. *)
Class Poly1305 (ops : poly1305_ops) := {
  poly1305 : bytes -> bytes -> bytes;
  absorbed : poly_state ops -> bytes -> bytes -> Prop;
  poly_init_ok : forall key, absorbed (poly1305_init ops key) (take 32 key) [];
  poly_update_ok : forall st key m x, absorbed st key m -> absorbed (poly1305_update ops st x) key (m ++ x);
  poly_finish_ok : forall st key m, absorbed st key m -> poly1305_finish ops st = poly1305 key m;
  poly_len : forall key m, len (poly1305 key m) = PTLS_CHACHA20POLY1305_TAG_SIZE;
  poly_bytes : forall key m, is_bytes (poly1305 key m);
}.

(* src lib/chacha20poly1305.h:39-49 chacha20poly1305_write_u64 *)
Definition chacha20poly1305_write_u64 (v : Z) : bytes :=
  [Z.land v 0xff; Z.land (Z.shiftr v 8) 0xff; Z.land (Z.shiftr v 16) 0xff; Z.land (Z.shiftr v 24) 0xff;
   Z.land (Z.shiftr v 32) 0xff; Z.land (Z.shiftr v 40) 0xff; Z.land (Z.shiftr v 48) 0xff; Z.land (Z.shiftr v 56) 0xff].

(* src lib/chacha20poly1305.h:26-26 CHACHA20POLY1305_BLOCKSIZE *)
Definition CHACHA20POLY1305_BLOCKSIZE : Z := 64.

Section Implementation.
Context `{Allocator}.
Context (chacha20 : ptls_cipher_algorithm_t) (poly : poly1305_ops).

(* src lib/chacha20poly1305.h:28-37 chacha20poly1305_context_t *)
Record chacha20poly1305_context_t := mkChaChaPoly {
  chacha : ptls_cipher_context_t chacha20;
  cp_static_iv : bytes;
  aadlen : Z;
  textlen : Z;
  cp_poly : poly_state poly;
}.

Definition set_poly (st : poly_state poly) (ctx : chacha20poly1305_context_t) : chacha20poly1305_context_t :=
  mkChaChaPoly (chacha ctx) (cp_static_iv ctx) (aadlen ctx) (textlen ctx) st.
Definition set_chacha (c : ptls_cipher_context_t chacha20) (ctx : chacha20poly1305_context_t) : chacha20poly1305_context_t :=
  mkChaChaPoly c (cp_static_iv ctx) (aadlen ctx) (textlen ctx) (cp_poly ctx).
Definition set_lens (a t : Z) (ctx : chacha20poly1305_context_t) : chacha20poly1305_context_t :=
  mkChaChaPoly (chacha ctx) (cp_static_iv ctx) a t (cp_poly ctx).

Definition absorb (x : bytes) (ctx : chacha20poly1305_context_t) : chacha20poly1305_context_t :=
  set_poly (poly1305_update poly (cp_poly ctx) x) ctx.

(* src lib/chacha20poly1305.h:51-56 chacha20poly1305_encrypt_pad *)
Definition chacha20poly1305_encrypt_pad (n : Z) (ctx : chacha20poly1305_context_t) : chacha20poly1305_context_t :=
  if negb (n mod 16 =? 0) then absorb (replicate (Z.to_nat (16 - n mod 16)) 0) ctx else ctx.

(** The tag and the context. *)
(* src lib/chacha20poly1305.h:58-69 chacha20poly1305_finalize *)
Definition chacha20poly1305_finalize (ctx : chacha20poly1305_context_t) : bytes * chacha20poly1305_context_t :=
  let ctx := chacha20poly1305_encrypt_pad (textlen ctx) ctx in
  let lenbuf := chacha20poly1305_write_u64 (aadlen ctx) ++ chacha20poly1305_write_u64 (textlen ctx) in
  let ctx := absorb lenbuf ctx in
  (poly1305_finish poly (cp_poly ctx), ctx).

(* src lib/chacha20poly1305.h:77-102 chacha20poly1305_init *)
Definition chacha20poly1305_init (ctx : chacha20poly1305_context_t) (seq : Z) (aad : bytes) : result chacha20poly1305_context_t :=
  let iv := replicate (Z.to_nat (16 - PTLS_CHACHA20POLY1305_IV_SIZE)) 0 ++
            ptls_aead__build_iv PTLS_CHACHA20POLY1305_IV_SIZE (cp_static_iv ctx) seq in
  c ← ptls_cipher_init (chacha ctx) iv;
  '(rs, c) ← ptls_cipher_encrypt c (replicate (Z.to_nat CHACHA20POLY1305_BLOCKSIZE) 0);
  let ctx := set_poly (poly1305_init poly rs) (set_chacha c ctx) in
  let ctx := if negb (len aad =? 0) then chacha20poly1305_encrypt_pad (len aad) (absorb aad ctx) else ctx in
  Ok (set_lens (len aad) 0 ctx).

(* src lib/chacha20poly1305.h:104-113 chacha20poly1305_encrypt_update *)
Definition chacha20poly1305_encrypt_update (ctx : chacha20poly1305_context_t) (input : bytes) : result (bytes * chacha20poly1305_context_t) :=
  '(output, c) ← ptls_cipher_encrypt (chacha ctx) input;
  let ctx := absorb output (set_chacha c ctx) in
  Ok (output, set_lens (aadlen ctx) (u64 (textlen ctx + len input)) ctx).

(* src lib/chacha20poly1305.h:115-122 chacha20poly1305_encrypt_final *)
Definition chacha20poly1305_encrypt_final (ctx : chacha20poly1305_context_t) : result (bytes * chacha20poly1305_context_t) :=
  Ok (chacha20poly1305_finalize ctx).

(* src lib/chacha20poly1305.h:124-150 chacha20poly1305_decrypt *)
Definition chacha20poly1305_decrypt (ctx : chacha20poly1305_context_t) (input : bytes) (seq : Z) (aad : bytes)
    : result (option bytes * chacha20poly1305_context_t) :=
  if len input <? PTLS_CHACHA20POLY1305_TAG_SIZE then Ok (None, ctx) else
  ctx ← chacha20poly1305_init ctx seq aad;
  let n := len input - PTLS_CHACHA20POLY1305_TAG_SIZE in
  let text := take (Z.to_nat n) input in
  let ctx := set_lens (aadlen ctx) n (absorb text ctx) in
  let '(tag, ctx) := chacha20poly1305_finalize ctx in
  if mem_equal tag (drop (Z.to_nat n) input) then
    '(output, c) ← ptls_cipher_encrypt (chacha ctx) text;
    Ok (Some output, set_chacha c ctx)
  else Ok (None, ctx).

(* src lib/chacha20poly1305.h:152-157 chacha20poly1305_get_iv *)
Definition chacha20poly1305_get_iv (ctx : chacha20poly1305_context_t) : bytes := cp_static_iv ctx.

(* src lib/chacha20poly1305.h:159-164 chacha20poly1305_set_iv *)
Definition chacha20poly1305_set_iv (iv : bytes) (ctx : chacha20poly1305_context_t) : chacha20poly1305_context_t :=
  mkChaChaPoly (chacha ctx) (take 12 iv) (aadlen ctx) (textlen ctx) (cp_poly ctx).

(** The callbacks and the context; the state of the authenticator is not initialised yet. *)
(* src lib/chacha20poly1305.h:166-204 chacha20poly1305_setup_crypto *)
Definition chacha20poly1305_setup_crypto (uninit : poly_state poly) (is_enc : bool) (key iv : bytes)
    : result (aead_callbacks chacha20poly1305_context_t * chacha20poly1305_context_t) :=
  let cb := if is_enc then
              mkAeadCallbacks (Some chacha20poly1305_init) (Some chacha20poly1305_encrypt_update) (Some chacha20poly1305_encrypt_final) None
            else mkAeadCallbacks None None None (Some chacha20poly1305_decrypt) in
  c ← ptls_cipher_new chacha20 is_enc key;
  match c with
  | None => Err PTLS_ERROR_LIBRARY
  | Some c => Ok (cb, mkChaChaPoly c (take 12 iv) 0 0 uninit)
  end.
End Implementation.

(** ** RFC 8439, section 2.8 *)

Section Reference.
Context (chacha20 : ptls_cipher_algorithm_t) (poly : poly1305_ops) `{StreamCipher chacha20} `{Poly1305 poly}.

(** The block counter, at zero, and the nonce; block 0 is for the key of the authenticator. *)
Definition chacha_iv (nonce : bytes) : bytes := replicate 4 0 ++ nonce.
Definition pad16 (n : Z) : bytes := replicate (Z.to_nat (- n mod 16)) 0.
Definition le64 (v : Z) : bytes := reverse (be_encode 8 v).

Definition mac_data (aad ct : bytes) : bytes :=
  aad ++ pad16 (len aad) ++ ct ++ pad16 (len ct) ++ le64 (len aad) ++ le64 (len ct).

Definition rfc8439_text (key nonce x : bytes) : bytes := zip_with Z.lxor x (stream_at key (chacha_iv nonce) 64 (length x)).

Definition rfc8439_tag (key nonce aad ct : bytes) : bytes := poly1305 (stream_at key (chacha_iv nonce) 0 32) (mac_data aad ct).

Definition rfc8439_seal : bytes -> bytes -> bytes -> bytes -> bytes := etm_seal rfc8439_text rfc8439_tag.

Definition rfc8439_open : bytes -> bytes -> bytes -> bytes -> option bytes :=
  etm_open PTLS_CHACHA20POLY1305_TAG_SIZE rfc8439_text rfc8439_tag.

(** The abstract AEAD of the rest of the library: [id] and [ctxsize] are of the object, [ok] says that
    the context of the cipher is given memory. *)
(* src lib/cifra/chacha20.c:100-113 ptls_minicrypto_chacha20poly1305 *)
Definition chacha20poly1305_aead (id ctxsize : Z) (ok : bool) : ptls_aead_algorithm_t :=
  mkAead id 32 PTLS_CHACHA20POLY1305_IV_SIZE PTLS_CHACHA20POLY1305_TAG_SIZE 12 0 0 ctxsize ok rfc8439_seal rfc8439_open.

Lemma text_len key nonce x : length (rfc8439_text key nonce x) = length x.
Proof. unfold rfc8439_text. rewrite length_zip_with, stream_at_len. lia. Qed.

Lemma len_text key nonce x : len (rfc8439_text key nonce x) = len x.
Proof. unfold len. by rewrite text_len. Qed.

Lemma text_cancel key nonce x : rfc8439_text key nonce (rfc8439_text key nonce x) = x.
Proof. unfold rfc8439_text at 1. rewrite text_len. apply zip_lxor_cancel. by rewrite stream_at_len. Qed.

Lemma text_bytes key nonce x : is_bytes x -> is_bytes (rfc8439_text key nonce x).
Proof. intros Hx. apply is_bytes_zip_lxor; [done|apply stream_at_bytes]. Qed.

(** The construction is an AEAD. *)
Lemma rfc8439_aead_ok id ctxsize ok : aead_ok (chacha20poly1305_aead id ctxsize ok).
Proof.
  split; cbn -[Z.add]; try (unfold PTLS_CHACHA20POLY1305_IV_SIZE, PTLS_CHACHA20POLY1305_TAG_SIZE, PTLS_MAX_IV_SIZE; lia).
  - intros k iv aad p. apply etm_seal_len; [apply len_text|intros; apply poly_len].
  - intros k iv aad p Hp. apply Forall_app. split; [by apply text_bytes|apply poly_bytes].
  - intros k iv aad p. apply etm_open_seal; [apply len_text|intros; apply poly_len|apply text_cancel].
  - intros k iv aad c p. apply etm_open_len; [apply len_text|done].
Qed.

(** ** The code computes it *)

Lemma write_u64_le v : chacha20poly1305_write_u64 v = le64 v.
Proof.
  unfold le64, chacha20poly1305_write_u64. change 0xff with (Z.ones 8). rewrite !Z.land_ones by done. rewrite <- (Z.shiftr_0_r v) at 1. reflexivity.
Qed.

Section At.
Context (key iv : bytes).

(** The state between two calls: the nonce, the position in the stream, and what is authenticated. *)
Record cp_at (nonce : bytes) (pos : nat) (m : bytes) (a t : Z) (ctx : chacha20poly1305_context_t chacha20 poly) : Prop := {
  at_stream : streams (chacha _ _ ctx) key (chacha_iv nonce) pos;
  at_poly : absorbed (cp_poly _ _ ctx) (stream_at key (chacha_iv nonce) 0 32) m;
  at_aad : aadlen _ _ ctx = a;
  at_text : textlen _ _ ctx = t;
  at_iv : cp_static_iv _ _ ctx = iv;
}.

(** A context that can be used again. *)
Definition cp_ready (ctx : chacha20poly1305_context_t chacha20 poly) : Prop := keyed (chacha _ _ ctx) key /\ cp_static_iv _ _ ctx = iv.

Lemma at_ready nonce pos m a t ctx : cp_at nonce pos m a t ctx -> cp_ready ctx.
Proof. intros [Hs _ _ _ Hiv]. split; [by eapply stream_keyed|done]. Qed.

Lemma absorb_at nonce pos m a t ctx x : cp_at nonce pos m a t ctx -> cp_at nonce pos (m ++ x) a t (absorb _ _ x ctx).
Proof. intros [H1 H2 H3 H4 H5]. split; try done. by apply poly_update_ok. Qed.

Lemma pad_at nonce pos m a t ctx n : cp_at nonce pos m a t ctx -> cp_at nonce pos (m ++ pad16 n) a t (chacha20poly1305_encrypt_pad _ _ n ctx).
Proof.
  intros Hat. unfold chacha20poly1305_encrypt_pad, pad16. destruct (Z.eqb_spec (n mod 16) 0) as [E|E]; cbn [negb].
  - rewrite Z.mod_opp_l_z by done. by rewrite app_nil_r.
  - rewrite Z.mod_opp_l_nz by done. by apply absorb_at.
Qed.

Lemma set_lens_at nonce pos m a t ctx a' t' : cp_at nonce pos m a t ctx -> cp_at nonce pos m a' t' (set_lens _ _ a' t' ctx).
Proof. by intros [H1 H2 H3 H4 H5]. Qed.

Lemma finalize_at nonce pos m a t ctx : cp_at nonce pos m a t ctx ->
  exists ctx', chacha20poly1305_finalize _ _ ctx = (poly1305 (stream_at key (chacha_iv nonce) 0 32) (m ++ pad16 t ++ le64 a ++ le64 t), ctx')
    /\ streams (chacha _ _ ctx') key (chacha_iv nonce) pos /\ cp_ready ctx'.
Proof.
  intros Hat. unfold chacha20poly1305_finalize. rewrite (at_text _ _ _ _ _ _ Hat). eapply (pad_at _ _ _ _ _ _ t) in Hat.
  set (c1 := chacha20poly1305_encrypt_pad _ _ t ctx) in *. cbv zeta. rewrite (at_aad _ _ _ _ _ _ Hat), (at_text _ _ _ _ _ _ Hat), !write_u64_le.
  apply (absorb_at _ _ _ _ _ _ (le64 a ++ le64 t)) in Hat. eexists. split; [|split; [exact (at_stream _ _ _ _ _ _ Hat)|by eapply at_ready]].
  f_equal. rewrite (poly_finish_ok _ _ _ (at_poly _ _ _ _ _ _ Hat)). by rewrite <- !app_assoc.
Qed.

Lemma init_at ctx seq aad : cp_ready ctx ->
  let nonce := ptls_aead__build_iv PTLS_CHACHA20POLY1305_IV_SIZE iv seq in
  exists ctx', chacha20poly1305_init _ _ ctx seq aad = Ok ctx' /\ cp_at nonce 64 (aad ++ pad16 (len aad)) (len aad) 0 ctx'.
Proof.
  intros [Hk Hiv] nonce. unfold chacha20poly1305_init. rewrite Hiv. fold nonce.
  change (replicate (Z.to_nat (16 - PTLS_CHACHA20POLY1305_IV_SIZE)) 0 ++ nonce) with (chacha_iv nonce).
  destruct (stream_init _ key (chacha_iv nonce) Hk) as (c1 & -> & Hs). cbn [mbind result_bind].
  destruct (stream_transform c1 key (chacha_iv nonce) 0 (replicate (Z.to_nat CHACHA20POLY1305_BLOCKSIZE) 0) Hs) as (c2 & -> & Hs2).
  cbn [mbind result_bind]. cbv zeta. fold (stream_at key (chacha_iv nonce) 0 (length (replicate (Z.to_nat CHACHA20POLY1305_BLOCKSIZE) 0))).
  set (rs := zip_with _ _ _).
  assert (take 32 rs = stream_at key (chacha_iv nonce) 0 32) as Hrs.
  { unfold rs. rewrite length_replicate. change (Z.to_nat CHACHA20POLY1305_BLOCKSIZE) with (32 + 32)%nat.
    rewrite stream_at_app, replicate_add, zip_with_app, take_app_length' by (by rewrite ?length_zip_with, ?stream_at_len, ?length_replicate).
    clear. generalize (stream_at_len key (chacha_iv nonce) 0 32). generalize (stream_at key (chacha_iv nonce) 0 32). generalize 32%nat.
    induction n as [|n IH]; intros [|x l] Hl; try done. simpl in *. rewrite IH by lia. by rewrite Z.lxor_0_l. }
  set (ctx1 := set_poly _ _ _ _).
  assert (cp_at nonce 64 [] (aadlen _ _ ctx1) (textlen _ _ ctx1) ctx1) as Hat.
  { split; try done. change (absorbed (poly1305_init poly rs) (stream_at key (chacha_iv nonce) 0 32) []). rewrite <- Hrs. apply poly_init_ok. }
  eexists. split; [reflexivity|]. eapply set_lens_at. destruct (Z.eqb_spec (len aad) 0) as [E|E]; cbn [negb].
  - apply len_zero in E as ->. exact Hat.
  - apply pad_at. exact (absorb_at _ _ _ _ _ _ aad Hat).
Qed.

Lemma update_at nonce pos m a t ctx i : cp_at nonce pos m a t ctx -> 0 <= t -> t + len i < 2 ^ 64 ->
  let o := zip_with Z.lxor i (stream_at key (chacha_iv nonce) pos (length i)) in
  exists ctx', chacha20poly1305_encrypt_update chacha20 poly ctx i = Ok (o, ctx') /\ cp_at nonce (pos + length i) (m ++ o) a (t + len i) ctx'.
Proof.
  intros [H1 H2 <- <- H5] Ht Hl o. pose proof (len_nonneg i). unfold chacha20poly1305_encrypt_update.
  destruct (stream_transform _ key _ pos i H1) as (c & -> & Hs). cbn [mbind result_bind]. eexists. split; [reflexivity|].
  split; try done; [by apply poly_update_ok|]. cbn. by rewrite u64_small by lia.
Qed.

(** The updates encrypt the concatenation of the inputs, and authenticate it. *)
Lemma updates_at cb nonce input : do_encrypt_update cb = Some (chacha20poly1305_encrypt_update chacha20 poly) ->
  forall pos m a t ctx output, cp_at nonce pos m a t ctx -> 0 <= t -> t + len (concat input) < 2 ^ 64 ->
  let x := zip_with Z.lxor (concat input) (stream_at key (chacha_iv nonce) pos (length (concat input))) in
  exists ctx', encrypt_updates cb ctx input output = Ok (output ++ x, ctx') /\
    cp_at nonce (pos + length (concat input)) (m ++ x) a (t + len (concat input)) ctx'.
Proof.
  intros Hcb. induction input as [|i input IH]; intros pos m a t ctx output Hat Ht Hlen x.
  { exists ctx. unfold x. cbn. by rewrite !app_nil_r, Nat.add_0_r, Z.add_0_r. }
  cbn [concat] in *. rewrite len_app in Hlen. pose proof (len_nonneg i). pose proof (len_nonneg (concat input)).
  destruct (update_at nonce pos m a t ctx i Hat) as (c & Hu & Hat1); [lia|lia|].
  cbn [encrypt_updates]. rewrite Hcb. cbn [callback mbind result_bind]. rewrite Hu. cbn [mbind result_bind].
  set (o := zip_with _ i _) in *.
  destruct (IH _ _ _ _ _ (output ++ o) Hat1) as (ctx' & -> & Hat'); [lia|lia|].
  assert (x = o ++ zip_with Z.lxor (concat input) (stream_at key (chacha_iv nonce) (pos + length i) (length (concat input)))) as ->.
  { unfold x. rewrite length_app, stream_at_app. apply zip_with_app. by rewrite stream_at_len. }
  exists ctx'. rewrite !app_assoc. split; [done|]. rewrite length_app, len_app, Nat.add_assoc, Z.add_assoc. done.
Qed.

Lemma mac_data_eq aad ct : (aad ++ pad16 (len aad)) ++ ct ++ pad16 (len ct) ++ le64 (len aad) ++ le64 (len ct) = mac_data aad ct.
Proof. unfold mac_data. by rewrite <- !app_assoc. Qed.

(** One encryption. *)
Lemma encrypt_v_rfc cb ctx input seq aad :
  do_encrypt_init cb = Some (chacha20poly1305_init chacha20 poly) -> do_encrypt_update cb = Some (chacha20poly1305_encrypt_update chacha20 poly) ->
  do_encrypt_final cb = Some (chacha20poly1305_encrypt_final chacha20 poly) -> cp_ready ctx -> len (concat input) < 2 ^ 64 ->
  exists ctx', ptls_aead__do_encrypt_v cb ctx input seq aad =
    Ok (rfc8439_seal key (ptls_aead__build_iv PTLS_CHACHA20POLY1305_IV_SIZE iv seq) aad (concat input), ctx') /\ cp_ready ctx'.
Proof.
  intros Hi Hu Hf Hr Hl. unfold ptls_aead__do_encrypt_v. rewrite Hi, Hf. cbn [callback mbind result_bind].
  destruct (init_at ctx seq aad Hr) as (c1 & -> & Hat). cbn [mbind result_bind]. set (nonce := ptls_aead__build_iv _ _ _) in *.
  destruct (updates_at cb nonce input Hu _ _ _ _ _ [] Hat ltac:(lia) ltac:(lia)) as (c2 & -> & Hat2). cbn [mbind result_bind app]. cbv zeta.
  fold (rfc8439_text key nonce (concat input)) in *. set (ct := rfc8439_text key nonce (concat input)) in *.
  destruct (finalize_at _ _ _ _ _ _ Hat2) as (c3 & Ef & _ & Hr'). unfold chacha20poly1305_encrypt_final. rewrite Ef. cbn [mbind result_bind].
  exists c3. split; [|done]. unfold rfc8439_seal, etm_seal, rfc8439_tag. cbv zeta. fold ct. rewrite Z.add_0_l.
  rewrite <- (len_text key nonce (concat input)). fold ct. rewrite <- app_assoc, mac_data_eq. done.
Qed.

(** One decryption. *)
Lemma decrypt_rfc ctx input seq aad : cp_ready ctx -> is_bytes input ->
  exists ctx', chacha20poly1305_decrypt _ _ ctx input seq aad =
    Ok (rfc8439_open key (ptls_aead__build_iv PTLS_CHACHA20POLY1305_IV_SIZE iv seq) aad input, ctx') /\ cp_ready ctx'.
Proof.
  intros Hr Hb. unfold chacha20poly1305_decrypt, rfc8439_open, etm_open. cbv zeta.
  destruct (Z.ltb_spec (len input) PTLS_CHACHA20POLY1305_TAG_SIZE) as [Hs|Hs].
  { rewrite (proj2 (Z.ltb_lt _ _)) by lia. by exists ctx. }
  rewrite (proj2 (Z.ltb_ge (len input - _) 0)) by lia. cbn [orb].
  destruct (init_at ctx seq aad Hr) as (c1 & -> & Hat). cbn [mbind result_bind]. set (nonce := ptls_aead__build_iv _ _ _) in *.
  set (n := len input - PTLS_CHACHA20POLY1305_TAG_SIZE) in *. set (ct := take (Z.to_nat n) input).
  assert (len ct = n) as Hn by (unfold ct; rewrite len_take; unfold n, PTLS_CHACHA20POLY1305_TAG_SIZE in *; lia).
  apply (absorb_at _ _ _ _ _ _ ct) in Hat. apply (set_lens_at _ _ _ _ _ _ (aadlen _ _ (absorb _ _ ct c1)) n) in Hat as Hat'.
  rewrite (at_aad _ _ _ _ _ _ Hat) in Hat'. change (aadlen _ _ (absorb _ _ ct c1)) with (aadlen _ _ c1) in Hat'.
  rewrite (at_aad _ _ _ _ _ _ Hat : aadlen _ _ c1 = _). destruct (finalize_at _ _ _ _ _ _ Hat') as (c3 & -> & Hs3 & Hr3).
  rewrite <- app_assoc, <- Hn, mac_data_eq. fold (rfc8439_tag key nonce aad ct). rewrite Hn.
  pose proof (mem_equal_spec (rfc8439_tag key nonce aad ct) (drop (Z.to_nat n) input)) as Heq.
  destruct (mem_equal _ _), (bool_decide_reflect (drop (Z.to_nat n) input = rfc8439_tag key nonce aad ct)) as [Ht|Ht]; cbn [negb].
  - destruct (stream_transform _ key _ 64 ct Hs3) as (c4 & -> & Hs4). cbn [mbind result_bind]. eexists. split; [done|].
    split; [by eapply stream_keyed|]. by destruct Hr3.
  - exfalso. apply Ht. symmetry. apply Heq; [|apply poly_bytes|by apply Forall_drop|done].
    apply Nat2Z.inj. change (len (rfc8439_tag key nonce aad ct) = len (drop (Z.to_nat n) input)).
    unfold rfc8439_tag. rewrite poly_len, len_drop. unfold n, PTLS_CHACHA20POLY1305_TAG_SIZE in *. lia.
  - exfalso. rewrite Ht in Heq. pose proof (poly_bytes (stream_at key (chacha_iv nonce) 0 32) (mac_data aad ct)) as Hpb.
    destruct (Heq eq_refl Hpb Hpb) as [_ Hx]. by specialize (Hx eq_refl).
  - by exists c3.
Qed.
End At.
End Reference.

(** C26: the ChaCha20-Poly1305 object implements the AEAD the rest of the library uses.  After a
    successful set-up with a 12-byte IV, whatever was done with the context before, encrypting a plaintext
    in any number of pieces writes what [ptls_aead_encrypt_v] of the construction of RFC 8439 gives for
    the same key, IV, sequence number and additional data, and decrypting gives what [ptls_aead_decrypt]
    gives, rejection included; and that construction is an AEAD ([aead_ok]). *)
Theorem chacha20poly1305_refines `{Allocator} chacha20 poly `{StreamCipher chacha20} `{Poly1305 poly} uninit is_enc key iv cb ctx0 id ctxsize ok :
  chacha20poly1305_setup_crypto chacha20 poly uninit is_enc key iv = Ok (cb, ctx0) -> length iv = 12%nat ->
  let A := mkAeadCtx (chacha20poly1305_aead chacha20 poly id ctxsize ok) is_enc key iv in
  aead_ok (aead_algo A) /\ cp_ready chacha20 poly key iv ctx0 /\
  forall ctx, cp_ready chacha20 poly key iv ctx ->
    (is_enc = true -> forall input seq aad, len (concat input) < 2 ^ 64 ->
       exists ctx', ptls_aead__do_encrypt_v cb ctx input seq aad = Ok (ptls_aead_encrypt_v A input seq aad, ctx') /\
         cp_ready chacha20 poly key iv ctx') /\
    (is_enc = false -> forall input seq aad, is_bytes input ->
       exists decrypt ctx', do_decrypt cb = Some decrypt /\ decrypt ctx input seq aad = Ok (ptls_aead_decrypt A input seq aad, ctx') /\
         cp_ready chacha20 poly key iv ctx').
Proof.
  intros Hs Hiv A. split; [apply rfc8439_aead_ok|]. unfold chacha20poly1305_setup_crypto in Hs. inv_ok.
  destruct a as [c|]; [|done]. apply cipher_new_some, stream_setup in Ha. injection Hs as <- <-.
  split; [split; [done|by apply take_ge; rewrite Hiv]|]. intros ctx Hr. split; intros -> input seq aad Hin.
  - by apply encrypt_v_rfc.
  - destruct (decrypt_rfc chacha20 poly key iv ctx input seq aad Hr Hin) as (ctx' & Hd & Hr'). by eexists _, ctx'.
Qed.

(** ** Evaluation *)

Definition toy_poly : poly1305_ops :=
  mkPoly (bytes * bytes) (fun key => (take 32 key, [])) (fun st x => (st.1, st.2 ++ x)) (fun st => toy_block st.1 st.2).

#[export] Instance toy_is_poly : Poly1305 toy_poly.
Proof.
  refine (Build_Poly1305 toy_poly toy_block (fun st key m => st = (key, m)) _ _ _ _ _).
  - done.
  - by intros ? ? ? ? ->.
  - by intros ? ? ? ->.
  - intros. unfold len, toy_block. by rewrite length_fmap, length_seq.
  - intros. apply Forall_fmap, Forall_true. intros. apply u8_range.
Defined.

Section Evaluation.
#[local] Existing Instance bump_allocator.

Definition toy_aead : ptls_aead_algorithm_t := chacha20poly1305_aead toy_stream toy_poly 1 128 true.

(** Encrypting "hello" in two pieces, and decrypting it. *)
Lemma chacha20poly1305_refines_witness :
  exists cb ctx ctx', chacha20poly1305_setup_crypto toy_stream toy_poly ([], []) true (replicate 32 1) (replicate 12 2) = Ok (cb, ctx) /\
    ptls_aead__do_encrypt_v cb ctx [str "hel"; str "lo"] 7 (str "aad") =
      Ok (ptls_aead_encrypt_v (mkAeadCtx toy_aead true (replicate 32 1) (replicate 12 2)) [str "hel"; str "lo"] 7 (str "aad"), ctx').
Proof.
  destruct (chacha20poly1305_setup_crypto toy_stream toy_poly ([], []) true (replicate 32 1) (replicate 12 2)) as [[cb ctx]|e] eqn:E;
    [|discriminate].
  destruct (chacha20poly1305_refines toy_stream toy_poly _ true (replicate 32 1) (replicate 12 2) cb ctx 1 128 true E eq_refl)
    as (_ & Hr & Hrun).
  destruct (proj1 (Hrun ctx Hr) eq_refl [str "hel"; str "lo"] 7 (str "aad") eq_refl) as (ctx' & Henc & _).
  exists cb, ctx, ctx'. split; [reflexivity|exact Henc].
Defined.
End Evaluation.
