(* ===== verification/OpensslCipher.v ===== *)
(** * OpensslCipher: symmetric ciphers of the OpenSSL backend ([lib/openssl.c])

    Two kinds of objects.  With BoringSSL, ChaCha20 is made out of a function that encrypts whole
    blocks: what is left of a block is kept for the next call.  It is shown to be a [StreamCipher], so
    that the software AEAD of file ChaChaPoly over it is the one of RFC 8439.  Everything else goes
    through the EVP interface: the contexts of ciphers and of AEADs are contexts of that interface, and
    the AEAD callbacks are shown to implement what the rest of the library uses. *)

From S2P Require Import Prelude Constants Wire Buffer Crypto Cipher ChaChaPoly.

(** ** ChaCha20 with BoringSSL *)

Section BoringSSL.

(** [CRYPTO_chacha_20(out, in, len, key, nonce, counter)]: what is written to [out]. *)
Context (CRYPTO_chacha_20 : bytes -> bytes -> bytes -> Z -> bytes).

(* src lib/openssl.c:1331-1340 boringssl_chacha20_context_t *)
Record boringssl_chacha20_context_t := mkBoring {
  boring_key : bytes;
  boring_iv : bytes;
  ks_ctr : Z;
  ks_bytes : bytes;
  ks_len : Z;
}.

Definition set_keystream (ctr : Z) (bs : bytes) (n : Z) (ctx : boringssl_chacha20_context_t) : boringssl_chacha20_context_t :=
  mkBoring (boring_key ctx) (boring_iv ctx) ctr bs n.

(** [iv[0] | iv[1] << 8 | iv[2] << 16 | iv[3] << 24] *)
Definition load32 (iv : bytes) : Z :=
  let b i := default 0 (iv !! i) in
  Z.lor (Z.lor (Z.lor (b 0%nat) (Z.shiftl (b 1%nat) 8)) (Z.shiftl (b 2%nat) 16)) (Z.shiftl (b 3%nat) 24).

(* src lib/openssl.c:1351-1359 boringssl_chacha20_init *)
Definition boringssl_chacha20_init (ctx : boringssl_chacha20_context_t) (iv : bytes) : result boringssl_chacha20_context_t :=
  Ok (mkBoring (boring_key ctx) (take 12 (drop 4 iv)) (u32 (load32 iv)) (ks_bytes ctx) 0).

(** What is written, the rest of the input, and the context. *)
(* src lib/openssl.c:1361-1371 boringssl_chacha20_transform_buffered *)
Definition boringssl_chacha20_transform_buffered (ctx : boringssl_chacha20_context_t) (input : bytes)
    : bytes * bytes * boringssl_chacha20_context_t :=
  let apply_len := Z.min (len input) (ks_len ctx) in
  let ks := drop (Z.to_nat (64 - ks_len ctx)) (ks_bytes ctx) in
  (zip_with Z.lxor (take (Z.to_nat apply_len) input) (take (Z.to_nat apply_len) ks), drop (Z.to_nat apply_len) input,
   set_keystream (ks_ctr ctx) (ks_bytes ctx) (ks_len ctx - apply_len) ctx).

(** The block that the rest of an input is taken from; the input is shorter than it. *)
(* src lib/openssl.c:1401-1407 keystream *)
Definition boringssl_chacha20_refill (ctx : boringssl_chacha20_context_t) (input : bytes) : result (bytes * boringssl_chacha20_context_t) :=
  let block := CRYPTO_chacha_20 (replicate 64 0) (boring_key ctx) (boring_iv ctx) (ks_ctr ctx) in
  let '(output, input, ctx) :=
    boringssl_chacha20_transform_buffered (set_keystream (u32 (ks_ctr ctx + 1)) block 64 ctx) input in
  _ ← guard_err (len input =? 0) ABORTED;
  Ok (output, ctx).

(** Once nothing of the last block is left. *)
(* src lib/openssl.c:1388-1400 blocks *)
Definition boringssl_chacha20_blocks (ctx : boringssl_chacha20_context_t) (input : bytes) : result (bytes * boringssl_chacha20_context_t) :=
  if 64 <=? len input then
    let blocks := len input / CHACHA20POLY1305_BLOCKSIZE in
    let n := Z.to_nat (blocks * CHACHA20POLY1305_BLOCKSIZE) in
    let output := CRYPTO_chacha_20 (take n input) (boring_key ctx) (boring_iv ctx) (ks_ctr ctx) in
    let ctx := set_keystream (u32 (ks_ctr ctx + blocks)) (ks_bytes ctx) (ks_len ctx) ctx in
    let input := drop n input in
    if len input =? 0 then Ok (output, ctx)
    else '(o, ctx) ← boringssl_chacha20_refill ctx input; Ok (output ++ o, ctx)
  else boringssl_chacha20_refill ctx input.

(* src lib/openssl.c:1373-1408 boringssl_chacha20_transform *)
Definition boringssl_chacha20_transform (ctx : boringssl_chacha20_context_t) (input : bytes) : result (bytes * boringssl_chacha20_context_t) :=
  if len input =? 0 then Ok ([], ctx) else
  let '(output, input, ctx) :=
    if negb (ks_len ctx =? 0) then boringssl_chacha20_transform_buffered ctx input else ([], input, ctx) in
  if len input =? 0 then Ok (output, ctx) else
  _ ← guard_err (ks_len ctx =? 0) ABORTED;
  '(o, ctx) ← boringssl_chacha20_blocks ctx input;
  Ok (output ++ o, ctx).

(** [uninit]: what the memory of the context holds. *)
(* src lib/openssl.c:1410-1420 boringssl_chacha20_setup_crypto *)
Definition boringssl_chacha20_setup_crypto (uninit : boringssl_chacha20_context_t) (is_enc : bool) (key : bytes)
    : result boringssl_chacha20_context_t :=
  Ok (mkBoring (take 32 key) (boring_iv uninit) (ks_ctr uninit) (ks_bytes uninit) (ks_len uninit)).

(* src lib/openssl.c:1342-1349 boringssl_chacha20_dispose *)
Definition boringssl_chacha20_dispose (ctx : boringssl_chacha20_context_t) : boringssl_chacha20_context_t :=
  mkBoring (replicate 32 0) (replicate 12 0) (ks_ctr ctx) (replicate 64 0) (ks_len ctx).

(** [sizeof(struct boringssl_chacha20_context_t)] *)
Definition SIZEOF_BORINGSSL_CHACHA20 : Z := 168.

(* src lib/openssl.c:2529-2541 ptls_openssl_chacha20 *)
Definition boringssl_chacha20 (uninit : boringssl_chacha20_context_t) : ptls_cipher_algorithm_t :=
  mkCipher 32 1 16 SIZEOF_BORINGSSL_CHACHA20 boringssl_chacha20_context_t
    (boringssl_chacha20_setup_crypto uninit) (Some boringssl_chacha20_init) boringssl_chacha20_transform.

(** What BoringSSL documents: the input is xored with the blocks of the key and the nonce, from the one
    that the counter says, of 32 bits. *)
Class ChaCha20 := {
  chacha_byte : bytes -> bytes -> Z -> nat -> Z;
  chacha_byte_ok : forall key nonce ctr i, is_byte (chacha_byte key nonce ctr i);
  chacha_xors : forall input key nonce ctr, CRYPTO_chacha_20 input key nonce ctr =
    zip_with Z.lxor input ((λ i, chacha_byte key nonce (u32 (ctr + Z.of_nat (i / 64))) (i mod 64)) <$> seq 0 (length input));
}.
Context `{ChaCha20}.

(** Byte [i] of the stream of a key and an IV of 16 bytes: counter and nonce. *)
Definition boring_stream (key iv : bytes) (i : nat) : Z :=
  chacha_byte (take 32 key) (take 12 (drop 4 iv)) (u32 (load32 iv + Z.of_nat (i / 64))) (i mod 64).

Abbreviation xored key iv pos p := (zip_with Z.lxor p (boring_stream key iv <$> seq pos (length p))).

(** The context is at a position: the blocks before the counter have been made, and what is not used of
    the last one is kept. *)
Record boring_at (key iv : bytes) (pos : nat) (ctx : boringssl_chacha20_context_t) : Prop := {
  at_key : boring_key ctx = take 32 key;
  at_nonce : boring_iv ctx = take 12 (drop 4 iv);
  at_blocks : exists nb, Z.of_nat pos + ks_len ctx = 64 * Z.of_nat nb /\ ks_ctr ctx = u32 (load32 iv + Z.of_nat nb);
  at_len : 0 <= ks_len ctx <= 64;
  at_rest : take (Z.to_nat (ks_len ctx)) (drop (Z.to_nat (64 - ks_len ctx)) (ks_bytes ctx)) =
            boring_stream key iv <$> seq pos (Z.to_nat (ks_len ctx));
}.

Lemma u32_add_l a b : u32 (u32 a + b) = u32 (a + b).
Proof. unfold u32. by rewrite Zplus_mod_idemp_l. Qed.

(** What the library gives from a counter. *)
Lemma chacha_from input key iv nb :
  CRYPTO_chacha_20 input (take 32 key) (take 12 (drop 4 iv)) (u32 (load32 iv + Z.of_nat nb)) = xored key iv (64 * nb) input.
Proof.
  rewrite chacha_xors. f_equal. replace (64 * nb)%nat with (64 * nb + 0)%nat at 1 by lia. rewrite <- fmap_add_seq, <- list_fmap_compose.
  apply list_fmap_ext. intros _ i _. unfold boring_stream, compose. rewrite u32_add_l. f_equal.
  - f_equal. rewrite (Nat.mul_comm 64), Nat.div_add_l by lia. lia.
  - rewrite Nat.add_comm, (Nat.mul_comm 64). symmetry. by apply Nat.Div0.mod_add.
Qed.

Lemma xored_split key iv pos n p : (n <= length p)%nat ->
  zip_with Z.lxor (take n p) (boring_stream key iv <$> seq pos n) ++ xored key iv (pos + n) (drop n p) = xored key iv pos p.
Proof.
  intros Hn. rewrite <- zip_with_app by (rewrite length_take, length_fmap, length_seq; lia).
  rewrite take_drop, <- fmap_app, <- seq_app, length_drop. do 3 f_equal. lia.
Qed.

Lemma lxor_zeroes (l : bytes) : zip_with Z.lxor (replicate (length l) 0) l = l.
Proof. induction l as [|x l IH]; [done|]. simpl. by rewrite IH. Qed.

Lemma xored_zeroes key iv pos n : xored key iv pos (replicate n 0) = boring_stream key iv <$> seq pos n.
Proof.
  rewrite length_replicate. rewrite <- (lxor_zeroes (boring_stream key iv <$> seq pos n)) at 2. by rewrite length_fmap, length_seq.
Qed.

Lemma take_fmap_seq (f : nat -> Z) pos n m : (n <= m)%nat -> take n (f <$> seq pos m) = f <$> seq pos n.
Proof. intros Hn. rewrite <- fmap_take, take_seq. by rewrite Nat.min_l. Qed.

Lemma drop_fmap_seq (f : nat -> Z) pos n m : drop n (f <$> seq pos m) = f <$> seq (pos + n) (m - n).
Proof. by rewrite <- fmap_drop, drop_seq. Qed.

Lemma buffered_at key iv pos ctx input : boring_at key iv pos ctx ->
  let n := Z.to_nat (Z.min (len input) (ks_len ctx)) in
  exists ctx', boringssl_chacha20_transform_buffered ctx input =
    (zip_with Z.lxor (take n input) (boring_stream key iv <$> seq pos n), drop n input, ctx') /\
    boring_at key iv (pos + n) ctx' /\ (drop n input <> [] -> ks_len ctx' = 0).
Proof.
  intros [Hk Hn (nb & Hb & Hc) Hl Hr] n. unfold boringssl_chacha20_transform_buffered. cbv zeta. fold n.
  pose proof (len_nonneg input). assert (Z.of_nat n = Z.min (len input) (ks_len ctx)) as Hz by lia. rewrite <- Hz.
  pose proof (f_equal (take n) Hr) as Ht. rewrite take_take, Nat.min_l, take_fmap_seq in Ht by lia. rewrite Ht.
  eexists. split; [reflexivity|]. split; [split; cbn; try done|].
  - exists nb. split; [lia|done].
  - lia.
  - apply (f_equal (drop n)) in Hr. rewrite drop_fmap_seq, skipn_firstn_comm, drop_drop in Hr.
    replace (Z.to_nat (ks_len ctx - Z.of_nat n)) with (Z.to_nat (ks_len ctx) - n)%nat by lia. rewrite <- Hr. do 2 f_equal. lia.
  - intros Hd. cbn. destruct (decide (len input <= ks_len ctx)); [|lia]. destruct Hd. apply drop_ge. unfold len in *. lia.
Qed.

(** A new block, of which the input takes the first bytes. *)
Lemma refill_at key iv pos ctx input : boring_at key iv pos ctx -> ks_len ctx = 0 -> len input <= 64 ->
  exists ctx', boringssl_chacha20_refill ctx input = Ok (xored key iv pos input, ctx') /\ boring_at key iv (pos + length input) ctx'.
Proof.
  intros [Hk Hn (nb & Hb & Hc) _ _] H0 Hi. unfold boringssl_chacha20_refill. rewrite Hk, Hn, Hc, chacha_from, xored_zeroes.
  assert (64 * nb = pos)%nat as -> by lia.
  edestruct (buffered_at key iv pos (set_keystream (u32 (u32 (load32 iv + Z.of_nat nb) + 1)) (boring_stream key iv <$> seq pos 64) 64 ctx) input)
    as (ctx' & -> & Hat & _).
  { split; cbn [set_keystream boring_key boring_iv ks_ctr ks_len ks_bytes]; try done.
    exists (S nb). split; [lia|]. rewrite u32_add_l. f_equal. lia. }
  cbn [set_keystream ks_len] in *. rewrite Z.min_l, to_nat_len in * by done. rewrite drop_all, firstn_all. change (len [] =? 0) with true.
  by exists ctx'.
Qed.

Lemma blocks_at key iv pos ctx input : boring_at key iv pos ctx -> ks_len ctx = 0 ->
  exists ctx', boringssl_chacha20_blocks ctx input = Ok (xored key iv pos input, ctx') /\ boring_at key iv (pos + length input) ctx'.
Proof.
  intros Hat H0. unfold boringssl_chacha20_blocks. change CHACHA20POLY1305_BLOCKSIZE with 64.
  destruct (Z.leb_spec 64 (len input)) as [Hl|Hl]; [|apply refill_at; (done || lia)].
  pose proof Hat as [Hk Hn (nb & Hb & Hc) _ _]. assert (64 * nb = pos)%nat as Hp by lia.
  set (q := len input / 64). pose proof (Z.div_mod (len input) 64 ltac:(done)). pose proof (Z.mod_pos_bound (len input) 64 ltac:(done)).
  fold q in H1. assert (0 <= q) by (apply Z.div_pos; lia). set (n := Z.to_nat (q * 64)).
  assert (Z.of_nat n = q * 64) as Hn' by lia. assert (n <= length input)%nat as Hni by (unfold len in *; lia).
  rewrite Hk, Hn, Hc, chacha_from, Hp, length_take, Nat.min_l by done.
  assert (boring_at key iv (pos + n) (set_keystream (u32 (u32 (load32 iv + Z.of_nat nb) + q)) (ks_bytes ctx) (ks_len ctx) ctx)) as Hat'.
  { split; cbn; try done; [|lia|by rewrite H0]. exists (nb + Z.to_nat q)%nat. split; [lia|]. rewrite u32_add_l. f_equal. lia. }
  destruct (Z.eqb_spec (len (drop n input)) 0) as [E|E].
  - apply len_zero in E. rewrite <- (xored_split key iv pos n input) by done. rewrite E, app_nil_r. eexists. split; [reflexivity|].
    assert (length input = n) as -> by (apply (f_equal length) in E; rewrite length_drop in E; simpl in E; lia). done.
  - edestruct (refill_at key iv (pos + n) _ (drop n input) Hat' H0) as (ctx' & -> & Hat2); [rewrite len_drop; lia|].
    cbn [mbind result_bind]. exists ctx'. rewrite xored_split by done. split; [done|]. rewrite length_drop in Hat2.
    by replace (pos + length input)%nat with (pos + n + (length input - n))%nat by lia.
Qed.

Lemma transform_at key iv pos ctx input : boring_at key iv pos ctx ->
  exists ctx', boringssl_chacha20_transform ctx input = Ok (xored key iv pos input, ctx') /\ boring_at key iv (pos + length input) ctx'.
Proof.
  intros Hat. unfold boringssl_chacha20_transform. destruct (Z.eqb_spec (len input) 0) as [E|E].
  { apply len_zero in E as ->. exists ctx. by rewrite Nat.add_0_r. }
  destruct (Z.eqb_spec (ks_len ctx) 0) as [H0|H0]; cbn [negb].
  { rewrite (proj2 (Z.eqb_neq _ _) E), (proj2 (Z.eqb_eq _ _) H0). cbn [guard_err mbind result_bind].
    destruct (blocks_at key iv pos ctx input Hat H0) as (ctx' & -> & Hat'). by exists ctx'. }
  destruct (buffered_at key iv pos ctx input Hat) as (ctx' & -> & Hat' & Hz). set (n := Z.to_nat _) in *.
  assert (n <= length input)%nat as Hni by (unfold n, len; lia).
  rewrite <- (xored_split key iv pos n input) by done. destruct (Z.eqb_spec (len (drop n input)) 0) as [E'|E'].
  - apply len_zero in E'. rewrite E', app_nil_r. exists ctx'. split; [done|].
    assert (length input = n) as -> by (apply (f_equal length) in E'; rewrite length_drop in E'; simpl in E'; lia). done.
  - rewrite (Hz ltac:(by rewrite <- len_zero)). change (0 =? 0) with true. cbn [guard_err mbind result_bind].
    destruct (blocks_at key iv (pos + n) ctx' (drop n input) Hat' (Hz ltac:(by rewrite <- len_zero))) as (c2 & -> & Hat2).
    cbn [mbind result_bind]. exists c2. split; [done|]. rewrite length_drop in Hat2.
    by replace (pos + length input)%nat with (pos + n + (length input - n))%nat by lia.
Qed.

(** The object keeps the promise of a stream cipher. *)
#[export] Instance boringssl_is_stream uninit : StreamCipher (boringssl_chacha20 uninit).
Proof.
  refine (Build_StreamCipher (boringssl_chacha20 uninit) boring_stream (λ ctx key, boring_key ctx = take 32 key)
            (λ ctx key iv pos, boring_at key iv pos ctx) _ _ _ _ _).
  - intros. apply chacha_byte_ok.
  - by intros ? ? ? [= <-].
  - intros ctx key iv Hk. eexists. split; [reflexivity|]. split; cbn; try done. exists 0%nat. split; [done|]. by rewrite Z.add_0_r.
  - by intros ? ? ? ? [Hk _ _ _ _].
  - intros. by apply transform_at.
Defined.

(** A plaintext in pieces. *)
Fixpoint transform_pieces (ctx : boringssl_chacha20_context_t) (pieces : list bytes) : result bytes :=
  match pieces with
  | [] => Ok []
  | p :: pieces =>
      '(o, ctx) ← boringssl_chacha20_transform ctx p;
      rest ← transform_pieces ctx pieces;
      Ok (o ++ rest)
  end.

Lemma pieces_at key iv pieces : forall pos ctx, boring_at key iv pos ctx -> transform_pieces ctx pieces = Ok (xored key iv pos (concat pieces)).
Proof.
  induction pieces as [|p pieces IH]; intros pos ctx Hat; [done|]. cbn [transform_pieces].
  destruct (transform_at key iv pos ctx p Hat) as (ctx' & -> & Hat'). cbn [mbind result_bind]. rewrite (IH _ _ Hat'). cbn [mbind result_bind concat].
  rewrite <- (xored_split key iv pos (length p) (p ++ concat pieces)) by (rewrite length_app; lia).
  by rewrite take_app_length, drop_app_length.
Qed.
End BoringSSL.

(** ChaCha20 over BoringSSL does not depend on how its input is cut.  From a context that is set up
    and given an IV, however many bytes each call has (none, less than a block, a block and a half), what
    the calls write together is the input xored with the key stream of RFC 8439 from its first byte: no
    byte of the stream is used twice or left out, and the counter of 32 bits wraps as the library's
    does. *)
Theorem boringssl_chacha20_stream CRYPTO_chacha_20 `{ChaCha20 CRYPTO_chacha_20} uninit is_enc key iv pieces :
  (ctx ← boringssl_chacha20_setup_crypto uninit is_enc key; ctx ← boringssl_chacha20_init ctx iv; transform_pieces CRYPTO_chacha_20 ctx pieces)
  = Ok (zip_with Z.lxor (concat pieces) (boring_stream CRYPTO_chacha_20 key iv <$> seq 0 (length (concat pieces)))).
Proof.
  cbn [boringssl_chacha20_setup_crypto boringssl_chacha20_init mbind result_bind]. apply pieces_at. split; cbn; try done. exists 0%nat. split; [done|]. by rewrite Z.add_0_r.
Qed.

(** The AEAD of RFC 8439 over it. *)
(* src lib/openssl.c:1672-1676 boringssl_chacha20poly1305_setup_crypto *)
Definition boringssl_chacha20poly1305_setup_crypto `{Allocator} (CRYPTO_chacha_20 : bytes -> bytes -> bytes -> Z -> bytes)
    (poly : poly1305_ops) (uninit : boringssl_chacha20_context_t) (uninit_poly : poly_state poly) (is_enc : bool) (key iv : bytes) :=
  chacha20poly1305_setup_crypto (boringssl_chacha20 CRYPTO_chacha_20 uninit) poly uninit_poly is_enc key iv.

(** ** The EVP interface *)

(** The value of a [size_t] converted to [int]. *)
Definition to_int (n : Z) : Z := let r := u32 n in if r <? 2 ^ 31 then r else r - 2 ^ 32.

Lemma to_int_small n : 0 <= n < 2 ^ 31 -> to_int n = n.
Proof. intros Hn. unfold to_int. rewrite u32_small by lia. by rewrite (proj2 (Z.ltb_lt _ _)) by lia. Qed.

(** The functions of the library on cipher contexts.  Each gives what it returns ([None] for 0) and the
    context; [true] is encryption.  [evp_update c enc out x n]: [out] says whether there is an output
    (else [x] is additional data), [n] is the length passed. *)
Record evp_ops := mkEvp {
  EVP_CIPHER : Type;
  EVP_CIPHER_CTX : Type;
  EVP_CIPHER_CTX_new : option EVP_CIPHER_CTX;
  evp_init : EVP_CIPHER_CTX -> bool -> option EVP_CIPHER -> option bytes -> option bytes -> option unit * EVP_CIPHER_CTX; (* key, IV *)
  evp_update : EVP_CIPHER_CTX -> bool -> bool -> bytes -> Z -> option bytes * EVP_CIPHER_CTX;
  evp_final : EVP_CIPHER_CTX -> bool -> option bytes * EVP_CIPHER_CTX;
  EVP_CIPHER_CTX_set_padding : EVP_CIPHER_CTX -> Z -> EVP_CIPHER_CTX;
  evp_set_ivlen : EVP_CIPHER_CTX -> Z -> option unit * EVP_CIPHER_CTX;
  evp_get_tag : EVP_CIPHER_CTX -> Z -> option bytes * EVP_CIPHER_CTX;
  evp_set_tag : EVP_CIPHER_CTX -> bytes -> option unit * EVP_CIPHER_CTX;
}.

(** [ret = f(...); assert(ret);] *)
Definition asserted {A C} (r : option A * C) : result (A * C) := match r with (Some a, c) => Ok (a, c) | (None, _) => Err ABORTED end.

Section Evp.
Context (evp : evp_ops).

(** ** Ciphers *)

(* src lib/openssl.c:1257-1263 cipher_do_init *)
Definition cipher_do_init (ctx : EVP_CIPHER_CTX evp) (iv : bytes) : result (EVP_CIPHER_CTX evp) :=
  '(_, ctx) ← asserted (evp_init evp ctx true None None (Some iv));
  Ok ctx.

(* src lib/openssl.c:1265-1290 cipher_setup_crypto *)
Definition cipher_setup_crypto (cipher : EVP_CIPHER evp) (is_enc : bool) (key : bytes) : result (EVP_CIPHER_CTX evp) :=
  match EVP_CIPHER_CTX_new evp with
  | None => Err PTLS_ERROR_NO_MEMORY
  | Some ctx =>
      match evp_init evp ctx is_enc (Some cipher) (Some key) None with
      | (None, _) => Err PTLS_ERROR_LIBRARY
      | (Some _, ctx) => Ok (if is_enc then ctx else EVP_CIPHER_CTX_set_padding evp ctx 0)
      end
  end.

(** [cipher_encrypt] and [cipher_decrypt]. *)
Definition cipher_transform (is_enc : bool) (ctx : EVP_CIPHER_CTX evp) (input : bytes) : result (bytes * EVP_CIPHER_CTX evp) :=
  '(output, ctx) ← asserted (evp_update evp ctx is_enc true input (to_int (len input)));
  _ ← guard_err (len output =? to_int (len input)) ABORTED;
  Ok (output, ctx).

(* src lib/openssl.c:1292-1298 cipher_encrypt *)
Definition cipher_encrypt : EVP_CIPHER_CTX evp -> bytes -> result (bytes * EVP_CIPHER_CTX evp) := cipher_transform true.

(* src lib/openssl.c:1300-1306 cipher_decrypt *)
Definition cipher_decrypt : EVP_CIPHER_CTX evp -> bytes -> result (bytes * EVP_CIPHER_CTX evp) := cipher_transform false.

(** [sizeof(struct cipher_context_t)] *)
Definition SIZEOF_CIPHER_CONTEXT : Z := 40.

(** The private part of a context: the transform that the set-up chose, and the EVP context. *)
Definition openssl_cipher (key_size block_size iv_size : Z) (setup : bool -> bytes -> result (bool * EVP_CIPHER_CTX evp)) : ptls_cipher_algorithm_t :=
  mkCipher key_size block_size iv_size SIZEOF_CIPHER_CONTEXT (bool * EVP_CIPHER_CTX evp) setup
    (Some (λ st iv, c ← cipher_do_init st.2 iv; Ok (st.1, c)))
    (λ st input, '(o, c) ← (if st.1 then cipher_encrypt else cipher_decrypt) st.2 input; Ok (o, (st.1, c))).

(** Both directions of an ECB cipher. *)
(* src lib/openssl.c:1308-1311 aes128ecb_setup_crypto *)
Definition ecb_setup_crypto (cipher : EVP_CIPHER evp) (is_enc : bool) (key : bytes) : result (bool * EVP_CIPHER_CTX evp) :=
  c ← cipher_setup_crypto cipher is_enc key; Ok (is_enc, c).

(** A CTR cipher always encrypts. *)
(* src lib/openssl.c:1318-1321 aes128ctr_setup_crypto *)
Definition ctr_setup_crypto (cipher : EVP_CIPHER evp) (is_enc : bool) (key : bytes) : result (bool * EVP_CIPHER_CTX evp) :=
  c ← cipher_setup_crypto cipher true key; Ok (true, c).

(* src lib/openssl.c:2457-2459 ptls_openssl_aes128ecb *)
Definition ptls_openssl_aes128ecb (EVP_aes_128_ecb : EVP_CIPHER evp) : ptls_cipher_algorithm_t :=
  openssl_cipher 16 16 0 (ecb_setup_crypto EVP_aes_128_ecb).

(* src lib/openssl.c:2460-2461 ptls_openssl_aes128ctr *)
Definition ptls_openssl_aes128ctr (EVP_aes_128_ctr : EVP_CIPHER evp) : ptls_cipher_algorithm_t :=
  openssl_cipher 16 1 16 (ctr_setup_crypto EVP_aes_128_ctr).

(* src lib/openssl.c:2474-2476 ptls_openssl_aes256ecb *)
Definition ptls_openssl_aes256ecb (EVP_aes_256_ecb : EVP_CIPHER evp) : ptls_cipher_algorithm_t :=
  openssl_cipher 32 16 0 (ecb_setup_crypto EVP_aes_256_ecb).

(* src lib/openssl.c:2477-2479 ptls_openssl_aes256ctr *)
Definition ptls_openssl_aes256ctr (EVP_aes_256_ctr : EVP_CIPHER evp) : ptls_cipher_algorithm_t :=
  openssl_cipher 32 1 16 (ctr_setup_crypto EVP_aes_256_ctr).

(** ** AEAD *)

(* src lib/openssl.c:1477-1481 aead_crypto_context_t *)
Record aead_crypto_context_t := mkAeadCrypto { evp_ctx : EVP_CIPHER_CTX evp; evp_static_iv : bytes }.

Section Callbacks.
(** Sizes of [ctx->super.algo]. *)
Context (iv_size tag_size : Z).

(* src lib/openssl.c:1491-1496 aead_get_iv *)
Definition aead_get_iv (ctx : aead_crypto_context_t) : bytes := take (Z.to_nat iv_size) (evp_static_iv ctx).

(* src lib/openssl.c:1498-1503 aead_set_iv *)
Definition aead_set_iv (ctx : aead_crypto_context_t) (iv : bytes) : aead_crypto_context_t :=
  mkAeadCrypto (evp_ctx ctx) (take (Z.to_nat iv_size) iv ++ drop (Z.to_nat iv_size) (evp_static_iv ctx)).

(** The nonce, then the additional data, if there is any. *)
Definition aead_start (is_enc : bool) (ctx : aead_crypto_context_t) (seq : Z) (aad : bytes) : result (EVP_CIPHER_CTX evp) :=
  let iv := ptls_aead__build_iv iv_size (evp_static_iv ctx) seq in
  '(_, c) ← asserted (evp_init evp (evp_ctx ctx) is_enc None None (Some iv));
  if negb (len aad =? 0) then '(_, c) ← asserted (evp_update evp c is_enc false aad (to_int (len aad))); Ok c
  else Ok c.

(* src lib/openssl.c:1505-1520 aead_do_encrypt_init *)
Definition aead_do_encrypt_init (ctx : aead_crypto_context_t) (seq : Z) (aad : bytes) : result aead_crypto_context_t :=
  c ← aead_start true ctx seq aad;
  Ok (mkAeadCrypto c (evp_static_iv ctx)).

(* src lib/openssl.c:1522-1531 aead_do_encrypt_update *)
Definition aead_do_encrypt_update (ctx : aead_crypto_context_t) (input : bytes) : result (bytes * aead_crypto_context_t) :=
  '(output, c) ← asserted (evp_update evp (evp_ctx ctx) true true input (to_int (len input)));
  Ok (output, mkAeadCrypto c (evp_static_iv ctx)).

(* src lib/openssl.c:1533-1548 aead_do_encrypt_final *)
Definition aead_do_encrypt_final (ctx : aead_crypto_context_t) : result (bytes * aead_crypto_context_t) :=
  '(output, c) ← asserted (evp_final evp (evp_ctx ctx) true);
  '(tag, c) ← asserted (evp_get_tag evp c tag_size);
  Ok (output ++ tag, mkAeadCrypto c (evp_static_iv ctx)).

(* src lib/openssl.c:1550-1578 aead_do_decrypt *)
Definition aead_do_decrypt (ctx : aead_crypto_context_t) (input : bytes) (seq : Z) (aad : bytes) : result (option bytes * aead_crypto_context_t) :=
  if len input <? tag_size then Ok (None, ctx) else
  c ← aead_start false ctx seq aad;
  let n := len input - tag_size in
  '(output, c) ← asserted (evp_update evp c false true (take (Z.to_nat n) input) (to_int n));
  match evp_set_tag evp c (drop (Z.to_nat n) input) with
  | (None, c) => Ok (None, mkAeadCrypto c (evp_static_iv ctx))
  | (Some _, c) =>
      match evp_final evp c false with
      | (None, c) => Ok (None, mkAeadCrypto c (evp_static_iv ctx))
      | (Some o, c) => Ok (Some (output ++ o), mkAeadCrypto c (evp_static_iv ctx))
      end
  end.

(* src lib/openssl.c:1580-1634 aead_setup_crypto *)
Definition aead_setup_crypto (cipher : EVP_CIPHER evp) (uninit : bytes) (is_enc : bool) (key iv : bytes)
    : result (aead_callbacks aead_crypto_context_t * aead_crypto_context_t) :=
  let cb := if is_enc then mkAeadCallbacks (Some aead_do_encrypt_init) (Some aead_do_encrypt_update) (Some aead_do_encrypt_final) None
            else mkAeadCallbacks None None None (Some aead_do_decrypt) in
  match EVP_CIPHER_CTX_new evp with
  | None => Err PTLS_ERROR_NO_MEMORY
  | Some c =>
      match evp_init evp c is_enc (Some cipher) (Some key) None with
      | (None, _) => Err PTLS_ERROR_LIBRARY
      | (Some _, c) =>
          match evp_set_ivlen evp c iv_size with
          | (None, _) => Err PTLS_ERROR_LIBRARY
          | (Some _, c) => Ok (cb, aead_set_iv (mkAeadCrypto c uninit) iv)
          end
      end
  end.
End Callbacks.

(** AES-GCM and ChaCha20-Poly1305: nonces of 12 bytes, tags of 16; [cipher] is [EVP_aes_128_gcm()] and so
    on. *)
(* src lib/openssl.c:1636-1639 aead_aes128gcm_setup_crypto *)
Definition aead_aes128gcm_setup_crypto := aead_setup_crypto PTLS_AESGCM_IV_SIZE PTLS_AESGCM_TAG_SIZE.

(* src lib/openssl.c:1641-1644 aead_aes256gcm_setup_crypto *)
Definition aead_aes256gcm_setup_crypto := aead_setup_crypto PTLS_AESGCM_IV_SIZE PTLS_AESGCM_TAG_SIZE.

(* src lib/openssl.c:1680-1683 aead_chacha20poly1305_setup_crypto *)
Definition aead_chacha20poly1305_setup_crypto := aead_setup_crypto PTLS_CHACHA20POLY1305_IV_SIZE PTLS_CHACHA20POLY1305_TAG_SIZE.
End Evp.

(** ** What the EVP interface promises *)

(** A block cipher without IV, set up for encryption. *)
Class EvpBlock (evp : evp_ops) (cipher : EVP_CIPHER evp) := {
  evp_block : bytes -> bytes -> bytes;
  evp_block_len : forall key b, length (evp_block key b) = 16%nat;
  evp_block_bytes : forall key b, is_bytes (evp_block key b);
  ecb_keyed : EVP_CIPHER_CTX evp -> bytes -> Prop;
  ecb_init : forall c key u c', EVP_CIPHER_CTX_new evp = Some c -> evp_init evp c true (Some cipher) (Some key) None = (Some u, c') -> ecb_keyed c' key;
  ecb_update : forall c key b, ecb_keyed c key -> length b = 16%nat ->
    exists c', evp_update evp c true true b 16 = (Some (evp_block key b), c') /\ ecb_keyed c' key;
}.

(** The AES-ECB object, over which QUIC-LB is built (file QuicLb), keeps its promise. *)
#[export] Instance openssl_aes128ecb_is_block evp cipher `{EvpBlock evp cipher} : BlockCipher (ptls_openssl_aes128ecb evp cipher).
Proof.
  refine (Build_BlockCipher (ptls_openssl_aes128ecb evp cipher) evp_block (λ st key, st.1 = true /\ ecb_keyed st.2 key) _ _ _ _).
  - intros. apply evp_block_bytes.
  - intros. apply evp_block_len.
  - intros key st Hs. cbn in Hs. unfold ecb_setup_crypto, cipher_setup_crypto in Hs. inv_ok.
    destruct (EVP_CIPHER_CTX_new evp) as [c0|] eqn:Ec; [|done]. destruct (evp_init _ _ _ _ _ _) as [[u|] c1] eqn:Ei; [|done].
    injection Ha as <-. split; [done|]. by eapply ecb_init.
  - intros [d c] key b [Hd Hk] Hb. cbn in Hd, Hk. subst d. destruct (ecb_update c key b Hk Hb) as (c' & Hu & Hk').
    exists (true, c'). split; [|done]. assert (len b = 16) as Hl by (unfold len; lia).
    cbn. unfold cipher_encrypt, cipher_transform. rewrite Hl. change (to_int 16) with 16. rewrite Hu. cbn [asserted mbind result_bind].
    assert (len (evp_block key b) = 16) as -> by (unfold len; by rewrite evp_block_len). done.
Defined.

(** An AEAD cipher, with nonces of 12 bytes and tags of 16: [aead_run enc c key nonce aad input output]
    is a context that has absorbed [aad] and [input] and written [output].  The lengths passed are those
    of an [int]. *)
Class EvpAead (evp : evp_ops) (cipher : EVP_CIPHER evp) := {
  evp_text : bytes -> bytes -> bytes -> bytes;
  evp_untext : bytes -> bytes -> bytes -> bytes;
  evp_tag : bytes -> bytes -> bytes -> bytes -> bytes;
  evp_text_len : forall key nonce p, len (evp_text key nonce p) = len p;
  evp_untext_len : forall key nonce c, len (evp_untext key nonce c) = len c;
  evp_text_bytes : forall key nonce p, is_bytes p -> is_bytes (evp_text key nonce p);
  evp_untext_text : forall key nonce p, evp_untext key nonce (evp_text key nonce p) = p;
  evp_tag_len : forall key nonce aad c, len (evp_tag key nonce aad c) = 16;
  evp_tag_bytes : forall key nonce aad c, is_bytes (evp_tag key nonce aad c);
  aead_keyed : bool -> EVP_CIPHER_CTX evp -> bytes -> Prop;
  aead_run : bool -> EVP_CIPHER_CTX evp -> bytes -> bytes -> bytes -> bytes -> bytes -> Prop;
  aead_init_ok : forall enc c key u c' u' c'', EVP_CIPHER_CTX_new evp = Some c -> evp_init evp c enc (Some cipher) (Some key) None = (Some u, c') ->
    evp_set_ivlen evp c' 12 = (Some u', c'') -> aead_keyed enc c'' key;
  aead_iv_ok : forall enc c key iv, aead_keyed enc c key -> length iv = 12%nat ->
    exists u c', evp_init evp c enc None None (Some iv) = (Some u, c') /\ aead_run enc c' key iv [] [] [];
  aead_aad_ok : forall enc c key iv aad x, aead_run enc c key iv aad [] [] -> 0 < len x < 2 ^ 31 ->
    exists y c', evp_update evp c enc false x (len x) = (Some y, c') /\ aead_run enc c' key iv (aad ++ x) [] [];
  aead_update_ok : forall enc c key iv aad i o x, aead_run enc c key iv aad i o -> len x < 2 ^ 31 ->
    exists y c', evp_update evp c enc true x (len x) = (Some y, c') /\ aead_run enc c' key iv aad (i ++ x) (o ++ y);
  aead_final_ok : forall c key iv aad i o, aead_run true c key iv aad i o ->
    exists y c' c'', evp_final evp c true = (Some y, c') /\ o ++ y = evp_text key iv i /\
      evp_get_tag evp c' 16 = (Some (evp_tag key iv aad (evp_text key iv i)), c'') /\ aead_keyed true c'' key;
  aead_check_ok : forall c key iv aad i o t, aead_run false c key iv aad i o -> len t = 16 ->
    exists u c' r c'', evp_set_tag evp c t = (Some u, c') /\ evp_final evp c' false = (r, c'') /\ aead_keyed false c'' key /\
      (forall y, r = Some y -> t = evp_tag key iv aad i /\ o ++ y = evp_untext key iv i) /\ (r = None -> t <> evp_tag key iv aad i);
}.

Section Aead.
Context (evp : evp_ops) (cipher : EVP_CIPHER evp) `{EvpAead evp cipher}.

Definition evp_seal : bytes -> bytes -> bytes -> bytes -> bytes := etm_seal evp_text evp_tag.
Definition evp_open : bytes -> bytes -> bytes -> bytes -> option bytes := etm_open 16 evp_untext evp_tag.

(** The abstract AEAD: [fixed] and [record] are the sizes of TLS 1.2. *)
Definition evp_aead (id key_size fixed record ctxsize : Z) (ok : bool) : ptls_aead_algorithm_t :=
  mkAead id key_size 12 16 fixed record 0 ctxsize ok evp_seal evp_open.

Lemma evp_aead_ok id key_size fixed record ctxsize ok : record = 0 \/ record = 8 -> aead_ok (evp_aead id key_size fixed record ctxsize ok).
Proof.
  intros Hrec. split; cbn -[Z.add]; try (done || (unfold PTLS_MAX_IV_SIZE; lia)).
  - intros. apply etm_seal_len; [apply evp_text_len|apply evp_tag_len].
  - intros k iv aad p Hp. apply Forall_app. split; [by apply evp_text_bytes|apply evp_tag_bytes].
  - intros. apply etm_open_seal; [apply evp_text_len|apply evp_tag_len|apply evp_untext_text].
  - intros k iv aad c p. apply etm_open_len; [apply evp_untext_len|done].
Qed.

(** A context that can be used: keyed, with the IV in its first 12 bytes. *)
Definition evp_ready (is_enc : bool) (key iv : bytes) (ctx : aead_crypto_context_t evp) : Prop :=
  aead_keyed is_enc (evp_ctx evp ctx) key /\ take 12 (evp_static_iv evp ctx) = iv /\ length iv = 12%nat.

Lemma build_iv_take iv iv' seq : take 12 iv' = iv -> ptls_aead__build_iv 12 iv' seq = ptls_aead__build_iv 12 iv seq.
Proof.
  intros <-. unfold ptls_aead__build_iv. change (Z.to_nat (12 - 8)) with 4%nat. rewrite take_take. change (4 `min` 12)%nat with 4%nat.
  f_equal. f_equal. change (drop 4 (take 12 iv')) with (drop 4 (take (4 + 8) iv')). by rewrite <- take_drop_commute, take_take.
Qed.

Lemma build_iv_len12 iv seq : length iv = 12%nat -> length (ptls_aead__build_iv 12 iv seq) = 12%nat.
Proof. intros Hl. unfold ptls_aead__build_iv. rewrite length_app, length_zip_with, !length_take, length_drop, Hl. reflexivity. Qed.

Lemma start_at is_enc key iv ctx seq aad : evp_ready is_enc key iv ctx -> len aad < 2 ^ 31 ->
  exists c, aead_start evp 12 is_enc ctx seq aad = Ok c /\ aead_run is_enc c key (ptls_aead__build_iv 12 iv seq) aad [] [].
Proof.
  intros (Hk & Hiv & Hl) Ha. unfold aead_start. cbv zeta. rewrite (build_iv_take iv) by done.
  destruct (aead_iv_ok is_enc _ key (ptls_aead__build_iv 12 iv seq) Hk (build_iv_len12 iv seq Hl)) as (u & c & -> & Hr).
  cbn [asserted mbind result_bind]. pose proof (len_nonneg aad). destruct (Z.eqb_spec (len aad) 0) as [E|E]; cbn [negb].
  - apply len_zero in E as ->. by exists c.
  - rewrite to_int_small by lia. destruct (aead_aad_ok is_enc c key _ [] aad Hr ltac:(lia)) as (y & c' & -> & Hr'). by exists c'.
Qed.

Lemma updates_run key nonce aad cb input : do_encrypt_update cb = Some (aead_do_encrypt_update evp) -> Forall (λ i, len i < 2 ^ 31) input ->
  forall ctx i o, aead_run true (evp_ctx evp ctx) key nonce aad i o ->
  exists o' ctx', encrypt_updates cb ctx input o = Ok (o', ctx') /\ aead_run true (evp_ctx evp ctx') key nonce aad (i ++ concat input) o' /\
    evp_static_iv evp ctx' = evp_static_iv evp ctx.
Proof.
  intros Hu. induction 1 as [|x input Hx _ IH]; intros ctx i o Hr; [exists o, ctx; by rewrite app_nil_r|].
  cbn [encrypt_updates]. rewrite Hu. cbn [callback mbind result_bind]. unfold aead_do_encrypt_update.
  rewrite to_int_small by (pose proof (len_nonneg x); lia). destruct (aead_update_ok true _ key nonce aad i o x Hr Hx) as (y & c & -> & Hr').
  cbn [asserted mbind result_bind]. destruct (IH (mkAeadCrypto evp c (evp_static_iv evp ctx)) _ _ Hr') as (o' & ctx' & -> & Hr2 & Hs).
  exists o', ctx'. cbn [concat]. by rewrite app_assoc.
Qed.

Lemma evp_encrypt_v key iv cb ctx input seq aad :
  do_encrypt_init cb = Some (aead_do_encrypt_init evp 12) -> do_encrypt_update cb = Some (aead_do_encrypt_update evp) ->
  do_encrypt_final cb = Some (aead_do_encrypt_final evp 16) -> evp_ready true key iv ctx -> len aad < 2 ^ 31 -> Forall (λ i, len i < 2 ^ 31) input ->
  exists ctx', ptls_aead__do_encrypt_v cb ctx input seq aad = Ok (evp_seal key (ptls_aead__build_iv 12 iv seq) aad (concat input), ctx') /\
    evp_ready true key iv ctx'.
Proof.
  intros Hi Hu Hf Hr Ha Hin. pose proof Hr as (_ & Hiv & Hl). unfold ptls_aead__do_encrypt_v. rewrite Hi, Hf. cbn [callback mbind result_bind].
  unfold aead_do_encrypt_init. destruct (start_at true key iv ctx seq aad Hr Ha) as (c & -> & Hrun). cbn [mbind result_bind].
  destruct (updates_run key _ aad cb input Hu Hin (mkAeadCrypto evp c (evp_static_iv evp ctx)) [] [] Hrun) as (o & ctx' & -> & Hrun' & Hs).
  cbn [mbind result_bind]. unfold aead_do_encrypt_final. destruct (aead_final_ok _ _ _ _ _ _ Hrun') as (y & c' & c'' & -> & Ho & Ht & Hk).
  cbn [asserted mbind result_bind]. rewrite Ht. cbn [asserted mbind result_bind].
  exists (mkAeadCrypto evp c'' (evp_static_iv evp ctx')). split; [|split; [exact Hk|split; [|done]]].
  - by rewrite app_assoc, Ho.
  - cbn in *. by rewrite Hs.
Qed.

Lemma evp_decrypt key iv ctx input seq aad : evp_ready false key iv ctx -> len aad < 2 ^ 31 -> len input < 2 ^ 31 ->
  exists ctx', aead_do_decrypt evp 12 16 ctx input seq aad = Ok (evp_open key (ptls_aead__build_iv 12 iv seq) aad input, ctx') /\
    evp_ready false key iv ctx'.
Proof.
  intros Hr Ha Hin. pose proof Hr as (_ & Hiv & Hl). unfold aead_do_decrypt, evp_open, etm_open. cbv zeta.
  destruct (Z.ltb_spec (len input) 16) as [Hs|Hs]; [rewrite (proj2 (Z.ltb_lt _ _)) by lia; by exists ctx|].
  rewrite (proj2 (Z.ltb_ge (len input - _) 0)) by lia. cbn [orb]. set (n := len input - 16). set (ct := take (Z.to_nat n) input).
  assert (len ct = n) as Hn by (unfold ct; rewrite len_take; lia).
  destruct (start_at false key iv ctx seq aad Hr Ha) as (c & -> & Hrun). cbn [mbind result_bind]. rewrite to_int_small, <- Hn by lia.
  destruct (aead_update_ok false c key _ aad [] [] ct Hrun ltac:(lia)) as (o & c1 & -> & Hrun'). cbn [asserted mbind result_bind]. rewrite Hn.
  destruct (aead_check_ok c1 key _ aad ct o (drop (Z.to_nat n) input) Hrun') as (u & c2 & r & c3 & -> & -> & Hk & Hy & Hno).
  { rewrite len_drop. lia. }
  destruct r as [y|]; (exists (mkAeadCrypto evp c3 (evp_static_iv evp ctx)); split; [|split; [exact Hk|done]]); do 2 f_equal.
  - destruct (Hy y eq_refl) as [Ht Ho]. rewrite bool_decide_eq_true_2 by done. cbn. by rewrite Ho.
  - rewrite bool_decide_eq_false_2 by auto. done.
Qed.
End Aead.

(** C33: the AEADs of the OpenSSL backend (AES-GCM, and ChaCha20-Poly1305 outside of BoringSSL) implement what
    the rest of the library uses.  After a successful set-up with a 12-byte IV, and whatever was done
    with the context before, encrypting a plaintext in any number of pieces writes what
    [ptls_aead_encrypt_v] gives for the AEAD of the library, under the nonce that this sequence number
    has, and decrypting gives what [ptls_aead_decrypt] gives, rejection included; that AEAD is one
    ([aead_ok]).  Each piece is shorter than 2^31 bytes: its length is passed as an [int]. *)
Theorem openssl_aead_refines (evp : evp_ops) (cipher : EVP_CIPHER evp) `{EvpAead evp cipher} uninit is_enc key iv cb ctx0 id key_size fixed record ctxsize ok :
  aead_setup_crypto evp 12 16 cipher uninit is_enc key iv = Ok (cb, ctx0) -> length iv = 12%nat -> record = 0 \/ record = 8 ->
  let A := mkAeadCtx (evp_aead evp cipher id key_size fixed record ctxsize ok) is_enc key iv in
  aead_ok (aead_algo A) /\ evp_ready evp cipher is_enc key iv ctx0 /\
  forall ctx, evp_ready evp cipher is_enc key iv ctx ->
    (is_enc = true -> forall input seq aad, len aad < 2 ^ 31 -> Forall (λ i, len i < 2 ^ 31) input ->
       exists ctx', ptls_aead__do_encrypt_v cb ctx input seq aad = Ok (ptls_aead_encrypt_v A input seq aad, ctx') /\
         evp_ready evp cipher is_enc key iv ctx') /\
    (is_enc = false -> forall input seq aad, len aad < 2 ^ 31 -> len input < 2 ^ 31 ->
       exists decrypt ctx', do_decrypt cb = Some decrypt /\ decrypt ctx input seq aad = Ok (ptls_aead_decrypt A input seq aad, ctx') /\
         evp_ready evp cipher is_enc key iv ctx').
Proof.
  intros Hs Hiv Hrec A. split; [by apply evp_aead_ok|]. unfold aead_setup_crypto in Hs.
  destruct (EVP_CIPHER_CTX_new evp) as [c|] eqn:Ec; [|done]. destruct (evp_init _ _ _ _ _ _) as [[u|] c1] eqn:Ei; [|done].
  destruct (evp_set_ivlen _ _ _) as [[u'|] c2] eqn:Ev; [|done]. injection Hs as <- <-. split.
  { split; [by eapply aead_init_ok|]. split; [|done]. cbn. rewrite take_app_le by (rewrite length_take; lia). rewrite take_take.
    by apply take_ge; rewrite Hiv. }
  intros ctx Hr. split; intros -> input seq aad Ha Hin.
  - by apply evp_encrypt_v.
  - destruct (evp_decrypt evp cipher key iv ctx input seq aad Hr Ha Hin) as (ctx' & Hd & Hr'). by eexists _, ctx'.
Qed.

(** ** Evaluation *)

(** ChaCha20 with another block function. *)
Definition toy_chacha (input key nonce : bytes) (ctr : Z) : bytes :=
  zip_with Z.lxor input ((λ i, toy_byte (key ++ [u32 (ctr + Z.of_nat (i / 64))]) nonce (i mod 64)) <$> seq 0 (length input)).

#[export] Instance toy_is_chacha : ChaCha20 toy_chacha.
Proof. refine (Build_ChaCha20 toy_chacha (λ key nonce ctr i, toy_byte (key ++ [ctr]) nonce i) _ _); [intros; apply u8_range|done]. Defined.

(** 3, 100, 64 and 0 bytes, with the counter at its last value. *)
Example boringssl_chacha20_pieces :
  (ctx ← boringssl_chacha20_setup_crypto (mkBoring [] [] 5 [] 7) true (replicate 32 1);
   ctx ← boringssl_chacha20_init ctx (replicate 4 255 ++ replicate 12 2);
   transform_pieces toy_chacha ctx [replicate 3 9; replicate 100 8; replicate 64 7; []])
  = Ok (toy_chacha (replicate 3 9 ++ replicate 100 8 ++ replicate 64 7) (replicate 32 1) (replicate 12 2) (2 ^ 32 - 1)).
Proof. vm_compute. reflexivity. Qed.

Record toy_ctx := mkToyCtx { tc_key : bytes; tc_iv : bytes; tc_aad : bytes; tc_input : bytes; tc_tag : bytes }.

Definition toy_text (key nonce p : bytes) : bytes := zip_with Z.lxor p (toy_byte key nonce <$> seq 0 (length p)).
Definition toy_tag (key nonce aad c : bytes) : bytes := toy_block (key ++ nonce) (aad ++ c).

Definition toy_evp : evp_ops :=
  mkEvp unit toy_ctx (Some (mkToyCtx [] [] [] [] []))
    (λ c _ _ key iv, (Some (), mkToyCtx (default (tc_key c) key) (default [] iv) [] [] []))
    (λ c _ out x n, if out then (Some (zip_with Z.lxor x (toy_byte (tc_key c) (tc_iv c) <$> seq (length (tc_input c)) (length x))),
                                 mkToyCtx (tc_key c) (tc_iv c) (tc_aad c) (tc_input c ++ x) [])
                    else (Some [], mkToyCtx (tc_key c) (tc_iv c) (tc_aad c ++ x) (tc_input c) []))
    (λ c enc, (if enc || bool_decide (tc_tag c = toy_tag (tc_key c) (tc_iv c) (tc_aad c) (tc_input c)) then Some [] else None, c))
    (λ c _, c) (λ c _, (Some (), c))
    (λ c _, (Some (toy_tag (tc_key c) (tc_iv c) (tc_aad c) (toy_text (tc_key c) (tc_iv c) (tc_input c))), c))
    (λ c t, (Some (), mkToyCtx (tc_key c) (tc_iv c) (tc_aad c) (tc_input c) t)).

Lemma toy_text_app key nonce i x :
  toy_text key nonce (i ++ x) = toy_text key nonce i ++ zip_with Z.lxor x (toy_byte key nonce <$> seq (length i) (length x)).
Proof. unfold toy_text. rewrite length_app, seq_app, fmap_app. apply zip_with_app. by rewrite length_fmap, length_seq. Qed.

Lemma toy_text_len key nonce p : length (toy_text key nonce p) = length p.
Proof. unfold toy_text. rewrite length_zip_with, length_fmap, length_seq. lia. Qed.

Lemma toy_text_bytes key nonce p : is_bytes p -> is_bytes (toy_text key nonce p).
Proof. intros Hp. apply is_bytes_zip_lxor; [done|]. apply Forall_fmap, Forall_true. intros. apply u8_range. Qed.

Lemma toy_text_cancel key nonce p : toy_text key nonce (toy_text key nonce p) = p.
Proof. unfold toy_text at 1. rewrite toy_text_len. apply zip_lxor_cancel. by rewrite length_fmap, length_seq. Qed.

#[export] Instance toy_is_aead : EvpAead toy_evp ().
Proof.
  refine (Build_EvpAead toy_evp () toy_text toy_text toy_tag _ _ _ _ _ _ (λ _ c key, tc_key c = key)
            (λ _ c key iv aad i o, c = mkToyCtx key iv aad i [] /\ o = toy_text key iv i) _ _ _ _ _ _).
  - intros. unfold len. by rewrite toy_text_len.
  - intros. unfold len. by rewrite toy_text_len.
  - apply toy_text_bytes.
  - apply toy_text_cancel.
  - intros. unfold len, toy_tag, toy_block. by rewrite length_fmap, length_seq.
  - intros. apply Forall_fmap, Forall_true. intros. apply u8_range.
  - intros enc c key u c' u' c'' _ [= _ <-] [= _ <-]. done.
  - intros enc c key iv Hk _. exists (), (mkToyCtx key iv [] [] []). cbn. by rewrite Hk.
  - intros enc c key iv aad x [-> _] _. by eexists _, _.
  - intros enc c key iv aad i o x [-> ->] _. eexists _, _. split; [reflexivity|]. cbn. by rewrite toy_text_app.
  - intros c key iv aad i o [-> ->]. eexists _, _, _. split; [reflexivity|]. by rewrite app_nil_r.
  - intros c key iv aad i o t [-> ->] _. eexists _, _, _, _. do 2 (split; [reflexivity|]). cbn. split; [done|].
    case_bool_decide as E; split; try done. intros y [= <-]. by rewrite app_nil_r.
Defined.

(** Decrypting what was encrypted in two pieces. *)
Lemma openssl_aead_refines_witness :
  exists cb ctx decrypt ctx', aead_setup_crypto toy_evp 12 16 () (replicate 32 0) false (replicate 16 1) (replicate 12 2) = Ok (cb, ctx) /\
    do_decrypt cb = Some decrypt /\
    decrypt ctx (evp_seal toy_evp () (replicate 16 1) (ptls_aead__build_iv 12 (replicate 12 2) 7) (str "aad") (str "hello")) 7 (str "aad")
    = Ok (Some (str "hello"), ctx').
Proof.
  destruct (aead_setup_crypto toy_evp 12 16 () (replicate 32 0) false (replicate 16 1) (replicate 12 2)) as [[cb ctx]|e] eqn:E; [|discriminate].
  destruct (openssl_aead_refines toy_evp () _ false (replicate 16 1) (replicate 12 2) cb ctx 1 16 4 8 96 true E eq_refl (or_intror eq_refl)) as (_ & Hr & Hrun).
  destruct (proj2 (Hrun ctx Hr) eq_refl (evp_seal toy_evp () (replicate 16 1) (ptls_aead__build_iv 12 (replicate 12 2) 7) (str "aad") (str "hello"))
              7 (str "aad") ltac:(vm_compute; reflexivity) ltac:(vm_compute; reflexivity)) as (d & ctx' & Hd & Hdec & _).
  exists cb, ctx, d, ctx'. split; [reflexivity|]. split; [exact Hd|]. rewrite Hdec. reflexivity.
Defined.
