(* ===== verification/OpensslTicket.v ===== *)
(** * OpensslTicket: session tickets of the OpenSSL backend ([lib/openssl.c])

    [ptls_openssl_encrypt_ticket] and [ptls_openssl_decrypt_ticket], in the variants for [HMAC_CTX] and
    for [EVP_MAC_CTX]: a ticket is a label of 16 bytes, an IV of 16, the ciphertext, and a MAC over all of
    it.  The application's callback chooses label, IV and keys when encrypting, and finds the keys by the
    label when decrypting. *)

From S2P Require Import Prelude Constants Wire Buffer Crypto Cipher ChaChaPoly OpensslCipher.

(* src lib/openssl.c:2100-2100 TICKET_LABEL_SIZE *)
Definition TICKET_LABEL_SIZE : Z := 16.

(** [EVP_MAX_IV_LENGTH] *)
(* src lib/openssl.c:2101-2101 TICKET_IV_SIZE *)
Definition TICKET_IV_SIZE : Z := 16.

Definition EVP_MAX_BLOCK_LENGTH : Z := 32.
Definition EVP_MAX_MD_SIZE : Z := 64.

(** The functions of the library on MAC contexts ([HMAC_*] or [EVP_MAC_*]), with the context they leave. *)
Record mac_ops := mkMac {
  MAC_CTX : Type;
  MAC_CTX_new : option MAC_CTX;
  mac_update : MAC_CTX -> bytes -> option unit * MAC_CTX;
  mac_final : MAC_CTX -> option bytes * MAC_CTX;
  mac_size : MAC_CTX -> Z;
}.

Section Ticket.
Context `{Allocator} (evp : evp_ops) (mac : mac_ops).

(** The callback: the memory of the label and of the IV, as it finds and as it leaves it, and the
    contexts it has set up; [None] if it returns 0. *)
Definition ticket_cb : Type :=
  bool -> bytes -> bytes -> EVP_CIPHER_CTX evp -> MAC_CTX mac -> option (bytes * bytes * EVP_CIPHER_CTX evp * MAC_CTX mac).

Context (cb : ticket_cb).

(** [if (!f(...)) { ret = e; goto Exit; }] *)
Definition or_fail {S A C} (r : option A * C) (e : Z) : M S (A * C) :=
  match r with (Some a, c) => mret (a, c) | (None, _) => fail e end.

Definition or_null {S A} (r : option A) (e : Z) : M S A := match r with Some a => mret a | None => fail e end.

(** [hctx] is the new MAC context; [final_size] is how far [dst] is advanced over the MAC, [h].  The
    bytes behind [off] are followed once they are part of the contents; the assertion on the capacity
    comes after they are written. *)
(* src lib/openssl.c:2103-2162 ptls_openssl_encrypt_ticket *)
Definition do_encrypt_ticket (hctx : option (MAC_CTX mac)) (final_size : MAC_CTX mac -> bytes -> Z) (src : bytes) : M ptls_buffer_t unit :=
  cctx ← or_null (EVP_CIPHER_CTX_new evp) PTLS_ERROR_NO_MEMORY;
  hctx ← or_null hctx PTLS_ERROR_NO_MEMORY;
  t ← gets tx;
  _ ← reserve (u64 (TICKET_LABEL_SIZE + TICKET_IV_SIZE + len src + EVP_MAX_BLOCK_LENGTH + EVP_MAX_MD_SIZE)) t;
  b ← gets id;
  let room := drop (Z.to_nat (off b)) (mem b) in
  '(label, iv, cctx, hctx) ← or_null (cb true (take 16 room) (take 16 (drop 16 room)) cctx hctx) PTLS_ERROR_LIBRARY;
  '(c1, cctx) ← or_fail (evp_update evp cctx true true src (to_int (len src))) PTLS_ERROR_LIBRARY;
  '(c2, cctx) ← or_fail (evp_final evp cctx true) PTLS_ERROR_LIBRARY;
  let dst := label ++ iv ++ c1 ++ c2 in
  '(_, hctx) ← or_fail (mac_update mac hctx dst) PTLS_ERROR_LIBRARY;
  '(h, hctx) ← or_fail (mac_final mac hctx) PTLS_ERROR_LIBRARY;
  _ ← lift (guard_err (off b + len (dst ++ h) <=? capacity b) OVER_WRITE);
  let size := len dst + final_size hctx h in
  _ ← lift (guard_err (off b + size <=? capacity b) ABORTED);
  modify (λ b, set_off (off b + size) (set_mem (mem_write (mem b) (off b) (dst ++ h)) b)).

(** What is left of a ticket once its parts are known to be there: [hmac_size] bytes at its end. *)
(* src lib/openssl.c:2164-2233 ptls_openssl_decrypt_ticket *)
Definition do_decrypt_ticket (hctx : option (MAC_CTX mac)) (src : bytes) : M ptls_buffer_t unit :=
  cctx ← or_null (EVP_CIPHER_CTX_new evp) PTLS_ERROR_NO_MEMORY;
  hctx ← or_null hctx PTLS_ERROR_NO_MEMORY;
  _ ← lift (guard_err (negb (len src <? TICKET_LABEL_SIZE + TICKET_IV_SIZE)) PTLS_ALERT_DECODE_ERROR);
  '(label, iv, cctx, hctx) ← or_null (cb false (take 16 src) (take 16 (drop 16 src)) cctx hctx) PTLS_ERROR_LIBRARY;
  let src := label ++ iv ++ drop 32 src in
  let hmac_size := mac_size mac hctx in
  _ ← lift (guard_err (negb (len src <? TICKET_LABEL_SIZE + TICKET_IV_SIZE + hmac_size)) PTLS_ALERT_DECODE_ERROR);
  let n := Z.to_nat (len src - hmac_size) in
  '(_, hctx) ← or_fail (mac_update mac hctx (take n src)) PTLS_ERROR_LIBRARY;
  '(hmac, hctx) ← or_fail (mac_final mac hctx) PTLS_ERROR_LIBRARY;
  _ ← lift (guard_err (mem_equal (drop n src) (take (Z.to_nat hmac_size) hmac)) PTLS_ALERT_HANDSHAKE_FAILURE);
  let src := drop 32 (take n src) in
  t ← gets tx;
  _ ← reserve (len src) t;
  '(p1, cctx) ← or_fail (evp_update evp cctx false true src (to_int (len src))) PTLS_ERROR_LIBRARY;
  b ← gets id;
  _ ← lift (guard_err (off b + len p1 <=? capacity b) OVER_WRITE);
  _ ← modify (λ b, set_off (off b + len p1) (set_mem (mem_write (mem b) (off b) p1) b));
  '(p2, cctx) ← or_fail (evp_final evp cctx false) PTLS_ERROR_LIBRARY;
  b ← gets id;
  _ ← lift (guard_err (off b + len p2 <=? capacity b) OVER_WRITE);
  modify (λ b, set_off (off b + len p2) (set_mem (mem_write (mem b) (off b) p2) b)).

(** With [HMAC_CTX]: the size of the MAC is asked for. *)
(* src lib/openssl.c:2103-2162 ptls_openssl_encrypt_ticket *)
Definition ptls_openssl_encrypt_ticket : bytes -> M ptls_buffer_t unit := do_encrypt_ticket (MAC_CTX_new mac) (λ hctx _, mac_size mac hctx).

(* src lib/openssl.c:2164-2233 ptls_openssl_decrypt_ticket *)
Definition ptls_openssl_decrypt_ticket : bytes -> M ptls_buffer_t unit := do_decrypt_ticket (MAC_CTX_new mac).

(** With [EVP_MAC_CTX]: the size is the one that [EVP_MAC_final] tells; [fetched] says whether the
    algorithm is found. *)
(* src lib/openssl.c:2235-2304 ptls_openssl_encrypt_ticket_evp *)
Definition ptls_openssl_encrypt_ticket_evp (fetched : bool) : bytes -> M ptls_buffer_t unit :=
  do_encrypt_ticket (if fetched then MAC_CTX_new mac else None) (λ _ h, len h).

(* src lib/openssl.c:2306-2384 ptls_openssl_decrypt_ticket_evp *)
Definition ptls_openssl_decrypt_ticket_evp (fetched : bool) : bytes -> M ptls_buffer_t unit :=
  do_decrypt_ticket (if fetched then MAC_CTX_new mac else None).
End Ticket.

(** ** What the callback and the library promise *)

(** The keys belong to the label: [tk_enc], [tk_dec] and [tk_mac] are the cipher (padding included) and
    the MAC under them.  [sealing], [opening] and [macing] say what contexts are set up for. *)
Class TicketKeys (evp : evp_ops) (mac : mac_ops) (cb : ticket_cb evp mac) := {
  tk_enc : bytes -> bytes -> bytes -> bytes;
  tk_dec : bytes -> bytes -> bytes -> option bytes;
  tk_mac : bytes -> bytes -> bytes;
  tk_size : bytes -> Z;
  tk_dec_enc : forall l i p, tk_dec l i (tk_enc l i p) = Some p;
  tk_enc_len : forall l i p, len (tk_enc l i p) <= len p + EVP_MAX_BLOCK_LENGTH;
  tk_enc_bytes : forall l i p, is_bytes p -> is_bytes (tk_enc l i p);
  tk_mac_len : forall l x, len (tk_mac l x) = tk_size l;
  tk_mac_bytes : forall l x, is_bytes (tk_mac l x);
  tk_size_range : forall l, 0 <= tk_size l <= EVP_MAX_MD_SIZE;
  sealing : EVP_CIPHER_CTX evp -> bytes -> bytes -> Prop;
  opening : EVP_CIPHER_CTX evp -> bytes -> bytes -> Prop;
  macing : MAC_CTX mac -> bytes -> Prop;
  cb_enc : forall c h l0 i0 l i c' h', EVP_CIPHER_CTX_new evp = Some c -> MAC_CTX_new mac = Some h ->
    cb true l0 i0 c h = Some (l, i, c', h') ->
    length l = 16%nat /\ length i = 16%nat /\ is_bytes (l ++ i) /\ sealing c' l i /\ macing h' l;
  cb_dec : forall c h l0 i0 l i c' h', EVP_CIPHER_CTX_new evp = Some c -> MAC_CTX_new mac = Some h ->
    cb false l0 i0 c h = Some (l, i, c', h') -> l = l0 /\ i = i0 /\ opening c' l i /\ macing h' l;
  cb_finds : forall c h l0 i0 l i c' h', EVP_CIPHER_CTX_new evp = Some c -> MAC_CTX_new mac = Some h ->
    cb true l0 i0 c h = Some (l, i, c', h') -> is_Some (cb false l i c h);
  seal_ok : forall c l i p, sealing c l i -> len p < 2 ^ 31 ->
    exists y c1 z c2, evp_update evp c true true p (len p) = (Some y, c1) /\ evp_final evp c1 true = (Some z, c2) /\ y ++ z = tk_enc l i p;
  open_ok : forall c l i x, opening c l i -> len x < 2 ^ 31 ->
    exists y c1 r c2, evp_update evp c false true x (len x) = (Some y, c1) /\ len y <= len x /\ evp_final evp c1 false = (r, c2) /\
      tk_dec l i x = (z ← r; Some (y ++ z)) /\ (forall z, r = Some z -> len y + len z <= len x);
  mac_ok : forall h l x, macing h l -> mac_size mac h = tk_size l /\
    exists u h1 h2, mac_update mac h x = (Some u, h1) /\ mac_final mac h1 = (Some (tk_mac l x), h2) /\ mac_size mac h2 = tk_size l;
}.

(** The ticket of a state. *)
Definition ticket `{TicketKeys evp mac cb} (l i p : bytes) : bytes := let m := l ++ i ++ tk_enc l i p in m ++ tk_mac l m.

Section Proofs.
Context `{Allocator} {evp : evp_ops} {mac : mac_ops} {cb : ticket_cb evp mac} `{TicketKeys evp mac cb}.

Lemma or_fail_run {S A B C} (a : A) (c : C) e (k : A * C -> M S B) s : (or_fail (Some a, c) e ≫= k) s = k (a, c) s.
Proof. reflexivity. Qed.

Lemma or_null_run {S A B} (a : A) e (k : A -> M S B) s : (or_null (Some a) e ≫= k) s = k a s.
Proof. reflexivity. Qed.

Lemma gets_run {S A B} (f : S -> A) (k : A -> M S B) s : (gets f ≫= k) s = k (f s) s.
Proof. reflexivity. Qed.

Lemma guard_run {S B} c e (k : unit -> M S B) s : (lift (guard_err c e) ≫= k) s = if c then k () s else (Err e, s).
Proof. by destruct c. Qed.

(** Reserving in the direction of the buffer. *)
Lemma reserve_own {B} n (k : unit -> M ptls_buffer_t B) b : buf_wf b -> 0 <= n ->
  (exists b1, (reserve n (tx b) ≫= k) b = k () b1 /\ buf_wf b1 /\ contents b1 = contents b /\ tx b1 = tx b /\ off b1 + n <= capacity b1) \/
  (reserve n (tx b) ≫= k) b = (Err PTLS_ERROR_NO_MEMORY, b).
Proof.
  intros Hw Hn. unfold reserve. rewrite M_bind_run. pose proof (reserve_aligned_cases n 0 (tx b) b Hw Hn ltac:(lia)) as Hr.
  destruct (reserve_aligned n 0 (tx b) b) as [[[]|e] b1].
  - destruct Hr as (Hw1 & Hc & Ho & Ht & _ & Hcap & _). left. exists b1. split; [done|]. split; [done|]. split; [done|]. split; [done|]. by rewrite Ho.
  - destruct Hr as (-> & [[Ht _]|(_ & -> & _)]); [done|by right].
Qed.

Ltac reserve_step b1 Hw1 Hc1 Ht1 Hcap Hno := match goal with |- context [(reserve ?n ?t ≫= ?k) ?b] =>
  destruct (reserve_own n k b) as [(b1 & -> & Hw1 & Hc1 & Ht1 & Hcap)|Hno]; [try done|try lia| |] end.

(** Writing behind the contents. *)
Lemma append_run b x y : buf_wf b -> off b + len x + len y <= capacity b ->
  let b' := set_off (off b + len x) (set_mem (mem_write (mem b) (off b) (x ++ y)) b) in
  buf_wf b' /\ contents b' = contents b ++ x.
Proof.
  intros Hw Hl b'. pose proof (len_nonneg x). pose proof (len_nonneg y). pose proof Hw as []. split.
  - destruct (wf_write b (off b) (x ++ y)) as []; [done|lia|rewrite len_app; lia|]. split; simpl in *; try done; lia.
  - destruct (append_at_off b (x ++ y) Hw) as [_ Hc]; [rewrite len_app; lia|]. apply (f_equal (take (Z.to_nat (off b + len x)))) in Hc.
    unfold contents in *. cbn in *. rewrite take_take, Nat.min_l in Hc by (rewrite len_app; lia). rewrite Hc, app_assoc.
    rewrite take_app_le, take_ge; [done| |]; rewrite !length_app, !length_take; unfold len in *; lia.
Qed.

(** An error, without a change to the contents. *)
Definition refused (b : ptls_buffer_t) (o : result unit * ptls_buffer_t) : Prop :=
  buf_wf o.2 /\ contents o.2 = contents b /\ (o.1 = Err PTLS_ERROR_NO_MEMORY \/ o.1 = Err PTLS_ERROR_LIBRARY).

Lemma encrypt_run hctx final_size src b :
  (hctx = None \/ hctx = MAC_CTX_new mac) -> (forall l x h, mac_size mac h = tk_size l -> final_size h (tk_mac l x) = tk_size l) ->
  buf_wf b -> len src < 2 ^ 31 ->
  let o := do_encrypt_ticket evp mac cb hctx final_size src b in
  refused b o \/
  exists c h l0 i0 l i c' h', EVP_CIPHER_CTX_new evp = Some c /\ MAC_CTX_new mac = Some h /\ cb true l0 i0 c h = Some (l, i, c', h') /\
    o.1 = Ok () /\ buf_wf o.2 /\ contents o.2 = contents b ++ ticket l i src.
Proof.
  intros Hh Hfs Hw Hl o. unfold o, do_encrypt_ticket. pose proof (len_nonneg src).
  destruct (EVP_CIPHER_CTX_new evp) as [c|] eqn:Ec; [|left; by split_and!; [..|left]]. rewrite or_null_run.
  destruct hctx as [h|]; [|left; by split_and!; [..|left]]. rewrite or_null_run, gets_run. destruct Hh as [|Hm]; [done|]. symmetry in Hm.
  unfold TICKET_LABEL_SIZE, TICKET_IV_SIZE, EVP_MAX_BLOCK_LENGTH, EVP_MAX_MD_SIZE. rewrite u64_small by lia.
  reserve_step b1 Hw1 Hc1 Ht1 Hcap Hno; [|rewrite Hno; left; by split_and!; [..|left]].
  rewrite gets_run. cbv zeta. destruct (cb true _ _ c h) as [[[[l i] c'] h']|] eqn:Ecb; [|left; by split_and!; [..|right]]. rewrite or_null_run.
  destruct (cb_enc _ _ _ _ _ _ _ _ Ec Hm Ecb) as (Hll & Hil & _ & Hs & Hmac). rewrite to_int_small by lia.
  destruct (seal_ok c' l i src Hs Hl) as (y & c1 & z & c2 & -> & Hf & Hyz). rewrite or_fail_run, Hf, or_fail_run.
  replace (l ++ i ++ y ++ z) with (l ++ i ++ tk_enc l i src) by (by rewrite Hyz). set (m := l ++ i ++ tk_enc l i src).
  destruct (mac_ok h' l m Hmac) as (_ & u & h1 & h2 & -> & Hf2 & Hsz). rewrite or_fail_run, Hf2, or_fail_run, !guard_run, (Hfs _ _ _ Hsz).
  pose proof (tk_enc_len l i src). unfold EVP_MAX_BLOCK_LENGTH in *. pose proof (tk_mac_len l m) as Hml. pose proof (tk_size_range l).
  unfold EVP_MAX_MD_SIZE in *. assert (len m <= 64 + len src) as Hmm by (unfold m; rewrite !len_app; unfold len in *; lia).
  change (id b1) with b1. rewrite <- Hml, <- len_app, !(proj2 (Z.leb_le _ _)) by (rewrite len_app; lia).
  destruct (append_run b1 (m ++ tk_mac l m) [] Hw1) as [Hw2 Hc2]; [rewrite len_nil, len_app; lia|]. rewrite app_nil_r in Hw2, Hc2.
  right. eexists c, h, _, _, l, i, c', h'. do 2 (split; [done|]). split; [exact Ecb|]. split; [done|]. split; [exact Hw2|]. cbn [snd modify]. rewrite Hc2, Hc1. done.
Qed.

(** What decrypting does, once the callback has found the keys: [m] is what the MAC covers. *)
Lemma decrypt_run hctx src b c h l i c' h' :
  hctx = Some h -> EVP_CIPHER_CTX_new evp = Some c -> MAC_CTX_new mac = Some h -> cb false (take 16 src) (take 16 (drop 16 src)) c h = Some (l, i, c', h') ->
  buf_wf b -> is_bytes src -> 32 <= len src < 2 ^ 31 ->
  let o := do_decrypt_ticket evp mac cb hctx src b in
  let n := Z.to_nat (len src - tk_size l) in
  let m := take n src in
  l = take 16 src /\ i = take 16 (drop 16 src) /\
  if len src <? 32 + tk_size l then o = (Err PTLS_ALERT_DECODE_ERROR, b)
  else if bool_decide (drop n src = tk_mac l m) then
    match tk_dec l i (drop 32 m) with
    | Some p => o = (Err PTLS_ERROR_NO_MEMORY, b) \/ (o.1 = Ok () /\ buf_wf o.2 /\ contents o.2 = contents b ++ p)
    | None => o.1 = Err PTLS_ERROR_NO_MEMORY \/ o.1 = Err PTLS_ERROR_LIBRARY
    end
  else o = (Err PTLS_ALERT_HANDSHAKE_FAILURE, b).
Proof.
  intros -> Ec Hm Ecb Hw Hb Hl o n m. destruct (cb_dec _ _ _ _ _ _ _ _ Ec Hm Ecb) as (El & Ei & Hop & Hmac).
  split; [done|]. split; [done|]. unfold o, do_decrypt_ticket. rewrite Ec, !or_null_run, guard_run.
  unfold TICKET_LABEL_SIZE, TICKET_IV_SIZE. rewrite (proj2 (Z.ltb_ge (len src) (16 + 16))) by lia. cbn [negb]. rewrite Ecb, or_null_run.
  assert (l ++ i ++ drop 32 src = src) as Es.
  { rewrite El, Ei. replace (drop 32 src) with (drop 16 (drop 16 src)) by (by rewrite drop_drop). by rewrite take_drop, take_drop. }
  rewrite Es. cbv zeta. destruct (mac_ok h' l m Hmac) as (Hsz & u & h1 & h2 & Hu & Hf & _). rewrite Hsz, guard_run. fold n m.
  pose proof (tk_size_range l) as Hts. change (16 + 16 + tk_size l) with (32 + tk_size l).
  destruct (Z.ltb_spec (len src) (32 + tk_size l)) as [|Hs]; [done|]. cbn [negb]. rewrite Hu, or_fail_run, Hf, or_fail_run, guard_run.
  rewrite (take_ge (tk_mac l m)) by (pose proof (tk_mac_len l m); unfold len in *; lia).
  pose proof (mem_equal_spec (drop n src) (tk_mac l m)) as Heq.
  assert (length (drop n src) = length (tk_mac l m)) as Hdl.
  { apply Nat2Z.inj. change (len (drop n src) = len (tk_mac l m)). rewrite tk_mac_len, len_drop. lia. }
  specialize (Heq Hdl ltac:(by apply Forall_drop) (tk_mac_bytes _ _)).
  destruct (mem_equal _ _), (bool_decide_reflect (drop n src = tk_mac l m)) as [Et|Et]; [|naive_solver|naive_solver|done].
  set (ct := drop 32 m). assert (len ct < 2 ^ 31) as Hct by (unfold ct, m; rewrite len_drop, len_take; lia). pose proof (len_nonneg ct).
  rewrite gets_run. destruct (open_ok c' l i ct Hop Hct) as (y & c1 & r & c2 & Hup & Hy & Hfi & -> & Hz).
  reserve_step b1 Hw1 Hc1 Ht1 Hcap Hno; [|rewrite Hno; destruct r; by left].
  rewrite to_int_small, Hup, or_fail_run, gets_run, guard_run by lia. change (id b1) with b1. rewrite (proj2 (Z.leb_le _ _)) by lia.
  pose proof (append_run b1 y [] Hw1) as Ha. rewrite app_nil_r, len_nil in Ha. destruct Ha as [Hw2 Hc2]; [lia|].
  rewrite M_bind_run. cbn [modify]. set (b2 := set_off _ _) in *. rewrite Hfi. destruct r as [z|]; [|by right]. rewrite or_fail_run, gets_run, guard_run.
  specialize (Hz z eq_refl). assert (off b2 + len z <= capacity b2) as Hcap2 by (unfold b2; cbn; lia).
  change (id b2) with b2. rewrite (proj2 (Z.leb_le _ _)) by done. right.
  pose proof (append_run b2 z [] Hw2) as Ha. rewrite app_nil_r, len_nil in Ha. destruct Ha as [Hw3 Hc3]; [lia|].
  cbn [modify fst snd]. split; [done|]. split; [done|]. by rewrite Hc3, Hc2, Hc1, <- app_assoc.
Qed.

(** The two variants, by whether they use [EVP_MAC_CTX]. *)
Definition ticket_encrypt (evp_mac : bool) : bytes -> M ptls_buffer_t unit :=
  if evp_mac then ptls_openssl_encrypt_ticket_evp evp mac cb true else ptls_openssl_encrypt_ticket evp mac cb.

Definition ticket_decrypt (evp_mac : bool) : bytes -> M ptls_buffer_t unit :=
  if evp_mac then ptls_openssl_decrypt_ticket_evp evp mac cb true else ptls_openssl_decrypt_ticket evp mac cb.

Lemma ticket_decrypt_is v : ticket_decrypt v = do_decrypt_ticket evp mac cb (MAC_CTX_new mac).
Proof. by destruct v. Qed.

Lemma ticket_encrypt_run v src b : buf_wf b -> len src < 2 ^ 31 ->
  let o := ticket_encrypt v src b in
  refused b o \/
  exists c h l0 i0 l i c' h', EVP_CIPHER_CTX_new evp = Some c /\ MAC_CTX_new mac = Some h /\ cb true l0 i0 c h = Some (l, i, c', h') /\
    o.1 = Ok () /\ buf_wf o.2 /\ contents o.2 = contents b ++ ticket l i src.
Proof. intros Hw Hl. destruct v; apply encrypt_run; auto. intros. apply tk_mac_len. Qed.

(** The parts of a ticket. *)
Lemma ticket_parts l i p : length l = 16%nat -> length i = 16%nat ->
  let t := ticket l i p in
  let m := l ++ i ++ tk_enc l i p in
  take 16 t = l /\ take 16 (drop 16 t) = i /\ len t = len m + tk_size l /\ 32 <= len m <= 64 + len p /\
  take (Z.to_nat (len m)) t = m /\ drop (Z.to_nat (len m)) t = tk_mac l m /\ drop 32 m = tk_enc l i p.
Proof.
  intros Hl Hi t m. pose proof (tk_enc_len l i p). unfold EVP_MAX_BLOCK_LENGTH in *. pose proof (len_nonneg (tk_enc l i p)).
  assert (t = l ++ i ++ tk_enc l i p ++ tk_mac l m) as Ht by (unfold t, ticket; cbv zeta; fold m; unfold m; by rewrite <- !app_assoc).
  split_and!.
  - by rewrite Ht, take_app_length'.
  - by rewrite Ht, drop_app_length', take_app_length'.
  - unfold t, ticket. cbv zeta. fold m. by rewrite len_app, tk_mac_len.
  - unfold m. rewrite !len_app. unfold len in *. lia.
  - unfold m. rewrite !len_app. unfold len in *. lia.
  - unfold t, ticket. cbv zeta. fold m. apply take_len_app.
  - unfold t, ticket. cbv zeta. fold m. apply drop_len_app.
  - unfold m. rewrite app_assoc. apply drop_app_length'. by rewrite length_app, Hl, Hi.
Qed.

Lemma ticket_decrypts v c h l0 i0 l i c' h' p b : EVP_CIPHER_CTX_new evp = Some c -> MAC_CTX_new mac = Some h ->
  cb true l0 i0 c h = Some (l, i, c', h') -> buf_wf b -> is_bytes p -> len p < 2 ^ 31 - 128 ->
  ticket_decrypt v (ticket l i p) b = (Err PTLS_ERROR_NO_MEMORY, b) \/
  exists b', ticket_decrypt v (ticket l i p) b = (Ok (), b') /\ buf_wf b' /\ contents b' = contents b ++ p.
Proof.
  intros Ec Hm Ecb Hw Hp Hl. destruct (cb_enc _ _ _ _ _ _ _ _ Ec Hm Ecb) as (Hll & Hil & Hli & _).
  destruct (cb_finds _ _ _ _ _ _ _ _ Ec Hm Ecb) as [[[[l' i'] c2] h2] Ed]. destruct (ticket_parts l i p Hll Hil) as (E1 & E2 & E3 & E4 & E5 & E6 & E7).
  pose proof (tk_size_range l). unfold EVP_MAX_MD_SIZE in *. pose proof (len_nonneg p). rewrite ticket_decrypt_is.
  assert (is_bytes (ticket l i p)) as Htb.
  { unfold ticket. cbv zeta. apply Forall_app. split; [|apply tk_mac_bytes]. rewrite app_assoc. apply Forall_app. split; [done|by apply tk_enc_bytes]. }
  destruct (decrypt_run (MAC_CTX_new mac) (ticket l i p) b c h l' i' c2 h2) as (El & Ei & Hr); try done; [by rewrite E1, E2|lia|].
  rewrite E1 in El. rewrite E2 in Ei. subst l' i'. rewrite (proj2 (Z.ltb_ge _ _)) in Hr by lia.
  replace (Z.to_nat (len (ticket l i p) - tk_size l)) with (Z.to_nat (len (l ++ i ++ tk_enc l i p))) in Hr by lia.
  rewrite E5, E6, E7, bool_decide_eq_true_2, tk_dec_enc in Hr by done. destruct Hr as [Hr|(Ho & Hw' & Hc)]; [by left|right].
  destruct (do_decrypt_ticket _ _ _ _ _ _) as [r b'] eqn:Er. cbn in *. subst r. by exists b'.
Qed.
End Proofs.

(** C16: the server reads its own tickets back.  In both variants, encrypting a state of less than 2 GB
    either appends one ticket to the buffer or leaves the contents as they were, with an error: no
    memory, or the callback or the library refused.  That ticket, decrypted later by either variant into any
    buffer, with the keys that the callback finds by its label, appends exactly the state (or fails for
    lack of memory, with nothing changed). *)
Theorem openssl_ticket_roundtrip `{Allocator} {evp mac cb} `{TicketKeys evp mac cb} v v' src b :
  buf_wf b -> is_bytes src -> len src < 2 ^ 31 - 128 ->
  match ticket_encrypt (cb := cb) v src b with
  | (Ok _, b') => buf_wf b' /\ exists t, contents b' = contents b ++ t /\
      forall b2, buf_wf b2 -> ticket_decrypt (cb := cb) v' t b2 = (Err PTLS_ERROR_NO_MEMORY, b2) \/
        exists b3, ticket_decrypt (cb := cb) v' t b2 = (Ok (), b3) /\ buf_wf b3 /\ contents b3 = contents b2 ++ src
  | (Err e, b') => buf_wf b' /\ contents b' = contents b /\ (e = PTLS_ERROR_NO_MEMORY \/ e = PTLS_ERROR_LIBRARY)
  end.
Proof.
  intros Hw Hb Hl. destruct (ticket_encrypt_run v src b Hw ltac:(lia)) as [(Hw' & Hc & He)|(c & h & l0 & i0 & l & i & c' & h' & Ec & Hm & Ecb & Ho & Hw' & Hc)];
    destruct (ticket_encrypt v src b) as [[[]|e] b']; cbn [fst snd] in *; try (by destruct He); try done.
  - split; [done|]. split; [done|]. destruct He as [[= ->]|[= ->]]; auto.
  - split; [done|]. exists (ticket l i src). split; [done|]. intros b2 Hw2. by eapply ticket_decrypts.
Qed.

(** C15: only genuine tickets are opened.  If decrypting succeeds, the ticket is a label, an IV and a
    ciphertext followed by the MAC of the three under the key that belongs to the label, and what the
    buffer gains is the decryption of that ciphertext; and if the bytes are not of that form, decrypting
    fails and the buffer is untouched. *)
Theorem openssl_ticket_authentic `{Allocator} {evp mac cb} `{TicketKeys evp mac cb} v src b :
  buf_wf b -> is_bytes src -> len src < 2 ^ 31 ->
  let genuine l i ct := length l = 16%nat /\ length i = 16%nat /\ src = (l ++ i ++ ct) ++ tk_mac l (l ++ i ++ ct) in
  match ticket_decrypt (cb := cb) v src b with
  | (Ok _, b') => exists l i ct p, genuine l i ct /\ tk_dec l i ct = Some p /\ contents b' = contents b ++ p
  | (Err e, b') => (forall l i ct, ~ genuine l i ct) -> b' = b
  end.
Proof.
  intros Hw Hb Hl genuine. rewrite ticket_decrypt_is. destruct (EVP_CIPHER_CTX_new evp) as [c|] eqn:Ec.
  2: { unfold do_decrypt_ticket. by rewrite Ec. }
  destruct (MAC_CTX_new mac) as [h|] eqn:Hm. 2: { unfold do_decrypt_ticket. by rewrite Ec. }
  destruct (Z.ltb_spec (len src) 32) as [Hs|Hs].
  { unfold do_decrypt_ticket. rewrite Ec, !or_null_run, guard_run. unfold TICKET_LABEL_SIZE, TICKET_IV_SIZE.
    by rewrite (proj2 (Z.ltb_lt (len src) (16 + 16))) by lia. }
  destruct (cb false (take 16 src) (take 16 (drop 16 src)) c h) as [[[[l i] c'] h']|] eqn:Ecb.
  2: { unfold do_decrypt_ticket. rewrite Ec, !or_null_run, guard_run. unfold TICKET_LABEL_SIZE, TICKET_IV_SIZE.
       rewrite (proj2 (Z.ltb_ge (len src) (16 + 16))) by lia. cbn [negb]. by rewrite Ecb. }
  destruct (decrypt_run (Some h) src b c h l i c' h') as (El & Ei & Hr); try done. pose proof (tk_size_range l).
  destruct (Z.ltb_spec (len src) (32 + tk_size l)) as [|Hs2]; [by rewrite Hr|]. set (n := Z.to_nat (len src - tk_size l)) in *.
  destruct (bool_decide_reflect (drop n src = tk_mac l (take n src))) as [Et|Et]; [|by rewrite Hr].
  assert (take n src = l ++ i ++ drop 32 (take n src)) as Em.
  { rewrite El, Ei. rewrite <- (take_drop 16 (take n src)) at 1. rewrite take_take, Nat.min_l by (unfold n, len in *; lia). f_equal.
    rewrite <- (take_drop 16 (drop 16 (take n src))) at 1. rewrite drop_drop. f_equal.
    rewrite skipn_firstn_comm, take_take. f_equal. unfold n, len in *. lia. }
  assert (genuine l i (drop 32 (take n src))) as Hg.
  { split_and!; [rewrite El, length_take; unfold len in *; lia|rewrite Ei, length_take, length_drop; unfold len in *; lia|].
    by rewrite <- Em, <- Et, take_drop. }
  destruct (do_decrypt_ticket _ _ _ _ _ _) as [[[]|e] b'] eqn:Er; cbn [fst snd] in Hr.
  - destruct (tk_dec l i (drop 32 (take n src))) as [p|] eqn:Ed; [|by destruct Hr]. destruct Hr as [|(_ & Hw' & Hc)]; [done|]. by exists l, i, (drop 32 (take n src)), p.
  - intros Hno. by destruct (Hno l i _ Hg).
Qed.

(** ** Evaluation *)

(** The cipher of file OpensslCipher, without a tag; a MAC; the callback knows one key. *)
Definition toy_cipher : evp_ops :=
  mkEvp unit toy_ctx (Some (mkToyCtx [] [] [] [] [])) (evp_init toy_evp) (evp_update toy_evp) (λ c _, (Some [], c))
    (λ c _, c) (λ c _, (Some (), c)) (λ c _, (None, c)) (λ c _, (None, c)).

Definition toy_mac : mac_ops :=
  mkMac (bytes * bytes) (Some ([], [])) (λ h x, (Some (), (h.1, h.2 ++ x))) (λ h, (Some (toy_block h.1 h.2), h)) (λ _, 16).

Definition toy_label : bytes := replicate 16 7.

Definition toy_cb : ticket_cb toy_cipher toy_mac := λ enc l i c h,
  if (enc : bool) then Some (toy_label, replicate 16 3, mkToyCtx toy_label (replicate 16 3) [] [] [], (toy_label, []))
  else if bool_decide (l = toy_label) then Some (l, i, mkToyCtx l i [] [] [], (l, [])) else None.

#[export] Instance toy_keys : TicketKeys toy_cipher toy_mac toy_cb.
Proof.
  refine (Build_TicketKeys toy_cipher toy_mac toy_cb toy_text (λ l i c, Some (toy_text l i c)) toy_block (λ _, 16) _ _ _ _ _ _
            (λ c l i, c = mkToyCtx l i [] [] []) (λ c l i, c = mkToyCtx l i [] [] []) (λ h l, h = (l, [])) _ _ _ _ _ _).
  - intros. f_equal. apply toy_text_cancel.
  - intros. unfold len. rewrite toy_text_len. unfold EVP_MAX_BLOCK_LENGTH. lia.
  - apply toy_text_bytes.
  - intros. unfold len, toy_block. by rewrite length_fmap, length_seq.
  - intros. apply Forall_fmap, Forall_true. intros. apply u8_range.
  - intros. unfold EVP_MAX_MD_SIZE. lia.
  - intros c h l0 i0 l i c' h' _ _ [= <- <- <- <-]. do 2 (split; [done|]). split; [by apply (bool_decide_unpack _)|done].
  - intros c h l0 i0 l i c' h' _ _. cbn. case_bool_decide; [|done]. by intros [= <- <- <- <-].
  - intros c h l0 i0 l i c' h' _ _ [= <- <- <- <-]. by eexists.
  - intros c l i p -> _. eexists _, _, _, _. do 2 (split; [reflexivity|]). by rewrite app_nil_r.
  - intros c l i x -> _. eexists (toy_text l i x), _, (Some []), _. split; [reflexivity|]. assert (len (toy_text l i x) = len x) as Hx by (unfold len; by rewrite toy_text_len).
    split; [by rewrite Hx|]. split; [reflexivity|]. cbn. rewrite app_nil_r. split; [done|]. intros z [= <-]. change (len []) with 0. rewrite Hx. lia.
  - intros h l x ->. split; [done|]. by eexists _, _, _.
Defined.

Section Evaluation.
#[local] Existing Instance bump_allocator.

Definition toy_buffer : ptls_buffer_t := ptls_buffer_init 64 [0; 0; 0; 0] 1.

(** The ticket of a state of five bytes, which the other variant decrypts. *)
Lemma openssl_ticket_roundtrip_witness :
  match ticket_encrypt (cb := toy_cb) false (str "state") toy_buffer with
  | (Ok _, b') => len (contents b') = 53 /\ exists t, contents b' = t /\ exists b3,
      ticket_decrypt (cb := toy_cb) true t toy_buffer = (Ok (), b3) /\ contents b3 = str "state"
  | _ => False
  end.
Proof.
  pose proof (openssl_ticket_roundtrip (cb := toy_cb) false true (str "state") toy_buffer bump_push_witness_wf
    ltac:(by apply (bool_decide_unpack _)) ltac:(vm_compute; reflexivity)) as H.
  destruct (ticket_encrypt (cb := toy_cb) false (str "state") toy_buffer) as [[u|e] b'] eqn:E; [|vm_compute in E; discriminate].
  split; [vm_compute in E; injection E as _ <-; vm_compute; reflexivity|]. destruct H as (_ & t & Ht & H).
  change (contents toy_buffer) with (@nil Z) in Ht. cbn [app] in Ht. exists t. split; [exact Ht|].
  destruct (H toy_buffer bump_push_witness_wf) as [Hn|(b3 & Hd & _ & Hc)].
  - exfalso. subst t. vm_compute in E. injection E as _ <-. vm_compute in Hn. discriminate.
  - exists b3. split; [exact Hd|]. exact Hc.
Defined.

(** A ticket with one bit of its ciphertext changed. *)
Lemma openssl_ticket_authentic_witness :
  let t := ticket (cb := toy_cb) toy_label (replicate 16 3) (str "state") in
  ticket_decrypt (cb := toy_cb) false (alter (Z.lxor 1) 33%nat t) toy_buffer = (Err PTLS_ALERT_HANDSHAKE_FAILURE, toy_buffer) /\
  exists l i ct p, length l = 16%nat /\ t = (l ++ i ++ ct) ++ tk_mac (cb := toy_cb) l (l ++ i ++ ct) /\ tk_dec (cb := toy_cb) l i ct = Some p.
Proof.
  intros t. split; [vm_compute; reflexivity|].
  pose proof (openssl_ticket_authentic (cb := toy_cb) false t toy_buffer bump_push_witness_wf
    ltac:(by apply (bool_decide_unpack _); vm_compute) ltac:(vm_compute; reflexivity)) as H. cbv zeta in H.
  destruct (ticket_decrypt (cb := toy_cb) false t toy_buffer) as [[u|e] b'] eqn:E; [|unfold t in E; vm_compute in E; discriminate].
  destruct H as (l & i & ct & p & (Hl & _ & Hs) & Hp & _). exists l, i, ct, p. split; [exact Hl|]. split; [exact Hs|exact Hp].
Defined.
End Evaluation.
