(* ===== verification/Log.v ===== *)
(** * Log: hexadecimal, JSON and the loggers ([lib/picotls.c], [include/zpicotls.h])

    Events are written as lines of JSON to the file descriptors that were registered, each with the
    points, server names and addresses it is for.  Which of the 32 slots an event or a connection is for
    is cached as a bitmap with the generation of the registrations it was computed at.  The buffer of the
    line in progress is a [ptls_buffer_t], [None] once memory ran out; a write beyond its capacity is an
    error of the model ([OVER_WRITE]) that is shown not to occur. *)

From S2P Require Import Prelude Constants Wire Buffer Crypto Cipher.
From Stdlib Require Import QArith.
#[local] Open Scope Z_scope.

(** ** Text *)

Definition hex_digits : bytes := str "0123456789abcdef".

(* src lib/picotls.c:7068-7073 byte_to_hex *)
Definition byte_to_hex (v : Z) : bytes :=
  [default 0 (hex_digits !! Z.to_nat (Z.shiftr v 4)); default 0 (hex_digits !! Z.to_nat (Z.land v 0xf))].

(** What is written at [dst], with the NUL. *)
(* src lib/picotls.c:7075-7084 ptls_hexdump *)
Definition ptls_hexdump (src : bytes) : bytes := concat (byte_to_hex <$> src) ++ [0].

(** One character. *)
(* src lib/picotls.c:7092-7118 MAP *)
Definition jsonescape_char (c : Z) : bytes :=
  if c =? 0x22 then [0x5c; 0x22]
  else if c =? 0x5c then [0x5c; 0x5c]
  else if c =? 0x2f then [0x5c; 0x2f]
  else if c =? 0x08 then [0x5c; 0x62]
  else if c =? 0x0c then [0x5c; 0x66]
  else if c =? 0x0a then [0x5c; 0x6e]
  else if c =? 0x0d then [0x5c; 0x72]
  else if c =? 0x09 then [0x5c; 0x74]
  else if (c <? 0x20) || (c =? 0x7f) then [0x5c; 0x75; 0x30; 0x30] ++ byte_to_hex c
  else [c].

(** What is written at [buf]: the value returned points to the NUL at its end. *)
(* src lib/picotls.c:7086-7123 ptls_jsonescape *)
Definition ptls_jsonescape (unsafe_str : bytes) : bytes := concat (jsonescape_char <$> unsafe_str) ++ [0].

(* src lib/picotls.c:7125-7130 ptls_build_v4_mapped_v6_address *)
Definition ptls_build_v4_mapped_v6_address (v4 : bytes) : bytes := replicate 10 0 ++ [0xff; 0xff] ++ take 4 v4.

(** The decimal digits of a number, as [%PRIu64] prints it. *)
Fixpoint digits (fuel : nat) (n : Z) : bytes :=
  match fuel with
  | O => []
  | S fuel => (if n <? 10 then [] else digits fuel (n / 10)) ++ [0x30 + n mod 10]
  end.

Definition decimal (n : Z) : bytes := if n <? 0 then 0x2d :: digits 20 (- n) else digits 20 n.

(** *** Reading a JSON string (RFC 8259, section 7) *)

Definition hex_value (c : Z) : option Z :=
  if (0x30 <=? c) && (c <=? 0x39) then Some (c - 0x30)
  else if (0x61 <=? c) && (c <=? 0x66) then Some (c - 0x57)
  else if (0x41 <=? c) && (c <=? 0x46) then Some (c - 0x37)
  else None.

Definition json_short_escape (c : Z) : option Z :=
  if c =? 0x22 then Some 0x22 else if c =? 0x5c then Some 0x5c else if c =? 0x2f then Some 0x2f else if c =? 0x62 then Some 8
  else if c =? 0x66 then Some 12 else if c =? 0x6e then Some 10 else if c =? 0x72 then Some 13 else if c =? 0x74 then Some 9 else None.

(** One character of the string and the rest: a quotation mark or a control character ends it in error. *)
Definition json_char (s : bytes) : option (Z * bytes) :=
  match s with
  | [] => None
  | c :: s =>
      if c =? 0x5c then
        match s with
        | 0x75 :: a :: b :: c :: d :: s =>
            a ← hex_value a; b ← hex_value b; c ← hex_value c; d ← hex_value d; Some (a * 4096 + b * 256 + c * 16 + d, s)
        | e :: s => e ← json_short_escape e; Some (e, s)
        | [] => None
        end
      else if (c <? 0x20) || (c =? 0x22) then None
      else Some (c, s)
  end.

Fixpoint json_unescape (fuel : nat) (s : bytes) : option bytes :=
  match s with
  | [] => Some []
  | _ =>
      match fuel with
      | O => None
      | S fuel => '(c, s) ← json_char s; r ← json_unescape fuel s; Some (c :: r)
      end
  end.

(** Every byte, by evaluation. *)
Definition all_bytes : bytes := Z.of_nat <$> seq 0 256.

Lemma all_bytes_spec (P : Z -> bool) : forallb P all_bytes = true -> forall b, is_byte b -> P b = true.
Proof.
  intros HP b Hb. rewrite forallb_forall in HP. apply HP. unfold all_bytes. apply list_elem_of_In. apply list_elem_of_fmap.
  exists (Z.to_nat b). unfold is_byte in Hb. split; [lia|]. apply elem_of_seq. lia.
Qed.

Lemma hex_roundtrip_byte b : is_byte b ->
  exists h l, byte_to_hex b = [h; l] /\ (hex_value h ≫= λ x, hex_value l ≫= λ y, Some (x * 16 + y)) = Some b.
Proof.
  intros Hb. eexists _, _. split; [reflexivity|].
  assert (bool_decide (match byte_to_hex b with
                       | [h; l] => (hex_value h ≫= λ x, hex_value l ≫= λ y, Some (x * 16 + y)) = Some b
                       | _ => False end) = true) as E; [|by apply bool_decide_eq_true in E].
  revert b Hb. apply (all_bytes_spec (λ b, bool_decide _)). vm_compute. reflexivity.
Qed.

(** What was escaped reads back, one character at a time. *)
Lemma json_char_escape b rest : is_byte b -> json_char (jsonescape_char b ++ rest) = Some (b, rest).
Proof.
  intros Hb. unfold jsonescape_char.
  repeat match goal with |- context [if b =? ?k then _ else _] => destruct (Z.eqb_spec b k) as [->|?]; [done|] end.
  destruct ((b <? 32) || (b =? 127)) eqn:E.
  - destruct (hex_roundtrip_byte b Hb) as (h & l & Hbh & Hv). rewrite Hbh. cbn.
    destruct (hex_value h) as [x|]; [|done]. cbn in *. destruct (hex_value l) as [y|]; [|done]. cbn in *. injection Hv as <-. do 2 f_equal; lia.
  - apply orb_false_iff in E as [E1 E2]. cbn. rewrite E1, (proj2 (Z.eqb_neq b 92)), (proj2 (Z.eqb_neq b 34)) by done. done.
Qed.

Lemma json_char_some s c r : json_char s = Some (c, r) -> s <> [].
Proof. by destruct s. Qed.

Lemma jsonescape_char_len b : (1 <= length (jsonescape_char b) <= 6)%nat.
Proof. unfold jsonescape_char. repeat case_match; cbn; lia. Qed.

(** The characters written without the NUL. *)
Definition json_escaped (s : bytes) : bytes := concat (jsonescape_char <$> s).

Lemma json_escaped_len s : len s <= len (json_escaped s) <= 6 * len s.
Proof.
  unfold json_escaped, len. induction s as [|b s IH]; [done|]. rewrite fmap_cons, concat_cons, length_app. cbn [length].
  pose proof (jsonescape_char_len b). lia.
Qed.

Lemma json_escaped_roundtrip s : is_bytes s -> forall fuel, (length s <= fuel)%nat -> json_unescape fuel (json_escaped s) = Some s.
Proof.
  unfold json_escaped. induction 1 as [|b s Hb Hs IH]; intros fuel Hf; [by destruct fuel|]. rewrite fmap_cons, concat_cons.
  pose proof (jsonescape_char_len b). cbn [length] in Hf. destruct fuel as [|fuel]; [lia|].
  destruct (jsonescape_char b ++ concat (jsonescape_char <$> s)) as [|x l] eqn:E; [apply (f_equal length) in E; rewrite length_app in E; cbn in E; lia|].
  cbn [json_unescape]. rewrite <- E, json_char_escape by done. cbn [mbind option_bind]. rewrite IH by lia. done.
Qed.

(** No byte of it is a control character or an unescaped quotation mark: a reader that stops at the first
    quotation mark not preceded by a backslash reads the whole. *)
Lemma json_escaped_printable s : is_bytes s -> Forall (λ b, 0x20 <= b < 256) (json_escaped s).
Proof.
  unfold json_escaped. induction 1 as [|b s Hb Hs IH]; [constructor|]. rewrite fmap_cons, concat_cons. apply Forall_app. split; [|done].
  assert (forallb (λ c, (0x20 <=? c) && (c <? 256)) (jsonescape_char b) = true) as E.
  { revert b Hb. apply (all_bytes_spec (λ b, forallb (λ c, (0x20 <=? c) && (c <? 256)) (jsonescape_char b))). vm_compute. reflexivity. }
  apply Forall_forall. intros c Hc. rewrite forallb_forall in E. apply list_elem_of_In, E in Hc. lia.
Qed.

(** ** The line in progress *)

(* src lib/picotls.c:7184-7191 logbuf *)
Definition logbuf : Type := option ptls_buffer_t.

Section Elements.
Context `{Allocator}.

(** Stores bytes behind the data, [n] of which become data. *)
Definition put (src : bytes) (n : Z) : M logbuf unit := fun lb =>
  match lb with
  | None => (Err ABORTED, lb)
  | Some b =>
      if off b + len src <=? capacity b then (Ok (), Some (set_off (off b + n) (set_mem (mem_write (mem b) (off b) src) b)))
      else (Err OVER_WRITE, lb)
  end.

(* src lib/picotls.c:7304-7319 expand_logbuf_or_invalidate *)
Definition expand_logbuf_or_invalidate (prefix : bytes) (cap : Z) : M logbuf bool := fun lb =>
  match lb with
  | None => (Ok false, None)
  | Some b =>
      match reserve (u64 (len prefix + cap)) 1 b with
      | (Err _, _) => (Ok false, None)
      | (Ok _, b) => (_ ← put prefix (len prefix); mret true) (Some b)
      end
  end.

(** [text] is what the format gives: it is written with a NUL into what is left of the buffer. *)
(* src lib/picotls.c:7321-7334 pushf_logbuf_or_invalidate *)
Definition pushf_logbuf_or_invalidate (prefix : bytes) (cap : Z) (text : bytes) : M logbuf unit :=
  ok ← expand_logbuf_or_invalidate prefix cap;
  if negb ok then mret () else
  b ← gets id;
  _ ← lift (guard_err match b with Some b => len text <? capacity b - off b | None => false end ABORTED);
  put (text ++ [0]) (len text).

Definition quote : bytes := [0x22].

(* src lib/picotls.c:7336-7344 ptls_log__do_push_element_safestr *)
Definition ptls_log__do_push_element_safestr (prefix s : bytes) : M logbuf unit :=
  ok ← expand_logbuf_or_invalidate prefix (u64 (len s + 2));
  if negb ok then mret () else
  _ ← put quote 1;
  _ ← put s (len s);
  put quote 1.

(* src lib/picotls.c:7346-7353 ptls_log__do_push_element_unsafestr *)
Definition ptls_log__do_push_element_unsafestr (prefix s : bytes) : M logbuf unit :=
  ok ← expand_logbuf_or_invalidate prefix (u64 (len s * 6 + 2));
  if negb ok then mret () else
  _ ← put quote 1;
  _ ← put (ptls_jsonescape s) (len (ptls_jsonescape s) - 1);
  put quote 1.

(* src lib/picotls.c:7355-7363 ptls_log__do_push_element_hexdump *)
Definition ptls_log__do_push_element_hexdump (prefix s : bytes) : M logbuf unit :=
  ok ← expand_logbuf_or_invalidate prefix (u64 (len s * 2 + 2));
  if negb ok then mret () else
  _ ← put quote 1;
  _ ← put (ptls_hexdump s) (len s * 2);
  put quote 1.

(* src lib/picotls.c:7365-7368 ptls_log__do_push_element_signed32 *)
Definition ptls_log__do_push_element_signed32 (prefix : bytes) (v : Z) : M logbuf unit := pushf_logbuf_or_invalidate prefix 12 (decimal v).
(* src lib/picotls.c:7370-7373 ptls_log__do_push_element_signed64 *)
Definition ptls_log__do_push_element_signed64 (prefix : bytes) (v : Z) : M logbuf unit := pushf_logbuf_or_invalidate prefix 21 (decimal v).
(* src lib/picotls.c:7375-7378 ptls_log__do_push_element_unsigned32 *)
Definition ptls_log__do_push_element_unsigned32 (prefix : bytes) (v : Z) : M logbuf unit := pushf_logbuf_or_invalidate prefix 11 (decimal v).
(* src lib/picotls.c:7380-7383 ptls_log__do_push_element_unsigned64 *)
Definition ptls_log__do_push_element_unsigned64 (prefix : bytes) (v : Z) : M logbuf unit := pushf_logbuf_or_invalidate prefix 21 (decimal v).

(* src lib/picotls.c:7385-7396 ptls_log__do_push_element_bool *)
Definition ptls_log__do_push_element_bool (prefix : bytes) (v : bool) : M logbuf unit :=
  ok ← expand_logbuf_or_invalidate prefix 5;
  if negb ok then mret () else
  if v then put (str "true") 4 else put (str "false") 5.

(** The elements of a line: a name and a value. *)
Inductive element :=
| SafeStr (name s : bytes) | UnsafeStr (name s : bytes) | HexDump (name s : bytes)
| Signed32 (name : bytes) (v : Z) | Signed64 (name : bytes) (v : Z) | Unsigned32 (name : bytes) (v : Z) | Unsigned64 (name : bytes) (v : Z)
| Bool (name : bytes) (v : bool).

(* src include/zpicotls.h:1499-1500 PTLS_LOG__ELEMENT_PREFIX *)
Definition PTLS_LOG__ELEMENT_PREFIX (lit : bytes) : bytes := [0x2c; 0x22] ++ lit ++ [0x22; 0x3a].

(* src include/zpicotls.h:1501-1528 PTLS_LOG_ELEMENT_SAFESTR *)
Definition push_element (e : element) : M logbuf unit :=
  match e with
  | SafeStr name s => ptls_log__do_push_element_safestr (PTLS_LOG__ELEMENT_PREFIX name) s
  | UnsafeStr name s => ptls_log__do_push_element_unsafestr (PTLS_LOG__ELEMENT_PREFIX name) s
  | HexDump name s => ptls_log__do_push_element_hexdump (PTLS_LOG__ELEMENT_PREFIX name) s
  | Signed32 name v => ptls_log__do_push_element_signed32 (PTLS_LOG__ELEMENT_PREFIX name) v
  | Signed64 name v => ptls_log__do_push_element_signed64 (PTLS_LOG__ELEMENT_PREFIX name) v
  | Unsigned32 name v => ptls_log__do_push_element_unsigned32 (PTLS_LOG__ELEMENT_PREFIX name) v
  | Unsigned64 name v => ptls_log__do_push_element_unsigned64 (PTLS_LOG__ELEMENT_PREFIX name) v
  | Bool name v => ptls_log__do_push_element_bool (PTLS_LOG__ELEMENT_PREFIX name) v
  end.

(** *** Nothing is written beyond the buffer *)

Definition logbuf_ok (lb : logbuf) : Prop := match lb with None => True | Some b => buf_wf b /\ tx b = 1 end.

(** [appends m x]: the line gets longer by [x], or is given up for want of memory; it never fails. *)
Definition appends (m : M logbuf unit) (x : bytes) : Prop :=
  forall lb, logbuf_ok lb -> exists lb', m lb = (Ok (), lb') /\ logbuf_ok lb' /\
    match lb, lb' with Some b, Some b' => contents b' = contents b ++ x | None, Some _ => False | _, None => True end.

Lemma put_room b x y : buf_wf b -> off b + len x + len y <= capacity b ->
  exists b', put (x ++ y) (len x) (Some b) = (Ok (), Some b') /\ buf_wf b' /\ tx b' = tx b /\ contents b' = contents b ++ x /\
    off b' = off b + len x /\ capacity b' = capacity b.
Proof.
  intros Hw Hr. pose proof (len_nonneg x). pose proof (len_nonneg y). unfold put. rewrite len_app, (proj2 (Z.leb_le _ _)) by lia.
  eexists. split; [reflexivity|]. set (b1 := set_mem (mem_write (mem b) (off b) (x ++ y)) b).
  assert (buf_wf b1) as Hw1 by (apply wf_write; [done|apply Hw|rewrite len_app; lia]).
  assert (contents (set_off (off b + len x) b1) = contents b ++ x) as Hc.
  { pose proof Hw as []. pose proof (take_mem_write (mem b) (off b) (x ++ y) ltac:(lia) ltac:(rewrite len_app; lia)) as Ht.
    unfold contents. cbn [off mem set_off b1 set_mem]. apply (f_equal (take (Z.to_nat (off b + len x)))) in Ht.
    rewrite take_take, len_app in Ht. rewrite Nat.min_l in Ht by lia. rewrite Ht, app_assoc. apply take_app_length'.
    rewrite length_app, length_take. unfold len in *. lia. }
  split; [|done]. destruct Hw1. split; cbn in *; try done. lia.
Qed.

Lemma expand_room b prefix cap : buf_wf b -> tx b = 1 -> 0 <= cap -> len prefix + cap < 2 ^ 64 ->
  expand_logbuf_or_invalidate prefix cap (Some b) = (Ok false, None) \/
  exists b', expand_logbuf_or_invalidate prefix cap (Some b) = (Ok true, Some b') /\ buf_wf b' /\ tx b' = 1 /\
    contents b' = contents b ++ prefix /\ off b' + cap <= capacity b'.
Proof.
  intros Hw Ht Hc Hl. pose proof (len_nonneg prefix). unfold expand_logbuf_or_invalidate, reserve. rewrite u64_small by lia.
  pose proof (reserve_aligned_cases (len prefix + cap) 0 1 b Hw ltac:(lia) ltac:(lia)) as Hr.
  destruct (reserve_aligned (len prefix + cap) 0 1 b) as [[[]|e] b1]; [|by left].
  destruct Hr as (Hw1 & Hc1 & Ho1 & Ht1 & _ & Hcap & _). right. rewrite M_bind_run.
  destruct (put_room b1 prefix []) as (b2 & Hp & Hw2 & Ht2 & Hc2 & Ho2 & Hcap2); [done|rewrite len_nil; lia|].
  rewrite app_nil_r in Hp. rewrite Hp. exists b2. split; [done|]. split; [done|]. split; [congruence|]. split; [congruence|]. lia.
Qed.

Lemma appends_expand prefix cap x (k : M logbuf unit) :
  0 <= cap -> len prefix + cap < 2 ^ 64 ->
  (forall b, buf_wf b -> tx b = 1 -> off b + cap <= capacity b ->
     exists b', k (Some b) = (Ok (), Some b') /\ buf_wf b' /\ tx b' = 1 /\ contents b' = contents b ++ x) ->
  appends (ok ← expand_logbuf_or_invalidate prefix cap; if negb ok then mret () else k) (prefix ++ x).
Proof.
  intros Hc Hl Hk [b|] Hok; [|by exists None]. destruct Hok as [Hw Ht]. rewrite M_bind_run.
  destruct (expand_room b prefix cap Hw Ht Hc Hl) as [->|(b1 & -> & Hw1 & Ht1 & Hc1 & Hr1)]; [by exists None|]. cbn [negb].
  destruct (Hk b1 Hw1 Ht1 Hr1) as (b2 & -> & Hw2 & Ht2 & Hc2). exists (Some b2). by rewrite Hc2, Hc1, app_assoc.
Qed.

(** A quoted text, whose writer puts [y] behind it. *)
Lemma appends_quoted prefix cap x y : len prefix + cap < 2 ^ 64 -> len y <= 1 -> len x + 2 <= cap ->
  appends (ok ← expand_logbuf_or_invalidate prefix cap; if negb ok then mret () else
           _ ← put quote 1; _ ← put (x ++ y) (len x); put quote 1) (prefix ++ quote ++ x ++ quote).
Proof.
  intros Hl Hy Hc. pose proof (len_nonneg x). apply appends_expand; [lia|done|]. intros b Hw Ht Hr. change (len quote) with 1 in *.
  destruct (put_room b quote []) as (b1 & Hp1 & Hw1 & Ht1 & Hc1 & Ho1 & Hcap1); [done|change (len quote) with 1; change (len []) with 0; lia|].
  destruct (put_room b1 x y) as (b2 & Hp2 & Hw2 & Ht2 & Hc2 & Ho2 & Hcap2); [done|change (len quote) with 1 in *; lia|].
  destruct (put_room b2 quote []) as (b3 & Hp3 & Hw3 & Ht3 & Hc3 & Ho3 & Hcap3);
    [done|change (len quote) with 1 in *; change (len []) with 0; lia|].
  change (quote ++ []) with quote in *. change (len quote) with 1 in *.
  rewrite M_bind_run, Hp1, M_bind_run, Hp2, Hp3. exists b3. split; [done|]. split; [done|]. split; [congruence|].
  by rewrite Hc3, Hc2, Hc1, <- !app_assoc.
Qed.

Lemma appends_pushf prefix cap text : len prefix + cap < 2 ^ 64 -> len text < cap -> appends (pushf_logbuf_or_invalidate prefix cap text) (prefix ++ text).
Proof.
  intros Hl Hc. pose proof (len_nonneg text). apply appends_expand; [lia|done|]. intros b Hw Ht Hr. rewrite M_bind_run. cbn [gets id].
  rewrite M_bind_run. cbn [lift]. rewrite (proj2 (Z.ltb_lt _ _)) by lia. cbn [guard_err].
  destruct (put_room b text [0]) as (b1 & Hp1 & Hw1 & Ht1 & Hc1 & _); [done|change (len [0]) with 1; lia|].
  rewrite Hp1. exists b1. split; [done|]. split; [done|]. split; [congruence|done].
Qed.

Lemma digits_len k : forall fuel n, (1 <= k <= fuel)%nat -> 0 <= n < 10 ^ Z.of_nat k -> 1 <= len (digits fuel n) <= Z.of_nat k.
Proof.
  induction k as [|k IH]; intros fuel n Hf Hn; [lia|]. destruct fuel as [|fuel]; [lia|]. cbn [digits]. rewrite len_app, len_cons, len_nil.
  destruct (Z.ltb_spec n 10) as [Hs|Hs]; [rewrite len_nil; lia|]. destruct k as [|k].
  - change (10 ^ Z.of_nat 1) with 10 in Hn. lia.
  - rewrite Nat2Z.inj_succ, Z.pow_succ_r in Hn by lia.
    specialize (IH fuel (n / 10) ltac:(lia)). destruct IH as [I1 I2]; [split; [apply Z.div_pos|apply Z.div_lt_upper_bound]; lia|]. lia.
Qed.

Lemma decimal_len k v : (1 <= k <= 20)%nat -> - 10 ^ Z.of_nat k < v < 10 ^ Z.of_nat k -> len (decimal v) <= (if v <? 0 then 1 else 0) + Z.of_nat k.
Proof.
  intros Hk Hv. unfold decimal. destruct (Z.ltb_spec v 0).
  - rewrite len_cons. pose proof (digits_len k 20 (- v) Hk ltac:(lia)). lia.
  - pose proof (digits_len k 20 v Hk ltac:(lia)). lia.
Qed.

(** The text of an element; the values are of their types, and the lengths of strings such that the
    space asked for is a [size_t]. *)
Definition element_text (e : element) : bytes :=
  match e with
  | SafeStr name s => PTLS_LOG__ELEMENT_PREFIX name ++ quote ++ s ++ quote
  | UnsafeStr name s => PTLS_LOG__ELEMENT_PREFIX name ++ quote ++ json_escaped s ++ quote
  | HexDump name s => PTLS_LOG__ELEMENT_PREFIX name ++ quote ++ concat (byte_to_hex <$> s) ++ quote
  | Signed32 name v | Signed64 name v | Unsigned32 name v | Unsigned64 name v => PTLS_LOG__ELEMENT_PREFIX name ++ decimal v
  | Bool name v => PTLS_LOG__ELEMENT_PREFIX name ++ (if v then str "true" else str "false")
  end.

Definition element_ok (e : element) : Prop :=
  match e with
  | SafeStr name s | UnsafeStr name s | HexDump name s => len (PTLS_LOG__ELEMENT_PREFIX name) + (len s * 6 + 2) < 2 ^ 64
  | Signed32 name v => - 2 ^ 31 <= v < 2 ^ 31 /\ len name < 2 ^ 32
  | Signed64 name v => - 2 ^ 63 <= v < 2 ^ 63 /\ len name < 2 ^ 32
  | Unsigned32 name v => 0 <= v < 2 ^ 32 /\ len name < 2 ^ 32
  | Unsigned64 name v => 0 <= v < 2 ^ 64 /\ len name < 2 ^ 32
  | Bool name v => len name < 2 ^ 32
  end.

Lemma prefix_len name : len (PTLS_LOG__ELEMENT_PREFIX name) = len name + 4.
Proof. unfold PTLS_LOG__ELEMENT_PREFIX. rewrite !len_app. change (len [44; 34]) with 2. change (len [34; 58]) with 2. lia. Qed.

Lemma hexdump_len s : len (concat (byte_to_hex <$> s)) = len s * 2.
Proof. induction s as [|b s IH]; [done|]. rewrite fmap_cons, concat_cons, len_app, IH, len_cons. change (len (byte_to_hex b)) with 2. lia. Qed.

Lemma push_element_appends e : element_ok e -> appends (push_element e) (element_text e).
Proof.
  destruct e as [name s|name s|name s|name v|name v|name v|name v|name v]; cbn [element_ok push_element element_text]; intros Hok;
    try pose proof (len_nonneg s); pose proof (prefix_len name) as Hp; pose proof (len_nonneg name).
  - unfold ptls_log__do_push_element_safestr. rewrite u64_small by lia.
    pose proof (appends_quoted (PTLS_LOG__ELEMENT_PREFIX name) (len s + 2) s [] ltac:(lia) ltac:(rewrite len_nil; lia) ltac:(lia)) as Hq.
    by rewrite app_nil_r in Hq.
  - unfold ptls_log__do_push_element_unsafestr. rewrite u64_small by lia. pose proof (json_escaped_len s).
    change (ptls_jsonescape s) with (json_escaped s ++ [0]). rewrite len_app. change (len [0]) with 1. rewrite Z.add_simpl_r.
    apply appends_quoted; [lia|by vm_compute|lia].
  - unfold ptls_log__do_push_element_hexdump. rewrite u64_small by lia. pose proof (hexdump_len s) as Hh.
    change (ptls_hexdump s) with (concat (byte_to_hex <$> s) ++ [0]). rewrite <- Hh. apply appends_quoted; [lia|by vm_compute|lia].
  - pose proof (decimal_len 10 v ltac:(lia) ltac:(lia)). apply appends_pushf; [lia|]. destruct (v <? 0); lia.
  - pose proof (decimal_len 19 v ltac:(lia) ltac:(lia)). apply appends_pushf; [lia|]. destruct (v <? 0); lia.
  - pose proof (decimal_len 10 v ltac:(lia) ltac:(lia)). apply appends_pushf; [lia|]. destruct (Z.ltb_spec v 0); lia.
  - pose proof (decimal_len 20 v ltac:(lia) ltac:(lia)). apply appends_pushf; [lia|]. destruct (Z.ltb_spec v 0); lia.
  - apply appends_expand; [lia|lia|]. intros b Hw Ht Hr.
    destruct (put_room b (if v then str "true" else str "false") []) as (b1 & Hp1 & Hw1 & Ht1 & Hc1 & _);
      [done|destruct v; vm_compute (len _); lia|]. rewrite app_nil_r in Hp1.
    exists b1. split; [by destruct v|]. split; [done|]. split; [congruence|done].
Qed.
End Elements.

(** ** Loggers *)

(** A slot in use: [points] and [snis] are memory that holds strings, each with its NUL, up to an empty
    one; [addresses] ends with the unspecified address. *)
(* src lib/picotls.c:7144-7169 conns *)
Record log_slot := mkSlot
  { log_fd : Z; points : bytes; snis : bytes; addresses : list bytes; sample_ratio : Q; appdata : bool }.

(** [None] is a slot whose [points] is NULL. *)
(* src lib/picotls.c:7140-7182 logctx *)
Record log_ctx := mkLogCtx { conns : list (option log_slot); num_lost : Z; generation : Z; may_include_appdata : bool }.

(* src include/zpicotls.h:1545-1554 st_ptls_log_state_t *)
Record st_ptls_log_state_t := mkLogState { active_conns : Z; state_generation : Z }.

(* src include/zpicotls.h:1559-1562 st_ptls_log_point_t *)
Record st_ptls_log_point_t := mkPoint { point_name : bytes; point_state : st_ptls_log_state_t }.

(* src include/zpicotls.h:1567-1582 st_ptls_log_conn_state_t *)
Record ptls_log_conn_state_t := mkConnState { random_ : Q; address : bytes; conn_id : Z; conn_state : st_ptls_log_state_t }.

Definition NUM_SLOTS : nat := 32.

(** The state of the process before anything is registered. *)
(* src lib/picotls.c:7132-7135 ptls_log *)
Definition log_start (appdata : bool) : log_ctx := mkLogCtx (replicate NUM_SLOTS None) 0 1 appdata.

Definition bump (g : log_ctx) : log_ctx := mkLogCtx (conns g) (num_lost g) (u64 (generation g + 1)) (may_include_appdata g).
Definition set_slot (i : nat) (s : option log_slot) (g : log_ctx) : log_ctx :=
  mkLogCtx (<[i := s]> (conns g)) (num_lost g) (generation g) (may_include_appdata g).

(* src lib/picotls.c:7193-7210 close_log_fd *)
Definition close_log_fd (slot : nat) (g : log_ctx) : log_ctx := bump (set_slot slot None g).

(** The first string of the memory, and what follows its NUL. *)
Definition next_string (mem : bytes) : bytes := drop (length (c_string mem) + 1) mem.

(* src lib/picotls.c:7220-7222 in_tail *)
Fixpoint list_extent (fuel : nat) (mem : bytes) (n : nat) : nat :=
  match fuel, c_string mem with
  | _, [] => n + 1
  | O, _ => n
  | S fuel, s => list_extent fuel (next_string mem) (n + length s + 1)
  end.

(** NULL is [None], in the argument and in the result. *)
(* src lib/picotls.c:7212-7227 duplicate_stringlist *)
Definition duplicate_stringlist `{Allocator} (input : option bytes) : option bytes :=
  let input := default [0] input in
  let n := list_extent (length input) input 0 in
  match malloc (Z.of_nat n) with None => None | Some _ => Some (take n input) end.

(* src lib/picotls.c:7237-7240 element *)
Fixpoint stringlist_search (fuel : nat) (mem search_for : bytes) : bool :=
  match fuel, c_string mem with
  | _, [] | O, _ => false
  | S fuel, s => if bool_decide (s = search_for) then true else stringlist_search fuel (next_string mem) search_for
  end.

(* src lib/picotls.c:7229-7241 is_in_stringlist *)
Definition is_in_stringlist (list : bytes) (search_for : option bytes) : bool :=
  match c_string list, search_for with
  | [], _ => true
  | _, None => false
  | _, Some s => stringlist_search (length list) list s
  end.

Definition in6addr_any : bytes := replicate 16 0.

(* src lib/picotls.c:7253-7256 element *)
Fixpoint address_search (list : list bytes) (search_for : bytes) : bool :=
  match list with
  | [] => false
  | a :: list => if bool_decide (a = in6addr_any) then false else if bool_decide (a = search_for) then true else address_search list search_for
  end.

(* src lib/picotls.c:7243-7259 is_in_addresslist *)
Definition is_in_addresslist (list : list bytes) (search_for : bytes) : bool :=
  if bool_decide (head list = Some in6addr_any) then true
  else if bool_decide (search_for = in6addr_any) then false
  else address_search list search_for.

(** The bitmap of the slots in use that are wanted. *)
(* src lib/picotls.c:7268-7271 new_active *)
Fixpoint active_bits (wanted : log_slot -> bool) (l : list (option log_slot)) (slot : Z) (new_active : Z) : Z :=
  match l with
  | [] => new_active
  | c :: l =>
      active_bits wanted l (slot + 1)
        (match c with Some s => if wanted s then Z.lor new_active (Z.shiftl 1 slot) else new_active | None => new_active end)
  end.

Definition wants_point (name : bytes) (s : log_slot) : bool := is_in_stringlist (points s) (Some name).

Definition wants_conn (conn : ptls_log_conn_state_t) (sni : option bytes) (s : log_slot) : bool :=
  negb (Qle_bool (sample_ratio s) (random_ conn)) && is_in_stringlist (snis s) sni && is_in_addresslist (addresses s) (address conn).

(** The name as a C string. *)
(* src lib/picotls.c:7261-7278 ptls_log__recalc_point *)
Definition ptls_log__recalc_point (g : log_ctx) (point : st_ptls_log_point_t) : st_ptls_log_point_t :=
  if negb (state_generation (point_state point) =? generation g) then
    mkPoint (point_name point) (mkLogState (active_bits (wants_point (point_name point)) (conns g) 0 0) (generation g))
  else point.

(** [sni]: what the callback gives, [None] for NULL or when there is no callback. *)
(* src lib/picotls.c:7280-7302 ptls_log__recalc_conn *)
Definition ptls_log__recalc_conn (g : log_ctx) (sni : option bytes) (conn : ptls_log_conn_state_t) : ptls_log_conn_state_t :=
  if negb (state_generation (conn_state conn) =? generation g) then
    mkConnState (random_ conn) (address conn) (conn_id conn) (mkLogState (active_bits (wants_conn conn sni) (conns g) 0 0) (generation g))
  else conn.

(* src include/zpicotls.h:2132-2141 ptls_log_point_maybe_active *)
Definition ptls_log_point_maybe_active (g : log_ctx) (point : st_ptls_log_point_t) : Z * st_ptls_log_point_t :=
  let point := if negb (state_generation (point_state point) =? generation g) then ptls_log__recalc_point g point else point in
  (active_conns (point_state point), point).

(* src include/zpicotls.h:2148-2157 ptls_log_conn_maybe_active *)
Definition ptls_log_conn_maybe_active (g : log_ctx) (conn : ptls_log_conn_state_t) (sni : option bytes) : Z * ptls_log_conn_state_t :=
  let conn := if negb (state_generation (conn_state conn) =? generation g) then ptls_log__recalc_conn g sni conn else conn in
  (active_conns (conn_state conn), conn).

(* src include/zpicotls.h:2143-2146 ptls_log_recalc_conn_state *)
Definition ptls_log_recalc_conn_state (conn : ptls_log_conn_state_t) : ptls_log_conn_state_t :=
  mkConnState (random_ conn) (address conn) (conn_id conn) (mkLogState (active_conns (conn_state conn)) 0).

(* src lib/picotls.c:7535-7542 ptls_log_num_lost *)
Definition ptls_log_num_lost (g : log_ctx) : Z := num_lost g.

Section Register.
Context `{Allocator}.

(** [inet_pton] for the two families. *)
Context (inet_pton6 inet_pton4 : bytes -> option bytes).

(** The addresses of a list of strings; those that do not parse and the unspecified one are left out. *)
(* src lib/picotls.c:7571-7583 inet_pton *)
Fixpoint parse_addresses (fuel : nat) (mem : bytes) : list bytes :=
  match fuel, c_string mem with
  | _, [] | O, _ => [in6addr_any]
  | S fuel, s =>
      match (match inet_pton6 s with Some a => Some a | None => ptls_build_v4_mapped_v6_address <$> inet_pton4 s end) with
      | None => parse_addresses fuel (next_string mem)
      | Some a => if bool_decide (a = in6addr_any) then parse_addresses fuel (next_string mem) else a :: parse_addresses fuel (next_string mem)
      end
  end.

(* src lib/picotls.c:7563-7565 num_addresses *)
Fixpoint count_strings (fuel : nat) (mem : bytes) : Z :=
  match fuel, c_string mem with
  | _, [] | O, _ => 0
  | S fuel, _ => 1 + count_strings fuel (next_string mem)
  end.

(* src lib/picotls.c:7588-7591 slot_index *)
Fixpoint free_slot (l : list (option log_slot)) (i : nat) : option nat :=
  match l with
  | [] => None
  | None :: _ => Some i
  | Some _ :: l => free_slot l (i + 1)
  end.

(* src lib/picotls.c:7544-7620 ptls_log_add_fd *)
Definition ptls_log_add_fd (fd : Z) (ratio : Q) (_points _snis _addresses : option bytes) (appdata : bool) : M log_ctx unit :=
  points ← lift (match duplicate_stringlist _points with None => Err PTLS_ERROR_NO_MEMORY | Some x => Ok x end);
  snis ← lift (match duplicate_stringlist _snis with None => Err PTLS_ERROR_NO_MEMORY | Some x => Ok x end);
  let input := default [0] _addresses in
  _ ← lift (match malloc (16 * (count_strings (length input) input + 1)) with None => Err PTLS_ERROR_NO_MEMORY | Some _ => Ok () end);
  let addresses := parse_addresses (length input) input in
  g ← gets id;
  match free_slot (conns g) 0 with
  | None => fail PTLS_ERROR_NO_MEMORY
  | Some slot_index => modify (λ g, bump (set_slot slot_index (Some (mkSlot fd points snis addresses ratio appdata)) g))
  end.
End Register.

(** ** Writing a line *)

(** What [write] does, once not interrupted: the number of bytes, or an error, which may be that the
    descriptor would block. *)
Inductive write_result := Wrote (n : Z) | WouldBlock | WriteError.

Section Lines.
Context `{Allocator}.

(** The thread id and the time in milliseconds, as the system gives them. *)
Context (gettid now : Z) (write : Z -> bytes -> write_result).

(** The module and the type of a point [module:type]. *)
Definition split_name (name : bytes) : bytes * bytes :=
  let module := List.fold_right (λ c r, if c =? 0x3a then [] else c :: r) [] name in
  (module, drop (length module + 1) name).

(* src lib/picotls.c:7404-7406 written *)
Definition line_header (name : bytes) : bytes :=
  let '(module, type) := split_name name in
  str "{" ++ quote ++ str "module" ++ quote ++ str ":" ++ quote ++ module ++ quote ++ str "," ++ quote ++ str "type" ++ quote ++ str ":" ++
  quote ++ type ++ quote.

Definition number_field (name : bytes) (v : Z) : bytes := str "," ++ quote ++ name ++ quote ++ str ":" ++ decimal v.

(** On Linux.  The buffer is the array of 128 bytes of the thread; a name without a colon is not handled.
    A line that is in progress stops the process. *)
(* src lib/picotls.c:7398-7439 ptls_log__do_write_start *)
Definition ptls_log__do_write_start (point : st_ptls_log_point_t) (add_time : bool) : M logbuf unit :=
  lb ← gets id;
  _ ← lift (guard_err (bool_decide (lb = None)) ABORTED);
  _ ← lift (guard_err (existsb (Z.eqb 0x3a) (point_name point)) ABORTED);
  let tid := number_field (str "tid") gettid in
  let header := line_header (point_name point) in
  _ ← lift (guard_err (len header + len tid <? 128) ABORTED);
  let header := header ++ tid ++ (if add_time then number_field (str "time") now else []) in
  _ ← lift (guard_err (len header <? 128) ABORTED);
  _ ← modify (λ _, Some (ptls_buffer_init_tx 64 (replicate 128 0)));
  put (header ++ [0]) (len header).

(** What the loop over the slots changes, and the lines delivered: the descriptor and the bytes. *)
Record delivery := mkDelivery { dl_ctx : log_ctx; needs_appdata : bool; delivered : list (Z * bytes) }.

(** One slot: whether it takes the line, and what becomes of it. *)
(* src lib/picotls.c:7462-7485 includes_appdata *)
Definition write_slot (line : bytes) (includes_appdata : bool) (slot : nat) (d : delivery) : result delivery :=
  let g := dl_ctx d in
  match conns g !! slot with
  | Some (Some s) =>
      if negb (Bool.eqb (appdata s) includes_appdata) then
        Ok (if negb includes_appdata && may_include_appdata g then mkDelivery g true (delivered d) else d)
      else
        match write (log_fd s) line with
        | Wrote n =>
            if n =? len line then Ok (mkDelivery g (needs_appdata d) (delivered d ++ [(log_fd s, line)]))
            else if 0 <? n then
              Ok (mkDelivery (mkLogCtx (conns g) (u64 (num_lost g + 1)) (generation g) (may_include_appdata g)) (needs_appdata d) (delivered d))
            else Ok (mkDelivery (close_log_fd slot g) (needs_appdata d) (delivered d))
        | WouldBlock => Ok (mkDelivery (mkLogCtx (conns g) (u64 (num_lost g + 1)) (generation g) (may_include_appdata g)) (needs_appdata d) (delivered d))
        | WriteError => Ok (mkDelivery (close_log_fd slot g) (needs_appdata d) (delivered d))
        end
  | _ => Err ABORTED
  end.

(* src lib/picotls.c:7461-7486 active *)
Fixpoint write_slots (fuel : nat) (line : bytes) (includes_appdata : bool) (active : Z) (slot : nat) (d : delivery) : result delivery :=
  if active =? 0 then Ok d
  else match fuel with
       | O => Err OUT_OF_FUEL
       | S fuel =>
           d ← (if Z.land active 1 =? 0 then Ok d else write_slot line includes_appdata slot d);
           write_slots fuel line includes_appdata (Z.shiftr active 1) (slot + 1) d
       end.

(** The logger's state: the registrations, the point and the connection ([None] for NULL), the line. *)
Record log_env := mkLogEnv { le_ctx : log_ctx; le_point : st_ptls_log_point_t; le_conn : option ptls_log_conn_state_t; le_line : logbuf }.

(** The slots that a line is for. *)
(* src lib/picotls.c:7451-7458 active *)
Definition line_targets (g : log_ctx) (point : st_ptls_log_point_t) (conn : option ptls_log_conn_state_t) (sni : option bytes)
    : Z * st_ptls_log_point_t * option ptls_log_conn_state_t :=
  let point := if negb (state_generation (point_state point) =? generation g) then ptls_log__recalc_point g point else point in
  let active := active_conns (point_state point) in
  match conn with
  | Some c =>
      if negb (state_generation (conn_state c) =? generation g) then
        let c := ptls_log__recalc_conn g sni c in (Z.land active (active_conns (conn_state c)), point, Some c)
      else (active, point, conn)
  | None => (active, point, conn)
  end.

(** Whether the line is to be written again with application data, and the lines delivered. *)
(* src lib/picotls.c:7441-7496 ptls_log__do_write_end *)
Definition ptls_log__do_write_end (sni : option bytes) (includes_appdata : bool) : M log_env (bool * list (Z * bytes)) := fun e =>
  match expand_logbuf_or_invalidate (str "}" ++ [10]) 0 (le_line e) with
  | (Ok true, Some b) =>
      let '(active, point, conn) := line_targets (le_ctx e) (le_point e) (le_conn e) sni in
      match write_slots 32 (contents b) includes_appdata active 0 (mkDelivery (le_ctx e) false []) with
      | Ok d =>
          if includes_appdata && needs_appdata d then (Err ABORTED, e)
          else (Ok (needs_appdata d, delivered d), mkLogEnv (dl_ctx d) point conn None)
      | Err x => (Err x, e)
      end
  | (Err x, lb) => (Err x, mkLogEnv (le_ctx e) (le_point e) (le_conn e) lb)
  | (_, lb) => (Ok (false, []), mkLogEnv (le_ctx e) (le_point e) (le_conn e) None)
  end.

Definition on_line (m : M logbuf unit) : M log_env unit := fun e =>
  let '(r, lb) := m (le_line e) in (r, mkLogEnv (le_ctx e) (le_point e) (le_conn e) lb).

(** The line is written once, and again if some logger wants the application data. *)
(* src include/zpicotls.h:1450-1460 PTLS_LOG__DO_LOG *)
Fixpoint PTLS_LOG__DO_LOG (fuel : nat) (sni : option bytes) (add_time : bool) (block : bool -> M logbuf unit) (include_appdata : bool)
    (out : list (Z * bytes)) : M log_env (list (Z * bytes)) :=
  match fuel with
  | O => fail OUT_OF_FUEL
  | S fuel =>
      point ← gets le_point;
      _ ← on_line (ptls_log__do_write_start point add_time);
      _ ← on_line (block include_appdata);
      '(again, o) ← ptls_log__do_write_end sni include_appdata;
      if (again : bool) then PTLS_LOG__DO_LOG fuel sni add_time block again (out ++ o) else mret (out ++ o)
  end.

(** [tls]: the address of the connection object, which holds the state of the connection. *)
(* src include/zpicotls.h:1477-1497 PTLS_LOG_CONN *)
Definition PTLS_LOG_CONN (tls : Z) (sni : option bytes) (block : bool -> M logbuf unit) : M log_env (list (Z * bytes)) :=
  e ← gets id;
  let '(active, point) := ptls_log_point_maybe_active (le_ctx e) (le_point e) in
  _ ← modify (λ e, mkLogEnv (le_ctx e) point (le_conn e) (le_line e));
  if active =? 0 then mret [] else
  match le_conn e with
  | None => fail ABORTED
  | Some c =>
      let '(bits, c) := ptls_log_conn_maybe_active (le_ctx e) c sni in
      _ ← modify (λ e, mkLogEnv (le_ctx e) (le_point e) (Some c) (le_line e));
      if Z.land active bits =? 0 then mret [] else
      PTLS_LOG__DO_LOG 2 sni true (λ appdata,
        _ ← push_element (Unsigned64 (str "tls") tls);
        _ ← (if negb (conn_id c =? 0) then push_element (Unsigned64 (str "conn_id") (conn_id c)) else mret ());
        block appdata) false []
  end.
End Lines.

(** ** The state of a connection *)

(** The [float] nearest to an integer, ties to even: 24 significant bits. *)
Definition to_float (n : Z) : Z :=
  if n <? 2 ^ 24 then n
  else
    let e := Z.log2 n - 23 in
    let q := n / 2 ^ e in
    let r := n mod 2 ^ e in
    (if (r <? 2 ^ (e - 1)) || ((r =? 2 ^ (e - 1)) && Z.even q) then q else q + 1) * 2 ^ e.

Inductive sockaddr := AF_INET (sin_addr : bytes) | AF_INET6 (sin6_addr : bytes) | AF_OTHER.

(** [r]: the 32 random bits. *)
(* src lib/picotls.c:7505-7533 ptls_log_init_conn_state_ex *)
Definition ptls_log_init_conn_state_ex (r : Z) (id : Z) (peeraddr : option sockaddr) : ptls_log_conn_state_t :=
  mkConnState (to_float r # 4294967296)
    (match peeraddr with
     | Some (AF_INET a) => ptls_build_v4_mapped_v6_address a
     | Some (AF_INET6 a) => take 16 a
     | Some AF_OTHER | None => replicate 16 0
     end) id (mkLogState 0 0).

(* src lib/picotls.c:7500-7503 ptls_log_init_conn_state *)
Definition ptls_log_init_conn_state (r : Z) : ptls_log_conn_state_t := ptls_log_init_conn_state_ex r 0 None.

(** ** The bitmaps *)

Lemma active_bits_spec wanted l : forall slot acc i, 0 <= slot -> 0 <= i ->
  Z.testbit (active_bits wanted l slot acc) i =
  Z.testbit acc i || match l !! Z.to_nat (i - slot) with Some (Some s) => (slot <=? i) && wanted s | _ => false end.
Proof.
  induction l as [|c l IH]; intros slot acc i Hs Hi; [cbn; by rewrite lookup_nil, orb_false_r|].
  cbn [active_bits]. rewrite IH by lia. destruct (Z.lt_trichotomy i slot) as [Hlt|[->|Hgt]].
  - rewrite (proj2 (Z.leb_gt slot i)), (proj2 (Z.leb_gt (slot + 1) i)) by lia.
    assert (Z.testbit (Z.shiftl 1 slot) i = false) as Hb by (rewrite Z.shiftl_1_l; apply Z.pow2_bits_false; lia).
    destruct c as [s|]; [destruct (wanted s)|]; rewrite ?Z.lor_spec, ?Hb, ?orb_false_r; repeat case_match; cbn [andb]; rewrite ?orb_false_r; done.
  - rewrite Z.sub_diag, (proj2 (Z.leb_gt (slot + 1) slot)) by lia. change ((c :: l) !! Z.to_nat 0) with (Some c). rewrite Z.leb_refl.
    assert (Z.testbit (Z.shiftl 1 slot) slot = true) as Hb by (rewrite Z.shiftl_1_l; by apply Z.pow2_bits_true).
    destruct c as [s|]; [destruct (wanted s)|]; rewrite ?Z.lor_spec, ?Hb, ?orb_true_r, ?orb_false_r; repeat case_match; cbn [andb]; rewrite ?orb_true_r, ?orb_false_r; done.
  - rewrite (proj2 (Z.leb_le slot i)), (proj2 (Z.leb_le (slot + 1) i)) by lia.
    replace (Z.to_nat (i - slot)) with (S (Z.to_nat (i - (slot + 1)))) by lia. cbn [lookup list_lookup].
    assert (Z.testbit (Z.shiftl 1 slot) i = false) as Hb by (rewrite Z.shiftl_1_l; apply Z.pow2_bits_false; lia).
    destruct c as [s|]; [destruct (wanted s)|]; rewrite ?Z.lor_spec, ?Hb, ?orb_false_r; done.
Qed.

(** Bit [i] of a bitmap: slot [i] is in use and wanted. *)
Lemma active_bits_slot wanted l (i : nat) :
  Z.testbit (active_bits wanted l 0 0) (Z.of_nat i) = match l !! i with Some (Some s) => wanted s | _ => false end.
Proof. rewrite active_bits_spec by lia. rewrite Z.testbit_0_l, Z.sub_0_r, Nat2Z.id. cbn [orb]. rewrite (proj2 (Z.leb_le 0 _)) by lia. done. Qed.

(** ** The caches are sound *)

(** A cached bitmap is not from the future, and if it is of this generation it is right. *)
Definition cached (wanted : log_slot -> bool) (st : st_ptls_log_state_t) (g : log_ctx) : Prop :=
  state_generation st <= generation g /\ (state_generation st = generation g -> active_conns st = active_bits wanted (conns g) 0 0).

(** The generation grows, and strictly when the registrations change. *)
Definition evolves (g g' : log_ctx) : Prop := generation g <= generation g' /\ (generation g = generation g' -> conns g = conns g').

#[global] Instance evolves_preorder : PreOrder evolves.
Proof. split; [by split|]. intros a b c [H1 H2] [H3 H4]. split; [lia|]. intros E. rewrite H2, H4 by lia. done. Qed.

Lemma cached_evolves wanted st g g' : cached wanted st g -> evolves g g' -> cached wanted st g'.
Proof. intros [Hc1 Hc2] [He1 He2]. split; [lia|]. intros E. rewrite <- He2 by lia. apply Hc2. lia. Qed.

Lemma bump_evolves g l n : generation g < 2 ^ 64 - 1 -> 0 <= generation g -> evolves g (bump (mkLogCtx l n (generation g) (may_include_appdata g))).
Proof. intros Hg H0. unfold evolves. cbn. rewrite u64_small by lia. split; lia. Qed.

(** Room for the registrations of one call in the 64 bits of the counter. *)
Definition counts (k : Z) (g : log_ctx) : Prop := 0 <= generation g /\ generation g + k < 2 ^ 64.

Lemma add_fd_evolves `{Allocator} p6 p4 fd ratio ps ss addrs app g : counts 1 g -> evolves g (ptls_log_add_fd p6 p4 fd ratio ps ss addrs app g).2.
Proof.
  intros [H0 H1]. unfold ptls_log_add_fd. rewrite M_bind_run. cbn [lift]. destruct (duplicate_stringlist ps); [|done].
  rewrite M_bind_run. cbn [lift]. destruct (duplicate_stringlist ss); [|done]. cbv zeta. rewrite M_bind_run. cbn [lift]. destruct (malloc _); [|done].
  rewrite M_bind_run. cbn [gets id]. destruct (free_slot (conns g) 0); [|done]. apply (bump_evolves g); lia.
Qed.

Lemma write_slot_evolves write line app slot d d' : counts 1 (dl_ctx d) -> write_slot write line app slot d = Ok d' ->
  evolves (dl_ctx d) (dl_ctx d') /\ generation (dl_ctx d') <= generation (dl_ctx d) + 1.
Proof.
  intros [H0 H1]. unfold write_slot. destruct (conns _ !! slot) as [[s|]|]; try done.
  assert (evolves (dl_ctx d) (close_log_fd slot (dl_ctx d)) /\ generation (close_log_fd slot (dl_ctx d)) <= generation (dl_ctx d) + 1) as Hclose.
  { split; [apply bump_evolves; lia|]. cbn. rewrite u64_small; lia. }
  repeat case_match; intros; simplify_eq; cbn; (exact Hclose || (split; [by split|lia])).
Qed.

Lemma write_slots_evolves write line app : forall fuel active slot d d',
  counts (Z.of_nat fuel) (dl_ctx d) -> write_slots write fuel line app active slot d = Ok d' -> evolves (dl_ctx d) (dl_ctx d').
Proof.
  induction fuel as [|fuel IH]; intros active slot d d' [H0 H1]; cbn [write_slots]; destruct (active =? 0); try done; try (by intros [= <-]).
  intros Hr. apply result_bind_ok in Hr as (d1 & Hd1 & Hr).
  assert (evolves (dl_ctx d) (dl_ctx d1) /\ generation (dl_ctx d1) <= generation (dl_ctx d) + 1) as [He Hg].
  { destruct (Z.land active 1 =? 0); [injection Hd1 as <-; split; [done|lia]|]. eapply write_slot_evolves; [|done]. split; lia. }
  etrans; [exact He|]. eapply IH; [|exact Hr]. destruct He as [He _]. split; lia.
Qed.

(** What changes the registrations: a logger is added, a line is written. *)
Inductive log_step : log_ctx -> log_ctx -> Prop :=
| step_add `{Allocator} p6 p4 fd ratio ps ss addrs app g :
    counts 1 g -> log_step g (ptls_log_add_fd p6 p4 fd ratio ps ss addrs app g).2
| step_write `{Allocator} write sni app e r e' :
    counts 32 (le_ctx e) -> ptls_log__do_write_end write sni app e = (Ok r, e') -> log_step (le_ctx e) (le_ctx e').

Lemma log_step_evolves g g' : log_step g g' -> evolves g g'.
Proof.
  destruct 1 as [? p6 p4 fd ratio ps ss addrs app g Hc|? write sni app e r e' Hc Hw]; [by apply add_fd_evolves|].
  unfold ptls_log__do_write_end in Hw. destruct (expand_logbuf_or_invalidate _ _ _) as [[[]|x] [b|]]; try (by injection Hw as <- <-); try done.
  destruct (line_targets _ _ _ _) as [[active point] conn]. destruct (write_slots _ _ _ _ _ _ _) as [d|] eqn:Ed; [|done].
  destruct (_ && _); [done|]. injection Hw as <- <-. cbn. by eapply write_slots_evolves in Ed.
Qed.

Lemma log_steps_evolve g g' : rtc log_step g g' -> evolves g g'.
Proof. induction 1 as [|g1 g2 g3 Hs _ IH]; [done|]. etrans; [by apply log_step_evolves|done]. Qed.

(** ** Claims *)

(** A line is the header and its elements. *)
Fixpoint push_elements `{Allocator} (es : list element) : M logbuf unit :=
  match es with [] => mret () | e :: es => _ ← push_element e; push_elements es end.

(** whatever is logged, nothing is written beyond the buffer of the line: pushing any elements whose
    values are of their types never fails (the space asked for an element is enough for its text, its
    quotation marks and the NUL that the formatters write), and either appends exactly their text or gives
    the line up for want of memory.  In that text an untrusted string has no control character, no raw
    quotation mark, and is read back by a JSON reader as the string that was logged. *)
Theorem log_elements_in_bounds `{Allocator} es :
  Forall element_ok es ->
  appends (push_elements es) (concat (element_text <$> es)) /\
  forall name s, UnsafeStr name s ∈ es -> is_bytes s ->
    Forall (λ b, 0x20 <= b < 256) (json_escaped s) /\ json_unescape (length s) (json_escaped s) = Some s.
Proof.
  intros Hok. split; [|intros name s _ Hs; split; [by apply json_escaped_printable|by apply json_escaped_roundtrip]].
  induction Hok as [|e es He Hes IH]; intros lb Hlb.
  - exists lb. split; [done|]. split; [done|]. destruct lb; [by rewrite app_nil_r|done].
  - cbn [push_elements]. rewrite M_bind_run. destruct (push_element_appends e He lb Hlb) as (lb1 & -> & Hlb1 & Hc1).
    destruct (IH lb1 Hlb1) as (lb2 & -> & Hlb2 & Hc2). exists lb2. split; [done|]. split; [done|].
    destruct lb as [b|], lb1 as [b1|], lb2 as [b2|]; try done. rewrite Hc2, Hc1, fmap_cons, concat_cons. by rewrite app_assoc.
Qed.

Lemma log_elements_in_bounds_witness :
  exists lb, @push_elements bump_allocator [UnsafeStr (str "s") [0x22; 10; 0x41; 0x7f]; Signed64 (str "n") (- 2 ^ 63); Bool (str "b") false]
    (Some (ptls_buffer_init_tx 64 (replicate 4 0))) = (Ok (), lb).
Proof.
  destruct (@log_elements_in_bounds bump_allocator [UnsafeStr (str "s") [0x22; 10; 0x41; 0x7f]; Signed64 (str "n") (- 2 ^ 63); Bool (str "b") false])
    as [Ha _].
  - repeat constructor; vm_compute; congruence.
  - destruct (Ha (Some (ptls_buffer_init_tx 64 (replicate 4 0)))) as (lb & Hlb & _); [|by exists lb].
    split; [|reflexivity]. apply buffer_init_wf; [lia|vm_compute; discriminate|by right].
Defined.

(** The cached bitmaps are right.  Through any sequence of registrations and of lines written (which may
    close a descriptor), the slots that a point or a connection is found active for are exactly the slots
    in use that want it now, however long ago its bitmap was computed. *)
Theorem log_cache_sound g g' point conn sni (i : nat) :
  rtc log_step g g' -> cached (wants_point (point_name point)) (point_state point) g -> cached (wants_conn conn sni) (conn_state conn) g ->
  Z.testbit (ptls_log_point_maybe_active g' point).1 (Z.of_nat i) =
    match conns g' !! i with Some (Some s) => wants_point (point_name point) s | _ => false end /\
  Z.testbit (ptls_log_conn_maybe_active g' conn sni).1 (Z.of_nat i) =
    match conns g' !! i with Some (Some s) => wants_conn conn sni s | _ => false end.
Proof.
  intros Hs%log_steps_evolve Hp Hc. pose proof (cached_evolves _ _ _ _ Hp Hs) as [_ Hp']. pose proof (cached_evolves _ _ _ _ Hc Hs) as [_ Hc'].
  unfold ptls_log_point_maybe_active, ptls_log_conn_maybe_active, ptls_log__recalc_point, ptls_log__recalc_conn. split.
  - destruct (Z.eqb_spec (state_generation (point_state point)) (generation g')) as [E|E]; cbn [negb fst point_state active_conns].
    + rewrite (Hp' E). apply active_bits_slot.
    + apply active_bits_slot.
  - destruct (Z.eqb_spec (state_generation (conn_state conn)) (generation g')) as [E|E]; cbn [negb fst conn_state active_conns].
    + rewrite (Hc' E). apply active_bits_slot.
    + apply active_bits_slot.
Qed.

(** *** Loggers to evaluate on *)

Section Evaluations.
#[local] Existing Instance bump_allocator.

Definition no_pton (s : bytes) : option bytes := None.
Definition add_logger (fd : Z) (names addrs : option bytes) (app : bool) (g : log_ctx) : log_ctx :=
  (ptls_log_add_fd no_pton no_pton fd 1 None names addrs app g).2.

Definition new_point : st_ptls_log_point_t := mkPoint (str "picotls:new") (mkLogState 0 0).

(** Descriptor 3 only wants a.example, descriptor 4 wants everything. *)
Definition one_logger : log_ctx := add_logger 3 (Some (str "a.example" ++ [0; 0])) None false (log_start false).
Definition two_loggers : log_ctx := add_logger 4 None None false one_logger.

Definition always (fd : Z) (line : bytes) : write_result := Wrote (len line).

Lemma log_cache_sound_witness :
  Z.testbit (ptls_log_conn_maybe_active two_loggers (ptls_log_init_conn_state 7) (Some (str "b.example"))).1 0 = false.
Proof.
  destruct (log_cache_sound (log_start false) two_loggers new_point (ptls_log_init_conn_state 7) (Some (str "b.example")) 0) as [_ H].
  - apply (rtc_l log_step _ one_logger _); [apply (step_add no_pton no_pton 3 1 None (Some (str "a.example" ++ [0; 0])) None false (log_start false)); vm_compute; split; congruence|].
    apply rtc_once. apply (step_add no_pton no_pton 4 1 None None None false one_logger). vm_compute. split; congruence.
  - split; [vm_compute; congruence|discriminate].
  - split; [vm_compute; congruence|discriminate].
  - etrans; [exact H|]. vm_compute. reflexivity.
Defined.

(** The descriptors a line of a connection is delivered to. *)
Definition deliveries (g : log_ctx) (conn : ptls_log_conn_state_t) (sni : option bytes) : result (list Z) :=
  l ← (PTLS_LOG_CONN 1 1000 always 4096 sni (λ _, mret ()) (mkLogEnv g new_point (Some conn) None)).1; Ok (map fst l).
End Evaluations.

(** the filters of a logger do not hold for it alone.  With one logger for a.example and one without a
    filter, an event of a connection to b.example is delivered to both: the bitmap of the connection is
    only taken into account when it is out of date, and the caller has just brought it up to date. *)
Theorem log_filter_ignored :
  Z.testbit (ptls_log_conn_maybe_active two_loggers (ptls_log_init_conn_state 7) (Some (str "b.example"))).1 0 = false /\
  log_fd <$> mjoin (conns two_loggers !! 0%nat) = Some 3 /\
  deliveries two_loggers (ptls_log_init_conn_state 7) (Some (str "b.example")) = Ok [3; 4].
Proof. split; [|split]; vm_compute; reflexivity. Qed.

(** The name of a connection is looked at once per generation: a connection that got its name after its first
    event stays excluded from the logger for that name. *)
Example log_sni_stale :
  let g := add_logger 3 (Some (str "a.example" ++ [0; 0])) None false (log_start false) in
  let before := (ptls_log_conn_maybe_active g (ptls_log_init_conn_state 7) None).2 in
  deliveries g before (Some (str "a.example")) = Ok [] /\
  deliveries g (ptls_log_recalc_conn_state before) (Some (str "a.example")) = Ok [3].
Proof. split; vm_compute; reflexivity. Qed.

(** An address filter none of whose addresses parses lets every connection through. *)
Example log_bad_address_matches_all :
  deliveries (add_logger 3 None (Some (str "192.0.2.300" ++ [0; 0])) false (log_start false)) (ptls_log_init_conn_state 7) None = Ok [3].
Proof. vm_compute. reflexivity. Qed.

(** The random number of a connection can be 1, which no sampling ratio lets through. *)
Example log_random_may_be_one : (random_ (ptls_log_init_conn_state (2 ^ 32 - 1)) == 1)%Q.
Proof. vm_compute. reflexivity. Qed.
