(* ===== verification/KeySchedule.v ===== *)
(** * KeySchedule: the TLS 1.3 key schedule and transcript hashes ([lib/picotls.c])

    The schedule keeps one running hash (two, when ECH is offered) for every hash algorithm that may
    still be selected, and the secret of the current generation.  The hash contexts are the bytes of
    the transcript. *)

From S2P Require Import Prelude Constants Wire Buffer Crypto.

Record key_schedule_hash := mkSlot
  { slot_algo : ptls_hash_algorithm_t; slot_ctx : ptls_hash_context_t;
    slot_ctx_outer : option ptls_hash_context_t }.

(** [num_hashes] is the length of [hashes]. *)
(* src lib/picotls.c:436-444 st_ptls_key_schedule_t *)
Record ptls_key_schedule_t := mkSched
  { generation : Z; ks_secret : bytes; hashes : list key_schedule_hash }.

Definition set_hashes (h : list key_schedule_hash) (s : ptls_key_schedule_t) : ptls_key_schedule_t :=
  mkSched (generation s) (ks_secret s) h.

(** [sched->hashes[0]]: every schedule the code uses has one. *)
Definition no_slot : key_schedule_hash := mkSlot (mkHash 0 0 0 false (λ _, []) []) [] None.
Definition slot0 (s : ptls_key_schedule_t) : key_schedule_hash := hd no_slot (hashes s).
Definition algo0 (s : ptls_key_schedule_t) : ptls_hash_algorithm_t := slot_algo (slot0 s).

(** The first [digest_size] bytes of the secret array. *)
Definition cur_secret (s : ptls_key_schedule_t) : bytes :=
  take (Z.to_nat (digest_size (algo0 s))) (ks_secret s).

(** Writing the secret over the front of the array. *)
Definition store_secret (x : bytes) (s : ptls_key_schedule_t) : ptls_key_schedule_t :=
  mkSched (generation s) (mem_write (ks_secret s) 0 x) (hashes s).

Section Ops.
Context `{Allocator}.

(** The cipher-suites [FOREACH_HASH] visits: the preferred one, and each offered one whose hash is
    neither the preferred one's nor that of an earlier offered one. *)
(* src lib/picotls.c:1324-1343 FOREACH_HASH *)
Definition foreach_hash (preferred : option ptls_cipher_suite_t) (offered : list ptls_cipher_suite_t)
    : list ptls_cipher_suite_t :=
  option_list preferred ++
  (fix go (earlier : list Z) (l : list ptls_cipher_suite_t) : list ptls_cipher_suite_t :=
     match l with
     | [] => []
     | cs :: l =>
         let h := hash_id (cs_hash cs) in
         let rest := go (earlier ++ [h]) l in
         if match preferred with None => true | Some p => negb (h =? hash_id (cs_hash p)) end
         then if bool_decide (h ∈ earlier) then rest else cs :: rest
         else rest
     end) [] offered.

(** [offsetof(ptls_key_schedule_t, hashes)] and [sizeof(hashes[0])]. *)
Definition KEY_SCHEDULE_HASHES_OFFSET : Z := 80.
Definition KEY_SCHEDULE_HASH_SIZE : Z := 24.

Definition new_slot (use_outer : bool) (cs : ptls_cipher_suite_t) : key_schedule_hash :=
  mkSlot (cs_hash cs) [] (if use_outer then Some [] else None).

(** [None] for NULL. *)
(* src lib/picotls.c:1322-1375 key_schedule_new *)
Definition key_schedule_new (preferred : option ptls_cipher_suite_t) (offered : list ptls_cipher_suite_t)
    (use_outer : bool) : option ptls_key_schedule_t :=
  let css := foreach_hash preferred offered in
  match malloc (KEY_SCHEDULE_HASHES_OFFSET + KEY_SCHEDULE_HASH_SIZE * len css) with
  | None => None
  | Some _ =>
      if forallb (λ cs, create_ok (cs_hash cs)) css
      then Some (mkSched 0 zeroes_of_max_digest_size (new_slot use_outer <$> css))
      else None
  end.

(** [ikm] is [None] for a NULL base. *)
(* src lib/picotls.c:1377-1396 key_schedule_extract *)
Definition key_schedule_extract (ikm : option bytes) : M ptls_key_schedule_t unit :=
  s ← gets id;
  let a := algo0 s in
  let ikm := default (take (Z.to_nat (digest_size a)) zeroes_of_max_digest_size) ikm in
  _ ← when (negb (generation s =? 0))
        (x ← lift (ptls_hkdf_expand_label a (digest_size a) (cur_secret s) (str "derived")
                     (empty_digest a) None);
         modify (store_secret x));
  _ ← modify (λ s, mkSched (u32 (generation s + 1)) (ks_secret s) (hashes s));
  s ← gets id;
  x ← lift (ptls_hkdf_extract a (cur_secret s) ikm);
  modify (store_secret x).

(** The slots whose algorithm is [h], with their index. *)
Fixpoint find_slot (h : Z) (i : Z) (l : list key_schedule_hash) : option (Z * key_schedule_hash) :=
  match l with
  | [] => None
  | sl :: l => if hash_id (slot_algo sl) =? h then Some (i, sl) else find_slot h (i + 1) l
  end.

(** When no slot matches, the code reads outside of [hashes]. *)
(* src lib/picotls.c:1398-1433 key_schedule_select_cipher *)
Definition key_schedule_select_cipher (cs : ptls_cipher_suite_t) (reset : bool) (reset_ikm : option bytes)
    : M ptls_key_schedule_t unit :=
  s ← gets id;
  _ ← lift (guard_err (generation s =? 1) ABORTED);
  match find_slot (hash_id (cs_hash cs)) 0 (hashes s) with
  | None => fail ABORTED
  | Some (found_slot, sl) =>
      let reset := reset || negb (found_slot =? 0) in
      _ ← modify (set_hashes [sl]);
      if (reset : bool) then
        _ ← modify (λ s, mkSched (generation s - 1) (replicate (Z.to_nat PTLS_MAX_DIGEST_SIZE) 0) (hashes s));
        key_schedule_extract reset_ikm
      else mret ()
  end.

(* src lib/picotls.c:1435-1446 key_schedule_select_outer *)
Definition key_schedule_select_outer : M ptls_key_schedule_t unit :=
  s ← gets id;
  _ ← lift (guard_err ((generation s =? 1) && (len (hashes s) =? 1)) ABORTED);
  match slot_ctx_outer (slot0 s) with
  | None => fail ABORTED
  | Some outer => modify (set_hashes [mkSlot (algo0 s) outer None])
  end.

(** [use_outer] is given only when the slots have outer contexts. *)
(* src lib/picotls.c:1448-1464 ptls__key_schedule_update_hash *)
Definition ptls__key_schedule_update_hash (msg : bytes) (use_outer : bool) (s : ptls_key_schedule_t)
    : ptls_key_schedule_t :=
  set_hashes
    ((λ sl, if use_outer then mkSlot (slot_algo sl) (slot_ctx sl) ((λ c, c ++ msg) <$> slot_ctx_outer sl)
            else mkSlot (slot_algo sl) (slot_ctx sl ++ msg) (slot_ctx_outer sl)) <$> hashes s) s.

(* src lib/picotls.c:1466-1470 key_schedule_update_ch1hash_prefix *)
Definition key_schedule_update_ch1hash_prefix (s : ptls_key_schedule_t) : ptls_key_schedule_t :=
  ptls__key_schedule_update_hash [PTLS_HANDSHAKE_TYPE_MESSAGE_HASH; 0; 0; u8 (digest_size (algo0 s))] false s.

(** The hash of the first ClientHello; the context restarts empty. *)
(* src lib/picotls.c:1472-1476 key_schedule_extract_ch1hash *)
Definition key_schedule_extract_ch1hash : M ptls_key_schedule_t bytes :=
  s ← gets id;
  _ ← lift (guard_err (bool_decide (slot_ctx_outer (slot0 s) = None)) ABORTED);
  _ ← modify (set_hashes (mkSlot (algo0 s) [] None :: tail (hashes s)));
  mret (digest (algo0 s) (slot_ctx (slot0 s))).

(* src lib/picotls.c:1478-1492 key_schedule_transform_post_ch1hash *)
Definition key_schedule_transform_post_ch1hash (s : ptls_key_schedule_t) : ptls_key_schedule_t :=
  let a := algo0 s in
  let transform := λ ctx,
    [PTLS_HANDSHAKE_TYPE_MESSAGE_HASH; 0; 0; u8 (digest_size a)] ++
    take (Z.to_nat (digest_size a)) (digest a ctx) in
  set_hashes (mkSlot a (transform (slot_ctx (slot0 s))) (transform <$> slot_ctx_outer (slot0 s))
              :: tail (hashes s)) s.

(* src lib/picotls.c:1494-1502 derive_secret_with_hash *)
Definition derive_secret_with_hash (s : ptls_key_schedule_t) (label hash : bytes) : result bytes :=
  ptls_hkdf_expand_label (algo0 s) (digest_size (algo0 s)) (cur_secret s) label hash None.

(* src lib/picotls.c:1504-1512 derive_secret *)
Definition derive_secret (s : ptls_key_schedule_t) (label : bytes) : result bytes :=
  derive_secret_with_hash s label (digest (algo0 s) (slot_ctx (slot0 s))).

(* src lib/picotls.c:1514-1517 derive_secret_with_empty_digest *)
Definition derive_secret_with_empty_digest (s : ptls_key_schedule_t) (label : bytes) : result bytes :=
  derive_secret_with_hash s label (empty_digest (algo0 s)).

(* src lib/picotls.c:1550-1564 derive_resumption_secret *)
Definition derive_resumption_secret (s : ptls_key_schedule_t) (nonce : bytes) : result bytes :=
  secret ← derive_secret s (str "res master");
  ptls_hkdf_expand_label (algo0 s) (digest_size (algo0 s)) secret (str "resumption") nonce None.

(* src lib/picotls.c:1278-1308 ech_calc_confirmation *)
Definition ech_calc_confirmation (s : ptls_key_schedule_t) (inner_random label message : bytes)
    : result bytes :=
  let a := algo0 s in
  _ ← guard_err (create_ok a) PTLS_ERROR_NO_MEMORY;
  let transcript_hash := digest a (slot_ctx (slot0 s) ++ message) in
  secret ← ptls_hkdf_extract a [] inner_random;
  ptls_hkdf_expand_label a 8 secret label transcript_hash None.

(** The signed data: 64 spaces, the context string with its NUL, the transcript hash. *)
(* src lib/picotls.c:1850-1863 build_certificate_verify_signdata *)
Definition build_certificate_verify_signdata (s : ptls_key_schedule_t) (context_string : bytes) : bytes :=
  replicate 64 32 ++ context_string ++ [0] ++ digest (algo0 s) (slot_ctx (slot0 s)).

(* src lib/picotls.c:1865-1887 calc_verify_data *)
Definition calc_verify_data (s : ptls_key_schedule_t) (secret : bytes) : result bytes :=
  let a := algo0 s in
  finished_key ← ptls_hkdf_expand_label a (digest_size a) (take (Z.to_nat (digest_size a)) secret)
                   (str "finished") [] None;
  hmac ← hmac_new a finished_key;
  Ok (hmac_final PTLS_HASH_FINAL_MODE_FREE (hmac_update (digest a (slot_ctx (slot0 s))) hmac)).1.

End Ops.

(** A computation whose only error is that memory ran out. *)
Definition gives {A} (r : result A) (x : A) : Prop := r = Ok x \/ r = Err PTLS_ERROR_NO_MEMORY.

Lemma gives_bind {A B} (r : result A) x (f : A -> result B) y : gives r x -> gives (f x) y -> gives (r ≫= f) y.
Proof. intros [-> | ->] Hf; [exact Hf|by right]. Qed.

(** ** Reference: RFC 8446, section 7.1 *)

Definition Derive_Secret (a : ptls_hash_algorithm_t) (secret label transcript : bytes) : bytes :=
  HKDF_Expand_Label a secret label (digest a transcript) (digest_size a).

Definition zeros (a : ptls_hash_algorithm_t) : bytes := replicate (Z.to_nat (digest_size a)) 0.

(** The secret after the given input key materials, most recent first: early, handshake, master. *)
Fixpoint schedule_secret (a : ptls_hash_algorithm_t) (ikms : list (option bytes)) : bytes :=
  match ikms with
  | [] => zeros a
  | ikm :: older =>
      HKDF_Extract a
        (match older with [] => [] | _ => Derive_Secret a (schedule_secret a older) (str "derived") [] end)
        (default (zeros a) ikm)
  end.

Definition verify_data (a : ptls_hash_algorithm_t) (secret transcript : bytes) : bytes :=
  HMAC a (HKDF_Expand_Label a secret (str "finished") [] (digest_size a)) (digest a transcript).

(** ** The schedule follows the RFC *)

Section Proofs.
Context `{Allocator}.

(** [s] is the schedule of algorithm [a] after the inputs [ikms] (most recent first). *)
Record ks_at (a : ptls_hash_algorithm_t) (ikms : list (option bytes)) (s : ptls_key_schedule_t) : Prop := {
  at_algo : algo0 s = a;
  at_generation : generation s = len ikms;
  at_len : len (ks_secret s) = PTLS_MAX_DIGEST_SIZE;
  at_secret : cur_secret s = schedule_secret a ikms;
}.

Lemma schedule_secret_len a ikms : hash_ok a -> len (schedule_secret a ikms) = digest_size a.
Proof.
  intros Ha. pose proof (digest_size_pos a Ha).
  destruct ikms; cbn [schedule_secret]; [unfold zeros; rewrite len_replicate; lia|by apply HMAC_len].
Qed.

Lemma store_secret_at s x :
  hash_ok (algo0 s) -> len (ks_secret s) = PTLS_MAX_DIGEST_SIZE -> len x = digest_size (algo0 s) ->
  cur_secret (store_secret x s) = x /\ len (ks_secret (store_secret x s)) = PTLS_MAX_DIGEST_SIZE /\
  algo0 (store_secret x s) = algo0 s.
Proof.
  intros Ha Hl Hx. pose proof (digest_size_max _ Ha). unfold cur_secret, store_secret. simpl.
  change (algo0 (mkSched _ _ _)) with (algo0 s). split; [|split; [rewrite len_mem_write; lia|done]].
  pose proof (take_mem_write (ks_secret s) 0 x) as E. rewrite Hx, Z.add_0_l in E.
  rewrite E by lia. done.
Qed.

Lemma expand_label_derived a secret label hash :
  hash_ok a -> len secret = digest_size a -> len hash = digest_size a ->
  len (PTLS_HKDF_EXPAND_LABEL_PREFIX ++ label) < 256 ->
  ptls_hkdf_expand_label a (digest_size a) secret label hash None
  = Ok (HKDF_Expand_Label a secret label hash (digest_size a)) \/
  ptls_hkdf_expand_label a (digest_size a) secret label hash None = Err PTLS_ERROR_NO_MEMORY.
Proof.
  intros Ha Hs Hh Hl. pose proof (digest_size_pos a Ha). pose proof (digest_block a Ha).
  pose proof (digest_size_max a Ha). unfold PTLS_MAX_DIGEST_SIZE in *.
  apply hkdf_expand_label_prefix; (done || lia).
Qed.

Lemma HKDF_Expand_len a prk info outlen : hash_ok a -> 0 <= outlen -> len (HKDF_Expand a prk info outlen) = outlen.
Proof.
  intros Ha Ho. unfold HKDF_Expand. rewrite len_take.
  pose proof (digest_size_pos a Ha) as Hd.
  rewrite (blocks_len _ _ (digest_size a)); [|intros [|i] Hi; [lia|by apply HMAC_len]].
  unfold ceil_div. rewrite !Z2Nat.id; [|apply Z.div_pos; lia|lia].
  pose proof (Z.div_mod (outlen + digest_size a - 1) (digest_size a) ltac:(lia)).
  pose proof (Z.mod_pos_bound (outlen + digest_size a - 1) (digest_size a) ltac:(lia)). nia.
Qed.

Lemma expand_label_len a secret label hash outlen :
  hash_ok a -> 0 <= outlen -> len (HKDF_Expand_Label a secret label hash outlen) = outlen.
Proof. apply HKDF_Expand_len. Qed.

Lemma HKDF_Extract_zeros a ikm : hash_ok a -> HKDF_Extract a (zeros a) ikm = HKDF_Extract a [] ikm.
Proof.
  intros Ha. pose proof (digest_size_pos a Ha). unfold HKDF_Extract, zeros. rewrite len_replicate.
  by rewrite (proj2 (Z.eqb_neq _ _)) by lia.
Qed.

Lemma zeroes_take a : hash_ok a -> take (Z.to_nat (digest_size a)) zeroes_of_max_digest_size = zeros a.
Proof.
  intros Ha. pose proof (digest_size_max a Ha). pose proof (digest_size_pos a Ha).
  unfold zeroes_of_max_digest_size, zeros.
  rewrite take_replicate. f_equal. lia.
Qed.

Lemma key_schedule_extract_at a ikms ikm s :
  hash_ok a -> ks_at a ikms s -> len ikms + 1 < 2 ^ 32 ->
  match key_schedule_extract ikm s with
  | (Ok _, s') => ks_at a (ikm :: ikms) s' /\ hashes s' = hashes s
  | (Err e, s') => e = PTLS_ERROR_NO_MEMORY
  end.
Proof.
  intros Ha [Halg Hgen Hlen Hsec] Hn. pose proof (len_nonneg ikms). pose proof (digest_size_pos a Ha).
  pose proof (digest_block a Ha). pose proof (schedule_secret_len a ikms Ha) as Hsl.
  unfold key_schedule_extract. rewrite M_bind_run. cbn [gets id]. rewrite Halg, zeroes_take by done.
  rewrite M_bind_run.
  (* the secret the extraction is salted with *)
  set (salt := match ikms with [] => zeros a | _ => Derive_Secret a (schedule_secret a ikms) (str "derived") [] end).
  set (w := when _ _).
  assert (match w s with
          | (Ok _, s1) => algo0 s1 = a /\ generation s1 = len ikms /\ hashes s1 = hashes s /\
                          len (ks_secret s1) = PTLS_MAX_DIGEST_SIZE /\ cur_secret s1 = salt
          | (Err e, _) => e = PTLS_ERROR_NO_MEMORY
          end) as Hw.
  { subst w salt. unfold when. rewrite Hgen. destruct ikms as [|k ikms']; [by split_and!|].
    rewrite len_cons in *. pose proof (len_nonneg ikms'). rewrite (proj2 (Z.eqb_neq _ 0)) by lia. cbn [negb].
    rewrite M_bind_run. unfold lift. rewrite Hsec, (empty_digest_spec a Ha).
    destruct (expand_label_derived a (schedule_secret a (k :: ikms')) (str "derived") (digest a []))
      as [-> | ->]; try done; [by apply digest_len|].
    unfold modify.
    destruct (store_secret_at s (Derive_Secret a (schedule_secret a (k :: ikms')) (str "derived") []))
      as (E1 & E2 & E3); [by rewrite Halg|done|rewrite Halg; apply expand_label_len; [done|lia]|].
    by split_and!. }
  destruct (w s) as [[[]|e] s1]; [|done]. destruct Hw as (A1 & A2 & A3 & A4 & A5).
  rewrite M_bind_run. cbn [modify]. rewrite M_bind_run. cbn [gets id]. rewrite M_bind_run. unfold lift.
  set (s2 := mkSched _ _ _). change (cur_secret s2) with (cur_secret s1). rewrite A5.
  assert (len salt = digest_size a) as Hsalt.
  { unfold salt. destruct ikms; [by unfold zeros; rewrite len_replicate; lia|]. apply expand_label_len; [done|lia]. }
  destruct (hkdf_extract_spec a salt (default (zeros a) ikm) Ha) as [-> | ->]; [lia| |done].
  unfold modify.
  destruct (store_secret_at s2 (HKDF_Extract a salt (default (zeros a) ikm))) as (E1 & E2 & E3).
  { unfold s2, algo0, slot0 in *. simpl. by rewrite A1. }
  { done. }
  { change (algo0 s2) with (algo0 s1). rewrite A1. by apply HMAC_len. }
  split; [|exact A3]. split.
  - rewrite E3. exact A1.
  - unfold store_secret, s2. simpl. rewrite A2, len_cons, u32_small by lia. lia.
  - exact E2.
  - rewrite E1. unfold salt. cbn [schedule_secret]. destruct ikms; [by apply HKDF_Extract_zeros|done].
Qed.

(** ** Sequences of operations *)

Inductive ks_op := KsExtract (ikm : option bytes) | KsUpdate (msg : bytes).

Definition run_op (op : ks_op) : M ptls_key_schedule_t unit :=
  match op with
  | KsExtract ikm => key_schedule_extract ikm
  | KsUpdate msg => modify (ptls__key_schedule_update_hash msg false)
  end.

Fixpoint run_ops (ops : list ks_op) : M ptls_key_schedule_t unit :=
  match ops with [] => mret () | op :: ops => _ ← run_op op; run_ops ops end.

Definition op_ikm (op : ks_op) : list (option bytes) := match op with KsExtract ikm => [ikm] | _ => [] end.
Definition op_msg (op : ks_op) : bytes := match op with KsUpdate m => m | _ => [] end.

(** The inputs so far, most recent first, and the transcript. *)
Definition ops_ikms (ops : list ks_op) : list (option bytes) := rev (ops ≫= op_ikm).
Definition ops_transcript (ops : list ks_op) : bytes := concat (op_msg <$> ops).

Definition transcripts (t : bytes) (s : ptls_key_schedule_t) : Prop :=
  Forall (λ sl, slot_ctx sl = t) (hashes s).

Lemma update_hash_algo msg outer s : algo0 (ptls__key_schedule_update_hash msg outer s) = algo0 s.
Proof. unfold algo0, slot0. cbn. destruct (hashes s), outer; done. Qed.

Lemma update_hash_at a ikms msg s :
  ks_at a ikms s -> ks_at a ikms (ptls__key_schedule_update_hash msg false s).
Proof.
  intros [Halg Hgen Hlen Hsec]. assert (algo0 (ptls__key_schedule_update_hash msg false s) = algo0 s) as E.
  { unfold algo0, slot0, ptls__key_schedule_update_hash. simpl. by destruct (hashes s). }
  split; [by rewrite E|done|done|]. unfold cur_secret in *. by rewrite E.
Qed.

Lemma update_hash_transcripts t msg s :
  transcripts t s -> transcripts (t ++ msg) (ptls__key_schedule_update_hash msg false s).
Proof.
  unfold transcripts, ptls__key_schedule_update_hash. simpl. rewrite Forall_fmap.
  intros Ht. eapply Forall_impl; [exact Ht|]. by intros sl <-.
Qed.

Lemma run_ops_at a ops ikms t s :
  hash_ok a -> ks_at a ikms s -> transcripts t s -> len ikms + len ops < 2 ^ 32 ->
  match run_ops ops s with
  | (Ok _, s') => ks_at a (ops_ikms ops ++ ikms) s' /\ transcripts (t ++ ops_transcript ops) s' /\
                  (slot_algo <$> hashes s') = (slot_algo <$> hashes s)
  | (Err e, _) => e = PTLS_ERROR_NO_MEMORY
  end.
Proof.
  intros Ha. revert ikms t s. induction ops as [|op ops IH]; intros ikms t s Hs Ht Hl.
  - cbn. by rewrite app_nil_r.
  - cbn [run_ops]. rewrite M_bind_run. rewrite len_cons in Hl. pose proof (len_nonneg ops).
    destruct op as [ikm|msg]; cbn [run_op].
    + pose proof (key_schedule_extract_at a ikms ikm s Ha Hs ltac:(lia)) as He.
      destruct (key_schedule_extract ikm s) as [[[]|e] s1]; [|done]. destruct He as [Hs1 Hh].
      specialize (IH (ikm :: ikms) t s1 Hs1). unfold transcripts in *. rewrite Hh in IH.
      rewrite len_cons in IH. specialize (IH Ht ltac:(lia)).
      destruct (run_ops ops s1) as [[[]|e] s2]; [|done]. unfold ops_ikms in *. cbn.
      by rewrite <- app_assoc.
    + unfold modify. specialize (IH ikms (t ++ msg) _ (update_hash_at a ikms msg s Hs)).
      specialize (IH (update_hash_transcripts t msg s Ht) ltac:(lia)).
      destruct (run_ops ops _) as [[[]|e] s2]; [|done]. cbn. destruct IH as (? & ? & E).
      rewrite <- app_assoc in *. split_and!; try done. rewrite E. simpl.
      rewrite <- list_fmap_compose. done.
Qed.

Lemma derive_secret_at a ikms t s label :
  hash_ok a -> ks_at a ikms s -> slot_ctx (slot0 s) = t ->
  len (PTLS_HKDF_EXPAND_LABEL_PREFIX ++ label) < 256 ->
  derive_secret s label = Ok (Derive_Secret a (schedule_secret a ikms) label t) \/
  derive_secret s label = Err PTLS_ERROR_NO_MEMORY.
Proof.
  intros Ha [Halg Hgen Hlen Hsec] Ht Hl. unfold derive_secret, derive_secret_with_hash.
  rewrite Halg, Hsec, Ht. apply expand_label_derived; try done; [by apply schedule_secret_len|].
  by apply digest_len.
Qed.

Lemma new_schedule_at preferred offered use_outer s :
  key_schedule_new preferred offered use_outer = Some s -> hash_ok (algo0 s) ->
  ks_at (algo0 s) [] s /\ transcripts [] s /\
  hashes s = new_slot use_outer <$> foreach_hash preferred offered.
Proof.
  intros E Ha. unfold key_schedule_new in E. destruct (malloc _); [|done].
  destruct (forallb _ _); [|done]. injection E as <-. split_and!; try done.
  - split; try done. by apply zeroes_take.
  - unfold transcripts. simpl. rewrite Forall_fmap. apply Forall_true. done.
Qed.

(** C23: the key schedule computes RFC 8446 section 7.1.  From a new schedule, after any interleaving of
    secret extractions and transcript updates, the generation counts the extractions, the secret is
    the early, handshake or master secret of the given inputs, every running hash has exactly the
    transcript, and [derive_secret] gives Derive-Secret of them; the only failure is
    PTLS_ERROR_NO_MEMORY. *)
Theorem key_schedule_rfc8446 preferred offered use_outer s ops label :
  key_schedule_new preferred offered use_outer = Some s -> hashes s <> [] -> hash_ok (algo0 s) ->
  len ops < 2 ^ 32 -> len (PTLS_HKDF_EXPAND_LABEL_PREFIX ++ label) < 256 ->
  match run_ops ops s with
  | (Ok _, s') =>
      generation s' = len (ops_ikms ops) /\
      cur_secret s' = schedule_secret (algo0 s) (ops_ikms ops) /\
      Forall (λ sl, slot_ctx sl = ops_transcript ops) (hashes s') /\
      derive_secret s' label
        ∈ [Ok (Derive_Secret (algo0 s) (schedule_secret (algo0 s) (ops_ikms ops)) label (ops_transcript ops));
           Err PTLS_ERROR_NO_MEMORY]
  | (Err e, _) => e = PTLS_ERROR_NO_MEMORY
  end.
Proof.
  intros E Hne Ha Hl Hlab. destruct (new_schedule_at _ _ _ _ E Ha) as (Hs & Ht & _).
  pose proof (run_ops_at (algo0 s) ops [] [] s Ha Hs Ht) as Hr. rewrite len_nil in Hr.
  specialize (Hr ltac:(lia)). destruct (run_ops ops s) as [[[]|e] s']; [|done].
  destruct Hr as (Hs' & Ht' & Halgs). rewrite app_nil_r in Hs'. cbn [app] in Ht'.
  split; [apply Hs'|]. split; [apply Hs'|]. split; [exact Ht'|].
  assert (slot_ctx (slot0 s') = ops_transcript ops) as Hslot.
  { unfold slot0. unfold transcripts in Ht'. destruct (hashes s') as [|sl l] eqn:Eh; [|by inv Ht'].
    destruct (hashes s); [done|]. done. }
  rewrite !elem_of_cons.
  destruct (derive_secret_at (algo0 s) (ops_ikms ops) _ s' label Ha Hs' Hslot Hlab); tauto.
Qed.

(** ** Selecting the cipher-suite *)

Definition cs_hash_id (cs : ptls_cipher_suite_t) : Z := hash_id (cs_hash cs).

(** The loop of [foreach_hash], named. *)
Definition foreach_offered (preferred : option ptls_cipher_suite_t) :=
  fix go (earlier : list Z) (l : list ptls_cipher_suite_t) : list ptls_cipher_suite_t :=
    match l with
    | [] => []
    | cs :: l =>
        let h := hash_id (cs_hash cs) in
        let rest := go (earlier ++ [h]) l in
        if match preferred with None => true | Some p => negb (h =? hash_id (cs_hash p)) end
        then if bool_decide (h ∈ earlier) then rest else cs :: rest
        else rest
    end.

Lemma foreach_offered_spec preferred earlier l :
  NoDup (cs_hash_id <$> foreach_offered preferred earlier l) /\
  (forall h, h ∈ cs_hash_id <$> foreach_offered preferred earlier l <->
     h ∈ cs_hash_id <$> l /\ h ∉ earlier /\ h ∉ cs_hash_id <$> option_list preferred).
Proof.
  revert earlier. induction l as [|cs l IH]; intros earlier; cbn [foreach_offered].
  - simpl. split; [constructor|set_solver].
  - destruct (IH (earlier ++ [cs_hash_id cs])) as [Hnd Hin].
    set (rest := foreach_offered preferred (earlier ++ [cs_hash_id cs]) l) in *.
    fold (cs_hash_id cs). change (foreach_offered preferred (earlier ++ [cs_hash_id cs]) l) with rest.
    assert (match preferred with None => true | Some p => negb (cs_hash_id cs =? cs_hash_id p) end
            = negb (bool_decide (cs_hash_id cs ∈ cs_hash_id <$> option_list preferred))) as Hp.
    { destruct preferred as [p|]; [|by rewrite bool_decide_eq_false_2 by set_solver].
      destruct (Z.eqb_spec (cs_hash_id cs) (cs_hash_id p)) as [->|];
        [by rewrite bool_decide_eq_true_2 by set_solver|by rewrite bool_decide_eq_false_2 by set_solver]. }
    change (match preferred with None => true | Some p => negb (cs_hash_id cs =? hash_id (cs_hash p)) end)
      with (match preferred with None => true | Some p => negb (cs_hash_id cs =? cs_hash_id p) end).
    rewrite Hp. destruct (bool_decide_reflect (cs_hash_id cs ∈ cs_hash_id <$> option_list preferred));
      cbn [negb].
    { split; [done|]. intros h. rewrite Hin, fmap_cons, elem_of_cons, elem_of_app, list_elem_of_singleton.
      destruct (decide (h = cs_hash_id cs)); naive_solver. }
    destruct (bool_decide_reflect (cs_hash_id cs ∈ earlier)).
    { split; [done|]. intros h. rewrite Hin, fmap_cons, elem_of_cons, elem_of_app, list_elem_of_singleton.
      destruct (decide (h = cs_hash_id cs)); naive_solver. }
    rewrite fmap_cons. split.
    + apply NoDup_cons. split; [|done]. rewrite Hin, elem_of_app, list_elem_of_singleton. naive_solver.
    + intros h. rewrite fmap_cons, !elem_of_cons, Hin, elem_of_app, list_elem_of_singleton.
      destruct (decide (h = cs_hash_id cs)); naive_solver.
Qed.

Lemma foreach_hash_spec preferred offered :
  NoDup (cs_hash_id <$> foreach_hash preferred offered) /\
  (forall cs, cs ∈ option_list preferred ++ offered ->
     cs_hash_id cs ∈ cs_hash_id <$> foreach_hash preferred offered).
Proof.
  change (foreach_hash preferred offered)
    with (option_list preferred ++ foreach_offered preferred [] offered).
  destruct (foreach_offered_spec preferred [] offered) as [Hnd Hin]. rewrite fmap_app. split.
  - apply NoDup_app. split_and!; [destruct preferred; simpl; repeat constructor; set_solver| |done].
    intros h H1 H2. apply Hin in H2. by destruct H2 as (_ & _ & H2).
  - intros cs Hcs. rewrite elem_of_app. rewrite elem_of_app in Hcs.
    destruct (decide (cs_hash_id cs ∈ cs_hash_id <$> option_list preferred)); [by left|right].
    apply Hin. destruct Hcs as [Hc|Hc]; [by apply list_elem_of_fmap_2 with (f := cs_hash_id) in Hc|].
    apply list_elem_of_fmap_2 with (f := cs_hash_id) in Hc. set_solver.
Qed.

Lemma foreach_hash_sub preferred offered c :
  c ∈ foreach_hash preferred offered -> c ∈ option_list preferred ++ offered.
Proof.
  change (foreach_hash preferred offered)
    with (option_list preferred ++ foreach_offered preferred [] offered).
  rewrite !elem_of_app. intros [Hc|Hc]; [by left|right]. revert Hc. generalize (@nil Z).
  induction offered as [|cs l IH]; intros earlier; cbn [foreach_offered]; [done|].
  rewrite elem_of_cons. destruct (match preferred with None => _ | Some _ => _ end); [|naive_solver].
  destruct (bool_decide _); [naive_solver|]. rewrite elem_of_cons. naive_solver.
Qed.

Lemma find_slot_spec h i l :
  h ∈ (hash_id ∘ slot_algo) <$> l ->
  exists j sl, find_slot h i l = Some (j, sl) /\ sl ∈ l /\ hash_id (slot_algo sl) = h /\
    (j = i <-> hash_id (slot_algo (hd no_slot l)) = h) /\ i <= j.
Proof.
  revert i. induction l as [|sl l IH]; intros i Hin; [set_solver|]. cbn [find_slot].
  destruct (Z.eqb_spec (hash_id (slot_algo sl)) h) as [E|E].
  - exists i, sl. split; [done|]. split; [by apply list_elem_of_here|]. split; [done|]. split; [by simpl|lia].
  - destruct (IH (i + 1)) as (j & sl' & -> & Hsl & Hh & _ & Hj); [set_solver|].
    exists j, sl'. split; [done|]. split; [by apply list_elem_of_further|]. split; [done|].
    split; [simpl; split; [lia|done]|lia].
Qed.

Lemma select_cipher_at a ikm0 cs reset reset_ikm t s :
  hash_ok a -> ks_at a [ikm0] s -> transcripts t s -> hash_ok (cs_hash cs) ->
  cs_hash_id cs ∈ (hash_id ∘ slot_algo) <$> hashes s ->
  (forall sl, sl ∈ hashes s -> hash_id (slot_algo sl) = cs_hash_id cs -> slot_algo sl = cs_hash cs) ->
  match key_schedule_select_cipher cs reset reset_ikm s with
  | (Ok _, s') =>
      slot_algo <$> hashes s' = [cs_hash cs] /\ transcripts t s' /\
      ks_at (cs_hash cs)
        [if reset || negb (hash_id a =? cs_hash_id cs) then reset_ikm else ikm0] s'
  | (Err e, _) => e = PTLS_ERROR_NO_MEMORY
  end.
Proof.
  intros Ha [Halg Hgen Hlen Hsec] Ht Hcs Hin Hptr. unfold key_schedule_select_cipher.
  rewrite M_bind_run. cbn [gets id]. rewrite M_bind_run. unfold lift. rewrite Hgen.
  change (len [ikm0] =? 1) with true. cbn [guard_err].
  change (hash_id (cs_hash cs)) with (cs_hash_id cs).
  destruct (find_slot_spec _ 0 _ Hin) as (j & sl & -> & Hsl & Hh & Hj & Hj0).
  pose proof (Hptr sl Hsl Hh) as Hsa. unfold transcripts in *. rewrite Forall_forall in Ht.
  rewrite M_bind_run. unfold modify.
  assert (negb (j =? 0) = negb (hash_id a =? cs_hash_id cs)) as ->.
  { f_equal. apply eq_bool_prop_intro. rewrite !Is_true_true, !Z.eqb_eq, Hj, <- Halg. done. }
  destruct (reset || negb (hash_id a =? cs_hash_id cs)) eqn:Er.
  - rewrite M_bind_run. cbn [fst snd].
    set (s1 := mkSched _ _ _).
    assert (ks_at (cs_hash cs) [] s1) as Hs1.
    { split; [exact Hsa| |done|].
      - unfold s1. simpl. by rewrite Hgen.
      - unfold cur_secret. change (algo0 s1) with (slot_algo sl). rewrite Hsa. by apply zeroes_take. }
    pose proof (key_schedule_extract_at (cs_hash cs) [] reset_ikm s1 Hcs Hs1 ltac:(done)) as He.
    destruct (key_schedule_extract reset_ikm s1) as [[[]|e] s2]; [|done]. destruct He as [He Hh2].
    cbn [fst snd]. split; [rewrite Hh2; unfold s1; simpl; by rewrite Hsa|]. split; [|done].
    rewrite Hh2. constructor; [by apply Ht|constructor].
  - apply orb_false_iff in Er as [_ Er]. apply negb_false_iff, Z.eqb_eq in Er.
    cbn [set_hashes hashes]. split; [simpl; by rewrite Hsa|]. split; [constructor; [by apply Ht|constructor]|].
    assert (algo0 s = cs_hash cs) as Ha0.
    { assert (hd no_slot (hashes s) ∈ hashes s) as Hd by (destruct (hashes s); [set_solver|simpl; set_solver]).
      apply Hptr; [done|]. by rewrite <- Er, <- Halg. }
    assert (a = cs_hash cs) as Hae by congruence. unfold cur_secret in Hsec. rewrite Ha0, Hae in Hsec.
    split; [exact Hsa|done|done|]. unfold cur_secret.
    change (algo0 (set_hashes [sl] s)) with (slot_algo sl). by rewrite Hsa.
Qed.

(** selecting the cipher-suite in the ServerHello.  Start a schedule for any preferred and offered
    suites, extract the early secret once among any transcript updates, and select one of the suites:
    what is left is one running hash, of the selected suite, with the whole transcript, and the early
    secret is the one that suite's hash gives -- recomputed from [reset_ikm] if the hash is not the
    one used so far or a reset is asked for. *)
Theorem key_schedule_select_correct preferred offered use_outer s ops ikm0 cs reset reset_ikm :
  key_schedule_new preferred offered use_outer = Some s ->
  cs ∈ option_list preferred ++ offered -> hash_ok (algo0 s) -> hash_ok (cs_hash cs) ->
  (forall c, c ∈ option_list preferred ++ offered -> cs_hash_id c = cs_hash_id cs -> cs_hash c = cs_hash cs) ->
  ops_ikms ops = [ikm0] -> len ops < 2 ^ 32 ->
  match (_ ← run_ops ops; key_schedule_select_cipher cs reset reset_ikm) s with
  | (Ok _, s') =>
      slot_algo <$> hashes s' = [cs_hash cs] /\
      Forall (λ sl, slot_ctx sl = ops_transcript ops) (hashes s') /\
      generation s' = 1 /\
      cur_secret s' = schedule_secret (cs_hash cs)
        [if reset || negb (hash_id (algo0 s) =? cs_hash_id cs) then reset_ikm else ikm0]
  | (Err e, _) => e = PTLS_ERROR_NO_MEMORY
  end.
Proof.
  intros E Hcs Ha Hac Hptr Hops Hl. destruct (new_schedule_at _ _ _ _ E Ha) as (Hs & Ht & Hh).
  rewrite M_bind_run. pose proof (run_ops_at (algo0 s) ops [] [] s Ha Hs Ht) as Hr. rewrite len_nil in Hr.
  specialize (Hr ltac:(lia)). destruct (run_ops ops s) as [[[]|e] s1]; [|done].
  destruct Hr as (Hs1 & Ht1 & Halgs). rewrite Hops, app_nil_r in *. cbn [app] in Ht1.
  assert (slot_algo <$> hashes s1 = cs_hash <$> foreach_hash preferred offered) as Hal.
  { rewrite Halgs, Hh, <- list_fmap_compose. done. }
  assert (cs_hash_id cs ∈ (hash_id ∘ slot_algo) <$> hashes s1) as Hin.
  { rewrite list_fmap_compose, Hal, <- list_fmap_compose. by apply foreach_hash_spec. }
  assert (forall sl, sl ∈ hashes s1 -> hash_id (slot_algo sl) = cs_hash_id cs -> slot_algo sl = cs_hash cs)
    as Hslots.
  { intros sl Hsl Hid.
    assert (slot_algo sl ∈ cs_hash <$> foreach_hash preferred offered) as Hsl'
      by (rewrite <- Hal; by apply list_elem_of_fmap_2).
    apply list_elem_of_fmap in Hsl' as (c & Ec & Hc). rewrite Ec.
    apply Hptr; [by apply foreach_hash_sub|by unfold cs_hash_id; rewrite <- Ec]. }
  pose proof (select_cipher_at (algo0 s) ikm0 cs reset reset_ikm (ops_transcript ops) s1
    Ha Hs1 Ht1 Hac Hin Hslots) as Hsel.
  destruct (key_schedule_select_cipher cs reset reset_ikm s1) as [[[]|e] s']; [|done].
  by destruct Hsel as (H1 & H2 & [H3 H4 H5 H6]).
Qed.

(** ** Finished *)

Lemma calc_verify_data_spec s secret a t :
  hash_ok a -> algo0 s = a -> slot_ctx (slot0 s) = t -> digest_size a <= len secret ->
  calc_verify_data s secret = Ok (verify_data a (take (Z.to_nat (digest_size a)) secret) t) \/
  calc_verify_data s secret = Err PTLS_ERROR_NO_MEMORY.
Proof.
  intros Ha Halg Ht Hs. unfold calc_verify_data. rewrite Halg, Ht.
  pose proof (digest_size_pos a Ha). pose proof (digest_block a Ha).
  destruct (hkdf_expand_label_prefix a (take (Z.to_nat (digest_size a)) secret) (str "finished") []
    (digest_size a) None Ha) as [-> | ->]; try done; try lia; [rewrite len_take; lia| |by right].
  cbn [mbind result_bind]. set (key := HKDF_Expand _ _ _ _).
  assert (len key = digest_size a) as Hk by (apply expand_label_len; [done|lia]).
  destruct (hmac_new_at a key) as [(c & -> & Hc)| ->]; [lia| |by right]. left. cbn [mbind result_bind].
  apply (hmac_update_at _ _ _ (digest a t)) in Hc.
  destruct (hmac_final_at _ _ _ _ PTLS_HASH_FINAL_MODE_FREE Hc) as [E _]. by rewrite E.
Qed.

(** ** The schedule of one algorithm, with its transcript *)

Record sched_at (a : ptls_hash_algorithm_t) (ikms : list (option bytes)) (tr : bytes) (s : ptls_key_schedule_t) : Prop := {
  sa_ks : ks_at a ikms s;
  sa_transcript : slot_ctx (slot0 s) = tr;
  sa_slots : hashes s <> [];
}.

Lemma sched_update a ikms tr msg s :
  sched_at a ikms tr s -> sched_at a ikms (tr ++ msg) (ptls__key_schedule_update_hash msg false s).
Proof.
  intros [Hk Ht Hs]. split; [by apply update_hash_at| |]; unfold slot0, ptls__key_schedule_update_hash in *; cbn in *;
    destruct (hashes s); try done. cbn in *. by rewrite Ht.
Qed.

Lemma sched_extract a ikms tr ikm s :
  hash_ok a -> sched_at a ikms tr s -> len ikms + 1 < 2 ^ 32 ->
  match key_schedule_extract ikm s with
  | (Ok _, s') => sched_at a (ikm :: ikms) tr s'
  | (Err e, _) => e = PTLS_ERROR_NO_MEMORY
  end.
Proof.
  intros Ha [Hk Ht Hs] Hl. pose proof (key_schedule_extract_at a ikms ikm s Ha Hk Hl) as He.
  destruct (key_schedule_extract ikm s) as [[[]|e] s']; [|done]. destruct He as [Hk' Hh].
  split; [done| |by rewrite Hh]. unfold slot0 in *. by rewrite Hh.
Qed.

Lemma sched_derive a ikms tr s label :
  hash_ok a -> sched_at a ikms tr s -> len (PTLS_HKDF_EXPAND_LABEL_PREFIX ++ label) < 256 ->
  gives (derive_secret s label) (Derive_Secret a (schedule_secret a ikms) label tr).
Proof. intros Ha [Hk Ht _] Hl. exact (derive_secret_at a ikms tr s label Ha Hk Ht Hl). Qed.

Lemma sched_derive_empty a ikms tr s label :
  hash_ok a -> sched_at a ikms tr s -> len (PTLS_HKDF_EXPAND_LABEL_PREFIX ++ label) < 256 ->
  gives (derive_secret_with_empty_digest s label) (Derive_Secret a (schedule_secret a ikms) label []).
Proof.
  intros Ha [[Halg _ _ Hsec] _ _] Hl. unfold derive_secret_with_empty_digest, derive_secret_with_hash.
  rewrite Halg, Hsec, (empty_digest_spec a Ha). apply expand_label_derived; try done; [by apply schedule_secret_len|by apply digest_len].
Qed.

Lemma sched_verify a ikms tr s secret :
  hash_ok a -> sched_at a ikms tr s -> digest_size a <= len secret ->
  gives (calc_verify_data s secret) (verify_data a (take (Z.to_nat (digest_size a)) secret) tr).
Proof. intros Ha [[Halg _ _ _] Ht _] Hl. exact (calc_verify_data_spec s secret a tr Ha Halg Ht Hl). Qed.

Lemma sched_algo a ikms tr s : sched_at a ikms tr s -> algo0 s = a.
Proof. intros [[Halg _ _ _] _ _]. exact Halg. Qed.

End Proofs.

(** ** Witnesses *)

(** A second toy hash, with the digest of [toy_hash] reversed and a larger block. *)
Definition toy_hash2 : ptls_hash_algorithm_t :=
  mkHash 2 32 8 true (λ m, rev (digest toy_hash m)) (rev (digest toy_hash [])).

Lemma toy_hash2_ok : hash_ok toy_hash2.
Proof.
  split; try done; intros m; cbn [digest toy_hash2].
  apply Forall_rev. apply (digest_bytes toy_hash toy_hash_ok).
Qed.

Definition toy_suite : ptls_cipher_suite_t := mkSuite 0x1301 toy_aead toy_hash.
Definition toy_suite2 : ptls_cipher_suite_t := mkSuite 0x1302 toy_aead toy_hash2.

Definition toy_sched : ptls_key_schedule_t :=
  mkSched 0 zeroes_of_max_digest_size [mkSlot toy_hash [] None; mkSlot toy_hash2 [] None].

Lemma toy_sched_new :
  @key_schedule_new bump_allocator (Some toy_suite) [toy_suite; toy_suite2] false = Some toy_sched.
Proof. vm_compute. reflexivity. Qed.

Definition toy_ops : list ks_op := [KsUpdate (str "hello"); KsExtract None; KsUpdate (str "there")].

Lemma key_schedule_rfc8446_witness :
  match @run_ops bump_allocator toy_ops toy_sched with
  | (Ok _, s') =>
      generation s' = len (ops_ikms toy_ops) /\
      cur_secret s' = schedule_secret (algo0 toy_sched) (ops_ikms toy_ops) /\
      Forall (λ sl, slot_ctx sl = ops_transcript toy_ops) (hashes s') /\
      @derive_secret bump_allocator s' (str "c hs traffic")
        ∈ [Ok (Derive_Secret (algo0 toy_sched) (schedule_secret (algo0 toy_sched) (ops_ikms toy_ops))
                 (str "c hs traffic") (ops_transcript toy_ops));
           Err PTLS_ERROR_NO_MEMORY]
  | (Err e, _) => e = PTLS_ERROR_NO_MEMORY
  end.
Proof.
  apply (@key_schedule_rfc8446 bump_allocator (Some toy_suite) [toy_suite; toy_suite2] false toy_sched);
    [apply toy_sched_new|discriminate|apply toy_hash_ok|vm_compute; reflexivity|vm_compute; reflexivity].
Defined.

Lemma key_schedule_select_correct_witness :
  match (_ ← @run_ops bump_allocator toy_ops;
         @key_schedule_select_cipher bump_allocator toy_suite2 false (Some (str "psk"))) toy_sched with
  | (Ok _, s') =>
      slot_algo <$> hashes s' = [cs_hash toy_suite2] /\
      Forall (λ sl, slot_ctx sl = ops_transcript toy_ops) (hashes s') /\
      generation s' = 1 /\
      cur_secret s' = schedule_secret (cs_hash toy_suite2)
        [if false || negb (hash_id (algo0 toy_sched) =? cs_hash_id toy_suite2)
         then Some (str "psk") else None]
  | (Err e, _) => e = PTLS_ERROR_NO_MEMORY
  end.
Proof.
  apply (@key_schedule_select_correct bump_allocator (Some toy_suite) [toy_suite; toy_suite2] false toy_sched
    toy_ops None toy_suite2 false (Some (str "psk"))).
  - apply toy_sched_new.
  - simpl. set_solver.
  - apply toy_hash_ok.
  - apply toy_hash2_ok.
  - intros c Hc. simpl in Hc. rewrite !elem_of_cons in Hc.
    destruct Hc as [->|[->|[->|Hc]]]; [discriminate|discriminate|done|set_solver].
  - reflexivity.
  - vm_compute. reflexivity.
Defined.
