(* ===== verification/Tls.v ===== *)
(** * Tls: the connection object and what it refers to ([lib/picotls.c], [include/zpicotls.h])

    The state of a connection ([ptls_t]) and the parts of [ptls_context_t] the modelled code reads.
    The callbacks of the context are the application's or the backend's: they are fields, [None] when
    the pointer is NULL.  Fields that only serve logging are left out. *)

From S2P Require Import Prelude Constants Wire Buffer Crypto KeySchedule.

(** ** Key exchanges and HPKE

    [on_exchange] gives the secret from the peer's key; of [algo], the id is kept. *)
(* src include/zpicotls.h:367-384 ptls_key_exchange_context_t *)
Record ptls_key_exchange_context_t := mkKexCtx {
  kctx_id : Z; pubkey : bytes; on_exchange : bytes -> result bytes }.

(** [kex_create] is what [create] gives during the call; [kex_exchange] gives, from the peer's key, the
    public key to send and the secret. *)
(* src include/zpicotls.h:389-416 ptls_key_exchange_algorithm_t *)
Record ptls_key_exchange_algorithm_t := mkKex {
  kex_id : Z;
  kex_create : result ptls_key_exchange_context_t;
  kex_exchange : bytes -> result (bytes * bytes);
}.

(* src include/zpicotls.h:688-692 st_ptls_hpke_kem_t *)
Record ptls_hpke_kem_t := mkKem { kem_id : Z; keyex : ptls_key_exchange_algorithm_t; kem_hash : ptls_hash_algorithm_t }.

(* src include/zpicotls.h:694-704 st_ptls_hpke_cipher_suite_t *)
Record ptls_hpke_cipher_suite_t := mkHpkeSuite {
  hpke_kdf : Z; hpke_aead_id : Z; hpke_hash : ptls_hash_algorithm_t; hpke_aead : ptls_aead_algorithm_t }.

(** ** The context *)

(** The callback [verify_certificate]: from the server name and the certificates, an error or the
    function that will verify the signature (none, if the callback sets none). *)
(* src include/zpicotls.h:815-824 ptls_verify_certificate_t *)
Record ptls_verify_certificate_t := mkVerify {
  verify_cb : option bytes -> list bytes -> result (option (Z -> bytes -> bytes -> Z)); verify_algos : list Z }.

(** [decompress_cb algo size input] writes [size] bytes. *)
(* src include/zpicotls.h:858-868 ptls_decompress_certificate_t *)
Record ptls_decompress_certificate_t := mkDecompress {
  supported_algorithms : list Z; decompress_cb : Z -> Z -> bytes -> result bytes }.

(** [ptls_iovec_init(NULL, 0)] in a field that is tested for NULL is [None].  Callbacks are functions
    of what they are given, their results those of the current call: the clock, the signer (the
    algorithm and the signature), the cipher of the tickets (a code, and the bytes it appends). *)
(* src include/zpicotls.h:880-1083 st_ptls_context_t *)
Record ptls_context_t := mkCtx {
  get_time : Z;
  key_exchanges : option (list ptls_key_exchange_algorithm_t);
  cipher_suites : list ptls_cipher_suite_t;
  tls12_cipher_suites : list ptls_cipher_suite_t;
  certificates : list bytes;
  psk_identity : option bytes; (* [pre_shared_key] *)
  psk_secret : option bytes;
  psk_hash : option ptls_hash_algorithm_t;
  ech_client_ciphers : option (list ptls_hpke_cipher_suite_t); (* [ech.client] *)
  ech_client_kems : list ptls_hpke_kem_t;
  ech_create_opener : option (Z -> Z * Z -> bytes -> bytes -> option (ptls_hpke_kem_t * ptls_hpke_cipher_suite_t * ptls_aead_context_t)); (* [ech.server] *)
  ech_retry_configs : bytes;
  sign_certificate : option (list Z -> bytes -> result (Z * bytes));
  verify_certificate : option ptls_verify_certificate_t;
  ticket_lifetime : Z;
  max_early_data_size : Z;
  max_buffer_size : Z;
  hkdf_label_prefix__obsolete : option bytes;
  require_dhe_on_psk : bool;
  use_exporter : bool;
  ctx_send_change_cipher_spec : bool;
  require_client_authentication : bool;
  omit_end_of_early_data : bool;
  use_raw_public_keys : bool;
  server_cipher_preference : bool;
  server_cipher_chacha_priority : bool;
  encrypt_ticket : option (bool -> bytes -> Z * bytes);
  save_ticket : option (bytes -> Z);
  update_traffic_key : option (bool -> Z -> bytes -> Z);
  decompress_certificate : option ptls_decompress_certificate_t;
  on_extension : option (Z -> Z -> bytes -> Z);
  ticket_context : option bytes; (* [ticket_context.bytes], when [is_set] *)
  client_ca_names : list bytes;
  new_session_count : Z; (* [ticket_requests.client] *)
  resumption_count : Z;
  max_ticket_count : Z; (* [ticket_requests.server.max_count] *)
}.

Definition set_get_time (x : Z) (s : ptls_context_t) : ptls_context_t :=
  mkCtx
    x (key_exchanges s) (cipher_suites s) (tls12_cipher_suites s) (certificates s) (psk_identity s)
    (psk_secret s) (psk_hash s) (ech_client_ciphers s) (ech_client_kems s) (ech_create_opener s)
    (ech_retry_configs s) (sign_certificate s) (verify_certificate s) (ticket_lifetime s)
    (max_early_data_size s) (max_buffer_size s) (hkdf_label_prefix__obsolete s)
    (require_dhe_on_psk s) (use_exporter s) (ctx_send_change_cipher_spec s)
    (require_client_authentication s) (omit_end_of_early_data s) (use_raw_public_keys s)
    (server_cipher_preference s) (server_cipher_chacha_priority s) (encrypt_ticket s)
    (save_ticket s) (update_traffic_key s) (decompress_certificate s) (on_extension s)
    (ticket_context s) (client_ca_names s) (new_session_count s) (resumption_count s)
    (max_ticket_count s).

(** Everything zero or NULL. *)
Definition null_context : ptls_context_t :=
  mkCtx 0 None [] [] [] None None None None [] None [] None None 0 0 0 None false false false false false false
    false false None None None None None None [] 0 0 0.

(** The algorithms behind a pointer that is not NULL. *)
Definition kex_list (c : ptls_context_t) : list ptls_key_exchange_algorithm_t := default [] (key_exchanges c).

(** ** Properties of a handshake *)

(* src include/zpicotls.h:1090-1094 ptls_early_data_acceptance_t *)
Inductive ptls_early_data_acceptance_t :=
| PTLS_EARLY_DATA_ACCEPTANCE_UNKNOWN
| PTLS_EARLY_DATA_REJECTED
| PTLS_EARLY_DATA_ACCEPTED.

(** The client and the server part of the union are kept side by side.  The pointers the code writes
    through hold the value written: [max_early_data_ptr] and [retry_configs] are [None] when NULL. *)
(* src include/zpicotls.h:1104-1194 st_ptls_handshake_properties_t *)
Record ptls_handshake_properties_t := mkProps {
  negotiated_protocols : list bytes;
  session_ticket : option bytes;
  max_early_data_ptr : option Z;
  early_data_acceptance : ptls_early_data_acceptance_t;
  negotiate_before_key_exchange : bool;
  ech_configs : option bytes;
  retry_configs : option bytes;
  selected_psk_binder : bytes;
  cookie_key : option bytes;
  cookie_additional_data : bytes;
  enforce_retry : bool;
  retry_uses_cookie : bool;
  additional_extensions : list (Z * bytes);
  collect_extension : option (Z -> bool);
  collected_extensions : list (Z * bytes) -> Z;
}.

Definition set_max_early_data_ptr (x : option Z) (s : ptls_handshake_properties_t) : ptls_handshake_properties_t :=
  mkProps
    (negotiated_protocols s) (session_ticket s) x (early_data_acceptance s)
    (negotiate_before_key_exchange s) (ech_configs s) (retry_configs s) (selected_psk_binder s)
    (cookie_key s) (cookie_additional_data s) (enforce_retry s) (retry_uses_cookie s)
    (additional_extensions s) (collect_extension s) (collected_extensions s).
Definition set_early_data_acceptance (x : ptls_early_data_acceptance_t) (s : ptls_handshake_properties_t) : ptls_handshake_properties_t :=
  mkProps
    (negotiated_protocols s) (session_ticket s) (max_early_data_ptr s) x
    (negotiate_before_key_exchange s) (ech_configs s) (retry_configs s) (selected_psk_binder s)
    (cookie_key s) (cookie_additional_data s) (enforce_retry s) (retry_uses_cookie s)
    (additional_extensions s) (collect_extension s) (collected_extensions s).
Definition set_retry_configs (x : option bytes) (s : ptls_handshake_properties_t) : ptls_handshake_properties_t :=
  mkProps
    (negotiated_protocols s) (session_ticket s) (max_early_data_ptr s) (early_data_acceptance s)
    (negotiate_before_key_exchange s) (ech_configs s) x (selected_psk_binder s) (cookie_key s)
    (cookie_additional_data s) (enforce_retry s) (retry_uses_cookie s) (additional_extensions s)
    (collect_extension s) (collected_extensions s).
Definition set_selected_psk_binder (x : bytes) (s : ptls_handshake_properties_t) : ptls_handshake_properties_t :=
  mkProps
    (negotiated_protocols s) (session_ticket s) (max_early_data_ptr s) (early_data_acceptance s)
    (negotiate_before_key_exchange s) (ech_configs s) (retry_configs s) x (cookie_key s)
    (cookie_additional_data s) (enforce_retry s) (retry_uses_cookie s) (additional_extensions s)
    (collect_extension s) (collected_extensions s).

(** ** Connections *)

(* src lib/picotls.c:217-237 en_ptls_state_t *)
Inductive en_ptls_state_t :=
| PTLS_STATE_CLIENT_HANDSHAKE_START
| PTLS_STATE_CLIENT_EXPECT_SERVER_HELLO
| PTLS_STATE_CLIENT_EXPECT_SECOND_SERVER_HELLO
| PTLS_STATE_CLIENT_EXPECT_ENCRYPTED_EXTENSIONS
| PTLS_STATE_CLIENT_EXPECT_CERTIFICATE_REQUEST_OR_CERTIFICATE
| PTLS_STATE_CLIENT_EXPECT_CERTIFICATE
| PTLS_STATE_CLIENT_EXPECT_CERTIFICATE_VERIFY
| PTLS_STATE_CLIENT_EXPECT_FINISHED
| PTLS_STATE_SERVER_EXPECT_CLIENT_HELLO
| PTLS_STATE_SERVER_EXPECT_SECOND_CLIENT_HELLO
| PTLS_STATE_SERVER_GENERATING_CERTIFICATE_VERIFY
| PTLS_STATE_SERVER_EXPECT_CERTIFICATE
| PTLS_STATE_SERVER_EXPECT_CERTIFICATE_VERIFY
| PTLS_STATE_SERVER_EXPECT_END_OF_EARLY_DATA
| PTLS_STATE_SERVER_EXPECT_FINISHED
| PTLS_STATE_CLIENT_POST_HANDSHAKE
| PTLS_STATE_SERVER_POST_HANDSHAKE.

#[global] Instance state_eq_dec : EqDecision en_ptls_state_t.
Proof. solve_decision. Defined.

(** The value of the enumerator; [PTLS_STATE_POST_HANDSHAKE_MIN] is the first post-handshake state. *)
Definition state_value (s : en_ptls_state_t) : Z :=
  match s with
  | PTLS_STATE_CLIENT_HANDSHAKE_START => 0
  | PTLS_STATE_CLIENT_EXPECT_SERVER_HELLO => 1
  | PTLS_STATE_CLIENT_EXPECT_SECOND_SERVER_HELLO => 2
  | PTLS_STATE_CLIENT_EXPECT_ENCRYPTED_EXTENSIONS => 3
  | PTLS_STATE_CLIENT_EXPECT_CERTIFICATE_REQUEST_OR_CERTIFICATE => 4
  | PTLS_STATE_CLIENT_EXPECT_CERTIFICATE => 5
  | PTLS_STATE_CLIENT_EXPECT_CERTIFICATE_VERIFY => 6
  | PTLS_STATE_CLIENT_EXPECT_FINISHED => 7
  | PTLS_STATE_SERVER_EXPECT_CLIENT_HELLO => 8
  | PTLS_STATE_SERVER_EXPECT_SECOND_CLIENT_HELLO => 9
  | PTLS_STATE_SERVER_GENERATING_CERTIFICATE_VERIFY => 10
  | PTLS_STATE_SERVER_EXPECT_CERTIFICATE => 11
  | PTLS_STATE_SERVER_EXPECT_CERTIFICATE_VERIFY => 12
  | PTLS_STATE_SERVER_EXPECT_END_OF_EARLY_DATA => 13
  | PTLS_STATE_SERVER_EXPECT_FINISHED => 14
  | PTLS_STATE_CLIENT_POST_HANDSHAKE => 15
  | PTLS_STATE_SERVER_POST_HANDSHAKE => 16
  end.
Definition PTLS_STATE_POST_HANDSHAKE_MIN : Z := state_value PTLS_STATE_CLIENT_POST_HANDSHAKE.

Definition is_post_handshake (s : en_ptls_state_t) : bool := PTLS_STATE_POST_HANDSHAKE_MIN <=? state_value s.

(* src lib/picotls.c:141-149 st_ptls_traffic_protection_t *)
Record st_ptls_traffic_protection_t := mkTp {
  tp_secret : bytes; (* [PTLS_MAX_DIGEST_SIZE] bytes *)
  epoch : Z;
  aead : option ptls_aead_context_t;
  seq : Z;
  tls12 : bool;
  tls12_enc_record_iv : Z;
}.

Definition set_tp_secret (x : bytes) (s : st_ptls_traffic_protection_t) : st_ptls_traffic_protection_t :=
  mkTp
    x (epoch s) (aead s) (seq s) (tls12 s) (tls12_enc_record_iv s).
Definition set_epoch (x : Z) (s : st_ptls_traffic_protection_t) : st_ptls_traffic_protection_t :=
  mkTp
    (tp_secret s) x (aead s) (seq s) (tls12 s) (tls12_enc_record_iv s).
Definition set_aead (x : option ptls_aead_context_t) (s : st_ptls_traffic_protection_t) : st_ptls_traffic_protection_t :=
  mkTp
    (tp_secret s) (epoch s) x (seq s) (tls12 s) (tls12_enc_record_iv s).
Definition set_seq (x : Z) (s : st_ptls_traffic_protection_t) : st_ptls_traffic_protection_t :=
  mkTp
    (tp_secret s) (epoch s) (aead s) x (tls12 s) (tls12_enc_record_iv s).
Definition set_tls12_enc_record_iv (x : Z) (s : st_ptls_traffic_protection_t) : st_ptls_traffic_protection_t :=
  mkTp
    (tp_secret s) (epoch s) (aead s) (seq s) (tls12 s) x.

(** All zeros. *)
Definition no_traffic_protection : st_ptls_traffic_protection_t :=
  mkTp (replicate (Z.to_nat PTLS_MAX_DIGEST_SIZE) 0) 0 None 0 false 0.

(* src lib/picotls.c:187-192 en_ptls_ech_state_t *)
Inductive en_ptls_ech_state_t :=
| PTLS_ECH_STATE_NONE
| PTLS_ECH_STATE_OFFERED
| PTLS_ECH_STATE_ACCEPTED
| PTLS_ECH_STATE_GREASE.

#[global] Instance ech_state_eq_dec : EqDecision en_ptls_ech_state_t.
Proof. solve_decision. Defined.

(** The fields of [client] are side by side with the others. *)
(* src lib/picotls.c:182-207 st_ptls_ech_t *)
Record st_ptls_ech_t := mkEch {
  ech_state : en_ptls_ech_state_t;
  ech_config_id : Z;
  ech_kem : option ptls_hpke_kem_t;
  ech_cipher : option ptls_hpke_cipher_suite_t;
  ech_aead : option ptls_aead_context_t;
  inner_client_random : bytes;
  ech_enc : bytes; (* [client.enc] *)
  max_name_length : Z;
  public_name : option bytes;
  first_ech : option bytes;
}.

Definition set_ech_state (x : en_ptls_ech_state_t) (s : st_ptls_ech_t) : st_ptls_ech_t :=
  mkEch
    x (ech_config_id s) (ech_kem s) (ech_cipher s) (ech_aead s) (inner_client_random s) (ech_enc s)
    (max_name_length s) (public_name s) (first_ech s).

Definition set_ech_aead (x : option ptls_aead_context_t) (s : st_ptls_ech_t) : st_ptls_ech_t :=
  mkEch
    (ech_state s) (ech_config_id s) (ech_kem s) (ech_cipher s) x (inner_client_random s)
    (ech_enc s) (max_name_length s) (public_name s) (first_ech s).
Definition set_first_ech (x : option bytes) (s : st_ptls_ech_t) : st_ptls_ech_t :=
  mkEch
    (ech_state s) (ech_config_id s) (ech_kem s) (ech_cipher s) (ech_aead s) (inner_client_random s)
    (ech_enc s) (max_name_length s) (public_name s) x.
Definition set_inner_client_random (x : bytes) (s : st_ptls_ech_t) : st_ptls_ech_t :=
  mkEch
    (ech_state s) (ech_config_id s) (ech_kem s) (ech_cipher s) (ech_aead s) x (ech_enc s)
    (max_name_length s) (public_name s) (first_ech s).
Definition set_ech_kem (x : option ptls_hpke_kem_t) (s : st_ptls_ech_t) : st_ptls_ech_t :=
  mkEch
    (ech_state s) (ech_config_id s) x (ech_cipher s) (ech_aead s) (inner_client_random s)
    (ech_enc s) (max_name_length s) (public_name s) (first_ech s).
Definition set_ech_cipher (x : option ptls_hpke_cipher_suite_t) (s : st_ptls_ech_t) : st_ptls_ech_t :=
  mkEch
    (ech_state s) (ech_config_id s) (ech_kem s) x (ech_aead s) (inner_client_random s) (ech_enc s)
    (max_name_length s) (public_name s) (first_ech s).

Definition no_ech : st_ptls_ech_t :=
  mkEch PTLS_ECH_STATE_NONE 0 None None None (replicate (Z.to_nat PTLS_HELLO_RANDOM_SIZE) 0) [] 0 None None.

(** The fields of the client and of the server part of the union are kept side by side.  Of the
    asynchronous job, only the result of the signer is modelled. *)
(* src lib/picotls.c:209-343 st_ptls_t *)
Record ptls_t := mkTls {
  ctx : ptls_context_t;
  state : en_ptls_state_t;
  recv_rec : ptls_buffer_t; (* [recvbuf.rec] *)
  recv_mess : ptls_buffer_t; (* [recvbuf.mess] *)
  key_schedule : option ptls_key_schedule_t;
  dec : st_ptls_traffic_protection_t; (* [traffic_protection.dec] *)
  enc : st_ptls_traffic_protection_t; (* [traffic_protection.enc] *)
  server_name : option bytes;
  negotiated_protocol : option bytes;
  key_share : option ptls_key_exchange_algorithm_t;
  cipher_suite : option ptls_cipher_suite_t;
  client_random : bytes;
  exporter_early : option bytes; (* [exporter_master_secret.early] *)
  exporter_one_rtt : option bytes; (* [exporter_master_secret.one_rtt] *)
  ech : st_ptls_ech_t;
  is_server : bool;
  is_psk_handshake : bool;
  send_change_cipher_spec : bool;
  needs_key_update : bool;
  key_update_send_request : bool;
  tx_detached : bool;
  detached_tx_protocol_version : Z;
  key_update_requests : Z;
  legacy_session_id : bytes; (* client *)
  key_share_ctx : option ptls_key_exchange_context_t; (* client *)
  offered_psk : bool; (* client *)
  using_early_data : bool; (* client *)
  certificate_request : option (bytes * list Z); (* client: the context and the signature algorithms *)
  pending_traffic_secret : bytes; (* server *)
  early_data_skipped_bytes : Z; (* server *)
  num_tickets_to_send : Z; (* server *)
  certificate_verify : option (Z -> bytes -> bytes -> Z); (* [certificate_verify.cb] *)
  pending_handshake_secret : option bytes;
}.

Definition set_ctx (x : ptls_context_t) (s : ptls_t) : ptls_t :=
  mkTls
    x (state s) (recv_rec s) (recv_mess s) (key_schedule s) (dec s) (enc s) (server_name s)
    (negotiated_protocol s) (key_share s) (cipher_suite s) (client_random s) (exporter_early s)
    (exporter_one_rtt s) (ech s) (is_server s) (is_psk_handshake s) (send_change_cipher_spec s)
    (needs_key_update s) (key_update_send_request s) (tx_detached s)
    (detached_tx_protocol_version s) (key_update_requests s) (legacy_session_id s) (key_share_ctx s)
    (offered_psk s) (using_early_data s) (certificate_request s) (pending_traffic_secret s)
    (early_data_skipped_bytes s) (num_tickets_to_send s) (certificate_verify s)
    (pending_handshake_secret s).
Definition set_state (x : en_ptls_state_t) (s : ptls_t) : ptls_t :=
  mkTls
    (ctx s) x (recv_rec s) (recv_mess s) (key_schedule s) (dec s) (enc s) (server_name s)
    (negotiated_protocol s) (key_share s) (cipher_suite s) (client_random s) (exporter_early s)
    (exporter_one_rtt s) (ech s) (is_server s) (is_psk_handshake s) (send_change_cipher_spec s)
    (needs_key_update s) (key_update_send_request s) (tx_detached s)
    (detached_tx_protocol_version s) (key_update_requests s) (legacy_session_id s) (key_share_ctx s)
    (offered_psk s) (using_early_data s) (certificate_request s) (pending_traffic_secret s)
    (early_data_skipped_bytes s) (num_tickets_to_send s) (certificate_verify s)
    (pending_handshake_secret s).
Definition set_recv_rec (x : ptls_buffer_t) (s : ptls_t) : ptls_t :=
  mkTls
    (ctx s) (state s) x (recv_mess s) (key_schedule s) (dec s) (enc s) (server_name s)
    (negotiated_protocol s) (key_share s) (cipher_suite s) (client_random s) (exporter_early s)
    (exporter_one_rtt s) (ech s) (is_server s) (is_psk_handshake s) (send_change_cipher_spec s)
    (needs_key_update s) (key_update_send_request s) (tx_detached s)
    (detached_tx_protocol_version s) (key_update_requests s) (legacy_session_id s) (key_share_ctx s)
    (offered_psk s) (using_early_data s) (certificate_request s) (pending_traffic_secret s)
    (early_data_skipped_bytes s) (num_tickets_to_send s) (certificate_verify s)
    (pending_handshake_secret s).
Definition set_recv_mess (x : ptls_buffer_t) (s : ptls_t) : ptls_t :=
  mkTls
    (ctx s) (state s) (recv_rec s) x (key_schedule s) (dec s) (enc s) (server_name s)
    (negotiated_protocol s) (key_share s) (cipher_suite s) (client_random s) (exporter_early s)
    (exporter_one_rtt s) (ech s) (is_server s) (is_psk_handshake s) (send_change_cipher_spec s)
    (needs_key_update s) (key_update_send_request s) (tx_detached s)
    (detached_tx_protocol_version s) (key_update_requests s) (legacy_session_id s) (key_share_ctx s)
    (offered_psk s) (using_early_data s) (certificate_request s) (pending_traffic_secret s)
    (early_data_skipped_bytes s) (num_tickets_to_send s) (certificate_verify s)
    (pending_handshake_secret s).
Definition set_key_schedule (x : option ptls_key_schedule_t) (s : ptls_t) : ptls_t :=
  mkTls
    (ctx s) (state s) (recv_rec s) (recv_mess s) x (dec s) (enc s) (server_name s)
    (negotiated_protocol s) (key_share s) (cipher_suite s) (client_random s) (exporter_early s)
    (exporter_one_rtt s) (ech s) (is_server s) (is_psk_handshake s) (send_change_cipher_spec s)
    (needs_key_update s) (key_update_send_request s) (tx_detached s)
    (detached_tx_protocol_version s) (key_update_requests s) (legacy_session_id s) (key_share_ctx s)
    (offered_psk s) (using_early_data s) (certificate_request s) (pending_traffic_secret s)
    (early_data_skipped_bytes s) (num_tickets_to_send s) (certificate_verify s)
    (pending_handshake_secret s).
Definition set_dec (x : st_ptls_traffic_protection_t) (s : ptls_t) : ptls_t :=
  mkTls
    (ctx s) (state s) (recv_rec s) (recv_mess s) (key_schedule s) x (enc s) (server_name s)
    (negotiated_protocol s) (key_share s) (cipher_suite s) (client_random s) (exporter_early s)
    (exporter_one_rtt s) (ech s) (is_server s) (is_psk_handshake s) (send_change_cipher_spec s)
    (needs_key_update s) (key_update_send_request s) (tx_detached s)
    (detached_tx_protocol_version s) (key_update_requests s) (legacy_session_id s) (key_share_ctx s)
    (offered_psk s) (using_early_data s) (certificate_request s) (pending_traffic_secret s)
    (early_data_skipped_bytes s) (num_tickets_to_send s) (certificate_verify s)
    (pending_handshake_secret s).
Definition set_enc (x : st_ptls_traffic_protection_t) (s : ptls_t) : ptls_t :=
  mkTls
    (ctx s) (state s) (recv_rec s) (recv_mess s) (key_schedule s) (dec s) x (server_name s)
    (negotiated_protocol s) (key_share s) (cipher_suite s) (client_random s) (exporter_early s)
    (exporter_one_rtt s) (ech s) (is_server s) (is_psk_handshake s) (send_change_cipher_spec s)
    (needs_key_update s) (key_update_send_request s) (tx_detached s)
    (detached_tx_protocol_version s) (key_update_requests s) (legacy_session_id s) (key_share_ctx s)
    (offered_psk s) (using_early_data s) (certificate_request s) (pending_traffic_secret s)
    (early_data_skipped_bytes s) (num_tickets_to_send s) (certificate_verify s)
    (pending_handshake_secret s).
Definition set_server_name (x : option bytes) (s : ptls_t) : ptls_t :=
  mkTls
    (ctx s) (state s) (recv_rec s) (recv_mess s) (key_schedule s) (dec s) (enc s) x
    (negotiated_protocol s) (key_share s) (cipher_suite s) (client_random s) (exporter_early s)
    (exporter_one_rtt s) (ech s) (is_server s) (is_psk_handshake s) (send_change_cipher_spec s)
    (needs_key_update s) (key_update_send_request s) (tx_detached s)
    (detached_tx_protocol_version s) (key_update_requests s) (legacy_session_id s) (key_share_ctx s)
    (offered_psk s) (using_early_data s) (certificate_request s) (pending_traffic_secret s)
    (early_data_skipped_bytes s) (num_tickets_to_send s) (certificate_verify s)
    (pending_handshake_secret s).
Definition set_negotiated_protocol (x : option bytes) (s : ptls_t) : ptls_t :=
  mkTls
    (ctx s) (state s) (recv_rec s) (recv_mess s) (key_schedule s) (dec s) (enc s) (server_name s) x
    (key_share s) (cipher_suite s) (client_random s) (exporter_early s) (exporter_one_rtt s) (ech s)
    (is_server s) (is_psk_handshake s) (send_change_cipher_spec s) (needs_key_update s)
    (key_update_send_request s) (tx_detached s) (detached_tx_protocol_version s)
    (key_update_requests s) (legacy_session_id s) (key_share_ctx s) (offered_psk s)
    (using_early_data s) (certificate_request s) (pending_traffic_secret s)
    (early_data_skipped_bytes s) (num_tickets_to_send s) (certificate_verify s)
    (pending_handshake_secret s).
Definition set_key_share (x : option ptls_key_exchange_algorithm_t) (s : ptls_t) : ptls_t :=
  mkTls
    (ctx s) (state s) (recv_rec s) (recv_mess s) (key_schedule s) (dec s) (enc s) (server_name s)
    (negotiated_protocol s) x (cipher_suite s) (client_random s) (exporter_early s)
    (exporter_one_rtt s) (ech s) (is_server s) (is_psk_handshake s) (send_change_cipher_spec s)
    (needs_key_update s) (key_update_send_request s) (tx_detached s)
    (detached_tx_protocol_version s) (key_update_requests s) (legacy_session_id s) (key_share_ctx s)
    (offered_psk s) (using_early_data s) (certificate_request s) (pending_traffic_secret s)
    (early_data_skipped_bytes s) (num_tickets_to_send s) (certificate_verify s)
    (pending_handshake_secret s).
Definition set_cipher_suite (x : option ptls_cipher_suite_t) (s : ptls_t) : ptls_t :=
  mkTls
    (ctx s) (state s) (recv_rec s) (recv_mess s) (key_schedule s) (dec s) (enc s) (server_name s)
    (negotiated_protocol s) (key_share s) x (client_random s) (exporter_early s)
    (exporter_one_rtt s) (ech s) (is_server s) (is_psk_handshake s) (send_change_cipher_spec s)
    (needs_key_update s) (key_update_send_request s) (tx_detached s)
    (detached_tx_protocol_version s) (key_update_requests s) (legacy_session_id s) (key_share_ctx s)
    (offered_psk s) (using_early_data s) (certificate_request s) (pending_traffic_secret s)
    (early_data_skipped_bytes s) (num_tickets_to_send s) (certificate_verify s)
    (pending_handshake_secret s).
Definition set_client_random (x : bytes) (s : ptls_t) : ptls_t :=
  mkTls
    (ctx s) (state s) (recv_rec s) (recv_mess s) (key_schedule s) (dec s) (enc s) (server_name s)
    (negotiated_protocol s) (key_share s) (cipher_suite s) x (exporter_early s) (exporter_one_rtt s)
    (ech s) (is_server s) (is_psk_handshake s) (send_change_cipher_spec s) (needs_key_update s)
    (key_update_send_request s) (tx_detached s) (detached_tx_protocol_version s)
    (key_update_requests s) (legacy_session_id s) (key_share_ctx s) (offered_psk s)
    (using_early_data s) (certificate_request s) (pending_traffic_secret s)
    (early_data_skipped_bytes s) (num_tickets_to_send s) (certificate_verify s)
    (pending_handshake_secret s).
Definition set_exporter_early (x : option bytes) (s : ptls_t) : ptls_t :=
  mkTls
    (ctx s) (state s) (recv_rec s) (recv_mess s) (key_schedule s) (dec s) (enc s) (server_name s)
    (negotiated_protocol s) (key_share s) (cipher_suite s) (client_random s) x (exporter_one_rtt s)
    (ech s) (is_server s) (is_psk_handshake s) (send_change_cipher_spec s) (needs_key_update s)
    (key_update_send_request s) (tx_detached s) (detached_tx_protocol_version s)
    (key_update_requests s) (legacy_session_id s) (key_share_ctx s) (offered_psk s)
    (using_early_data s) (certificate_request s) (pending_traffic_secret s)
    (early_data_skipped_bytes s) (num_tickets_to_send s) (certificate_verify s)
    (pending_handshake_secret s).
Definition set_exporter_one_rtt (x : option bytes) (s : ptls_t) : ptls_t :=
  mkTls
    (ctx s) (state s) (recv_rec s) (recv_mess s) (key_schedule s) (dec s) (enc s) (server_name s)
    (negotiated_protocol s) (key_share s) (cipher_suite s) (client_random s) (exporter_early s) x
    (ech s) (is_server s) (is_psk_handshake s) (send_change_cipher_spec s) (needs_key_update s)
    (key_update_send_request s) (tx_detached s) (detached_tx_protocol_version s)
    (key_update_requests s) (legacy_session_id s) (key_share_ctx s) (offered_psk s)
    (using_early_data s) (certificate_request s) (pending_traffic_secret s)
    (early_data_skipped_bytes s) (num_tickets_to_send s) (certificate_verify s)
    (pending_handshake_secret s).
Definition set_is_server (x : bool) (s : ptls_t) : ptls_t :=
  mkTls
    (ctx s) (state s) (recv_rec s) (recv_mess s) (key_schedule s) (dec s) (enc s) (server_name s)
    (negotiated_protocol s) (key_share s) (cipher_suite s) (client_random s) (exporter_early s)
    (exporter_one_rtt s) (ech s) x (is_psk_handshake s) (send_change_cipher_spec s)
    (needs_key_update s) (key_update_send_request s) (tx_detached s)
    (detached_tx_protocol_version s) (key_update_requests s) (legacy_session_id s) (key_share_ctx s)
    (offered_psk s) (using_early_data s) (certificate_request s) (pending_traffic_secret s)
    (early_data_skipped_bytes s) (num_tickets_to_send s) (certificate_verify s)
    (pending_handshake_secret s).
Definition set_is_psk_handshake (x : bool) (s : ptls_t) : ptls_t :=
  mkTls
    (ctx s) (state s) (recv_rec s) (recv_mess s) (key_schedule s) (dec s) (enc s) (server_name s)
    (negotiated_protocol s) (key_share s) (cipher_suite s) (client_random s) (exporter_early s)
    (exporter_one_rtt s) (ech s) (is_server s) x (send_change_cipher_spec s) (needs_key_update s)
    (key_update_send_request s) (tx_detached s) (detached_tx_protocol_version s)
    (key_update_requests s) (legacy_session_id s) (key_share_ctx s) (offered_psk s)
    (using_early_data s) (certificate_request s) (pending_traffic_secret s)
    (early_data_skipped_bytes s) (num_tickets_to_send s) (certificate_verify s)
    (pending_handshake_secret s).
Definition set_send_change_cipher_spec (x : bool) (s : ptls_t) : ptls_t :=
  mkTls
    (ctx s) (state s) (recv_rec s) (recv_mess s) (key_schedule s) (dec s) (enc s) (server_name s)
    (negotiated_protocol s) (key_share s) (cipher_suite s) (client_random s) (exporter_early s)
    (exporter_one_rtt s) (ech s) (is_server s) (is_psk_handshake s) x (needs_key_update s)
    (key_update_send_request s) (tx_detached s) (detached_tx_protocol_version s)
    (key_update_requests s) (legacy_session_id s) (key_share_ctx s) (offered_psk s)
    (using_early_data s) (certificate_request s) (pending_traffic_secret s)
    (early_data_skipped_bytes s) (num_tickets_to_send s) (certificate_verify s)
    (pending_handshake_secret s).
Definition set_needs_key_update (x : bool) (s : ptls_t) : ptls_t :=
  mkTls
    (ctx s) (state s) (recv_rec s) (recv_mess s) (key_schedule s) (dec s) (enc s) (server_name s)
    (negotiated_protocol s) (key_share s) (cipher_suite s) (client_random s) (exporter_early s)
    (exporter_one_rtt s) (ech s) (is_server s) (is_psk_handshake s) (send_change_cipher_spec s) x
    (key_update_send_request s) (tx_detached s) (detached_tx_protocol_version s)
    (key_update_requests s) (legacy_session_id s) (key_share_ctx s) (offered_psk s)
    (using_early_data s) (certificate_request s) (pending_traffic_secret s)
    (early_data_skipped_bytes s) (num_tickets_to_send s) (certificate_verify s)
    (pending_handshake_secret s).
Definition set_key_update_send_request (x : bool) (s : ptls_t) : ptls_t :=
  mkTls
    (ctx s) (state s) (recv_rec s) (recv_mess s) (key_schedule s) (dec s) (enc s) (server_name s)
    (negotiated_protocol s) (key_share s) (cipher_suite s) (client_random s) (exporter_early s)
    (exporter_one_rtt s) (ech s) (is_server s) (is_psk_handshake s) (send_change_cipher_spec s)
    (needs_key_update s) x (tx_detached s) (detached_tx_protocol_version s) (key_update_requests s)
    (legacy_session_id s) (key_share_ctx s) (offered_psk s) (using_early_data s)
    (certificate_request s) (pending_traffic_secret s) (early_data_skipped_bytes s)
    (num_tickets_to_send s) (certificate_verify s) (pending_handshake_secret s).
Definition set_tx_detached (x : bool) (s : ptls_t) : ptls_t :=
  mkTls
    (ctx s) (state s) (recv_rec s) (recv_mess s) (key_schedule s) (dec s) (enc s) (server_name s)
    (negotiated_protocol s) (key_share s) (cipher_suite s) (client_random s) (exporter_early s)
    (exporter_one_rtt s) (ech s) (is_server s) (is_psk_handshake s) (send_change_cipher_spec s)
    (needs_key_update s) (key_update_send_request s) x (detached_tx_protocol_version s)
    (key_update_requests s) (legacy_session_id s) (key_share_ctx s) (offered_psk s)
    (using_early_data s) (certificate_request s) (pending_traffic_secret s)
    (early_data_skipped_bytes s) (num_tickets_to_send s) (certificate_verify s)
    (pending_handshake_secret s).
Definition set_detached_tx_protocol_version (x : Z) (s : ptls_t) : ptls_t :=
  mkTls
    (ctx s) (state s) (recv_rec s) (recv_mess s) (key_schedule s) (dec s) (enc s) (server_name s)
    (negotiated_protocol s) (key_share s) (cipher_suite s) (client_random s) (exporter_early s)
    (exporter_one_rtt s) (ech s) (is_server s) (is_psk_handshake s) (send_change_cipher_spec s)
    (needs_key_update s) (key_update_send_request s) (tx_detached s) x (key_update_requests s)
    (legacy_session_id s) (key_share_ctx s) (offered_psk s) (using_early_data s)
    (certificate_request s) (pending_traffic_secret s) (early_data_skipped_bytes s)
    (num_tickets_to_send s) (certificate_verify s) (pending_handshake_secret s).
Definition set_key_update_requests (x : Z) (s : ptls_t) : ptls_t :=
  mkTls
    (ctx s) (state s) (recv_rec s) (recv_mess s) (key_schedule s) (dec s) (enc s) (server_name s)
    (negotiated_protocol s) (key_share s) (cipher_suite s) (client_random s) (exporter_early s)
    (exporter_one_rtt s) (ech s) (is_server s) (is_psk_handshake s) (send_change_cipher_spec s)
    (needs_key_update s) (key_update_send_request s) (tx_detached s)
    (detached_tx_protocol_version s) x (legacy_session_id s) (key_share_ctx s) (offered_psk s)
    (using_early_data s) (certificate_request s) (pending_traffic_secret s)
    (early_data_skipped_bytes s) (num_tickets_to_send s) (certificate_verify s)
    (pending_handshake_secret s).
Definition set_legacy_session_id (x : bytes) (s : ptls_t) : ptls_t :=
  mkTls
    (ctx s) (state s) (recv_rec s) (recv_mess s) (key_schedule s) (dec s) (enc s) (server_name s)
    (negotiated_protocol s) (key_share s) (cipher_suite s) (client_random s) (exporter_early s)
    (exporter_one_rtt s) (ech s) (is_server s) (is_psk_handshake s) (send_change_cipher_spec s)
    (needs_key_update s) (key_update_send_request s) (tx_detached s)
    (detached_tx_protocol_version s) (key_update_requests s) x (key_share_ctx s) (offered_psk s)
    (using_early_data s) (certificate_request s) (pending_traffic_secret s)
    (early_data_skipped_bytes s) (num_tickets_to_send s) (certificate_verify s)
    (pending_handshake_secret s).
Definition set_pending_traffic_secret (x : bytes) (s : ptls_t) : ptls_t :=
  mkTls
    (ctx s) (state s) (recv_rec s) (recv_mess s) (key_schedule s) (dec s) (enc s) (server_name s)
    (negotiated_protocol s) (key_share s) (cipher_suite s) (client_random s) (exporter_early s)
    (exporter_one_rtt s) (ech s) (is_server s) (is_psk_handshake s) (send_change_cipher_spec s)
    (needs_key_update s) (key_update_send_request s) (tx_detached s)
    (detached_tx_protocol_version s) (key_update_requests s) (legacy_session_id s) (key_share_ctx s)
    (offered_psk s) (using_early_data s) (certificate_request s) x (early_data_skipped_bytes s)
    (num_tickets_to_send s) (certificate_verify s) (pending_handshake_secret s).
Definition set_early_data_skipped_bytes (x : Z) (s : ptls_t) : ptls_t :=
  mkTls
    (ctx s) (state s) (recv_rec s) (recv_mess s) (key_schedule s) (dec s) (enc s) (server_name s)
    (negotiated_protocol s) (key_share s) (cipher_suite s) (client_random s) (exporter_early s)
    (exporter_one_rtt s) (ech s) (is_server s) (is_psk_handshake s) (send_change_cipher_spec s)
    (needs_key_update s) (key_update_send_request s) (tx_detached s)
    (detached_tx_protocol_version s) (key_update_requests s) (legacy_session_id s) (key_share_ctx s)
    (offered_psk s) (using_early_data s) (certificate_request s) (pending_traffic_secret s) x
    (num_tickets_to_send s) (certificate_verify s) (pending_handshake_secret s).
Definition set_ech (x : st_ptls_ech_t) (s : ptls_t) : ptls_t :=
  mkTls
    (ctx s) (state s) (recv_rec s) (recv_mess s) (key_schedule s) (dec s) (enc s) (server_name s)
    (negotiated_protocol s) (key_share s) (cipher_suite s) (client_random s) (exporter_early s)
    (exporter_one_rtt s) x (is_server s) (is_psk_handshake s) (send_change_cipher_spec s)
    (needs_key_update s) (key_update_send_request s) (tx_detached s)
    (detached_tx_protocol_version s) (key_update_requests s) (legacy_session_id s) (key_share_ctx s)
    (offered_psk s) (using_early_data s) (certificate_request s) (pending_traffic_secret s)
    (early_data_skipped_bytes s) (num_tickets_to_send s) (certificate_verify s)
    (pending_handshake_secret s).
Definition set_key_share_ctx (x : option ptls_key_exchange_context_t) (s : ptls_t) : ptls_t :=
  mkTls
    (ctx s) (state s) (recv_rec s) (recv_mess s) (key_schedule s) (dec s) (enc s) (server_name s)
    (negotiated_protocol s) (key_share s) (cipher_suite s) (client_random s) (exporter_early s)
    (exporter_one_rtt s) (ech s) (is_server s) (is_psk_handshake s) (send_change_cipher_spec s)
    (needs_key_update s) (key_update_send_request s) (tx_detached s)
    (detached_tx_protocol_version s) (key_update_requests s) (legacy_session_id s) x (offered_psk s)
    (using_early_data s) (certificate_request s) (pending_traffic_secret s)
    (early_data_skipped_bytes s) (num_tickets_to_send s) (certificate_verify s)
    (pending_handshake_secret s).
Definition set_offered_psk (x : bool) (s : ptls_t) : ptls_t :=
  mkTls
    (ctx s) (state s) (recv_rec s) (recv_mess s) (key_schedule s) (dec s) (enc s) (server_name s)
    (negotiated_protocol s) (key_share s) (cipher_suite s) (client_random s) (exporter_early s)
    (exporter_one_rtt s) (ech s) (is_server s) (is_psk_handshake s) (send_change_cipher_spec s)
    (needs_key_update s) (key_update_send_request s) (tx_detached s)
    (detached_tx_protocol_version s) (key_update_requests s) (legacy_session_id s) (key_share_ctx s)
    x (using_early_data s) (certificate_request s) (pending_traffic_secret s)
    (early_data_skipped_bytes s) (num_tickets_to_send s) (certificate_verify s)
    (pending_handshake_secret s).
Definition set_using_early_data (x : bool) (s : ptls_t) : ptls_t :=
  mkTls
    (ctx s) (state s) (recv_rec s) (recv_mess s) (key_schedule s) (dec s) (enc s) (server_name s)
    (negotiated_protocol s) (key_share s) (cipher_suite s) (client_random s) (exporter_early s)
    (exporter_one_rtt s) (ech s) (is_server s) (is_psk_handshake s) (send_change_cipher_spec s)
    (needs_key_update s) (key_update_send_request s) (tx_detached s)
    (detached_tx_protocol_version s) (key_update_requests s) (legacy_session_id s) (key_share_ctx s)
    (offered_psk s) x (certificate_request s) (pending_traffic_secret s)
    (early_data_skipped_bytes s) (num_tickets_to_send s) (certificate_verify s)
    (pending_handshake_secret s).
Definition set_certificate_request (x : option (bytes * list Z)) (s : ptls_t) : ptls_t :=
  mkTls
    (ctx s) (state s) (recv_rec s) (recv_mess s) (key_schedule s) (dec s) (enc s) (server_name s)
    (negotiated_protocol s) (key_share s) (cipher_suite s) (client_random s) (exporter_early s)
    (exporter_one_rtt s) (ech s) (is_server s) (is_psk_handshake s) (send_change_cipher_spec s)
    (needs_key_update s) (key_update_send_request s) (tx_detached s)
    (detached_tx_protocol_version s) (key_update_requests s) (legacy_session_id s) (key_share_ctx s)
    (offered_psk s) (using_early_data s) x (pending_traffic_secret s) (early_data_skipped_bytes s)
    (num_tickets_to_send s) (certificate_verify s) (pending_handshake_secret s).
Definition set_num_tickets_to_send (x : Z) (s : ptls_t) : ptls_t :=
  mkTls
    (ctx s) (state s) (recv_rec s) (recv_mess s) (key_schedule s) (dec s) (enc s) (server_name s)
    (negotiated_protocol s) (key_share s) (cipher_suite s) (client_random s) (exporter_early s)
    (exporter_one_rtt s) (ech s) (is_server s) (is_psk_handshake s) (send_change_cipher_spec s)
    (needs_key_update s) (key_update_send_request s) (tx_detached s)
    (detached_tx_protocol_version s) (key_update_requests s) (legacy_session_id s) (key_share_ctx s)
    (offered_psk s) (using_early_data s) (certificate_request s) (pending_traffic_secret s)
    (early_data_skipped_bytes s) x (certificate_verify s) (pending_handshake_secret s).
Definition set_certificate_verify (x : option (Z -> bytes -> bytes -> Z)) (s : ptls_t) : ptls_t :=
  mkTls
    (ctx s) (state s) (recv_rec s) (recv_mess s) (key_schedule s) (dec s) (enc s) (server_name s)
    (negotiated_protocol s) (key_share s) (cipher_suite s) (client_random s) (exporter_early s)
    (exporter_one_rtt s) (ech s) (is_server s) (is_psk_handshake s) (send_change_cipher_spec s)
    (needs_key_update s) (key_update_send_request s) (tx_detached s)
    (detached_tx_protocol_version s) (key_update_requests s) (legacy_session_id s) (key_share_ctx s)
    (offered_psk s) (using_early_data s) (certificate_request s) (pending_traffic_secret s)
    (early_data_skipped_bytes s) (num_tickets_to_send s) x (pending_handshake_secret s).
Definition set_pending_handshake_secret (x : option bytes) (s : ptls_t) : ptls_t :=
  mkTls
    (ctx s) (state s) (recv_rec s) (recv_mess s) (key_schedule s) (dec s) (enc s) (server_name s)
    (negotiated_protocol s) (key_share s) (cipher_suite s) (client_random s) (exporter_early s)
    (exporter_one_rtt s) (ech s) (is_server s) (is_psk_handshake s) (send_change_cipher_spec s)
    (needs_key_update s) (key_update_send_request s) (tx_detached s)
    (detached_tx_protocol_version s) (key_update_requests s) (legacy_session_id s) (key_share_ctx s)
    (offered_psk s) (using_early_data s) (certificate_request s) (pending_traffic_secret s)
    (early_data_skipped_bytes s) (num_tickets_to_send s) (certificate_verify s) x.

(** A disposed buffer: base NULL. *)
Definition null_buffer : ptls_buffer_t := mkBuffer 0 [] 0 0 0 false 0 0 [].

(** Only that it is the size passed to [malloc] matters. *)
Definition sizeof_ptls_t : Z := 2048.

(** [(ptls_t){ctx}]: every other field zero. *)
Definition zero_tls (c : ptls_context_t) : ptls_t :=
  mkTls c PTLS_STATE_CLIENT_HANDSHAKE_START null_buffer null_buffer None no_traffic_protection no_traffic_protection
    None None None None (replicate (Z.to_nat PTLS_HELLO_RANDOM_SIZE) 0) None None no_ech false false false false false
    false 0 0 [] None false false None (replicate (Z.to_nat PTLS_MAX_DIGEST_SIZE) 0) 0 0 None None.

(* src lib/picotls.c:5233-5266 new_instance *)
Definition new_instance `{Allocator} (c : ptls_context_t) (server : bool) : option ptls_t :=
  match malloc sizeof_ptls_t with
  | None => None
  | Some _ =>
      let tls := zero_tls c in
      let tls := set_is_server server tls in
      let tls := set_send_change_cipher_spec (ctx_send_change_cipher_spec c) tls in
      Some tls
  end.

(** [random] and [session_id] are what [random_bytes] writes.  Neither constructor checks for NULL: [None]
    is a write through the NULL pointer. *)
(* src lib/picotls.c:5268-5283 ptls_client_new *)
Definition ptls_client_new `{Allocator} (c : ptls_context_t) (random session_id : bytes) : option ptls_t :=
  tls ← new_instance c false;
  let tls := set_client_random random (set_state PTLS_STATE_CLIENT_HANDSHAKE_START tls) in
  Some (if send_change_cipher_spec tls then set_legacy_session_id session_id tls else tls).

(* src lib/picotls.c:5285-5294 ptls_server_new *)
Definition ptls_server_new `{Allocator} (c : ptls_context_t) : option ptls_t :=
  tls ← new_instance c true;
  Some (set_early_data_skipped_bytes UINT32_MAX (set_state PTLS_STATE_SERVER_EXPECT_CLIENT_HELLO tls)).

(* src lib/picotls.c:5632-5640 ptls_get_protocol_version *)
Definition ptls_get_protocol_version (tls : ptls_t) : Z :=
  if tx_detached tls then detached_tx_protocol_version tls
  else if tls12 (enc tls) then PTLS_PROTOCOL_VERSION_TLS12
  else PTLS_PROTOCOL_VERSION_TLS13.

(* src lib/picotls.c:5694-5697 ptls_handshake_is_complete *)
Definition ptls_handshake_is_complete (tls : ptls_t) : bool := is_post_handshake (state tls).

(** ** Instances for the witnesses *)

Definition toy_context : ptls_context_t :=
  mkCtx 0 None [toy_suite; toy_suite2] [] [] None None None None [] None [] None None 86400 8192 65536 None false false
    false false false false false false None None None None None None [] 0 0 0.

Definition toy_tp (n : Z) : st_ptls_traffic_protection_t := mkTp (replicate 64 5) 3 (Some toy_ctx) n false 0.

(** A connection after the handshake; it sends and receives under the same key. *)
Definition toy_tls (server : bool) : ptls_t :=
  mkTls toy_context (if server then PTLS_STATE_SERVER_POST_HANDSHAKE else PTLS_STATE_CLIENT_POST_HANDSHAKE)
    null_buffer null_buffer (Some toy_sched) (toy_tp 7) (toy_tp 7) None None None (Some toy_suite)
    (replicate 32 1) None None no_ech server false false false false false 0 0 [] None false false None
    (replicate 64 0) UINT32_MAX 0 None None.
