(* ===== verification/Minicrypto.v ===== *)
(** * Minicrypto: key exchanges and the signer of the built-in backend ([lib/uecc.c], [lib/cifra/x25519.c]),
    and the DER writers it uses ([include/zpicotls.h], [lib/picotls.c])

    The arithmetic of the curves (micro-ecc, cifra) is given by parameters.  The two key exchanges are
    instances of the [ptls_key_exchange_algorithm_t] the handshake and HPKE take, and both sides of them
    are shown to reach one secret; the signature the signer writes is a DER element that the library's own
    validator accepts and that denotes the two numbers of the signature. *)

From S2P Require Import Prelude Constants Wire Buffer Asn1 Crypto KeySchedule Tls.

(** ** DER elements in a buffer *)

Section Der.
Context `{Allocator}.
Context {S : Type} `{HasBuffer S}.

(* src lib/picotls.c:712-716 ptls_buffer__adjust_asn1_blocksize *)
Definition ptls_buffer__adjust_asn1_blocksize (body_size : Z) : M ptls_buffer_t unit := fail ABORTED.

(* src include/zpicotls.h:1327-1341 ptls_buffer_push_asn1_block *)
Definition ptls_buffer_push_asn1_block {A} (block : M S A) : M S A :=
  _ ← ptls_buffer_push [0xff];
  body_start ← gets (λ s, off (get_buf s));
  a ← block;
  body_end ← gets (λ s, off (get_buf s));
  let body_size := body_end - body_start in
  _ ← (if body_size <? 128 then on_buf (modify (λ b, set_mem (mem_write (mem b) (body_start - 1) [u8 body_size]) b))
       else on_buf (ptls_buffer__adjust_asn1_blocksize body_size));
  mret a.

(* src include/zpicotls.h:1343-1347 ptls_buffer_push_asn1_sequence *)
Definition ptls_buffer_push_asn1_sequence {A} (block : M S A) : M S A :=
  _ ← ptls_buffer_push [0x30];
  ptls_buffer_push_asn1_block block.

(* src lib/picotls.c:723-726 p *)
Fixpoint skip_zeroes (p : bytes) : bytes :=
  match p with
  | 0 :: p => skip_zeroes p
  | _ => p
  end.

(** At [end], [*p] is beyond the number. *)
(* src lib/picotls.c:718-743 ptls_buffer_push_asn1_ubigint *)
Definition ptls_buffer_push_asn1_ubigint (bignum : bytes) : M S unit :=
  let p := skip_zeroes bignum in
  _ ← ptls_buffer_push [2];
  ptls_buffer_push_asn1_block
    (_ ← match p with
         | [] => fail OVER_READ
         | x :: _ => if 0x80 <=? x then ptls_buffer_push [0] else mret ()
         end;
     match p with
     | [] => ptls_buffer_pushv [0]
     | _ => ptls_buffer_pushv p
     end).

(** *** What they append *)

Lemma emits_push_asn1_block {A} (block : M S A) a bs :
  emits block (Ok (a, bs)) -> len bs < 128 -> emits (ptls_buffer_push_asn1_block block) (Ok (a, [len bs] ++ bs)).
Proof.
  intros Hb Hl. unfold ptls_buffer_push_asn1_block, ptls_buffer_push. change (u8 <$> [255]) with [255].
  apply emits_hole with (bs := bs) (a := a); [done|]. intros s c t Hw Hs Ht. cbv zeta.
  replace (len c + len [255] + len bs - (len c + len [255])) with (len bs) by lia. rewrite (proj2 (Z.ltb_lt _ _)) by done.
  assert (u8 (len bs) = len bs) as Hu by (apply u8_small; unfold is_byte; pose proof (len_nonneg bs); lia).
  unfold outcome, on_buf. rewrite M_bind_run. simpl. rewrite get_put_buf.
  destruct (overwrite_contents (get_buf s) c [255] [len bs] bs (λ m, mem_write m (len c + len [255] - 1) [u8 (len bs)])) as [Hw' Hc']; try done.
  intros tl. rewrite Hu. change (len [255]) with 1. rewrite Z.add_simpl_r. by apply mem_write_app.
Qed.

(** A body of 128 bytes or more is not supported: the process stops. *)
Definition ubigint_body (n : bytes) : bytes :=
  let p := skip_zeroes n in match p with x :: _ => if 0x80 <=? x then 0 :: p else p | [] => p end.

Lemma skip_zeroes_len n : len (skip_zeroes n) <= len n.
Proof. induction n as [|[|?|?] n IH]; cbn [skip_zeroes]; rewrite ?len_cons; lia. Qed.

Lemma skip_zeroes_decode n : be_decode (skip_zeroes n) = be_decode n.
Proof. induction n as [|[|?|?] n IH]; cbn [skip_zeroes]; done. Qed.

Lemma skip_zeroes_bytes n : is_bytes n -> is_bytes (skip_zeroes n).
Proof. induction 1 as [|[|?|?] n Hx Hn IH]; cbn [skip_zeroes]; auto. Qed.

Lemma skip_zeroes_nonempty n : be_decode n <> 0 -> skip_zeroes n <> [].
Proof. intros Hn E. apply Hn. rewrite <- skip_zeroes_decode, E. done. Qed.

Lemma ubigint_body_len n : len (ubigint_body n) <= len n + 1.
Proof.
  pose proof (skip_zeroes_len n) as Hl. unfold ubigint_body. cbv zeta. destruct (skip_zeroes n) as [|x p]; [lia|].
  destruct (_ <=? _); rewrite ?len_cons in *; lia.
Qed.

Lemma ubigint_body_decode n : be_decode (ubigint_body n) = be_decode n.
Proof.
  rewrite <- (skip_zeroes_decode n). unfold ubigint_body. cbv zeta. destruct (skip_zeroes n) as [|x p]; [done|].
  destruct (_ <=? _); [|done]. rewrite (be_decode_cons 0). lia.
Qed.

Lemma emits_push_asn1_ubigint n :
  be_decode n <> 0 -> len n < 127 -> emits (ptls_buffer_push_asn1_ubigint n) (Ok ((), tlv 2 (ubigint_body n))).
Proof.
  intros Hn Hl. pose proof (ubigint_body_len n) as Hb. pose proof (skip_zeroes_nonempty n Hn) as Hne.
  unfold ptls_buffer_push_asn1_ubigint, tlv, der_length. cbv zeta. rewrite (proj2 (Z.ltb_lt _ _)) by lia.
  apply (emits_seq _ _ () () [2]); [by apply emits_pushv|]. apply emits_push_asn1_block; [|lia].
  unfold ubigint_body. cbv zeta. destruct (skip_zeroes n) as [|x p]; [done|]. destruct (128 <=? x).
  - apply (emits_seq _ _ () () [0] (x :: p)); apply emits_pushv.
  - apply (emits_seq _ _ () () [] (x :: p)); [apply emits_ret|apply emits_pushv].
Qed.

Lemma emits_push_asn1_sequence {A} (block : M S A) a bs :
  emits block (Ok (a, bs)) -> len bs < 128 -> emits (ptls_buffer_push_asn1_sequence block) (Ok (a, tlv 0x30 bs)).
Proof.
  intros Hb Hl. unfold ptls_buffer_push_asn1_sequence, tlv, der_length. rewrite (proj2 (Z.ltb_lt _ _)) by lia.
  apply (emits_seq _ _ () a [48]); [by apply emits_pushv|]. by apply emits_push_asn1_block.
Qed.
End Der.

(** ** The signer *)

Section Sign.
Context `{Allocator}.
Context {S : Type} `{HasBuffer S}.

(** SHA-256; the signature, 64 bytes, or nothing when micro-ecc fails; what the array for it held. *)
Context (sha256 : bytes -> bytes) (uECC_sign : bytes -> bytes -> option bytes) (uninit : bytes).

(** The algorithm selected. *)
(* src lib/uecc.c:137-178 secp256r1sha256_sign *)
Definition secp256r1sha256_sign (key : bytes) (input : bytes) (algorithms : list Z) : M S Z :=
  if negb (existsb (Z.eqb PTLS_SIGNATURE_ECDSA_SECP256R1_SHA256) algorithms) then fail PTLS_ALERT_HANDSHAKE_FAILURE else
  let hash := sha256 input in
  let sig := default uninit (uECC_sign key hash) in
  _ ← ptls_buffer_push_asn1_sequence
        (_ ← ptls_buffer_push_asn1_ubigint (take 32 sig);
         ptls_buffer_push_asn1_ubigint (take 32 (drop 32 sig)));
  mret PTLS_SIGNATURE_ECDSA_SECP256R1_SHA256.

(** The element of a signature [(r, s)]. *)
Definition signature_der (r s : bytes) : der := Constructed 0x30 [Primitive 2 (ubigint_body r); Primitive 2 (ubigint_body s)].

Lemma der_encode_signature r s : der_encode (signature_der r s) = tlv 0x30 (tlv 2 (ubigint_body r) ++ tlv 2 (ubigint_body s)).
Proof. cbn. by rewrite app_nil_r. Qed.

Lemma tlv_short tag b : len b < 128 -> len (tlv tag b) = 2 + len b.
Proof. intros Hb. unfold tlv, der_length. rewrite (proj2 (Z.ltb_lt _ _)) by done. rewrite len_cons, len_app, len_cons, len_nil. lia. Qed.
End Sign.

(** for a signature whose two numbers are not zero, the built-in signer appends one DER sequence of
    two integers, which the library's BER validator accepts and whose contents are the numbers that
    micro-ecc returned, and selects ecdsa_secp256r1_sha256; when the peer does not offer that algorithm it
    fails with handshake_failure. *)
Theorem signature_der_valid `{Allocator} {St : Type} `{HasBuffer St} sha256 uECC_sign uninit key input algorithms sig log :
  uECC_sign key (sha256 input) = Some sig -> length sig = 64%nat ->
  be_decode (take 32 sig) <> 0 -> be_decode (drop 32 sig) <> 0 ->
  let t := signature_der (take 32 sig) (drop 32 sig) in
  emits (S := St) (secp256r1sha256_sign sha256 uECC_sign uninit key input algorithms)
    (if existsb (Z.eqb PTLS_SIGNATURE_ECDSA_SECP256R1_SHA256) algorithms
     then Ok (PTLS_SIGNATURE_ECDSA_SECP256R1_SHA256, der_encode t) else Err PTLS_ALERT_HANDSHAKE_FAILURE) /\
  ptls_asn1_validation log (der_encode t) = Some 0 /\
  be_decode (ubigint_body (take 32 sig)) = be_decode (take 32 sig) /\ be_decode (ubigint_body (drop 32 sig)) = be_decode (drop 32 sig).
Proof.
  intros Hs Hl Hr Hss t. pose proof (ubigint_body_len (take 32 sig)) as Hlr. pose proof (ubigint_body_len (drop 32 sig)) as Hls.
  assert (len (take 32 sig) = 32) as Elr by (unfold len; rewrite length_take; lia).
  assert (len (drop 32 sig) = 32) as Els by (unfold len; rewrite length_drop; lia).
  split; [|split; [|split; apply ubigint_body_decode]].
  - unfold secp256r1sha256_sign. destruct (existsb _ _); cbn [negb]; [|apply emits_fail]. cbv zeta. rewrite Hs. cbn [default].
    rewrite (take_ge (drop 32 sig)) by (rewrite length_drop; lia). unfold t. rewrite der_encode_signature.
    rewrite <- (app_nil_r (tlv 48 _)). eapply emits_seq; [|apply emits_ret]. apply emits_push_asn1_sequence.
    + eapply emits_seq; apply emits_push_asn1_ubigint; lia || done.
    + rewrite len_app, !tlv_short by lia. lia.
  - apply asn1_validation_der. unfold t, signature_der. cbn [der_ok]. cbn [map concat der_encode].
    rewrite app_nil_r, len_app, !tlv_short by lia. cbn. unfold PTLS_ASN1_MAX_RECURSION. repeat split; try lia; done.
Qed.

(** ** Key exchange over secp256r1 *)

(* src include/zpicotls/minicrypto.h:32 SECP256R1_PUBLIC_KEY_SIZE *)
Definition SECP256R1_PUBLIC_KEY_SIZE : Z := 65.
(* src include/zpicotls/minicrypto.h:33 SECP256R1_SHARED_SECRET_SIZE *)
Definition SECP256R1_SHARED_SECRET_SIZE : Z := 32.
(* src lib/uecc.c:37 TYPE_UNCOMPRESSED_PUBLIC_KEY *)
Definition TYPE_UNCOMPRESSED_PUBLIC_KEY : Z := 4.
(* src include/zpicotls.h:169 PTLS_GROUP_SECP256R1 *)
Definition PTLS_GROUP_SECP256R1 : Z := 23.
(* src include/zpicotls.h:175 PTLS_GROUP_X25519 *)
Definition PTLS_GROUP_X25519 : Z := 29.

(* src lib/uecc.c:39-43 st_secp256r1_key_exhchange_t *)
Record st_secp256r1_key_exhchange_t := mkSecpKex { secp_priv : bytes; secp_pub : bytes }.

Section Secp256r1.
Context `{Allocator}.

(** The private key and the 64 bytes of the public key that micro-ecc draws in this call; the shared
    secret of a public and a private key, nothing if the point is not on the curve. *)
Context (uECC_make_key : bytes * bytes) (uECC_shared_secret : bytes -> bytes -> option bytes).

(** The secret, [None] if none was asked for, and the context, [None] once released. *)
(* src lib/uecc.c:45-80 secp256r1_on_exchange *)
Definition secp256r1_on_exchange (ctx : st_secp256r1_key_exhchange_t) (release want_secret : bool) (peerkey : bytes)
    : result (option bytes) * option st_secp256r1_key_exhchange_t :=
  (if negb want_secret then Ok None
   else if negb (len peerkey =? SECP256R1_PUBLIC_KEY_SIZE) || negb (default 0 (head peerkey) =? TYPE_UNCOMPRESSED_PUBLIC_KEY)
   then Err PTLS_ALERT_DECRYPT_ERROR
   else match malloc SECP256R1_SHARED_SECRET_SIZE with
        | None => Err PTLS_ERROR_NO_MEMORY
        | Some _ =>
            match uECC_shared_secret (drop 1 peerkey) (secp_priv ctx) with
            | None => Err PTLS_ALERT_DECRYPT_ERROR
            | Some secbytes => Ok (Some secbytes)
            end
        end,
   if release then None else Some ctx).

(** [rng_set]: whether [uECC_get_rng] is not NULL.  97 bytes of private and public key follow the context. *)
(* src lib/uecc.c:82-97 secp256r1_create_key_exchange *)
Definition secp256r1_create_key_exchange (rng_set : bool) : result st_secp256r1_key_exhchange_t :=
  match malloc (32 + 97 + 7) with
  | None => Err PTLS_ERROR_NO_MEMORY
  | Some _ =>
      _ ← guard_err rng_set ABORTED;
      Ok (mkSecpKex (fst uECC_make_key) (TYPE_UNCOMPRESSED_PUBLIC_KEY :: snd uECC_make_key))
  end.

(** The public key and the secret. *)
(* src lib/uecc.c:99-135 secp256r1_key_exchange *)
Definition secp256r1_key_exchange (peerkey : bytes) : result (bytes * bytes) :=
  if negb (len peerkey =? SECP256R1_PUBLIC_KEY_SIZE) || negb (default 0 (head peerkey) =? TYPE_UNCOMPRESSED_PUBLIC_KEY)
  then Err PTLS_ALERT_DECRYPT_ERROR
  else match malloc SECP256R1_PUBLIC_KEY_SIZE with
       | None => Err PTLS_ERROR_NO_MEMORY
       | Some _ =>
           match malloc SECP256R1_SHARED_SECRET_SIZE with
           | None => Err PTLS_ERROR_NO_MEMORY
           | Some _ =>
               match uECC_shared_secret (drop 1 peerkey) (fst uECC_make_key) with
               | None => Err PTLS_ALERT_DECRYPT_ERROR
               | Some secbytes => Ok (TYPE_UNCOMPRESSED_PUBLIC_KEY :: snd uECC_make_key, secbytes)
               end
           end
       end.

(** The object, with [on_exchange] as it is called to get the secret and to release the context. *)
(* src lib/uecc.c:192-195 ptls_minicrypto_secp256r1 *)
Definition ptls_minicrypto_secp256r1 : ptls_key_exchange_algorithm_t :=
  mkKex PTLS_GROUP_SECP256R1
    (ctx ← secp256r1_create_key_exchange true;
     Ok (mkKexCtx PTLS_GROUP_SECP256R1 (secp_pub ctx)
           (λ peer, s ← (secp256r1_on_exchange ctx true true peer).1; Ok (default [] s))))
    secp256r1_key_exchange.
End Secp256r1.

(** ** Key exchange over Curve25519 *)

(* src lib/cifra/x25519.c:27 X25519_KEY_SIZE *)
Definition X25519_KEY_SIZE : Z := 32.

(* src lib/cifra/x25519.c:29-33 st_x25519_key_exchange_t *)
Record st_x25519_key_exchange_t := mkX25519Kex { x_priv : bytes; x_pub : bytes }.

Section X25519.
Context `{Allocator}.

(** The 32 bytes the generator gives in this call; multiplication of the base point and of a point. *)
Context (ptls_minicrypto_random_bytes : bytes) (cf_curve25519_mul_base : bytes -> bytes) (cf_curve25519_mul : bytes -> bytes -> bytes).

(** The private key and the public key. *)
(* src lib/cifra/x25519.c:35-39 x25519_create_keypair *)
Definition x25519_create_keypair : bytes * bytes :=
  let priv := ptls_minicrypto_random_bytes in (priv, cf_curve25519_mul_base priv).

(** A NULL key is [None]: the side whose private key is given multiplies the other's public key. *)
(* src lib/cifra/x25519.c:41-58 x25519_derive_secret *)
Definition x25519_derive_secret (clientpriv : option bytes) (clientpub : bytes) (serverpriv : option bytes) (serverpub : bytes) : result bytes :=
  match malloc X25519_KEY_SIZE with
  | None => Err PTLS_ERROR_NO_MEMORY
  | Some _ =>
      let secret := cf_curve25519_mul (match clientpriv with Some p => p | None => default [] serverpriv end)
                      (match clientpriv with Some _ => serverpub | None => clientpub end) in
      if mem_equal secret (replicate (Z.to_nat X25519_KEY_SIZE) 0) then Err PTLS_ERROR_INCOMPATIBLE_KEY else Ok secret
  end.

(* src lib/cifra/x25519.c:60-83 x25519_on_exchange *)
Definition x25519_on_exchange (ctx : st_x25519_key_exchange_t) (release want_secret : bool) (peerkey : bytes)
    : result (option bytes) * option st_x25519_key_exchange_t :=
  (if negb want_secret then Ok None
   else if negb (len peerkey =? X25519_KEY_SIZE) then Err PTLS_ALERT_DECRYPT_ERROR
   else Some <$> x25519_derive_secret (Some (x_priv ctx)) (x_pub ctx) None peerkey,
   if release then None else Some ctx).

(* src lib/cifra/x25519.c:85-96 x25519_create_key_exchange *)
Definition x25519_create_key_exchange : result st_x25519_key_exchange_t :=
  match malloc (32 + 64) with
  | None => Err PTLS_ERROR_NO_MEMORY
  | Some _ => let '(priv, pub) := x25519_create_keypair in Ok (mkX25519Kex priv pub)
  end.

(* src lib/cifra/x25519.c:98-127 x25519_key_exchange *)
Definition x25519_key_exchange (peerkey : bytes) : result (bytes * bytes) :=
  if negb (len peerkey =? X25519_KEY_SIZE) then Err PTLS_ALERT_DECRYPT_ERROR
  else match malloc X25519_KEY_SIZE with
       | None => Err PTLS_ERROR_NO_MEMORY
       | Some _ =>
           let '(priv, pub) := x25519_create_keypair in
           secret ← x25519_derive_secret None peerkey (Some priv) pub;
           Ok (pub, secret)
       end.

(* src lib/cifra/x25519.c:129-130 ptls_minicrypto_x25519 *)
Definition ptls_minicrypto_x25519 : ptls_key_exchange_algorithm_t :=
  mkKex PTLS_GROUP_X25519
    (ctx ← x25519_create_key_exchange;
     Ok (mkKexCtx PTLS_GROUP_X25519 (x_pub ctx)
           (λ peer, s ← (x25519_on_exchange ctx true true peer).1; Ok (default [] s))))
    x25519_key_exchange.
End X25519.

(** ** Both sides reach one secret *)

(** One side creates a context with [a], the other answers with [b], and the first completes. *)
Definition kex_agrees (a b : ptls_key_exchange_algorithm_t) (secret : bytes) : Prop :=
  exists ctx pub, kex_create a = Ok ctx /\ kex_exchange b (pubkey ctx) = Ok (pub, secret) /\ on_exchange ctx pub = Ok secret.

(** Memory is always given. *)
Definition malloc_total `{Allocator} : Prop := forall n, 0 <= n <= SIZE_MAX -> exists m, malloc n = Some m.

Ltac allocate Ht := repeat match goal with |- context [malloc ?n] =>
  let Hm := fresh "Hm" in destruct (Ht n ltac:(vm_compute; split; discriminate)) as [? Hm]; rewrite !Hm; clear Hm end.

(** Multiplication commutes: the secret of one side's private key and the other's public key. *)
Definition dh_commutes (mul : bytes -> bytes -> option bytes) (privA pubA privB pubB secret : bytes) : Prop :=
  mul pubB privA = Some secret /\ mul pubA privB = Some secret.

Lemma secp_peer_ok (pub : bytes) : length pub = 64%nat ->
  negb (len (TYPE_UNCOMPRESSED_PUBLIC_KEY :: pub) =? SECP256R1_PUBLIC_KEY_SIZE) ||
  negb (default 0 (head (TYPE_UNCOMPRESSED_PUBLIC_KEY :: pub)) =? TYPE_UNCOMPRESSED_PUBLIC_KEY) = false.
Proof. intros Hp. rewrite len_cons. unfold len. by rewrite Hp. Qed.

Lemma secp256r1_agrees `{Allocator} shared privA pubA privB pubB secret :
  malloc_total -> length pubA = 64%nat -> length pubB = 64%nat -> dh_commutes shared privA pubA privB pubB secret ->
  kex_agrees (ptls_minicrypto_secp256r1 (privA, pubA) shared) (ptls_minicrypto_secp256r1 (privB, pubB) shared) secret.
Proof.
  intros Ht Ha Hb [HAB HBA]. exists (mkKexCtx PTLS_GROUP_SECP256R1 (TYPE_UNCOMPRESSED_PUBLIC_KEY :: pubA)
    (λ peer, s ← (secp256r1_on_exchange shared (mkSecpKex privA (TYPE_UNCOMPRESSED_PUBLIC_KEY :: pubA)) true true peer).1; Ok (default [] s))),
    (TYPE_UNCOMPRESSED_PUBLIC_KEY :: pubB).
  split; [|split]; cbn [kex_create kex_exchange on_exchange pubkey ptls_minicrypto_secp256r1].
  - unfold secp256r1_create_key_exchange. by allocate Ht.
  - unfold secp256r1_key_exchange. rewrite secp_peer_ok by done. allocate Ht. cbn [fst snd]. rewrite skipn_cons, drop_0. by rewrite HBA.
  - unfold secp256r1_on_exchange. rewrite secp_peer_ok by done. allocate Ht. cbn [negb fst secp_priv]. rewrite skipn_cons, drop_0. by rewrite HAB.
Qed.

Lemma x25519_derive_ok `{Allocator} mul cp cpub sp spub secret :
  malloc_total -> mul (match cp with Some p => p | None => default [] sp end) (match cp with Some _ => spub | None => cpub end) = secret ->
  length secret = 32%nat -> is_bytes secret -> secret <> replicate 32 0 -> x25519_derive_secret mul cp cpub sp spub = Ok secret.
Proof.
  intros Ht Hm Hl Hb Hn. unfold x25519_derive_secret. allocate Ht. cbv zeta. rewrite Hm.
  destruct (mem_equal secret _) eqn:E; [|done]. apply mem_equal_spec in E; [done|done|done|by apply Forall_replicate].
Qed.

Lemma x25519_agrees `{Allocator} base mul privA privB secret :
  malloc_total -> length (base privA) = 32%nat -> length (base privB) = 32%nat ->
  dh_commutes (λ pub priv, Some (mul priv pub)) privA (base privA) privB (base privB) secret ->
  length secret = 32%nat -> is_bytes secret -> secret <> replicate 32 0 ->
  kex_agrees (ptls_minicrypto_x25519 privA base mul) (ptls_minicrypto_x25519 privB base mul) secret.
Proof.
  intros Ht Ha Hb [[= HAB] [= HBA]] Hl Hbs Hn. exists (mkKexCtx PTLS_GROUP_X25519 (base privA)
    (λ peer, s ← (x25519_on_exchange mul (mkX25519Kex privA (base privA)) true true peer).1; Ok (default [] s))), (base privB).
  split; [|split]; cbn [kex_create kex_exchange on_exchange pubkey ptls_minicrypto_x25519].
  - unfold x25519_create_key_exchange. by allocate Ht.
  - unfold x25519_key_exchange. unfold len at 1. rewrite Ha. allocate Ht. cbn [negb Z.eqb x25519_create_keypair].
    change (negb (Z.of_nat 32 =? X25519_KEY_SIZE)) with false. cbv iota. cbn [x25519_create_keypair].
    by rewrite (x25519_derive_ok mul None (base privA) (Some privB) (base privB) secret).
  - unfold x25519_on_exchange. unfold len at 1. rewrite Hb. change (negb (Z.of_nat 32 =? X25519_KEY_SIZE)) with false. cbn [negb fst x_priv x_pub].
    by rewrite (x25519_derive_ok mul (Some privA) (base privA) None (base privB) secret).
Qed.

(** in both key exchanges of the built-in backend the two sides reach one secret: given memory, when
    one side's context is created, the other side answers its public key and the first completes with the
    answer, each gets the product of its private key and the other's public key -- provided that the
    multiplication of the curve commutes on the two key pairs and, over Curve25519, is not zero, which the
    code refuses. *)
Theorem minicrypto_kex_agree `{Allocator} :
  malloc_total ->
  (forall shared privA pubA privB pubB secret, length pubA = 64%nat -> length pubB = 64%nat -> dh_commutes shared privA pubA privB pubB secret ->
     kex_agrees (ptls_minicrypto_secp256r1 (privA, pubA) shared) (ptls_minicrypto_secp256r1 (privB, pubB) shared) secret) /\
  (forall base mul privA privB secret, length (base privA) = 32%nat -> length (base privB) = 32%nat ->
     dh_commutes (λ pub priv, Some (mul priv pub)) privA (base privA) privB (base privB) secret ->
     length secret = 32%nat -> is_bytes secret -> secret <> replicate 32 0 ->
     kex_agrees (ptls_minicrypto_x25519 privA base mul) (ptls_minicrypto_x25519 privB base mul) secret).
Proof. intros Ht. split; intros; [by apply secp256r1_agrees|by apply x25519_agrees]. Qed.

(** ** Evaluations *)

(** A group in which public keys are the private ones xor-ed with a constant. *)
Definition toy_mul (priv pub : bytes) : bytes := zip_with (λ a b, Z.lxor (Z.lxor a b) 0x5a) priv pub.

Section Evaluations.
#[local] Existing Instance bump_allocator.

Lemma bump_total : malloc_total.
Proof. intros n Hn. cbn. rewrite (proj2 (Z.leb_le 0 n)) by lia. eauto. Qed.

Lemma minicrypto_kex_agree_witness :
  let pub priv := xor_pad 0x5a priv ++ xor_pad 0x5a priv in
  let shared pub priv := Some (take 32 (toy_mul priv pub)) in
  kex_agrees (ptls_minicrypto_secp256r1 (replicate 32 1, pub (replicate 32 1)) shared)
    (ptls_minicrypto_secp256r1 (replicate 32 2, pub (replicate 32 2)) shared) (replicate 32 3).
Proof. apply (proj1 (minicrypto_kex_agree bump_total)); [reflexivity..|]. split; reflexivity. Defined.

(** A signature whose first number starts with a zero and whose second has its high bit set. *)
Lemma signature_der_valid_witness :
  ptls_asn1_validation false
    (der_encode (signature_der (take 32 (0 :: replicate 31 5 ++ replicate 32 200)) (drop 32 (0 :: replicate 31 5 ++ replicate 32 200)))) = Some 0.
Proof.
  apply (signature_der_valid (St := ptls_buffer_t) (λ m, m) (λ _ _, Some (0 :: replicate 31 5 ++ replicate 32 200)) [] [] []
           [PTLS_SIGNATURE_ECDSA_SECP256R1_SHA256] _ false); [reflexivity|reflexivity|vm_compute; discriminate..].
Defined.

(** A number that is zero is read beyond its end. *)
Example ubigint_zero_over_reads :
  (ptls_buffer_push_asn1_ubigint (S := ptls_buffer_t) (replicate 32 0) (ptls_buffer_init_tx 64 (replicate 80 0))).1 = Err OVER_READ.
Proof. reflexivity. Qed.
End Evaluations.
