(* ===== verification/OpensslKex.v ===== *)
(** * OpensslKex: key exchanges of the OpenSSL backend ([lib/openssl.c])

    Four families: the curves of X9.62 ([x9_62_*], [secp_key_exchange]), the exchanges of the EVP
    interface ([evp_keyex_*]: X25519), its key encapsulations ([evp_kem_*]: ML-KEM and its hybrids),
    and, with BoringSSL, the hybrid of ML-KEM-768 and X25519.  Each is a
    [ptls_key_exchange_algorithm_t] whose two sides are shown to reach one secret. *)

From S2P Require Import Prelude Constants Wire Buffer Crypto Tls Minicrypto.

Definition or_err {A} (r : option A) (e : Z) : result A := match r with Some a => Ok a | None => Err e end.

Definition allocated `{Allocator} (n : Z) : result unit := match malloc n with Some _ => Ok () | None => Err PTLS_ERROR_NO_MEMORY end.

(** ** Curves of X9.62 *)

(** The functions of the library on groups, keys and points; [None] is a failure.  The length
    of an encoded point is 0 on failure. *)
Record ec_ops := mkEc {
  EC_GROUP : Type;
  EC_KEY : Type;
  EC_POINT : Type;
  EC_GROUP_new_by_curve_name : Z -> option EC_GROUP;
  EC_GROUP_get_degree : EC_GROUP -> Z;
  BN_CTX_new : option unit;
  EC_KEY_new : option unit;
  EC_KEY_get0_group : EC_KEY -> EC_GROUP;
  EC_KEY_get0_public_key : EC_KEY -> EC_POINT;
  EC_POINT_oct2point : EC_GROUP -> bytes -> option EC_POINT; (* and [EC_POINT_new] *)
  EC_POINT_point2oct : EC_GROUP -> EC_POINT -> bytes;
  ECDH_compute_key : Z -> EC_POINT -> EC_KEY -> option bytes;
}.

Section X962.
Context `{Allocator} (ec : ec_ops).

(** The key drawn in this call ([EC_KEY_set_group] and [EC_KEY_generate_key]). *)
Context (EC_KEY_generate_key : EC_GROUP ec -> option (EC_KEY ec)).

(* src lib/openssl.c:208-220 ecdh_generate_key *)
Definition ecdh_generate_key (group : EC_GROUP ec) : option (EC_KEY ec) :=
  match EC_KEY_new ec with None => None | Some _ => EC_KEY_generate_key group end.

(* src lib/openssl.c:222-246 ecdh_calc_secret *)
Definition ecdh_calc_secret (group : EC_GROUP ec) (privkey : EC_KEY ec) (peer_point : EC_POINT ec) : result bytes :=
  let n := (EC_GROUP_get_degree ec group + 7) / 8 in
  _ ← allocated n;
  or_err (ECDH_compute_key ec n peer_point privkey) PTLS_ALERT_HANDSHAKE_FAILURE.

(* src lib/openssl.c:248-260 x9_62_decode_point *)
Definition x9_62_decode_point (group : EC_GROUP ec) (vec : bytes) : option (EC_POINT ec) := EC_POINT_oct2point ec group vec.

(** [None] when the base is NULL. *)
(* src lib/openssl.c:262-276 x9_62_encode_point *)
Definition x9_62_encode_point (group : EC_GROUP ec) (point : EC_POINT ec) : option bytes :=
  let vec := EC_POINT_point2oct ec group point in
  if len vec =? 0 then None else match malloc (len vec) with None => None | Some _ => Some vec end.

(* src lib/openssl.c:278-282 st_x9_62_keyex_context_t *)
Record st_x9_62_keyex_context_t := mkX962 { x962_pubkey : bytes; x962_privkey : EC_KEY ec }.

(** The secret, [None] if none was asked for, and the context, [None] once released. *)
(* src lib/openssl.c:294-321 x9_62_on_exchange *)
Definition x9_62_on_exchange (ctx : st_x9_62_keyex_context_t) (release want_secret : bool) (peerkey : bytes)
    : result (option bytes) * option st_x9_62_keyex_context_t :=
  let group := EC_KEY_get0_group ec (x962_privkey ctx) in
  (if negb want_secret then Ok None
   else peer_point ← or_err (x9_62_decode_point group peerkey) PTLS_ALERT_DECODE_ERROR;
        Some <$> ecdh_calc_secret group (x962_privkey ctx) peer_point,
   if release then None else Some ctx).

(** The size of the context, and the context of big numbers. *)
(* src lib/openssl.c:323-345 x9_62_create_context *)
Definition x9_62_create_context : result unit :=
  _ ← allocated 48;
  _ ← or_err (BN_CTX_new ec) PTLS_ERROR_NO_MEMORY;
  Ok ().

(* src lib/openssl.c:347-354 x9_62_setup_pubkey *)
Definition x9_62_setup_pubkey (privkey : EC_KEY ec) : result st_x9_62_keyex_context_t :=
  pub ← or_err (x9_62_encode_point (EC_KEY_get0_group ec privkey) (EC_KEY_get0_public_key ec privkey)) PTLS_ERROR_NO_MEMORY;
  Ok (mkX962 pub privkey).

(* src lib/openssl.c:356-389 x9_62_create_key_exchange *)
Definition x9_62_create_key_exchange (curve : Z) : result st_x9_62_keyex_context_t :=
  group ← or_err (EC_GROUP_new_by_curve_name ec curve) PTLS_ERROR_LIBRARY;
  _ ← x9_62_create_context;
  privkey ← or_err (ecdh_generate_key group) PTLS_ERROR_LIBRARY;
  x9_62_setup_pubkey privkey.

(** The result and the number of references to the key: the context owns the one it is given, and
    releases it with itself. *)
(* src lib/openssl.c:391-412 x9_62_init_key *)
Definition x9_62_init_key (eckey : EC_KEY ec) : M Z st_x9_62_keyex_context_t := λ refs,
  match x9_62_create_context with
  | Err e => (Err e, refs)
  | Ok _ => match x9_62_setup_pubkey eckey with
            | Err e => (Err e, refs - 1)
            | Ok ctx => (Ok ctx, refs)
            end
  end.

(** The public key and the secret. *)
(* src lib/openssl.c:414-468 x9_62_key_exchange *)
Definition x9_62_key_exchange (group : EC_GROUP ec) (peerkey : bytes) : result (bytes * bytes) :=
  peer_point ← or_err (x9_62_decode_point group peerkey) PTLS_ALERT_DECODE_ERROR;
  privkey ← or_err (ecdh_generate_key group) PTLS_ERROR_NO_MEMORY;
  pubkey ← or_err (x9_62_encode_point group (EC_KEY_get0_public_key ec privkey)) PTLS_ERROR_NO_MEMORY;
  let n := (EC_GROUP_get_degree ec group + 7) / 8 in
  _ ← allocated n;
  secret ← or_err (ECDH_compute_key ec n peer_point privkey) PTLS_ALERT_HANDSHAKE_FAILURE;
  Ok (pubkey, secret).

(* src lib/openssl.c:470-493 secp_key_exchange *)
Definition secp_key_exchange (curve : Z) (peerkey : bytes) : result (bytes * bytes) :=
  group ← or_err (EC_GROUP_new_by_curve_name ec curve) PTLS_ERROR_LIBRARY;
  _ ← or_err (BN_CTX_new ec) PTLS_ERROR_NO_MEMORY;
  x9_62_key_exchange group peerkey.

(** The objects: secp256r1, secp384r1 and secp521r1, by identifier and curve. *)
(* src lib/openssl.c:2386-2404 ptls_openssl_secp256r1 *)
Definition ptls_openssl_secp (id curve : Z) : ptls_key_exchange_algorithm_t :=
  mkKex id
    (ctx ← x9_62_create_key_exchange curve;
     Ok (mkKexCtx id (x962_pubkey ctx) (λ peer, s ← (x9_62_on_exchange ctx true true peer).1; Ok (default [] s))))
    (secp_key_exchange curve).
End X962.

(** The reference that [EVP_PKEY_get1_EC_KEY] adds is given back when the context is not made. *)
(* src lib/openssl.c:1009-1047 ptls_openssl_create_key_exchange *)
Definition create_ec_key_exchange `{Allocator} (ec : ec_ops) (known : bool) (eckey : EC_KEY ec) : M Z (st_x9_62_keyex_context_t ec) := λ refs,
  let refs := refs + 1 in
  if negb known then (Err PTLS_ERROR_INCOMPATIBLE_KEY, refs - 1)
  else match x9_62_init_key ec eckey refs with
       | (Err e, refs) => (Err e, refs - 1)
       | r => r
       end.

(** ** Exchanges of the EVP interface *)

Record evp_kex_ops := mkEvpKex {
  PKEY : Type;
  PKEY_CTX : Type;
  EVP_PKEY_CTX_new_id : Z -> option PKEY_CTX;
  EVP_PKEY_keygen_init : PKEY_CTX -> option PKEY_CTX;
  EVP_PKEY_get1_tls_encodedpoint : PKEY -> bytes;
  EVP_PKEY_new : option PKEY;
  EVP_PKEY_copy_parameters : PKEY -> PKEY -> option PKEY;
  EVP_PKEY_set1_tls_encodedpoint : PKEY -> bytes -> option PKEY;
  EVP_PKEY_CTX_new : PKEY -> option PKEY_CTX;
  EVP_PKEY_derive_init : PKEY_CTX -> option PKEY_CTX;
  EVP_PKEY_derive_set_peer : PKEY_CTX -> PKEY -> option PKEY_CTX;
  derive_size : PKEY_CTX -> option Z;
  EVP_PKEY_derive : PKEY_CTX -> option bytes;
}.

Section EvpKex.
Context `{Allocator} (ops : evp_kex_ops).

(** The key drawn in this call. *)
Context (EVP_PKEY_keygen : PKEY_CTX ops -> option (PKEY ops)).

(* src lib/openssl.c:497-500 st_evp_keyex_context_t *)
Record st_evp_keyex_context_t := mkEvpKexCtx { evp_pubkey : bytes; evp_privkey : PKEY ops }.

(** Outside of BoringSSL. *)
(* src lib/openssl.c:511-614 evp_keyex_on_exchange *)
Definition evp_keyex_on_exchange (ctx : st_evp_keyex_context_t) (release want_secret : bool) (peerkey : bytes)
    : result (option bytes) * option st_evp_keyex_context_t :=
  (if negb want_secret then Ok None else
   _ ← guard_err (len peerkey =? len (evp_pubkey ctx)) PTLS_ALERT_DECRYPT_ERROR;
   evppeer ← or_err (EVP_PKEY_new ops) PTLS_ERROR_NO_MEMORY;
   evppeer ← or_err (EVP_PKEY_copy_parameters ops evppeer (evp_privkey ctx)) PTLS_ERROR_LIBRARY;
   evppeer ← or_err (EVP_PKEY_set1_tls_encodedpoint ops evppeer peerkey) PTLS_ERROR_LIBRARY;
   evpctx ← or_err (EVP_PKEY_CTX_new ops (evp_privkey ctx)) PTLS_ERROR_LIBRARY;
   evpctx ← or_err (EVP_PKEY_derive_init ops evpctx) PTLS_ERROR_LIBRARY;
   evpctx ← or_err (EVP_PKEY_derive_set_peer ops evpctx evppeer) PTLS_ERROR_LIBRARY;
   n ← or_err (derive_size ops evpctx) PTLS_ERROR_LIBRARY;
   _ ← allocated n;
   secret ← or_err (EVP_PKEY_derive ops evpctx) PTLS_ERROR_LIBRARY;
   Ok (Some secret),
   if release then None else Some ctx).

(* src lib/openssl.c:619-646 evp_keyex_init *)
Definition evp_keyex_init (pkey : PKEY ops) : result st_evp_keyex_context_t :=
  _ ← allocated 40;
  let pub := EVP_PKEY_get1_tls_encodedpoint ops pkey in
  _ ← guard_err (negb (len pub =? 0)) PTLS_ERROR_NO_MEMORY;
  Ok (mkEvpKexCtx pub pkey).

(* src lib/openssl.c:648-680 evp_keyex_create *)
Definition evp_keyex_create (id : Z) : result st_evp_keyex_context_t :=
  evpctx ← or_err (EVP_PKEY_CTX_new_id ops id) PTLS_ERROR_LIBRARY;
  evpctx ← or_err (EVP_PKEY_keygen_init ops evpctx) PTLS_ERROR_LIBRARY;
  pkey ← or_err (EVP_PKEY_keygen evpctx) PTLS_ERROR_LIBRARY;
  evp_keyex_init pkey.

(* src lib/openssl.c:682-709 evp_keyex_exchange *)
Definition evp_keyex_exchange (id : Z) (peerkey : bytes) : result (bytes * bytes) :=
  ctx ← evp_keyex_create id;
  _ ← allocated (len (evp_pubkey ctx));
  secret ← (evp_keyex_on_exchange ctx true true peerkey).1;
  Ok (evp_pubkey ctx, default [] secret).

(* src lib/openssl.c:2406-2410 ptls_openssl_x25519 *)
Definition ptls_openssl_x25519 (NID_X25519 : Z) : ptls_key_exchange_algorithm_t :=
  mkKex PTLS_GROUP_X25519
    (ctx ← evp_keyex_create NID_X25519;
     Ok (mkKexCtx PTLS_GROUP_X25519 (evp_pubkey ctx) (λ peer, s ← (evp_keyex_on_exchange ctx true true peer).1; Ok (default [] s))))
    (evp_keyex_exchange NID_X25519).
End EvpKex.

(** ** Key encapsulation *)

Record kem_ops := mkKemOps {
  KEM_KEY : Type;
  KEM_CTX : Type;
  EVP_PKEY_CTX_new_from_name : bytes -> option KEM_CTX;
  kem_keygen_init : KEM_CTX -> option KEM_CTX;
  EVP_PKEY_get1_encoded_public_key : KEM_KEY -> bytes;
  EVP_PKEY_paramgen_init : KEM_CTX -> option KEM_CTX;
  EVP_PKEY_paramgen : KEM_CTX -> option KEM_KEY;
  EVP_PKEY_set1_encoded_public_key : KEM_KEY -> bytes -> option KEM_KEY;
  EVP_PKEY_CTX_new_from_pkey : KEM_KEY -> option KEM_CTX;
  EVP_PKEY_encapsulate_init : KEM_CTX -> option KEM_CTX;
  encapsulate_sizes : KEM_CTX -> option (Z * Z);
  EVP_PKEY_decapsulate_init : KEM_CTX -> option KEM_CTX;
  decapsulate_size : KEM_CTX -> bytes -> option Z;
  EVP_PKEY_decapsulate : KEM_CTX -> bytes -> option bytes;
}.

Section Kem.
Context `{Allocator} (ops : kem_ops).

(** What is drawn in this call: a key, and a ciphertext with its secret. *)
Context (EVP_PKEY_generate : KEM_CTX ops -> option (KEM_KEY ops)) (EVP_PKEY_encapsulate : KEM_CTX ops -> option (bytes * bytes)).

(* src lib/openssl.c:844-891 evp_kem_on_exchange *)
Definition evp_kem_on_exchange (privkey : KEM_KEY ops) (want_secret : bool) (ciphertext : bytes) : result (option bytes) :=
  if negb want_secret then Ok None else
  evpctx ← or_err (EVP_PKEY_CTX_new_from_pkey ops privkey) PTLS_ERROR_LIBRARY;
  evpctx ← or_err (EVP_PKEY_decapsulate_init ops evpctx) PTLS_ERROR_LIBRARY;
  n ← or_err (decapsulate_size ops evpctx ciphertext) PTLS_ERROR_LIBRARY;
  _ ← allocated n;
  secret ← or_err (EVP_PKEY_decapsulate ops evpctx ciphertext) PTLS_ERROR_LIBRARY;
  Ok (Some secret).

(** The public key and the private key. *)
(* src lib/openssl.c:893-936 evp_kem_create *)
Definition evp_kem_create (name : bytes) : result (bytes * KEM_KEY ops) :=
  _ ← allocated 40;
  evpctx ← or_err (EVP_PKEY_CTX_new_from_name ops name) PTLS_ERROR_LIBRARY;
  evpctx ← or_err (kem_keygen_init ops evpctx) PTLS_ERROR_LIBRARY;
  privkey ← or_err (EVP_PKEY_generate evpctx) PTLS_ERROR_LIBRARY;
  let pub := EVP_PKEY_get1_encoded_public_key ops privkey in
  _ ← guard_err (negb (len pub =? 0)) PTLS_ERROR_NO_MEMORY;
  Ok (pub, privkey).

(* src lib/openssl.c:938-1005 evp_kem_exchange *)
Definition evp_kem_exchange (name peerkey : bytes) : result (bytes * bytes) :=
  evpctx ← or_err (EVP_PKEY_CTX_new_from_name ops name) PTLS_ERROR_LIBRARY;
  evpctx ← or_err (EVP_PKEY_paramgen_init ops evpctx) PTLS_ERROR_LIBRARY;
  key ← or_err (EVP_PKEY_paramgen ops evpctx) PTLS_ERROR_LIBRARY;
  key ← or_err (EVP_PKEY_set1_encoded_public_key ops key peerkey) PTLS_ERROR_LIBRARY;
  evpctx ← or_err (EVP_PKEY_CTX_new_from_pkey ops key) PTLS_ERROR_LIBRARY;
  evpctx ← or_err (EVP_PKEY_encapsulate_init ops evpctx) PTLS_ERROR_LIBRARY;
  '(n, m) ← or_err (encapsulate_sizes ops evpctx) PTLS_ERROR_LIBRARY;
  _ ← allocated n;
  _ ← allocated m;
  or_err (EVP_PKEY_encapsulate evpctx) PTLS_ERROR_LIBRARY.

(** The objects, by identifier and name. *)
(* src lib/openssl.c:2419-2424 DEFINE_MLKEM_KEYEX *)
Definition DEFINE_MLKEM_KEYEX (id : Z) (name : bytes) : ptls_key_exchange_algorithm_t :=
  mkKex id
    ('(pub, privkey) ← evp_kem_create name;
     Ok (mkKexCtx id pub (λ peer, s ← evp_kem_on_exchange privkey true peer; Ok (default [] s))))
    (evp_kem_exchange name).
End Kem.

(** ** ML-KEM-768 and X25519 with BoringSSL *)

Definition MLKEM768_PUBLIC_KEY_BYTES : Z := 1184.
Definition MLKEM768_CIPHERTEXT_BYTES : Z := 1088.
Definition MLKEM_SHARED_SECRET_BYTES : Z := 32.
Definition X25519_PUBLIC_VALUE_LEN : Z := 32.
Definition X25519_SHARED_KEY_LEN : Z := 32.

(** The size of the context: BoringSSL declares 7776 bytes for the private key of ML-KEM-768. *)
Definition SIZEOF_X25519MLKEM768 : Z := 32 + 1216 + 32 + 7776.

Section Hybrid.
Context `{Allocator} {mlkem_private mlkem_public : Type}.

(** The keys drawn in this call, encapsulation to a key in this call, and the functions on them. *)
Context (MLKEM768_generate_key : bytes * mlkem_private) (X25519_keypair : bytes * bytes) (MLKEM768_encap : mlkem_public -> bytes * bytes)
  (MLKEM768_decap : bytes -> mlkem_private -> option bytes) (MLKEM768_parse_public_key : bytes -> option mlkem_public)
  (X25519 : bytes -> bytes -> option bytes).

(* src lib/openssl.c:715-722 st_x25519mlkem768_context_t *)
Record st_x25519mlkem768_context_t := mkHybrid { hybrid_pubkey : bytes; hybrid_x25519 : bytes; hybrid_mlkem : mlkem_private }.

(* src lib/openssl.c:724-769 x25519mlkem768_on_exchange *)
Definition x25519mlkem768_on_exchange (ctx : st_x25519mlkem768_context_t) (release want_secret : bool) (ciphertext : bytes)
    : result (option bytes) * option st_x25519mlkem768_context_t :=
  (if negb want_secret then Ok None else
   _ ← guard_err (len ciphertext =? MLKEM768_CIPHERTEXT_BYTES + X25519_PUBLIC_VALUE_LEN) PTLS_ALERT_DECRYPT_ERROR;
   _ ← allocated (MLKEM_SHARED_SECRET_BYTES + X25519_SHARED_KEY_LEN);
   s1 ← or_err (MLKEM768_decap (take (Z.to_nat MLKEM768_CIPHERTEXT_BYTES) ciphertext) (hybrid_mlkem ctx)) PTLS_ALERT_ILLEGAL_PARAMETER;
   s2 ← or_err (X25519 (hybrid_x25519 ctx) (drop (Z.to_nat MLKEM768_CIPHERTEXT_BYTES) ciphertext)) PTLS_ALERT_ILLEGAL_PARAMETER;
   Ok (Some (s1 ++ s2)),
   if release then None else Some ctx).

(* src lib/openssl.c:771-784 x25519mlkem768_create *)
Definition x25519mlkem768_create : result st_x25519mlkem768_context_t :=
  _ ← allocated SIZEOF_X25519MLKEM768;
  Ok (mkHybrid (MLKEM768_generate_key.1 ++ X25519_keypair.1) X25519_keypair.2 MLKEM768_generate_key.2).

(* src lib/openssl.c:786-838 x25519mlkem768_exchange *)
Definition x25519mlkem768_exchange (peerkey : bytes) : result (bytes * bytes) :=
  _ ← guard_err (len peerkey =? MLKEM768_PUBLIC_KEY_BYTES + X25519_PUBLIC_VALUE_LEN) PTLS_ALERT_DECODE_ERROR;
  _ ← allocated (MLKEM768_CIPHERTEXT_BYTES + X25519_PUBLIC_VALUE_LEN);
  _ ← allocated (MLKEM_SHARED_SECRET_BYTES + X25519_SHARED_KEY_LEN);
  key ← or_err (MLKEM768_parse_public_key (take (Z.to_nat MLKEM768_PUBLIC_KEY_BYTES) peerkey)) PTLS_ALERT_ILLEGAL_PARAMETER;
  s2 ← or_err (X25519 X25519_keypair.2 (drop (Z.to_nat MLKEM768_PUBLIC_KEY_BYTES) peerkey)) PTLS_ALERT_ILLEGAL_PARAMETER;
  let '(ct, s1) := MLKEM768_encap key in
  Ok (ct ++ X25519_keypair.1, s1 ++ s2).

(* src lib/openssl.c:2413-2416 ptls_openssl_x25519mlkem768 *)
Definition ptls_openssl_x25519mlkem768 : ptls_key_exchange_algorithm_t :=
  mkKex 4588
    (ctx ← x25519mlkem768_create;
     Ok (mkKexCtx 4588 (hybrid_pubkey ctx) (λ peer, s ← (x25519mlkem768_on_exchange ctx true true peer).1; Ok (default [] s))))
    x25519mlkem768_exchange.
End Hybrid.

(** ** What the library promises *)

(** Keys of a curve: points read back, and the secret of two keys is the same on both sides. *)
Class EcGroup (ec : ec_ops) (curve : Z) := {
  eg_group : EC_GROUP ec;
  eg_new : EC_GROUP_new_by_curve_name ec curve = Some eg_group;
  eg_memory : is_Some (BN_CTX_new ec) /\ is_Some (EC_KEY_new ec);
  eg_key : EC_KEY ec -> Prop;
  eg_key_group : forall k, eg_key k -> EC_KEY_get0_group ec k = eg_group;
  eg_degree : 0 <= EC_GROUP_get_degree ec eg_group <= 65536;
  eg_encode : forall k, eg_key k -> 0 < len (EC_POINT_point2oct ec eg_group (EC_KEY_get0_public_key ec k)) <= 65536;
  eg_decode : forall k, eg_key k ->
    EC_POINT_oct2point ec eg_group (EC_POINT_point2oct ec eg_group (EC_KEY_get0_public_key ec k)) = Some (EC_KEY_get0_public_key ec k);
  eg_secret : EC_KEY ec -> EC_KEY ec -> bytes;
  eg_secret_sym : forall a b, eg_secret a b = eg_secret b a;
  eg_compute : forall a b, eg_key a -> eg_key b ->
    ECDH_compute_key ec ((EC_GROUP_get_degree ec eg_group + 7) / 8) (EC_KEY_get0_public_key ec b) a = Some (eg_secret a b);
}.

(** Keys of an algorithm of the EVP interface. *)
Class EvpDh (ops : evp_kex_ops) (id : Z) := {
  ed_key : PKEY ops -> Prop;
  ed_new : exists c c', EVP_PKEY_CTX_new_id ops id = Some c /\ EVP_PKEY_keygen_init ops c = Some c';
  ed_size : Z;
  ed_size_range : 0 < ed_size <= 65536;
  ed_point : forall k, ed_key k -> len (EVP_PKEY_get1_tls_encodedpoint ops k) = ed_size;
  ed_secret : PKEY ops -> PKEY ops -> bytes;
  ed_secret_sym : forall a b, ed_secret a b = ed_secret b a;
  ed_derive : forall a b, ed_key a -> ed_key b -> exists p0 p1 p2 c0 c1 c2 n,
    EVP_PKEY_new ops = Some p0 /\ EVP_PKEY_copy_parameters ops p0 a = Some p1 /\
    EVP_PKEY_set1_tls_encodedpoint ops p1 (EVP_PKEY_get1_tls_encodedpoint ops b) = Some p2 /\
    EVP_PKEY_CTX_new ops a = Some c0 /\ EVP_PKEY_derive_init ops c0 = Some c1 /\ EVP_PKEY_derive_set_peer ops c1 p2 = Some c2 /\
    derive_size ops c2 = Some n /\ 0 <= n <= 65536 /\ EVP_PKEY_derive ops c2 = Some (ed_secret a b);
}.

(** Keys of a key encapsulation: [kem_toward c k] is a context for the public half of [k], and
    [kem_wraps k ct s] says that [ct] is an encapsulation of [s] to it. *)
Class EvpKem (ops : kem_ops) (name : bytes) := {
  ek_key : KEM_KEY ops -> Prop;
  kem_toward : KEM_CTX ops -> KEM_KEY ops -> Prop;
  kem_wraps : KEM_KEY ops -> bytes -> bytes -> Prop;
  ek_new : exists c c1 c2 key, EVP_PKEY_CTX_new_from_name ops name = Some c /\ kem_keygen_init ops c = Some c1 /\
    EVP_PKEY_paramgen_init ops c = Some c2 /\ EVP_PKEY_paramgen ops c2 = Some key;
  ek_public : forall k, ek_key k -> 0 < len (EVP_PKEY_get1_encoded_public_key ops k);
  ek_encap : forall k c key, ek_key k -> EVP_PKEY_paramgen ops c = Some key -> exists key' c1 c2 n m,
    EVP_PKEY_set1_encoded_public_key ops key (EVP_PKEY_get1_encoded_public_key ops k) = Some key' /\ EVP_PKEY_CTX_new_from_pkey ops key' = Some c1 /\
    EVP_PKEY_encapsulate_init ops c1 = Some c2 /\ encapsulate_sizes ops c2 = Some (n, m) /\ 0 <= n <= 65536 /\ 0 <= m <= 65536 /\ kem_toward c2 k;
  ek_decap : forall k ct s, ek_key k -> kem_wraps k ct s -> exists c1 c2 n, EVP_PKEY_CTX_new_from_pkey ops k = Some c1 /\
    EVP_PKEY_decapsulate_init ops c1 = Some c2 /\ decapsulate_size ops c2 ct = Some n /\ 0 <= n <= 65536 /\ EVP_PKEY_decapsulate ops c2 ct = Some s;
}.

Section Proofs.
Context `{Allocator} (Ht : malloc_total).

Lemma allocated_ok n : 0 <= n <= 65536 -> allocated n = Ok ().
Proof. intros Hn. unfold allocated. destruct (Ht n) as [? Hm]; [unfold SIZE_MAX; lia|by rewrite Hm]. Qed.

Lemma encode_point_ok (ec : ec_ops) g p : 0 < len (EC_POINT_point2oct ec g p) <= 65536 -> x9_62_encode_point ec g p = Some (EC_POINT_point2oct ec g p).
Proof.
  intros Hl. unfold x9_62_encode_point. cbv zeta. rewrite (proj2 (Z.eqb_neq _ _)) by lia.
  destruct (Ht (len (EC_POINT_point2oct ec g p))) as [? Hm]; [unfold SIZE_MAX; lia|by rewrite Hm].
Qed.

Lemma secp_agrees ec id curve `{EcGroup ec curve} a b : eg_key a -> eg_key b ->
  kex_agrees (ptls_openssl_secp ec (λ _, Some a) id curve) (ptls_openssl_secp ec (λ _, Some b) id curve) (eg_secret a b).
Proof.
  intros Ha Hb. destruct eg_memory as [[[] HB] [[] HK]]. pose proof eg_degree as Hd. unfold kex_agrees. cbn [kex_create kex_exchange ptls_openssl_secp].
  assert (0 <= (EC_GROUP_get_degree ec eg_group + 7) / 8 <= 65536) as Hn by (split; [apply Z.div_pos|apply Z.div_le_upper_bound]; lia).
  unfold x9_62_create_key_exchange, secp_key_exchange, x9_62_key_exchange, x9_62_create_context, x9_62_setup_pubkey, ecdh_generate_key.
  rewrite eg_new, HB, HK, (allocated_ok 48) by lia. cbn [or_err mbind result_bind]. rewrite (eg_key_group a Ha), (encode_point_ok ec _ _ (eg_encode a Ha)).
  cbn [or_err mbind result_bind x962_pubkey]. eexists _, _. split; [reflexivity|]. cbn [pubkey on_exchange].
  unfold x9_62_decode_point, x9_62_on_exchange, ecdh_calc_secret. cbn [x962_privkey]. rewrite (eg_decode a Ha). cbn [or_err mbind result_bind].
  rewrite (encode_point_ok ec _ _ (eg_encode b Hb)), (allocated_ok _ Hn), (eg_compute b a Hb Ha). cbn [or_err mbind result_bind].
  rewrite eg_secret_sym. split; [reflexivity|]. rewrite (eg_key_group a Ha). unfold x9_62_decode_point. cbn [negb]. rewrite (eg_decode b Hb). cbn [or_err mbind result_bind].
  rewrite (allocated_ok _ Hn), (eg_compute a b Ha Hb). reflexivity.
Qed.

Lemma evp_on_exchange_ok (ops : evp_kex_ops) id `{EvpDh ops id} a b : ed_key a -> ed_key b ->
  evp_keyex_on_exchange ops (mkEvpKexCtx ops (EVP_PKEY_get1_tls_encodedpoint ops a) a) true true (EVP_PKEY_get1_tls_encodedpoint ops b)
  = (Ok (Some (ed_secret a b)), None).
Proof.
  intros Ha Hb. unfold evp_keyex_on_exchange. cbn [evp_pubkey evp_privkey negb]. rewrite (ed_point a Ha), (ed_point b Hb), Z.eqb_refl.
  destruct (ed_derive a b Ha Hb) as (p0 & p1 & p2 & c0 & c1 & c2 & n & -> & E1 & E2 & -> & E3 & E4 & E5 & Hn & E6). cbn [guard_err or_err mbind result_bind].
  rewrite E1. cbn [or_err mbind result_bind]. rewrite E2. cbn [or_err mbind result_bind]. rewrite E3. cbn [or_err mbind result_bind]. rewrite E4.
  cbn [or_err mbind result_bind]. rewrite E5. cbn [or_err mbind result_bind]. rewrite (allocated_ok n Hn). cbn [or_err mbind result_bind]. by rewrite E6.
Qed.

Lemma evp_create_ok (ops : evp_kex_ops) id `{EvpDh ops id} a : ed_key a ->
  evp_keyex_create ops (λ _, Some a) id = Ok (mkEvpKexCtx ops (EVP_PKEY_get1_tls_encodedpoint ops a) a).
Proof.
  intros Ha. unfold evp_keyex_create, evp_keyex_init. destruct ed_new as (c & c' & -> & E). cbn [or_err mbind result_bind]. rewrite E. cbn [or_err mbind result_bind].
  rewrite allocated_ok by lia. pose proof ed_size_range. cbn [mbind result_bind]. rewrite (ed_point a Ha). by rewrite (proj2 (Z.eqb_neq _ _)) by lia.
Qed.

Lemma evp_agrees (ops : evp_kex_ops) id `{EvpDh ops id} a b : ed_key a -> ed_key b ->
  kex_agrees (ptls_openssl_x25519 ops (λ _, Some a) id) (ptls_openssl_x25519 ops (λ _, Some b) id) (ed_secret a b).
Proof.
  intros Ha Hb. unfold kex_agrees. cbn [kex_create kex_exchange ptls_openssl_x25519]. rewrite (evp_create_ok ops id a Ha). cbn [mbind result_bind evp_pubkey].
  eexists _, (EVP_PKEY_get1_tls_encodedpoint ops b). split; [reflexivity|]. cbn [pubkey on_exchange]. unfold evp_keyex_exchange. rewrite (evp_create_ok ops id b Hb).
  cbn [mbind result_bind evp_pubkey]. pose proof ed_size_range. rewrite allocated_ok by (rewrite (ed_point b Hb); lia). cbn [mbind result_bind].
  rewrite (evp_on_exchange_ok ops id b a Hb Ha), (evp_on_exchange_ok ops id a b Ha Hb). cbn. by rewrite ed_secret_sym.
Qed.

Lemma kem_agrees (ops : kem_ops) id name `{EvpKem ops name} k ct s (draw draw' : KEM_CTX ops -> option (KEM_KEY ops))
    (encap encap' : KEM_CTX ops -> option (bytes * bytes)) :
  ek_key k -> (forall c, draw c = Some k) -> (forall c, kem_toward c k -> encap' c = Some (ct, s)) -> kem_wraps k ct s ->
  kex_agrees (DEFINE_MLKEM_KEYEX ops draw encap id name) (DEFINE_MLKEM_KEYEX ops draw' encap' id name) s.
Proof.
  intros Hk Hd He Hw. unfold kex_agrees. cbn [kex_create kex_exchange DEFINE_MLKEM_KEYEX]. unfold evp_kem_create, evp_kem_exchange.
  destruct ek_new as (c & c1 & c2 & key & -> & E1 & E2 & E3). rewrite (allocated_ok 40) by lia. cbn [or_err mbind result_bind]. rewrite E1.
  cbn [or_err mbind result_bind]. rewrite Hd. cbn [or_err mbind result_bind]. pose proof (ek_public k Hk). rewrite (proj2 (Z.eqb_neq _ _)) by lia.
  cbn [negb guard_err mbind result_bind]. eexists _, ct. split; [reflexivity|]. cbn [pubkey on_exchange]. rewrite E2. cbn [or_err mbind result_bind].
  rewrite E3. cbn [or_err mbind result_bind]. destruct (ek_encap k c2 key Hk E3) as (key' & d1 & d2 & n & m & -> & F1 & F2 & F3 & Hn & Hm & Hto).
  cbn [or_err mbind result_bind]. rewrite F1. cbn [or_err mbind result_bind]. rewrite F2. cbn [or_err mbind result_bind]. rewrite F3.
  cbn [or_err mbind result_bind]. rewrite (allocated_ok n Hn), (allocated_ok m Hm), (He d2 Hto). split; [reflexivity|].
  unfold evp_kem_on_exchange. destruct (ek_decap k ct s Hk Hw) as (g1 & g2 & n' & -> & G1 & G2 & Hn' & G3). cbn [negb or_err mbind result_bind].
  rewrite G1. cbn [or_err mbind result_bind]. rewrite G2. cbn [or_err mbind result_bind]. rewrite (allocated_ok n' Hn'). cbn [mbind result_bind]. by rewrite G3.
Qed.

Lemma hybrid_agrees {priv pub : Type} (gen gen' : bytes * priv) (xa xb : bytes * bytes) (encap encap' : pub -> bytes * bytes) decap (parse : bytes -> option pub) X25519 P s2 :
  length gen.1 = 1184%nat -> length xa.1 = 32%nat -> length xb.1 = 32%nat -> length (encap' P).1 = 1088%nat ->
  parse gen.1 = Some P -> decap (encap' P).1 gen.2 = Some (encap' P).2 -> X25519 xa.2 xb.1 = Some s2 -> X25519 xb.2 xa.1 = Some s2 ->
  kex_agrees (ptls_openssl_x25519mlkem768 gen xa encap decap parse X25519) (ptls_openssl_x25519mlkem768 gen' xb encap' decap parse X25519) ((encap' P).2 ++ s2).
Proof.
  intros Hg Ha Hb Hc Hp Hd HA HB. unfold kex_agrees. cbn [kex_create kex_exchange ptls_openssl_x25519mlkem768]. unfold x25519mlkem768_create.
  rewrite allocated_ok by (unfold SIZEOF_X25519MLKEM768; lia). cbn [mbind result_bind].
  eexists _, ((encap' P).1 ++ xb.1). split; [reflexivity|].
  cbn [pubkey on_exchange hybrid_pubkey]. unfold x25519mlkem768_exchange, MLKEM768_PUBLIC_KEY_BYTES, MLKEM768_CIPHERTEXT_BYTES, X25519_PUBLIC_VALUE_LEN.
  assert (len (gen.1 ++ xa.1) =? 1184 + 32 = true) as -> by (rewrite len_app; unfold len; by rewrite Hg, Ha). cbn [guard_err mbind result_bind].
  rewrite !allocated_ok by (unfold MLKEM_SHARED_SECRET_BYTES, X25519_SHARED_KEY_LEN; lia). cbn [mbind result_bind].
  rewrite take_app_length', drop_app_length', Hp by (by rewrite Hg). cbn [or_err mbind result_bind]. rewrite HB. cbn [or_err mbind result_bind].
  destruct (encap' P) as [ct s1] eqn:Ee. cbn [fst snd] in *. split; [reflexivity|]. unfold x25519mlkem768_on_exchange, MLKEM768_CIPHERTEXT_BYTES, X25519_PUBLIC_VALUE_LEN.
  assert (len (ct ++ xb.1) =? 1088 + 32 = true) as -> by (rewrite len_app; unfold len; by rewrite Hc, Hb). cbn [negb guard_err mbind result_bind].
  rewrite allocated_ok by (unfold MLKEM_SHARED_SECRET_BYTES, X25519_SHARED_KEY_LEN; lia). cbn [mbind result_bind fst hybrid_mlkem hybrid_x25519].
  rewrite take_app_length', drop_app_length' by (by rewrite Hc). cbn [hybrid_mlkem]. rewrite Hd. cbn [or_err mbind result_bind]. by rewrite HA.
Qed.
End Proofs.

(** In every key exchange of the OpenSSL backend the two sides reach one secret.  Given memory, when
    one side's context is created, the other side answers its public key and the first completes with
    the answer, both have the same secret: over the curves of X9.62 and with X25519 the one of the two keys,
    with an encapsulation the one that is wrapped, and for the hybrid of ML-KEM-768 and X25519 the two
    secrets in that order, each half taken from the right bytes of the messages. *)
Theorem openssl_kex_agree `{Allocator} :
  malloc_total ->
  (forall ec id curve (g : EcGroup ec curve) a b, eg_key a -> eg_key b ->
     kex_agrees (ptls_openssl_secp ec (λ _, Some a) id curve) (ptls_openssl_secp ec (λ _, Some b) id curve) (eg_secret a b)) /\
  (forall ops id (g : EvpDh ops id) a b, ed_key a -> ed_key b ->
     kex_agrees (ptls_openssl_x25519 ops (λ _, Some a) id) (ptls_openssl_x25519 ops (λ _, Some b) id) (ed_secret a b)) /\
  (forall ops id name (g : EvpKem ops name) k ct s draw draw' encap encap', ek_key k -> (forall c, draw c = Some k) ->
     (forall c, kem_toward c k -> encap' c = Some (ct, s)) -> kem_wraps k ct s ->
     kex_agrees (DEFINE_MLKEM_KEYEX ops draw encap id name) (DEFINE_MLKEM_KEYEX ops draw' encap' id name) s) /\
  (forall (priv pub : Type) (gen gen' : bytes * priv) (xa xb : bytes * bytes) (encap encap' : pub -> bytes * bytes) decap (parse : bytes -> option pub) X25519 P s2,
     length gen.1 = 1184%nat -> length xa.1 = 32%nat -> length xb.1 = 32%nat -> length (encap' P).1 = 1088%nat ->
     parse gen.1 = Some P -> decap (encap' P).1 gen.2 = Some (encap' P).2 -> X25519 xa.2 xb.1 = Some s2 -> X25519 xb.2 xa.1 = Some s2 ->
     kex_agrees (ptls_openssl_x25519mlkem768 gen xa encap decap parse X25519) (ptls_openssl_x25519mlkem768 gen' xb encap' decap parse X25519)
       ((encap' P).2 ++ s2)).
Proof.
  intros Ht. split_and!; intros; [by apply secp_agrees|by apply evp_agrees|by eapply kem_agrees|by apply hybrid_agrees].
Qed.

(** ** Evaluation *)

Lemma zip_lxor_comm (a b : bytes) : zip_with Z.lxor a b = zip_with Z.lxor b a.
Proof. revert b. induction a as [|x a IH]; intros [|y b]; try done. cbn. by rewrite Z.lxor_comm, IH. Qed.

(** Keys whose public half is the key, and whose secret is their sum; [encodes]: whether points are
    encoded. *)
Definition toy_ec (encodes : bool) : ec_ops :=
  mkEc unit bytes bytes (λ _, Some ()) (λ _, 256) (Some ()) (Some ()) (λ _, ()) (λ k, k) (λ _ p, Some p) (λ _ p, if encodes then p else [])
    (λ _ p k, Some (zip_with Z.lxor k p)).

#[export] Instance toy_group curve : EcGroup (toy_ec true) curve.
Proof.
  refine (Build_EcGroup (toy_ec true) curve () eq_refl (conj (ex_intro _ () eq_refl) (ex_intro _ () eq_refl)) (λ k, length k = 32%nat) _ _ _ _
            (λ a b, zip_with Z.lxor a b) zip_lxor_comm _); try done.
  intros k Hk. cbn. unfold len. rewrite Hk. lia.
Defined.

Definition toy_evp_dh : evp_kex_ops :=
  mkEvpKex bytes (bytes * bytes) (λ _, Some ([], [])) Some (λ k, k) (Some []) (λ p _, Some p) (λ _ b, Some b) (λ k, Some (k, [])) Some
    (λ c p, Some (c.1, p)) (λ _, Some 32) (λ c, Some (zip_with Z.lxor c.1 c.2)).

#[export] Instance toy_dh id : EvpDh toy_evp_dh id.
Proof.
  refine (Build_EvpDh toy_evp_dh id (λ k, length k = 32%nat) _ 32 _ _ (λ a b, zip_with Z.lxor a b) zip_lxor_comm _).
  - by eexists _, _.
  - lia.
  - intros k Hk. cbn. unfold len. by rewrite Hk.
  - intros a b _ _. eexists _, _, _, _, _, _, _. repeat (split; [reflexivity|]). cbn. split; [lia|done].
Defined.

Definition toy_kem_ops : kem_ops :=
  mkKemOps bytes bytes (λ _, Some []) Some (λ k, k) Some Some (λ _ b, Some b) Some Some (λ _, Some (32, 32)) Some (λ _ _, Some 32)
    (λ c ct, Some (zip_with Z.lxor ct c)).

#[export] Instance toy_evp_kem name : EvpKem toy_kem_ops name.
Proof.
  refine (Build_EvpKem toy_kem_ops name (λ k, 0 < len k) (λ c k, c = k) (λ k ct s, zip_with Z.lxor ct k = s) _ _ _ _).
  - by eexists _, _, _, _.
  - done.
  - intros k c key _ _. eexists _, _, _, _, _. repeat (split; [reflexivity|]). split; [lia|]. split; [lia|done].
  - intros k ct s _ <-. eexists _, _, _. repeat (split; [reflexivity|]). split; [lia|done].
Defined.

Section Evaluation.
#[local] Existing Instance bump_allocator.

Lemma openssl_kex_agree_witness :
  kex_agrees (ptls_openssl_secp (toy_ec true) (λ _, Some (replicate 32 1)) 23 415) (ptls_openssl_secp (toy_ec true) (λ _, Some (replicate 32 2)) 23 415) (replicate 32 3) /\
  kex_agrees (ptls_openssl_x25519 toy_evp_dh (λ _, Some (replicate 32 1)) 1034) (ptls_openssl_x25519 toy_evp_dh (λ _, Some (replicate 32 2)) 1034) (replicate 32 3) /\
  kex_agrees (DEFINE_MLKEM_KEYEX toy_kem_ops (λ _, Some [1; 2]) (λ _, None) 513 (str "MLKEM768"))
    (DEFINE_MLKEM_KEYEX toy_kem_ops (λ _, None) (λ _, Some ([4; 4], [5; 6])) 513 (str "MLKEM768")) [5; 6].
Proof.
  pose proof (openssl_kex_agree bump_total) as (H1 & H2 & H3 & _). split; [|split].
  - exact (H1 (toy_ec true) 23 415 _ (replicate 32 1) (replicate 32 2) eq_refl eq_refl).
  - exact (H2 toy_evp_dh 1034 _ (replicate 32 1) (replicate 32 2) eq_refl eq_refl).
  - apply (H3 toy_kem_ops 513 (str "MLKEM768") _ [1; 2] [4; 4] [5; 6]); [reflexivity|reflexivity|reflexivity|reflexivity].
Defined.

(** When the public key cannot be encoded, the reference that the caller added is released twice: the
    key that the application still holds has none left. *)
Example create_key_exchange_releases_twice :
  create_ec_key_exchange (toy_ec false) true (replicate 32 1) 1 = (Err PTLS_ERROR_NO_MEMORY, 0).
Proof. vm_compute. reflexivity. Qed.
End Evaluation.
