(* ===== verification/Record.v ===== *)
(** * Record: the record layer ([lib/picotls.c])

    Sealing: splitting data into records and encrypting them into the send buffer, in TLS 1.3 and in
    TLS 1.2 format.  Opening: assembling records from the bytes that arrive, one call at a time. *)

From S2P Require Import Prelude Constants Wire Buffer Crypto KeySchedule Tls.

(** ** Sealing *)

(* src lib/picotls.c:767-774 build_aad *)
Definition build_aad (reclen : Z) : bytes :=
  [PTLS_CONTENT_TYPE_APPDATA; PTLS_RECORD_VERSION_MAJOR; PTLS_RECORD_VERSION_MINOR;
   u8 (Z.shiftr reclen 8); u8 reclen].

(* src lib/picotls.c:801-810 build_tls12_aad *)
Definition build_tls12_aad (type seq length : Z) : bytes :=
  ((λ i, u8 (Z.shiftr seq (56 - i * 8))) <$> [0; 1; 2; 3; 4; 5; 6; 7]) ++
  [type; PTLS_RECORD_VERSION_MAJOR; PTLS_RECORD_VERSION_MINOR; u8 (Z.shiftr length 8); u8 length].

(** The buffer being written and the traffic protection being used. *)
Record rec_env := mkRec { rec_buf : ptls_buffer_t; rec_enc : st_ptls_traffic_protection_t }.

#[global] Instance rec_has_buffer : HasBuffer rec_env.
Proof. by refine {| get_buf := rec_buf; put_buf := λ b e, mkRec b (rec_enc e) |}; [|intros []|]. Defined.

Definition on_enc {A} (f : st_ptls_traffic_protection_t -> A * st_ptls_traffic_protection_t) : M rec_env A :=
  λ e, let '(a, t) := f (rec_enc e) in (Ok a, mkRec (rec_buf e) t).

(** Writing [src] at the offset, into space that has been reserved, and moving the offset. *)
Definition append_reserved (src : bytes) (b : ptls_buffer_t) : ptls_buffer_t :=
  set_off (off b + len src) (set_mem (mem_write (mem b) (off b) src) b).

Section Seal.
Context `{Allocator}.

(** The ciphertext, with the counter advanced; [aead] is not NULL where it is called. *)
(* src lib/picotls.c:776-786 aead_encrypt *)
Definition aead_encrypt (a : ptls_aead_context_t) (input : bytes) (content_type : Z)
    (tp : st_ptls_traffic_protection_t) : bytes * st_ptls_traffic_protection_t :=
  let aad := build_aad (len input + 1 + tag_size (aead_algo a)) in
  (ptls_aead_encrypt_v a [input; [content_type]] (seq tp) aad, set_seq (u64 (seq tp + 1)) tp).

(* src lib/picotls.c:788-797 aead_decrypt *)
Definition aead_decrypt (a : ptls_aead_context_t) (input : bytes) (tp : st_ptls_traffic_protection_t)
    : result bytes * st_ptls_traffic_protection_t :=
  match ptls_aead_decrypt a input (seq tp) (build_aad (len input)) with
  | None => (Err PTLS_ALERT_BAD_RECORD_MAC, tp)
  | Some output => (Ok output, set_seq (u64 (seq tp + 1)) tp)
  end.

(* src lib/picotls.c:812-816 buffer_push_record *)
Definition buffer_push_record {S A} `{HasBuffer S} (type : Z) (block : M S A) : M S A :=
  _ ← ptls_buffer_push [type; PTLS_RECORD_VERSION_MAJOR; PTLS_RECORD_VERSION_MINOR];
  ptls_buffer_push_block 2 block.

(** The body of a TLS 1.2 record. *)
(* src lib/picotls.c:828-850 tls12 *)
Definition push_tls12_body (a : ptls_aead_context_t) (type : Z) (src : bytes) : M rec_env unit :=
  let algo := aead_algo a in
  _ ← on_buf (reserve_aligned (tls12_record_iv_size algo + len src + tag_size algo)
                (aead_align_bits algo) 1);
  nonce ← (if negb (tls12_record_iv_size algo =? 0) then
             _ ← lift (guard_err (tls12_record_iv_size algo =? 8) ABORTED);
             nonce ← on_enc (λ t, (tls12_enc_record_iv t,
                                   set_tls12_enc_record_iv (u64 (tls12_enc_record_iv t + 1)) t));
             _ ← on_buf (modify (append_reserved (encode64 nonce)));
             mret nonce
           else gets (λ e, seq (rec_enc e)));
  s ← gets (λ e, seq (rec_enc e));
  let aad := build_tls12_aad type s (u16 (len src)) in
  _ ← on_buf (modify (append_reserved (ptls_aead_encrypt a src nonce aad)));
  on_enc (λ t, ((), set_seq (u64 (seq t + 1)) t)).

(** The body of a TLS 1.3 record. *)
(* src lib/picotls.c:852-857 aead_encrypt *)
Definition push_tls13_body (a : ptls_aead_context_t) (type : Z) (src : bytes) : M rec_env unit :=
  let algo := aead_algo a in
  _ ← on_buf (reserve_aligned (len src + tag_size algo + 1) (aead_align_bits algo) 1);
  c ← on_enc (aead_encrypt a src type);
  on_buf (modify (append_reserved c)).

(** The loop; [fuel] bounds the number of records. *)
(* src lib/picotls.c:823-861 chunk_size *)
Fixpoint push_records_loop (fuel : nat) (a : ptls_aead_context_t) (type : Z) (src : bytes)
    : M rec_env unit :=
  if len src =? 0 then mret ()
  else
    match fuel with
    | O => fail OUT_OF_FUEL
    | S fuel =>
        let chunk_size := if PTLS_MAX_PLAINTEXT_RECORD_SIZE <? len src
                          then PTLS_MAX_PLAINTEXT_RECORD_SIZE else len src in
        let chunk := take (Z.to_nat chunk_size) src in
        t12 ← gets (λ e, tls12 (rec_enc e));
        _ ← (if (t12 : bool) then buffer_push_record type (push_tls12_body a type chunk)
             else buffer_push_record PTLS_CONTENT_TYPE_APPDATA (push_tls13_body a type chunk));
        push_records_loop fuel a type (drop (Z.to_nat chunk_size) src)
    end.

(* src lib/picotls.c:818-865 buffer_push_encrypted_records *)
Definition buffer_push_encrypted_records (a : ptls_aead_context_t) (type : Z) (src : bytes)
    : M rec_env unit :=
  push_records_loop (length src) a type src.

(** Overwrites bytes of the data. *)
Definition poke (i : Z) (src : bytes) (b : ptls_buffer_t) : ptls_buffer_t :=
  set_mem (mem_write (mem b) i src) b.

(* src lib/picotls.c:867-906 buffer_encrypt_record *)
Definition buffer_encrypt_record (a : ptls_aead_context_t) (rec_start : Z) : M rec_env unit :=
  b ← gets rec_buf;
  t12 ← gets (λ e, tls12 (rec_enc e));
  let bodylen := off b - rec_start - 5 in
  let type := byte_at (drop (Z.to_nat rec_start) (mem b)) 0 in
  let body := take (Z.to_nat bodylen) (drop (Z.to_nat (rec_start + 5)) (mem b)) in
  if negb t12 && (bodylen <=? PTLS_MAX_PLAINTEXT_RECORD_SIZE) then
    let overhead := 1 + tag_size (aead_algo a) in
    _ ← on_buf (reserve_aligned overhead (aead_align_bits (aead_algo a)) 1);
    c ← on_enc (aead_encrypt a body type);
    let encrypted_len := len c in
    on_buf (modify (λ b,
      poke (rec_start + 4) [Z.land encrypted_len 0xff]
        (poke (rec_start + 3) [Z.land (Z.shiftr encrypted_len 8) 0xff]
           (poke rec_start [PTLS_CONTENT_TYPE_APPDATA]
              (set_off (off b + overhead) (poke (rec_start + 5) c b))))))
  else
    match malloc bodylen with
    | None => fail PTLS_ERROR_NO_MEMORY
    | Some _ =>
        _ ← on_buf (modify (λ b,
              set_off rec_start (poke rec_start (replicate (Z.to_nat (bodylen + 5)) 0) b)));
        buffer_push_encrypted_records a type body
    end.

(** [begin_record_message] gives [rec_start]. *)
(* src lib/picotls.c:908-918 begin_record_message *)
Definition begin_record_message : M rec_env Z :=
  rec_start ← gets (λ e, off (rec_buf e));
  _ ← ptls_buffer_push [PTLS_CONTENT_TYPE_HANDSHAKE; PTLS_RECORD_VERSION_MAJOR; PTLS_RECORD_VERSION_MINOR; 0; 0];
  mret rec_start.

(* src lib/picotls.c:920-937 commit_record_message *)
Definition commit_record_message (rec_start : Z) : M rec_env unit :=
  a ← gets (λ e, aead (rec_enc e));
  match a with
  | Some a => buffer_encrypt_record a rec_start
  | None =>
      b ← gets rec_buf;
      let sz := off b - rec_start - 5 in
      _ ← lift (guard_err (sz <=? PTLS_MAX_PLAINTEXT_RECORD_SIZE) ABORTED);
      on_buf (modify (λ b, poke (rec_start + 4) [u8 sz] (poke (rec_start + 3) [u8 (Z.shiftr sz 8)] b)))
  end.

End Seal.

(** ** Reasoning about buffers inside a larger state

    [triple P m r Q]: as [emits], from the states that satisfy [P]; and the state reached satisfies
    [Q] of the value or error returned. *)

Definition triple {S A} `{HasBuffer S} (P : S -> Prop) (m : M S A) (r : result (A * bytes))
    (Q : result A -> S -> Prop) : Prop :=
  forall s, buf_wf (get_buf s) -> P s ->
  outcome r (contents (get_buf s)) (tx (get_buf s)) (m s) /\ Q (m s).1 (m s).2.

(** A property of the state that does not depend on the buffer, but for its direction. *)
Definition stable {S} `{HasBuffer S} (P : S -> Prop) : Prop :=
  forall b s, tx b = tx (get_buf s) -> P s -> P (put_buf b s).

Section Triples.
Context `{Allocator} {S : Type} `{HasBuffer S}.

Lemma triple_on_buf {A} (P : S -> Prop) (m : M ptls_buffer_t A) r :
  stable P -> emits m r -> triple P (on_buf m) r (λ _, P).
Proof.
  intros HP Hm s Hw Hs. split; [by apply emits_on_buf|]. specialize (Hm (get_buf s) Hw).
  unfold on_buf. destruct (m (get_buf s)) as [o b]. destruct Hm as (_ & Ht & _). by apply HP.
Qed.

Lemma triple_bind {A B} (P : S -> Prop) (m : M S A) (f : A -> M S B) a bs r Q R :
  triple P m (Ok (a, bs)) Q -> (forall e s, Q (Err e) s -> R (Err e) s) ->
  triple (Q (Ok a)) (f a) r R ->
  triple P (m ≫= f) ('(b, cs) ← r; Ok (b, bs ++ cs)) R.
Proof.
  intros Hm He Hf s Hw Hs. destruct (Hm s Hw Hs) as [Ho HQ]. clear Hm. rewrite M_bind_run.
  destruct (m s) as [[a'|e] s1]; cbn [fst snd] in *.
  - destruct Ho as (Hw1 & Ht1 & -> & Hc1). cbn [fst snd] in *. destruct (Hf s1 Hw1 HQ) as [Ho2 HR].
    split; [|done]. destruct (f a s1) as [o s2]. destruct Ho2 as (Hw2 & Ht2 & Ho2). cbn [fst snd] in *.
    split; [done|]. split; [by etrans|].
    destruct r as [[b cs]|e1]; simpl; destruct o as [b'|e2]; try done.
    + destruct Ho2 as [-> ->]. by rewrite Hc1, app_assoc.
    + destruct Ho2 as [[->|(?&?&?)] (ds & Hd)]; [|done]. split; [by left|]. exists (bs ++ ds).
      by rewrite app_assoc, <- Hc1.
    + destruct Ho2 as [Hee (ds & Hd)]. split; [naive_solver|]. exists (bs ++ ds). by rewrite app_assoc, <- Hc1.
  - split; [|by apply He]. destruct Ho as (Hw1 & Ht1 & [->|(?&?&?)] & Hc1); [|done].
    split; [done|]. split; [done|]. destruct r as [[b cs]|e1]; simpl; (split; [by left|done]).
Qed.

Lemma triple_seq {A B} (P : S -> Prop) (m : M S A) (k : M S B) a b bs cs Q R :
  triple P m (Ok (a, bs)) Q -> (forall e s, Q (Err e) s -> R (Err e) s) ->
  triple (Q (Ok a)) k (Ok (b, cs)) R ->
  triple P (_ ← m; k) (Ok (b, bs ++ cs)) R.
Proof. intros Hm He Hk. apply (triple_bind P m (λ _, k) a bs (Ok (b, cs)) Q R Hm He Hk). Qed.

Lemma triple_ret {A} (P : S -> Prop) (a : A) (Q : result A -> S -> Prop) :
  (forall s, P s -> Q (Ok a) s) -> triple P (mret a) (Ok (a, [])) Q.
Proof. intros HQ s Hw Hs. split; [by apply emits_ret|]. by apply HQ. Qed.

Lemma triple_gets {A B} (P : S -> Prop) (f : S -> A) v (k : A -> M S B) r Q :
  (forall s, P s -> f s = v) -> triple P (k v) r Q -> triple P (gets f ≫= k) r Q.
Proof. intros Hf Hk s Hw Hs. rewrite !M_bind_run. unfold gets. rewrite (Hf s Hs). by apply Hk. Qed.

Lemma triple_pushv (P : S -> Prop) src : stable P -> triple P (ptls_buffer_pushv src) (Ok ((), src)) (λ _, P).
Proof. intros HP. apply triple_on_buf; [done|apply emits_do_pushv]. Qed.

Lemma triple_push (P : S -> Prop) l :
  stable P -> is_bytes l -> triple P (ptls_buffer_push l) (Ok ((), l)) (λ _, P).
Proof.
  intros HP Hl. unfold ptls_buffer_push. replace (u8 <$> l) with l; [by apply triple_pushv|].
  induction Hl; [done|]. simpl. by rewrite u8_small by done; f_equal.
Qed.

(** A block with a length field, below its limit. *)
Lemma triple_push_block {A} (P : S -> Prop) (cap : nat) (block : M S A) a bs (Q : result A -> S -> Prop) :
  (1 <= cap <= 7)%nat -> len bs < 256 ^ Z.of_nat cap -> stable P -> stable (Q (Ok a)) ->
  (forall e s, P s -> Q (Err e) s) ->
  triple P block (Ok (a, bs)) Q ->
  triple P (ptls_buffer_push_block (Z.of_nat cap) block) (Ok (a, be_encode cap (len bs) ++ bs)) Q.
Proof.
  intros Hc Hl HP HQ HE Hb s Hw Hs. unfold ptls_buffer_push_block. rewrite (proj2 (Z.eqb_neq _ _)) by lia.
  rewrite Nat2Z.id, M_bind_run. set (z := replicate cap 0).
  destruct (triple_pushv P z HP s Hw Hs) as [Ho1 HP1].
  destruct (ptls_buffer_pushv z s) as [[[]|e] s1]; cbn [fst snd] in *.
  2:{ split; [|by apply HE]. destruct Ho1 as (Hw1 & Ht1 & [->|(?&?&?)] & Hc1); [|done].
      split; [done|]. split; [done|]. split; [by left|done]. }
  destruct Ho1 as (Hw1 & Ht1 & _ & Hc1). cbn [fst snd] in *. rewrite M_bind_run. cbn [gets].
  rewrite M_bind_run. destruct (Hb s1 Hw1 HP1) as [Ho2 HQ2].
  destruct (block s1) as [[a'|e] s2]; cbn [fst snd] in *.
  2:{ split; [|done]. destruct Ho2 as (Hw2 & Ht2 & [->|(?&?&?)] & ds & Hd); [|done].
      split; [done|]. split; [by etrans|]. split; [by left|]. exists (z ++ ds).
      cbn in *. by rewrite Hd, Hc1, app_assoc. }
  destruct Ho2 as (Hw2 & Ht2 & -> & Hc2). cbn [fst snd] in *. rewrite M_bind_run. cbn [gets].
  rewrite <- (contents_len _ Hw1), <- (contents_len _ Hw2), Hc2, Hc1, !len_app.
  set (c := contents (get_buf s)). replace (len c + len z + len bs - (len c + len z)) with (len bs) by lia.
  rewrite Z.shiftl_1_l, Z.mul_comm, Z.pow_mul_r by lia. change (2 ^ 8) with 256.
  rewrite (proj2 (Z.leb_gt _ _)) by done. rewrite andb_false_r. cbn [negb].
  rewrite M_bind_run. unfold on_buf, modify. cbn [mret M_ret fst snd].
  destruct (overwrite_contents (get_buf s2) c z (be_encode cap (len bs)) bs
    (store_size cap (len c + len z) (len bs))) as [Hw' Hc']; [done| | | |].
  - by rewrite Hc2, Hc1, <- app_assoc.
  - unfold z, len. by rewrite be_encode_length, length_replicate.
  - intros tl. apply store_size_spec. by unfold z; rewrite length_replicate.
  - split; [|by apply HQ]. unfold outcome, mret, M_ret. cbn [fst snd]. rewrite get_put_buf. split; [done|].
    split; [by etrans|done].
Qed.

(** Reserving [delta] bytes in a send buffer and appending [src] there. *)
Lemma reserve_append_cases delta align src b :
  buf_wf b -> tx b = 1 -> 0 <= align < 64 -> len src <= delta ->
  match reserve_aligned delta align 1 b with
  | (Ok _, b') => buf_wf b' /\ contents b' = contents b /\ tx b' = tx b /\
      buf_wf (append_reserved src b') /\ contents (append_reserved src b') = contents b ++ src
  | (Err e, b') => e = PTLS_ERROR_NO_MEMORY /\ b' = b
  end.
Proof.
  intros Hw Ht Ha Hl. pose proof (len_nonneg src).
  pose proof (reserve_aligned_cases delta align 1 b Hw ltac:(lia) Ha) as Hr.
  destruct (reserve_aligned delta align 1 b) as [[[]|e] b'].
  - destruct Hr as (Hw' & Hc & Ho & Ht' & _ & Hcap & _).
    destruct (append_at_off b' src Hw') as [? Hc']; [lia|]. rewrite Hc in Hc'. by split_and!.
  - destruct Hr as (-> & [[? ?]|(_ & -> & _)]); [congruence|done].
Qed.

(** A value that is computed after the room for it was reserved. *)
Lemma triple_reserve_append t n (v : result bytes) x :
  t = 0 \/ t = 1 -> gives v x -> len x <= n ->
  triple (λ b, tx b = t) (_ ← reserve n t; v ← lift v; modify (append_reserved v)) (Ok ((), x)) (λ _ b, tx b = t).
Proof.
  intros Ht Hv Hl b Hw Hb. rewrite !M_bind_run. unfold reserve. pose proof (len_nonneg x).
  pose proof (reserve_aligned_cases n 0 t b Hw ltac:(lia) ltac:(lia)) as Hr.
  destruct (reserve_aligned _ 0 t b) as [[[]|e] b'].
  - destruct Hr as (Hw' & Hc & Ho & Ht' & _ & Hcap & _). rewrite M_bind_run. cbn [lift].
    destruct Hv as [-> | ->]; cbn [modify fst snd].
    + destruct (append_at_off b' x Hw') as [Hw2 Hc2]; [lia|]. rewrite Hc in Hc2. fold (append_reserved x b') in Hw2, Hc2.
      split; [|cbn; congruence]. split; [done|]. split; [done|]. done.
    + split; [|congruence]. split; [done|]. split; [done|]. split; [by left|]. exists []. by rewrite app_nil_r.
  - destruct Hr as (-> & [[? ?]|(_ & -> & _)]); [congruence|]. cbn [fst snd].
    split; [|done]. split; [done|]. split; [done|]. split; [by left|]. exists []. by rewrite app_nil_r.
Qed.

End Triples.

(** ** Sealed records *)

Definition advance (n : Z) (tp : st_ptls_traffic_protection_t) : st_ptls_traffic_protection_t :=
  set_seq (u64 (seq tp + n)) tp.

(** The ciphertext and the whole TLS 1.3 record of a fragment, under the current counter. *)
Definition sealed13 (a : ptls_aead_context_t) (type : Z) (chunk : bytes) (tp : st_ptls_traffic_protection_t)
    : bytes :=
  ptls_aead_encrypt a (chunk ++ [type]) (seq tp) (build_aad (len chunk + 1 + tag_size (aead_algo a))).

Definition record13 (a : ptls_aead_context_t) (type : Z) (chunk : bytes) (tp : st_ptls_traffic_protection_t)
    : bytes :=
  [PTLS_CONTENT_TYPE_APPDATA; PTLS_RECORD_VERSION_MAJOR; PTLS_RECORD_VERSION_MINOR] ++
  be_encode 2 (len (sealed13 a type chunk tp)) ++ sealed13 a type chunk tp.

(** Fragments of at most 2^14 bytes, all but the last full. *)
Fixpoint fragments (fuel : nat) (src : bytes) : list bytes :=
  match fuel, src with
  | S fuel, _ :: _ =>
      take (Z.to_nat PTLS_MAX_PLAINTEXT_RECORD_SIZE) src ::
      fragments fuel (drop (Z.to_nat PTLS_MAX_PLAINTEXT_RECORD_SIZE) src)
  | _, _ => []
  end.

(** The records of a list of fragments, the counter advancing by one each. *)
Fixpoint records13 (a : ptls_aead_context_t) (type : Z) (chunks : list bytes)
    (tp : st_ptls_traffic_protection_t) : bytes :=
  match chunks with
  | [] => []
  | c :: cs => record13 a type c tp ++ records13 a type cs (advance 1 tp)
  end.

Section SealProofs.
Context `{Allocator}.

(** The states of a TLS 1.3 sender whose traffic protection is [tp]. *)
Definition sender (tp : st_ptls_traffic_protection_t) (e : rec_env) : Prop :=
  rec_enc e = tp /\ tx (rec_buf e) = 1.

Lemma sender_stable tp : stable (sender tp).
Proof. intros b e Ht [He Hb]. split; [done|]. cbn in *. congruence. Qed.

Lemma sealed13_len a type chunk tp :
  aead_ok (aead_algo a) -> len (sealed13 a type chunk tp) = len chunk + 1 + tag_size (aead_algo a).
Proof.
  intros Ha. unfold sealed13, ptls_aead_encrypt. rewrite (seal_len _ Ha), len_app, len_cons, len_nil. lia.
Qed.

Lemma push_tls13_body_run a type chunk e :
  push_tls13_body a type chunk e
  = match reserve_aligned (len chunk + tag_size (aead_algo a) + 1) (aead_align_bits (aead_algo a)) 1
            (rec_buf e) with
    | (Ok _, b) => (Ok (), mkRec (append_reserved (sealed13 a type chunk (rec_enc e)) b) (advance 1 (rec_enc e)))
    | (Err er, b) => (Err er, mkRec b (rec_enc e))
    end.
Proof.
  unfold push_tls13_body. rewrite M_bind_run. unfold on_buf at 1. cbn [get_buf put_buf rec_has_buffer].
  by destruct (reserve_aligned _ _ 1 (rec_buf e)) as [[[]|er] b].
Qed.

Lemma triple_tls13_body a type chunk tp :
  aead_ok (aead_algo a) ->
  triple (sender tp) (push_tls13_body a type chunk) (Ok ((), sealed13 a type chunk tp))
    (λ o, match o with Ok _ => sender (advance 1 tp) | Err _ => sender tp end).
Proof.
  intros Ha e Hw [He Ht]. rewrite push_tls13_body_run, He.
  pose proof (reserve_append_cases (len chunk + tag_size (aead_algo a) + 1) (aead_align_bits (aead_algo a))
    (sealed13 a type chunk tp) (rec_buf e) Hw Ht (align_range _ Ha)) as Hr.
  rewrite sealed13_len in Hr by done. specialize (Hr ltac:(lia)).
  destruct (reserve_aligned _ _ 1 (rec_buf e)) as [[[]|er] b'].
  - destruct Hr as (Hw' & Hc & Ht' & Hw2 & Hc2). cbn [fst snd].
    split; [|by split; [|cbn; congruence]]. split; [done|]. split; [done|]. split; [done|]. exact Hc2.
  - destruct Hr as [-> ->]. cbn [fst snd]. split; [|done].
    split; [done|]. split; [done|]. split; [by left|]. exists []. by rewrite app_nil_r.
Qed.

Lemma triple_record13 a type chunk tp :
  aead_ok (aead_algo a) -> len chunk <= PTLS_MAX_PLAINTEXT_RECORD_SIZE ->
  triple (sender tp) (buffer_push_record PTLS_CONTENT_TYPE_APPDATA (push_tls13_body a type chunk))
    (Ok ((), record13 a type chunk tp))
    (λ o, match o with Ok _ => sender (advance 1 tp) | Err _ => sender tp end).
Proof.
  intros Ha Hl. unfold buffer_push_record, record13. pose proof (tag_size_range _ Ha).
  eapply triple_seq with (Q := λ _, sender tp) (a := ()); [|done|].
  - apply triple_push; [apply sender_stable|]. apply (bool_decide_unpack _). vm_compute. exact I.
  - change 2 with (Z.of_nat 2). apply triple_push_block; try done; try lia.
    + rewrite sealed13_len by done. unfold PTLS_MAX_PLAINTEXT_RECORD_SIZE in Hl.
      change (256 ^ Z.of_nat 2) with 65536. lia.
    + apply sender_stable.
    + apply sender_stable.
    + by apply triple_tls13_body.
Qed.

Lemma fragments_sizes fuel src :
  Forall (λ c, 0 < len c <= PTLS_MAX_PLAINTEXT_RECORD_SIZE) (fragments fuel src).
Proof.
  revert src. induction fuel as [|fuel IH]; intros src; cbn [fragments]; [constructor|].
  destruct src as [|b src]; [constructor|]. constructor; [|apply IH].
  rewrite len_take, len_cons. pose proof (len_nonneg src). unfold PTLS_MAX_PLAINTEXT_RECORD_SIZE. lia.
Qed.

Lemma fragments_concat fuel src : (length src <= fuel)%nat -> concat (fragments fuel src) = src.
Proof.
  revert src. induction fuel as [|fuel IH]; intros src Hf; cbn [fragments].
  - destruct src; [done|]. simpl in Hf. lia.
  - destruct src as [|b src]; [done|]. cbn [concat]. rewrite IH; [by rewrite take_drop|].
    rewrite length_drop. cbn [length] in *. unfold PTLS_MAX_PLAINTEXT_RECORD_SIZE. lia.
Qed.

Lemma advance_advance i j tp : advance j (advance i tp) = advance (i + j) tp.
Proof.
  unfold advance, set_seq, u64. cbn. f_equal. rewrite Z.add_mod_idemp_l by lia. f_equal. lia.
Qed.

Lemma advance_0 tp : 0 <= seq tp < 2 ^ 64 -> advance 0 tp = tp.
Proof. intros Hs. unfold advance, set_seq. rewrite Z.add_0_r, u64_small by done. by destruct tp. Qed.

(** The fragment the code cuts off. *)
Lemma chunk_cut (src : bytes) :
  let n := if PTLS_MAX_PLAINTEXT_RECORD_SIZE <? len src then PTLS_MAX_PLAINTEXT_RECORD_SIZE else len src in
  take (Z.to_nat n) src = take (Z.to_nat PTLS_MAX_PLAINTEXT_RECORD_SIZE) src /\
  drop (Z.to_nat n) src = drop (Z.to_nat PTLS_MAX_PLAINTEXT_RECORD_SIZE) src.
Proof.
  cbn zeta. destruct (Z.ltb_spec PTLS_MAX_PLAINTEXT_RECORD_SIZE (len src)); [done|].
  rewrite to_nat_len, !firstn_all, !drop_all.
  unfold len in *. rewrite take_ge, drop_ge by lia. done.
Qed.

Lemma triple_push_records a type fuel src tp :
  aead_ok (aead_algo a) -> (length src <= fuel)%nat -> tls12 tp = false -> 0 <= seq tp < 2 ^ 64 ->
  triple (sender tp) (push_records_loop fuel a type src)
    (Ok ((), records13 a type (fragments fuel src) tp))
    (λ o e, match o with
            | Ok _ => sender (advance (len (fragments fuel src)) tp) e
            | Err _ => exists k, 0 <= k <= len (fragments fuel src) /\ sender (advance k tp) e
            end).
Proof.
  intros Ha. revert src tp. induction fuel as [|fuel IH]; intros src tp Hf Ht12 Hseq.
  - destruct src; [|simpl in Hf; lia]. cbn [push_records_loop fragments records13]. rewrite !len_nil.
    apply triple_ret. intros e He. by rewrite advance_0.
  - destruct src as [|b src].
    { cbn [push_records_loop fragments records13]. rewrite !len_nil.
      apply triple_ret. intros e He. by rewrite advance_0. }
    set (all := b :: src) in *. assert (0 < len all) as Hpos
      by (unfold all; rewrite len_cons; pose proof (len_nonneg src); lia).
    change (fragments (S fuel) all) with
      (take (Z.to_nat PTLS_MAX_PLAINTEXT_RECORD_SIZE) all ::
       fragments fuel (drop (Z.to_nat PTLS_MAX_PLAINTEXT_RECORD_SIZE) all)).
    cbn [push_records_loop records13]. rewrite (proj2 (Z.eqb_neq _ 0)) by lia.
    destruct (chunk_cut all) as [-> ->]. set (chunk := take _ all). set (rest := drop _ all).
    rewrite len_cons. set (n := len (fragments fuel rest)). assert (0 <= n) by apply len_nonneg.
    apply triple_gets with (v := false); [by intros e [-> _]|].
    assert (len chunk <= PTLS_MAX_PLAINTEXT_RECORD_SIZE) as Hchunk.
    { unfold chunk. rewrite len_take. unfold PTLS_MAX_PLAINTEXT_RECORD_SIZE. lia. }
    eapply triple_seq with (a := ())
      (Q := λ o, match o with Ok _ => sender (advance 1 tp) | Err _ => sender tp end).
    + by apply triple_record13.
    + intros er s Hs. exists 0. split; [lia|]. by rewrite advance_0.
    + assert (0 <= seq (advance 1 tp) < 2 ^ 64) as Hs1 by apply u64_range.
      assert (length rest <= fuel)%nat as Hrest.
      { unfold rest. rewrite length_drop. unfold all in *. cbn [length] in *.
        unfold PTLS_MAX_PLAINTEXT_RECORD_SIZE. lia. }
      intros s Hws Hs. destruct (IH rest (advance 1 tp) Hrest Ht12 Hs1 s Hws Hs) as [Ho HQ].
      split; [exact Ho|]. destruct (push_records_loop fuel a type rest s) as [[[]|er] s']; cbn [fst snd] in *.
      * by rewrite advance_advance in HQ.
      * destruct HQ as (k & Hk & HQ). rewrite advance_advance in HQ. exists (1 + k). fold n in Hk. split; [lia|done].
Qed.


(** ** Encrypting a record that is already in the buffer *)

Lemma land_ff x : Z.land x 0xff = u8 x.
Proof. change 0xff with (Z.ones 8). by rewrite Z.land_ones. Qed.

Lemma be_encode_2 n : be_encode 2 n = [u8 (Z.shiftr n 8); u8 n].
Proof. reflexivity. Qed.

(** Overwriting a header [t; 3; 3; x; y] and what follows it. *)
Lemma poke_record (c body tail cipher : bytes) t x y n :
  len cipher <= len body + len tail ->
  exists tail', len tail' = len body + len tail - len cipher /\
  mem_write (mem_write (mem_write (mem_write (c ++ [t; 3; 3; x; y] ++ body ++ tail)
    (len c + 5) cipher) (len c) [PTLS_CONTENT_TYPE_APPDATA])
    (len c + 3) [Z.land (Z.shiftr n 8) 0xff]) (len c + 4) [Z.land n 0xff]
  = c ++ [PTLS_CONTENT_TYPE_APPDATA; 3; 3] ++ be_encode 2 n ++ cipher ++ tail'.
Proof.
  intros Hl. pose proof (len_nonneg cipher).
  destruct (take_len_split (body ++ tail) (len cipher)) as (p & q & E & Hp); [rewrite len_app; lia|].
  exists q. split; [apply (f_equal len) in E; rewrite !len_app in E; lia|].
  rewrite E, !land_ff, be_encode_2.
  replace (len c + 5) with (len (c ++ [t; 3; 3; x; y])) by (by rewrite len_app).
  rewrite (app_assoc c [t; 3; 3; x; y]), (mem_write_app _ p q cipher) by done. rewrite <- app_assoc.
  change (c ++ [t; 3; 3; x; y] ++ cipher ++ q) with (c ++ [t] ++ [3; 3; x; y] ++ cipher ++ q).
  rewrite (mem_write_app c [t] _ [PTLS_CONTENT_TYPE_APPDATA]) by done.
  replace (len c + 3) with (len (c ++ [PTLS_CONTENT_TYPE_APPDATA; 3; 3])) by (by rewrite len_app).
  change (c ++ [PTLS_CONTENT_TYPE_APPDATA] ++ [3; 3; x; y] ++ cipher ++ q)
    with (c ++ [PTLS_CONTENT_TYPE_APPDATA; 3; 3] ++ [x] ++ [y] ++ cipher ++ q).
  rewrite (app_assoc c [PTLS_CONTENT_TYPE_APPDATA; 3; 3]).
  rewrite (mem_write_app _ [x] _ [u8 (Z.shiftr n 8)]) by done.
  replace (len c + 4) with (len ((c ++ [PTLS_CONTENT_TYPE_APPDATA; 3; 3]) ++ [u8 (Z.shiftr n 8)]))
    by (rewrite !len_app; change (len [PTLS_CONTENT_TYPE_APPDATA; 3; 3]) with 3;
        change (len [u8 (Z.shiftr n 8)]) with 1; lia).
  rewrite (app_assoc (c ++ _) [u8 (Z.shiftr n 8)]), (mem_write_app _ [y] _ [u8 n]) by done.
  by rewrite <- !app_assoc.
Qed.

(** The parts of the record as the code reads them. *)
Lemma record_parts b c t x y body :
  buf_wf b -> contents b = c ++ [t; 3; 3; x; y] ++ body ->
  off b - len c - 5 = len body /\ byte_at (drop (Z.to_nat (len c)) (mem b)) 0 = t /\
  take (Z.to_nat (len body)) (drop (Z.to_nat (len c + 5)) (mem b)) = body.
Proof.
  intros Hw Hc. pose proof (contents_len b Hw) as Ho. rewrite Hc, !len_app in Ho.
  change (len [t; 3; 3; x; y]) with 5 in Ho.
  pose proof (contents_mem b Hw) as Hm. rewrite Hc, <- !app_assoc in Hm. set (tl := drop _ _) in Hm.
  split; [lia|]. split; [by rewrite Hm, drop_len_app|].
  rewrite Hm. replace (len c + 5) with (len (c ++ [t; 3; 3; x; y])) by (by rewrite len_app).
  by rewrite (app_assoc c [t; 3; 3; x; y]), drop_len_app, take_len_app.
Qed.

(** The in-place path. *)
Lemma encrypt_record_fast a c t x y body e :
  aead_ok (aead_algo a) -> buf_wf (rec_buf e) -> tx (rec_buf e) = 1 -> tls12 (rec_enc e) = false ->
  contents (rec_buf e) = c ++ [t; 3; 3; x; y] ++ body -> len body <= PTLS_MAX_PLAINTEXT_RECORD_SIZE ->
  match buffer_encrypt_record a (len c) e with
  | (Ok _, e') => buf_wf (rec_buf e') /\ contents (rec_buf e') = c ++ record13 a t body (rec_enc e) /\
                  rec_enc e' = advance 1 (rec_enc e)
  | (Err er, e') => er = PTLS_ERROR_NO_MEMORY /\ e' = e
  end.
Proof.
  intros Ha Hw Ht H12 Hc Hl. pose proof (len_nonneg body). pose proof (len_nonneg c).
  pose proof (contents_len _ Hw) as Ho. rewrite Hc, !len_app in Ho. change (len [t; 3; 3; x; y]) with 5 in Ho.
  destruct (record_parts _ _ _ _ _ _ Hw Hc) as (Hlen & Htype & Hbody).
  unfold buffer_encrypt_record. rewrite M_bind_run. cbn [gets]. rewrite M_bind_run. cbn [gets].
  rewrite H12, Hlen, Htype, Hbody, (proj2 (Z.leb_le _ _)) by done. cbn [negb andb].
  rewrite M_bind_run. unfold on_buf at 1. cbn [get_buf put_buf rec_has_buffer].
  pose proof (tag_size_range _ Ha). pose proof (sealed13_len a t body (rec_enc e) Ha) as Hs.
  pose proof (reserve_aligned_cases (1 + tag_size (aead_algo a)) (aead_align_bits (aead_algo a)) 1
    (rec_buf e) Hw ltac:(lia) (align_range _ Ha)) as Hr.
  destruct (reserve_aligned _ _ 1 (rec_buf e)) as [[[]|er] b'].
  2:{ destruct Hr as (-> & [[? ?]|(_ & -> & _)]); [congruence|]. by destruct e. }
  destruct Hr as (Hw' & Hc' & Ho' & Ht' & _ & Hcap & _).
  rewrite M_bind_run. unfold on_enc, aead_encrypt. cbn [rec_enc rec_buf].
  change (ptls_aead_encrypt_v a [body; [t]] (seq (rec_enc e)) _) with (sealed13 a t body (rec_enc e)).
  set (cipher := sealed13 a t body (rec_enc e)) in *. unfold on_buf, modify. cbn [get_buf put_buf rec_has_buffer rec_buf rec_enc].
  pose proof (contents_mem b' Hw') as Hm'. rewrite Hc', Hc, <- !app_assoc in Hm'. set (tl' := drop _ _) in Hm'.
  assert (len tl' = capacity b' - off b') as Htl.
  { unfold tl'. destruct Hw'. rewrite len_drop. lia. }
  unfold poke. cbn [mem set_mem set_off]. rewrite Hm'.
  destruct (poke_record c body tl' cipher t x y (len cipher)) as (tl2 & Hl2 & ->); [lia|].
  assert (len (record13 a t body (rec_enc e)) = 5 + len cipher) as Hrl.
  { unfold record13. rewrite !len_app. fold cipher. change (len (be_encode 2 (len cipher))) with 2.
    change (len [_; _; _]) with 3. lia. }
  assert (c ++ [PTLS_CONTENT_TYPE_APPDATA; 3; 3] ++ be_encode 2 (len cipher) ++ cipher ++ tl2
          = (c ++ record13 a t body (rec_enc e)) ++ tl2) as ->
    by (unfold record13; fold cipher; by rewrite <- !app_assoc).
  split; [|split; [|done]].
  - destruct Hw'. split; try done; cbn [mem capacity off set_mem set_off]; rewrite ?len_app; lia.
  - unfold contents. cbn [mem off set_mem set_off].
    replace (off b' + (1 + tag_size (aead_algo a))) with (len (c ++ record13 a t body (rec_enc e)))
      by (rewrite len_app; lia).
    apply take_len_app.
Qed.

Lemma truncate_wf b c rest :
  buf_wf b -> contents b = c ++ rest ->
  let b' := set_off (len c) (poke (len c) (replicate (Z.to_nat (len rest)) 0) b) in
  buf_wf b' /\ contents b' = c /\ tx b' = tx b.
Proof.
  intros Hw Hc b'. pose proof (contents_len b Hw) as Ho. rewrite Hc, len_app in Ho.
  pose proof (len_nonneg c). pose proof (len_nonneg rest). pose proof Hw as [].
  assert (len (replicate (Z.to_nat (len rest)) 0) = len rest) as Hz by (rewrite len_replicate; lia).
  split_and!; [| |done].
  - destruct (wf_write b (len c) (replicate (Z.to_nat (len rest)) 0)) as []; [done|lia|lia|].
    split; cbn in *; try done. lia.
  - unfold b', poke, contents. cbn. rewrite take_mem_write_before by lia.
    pose proof (contents_mem b Hw) as Hm. rewrite Hm, Hc, <- app_assoc. apply take_len_app.
Qed.

(** Encrypting a record already in the buffer gives the same bytes as sealing its body: in place when
    one record suffices, through a temporary copy and several records otherwise.  What precedes the
    record in the buffer is kept, the header becomes that of the sealed record, and the counter
    advances by the number of records. *)
Theorem encrypt_record_correct a c t x y body e :
  aead_ok (aead_algo a) -> buf_wf (rec_buf e) -> tx (rec_buf e) = 1 -> tls12 (rec_enc e) = false ->
  0 <= seq (rec_enc e) < 2 ^ 64 ->
  contents (rec_buf e) = c ++ [t; 3; 3; x; y] ++ body ->
  let chunks := if len body <=? PTLS_MAX_PLAINTEXT_RECORD_SIZE then [body]
                else fragments (length body) body in
  concat chunks = body /\
  match buffer_encrypt_record a (len c) e with
  | (Ok _, e') => buf_wf (rec_buf e') /\
                  contents (rec_buf e') = c ++ records13 a t chunks (rec_enc e) /\
                  rec_enc e' = advance (len chunks) (rec_enc e)
  | (Err er, e') => er = PTLS_ERROR_NO_MEMORY /\ exists bs, contents (rec_buf e') = c ++ bs
  end.
Proof.
  intros Ha Hw Ht H12 Hs Hc. destruct (Z.leb_spec (len body) PTLS_MAX_PLAINTEXT_RECORD_SIZE) as [Hl|Hl].
  - split; [cbn; by rewrite app_nil_r|].
    pose proof (encrypt_record_fast a c t x y body e Ha Hw Ht H12 Hc Hl) as Hf.
    destruct (buffer_encrypt_record a (len c) e) as [[[]|er] e'].
    + cbn [records13]. by rewrite app_nil_r.
    + destruct Hf as [-> ->]. split; [done|]. by exists ([t; 3; 3; x; y] ++ body).
  - split; [by apply fragments_concat|]. pose proof (len_nonneg body). pose proof (len_nonneg c).
    destruct (record_parts _ _ _ _ _ _ Hw Hc) as (Hlen & Htype & Hbody).
    unfold buffer_encrypt_record. rewrite M_bind_run. cbn [gets]. rewrite M_bind_run. cbn [gets].
    rewrite H12, Hlen, Htype, Hbody, (proj2 (Z.leb_gt _ _)) by done. cbn [negb andb].
    destruct (malloc (len body)); [|split; [done|]; by exists ([t; 3; 3; x; y] ++ body)].
    rewrite M_bind_run. unfold on_buf, modify. cbn [get_buf put_buf rec_has_buffer].
    replace (len body + 5) with (len ([t; 3; 3; x; y] ++ body))
      by (rewrite len_app; change (len [t; 3; 3; x; y]) with 5; lia).
    destruct (truncate_wf (rec_buf e) c ([t; 3; 3; x; y] ++ body) Hw Hc) as (Hw2 & Hc2 & Ht2).
    set (b2 := set_off _ _) in *.
    pose proof (triple_push_records a t (length body) body (rec_enc e) Ha ltac:(lia) H12 Hs
      (mkRec b2 (rec_enc e)) Hw2 (conj eq_refl (eq_trans Ht2 Ht))) as [Hout HQ].
    unfold buffer_push_encrypted_records. destruct (push_records_loop _ _ _ _ _) as [[[]|er] e'].
    + destruct Hout as (Hw3 & _ & _ & Hc3). cbn in Hc3. rewrite Hc2 in Hc3. split; [done|].
      split; [done|]. apply HQ.
    + destruct Hout as (_ & _ & [->|(?&?&?)] & bs & Hc3); [|done]. cbn in Hc3. rewrite Hc2 in Hc3.
      split; [done|]. by exists bs.
Qed.

End SealProofs.

(** ** Witnesses *)

Definition toy_env : rec_env := mkRec (ptls_buffer_init 64 [0; 0; 0; 0] 1) (toy_tp 7).

(** A buffer that holds a handshake record after other data. *)
Definition toy_env2 : rec_env :=
  mkRec (set_off 9 (ptls_buffer_init 64 [9; 8; 22; 3; 3; 0; 0; 20; 21; 0] 1)) (toy_tp 7).


Lemma encrypt_record_correct_witness :
  concat [[20; 21]] = [20; 21] /\
  match @buffer_encrypt_record bump_allocator toy_ctx 2 toy_env2 with
  | (Ok _, e') => buf_wf (rec_buf e') /\
                  contents (rec_buf e') = [9; 8] ++ records13 toy_ctx 22 [[20; 21]] (toy_tp 7) /\
                  rec_enc e' = advance 1 (toy_tp 7)
  | (Err er, e') => er = PTLS_ERROR_NO_MEMORY /\ exists bs, contents (rec_buf e') = [9; 8] ++ bs
  end.
Proof.
  apply (@encrypt_record_correct bump_allocator toy_ctx [9; 8] 22 0 0 [20; 21] toy_env2);
    [apply toy_aead_ok| |reflexivity|reflexivity|vm_compute; split; [discriminate|reflexivity]|reflexivity].
  split; try reflexivity; vm_compute; try (split; discriminate); try discriminate; [by right|split; [split; [discriminate|reflexivity]|reflexivity]|constructor].
Defined.
