(* ===== verification/Emit.v ===== *)
(** * Emit: what the code that builds messages appends

    The messages of the handshake are built by pushing onto the send buffer of a larger state.
    [writes_at t o m a bs] says it of a computation on a buffer of direction [t], from offset [o]: it returns [a] and appends
    [bs], or memory runs out; and it changes nothing but the buffer.  One rule for each way to build. *)

From S2P Require Import Prelude Constants Wire Buffer Extensions Crypto KeySchedule Tls Record.

(** ** Blocks with a length field *)

Definition block1 (l : bytes) : bytes := be_encode 1 (len l) ++ l.
Definition block2 (l : bytes) : bytes := be_encode 2 (len l) ++ l.
Definition block3 (l : bytes) : bytes := be_encode 3 (len l) ++ l.

Lemma len_be_encode n v : len (be_encode n v) = Z.of_nat n.
Proof. unfold len. by rewrite be_encode_length. Qed.

Lemma len_block1 l : len (block1 l) = 1 + len l.
Proof. unfold block1. by rewrite len_app, len_be_encode. Qed.
Lemma len_block2 l : len (block2 l) = 2 + len l.
Proof. unfold block2. by rewrite len_app, len_be_encode. Qed.
Lemma len_block3 l : len (block3 l) = 3 + len l.
Proof. unfold block3. by rewrite len_app, len_be_encode. Qed.
Lemma len_bytes16 v : len (bytes16 v) = 2.
Proof. done. Qed.
Lemma len_bytes32 v : len (bytes32 v) = 4.
Proof. done. Qed.

#[export] Hint Rewrite len_be_encode len_block1 len_block2 len_block3 len_bytes16 len_bytes32 : zpico_len.

Lemma open_block1_run {A} (block : bytes -> result (A * bytes)) body rest :
  len body < 256 ->
  ptls_decode_open_block 1 block (block1 body ++ rest)
  = ('(a, inner) ← block body; _ ← ptls_decode_assert_block_close inner; Ok (a, rest)).
Proof.
  intros Hl. unfold ptls_decode_open_block, block1. rewrite <- app_assoc, split_block1 by exact Hl.
  cbn [mbind result_bind]. done.
Qed.

Lemma open_block2_run {A} (block : bytes -> result (A * bytes)) body rest :
  len body < 65536 ->
  ptls_decode_open_block 2 block (block2 body ++ rest)
  = ('(a, inner) ← block body; _ ← ptls_decode_assert_block_close inner; Ok (a, rest)).
Proof.
  intros Hl. unfold ptls_decode_open_block, block2. rewrite <- app_assoc, split_block2 by exact Hl.
  cbn [mbind result_bind]. done.
Qed.

Lemma open_raw2 body rest : len body < 65536 ->
  ptls_decode_open_block 2 (λ b, Ok (b, [])) (block2 body ++ rest) = Ok (body, rest).
Proof. intros Hl. by rewrite open_block2_run. Qed.

Lemma open_raw1 body rest : len body < 256 ->
  ptls_decode_open_block 1 (λ b, Ok (b, [])) (block1 body ++ rest) = Ok (body, rest).
Proof. intros Hl. by rewrite open_block1_run. Qed.

Lemma decode_block1 {A} (block : bytes -> result (A * bytes)) body a :
  len body < 256 -> block body = Ok (a, []) -> ptls_decode_block 1 block (block1 body) = Ok a.
Proof. intros Hl Hb. exact (block_ok 1 block body a ltac:(lia) Hl Hb). Qed.

Lemma decode_block2 {A} (block : bytes -> result (A * bytes)) body a :
  len body < 65536 -> block body = Ok (a, []) -> ptls_decode_block 2 block (block2 body) = Ok a.
Proof. intros Hl Hb. exact (block_ok 2 block body a ltac:(lia) Hl Hb). Qed.

(** The extension with its type and length. *)
Lemma enc_ext_block t body : enc_ext (t, body) = bytes16 t ++ block2 body.
Proof. done. Qed.

Lemma enc_exts_app a b : enc_exts (a ++ b) = enc_exts a ++ enc_exts b.
Proof. unfold enc_exts. by rewrite fmap_app, concat_app. Qed.

Lemma enc_exts_one t body : enc_exts [(t, body)] = bytes16 t ++ block2 body.
Proof. unfold enc_exts. cbn [fmap list_fmap concat]. by rewrite app_nil_r. Qed.

(** ** The rules *)

Section Writes.
Context `{Allocator} {S : Type} `{HasBuffer S}.

Definition writes_at {A} (t o : Z) (m : M S A) (a : A) (bs : bytes) : Prop :=
  forall s, buf_wf (get_buf s) -> tx (get_buf s) = t -> off (get_buf s) = o ->
  outcome (Ok (a, bs)) (contents (get_buf s)) t (m s) /\ exists b, (m s).2 = put_buf b s.

Definition writes (t : Z) (m : M S unit) (bs : bytes) : Prop := forall o, writes_at t o m () bs.

Lemma writes_ret {A} t o (a : A) : writes_at t o (mret a) a [].
Proof.
  intros s Hw Ht Ho. split; [|exists (get_buf s); by rewrite put_get_buf].
  split; [done|]. split; [done|]. cbn. by rewrite app_nil_r.
Qed.

Lemma writes_bind {A B} t o (m : M S A) (f : A -> M S B) a b bs cs :
  writes_at t o m a bs -> writes_at t (o + len bs) (f a) b cs -> writes_at t o (m ≫= f) b (bs ++ cs).
Proof.
  intros Hm Hf s Hw Ht Ho. rewrite M_bind_run. destruct (Hm s Hw Ht Ho) as [Ho1 [b1 Hb1]]. clear Hm.
  destruct (m s) as [[a'|e] s1]; cbn [fst snd] in *; destruct Ho1 as (Hw1 & Ht1 & Ho1); cbn [fst snd] in *.
  - destruct Ho1 as [-> Hc1]. destruct (Hf s1 Hw1 Ht1) as [Ho2 [b2 Hb2]].
    { rewrite <- (contents_len _ Hw1), Hc1, len_app, (contents_len _ Hw). lia. }
    destruct (f a s1) as [r s2]; cbn [fst snd] in *. split; [|exists b2; by rewrite Hb2, Hb1, put_put_buf].
    destruct Ho2 as (Hw2 & Ht2 & Ho2). split; [done|]. split; [done|]. destruct r as [b'|e]; cbn [fst snd] in *.
    + destruct Ho2 as [-> ->]. by rewrite Hc1, app_assoc.
    + destruct Ho2 as [He [ds ->]]. split; [naive_solver|]. exists (bs ++ ds). by rewrite Hc1, app_assoc.
  - split; [|by exists b1]. split; [done|]. split; [done|]. cbn [fst snd]. naive_solver.
Qed.

Lemma writes_seq t (m k : M S unit) bs cs : writes t m bs -> writes t k cs -> writes t (_ ← m; k) (bs ++ cs).
Proof. intros Hm Hk o. eapply writes_bind; [apply Hm|apply Hk]. Qed.

Lemma writes_on_buf {A} t o (m : M ptls_buffer_t A) a bs :
  (forall b, buf_wf b -> tx b = t -> off b = o -> outcome (Ok (a, bs)) (contents b) t (m b)) ->
  writes_at t o (on_buf m) a bs.
Proof.
  intros Hm s Hw Ht Ho. specialize (Hm _ Hw Ht Ho). unfold on_buf. destruct (m (get_buf s)) as [r b].
  split; [|by exists b]. unfold outcome in *. cbn [fst snd get_buf HasBuffer_id] in *. by rewrite get_put_buf.
Qed.

Lemma writes_pushv t src : writes t (ptls_buffer_pushv src) src.
Proof. intros o. apply writes_on_buf. intros b Hw Ht _. rewrite <- Ht. by apply (emits_do_pushv src). Qed.

Lemma writes_push t l : is_bytes l -> writes t (ptls_buffer_push l) l.
Proof.
  intros Hl. unfold ptls_buffer_push. replace (u8 <$> l) with l; [apply writes_pushv|].
  induction Hl; [done|]. simpl. by rewrite u8_small by done; f_equal.
Qed.

Lemma writes_push16 t v : writes t (ptls_buffer_push16 v) (bytes16 v).
Proof. apply writes_pushv. Qed.
Lemma writes_push32 t v : writes t (ptls_buffer_push32 v) (bytes32 v).
Proof. apply writes_pushv. Qed.

Lemma writes_off {A} t o (f : Z -> M S A) a bs :
  writes_at t o (f o) a bs -> writes_at t o (gets (λ s, off (get_buf s)) ≫= f) a bs.
Proof. intros Hf s Hw Ht Ho. rewrite M_bind_run. cbn [gets]. rewrite Ho. by apply Hf. Qed.

Lemma writes_lift {A B} t o (r : result B) x (f : B -> M S A) a bs :
  r = Ok x -> writes_at t o (f x) a bs -> writes_at t o (lift r ≫= f) a bs.
Proof. intros -> Hf s Hw Ht Ho. rewrite M_bind_run. cbn [lift]. by apply Hf. Qed.

(** [ptls_buffer_reserve], a copy of that size, and the offset moved. *)
Lemma writes_reserved {A} o n src (f : unit -> M S A) a cs :
  len src = n -> writes_at 1 (o + len src) (f ()) a cs ->
  writes_at 1 o (_ ← on_buf (reserve n 1); x ← on_buf (modify (append_reserved src)); f x) a (src ++ cs).
Proof.
  intros Hn Hf. set (m := on_buf (_ ← reserve n 1; modify (append_reserved src))).
  assert (writes_at 1 o m () src) as Hm.
  { apply writes_on_buf. intros b Hw Ht Hb. rewrite M_bind_run.
    pose proof (reserve_append_cases n 0 src b Hw Ht ltac:(lia) ltac:(lia)) as Hr. unfold reserve.
    destruct (reserve_aligned n 0 1 b) as [[[]|e] b'].
    - destruct Hr as (Hw' & Hc & Ht' & Hw2 & Hc2). unfold outcome. cbn [modify fst snd get_buf HasBuffer_id]. split; [done|].
      split; [cbn; congruence|done].
    - destruct Hr as [-> ->]. split; [done|]. split; [done|]. cbn. split; [by left|]. exists []. by rewrite app_nil_r. }
  pose proof (writes_bind 1 o m f () a src cs Hm Hf) as Hall. intros s Hw Ht Ho. specialize (Hall s Hw Ht Ho).
  replace ((_ ← on_buf (reserve n 1); x ← on_buf (modify (append_reserved src)); f x) s) with ((m ≫= f) s); [done|].
  unfold m. rewrite !M_bind_run. unfold on_buf. rewrite !M_bind_run.
  destruct (reserve n 1 (get_buf s)) as [[[]|e] b]; [|done]. cbn [modify]. rewrite M_bind_run. by rewrite get_put_buf, put_put_buf.
Qed.

Lemma writes_block {A} t (cap : nat) o (block : M S A) a bs :
  (1 <= cap <= 7)%nat -> len bs < 256 ^ Z.of_nat cap -> writes_at t (o + Z.of_nat cap) block a bs ->
  writes_at t o (ptls_buffer_push_block (Z.of_nat cap) block) a (be_encode cap (len bs) ++ bs).
Proof.
  intros Hcap Hl Hb s Hw Ht Ho. set (c := contents (get_buf s)). unfold ptls_buffer_push_block.
  rewrite (proj2 (Z.eqb_neq _ _)) by lia. rewrite Nat2Z.id, M_bind_run. set (z := replicate cap 0).
  assert (len z = Z.of_nat cap) as Hz by (unfold z; by rewrite len_replicate).
  destruct (writes_pushv t z o s Hw Ht Ho) as [H1 [b1 Hb1]].
  destruct (ptls_buffer_pushv z s) as [[[]|e] s1]; destruct H1 as (Hw1 & Ht1 & H1); cbn [fst snd] in *.
  2:{ split; [|by exists b1]. split; [done|]. split; [done|]. cbn. naive_solver. }
  destruct H1 as [_ Hc1]. rewrite M_bind_run. cbn [gets]. rewrite M_bind_run.
  assert (off (get_buf s1) = o + Z.of_nat cap) as Ho1.
  { rewrite <- (contents_len _ Hw1), Hc1, len_app, (contents_len _ Hw). lia. }
  destruct (Hb s1 Hw1 Ht1 Ho1) as [H2 [b2 Hb2]].
  destruct (block s1) as [[a'|e] s2]; destruct H2 as (Hw2 & Ht2 & H2); cbn [fst snd] in *.
  2:{ split; [|exists b2; by rewrite Hb2, Hb1, put_put_buf]. split; [done|]. split; [done|]. cbn.
      destruct H2 as [He [ds Hd]]. split; [naive_solver|]. exists (z ++ ds). by rewrite Hd, Hc1, <- app_assoc. }
  destruct H2 as [-> Hc2]. rewrite M_bind_run. cbn [gets].
  rewrite <- (contents_len _ Hw1), <- (contents_len _ Hw2), Hc2, Hc1, !len_app. fold c.
  replace (len c + len z + len bs - (len c + len z)) with (len bs) by lia.
  rewrite Z.shiftl_1_l, Z.mul_comm, Z.pow_mul_r by lia. change (2 ^ 8) with 256.
  rewrite (proj2 (Z.leb_gt _ _)) by done. rewrite andb_false_r. cbn [negb].
  rewrite M_bind_run. unfold on_buf, modify. cbn [mret M_ret fst snd].
  destruct (overwrite_contents (get_buf s2) c z (be_encode cap (len bs)) bs
    (store_size cap (len c + len z) (len bs))) as [Hw' Hc']; [done| | | |].
  - by rewrite Hc2, Hc1, <- app_assoc.
  - by rewrite len_be_encode.
  - intros tl. apply store_size_spec. unfold z. apply length_replicate.
  - split; [|eexists; unfold mret, M_ret; cbn [fst snd]; by rewrite Hb2, Hb1, !put_put_buf].
    unfold outcome, mret, M_ret. cbn [fst snd]. rewrite get_put_buf. done.
Qed.

Lemma writes_block1 {A} t o (block : M S A) a bs :
  len bs < 256 -> writes_at t (o + 1) block a bs -> writes_at t o (ptls_buffer_push_block 1 block) a (block1 bs).
Proof. intros Hl Hb. exact (writes_block t 1 o block a bs ltac:(lia) Hl Hb). Qed.
Lemma writes_block2 {A} t o (block : M S A) a bs :
  len bs < 65536 -> writes_at t (o + 2) block a bs -> writes_at t o (ptls_buffer_push_block 2 block) a (block2 bs).
Proof. intros Hl Hb. exact (writes_block t 2 o block a bs ltac:(lia) Hl Hb). Qed.
Lemma writes_block3 {A} t o (block : M S A) a bs :
  len bs < 2 ^ 24 -> writes_at t (o + 3) block a bs -> writes_at t o (ptls_buffer_push_block 3 block) a (block3 bs).
Proof. intros Hl Hb. exact (writes_block t 3 o block a bs ltac:(lia) Hl Hb). Qed.

Lemma writes_when t (c : bool) m bs : (c = true -> writes t m bs) -> writes t (when c m) (if c then bs else []).
Proof. destruct c; intros Hm o; [by apply Hm|apply writes_ret]. Qed.

End Writes.

(** ** Code that changes the rest of the state as well

    [emits_at P o m a bs Q]: as [writes_at] for a send buffer, from the states with [P]; with success, the state
    has [Q]. *)

Section EmitsAt.
Context `{Allocator} {S : Type} `{HasBuffer S}.

Definition emits_at {A} (P : S -> Prop) (o : Z) (m : M S A) (a : A) (bs : bytes) (Q : S -> Prop) : Prop :=
  forall s, buf_wf (get_buf s) -> tx (get_buf s) = 1 -> off (get_buf s) = o -> P s ->
  outcome (Ok (a, bs)) (contents (get_buf s)) 1 (m s) /\ (is_ok (m s).1 = true -> Q (m s).2).

(** Properties of the state beside the buffer. *)
Definition beside (P : S -> Prop) : Prop := forall b s, P s -> P (put_buf b s).

Lemma emits_writes {A} (P : S -> Prop) o (m : M S A) a bs : beside P -> writes_at 1 o m a bs -> emits_at P o m a bs P.
Proof. intros HP Hm s Hw Ht Ho Hs. destruct (Hm s Hw Ht Ho) as [Hout [b ->]]. split; [done|]. intros _. by apply HP. Qed.

Lemma emits_ret_at {A} (P : S -> Prop) o (a : A) : emits_at P o (mret a) a [] P.
Proof. intros s Hw Ht Ho Hs. destruct (writes_ret 1 o a s Hw Ht Ho) as [Hout _]. by split. Qed.

Lemma emits_bind_at {A B} (P Q R : S -> Prop) o (m : M S A) (f : A -> M S B) a b bs cs :
  emits_at P o m a bs Q -> emits_at Q (o + len bs) (f a) b cs R -> emits_at P o (m ≫= f) b (bs ++ cs) R.
Proof.
  intros Hm Hf s Hw Ht Ho Hs. rewrite M_bind_run. destruct (Hm s Hw Ht Ho Hs) as [Ho1 HQ]. clear Hm.
  destruct (m s) as [[a'|e] s1]; cbn [fst snd] in *; destruct Ho1 as (Hw1 & Ht1 & Ho1); cbn [fst snd] in *.
  - destruct Ho1 as [-> Hc1]. destruct (Hf s1 Hw1 Ht1) as [Ho2 HR].
    { rewrite <- (contents_len _ Hw1), Hc1, len_app, (contents_len _ Hw). lia. }
    { by apply HQ. }
    split; [|done]. destruct (f a s1) as [r s2]; cbn [fst snd] in *.
    destruct Ho2 as (Hw2 & Ht2 & Ho2). split; [done|]. split; [done|]. destruct r as [b'|e]; cbn [fst snd] in *.
    + destruct Ho2 as [-> ->]. by rewrite Hc1, app_assoc.
    + destruct Ho2 as [He [ds ->]]. split; [naive_solver|]. exists (bs ++ ds). by rewrite Hc1, app_assoc.
  - split; [|discriminate]. split; [done|]. split; [done|]. cbn [fst snd]. naive_solver.
Qed.

Lemma emits_gets {A B} (P Q : S -> Prop) o (f : S -> A) v (k : A -> M S B) b bs :
  (forall s, P s -> f s = v) -> emits_at P o (k v) b bs Q -> emits_at P o (gets f ≫= k) b bs Q.
Proof. intros Hf Hk s Hw Ht Ho Hs. rewrite M_bind_run. cbn [gets]. rewrite (Hf s Hs). by apply Hk. Qed.

Lemma emits_off {B} (P Q : S -> Prop) o (k : Z -> M S B) b bs :
  emits_at P o (k o) b bs Q -> emits_at P o (gets (λ s, off (get_buf s)) ≫= k) b bs Q.
Proof. intros Hk s Hw Ht Ho Hs. rewrite M_bind_run. cbn [gets]. rewrite Ho. by apply Hk. Qed.

(** What has been written from [o] on is read back. *)
Lemma emits_tail {A} (P Q R : S -> Prop) o (m : M S unit) (k : S -> M S A) bs a cs :
  emits_at P o m () bs Q ->
  (forall s0, Q s0 -> drop (Z.to_nat o) (contents (get_buf s0)) = bs -> emits_at Q (o + len bs) (k s0) a cs R) ->
  emits_at P o (_ ← m; s ← gets id; k s) a (bs ++ cs) R.
Proof.
  intros Hm Hk s Hw Ht Ho Hs. pose proof (contents_len _ Hw) as Hl.
  assert (emits_at (λ s', s' = s) o (_ ← m; s ← gets id; k s) a (bs ++ cs) R) as Hall; [|by apply Hall].
  intros s1 Hw1 Ht1 Ho1 ->. destruct (Hm s Hw Ht Ho Hs) as [Hm1 HQ1]. rewrite M_bind_run.
  destruct (m s) as [[[]|e] s2]; destruct Hm1 as (Hw2 & Ht2 & Hm1); cbn [fst snd] in *.
  2:{ split; [|discriminate]. split; [done|]. split; [done|]. cbn [fst snd]. naive_solver. }
  destruct Hm1 as [_ Hc2]. rewrite M_bind_run. cbn [gets id].
  assert (drop (Z.to_nat o) (contents (get_buf s2)) = bs) as Hd by (by rewrite Hc2, <- Ho, <- Hl, drop_len_app).
  destruct (Hk s2 (HQ1 eq_refl) Hd s2 Hw2 Ht2) as [Hk1 HR].
  { rewrite <- (contents_len _ Hw2), Hc2, len_app. lia. }
  { by apply HQ1. }
  split; [|done]. destruct (k s2 s2) as [[a'|e] s3]; destruct Hk1 as (Hw3 & Ht3 & Hk1); cbn [fst snd] in *.
  - destruct Hk1 as [-> Hc3]. split; [done|]. split; [done|]. cbn [fst snd]. by rewrite Hc3, Hc2, app_assoc.
  - destruct Hk1 as [He [ds Hd3]]. split; [done|]. split; [done|]. cbn [fst snd]. split; [naive_solver|].
    exists (bs ++ ds). by rewrite Hd3, Hc2, app_assoc.
Qed.

(** A computation of the rest of the state that may run out of memory. *)
Lemma emits_step {A B} (P Q R : S -> Prop) o (m : M S A) x (k : A -> M S B) b bs :
  (forall s, P s -> match m s with
                    | (Ok y, s') => y = x /\ get_buf s' = get_buf s /\ Q s'
                    | (Err e, s') => e = PTLS_ERROR_NO_MEMORY /\ get_buf s' = get_buf s
                    end) ->
  emits_at Q o (k x) b bs R -> emits_at P o (m ≫= k) b bs R.
Proof.
  intros Hm Hk s Hw Ht Ho Hs. rewrite M_bind_run. specialize (Hm s Hs). destruct (m s) as [[y|e] s1].
  - destruct Hm as (-> & Hb & HQ). rewrite <- Hb in *. by apply Hk.
  - destruct Hm as [-> Hb]. split; [|discriminate]. unfold outcome. cbn [fst snd]. rewrite Hb. split; [done|]. split; [done|].
    split; [by left|]. exists []. by rewrite app_nil_r.
Qed.

Lemma emits_block_at {A} (P Q : S -> Prop) (cap : nat) o (block : M S A) a bs :
  (1 <= cap <= 7)%nat -> len bs < 256 ^ Z.of_nat cap -> beside P -> beside Q -> emits_at P (o + Z.of_nat cap) block a bs Q ->
  emits_at P o (ptls_buffer_push_block (Z.of_nat cap) block) a (be_encode cap (len bs) ++ bs) Q.
Proof.
  intros Hcap Hl HP HQ Hb s Hw Ht Ho Hs. set (c := contents (get_buf s)). unfold ptls_buffer_push_block.
  rewrite (proj2 (Z.eqb_neq _ _)) by lia. rewrite Nat2Z.id, M_bind_run. set (z := replicate cap 0).
  assert (len z = Z.of_nat cap) as Hz by (unfold z; by rewrite len_replicate).
  destruct (emits_writes P o _ _ _ HP (writes_pushv 1 z o) s Hw Ht Ho Hs) as [H1 HP1].
  destruct (ptls_buffer_pushv z s) as [[[]|e] s1]; destruct H1 as (Hw1 & Ht1 & H1); cbn [fst snd] in *.
  2:{ split; [|discriminate]. split; [done|]. split; [done|]. cbn. naive_solver. }
  destruct H1 as [_ Hc1]. rewrite M_bind_run. cbn [gets]. rewrite M_bind_run.
  assert (off (get_buf s1) = o + Z.of_nat cap) as Ho1.
  { rewrite <- (contents_len _ Hw1), Hc1, len_app, (contents_len _ Hw). lia. }
  destruct (Hb s1 Hw1 Ht1 Ho1 (HP1 eq_refl)) as [H2 HQ2].
  destruct (block s1) as [[a'|e] s2]; destruct H2 as (Hw2 & Ht2 & H2); cbn [fst snd] in *.
  2:{ split; [|discriminate]. split; [done|]. split; [done|]. cbn.
      destruct H2 as [He [ds Hd]]. split; [naive_solver|]. exists (z ++ ds). by rewrite Hd, Hc1, <- app_assoc. }
  destruct H2 as [-> Hc2]. rewrite M_bind_run. cbn [gets].
  rewrite <- (contents_len _ Hw1), <- (contents_len _ Hw2), Hc2, Hc1, !len_app. fold c.
  replace (len c + len z + len bs - (len c + len z)) with (len bs) by lia.
  rewrite Z.shiftl_1_l, Z.mul_comm, Z.pow_mul_r by lia. change (2 ^ 8) with 256.
  rewrite (proj2 (Z.leb_gt _ _)) by done. rewrite andb_false_r. cbn [negb].
  rewrite M_bind_run. unfold on_buf, modify. cbn [mret M_ret fst snd].
  destruct (overwrite_contents (get_buf s2) c z (be_encode cap (len bs)) bs
    (store_size cap (len c + len z) (len bs))) as [Hw' Hc']; [done| | | |].
  - by rewrite Hc2, Hc1, <- app_assoc.
  - by rewrite len_be_encode.
  - intros tl. apply store_size_spec. unfold z. apply length_replicate.
  - unfold mret, M_ret. cbn [fst snd]. split; [|intros _; by apply HQ, HQ2].
    unfold outcome. cbn [fst snd]. rewrite get_put_buf. done.
Qed.

(** Room is reserved, a value computed, and written there. *)
Lemma emits_reserved_step (P Q : S -> Prop) o n (m : M S bytes) v :
  beside P -> beside Q -> len v <= n ->
  (forall s, P s -> match m s with
                    | (Ok y, s') => y = v /\ get_buf s' = get_buf s /\ Q s'
                    | (Err e, s') => e = PTLS_ERROR_NO_MEMORY /\ get_buf s' = get_buf s
                    end) ->
  emits_at P o (_ ← on_buf (reserve n 1); x ← m; on_buf (modify (append_reserved x))) () v Q.
Proof.
  intros HP HQ Hl Hm s Hw Ht Ho Hs. rewrite M_bind_run.
  change (on_buf (reserve n 1) s) with (let '(r, b) := reserve_aligned n 0 1 (get_buf s) in (r, put_buf b s)).
  pose proof (reserve_append_cases n 0 v (get_buf s) Hw Ht ltac:(lia) Hl) as Hr.
  destruct (reserve_aligned n 0 1 (get_buf s)) as [[[]|e] b].
  2:{ destruct Hr as [-> ->]. rewrite put_get_buf. split; [|cbn; discriminate]. split; [done|]. split; [done|]. cbn [fst snd].
      split; [by left|]. exists []. by rewrite app_nil_r. }
  destruct Hr as (Hw1 & Hc1 & Ht1 & Hw2 & Hc2). specialize (Hm (put_buf b s) (HP b s Hs)). rewrite M_bind_run.
  destruct (m (put_buf b s)) as [[y|e] s']; rewrite get_put_buf in Hm.
  - destruct Hm as (-> & Hb & Hs'). unfold on_buf, modify. rewrite Hb. cbn [fst snd]. split; [|intros _; by apply HQ].
    unfold outcome. cbn [fst snd]. rewrite get_put_buf. split; [done|]. split; [cbn; congruence|done].
  - destruct Hm as [-> Hb]. split; [|cbn; discriminate]. unfold outcome. cbn [fst snd]. rewrite Hb. split; [done|].
    split; [congruence|]. split; [by left|]. exists []. by rewrite app_nil_r, Hc1.
Qed.

Lemma emits_block1_at {A} (P Q : S -> Prop) o (block : M S A) a bs :
  len bs < 256 -> beside P -> beside Q -> emits_at P (o + 1) block a bs Q ->
  emits_at P o (ptls_buffer_push_block 1 block) a (block1 bs) Q.
Proof. intros Hl HP HQ Hb. exact (emits_block_at P Q 1 o block a bs ltac:(lia) Hl HP HQ Hb). Qed.
Lemma emits_block2_at {A} (P Q : S -> Prop) o (block : M S A) a bs :
  len bs < 65536 -> beside P -> beside Q -> emits_at P (o + 2) block a bs Q ->
  emits_at P o (ptls_buffer_push_block 2 block) a (block2 bs) Q.
Proof. intros Hl HP HQ Hb. exact (emits_block_at P Q 2 o block a bs ltac:(lia) Hl HP HQ Hb). Qed.
Lemma emits_block3_at {A} (P Q : S -> Prop) o (block : M S A) a bs :
  len bs < 2 ^ 24 -> beside P -> beside Q -> emits_at P (o + 3) block a bs Q ->
  emits_at P o (ptls_buffer_push_block 3 block) a (block3 bs) Q.
Proof. intros Hl HP HQ Hb. exact (emits_block_at P Q 3 o block a bs ltac:(lia) Hl HP HQ Hb). Qed.

End EmitsAt.
