(* ===== verification/Negotiate.v ===== *)
(** * Negotiate: choosing among what the peer offers ([lib/picotls.c])

    Lists of identifiers on the wire, and the functions that select a cipher-suite, a key share and a
    group from them.  The loops of the decoders over the bytes of a block are [decode_while] and
    [decode_do_while]; each round uses up bytes, so their fuel is the number of bytes. *)

From S2P Require Import Prelude Constants Wire Buffer Extensions Crypto KeySchedule Tls Record Emit.

(** ** Loops over a block *)

(** [while (src != end) { ... }] *)
Fixpoint decode_while {A} (fuel : nat) (step : A -> bytes -> result (A * bytes)) (a : A) (src : bytes) : result (A * bytes) :=
  match src, fuel with
  | [], _ => Ok (a, [])
  | _, O => Err OUT_OF_FUEL
  | _, S fuel => '(a, src) ← step a src; decode_while fuel step a src
  end.

(** [do { ... } while (src != end)] *)
Definition decode_do_while {A} (step : A -> bytes -> result (A * bytes)) (a : A) (src : bytes) : result (A * bytes) :=
  '(a, rest) ← step a src;
  decode_while (length src) step a rest.

(** [if (count < PTLS_ELEMENTSOF(list)) list[count++] = x] *)
Definition push_upto {A} (limit : Z) (l : list A) (x : A) : list A := if len l <? limit then l ++ [x] else l.

(** ** Extensions *)

Section Push.
Context `{Allocator} {S : Type} `{HasBuffer S}.

(* src lib/picotls.c:939-943 buffer_push_extension *)
Definition buffer_push_extension {A} (type : Z) (block : M S A) : M S A :=
  _ ← ptls_buffer_push16 type;
  ptls_buffer_push_block 2 block.

(** [for (...) ptls_buffer_push16(...)] over a list *)
Fixpoint push16_all (l : list Z) : M S unit :=
  match l with
  | [] => mret ()
  | x :: l => _ ← ptls_buffer_push16 x; push16_all l
  end.

Fixpoint push_all {A} (push : A -> M S unit) (l : list A) : M S unit :=
  match l with
  | [] => mret ()
  | x :: l => _ ← push x; push_all push l
  end.

(* src lib/picotls.c:2020-2033 push_additional_extensions *)
Definition push_additional_extensions (properties : option ptls_handshake_properties_t) : M S unit :=
  match properties with
  | None => mret ()
  | Some p => push_all (λ '(type, data), buffer_push_extension type (ptls_buffer_pushv data)) (additional_extensions p)
  end.

(* src lib/picotls.c:2038-2040 default_algos *)
Definition default_algos : list Z :=
  [PTLS_SIGNATURE_RSA_PSS_RSAE_SHA384; PTLS_SIGNATURE_RSA_PSS_RSAE_SHA256; PTLS_SIGNATURE_ECDSA_SECP384R1_SHA384;
   PTLS_SIGNATURE_ECDSA_SECP256R1_SHA256; PTLS_SIGNATURE_RSA_PKCS1_SHA256; PTLS_SIGNATURE_RSA_PKCS1_SHA1].

Definition signature_algos (vc : option ptls_verify_certificate_t) : list Z :=
  match vc with Some vc => verify_algos vc | None => default_algos end.

(* src lib/picotls.c:2035-2051 push_signature_algorithms *)
Definition push_signature_algorithms (vc : option ptls_verify_certificate_t) : M S unit :=
  ptls_buffer_push_block 2 (push16_all (signature_algos vc)).

(* src lib/picotls.c:2117-2126 push_key_share_entry *)
Definition push_key_share_entry (group : Z) (pubkey : bytes) : M S unit :=
  _ ← ptls_buffer_push16 group;
  ptls_buffer_push_block 2 (ptls_buffer_pushv pubkey).

(* src lib/picotls.c:2180-2192 emit_server_name_extension *)
Definition emit_server_name_extension (server_name : bytes) : M S unit :=
  ptls_buffer_push_block 2
    (_ ← ptls_buffer_push [PTLS_SERVER_NAME_TYPE_HOSTNAME];
     ptls_buffer_push_block 2 (ptls_buffer_pushv (c_string server_name))).

End Push.

(** The list, and what is left of [*src]. *)
(* src lib/picotls.c:2053-2070 decode_signature_algorithms *)
Definition decode_signature_algorithms (sa : list Z) (src : bytes) : result (list Z) :=
  ptls_decode_block 2 (decode_do_while
    (λ sa src, '(id, src) ← ptls_decode16 src; Ok (push_upto PTLS_MAX_SIGNATURE_ALGORITHMS sa id, src)) sa) src.

(** ** Cipher-suites *)

(** The loop over the candidates for one identifier: the candidate to return at once, or the index found
    so far. *)
(* src lib/picotls.c:2085-2099 candidates *)
Fixpoint match_candidates (candidates : list ptls_cipher_suite_t) (i found_index id : Z) (by_index : bool)
    (hash : option ptls_hash_algorithm_t) : ptls_cipher_suite_t + Z :=
  match candidates with
  | [] => inr found_index
  | c :: rest =>
      if (cs_id c =? id) && match hash with None => true | Some h => hash_id (cs_hash c) =? hash_id h end then
        if by_index then
          if i <? found_index then inr i else match_candidates rest (i + 1) found_index id by_index hash
        else inl c
      else match_candidates rest (i + 1) found_index id by_index hash
  end.

(* src lib/picotls.c:2081-2105 found_index *)
Fixpoint select_cipher_loop (fuel : nat) (candidates : list ptls_cipher_suite_t) (src : bytes) (found_index : Z)
    (server_preference server_chacha_priority : bool) (hash : option ptls_hash_algorithm_t)
    : result (ptls_cipher_suite_t + Z) :=
  match src, fuel with
  | [], _ => Ok (inr found_index)
  | _, O => Err OUT_OF_FUEL
  | _, S fuel =>
      '(id, src) ← ptls_decode16 src;
      match match_candidates candidates 0 found_index id
              (server_preference && negb (server_chacha_priority && (id =? PTLS_CIPHER_SUITE_CHACHA20_POLY1305_SHA256))) hash with
      | inl c => Ok (inl c)
      | inr found_index =>
          if found_index =? 0 then Ok (inr found_index)
          else select_cipher_loop fuel candidates src found_index server_preference false hash
      end
  end.

(* src lib/picotls.c:2075-2115 select_cipher *)
Definition select_cipher (candidates : list ptls_cipher_suite_t) (src : bytes)
    (server_preference server_chacha_priority : bool) (hash : option ptls_hash_algorithm_t) : result ptls_cipher_suite_t :=
  r ← select_cipher_loop (length src) candidates src SIZE_MAX server_preference server_chacha_priority hash;
  match r with
  | inl c => Ok c
  | inr found_index =>
      if negb (found_index =? SIZE_MAX) then
        match candidates !! Z.to_nat found_index with Some c => Ok c | None => Err ABORTED end
      else Err PTLS_ALERT_HANDSHAKE_FAILURE
  end.

(** ** Key shares *)

(* src lib/picotls.c:2128-2141 decode_key_share_entry *)
Definition decode_key_share_entry (src : bytes) : result (Z * bytes * bytes) :=
  '(group, src) ← ptls_decode16 src;
  '(key, src) ← ptls_decode_open_block 2 (λ b, Ok (b, [])) src;
  Ok (group, key, src).

(* src lib/picotls.c:1638-1648 key_exchanges *)
Fixpoint find_key_exchange (l : list ptls_key_exchange_algorithm_t) (id : Z) : option ptls_key_exchange_algorithm_t :=
  match l with
  | [] => None
  | k :: l => if kex_id k =? id then Some k else find_key_exchange l id
  end.

(** The selected algorithm and the peer's key; what is left of [*src]. *)
(* src lib/picotls.c:2143-2178 select_key_share *)
Definition select_key_share (candidates : list ptls_key_exchange_algorithm_t) (expect_one : bool) (src : bytes)
    : result (option (ptls_key_exchange_algorithm_t * bytes) * bytes) :=
  let entry selected src :=
    '(group, key, src) ← decode_key_share_entry src;
    Ok (match selected with
        | Some _ => selected
        | None => (λ c, (c, key)) <$> find_key_exchange candidates group
        end, src) in
  if expect_one then
    match src with
    | [] => Err PTLS_ALERT_ILLEGAL_PARAMETER
    | _ =>
        '(selected, src) ← entry None src;
        match selected with Some _ => Ok (selected, src) | None => Err PTLS_ALERT_ILLEGAL_PARAMETER end
    end
  else decode_while (length src) entry None src.

(** The loop returns from inside the block, at the first group that is known. *)
(* src lib/picotls.c:3684-3697 group *)
Fixpoint select_group_loop (fuel : nat) (candidates : list ptls_key_exchange_algorithm_t) (src : bytes)
    : result (option ptls_key_exchange_algorithm_t) :=
  match src, fuel with
  | [], _ => Ok None
  | _, O => Err OUT_OF_FUEL
  | _, S fuel =>
      '(group, src) ← ptls_decode16 src;
      match find_key_exchange candidates group with
      | Some c => Ok (Some c)
      | None => select_group_loop fuel candidates src
      end
  end.

(* src lib/picotls.c:3680-3704 select_negotiated_group *)
Definition select_negotiated_group (candidates : list ptls_key_exchange_algorithm_t) (src : bytes)
    : result ptls_key_exchange_algorithm_t :=
  '(inner, rest) ← split_block 2 src;
  r ← select_group_loop (length inner) candidates inner;
  match r with
  | Some c => Ok c
  | None => _ ← ptls_decode_assert_block_close rest; Err PTLS_ALERT_HANDSHAKE_FAILURE
  end.

(* src lib/picotls.c:4383-4393 certificate_type_exists *)
Definition certificate_type_exists (types : list Z) (desired_type : Z) : bool :=
  if (desired_type =? PTLS_CERTIFICATE_TYPE_X509) && (len types =? 0) then true
  else existsb (λ t, t =? desired_type) types.

(** ** Specification of the selection *)

Definition usable (hash : option ptls_hash_algorithm_t) (c : ptls_cipher_suite_t) : bool :=
  match hash with None => true | Some h => hash_id (cs_hash c) =? hash_id h end.

Definition suite_for (hash : option ptls_hash_algorithm_t) (id : Z) (c : ptls_cipher_suite_t) : bool :=
  (cs_id c =? id) && usable hash c.

(** The first offer that is supported. *)
Definition client_choice (candidates : list ptls_cipher_suite_t) (ids : list Z) (hash : option ptls_hash_algorithm_t)
    : option ptls_cipher_suite_t :=
  head (omap (λ id, List.find (suite_for hash id) candidates) ids).

(** The first candidate that is offered. *)
Definition server_choice (candidates : list ptls_cipher_suite_t) (ids : list Z) (hash : option ptls_hash_algorithm_t)
    : option ptls_cipher_suite_t :=
  List.find (λ c, existsb (λ id, suite_for hash id c) ids) candidates.

(** The client's order, unless the server's is configured; then ChaCha20-Poly1305 is still taken if that
    priority is configured and it is the first offer. *)
Definition choice (candidates : list ptls_cipher_suite_t) (ids : list Z) (server_preference chacha_priority : bool)
    (hash : option ptls_hash_algorithm_t) : option ptls_cipher_suite_t :=
  if server_preference then
    match ids with
    | id :: _ =>
        if chacha_priority && (id =? PTLS_CIPHER_SUITE_CHACHA20_POLY1305_SHA256) then
          match List.find (suite_for hash id) candidates with
          | Some c => Some c
          | None => server_choice candidates ids hash
          end
        else server_choice candidates ids hash
    | [] => None
    end
  else client_choice candidates ids hash.

(** Loops over the encodings of a list. *)
Lemma decode_while_list {A X} (step : A -> bytes -> result (A * bytes)) (enc : X -> bytes) (upd : A -> X -> A) xs a fuel :
  (forall a x rest, x ∈ xs -> step a (enc x ++ rest) = Ok (upd a x, rest)) -> (forall x, x ∈ xs -> enc x <> []) ->
  (length (concat (enc <$> xs)) <= fuel)%nat ->
  decode_while fuel step a (concat (enc <$> xs)) = Ok (foldl upd a xs, []).
Proof.
  revert a fuel. induction xs as [|x xs IH]; intros a fuel Hs Hn Hf; [by destruct fuel|].
  rewrite fmap_cons, concat_cons in *. rewrite length_app in Hf.
  assert (enc x <> []) as Hx by (apply Hn; by left). destruct fuel as [|fuel].
  { destruct (enc x); [done|]. cbn in Hf. lia. }
  assert (exists b l, enc x ++ concat (enc <$> xs) = b :: l) as (b & l & El) by (destruct (enc x); [done|by eexists _, _]).
  rewrite El. cbn [decode_while]. rewrite <- El, Hs by (by left). cbn [mbind result_bind]. cbn [foldl].
  apply IH; [intros; apply Hs; by right|intros; apply Hn; by right|]. destruct (enc x); [done|]. cbn in Hf. lia.
Qed.

Lemma decode_do_while_list {A X} (step : A -> bytes -> result (A * bytes)) (enc : X -> bytes) (upd : A -> X -> A) xs a :
  xs <> [] -> (forall a x rest, x ∈ xs -> step a (enc x ++ rest) = Ok (upd a x, rest)) -> (forall x, x ∈ xs -> enc x <> []) ->
  decode_do_while step a (concat (enc <$> xs)) = Ok (foldl upd a xs, []).
Proof.
  intros Hne Hs Hn. destruct xs as [|x xs]; [done|]. unfold decode_do_while. rewrite fmap_cons, concat_cons, Hs by (by left).
  cbn [mbind result_bind foldl]. rewrite length_app.
  apply decode_while_list; [intros; apply Hs; by right|intros; apply Hn; by right|lia].
Qed.

(** ** Selection of the cipher-suite *)

(** The position of the first element with [p], counted from [i]; SIZE_MAX if there is none. *)
Fixpoint pos {A} (p : A -> bool) (l : list A) (i : Z) : Z :=
  match l with
  | [] => SIZE_MAX
  | x :: l => if p x then i else pos p l (i + 1)
  end.

Lemma pos_ge {A} (p : A -> bool) l i : 0 <= i -> i + len l <= SIZE_MAX -> i <= pos p l i <= SIZE_MAX.
Proof.
  revert i. induction l as [|x l IH]; intros i Hi Hl; cbn [pos]; [unfold SIZE_MAX, len in *; cbn in *; lia|].
  rewrite len_cons in Hl. pose proof (len_nonneg l). destruct (p x); [lia|]. specialize (IH (i + 1)). lia.
Qed.

Lemma pos_or {A} (p q : A -> bool) l i :
  0 <= i -> i + len l <= SIZE_MAX -> pos (λ x, p x || q x) l i = Z.min (pos p l i) (pos q l i).
Proof.
  revert i. induction l as [|x l IH]; intros i Hi Hl; cbn [pos]; [lia|]. rewrite len_cons in Hl. pose proof (len_nonneg l).
  pose proof (pos_ge p l (i + 1)). pose proof (pos_ge q l (i + 1)).
  destruct (p x), (q x); cbn [orb]; try lia. apply IH; lia.
Qed.

Lemma pos_find {A} (p : A -> bool) l i :
  0 <= i -> i + len l <= SIZE_MAX ->
  match List.find p l with
  | Some x => i <= pos p l i < i + len l /\ l !! Z.to_nat (pos p l i - i) = Some x
  | None => pos p l i = SIZE_MAX
  end.
Proof.
  revert i. induction l as [|x l IH]; intros i Hi Hl; cbn [pos List.find]; [done|]. rewrite len_cons in *.
  pose proof (len_nonneg l). destruct (p x); [split; [lia|by rewrite Z.sub_diag]|].
  specialize (IH (i + 1) ltac:(lia) ltac:(lia)). destruct (List.find p l); [|done]. destruct IH as [Hr Hx]. split; [lia|].
  replace (Z.to_nat (pos p l (i + 1) - i)) with (S (Z.to_nat (pos p l (i + 1) - (i + 1)))) by lia. done.
Qed.

Lemma match_candidates_first candidates i found id hash :
  match_candidates candidates i found id false hash
  = match List.find (suite_for hash id) candidates with Some c => inl c | None => inr found end.
Proof.
  revert i. induction candidates as [|c l IH]; intros i; [done|]. cbn [match_candidates List.find].
  unfold suite_for at 1, usable. destruct (_ && _); [done|]. apply IH.
Qed.

Lemma match_candidates_index candidates i found id hash :
  0 <= i -> i + len candidates <= SIZE_MAX -> found <= SIZE_MAX ->
  match_candidates candidates i found id true hash = inr (Z.min found (pos (suite_for hash id) candidates i)).
Proof.
  intros Hi. revert i Hi. induction candidates as [|c l IH]; intros i Hi Hl Hf; cbn [match_candidates pos].
  { by rewrite Z.min_l. }
  rewrite len_cons in Hl. pose proof (len_nonneg l). pose proof (pos_ge (suite_for hash id) l (i + 1)).
  unfold suite_for at 1, usable. destruct (_ && _) eqn:E.
  - destruct (Z.ltb_spec i found); [by rewrite Z.min_r by lia|]. rewrite IH by lia. by rewrite !Z.min_l by lia.
  - by apply IH; lia.
Qed.

Lemma select_cipher_step fuel candidates id rest found pref chacha hash :
  0 <= id < 2 ^ 16 ->
  select_cipher_loop (S fuel) candidates (bytes16 id ++ rest) found pref chacha hash
  = match match_candidates candidates 0 found id
            (pref && negb (chacha && (id =? PTLS_CIPHER_SUITE_CHACHA20_POLY1305_SHA256))) hash with
    | inl c => Ok (inl c)
    | inr found => if found =? 0 then Ok (inr found) else select_cipher_loop fuel candidates rest found pref false hash
    end.
Proof.
  intros Hid. destruct (bytes16 id ++ rest) as [|b l] eqn:E; [done|]. cbn [select_cipher_loop]. rewrite <- E.
  by rewrite decode16_push16.
Qed.

(** The loop in the server's order. *)
Lemma select_loop_index candidates ids found hash fuel :
  len candidates <= SIZE_MAX -> 0 <= found <= SIZE_MAX -> Forall (λ id, 0 <= id < 2 ^ 16) ids ->
  (length (concat (bytes16 <$> ids)) <= fuel)%nat ->
  select_cipher_loop fuel candidates (concat (bytes16 <$> ids)) found true false hash
  = Ok (inr (Z.min found (pos (λ c, existsb (λ id, suite_for hash id c) ids) candidates 0))).
Proof.
  intros Hl Hf Hids. revert found fuel Hf. induction Hids as [|id ids Hid Hids IH]; intros found fuel Hf Hfuel.
  { assert (pos (λ c, existsb (λ id, suite_for hash id c) []) candidates 0 = SIZE_MAX) as ->.
    { generalize 0. clear. induction candidates as [|c l IH]; intros i; [done|]. apply IH. }
    destruct fuel; cbn; by rewrite Z.min_l by lia. }
  rewrite fmap_cons, concat_cons in *. rewrite length_app in Hfuel. change (length (bytes16 id)) with 2%nat in Hfuel.
  destruct fuel as [|fuel]; [lia|]. rewrite select_cipher_step by done. cbn [andb negb].
  rewrite match_candidates_index by lia. cbn [existsb].
  rewrite (pos_or (suite_for hash id)) by lia. pose proof (pos_ge (suite_for hash id) candidates 0 ltac:(lia) ltac:(lia)).
  pose proof (pos_ge (λ c, existsb (λ id, suite_for hash id c) ids) candidates 0 ltac:(lia) ltac:(lia)).
  destruct (Z.eqb_spec (Z.min found (pos (suite_for hash id) candidates 0)) 0) as [E|E].
  - do 2 f_equal. lia.
  - rewrite IH by lia. do 2 f_equal. lia.
Qed.

(** The loop in the client's order. *)
Lemma select_loop_first candidates ids chacha hash fuel :
  Forall (λ id, 0 <= id < 2 ^ 16) ids -> (length (concat (bytes16 <$> ids)) <= fuel)%nat ->
  select_cipher_loop fuel candidates (concat (bytes16 <$> ids)) SIZE_MAX false chacha hash
  = Ok (match client_choice candidates ids hash with Some c => inl c | None => inr SIZE_MAX end).
Proof.
  intros Hids. revert fuel chacha. induction Hids as [|id ids Hid Hids IH]; intros fuel chacha Hfuel; [by destruct fuel|].
  rewrite fmap_cons, concat_cons in *. rewrite length_app in Hfuel. change (length (bytes16 id)) with 2%nat in Hfuel.
  destruct fuel as [|fuel]; [lia|]. unfold client_choice in *. rewrite select_cipher_step by done. cbn [andb].
  rewrite match_candidates_first. cbn [omap list_omap]. destruct (List.find _ candidates); [done|].
  change (SIZE_MAX =? 0) with false. apply IH. lia.
Qed.

(** What follows the loop, in the server's order. *)
Lemma select_by_index candidates ids hash :
  len candidates <= SIZE_MAX ->
  let found := pos (λ c, existsb (λ id, suite_for hash id c) ids) candidates 0 in
  (if negb (found =? SIZE_MAX) then
     match candidates !! Z.to_nat found with Some c => Ok c | None => Err ABORTED end
   else Err PTLS_ALERT_HANDSHAKE_FAILURE)
  = match server_choice candidates ids hash with Some c => Ok c | None => Err PTLS_ALERT_HANDSHAKE_FAILURE end.
Proof.
  intros Hl found. unfold server_choice.
  pose proof (pos_find (λ c, existsb (λ id, suite_for hash id c) ids) candidates 0 ltac:(lia) ltac:(lia)) as Hp. fold found in Hp.
  destruct (List.find _ candidates) as [c|]; [|by rewrite Hp]. destruct Hp as [Hr Hx]. rewrite Z.sub_0_r in Hx.
  rewrite (proj2 (Z.eqb_neq _ _)) by lia. by rewrite Hx.
Qed.

(** the cipher-suite that is negotiated.  For the identifiers a client offers, [select_cipher] takes
    the first offer that is supported, or, by the server's preference, the first supported suite that
    is offered -- save that ChaCha20-Poly1305 is taken if that priority is set and it is the client's
    first offer.  Suites with another hash than the one required are passed over, and the selection
    fails, with a handshake_failure alert, exactly if nothing is left. *)
Theorem select_cipher_correct candidates ids server_preference chacha_priority hash :
  len candidates <= SIZE_MAX -> Forall (λ id, 0 <= id < 2 ^ 16) ids ->
  select_cipher candidates (concat (bytes16 <$> ids)) server_preference chacha_priority hash
  = match choice candidates ids server_preference chacha_priority hash with
    | Some c => Ok c
    | None => Err PTLS_ALERT_HANDSHAKE_FAILURE
    end.
Proof.
  intros Hl Hids. unfold select_cipher, choice. destruct server_preference.
  2:{ rewrite select_loop_first by (done || lia). by destruct (client_choice _ _ _). }
  destruct ids as [|id ids]; [done|]. apply Forall_cons in Hids as Hids'. destruct Hids' as [Hid Hids'].
  pose proof (pos_ge (λ c, existsb (λ id, suite_for hash id c) (id :: ids)) candidates 0 ltac:(lia) ltac:(lia)) as Hp.
  destruct (chacha_priority && (id =? PTLS_CIPHER_SUITE_CHACHA20_POLY1305_SHA256)) eqn:Echa.
  - rewrite fmap_cons, concat_cons, length_app. change (length (bytes16 id)) with 2%nat. cbn [Nat.add].
    rewrite select_cipher_step by done. rewrite Echa. cbn [andb negb]. rewrite match_candidates_first.
    pose proof (pos_find (suite_for hash id) candidates 0 ltac:(lia) ltac:(lia)) as Hf.
    destruct (List.find _ candidates); [done|]. change (SIZE_MAX =? 0) with false. cbv iota.
    rewrite select_loop_index by (done || lia || (unfold SIZE_MAX; lia)). rewrite <- select_by_index by done. cbn [existsb] in *.
    cbn [mbind result_bind]. rewrite (pos_or (suite_for hash id)), Hf in * by lia. done.
  - assert (select_cipher_loop (length (concat (bytes16 <$> id :: ids))) candidates (concat (bytes16 <$> id :: ids)) SIZE_MAX
      true chacha_priority hash = select_cipher_loop (length (concat (bytes16 <$> id :: ids))) candidates
      (concat (bytes16 <$> id :: ids)) SIZE_MAX true false hash) as ->.
    { rewrite fmap_cons, concat_cons, length_app. change (length (bytes16 id)) with 2%nat. cbn [Nat.add].
      rewrite !select_cipher_step by done. by rewrite Echa. }
    rewrite select_loop_index by (done || (unfold SIZE_MAX; lia)). cbn [mbind result_bind]. rewrite Z.min_r by lia.
    by apply select_by_index.
Qed.

Lemma select_cipher_correct_witness :
  select_cipher [toy_suite; toy_suite2] (concat (bytes16 <$> [0x1303; 0x1302; 0x1301])) true false None = Ok toy_suite /\
  select_cipher [toy_suite; toy_suite2] (concat (bytes16 <$> [0x1303; 0x1302; 0x1301])) false false None = Ok toy_suite2.
Proof.
  split.
  - rewrite (select_cipher_correct [toy_suite; toy_suite2] [0x1303; 0x1302; 0x1301] true false None);
      [reflexivity|discriminate|repeat constructor; discriminate].
  - rewrite (select_cipher_correct [toy_suite; toy_suite2] [0x1303; 0x1302; 0x1301] false false None);
      [reflexivity|discriminate|repeat constructor; discriminate].
Defined.
