(* ===== verification/Hpke.v ===== *)
(** * Hpke: hybrid public key encryption ([lib/hpke.c])

    RFC 9180 in base mode, as encrypted ClientHello uses it: the sender derives an AEAD context from the
    recipient's public key, the recipient from its private key and what the sender transmits.  The
    buffers the strings are built in start on arrays on the stack and may have to grow. *)

From S2P Require Import Prelude Constants Wire Buffer Crypto KeySchedule Tls Record.

(* src lib/hpke.c:25 HPKE_V1_LABEL *)
Definition HPKE_V1_LABEL : bytes := str "HPKE-v1".

Section Hpke.
Context `{Allocator}.

(** [cipher] is [None] for NULL: the suite of the KEM alone. *)
(* src lib/hpke.c:27-45 build_suite_id *)
Definition build_suite_id (kem : ptls_hpke_kem_t) (cipher : option ptls_hpke_cipher_suite_t) : M ptls_buffer_t unit :=
  match cipher with
  | None =>
      _ ← ptls_buffer_pushv (str "KEM");
      ptls_buffer_push16 (kem_id kem)
  | Some cipher =>
      _ ← ptls_buffer_pushv (str "HPKE");
      _ ← ptls_buffer_push16 (kem_id kem);
      _ ← ptls_buffer_push16 (hpke_kdf cipher);
      ptls_buffer_push16 (hpke_aead_id cipher)
  end.

Definition suite_hash (kem : ptls_hpke_kem_t) (cipher : option ptls_hpke_cipher_suite_t) : ptls_hash_algorithm_t :=
  match cipher with Some c => hpke_hash c | None => kem_hash kem end.

(* src lib/hpke.c:47-68 labeled_extract *)
Definition labeled_extract (kem : ptls_hpke_kem_t) (cipher : option ptls_hpke_cipher_suite_t) (salt label ikm : bytes)
    : result bytes :=
  let '(r, labeled_ikm) :=
    (_ ← ptls_buffer_pushv HPKE_V1_LABEL;
     _ ← build_suite_id kem cipher;
     _ ← ptls_buffer_pushv label;
     ptls_buffer_pushv ikm) (smallbuf 64) in
  _ ← r;
  ptls_hkdf_extract (suite_hash kem cipher) salt (contents labeled_ikm).

(* src lib/hpke.c:70-94 labeled_expand *)
Definition labeled_expand (kem : ptls_hpke_kem_t) (cipher : option ptls_hpke_cipher_suite_t) (outlen : Z)
    (prk label info : bytes) : result bytes :=
  _ ← guard_err (outlen <? UINT16_MAX) ABORTED;
  let '(r, labeled_info) :=
    (_ ← ptls_buffer_push16 (u16 outlen);
     _ ← ptls_buffer_pushv HPKE_V1_LABEL;
     _ ← build_suite_id kem cipher;
     _ ← ptls_buffer_pushv label;
     ptls_buffer_pushv info) (smallbuf 64) in
  _ ← r;
  ptls_hkdf_expand (suite_hash kem cipher) outlen prk (contents labeled_info).

(* src lib/hpke.c:96-118 extract_and_expand *)
Definition extract_and_expand (kem : ptls_hpke_kem_t) (secret_len : Z) (pk_s pk_r dh : bytes) : result bytes :=
  let '(r, kem_context) := (_ ← ptls_buffer_pushv pk_s; ptls_buffer_pushv pk_r) (smallbuf 128) in
  _ ← r;
  eae_prk ← labeled_extract kem None [] (str "eae_prk") dh;
  labeled_expand kem None secret_len (take (Z.to_nat (digest_size (kem_hash kem))) eae_prk) (str "shared_secret")
    (contents kem_context).

(* src lib/hpke.c:120-123 dh_derive *)
Definition dh_derive (kem : ptls_hpke_kem_t) (pk_s pk_r dh : bytes) : result bytes :=
  extract_and_expand kem (digest_size (kem_hash kem)) pk_s pk_r dh.

(** The secret and [pk_s]. *)
(* src lib/hpke.c:125-151 dh_encap *)
Definition dh_encap (kem : ptls_hpke_kem_t) (pk_r : bytes) : result (bytes * bytes) :=
  '(pk_s, dh) ← kex_exchange (keyex kem) pk_r;
  secret ← dh_derive kem pk_s pk_r dh;
  Ok (secret, pk_s).

(* src lib/hpke.c:153-172 dh_decap *)
Definition dh_decap (kem : ptls_hpke_kem_t) (keyex : ptls_key_exchange_context_t) (pk_s pk_r : bytes) : result bytes :=
  dh ← on_exchange keyex pk_s;
  dh_derive kem pk_s pk_r dh.

(** The digest goes into space reserved in the buffer. *)
Definition push_labeled_extract (t : Z) (kem : ptls_hpke_kem_t) (cipher : ptls_hpke_cipher_suite_t) (label ikm : bytes)
    : M ptls_buffer_t unit :=
  _ ← reserve (digest_size (hpke_hash cipher)) t;
  x ← lift (labeled_extract kem (Some cipher) [] label ikm);
  modify (append_reserved x).

(** [Ok None] is a NULL context: that [ptls_aead_new_direct] failed is not reported. *)
(* src lib/hpke.c:176-222 key_schedule *)
Definition hpke_key_schedule (kem : ptls_hpke_kem_t) (cipher : ptls_hpke_cipher_suite_t) (is_enc : bool)
    (shared_secret info : bytes) : result (option ptls_aead_context_t) :=
  let t := if is_enc then 1 else 0 in
  let '(r, key_schedule_context) :=
    (_ ← ptls_buffer_push [PTLS_HPKE_MODE_BASE];
     _ ← push_labeled_extract t kem cipher (str "psk_id_hash") [];
     push_labeled_extract t kem cipher (str "info_hash") info) (ptls_buffer_init 64 (replicate 128 0) t) in
  _ ← r;
  secret ← labeled_extract kem (Some cipher) (take (Z.to_nat (digest_size (kem_hash kem))) shared_secret) (str "secret") [];
  let prk := take (Z.to_nat (digest_size (hpke_hash cipher))) secret in
  key ← labeled_expand kem (Some cipher) (key_size (hpke_aead cipher)) prk (str "key") (contents key_schedule_context);
  base_nonce ← labeled_expand kem (Some cipher) (iv_size (hpke_aead cipher)) prk (str "base_nonce")
                 (contents key_schedule_context);
  Ok (ptls_aead_new_direct (hpke_aead cipher) is_enc key base_nonce).

(** [pk_s] and the context. *)
(* src lib/hpke.c:224-246 ptls_hpke_setup_base_s *)
Definition ptls_hpke_setup_base_s (kem : ptls_hpke_kem_t) (cipher : ptls_hpke_cipher_suite_t) (pk_r info : bytes)
    : result (bytes * option ptls_aead_context_t) :=
  '(secret, pk_s) ← dh_encap kem pk_r;
  ctx ← hpke_key_schedule kem cipher true secret info;
  Ok (pk_s, ctx).

(* src lib/hpke.c:248-263 ptls_hpke_setup_base_r *)
Definition ptls_hpke_setup_base_r (kem : ptls_hpke_kem_t) (cipher : ptls_hpke_cipher_suite_t)
    (keyex : ptls_key_exchange_context_t) (pk_s info : bytes) : result (option ptls_aead_context_t) :=
  secret ← dh_decap kem keyex pk_s (pubkey keyex);
  hpke_key_schedule kem cipher false secret info.

End Hpke.

(** ** Reference definitions: RFC 9180 *)

Definition suite_id (kem : ptls_hpke_kem_t) (cipher : option ptls_hpke_cipher_suite_t) : bytes :=
  match cipher with
  | None => str "KEM" ++ be_encode 2 (kem_id kem)
  | Some c => str "HPKE" ++ be_encode 2 (kem_id kem) ++ be_encode 2 (hpke_kdf c) ++ be_encode 2 (hpke_aead_id c)
  end.

Definition LabeledExtract (kem : ptls_hpke_kem_t) (cipher : option ptls_hpke_cipher_suite_t) (salt label ikm : bytes) : bytes :=
  HKDF_Extract (suite_hash kem cipher) salt (str "HPKE-v1" ++ suite_id kem cipher ++ label ++ ikm).

Definition LabeledExpand (kem : ptls_hpke_kem_t) (cipher : option ptls_hpke_cipher_suite_t) (prk label info : bytes) (L : Z)
    : bytes :=
  HKDF_Expand (suite_hash kem cipher) prk (be_encode 2 L ++ str "HPKE-v1" ++ suite_id kem cipher ++ label ++ info) L.

(** Section 4.1, [ExtractAndExpand] over the [kem_context] of DHKEM *)
Definition dhkem_secret (kem : ptls_hpke_kem_t) (enc pkR dh : bytes) : bytes :=
  LabeledExpand kem None (LabeledExtract kem None [] (str "eae_prk") dh) (str "shared_secret") (enc ++ pkR)
    (digest_size (kem_hash kem)).

(** Section 5.1, [KeySchedule] in base mode: the key and the base nonce *)
Definition hpke_context (kem : ptls_hpke_kem_t) (cipher : ptls_hpke_cipher_suite_t) (info : bytes) : bytes :=
  [0] ++ LabeledExtract kem (Some cipher) [] (str "psk_id_hash") [] ++ LabeledExtract kem (Some cipher) [] (str "info_hash") info.

Definition hpke_keys (kem : ptls_hpke_kem_t) (cipher : ptls_hpke_cipher_suite_t) (shared_secret info : bytes) : bytes * bytes :=
  let secret := LabeledExtract kem (Some cipher) shared_secret (str "secret") [] in
  (LabeledExpand kem (Some cipher) secret (str "key") (hpke_context kem cipher info) (key_size (hpke_aead cipher)),
   LabeledExpand kem (Some cipher) secret (str "base_nonce") (hpke_context kem cipher info) (iv_size (hpke_aead cipher))).

(** ** The functions compute it, or report that memory ran out *)

Record hpke_ok (kem : ptls_hpke_kem_t) (cipher : ptls_hpke_cipher_suite_t) : Prop := {
  kem_hash_ok : hash_ok (kem_hash kem);
  hpke_hash_ok : hash_ok (hpke_hash cipher);
  kem_fits_block : digest_size (kem_hash kem) <= block_size (hpke_hash cipher);
  hpke_key_size : 0 <= key_size (hpke_aead cipher) < UINT16_MAX;
  hpke_iv_size : 0 <= iv_size (hpke_aead cipher) < UINT16_MAX;
}.

Section Proofs.
Context `{Allocator}.

(** A string built in an empty buffer. *)
Lemma built_from_gives {B} b0 P (m : M ptls_buffer_t unit) bs Q (f : bytes -> result B) y :
  buf_wf b0 -> contents b0 = [] -> P b0 -> triple P m (Ok ((), bs)) Q -> gives (f bs) y ->
  gives (let '(r, b) := m b0 in _ ← r; f (contents b)) y.
Proof.
  intros Hw Hc HP Hm Hf. destruct (Hm b0 Hw HP) as [E _]. destruct (m b0) as [[[]|e] b].
  - destruct E as (_ & _ & _ & E). cbn [snd] in E. change (get_buf b) with b in E. change (get_buf b0) with b0 in E.
    rewrite Hc in E. cbn [app] in E. cbn [mbind result_bind]. by rewrite E.
  - destruct E as (_ & _ & [->|(?&?&?)] & _); [by right|done].
Qed.

Lemma built_gives {B} n (m : M ptls_buffer_t unit) bs (f : bytes -> result B) y :
  Z.of_nat n <= SIZE_MAX -> emits m (Ok ((), bs)) -> gives (f bs) y ->
  gives (let '(r, b) := m (smallbuf n) in _ ← r; f (contents b)) y.
Proof.
  intros Hn Hm. apply (built_from_gives _ (λ _, True) _ _ (λ _ _, True)); [by apply smallbuf_wf|done|done|].
  intros b Hw _. split; [by apply Hm|done].
Qed.

Lemma emits_suite_id kem cipher : emits (build_suite_id kem cipher) (Ok ((), suite_id kem cipher)).
Proof.
  destruct cipher as [c|]; unfold build_suite_id, suite_id; rewrite <- !bytes16_be;
    repeat (eapply emits_seq; [apply emits_pushv|]); apply emits_pushv.
Qed.

Lemma labeled_extract_gives kem cipher salt label ikm :
  hash_ok (suite_hash kem cipher) -> len salt <= block_size (suite_hash kem cipher) ->
  gives (labeled_extract kem cipher salt label ikm) (LabeledExtract kem cipher salt label ikm).
Proof.
  intros Ha Hs. unfold labeled_extract. eapply (built_gives 64 _ _ (λ s, ptls_hkdf_extract _ salt s)); [done| |].
  - eapply emits_seq; [apply emits_pushv|]. eapply emits_seq; [apply emits_suite_id|].
    eapply emits_seq; [apply emits_pushv|]. apply emits_pushv.
  - by apply hkdf_extract_spec.
Qed.

Lemma labeled_expand_gives kem cipher outlen prk label info :
  hash_ok (suite_hash kem cipher) -> len prk <= block_size (suite_hash kem cipher) -> 0 <= outlen < UINT16_MAX ->
  gives (labeled_expand kem cipher outlen prk label info) (LabeledExpand kem cipher prk label info outlen).
Proof.
  intros Ha Hp Ho. unfold labeled_expand. rewrite (proj2 (Z.ltb_lt _ _)) by lia. cbn [guard_err mbind result_bind].
  eapply (built_gives 64 _ _ (λ s, ptls_hkdf_expand _ outlen prk s)); [done| |].
  - eapply emits_seq; [apply emits_push16|]. eapply emits_seq; [apply emits_pushv|].
    eapply emits_seq; [apply emits_suite_id|]. eapply emits_seq; [apply emits_pushv|]. apply emits_pushv.
  - unfold LabeledExpand. rewrite u16_small by (unfold UINT16_MAX in Ho; lia). rewrite bytes16_be. apply hkdf_expand_spec; [done|done|lia].
Qed.

Lemma LabeledExtract_len kem cipher salt label ikm :
  hash_ok (suite_hash kem cipher) -> len (LabeledExtract kem cipher salt label ikm) = digest_size (suite_hash kem cipher).
Proof. intros Ha. by apply HMAC_len. Qed.

Lemma take_all_len {A} (l : list A) n : len l = n -> take (Z.to_nat n) l = l.
Proof. intros <-. rewrite to_nat_len. apply firstn_all. Qed.

Lemma dh_derive_gives kem pk_s pk_r dh :
  hash_ok (kem_hash kem) -> gives (dh_derive kem pk_s pk_r dh) (dhkem_secret kem pk_s pk_r dh).
Proof.
  intros Ha. pose proof (digest_size_pos _ Ha). pose proof (digest_size_max _ Ha). pose proof (digest_block _ Ha).
  unfold dh_derive, extract_and_expand.
  eapply (built_gives 128 _ (pk_s ++ pk_r) (λ s, eae_prk ← labeled_extract kem None [] (str "eae_prk") dh;
    labeled_expand kem None _ (take _ eae_prk) (str "shared_secret") s)); [done| |].
  - eapply emits_seq; apply emits_pushv.
  - eapply gives_bind; [apply labeled_extract_gives; [done|change (len []) with 0; cbn; lia]|].
    rewrite take_all_len by (by apply LabeledExtract_len).
    apply labeled_expand_gives; [done|rewrite LabeledExtract_len by done; cbn; lia|].
    unfold PTLS_MAX_DIGEST_SIZE, UINT16_MAX in *. lia.
Qed.

(** The context of [KeySchedule], in a buffer of either direction. *)
Lemma hpke_context_built kem cipher t info :
  hash_ok (hpke_hash cipher) -> t = 0 \/ t = 1 ->
  triple (λ b, tx b = t)
    (_ ← ptls_buffer_push [PTLS_HPKE_MODE_BASE];
     _ ← push_labeled_extract t kem cipher (str "psk_id_hash") [];
     push_labeled_extract t kem cipher (str "info_hash") info)
    (Ok ((), hpke_context kem cipher info)) (λ _ b, tx b = t).
Proof.
  intros Ha Ht. pose proof (digest_size_pos _ Ha). pose proof (digest_block _ Ha).
  assert (stable (λ b, tx b = t)) as Hst by (intros b b' E Hb; cbn in *; congruence).
  assert (forall label ikm, triple (λ b, tx b = t) (push_labeled_extract t kem cipher label ikm)
    (Ok ((), LabeledExtract kem (Some cipher) [] label ikm)) (λ _ b, tx b = t)) as Hp.
  { intros label ikm. apply triple_reserve_append; [done|apply labeled_extract_gives; [done|change (len []) with 0; cbn; lia]|].
    by rewrite LabeledExtract_len. }
  unfold hpke_context. eapply triple_seq; [apply triple_push; [done|by apply Forall_singleton]|done|].
  eapply triple_seq; [apply Hp|done|apply Hp].
Qed.

Lemma hpke_key_schedule_gives kem cipher is_enc secret info :
  hpke_ok kem cipher -> len secret = digest_size (kem_hash kem) ->
  gives (hpke_key_schedule kem cipher is_enc secret info)
    (let '(key, nonce) := hpke_keys kem cipher secret info in ptls_aead_new_direct (hpke_aead cipher) is_enc key nonce).
Proof.
  intros [Hk Hh Hb Hks His] Hl. pose proof (digest_block _ Hh). unfold hpke_key_schedule.
  set (t := if is_enc then 1 else 0). assert (t = 0 \/ t = 1) as Ht by (destruct is_enc; auto).
  assert (buf_wf (ptls_buffer_init 64 (replicate 128 0) t)) as Hw by (apply buffer_init_wf; [lia|by rewrite len_replicate|done]).
  assert (contents (ptls_buffer_init 64 (replicate 128 0) t) = []) as Hc by done.
  assert (tx (ptls_buffer_init 64 (replicate 128 0) t) = t) as Hbt by done.
  set (b0 := ptls_buffer_init _ _ _) in *. clearbody b0.
  eapply (built_from_gives b0 (λ b, tx b = t) _ _ (λ _ b, tx b = t) (λ c,
    secret ← labeled_extract kem (Some cipher) _ (str "secret") [];
    key ← labeled_expand kem (Some cipher) _ (take _ secret) (str "key") c;
    base_nonce ← labeled_expand kem (Some cipher) _ (take _ secret) (str "base_nonce") c;
    Ok (ptls_aead_new_direct (hpke_aead cipher) is_enc key base_nonce)));
    [done|done|exact Hbt|by apply hpke_context_built|].
  rewrite take_all_len by done. eapply gives_bind; [apply labeled_extract_gives; [done|cbn [suite_hash]; lia]|].
  rewrite take_all_len by (by apply LabeledExtract_len). unfold hpke_keys.
  assert (forall n label, 0 <= n < UINT16_MAX -> gives (labeled_expand kem (Some cipher) n
    (LabeledExtract kem (Some cipher) secret (str "secret") []) label (hpke_context kem cipher info))
    (LabeledExpand kem (Some cipher) (LabeledExtract kem (Some cipher) secret (str "secret") []) label (hpke_context kem cipher info) n))
    as Hx.
  { intros n label Hn. apply labeled_expand_gives; [done|by rewrite LabeledExtract_len|done]. }
  eapply gives_bind; [by apply Hx|]. eapply gives_bind; [by apply Hx|]. by left.
Qed.

Lemma dhkem_secret_len kem pk_s pk_r dh : hash_ok (kem_hash kem) -> len (dhkem_secret kem pk_s pk_r dh) = digest_size (kem_hash kem).
Proof.
  intros Ha. pose proof (digest_size_pos _ Ha). apply HKDF_Expand_len; [done|lia].
Qed.

(** C25: the two sides of HPKE arrive at the same AEAD context, that of RFC 9180.  Let the recipient's key
    pair be such that the key exchanges agree.  What [ptls_hpke_setup_base_s] returns for its public
    key, and [ptls_hpke_setup_base_r] for the encapsulated key the sender transmits, are contexts over
    one and the same key and base nonce, those of the key schedule of RFC 9180 in base mode over
    DHKEM.  The only error is [PTLS_ERROR_NO_MEMORY] -- but a context that could not be allocated is
    NULL without an error. *)
Theorem hpke_setup_agrees kem cipher key pk_s dh info :
  hpke_ok kem cipher -> kex_exchange (keyex kem) (pubkey key) = Ok (pk_s, dh) -> on_exchange key pk_s = Ok dh ->
  let '(k, nonce) := hpke_keys kem cipher (dhkem_secret kem pk_s (pubkey key) dh) info in
  gives (ptls_hpke_setup_base_s kem cipher (pubkey key) info) (pk_s, ptls_aead_new_direct (hpke_aead cipher) true k nonce) /\
  gives (ptls_hpke_setup_base_r kem cipher key pk_s info) (ptls_aead_new_direct (hpke_aead cipher) false k nonce).
Proof.
  intros Hok Hs Hr. pose proof (kem_hash_ok _ _ Hok) as Hk.
  pose proof (dh_derive_gives kem pk_s (pubkey key) dh Hk) as Hd.
  set (secret := dhkem_secret kem pk_s (pubkey key) dh) in *.
  assert (len secret = digest_size (kem_hash kem)) as Hl by (by apply dhkem_secret_len).
  pose proof (hpke_key_schedule_gives kem cipher true secret info Hok Hl) as Ht.
  pose proof (hpke_key_schedule_gives kem cipher false secret info Hok Hl) as Hf.
  destruct (hpke_keys kem cipher secret info) as [k nonce]. split.
  - unfold ptls_hpke_setup_base_s, dh_encap. rewrite Hs. cbn [mbind result_bind].
    destruct Hd as [-> | ->]; [|by right]. cbn [mbind result_bind]. eapply gives_bind; [exact Ht|]. by left.
  - unfold ptls_hpke_setup_base_r, dh_decap. rewrite Hr. cbn [mbind result_bind]. eapply gives_bind; [exact Hd|exact Hf].
Qed.

End Proofs.

(** ** Witness *)

(** A key exchange in which every secret is the same. *)
Definition toy_kex_ctx : ptls_key_exchange_context_t := mkKexCtx 29 [1; 2; 3] (λ _, Ok [9; 9]).
Definition toy_kex : ptls_key_exchange_algorithm_t := mkKex 29 (Ok toy_kex_ctx) (λ _, Ok ([4; 5; 6], [9; 9])).

Definition toy_kem : ptls_hpke_kem_t := mkKem 32 toy_kex toy_hash.
Definition toy_hpke : ptls_hpke_cipher_suite_t := mkHpkeSuite 1 1 toy_hash toy_aead.

Lemma toy_hpke_ok : hpke_ok toy_kem toy_hpke.
Proof. split; [apply toy_hash_ok|apply toy_hash_ok|vm_compute; discriminate|vm_compute; split; [discriminate|reflexivity]..]. Qed.

Lemma hpke_setup_agrees_witness :
  let '(k, nonce) := hpke_keys toy_kem toy_hpke (dhkem_secret toy_kem [4; 5; 6] [1; 2; 3] [9; 9]) (str "info") in
  gives (@ptls_hpke_setup_base_s bump_allocator toy_kem toy_hpke [1; 2; 3] (str "info"))
    ([4; 5; 6], @ptls_aead_new_direct bump_allocator toy_aead true k nonce) /\
  gives (@ptls_hpke_setup_base_r bump_allocator toy_kem toy_hpke toy_kex_ctx [4; 5; 6] (str "info"))
    (@ptls_aead_new_direct bump_allocator toy_aead false k nonce).
Proof.
  apply (@hpke_setup_agrees bump_allocator toy_kem toy_hpke toy_kex_ctx [4; 5; 6] [9; 9] (str "info"));
    [apply toy_hpke_ok|reflexivity|reflexivity].
Defined.
