(* ===== verification/ClientHello.v ===== *)
(** * ClientHello: the first message of the handshake ([lib/picotls.c])

    The decoder of the server and the encoder of the client, which builds the message in three modes:
    the ClientHello proper (the inner one, when ECH is used), the compressed form of it that is
    encrypted, and the outer one that carries the encryption. *)

From S2P Require Import Prelude Constants Wire Buffer Extensions Crypto KeySchedule Tls Record Emit Negotiate.

(** ** The decoded message *)

(* src include/zpicotls.h:716-720 ptls_client_hello_psk_identity_t *)
Record ptls_client_hello_psk_identity_t := mkPsk { identity : bytes; obfuscated_ticket_age : Z; binder : bytes }.

(* src lib/picotls.c:401-407 ech *)
Record client_hello_ech := mkChEch {
  che_type : Z; che_config_id : Z; che_kdf : Z; che_aead : Z; che_enc : bytes;
  che_payload : option bytes;   (* [None]: the extension was not received *)
  che_payload_left : Z          (* the bytes of the message from the payload on *)
}.

(** Pointers into the message are the bytes they point to.  [psk_hash_left] stands for [psk.hash_end]: the
    number of bytes of the message from there on. *)
(* src lib/picotls.c:360-420 st_ptls_client_hello_t *)
Record st_ptls_client_hello_t := mkCh {
  ch_legacy_version : Z;
  random_bytes : bytes;
  ch_legacy_session_id : bytes;
  compression_methods : bytes;
  selected_version : Z;
  ch_cipher_suites : bytes;
  negotiated_groups : option bytes;
  key_shares : option bytes;
  ch_signature_algorithms : list Z;
  ch_server_name : option bytes;
  alpn : list bytes;
  cert_compression_algos : list Z;
  cookie_all : bytes;
  cookie_tbs : bytes;
  cookie_ch1_hash : bytes;
  cookie_signature : bytes;
  cookie_sent_key_share : bool;
  server_certificate_types : list Z;
  status_request : bool;
  ticket_request : Z * Z;
  ch_ech : client_hello_ech;
  psk_hash_left : option Z;
  psk_identities : list ptls_client_hello_psk_identity_t;
  psk_ke_modes : Z;
  early_data_indication : bool;
  psk_is_last_extension : bool;
  unknown_extensions : list (Z * bytes);
  first_extension_at : Z;
}.

Definition set_ch_legacy_version (x : Z) (s : st_ptls_client_hello_t) : st_ptls_client_hello_t :=
  mkCh
    x (random_bytes s) (ch_legacy_session_id s) (compression_methods s) (selected_version s)
    (ch_cipher_suites s) (negotiated_groups s) (key_shares s) (ch_signature_algorithms s)
    (ch_server_name s) (alpn s) (cert_compression_algos s) (cookie_all s) (cookie_tbs s)
    (cookie_ch1_hash s) (cookie_signature s) (cookie_sent_key_share s) (server_certificate_types s)
    (status_request s) (ticket_request s) (ch_ech s) (psk_hash_left s) (psk_identities s)
    (psk_ke_modes s) (early_data_indication s) (psk_is_last_extension s) (unknown_extensions s)
    (first_extension_at s).
Definition set_random_bytes (x : bytes) (s : st_ptls_client_hello_t) : st_ptls_client_hello_t :=
  mkCh
    (ch_legacy_version s) x (ch_legacy_session_id s) (compression_methods s) (selected_version s)
    (ch_cipher_suites s) (negotiated_groups s) (key_shares s) (ch_signature_algorithms s)
    (ch_server_name s) (alpn s) (cert_compression_algos s) (cookie_all s) (cookie_tbs s)
    (cookie_ch1_hash s) (cookie_signature s) (cookie_sent_key_share s) (server_certificate_types s)
    (status_request s) (ticket_request s) (ch_ech s) (psk_hash_left s) (psk_identities s)
    (psk_ke_modes s) (early_data_indication s) (psk_is_last_extension s) (unknown_extensions s)
    (first_extension_at s).
Definition set_ch_legacy_session_id (x : bytes) (s : st_ptls_client_hello_t) : st_ptls_client_hello_t :=
  mkCh
    (ch_legacy_version s) (random_bytes s) x (compression_methods s) (selected_version s)
    (ch_cipher_suites s) (negotiated_groups s) (key_shares s) (ch_signature_algorithms s)
    (ch_server_name s) (alpn s) (cert_compression_algos s) (cookie_all s) (cookie_tbs s)
    (cookie_ch1_hash s) (cookie_signature s) (cookie_sent_key_share s) (server_certificate_types s)
    (status_request s) (ticket_request s) (ch_ech s) (psk_hash_left s) (psk_identities s)
    (psk_ke_modes s) (early_data_indication s) (psk_is_last_extension s) (unknown_extensions s)
    (first_extension_at s).
Definition set_compression_methods (x : bytes) (s : st_ptls_client_hello_t) : st_ptls_client_hello_t :=
  mkCh
    (ch_legacy_version s) (random_bytes s) (ch_legacy_session_id s) x (selected_version s)
    (ch_cipher_suites s) (negotiated_groups s) (key_shares s) (ch_signature_algorithms s)
    (ch_server_name s) (alpn s) (cert_compression_algos s) (cookie_all s) (cookie_tbs s)
    (cookie_ch1_hash s) (cookie_signature s) (cookie_sent_key_share s) (server_certificate_types s)
    (status_request s) (ticket_request s) (ch_ech s) (psk_hash_left s) (psk_identities s)
    (psk_ke_modes s) (early_data_indication s) (psk_is_last_extension s) (unknown_extensions s)
    (first_extension_at s).
Definition set_selected_version (x : Z) (s : st_ptls_client_hello_t) : st_ptls_client_hello_t :=
  mkCh
    (ch_legacy_version s) (random_bytes s) (ch_legacy_session_id s) (compression_methods s) x
    (ch_cipher_suites s) (negotiated_groups s) (key_shares s) (ch_signature_algorithms s)
    (ch_server_name s) (alpn s) (cert_compression_algos s) (cookie_all s) (cookie_tbs s)
    (cookie_ch1_hash s) (cookie_signature s) (cookie_sent_key_share s) (server_certificate_types s)
    (status_request s) (ticket_request s) (ch_ech s) (psk_hash_left s) (psk_identities s)
    (psk_ke_modes s) (early_data_indication s) (psk_is_last_extension s) (unknown_extensions s)
    (first_extension_at s).
Definition set_ch_cipher_suites (x : bytes) (s : st_ptls_client_hello_t) : st_ptls_client_hello_t :=
  mkCh
    (ch_legacy_version s) (random_bytes s) (ch_legacy_session_id s) (compression_methods s)
    (selected_version s) x (negotiated_groups s) (key_shares s) (ch_signature_algorithms s)
    (ch_server_name s) (alpn s) (cert_compression_algos s) (cookie_all s) (cookie_tbs s)
    (cookie_ch1_hash s) (cookie_signature s) (cookie_sent_key_share s) (server_certificate_types s)
    (status_request s) (ticket_request s) (ch_ech s) (psk_hash_left s) (psk_identities s)
    (psk_ke_modes s) (early_data_indication s) (psk_is_last_extension s) (unknown_extensions s)
    (first_extension_at s).
Definition set_negotiated_groups (x : option bytes) (s : st_ptls_client_hello_t) : st_ptls_client_hello_t :=
  mkCh
    (ch_legacy_version s) (random_bytes s) (ch_legacy_session_id s) (compression_methods s)
    (selected_version s) (ch_cipher_suites s) x (key_shares s) (ch_signature_algorithms s)
    (ch_server_name s) (alpn s) (cert_compression_algos s) (cookie_all s) (cookie_tbs s)
    (cookie_ch1_hash s) (cookie_signature s) (cookie_sent_key_share s) (server_certificate_types s)
    (status_request s) (ticket_request s) (ch_ech s) (psk_hash_left s) (psk_identities s)
    (psk_ke_modes s) (early_data_indication s) (psk_is_last_extension s) (unknown_extensions s)
    (first_extension_at s).
Definition set_key_shares (x : option bytes) (s : st_ptls_client_hello_t) : st_ptls_client_hello_t :=
  mkCh
    (ch_legacy_version s) (random_bytes s) (ch_legacy_session_id s) (compression_methods s)
    (selected_version s) (ch_cipher_suites s) (negotiated_groups s) x (ch_signature_algorithms s)
    (ch_server_name s) (alpn s) (cert_compression_algos s) (cookie_all s) (cookie_tbs s)
    (cookie_ch1_hash s) (cookie_signature s) (cookie_sent_key_share s) (server_certificate_types s)
    (status_request s) (ticket_request s) (ch_ech s) (psk_hash_left s) (psk_identities s)
    (psk_ke_modes s) (early_data_indication s) (psk_is_last_extension s) (unknown_extensions s)
    (first_extension_at s).
Definition set_ch_signature_algorithms (x : list Z) (s : st_ptls_client_hello_t) : st_ptls_client_hello_t :=
  mkCh
    (ch_legacy_version s) (random_bytes s) (ch_legacy_session_id s) (compression_methods s)
    (selected_version s) (ch_cipher_suites s) (negotiated_groups s) (key_shares s) x
    (ch_server_name s) (alpn s) (cert_compression_algos s) (cookie_all s) (cookie_tbs s)
    (cookie_ch1_hash s) (cookie_signature s) (cookie_sent_key_share s) (server_certificate_types s)
    (status_request s) (ticket_request s) (ch_ech s) (psk_hash_left s) (psk_identities s)
    (psk_ke_modes s) (early_data_indication s) (psk_is_last_extension s) (unknown_extensions s)
    (first_extension_at s).
Definition set_ch_server_name (x : option bytes) (s : st_ptls_client_hello_t) : st_ptls_client_hello_t :=
  mkCh
    (ch_legacy_version s) (random_bytes s) (ch_legacy_session_id s) (compression_methods s)
    (selected_version s) (ch_cipher_suites s) (negotiated_groups s) (key_shares s)
    (ch_signature_algorithms s) x (alpn s) (cert_compression_algos s) (cookie_all s) (cookie_tbs s)
    (cookie_ch1_hash s) (cookie_signature s) (cookie_sent_key_share s) (server_certificate_types s)
    (status_request s) (ticket_request s) (ch_ech s) (psk_hash_left s) (psk_identities s)
    (psk_ke_modes s) (early_data_indication s) (psk_is_last_extension s) (unknown_extensions s)
    (first_extension_at s).
Definition set_alpn (x : list bytes) (s : st_ptls_client_hello_t) : st_ptls_client_hello_t :=
  mkCh
    (ch_legacy_version s) (random_bytes s) (ch_legacy_session_id s) (compression_methods s)
    (selected_version s) (ch_cipher_suites s) (negotiated_groups s) (key_shares s)
    (ch_signature_algorithms s) (ch_server_name s) x (cert_compression_algos s) (cookie_all s)
    (cookie_tbs s) (cookie_ch1_hash s) (cookie_signature s) (cookie_sent_key_share s)
    (server_certificate_types s) (status_request s) (ticket_request s) (ch_ech s) (psk_hash_left s)
    (psk_identities s) (psk_ke_modes s) (early_data_indication s) (psk_is_last_extension s)
    (unknown_extensions s) (first_extension_at s).
Definition set_cert_compression_algos (x : list Z) (s : st_ptls_client_hello_t) : st_ptls_client_hello_t :=
  mkCh
    (ch_legacy_version s) (random_bytes s) (ch_legacy_session_id s) (compression_methods s)
    (selected_version s) (ch_cipher_suites s) (negotiated_groups s) (key_shares s)
    (ch_signature_algorithms s) (ch_server_name s) (alpn s) x (cookie_all s) (cookie_tbs s)
    (cookie_ch1_hash s) (cookie_signature s) (cookie_sent_key_share s) (server_certificate_types s)
    (status_request s) (ticket_request s) (ch_ech s) (psk_hash_left s) (psk_identities s)
    (psk_ke_modes s) (early_data_indication s) (psk_is_last_extension s) (unknown_extensions s)
    (first_extension_at s).
Definition set_cookie_all (x : bytes) (s : st_ptls_client_hello_t) : st_ptls_client_hello_t :=
  mkCh
    (ch_legacy_version s) (random_bytes s) (ch_legacy_session_id s) (compression_methods s)
    (selected_version s) (ch_cipher_suites s) (negotiated_groups s) (key_shares s)
    (ch_signature_algorithms s) (ch_server_name s) (alpn s) (cert_compression_algos s) x
    (cookie_tbs s) (cookie_ch1_hash s) (cookie_signature s) (cookie_sent_key_share s)
    (server_certificate_types s) (status_request s) (ticket_request s) (ch_ech s) (psk_hash_left s)
    (psk_identities s) (psk_ke_modes s) (early_data_indication s) (psk_is_last_extension s)
    (unknown_extensions s) (first_extension_at s).
Definition set_cookie_tbs (x : bytes) (s : st_ptls_client_hello_t) : st_ptls_client_hello_t :=
  mkCh
    (ch_legacy_version s) (random_bytes s) (ch_legacy_session_id s) (compression_methods s)
    (selected_version s) (ch_cipher_suites s) (negotiated_groups s) (key_shares s)
    (ch_signature_algorithms s) (ch_server_name s) (alpn s) (cert_compression_algos s)
    (cookie_all s) x (cookie_ch1_hash s) (cookie_signature s) (cookie_sent_key_share s)
    (server_certificate_types s) (status_request s) (ticket_request s) (ch_ech s) (psk_hash_left s)
    (psk_identities s) (psk_ke_modes s) (early_data_indication s) (psk_is_last_extension s)
    (unknown_extensions s) (first_extension_at s).
Definition set_cookie_ch1_hash (x : bytes) (s : st_ptls_client_hello_t) : st_ptls_client_hello_t :=
  mkCh
    (ch_legacy_version s) (random_bytes s) (ch_legacy_session_id s) (compression_methods s)
    (selected_version s) (ch_cipher_suites s) (negotiated_groups s) (key_shares s)
    (ch_signature_algorithms s) (ch_server_name s) (alpn s) (cert_compression_algos s)
    (cookie_all s) (cookie_tbs s) x (cookie_signature s) (cookie_sent_key_share s)
    (server_certificate_types s) (status_request s) (ticket_request s) (ch_ech s) (psk_hash_left s)
    (psk_identities s) (psk_ke_modes s) (early_data_indication s) (psk_is_last_extension s)
    (unknown_extensions s) (first_extension_at s).
Definition set_cookie_signature (x : bytes) (s : st_ptls_client_hello_t) : st_ptls_client_hello_t :=
  mkCh
    (ch_legacy_version s) (random_bytes s) (ch_legacy_session_id s) (compression_methods s)
    (selected_version s) (ch_cipher_suites s) (negotiated_groups s) (key_shares s)
    (ch_signature_algorithms s) (ch_server_name s) (alpn s) (cert_compression_algos s)
    (cookie_all s) (cookie_tbs s) (cookie_ch1_hash s) x (cookie_sent_key_share s)
    (server_certificate_types s) (status_request s) (ticket_request s) (ch_ech s) (psk_hash_left s)
    (psk_identities s) (psk_ke_modes s) (early_data_indication s) (psk_is_last_extension s)
    (unknown_extensions s) (first_extension_at s).
Definition set_cookie_sent_key_share (x : bool) (s : st_ptls_client_hello_t) : st_ptls_client_hello_t :=
  mkCh
    (ch_legacy_version s) (random_bytes s) (ch_legacy_session_id s) (compression_methods s)
    (selected_version s) (ch_cipher_suites s) (negotiated_groups s) (key_shares s)
    (ch_signature_algorithms s) (ch_server_name s) (alpn s) (cert_compression_algos s)
    (cookie_all s) (cookie_tbs s) (cookie_ch1_hash s) (cookie_signature s) x
    (server_certificate_types s) (status_request s) (ticket_request s) (ch_ech s) (psk_hash_left s)
    (psk_identities s) (psk_ke_modes s) (early_data_indication s) (psk_is_last_extension s)
    (unknown_extensions s) (first_extension_at s).
Definition set_server_certificate_types (x : list Z) (s : st_ptls_client_hello_t) : st_ptls_client_hello_t :=
  mkCh
    (ch_legacy_version s) (random_bytes s) (ch_legacy_session_id s) (compression_methods s)
    (selected_version s) (ch_cipher_suites s) (negotiated_groups s) (key_shares s)
    (ch_signature_algorithms s) (ch_server_name s) (alpn s) (cert_compression_algos s)
    (cookie_all s) (cookie_tbs s) (cookie_ch1_hash s) (cookie_signature s) (cookie_sent_key_share s)
    x (status_request s) (ticket_request s) (ch_ech s) (psk_hash_left s) (psk_identities s)
    (psk_ke_modes s) (early_data_indication s) (psk_is_last_extension s) (unknown_extensions s)
    (first_extension_at s).
Definition set_status_request (x : bool) (s : st_ptls_client_hello_t) : st_ptls_client_hello_t :=
  mkCh
    (ch_legacy_version s) (random_bytes s) (ch_legacy_session_id s) (compression_methods s)
    (selected_version s) (ch_cipher_suites s) (negotiated_groups s) (key_shares s)
    (ch_signature_algorithms s) (ch_server_name s) (alpn s) (cert_compression_algos s)
    (cookie_all s) (cookie_tbs s) (cookie_ch1_hash s) (cookie_signature s) (cookie_sent_key_share s)
    (server_certificate_types s) x (ticket_request s) (ch_ech s) (psk_hash_left s)
    (psk_identities s) (psk_ke_modes s) (early_data_indication s) (psk_is_last_extension s)
    (unknown_extensions s) (first_extension_at s).
Definition set_ticket_request (x : Z * Z) (s : st_ptls_client_hello_t) : st_ptls_client_hello_t :=
  mkCh
    (ch_legacy_version s) (random_bytes s) (ch_legacy_session_id s) (compression_methods s)
    (selected_version s) (ch_cipher_suites s) (negotiated_groups s) (key_shares s)
    (ch_signature_algorithms s) (ch_server_name s) (alpn s) (cert_compression_algos s)
    (cookie_all s) (cookie_tbs s) (cookie_ch1_hash s) (cookie_signature s) (cookie_sent_key_share s)
    (server_certificate_types s) (status_request s) x (ch_ech s) (psk_hash_left s)
    (psk_identities s) (psk_ke_modes s) (early_data_indication s) (psk_is_last_extension s)
    (unknown_extensions s) (first_extension_at s).
Definition set_ch_ech (x : client_hello_ech) (s : st_ptls_client_hello_t) : st_ptls_client_hello_t :=
  mkCh
    (ch_legacy_version s) (random_bytes s) (ch_legacy_session_id s) (compression_methods s)
    (selected_version s) (ch_cipher_suites s) (negotiated_groups s) (key_shares s)
    (ch_signature_algorithms s) (ch_server_name s) (alpn s) (cert_compression_algos s)
    (cookie_all s) (cookie_tbs s) (cookie_ch1_hash s) (cookie_signature s) (cookie_sent_key_share s)
    (server_certificate_types s) (status_request s) (ticket_request s) x (psk_hash_left s)
    (psk_identities s) (psk_ke_modes s) (early_data_indication s) (psk_is_last_extension s)
    (unknown_extensions s) (first_extension_at s).
Definition set_psk_hash_left (x : option Z) (s : st_ptls_client_hello_t) : st_ptls_client_hello_t :=
  mkCh
    (ch_legacy_version s) (random_bytes s) (ch_legacy_session_id s) (compression_methods s)
    (selected_version s) (ch_cipher_suites s) (negotiated_groups s) (key_shares s)
    (ch_signature_algorithms s) (ch_server_name s) (alpn s) (cert_compression_algos s)
    (cookie_all s) (cookie_tbs s) (cookie_ch1_hash s) (cookie_signature s) (cookie_sent_key_share s)
    (server_certificate_types s) (status_request s) (ticket_request s) (ch_ech s) x
    (psk_identities s) (psk_ke_modes s) (early_data_indication s) (psk_is_last_extension s)
    (unknown_extensions s) (first_extension_at s).
Definition set_psk_identities (x : list ptls_client_hello_psk_identity_t) (s : st_ptls_client_hello_t) : st_ptls_client_hello_t :=
  mkCh
    (ch_legacy_version s) (random_bytes s) (ch_legacy_session_id s) (compression_methods s)
    (selected_version s) (ch_cipher_suites s) (negotiated_groups s) (key_shares s)
    (ch_signature_algorithms s) (ch_server_name s) (alpn s) (cert_compression_algos s)
    (cookie_all s) (cookie_tbs s) (cookie_ch1_hash s) (cookie_signature s) (cookie_sent_key_share s)
    (server_certificate_types s) (status_request s) (ticket_request s) (ch_ech s) (psk_hash_left s)
    x (psk_ke_modes s) (early_data_indication s) (psk_is_last_extension s) (unknown_extensions s)
    (first_extension_at s).
Definition set_psk_ke_modes (x : Z) (s : st_ptls_client_hello_t) : st_ptls_client_hello_t :=
  mkCh
    (ch_legacy_version s) (random_bytes s) (ch_legacy_session_id s) (compression_methods s)
    (selected_version s) (ch_cipher_suites s) (negotiated_groups s) (key_shares s)
    (ch_signature_algorithms s) (ch_server_name s) (alpn s) (cert_compression_algos s)
    (cookie_all s) (cookie_tbs s) (cookie_ch1_hash s) (cookie_signature s) (cookie_sent_key_share s)
    (server_certificate_types s) (status_request s) (ticket_request s) (ch_ech s) (psk_hash_left s)
    (psk_identities s) x (early_data_indication s) (psk_is_last_extension s) (unknown_extensions s)
    (first_extension_at s).
Definition set_early_data_indication (x : bool) (s : st_ptls_client_hello_t) : st_ptls_client_hello_t :=
  mkCh
    (ch_legacy_version s) (random_bytes s) (ch_legacy_session_id s) (compression_methods s)
    (selected_version s) (ch_cipher_suites s) (negotiated_groups s) (key_shares s)
    (ch_signature_algorithms s) (ch_server_name s) (alpn s) (cert_compression_algos s)
    (cookie_all s) (cookie_tbs s) (cookie_ch1_hash s) (cookie_signature s) (cookie_sent_key_share s)
    (server_certificate_types s) (status_request s) (ticket_request s) (ch_ech s) (psk_hash_left s)
    (psk_identities s) (psk_ke_modes s) x (psk_is_last_extension s) (unknown_extensions s)
    (first_extension_at s).
Definition set_psk_is_last_extension (x : bool) (s : st_ptls_client_hello_t) : st_ptls_client_hello_t :=
  mkCh
    (ch_legacy_version s) (random_bytes s) (ch_legacy_session_id s) (compression_methods s)
    (selected_version s) (ch_cipher_suites s) (negotiated_groups s) (key_shares s)
    (ch_signature_algorithms s) (ch_server_name s) (alpn s) (cert_compression_algos s)
    (cookie_all s) (cookie_tbs s) (cookie_ch1_hash s) (cookie_signature s) (cookie_sent_key_share s)
    (server_certificate_types s) (status_request s) (ticket_request s) (ch_ech s) (psk_hash_left s)
    (psk_identities s) (psk_ke_modes s) (early_data_indication s) x (unknown_extensions s)
    (first_extension_at s).
Definition set_unknown_extensions (x : list (Z * bytes)) (s : st_ptls_client_hello_t) : st_ptls_client_hello_t :=
  mkCh
    (ch_legacy_version s) (random_bytes s) (ch_legacy_session_id s) (compression_methods s)
    (selected_version s) (ch_cipher_suites s) (negotiated_groups s) (key_shares s)
    (ch_signature_algorithms s) (ch_server_name s) (alpn s) (cert_compression_algos s)
    (cookie_all s) (cookie_tbs s) (cookie_ch1_hash s) (cookie_signature s) (cookie_sent_key_share s)
    (server_certificate_types s) (status_request s) (ticket_request s) (ch_ech s) (psk_hash_left s)
    (psk_identities s) (psk_ke_modes s) (early_data_indication s) (psk_is_last_extension s) x
    (first_extension_at s).
Definition set_first_extension_at (x : Z) (s : st_ptls_client_hello_t) : st_ptls_client_hello_t :=
  mkCh
    (ch_legacy_version s) (random_bytes s) (ch_legacy_session_id s) (compression_methods s)
    (selected_version s) (ch_cipher_suites s) (negotiated_groups s) (key_shares s)
    (ch_signature_algorithms s) (ch_server_name s) (alpn s) (cert_compression_algos s)
    (cookie_all s) (cookie_tbs s) (cookie_ch1_hash s) (cookie_signature s) (cookie_sent_key_share s)
    (server_certificate_types s) (status_request s) (ticket_request s) (ch_ech s) (psk_hash_left s)
    (psk_identities s) (psk_ke_modes s) (early_data_indication s) (psk_is_last_extension s)
    (unknown_extensions s) x.

Definition no_ch_ech : client_hello_ech := mkChEch 0 0 0 0 [] None 0.

Definition empty_client_hello : st_ptls_client_hello_t :=
  mkCh 0 [] [] [] 0 [] None None [] None [] [] [] [] [] [] false [] false (0, 0) no_ch_ech None [] 0 false false [] 0.

(** ** Unknown extensions *)

(* src lib/picotls.c:3006-3009 should_collect_unknown_extension *)
Definition should_collect_unknown_extension (properties : option ptls_handshake_properties_t) (type : Z) : bool :=
  match properties with
  | Some p => match collect_extension p with Some f => f type | None => false end
  | None => false
  end.

(* src lib/picotls.c:3011-3026 collect_unknown_extension *)
Definition collect_unknown_extension (type : Z) (src : bytes) (slots : list (Z * bytes)) : result (list (Z * bytes)) :=
  if existsb (λ s, fst s =? type) slots then Err PTLS_ALERT_ILLEGAL_PARAMETER
  else Ok (push_upto MAX_UNKNOWN_EXTENSIONS slots (type, src)).

(* src lib/picotls.c:3028-3036 report_unknown_extensions *)
Definition report_unknown_extensions (properties : option ptls_handshake_properties_t) (slots : list (Z * bytes)) : Z :=
  match properties with
  | Some p => match collect_extension p with Some _ => collected_extensions p slots | None => 0 end
  | None => 0
  end.

(** ** Decoding the extensions

    One function for each [case]: the message so far, the bytes of the extension, and what is left of
    them; [src = end] after the [switch] drops the rest. *)

Definition ch_update (r : result st_ptls_client_hello_t) : result (st_ptls_client_hello_t * bytes) := ch ← r; Ok (ch, []).

(* src lib/picotls.c:3646-3678 client_hello_decode_server_name *)
Definition client_hello_decode_server_name (name : option bytes) (src : bytes) : result (option bytes * bytes) :=
  ptls_decode_open_block 2 (decode_do_while (λ name src,
    '(type, src) ← ptls_decode8 src;
    ptls_decode_open_block 2 (λ src,
      if type =? PTLS_SERVER_NAME_TYPE_HOSTNAME then
        if len src =? 0 then Err PTLS_ALERT_DECODE_ERROR
        else if existsb (λ b, b =? 0) src then Err PTLS_ALERT_ILLEGAL_PARAMETER
        else Ok (Some src, [])
      else Ok (name, [])) src) name) src.

(* src lib/picotls.c:3777-3784 PTLS_EXTENSION_TYPE_SERVER_NAME *)
Definition ch_ext_server_name (ch : st_ptls_client_hello_t) (src : bytes) : result st_ptls_client_hello_t :=
  '(name, src) ← client_hello_decode_server_name (ch_server_name ch) src;
  match src with [] => Ok (set_ch_server_name name ch) | _ => Err PTLS_ALERT_DECODE_ERROR end.

(* src lib/picotls.c:3785-3800 PTLS_EXTENSION_TYPE_ALPN *)
Definition ch_ext_alpn (ch : st_ptls_client_hello_t) (src : bytes) : result st_ptls_client_hello_t :=
  l ← ptls_decode_block 2 (decode_do_while (λ l src,
        ptls_decode_open_block 1 (λ src,
          match src with [] => Err PTLS_ALERT_DECODE_ERROR | _ => Ok (push_upto 16 l src, []) end) src) (alpn ch)) src;
  Ok (set_alpn l ch).

(** The list is not empty here: the last element of [do ... while] is the last byte. *)
(* src lib/picotls.c:3801-3817 PTLS_EXTENSION_TYPE_SERVER_CERTIFICATE_TYPE *)
Definition ch_ext_certificate_type (ch : st_ptls_client_hello_t) (src : bytes) : result st_ptls_client_hello_t :=
  l ← ptls_decode_block 1 (λ src,
        if (len src =? 0) || ((len src =? 1) && (byte_at src 0 =? PTLS_CERTIFICATE_TYPE_X509)) then Err PTLS_ALERT_DECODE_ERROR
        else Ok (foldl (push_upto MAX_CERTIFICATE_TYPES) (server_certificate_types ch) src, [])) src;
  Ok (set_server_certificate_types l ch).

(* src lib/picotls.c:3818-3828 PTLS_EXTENSION_TYPE_COMPRESS_CERTIFICATE *)
Definition ch_ext_compress (ch : st_ptls_client_hello_t) (src : bytes) : result st_ptls_client_hello_t :=
  l ← ptls_decode_block 1 (decode_do_while (λ l src,
        '(id, src) ← ptls_decode16 src; Ok (push_upto 16 l id, src)) (cert_compression_algos ch)) src;
  Ok (set_cert_compression_algos l ch).

(** The loop [for (i = 0; i != selected_index; ++i)]: the smallest index with the version, below the one
    selected so far. *)
Fixpoint find_version (versions : list Z) (i selected_index v : Z) : Z :=
  match versions with
  | [] => selected_index
  | x :: l => if i =? selected_index then selected_index else if x =? v then i else find_version l (i + 1) selected_index v
  end.

(* src lib/picotls.c:3839-3857 PTLS_EXTENSION_TYPE_SUPPORTED_VERSIONS *)
Definition ch_ext_versions (ch : st_ptls_client_hello_t) (src : bytes) : result st_ptls_client_hello_t :=
  selected ← ptls_decode_block 1 (decode_do_while (λ selected_index src,
        '(v, src) ← ptls_decode16 src;
        Ok (find_version supported_versions 0 selected_index v, src)) (len supported_versions)) src;
  match supported_versions !! Z.to_nat selected with
  | Some v => Ok (set_selected_version v ch)
  | None => Ok ch
  end.

(* src lib/picotls.c:3858-3892 PTLS_EXTENSION_TYPE_COOKIE *)
Definition ch_ext_cookie (properties : option ptls_handshake_properties_t) (ch : st_ptls_client_hello_t) (src : bytes)
    : result st_ptls_client_hello_t :=
  match properties ≫= cookie_key with
  | None => Err PTLS_ALERT_ILLEGAL_PARAMETER
  | Some _ =>
      let ch := set_cookie_all src ch in
      ptls_decode_block 2 (λ src,
        '(h, sent, rest) ← ('((h, sent), rest) ← ptls_decode_open_block 2 (λ src,
              '(h, src) ← ptls_decode_open_block 1 (λ b, Ok (b, [])) src;
              '(sent, src) ← ptls_decode8 src;
              if sent =? 0 then (_ ← guard_err (negb (cookie_sent_key_share ch)) ABORTED; Ok ((h, false), src))
              else if sent =? 1 then Ok ((h, true), src)
              else Err PTLS_ALERT_DECODE_ERROR) src; Ok (h, sent, rest));
        let tbs := take (length src - length rest) src in
        signature ← ptls_decode_block 1 (λ b, Ok (b, [])) rest;
        Ok (set_cookie_signature signature (set_cookie_tbs tbs
              (set_cookie_sent_key_share sent (set_cookie_ch1_hash h ch))), [])) src
  end.

(** The binders are stored in order, as far as there are identities. *)
Definition store_binder (ids : list ptls_client_hello_psk_identity_t) (i : nat) (b : bytes)
    : list ptls_client_hello_psk_identity_t :=
  match ids !! i with
  | Some p => <[i := mkPsk (identity p) (obfuscated_ticket_age p) b]> ids
  | None => ids
  end.

(** [rest_len] is the number of bytes of the message after the extension. *)
(* src lib/picotls.c:3893-3930 PTLS_EXTENSION_TYPE_PRE_SHARED_KEY *)
Definition ch_ext_psk (rest_len : Z) (ch : st_ptls_client_hello_t) (src : bytes) : result st_ptls_client_hello_t :=
  '((ids, num_identities), src) ←
    ptls_decode_open_block 2 (decode_do_while (λ '(ids, num_identities) src,
      '(id, src) ← ptls_decode_open_block 2 (λ b, if len b <? 1 then Err PTLS_ALERT_DECODE_ERROR else Ok (b, [])) src;
      '(age, src) ← ptls_decode32 src;
      Ok ((push_upto 4 ids (mkPsk id age []), num_identities + 1), src)) (psk_identities ch, 0)) src;
  let hash_left := rest_len + len src in
  '(ids, num_binders) ←
    ptls_decode_block 2 (λ src,
      '((ids, num_binders), src) ← decode_do_while (λ '(ids, num_binders) src,
        '(b, src) ← ptls_decode_open_block 1 (λ b, Ok (b, [])) src;
        Ok ((store_binder ids (Z.to_nat num_binders) b, num_binders + 1), src)) (ids, 0) src;
      if negb (num_identities =? num_binders) then Err PTLS_ALERT_ILLEGAL_PARAMETER
      else Ok ((ids, num_binders), src)) src;
  Ok (set_psk_is_last_extension true (set_psk_hash_left (Some hash_left) (set_psk_identities ids ch))).

(* src lib/picotls.c:3931-3941 PTLS_EXTENSION_TYPE_PSK_KEY_EXCHANGE_MODES *)
Definition ch_ext_psk_modes (ch : st_ptls_client_hello_t) (src : bytes) : result st_ptls_client_hello_t :=
  modes ← ptls_decode_block 1 (decode_do_while (λ modes src,
        '(mode, src) ← ptls_decode8 src;
        Ok (if mode <? 32 then Z.lor modes (Z.shiftl 1 mode) else modes, src)) (psk_ke_modes ch)) src;
  Ok (set_psk_ke_modes modes ch).

(* src lib/picotls.c:3948-3955 PTLS_EXTENSION_TYPE_TICKET_REQUEST *)
Definition ch_ext_ticket_request (ch : st_ptls_client_hello_t) (src : bytes) : result st_ptls_client_hello_t :=
  if negb (len src =? 2) then Err PTLS_ALERT_DECODE_ERROR
  else Ok (set_ticket_request (byte_at src 0, byte_at src 1) ch).

(* src lib/picotls.c:3956-3991 PTLS_EXTENSION_TYPE_ENCRYPTED_CLIENT_HELLO *)
Definition ch_ext_ech (rest_len : Z) (ch : st_ptls_client_hello_t) (src : bytes) : result st_ptls_client_hello_t :=
  let e := ch_ech ch in
  '(type, src) ← ptls_decode8 src;
  if type =? PTLS_ECH_CLIENT_HELLO_TYPE_OUTER then
    '(kdf, src) ← ptls_decode16 src;
    '(aead, src) ← ptls_decode16 src;
    '(config_id, src) ← ptls_decode8 src;
    '(enc, src) ← ptls_decode_open_block 2 (λ b, Ok (b, [])) src;
    '(payload, src) ← ptls_decode_open_block 2 (λ b, match b with [] => Err PTLS_ALERT_DECODE_ERROR | _ => Ok (b, []) end) src;
    Ok (set_ch_ech (mkChEch type config_id kdf aead enc (Some payload) (rest_len + len src + len payload)) ch)
  else if type =? PTLS_ECH_CLIENT_HELLO_TYPE_INNER then
    match src with
    | [] => Ok (set_ch_ech (mkChEch type (che_config_id e) (che_kdf e) (che_aead e) (che_enc e) (Some []) 0) ch)
    | _ => Err PTLS_ALERT_DECODE_ERROR
    end
  else Err PTLS_ALERT_ILLEGAL_PARAMETER.

(* src lib/picotls.c:3776-3998 exttype *)
Definition ch_switch (properties : option ptls_handshake_properties_t) (exttype rest_len : Z) (ch : st_ptls_client_hello_t)
    (src : bytes) : result st_ptls_client_hello_t :=
  if exttype =? PTLS_EXTENSION_TYPE_SERVER_NAME then ch_ext_server_name ch src
  else if exttype =? PTLS_EXTENSION_TYPE_ALPN then ch_ext_alpn ch src
  else if exttype =? PTLS_EXTENSION_TYPE_SERVER_CERTIFICATE_TYPE then ch_ext_certificate_type ch src
  else if exttype =? PTLS_EXTENSION_TYPE_COMPRESS_CERTIFICATE then ch_ext_compress ch src
  else if exttype =? PTLS_EXTENSION_TYPE_SUPPORTED_GROUPS then Ok (set_negotiated_groups (Some src) ch)
  else if exttype =? PTLS_EXTENSION_TYPE_SIGNATURE_ALGORITHMS then
    (sa ← decode_signature_algorithms (ch_signature_algorithms ch) src; Ok (set_ch_signature_algorithms sa ch))
  else if exttype =? PTLS_EXTENSION_TYPE_KEY_SHARE then Ok (set_key_shares (Some src) ch)
  else if exttype =? PTLS_EXTENSION_TYPE_SUPPORTED_VERSIONS then ch_ext_versions ch src
  else if exttype =? PTLS_EXTENSION_TYPE_COOKIE then ch_ext_cookie properties ch src
  else if exttype =? PTLS_EXTENSION_TYPE_PRE_SHARED_KEY then ch_ext_psk rest_len ch src
  else if exttype =? PTLS_EXTENSION_TYPE_PSK_KEY_EXCHANGE_MODES then ch_ext_psk_modes ch src
  else if exttype =? PTLS_EXTENSION_TYPE_EARLY_DATA then Ok (set_early_data_indication true ch)
  else if exttype =? PTLS_EXTENSION_TYPE_STATUS_REQUEST then Ok (set_status_request true ch)
  else if exttype =? PTLS_EXTENSION_TYPE_TICKET_REQUEST then ch_ext_ticket_request ch src
  else if exttype =? PTLS_EXTENSION_TYPE_ENCRYPTED_CLIENT_HELLO then ch_ext_ech rest_len ch src
  else if should_collect_unknown_extension properties exttype then
    (slots ← collect_unknown_extension exttype src (unknown_extensions ch); Ok (set_unknown_extensions slots ch))
  else Ok ch.

(** The body of [decode_extensions]. *)
(* src lib/picotls.c:3770-4000 exttype *)
Definition ch_extension (c : ptls_context_t) (properties : option ptls_handshake_properties_t) (exttype rest_len : Z)
    (ch : st_ptls_client_hello_t) (src : bytes) : result (st_ptls_client_hello_t * bytes) :=
  let ch := set_psk_is_last_extension false ch in
  _ ← match on_extension c with
      | None => Ok ()
      | Some cb => guard_err (cb PTLS_HANDSHAKE_TYPE_CLIENT_HELLO exttype src =? 0) 1
      end;
  ch_update (ch_switch properties exttype rest_len ch src).

(** [src] is the message without its header. *)
(* src lib/picotls.c:3706-4005 decode_client_hello *)
Definition decode_client_hello (c : ptls_context_t) (properties : option ptls_handshake_properties_t)
    (ch : st_ptls_client_hello_t) (src : bytes) : result st_ptls_client_hello_t :=
  let size := len src in
  '(version, src) ← ptls_decode16 src;
  if version <? 0x0301 then Err PTLS_ALERT_PROTOCOL_VERSION
  else if len src <? PTLS_HELLO_RANDOM_SIZE then Err PTLS_ALERT_DECODE_ERROR
  else
    let random := take (Z.to_nat PTLS_HELLO_RANDOM_SIZE) src in
    let src := drop (Z.to_nat PTLS_HELLO_RANDOM_SIZE) src in
    '(session_id, src) ← ptls_decode_open_block 1 (λ b, if 32 <? len b then Err PTLS_ALERT_DECODE_ERROR else Ok (b, [])) src;
    '(suites, src) ← ptls_decode_open_block 2 (λ b, if negb (len b mod 2 =? 0) then Err PTLS_ALERT_DECODE_ERROR else Ok (b, [])) src;
    '(methods, src) ← ptls_decode_open_block 1 (λ b, match b with [] => Err PTLS_ALERT_DECODE_ERROR | _ => Ok (b, []) end) src;
    let ch := set_compression_methods methods (set_ch_cipher_suites suites (set_ch_legacy_session_id session_id
                (set_random_bytes random (set_ch_legacy_version version ch)))) in
    match src with
    | [] => Ok ch
    | _ =>
        let ch := set_first_extension_at (size - len src + 2) ch in
        decode_extensions PTLS_HANDSHAKE_TYPE_CLIENT_HELLO (ch_extension c properties) ch src
    end.

(** ** Encoding *)

(** Within the outer ECH extension, what precedes the payload. *)
(* src lib/picotls.c:2197-2200 outer_ech_header_size *)
Definition outer_ech_header_size (enc_size : Z) : Z := 10 + enc_size.

(* src lib/picotls.c:2206-2206 encode_ch_mode *)
Inductive encode_ch_mode := ENCODE_CH_MODE_INNER | ENCODE_CH_MODE_ENCODED_INNER | ENCODE_CH_MODE_OUTER.

#[global] Instance encode_ch_mode_eq_dec : EqDecision encode_ch_mode.
Proof. solve_decision. Defined.

(** The parameters that are the same in the three messages that one flight needs.  Vectors that are tested
    for NULL are options. *)
(* src lib/picotls.c:2208-2213 is_second_flight *)
Record ch_params := mkChParams {
  cp_second_flight : bool;
  cp_properties : option ptls_handshake_properties_t;
  cp_key_share_ctx : option ptls_key_exchange_context_t;
  cp_session_id : bytes;
  cp_ech : st_ptls_ech_t;
  cp_psk_secret : option bytes;
  cp_psk_identity : bytes;
  cp_ticket_age : Z;
  cp_binder_size : Z;
  cp_cookie : option bytes;
  cp_early_data : bool;
}.

Definition is_inhabited {A} (o : option A) : bool := match o with Some _ => true | None => false end.

Section Encode.
Context `{Allocator} {S : Type} `{HasBuffer S}.

(** Room is reserved, filled and made part of the data. *)
Definition push_reserved (src : bytes) : M S unit :=
  _ ← on_buf (reserve (len src) 1);
  on_buf (modify (append_reserved src)).

(** The payload is left zero: it is encrypted over later.  The offset of the payload is returned. *)
(* src lib/picotls.c:2239-2259 PTLS_ECH_CLIENT_HELLO_TYPE_OUTER *)
Definition push_ech_outer (p : ch_params) (ech_size : Z) : M S Z :=
  buffer_push_extension PTLS_EXTENSION_TYPE_ENCRYPTED_CLIENT_HELLO
    (ext_payload_from ← gets (λ s, off (get_buf s));
     _ ← ptls_buffer_push [PTLS_ECH_CLIENT_HELLO_TYPE_OUTER];
     cipher ← lift (match ech_cipher (cp_ech p) with Some c => Ok c | None => Err ABORTED end);
     _ ← ptls_buffer_push16 (hpke_kdf cipher);
     _ ← ptls_buffer_push16 (hpke_aead_id cipher);
     _ ← ptls_buffer_push [ech_config_id (cp_ech p)];
     _ ← ptls_buffer_push_block 2 (when (negb (cp_second_flight p)) (ptls_buffer_pushv (ech_enc (cp_ech p))));
     ptls_buffer_push_block 2
       (o ← gets (λ s, off (get_buf s));
        _ ← lift (guard_err (o - ext_payload_from =?
              outer_ech_header_size (if cp_second_flight p then 0 else len (ech_enc (cp_ech p)))) ABORTED);
        _ ← push_reserved (replicate (Z.to_nat ech_size) 0);
        o ← gets (λ s, off (get_buf s));
        mret (o - ech_size))).

(** What the caller finds in [ech_size_offset]; 0 where the pointer is NULL. *)
(* src lib/picotls.c:2239-2266 ech_replay *)
Definition push_ech (mode : encode_ch_mode) (p : ch_params) (ech_size : Z) (ech_replay : option bytes) : M S Z :=
  match mode with
  | ENCODE_CH_MODE_OUTER => push_ech_outer p ech_size
  | _ =>
      _ ← (if is_inhabited (ech_aead (cp_ech p)) then
             buffer_push_extension PTLS_EXTENSION_TYPE_ENCRYPTED_CLIENT_HELLO (ptls_buffer_push [PTLS_ECH_CLIENT_HELLO_TYPE_INNER])
           else match ech_replay with
                | Some r => buffer_push_extension PTLS_EXTENSION_TYPE_ENCRYPTED_CLIENT_HELLO (ptls_buffer_pushv r)
                | None => mret ()
                end);
      mret 0
  end.

(* src lib/picotls.c:2267-2279 PTLS_EXTENSION_TYPE_ECH_OUTER_EXTENSIONS *)
Definition push_key_share (mode : encode_ch_mode) (p : ch_params) : M S unit :=
  match mode with
  | ENCODE_CH_MODE_ENCODED_INNER =>
      buffer_push_extension PTLS_EXTENSION_TYPE_ECH_OUTER_EXTENSIONS
        (ptls_buffer_push_block 1 (ptls_buffer_push16 PTLS_EXTENSION_TYPE_KEY_SHARE))
  | _ =>
      buffer_push_extension PTLS_EXTENSION_TYPE_KEY_SHARE
        (ptls_buffer_push_block 2
          (match cp_key_share_ctx p with
           | Some k => push_key_share_entry (kctx_id k) (pubkey k)
           | None => mret ()
           end))
  end.

(* src lib/picotls.c:2280-2347 sni_name *)
Definition push_offers (c : ptls_context_t) (p : ch_params) (sni_name : option bytes) : M S unit :=
  _ ← (match sni_name with
       | Some n => buffer_push_extension PTLS_EXTENSION_TYPE_SERVER_NAME (emit_server_name_extension n)
       | None => mret ()
       end);
  let protocols := match cp_properties p with Some pr => negotiated_protocols pr | None => [] end in
  _ ← when (negb (len protocols =? 0))
        (buffer_push_extension PTLS_EXTENSION_TYPE_ALPN
          (ptls_buffer_push_block 2 (push_all (λ x, ptls_buffer_push_block 1 (ptls_buffer_pushv x)) protocols)));
  _ ← (match decompress_certificate c with
       | Some d =>
           buffer_push_extension PTLS_EXTENSION_TYPE_COMPRESS_CERTIFICATE
             (ptls_buffer_push_block 1
               (_ ← lift (guard_err (negb (len (supported_algorithms d) =? 0)) ABORTED);
                push16_all (supported_algorithms d)))
       | None => mret ()
       end);
  _ ← buffer_push_extension PTLS_EXTENSION_TYPE_SUPPORTED_VERSIONS
        (ptls_buffer_push_block 1 (push16_all supported_versions));
  _ ← buffer_push_extension PTLS_EXTENSION_TYPE_SIGNATURE_ALGORITHMS (push_signature_algorithms (verify_certificate c));
  _ ← (match key_exchanges c with
       | Some l => buffer_push_extension PTLS_EXTENSION_TYPE_SUPPORTED_GROUPS
                     (ptls_buffer_push_block 2 (push16_all (kex_id <$> l)))
       | None => mret ()
       end);
  _ ← (match cp_cookie p with
       | Some k => buffer_push_extension PTLS_EXTENSION_TYPE_COOKIE (ptls_buffer_push_block 2 (ptls_buffer_pushv k))
       | None => mret ()
       end);
  _ ← when (use_raw_public_keys c)
        (buffer_push_extension PTLS_EXTENSION_TYPE_SERVER_CERTIFICATE_TYPE
          (ptls_buffer_push_block 1 (ptls_buffer_push [PTLS_CERTIFICATE_TYPE_RAW_PUBLIC_KEY])));
  _ ← when (is_inhabited (save_ticket c) && (negb (new_session_count c =? 0) || negb (resumption_count c =? 0)))
        (buffer_push_extension PTLS_EXTENSION_TYPE_TICKET_REQUEST
          (ptls_buffer_push [new_session_count c; resumption_count c]));
  push_additional_extensions (cp_properties p).

(** [random_bytes] draws: site 0 hides the identity, 1 the age, 2 fills the space of the binder. *)
Definition draws : Type := nat -> Z -> bytes.

Definition hides_psk (mode : encode_ch_mode) (p : ch_params) : bool :=
  bool_decide (mode = ENCODE_CH_MODE_OUTER) && negb (bool_decide (ech_state (cp_ech p) = PTLS_ECH_STATE_GREASE)).

(* src lib/picotls.c:2348-2392 PTLS_EXTENSION_TYPE_PRE_SHARED_KEY *)
Definition push_psk (c : ptls_context_t) (mode : encode_ch_mode) (p : ch_params) (rnd : draws) : M S unit :=
  let has_psk := is_inhabited (cp_psk_secret p) in
  _ ← when (is_inhabited (save_ticket c) || has_psk)
        (buffer_push_extension PTLS_EXTENSION_TYPE_PSK_KEY_EXCHANGE_MODES
          (ptls_buffer_push_block 1
            (_ ← when (negb (require_dhe_on_psk c)) (ptls_buffer_push [PTLS_PSK_KE_MODE_PSK]);
             ptls_buffer_push [PTLS_PSK_KE_MODE_PSK_DHE])));
  when has_psk
    (_ ← when (cp_early_data p && negb (cp_second_flight p))
           (buffer_push_extension PTLS_EXTENSION_TYPE_EARLY_DATA (mret ()));
     buffer_push_extension PTLS_EXTENSION_TYPE_PRE_SHARED_KEY
       (_ ← ptls_buffer_push_block 2
              (_ ← ptls_buffer_push_block 2
                     (if hides_psk mode p then push_reserved (rnd 0%nat (len (cp_psk_identity p)))
                      else ptls_buffer_pushv (cp_psk_identity p));
               ptls_buffer_push32 (if hides_psk mode p then be_decode (rev (rnd 1%nat 4)) else cp_ticket_age p));
        ptls_buffer_push_block 2 (ptls_buffer_push_block 1 (push_reserved (rnd 2%nat (cp_binder_size p)))))).

(** [ptls_buffer_push_message_body], with no key schedule. *)
(* src include/zpicotls.h:1349-1358 ptls_buffer_push_message_body *)
Definition push_message_unhashed {A} (type : Z) (block : M S A) : M S A :=
  _ ← ptls_buffer_push [type];
  ptls_buffer_push_block 3 block.

(* src lib/picotls.c:2208-2398 encode_client_hello *)
Definition encode_client_hello (c : ptls_context_t) (mode : encode_ch_mode) (p : ch_params) (client_random : bytes)
    (sni_name : option bytes) (ech_size : Z) (ech_replay : option bytes) (rnd : draws) : M S Z :=
  push_message_unhashed PTLS_HANDSHAKE_TYPE_CLIENT_HELLO
    (_ ← ptls_buffer_push16 0x0303;
     _ ← ptls_buffer_pushv (take (Z.to_nat PTLS_HELLO_RANDOM_SIZE) client_random);
     _ ← ptls_buffer_push_block 1
           (when (negb (bool_decide (mode = ENCODE_CH_MODE_ENCODED_INNER))) (ptls_buffer_pushv (cp_session_id p)));
     _ ← ptls_buffer_push_block 2 (push16_all (cs_id <$> cipher_suites c));
     _ ← ptls_buffer_push_block 1 (ptls_buffer_push [0]);
     ptls_buffer_push_block 2
       (ech_size_offset ← push_ech mode p ech_size ech_replay;
        _ ← push_key_share mode p;
        _ ← push_offers c p sni_name;
        _ ← push_psk c mode p rnd;
        mret ech_size_offset)).

End Encode.
