(* ===== verification/HelloFormat.v ===== *)
(** * HelloFormat: the bytes of a ClientHello

    The message that [encode_client_hello] builds, as a list of extensions, in each of the three modes; and
    what the server's decoder makes of it. *)

From S2P Require Import Prelude Constants Wire Buffer Extensions Crypto KeySchedule Tls Record Emit Negotiate ClientHello.

(** ** The rules of [Emit] for the pushes of [Negotiate] *)

Section Rules.
Context `{Allocator} {S : Type} `{HasBuffer S}.

Lemma writes_extension {A} d o t (block : M S A) a bs :
  len bs < 65536 -> writes_at d (o + 4) block a bs ->
  writes_at d o (buffer_push_extension t block) a (enc_exts [(t, bs)]).
Proof.
  intros Hl Hb. rewrite enc_exts_one. unfold buffer_push_extension.
  eapply writes_bind; [apply writes_push16|]. rewrite len_bytes16. apply writes_block2; [done|].
  by replace (o + 2 + 2) with (o + 4) by lia.
Qed.

Lemma writes_push_all {A} d (push : A -> M S unit) (enc : A -> bytes) l :
  (forall x, x ∈ l -> writes d (push x) (enc x)) -> writes d (push_all push l) (concat (enc <$> l)).
Proof.
  induction l as [|x l IH]; intros Hx; cbn [push_all fmap list_fmap concat]; [intros o; apply writes_ret|].
  apply writes_seq; [apply Hx; by left|]. apply IH. intros. apply Hx. by right.
Qed.

Lemma writes_push16_all d l : writes d (push16_all l) (concat (bytes16 <$> l)).
Proof.
  induction l as [|x l IH]; cbn [push16_all fmap list_fmap concat]; [intros o; apply writes_ret|].
  apply writes_seq; [apply writes_push16|done].
Qed.

Lemma writes_reserved_unit src : writes 1 (push_reserved src) src.
Proof.
  intros o. enough (writes_at 1 o (push_reserved src) () (src ++ [])) as Hx by (by rewrite app_nil_r in Hx).
  pose proof (writes_reserved o (len src) src (λ x, mret x) () [] eq_refl (writes_ret _ _ ())) as Hr.
  intros s Hw Ht Ho. specialize (Hr s Hw Ht Ho). revert Hr. unfold push_reserved. rewrite !M_bind_run. unfold on_buf.
  destruct (reserve (len src) 1 (get_buf s)) as [[[]|e] b]; [|done]. rewrite M_bind_run. cbn [modify]. done.
Qed.

(** Extensions one after the other. *)
Lemma writes_exts {A} d o (m : M S unit) (k : M S A) a es fs :
  writes d m (enc_exts es) -> writes_at d (o + len (enc_exts es)) k a (enc_exts fs) ->
  writes_at d o (_ ← m; k) a (enc_exts (es ++ fs)).
Proof. intros Hm Hk. rewrite enc_exts_app. eapply writes_bind; [apply Hm|apply Hk]. Qed.

Lemma writes_no_exts d : writes d (mret ()) (enc_exts []).
Proof. intros o. apply writes_ret. Qed.

Lemma emits_extension {A} (P Q : S -> Prop) o t (block : M S A) a bs :
  len bs < 65536 -> beside P -> beside Q -> emits_at P (o + 4) block a bs Q ->
  emits_at P o (buffer_push_extension t block) a (enc_exts [(t, bs)]) Q.
Proof.
  intros Hl HP HQ Hb. rewrite enc_exts_one. unfold buffer_push_extension.
  eapply emits_bind_at; [apply emits_writes; [done|apply writes_push16]|]. rewrite len_bytes16. apply emits_block2_at; [done..|].
  by replace (o + 2 + 2) with (o + 4) by lia.
Qed.

End Rules.

Lemma len_concat16 l : len (concat (bytes16 <$> l)) = 2 * len l.
Proof. induction l as [|x l IH]; [done|]. rewrite fmap_cons, concat_cons, len_app, len_cons, IH, len_bytes16. lia. Qed.
#[export] Hint Rewrite len_concat16 : zpico_len.

(** ** The message *)

Definition opt {A B} (f : A -> B) (o : option A) : list B := match o with Some a => [f a] | None => [] end.
Definition ext_if (c : bool) (e : Z * bytes) : list (Z * bytes) := if c then [e] else [].

Section Format.
Context (c : ptls_context_t) (mode : encode_ch_mode) (p : ch_params) (sni_name : option bytes).

(** The outer ECH extension, up to its payload. *)
Definition ech_outer_header (cipher : ptls_hpke_cipher_suite_t) (payload_size : Z) : bytes :=
  [PTLS_ECH_CLIENT_HELLO_TYPE_OUTER] ++ bytes16 (hpke_kdf cipher) ++ bytes16 (hpke_aead_id cipher) ++
  [ech_config_id (cp_ech p)] ++ block2 (if cp_second_flight p then [] else ech_enc (cp_ech p)) ++
  be_encode 2 payload_size.

Definition ech_exts (payload : bytes) (replay : option bytes) : list (Z * bytes) :=
  match mode with
  | ENCODE_CH_MODE_OUTER =>
      opt (λ cipher, (PTLS_EXTENSION_TYPE_ENCRYPTED_CLIENT_HELLO, ech_outer_header cipher (len payload) ++ payload))
        (ech_cipher (cp_ech p))
  | _ =>
      if is_inhabited (ech_aead (cp_ech p)) then
        [(PTLS_EXTENSION_TYPE_ENCRYPTED_CLIENT_HELLO, [PTLS_ECH_CLIENT_HELLO_TYPE_INNER])]
      else opt (λ r, (PTLS_EXTENSION_TYPE_ENCRYPTED_CLIENT_HELLO, r)) replay
  end.

Definition key_share_body : bytes :=
  block2 (match cp_key_share_ctx p with Some k => bytes16 (kctx_id k) ++ block2 (pubkey k) | None => [] end).

Definition key_share_exts : list (Z * bytes) :=
  match mode with
  | ENCODE_CH_MODE_ENCODED_INNER => [(PTLS_EXTENSION_TYPE_ECH_OUTER_EXTENSIONS, block1 (bytes16 PTLS_EXTENSION_TYPE_KEY_SHARE))]
  | _ => [(PTLS_EXTENSION_TYPE_KEY_SHARE, key_share_body)]
  end.

Definition protocols : list bytes := match cp_properties p with Some pr => negotiated_protocols pr | None => [] end.

Definition server_name_body (n : bytes) : bytes := block2 ([PTLS_SERVER_NAME_TYPE_HOSTNAME] ++ block2 (c_string n)).

(** In the order of the code. *)
Definition offer_exts : list (Z * bytes) :=
  opt (λ n, (PTLS_EXTENSION_TYPE_SERVER_NAME, server_name_body n)) sni_name ++
  ext_if (negb (len protocols =? 0)) (PTLS_EXTENSION_TYPE_ALPN, block2 (concat (block1 <$> protocols))) ++
  opt (λ d, (PTLS_EXTENSION_TYPE_COMPRESS_CERTIFICATE, block1 (concat (bytes16 <$> supported_algorithms d))))
    (decompress_certificate c) ++
  [(PTLS_EXTENSION_TYPE_SUPPORTED_VERSIONS, block1 (concat (bytes16 <$> supported_versions)))] ++
  [(PTLS_EXTENSION_TYPE_SIGNATURE_ALGORITHMS, block2 (concat (bytes16 <$> signature_algos (verify_certificate c))))] ++
  opt (λ l, (PTLS_EXTENSION_TYPE_SUPPORTED_GROUPS, block2 (concat (bytes16 <$> (kex_id <$> l))))) (key_exchanges c) ++
  opt (λ k, (PTLS_EXTENSION_TYPE_COOKIE, block2 k)) (cp_cookie p) ++
  ext_if (use_raw_public_keys c) (PTLS_EXTENSION_TYPE_SERVER_CERTIFICATE_TYPE, block1 [PTLS_CERTIFICATE_TYPE_RAW_PUBLIC_KEY]) ++
  ext_if (is_inhabited (save_ticket c) && (negb (new_session_count c =? 0) || negb (resumption_count c =? 0)))
    (PTLS_EXTENSION_TYPE_TICKET_REQUEST, [new_session_count c; resumption_count c]) ++
  match cp_properties p with Some pr => additional_extensions pr | None => [] end.

Definition psk_body (identity : bytes) (age : Z) (binder : bytes) : bytes :=
  block2 (block2 identity ++ bytes32 age) ++ block2 (block1 binder).

Definition psk_modes : bytes := (if require_dhe_on_psk c then [] else [PTLS_PSK_KE_MODE_PSK]) ++ [PTLS_PSK_KE_MODE_PSK_DHE].

Definition psk_ext (rnd : draws) : Z * bytes :=
  (PTLS_EXTENSION_TYPE_PRE_SHARED_KEY,
   if hides_psk mode p then psk_body (rnd 0%nat (len (cp_psk_identity p))) (be_decode (rev (rnd 1%nat 4))) (rnd 2%nat (cp_binder_size p))
   else psk_body (cp_psk_identity p) (cp_ticket_age p) (rnd 2%nat (cp_binder_size p))).

Definition psk_exts (rnd : draws) : list (Z * bytes) :=
  ext_if (is_inhabited (save_ticket c) || is_inhabited (cp_psk_secret p))
    (PTLS_EXTENSION_TYPE_PSK_KEY_EXCHANGE_MODES, block1 psk_modes) ++
  (if is_inhabited (cp_psk_secret p) then
     ext_if (cp_early_data p && negb (cp_second_flight p)) (PTLS_EXTENSION_TYPE_EARLY_DATA, []) ++ [psk_ext rnd]
   else []).

Definition ch_exts (payload : bytes) (replay : option bytes) (rnd : draws) : list (Z * bytes) :=
  ech_exts payload replay ++ key_share_exts ++ offer_exts ++ psk_exts rnd.

(** The fields before the extensions. *)
Definition ch_prefix (client_random : bytes) : bytes :=
  bytes16 0x0303 ++ client_random ++
  block1 (if bool_decide (mode = ENCODE_CH_MODE_ENCODED_INNER) then [] else cp_session_id p) ++
  block2 (concat (bytes16 <$> (cs_id <$> cipher_suites c))) ++ block1 [0].

Definition ch_body (client_random : bytes) (exts : list (Z * bytes)) : bytes :=
  ch_prefix client_random ++ block2 (enc_exts exts).

(** What the encoder relies on: lists that fit in their length fields, and a source of random bytes. *)
Record ch_ok (payload : bytes) (replay : option bytes) (rnd : draws) : Prop := {
  ok_session_id : len (cp_session_id p) <= 32;
  ok_suites : 2 * len (cipher_suites c) < 65536;
  ok_protocols : Forall (λ x, len x < 256) protocols;
  ok_decompress : forall d, decompress_certificate c = Some d -> 0 < len (supported_algorithms d) < 128;
  ok_binder : 0 <= cp_binder_size p < 253;
  ok_counts : is_bytes [new_session_count c; resumption_count c; ech_config_id (cp_ech p)];
  ok_cipher : mode = ENCODE_CH_MODE_OUTER -> is_Some (ech_cipher (cp_ech p));
  ok_rnd : forall i n, 0 <= n -> len (rnd i n) = n;
  ok_exts : Forall ext_ok (ch_exts payload replay rnd);
  ok_size : len (enc_exts (ch_exts payload replay rnd)) < 65536;
}.

End Format.

(** ** The encoder writes that message *)

Lemma ext_ok_cons t body es : Forall ext_ok ((t, body) :: es) -> len body < 65536 /\ Forall ext_ok es.
Proof. intros Hf. inv Hf. by destruct H1. Qed.

Lemma outer_header_len p cipher n :
  len (ech_outer_header p cipher n) = outer_ech_header_size (if cp_second_flight p then 0 else len (ech_enc (cp_ech p))).
Proof. unfold ech_outer_header, outer_ech_header_size. destruct (cp_second_flight p); len_simpl; lia. Qed.

(** One push after the other, by the shape of the bytes. *)
Ltac emit :=
  repeat match goal with
  | |- writes_at _ _ (mret _) _ _ => apply writes_ret
  | |- writes_at _ _ (ptls_buffer_pushv _) _ _ => apply writes_pushv
  | |- writes_at _ _ (ptls_buffer_push16 _) _ _ => apply writes_push16
  | |- writes_at _ _ (ptls_buffer_push32 _) _ _ => apply writes_push32
  | |- writes_at _ _ (push16_all _) _ _ => apply writes_push16_all
  | |- writes_at _ _ (push_reserved _) _ _ => apply writes_reserved_unit
  | |- writes_at _ _ (ptls_buffer_push _) _ _ => apply writes_push
  | |- writes_at _ _ (ptls_buffer_push_block 1 _) _ _ => apply writes_block1
  | |- writes_at _ _ (ptls_buffer_push_block 2 _) _ _ => apply writes_block2
  | |- writes_at _ _ (ptls_buffer_push_block 3 _) _ _ => apply writes_block3
  | |- writes_at _ _ (lift _ ≫= _) _ _ => eapply writes_lift
  | |- writes_at _ _ (gets (λ s, off (get_buf s)) ≫= _) _ _ => apply writes_off
  | |- writes_at _ _ (mbind _ _) _ (_ ++ _) => eapply writes_bind
  end.

Section Encoded.
Context `{Allocator} {S : Type} `{HasBuffer S}.
Context (c : ptls_context_t) (mode : encode_ch_mode) (p : ch_params) (sni_name : option bytes).

Lemma writes_ext_if (b : bool) t (block : M S unit) bs :
  (b = true -> len bs < 65536 /\ writes 1 block bs) ->
  writes 1 (when b (buffer_push_extension t block)) (enc_exts (ext_if b (t, bs))).
Proof.
  destruct b; intros Hb; [|apply writes_no_exts]. destruct Hb as [Hl Hb]; [done|]. intros o.
  apply writes_extension; [done|apply Hb].
Qed.

Lemma writes_ext_opt {A} (x : option A) t (block : A -> M S unit) (bs : A -> bytes) :
  (forall a, x = Some a -> len (bs a) < 65536 /\ writes 1 (block a) (bs a)) ->
  writes 1 (match x with Some a => buffer_push_extension t (block a) | None => mret () end)
    (enc_exts (opt (λ a, (t, bs a)) x)).
Proof.
  destruct x as [a|]; intros Hb; [|apply writes_no_exts]. destruct (Hb a eq_refl) as [Hl Hw]. intros o.
  apply writes_extension; [done|apply Hw].
Qed.

Lemma writes_additional pr :
  Forall ext_ok (match pr with Some pr => additional_extensions pr | None => [] end) ->
  writes (S:=S) 1 (push_additional_extensions pr)
    (enc_exts (match pr with Some pr => additional_extensions pr | None => [] end)).
Proof.
  destruct pr as [pr|]; intros Hf; [|apply writes_no_exts]. unfold push_additional_extensions, enc_exts.
  apply writes_push_all. intros [t body] Hin o. rewrite <- (app_nil_r (enc_ext _)).
  change (enc_ext (t, body) ++ []) with (enc_exts [(t, body)]). apply writes_extension; [|apply writes_pushv].
  rewrite Forall_forall in Hf. by destruct (Hf _ Hin).
Qed.

Lemma writes_outer o cipher payload :
  ech_cipher (cp_ech p) = Some cipher -> is_byte (ech_config_id (cp_ech p)) ->
  payload = replicate (length payload) 0 ->
  len (ech_outer_header p cipher (len payload) ++ payload) < 65536 ->
  writes_at (S:=S) 1 o (push_ech_outer p (len payload)) (o + 4 + len (ech_outer_header p cipher (len payload)))
    (enc_exts [(PTLS_EXTENSION_TYPE_ENCRYPTED_CLIENT_HELLO, ech_outer_header p cipher (len payload) ++ payload)]).
Proof.
  intros Hc Hid Hz Hl. apply writes_extension; [done|]. rewrite len_app, outer_header_len in Hl. unfold ech_outer_header.
  pose proof (len_nonneg payload). pose proof (len_nonneg (ech_enc (cp_ech p))). unfold outer_ech_header_size in *.
  rewrite <- !app_assoc. apply writes_off. eapply writes_bind; [apply writes_push; by repeat constructor|].
  eapply writes_lift; [by rewrite Hc|]. emit.
  - by apply Forall_singleton.
  - destruct (cp_second_flight p); len_simpl; lia.
  - destruct (cp_second_flight p); [apply writes_ret|apply writes_pushv].
  - destruct (cp_second_flight p); lia.
  - unfold guard_err. rewrite (proj2 (Z.eqb_eq _ _)); [done|]. destruct (cp_second_flight p); len_simpl; lia.
  - rewrite to_nat_len, <- Hz.
    enough (forall o v, v = o + len payload - len payload ->
      writes_at (S:=S) 1 o (_ ← push_reserved payload; o ← gets (λ s, off (get_buf s)); mret (o - len payload)) v (payload ++ [])) as Hx.
    { rewrite app_nil_r in Hx. apply Hx. len_simpl. lia. }
    intros o' v ->. eapply writes_bind; [apply writes_reserved_unit|]. apply writes_off, writes_ret.
Qed.

(** The offset the encoder returns: that of the payload, when the extension is the outer one. *)
Definition payload_at (o : Z) (payload : bytes) : Z :=
  match mode, ech_cipher (cp_ech p) with
  | ENCODE_CH_MODE_OUTER, Some cipher => o + 4 + len (ech_outer_header p cipher (len payload))
  | _, _ => 0
  end.

Lemma writes_ech o payload replay :
  (mode = ENCODE_CH_MODE_OUTER -> is_Some (ech_cipher (cp_ech p))) -> is_byte (ech_config_id (cp_ech p)) ->
  payload = replicate (length payload) 0 -> Forall ext_ok (ech_exts mode p payload replay) ->
  writes_at (S:=S) 1 o (push_ech mode p (len payload) replay) (payload_at o payload) (enc_exts (ech_exts mode p payload replay)).
Proof.
  intros Hc Hid Hz Hf. unfold push_ech, payload_at, ech_exts in *.
  assert (forall m v es, v = 0 -> writes (S:=S) 1 m (enc_exts es) -> writes_at 1 o (_ ← m; mret 0) v (enc_exts es)) as Hret.
  { intros m v es -> Hm. rewrite <- (app_nil_r es). apply writes_exts; [done|apply writes_ret]. }
  destruct mode.
  1,2: apply Hret; [by destruct (ech_cipher _)|]; destruct (is_inhabited _);
    [intros o'; apply writes_extension; [done|apply writes_push; by apply Forall_singleton]
    |apply writes_ext_opt; intros a ->; split; [by apply ext_ok_cons in Hf as []|apply writes_pushv]].
  destruct (Hc eq_refl) as [cipher E]. rewrite E in *. cbn [opt] in *. apply writes_outer; try done.
  by apply ext_ok_cons in Hf as [].
Qed.

Lemma writes_key_share : Forall ext_ok (key_share_exts mode p) -> writes (S:=S) 1 (push_key_share mode p) (enc_exts (key_share_exts mode p)).
Proof.
  intros Hf o. unfold push_key_share, key_share_exts, key_share_body in *. destruct mode.
  1,3: apply ext_ok_cons in Hf as [Hl _]; rewrite len_block2 in Hl; apply writes_extension; [by rewrite len_block2|];
    apply writes_block2; [lia|]; destruct (cp_key_share_ctx p) as [k|]; [|apply writes_ret];
    unfold push_key_share_entry; rewrite len_app, len_block2, len_bytes16 in Hl; emit; lia.
  apply writes_extension; [done|]. by emit.
Qed.

Lemma writes_server_name n :
  len (server_name_body n) < 65536 -> writes (S:=S) 1 (emit_server_name_extension n) (server_name_body n).
Proof.
  intros Hl o. unfold emit_server_name_extension, server_name_body in *. rewrite len_block2, len_app, len_block2 in Hl.
  change (len [_]) with 1 in Hl. emit; [|by apply Forall_singleton|lia]. rewrite len_app, len_block2. change (len [_]) with 1. lia.
Qed.

Lemma writes_protocols l :
  Forall (λ x, len x < 256) l -> len (concat (block1 <$> l)) < 65536 ->
  writes (S:=S) 1 (ptls_buffer_push_block 2 (push_all (λ x, ptls_buffer_push_block 1 (ptls_buffer_pushv x)) l)) (block2 (concat (block1 <$> l))).
Proof.
  intros Hf Hl o. apply writes_block2; [done|]. apply writes_push_all. intros x Hx o'. rewrite Forall_forall in Hf.
  emit. by apply Hf.
Qed.

Lemma block2_fits l : len (block2 l) < 65536 -> len l < 65536.
Proof. rewrite len_block2. lia. Qed.

Lemma writes_offers :
  Forall ext_ok (offer_exts c p sni_name) -> Forall (λ x, len x < 256) (protocols p) ->
  (forall d, decompress_certificate c = Some d -> 0 < len (supported_algorithms d) < 128) ->
  is_bytes [new_session_count c; resumption_count c] ->
  writes (S:=S) 1 (push_offers c p sni_name) (enc_exts (offer_exts c p sni_name)).
Proof.
  intros Hf Hp Hd Hb o. unfold push_offers, offer_exts in *. rewrite !Forall_app in Hf.
  destruct Hf as (F1 & F2 & F3 & _ & F5 & F6 & F7 & _ & _ & F10). fold (protocols p).
  apply writes_exts; [apply writes_ext_opt; intros n ->; apply ext_ok_cons in F1 as [Hl _]; by split; [|apply writes_server_name]|].
  cbn zeta. apply writes_exts.
  { apply writes_ext_if. intros E. rewrite E in F2. apply ext_ok_cons in F2 as [Hl _]. split; [done|].
    apply writes_protocols; [done|by apply block2_fits]. }
  apply writes_exts.
  { apply writes_ext_opt. intros d E. specialize (Hd d E). rewrite len_block1, len_concat16. split; [lia|]. intros o'.
    apply writes_block1; [rewrite len_concat16; lia|]. eapply writes_lift; [|apply writes_push16_all].
    by rewrite (proj2 (Z.eqb_neq _ _)) by lia. }
  apply writes_exts; [intros o'; apply writes_extension; [done|]; by emit|].
  apply writes_exts.
  { intros o'. apply ext_ok_cons in F5 as [Hl _]. apply writes_extension; [done|]. unfold push_signature_algorithms. emit.
    by apply block2_fits. }
  apply writes_exts.
  { apply writes_ext_opt. intros l E. rewrite E in F6. apply ext_ok_cons in F6 as [Hl _]. split; [done|]. intros o'. emit.
    by apply block2_fits. }
  apply writes_exts.
  { apply writes_ext_opt. intros k E. rewrite E in F7. apply ext_ok_cons in F7 as [Hl _]. split; [done|]. intros o'. emit.
    by apply block2_fits. }
  apply writes_exts; [apply writes_ext_if; intros _; split; [done|]; intros o'; emit; [done|by apply Forall_singleton]|].
  apply writes_exts; [apply writes_ext_if; intros _; split; [done|]; by apply writes_push|].
  by apply writes_additional.
Qed.

Lemma writes_psk_body (hide : bool) (id id' : bytes) age age' (b : bytes) :
  let body := if hide then psk_body id age b else psk_body id' age' b in
  len body < 65536 -> len b < 256 ->
  writes (S:=S) 1
    (_ ← ptls_buffer_push_block 2
          (_ ← ptls_buffer_push_block 2 (if hide then push_reserved id else ptls_buffer_pushv id');
           ptls_buffer_push32 (if hide then age else age'));
     ptls_buffer_push_block 2 (ptls_buffer_push_block 1 (push_reserved b))) body.
Proof.
  intros body Hl Hb. subst body. pose proof (len_nonneg id). pose proof (len_nonneg id'). pose proof (len_nonneg b).
  destruct hide; unfold psk_body in *; rewrite len_app, !len_block2, len_app, len_block2, len_bytes32, len_block1 in Hl;
    intros o; emit; try lia; rewrite ?len_app, ?len_block2, ?len_bytes32, ?len_block1; lia.
Qed.

Lemma writes_psk_modes :
  writes (S:=S) 1 (_ ← when (negb (require_dhe_on_psk c)) (ptls_buffer_push [PTLS_PSK_KE_MODE_PSK]);
     ptls_buffer_push [PTLS_PSK_KE_MODE_PSK_DHE]) (psk_modes c).
Proof.
  unfold psk_modes. apply writes_seq; [|apply writes_push; by apply Forall_singleton].
  destruct (require_dhe_on_psk c); [intros o; apply writes_ret|apply writes_push; by apply Forall_singleton].
Qed.

Lemma writes_psk rnd :
  Forall ext_ok (psk_exts c mode p rnd) -> len (rnd 2%nat (cp_binder_size p)) < 256 ->
  writes (S:=S) 1 (push_psk c mode p rnd) (enc_exts (psk_exts c mode p rnd)).
Proof.
  intros Hf Hb o. unfold push_psk, psk_exts in *. apply Forall_app in Hf as [F1 F2]. cbn zeta.
  apply writes_exts.
  { apply writes_ext_if. intros _. split; [by unfold psk_modes; destruct (require_dhe_on_psk c)|]. intros o'.
    apply writes_block1; [by unfold psk_modes; destruct (require_dhe_on_psk c)|]. apply writes_psk_modes. }
  destruct (is_inhabited (cp_psk_secret p)); [|apply writes_no_exts]. apply Forall_app in F2 as [_ F3]. cbn [when].
  apply writes_exts; [apply writes_ext_if; intros _; split; [done|]; intros o'; apply writes_ret|].
  apply ext_ok_cons in F3 as [Hl _]. apply writes_extension; [done|]. by apply writes_psk_body.
Qed.

(** The whole message. *)
Lemma writes_client_hello o client_random payload replay rnd :
  ch_ok c mode p sni_name payload replay rnd -> payload = replicate (length payload) 0 ->
  len client_random = PTLS_HELLO_RANDOM_SIZE ->
  let exts := ch_exts c mode p sni_name payload replay rnd in
  writes_at (S:=S) 1 o (encode_client_hello c mode p client_random sni_name (len payload) replay rnd)
    (payload_at (o + 4 + len (ch_prefix c mode p client_random) + 2) payload)
    ([PTLS_HANDSHAKE_TYPE_CLIENT_HELLO] ++ block3 (ch_body c mode p client_random exts)).
Proof.
  intros [] Hz Hr exts. fold exts in ok_size0. unfold encode_client_hello, push_message_unhashed.
  eapply writes_bind; [apply writes_push; by apply Forall_singleton|]. change (len [_]) with 1.
  set (sid := if bool_decide (mode = ENCODE_CH_MODE_ENCODED_INNER) then [] else cp_session_id p).
  assert (len sid <= 32) as Hsid by (subst sid; destruct (bool_decide _); [done|lia]). pose proof (len_nonneg sid).
  pose proof (len_nonneg (enc_exts exts)) as Hn. pose proof (len_nonneg (cipher_suites c)).
  assert (len (concat (bytes16 <$> (cs_id <$> cipher_suites c))) = 2 * len (cipher_suites c)) as Hcs.
  { rewrite len_concat16. unfold len. by rewrite length_fmap. }
  assert (len client_random = 32) as Hr' by exact Hr.
  assert (len (ch_prefix c mode p client_random) = 39 + len sid + 2 * len (cipher_suites c)) as Hpre.
  { unfold ch_prefix. fold sid. rewrite !len_app, !len_block1, len_block2, Hcs, len_bytes16, Hr'. change (len [0]) with 1. lia. }
  apply writes_block3; [unfold ch_body; rewrite len_app, len_block2, Hpre; lia|]. rewrite Hpre. unfold ch_body, ch_prefix. fold sid.
  rewrite <- !app_assoc. replace (take _ client_random) with client_random by (by rewrite <- Hr, to_nat_len, firstn_all).
  apply Forall_app in ok_exts0 as [F1 F2]. apply Forall_app in F2 as [F2 F3]. apply Forall_app in F3 as [F3 F4].
  rewrite !Forall_cons in ok_counts0. destruct ok_counts0 as (B1 & B2 & B3 & _).
  emit; try done; try lia; try (by apply Forall_singleton).
  - subst sid. destruct (bool_decide _); [apply writes_ret|apply writes_pushv].
  - match goal with |- writes_at _ ?q _ (payload_at ?q' _) _ => replace q' with q end.
    2:{ rewrite len_block2, !len_block1, len_bytes16, Hcs, Hr'. change (len [0]) with 1. lia. }
    unfold exts, ch_exts. rewrite enc_exts_app. eapply writes_bind; [by apply writes_ech|].
    apply writes_exts; [by apply writes_key_share|]. apply writes_exts; [apply writes_offers; try done; by apply Forall_cons_2, Forall_singleton|].
    rewrite <- (app_nil_r (psk_exts _ _ _ _)). apply writes_exts; [|apply writes_ret]. apply writes_psk; [done|].
    rewrite ok_rnd0; lia.
Qed.

End Encoded.
