(* ===== verification/HelloDecode.v ===== *)
(** * HelloDecode: the server reads the ClientHello the client writes *)

From S2P Require Import Prelude Constants Wire Buffer Extensions Crypto KeySchedule Tls Record Emit Negotiate Hpke ClientHello HelloFormat.

(** ** Lists *)

Lemma push_upto_foldl {A} n (l acc : list A) :
  len acc <= n -> foldl (push_upto n) acc l = acc ++ take (Z.to_nat (n - len acc)) l.
Proof.
  revert acc. induction l as [|x l IH]; intros acc Hn; cbn [foldl].
  { by rewrite take_nil, app_nil_r. }
  unfold push_upto at 2. destruct (Z.ltb_spec (len acc) n).
  - rewrite IH by (rewrite len_app, len_cons, len_nil; lia). rewrite len_app, len_cons, len_nil.
    replace (Z.to_nat (n - len acc)) with (S (Z.to_nat (n - (len acc + (1 + 0))))) by lia. cbn [take].
    by rewrite <- app_assoc.
  - rewrite IH by done. by replace (Z.to_nat (n - len acc)) with 0%nat by lia.
Qed.

Lemma push_upto_take {A} n (l : list A) : 0 <= n -> foldl (push_upto n) [] l = take (Z.to_nat n) l.
Proof. intros Hn. rewrite push_upto_foldl by done. by rewrite Z.sub_0_r. Qed.

Lemma decode_do_while_one {A} (step : A -> bytes -> result (A * bytes)) a a' src :
  step a src = Ok (a', []) -> decode_do_while step a src = Ok (a', []).
Proof. intros Hs. unfold decode_do_while. rewrite Hs. cbn [mbind result_bind]. by destruct (length src). Qed.

(** ** Running the handlers over parts of the list *)

Section Run.
Context {A : Type} (block : Z -> Z -> A -> bytes -> result (A * bytes)).

Lemma run_one a a1 a2 t body es :
  block t (len (enc_exts es)) a body = Ok (a1, []) -> run_exts block a1 es a2 -> run_exts block a ([(t, body)] ++ es) a2.
Proof. apply run_exts_cons. Qed.

Lemma run_opt {X} a a1 a2 (x : option X) t body es :
  (forall v, x = Some v -> block t (len (enc_exts es)) a (body v) = Ok (a1, [])) -> (x = None -> a = a1) ->
  run_exts block a1 es a2 -> run_exts block a (opt (λ v, (t, body v)) x ++ es) a2.
Proof. destruct x as [v|]; intros Hs Hn Hr; [by eapply run_exts_cons; [apply Hs|]|by rewrite (Hn eq_refl)]. Qed.

Lemma run_if a a1 a2 (b : bool) t body es :
  (b = true -> block t (len (enc_exts es)) a body = Ok (a1, [])) -> (b = false -> a = a1) ->
  run_exts block a1 es a2 -> run_exts block a (ext_if b (t, body) ++ es) a2.
Proof. destruct b; intros Hs Hn Hr; [by eapply run_exts_cons; [apply Hs|]|by rewrite (Hn eq_refl)]. Qed.

(** Extensions that change nothing. *)
Lemma run_skip a a2 l es :
  (forall t body n, (t, body) ∈ l -> block t n a body = Ok (a, [])) -> run_exts block a es a2 -> run_exts block a (l ++ es) a2.
Proof.
  intros Hs Hr. induction l as [|[t body] l IH]; [done|]. cbn [app]. eapply run_exts_cons; [apply Hs; by left|].
  apply IH. intros. apply Hs. by right.
Qed.

End Run.

(** ** One lemma for each extension *)

Lemma c_string_nonzero s : existsb (λ b, b =? 0) (c_string s) = false.
Proof.
  induction s as [|b s IH]; [done|]. cbn [c_string]. destruct (Z.eqb_spec b 0); [by subst|].
  destruct b; try done; cbn [existsb]; by rewrite (proj2 (Z.eqb_neq _ _)).
Qed.

Lemma dec_server_name ch n :
  c_string n <> [] -> len (server_name_body n) < 65536 ->
  ch_ext_server_name ch (server_name_body n) = Ok (set_ch_server_name (Some (c_string n)) ch).
Proof.
  intros Hn Hl. unfold server_name_body in *. rewrite len_block2, len_app, len_block2 in Hl. change (len [_]) with 1 in Hl.
  unfold ch_ext_server_name, client_hello_decode_server_name. rewrite <- (app_nil_r (block2 _)).
  rewrite open_block2_run by (rewrite len_app, len_block2; change (len [_]) with 1; lia).
  unfold decode_do_while. cbn [app]. rewrite decode8_cons. cbn [mbind result_bind].
  rewrite <- (app_nil_r (block2 (c_string n))), open_block2_run by lia.
  change (PTLS_SERVER_NAME_TYPE_HOSTNAME =? PTLS_SERVER_NAME_TYPE_HOSTNAME) with true. cbv iota.
  rewrite (proj2 (Z.eqb_neq _ _)) by (by rewrite len_zero). by rewrite c_string_nonzero.
Qed.

Lemma dec_alpn ch l :
  l <> [] -> Forall (λ x, x <> [] /\ len x < 256) l -> alpn ch = [] -> len (concat (block1 <$> l)) < 65536 ->
  ch_ext_alpn ch (block2 (concat (block1 <$> l))) = Ok (set_alpn (take 16 l) ch).
Proof.
  intros Hl Hf Ha Hs. unfold ch_ext_alpn. erewrite decode_block2; [|done|].
  2:{ apply (decode_do_while_list _ block1 (push_upto 16)); [done| |].
      - intros a x rest Hx. rewrite Forall_forall in Hf. destruct (Hf x Hx) as [Hne Hlx]. rewrite open_block1_run by done.
        by destruct x.
      - intros x _ E. apply (f_equal len) in E. rewrite len_block1 in E. pose proof (len_nonneg x). by change (len []) with 0 in E; lia. }
  by rewrite Ha, push_upto_take.
Qed.

(** A list of 16-bit values. *)
Lemma dec_list16 {A} (upd : A -> Z -> A) l a :
  l <> [] -> Forall (λ x, 0 <= x < 2 ^ 16) l ->
  decode_do_while (λ a src, '(x, src) ← ptls_decode16 src; Ok (upd a x, src)) a (concat (bytes16 <$> l)) = Ok (foldl upd a l, []).
Proof.
  intros Hl Hf. apply (decode_do_while_list _ bytes16 upd); [done| |done].
  intros a' x rest Hx. rewrite Forall_forall in Hf. by rewrite decode16_push16 by (by apply Hf).
Qed.

Lemma dec_compress ch l :
  0 < len l < 128 -> Forall (λ x, 0 <= x < 2 ^ 16) l -> cert_compression_algos ch = [] ->
  ch_ext_compress ch (block1 (concat (bytes16 <$> l))) = Ok (set_cert_compression_algos (take 16 l) ch).
Proof.
  intros Hl Hf Ha. unfold ch_ext_compress.
  erewrite decode_block1; [|rewrite len_concat16; lia|apply (dec_list16 (push_upto 16)); [|done]].
  - by rewrite Ha, push_upto_take.
  - intros ->. by change (len (@nil Z)) with 0 in Hl; lia.
Qed.

Lemma dec_signature_algorithms l :
  l <> [] -> Forall (λ x, 0 <= x < 2 ^ 16) l -> 2 * len l < 65536 ->
  decode_signature_algorithms [] (block2 (concat (bytes16 <$> l))) = Ok (take (Z.to_nat PTLS_MAX_SIGNATURE_ALGORITHMS) l).
Proof.
  intros Hl Hf Hs. unfold decode_signature_algorithms.
  erewrite decode_block2; [|rewrite len_concat16; lia|by apply (dec_list16 (push_upto _))].
  by rewrite push_upto_take.
Qed.

Lemma dec_versions ch :
  ch_ext_versions ch (block1 (concat (bytes16 <$> supported_versions))) = Ok (set_selected_version PTLS_PROTOCOL_VERSION_TLS13 ch).
Proof.
  unfold ch_ext_versions. erewrite decode_block1; [|done|].
  2: apply (dec_list16 (λ a x, find_version supported_versions 0 a x)); [done|by repeat constructor]. done.
Qed.

Lemma dec_psk_modes c ch :
  psk_ke_modes ch = 0 ->
  ch_ext_psk_modes ch (block1 (psk_modes c)) = Ok (set_psk_ke_modes (if require_dhe_on_psk c then 2 else 3) ch).
Proof.
  intros Hm. unfold ch_ext_psk_modes. rewrite Hm. unfold psk_modes. by destruct (require_dhe_on_psk c).
Qed.

Lemma dec_psk n ch id age b :
  id <> [] -> 0 <= age < 2 ^ 32 -> len b < 253 -> len id < 65000 -> psk_identities ch = [] ->
  ch_ext_psk n ch (psk_body id age b)
  = Ok (set_psk_is_last_extension true (set_psk_hash_left (Some (n + 3 + len b)) (set_psk_identities [mkPsk id age b] ch))).
Proof.
  intros Hid Hage Hb Hl Hp. unfold ch_ext_psk, psk_body.
  rewrite open_block2_run by (rewrite len_app, len_block2, len_bytes32; lia).
  erewrite decode_do_while_one.
  2:{ rewrite open_block2_run by lia.
      rewrite (proj2 (Z.ltb_ge _ _)) by (destruct id; [done|rewrite len_cons; pose proof (len_nonneg id); lia]).
      cbn [mbind result_bind ptls_decode_assert_block_close]. by rewrite <- (app_nil_r (bytes32 age)), decode32_push32 by done. }
  cbn [mbind result_bind ptls_decode_assert_block_close]. rewrite Hp. erewrite decode_block2; [|rewrite len_block1; lia|].
  2:{ erewrite decode_do_while_one; [|by rewrite <- (app_nil_r (block1 b)), open_raw1 by lia]. done. }
  cbn [mbind result_bind]. rewrite !len_block2, len_block1. by replace (n + (2 + (1 + len b))) with (n + 3 + len b) by lia.
Qed.

Definition ids_ok (p : ch_params) (cipher : ptls_hpke_cipher_suite_t) : Prop :=
  0 <= hpke_kdf cipher < 2 ^ 16 /\ 0 <= hpke_aead_id cipher < 2 ^ 16.

(** What the server learns from the ECH extension. *)
Definition seen_ech (mode : encode_ch_mode) (p : ch_params) (payload : bytes) (rest_len : Z) : client_hello_ech :=
  match mode, ech_cipher (cp_ech p) with
  | ENCODE_CH_MODE_OUTER, Some cipher =>
      mkChEch PTLS_ECH_CLIENT_HELLO_TYPE_OUTER (ech_config_id (cp_ech p)) (hpke_kdf cipher) (hpke_aead_id cipher)
        (if cp_second_flight p then [] else ech_enc (cp_ech p)) (Some payload) (rest_len + len payload)
  | ENCODE_CH_MODE_OUTER, None => no_ch_ech
  | _, _ =>
      if is_inhabited (ech_aead (cp_ech p)) then mkChEch PTLS_ECH_CLIENT_HELLO_TYPE_INNER 0 0 0 [] (Some []) 0 else no_ch_ech
  end.

Lemma dec_ech_outer p n ch cipher payload :
  ids_ok p cipher -> payload <> [] -> len (ech_outer_header p cipher (len payload) ++ payload) < 65536 ->
  ch_ext_ech n ch (ech_outer_header p cipher (len payload) ++ payload)
  = Ok (set_ch_ech (mkChEch PTLS_ECH_CLIENT_HELLO_TYPE_OUTER (ech_config_id (cp_ech p)) (hpke_kdf cipher) (hpke_aead_id cipher)
        (if cp_second_flight p then [] else ech_enc (cp_ech p)) (Some payload) (n + len payload)) ch).
Proof.
  intros [Hk Ha] Hne Hl. unfold ech_outer_header in *. rewrite !len_app, len_block2 in Hl. rewrite <- !app_assoc.
  change (be_encode 2 (len payload) ++ payload) with (block2 payload). set (e := if cp_second_flight p then [] else _) in *.
  pose proof (len_nonneg payload). pose proof (len_nonneg e). unfold ch_ext_ech. cbn [app].
  rewrite decode8_cons. cbn [mbind result_bind]. change (_ =? PTLS_ECH_CLIENT_HELLO_TYPE_OUTER) with true. cbv iota.
  rewrite !decode16_push16 by done. cbn [mbind result_bind]. rewrite decode16_push16 by done. cbn [mbind result_bind].
  rewrite decode8_cons. cbn [mbind result_bind]. len_simpl.
  rewrite open_raw2 by lia. cbn [mbind result_bind]. rewrite <- (app_nil_r (block2 payload)), open_block2_run by lia.
  destruct payload; [done|]. cbn [mbind result_bind ptls_decode_assert_block_close]. change (len []) with 0. by rewrite Z.add_0_r.
Qed.

(** ** The whole message *)

Section Roundtrip.
Context (sc : ptls_context_t) (sp : option ptls_handshake_properties_t).
Context (c : ptls_context_t) (mode : encode_ch_mode) (p : ch_params) (sni_name : option bytes).

(** The server's hook for extensions accepts. *)
Definition hook_ok : Prop :=
  forall cb t body, on_extension sc = Some cb -> cb PTLS_HANDSHAKE_TYPE_CLIENT_HELLO t body = 0.

(** The extensions the application adds are not of the types the code knows, and the server does not collect them. *)
Definition foreign (t : Z) : Prop :=
  ~ recognized t /\ t <> PTLS_EXTENSION_TYPE_TICKET_REQUEST /\ should_collect_unknown_extension sp t = false.

(** What a client has to respect for the server to understand it. *)
Record ch_sensible : Prop := {
  s_hook : hook_ok;
  s_mode : mode <> ENCODE_CH_MODE_ENCODED_INNER;
  s_name : forall n, sni_name = Some n -> c_string n <> [];
  s_protocols : Forall (λ x, x <> []) (protocols p);
  s_decompress : forall d, decompress_certificate c = Some d -> Forall (λ x, 0 <= x < 2 ^ 16) (supported_algorithms d);
  s_algos : signature_algos (verify_certificate c) <> [] /\
            Forall (λ x, 0 <= x < 2 ^ 16) (signature_algos (verify_certificate c));
  s_cookie : cp_cookie p = None;
  s_additional : forall pr t body, cp_properties p = Some pr -> (t, body) ∈ additional_extensions pr -> foreign t;
  s_identity : cp_psk_identity p <> [] /\ len (cp_psk_identity p) < 65000;
  s_age : 0 <= cp_ticket_age p < 2 ^ 32;
  s_cipher : forall cipher, ech_cipher (cp_ech p) = Some cipher -> ids_ok p cipher;
}.

(** What the server learns. *)
Definition seen (client_random payload : bytes) (rnd : draws) (rest_len : Z) : st_ptls_client_hello_t :=
  let has_psk := is_inhabited (cp_psk_secret p) in
  let '(identity, age) :=
    if hides_psk mode p then (rnd 0%nat (len (cp_psk_identity p)), be_decode (rev (rnd 1%nat 4)))
    else (cp_psk_identity p, cp_ticket_age p) in
  mkCh 0x0303 client_random (cp_session_id p) [0] PTLS_PROTOCOL_VERSION_TLS13
    (concat (bytes16 <$> (cs_id <$> cipher_suites c)))
    ((λ l, block2 (concat (bytes16 <$> (kex_id <$> l)))) <$> key_exchanges c)
    (Some (key_share_body p))
    (take (Z.to_nat PTLS_MAX_SIGNATURE_ALGORITHMS) (signature_algos (verify_certificate c)))
    (c_string <$> sni_name)
    (take 16 (protocols p))
    (match decompress_certificate c with Some d => take 16 (supported_algorithms d) | None => [] end)
    [] [] [] [] false
    (if use_raw_public_keys c then [PTLS_CERTIFICATE_TYPE_RAW_PUBLIC_KEY] else [])
    false
    (if is_inhabited (save_ticket c) && (negb (new_session_count c =? 0) || negb (resumption_count c =? 0))
     then (new_session_count c, resumption_count c) else (0, 0))
    (seen_ech mode p payload rest_len)
    (if has_psk then Some (3 + cp_binder_size p) else None)
    (if has_psk then [mkPsk identity age (rnd 2%nat (cp_binder_size p))] else [])
    (if is_inhabited (save_ticket c) || has_psk then if require_dhe_on_psk c then 2 else 3 else 0)
    (has_psk && (cp_early_data p && negb (cp_second_flight p)))
    has_psk [] (len (ch_prefix c mode p client_random) + 2).

Lemma ext_step t n ch src ch' :
  hook_ok -> ch_switch sp t n (set_psk_is_last_extension false ch) src = Ok ch' -> ch_extension sc sp t n ch src = Ok (ch', []).
Proof.
  intros Hk Hs. unfold ch_extension, ch_update. rewrite Hs. destruct (on_extension sc) as [cb|] eqn:E; [|done].
  by rewrite (Hk cb t src E).
Qed.

Lemma skip_foreign t n ch src : foreign t -> ch_switch sp t n ch src = Ok ch.
Proof.
  intros (Hr & Ht & Hc). unfold ch_switch. rewrite Hc, (proj2 (Z.eqb_neq t _) Ht).
  repeat match goal with
  | |- context [t =? ?x] => rewrite (proj2 (Z.eqb_neq t x)) by (intros ->; apply Hr, (bool_decide_unpack _); vm_compute; exact I)
  end. done.
Qed.

(** The fields that the extensions set. *)
Definition progress (client_random : bytes) (first : Z) (version : Z) (groups shares : option bytes) (algos : list Z)
    (name : option bytes) (protos : list bytes) (comps types : list Z) (tickets : Z * Z) (e : client_hello_ech)
    (modes : Z) : st_ptls_client_hello_t :=
  mkCh 0x0303 client_random (cp_session_id p) [0] version (concat (bytes16 <$> (cs_id <$> cipher_suites c))) groups shares
    algos name protos comps [] [] [] [] false types false tickets e None [] modes false false [] first.

Notation run := (run_exts (ch_extension sc sp)).
Notation algos := (take (Z.to_nat PTLS_MAX_SIGNATURE_ALGORITHMS) (signature_algos (verify_certificate c))).
Notation groups := ((λ l, block2 (concat (bytes16 <$> (kex_id <$> l)))) <$> key_exchanges c).
Notation comps := (match decompress_certificate c with Some d => take 16 (supported_algorithms d) | None => [] end).
Notation types := (if use_raw_public_keys c then [PTLS_CERTIFICATE_TYPE_RAW_PUBLIC_KEY] else []).
Notation asks := (is_inhabited (save_ticket c) && (negb (new_session_count c =? 0) || negb (resumption_count c =? 0))).
Notation tickets := (if asks then (new_session_count c, resumption_count c) else (0, 0)).

Lemma run_offers r first e shares es ch' :
  ch_sensible -> Forall ext_ok (offer_exts c p sni_name) -> Forall (λ x, len x < 256) (protocols p) ->
  (forall d, decompress_certificate c = Some d -> 0 < len (supported_algorithms d) < 128) ->
  run (progress r first PTLS_PROTOCOL_VERSION_TLS13 groups shares algos (c_string <$> sni_name) (take 16 (protocols p))
         comps types tickets e 0) es ch' ->
  run (progress r first 0 None shares [] None [] [] [] (0, 0) e 0) (offer_exts c p sni_name ++ es) ch'.
Proof.
  intros Hs Hf Hp Hd Hrun. unfold offer_exts in *. rewrite !Forall_app in Hf.
  destruct Hf as (F1 & F2 & F3 & _ & F5 & F6 & F7 & _ & _ & _). rewrite <- !app_assoc. destruct Hs.
  eapply (run_opt _ _ (progress r first 0 None shares [] (c_string <$> sni_name) [] [] [] (0, 0) e 0)).
  { intros n ->. apply ext_step; [done|]. apply ext_ok_cons in F1 as [Hl _].
    exact (dec_server_name (progress r first 0 None shares [] None [] [] [] (0, 0) e 0) n (s_name0 n eq_refl) Hl). }
  { by intros ->. }
  eapply (run_if _ _ (progress r first 0 None shares [] (c_string <$> sni_name) (take 16 (protocols p)) [] [] (0, 0) e 0)).
  { intros E. apply ext_step; [done|]. rewrite E in F2. apply ext_ok_cons in F2 as [Hl _].
    assert (protocols p <> []) as Hne by (intros En; by rewrite En in E).
    exact (dec_alpn (progress r first 0 None shares [] (c_string <$> sni_name) [] [] [] (0, 0) e 0) _ Hne
             (proj2 (Forall_and _ _) (conj s_protocols0 Hp)) eq_refl (block2_fits _ Hl)). }
  { rewrite negb_false_iff, Z.eqb_eq, len_zero. by intros ->. }
  eapply (run_opt _ _ (progress r first 0 None shares [] (c_string <$> sni_name) (take 16 (protocols p)) comps [] (0, 0) e 0)).
  { intros d E. apply ext_step; [done|]. rewrite E.
    exact (dec_compress (progress r first 0 None shares [] (c_string <$> sni_name) (take 16 (protocols p)) [] [] (0, 0) e 0) _
             (Hd d E) (s_decompress0 d E) eq_refl). }
  { by intros ->. }
  eapply run_one; [apply ext_step; [done|]; apply dec_versions|].
  eapply (run_one _ _ (progress r first PTLS_PROTOCOL_VERSION_TLS13 None shares algos (c_string <$> sni_name) (take 16 (protocols p)) comps [] (0, 0) e 0)).
  { apply ext_step; [done|]. destruct s_algos0 as [Hne Ha]. apply ext_ok_cons in F5 as [Hl _].
    apply block2_fits in Hl. rewrite len_concat16 in Hl.
    pose proof (dec_signature_algorithms _ Hne Ha Hl) as Hdec.
    change (ch_switch sp PTLS_EXTENSION_TYPE_SIGNATURE_ALGORITHMS ?n ?ch ?src) with
      (sa ← decode_signature_algorithms [] src; Ok (set_ch_signature_algorithms sa ch)). by rewrite Hdec. }
  eapply (run_opt _ _ (progress r first PTLS_PROTOCOL_VERSION_TLS13 groups shares algos (c_string <$> sni_name) (take 16 (protocols p)) comps [] (0, 0) e 0)).
  { intros l E. apply ext_step; [done|]. by rewrite E. }
  { by intros ->. }
  rewrite s_cookie0. cbn [opt app].
  eapply (run_if _ _ (progress r first PTLS_PROTOCOL_VERSION_TLS13 groups shares algos (c_string <$> sni_name) (take 16 (protocols p)) comps types (0, 0) e 0)).
  { intros ->. by apply ext_step. }
  { by intros ->. }
  eapply (run_if _ _ (progress r first PTLS_PROTOCOL_VERSION_TLS13 groups shares algos (c_string <$> sni_name) (take 16 (protocols p)) comps types tickets e 0)).
  { intros ->. by apply ext_step. }
  { by intros ->. }
  apply run_skip; [|done]. intros t body n Hin. destruct (cp_properties p) as [pr|] eqn:E; [|by apply elem_of_nil in Hin].
  apply ext_step; [done|]. by apply skip_foreign, (s_additional0 pr t body).
Qed.

(** The lists that the client sends are without repetition. *)
Lemma sublist_opt {A} (f : A -> Z * bytes) (x : option A) t :
  (forall a, fst (f a) = t) -> (fst <$> opt f x) `sublist_of` [t].
Proof. intros Hf. destruct x as [a|]; cbn; [by rewrite Hf|constructor; constructor]. Qed.

Lemma sublist_if b t body : (fst <$> ext_if b (t, body)) `sublist_of` [t].
Proof. destruct b; cbn; [done|constructor; constructor]. Qed.

Lemma NoDup_filter_sublist (P : Z -> Prop) `{!forall x, Decision (P x)} l k : l `sublist_of` k -> NoDup (filter P k) -> NoDup (filter P l).
Proof.
  intros Hs Hn. eapply sublist_NoDup; [done|]. clear Hn. induction Hs as [|x l k Hs IH|x l k Hs IH]; [done| |];
    rewrite !filter_cons; destruct (decide (P x)); try done; by constructor.
Qed.

Definition additional : list (Z * bytes) := match cp_properties p with Some pr => additional_extensions pr | None => [] end.

(** All the types, in order. *)
Definition first_types : list Z :=
  [PTLS_EXTENSION_TYPE_ENCRYPTED_CLIENT_HELLO; PTLS_EXTENSION_TYPE_KEY_SHARE; PTLS_EXTENSION_TYPE_SERVER_NAME;
   PTLS_EXTENSION_TYPE_ALPN; PTLS_EXTENSION_TYPE_COMPRESS_CERTIFICATE; PTLS_EXTENSION_TYPE_SUPPORTED_VERSIONS;
   PTLS_EXTENSION_TYPE_SIGNATURE_ALGORITHMS; PTLS_EXTENSION_TYPE_SUPPORTED_GROUPS; PTLS_EXTENSION_TYPE_COOKIE;
   PTLS_EXTENSION_TYPE_SERVER_CERTIFICATE_TYPE; PTLS_EXTENSION_TYPE_TICKET_REQUEST].
Definition last_types : list Z :=
  [PTLS_EXTENSION_TYPE_PSK_KEY_EXCHANGE_MODES; PTLS_EXTENSION_TYPE_EARLY_DATA; PTLS_EXTENSION_TYPE_PRE_SHARED_KEY].

Lemma ch_types payload replay rnd :
  mode <> ENCODE_CH_MODE_ENCODED_INNER ->
  (fst <$> ch_exts c mode p sni_name payload replay rnd) `sublist_of` first_types ++ (fst <$> additional) ++ last_types.
Proof.
  intros Hm. unfold ch_exts, offer_exts, psk_exts, first_types, last_types. fold additional.
  rewrite !fmap_app, <- !app_assoc.
  change [PTLS_EXTENSION_TYPE_PSK_KEY_EXCHANGE_MODES; ?x; ?y] with ([PTLS_EXTENSION_TYPE_PSK_KEY_EXCHANGE_MODES] ++ [x; y]).
  match goal with |- context [?a :: ?b :: ?c :: ?d :: ?e :: ?f :: ?g :: ?h :: ?i :: ?j :: [?k]] =>
    change (a :: b :: c :: d :: e :: f :: g :: h :: i :: j :: [k]) with
      ([a] ++ [b] ++ [c] ++ [d] ++ [e] ++ [f] ++ [g] ++ [h] ++ [i] ++ [j] ++ [k]) end.
  rewrite <- !app_assoc.
  repeat apply sublist_app; try apply sublist_if; try (by apply sublist_opt); try done.
  - unfold ech_exts. destruct mode; [|done|by apply sublist_opt]. destruct (is_inhabited _); [done|by apply sublist_opt].
  - unfold key_share_exts. by destruct mode.
  - destruct (is_inhabited _); [|by repeat constructor]. rewrite fmap_app.
    change [PTLS_EXTENSION_TYPE_EARLY_DATA; ?x] with ([PTLS_EXTENSION_TYPE_EARLY_DATA] ++ [x]). apply sublist_app; [apply sublist_if|done].
Qed.

Lemma ch_acceptable payload replay rnd :
  ch_sensible -> acceptable PTLS_HANDSHAKE_TYPE_CLIENT_HELLO (fst <$> ch_exts c mode p sni_name payload replay rnd).
Proof.
  intros []. pose proof (ch_types payload replay rnd s_mode0) as Hs.
  assert (Forall (λ t, ~ recognized t) (fst <$> additional)) as Hadd.
  { apply Forall_forall. intros t Ht. apply list_elem_of_fmap in Ht as ([t' body] & -> & Hin). unfold additional in Hin.
    destruct (cp_properties p) as [pr|] eqn:E; [|by apply elem_of_nil in Hin]. by destruct (s_additional0 pr t' body eq_refl Hin). }
  split.
  - assert (Forall (λ t, allowed_in PTLS_HANDSHAKE_TYPE_CLIENT_HELLO t = true) (first_types ++ (fst <$> additional) ++ last_types)) as Hall.
    { rewrite !Forall_app. split; [by apply (bool_decide_unpack _); vm_compute|].
      split; [|by apply (bool_decide_unpack _); vm_compute]. eapply Forall_impl; [exact Hadd|]. intros t Ht. unfold allowed_in.
      pose proof (find_ext_cases t) as Hc. destruct (find_ext ext_table 1 t) as [[al mask]|]; [|done]. by destruct Hc. }
    rewrite Forall_forall in *. intros t Ht. apply Hall. by eapply elem_of_sublist.
  - eapply NoDup_filter_sublist; [exact Hs|]. rewrite !filter_app.
    replace (filter recognized (fst <$> additional)) with (@nil Z).
    + cbn [app]. apply (bool_decide_unpack _). vm_compute. exact I.
    + symmetry. clear -Hadd. induction Hadd as [|t l Ht Hl IH]; [done|]. by rewrite filter_cons_False.
Qed.

Lemma run_psk r first ver gr sh al nm pr co ty ti e payload rnd rest :
  ch_sensible -> Forall ext_ok (psk_exts c mode p rnd) -> 0 <= cp_binder_size p < 253 ->
  (forall i n, 0 <= n -> len (rnd i n) = n /\ is_bytes (rnd i n)) ->
  e = seen_ech mode p payload rest ->
  run (progress r first ver gr sh al nm pr co ty ti e 0) (psk_exts c mode p rnd)
    (mkCh 0x0303 r (cp_session_id p) [0] ver (concat (bytes16 <$> (cs_id <$> cipher_suites c))) gr sh al nm pr co [] [] [] []
       false ty false ti e
       (psk_hash_left (seen r payload rnd rest)) (psk_identities (seen r payload rnd rest))
       (psk_ke_modes (seen r payload rnd rest)) (early_data_indication (seen r payload rnd rest))
       (is_inhabited (cp_psk_secret p)) [] first).
Proof.
  intros [] Hf Hb Hr ->. unfold psk_exts in *. set (modes := psk_ke_modes (seen r payload rnd rest)).
  eapply (run_if _ _ (progress r first ver gr sh al nm pr co ty ti (seen_ech mode p payload rest) modes)).
  { intros E. apply ext_step; [done|]. unfold modes, seen. destruct (if hides_psk mode p then _ else _) as [id age].
    cbn [psk_ke_modes]. rewrite E.
    exact (dec_psk_modes c (progress r first ver gr sh al nm pr co ty ti (seen_ech mode p payload rest) 0) eq_refl). }
  { intros E. unfold modes, seen. destruct (if hides_psk mode p then _ else _) as [id age]. cbn [psk_ke_modes]. by rewrite E. }
  clearbody modes. apply Forall_app in Hf as [_ Hf]. unfold seen. 
  destruct (is_inhabited (cp_psk_secret p)).
  2:{ destruct (if hides_psk mode p then _ else _) as [id age]. apply run_exts_nil. }
  set (early := cp_early_data p && negb (cp_second_flight p)).
  set (ch1 := set_early_data_indication early (progress r first ver gr sh al nm pr co ty ti (seen_ech mode p payload rest) modes)).
  apply (run_if _ _ ch1).
  { unfold ch1. intros ->. by apply ext_step. }
  { unfold ch1. by intros ->. }
  eapply run_exts_cons; [|apply run_exts_nil]. apply ext_step; [done|]. destruct s_identity0 as [Hid Hlid].
  pose proof (len_nonneg (cp_psk_identity p)) as Hnn. destruct (Hr 2%nat (cp_binder_size p)) as [Hlb _]; [lia|].
  assert (forall id age, id <> [] -> 0 <= age < 2 ^ 32 -> len id < 65000 ->
    ch_ext_psk 0 (set_psk_is_last_extension false ch1) (psk_body id age (rnd 2%nat (cp_binder_size p)))
    = Ok (mkCh 0x0303 r (cp_session_id p) [0] ver (concat (bytes16 <$> (cs_id <$> cipher_suites c))) gr sh al nm pr co [] [] [] []
       false ty false ti (seen_ech mode p payload rest) (Some (3 + cp_binder_size p)) [mkPsk id age (rnd 2%nat (cp_binder_size p))]
       modes early true [] first)) as Hdec.
  { intros id age Hn Ha Hl. assert (len (rnd 2%nat (cp_binder_size p)) < 253) as Hlt by lia.
    pose proof (dec_psk 0 (set_psk_is_last_extension false ch1) id age _ Hn Ha Hlt Hl eq_refl) as E. rewrite Hlb in E. exact E. }
  change (ch_switch sp (psk_ext mode p rnd).1 (len (enc_exts [])) ?ch ?src) with (ch_ext_psk 0 ch src).
  unfold psk_ext. cbn [fst snd]. destruct (hides_psk mode p); cbn [psk_hash_left psk_identities early_data_indication].
  - destruct (Hr 0%nat (len (cp_psk_identity p)) Hnn) as [Hl0 _]. destruct (Hr 1%nat 4 ltac:(lia)) as [Hl1 Hb1]. apply Hdec.
    + intros E. rewrite E in Hl0. change (len []) with 0 in Hl0. by destruct (cp_psk_identity p).
    + pose proof (be_decode_bound (rev (rnd 1%nat 4))) as Hbd. unfold len in Hbd, Hl1. rewrite length_rev in Hbd.
      rewrite Hl1 in Hbd. apply Hbd. by apply Forall_rev.
    + lia.
  - by apply Hdec.
Qed.

(** The extensions after the one of ECH. *)
Definition rest_exts (rnd : draws) : list (Z * bytes) := key_share_exts mode p ++ offer_exts c p sni_name ++ psk_exts c mode p rnd.

Lemma run_ech r first payload rnd ch' :
  ch_sensible -> (mode = ENCODE_CH_MODE_OUTER -> payload <> [] /\ is_Some (ech_cipher (cp_ech p))) ->
  Forall ext_ok (ech_exts mode p payload None) ->
  run (progress r first 0 None None [] None [] [] [] (0, 0) (seen_ech mode p payload (len (enc_exts (rest_exts rnd)))) 0) (rest_exts rnd) ch' ->
  run (progress r first 0 None None [] None [] [] [] (0, 0) no_ch_ech 0) (ech_exts mode p payload None ++ rest_exts rnd) ch'.
Proof.
  intros [] Ho Hf Hrun. unfold ech_exts, seen_ech in *. destruct mode.
  - destruct (is_inhabited _); [|done]. eapply run_one; [by apply ext_step|done].
  - done.
  - destruct (Ho eq_refl) as [Hne [cipher E]]. rewrite E in *. cbn [opt] in *. eapply run_one; [|done].
    apply ext_step; [done|]. apply ext_ok_cons in Hf as [Hl _].
    exact (dec_ech_outer p _ _ cipher payload (s_cipher0 cipher eq_refl) Hne Hl).
Qed.

Lemma decode_written r payload rnd :
  ch_sensible -> ch_ok c mode p sni_name payload None rnd -> (forall i n, is_bytes (rnd i n)) ->
  len r = PTLS_HELLO_RANDOM_SIZE -> (mode = ENCODE_CH_MODE_OUTER -> payload <> []) ->
  decode_client_hello sc sp empty_client_hello (ch_body c mode p r (ch_exts c mode p sni_name payload None rnd))
  = Ok (seen r payload rnd (len (enc_exts (rest_exts rnd)))).
Proof.
  intros Hs Hok Hrb Hr Hpay. pose proof Hs as []. destruct Hok. unfold ch_body.
  set (es := ch_exts c mode p sni_name payload None rnd) in *. unfold decode_client_hello. cbn zeta.
  assert (len (ch_prefix c mode p r ++ block2 (enc_exts es)) - len (block2 (enc_exts es)) + 2 = len (ch_prefix c mode p r) + 2) as Hfirst.
  { rewrite len_app. lia. }
  set (total := len (ch_prefix c mode p r ++ block2 (enc_exts es))) in *. unfold ch_prefix. rewrite <- !app_assoc.
  rewrite decode16_push16 by lia. cbn [mbind result_bind]. change (0x0303 <? 0x0301) with false. cbv iota.
  rewrite (proj2 (Z.ltb_ge _ _)) by (rewrite len_app, Hr; match goal with |- _ <= _ + len ?l => pose proof (len_nonneg l) end; lia).
  rewrite <- Hr, take_len_app, drop_len_app. rewrite bool_decide_eq_false_2 by done.
  rewrite open_block1_run by lia. rewrite (proj2 (Z.ltb_ge _ _)) by lia. cbn [mbind result_bind ptls_decode_assert_block_close].
  assert (len (concat (bytes16 <$> (cs_id <$> cipher_suites c))) = len (cipher_suites c) * 2) as Hcs.
  { rewrite len_concat16. unfold len. rewrite length_fmap. lia. }
  rewrite open_block2_run by lia. rewrite Hcs, Z_mod_mult. cbn [Z.eqb negb mbind result_bind ptls_decode_assert_block_close].
  rewrite open_block1_run by done. cbn [mbind result_bind ptls_decode_assert_block_close].
  match goal with |- match ?src with _ => _ end = _ => destruct src as [|x l] eqn:E; [by apply (f_equal len) in E; rewrite len_block2 in E; pose proof (len_nonneg (enc_exts es)); change (len []) with 0 in E; lia|] end.
  rewrite Hfirst, <- E. clear Hfirst total E x l.
  apply Forall_app in ok_exts as Hx. destruct Hx as [F1 F2]. apply Forall_app in F2 as [F2 F3]. apply Forall_app in F3 as [F3 F4].
  unfold block2. refine (decode_extensions_complete _ _ _ _ es ok_size ok_exts (ch_acceptable payload None rnd Hs) _).
  unfold es, ch_exts. fold (rest_exts rnd).
  change (set_first_extension_at ?f _) with (progress r f 0 None None [] None [] [] [] (0, 0) no_ch_ech 0).
  apply run_ech; [done|by intros Hm; split; [apply Hpay|apply ok_cipher]|done|].
  generalize (len (enc_exts (rest_exts rnd))) as rest. intros rest. set (e := seen_ech mode p payload rest). unfold rest_exts.
  assert (key_share_exts mode p = [(PTLS_EXTENSION_TYPE_KEY_SHARE, key_share_body p)]) as Hks by (unfold key_share_exts; by destruct mode).
  rewrite Hks. eapply run_one; [by apply ext_step|].
  eapply (run_offers r (len (ch_prefix c mode p r) + 2) e (Some (key_share_body p))); try done.
  pose proof (run_psk r (len (ch_prefix c mode p r) + 2) PTLS_PROTOCOL_VERSION_TLS13 groups (Some (key_share_body p)) algos
    (c_string <$> sni_name) (take 16 (protocols p)) comps types tickets e payload rnd rest Hs F4 ok_binder
    (λ i n Hn, conj (ok_rnd i n Hn) (Hrb i n)) eq_refl) as Hpsk.
  unfold seen in *. destruct (if hides_psk mode p then _ else _) as [id age]. exact Hpsk.
Qed.

End Roundtrip.

(** ** The payload of the outer message *)

Definition ch_message (c : ptls_context_t) (mode : encode_ch_mode) (p : ch_params) (r : bytes) (exts : list (Z * bytes)) : bytes :=
  [PTLS_HANDSHAKE_TYPE_CLIENT_HELLO] ++ block3 (ch_body c mode p r exts).

(** The payload is at the offset the encoder returns, and nothing before or after depends on it. *)
Lemma outer_message_split c p sni_name r rnd n cipher :
  ech_cipher (cp_ech p) = Some cipher ->
  exists before after, 4 <= len before /\ after = enc_exts (rest_exts c ENCODE_CH_MODE_OUTER p sni_name rnd) /\ forall payload, len payload = n ->
    ch_message c ENCODE_CH_MODE_OUTER p r (ch_exts c ENCODE_CH_MODE_OUTER p sni_name payload None rnd) = before ++ payload ++ after /\
    forall o, payload_at ENCODE_CH_MODE_OUTER p (o + 4 + len (ch_prefix c ENCODE_CH_MODE_OUTER p r) + 2) payload = o + len before.
Proof.
  intros Hc. set (rest := enc_exts (rest_exts c ENCODE_CH_MODE_OUTER p sni_name rnd)). set (hdr := ech_outer_header p cipher n).
  set (size := 4 + (len hdr + n) + len rest). set (pre := ch_prefix c ENCODE_CH_MODE_OUTER p r).
  exists ([PTLS_HANDSHAKE_TYPE_CLIENT_HELLO] ++ be_encode 3 (len pre + (2 + size)) ++ pre ++ be_encode 2 size ++
          bytes16 PTLS_EXTENSION_TYPE_ENCRYPTED_CLIENT_HELLO ++ be_encode 2 (len hdr + n) ++ hdr), rest.
  split; [rewrite !len_app, !len_be_encode; change (len [_]) with 1; pose proof (len_nonneg pre); pose proof (len_nonneg hdr);
          rewrite len_bytes16; lia|]. split; [done|]. intros payload Hn. split.
  - assert (enc_exts (ch_exts c ENCODE_CH_MODE_OUTER p sni_name payload None rnd)
      = bytes16 PTLS_EXTENSION_TYPE_ENCRYPTED_CLIENT_HELLO ++ be_encode 2 (len hdr + n) ++ hdr ++ payload ++ rest) as Ee.
    { unfold ch_exts, ech_exts. rewrite Hc. fold (rest_exts c ENCODE_CH_MODE_OUTER p sni_name rnd). cbn [opt].
      rewrite enc_exts_app, enc_exts_one. unfold block2. rewrite Hn, len_app, Hn. fold hdr rest. by rewrite <- !app_assoc. }
    unfold ch_message, ch_body, block3, block2. rewrite Ee. fold pre. rewrite !len_app, !len_be_encode, len_bytes16, Hn.
    replace (2 + (Z.of_nat 2 + (len hdr + (n + len rest)))) with size by (unfold size; lia).
    change (Z.of_nat 2 + size) with (2 + size). by rewrite <- !app_assoc.
  - intros o. unfold payload_at. rewrite Hc, Hn. fold hdr pre. rewrite !len_app, !len_be_encode, len_bytes16.
    change (len [_]) with 1. lia.
Qed.


(** ** Instances for the witness *)

Definition toy_client_context : ptls_context_t :=
  mkCtx 0 (Some [toy_kex]) [toy_suite; toy_suite2] [] [] None None None (Some [toy_hpke]) [toy_kem] None [] None None 86400 8192 65536
    None false false false false false false false false None (Some (λ _, 0)) None None None None [] 1 1 0.

Definition toy_ech : st_ptls_ech_t :=
  mkEch PTLS_ECH_STATE_OFFERED 7 (Some toy_kem) (Some toy_hpke) (Some toy_ctx) (replicate 32 3) [1; 2; 3] 64 (Some (str "public")) None.

Definition toy_params : ch_params :=
  mkChParams false None (Some toy_kex_ctx) [] toy_ech (Some [1; 2]) [9; 9; 9] 1000 8 None true.

Definition toy_draws : draws := λ i n, replicate (Z.to_nat n) (u8 (Z.of_nat i)).

Lemma toy_draws_len i n : 0 <= n -> len (toy_draws i n) = n.
Proof. intros Hn. unfold toy_draws. rewrite len_replicate. lia. Qed.

Lemma toy_draws_bytes i n : is_bytes (toy_draws i n).
Proof. apply Forall_replicate, u8_range. Qed.

(** The conditions, on closed data. *)
Ltac compute_ch_ok :=
  split;
  [vm_compute; discriminate|vm_compute; reflexivity|apply (bool_decide_unpack (Forall _ _)); vm_compute; exact I|discriminate
  |apply (bool_decide_unpack (_ /\ _)); vm_compute; exact I|apply (bool_decide_unpack (Forall _ _)); vm_compute; exact I
  |intros _; by eexists|intros i n; apply toy_draws_len
  |apply (bool_decide_unpack (Forall _ _)); vm_compute; exact I|vm_compute; reflexivity].

Lemma toy_ch_ok payload :
  payload = [5; 5; 5] \/ payload = [0; 0; 0] ->
  ch_ok toy_client_context ENCODE_CH_MODE_OUTER toy_params (Some (str "example.com")) payload None toy_draws.
Proof. intros [-> | ->]; compute_ch_ok. Qed.

Lemma toy_ch_sensible name :
  c_string name <> [] -> ch_sensible toy_context None toy_client_context ENCODE_CH_MODE_OUTER toy_params (Some name).
Proof.
  intros Hm. split.
  - intros cb t body. discriminate.
  - discriminate.
  - by intros n [= <-].
  - constructor.
  - discriminate.
  - split; [discriminate|]. apply (bool_decide_unpack (Forall _ _)). vm_compute. exact I.
  - reflexivity.
  - intros pr t body. discriminate.
  - by split.
  - change (0 <= 1000 < 2 ^ 32). lia.
  - by intros cipher [= <-].
Qed.

Definition toy_seen : st_ptls_client_hello_t :=
  seen toy_client_context ENCODE_CH_MODE_OUTER toy_params (Some (str "example.com")) (replicate 32 7) [5; 5; 5] toy_draws
    (len (enc_exts (rest_exts toy_client_context ENCODE_CH_MODE_OUTER toy_params (Some (str "example.com")) toy_draws))).

