(* ===== verification/Receive.v ===== *)
(** * Receive: from the bytes that arrive to records, messages and data ([lib/picotls.c])

    The functions return the code the C function returns (zero for success), next to the state they
    reach.  A record's fragment is the bytes it points to. *)

From S2P Require Import Prelude Constants Wire Buffer Crypto KeySchedule Tls Record.

(** ** Records *)

(* src lib/picotls.c:350-355 st_ptls_record_t *)
Record st_ptls_record_t := mkRecord { rec_type : Z; rec_version : Z; rec_length : Z; fragment : bytes }.

(* src lib/picotls.c:5137-5148 parse_record_header *)
Definition parse_record_header (src : bytes) : result st_ptls_record_t :=
  let type := byte_at src 0 in
  let length := ntoh16 (drop 3 src) in
  if (if type =? PTLS_CONTENT_TYPE_APPDATA then PTLS_MAX_ENCRYPTED_RECORD_SIZE
      else PTLS_MAX_PLAINTEXT_RECORD_SIZE) <? length
  then Err PTLS_ALERT_DECODE_ERROR
  else Ok (mkRecord type (ntoh16 (drop 1 src)) length []).

Definition known_type (type : Z) : bool :=
  (type =? PTLS_CONTENT_TYPE_CHANGE_CIPHER_SPEC) || (type =? PTLS_CONTENT_TYPE_ALERT) ||
  (type =? PTLS_CONTENT_TYPE_HANDSHAKE) || (type =? PTLS_CONTENT_TYPE_APPDATA).

(** The address of the string literal the buffer is initialised with. *)
Definition EMPTY_STRING : Z := 1.

Section Parse.
Context `{Allocator}.

(** The result, the number of bytes consumed ([*len] on return), and [recvbuf.rec]. *)
Definition parse_out : Type := result st_ptls_record_t * Z * ptls_buffer_t.

(** The fragment part of the slow path; [src] is what is left of the input of [inlen] bytes. *)
(* src lib/picotls.c:5201-5224 addlen *)
Definition fill_fragment (r : st_ptls_record_t) (src : bytes) (inlen : Z) (rb : ptls_buffer_t) : parse_out :=
  let addlen := rec_length r + 5 - off rb in
  let '(ret, rb) := if negb (addlen =? 0) then reserve addlen 0 rb else (Ok (), rb) in
  match ret with
  | Err e => (Err e, inlen, rb)
  | Ok _ =>
      let addlen := Z.min addlen (len src) in
      let rb := if negb (addlen =? 0) then append_reserved (take (Z.to_nat addlen) src) rb else rb in
      let consumed := inlen - (len src - addlen) in
      if off rb =? rec_length r + 5
      then (Ok (mkRecord (rec_type r) (rec_version r) (rec_length r) (drop 5 (contents rb))), consumed, rb)
      else (Err PTLS_ERROR_IN_PROGRESS, consumed, rb)
  end.

(* src lib/picotls.c:5182-5224 recvbuf *)
Definition parse_record_slow (src : bytes) (rb : ptls_buffer_t) : parse_out :=
  let inlen := len src in
  let '(ret, rb) :=
    if base rb =? 0 then reserve 5 0 (ptls_buffer_init_rx EMPTY_STRING []) else (Ok (), rb) in
  match ret with
  | Err e => (Err e, inlen, rb)
  | Ok _ =>
      let n := Z.max 0 (5 - off rb) in
      if len src <? n then (Err PTLS_ERROR_IN_PROGRESS, inlen, append_reserved src rb)
      else
        let rb := append_reserved (take (Z.to_nat n) src) rb in
        match parse_record_header (mem rb) with
        | Err e => (Err e, inlen, rb)
        | Ok r => fill_fragment r (drop (Z.to_nat n) src) inlen rb
        end
  end.

(* src lib/picotls.c:5150-5225 parse_record *)
Definition parse_record (src : bytes) (rb : ptls_buffer_t) : parse_out :=
  let inlen := len src in
  if (base rb =? 0) && negb (known_type (byte_at src 0)) then (Err PTLS_ALERT_DECODE_ERROR, inlen, rb)
  else if (base rb =? 0) && (5 <=? inlen) then
    match parse_record_header src with
    | Err e => (Err e, inlen, rb)
    | Ok r =>
        if 5 + rec_length r <=? inlen then
          (Ok (mkRecord (rec_type r) (rec_version r) (rec_length r)
                 (take (Z.to_nat (rec_length r)) (drop 5 src))), rec_length r + 5, rb)
        else parse_record_slow src rb
    end
  else parse_record_slow src rb.

End Parse.

(** ** Handshake messages *)

(** What a call works on: the connection, the buffer the emitter writes to, the five offsets the emitter
    that writes no records keeps (where the messages of each epoch start in the buffer), and the
    properties of the handshake, [None] when the pointer is NULL. *)
Record conn := mkConn {
  cn_tls : ptls_t; cn_send : ptls_buffer_t; cn_epoch_offsets : list Z; cn_properties : option ptls_handshake_properties_t }.

Definition on_tls (f : ptls_t -> ptls_t) (c : conn) : conn :=
  mkConn (f (cn_tls c)) (cn_send c) (cn_epoch_offsets c) (cn_properties c).

(** What handles one message: [message], [is_end_of_record]. *)
Definition handler : Type := bytes -> bool -> conn -> Z * conn.

(* src lib/picotls.c:5888-5897 handle_alert *)
Definition handle_alert (src : bytes) : Z :=
  if negb (len src =? 2) then PTLS_ALERT_DECODE_ERROR
  else PTLS_ALERT_TO_PEER_ERROR (byte_at src 1).

(* src lib/picotls.c:5899-5906 message_buffer_is_overflow *)
Definition message_buffer_is_overflow (c : ptls_context_t) (size : Z) : bool :=
  if max_buffer_size c =? 0 then false else negb (size <=? max_buffer_size c).

(** The codes after which the next message is handled. *)
Definition goes_on (ret : Z) : bool :=
  (ret =? 0) || (ret =? PTLS_ERROR_ASYNC_OPERATION) || (ret =? PTLS_ERROR_IN_PROGRESS).

(** The loop over complete messages: the last code, what is left of [src], and the connection. *)
(* src lib/picotls.c:5938-5953 mess_len *)
Fixpoint message_loop (fuel : nat) (cb : handler) (src : bytes) (ret : Z) (c : conn) : Z * bytes * conn :=
  if len src <? 4 then (ret, src, c)
  else
    let mess_len := 4 + ntoh24 (drop 1 src) in
    if len src <? mess_len then (ret, src, c)
    else
      match fuel with
      | O => (OUT_OF_FUEL, src, c)
      | S fuel =>
          let '(ret, c) := cb (take (Z.to_nat mess_len) src) (len src =? mess_len) c in
          if goes_on ret then message_loop fuel cb (drop (Z.to_nat mess_len) src) ret c
          else (ret, src, c)
      end.

Section Input.
Context `{Allocator}.

(** Keeping the last, partial message. *)
(* src lib/picotls.c:5956-5972 new_size *)
Definition keep_partial (src : bytes) (ret : Z) (c : conn) : Z * conn :=
  let tls := cn_tls c in
  if negb (len src =? 0) then
    let new_size := len src in
    if message_buffer_is_overflow (ctx tls) new_size then (PTLS_ALERT_HANDSHAKE_FAILURE, c)
    else if base (recv_mess tls) =? 0 then
      match reserve new_size 0 (ptls_buffer_init_rx EMPTY_STRING []) with
      | (Err e, b) => (e, on_tls (set_recv_mess b) c)
      | (Ok _, b) =>
          (PTLS_ERROR_IN_PROGRESS,
           on_tls (set_recv_mess (set_off new_size (set_mem (mem_write (mem b) 0 src) b))) c)
      end
    else
      let b := recv_mess tls in
      (PTLS_ERROR_IN_PROGRESS,
       on_tls (set_recv_mess (set_off new_size (set_mem (mem_write (mem b) 0 src) b))) c)
  else (ret, on_tls (λ t, set_recv_mess (ptls_buffer_dispose (recv_mess t)) t) c).

(** The messages of the flattened bytes. *)
(* src lib/picotls.c:5936-5974 mess_len *)
Definition handle_messages (cb : handler) (src : bytes) (c : conn) : Z * conn :=
  let '(ret, rest, c) := message_loop (length src) cb src PTLS_ERROR_IN_PROGRESS c in
  if goes_on ret then keep_partial rest ret c
  else (ret, on_tls (λ t, set_recv_mess (ptls_buffer_dispose (recv_mess t)) t) c).

(* src lib/picotls.c:5908-5975 handle_handshake_record *)
Definition handle_handshake_record (cb : handler) (type : Z) (frag : bytes) (c : conn) : Z * conn :=
  let tls := cn_tls c in
  if negb (type =? PTLS_CONTENT_TYPE_HANDSHAKE) then (PTLS_ALERT_DECODE_ERROR, c)
  else
    (* flatten the unhandled messages *)
    let flat : result bytes * conn :=
      if base (recv_mess tls) =? 0 then (Ok frag, c)
      else if message_buffer_is_overflow (ctx tls) (off (recv_mess tls) + len frag)
      then (Err PTLS_ALERT_HANDSHAKE_FAILURE, c)
      else
        match reserve (len frag) 0 (recv_mess tls) with
        | (Err e, b) => (Err e, on_tls (set_recv_mess b) c)
        | (Ok _, b) => let b := append_reserved frag b in (Ok (contents b), on_tls (set_recv_mess b) c)
        end in
    match flat with
    | (Err e, c) => (e, c)
    | (Ok src, c) =>
        handle_messages cb src c
    end.

(** ** One record *)

(** Zero padding is stripped from the end; the last byte left is the content type. *)
Fixpoint strip_padding (rev_text : bytes) : bytes :=
  match rev_text with
  | 0 :: l => strip_padding l
  | l => l
  end.

(** [NextRecord] *)
Definition next_record (ret : Z) (c : conn) : Z * conn :=
  (ret, on_tls (λ t, set_recv_rec (ptls_buffer_dispose (recv_rec t)) t) c).

(** [ServerSkipEarlyData] *)
(* src lib/picotls.c:6056-6061 early_data_skipped_bytes *)
Definition server_skip_early_data (rec_length : Z) (c : conn) : Z * conn :=
  let skipped := u32 (early_data_skipped_bytes (cn_tls c) + u32 rec_length) in
  let c := on_tls (set_early_data_skipped_bytes skipped) c in
  if PTLS_MAX_EARLY_DATA_SKIP_SIZE <? skipped then (PTLS_ALERT_HANDSHAKE_FAILURE, c)
  else next_record PTLS_ERROR_IN_PROGRESS c.

Definition skips_early_data (tls : ptls_t) : bool :=
  is_server tls && negb (early_data_skipped_bytes tls =? UINT32_MAX).

(** A record in the clear, or decrypted: [frag] is at the offset of [decryptbuf] in that case. *)
(* src lib/picotls.c:6024-6054 handle_handshake_record *)
Definition handle_plain_record (cb : handler) (type : Z) (frag : bytes) (db : ptls_buffer_t) (c : conn)
    : Z * ptls_buffer_t * conn :=
  let tls := cn_tls c in
  let '(ret, db, c) :=
    if negb (base (recv_mess tls) =? 0) || (type =? PTLS_CONTENT_TYPE_HANDSHAKE) then
      let '(ret, c) := handle_handshake_record cb type frag c in (ret, db, c)
    else if type =? PTLS_CONTENT_TYPE_APPDATA then
      if is_post_handshake (state tls) then (0, set_off (off db + len frag) db, c)
      else if bool_decide (state tls = PTLS_STATE_SERVER_EXPECT_END_OF_EARLY_DATA) then
        (0, if bool_decide (is_Some (aead (dec tls))) then set_off (off db + len frag) db else db, c)
      else (PTLS_ALERT_UNEXPECTED_MESSAGE, db, c)
    else if type =? PTLS_CONTENT_TYPE_ALERT then (handle_alert frag, db, c)
    else (PTLS_ALERT_UNEXPECTED_MESSAGE, db, c) in
  let '(ret, c) := next_record ret c in (ret, db, c).

(** The decryption of a record that has been parsed; [decryptbuf] is [db]. *)
(* src lib/picotls.c:5999-6022 decrypted_length *)
Definition handle_record (cb : handler) (r : st_ptls_record_t) (db : ptls_buffer_t) (c : conn)
    : Z * ptls_buffer_t * conn :=
  let tls := cn_tls c in
  match aead (dec tls) with
  | Some a =>
      if rec_type r =? PTLS_CONTENT_TYPE_ALERT then handle_plain_record cb (rec_type r) (fragment r) db c
      else if negb (rec_type r =? PTLS_CONTENT_TYPE_APPDATA) then (PTLS_ALERT_HANDSHAKE_FAILURE, db, c)
      else
        match reserve (rec_length r) 0 db with
        | (Err e, db) => (e, db, c)
        | (Ok _, db) =>
            let '(ret, tp) := aead_decrypt a (fragment r) (dec tls) in
            match ret with
            | Err e =>
                if skips_early_data tls
                then let '(ret, c) := server_skip_early_data (rec_length r) c in (ret, db, c)
                else (e, db, c)
            | Ok text =>
                let c := on_tls (set_dec tp) c in
                let db := set_mem (mem_write (mem db) (off db) text) db in
                match strip_padding (rev text) with
                | [] => (PTLS_ALERT_UNEXPECTED_MESSAGE, db, c)
                | type :: rev_frag => handle_plain_record cb type (rev rev_frag) db c
                end
            end
        end
  | None =>
      if (rec_type r =? PTLS_CONTENT_TYPE_APPDATA) && skips_early_data tls
      then let '(ret, c) := server_skip_early_data (rec_length r) c in (ret, db, c)
      else handle_plain_record cb (rec_type r) (fragment r) db c
  end.

(** The code, the number of bytes consumed, [decryptbuf], and the connection. *)
(* src lib/picotls.c:5977-6062 handle_input *)
Definition handle_input (cb : handler) (input : bytes) (db : ptls_buffer_t) (c : conn)
    : Z * Z * ptls_buffer_t * conn :=
  let '(r, consumed, rb) := parse_record input (recv_rec (cn_tls c)) in
  let c := on_tls (set_recv_rec rb) c in
  match r with
  | Err e => (e, consumed, db, c)
  | Ok r =>
      if rec_type r =? PTLS_CONTENT_TYPE_CHANGE_CIPHER_SPEC then
        if negb (is_post_handshake (state (cn_tls c))) &&
           (rec_length r =? 1) && (byte_at (fragment r) 0 =? 1)
        then let '(ret, c) := next_record PTLS_ERROR_IN_PROGRESS c in (ret, consumed, db, c)
        else (PTLS_ALERT_UNEXPECTED_MESSAGE, consumed, db, c)
      else
        let '(ret, db, c) := handle_record cb r db c in (ret, consumed, db, c)
  end.

(** The body of [handle_input_tls12] after the record is parsed. *)
(* src lib/picotls.c:6074-6121 nonce *)
Definition handle_record_tls12 (a : ptls_aead_context_t) (r : st_ptls_record_t) (db : ptls_buffer_t) (c : conn)
    : Z * ptls_buffer_t * conn :=
  let tls := cn_tls c in
  let algo := aead_algo a in
  let nonce : result (Z * bytes) :=
    if negb (tls12_record_iv_size algo =? 0) then ptls_decode64 (fragment r)
    else Ok (seq (dec tls), fragment r) in
  match nonce with
  | Err e => (e, db, c)
  | Ok (nonce, src) =>
      if len src <? tag_size algo then (PTLS_ALERT_BAD_RECORD_MAC, db, c)
      else
        let textlen := len src - tag_size algo in
        let aad := build_tls12_aad (rec_type r) (seq (dec tls)) (u16 textlen) in
        match reserve textlen 0 db with
        | (Err e, db) => (e, db, c)
        | (Ok _, db) =>
            match ptls_aead_decrypt a src nonce aad with
            | None => (PTLS_ALERT_BAD_RECORD_MAC, db, c)
            | Some text =>
                if negb (len text =? textlen) then (PTLS_ALERT_BAD_RECORD_MAC, db, c)
                else
                  let db := set_mem (mem_write (mem db) (off db) text) db in
                  let c := on_tls (λ t, set_dec (advance 1 (dec t)) t) c in
                  if rec_type r =? PTLS_CONTENT_TYPE_APPDATA then (0, set_off (off db + textlen) db, c)
                  else if rec_type r =? PTLS_CONTENT_TYPE_ALERT then (handle_alert text, db, c)
                  else (PTLS_ALERT_UNEXPECTED_MESSAGE, db, c)
            end
        end
  end.

(* src lib/picotls.c:6064-6127 handle_input_tls12 *)
Definition handle_input_tls12 (input : bytes) (db : ptls_buffer_t) (c : conn)
    : Z * Z * ptls_buffer_t * conn :=
  let '(r, consumed, rb) := parse_record input (recv_rec (cn_tls c)) in
  let c := on_tls (set_recv_rec rb) c in
  match r with
  | Err e => (e, consumed, db, c)
  | Ok r =>
      match aead (dec (cn_tls c)) with
      | None => (ABORTED, consumed, db, c)
      | Some a =>
          let '(ret, db, c) := handle_record_tls12 a r db c in
          let '(ret, c) := next_record ret c in (ret, consumed, db, c)
      end
  end.

(** The loop of [ptls_receive]: until data is decrypted, or an error, or no input is left. *)
(* src lib/picotls.c:6212-6236 decryptbuf_orig_size *)
Fixpoint receive_loop (fuel : nat) (cb : handler) (input : bytes) (orig_size : Z) (ret : Z)
    (db : ptls_buffer_t) (c : conn) : Z * bytes * ptls_buffer_t * conn :=
  if (ret =? 0) && negb (len input =? 0) && (orig_size =? off db) then
    match fuel with
    | O => (OUT_OF_FUEL, input, db, c)
    | S fuel =>
        let '(ret, consumed, db, c) :=
          if tls12 (dec (cn_tls c)) then handle_input_tls12 input db c
          else handle_input cb input db c in
        let ret := if ret =? PTLS_ERROR_IN_PROGRESS then 0 else ret in
        receive_loop fuel cb (drop (Z.to_nat consumed) input) orig_size ret db c
    end
  else (ret, input, db, c).

(** The code, what is left of the input, [decryptbuf], and the connection. *)
(* src lib/picotls.c:6200-6241 ptls_receive *)
Definition ptls_receive (cb : handler) (input : bytes) (db : ptls_buffer_t) (c : conn)
    : Z * bytes * ptls_buffer_t * conn :=
  if state_value (state (cn_tls c)) <? state_value PTLS_STATE_SERVER_EXPECT_END_OF_EARLY_DATA
  then (ABORTED, input, db, c)
  else
    match buffer_require_direction db 0 with
    | Err e => (e, input, db, c)
    | Ok _ => receive_loop (length input) cb input (off db) 0 db c
    end.

End Input.

(** ** Records as a stream

    What a byte stream starts with: something that is no record, a part of a record, or a record. *)

Inductive parsed := NoRecord | Incomplete | Complete (r : st_ptls_record_t).

Definition with_fragment (r : st_ptls_record_t) (s : bytes) : st_ptls_record_t :=
  mkRecord (rec_type r) (rec_version r) (rec_length r) (take (Z.to_nat (rec_length r)) (drop 5 s)).

Definition stream_record (s : bytes) : parsed :=
  if len s =? 0 then Incomplete
  else if negb (known_type (byte_at s 0)) then NoRecord
  else if len s <? 5 then Incomplete
  else
    match parse_record_header s with
    | Err _ => NoRecord
    | Ok r => if 5 + rec_length r <=? len s then Complete (with_fragment r s) else Incomplete
    end.

(** [recvbuf.rec] holds the bytes [p] of a record that is not complete. *)
Definition pending (rb : ptls_buffer_t) (p : bytes) : Prop :=
  (p = [] /\ base rb = 0) \/
  (p <> [] /\ base rb <> 0 /\ buf_wf rb /\ tx rb = 0 /\ 5 <= capacity rb /\ contents rb = p /\
   stream_record p = Incomplete).

Lemma byte_at_app p x i : (i < length p)%nat -> byte_at (p ++ x) i = byte_at p i.
Proof. intros. unfold byte_at. by apply app_nth1. Qed.

Lemma byte_at_drop n p i : byte_at (drop n p) i = byte_at p (n + i).
Proof.
  unfold byte_at. revert p. induction n as [|n IH]; intros p; [done|]. destruct p; simpl; [by destruct i|apply IH].
Qed.

Lemma ntoh16_drop n p : ntoh16 (drop n p) = Z.lor (Z.shiftl (byte_at p n) 8) (byte_at p (n + 1)).
Proof. unfold ntoh16. by rewrite !byte_at_drop, Nat.add_0_r. Qed.

Lemma parse_header_app p x : 5 <= len p -> parse_record_header (p ++ x) = parse_record_header p.
Proof.
  intros Hl. unfold len in Hl. unfold parse_record_header. rewrite !ntoh16_drop, !byte_at_app by lia. done.
Qed.

Lemma parse_header_err p e : parse_record_header p = Err e -> e = PTLS_ALERT_DECODE_ERROR.
Proof. unfold parse_record_header. destruct (_ <? _); [|done]. by intros [= ->]. Qed.

Lemma byte_at_nonneg p i : is_bytes p -> 0 <= byte_at p i.
Proof.
  intros Hp. unfold byte_at. destruct (nth_in_or_default i p 0) as [Hin| ->]; [|lia].
  rewrite Forall_forall in Hp. apply list_elem_of_In, Hp in Hin. apply Hin.
Qed.

Lemma header_length_nonneg p r : is_bytes p -> parse_record_header p = Ok r -> 0 <= rec_length r.
Proof.
  intros Hp. unfold parse_record_header. destruct (_ <? _); [done|]. intros [= <-]. simpl.
  rewrite ntoh16_drop. apply Z.lor_nonneg. rewrite Z.shiftl_nonneg.
  split; by apply byte_at_nonneg.
Qed.

Lemma stream_record_more p x :
  p <> [] -> stream_record p = Incomplete -> known_type (byte_at (p ++ x) 0) = true.
Proof.
  intros Hp. unfold stream_record. destruct p as [|b p]; [done|]. rewrite len_cons.
  pose proof (len_nonneg p). rewrite (proj2 (Z.eqb_neq _ 0)) by lia.
  destruct (known_type (byte_at (b :: p) 0)) eqn:E; [|done]. intros _. by rewrite byte_at_app by (simpl; lia).
Qed.

Section ParseProofs.
Context `{Allocator}.

(** Appending bytes there is room for. *)
Lemma append_reserved_ok src b :
  buf_wf b -> off b + len src <= capacity b ->
  buf_wf (append_reserved src b) /\ contents (append_reserved src b) = contents b ++ src.
Proof. apply append_at_off. Qed.

Lemma fill_fragment_spec r src inlen rb q :
  buf_wf rb -> tx rb = 0 -> contents rb = q -> parse_record_header q = Ok r -> 0 <= rec_length r ->
  5 <= len q <= 5 + rec_length r ->
  let '(res, consumed, rb') := fill_fragment r src inlen rb in
  (if 5 + rec_length r <=? len q + len src then
     res = Ok (with_fragment r (q ++ src)) /\ consumed = inlen - (len src - (5 + rec_length r - len q))
   else
     res = Err PTLS_ERROR_IN_PROGRESS /\ consumed = inlen /\ buf_wf rb' /\ tx rb' = 0 /\
     contents rb' = q ++ src) \/ res = Err PTLS_ERROR_NO_MEMORY.
Proof.
  intros Hw Ht Hc Hh Hr Hq. unfold fill_fragment. pose proof (contents_len rb Hw) as Ho. rewrite Hc in Ho.
  rewrite <- Ho. set (L := rec_length r) in *. set (addlen := L + 5 - len q).
  pose proof (len_nonneg src).
  assert (exists ret rb1, (if negb (addlen =? 0) then reserve addlen 0 rb else (Ok (), rb)) = (ret, rb1) /\
    match ret with
    | Ok _ => buf_wf rb1 /\ tx rb1 = 0 /\ contents rb1 = q /\ off rb1 = len q /\ len q + addlen <= capacity rb1
    | Err e => e = PTLS_ERROR_NO_MEMORY
    end) as (ret & rb1 & -> & Hret).
  { destruct (Z.eqb_spec addlen 0) as [->|Hne]; cbn [negb].
    - eexists _, _. split; [done|]. destruct Hw. split_and!; try done; lia.
    - unfold reserve. pose proof (reserve_aligned_cases addlen 0 0 rb Hw ltac:(lia) ltac:(lia)) as Hres.
      destruct (reserve_aligned addlen 0 0 rb) as [[[]|e] rb1]; eexists _, _; (split; [done|]).
      + destruct Hres as (? & E & ? & ? & ? & ? & _). split_and!; (done || congruence || lia).
      + destruct Hres as (_ & [[? ?]|(_ & -> & _)]); [congruence|done]. }
  destruct ret as [[]|e]; [|by right; f_equal]. destruct Hret as (Hw1 & Ht1 & Hc1 & Ho1 & Hcap).
  set (n := Z.min addlen (len src)).
  assert (0 <= n) by lia.
  set (rb2 := if negb (n =? 0) then append_reserved (take (Z.to_nat n) src) rb1 else rb1).
  assert (buf_wf rb2 /\ tx rb2 = 0 /\ contents rb2 = q ++ take (Z.to_nat n) src) as (Hw2 & Ht2 & Hc2).
  { subst rb2. destruct (Z.eqb_spec n 0) as [->|]; cbn [negb].
    - simpl. rewrite app_nil_r. done.
    - destruct (append_reserved_ok (take (Z.to_nat n) src) rb1 Hw1) as [? Hx]; [rewrite len_take; lia|].
      rewrite Hc1 in Hx. done. }
  pose proof (contents_len rb2 Hw2) as Ho2. rewrite Hc2, len_app, len_take in Ho2.
  destruct (Z.leb_spec (5 + L) (len q + len src)) as [Hle|Hgt].
  - rewrite (proj2 (Z.eqb_eq _ _)) by lia. left. split; [|lia]. f_equal. unfold with_fragment. f_equal.
    rewrite Hc2. rewrite !drop_app_le by (unfold len in *; lia).
    fold L. rewrite take_app, (take_ge (drop 5 q)) by (rewrite length_drop; unfold len in *; lia).
    f_equal. f_equal. rewrite length_drop. unfold len in *. lia.
  - rewrite (proj2 (Z.eqb_neq _ _)) by lia. left. split; [done|]. split; [lia|]. split; [done|]. split; [done|].
    rewrite Hc2, take_ge by (unfold len in *; lia). done.
Qed.

(** The header part of the slow path. *)
Lemma parse_slow_spec src rb p :
  src <> [] -> is_bytes (p ++ src) -> buf_wf rb -> tx rb = 0 -> contents rb = p -> base rb <> 0 ->
  5 <= capacity rb -> (p <> [] -> stream_record p = Incomplete) -> known_type (byte_at (p ++ src) 0) = true ->
  let '(res, consumed, rb') := parse_record_slow src rb in
  match stream_record (p ++ src) with
  | NoRecord => res = Err PTLS_ALERT_DECODE_ERROR
  | Incomplete => res = Err PTLS_ERROR_IN_PROGRESS /\ consumed = len src /\ pending rb' (p ++ src)
  | Complete r => res = Ok r /\ consumed = 5 + rec_length r - len p
  end \/ res = Err PTLS_ERROR_NO_MEMORY.
Proof.
  intros Hsrc Hb Hw Ht Hc Hbase Hcap Hinc Hk. unfold parse_record_slow. rewrite (proj2 (Z.eqb_neq _ 0)) by done.
  pose proof (contents_len rb Hw) as Ho. rewrite Hc in Ho. rewrite <- Ho.
  pose proof (len_nonneg p). pose proof (wf_off rb Hw). assert (0 < len src) as Hlen by (destruct src; [done|rewrite len_cons; pose proof (len_nonneg src); lia]).
  assert (stream_record (p ++ src) = if len (p ++ src) <? 5 then Incomplete else
    match parse_record_header (p ++ src) with
    | Err _ => NoRecord
    | Ok r => if 5 + rec_length r <=? len (p ++ src) then Complete (with_fragment r (p ++ src)) else Incomplete
    end) as Hstream.
  { unfold stream_record. rewrite Hk, len_app, (proj2 (Z.eqb_neq _ 0)) by lia. done. }
  assert (p ++ src <> []) as Hne by (destruct p; [by simpl|done]).
  set (n := Z.max 0 (5 - len p)). destruct (Z.ltb_spec (len src) n) as [Hlt|Hge].
  - rewrite Hstream, len_app. rewrite (proj2 (Z.ltb_lt _ _)) by (unfold n in *; lia). left. split; [done|]. split; [done|]. right.
    destruct (append_reserved_ok src rb Hw) as [Hw' Hc']; [lia|]. rewrite Hc in Hc'. split_and!; try done.
    rewrite Hstream, len_app. by rewrite (proj2 (Z.ltb_lt _ _)) by (unfold n in *; lia).
  - rewrite Hstream, len_app. rewrite (proj2 (Z.ltb_ge _ _)) by (unfold n in *; lia).
    set (hd := take (Z.to_nat n) src). set (tl := drop (Z.to_nat n) src).
    assert (src = hd ++ tl) as Esrc by (symmetry; apply take_drop).
    assert (len hd = n) as Hhd by (unfold hd; rewrite len_take; lia).
    assert (len src = n + len tl) as Htl by (rewrite Esrc at 1; rewrite len_app; lia).
    destruct (append_reserved_ok hd rb Hw) as [Hw' Hc']; [lia|]. rewrite Hc in Hc'.
    set (rb1 := append_reserved hd rb) in *. set (q := p ++ hd) in *.
    assert (p ++ src = q ++ tl) as Eq by (unfold q; by rewrite <- app_assoc, <- Esrc).
    assert (len q = len p + n) as Hq by (unfold q; rewrite len_app; lia).
    rewrite Eq, parse_header_app by lia.
    rewrite (contents_mem rb1 Hw'), Hc', parse_header_app by lia.
    destruct (parse_record_header q) as [r|e] eqn:Hh.
    2:{ left. f_equal. by apply parse_header_err in Hh. }
    assert (0 <= rec_length r) as Hr.
    { apply (header_length_nonneg q); [|done]. rewrite Eq in Hb. by apply Forall_app in Hb as [? _]. }
    assert (len q <= 5 + rec_length r) as Hq2.
    { destruct (Z.le_gt_cases 5 (len p)) as [H5|H5]; [|lia].
      assert (n = 0) as Hn0 by lia. assert (hd = []) as Hh0 by (unfold hd; by rewrite Hn0).
      assert (q = p) as Hqp by (unfold q; by rewrite Hh0, app_nil_r). rewrite Hqp in *.
      assert (p <> []) as Hpn by (intros ->; rewrite len_nil in H5; lia). specialize (Hinc Hpn).
      unfold stream_record in Hinc. rewrite (proj2 (Z.eqb_neq _ 0)), (proj2 (Z.ltb_ge _ 5)), Hh in Hinc by lia.
      destruct (negb _); [done|]. destruct (Z.leb_spec (5 + rec_length r) (len p)); [done|lia]. }
    pose proof (fill_fragment_spec r tl (len src) rb1 q Hw' Ht Hc' Hh Hr ltac:(lia)) as Hf.
    destruct (fill_fragment r tl (len src) rb1) as [[res consumed] rb2].
    destruct Hf as [Hf|Hf]; [|by right]. left. replace (len p + len src) with (len q + len tl) by lia.
    destruct (Z.leb_spec (5 + rec_length r) (len q + len tl)) as [Hle|Hgt].
    + destruct Hf as [-> ->]. split; [done|]. simpl. lia.
    + destruct Hf as (-> & -> & Hw2 & Ht2 & Hc2). split; [done|]. split; [done|]. right.
      pose proof (contents_len rb2 Hw2) as Ho2. rewrite Hc2, len_app in Ho2. pose proof (len_nonneg tl).
      rewrite Eq in Hne, Hstream. destruct Hw2. split_and!; try done; try lia.
      rewrite Hstream, len_app. rewrite (proj2 (Z.ltb_ge _ _)) by lia.
      rewrite parse_header_app, Hh by lia. by rewrite (proj2 (Z.leb_gt _ _)) by lia.
Qed.

(** One call of [parse_record]: its result is what the stream starts with. *)
Lemma parse_record_stream src rb p :
  src <> [] -> is_bytes (p ++ src) -> pending rb p ->
  let '(res, consumed, rb') := parse_record src rb in
  match stream_record (p ++ src) with
  | NoRecord => res = Err PTLS_ALERT_DECODE_ERROR
  | Incomplete => res = Err PTLS_ERROR_IN_PROGRESS /\ consumed = len src /\ pending rb' (p ++ src)
  | Complete r => res = Ok r /\ consumed = 5 + rec_length r - len p
  end \/ res = Err PTLS_ERROR_NO_MEMORY.
Proof.
  intros Hsrc Hb [[-> Hbase]|(Hp & Hbase & Hw & Ht & Hcap & Hc & Hinc)]; unfold parse_record.
  2:{ rewrite (proj2 (Z.eqb_neq _ 0)) by done. cbn [andb].
      apply parse_slow_spec; try done. by apply stream_record_more. }
  rewrite Hbase, Z.eqb_refl. cbn [andb app].
  assert (0 < len src) as Hlen by (destruct src; [done|rewrite len_cons; pose proof (len_nonneg src); lia]).
  destruct (known_type (byte_at src 0)) eqn:Hk; cbn [negb].
  2:{ left. unfold stream_record. by rewrite (proj2 (Z.eqb_neq _ 0)), Hk by lia. }
  assert (let '(res, consumed, rb') := parse_record_slow src rb in
    match stream_record src with
    | NoRecord => res = Err PTLS_ALERT_DECODE_ERROR
    | Incomplete => res = Err PTLS_ERROR_IN_PROGRESS /\ consumed = len src /\ pending rb' src
    | Complete r => res = Ok r /\ consumed = 5 + rec_length r - @len Z []
    end \/ res = Err PTLS_ERROR_NO_MEMORY) as Hslow.
  { assert (buf_wf (ptls_buffer_init_rx EMPTY_STRING [])) as Hw0.
    { split; try done; cbn; try lia. }
    pose proof (reserve_aligned_cases 5 0 0 _ Hw0 ltac:(lia) ltac:(lia)) as Hr.
    assert (parse_record_slow src rb =
      match reserve 5 0 (ptls_buffer_init_rx EMPTY_STRING []) with
      | (Err e, rb) => (Err e, len src, rb)
      | (Ok _, rb) => parse_record_slow src rb
      end) as ->.
    { unfold parse_record_slow, reserve. rewrite Hbase, Z.eqb_refl.
      destruct (reserve_aligned 5 0 0 _) as [[[]|e] b]; [|done].
      destruct Hr as ([] & _). by rewrite (proj2 (Z.eqb_neq _ 0)) by lia. }
    unfold reserve. destruct (reserve_aligned 5 0 0 _) as [[[]|e] b].
    - destruct Hr as (Hwb & Hcb & Hob & Htb & _ & Hcapb & _). cbn in Hcb, Hcapb, Htb.
      apply (parse_slow_spec src b []); try done. pose proof (wf_base b Hwb). lia.
    - right. destruct Hr as (_ & [[? _]|(_ & -> & _)]); done. }
  destruct (Z.leb_spec 5 (len src)); [|done]. destruct (parse_record_header src) as [r|e] eqn:Hh.
  2:{ left. unfold stream_record.
      rewrite (proj2 (Z.eqb_neq _ 0)), Hk, (proj2 (Z.ltb_ge _ _)), Hh by lia. cbn.
      by rewrite (parse_header_err _ _ Hh). }
  destruct (Z.leb_spec (5 + rec_length r) (len src)) as [Hle|]; [|done].
  left. unfold stream_record.
  rewrite (proj2 (Z.eqb_neq _ 0)), Hk, (proj2 (Z.ltb_ge _ _)), Hh by lia. cbn [negb].
  rewrite (proj2 (Z.leb_le _ _)) by lia. split; [done|]. rewrite len_nil. simpl. lia.
Qed.

Lemma stream_record_app p x :
  stream_record p <> Incomplete ->
  stream_record (p ++ x) = stream_record p.
Proof.
  intros Hi. unfold stream_record in *. pose proof (len_nonneg p). pose proof (len_nonneg x).
  destruct (Z.eqb_spec (len p) 0) as [|Hp]; [done|]. rewrite len_app.
  rewrite (proj2 (Z.eqb_neq (len p + len x) 0)) by lia.
  rewrite byte_at_app by (unfold len in *; lia). destruct (negb _); [done|].
  destruct (Z.ltb_spec (len p) 5); [done|]. rewrite (proj2 (Z.ltb_ge _ 5)) by lia.
  rewrite parse_header_app by lia. destruct (parse_record_header p) as [r|e] eqn:Hh; [|done].
  destruct (Z.leb_spec (5 + rec_length r) (len p)); [|done]. rewrite (proj2 (Z.leb_le _ _)) by lia.
  unfold with_fragment. f_equal. f_equal. unfold len in *. rewrite drop_app_le by lia.
  rewrite take_app_le by (rewrite length_drop; lia). done.
Qed.

Lemma complete_bounds p x r :
  is_bytes (p ++ x) -> stream_record p = Incomplete -> stream_record (p ++ x) = Complete r ->
  5 + rec_length r <= len (p ++ x) /\ len p < 5 + rec_length r.
Proof.
  intros Hb Hi Hc.
  assert (exists h, parse_record_header (p ++ x) = Ok h /\ 5 <= len (p ++ x) /\
    5 + rec_length h <= len (p ++ x) /\ rec_length r = rec_length h /\ known_type (byte_at (p ++ x) 0) = true)
    as (h & Hh & H5 & Hl & -> & Hk).
  { unfold stream_record in Hc. destruct (_ =? 0); [done|].
    destruct (known_type _); [|done]. destruct (Z.ltb_spec (len (p ++ x)) 5); [done|].
    destruct (parse_record_header _) as [h|]; [|done]. destruct (Z.leb_spec (5 + rec_length h) (len (p ++ x))); [|done].
    exists h. by injection Hc as <-. }
  split; [done|]. pose proof (header_length_nonneg _ _ Hb Hh).
  destruct (Z.le_gt_cases 5 (len p)) as [Hp|]; [|lia]. unfold stream_record in Hi.
  rewrite byte_at_app in Hk by (unfold len in *; lia). rewrite parse_header_app in Hh by done.
  rewrite (proj2 (Z.eqb_neq _ 0)), Hk, (proj2 (Z.ltb_ge _ 5)), Hh in Hi by lia. cbn [negb] in Hi.
  destruct (Z.leb_spec (5 + rec_length h) (len p)); [done|lia].
Qed.

(** Input that arrives in pieces, until a call says something other than "in progress": the result,
    the bytes of that piece that are not consumed, and the pieces after it. *)
Fixpoint feed (segs : list bytes) (rb : ptls_buffer_t) : result st_ptls_record_t * bytes * list bytes :=
  match segs with
  | [] => (Err PTLS_ERROR_IN_PROGRESS, [], [])
  | seg :: segs =>
      match parse_record seg rb with
      | (Ok r, consumed, _) => (Ok r, drop (Z.to_nat consumed) seg, segs)
      | (Err e, consumed, rb') =>
          if e =? PTLS_ERROR_IN_PROGRESS then feed segs rb' else (Err e, drop (Z.to_nat consumed) seg, segs)
      end
  end.

(** C7: however a byte stream is cut into pieces, and whichever of the two paths of [parse_record]
    handles them, the record that comes out is the one the stream starts with, and the bytes left
    over are exactly those that follow it in the stream; a stream that starts with no record is
    refused with a decode error, an incomplete one is kept.  The only other outcome is running out
    of memory. *)
Theorem record_parsing_ignores_segmentation segs rb p :
  Forall (λ s, s <> []) segs -> is_bytes (p ++ concat segs) -> pending rb p ->
  let '(res, rest, later) := feed segs rb in
  match stream_record (p ++ concat segs) with
  | NoRecord => res = Err PTLS_ALERT_DECODE_ERROR
  | Incomplete => res = Err PTLS_ERROR_IN_PROGRESS
  | Complete r =>
      res = Ok r /\ drop (Z.to_nat (5 + rec_length r)) (p ++ concat segs) = rest ++ concat later
  end \/ res = Err PTLS_ERROR_NO_MEMORY.
Proof.
  revert rb p. induction segs as [|seg segs IH]; intros rb p Hne Hb Hp; cbn [feed concat] in *.
  { left. rewrite app_nil_r. destruct Hp as [[-> _]|(_ & _ & _ & _ & _ & _ & ->)]; done. }
  apply Forall_cons in Hne as [Hseg Hne]. rewrite app_assoc in Hb |- *.
  assert (is_bytes (p ++ seg)) as Hb1 by (by apply Forall_app in Hb as [? _]).
  pose proof (parse_record_stream seg rb p Hseg Hb1 Hp) as Hs.
  destruct (parse_record seg rb) as [[res consumed] rb']. destruct Hs as [Hs| ->]; [|by right].
  destruct (stream_record (p ++ seg)) as [| |r] eqn:Es.
  - rewrite stream_record_app by (by rewrite Es). rewrite Es. subst res. by left.
  - destruct Hs as (-> & -> & Hp'). cbn [Z.eqb]. rewrite Z.eqb_refl. by apply IH.
  - rewrite stream_record_app by (by rewrite Es). rewrite Es. destruct Hs as [-> ->]. left. split; [done|].
    assert (5 + rec_length r <= len (p ++ seg) /\ len p < 5 + rec_length r) as [Hl1 Hl2].
    { eapply complete_bounds; [done|by destruct Hp as [[-> _]|(_ & _ & _ & _ & _ & _ & ->)]|done]. }
    rewrite drop_app_le by (unfold len in *; lia). f_equal. rewrite len_app in Hl1.
    rewrite drop_app_ge by (unfold len in *; lia). f_equal. unfold len in *. lia.
Qed.

End ParseProofs.

(** ** Handshake messages as a stream

    The complete messages a byte string starts with, and what is left: less than one message. *)

Fixpoint messages (fuel : nat) (s : bytes) : list bytes * bytes :=
  match fuel with
  | O => ([], s)
  | S fuel =>
      let n := 4 + ntoh24 (drop 1 s) in
      if (len s <? 4) || (len s <? n) then ([], s)
      else let '(ms, rest) := messages fuel (drop (Z.to_nat n) s) in (take (Z.to_nat n) s :: ms, rest)
  end.

(** Handing the messages over one at a time, until one is refused. *)
Fixpoint deliver (cb : handler) (ms : list bytes) (rest : bytes) (ret : Z) (c : conn) : Z * conn :=
  match ms with
  | [] => (ret, c)
  | m :: ms =>
      let '(ret, c) := cb m (bool_decide (ms = [] /\ rest = [])) c in
      if goes_on ret then deliver cb ms rest ret c else (ret, c)
  end.

(** The handler leaves the reassembly buffer alone: it neither reads nor writes it. *)
Definition ignores_recv_mess (cb : handler) : Prop :=
  forall m e b c, cb m e (on_tls (set_recv_mess b) c)
    = (let '(ret, c') := cb m e c in (ret, on_tls (set_recv_mess b) c')).

(** [recvbuf.mess] holds the bytes [q]. *)
Definition mess_pending (b : ptls_buffer_t) (q : bytes) : Prop :=
  (q = [] /\ base b = 0) \/ (buf_wf b /\ tx b = 0 /\ contents b = q).

Lemma set_recv_mess_id c : on_tls (set_recv_mess (recv_mess (cn_tls c))) c = c.
Proof. by destruct c as [[] ? ?]. Qed.

Lemma set_recv_mess_twice b b' c :
  on_tls (set_recv_mess b) (on_tls (set_recv_mess b') c) = on_tls (set_recv_mess b) c.
Proof. done. Qed.

Lemma ntoh24_nonneg s : is_bytes s -> 0 <= ntoh24 s.
Proof.
  intros Hs. unfold ntoh24. rewrite !Z.lor_nonneg, !Z.shiftl_nonneg. auto using byte_at_nonneg.
Qed.

Lemma messages_sizes fuel s : is_bytes s -> Forall (λ m, 4 <= len m) (messages fuel s).1.
Proof.
  revert s. induction fuel as [|fuel IH]; intros s Hb; cbn [messages]; [constructor|].
  destruct (Z.ltb_spec (len s) 4); cbn [orb]; [constructor|].
  destruct (Z.ltb_spec (len s) (4 + ntoh24 (drop 1 s))); [constructor|].
  specialize (IH _ (Forall_drop _ (Z.to_nat (4 + ntoh24 (drop 1 s))) _ Hb)).
  destruct (messages fuel _) as [ms rest]. constructor; [|done]. rewrite len_take.
  pose proof (ntoh24_nonneg (drop 1 s) (Forall_drop _ _ _ Hb)). lia.
Qed.

Lemma message_loop_deliver cb b c s ret fuel :
  is_bytes s -> ignores_recv_mess cb -> (length s <= fuel)%nat ->
  let '(ms, rest) := messages fuel s in
  let '(ret1, c1) := deliver cb ms rest ret c in
  let '(ret2, rest2, c2) := message_loop fuel cb s ret (on_tls (set_recv_mess b) c) in
  ret2 = ret1 /\ c2 = on_tls (set_recv_mess b) c1 /\ (goes_on ret = true -> goes_on ret1 = true -> rest2 = rest) /\
  s = concat ms ++ rest.
Proof.
  intros Hb Hcb. revert s ret c Hb. induction fuel as [|fuel IH]; intros s ret c Hb Hf.
  - destruct s; [done|simpl in Hf; lia].
  - cbn [messages message_loop]. set (n := 4 + ntoh24 (drop 1 s)).
    destruct (Z.ltb_spec (len s) 4); cbn [orb]; [done|].
    destruct (Z.ltb_spec (len s) n) as [|Hn]; [done|].
    assert (4 <= n) as Hn4 by (pose proof (ntoh24_nonneg (drop 1 s) (Forall_drop _ _ _ Hb)); lia).
    set (s' := drop (Z.to_nat n) s).
    assert (is_bytes s') as Hb' by (by apply Forall_drop).
    assert (length s' <= fuel)%nat as Hf' by (unfold s'; rewrite length_drop; unfold len in *; lia).
    assert (len s' = len s - n) as Hl' by (unfold s'; rewrite len_drop; lia).
    pose proof (λ ret c, IH s' ret c Hb' Hf') as IH'. destruct (messages fuel s') as [ms rest] eqn:Hm.
    assert (s' = concat ms ++ rest) as Hs'.
    { specialize (IH' ret c). destruct (deliver _ _ _ _ _), (message_loop _ _ _ _ _) as [[]]. apply IH'. }
    cbn [deliver]. rewrite Hcb.
    assert ((len s =? n) = bool_decide (ms = [] /\ rest = [])) as ->.
    { pose proof (messages_sizes fuel s' Hb') as Hc. rewrite Hm in Hc. cbn [fst] in Hc.
      destruct (Z.eqb_spec (len s) n); symmetry; [apply bool_decide_eq_true_2|apply bool_decide_eq_false_2].
      - assert (s' = []) as E by (apply len_zero; lia). rewrite E in Hs'. symmetry in Hs'. apply app_nil in Hs' as [E1 ->].
        split; [|done]. destruct Hc as [|m ms ? _]; [done|]. apply app_nil in E1 as [-> _]. rewrite len_nil in *. lia.
      - intros [-> ->]. rewrite Hs' in Hl'. cbn in Hl'. rewrite len_nil in Hl'. lia. }
    destruct (cb _ _ c) as [ret1 c1]. destruct (goes_on ret1) eqn:Hg.
    + specialize (IH' ret1 c1). destruct (deliver _ _ _ _ _) as [ret2 c2], (message_loop _ _ _ _ _) as [[ret3 rest3] c3].
      destruct IH' as (-> & -> & Hr & _). split_and!; [done|done|by intros; apply Hr|].
      cbn [concat]. rewrite <- app_assoc, <- Hs'. symmetry. apply take_drop.
    + split_and!; [done|done|by rewrite Hg|]. cbn [concat]. rewrite <- app_assoc, <- Hs'. symmetry. apply take_drop.
Qed.

Section Reassembly.
Context `{Allocator}.

(** Overwriting the data with a shorter string. *)
Lemma replace_contents b s :
  buf_wf b -> len s <= capacity b ->
  buf_wf (set_off (len s) (set_mem (mem_write (mem b) 0 s) b)) /\
  contents (set_off (len s) (set_mem (mem_write (mem b) 0 s) b)) = s.
Proof.
  intros Hw Hl. pose proof (len_nonneg s). pose proof (wf_write b 0 s Hw ltac:(lia) ltac:(lia)) as []. split.
  - split; cbn in *; (done || lia).
  - unfold contents. cbn. unfold mem_write. change (take (Z.to_nat 0) (mem b)) with (@nil Z). rewrite app_nil_l. apply take_len_app.
Qed.

Lemma init_rx_wf : buf_wf (ptls_buffer_init_rx EMPTY_STRING []).
Proof. split; try done; cbn; try lia. Qed.

Lemma keep_partial_spec rest ret b c :
  base b = 0 \/ (buf_wf b /\ tx b = 0 /\ len rest <= capacity b) ->
  let '(ret', c') := keep_partial rest ret (on_tls (set_recv_mess b) c) in
  ret' = PTLS_ERROR_NO_MEMORY \/
  exists b', c' = on_tls (set_recv_mess b') c /\
    (rest = [] /\ ret' = ret /\ base b' = 0 \/
     rest <> [] /\ ret' = PTLS_ERROR_IN_PROGRESS /\ mess_pending b' rest \/
     rest <> [] /\ ret' = PTLS_ALERT_HANDSHAKE_FAILURE /\ message_buffer_is_overflow (ctx (cn_tls c)) (len rest) = true).
Proof.
  intros Hb. unfold keep_partial. cbn [cn_tls on_tls]. pose proof (len_nonneg rest).
  destruct (Z.eqb_spec (len rest) 0) as [E|Hne]; cbn [negb].
  { apply len_zero in E as ->. right. eexists. split; [reflexivity|]. by left. }
  assert (rest <> []) as Hr by (by intros ->).
  change (ctx (set_recv_mess b (cn_tls c))) with (ctx (cn_tls c)).
  destruct (message_buffer_is_overflow _ _) eqn:Ho.
  { right. eexists. split; [reflexivity|]. by right; right. }
  change (recv_mess (set_recv_mess b (cn_tls c))) with b.
  destruct Hb as [E|(Hw & Ht & Hl)].
  - rewrite E, Z.eqb_refl. unfold reserve.
    pose proof (reserve_aligned_cases (len rest) 0 0 _ init_rx_wf ltac:(lia) ltac:(lia)) as Hres.
    destruct (reserve_aligned _ 0 0 _) as [[[]|e] b'].
    + destruct Hres as (Hw & _ & _ & Ht & _ & Hcap & _). cbn in Hcap, Ht. right. eexists. split; [reflexivity|].
      right; left. split; [done|]. split; [done|]. right. cbn [recv_mess set_recv_mess].
      destruct (replace_contents b' rest Hw ltac:(lia)). done.
    + left. destruct Hres as (_ & [[? _]|(_ & -> & _)]); done.
  - pose proof (wf_base b Hw). rewrite (proj2 (Z.eqb_neq _ 0)) by lia. right. eexists. split; [reflexivity|].
    right; left. split; [done|]. split; [done|]. right. by destruct (replace_contents b rest Hw ltac:(lia)).
Qed.

(** What is kept once the messages have been handed over with the outcome [ret1], [c1]. *)
Definition left_over (rest : bytes) (ret1 : Z) (c1 : conn) (ret : Z) (c' : conn) : Prop :=
  exists b, c' = on_tls (set_recv_mess b) c1 /\
    (goes_on ret1 = false /\ ret = ret1 /\ base b = 0 \/
     goes_on ret1 = true /\ rest = [] /\ ret = ret1 /\ base b = 0 \/
     goes_on ret1 = true /\ rest <> [] /\ ret = PTLS_ERROR_IN_PROGRESS /\ mess_pending b rest \/
     goes_on ret1 = true /\ rest <> [] /\ ret = PTLS_ALERT_HANDSHAKE_FAILURE /\
       message_buffer_is_overflow (ctx (cn_tls c1)) (len rest) = true).

Lemma handle_messages_spec cb s b c :
  ignores_recv_mess cb -> is_bytes s -> base b = 0 \/ (buf_wf b /\ tx b = 0 /\ contents b = s) ->
  let '(ms, rest) := messages (length s) s in
  let '(ret1, c1) := deliver cb ms rest PTLS_ERROR_IN_PROGRESS c in
  let '(ret, c') := handle_messages cb s (on_tls (set_recv_mess b) c) in
  s = concat ms ++ rest /\ (ret = PTLS_ERROR_NO_MEMORY \/ left_over rest ret1 c1 ret c').
Proof.
  intros Hcb Hb Hbuf. unfold handle_messages, left_over.
  pose proof (message_loop_deliver cb b c s PTLS_ERROR_IN_PROGRESS (length s) Hb Hcb ltac:(lia)) as Hloop.
  destruct (messages _ _) as [ms rest], (deliver _ _ _ _ _) as [ret1 c1], (message_loop _ _ _ _ _) as [[ret2 rest2] c2].
  destruct Hloop as (-> & -> & Hr & Hs). destruct (goes_on ret1) eqn:Hg.
  - rewrite Hr by done. pose proof (keep_partial_spec rest ret1 b c1) as Hk.
    destruct (keep_partial _ _ _) as [ret c']. split; [done|].
    destruct Hk as [->|(b' & -> & Hcases)]; [|by left|right].
    + destruct Hbuf as [|(Hw & Ht & Hc)]; [by left|right]. split; [done|]. split; [done|].
      pose proof (wf_off b Hw). pose proof (contents_len b Hw) as Ho. rewrite Hc, Hs, len_app in Ho.
      pose proof (len_nonneg (concat ms)). lia.
    + exists b'. split; [done|]. naive_solver.
  - split; [done|]. right. eexists. split; [reflexivity|]. by left.
Qed.


End Reassembly.

(** ** Application data *)

Section Data.
Context `{Allocator}.

(** The context that opens what [a] seals. *)
Definition opens (d a : ptls_aead_context_t) : Prop :=
  aead_algo d = aead_algo a /\ aead_key d = aead_key a /\ static_iv d = static_iv a.

Lemma strip_padding_spec (l : bytes) :
  exists n, l = replicate n 0 ++ strip_padding l /\
  match strip_padding l with [] => True | x :: _ => x <> 0 end.
Proof.
  induction l as [|x l (n & E & Hh)]; [by exists 0%nat|].
  cbn [strip_padding]. destruct x as [|p|p]; [|by exists 0%nat|by exists 0%nat].
  exists (S n). cbn. by rewrite <- E.
Qed.

(** The text and the padding of a decrypted record. *)
Lemma strip_padding_rev (text : bytes) :
  match strip_padding (rev text) with
  | [] => exists n, text = replicate n 0
  | type :: rev_frag => type <> 0 /\ exists n, text = rev rev_frag ++ [type] ++ replicate n 0
  end.
Proof.
  destruct (strip_padding_spec (rev text)) as (n & E & Hh). destruct (strip_padding (rev text)) as [|type rf].
  - exists n. rewrite app_nil_r in E. apply (f_equal (@rev Z)) in E. rewrite rev_involutive in E. rewrite E.
    clear. induction n; [done|]. cbn. rewrite IHn. clear. induction n; [done|]. cbn. by f_equal.
  - split; [done|]. exists n. apply (f_equal (@rev Z)) in E. rewrite rev_involutive, rev_app_distr in E.
    cbn in E. rewrite E, <- app_assoc. f_equal. f_equal.
    clear. induction n; [done|]. cbn. rewrite IHn. clear. induction n; [done|]. cbn. by f_equal.
Qed.

(** The decrypted text is written after the data, without becoming part of it. *)
Lemma write_after db text :
  buf_wf db -> off db + len text <= capacity db ->
  let db' := set_mem (mem_write (mem db) (off db) text) db in
  buf_wf db' /\ tx db' = tx db /\ off db' = off db /\ contents db' = contents db /\
  (forall frag tail, text = frag ++ tail ->
     buf_wf (set_off (off db + len frag) db') /\ contents (set_off (off db + len frag) db') = contents db ++ frag).
Proof.
  intros Hw Hl db'. pose proof (wf_off db Hw). pose proof (wf_write db (off db) text Hw ltac:(lia) Hl) as Hw'.
  assert (take (Z.to_nat (off db)) (mem db) = contents db) as Hc by done.
  split_and!; try done.
  - unfold contents, db'. cbn. unfold mem_write. rewrite Hc, <- (contents_len db Hw). apply take_len_app.
  - intros frag tail ->. rewrite len_app in Hl. pose proof (len_nonneg frag). pose proof (len_nonneg tail). split.
    + destruct Hw'. split; cbn in *; (done || lia).
    + unfold contents, db'. cbn. unfold mem_write. rewrite Hc.
      replace (off db + len frag) with (len (contents db ++ frag)) by (by rewrite len_app, (contents_len db Hw)).
      rewrite <- app_assoc, (app_assoc (contents db)). apply take_len_app.
Qed.

Definition accepts_data (tls : ptls_t) : Prop :=
  is_post_handshake (state tls) = true \/ state tls = PTLS_STATE_SERVER_EXPECT_END_OF_EARLY_DATA.

Lemma handle_plain_data cb type frag db c :
  let '(ret, db', c') := handle_plain_record cb type frag db c in
  db' = db \/ (type = PTLS_CONTENT_TYPE_APPDATA /\ ret = 0 /\ accepts_data (cn_tls c) /\
               db' = set_off (off db + len frag) db /\ dec (cn_tls c') = dec (cn_tls c)).
Proof.
  unfold handle_plain_record, accepts_data.
  destruct (negb (base _ =? 0) || _).
  { destruct (handle_handshake_record _ _ _ _). by left. }
  destruct (Z.eqb_spec type PTLS_CONTENT_TYPE_APPDATA) as [->|].
  2:{ destruct (_ =? PTLS_CONTENT_TYPE_ALERT); by left. }
  destruct (is_post_handshake _); [right; by split_and!; try left|].
  destruct (bool_decide_reflect (state (cn_tls c) = PTLS_STATE_SERVER_EXPECT_END_OF_EARLY_DATA)); [|by left].
  destruct (bool_decide _); [right; by split_and!; try right|by left].
Qed.

(** The record decrypted, whatever it was: the data that comes out was authenticated. *)
Lemma handle_record_data cb r db c a :
  aead_ok (aead_algo a) -> buf_wf db -> tx db = 0 -> aead (dec (cn_tls c)) = Some a ->
  len (fragment r) = rec_length r ->
  let '(ret, db', c') := handle_record cb r db c in
  buf_wf db' /\ tx db' = 0 /\
  (contents db' = contents db \/
   exists data pad,
     contents db' = contents db ++ data /\ ret = 0 /\ accepts_data (cn_tls c) /\
     dec (cn_tls c') = advance 1 (dec (cn_tls c)) /\
     rec_type r = PTLS_CONTENT_TYPE_APPDATA /\
     ptls_aead_decrypt a (fragment r) (seq (dec (cn_tls c))) (build_aad (len (fragment r)))
       = Some (data ++ [PTLS_CONTENT_TYPE_APPDATA] ++ replicate pad 0)).
Proof.
  intros Ha Hw Ht Hd Hlen. unfold handle_record. rewrite Hd.
  destruct (Z.eqb_spec (rec_type r) PTLS_CONTENT_TYPE_ALERT) as [E|].
  { pose proof (handle_plain_data cb (rec_type r) (fragment r) db c) as Hp.
    destruct (handle_plain_record _ _ _ _ _) as [[ret db'] c']. rewrite E in Hp. destruct Hp as [->|[Hp _]]; [auto|done]. }
  destruct (Z.eqb_spec (rec_type r) PTLS_CONTENT_TYPE_APPDATA) as [Et|]; cbn [negb]; [|auto].
  pose proof (len_nonneg (fragment r)).
  pose proof (reserve_aligned_cases (rec_length r) 0 0 db Hw ltac:(lia) ltac:(lia)) as Hres. unfold reserve.
  destruct (reserve_aligned _ 0 0 db) as [[[]|e] db1].
  2:{ destruct Hres as (-> & _). auto. }
  destruct Hres as (Hw1 & Hc1 & Ho1 & Ht1 & _ & Hcap & _). unfold aead_decrypt.
  destruct (ptls_aead_decrypt a (fragment r) _ _) as [text|] eqn:Hopen.
  2:{ destruct (skips_early_data _); [destruct (server_skip_early_data _ _)|]; (split; [done|split; [congruence|by left]]). }
  pose proof (open_len _ Ha _ _ _ _ _ Hopen) as Hl. pose proof (tag_size_range _ Ha).
  destruct (write_after db1 text Hw1) as (Hw2 & Ht2 & Ho2 & Hc2 & Happ); [lia|].
  set (db2 := set_mem _ db1) in *. set (c2 := on_tls _ c).
  pose proof (strip_padding_rev text) as Hs. destruct (strip_padding (rev text)) as [|type rf].
  { split; [done|]. split; [congruence|]. left. congruence. }
  destruct Hs as (_ & pad & Etext). pose proof (handle_plain_data cb type (rev rf) db2 c2) as Hp.
  destruct (handle_plain_record _ _ _ _ _) as [[ret db'] c'].
  destruct Hp as [->|(-> & -> & Hacc & -> & Hdec)].
  - split; [done|]. split; [congruence|]. left. congruence.
  - destruct (Happ (rev rf) _ Etext) as [Hw3 Hc3]. rewrite Ho2. split; [done|]. split; [cbn; congruence|].
    right. exists (rev rf), pad. rewrite Hc3, Hc1. split_and!; [done|done|done|by rewrite Hdec|done|by rewrite <- Etext].
Qed.

(** The fragment of a parsed record has the length its header says. *)
Lemma stream_record_fragment s r :
  is_bytes s -> stream_record s = Complete r -> len (fragment r) = rec_length r.
Proof.
  intros Hb. unfold stream_record. destruct (_ =? 0); [done|]. destruct (negb _); [done|].
  destruct (Z.ltb_spec (len s) 5); [done|]. destruct (parse_record_header s) as [h|] eqn:Hh; [|done].
  destruct (Z.leb_spec (5 + rec_length h) (len s)); [|done]. intros [= <-]. cbn.
  pose proof (header_length_nonneg _ _ Hb Hh). rewrite len_take, len_drop. lia.
Qed.

(** C6: only authentic data is delivered.  Whatever bytes arrive, in a TLS 1.3 connection with a
    decryption key, either the data already in the output buffer is unchanged, or it is extended by
    exactly the text that the AEAD opened -- from the record the input completes, under the current
    sequence number and with the record header as additional data -- whose content type is
    application data; the state then allows application data, and the sequence number has advanced. *)
Theorem only_authentic_data cb input db c a p :
  aead_ok (aead_algo a) -> buf_wf db -> tx db = 0 -> aead (dec (cn_tls c)) = Some a ->
  input <> [] -> is_bytes (p ++ input) -> pending (recv_rec (cn_tls c)) p ->
  let '(ret, consumed, db', c') := handle_input cb input db c in
  contents db' = contents db \/
  exists r data pad,
    stream_record (p ++ input) = Complete r /\ rec_type r = PTLS_CONTENT_TYPE_APPDATA /\
    ptls_aead_decrypt a (fragment r) (seq (dec (cn_tls c))) (build_aad (rec_length r))
      = Some (data ++ [PTLS_CONTENT_TYPE_APPDATA] ++ replicate pad 0) /\
    contents db' = contents db ++ data /\ ret = 0 /\ accepts_data (cn_tls c) /\
    dec (cn_tls c') = advance 1 (dec (cn_tls c)).
Proof.
  intros Ha Hw Ht Hd Hin Hb Hp. unfold handle_input.
  pose proof (parse_record_stream input _ p Hin Hb Hp) as Hs.
  destruct (parse_record input _) as [[res consumed] rb]. destruct res as [r|e]; [|by left].
  assert (stream_record (p ++ input) = Complete r) as Hr.
  { destruct Hs as [Hs|]; [|done]. destruct (stream_record _); naive_solver. }
  pose proof (stream_record_fragment _ _ Hb Hr) as Hl.
  destruct (_ =? PTLS_CONTENT_TYPE_CHANGE_CIPHER_SPEC).
  { destruct (negb _ && _ && _); [|by left]. by left. }
  pose proof (handle_record_data cb r db (on_tls (set_recv_rec rb) c) a Ha Hw Ht Hd Hl) as Hx.
  destruct (handle_record _ _ _ _) as [[ret db'] c']. destruct Hx as (_ & _ & [?|Hx]); [by left|right].
  destruct Hx as (data & pad & ? & ? & ? & ? & ? & Hopen). rewrite Hl in Hopen. exists r, data, pad. by split_and!.
Qed.

(** The record on the wire, as the receiver parses it. *)
Lemma stream_record13 a chunk type tp more :
  aead_ok (aead_algo a) -> is_bytes chunk -> is_byte type -> len chunk <= PTLS_MAX_PLAINTEXT_RECORD_SIZE ->
  let body := sealed13 a type chunk tp in
  is_bytes (record13 a type chunk tp) /\ len (record13 a type chunk tp) = 5 + len body /\
  stream_record (record13 a type chunk tp ++ more)
  = Complete (mkRecord PTLS_CONTENT_TYPE_APPDATA 0x303 (len body) body).
Proof.
  intros Ha Hb Hty Hl body. pose proof (sealed13_len a type chunk tp Ha) as Hlen. fold body in Hlen.
  pose proof (tag_size_range _ Ha). pose proof (len_nonneg chunk). pose proof (len_nonneg more).
  assert (is_bytes body) as Hbody.
  { apply (seal_bytes _ Ha). apply Forall_app. split; [done|]. by apply Forall_singleton. }
  unfold record13. fold body. rewrite be_encode_2. cbn [app].
  unfold PTLS_MAX_PLAINTEXT_RECORD_SIZE in *.
  split_and!.
  - repeat apply Forall_cons_2; try done; auto with zpico; by apply (bool_decide_unpack _).
  - rewrite !len_cons. lia.
  - unfold stream_record. rewrite !len_cons, len_app.
    rewrite (proj2 (Z.eqb_neq _ 0)) by lia. cbn [byte_at nth known_type]. change (negb _) with false. cbn iota.
    rewrite (proj2 (Z.ltb_ge _ 5)) by lia.
    unfold parse_record_header. rewrite !ntoh16_drop. cbn [byte_at nth Nat.add].
    assert (Z.lor (Z.shiftl (u8 (Z.shiftr (len body) 8)) 8) (u8 (len body)) = len body) as ->.
    { pose proof (ntoh16_be (u8 (Z.shiftr (len body) 8)) (u8 (len body)) []) as E. unfold ntoh16 in E.
      cbn [byte_at nth] in E. rewrite E by auto with zpico. rewrite <- be_encode_2, be_decode_encode.
      apply Z.mod_small. cbn. lia. }
    rewrite (proj2 (Z.ltb_ge _ (len body))).
    2:{ cbn. unfold PTLS_MAX_ENCRYPTED_RECORD_SIZE. lia. }
    cbn [rec_length]. rewrite (proj2 (Z.leb_le _ _)) by lia.
    unfold with_fragment. cbn [rec_type rec_version rec_length ]. change (drop 5 _) with (body ++ more). by rewrite take_len_app.
Qed.

(** A connection that receives application data with the key [d], between messages. *)
Record receiving (d : ptls_aead_context_t) (tls : ptls_t) : Prop := {
  rcv_state : is_post_handshake (state tls) = true;
  rcv_tls13 : tls12 (dec tls) = false;
  rcv_aead : aead (dec tls) = Some d;
  rcv_mess : base (recv_mess tls) = 0;
}.

(** What one record does to the receiver. *)
Definition received (rb : ptls_buffer_t) (c : conn) : conn :=
  on_tls (λ t, set_recv_rec rb (set_dec (advance 1 (dec t)) t)) c.

Lemma received_receiving d rb c : receiving d (cn_tls c) -> receiving d (cn_tls (received rb c)).
Proof. intros []. by split. Qed.

Lemma handle_record_sealed cb a d chunk tp db c :
  aead_ok (aead_algo a) -> opens d a -> receiving d (cn_tls c) -> seq (dec (cn_tls c)) = seq tp ->
  buf_wf db -> tx db = 0 ->
  let body := sealed13 a PTLS_CONTENT_TYPE_APPDATA chunk tp in
  let '(ret, db', c') := handle_record cb (mkRecord PTLS_CONTENT_TYPE_APPDATA 0x303 (len body) body) db c in
  ret = 0 /\ buf_wf db' /\ tx db' = 0 /\ contents db' = contents db ++ chunk /\
  (exists rb, base rb = 0 /\ c' = received rb c) \/
  ret = PTLS_ERROR_NO_MEMORY.
Proof.
  intros Ha (Ea & Ek & Ei) [Hst H12 Hd Hrm] Hseq Hw Ht body.
  assert (len body = len chunk + 1 + tag_size (aead_algo a)) as Hlen by (by apply sealed13_len).
  pose proof (tag_size_range _ Ha). pose proof (len_nonneg chunk).
  unfold handle_record. rewrite Hd. cbn [rec_type rec_length fragment].
  change (PTLS_CONTENT_TYPE_APPDATA =? PTLS_CONTENT_TYPE_ALERT) with false. cbn iota.
  rewrite Z.eqb_refl. cbn [negb].
  pose proof (reserve_aligned_cases (len body) 0 0 db Hw ltac:(lia) ltac:(lia)) as Hres. unfold reserve.
  destruct (reserve_aligned (len body) 0 0 db) as [[[]|e] db1].
  2:{ right. destruct Hres as (_ & [[? _]|(_ & -> & _)]); congruence. }
  destruct Hres as (Hw1 & Hc1 & Ho1 & Ht1 & _ & Hcap & _). unfold aead_decrypt, ptls_aead_decrypt.
  assert (open (aead_algo d) (aead_key d) (aead_nonce d (seq (dec (cn_tls c)))) (build_aad (len body)) body
    = Some (chunk ++ [PTLS_CONTENT_TYPE_APPDATA])) as ->.
  { unfold body at 2, sealed13, ptls_aead_encrypt, aead_nonce. rewrite Ea, Ek, Ei, Hseq, Hlen. apply (open_seal _ Ha). }
  rewrite rev_app_distr.
  destruct (write_after db1 (chunk ++ [PTLS_CONTENT_TYPE_APPDATA]) Hw1) as (Hw2 & Ht2 & Ho2 & Hc2 & Happ).
  { rewrite len_app. change (len [_]) with 1. lia. }
  set (db2 := set_mem _ db1) in *. change (strip_padding (rev [PTLS_CONTENT_TYPE_APPDATA] ++ rev chunk)) with (PTLS_CONTENT_TYPE_APPDATA :: rev chunk).
  cbn iota. rewrite rev_involutive. unfold handle_plain_record. cbn [cn_tls on_tls recv_mess set_dec state].
  rewrite Hrm, Hst. change (negb (0 =? 0) || _) with false. rewrite Z.eqb_refl. cbn iota.
  destruct (Happ chunk _ eq_refl) as [Hw3 Hc3]. left. split; [done|]. rewrite Ho2. split; [done|].
  split; [cbn; congruence|]. split; [congruence|]. exists (ptls_buffer_dispose (recv_rec (cn_tls c))). split; [done|].
  unfold received, on_tls. cbn. f_equal.
Qed.

Lemma handle_input_record13 cb a d chunk tp more db c :
  aead_ok (aead_algo a) -> opens d a -> receiving d (cn_tls c) -> base (recv_rec (cn_tls c)) = 0 ->
  seq (dec (cn_tls c)) = seq tp -> buf_wf db -> tx db = 0 -> is_bytes chunk -> is_bytes more -> len chunk <= PTLS_MAX_PLAINTEXT_RECORD_SIZE ->
  let record := record13 a PTLS_CONTENT_TYPE_APPDATA chunk tp in
  let '(ret, consumed, db', c') := handle_input cb (record ++ more) db c in
  ret = 0 /\ consumed = len record /\ buf_wf db' /\ tx db' = 0 /\ contents db' = contents db ++ chunk /\
  (exists rb, base rb = 0 /\ c' = received rb c) \/
  ret = PTLS_ERROR_NO_MEMORY.
Proof.
  intros Ha Ho Hr Hrec Hseq Hw Ht Hb Hmore Hl record.
  destruct (stream_record13 a chunk PTLS_CONTENT_TYPE_APPDATA tp more Ha Hb ltac:(done) Hl) as (Hrb & Hrl & Hs).
  fold record in Hrb, Hrl, Hs. unfold handle_input.
  assert (record ++ more <> []) as Hne by done.
  assert (is_bytes (record ++ more)) as Hbytes by (by apply Forall_app).
  assert (pending (recv_rec (cn_tls c)) []) as Hp by (by left).
  pose proof (parse_record_stream (record ++ more) _ [] Hne Hbytes Hp) as Hparse. cbn [app] in Hparse.
  destruct (parse_record (record ++ more) _) as [[res consumed] rb]. rewrite Hs in Hparse.
  destruct Hparse as [[-> ->]| ->]; [|by right]. cbn [rec_type rec_length].
  change (PTLS_CONTENT_TYPE_APPDATA =? PTLS_CONTENT_TYPE_CHANGE_CIPHER_SPEC) with false. cbn iota.
  pose proof (handle_record_sealed cb a d chunk tp db (on_tls (set_recv_rec rb) c) Ha Ho ltac:(by destruct Hr)
    Hseq Hw Ht) as Hh. cbn zeta in Hh.
  destruct (handle_record _ _ _ _) as [[ret db'] c'].
  destruct Hh as [(-> & Hw' & Ht' & Hc & rb' & Hrb' & ->)| ->]; [left|by right]. split; [done|].
  rewrite Hrl, len_nil. split; [lia|]. split; [done|]. split; [done|]. split; [done|]. by exists rb'.
Qed.

(** One call of [ptls_receive] on a stream that starts with a record of application data. *)
Lemma ptls_receive_record cb a d chunk tp more db c :
  aead_ok (aead_algo a) -> opens d a -> receiving d (cn_tls c) -> base (recv_rec (cn_tls c)) = 0 ->
  seq (dec (cn_tls c)) = seq tp -> buf_wf db -> tx db = 0 -> is_bytes chunk -> is_bytes more ->
  0 < len chunk <= PTLS_MAX_PLAINTEXT_RECORD_SIZE ->
  let '(ret, rest, db', c') :=
    ptls_receive cb (record13 a PTLS_CONTENT_TYPE_APPDATA chunk tp ++ more) db c in
  ret = 0 /\ rest = more /\ buf_wf db' /\ tx db' = 0 /\ contents db' = contents db ++ chunk /\
  (exists rb, base rb = 0 /\ c' = received rb c) \/
  ret = PTLS_ERROR_NO_MEMORY.
Proof.
  intros Ha Ho Hr Hrec Hseq Hw Ht Hb Hmore Hl. set (record := record13 a _ chunk tp).
  pose proof (handle_input_record13 cb a d chunk tp more db c Ha Ho Hr Hrec Hseq Hw Ht Hb Hmore ltac:(lia)) as Hi.
  cbn zeta in Hi. fold record in Hi. unfold ptls_receive, buffer_require_direction.
  assert (state_value (state (cn_tls c)) <? state_value PTLS_STATE_SERVER_EXPECT_END_OF_EARLY_DATA = false) as ->.
  { destruct Hr as [Hst _ _ _]. by destruct (state (cn_tls c)). }
  rewrite Ht. change (0 =? 0) with true. cbn [guard_err].
  assert (0 < len (record ++ more)) as Hpos.
  { unfold record, record13. rewrite !len_app. pose proof (len_nonneg more). change (len [_; _; _]) with 3.
    pose proof (len_nonneg (be_encode 2 (len (sealed13 a PTLS_CONTENT_TYPE_APPDATA chunk tp)))).
    pose proof (len_nonneg (sealed13 a PTLS_CONTENT_TYPE_APPDATA chunk tp)). lia. }
  destruct (length (record ++ more)) as [|fuel] eqn:El; [unfold len in Hpos; lia|].
  cbn [receive_loop]. rewrite (proj2 (Z.eqb_neq (len _) 0)), !Z.eqb_refl by lia. cbn [negb andb].
  destruct Hr as [_ -> _ _]. destruct (handle_input cb (record ++ more) db c) as [[[ret consumed] db'] c'].
  destruct Hi as [(-> & -> & Hw' & Ht' & Hc & Hex)| ->].
  - rewrite drop_len_app.
    assert (off db <> off db') as Hoff.
    { rewrite <- (contents_len db Hw), <- (contents_len db' Hw'), Hc, len_app. lia. }
    change (0 =? PTLS_ERROR_IN_PROGRESS) with false. cbn iota.
    destruct fuel; cbn [receive_loop]; rewrite (proj2 (Z.eqb_neq (off db) (off db')) Hoff), andb_false_r; by left.
  - by destruct fuel; right.
Qed.

(** An application that calls [ptls_receive] until its input is used up. *)
Fixpoint receive_all (calls : nat) (cb : handler) (input : bytes) (db : ptls_buffer_t) (c : conn)
    : Z * ptls_buffer_t * conn :=
  match calls, input with
  | S calls, _ :: _ =>
      let '(ret, rest, db, c) := ptls_receive cb input db c in
      if ret =? 0 then receive_all calls cb rest db c else (ret, db, c)
  | _, _ => (0, db, c)
  end.

Lemma records13_bytes a chunks tp :
  aead_ok (aead_algo a) -> Forall is_bytes chunks ->
  Forall (λ c, 0 < len c <= PTLS_MAX_PLAINTEXT_RECORD_SIZE) chunks ->
  is_bytes (records13 a PTLS_CONTENT_TYPE_APPDATA chunks tp).
Proof.
  intros Ha Hb. revert tp. induction Hb as [|chunk chunks Hc Hb IH]; intros tp Hl; [done|].
  apply Forall_cons in Hl as [Hl1 Hl]. cbn [records13]. apply Forall_app. split; [|by apply IH].
  by destruct (stream_record13 a chunk PTLS_CONTENT_TYPE_APPDATA tp [] Ha Hc ltac:(done) ltac:(lia)).
Qed.

(** The records a sender produces give back the data. *)
Lemma receive_records cb a d chunks tp db c :
  aead_ok (aead_algo a) -> opens d a -> Forall is_bytes chunks ->
  Forall (λ c, 0 < len c <= PTLS_MAX_PLAINTEXT_RECORD_SIZE) chunks ->
  receiving d (cn_tls c) -> base (recv_rec (cn_tls c)) = 0 ->
  seq (dec (cn_tls c)) = seq tp -> buf_wf db -> tx db = 0 -> 0 <= seq tp < 2 ^ 64 ->
  let '(ret, db', c') := receive_all (length chunks) cb (records13 a PTLS_CONTENT_TYPE_APPDATA chunks tp) db c in
  ret = 0 /\ contents db' = contents db ++ concat chunks /\
  seq (dec (cn_tls c')) = seq (advance (len chunks) tp) \/
  ret = PTLS_ERROR_NO_MEMORY.
Proof.
  intros Ha Ho Hb. revert tp db c.
  induction Hb as [|chunk chunks Hc Hb IH]; intros tp db c Hl Hr Hrec Hseq Hw Ht Hrange.
  { cbn [receive_all length records13 concat]. left. split; [done|]. split; [by rewrite app_nil_r|].
    change (len []) with 0. by rewrite advance_0. }
  apply Forall_cons in Hl as [Hl1 Hl]. cbn [length records13 concat].
  pose proof (ptls_receive_record cb a d chunk tp (records13 a PTLS_CONTENT_TYPE_APPDATA chunks (advance 1 tp)) db c
    Ha Ho Hr Hrec Hseq Hw Ht Hc ltac:(by apply records13_bytes) Hl1) as Hone.
  set (input := record13 _ _ _ _ ++ _) in *. assert (input <> []) by done. clearbody input.
  destruct input as [|x l]; [done|]. cbn [receive_all]. destruct (ptls_receive cb (x :: l) db c) as [[[ret rest] db'] c'].
  destruct Hone as [(-> & -> & Hw' & Ht' & Hcont & rb & Hrb & ->)| ->]; [|by right]. rewrite Z.eqb_refl.
  specialize (IH (advance 1 tp) db' (received rb c) Hl (received_receiving d rb c Hr) Hrb).
  assert (seq (dec (cn_tls (received rb c))) = seq (advance 1 tp)) as Hseq'.
  { cbn. by rewrite Hseq. }
  specialize (IH Hseq' Hw' Ht' ltac:(apply u64_range)).
  destruct (receive_all _ _ _ _ _) as [[ret' db''] c'']. destruct IH as [(-> & Hcc & Hss)|]; [left|by right].
  split; [done|]. split; [by rewrite Hcc, Hcont, app_assoc|]. by rewrite Hss, advance_advance, len_cons.
Qed.

End Data.

(** ** Witnesses *)

(** A record of two bytes in three pieces, the last of which goes on with the next record. *)
Definition toy_segments : list bytes := [[23; 3]; [3; 0; 2; 65]; [66; 22; 3]].

Lemma record_parsing_ignores_segmentation_witness :
  let '(res, rest, later) := @feed bump_allocator toy_segments null_buffer in
  res = Ok (mkRecord 23 0x303 2 [65; 66]) /\ [22; 3] = rest ++ concat later \/ res = Err PTLS_ERROR_NO_MEMORY.
Proof.
  apply (@record_parsing_ignores_segmentation bump_allocator toy_segments null_buffer []).
  - repeat constructor; discriminate.
  - apply (bool_decide_unpack _). vm_compute. exact I.
  - by left.
Defined.

Definition toy_conn (server : bool) : conn := mkConn (toy_tls server) (ptls_buffer_init 64 [] 1) [] None.

(** Takes every message, and counts them in a field. *)
Definition toy_handler : handler :=
  λ m e c, (if e then 0 else PTLS_ERROR_IN_PROGRESS, on_tls (λ t, set_key_update_requests (key_update_requests t + 1) t) c).

(** Two complete messages, and the start of a third. *)
Definition toy_messages : bytes := [20; 0; 0; 1; 7] ++ [24; 0; 0; 0] ++ [4; 0].


Definition toy_output : ptls_buffer_t := ptls_buffer_init 64 [0; 0; 0; 0] 0.

Lemma toy_output_wf : buf_wf toy_output.
Proof. apply buffer_init_wf; vm_compute; auto; discriminate. Qed.

Definition toy_record : bytes := record13 toy_ctx PTLS_CONTENT_TYPE_APPDATA (str "hi") (toy_tp 7).

Lemma only_authentic_data_witness :
  let '(ret, consumed, db', c') := @handle_input bump_allocator toy_handler toy_record toy_output (toy_conn true) in
  contents db' = contents toy_output \/
  exists r data pad,
    stream_record toy_record = Complete r /\ rec_type r = PTLS_CONTENT_TYPE_APPDATA /\
    ptls_aead_decrypt toy_ctx (fragment r) 7 (build_aad (rec_length r))
      = Some (data ++ [PTLS_CONTENT_TYPE_APPDATA] ++ replicate pad 0) /\
    contents db' = contents toy_output ++ data /\ ret = 0 /\ accepts_data (toy_tls true) /\
    dec (cn_tls c') = advance 1 (toy_tp 7).
Proof.
  apply (@only_authentic_data bump_allocator toy_handler toy_record toy_output (toy_conn true) toy_ctx []);
    [apply toy_aead_ok|apply toy_output_wf|reflexivity|reflexivity|discriminate| |by left].
  apply (bool_decide_unpack _). vm_compute. exact I.
Defined.
