(* ===== verification/Conn.v ===== *)
(** * Conn: keys, sending, and the life of a connection after the handshake ([lib/picotls.c])

    Operations on a connection together with the buffer it writes to ([conn]), as computations that
    may fail with an error code.  The callbacks that only log are left out. *)

From S2P Require Import Prelude Constants Wire Buffer Crypto KeySchedule Tls Record Receive.

(** ** State access *)

#[global] Instance conn_has_buffer : HasBuffer conn.
Proof.
  by refine {| get_buf := cn_send; put_buf := λ b c, mkConn (cn_tls c) b (cn_epoch_offsets c) (cn_properties c) |}; [|intros []|].
Defined.

(** An operation of the connection object alone. *)
Definition tls_op {A} (m : M ptls_t A) : M conn A :=
  λ c, let '(r, t) := m (cn_tls c) in (r, mkConn t (cn_send c) (cn_epoch_offsets c) (cn_properties c)).

(** An operation of the record layer: the send buffer and [traffic_protection.enc]. *)
Definition record_op {A} (m : M rec_env A) : M conn A :=
  λ c, let '(r, e) := m (mkRec (cn_send c) (enc (cn_tls c))) in
       (r, mkConn (set_enc (rec_enc e) (cn_tls c)) (rec_buf e) (cn_epoch_offsets c) (cn_properties c)).

(** The code a computation returns. *)
Definition code {A} (r : result A) : Z := match r with Ok _ => 0 | Err e => e end.

(** [is_enc ? &tls->traffic_protection.enc : &tls->traffic_protection.dec] *)
Definition get_tp (is_enc : bool) (tls : ptls_t) : st_ptls_traffic_protection_t :=
  if is_enc then enc tls else dec tls.
Definition on_tp (is_enc : bool) (f : st_ptls_traffic_protection_t -> st_ptls_traffic_protection_t)
    (tls : ptls_t) : ptls_t :=
  if is_enc then set_enc (f (enc tls)) tls else set_dec (f (dec tls)) tls.

(** [tls->key_schedule->...]: a NULL pointer stops the process. *)
Definition get_schedule : M ptls_t ptls_key_schedule_t :=
  s ← gets key_schedule; match s with Some s => mret s | None => fail ABORTED end.
Definition get_suite : M ptls_t ptls_cipher_suite_t :=
  s ← gets cipher_suite; match s with Some s => mret s | None => fail ABORTED end.

Definition write_secret (x : bytes) (tp : st_ptls_traffic_protection_t) : st_ptls_traffic_protection_t :=
  set_tp_secret (mem_write (tp_secret tp) 0 x) tp.

Section Keys.
Context `{Allocator}.

(** ** Traffic keys *)

(* src lib/picotls.c:1696-1738 setup_traffic_protection *)
Definition setup_traffic_protection (is_enc : bool) (secret_label : option bytes) (ep sq : Z)
    (skip_notify : bool) : M ptls_t unit :=
  _ ← match secret_label with
      | None => mret ()
      | Some label =>
          sched ← get_schedule;
          secret ← lift (derive_secret sched label);
          modify (on_tp is_enc (write_secret secret))
      end;
  _ ← modify (on_tp is_enc (set_epoch ep));
  _ ← get_schedule; (* [log_secret] reads it *)
  c ← gets ctx;
  secret ← gets (λ t, tp_secret (get_tp is_enc t));
  match update_traffic_key c with
  | Some cb =>
      if skip_notify then mret ()
      else let ret := cb is_enc ep secret in if ret =? 0 then mret () else fail ret
  | None =>
      suite ← get_suite;
      match ptls_aead_new (cs_aead suite) (cs_hash suite) is_enc
              (take (Z.to_nat (digest_size (cs_hash suite))) secret) (hkdf_label_prefix__obsolete c) with
      | None => _ ← modify (on_tp is_enc (set_aead None)); fail PTLS_ERROR_NO_MEMORY
      | Some a => modify (on_tp is_enc (λ tp, set_seq sq (set_aead (Some a) tp)))
      end
  end.

(* src lib/picotls.c:1740-1752 commission_handshake_secret *)
Definition commission_handshake_secret : M ptls_t unit :=
  server ← gets is_server;
  let is_enc := negb server in
  pending ← gets pending_handshake_secret;
  match pending with
  | None => fail ABORTED
  | Some secret =>
      _ ← modify (λ t, set_pending_handshake_secret None (on_tp is_enc (write_secret secret) t));
      setup_traffic_protection is_enc None 2 0 true
  end.

(* src lib/picotls.c:1519-1538 derive_exporter_secret *)
Definition derive_exporter_secret (is_early : bool) : M ptls_t unit :=
  c ← gets ctx;
  if negb (use_exporter c) then mret ()
  else
    slot ← gets (if is_early then exporter_early else exporter_one_rtt);
    _ ← lift (guard_err (bool_decide (slot = None)) ABORTED);
    sched ← get_schedule;
    match malloc (digest_size (algo0 sched)) with
    | None => fail PTLS_ERROR_NO_MEMORY
    | Some (_, m) =>
        let set := if is_early then set_exporter_early else set_exporter_one_rtt in
        _ ← modify (set (Some m));
        secret ← lift (derive_secret sched (if is_early then str "e exp master" else str "exp master"));
        modify (set (Some secret))
    end.

(** The array that receives the new secret is not initialised: [stack] is what its tail holds. *)
(* src lib/picotls.c:5091-5107 update_traffic_key *)
Definition do_update_traffic_key (stack : bytes) (is_enc : bool) : M ptls_t unit :=
  sched ← get_schedule;
  let hash := algo0 sched in
  old ← gets (λ t, tp_secret (get_tp is_enc t));
  secret ← lift (ptls_hkdf_expand_label hash (digest_size hash) (take (Z.to_nat (digest_size hash)) old)
                   (str "traffic upd") [] None);
  let array := secret ++ drop (length secret) stack in
  _ ← modify (on_tp is_enc (set_tp_secret array));
  setup_traffic_protection is_enc None 3 0 true.

(* src lib/picotls.c:5109-5135 handle_key_update *)
Definition handle_key_update (stack : bytes) (message : bytes) : M ptls_t unit :=
  let src := drop (Z.to_nat PTLS_HANDSHAKE_HEADER_SIZE) message in
  if negb (len src =? 1) || (1 <? byte_at src 0) then fail PTLS_ALERT_DECODE_ERROR
  else
    _ ← do_update_traffic_key stack false;
    if negb (byte_at src 0 =? 0) then
      t ← gets id;
      match update_traffic_key (ctx t) with
      | Some _ => fail PTLS_ALERT_UNEXPECTED_MESSAGE
      | None =>
          if tx_detached t then
            if key_update_requests t =? UINT32_MAX then fail PTLS_ALERT_INTERNAL_ERROR
            else modify (set_key_update_requests (key_update_requests t + 1))
          else modify (set_needs_key_update true)
      end
    else mret ().

(** ** Finished *)

(* src lib/picotls.c:1889-1909 verify_finished *)
Definition verify_finished (message : bytes) : M ptls_t unit :=
  sched ← get_schedule;
  let size := digest_size (algo0 sched) in
  if negb (PTLS_HANDSHAKE_HEADER_SIZE + size =? len message) then fail PTLS_ALERT_DECODE_ERROR
  else
    secret ← gets (λ t, tp_secret (dec t));
    verify_data ← lift (calc_verify_data sched secret);
    if negb (mem_equal (take (Z.to_nat size) (drop (Z.to_nat PTLS_HANDSHAKE_HEADER_SIZE) message))
               (take (Z.to_nat size) verify_data))
    then fail PTLS_ALERT_HANDSHAKE_FAILURE else mret ().

Definition update_hash (msg : bytes) : M ptls_t unit :=
  sched ← get_schedule;
  modify (set_key_schedule (Some (ptls__key_schedule_update_hash msg false sched))).

(* src lib/picotls.c:5058-5071 server_handle_end_of_early_data *)
Definition server_handle_end_of_early_data (message : bytes) : M ptls_t unit :=
  _ ← commission_handshake_secret;
  _ ← update_hash message;
  _ ← modify (set_state PTLS_STATE_SERVER_EXPECT_FINISHED);
  fail PTLS_ERROR_IN_PROGRESS.

(* src lib/picotls.c:5073-5089 server_handle_finished *)
Definition server_handle_finished (message : bytes) : M ptls_t unit :=
  _ ← verify_finished message;
  _ ← modify (λ t, set_pending_traffic_secret (replicate (Z.to_nat PTLS_MAX_DIGEST_SIZE) 0)
                     (set_dec (set_tp_secret (pending_traffic_secret t) (dec t)) t));
  _ ← setup_traffic_protection false None 3 0 false;
  _ ← update_hash message;
  modify (set_state PTLS_STATE_SERVER_POST_HANDSHAKE).

End Keys.

(** ** Emitting messages

    What writes handshake messages: the record layer, or a transport that has its own.  [em_begin]
    gives the offset that [em_commit] is given back; [em_records] is [begin_message == begin_record_message]. *)

(* src include/zpicotls.h:677-683 ptls_message_emitter_t *)
Record ptls_message_emitter_t := mkEmitter { em_begin : M conn Z; em_commit : Z -> M conn unit; em_records : bool }.

Section Emit.
Context `{Allocator}.

(* src lib/picotls.c:6129-6133 init_record_message_emitter *)
Definition record_emitter : ptls_message_emitter_t :=
  mkEmitter (record_op begin_record_message) (λ rec_start, record_op (commit_record_message rec_start)) true.

(* src lib/picotls.c:6909-6915 begin_raw_message *)
Definition begin_raw_message : M conn Z := gets (λ c, off (cn_send c)).

(** The offsets of the epochs from [epoch] on; each must be the offset the message started at. *)
(* src lib/picotls.c:6927-6930 epoch_offsets *)
Fixpoint move_offsets (n : nat) (ep start new : Z) (offsets : list Z) : option (list Z) :=
  match n with
  | O => Some offsets
  | S n =>
      match offsets !! Z.to_nat ep with
      | Some o => if o =? start then move_offsets n (ep + 1) start new (<[Z.to_nat ep := new]> offsets) else None
      | None => None
      end
  end.

(* src lib/picotls.c:6917-6935 commit_raw_message *)
Definition commit_raw_message (start_off : Z) : M conn unit :=
  c ← gets id;
  let ep := epoch (enc (cn_tls c)) in
  let ep := if (ep =? 1) && (byte_at (drop (Z.to_nat start_off) (mem (cn_send c))) 0 =? PTLS_HANDSHAKE_TYPE_CLIENT_HELLO)
            then 0 else ep in
  match move_offsets (Z.to_nat (5 - (ep + 1))) (ep + 1) start_off (off (cn_send c)) (cn_epoch_offsets c) with
  | None => fail ABORTED
  | Some offsets => modify (λ c, mkConn (cn_tls c) (cn_send c) offsets (cn_properties c))
  end.

Definition raw_emitter : ptls_message_emitter_t := mkEmitter begin_raw_message commit_raw_message false.

(** [hashed]: the message enters the transcript of [tls->key_schedule]; otherwise [key_sched] is NULL. *)
(* src include/zpicotls.h:1349-1358 ptls_buffer_push_message_body *)
Definition ptls_buffer_push_message_body (hashed : bool) (type : Z) (block : M conn unit) : M conn unit :=
  mess_start ← gets (λ c, off (cn_send c));
  _ ← ptls_buffer_push [type];
  _ ← ptls_buffer_push_block 3 block;
  if hashed then
    c ← gets id;
    match key_schedule (cn_tls c) with
    | None => mret ()
    | Some _ => tls_op (update_hash (drop (Z.to_nat mess_start) (contents (cn_send c))))
    end
  else mret ().

(* src include/zpicotls.h:1360-1368 ptls_push_message *)
Definition ptls_push_message (em : ptls_message_emitter_t) (hashed : bool) (type : Z) (block : M conn unit)
    : M conn unit :=
  start ← em_begin em;
  _ ← ptls_buffer_push_message_body hashed type block;
  em_commit em start.

(* src lib/picotls.c:1911-1926 send_finished *)
Definition send_finished (em : ptls_message_emitter_t) : M conn unit :=
  sched ← tls_op get_schedule;
  let size := digest_size (algo0 sched) in
  ptls_push_message em true PTLS_HANDSHAKE_TYPE_FINISHED
    (_ ← on_buf (reserve size 1);
     secret ← gets (λ c, tp_secret (enc (cn_tls c)));
     (* the transcript does not change while the message is built *)
     verify_data ← lift (calc_verify_data sched secret);
     on_buf (modify (append_reserved verify_data))).

(** ** Sending *)

Definition rewind (o : Z) (c : conn) : conn :=
  mkConn (cn_tls c) (set_off o (cn_send c)) (cn_epoch_offsets c) (cn_properties c).

(* src lib/picotls.c:6243-6261 update_send_key *)
Definition update_send_key (stack : bytes) (request_update : bool) : M conn unit :=
  λ c,
  let sendbuf_orig_off := off (cn_send c) in
  match (_ ← ptls_push_message record_emitter false PTLS_HANDSHAKE_TYPE_KEY_UPDATE
               (ptls_buffer_push [if request_update then 1 else 0]);
         tls_op (do_update_traffic_key stack true)) c with
  | (Ok _, c) => (Ok (), c)
  | (Err e, c) => (Err e, rewind sendbuf_orig_off c)
  end.

Definition KEY_UPDATE_SEQ : Z := 16777216.

(** The key update before data: by request, or when the key has sealed 2^24 records. *)
(* src lib/picotls.c:6482-6491 needs_key_update *)
Definition update_key_if_needed (stack : bytes) : M conn unit :=
  t ← gets cn_tls;
  _ ← (if (KEY_UPDATE_SEQ <=? seq (enc t)) && bool_decide (is_Some (key_schedule t))
       then tls_op (modify (set_needs_key_update true)) else mret ());
  t ← gets cn_tls;
  if needs_key_update t then
    _ ← update_send_key stack (key_update_send_request t);
    tls_op (modify (λ t, set_key_update_send_request false (set_needs_key_update false t)))
  else mret ().

Definition require_send_direction : M conn unit :=
  c ← gets id; lift (buffer_require_direction (cn_send c) 1).

(* src lib/picotls.c:6467-6494 ptls_send *)
Definition ptls_send (stack input : bytes) : M conn unit :=
  t ← gets cn_tls;
  if tx_detached t then fail PTLS_ERROR_NOT_AVAILABLE
  else
    _ ← lift (guard_err (bool_decide (is_Some (aead (enc t)))) ABORTED);
    _ ← require_send_direction;
    _ ← update_key_if_needed stack;
    t ← gets cn_tls;
    match aead (enc t) with
    | None => if len input =? 0 then mret () else fail ABORTED
    | Some a => record_op (buffer_push_encrypted_records a PTLS_CONTENT_TYPE_APPDATA input)
    end.

(* src lib/picotls.c:6496-6504 ptls_update_key *)
Definition ptls_update_key (request_update : bool) : M ptls_t unit :=
  t ← gets id;
  if tx_detached t then fail PTLS_ERROR_NOT_AVAILABLE
  else
    _ ← lift (guard_err (bool_decide (update_traffic_key (ctx t) = None)) ABORTED);
    modify (λ t, set_key_update_send_request request_update (set_needs_key_update true t)).

(** NULL [aead] is dereferenced. *)
(* src lib/picotls.c:6506-6517 ptls_get_record_overhead *)
Definition ptls_get_record_overhead (tls : ptls_t) : option Z :=
  if tx_detached tls then Some 0
  else
    a ← aead (enc tls);
    let algo := aead_algo a in
    Some (if tls12 (enc tls) then 5 + tls12_record_iv_size algo + tag_size algo else 6 + tag_size algo).

(* src lib/picotls.c:6519-6537 ptls_send_alert *)
Definition ptls_send_alert (level description : Z) : M conn unit :=
  c ← gets id;
  let rec_start := off (cn_send c) in
  if tx_detached (cn_tls c) then fail PTLS_ERROR_NOT_AVAILABLE
  else
    _ ← require_send_direction;
    _ ← record_op (buffer_push_record PTLS_CONTENT_TYPE_ALERT (ptls_buffer_push [level; description]));
    match aead (enc (cn_tls c)) with
    | Some a =>
        if state_value (state (cn_tls c)) <=? state_value PTLS_STATE_CLIENT_EXPECT_FINISHED then mret ()
        else record_op (buffer_encrypt_record a rec_start)
    | None => mret ()
    end.

(* src lib/picotls.c:6539-6576 ptls_export_secret *)
Definition ptls_export_secret (outlen : Z) (label context_value : bytes) (is_early : bool) (tls : ptls_t)
    : result bytes :=
  match key_schedule tls with
  | None => Err ABORTED
  | Some sched =>
      let algo := algo0 sched in
      match (if is_early then exporter_early tls else exporter_one_rtt tls) with
      | None =>
          if is_early then
            match state tls with
            | PTLS_STATE_CLIENT_HANDSHAKE_START | PTLS_STATE_SERVER_EXPECT_CLIENT_HELLO =>
                Err PTLS_ERROR_IN_PROGRESS
            | _ => Err PTLS_ERROR_NOT_AVAILABLE
            end
          else Err PTLS_ERROR_IN_PROGRESS
      | Some master_secret =>
          context_value_hash ← ptls_calc_hash algo context_value;
          derived_secret ← ptls_hkdf_expand_label algo (digest_size algo) master_secret label
                             (empty_digest algo) None;
          ptls_hkdf_expand_label algo outlen derived_secret (str "exporter") context_value_hash None
      end
  end.

End Emit.

(** ** A sending side of its own ([ptls_tx_t]) *)

Section Tx.
Context `{Allocator}.

(* src lib/picotls.c:570-579 duplicate_as_str *)
Definition duplicate_as_str (src : bytes) : option bytes :=
  match malloc (len src + 1) with Some _ => Some src | None => None end.

(** A NULL string stays NULL. *)
Definition duplicate_name (name : option bytes) : M ptls_t (option bytes) :=
  match name with
  | None => mret None
  | Some n => match duplicate_as_str (c_string n) with Some d => mret (Some d) | None => fail PTLS_ERROR_NO_MEMORY end
  end.

(** The detached object, or NULL with an error. *)
(* src lib/picotls.c:6277-6333 ptls_detach_tx *)
Definition ptls_detach_tx : M ptls_t ptls_t :=
  t ← gets id;
  if tx_detached t || bool_decide (is_Some (update_traffic_key (ctx t))) ||
     (negb (bool_decide (state t = PTLS_STATE_CLIENT_POST_HANDSHAKE)) &&
      negb (bool_decide (state t = PTLS_STATE_SERVER_POST_HANDSHAKE))) ||
     bool_decide (aead (enc t) = None)
  then fail PTLS_ERROR_NOT_AVAILABLE
  else
    match malloc sizeof_ptls_t with
    | None => fail PTLS_ERROR_NO_MEMORY
    | Some _ =>
        name ← duplicate_name (server_name t);
        proto ← duplicate_name (negotiated_protocol t);
        sched ← (if negb (tls12 (enc t)) then
                   match key_schedule_new (cipher_suite t) [] false with
                   | None => fail PTLS_ERROR_NO_MEMORY
                   | Some s => mret (Some s)
                   end
                 else mret None);
        let detached :=
          mkTls (ctx t) (state t) null_buffer null_buffer sched no_traffic_protection (enc t) name proto
            None (cipher_suite t) (client_random t) None None no_ech (is_server t)
            (is_psk_handshake t) false (needs_key_update t) (key_update_send_request t) false 0 0
            [] None false false None (replicate (Z.to_nat PTLS_MAX_DIGEST_SIZE) 0) 0 0 None None in
        _ ← modify (λ t,
              set_tx_detached true
                (set_key_update_send_request false
                   (set_needs_key_update false
                      (set_enc no_traffic_protection
                         (set_detached_tx_protocol_version
                            (if tls12 (enc detached) then PTLS_PROTOCOL_VERSION_TLS12
                             else PTLS_PROTOCOL_VERSION_TLS13) t)))));
        mret detached
    end.

(** The functions of [ptls_tx_t] are given the detached object. *)
(* src lib/picotls.c:6340-6345 ptls_tx_send *)
Definition ptls_tx_send (stack input : bytes) : M conn unit := ptls_send stack input.

(** The check that the vectors fit in one record; their total length. *)
(* src lib/picotls.c:6355-6359 inlen *)
Fixpoint tx_total (inlen : Z) (input : list bytes) : result Z :=
  match input with
  | [] => Ok inlen
  | v :: input =>
      if PTLS_MAX_PLAINTEXT_RECORD_SIZE - inlen <? len v then Err PTLS_ERROR_LIBRARY
      else tx_total (inlen + len v) input
  end.

(** The body of the TLS 1.2 record. *)
(* src lib/picotls.c:6377-6397 tls12 *)
Definition tx_tls12_body (a : ptls_aead_context_t) (input : list bytes) (inlen : Z) : M rec_env unit :=
  let algo := aead_algo a in
  _ ← on_buf (reserve_aligned (tls12_record_iv_size algo + inlen + tag_size algo) (aead_align_bits algo) 1);
  nonce ← (if negb (tls12_record_iv_size algo =? 0) then
             _ ← lift (guard_err (tls12_record_iv_size algo =? 8) ABORTED);
             nonce ← on_enc (λ t, (tls12_enc_record_iv t,
                                   set_tls12_enc_record_iv (u64 (tls12_enc_record_iv t + 1)) t));
             _ ← on_buf (modify (append_reserved (encode64 nonce)));
             mret nonce
           else gets (λ e, seq (rec_enc e)));
  s ← gets (λ e, seq (rec_enc e));
  let aad := build_tls12_aad PTLS_CONTENT_TYPE_APPDATA s (u16 inlen) in
  _ ← on_buf (modify (append_reserved (ptls_aead_encrypt_v a input nonce aad)));
  on_enc (λ t, ((), set_seq (u64 (seq t + 1)) t)).

(** The body of the TLS 1.3 record: the content type is one more vector. *)
(* src lib/picotls.c:6399-6420 build_aad *)
Definition tx_tls13_body (a : ptls_aead_context_t) (input : list bytes) (inlen : Z) : M rec_env unit :=
  let algo := aead_algo a in
  _ ← on_buf (reserve_aligned (inlen + tag_size algo + 1) (aead_align_bits algo) 1);
  let aad := build_aad (inlen + 1 + tag_size algo) in
  s ← on_enc (λ t, (seq t, set_seq (u64 (seq t + 1)) t));
  on_buf (modify (append_reserved
    (ptls_aead_encrypt_v a (input ++ [[PTLS_CONTENT_TYPE_APPDATA]]) s aad))).

(* src lib/picotls.c:6347-6424 ptls_tx_sendv *)
Definition ptls_tx_sendv (stack : bytes) (input : list bytes) : M conn unit :=
  inlen ← lift (tx_total 0 input);
  _ ← require_send_direction;
  t ← gets cn_tls;
  _ ← lift (guard_err (bool_decide (is_Some (aead (enc t)))) ABORTED);
  _ ← update_key_if_needed stack;
  if inlen =? 0 then mret ()
  else
    t ← gets cn_tls;
    match aead (enc t) with
    | None => fail ABORTED
    | Some a =>
        record_op (buffer_push_record PTLS_CONTENT_TYPE_APPDATA
          (if tls12 (enc t) then tx_tls12_body a input inlen else tx_tls13_body a input inlen))
    end.

(* src lib/picotls.c:6426-6435 ptls_tx_update_key *)
Definition ptls_tx_update_key (stack : bytes) (request_update : bool) : M conn unit :=
  t ← gets cn_tls;
  match key_schedule t with
  | None => fail PTLS_ERROR_NOT_AVAILABLE
  | Some _ => _ ← require_send_direction; update_send_key stack request_update
  end.

(* src lib/picotls.c:6437-6442 ptls_tx_send_alert *)
Definition ptls_tx_send_alert (level description : Z) : M conn unit := ptls_send_alert level description.

(** Zero or one. *)
(* src lib/picotls.c:6459-6465 ptls_take_key_update_request *)
Definition ptls_take_key_update_request : M ptls_t bool :=
  n ← gets key_update_requests;
  if n =? 0 then mret false
  else _ ← modify (set_key_update_requests (n - 1)); mret true.

End Tx.

(** ** Properties *)

Section SendProofs.
Context `{Allocator}.

(** [ptls_send] when no key update is due. *)
Lemma ptls_send_plain stack input a c :
  tx (cn_send c) = 1 -> tx_detached (cn_tls c) = false -> needs_key_update (cn_tls c) = false ->
  aead (enc (cn_tls c)) = Some a -> seq (enc (cn_tls c)) < KEY_UPDATE_SEQ ->
  ptls_send stack input c = record_op (buffer_push_encrypted_records a PTLS_CONTENT_TYPE_APPDATA input) c.
Proof.
  intros Ht Hdet Hku Haead Hseq. unfold ptls_send. rewrite M_bind_run. cbn [gets]. rewrite Hdet.
  rewrite M_bind_run, Haead. cbn [lift bool_decide guard_err]. rewrite bool_decide_eq_true_2 by eauto. cbn [guard_err].
  rewrite M_bind_run. unfold require_send_direction. rewrite M_bind_run. cbn [gets lift].
  unfold buffer_require_direction. cbn [id]. rewrite Ht, Z.eqb_refl. cbn [guard_err].
  rewrite M_bind_run. unfold update_key_if_needed. rewrite !M_bind_run. cbn [gets].
  rewrite M_bind_run, (proj2 (Z.leb_gt _ _)) by done. cbn [andb mret M_ret].
  rewrite M_bind_run. cbn [gets]. rewrite Hku. cbn [mret M_ret]. rewrite M_bind_run. cbn [gets].
  by rewrite Haead.
Qed.

(** C1: what [ptls_send] seals, [ptls_receive] delivers.  Two endpoints whose keys and counters
    match: the data written by one call of [ptls_send] (no key update being due) is, after any data
    already in the send buffer, a sequence of records; a peer that is given them, calling
    [ptls_receive] until the input is used up, gets exactly the data back, and the counters of the
    two sides still agree.  The only failures are those of memory allocation. *)
Theorem send_receive_roundtrip stack input a d c cb db peer :
  aead_ok (aead_algo a) -> is_bytes input ->
  buf_wf (cn_send c) -> tx (cn_send c) = 1 ->
  tx_detached (cn_tls c) = false -> needs_key_update (cn_tls c) = false ->
  tls12 (enc (cn_tls c)) = false -> aead (enc (cn_tls c)) = Some a ->
  0 <= seq (enc (cn_tls c)) < KEY_UPDATE_SEQ ->
  opens d a -> receiving d (cn_tls peer) -> base (recv_rec (cn_tls peer)) = 0 ->
  seq (dec (cn_tls peer)) = seq (enc (cn_tls c)) -> buf_wf db -> tx db = 0 ->
  match ptls_send stack input c with
  | (Err e, _) => e = PTLS_ERROR_NO_MEMORY
  | (Ok _, c') =>
      exists wire, contents (cn_send c') = contents (cn_send c) ++ wire /\
      let '(ret, db', peer') := receive_all (length (fragments (length input) input)) cb wire db peer in
      ret = 0 /\ contents db' = contents db ++ input /\
      seq (dec (cn_tls peer')) = seq (enc (cn_tls c')) \/
      ret = PTLS_ERROR_NO_MEMORY
  end.
Proof.
  intros Ha Hb Hw Ht Hdet Hku H12 Haead Hseq Ho Hr Hrec Hpeer Hwd Htd.
  rewrite ptls_send_plain with (a := a) by (done || apply Hseq). unfold record_op.
  set (e0 := mkRec (cn_send c) (enc (cn_tls c))). set (chunks := fragments (length input) input).
  assert (0 <= seq (rec_enc e0) < 2 ^ 64) as Hs0 by (unfold KEY_UPDATE_SEQ in *; cbn; lia).
  pose proof (triple_push_records a PTLS_CONTENT_TYPE_APPDATA (length input) input (enc (cn_tls c)) Ha ltac:(lia)
    H12 Hs0 e0 Hw (conj eq_refl Ht)) as [Hout HQ]. fold chunks in Hout, HQ.
  unfold buffer_push_encrypted_records. destruct (push_records_loop _ _ _ _ _) as [[[]|er] e'].
  2:{ by destruct Hout as (_ & _ & [->|(?&?&?)] & _). }
  destruct Hout as (_ & _ & _ & Hc). destruct HQ as [He _]. cbn [cn_send cn_tls fst snd] in *.
  exists (records13 a PTLS_CONTENT_TYPE_APPDATA chunks (enc (cn_tls c))). split; [done|].
  pose proof (fragments_concat (length input) input ltac:(lia)) as Hcat. fold chunks in Hcat.
  assert (Forall is_bytes chunks) as Hbs.
  { rewrite <- Hcat in Hb. clear -Hb. induction chunks; [constructor|]. cbn in Hb. apply Forall_app in Hb as [??]. auto. }
  pose proof (receive_records cb a d chunks (enc (cn_tls c)) db peer Ha Ho Hbs
    (fragments_sizes _ _) Hr Hrec Hpeer Hwd Htd Hs0) as Hrr.
  destruct (receive_all _ _ _ _ _) as [[ret db'] peer']. rewrite Hcat in Hrr.
  destruct Hrr as [(-> & -> & ->)|]; [left|by right]. rewrite He. done.
Qed.

(** *** Key updates *)

(** The connection object, but for the send buffer. *)
Definition tls_is (t : ptls_t) (c : conn) : Prop := cn_tls c = t /\ tx (cn_send c) = 1.

Lemma tls_is_stable t : stable (tls_is t).
Proof. intros b c Hb [? ?]. split; [done|]. cbn in *. congruence. Qed.

(** The start of a record: the placeholder of its header. *)
Lemma begin_record_run c :
  buf_wf (cn_send c) -> tx (cn_send c) = 1 ->
  match em_begin record_emitter c with
  | (Ok start, c') => start = len (contents (cn_send c)) /\ buf_wf (cn_send c') /\ tls_is (cn_tls c) c' /\
      contents (cn_send c') = contents (cn_send c) ++ [PTLS_CONTENT_TYPE_HANDSHAKE; 3; 3; 0; 0]
  | (Err e, c') => e = PTLS_ERROR_NO_MEMORY /\ buf_wf (cn_send c') /\ exists bs, contents (cn_send c') = contents (cn_send c) ++ bs
  end.
Proof.
  intros Hw Ht. cbn [em_begin record_emitter]. unfold record_op, begin_record_message.
  rewrite M_bind_run. cbn [gets rec_buf]. rewrite M_bind_run, (contents_len _ Hw).
  set (e0 := mkRec _ _).
  destruct (triple_push (sender (enc (cn_tls c))) [PTLS_CONTENT_TYPE_HANDSHAKE; 3; 3; 0; 0] (sender_stable _)
    ltac:(apply (bool_decide_unpack _); vm_compute; exact I) e0 Hw (conj eq_refl Ht)) as [Ho HQ].
  change PTLS_RECORD_VERSION_MAJOR with 3 in *. change PTLS_RECORD_VERSION_MINOR with 3 in *.
  destruct (ptls_buffer_push _ e0) as [[[]|e] e']; cbn [fst snd] in *.
  - destruct Ho as (Hw' & Ht' & _ & Hc). destruct HQ as [HQ1 HQ2]. cbn [mret M_ret].
    split; [done|]. split; [done|]. split; [|done]. split; [|done]. cbn. rewrite HQ1. by destruct (cn_tls c).
  - destruct Ho as (Hw' & Ht' & [->|(?&?&?)] & Hc); [|done]. done.
Qed.

(** The message enters the transcript, if it is to. *)
Definition hash_message (hashed : bool) (m : bytes) (t : ptls_t) : ptls_t :=
  match hashed, key_schedule t with
  | true, Some s => set_key_schedule (Some (ptls__key_schedule_update_hash m false s)) t
  | _, _ => t
  end.

Lemma message_body_run hashed type block bs c :
  is_byte type -> len bs < 2 ^ 24 -> triple (tls_is (cn_tls c)) block (Ok ((), bs)) (λ _, tls_is (cn_tls c)) ->
  buf_wf (cn_send c) -> tx (cn_send c) = 1 ->
  let m := [type] ++ be_encode 3 (len bs) ++ bs in
  match ptls_buffer_push_message_body hashed type block c with
  | (Ok _, c') => buf_wf (cn_send c') /\ contents (cn_send c') = contents (cn_send c) ++ m /\
      tls_is (hash_message hashed m (cn_tls c)) c'
  | (Err e, c') => e = PTLS_ERROR_NO_MEMORY /\ buf_wf (cn_send c') /\
      exists ds, contents (cn_send c') = contents (cn_send c) ++ ds
  end.
Proof.
  intros Hty Hl Hb Hw Ht m. unfold ptls_buffer_push_message_body. rewrite M_bind_run. cbn [gets].
  set (t := cn_tls c) in *.
  assert (triple (tls_is t) (_ ← ptls_buffer_push [type]; ptls_buffer_push_block 3 block) (Ok ((), m)) (λ _, tls_is t)) as Hm.
  { eapply triple_seq with (Q := λ _, tls_is t); [apply triple_push; [apply tls_is_stable|by apply Forall_singleton]|done|].
    change 3 with (Z.of_nat 3). apply triple_push_block; (done || lia || apply tls_is_stable). }
  destruct (Hm c Hw (conj eq_refl Ht)) as [Ho HQ]. revert Ho HQ. rewrite !M_bind_run.
  destruct (ptls_buffer_push [type] c) as [[[]|e] c1].
  2:{ intros (Hw1 & _ & [->|(?&?&?)] & Hc1) _; [|done]. done. }
  rewrite M_bind_run. destruct (ptls_buffer_push_block 3 block c1) as [[[]|e] c2]; cbn [fst snd].
  2:{ intros (Hw1 & _ & [->|(?&?&?)] & Hc1) _; [|done]. done. }
  intros (Hw2 & _ & _ & Hc2) [Et2 Ht2]. cbn in Hc2. unfold hash_message.
  destruct hashed; [|cbn [mret M_ret]; done].
  rewrite M_bind_run. cbn [gets id]. rewrite Et2. destruct (key_schedule t) as [s|] eqn:Hs; [|done].
  unfold tls_op, update_hash, get_schedule. rewrite !M_bind_run. cbn [gets]. rewrite Et2, Hs. cbn [mret M_ret modify cn_send cn_tls].
  split; [done|]. split; [done|]. split; [|done]. cbn. rewrite <- (contents_len _ Hw), Hc2, drop_len_app. by rewrite <- Et2.
Qed.

Lemma push_message_sealed hashed type block bs a c :
  aead_ok (aead_algo a) -> buf_wf (cn_send c) -> tx (cn_send c) = 1 ->
  aead (enc (cn_tls c)) = Some a -> tls12 (enc (cn_tls c)) = false ->
  is_byte type -> len bs + 4 <= PTLS_MAX_PLAINTEXT_RECORD_SIZE ->
  triple (tls_is (cn_tls c)) block (Ok ((), bs)) (λ _, tls_is (cn_tls c)) ->
  let m := [type] ++ be_encode 3 (len bs) ++ bs in
  match ptls_push_message record_emitter hashed type block c with
  | (Ok _, c') => buf_wf (cn_send c') /\
      contents (cn_send c') = contents (cn_send c) ++ record13 a PTLS_CONTENT_TYPE_HANDSHAKE m (enc (cn_tls c)) /\
      cn_tls c' = set_enc (advance 1 (enc (cn_tls c))) (hash_message hashed m (cn_tls c))
  | (Err e, c') => e = PTLS_ERROR_NO_MEMORY /\ buf_wf (cn_send c') /\
      exists ds, contents (cn_send c') = contents (cn_send c) ++ ds
  end.
Proof.
  intros Ha Hw Ht Hd H12 Hty Hl Hb msg. unfold ptls_push_message. rewrite M_bind_run.
  pose proof (begin_record_run c Hw Ht) as Hbeg. destruct (em_begin record_emitter c) as [[start|e] c1]; [|done].
  destruct Hbeg as (-> & Hw1 & [Et1 Ht1] & Hc1). rewrite M_bind_run.
  assert (len bs < 2 ^ 24) as Hl24 by (unfold PTLS_MAX_PLAINTEXT_RECORD_SIZE in Hl; lia).
  rewrite <- Et1 in Hb. pose proof (message_body_run hashed type block bs c1 Hty Hl24 Hb Hw1 Ht1) as Hbody.
  cbn zeta in Hbody. fold msg in Hbody.
  destruct (ptls_buffer_push_message_body hashed type block c1) as [[[]|e] c2].
  2:{ destruct Hbody as (-> & Hw2 & ds & Hc2). split; [done|]. split; [done|].
      rewrite Hc1, <- app_assoc in Hc2. by eexists. }
  destruct Hbody as (Hw2 & Hc2 & [Et2 Ht2]). rewrite Et1 in Et2.
  assert (enc (cn_tls c2) = enc (cn_tls c)) as Ee.
  { rewrite Et2. unfold hash_message. destruct hashed, (key_schedule (cn_tls c)); done. }
  rewrite Hc1, <- app_assoc in Hc2. cbn [em_commit record_emitter]. unfold record_op, commit_record_message.
  rewrite M_bind_run. cbn [gets rec_enc]. rewrite Ee, Hd.
  assert (len msg <= PTLS_MAX_PLAINTEXT_RECORD_SIZE) as Hml.
  { unfold msg. rewrite !len_app. change (len [type]) with 1. unfold len at 1. rewrite be_encode_length. lia. }
  pose proof (encrypt_record_fast a (contents (cn_send c)) PTLS_CONTENT_TYPE_HANDSHAKE 0 0 msg
    (mkRec (cn_send c2) (enc (cn_tls c))) Ha Hw2 Ht2 H12 Hc2 Hml) as Hf.
  destruct (buffer_encrypt_record _ _ _) as [[[]|er] e3]; cbn [cn_send cn_tls rec_buf rec_enc] in *.
  - destruct Hf as (Hw3 & Hc3 & He3). split; [done|]. split; [done|]. by rewrite He3, Et2.
  - destruct Hf as [-> ->]. split; [done|]. split; [done|]. cbn. eexists. exact Hc2.
Qed.

(** RFC 8446, section 7.2 *)
Definition next_secret (a : ptls_hash_algorithm_t) (secret : bytes) : bytes :=
  HKDF_Expand_Label a secret (str "traffic upd") [] (digest_size a).

(** The connection has the traffic secret [secret] of the cipher suite [suite], and its own record layer. *)
Record has_secret (is_enc : bool) (suite : ptls_cipher_suite_t) (secret : bytes) (t : ptls_t) : Prop := {
  hs_sched : exists s, key_schedule t = Some s /\ algo0 s = cs_hash suite;
  hs_suite : cipher_suite t = Some suite;
  hs_layer : update_traffic_key (ctx t) = None;
  hs_secret : take (Z.to_nat (digest_size (cs_hash suite))) (tp_secret (get_tp is_enc t)) = secret;
  hs_len : len secret = digest_size (cs_hash suite);
}.

(** The keys of a traffic secret, for one direction. *)
Definition key_of (is_enc : bool) (suite : ptls_cipher_suite_t) (secret : bytes) (prefix : option bytes)
    (a : ptls_aead_context_t) : Prop :=
  ptls_aead_new (cs_aead suite) (cs_hash suite) is_enc secret prefix = Some a.

Lemma key_of_opens suite secret prefix a d :
  key_of true suite secret prefix a -> key_of false suite secret prefix d -> opens d a /\ aead_algo a = cs_aead suite.
Proof.
  unfold key_of, ptls_aead_new, new_aead, ptls_aead_new_direct.
  destruct (get_traffic_keys _ _ _ _ _) as [[k iv]|]; [|done].
  destruct (malloc _); [|done]. destruct (setup_ok _); [|done]. by intros [= <-] [= <-].
Qed.

Lemma on_tp_get is_enc f t : get_tp is_enc (on_tp is_enc f t) = f (get_tp is_enc t).
Proof. by destruct is_enc. Qed.

(** Installing the keys of the current secret. *)
Lemma setup_keys_run is_enc ep sq skip suite secret t :
  has_secret is_enc suite secret t ->
  match setup_traffic_protection is_enc None ep sq skip t with
  | (Ok _, t') => exists a, key_of is_enc suite secret (hkdf_label_prefix__obsolete (ctx t)) a /\
      t' = on_tp is_enc (λ tp, set_seq sq (set_aead (Some a) (set_epoch ep tp))) t
  | (Err e, _) => e = PTLS_ERROR_NO_MEMORY
  end.
Proof.
  intros [(s & Hs & Ha) Hsuite Hl Hsec Hlen]. unfold setup_traffic_protection, key_of.
  rewrite M_bind_run. cbn [mret M_ret]. rewrite M_bind_run. cbn [modify]. set (t1 := on_tp is_enc (set_epoch ep) t).
  assert (key_schedule t1 = key_schedule t /\ cipher_suite t1 = cipher_suite t /\ ctx t1 = ctx t /\
    tp_secret (get_tp is_enc t1) = tp_secret (get_tp is_enc t)) as (E1 & E2 & E3 & E4) by (by destruct is_enc).
  unfold get_schedule, get_suite. rewrite !M_bind_run. cbn [gets]. rewrite E1, Hs. cbn [mret M_ret].
  rewrite !M_bind_run. cbn [gets]. rewrite E3, Hl, M_bind_run. cbn [gets]. rewrite !M_bind_run. cbn [gets]. rewrite E2, Hsuite. cbn [mret M_ret].
  rewrite E4, Hsec. destruct (ptls_aead_new _ _ _ secret _) as [a|]; [|done].
  exists a. split; [done|]. by destruct is_enc.
Qed.

Lemma update_key_run stack is_enc suite secret t :
  hash_ok (cs_hash suite) -> has_secret is_enc suite secret t ->
  match do_update_traffic_key stack is_enc t with
  | (Ok _, t') => exists a tail, 
      key_of is_enc suite (next_secret (cs_hash suite) secret) (hkdf_label_prefix__obsolete (ctx t)) a /\
      t' = on_tp is_enc (λ tp, set_seq 0 (set_aead (Some a) (set_epoch 3
             (set_tp_secret (next_secret (cs_hash suite) secret ++ tail) tp)))) t /\
      has_secret is_enc suite (next_secret (cs_hash suite) secret) t'
  | (Err e, _) => e = PTLS_ERROR_NO_MEMORY
  end.
Proof.
  intros Hh [(s & Hs & Ha) Hsuite Hl Hsec Hlen]. unfold do_update_traffic_key. unfold get_schedule.
  rewrite !M_bind_run. cbn [gets]. rewrite Hs. cbn [mret M_ret]. rewrite M_bind_run. cbn [gets]. rewrite Ha, Hsec.
  pose proof (digest_size_pos _ Hh). pose proof (digest_block _ Hh). rewrite M_bind_run.
  assert (len (next_secret (cs_hash suite) secret) = digest_size (cs_hash suite)) as Hnl
    by (apply expand_label_len; [done|lia]).
  destruct (hkdf_expand_label_prefix (cs_hash suite) secret (str "traffic upd") [] (digest_size (cs_hash suite)) None Hh)
    as [E|E]; try done; try lia; rewrite E; cbn [lift]; [|done].
  change (HKDF_Expand _ _ _ _) with (next_secret (cs_hash suite) secret). set (x := next_secret _ _) in *.
  rewrite M_bind_run. cbn [modify]. set (array := x ++ _). set (t1 := on_tp is_enc (set_tp_secret array) t).
  assert (has_secret is_enc suite x t1) as Ht1.
  { split; [exists s; by destruct is_enc|by destruct is_enc|by destruct is_enc| |done].
    unfold t1. rewrite on_tp_get. cbn [tp_secret set_tp_secret]. rewrite <- Hnl. apply take_len_app. }
  pose proof (setup_keys_run is_enc 3 0 true suite x t1 Ht1) as Hk.
  destruct (setup_traffic_protection _ _ _ _ _ t1) as [[[]|e] t2]; [|done].
  destruct Hk as (a & Hkey & ->). exists a, (drop (length x) stack).
  split; [by destruct is_enc|]. split; [by destruct is_enc|]. destruct Ht1. by split; destruct is_enc.
Qed.

Lemma rewind_contents c ds x :
  buf_wf (cn_send c) -> contents (cn_send c) = x ++ ds -> contents (cn_send (rewind (len x) c)) = x.
Proof.
  intros Hw Hc. unfold rewind, contents. cbn. rewrite (contents_mem _ Hw), Hc, <- app_assoc. apply take_len_app.
Qed.

Definition key_update_message (request : bool) : bytes :=
  [PTLS_HANDSHAKE_TYPE_KEY_UPDATE; 0; 0; 1; if request then 1 else 0].

(** The sender's half of a key update. *)
Lemma update_send_key_run stack request a suite secret c :
  aead_ok (aead_algo a) -> hash_ok (cs_hash suite) ->
  buf_wf (cn_send c) -> tx (cn_send c) = 1 -> aead (enc (cn_tls c)) = Some a -> tls12 (enc (cn_tls c)) = false ->
  has_secret true suite secret (cn_tls c) ->
  match update_send_key stack request c with
  | (Ok _, c') =>
      contents (cn_send c') = contents (cn_send c) ++
        record13 a PTLS_CONTENT_TYPE_HANDSHAKE (key_update_message request) (enc (cn_tls c)) /\
      has_secret true suite (next_secret (cs_hash suite) secret) (cn_tls c') /\ seq (enc (cn_tls c')) = 0 /\
      exists a', aead (enc (cn_tls c')) = Some a' /\
        key_of true suite (next_secret (cs_hash suite) secret) (hkdf_label_prefix__obsolete (ctx (cn_tls c))) a'
  | (Err e, c') => e = PTLS_ERROR_NO_MEMORY /\ contents (cn_send c') = contents (cn_send c)
  end.
Proof.
  intros Ha Hh Hw Ht Hd H12 Hsec. unfold update_send_key. rewrite M_bind_run.
  assert (triple (tls_is (cn_tls c)) (ptls_buffer_push [if request then 1 else 0])
    (Ok ((), [if request then 1 else 0])) (λ _, tls_is (cn_tls c))) as Hblock.
  { apply triple_push; [apply tls_is_stable|]. apply Forall_singleton. by destruct request. }
  pose proof (push_message_sealed false PTLS_HANDSHAKE_TYPE_KEY_UPDATE _ [if request then 1 else 0] a c Ha Hw Ht Hd H12
    ltac:(done) ltac:(vm_compute; discriminate) Hblock) as Hm. cbn zeta in Hm.
  change ([PTLS_HANDSHAKE_TYPE_KEY_UPDATE] ++ be_encode 3 _ ++ _) with (key_update_message request) in Hm.
  rewrite <- (contents_len _ Hw).
  destruct (ptls_push_message _ _ _ _ c) as [[[]|e] c1].
  2:{ destruct Hm as (-> & Hw1 & ds & Hc1). split; [done|]. by eapply rewind_contents. }
  destruct Hm as (Hw1 & Hc1 & Et1). unfold tls_op.
  assert (has_secret true suite secret (cn_tls c1)) as Hs1 by (rewrite Et1; destruct Hsec; by split).
  pose proof (update_key_run stack true suite secret (cn_tls c1) Hh Hs1) as Hu.
  destruct (do_update_traffic_key stack true (cn_tls c1)) as [[[]|e] t2].
  2:{ split; [done|]. eapply rewind_contents; cbn; done. }
  destruct Hu as (a' & tl & Hk & -> & Hs2). cbn [cn_tls cn_send]. split; [done|]. split; [done|]. split; [done|].
  exists a'. split; [done|]. rewrite Et1 in Hk. exact Hk.
Qed.

(** C35: key updates keep the two sides in step.  [update_send_key] sends a KeyUpdate message sealed
    under the old key and then moves on to the next traffic secret of RFC 8446, counter zero; the
    peer that handles that message arrives at the same secret, a key that opens what the sender's
    new key seals, and counter zero; a requested update is noted (or counted, when the sending side
    is detached).  If memory runs out on the sending side, the buffer is as before. *)
Theorem key_update_in_step stack stack' request a suite secret c peer :
  aead_ok (aead_algo a) -> hash_ok (cs_hash suite) ->
  buf_wf (cn_send c) -> tx (cn_send c) = 1 -> aead (enc (cn_tls c)) = Some a -> tls12 (enc (cn_tls c)) = false ->
  has_secret true suite secret (cn_tls c) -> has_secret false suite secret peer ->
  hkdf_label_prefix__obsolete (ctx peer) = hkdf_label_prefix__obsolete (ctx (cn_tls c)) ->
  let secret' := next_secret (cs_hash suite) secret in
  match update_send_key stack request c with
  | (Err e, c') => e = PTLS_ERROR_NO_MEMORY /\ contents (cn_send c') = contents (cn_send c)
  | (Ok _, c') =>
      contents (cn_send c') = contents (cn_send c) ++
        record13 a PTLS_CONTENT_TYPE_HANDSHAKE (key_update_message request) (enc (cn_tls c)) /\
      has_secret true suite secret' (cn_tls c') /\
      match handle_key_update stack' (key_update_message request) peer with
      | (Err e, _) =>
          e = PTLS_ERROR_NO_MEMORY \/
          e = PTLS_ALERT_INTERNAL_ERROR /\ tx_detached peer = true /\ key_update_requests peer = UINT32_MAX
      | (Ok _, peer') =>
          has_secret false suite secret' peer' /\
          seq (enc (cn_tls c')) = 0 /\ seq (dec peer') = 0 /\
          (exists a' d', aead (enc (cn_tls c')) = Some a' /\ aead (dec peer') = Some d' /\ opens d' a') /\
          (request = true -> if tx_detached peer then key_update_requests peer' = key_update_requests peer + 1
                             else needs_key_update peer' = true)
      end
  end.
Proof.
  intros Ha Hh Hw Ht Hd H12 Hs Hp Hprefix secret'.
  pose proof (update_send_key_run stack request a suite secret c Ha Hh Hw Ht Hd H12 Hs) as Hu.
  destruct (update_send_key stack request c) as [[[]|e] c']; [|done].
  destruct Hu as (Hc & Hs' & Hseq & a' & Ha' & Hk). split; [done|]. split; [done|].
  unfold handle_key_update. change (drop _ (key_update_message request)) with [if request then 1 else 0].
  assert (negb (len [if request then 1 else 0] =? 1) || (1 <? byte_at [if request then 1 else 0] 0) = false) as ->
    by (by destruct request).
  rewrite M_bind_run. pose proof (update_key_run stack' false suite secret peer Hh Hp) as Hr.
  destruct (do_update_traffic_key stack' false peer) as [[[]|e] peer1]; [|by left].
  destruct Hr as (d' & tl & Hkd & -> & Hsp). rewrite Hprefix in Hkd. destruct (key_of_opens _ _ _ _ _ Hk Hkd) as [Hopens _].
  destruct request; cbn [byte_at nth Z.eqb negb].
  2:{ cbn [mret M_ret]. split; [done|]. split; [done|]. split; [done|]. split; [|done]. by exists a', d'. }
  rewrite M_bind_run. cbn [gets id]. rewrite (hs_layer _ _ _ _ Hsp).
  change (tx_detached (on_tp false _ peer)) with (tx_detached peer).
  change (key_update_requests (on_tp false _ peer)) with (key_update_requests peer).
  destruct (tx_detached peer).
  - destruct (Z.eqb_spec (key_update_requests peer) UINT32_MAX); [by right|]. cbn [modify].
    split; [destruct Hsp; by split|]. split; [done|]. split; [done|]. split; [|done]. by exists a', d'.
  - cbn [modify]. split; [destruct Hsp; by split|]. split; [done|]. split; [done|]. split; [|done]. by exists a', d'.
Qed.

(** *** Detached sending *)

Lemma tx_total_spec n input :
  n <= PTLS_MAX_PLAINTEXT_RECORD_SIZE ->
  tx_total n input = if n + len (concat input) <=? PTLS_MAX_PLAINTEXT_RECORD_SIZE
                     then Ok (n + len (concat input)) else Err PTLS_ERROR_LIBRARY.
Proof.
  revert n. induction input as [|v input IH]; intros n Hn; cbn [tx_total concat].
  { rewrite len_nil, Z.add_0_r. by rewrite (proj2 (Z.leb_le _ _)) by done. }
  rewrite len_app. pose proof (len_nonneg (concat input)).
  destruct (Z.ltb_spec (PTLS_MAX_PLAINTEXT_RECORD_SIZE - n) (len v)).
  - by rewrite (proj2 (Z.leb_gt _ _)) by lia.
  - rewrite IH by lia. by replace (n + len v + len (concat input)) with (n + (len v + len (concat input))) by lia.
Qed.

(** One record. *)
Lemma push_records_one a type src e :
  0 < len src <= PTLS_MAX_PLAINTEXT_RECORD_SIZE ->
  buffer_push_encrypted_records a type src e
  = (if tls12 (rec_enc e) then buffer_push_record type (push_tls12_body a type src)
     else buffer_push_record PTLS_CONTENT_TYPE_APPDATA (push_tls13_body a type src)) e.
Proof.
  intros Hl. unfold buffer_push_encrypted_records. destruct src as [|b src]; [by destruct Hl|].
  cbn [length push_records_loop]. rewrite (proj2 (Z.eqb_neq _ 0)) by lia.
  rewrite (proj2 (Z.ltb_ge _ _)) by lia. rewrite to_nat_len, firstn_all, drop_all.
  rewrite M_bind_run. cbn [gets]. rewrite M_bind_run.
  set (m := if tls12 (rec_enc e) then _ else _). destruct (m e) as [[[]|er] e']; [|done].
  by destruct (length src).
Qed.

Lemma tx_tls13_body_eq a input :
  tx_tls13_body a input (len (concat input)) = push_tls13_body a PTLS_CONTENT_TYPE_APPDATA (concat input).
Proof.
  unfold tx_tls13_body, push_tls13_body, aead_encrypt, ptls_aead_encrypt_v. rewrite concat_app. reflexivity.
Qed.

Lemma tx_tls12_body_eq a input :
  tx_tls12_body a input (len (concat input)) = push_tls12_body a PTLS_CONTENT_TYPE_APPDATA (concat input).
Proof. reflexivity. Qed.

(** Scatter-gather sending is sending the concatenation.  When the vectors fit in one record,
    [ptls_tx_sendv] has the same result and leaves the same state and the same bytes as
    [ptls_tx_send] of their concatenation (in TLS 1.2 as in TLS 1.3, key updates included); when
    they do not fit, it is refused and nothing has changed. *)
Theorem tx_sendv_is_send stack input c :
  tx_detached (cn_tls c) = false -> is_Some (aead (enc (cn_tls c))) ->
  ptls_tx_sendv stack input c =
    if len (concat input) <=? PTLS_MAX_PLAINTEXT_RECORD_SIZE then ptls_tx_send stack (concat input) c
    else (Err PTLS_ERROR_LIBRARY, c).
Proof.
  intros Hdet Haead. unfold ptls_tx_sendv. rewrite M_bind_run. cbn [lift].
  rewrite tx_total_spec by done. rewrite Z.add_0_l.
  destruct (Z.leb_spec (len (concat input)) PTLS_MAX_PLAINTEXT_RECORD_SIZE) as [Hl|]; [|done].
  unfold ptls_tx_send, ptls_send. rewrite (M_bind_run (gets cn_tls)). cbn [gets]. rewrite Hdet.
  rewrite bool_decide_eq_true_2 by done. rewrite (M_bind_run (lift _)). cbn [lift guard_err].
  rewrite !(M_bind_run require_send_direction).
  assert (require_send_direction c = (lift (buffer_require_direction (cn_send c) 1) c)) as -> by done.
  cbn [lift]. destruct (buffer_require_direction _ _) as [[]|e]; [|done].
  rewrite M_bind_run. cbn [gets]. rewrite bool_decide_eq_true_2 by done. rewrite M_bind_run. cbn [lift guard_err].
  rewrite !M_bind_run. destruct (update_key_if_needed stack c) as [[[]|e] c1]; [|done].
  rewrite M_bind_run. cbn [gets]. pose proof (len_nonneg (concat input)).
  destruct (Z.eqb_spec (len (concat input)) 0) as [E|E].
  - apply len_zero in E. rewrite E. destruct (aead (enc (cn_tls c1))); [|done]. cbn [mret M_ret].
    unfold record_op. cbn. by destruct c1 as [[] ? ?].
  - rewrite M_bind_run. cbn [gets]. destruct (aead (enc (cn_tls c1))) as [a|]; [|done].
    unfold record_op. rewrite push_records_one by lia. cbn [rec_enc].
    rewrite tx_tls12_body_eq, tx_tls13_body_eq. by destruct (tls12 (enc (cn_tls c1))).
Qed.

(** Connections that send alike: what they have in common decides everything about sending. *)
Record sends_alike (t1 t2 : ptls_t) : Prop := {
  sa_enc : enc t1 = enc t2;
  sa_ctx : ctx t1 = ctx t2;
  sa_suite : cipher_suite t1 = cipher_suite t2;
  sa_sched : (algo0 <$> key_schedule t1) = (algo0 <$> key_schedule t2);
  sa_needs : needs_key_update t1 = needs_key_update t2;
  sa_request : key_update_send_request t1 = key_update_send_request t2;
  sa_det : tx_detached t1 = tx_detached t2;
}.

Definition alike (c1 c2 : conn) : Prop := sends_alike (cn_tls c1) (cn_tls c2) /\ cn_send c1 = cn_send c2.

(** A computation that treats such connections alike. *)
Definition respects {A} (m : M conn A) : Prop :=
  forall c1 c2, alike c1 c2 -> (m c1).1 = (m c2).1 /\ alike (m c1).2 (m c2).2.

Lemma respects_bind {A B} (m : M conn A) (f : A -> M conn B) :
  respects m -> (forall a, respects (f a)) -> respects (m ≫= f).
Proof.
  intros Hm Hf c1 c2 Hc. rewrite !M_bind_run. destruct (Hm c1 c2 Hc) as [E Hc'].
  destruct (m c1) as [r1 c1'], (m c2) as [r2 c2']. cbn [fst snd] in *. subst r2.
  destruct r1 as [a|e]; [by apply Hf|done].
Qed.

Lemma respects_gets {A} (f : conn -> A) : (forall c1 c2, alike c1 c2 -> f c1 = f c2) -> respects (gets f).
Proof. intros Hf c1 c2 Hc. cbn. split; [|done]. f_equal. by apply Hf. Qed.

Lemma respects_const {A} (r : result A) : respects (lift r).
Proof. intros c1 c2 Hc. done. Qed.

Lemma respects_record {A} (m : M rec_env A) : respects (record_op m).
Proof.
  intros c1 c2 [[E1 E2 E3 E4 E5 E6 E7] Es]. unfold record_op. rewrite E1, Es. destruct (m _) as [r e]. cbn.
  split; [done|]. split; [|done]. by split.
Qed.

Lemma respects_modify (f : ptls_t -> ptls_t) :
  (forall t1 t2, sends_alike t1 t2 -> sends_alike (f t1) (f t2)) -> respects (tls_op (modify f)).
Proof. intros Hf c1 c2 [Ht Es]. cbn. split; [done|]. split; [by apply Hf|done]. Qed.

Lemma alike_push l c1 c2 : alike c1 c2 ->
  (ptls_buffer_push l c1).1 = (ptls_buffer_push l c2).1 /\ alike (ptls_buffer_push l c1).2 (ptls_buffer_push l c2).2.
Proof.
  intros [Ht Es]. unfold ptls_buffer_push, ptls_buffer_pushv, on_buf. cbn [get_buf conn_has_buffer]. rewrite Es.
  destruct (do_pushv _ _) as [r b]. done.
Qed.

Lemma alike_buf (f : M ptls_buffer_t unit) : respects (on_buf f).
Proof. intros c1 c2 [Ht Es]. unfold on_buf. cbn [get_buf conn_has_buffer]. rewrite Es. by destruct (f _) as [r b]. Qed.

(** The key update as a function of what connections that send alike have in common. *)
Definition updated_tp (stack : bytes) (hash : ptls_hash_algorithm_t) (c : ptls_context_t)
    (suite : option ptls_cipher_suite_t) (tp : st_ptls_traffic_protection_t)
    : result unit * st_ptls_traffic_protection_t :=
  match ptls_hkdf_expand_label hash (digest_size hash) (take (Z.to_nat (digest_size hash)) (tp_secret tp))
          (str "traffic upd") [] None with
  | Err e => (Err e, tp)
  | Ok secret =>
      let tp := set_epoch 3 (set_tp_secret (secret ++ drop (length secret) stack) tp) in
      match update_traffic_key c, suite with
      | Some _, _ => (Ok (), tp)
      | None, None => (Err ABORTED, tp)
      | None, Some suite =>
          match ptls_aead_new (cs_aead suite) (cs_hash suite) true
                  (take (Z.to_nat (digest_size (cs_hash suite))) (tp_secret tp)) (hkdf_label_prefix__obsolete c) with
          | None => (Err PTLS_ERROR_NO_MEMORY, set_aead None tp)
          | Some a => (Ok (), set_seq 0 (set_aead (Some a) tp))
          end
      end
  end.

Lemma set_enc_id t : set_enc (enc t) t = t.
Proof. by destruct t. Qed.

Lemma update_key_tp stack s t :
  key_schedule t = Some s ->
  do_update_traffic_key stack true t =
    (let '(r, tp) := updated_tp stack (algo0 s) (ctx t) (cipher_suite t) (enc t) in (r, set_enc tp t)).
Proof.
  intros Hs. unfold do_update_traffic_key, get_schedule, updated_tp. rewrite !M_bind_run. cbn [gets]. rewrite Hs.
  cbn [mret M_ret]. rewrite M_bind_run. cbn [gets get_tp]. rewrite M_bind_run. cbn [lift].
  destruct (ptls_hkdf_expand_label _ _ _ _ _ _) as [x|e]; [|by rewrite set_enc_id].
  rewrite M_bind_run. cbn [modify on_tp]. set (tp := set_tp_secret _ _). set (t1 := set_enc tp t).
  unfold setup_traffic_protection, get_schedule, get_suite. rewrite M_bind_run. cbn [mret M_ret].
  rewrite M_bind_run. cbn [modify on_tp]. rewrite !M_bind_run. cbn [gets].
  change (key_schedule _) with (key_schedule t). rewrite Hs. cbn [mret M_ret]. rewrite M_bind_run. cbn [gets].
  rewrite M_bind_run. cbn [gets get_tp]. change (ctx _) with (ctx t).
  destruct (update_traffic_key (ctx t)) as [cb|]; [done|]. rewrite !M_bind_run. cbn [gets].
  change (cipher_suite (set_enc _ _)) with (cipher_suite t). destruct (cipher_suite t) as [su|]; [|done].
  cbn [mret M_ret]. change (tp_secret (enc _)) with (tp_secret tp). cbn [tp_secret set_epoch].
  by destruct (ptls_aead_new _ _ _ _ _).
Qed.

Lemma update_key_alike stack t1 t2 :
  sends_alike t1 t2 ->
  (do_update_traffic_key stack true t1).1 = (do_update_traffic_key stack true t2).1 /\
  sends_alike (do_update_traffic_key stack true t1).2 (do_update_traffic_key stack true t2).2.
Proof.
  intros Ht. pose proof Ht as [E1 E2 E3 E4 E5 E6 E7].
  destruct (key_schedule t1) as [s1|] eqn:H1, (key_schedule t2) as [s2|] eqn:H2; try done.
  - injection E4 as E4. rewrite (update_key_tp _ s1 t1 H1), (update_key_tp _ s2 t2 H2), E1, E2, E3, E4.
    destruct (updated_tp _ _ _ _ _) as [r tp]. split; [done|]. split; cbn; try done. exact (sa_sched _ _ Ht).
  - unfold do_update_traffic_key, get_schedule. rewrite !M_bind_run. cbn [gets]. rewrite H1, H2. done.
Qed.

Lemma respects_update stack : respects (tls_op (do_update_traffic_key stack true)).
Proof.
  intros c1 c2 [Ht Es]. unfold tls_op. destruct (update_key_alike stack _ _ Ht) as [Er Ht'].
  destruct (do_update_traffic_key stack true (cn_tls c1)), (do_update_traffic_key stack true (cn_tls c2)).
  cbn in *. done.
Qed.

Lemma respects_push_block n (block : M conn unit) : respects block -> respects (ptls_buffer_push_block n block).
Proof.
  intros Hb. unfold ptls_buffer_push_block.
  apply respects_bind; [apply alike_buf|intros _].
  apply respects_bind; [apply respects_gets; by intros c1 c2 [_ Es]; cbn; rewrite Es|intros start].
  apply respects_bind; [done|intros []].
  apply respects_bind; [apply respects_gets; by intros c1 c2 [_ Es]; cbn; rewrite Es|intros stop].
  apply respects_bind; [|intros _; apply (respects_const (Ok ()))].
  destruct (negb _); [destruct (_ && _); [apply (respects_const (Err _))|]|]; apply alike_buf.
Qed.

Lemma respects_update_send_key stack request : respects (update_send_key stack request).
Proof.
  intros c1 c2 Hc. unfold update_send_key. set (m := _ ← ptls_push_message _ _ _ _; _).
  assert (respects m) as Hm.
  { apply respects_bind; [|intros _; apply respects_update]. unfold ptls_push_message.
    apply respects_bind; [apply respects_record|intros start].
    apply respects_bind; [|intros _; apply respects_record]. unfold ptls_buffer_push_message_body.
    apply respects_bind; [apply respects_gets; by intros ? ? [_ Es]; rewrite Es|intros ms].
    apply respects_bind; [apply alike_buf|intros _].
    apply respects_bind; [|intros _; apply (respects_const (Ok ()))].
    apply respects_push_block, alike_buf. }
  destruct (Hm c1 c2 Hc) as [Er [Ht Es]]. destruct Hc as [_ Es0]. rewrite Es0.
  destruct (m c1) as [r1 c1'], (m c2) as [r2 c2']. cbn [fst snd] in *. subst r2.
  destruct r1; [done|]. split; [done|]. split; [done|]. cbn. by rewrite Es.
Qed.

Lemma respects_tls {A} (g : ptls_t -> M conn A) :
  (forall t1 t2, sends_alike t1 t2 -> g t1 = g t2) -> (forall t, respects (g t)) -> respects (gets cn_tls ≫= g).
Proof.
  intros Hg Hr c1 c2 Hc. rewrite !M_bind_run. cbn [gets]. rewrite (Hg (cn_tls c1) (cn_tls c2)) by apply Hc. by apply Hr.
Qed.

Lemma respects_mret : respects (mret ()).
Proof. apply (respects_const (Ok ())). Qed.

Lemma respects_fail e : respects (fail (A:=()) e).
Proof. apply (respects_const (Err e)). Qed.

Lemma sched_some t1 t2 :
  sends_alike t1 t2 -> bool_decide (is_Some (key_schedule t1)) = bool_decide (is_Some (key_schedule t2)).
Proof. intros Ht. pose proof (sa_sched _ _ Ht). by destruct (key_schedule t1), (key_schedule t2). Qed.

Lemma respects_update_if_needed stack : respects (update_key_if_needed stack).
Proof.
  unfold update_key_if_needed. apply respects_tls.
  - intros t1 t2 Ht. by rewrite (sa_enc _ _ Ht), (sched_some t1 t2).
  - intros t. apply respects_bind.
    + destruct (_ && _); [|apply respects_mret]. apply respects_modify. intros t1 t2 []. by split.
    + intros _. apply respects_tls.
      * intros t1 t2 Ht. by rewrite (sa_needs _ _ Ht), (sa_request _ _ Ht).
      * intros t'. destruct (needs_key_update t'); [|apply respects_mret].
        apply respects_bind; [apply respects_update_send_key|]. intros _. apply respects_modify. intros t1 t2 []. by split.
Qed.

Lemma respects_send stack input : respects (ptls_send stack input).
Proof.
  unfold ptls_send. apply respects_tls.
  - intros t1 t2 Ht. by rewrite (sa_det _ _ Ht), (sa_enc _ _ Ht).
  - intros t. destruct (tx_detached t); [apply respects_fail|]. apply respects_bind; [apply respects_const|intros _].
    apply respects_bind; [|intros _].
    { intros c1 c2 [Ht Es]. unfold require_send_direction. rewrite !M_bind_run. cbn. by rewrite Es. }
    apply respects_bind; [apply respects_update_if_needed|intros _]. apply respects_tls.
    + intros t1 t2 Ht. by rewrite (sa_enc _ _ Ht).
    + intros t'. destruct (aead (enc t')); [apply respects_record|]. destruct (_ =? 0); [apply respects_mret|apply respects_fail].
Qed.

(** What a successful detachment does. *)
Lemma detach_tx_run t t' d :
  ptls_detach_tx t = (Ok d, t') ->
  tx_detached t = false /\ is_Some (aead (enc t)) /\ tx_detached t' = true /\ enc t' = no_traffic_protection /\
  dec t' = dec t /\ recv_rec t' = recv_rec t /\ recv_mess t' = recv_mess t /\ state t' = state t /\
  detached_tx_protocol_version t' = ptls_get_protocol_version t /\
  enc d = enc t /\ ctx d = ctx t /\ cipher_suite d = cipher_suite t /\ needs_key_update d = needs_key_update t /\
  key_update_send_request d = key_update_send_request t /\ tx_detached d = false /\ dec d = no_traffic_protection /\
  (if tls12 (enc t) then key_schedule d = None
   else exists s, key_schedule d = Some s /\ key_schedule_new (cipher_suite t) [] false = Some s).
Proof.
  unfold ptls_detach_tx. rewrite M_bind_run. cbn [gets id].
  match goal with |- context [if ?b then _ else _] => destruct b eqn:Hcond end; [done|].
  apply orb_false_iff in Hcond as [Hcond Haead]. apply orb_false_iff in Hcond as [Hcond _].
  apply orb_false_iff in Hcond as [Hdet _]. apply bool_decide_eq_false in Haead.
  destruct (malloc _); [|done]. rewrite M_bind_run.
  assert (forall n, exists r, duplicate_name n t = (r, t)) as Hdup.
  { intros [n|]; [|by eexists]. unfold duplicate_name. destruct (duplicate_as_str _); by eexists. }
  destruct (Hdup (server_name t)) as [[name|e] ->]; [|done]. rewrite M_bind_run.
  destruct (Hdup (negotiated_protocol t)) as [[proto|e] ->]; [|done]. rewrite M_bind_run.
  unfold ptls_get_protocol_version. rewrite Hdet.
  destruct (tls12 (enc t)) eqn:H12; cbn [negb mret M_ret].
  - rewrite M_bind_run. cbn [modify mret M_ret]. intros [= <- <-]. cbn. rewrite H12.
    split_and!; try done. by destruct (aead (enc t)).
  - destruct (key_schedule_new _ _ _) as [s|]; [|done]. cbn [mret M_ret]. rewrite M_bind_run.
    cbn [modify mret M_ret]. intros [= <- <-]. cbn. rewrite H12.
    split_and!; try done; [by destruct (aead (enc t))|by exists s].
Qed.

Lemma schedule_new_algo suite s : key_schedule_new (Some suite) [] false = Some s -> algo0 s = cs_hash suite.
Proof.
  unfold key_schedule_new. destruct (malloc _); [|done]. destruct (forallb _ _); [|done]. by intros [= <-].
Qed.

(** detaching the sending side moves it.  After [ptls_detach_tx], the detached object sends
    exactly what the connection would have sent: same result, same bytes, for any data and any
    number of further calls (the states stay alike), key updates included.  The connection keeps its
    receiving side and reports the same protocol version, holds no sending key any more, and refuses
    to send. *)
Theorem detach_tx_moves_sender stack input b o p t t' d suite :
  ptls_detach_tx t = (Ok d, t') -> cipher_suite t = Some suite ->
  (if tls12 (enc t) then key_schedule t = None
   else exists s, key_schedule t = Some s /\ algo0 s = cs_hash suite) ->
  alike (mkConn t b o p) (mkConn d b o p) /\
  (ptls_tx_send stack input (mkConn d b o p)).1 = (ptls_send stack input (mkConn t b o p)).1 /\
  alike (ptls_send stack input (mkConn t b o p)).2 (ptls_tx_send stack input (mkConn d b o p)).2 /\
  ptls_send stack input (mkConn t' b o p) = (Err PTLS_ERROR_NOT_AVAILABLE, mkConn t' b o p) /\
  aead (enc t') = None /\ dec t' = dec t /\ dec d = no_traffic_protection /\
  ptls_get_protocol_version t' = ptls_get_protocol_version t.
Proof.
  intros Hdetach Hsuite Hsched.
  destruct (detach_tx_run t t' d Hdetach) as (Hdet & Ha & Hdet' & He' & Hdec & _ & _ & _ & Hv & He & Hc & Hs & Hn & Hq & Hdd & Hd0 & Hk).
  assert (sends_alike t d) as Hal.
  { split; try congruence. destruct (tls12 (enc t)); [congruence|]. destruct Hsched as (s1 & -> & E1), Hk as (s2 & -> & E2).
    rewrite Hsuite in E2. cbn. by rewrite E1, (schedule_new_algo _ _ E2). }
  assert (alike (mkConn t b o p) (mkConn d b o p)) as Hac by done.
  destruct (respects_send stack input _ _ Hac) as [E1 E2].
  split_and!; try done.
  - unfold ptls_send. rewrite M_bind_run. cbn [gets cn_tls]. by rewrite Hdet'.
  - by rewrite He'.
  - unfold ptls_get_protocol_version at 1. by rewrite Hdet'.
Qed.

End SendProofs.

(** ** Witnesses *)

Lemma toy_secret server : has_secret server toy_suite (replicate 8 5) (toy_tls true).
Proof. by split; [exists toy_sched| | | |]; destruct server. Qed.

Lemma toy_send_wf server : buf_wf (cn_send (toy_conn server)).
Proof. apply buffer_init_wf; vm_compute; auto; discriminate. Qed.

Lemma send_receive_roundtrip_witness :
  match @ptls_send bump_allocator [] (str "hello") (toy_conn false) with
  | (Err e, _) => e = PTLS_ERROR_NO_MEMORY
  | (Ok _, c') =>
      exists wire, contents (cn_send c') = contents (cn_send (toy_conn false)) ++ wire /\
      let '(ret, db', peer') := @receive_all bump_allocator 1 toy_handler wire toy_output (toy_conn true) in
      ret = 0 /\ contents db' = contents toy_output ++ str "hello" /\
      seq (dec (cn_tls peer')) = seq (enc (cn_tls c')) \/
      ret = PTLS_ERROR_NO_MEMORY
  end.
Proof.
  apply (@send_receive_roundtrip bump_allocator [] (str "hello") toy_ctx toy_ctx (toy_conn false) toy_handler
    toy_output (toy_conn true));
    [apply toy_aead_ok| |apply toy_send_wf|reflexivity|reflexivity|reflexivity|reflexivity|reflexivity|
     vm_compute; split; [discriminate|reflexivity]|by split|by split|reflexivity|reflexivity|apply toy_output_wf|reflexivity].
  apply (bool_decide_unpack _). vm_compute. exact I.
Defined.

Lemma key_update_in_step_witness :
  let secret' := next_secret toy_hash (replicate 8 5) in
  match @update_send_key bump_allocator [] true (toy_conn true) with
  | (Err e, c') => e = PTLS_ERROR_NO_MEMORY /\ contents (cn_send c') = contents (cn_send (toy_conn true))
  | (Ok _, c') =>
      contents (cn_send c') = contents (cn_send (toy_conn true)) ++
        record13 toy_ctx PTLS_CONTENT_TYPE_HANDSHAKE (key_update_message true) (toy_tp 7) /\
      has_secret true toy_suite secret' (cn_tls c') /\
      match @handle_key_update bump_allocator [] (key_update_message true) (toy_tls true) with
      | (Err e, _) =>
          e = PTLS_ERROR_NO_MEMORY \/
          e = PTLS_ALERT_INTERNAL_ERROR /\ tx_detached (toy_tls true) = true /\ key_update_requests (toy_tls true) = UINT32_MAX
      | (Ok _, peer') =>
          has_secret false toy_suite secret' peer' /\
          seq (enc (cn_tls c')) = 0 /\ seq (dec peer') = 0 /\
          (exists a' d', aead (enc (cn_tls c')) = Some a' /\ aead (dec peer') = Some d' /\ opens d' a') /\
          (true = true -> if tx_detached (toy_tls true) then key_update_requests peer' = key_update_requests (toy_tls true) + 1
                          else needs_key_update peer' = true)
      end
  end.
Proof.
  apply (@key_update_in_step bump_allocator [] [] true toy_ctx toy_suite (replicate 8 5) (toy_conn true) (toy_tls true));
    [apply toy_aead_ok|apply toy_hash_ok|apply toy_send_wf|reflexivity|reflexivity|reflexivity|
     apply toy_secret|apply toy_secret|reflexivity].
Defined.

Lemma tx_sendv_is_send_witness :
  @ptls_tx_sendv bump_allocator [] [str "he"; str "llo"] (toy_conn true)
  = if len (concat [str "he"; str "llo"]) <=? PTLS_MAX_PLAINTEXT_RECORD_SIZE
    then @ptls_tx_send bump_allocator [] (concat [str "he"; str "llo"]) (toy_conn true)
    else (Err PTLS_ERROR_LIBRARY, toy_conn true).
Proof. apply (@tx_sendv_is_send bump_allocator [] [str "he"; str "llo"] (toy_conn true)); [reflexivity|by eexists]. Defined.

(** The detached sender of the example connection, and what is left of the connection. *)
Definition toy_detached : ptls_t :=
  mkTls toy_context PTLS_STATE_SERVER_POST_HANDSHAKE null_buffer null_buffer
    (Some (mkSched 0 zeroes_of_max_digest_size [mkSlot toy_hash [] None])) no_traffic_protection (toy_tp 7)
    None None None (Some toy_suite) (replicate 32 1) None None no_ech true false false false false
    false 0 0 [] None false false None (replicate 64 0) 0 0 None None.
Definition toy_left : ptls_t :=
  set_tx_detached true (set_enc no_traffic_protection (set_detached_tx_protocol_version PTLS_PROTOCOL_VERSION_TLS13 (toy_tls true))).

Lemma detach_tx_moves_sender_witness :
  @ptls_detach_tx bump_allocator (toy_tls true) = (Ok toy_detached, toy_left) /\
  @ptls_send bump_allocator [] (str "x") (mkConn toy_left toy_output [] None) = (Err PTLS_ERROR_NOT_AVAILABLE, mkConn toy_left toy_output [] None).
Proof.
  assert (@ptls_detach_tx bump_allocator (toy_tls true) = (Ok toy_detached, toy_left)) as E by reflexivity.
  split; [exact E|].
  destruct (@detach_tx_moves_sender bump_allocator [] (str "x") toy_output [] None (toy_tls true) toy_left toy_detached toy_suite E)
    as (_ & _ & _ & Hs & _); [reflexivity|by exists toy_sched|exact Hs].
Defined.
