(* ===== verification/Ech.v ===== *)
(** * Ech: Encrypted ClientHello ([lib/picotls.c])

    The configurations a server publishes and a client reads, the set up of the client, and the recovery of
    the inner ClientHello on the server: the client sends it with the extensions it shares with the outer
    one left out, and the server puts them back. *)

From S2P Require Import Prelude Constants Wire Buffer Extensions Crypto KeySchedule Tls Record Emit Negotiate Hpke ClientHello HelloFormat HelloDecode Receive Conn.

(** ** Configurations *)

(* src lib/picotls.c:169-177 st_decoded_ech_config_t *)
Record st_decoded_ech_config_t := mkConfig {
  ec_id : Z; ec_kem : option ptls_hpke_kem_t; ec_public_key : bytes; ec_cipher : option ptls_hpke_cipher_suite_t;
  ec_max_name_length : Z; ec_public_name : bytes; ec_bytes : bytes }.

Definition no_config : st_decoded_ech_config_t := mkConfig 0 None [] None 0 [] [].

Section Config.
Context `{Allocator}.

(** [is_ipaddr] is [ptls_server_name_is_ipaddr]: the resolver of the C library decides. *)
Context (is_ipaddr : bytes -> bool).

(* src lib/picotls.c:1081-1086 kem_id *)
Definition find_kem (kems : list ptls_hpke_kem_t) (id : Z) : option ptls_hpke_kem_t := List.find (λ k, kem_id k =? id) kems.

(* src lib/picotls.c:1104-1109 ciphers *)
Definition find_hpke_cipher (ciphers : list ptls_hpke_cipher_suite_t) (kdf_id aead_id : Z) : option ptls_hpke_cipher_suite_t :=
  List.find (λ c, (hpke_kdf c =? kdf_id) && (hpke_aead_id c =? aead_id)) ciphers.

(** The configuration and what is left of [*src]. *)
(* src lib/picotls.c:1068-1159 decode_one_ech_config *)
Definition decode_one_ech_config (kems : list ptls_hpke_kem_t) (ciphers : list ptls_hpke_cipher_suite_t) (src : bytes)
    : result (st_decoded_ech_config_t * bytes) :=
  '(id, src) ← ptls_decode8 src;
  '(kem, src) ← ptls_decode16 src;
  let kem := find_kem kems kem in
  '(public_key, src) ← ptls_decode_open_block 2 (λ b, match b with [] => Err PTLS_ALERT_DECODE_ERROR | _ => Ok (b, []) end) src;
  '(cipher, src) ← ptls_decode_open_block 2 (decode_do_while (λ found src,
      '(kdf_id, src) ← ptls_decode16 src;
      '(aead_id, src) ← ptls_decode16 src;
      Ok (match found with Some c => Some c | None => find_hpke_cipher ciphers kdf_id aead_id end, src)) None) src;
  '(max_name_length, src) ← ptls_decode8 src;
  '(usable, public_name, src) ← ('((usable, public_name), src) ← ptls_decode_open_block 1 (λ b,
      match b with
      | [] => Err PTLS_ALERT_DECODE_ERROR
      | _ =>
          match duplicate_as_str b with
          | None => Err PTLS_ERROR_NO_MEMORY
          | Some name => if is_ipaddr (c_string name) then Ok ((false, []), []) else Ok ((true, b), [])
          end
      end) src; Ok (usable, public_name, src));
  (* a critical extension: the configuration cannot be used *)
  usable ← ptls_decode_block 2 (λ b : bytes, decode_while (length b) (λ (usable : bool) (src : bytes),
      '(type, src) ← ptls_decode16 src;
      '(_, src) ← ptls_decode_open_block 2 (λ b, Ok (b, [])) src;
      Ok (if negb (Z.land type 0x8000 =? 0) then false else usable, src)) usable b) src;
  Ok (mkConfig id (if (usable : bool) then kem else None) public_key (if (usable : bool) then cipher else None) max_name_length public_name [], []).

(* src lib/picotls.c:1174-1188 thisconf *)
Definition decode_config_entry (c : ptls_context_t) (found : option st_decoded_ech_config_t) (src : bytes)
    : result (option st_decoded_ech_config_t * bytes) :=
  let config_start := src in
  '(version, src) ← ptls_decode16 src;
  ptls_decode_open_block 2 (λ b,
    if version =? PTLS_ECH_CONFIG_VERSION then
      '(thisconf, rest) ← decode_one_ech_config (ech_client_kems c) (default [] (ech_client_ciphers c)) b;
      Ok (match found, ec_kem thisconf, ec_cipher thisconf with
          | None, Some _, Some _ =>
              Some (mkConfig (ec_id thisconf) (ec_kem thisconf) (ec_public_key thisconf) (ec_cipher thisconf)
                      (ec_max_name_length thisconf) (ec_public_name thisconf) (take (4 + length b) config_start))
          | _, _, _ => found
          end, rest)
    else Ok (found, [])) src.

(** The first configuration that can be used; a zeroed one if there is none, or with an error. *)
(* src lib/picotls.c:1161-1197 client_decode_ech_config_list *)
Definition client_decode_ech_config_list (c : ptls_context_t) (config_list : bytes) : result st_decoded_ech_config_t :=
  found ← ptls_decode_block 2 (decode_do_while (decode_config_entry c) None) config_list;
  Ok (default no_config found).

(* src lib/picotls.c:7041-7066 ptls_ech_encode_config *)
Definition ptls_ech_encode_config (config_id : Z) (kem : ptls_hpke_kem_t) (public_key : bytes)
    (ciphers : list ptls_hpke_cipher_suite_t) (max_name_length : Z) (public_name : bytes) : M ptls_buffer_t unit :=
  b ← gets id;
  _ ← lift (buffer_require_direction b 1);
  _ ← ptls_buffer_push16 PTLS_ECH_CONFIG_VERSION;
  ptls_buffer_push_block 2
    (_ ← ptls_buffer_push [config_id];
     _ ← ptls_buffer_push16 (kem_id kem);
     _ ← ptls_buffer_push_block 2 (ptls_buffer_pushv public_key);
     _ ← ptls_buffer_push_block 2
           (push_all (λ c, _ ← ptls_buffer_push16 (hpke_kdf c); ptls_buffer_push16 (hpke_aead_id c)) ciphers);
     _ ← ptls_buffer_push [max_name_length];
     _ ← ptls_buffer_push_block 1 (ptls_buffer_pushv (c_string public_name));
     ptls_buffer_push_block 2 (mret ())).

(** ** The client *)

(* src lib/picotls.c:1045-1062 clear_ech *)
Definition clear_ech (server : bool) (e : st_ptls_ech_t) : st_ptls_ech_t :=
  let zeros := replicate (Z.to_nat PTLS_HELLO_RANDOM_SIZE) 0 in
  if server then
    mkEch (ech_state e) (ech_config_id e) (ech_kem e) (ech_cipher e) None zeros (ech_enc e) (max_name_length e) (public_name e) (first_ech e)
  else mkEch (ech_state e) (ech_config_id e) (ech_kem e) (ech_cipher e) None zeros [] (max_name_length e) None None.

(** [inner_random] is what [random_bytes] writes.  An error leaves the state cleared.  A context that could
    not be made is no error: [aead] is NULL then. *)
(* src lib/picotls.c:1199-1230 client_setup_ech *)
Definition client_setup_ech (decoded : st_decoded_ech_config_t) (inner_random : bytes) : M st_ptls_ech_t unit :=
  λ e,
  match ec_kem decoded, ec_cipher decoded with
  | Some kem, Some cipher =>
      let '(r, infobuf) := (_ ← ptls_buffer_pushv ech_info_prefix; ptls_buffer_pushv (ec_bytes decoded)) (smallbuf 256) in
      match (_ ← r; ptls_hpke_setup_base_s kem cipher (ec_public_key decoded) (contents infobuf)) with
      | Err er => (Err er, clear_ech false e)
      | Ok (enc, aead) =>
          match duplicate_as_str (ec_public_name decoded) with
          | None =>
              (Err PTLS_ERROR_NO_MEMORY,
               clear_ech false (mkEch (ech_state e) (ec_id decoded) (Some kem) (Some cipher) aead inner_random enc
                                  (ec_max_name_length decoded) None (first_ech e)))
          | Some name =>
              (Ok (), mkEch (ech_state e) (ec_id decoded) (Some kem) (Some cipher) aead inner_random enc
                        (ec_max_name_length decoded) (Some name) (first_ech e))
          end
      end
  | _, _ => (Err ABORTED, e)
  end.

(* src include/zpicotls.h:87 PTLS_AES_IV_SIZE *)
Definition PTLS_AES_IV_SIZE : Z := 16.

(** [rnd]: site 0 is the key and the IV, 1 [enc], 2 the identifier.  No error is returned: a failure leaves
    the state cleared. *)
(* src lib/picotls.c:1232-1274 client_setup_ech_grease *)
Definition client_setup_ech_grease (kems : list ptls_hpke_kem_t) (ciphers : list ptls_hpke_cipher_suite_t) (sni_name : bytes)
    (rnd : draws) (e : st_ptls_ech_t) : st_ptls_ech_t :=
  let kem := match find_kem kems PTLS_HPKE_KEM_X25519_SHA256 with Some k => Some k | None => ech_kem e end in
  let cipher := match find_hpke_cipher ciphers PTLS_HPKE_HKDF_SHA256 PTLS_HPKE_AEAD_AES_128_GCM with
                | Some c => Some c | None => ech_cipher e end in
  let e := mkEch (ech_state e) (ech_config_id e) kem cipher (ech_aead e) (inner_client_random e) (ech_enc e) (max_name_length e)
             (public_name e) (first_ech e) in
  match kem, cipher with
  | Some _, Some c =>
      let secret := rnd 0%nat (PTLS_AES128_KEY_SIZE + PTLS_AES_IV_SIZE) in
      let aead := ptls_aead_new_direct (hpke_aead c) true (take (Z.to_nat (key_size (hpke_aead c))) secret)
                    (take (Z.to_nat (iv_size (hpke_aead c))) (drop (Z.to_nat PTLS_AES128_KEY_SIZE) secret)) in
      match malloc 32 with
      | None => clear_ech false e
      | Some _ =>
          let enc := rnd 1%nat 32 in
          let e := mkEch (ech_state e) (byte_at (rnd 2%nat 1) 0) kem cipher aead (inner_client_random e) enc 64 (public_name e) (first_ech e) in
          match duplicate_as_str (c_string sni_name) with
          | None => clear_ech false e
          | Some name =>
              mkEch (ech_state e) (ech_config_id e) kem cipher aead (inner_client_random e) enc 64 (Some name) (first_ech e)
          end
      end
  | _, _ => clear_ech false e
  end.

End Config.

(** ** Putting the inner ClientHello together *)

Section Rebuild.
Context `{Allocator} {S : Type} `{HasBuffer S}.

(** The decoding macros around code that pushes. *)
Definition open_block {A} (cap : Z) (block : bytes -> M S (A * bytes)) (src : bytes) : M S (A * bytes) :=
  '(inner, rest) ← lift (split_block cap src);
  '(a, inner') ← block inner;
  _ ← lift (ptls_decode_assert_block_close inner');
  mret (a, rest).

Fixpoint while_left {A} (fuel : nat) (step : A -> bytes -> M S (A * bytes)) (a : A) (src : bytes) : M S (A * bytes) :=
  match src, fuel with
  | [], _ => mret (a, [])
  | _, O => fail OUT_OF_FUEL
  | _, Datatypes.S fuel => '(a, src) ← step a src; while_left fuel step a src
  end.

(** The next extension of type [reftype] among the outer ones: its size, and the bytes from its body on. *)
(* src lib/picotls.c:4031-4041 outertype *)
Fixpoint find_outer (fuel : nat) (reftype : Z) (outer_ext : bytes) : result (Z * bytes) :=
  match fuel with
  | O => Err OUT_OF_FUEL
  | Datatypes.S fuel =>
      match ('(outertype, o) ← ptls_decode16 outer_ext; '(outersize, o) ← ptls_decode16 o; Ok (outertype, outersize, o)) with
      | Err _ => Err PTLS_ALERT_ILLEGAL_PARAMETER
      | Ok (outertype, outersize, o) =>
          if negb (outersize <=? len o) then Err ABORTED
          else if outertype =? reftype then Ok (outersize, o)
          else find_outer fuel reftype (drop (Z.to_nat outersize) o)
      end
  end.

(* src lib/picotls.c:4021-4046 reftype *)
Definition copy_outer (outer_ext src : bytes) : M S (bytes * bytes) :=
  '(reftype, src) ← lift (ptls_decode16 src);
  _ ← lift (guard_err (negb (reftype =? PTLS_EXTENSION_TYPE_ENCRYPTED_CLIENT_HELLO)) PTLS_ALERT_ILLEGAL_PARAMETER);
  '(outersize, o) ← lift (find_outer (Datatypes.S (length outer_ext)) reftype outer_ext);
  _ ← buffer_push_extension reftype (ptls_buffer_pushv (take (Z.to_nat outersize) o));
  mret (drop (Z.to_nat outersize) o, src).

(** One extension of the inner ClientHello; [outer_ext] advances past the ones that are used. *)
(* src lib/picotls.c:4015-4054 exttype *)
Definition rebuild_extension (outer_ext src : bytes) : M S (bytes * bytes) :=
  '(exttype, src) ← lift (ptls_decode16 src);
  open_block 2 (λ b,
    if exttype =? PTLS_EXTENSION_TYPE_ECH_OUTER_EXTENSIONS then
      open_block 1 (λ l,
        '(outer_ext, rest) ← copy_outer outer_ext l;
        while_left (length l) copy_outer outer_ext rest) b
    else
      (_ ← buffer_push_extension exttype (ptls_buffer_pushv b);
       mret (outer_ext, []))) src.

(** What is left of [*src]. *)
(* src lib/picotls.c:4007-4061 rebuild_ch_inner_extensions *)
Definition rebuild_ch_inner_extensions (src outer_ext : bytes) : M S bytes :=
  '(_, src) ← ptls_buffer_push_block 2 (open_block 2 (λ b, while_left (length b) rebuild_extension outer_ext b) src);
  mret src.

(* src lib/picotls.c:4066-4072 COPY_BLOCK *)
Definition copy_block (cap : Z) (src : bytes) : M S bytes :=
  '(_, src) ← open_block cap (λ b, _ ← ptls_buffer_push_block cap (ptls_buffer_pushv b); mret ((), [])) src;
  mret src.

(* src lib/picotls.c:4063-4122 rebuild_ch_inner *)
Definition rebuild_ch_inner (src outer_session_id outer_ext : bytes) : M S unit :=
  src ← push_message_unhashed PTLS_HANDSHAKE_TYPE_CLIENT_HELLO
    ('(legacy_version, src) ← lift (ptls_decode16 src);
     _ ← ptls_buffer_push16 legacy_version;
     _ ← lift (guard_err (PTLS_HELLO_RANDOM_SIZE <=? len src) PTLS_ALERT_DECODE_ERROR);
     _ ← ptls_buffer_pushv (take (Z.to_nat PTLS_HELLO_RANDOM_SIZE) src);
     let src := drop (Z.to_nat PTLS_HELLO_RANDOM_SIZE) src in
     '(_, src) ← open_block 1 (λ b, match b with [] => mret ((), []) | _ => fail PTLS_ALERT_ILLEGAL_PARAMETER end) src;
     _ ← ptls_buffer_push_block 1 (ptls_buffer_pushv outer_session_id);
     src ← copy_block 2 src;
     src ← copy_block 1 src;
     rebuild_ch_inner_extensions src outer_ext);
  lift (guard_err (forallb (λ b, b =? 0) src) PTLS_ALERT_ILLEGAL_PARAMETER).

End Rebuild.

(** ** What rebuilding is: the references replaced by the extensions they name *)

Inductive inner_ext :=
| Own (t : Z) (body : bytes)
| Refs (types : list Z).

Definition enc_inner (x : inner_ext) : Z * bytes :=
  match x with
  | Own t body => (t, body)
  | Refs types => (PTLS_EXTENSION_TYPE_ECH_OUTER_EXTENSIONS, block1 (concat (bytes16 <$> types)))
  end.

(** The next of the outer extensions with the type, and those after it. *)
Fixpoint take_ref (outer : list (Z * bytes)) (t : Z) : option (bytes * list (Z * bytes)) :=
  match outer with
  | [] => None
  | (t', body) :: outer => if t' =? t then Some (body, outer) else take_ref outer t
  end.

Fixpoint take_refs (outer : list (Z * bytes)) (types : list Z) : option (list (Z * bytes) * list (Z * bytes)) :=
  match types with
  | [] => Some ([], outer)
  | t :: types =>
      '(body, outer) ← take_ref outer t;
      '(es, outer) ← take_refs outer types;
      Some ((t, body) :: es, outer)
  end.

Fixpoint expand (outer : list (Z * bytes)) (l : list inner_ext) : option (list (Z * bytes)) :=
  match l with
  | [] => Some []
  | Own t body :: l => es ← expand outer l; Some ((t, body) :: es)
  | Refs types :: l => '(fs, outer) ← take_refs outer types; es ← expand outer l; Some (fs ++ es)
  end.

(** The inner extensions are well formed. *)
Definition inner_ok (x : inner_ext) : Prop :=
  ext_ok (enc_inner x) /\
  match x with
  | Own t _ => t <> PTLS_EXTENSION_TYPE_ECH_OUTER_EXTENSIONS
  | Refs types => 0 < len types < 128 /\ Forall (λ t, 0 <= t < 2 ^ 16 /\ t <> PTLS_EXTENSION_TYPE_ENCRYPTED_CLIENT_HELLO) types
  end.

Lemma find_outer_spec fuel t outer :
  Forall ext_ok outer -> (length outer < fuel)%nat ->
  find_outer fuel t (enc_exts outer)
  = match take_ref outer t with
    | Some (body, outer') => Ok (len body, body ++ enc_exts outer')
    | None => Err PTLS_ALERT_ILLEGAL_PARAMETER
    end.
Proof.
  revert outer. induction fuel as [|fuel IH]; intros outer Hf Hl; [lia|]. destruct outer as [|[t' body] outer].
  - cbn [find_outer take_ref]. done.
  - inv Hf. destruct H1 as [Ht Hb]. cbn [fst snd] in *. cbn [find_outer]. rewrite enc_exts_cons. unfold enc_ext. cbn [fst snd].
    rewrite <- !app_assoc, decode16_push16 by done. cbn [mbind result_bind]. pose proof (len_nonneg body).
    rewrite <- (bytes16_be (len body)), decode16_push16 by (split; [lia|exact Hb]). cbn [mbind result_bind].
    rewrite (proj2 (Z.leb_le _ _)) by (rewrite len_app; pose proof (len_nonneg (enc_exts outer)); lia). cbn [negb take_ref].
    destruct (t' =? t); [done|]. rewrite drop_len_app. apply IH; [done|]. cbn [length] in Hl. lia.
Qed.

Lemma enc_exts_length outer : (length outer <= length (enc_exts outer))%nat.
Proof.
  induction outer as [|e outer IH]; [done|]. rewrite enc_exts_cons, length_app. unfold enc_ext. rewrite !length_app, be_encode_length.
  cbn [length]. lia.
Qed.

Lemma take_ref_ok outer t body outer' :
  Forall ext_ok outer -> take_ref outer t = Some (body, outer') -> len body < 65536 /\ Forall ext_ok outer'.
Proof.
  induction outer as [|[t' b] outer IH]; intros Hf He; [done|]. inv Hf. cbn [take_ref] in He.
  destruct (t' =? t); [|by apply IH]. injection He as -> ->. by destruct H1.
Qed.

Section RebuildProofs.
Context `{Allocator} {S : Type} `{HasBuffer S}.

Lemma writes_open {A} d o (cap : nat) (block : bytes -> M S (A * bytes)) body rest a bs :
  (1 <= cap <= 8)%nat -> len body < 256 ^ Z.of_nat cap -> writes_at d o (block body) (a, []) bs ->
  writes_at d o (open_block (Z.of_nat cap) block (be_encode cap (len body) ++ body ++ rest)) (a, rest) bs.
Proof.
  intros Hc Hl Hb. unfold open_block. eapply writes_lift; [by apply split_block_fixed|]. cbv beta iota.
  rewrite <- (app_nil_r bs). eapply writes_bind; [exact Hb|]. cbv beta iota. eapply writes_lift; [reflexivity|]. apply writes_ret.
Qed.

Lemma writes_open1 {A} d o (block : bytes -> M S (A * bytes)) body rest a bs :
  len body < 256 -> writes_at d o (block body) (a, []) bs -> writes_at d o (open_block 1 block (block1 body ++ rest)) (a, rest) bs.
Proof. intros Hl Hb. unfold block1. rewrite <- app_assoc. exact (writes_open d o 1 block body rest a bs ltac:(lia) Hl Hb). Qed.

Lemma writes_open2 {A} d o (block : bytes -> M S (A * bytes)) body rest a bs :
  len body < 65536 -> writes_at d o (block body) (a, []) bs -> writes_at d o (open_block 2 block (block2 body ++ rest)) (a, rest) bs.
Proof. intros Hl Hb. unfold block2. rewrite <- app_assoc. exact (writes_open d o 2 block body rest a bs ltac:(lia) Hl Hb). Qed.

(** The loop, one step at a time. *)
Lemma writes_while {A} d o fuel (step : A -> bytes -> M S (A * bytes)) a a1 r x rest bs cs :
  x <> [] -> writes_at d o (step a (x ++ rest)) (a1, rest) bs -> writes_at d (o + len bs) (while_left fuel step a1 rest) r cs ->
  writes_at d o (while_left (Datatypes.S fuel) step a (x ++ rest)) r (bs ++ cs).
Proof.
  intros Hx Hs Hw. destruct (x ++ rest) as [|b l] eqn:E; [by destruct x|]. cbn [while_left]. rewrite <- E in *.
  eapply writes_bind; [exact Hs|exact Hw].
Qed.

Lemma writes_copy_outer d o outer t body outer' rest :
  Forall ext_ok outer -> 0 <= t < 2 ^ 16 -> t <> PTLS_EXTENSION_TYPE_ENCRYPTED_CLIENT_HELLO -> take_ref outer t = Some (body, outer') ->
  writes_at (S:=S) d o (copy_outer (enc_exts outer) (bytes16 t ++ rest)) (enc_exts outer', rest) (enc_exts [(t, body)]).
Proof.
  intros Hf Ht Hne Hr. unfold copy_outer. eapply writes_lift; [by apply decode16_push16|]. cbv beta iota.
  eapply writes_lift; [by rewrite (proj2 (Z.eqb_neq t _) Hne)|]. pose proof (enc_exts_length outer).
  eapply writes_lift; [rewrite find_outer_spec by (done || lia); by rewrite Hr|]. cbv beta iota.
  rewrite take_len_app, drop_len_app. rewrite <- (app_nil_r (enc_exts [(t, body)])). destruct (take_ref_ok _ _ _ _ Hf Hr).
  eapply writes_bind; [by apply writes_extension; [|apply writes_pushv]|]. apply writes_ret.
Qed.

Lemma writes_refs d o types fuel outer fs outer' :
  Forall ext_ok outer -> Forall (λ t, 0 <= t < 2 ^ 16 /\ t <> PTLS_EXTENSION_TYPE_ENCRYPTED_CLIENT_HELLO) types ->
  take_refs outer types = Some (fs, outer') -> (length types <= fuel)%nat ->
  writes_at (S:=S) d o (while_left fuel copy_outer (enc_exts outer) (concat (bytes16 <$> types))) (enc_exts outer', []) (enc_exts fs) /\
  Forall ext_ok outer'.
Proof.
  revert o fuel outer fs. induction types as [|t types IH]; intros o fuel outer fs Hf Ht Hr Hl.
  - injection Hr as <- <-. split; [|done]. destruct fuel; apply writes_ret.
  - inv Ht. destruct H3 as [Hlt Hne]. cbn [take_refs] in Hr. destruct (take_ref outer t) as [[body outer1]|] eqn:E; [|done].
    cbn [mbind option_bind] in Hr. destruct (take_refs outer1 types) as [[es outer2]|] eqn:E2; [|done]. injection Hr as <- <-.
    destruct (take_ref_ok _ _ _ _ Hf E) as [_ Hf1]. destruct fuel as [|fuel]; [cbn in Hl; lia|].
    destruct (IH (o + len (enc_exts [(t, body)])) fuel outer1 es) as [Hw Hf2]; [done..|cbn in Hl; lia|]. split; [|done].
    rewrite fmap_cons, concat_cons. change ((t, body) :: es) with ([(t, body)] ++ es). rewrite enc_exts_app.
    eapply writes_while; [done|by apply writes_copy_outer|exact Hw].
Qed.

Lemma writes_rebuild_one d o outer x fs outer' rest :
  Forall ext_ok outer -> inner_ok x ->
  match x with Own t body => fs = [(t, body)] /\ outer' = outer | Refs types => take_refs outer types = Some (fs, outer') end ->
  writes_at (S:=S) d o (rebuild_extension (enc_exts outer) (enc_ext (enc_inner x) ++ rest)) (enc_exts outer', rest) (enc_exts fs) /\
  Forall ext_ok outer'.
Proof.
  intros Hf [[Ht Hl] Hx] Hr. unfold rebuild_extension, enc_ext. rewrite <- app_assoc.
  fold (block2 (snd (enc_inner x))). destruct x as [t body|types]; cbn [enc_inner fst snd] in *.
  - destruct Hr as [-> ->]. split; [|done]. eapply writes_lift; [by apply decode16_push16|]. cbv beta iota.
    apply writes_open2; [done|]. rewrite (proj2 (Z.eqb_neq _ _) Hx). rewrite <- (app_nil_r (enc_exts [(t, body)])).
    eapply writes_bind; [by apply writes_extension; [|apply writes_pushv]|]. apply writes_ret.
  - destruct Hx as [Hlen Hty]. destruct types as [|t types]; [by change (len []) with 0 in Hlen; lia|].
    pose proof (writes_refs d o (t :: types) (Datatypes.S (length types)) outer fs outer' Hf Hty Hr ltac:(done)) as [Hw Hf'].
    split; [|done]. eapply writes_lift; [by apply decode16_push16|]. cbv beta iota. apply writes_open2; [done|].
    rewrite Z.eqb_refl, <- (app_nil_r (block1 _)). apply writes_open1; [rewrite len_concat16; lia|].
    rewrite fmap_cons, concat_cons in *. cbn [take_refs] in Hr. destruct (take_ref outer t) as [[body outer1]|] eqn:E; [|done].
    cbn [mbind option_bind] in Hr. destruct (take_refs outer1 types) as [[es outer2]|] eqn:E2; [|done]. injection Hr as <- <-.
    inv Hty. destruct H3 as [Hlt Hne]. destruct (take_ref_ok _ _ _ _ Hf E) as [_ Hf1].
    change ((t, body) :: es) with ([(t, body)] ++ es). rewrite enc_exts_app. eapply writes_bind; [by apply writes_copy_outer|].
    cbv beta iota. apply (writes_refs d _ types _ outer1 es outer2 Hf1 H4 E2).
    rewrite length_app. pose proof (len_concat16 types) as Hc. unfold len in Hc. lia.
Qed.

(** The loop over the inner extensions. *)
Lemma writes_rebuild d o l fuel outer es :
  Forall ext_ok outer -> Forall inner_ok l -> expand outer l = Some es -> (length l <= fuel)%nat ->
  exists outer', writes_at (S:=S) d o (while_left fuel rebuild_extension (enc_exts outer) (enc_exts (enc_inner <$> l))) (outer', []) (enc_exts es).
Proof.
  revert o fuel outer es. induction l as [|x l IH]; intros o fuel outer es Hf Hl He Hfu.
  { injection He as <-. exists (enc_exts outer). destruct fuel; apply writes_ret. }
  inv Hl. destruct fuel as [|fuel]; [cbn in Hfu; lia|]. rewrite fmap_cons, enc_exts_cons.
  assert (exists fs outer1 es', (match x with Own t body => fs = [(t, body)] /\ outer1 = outer | Refs types => take_refs outer types = Some (fs, outer1) end) /\
    expand outer1 l = Some es' /\ es = fs ++ es') as (fs & outer1 & es' & Hx & Hes & ->).
  { destruct x as [t body|types]; cbn [expand] in He.
    - destruct (expand outer l) as [es'|] eqn:E; [|done]. injection He as <-. by exists [(t, body)], outer, es'.
    - destruct (take_refs outer types) as [[fs outer1]|] eqn:E1; [|done]. cbn [mbind option_bind] in He.
      destruct (expand outer1 l) as [es'|] eqn:E; [|done]. injection He as <-. by exists fs, outer1, es'. }
  destruct (writes_rebuild_one d o outer x fs outer1 (enc_exts (enc_inner <$> l)) Hf H3 Hx) as [Hw Hf1].
  destruct (IH (o + len (enc_exts fs)) fuel outer1 es' Hf1 H4 Hes) as [outer' Hw']; [cbn in Hfu; lia|].
  exists outer'. rewrite enc_exts_app. eapply writes_while; [|exact Hw|exact Hw']. done.
Qed.

End RebuildProofs.

(** ** Configurations *)

Section ConfigProofs.
Context `{Allocator} (is_ipaddr : bytes -> bool).

Definition config_body (config_id : Z) (kem : ptls_hpke_kem_t) (public_key : bytes) (ciphers : list ptls_hpke_cipher_suite_t)
    (max_name : Z) (name : bytes) : bytes :=
  [config_id] ++ bytes16 (kem_id kem) ++ block2 public_key ++
  block2 (concat ((λ c, bytes16 (hpke_kdf c) ++ bytes16 (hpke_aead_id c)) <$> ciphers)) ++ [max_name] ++ block1 (c_string name) ++ block2 [].

Definition config_bytes (config_id : Z) (kem : ptls_hpke_kem_t) (public_key : bytes) (ciphers : list ptls_hpke_cipher_suite_t)
    (max_name : Z) (name : bytes) : bytes :=
  bytes16 PTLS_ECH_CONFIG_VERSION ++ block2 (config_body config_id kem public_key ciphers max_name name).

(** The suite a client takes: the first of the server's that it has. *)
Definition chosen_cipher (mine theirs : list ptls_hpke_cipher_suite_t) : option ptls_hpke_cipher_suite_t :=
  head (omap (λ c, find_hpke_cipher mine (hpke_kdf c) (hpke_aead_id c)) theirs).

Record config_ok (config_id : Z) (kem : ptls_hpke_kem_t) (public_key : bytes) (ciphers : list ptls_hpke_cipher_suite_t)
    (max_name : Z) (name : bytes) : Prop := {
  cf_bytes : is_bytes [config_id; max_name];
  cf_kem : 0 <= kem_id kem < 2 ^ 16;
  cf_key : public_key <> [];
  cf_ciphers : ciphers <> [] /\ Forall (λ c, 0 <= hpke_kdf c < 2 ^ 16 /\ 0 <= hpke_aead_id c < 2 ^ 16) ciphers;
  cf_name : c_string name <> [] /\ len (c_string name) < 256;
  cf_size : len (config_body config_id kem public_key ciphers max_name name) < 65000;
}.

Lemma config_body_len config_id kem public_key ciphers max_name name :
  len (config_body config_id kem public_key ciphers max_name name)
  = 11 + len public_key + len (concat ((λ c, bytes16 (hpke_kdf c) ++ bytes16 (hpke_aead_id c)) <$> ciphers)) + len (c_string name).
Proof. unfold config_body. rewrite !len_app, !len_block2, len_block1, len_bytes16. change (len [_]) with 1. change (len []) with 0. lia. Qed.

Lemma first_found (mine theirs : list ptls_hpke_cipher_suite_t) found :
  foldl (λ found c, match found with Some x => Some x | None => find_hpke_cipher mine (hpke_kdf c) (hpke_aead_id c) end) found theirs
  = match found with Some x => Some x | None => chosen_cipher mine theirs end.
Proof.
  revert found. induction theirs as [|c l IH]; intros found; cbn [foldl]; [by destruct found|]. rewrite IH.
  destruct found; [done|]. unfold chosen_cipher. cbn [omap list_omap]. by destruct (find_hpke_cipher mine _ _).
Qed.

Lemma decode_config_body mine kems config_id kem public_key ciphers max_name name :
  config_ok config_id kem public_key ciphers max_name name -> is_ipaddr (c_string name) = false ->
  gives (decode_one_ech_config is_ipaddr kems mine (config_body config_id kem public_key ciphers max_name name))
    (mkConfig config_id (find_kem kems (kem_id kem)) public_key (chosen_cipher mine ciphers) max_name (c_string name) [], []).
Proof.
  intros [] Hip. rewrite config_body_len in cf_size0. destruct cf_ciphers0 as [Hne Hci]. destruct cf_name0 as [Hnn Hnl].
  set (cs := concat _) in *. pose proof (len_nonneg cs). pose proof (len_nonneg public_key). pose proof (len_nonneg (c_string name)).
  unfold decode_one_ech_config, config_body. fold cs. cbn [app]. rewrite decode8_cons. cbn [mbind result_bind].
  rewrite decode16_push16 by done. cbn [mbind result_bind]. rewrite open_block2_run by lia.
  destruct public_key as [|k public_key]; [done|]. cbn [mbind result_bind ptls_decode_assert_block_close].
  rewrite open_block2_run by lia. unfold cs.
  rewrite (decode_do_while_list _ (λ c, bytes16 (hpke_kdf c) ++ bytes16 (hpke_aead_id c))
    (λ found c, match found with Some x => Some x | None => find_hpke_cipher mine (hpke_kdf c) (hpke_aead_id c) end)).
  2: done.
  2:{ intros a x rest Hx. rewrite Forall_forall in Hci. destruct (Hci x Hx). rewrite <- app_assoc, decode16_push16 by done.
      cbn [mbind result_bind]. by rewrite decode16_push16 by done. }
  2: done.
  rewrite first_found. cbn [mbind result_bind ptls_decode_assert_block_close app]. rewrite decode8_cons. cbn [mbind result_bind].
  rewrite open_block1_run by lia. destruct (c_string name) as [|x n] eqn:En; [done|]. rewrite <- En in *. unfold duplicate_as_str.
  destruct (malloc _); [|by right]. left. assert (c_string (c_string name) = c_string name) as ->.
  { apply c_string_id. pose proof (c_string_nonzero name) as Hz. clear -Hz. induction (c_string name) as [|b l IH]; [done|].
    cbn in Hz. apply orb_false_iff in Hz as [Hb Hl]. constructor; [by apply Z.eqb_neq|by apply IH]. }
  rewrite Hip. cbn [mbind result_bind ptls_decode_assert_block_close]. by rewrite (decode_block2 _ [] true).
Qed.

Lemma writes_direction {A} o (m : M ptls_buffer_t A) a bs :
  writes_at 1 o m a bs -> writes_at 1 o (b ← gets id; _ ← lift (buffer_require_direction b 1); m) a bs.
Proof.
  intros Hm b Hw Ht Ho. rewrite M_bind_run. cbn [gets id]. rewrite M_bind_run. unfold lift, buffer_require_direction.
  cbn [get_buf HasBuffer_id] in Ht. rewrite Ht. by apply Hm.
Qed.

Lemma writes_config o config_id kem public_key ciphers max_name name :
  config_ok config_id kem public_key ciphers max_name name ->
  writes_at 1 o (ptls_ech_encode_config config_id kem public_key ciphers max_name name) ()
    (config_bytes config_id kem public_key ciphers max_name name).
Proof.
  intros []. apply writes_direction. pose proof cf_size0 as Hs. rewrite config_body_len in Hs.
  apply Forall_cons in cf_bytes0 as [Hb1 Hb2].
  set (cs := concat _) in Hs. pose proof (len_nonneg cs). pose proof (len_nonneg public_key). pose proof (len_nonneg (c_string name)).
  eapply writes_bind; [apply writes_push16|]. apply writes_block2; [lia|]. unfold config_body.
  emit; try done; try (by apply Forall_singleton); try (fold cs; lia).
  apply writes_push_all. intros x _. apply writes_seq; apply writes_push16.
Qed.

(** a client reads the ECH configuration that a server publishes.  [ptls_ech_encode_config] appends one
    configuration to any send buffer, or memory runs out; and a client given the list with that
    configuration gets the key, the names and limits in it, the KEM if it has one of that identifier and the
    first of the server's suites that it supports; the bytes it keeps for the HPKE info are those of the
    configuration.  If it has no such KEM or suite, it uses no configuration. *)
Theorem ech_config_roundtrip c config_id kem public_key ciphers max_name name b :
  config_ok config_id kem public_key ciphers max_name name -> is_ipaddr (c_string name) = false -> buf_wf b -> tx b = 1 ->
  let config := config_bytes config_id kem public_key ciphers max_name name in
  match ptls_ech_encode_config config_id kem public_key ciphers max_name name b with
  | (Ok _, b') => buf_wf b' /\ contents b' = contents b ++ config
  | (Err e, _) => e = PTLS_ERROR_NO_MEMORY
  end /\
  gives (client_decode_ech_config_list is_ipaddr c (block2 config))
    match find_kem (ech_client_kems c) (kem_id kem), chosen_cipher (default [] (ech_client_ciphers c)) ciphers with
    | Some k, Some s => mkConfig config_id (Some k) public_key (Some s) max_name (c_string name) config
    | _, _ => no_config
    end.
Proof.
  intros Hok Hip Hw Ht config. pose proof Hok as []. set (body := config_body config_id kem public_key ciphers max_name name) in *. split.
  - destruct (writes_config (off b) _ _ _ _ _ _ Hok b Hw Ht eq_refl) as [Ho _].
    destruct (ptls_ech_encode_config _ _ _ _ _ _ b) as [[[]|e] b']; destruct Ho as (Hw' & _ & Ho); cbn [fst snd] in Ho; [by destruct Ho|].
    by destruct Ho as [[->|(? & ? & _)] _].
  - unfold client_decode_ech_config_list. pose proof (decode_config_body (default [] (ech_client_ciphers c)) (ech_client_kems c)
      config_id kem public_key ciphers max_name name Hok Hip) as Hd. fold body in Hd.
    set (k := find_kem (ech_client_kems c) (kem_id kem)) in *. set (s := chosen_cipher (default [] (ech_client_ciphers c)) ciphers) in *.
    assert (gives (decode_config_entry is_ipaddr c None config) (match k, s with
      | Some k, Some s => Some (mkConfig config_id (Some k) public_key (Some s) max_name (c_string name) config) | _, _ => None end, [])) as He.
    { unfold decode_config_entry, config, config_bytes. rewrite decode16_push16 by done. cbn [mbind result_bind]. fold body.
      rewrite <- (app_nil_r (block2 body)), open_block2_run by (unfold body in *; lia). rewrite app_nil_r, Z.eqb_refl.
      destruct Hd as [-> | ->]; [left|by right]. cbn [mbind result_bind ptls_decode_assert_block_close ec_kem ec_cipher].
      destruct k, s; try done. cbn [ec_id ec_kem ec_public_key ec_cipher ec_max_name_length ec_public_name].
      rewrite (firstn_all2 (n:=4 + length body)); [done|]. unfold block2. rewrite !length_app, be_encode_length.
      change (length (bytes16 _)) with 2%nat. lia. }
    unfold ptls_decode_block. rewrite <- (app_nil_r (block2 config)).
    assert (len config < 65536) as Hlc by (unfold config, config_bytes; rewrite len_app, len_block2, len_bytes16; unfold body in *; lia).
    rewrite open_block2_run by exact Hlc. destruct He as [He|He].
    + left. rewrite (decode_do_while_one _ None _ _ He). cbn [mbind result_bind ptls_decode_assert_block_close]. by destruct k, s.
    + right. unfold decode_do_while. by rewrite He.
Qed.

End ConfigProofs.

Lemma toy_config_ok : config_ok 7 toy_kem [1; 2; 3] [toy_hpke] 64 (str "public").
Proof.
  split; [apply (bool_decide_unpack (Forall _ _)); vm_compute; exact I|cbn; lia|done| | |vm_compute; reflexivity].
  - split; [done|]. by apply Forall_singleton.
  - split; [vm_compute; discriminate|vm_compute; reflexivity].
Qed.

Lemma ech_config_roundtrip_witness :
  gives (@client_decode_ech_config_list bump_allocator (λ _, false) toy_client_context
           (block2 (config_bytes 7 toy_kem [1; 2; 3] [toy_hpke] 64 (str "public"))))
    (mkConfig 7 (Some toy_kem) [1; 2; 3] (Some toy_hpke) 64 (str "public") (config_bytes 7 toy_kem [1; 2; 3] [toy_hpke] 64 (str "public"))).
Proof.
  destruct (@ech_config_roundtrip bump_allocator (λ _, false) toy_client_context 7 toy_kem [1; 2; 3] [toy_hpke] 64 (str "public")
    (ptls_buffer_init 64 [0; 0; 0; 0] 1) toy_config_ok eq_refl bump_push_witness_wf eq_refl) as [_ Hd].
  exact Hd.
Defined.
