(* ===== verification/EchMessage.v ===== *)
(** * EchMessage: the inner ClientHello from the client to the server

    The part of [send_client_hello] that seals the inner ClientHello in the outer one, and the part of
    [server_handle_hello] that opens it and puts it together again ([lib/picotls.c]). *)

From S2P Require Import Prelude Constants Wire Buffer Extensions Crypto KeySchedule Tls Record Emit Negotiate Hpke ClientHello HelloFormat HelloDecode Receive Conn Ech.

Definition has_psk (p : ch_params) : bool := is_inhabited (cp_psk_secret p).

(** The length that the encoded inner ClientHello is padded to: at least the longest name, and a multiple of
    32. *)
(* src lib/picotls.c:2576-2587 padding_len *)
Definition padded_size (sni_name : option bytes) (max_name : Z) (size : Z) : Z :=
  let padding_len :=
    match sni_name with
    | Some n => if len (c_string n) <? max_name then max_name else len (c_string n)
    | None => max_name + 9
    end in
  (size + padding_len + 31) / 32 * 32.

Section Messages.
Context `{Allocator}.

(** The buffer [encoded_ch_inner], with the binder of the inner ClientHello and its padding. *)
(* src lib/picotls.c:2565-2594 encoded_ch_inner *)
Definition encode_ch_inner (c : ptls_context_t) (p : ch_params) (sni_name : option bytes) (rnd : draws) (inner_message : bytes)
    : result bytes :=
  let '(r, b) := encode_client_hello c ENCODE_CH_MODE_ENCODED_INNER p (inner_client_random (cp_ech p)) sni_name 0 None rnd
                   (ptls_buffer_init_tx EMPTY_STRING []) in
  _ ← r;
  let n := cp_binder_size p in
  let b := if has_psk p then poke (off b - n) (drop (Z.to_nat (len inner_message - n)) inner_message) b else b in
  let size := off b - PTLS_HANDSHAKE_HEADER_SIZE in
  let padding_len := padded_size sni_name (max_name_length (cp_ech p)) size - size in
  let '(r, b) := when (negb (padding_len =? 0)) (push_reserved (replicate (Z.to_nat padding_len) 0)) b in
  _ ← r;
  Ok (contents b).

(** The outer ClientHello takes the place of the inner one in the send buffer, from [mess_start]; [a] is
    [tls->ech.aead].  The offset of the payload is returned. *)
(* src lib/picotls.c:2595-2609 ech_size_offset *)
Definition push_outer_hello {S} `{HasBuffer S} (c : ptls_context_t) (p : ch_params) (client_random : bytes) (rnd : draws)
    (a : ptls_aead_context_t) (mess_start : Z) (encoded_ch_inner : bytes) : M S Z :=
  _ ← on_buf (modify (set_off mess_start));
  let text := drop (Z.to_nat PTLS_HANDSHAKE_HEADER_SIZE) encoded_ch_inner in
  o ← encode_client_hello c ENCODE_CH_MODE_OUTER p client_random (public_name (cp_ech p)) (len text + tag_size (aead_algo a)) None rnd;
  b ← gets get_buf;
  let aad := drop (Z.to_nat (mess_start + PTLS_HANDSHAKE_HEADER_SIZE)) (contents b) in
  _ ← on_buf (modify (poke o (ptls_aead_encrypt a text (if cp_second_flight p then 1 else 0) aad)));
  mret o.

(** The plaintext of the payload: [None] if it does not open.  The additional data is the message without its
    header, the payload zeroed. *)
(* src lib/picotls.c:4509-4518 ch_outer_aad *)
Definition open_payload (a : ptls_aead_context_t) (is_second_flight : bool) (ch : st_ptls_client_hello_t) (message : bytes)
    : result (option bytes) :=
  let payload := default [] (che_payload (ch_ech ch)) in
  match malloc (u64 (len payload - tag_size (aead_algo a))) with
  | None => Err PTLS_ERROR_NO_MEMORY
  | Some _ =>
      match malloc (len message - PTLS_HANDSHAKE_HEADER_SIZE) with
      | None => Err PTLS_ERROR_NO_MEMORY
      | Some _ =>
          let body := drop (Z.to_nat PTLS_HANDSHAKE_HEADER_SIZE) message in
          let aad := mem_write body (len body - che_payload_left (ch_ech ch)) (replicate (length payload) 0) in
          Ok (ptls_aead_decrypt a payload (if is_second_flight then 1 else 0) aad)
      end
  end.

(** The inner ClientHello. *)
(* src lib/picotls.c:4509-4527 rebuild_ch_inner *)
Definition recover_inner (a : ptls_aead_context_t) (is_second_flight : bool) (ch : st_ptls_client_hello_t) (message : bytes)
    : result (option bytes) :=
  text ← open_payload a is_second_flight ch message;
  match text with
  | None => Ok None
  | Some text =>
      let '(r, b) := rebuild_ch_inner text (ch_legacy_session_id ch)
                       (drop (Z.to_nat (PTLS_HANDSHAKE_HEADER_SIZE + first_extension_at ch)) message)
                       (ptls_buffer_init_rx EMPTY_STRING []) in
      _ ← r;
      Ok (Some (contents b))
  end.

End Messages.

(** ** The client's side *)

(** The binder is the end of the message. *)
Lemma message_binder_split c mode p sni_name r payload replay :
  hides_psk mode p = false -> has_psk p = true ->
  exists before, forall rnd, len (rnd 2%nat (cp_binder_size p)) = cp_binder_size p ->
    ch_message c mode p r (ch_exts c mode p sni_name payload replay rnd) = before ++ rnd 2%nat (cp_binder_size p).
Proof.
  intros Hh Hp. set (n := cp_binder_size p).
  set (first := ech_exts mode p payload replay ++ key_share_exts mode p ++ offer_exts c p sni_name ++
    ext_if (is_inhabited (save_ticket c) || is_inhabited (cp_psk_secret p)) (PTLS_EXTENSION_TYPE_PSK_KEY_EXCHANGE_MODES, block1 (psk_modes c)) ++
    ext_if (cp_early_data p && negb (cp_second_flight p)) (PTLS_EXTENSION_TYPE_EARLY_DATA, [])).
  set (ids := block2 (block2 (cp_psk_identity p) ++ bytes32 (cp_ticket_age p)) ++ be_encode 2 (1 + n) ++ be_encode 1 n).
  set (pre := ch_prefix c mode p r). set (size := len (enc_exts first) + (4 + (len ids + n))).
  exists ([PTLS_HANDSHAKE_TYPE_CLIENT_HELLO] ++ be_encode 3 (len pre + (2 + size)) ++ pre ++ be_encode 2 size ++ enc_exts first ++
          bytes16 PTLS_EXTENSION_TYPE_PRE_SHARED_KEY ++ be_encode 2 (len ids + n) ++ ids).
  intros rnd Hr. fold n in Hr.
  assert (enc_exts (ch_exts c mode p sni_name payload replay rnd)
    = enc_exts first ++ bytes16 PTLS_EXTENSION_TYPE_PRE_SHARED_KEY ++ be_encode 2 (len ids + n) ++ ids ++ rnd 2%nat n) as Ee.
  { unfold ch_exts, psk_exts. unfold has_psk in Hp. unfold first, psk_ext. rewrite Hp, Hh.
    rewrite !enc_exts_app, enc_exts_one, <- !app_assoc. repeat f_equal. unfold psk_body, ids.
    fold n. unfold block2 at 1. rewrite !len_app, !len_block2, len_block1, Hr, !len_be_encode.
    change (block2 (block1 (rnd 2%nat n))) with (be_encode 2 (len (block1 (rnd 2%nat n))) ++ be_encode 1 (len (rnd 2%nat n)) ++ rnd 2%nat n).
    rewrite len_block1, Hr, <- !app_assoc. do 2 f_equal. lia. }
  unfold ch_message, ch_body, block3, block2. rewrite Ee. fold pre. rewrite !len_app, !len_be_encode, len_bytes16, Hr.
  replace (len (enc_exts first) + (2 + (Z.of_nat 2 + (len ids + n)))) with size by (unfold size; lia).
  change (Z.of_nat 2 + size) with (2 + size). by rewrite <- !app_assoc.
Qed.

(** Without a PSK, nothing random is in the messages. *)
Lemma exts_no_psk c mode p sni_name payload replay rnd rnd' :
  has_psk p = false -> ch_exts c mode p sni_name payload replay rnd = ch_exts c mode p sni_name payload replay rnd'.
Proof. unfold has_psk, ch_exts, psk_exts. by intros ->. Qed.

Lemma poke_end b x old src :
  buf_wf b -> contents b = x ++ old -> len src = len old ->
  buf_wf (poke (len x) src b) /\ contents (poke (len x) src b) = x ++ src /\ tx (poke (len x) src b) = tx b /\
  off (poke (len x) src b) = off b.
Proof.
  intros Hw Hc Hl.
  destruct (overwrite_contents b x old src [] (λ m, mem_write m (len x) src)) as [H1 H2]; [done|by rewrite app_nil_r|done| |].
  - intros tl. by rewrite mem_write_app.
  - rewrite app_nil_r in H2. done.
Qed.

Section Client.
Context `{Allocator}.

Definition inner_message (c : ptls_context_t) (p : ch_params) (sni_name : option bytes) (rnd : draws) : bytes :=
  ch_message c ENCODE_CH_MODE_INNER p (inner_client_random (cp_ech p)) (ch_exts c ENCODE_CH_MODE_INNER p sni_name [] None rnd).

Definition encoded_body (c : ptls_context_t) (p : ch_params) (sni_name : option bytes) (rnd : draws) : bytes :=
  ch_body c ENCODE_CH_MODE_ENCODED_INNER p (inner_client_random (cp_ech p))
    (ch_exts c ENCODE_CH_MODE_ENCODED_INNER p sni_name [] None rnd).

(** The sealed text: the encoded inner ClientHello and its padding. *)
Definition padded_body (c : ptls_context_t) (p : ch_params) (sni_name : option bytes) (rnd : draws) : bytes :=
  let body := encoded_body c p sni_name rnd in
  body ++ replicate (Z.to_nat (padded_size sni_name (max_name_length (cp_ech p)) (len body) - len body)) 0.

Lemma init_tx_wf : buf_wf (ptls_buffer_init_tx EMPTY_STRING []).
Proof. split; try done; cbn; try lia. Qed.

Lemma padded_size_ge sni max size : 0 <= max -> size <= padded_size sni max size.
Proof.
  intros Hm. unfold padded_size. set (k := match sni with Some _ => _ | None => _ end).
  assert (0 <= k) by (unfold k; destruct sni as [n|]; [pose proof (len_nonneg (c_string n)); destruct (_ <? _); lia|lia]).
  pose proof (Z.div_mod (size + k + 31) 32). pose proof (Z.mod_pos_bound (size + k + 31) 32). lia.
Qed.

Lemma encode_ch_inner_gives c p sni_name rnd rnd' :
  ch_ok c ENCODE_CH_MODE_ENCODED_INNER p sni_name [] None rnd ->
  len (rnd' 2%nat (cp_binder_size p)) = cp_binder_size p -> len (inner_client_random (cp_ech p)) = PTLS_HELLO_RANDOM_SIZE ->
  0 <= max_name_length (cp_ech p) ->
  gives (encode_ch_inner c p sni_name rnd (inner_message c p sni_name rnd'))
    ([PTLS_HANDSHAKE_TYPE_CLIENT_HELLO] ++ be_encode 3 (len (encoded_body c p sni_name rnd')) ++ padded_body c p sni_name rnd').
Proof.
  intros Hok Hr' Hrand Hmax. unfold encode_ch_inner. set (ri := inner_client_random (cp_ech p)) in *.
  pose proof (writes_client_hello (S:=ptls_buffer_t) c ENCODE_CH_MODE_ENCODED_INNER p sni_name 0 ri [] None rnd Hok eq_refl Hrand) as Hwr.
  destruct (Hwr (ptls_buffer_init_tx EMPTY_STRING []) init_tx_wf eq_refl eq_refl) as [Ho _]. clear Hwr. change (len []) with 0 in Ho.
  destruct (encode_client_hello _ _ _ _ _ _ _ _ _) as [[o|e] b]; destruct Ho as (Hw & Ht & Ho); cbn [fst snd get_buf HasBuffer_id] in *.
  2:{ destruct Ho as [[->|(? & ? & _)] _]; [by right|done]. }
  destruct Ho as [_ Hc]. cbn [mbind result_bind]. change (contents (ptls_buffer_init_tx EMPTY_STRING []) ++ ?x) with x in Hc.
  set (msg := ch_message c ENCODE_CH_MODE_ENCODED_INNER p ri (ch_exts c ENCODE_CH_MODE_ENCODED_INNER p sni_name [] None rnd')).
  set (b1 := if has_psk p then _ else b).
  assert (buf_wf b1 /\ tx b1 = 1 /\ contents b1 = msg) as (Hw1 & Ht1 & Hc1).
  { subst b1. destruct (has_psk p) eqn:E.
    - destruct (message_binder_split c ENCODE_CH_MODE_ENCODED_INNER p sni_name ri [] None) as [x Hx]; [done|done|].
      destruct (message_binder_split c ENCODE_CH_MODE_INNER p sni_name ri [] None) as [y Hy]; [done|done|].
      assert (len (rnd 2%nat (cp_binder_size p)) = cp_binder_size p) as Hr by (apply (ok_rnd _ _ _ _ _ _ _ Hok); apply (ok_binder _ _ _ _ _ _ _ Hok)).
      fold (ch_message c ENCODE_CH_MODE_ENCODED_INNER p ri (ch_exts c ENCODE_CH_MODE_ENCODED_INNER p sni_name [] None rnd)) in Hc.
      rewrite (Hx rnd Hr) in Hc. unfold inner_message. fold ri. rewrite (Hy rnd' Hr').
      rewrite len_app, Hr', Z.add_simpl_r, drop_len_app. rewrite <- (contents_len b Hw), Hc, len_app, Hr, Z.add_simpl_r.
      destruct (poke_end b x _ (rnd' 2%nat (cp_binder_size p)) Hw Hc ltac:(lia)) as (H1 & H2 & H3 & _). split; [done|].
      split; [congruence|]. rewrite H2. unfold msg. by rewrite (Hx rnd' Hr').
    - split; [done|]. split; [done|]. rewrite Hc. unfold msg, ch_message. by rewrite (exts_no_psk c _ p sni_name [] None rnd rnd' E). }
  clearbody b1. rewrite <- (contents_len b1 Hw1), Hc1.
  assert (len msg - PTLS_HANDSHAKE_HEADER_SIZE = len (encoded_body c p sni_name rnd')) as Hsize.
  { unfold msg, ch_message. rewrite len_app, len_block3. fold ri. fold (encoded_body c p sni_name rnd'). change (len [_]) with 1.
    unfold PTLS_HANDSHAKE_HEADER_SIZE. unfold encoded_body. fold ri. lia. }
  rewrite Hsize. unfold padded_body. set (body := encoded_body c p sni_name rnd') in *. set (pad := padded_size _ _ _ - len body).
  assert (msg = [PTLS_HANDSHAKE_TYPE_CLIENT_HELLO] ++ be_encode 3 (len body) ++ body) as Hmsg by done.
  pose proof (writes_when 1 (negb (pad =? 0)) (push_reserved (S:=ptls_buffer_t) (replicate (Z.to_nat pad) 0)) _ (λ _, writes_reserved_unit _)) as Hwh.
  destruct (Hwh (off b1) b1 Hw1 Ht1 eq_refl) as [Ho _]. destruct (when _ _ b1) as [[[]|e] b2]; destruct Ho as (_ & _ & Ho); cbn [fst snd get_buf HasBuffer_id] in *.
  - destruct Ho as [_ Ho]. left. cbn [mbind result_bind]. rewrite Ho, Hc1, Hmsg, <- !app_assoc. do 4 f_equal.
    destruct (Z.eqb_spec pad 0) as [->|]; done.
  - destruct Ho as [[->|(? & ? & _)] _]; [by right|done].
Qed.

End Client.

Section Outer.
Context `{Allocator} {S : Type} `{HasBuffer S}.

Lemma set_off_wf b x y : buf_wf b -> contents b = x ++ y -> buf_wf (set_off (len x) b) /\ contents (set_off (len x) b) = x.
Proof.
  intros Hw Hc. pose proof (contents_len b Hw) as Ho. rewrite Hc, len_app in Ho. pose proof (len_nonneg x). pose proof (len_nonneg y).
  split.
  - destruct Hw. split; cbn; try done. lia.
  - transitivity (take (Z.to_nat (len x)) (contents b)); [|rewrite Hc; apply take_len_app].
    unfold contents. cbn. rewrite take_take. f_equal. lia.
Qed.

(** The outer message, with the payload sealed under the message that has it zeroed. *)
Definition outer_message (c : ptls_context_t) (p : ch_params) (r : bytes) (payload : bytes) (rnd : draws) : bytes :=
  ch_message c ENCODE_CH_MODE_OUTER p r (ch_exts c ENCODE_CH_MODE_OUTER p (public_name (cp_ech p)) payload None rnd).

Definition zeroes (n : Z) : bytes := replicate (Z.to_nat n) 0.

Definition sealed_payload (c : ptls_context_t) (p : ch_params) (r : bytes) (rnd : draws) (a : ptls_aead_context_t) (text : bytes) : bytes :=
  ptls_aead_encrypt a text (if cp_second_flight p then 1 else 0)
    (drop 4 (outer_message c p r (zeroes (len text + tag_size (aead_algo a))) rnd)).

Lemma push_outer_run c p r rnd a pre old header text s :
  aead_ok (aead_algo a) -> len header = 4 ->
  ch_ok c ENCODE_CH_MODE_OUTER p (public_name (cp_ech p)) (zeroes (len text + tag_size (aead_algo a))) None rnd ->
  len r = PTLS_HELLO_RANDOM_SIZE -> buf_wf (get_buf s) -> tx (get_buf s) = 1 -> contents (get_buf s) = pre ++ old ->
  match push_outer_hello c p r rnd a (len pre) (header ++ text) s with
  | (Ok o, s') => buf_wf (get_buf s') /\ tx (get_buf s') = 1 /\
      contents (get_buf s') = pre ++ outer_message c p r (sealed_payload c p r rnd a text) rnd /\ (exists b, s' = put_buf b s)
  | (Err e, _) => e = PTLS_ERROR_NO_MEMORY
  end.
Proof.
  intros Haok Hh Hok Hr Hw Ht Hc. unfold push_outer_hello. rewrite M_bind_run. unfold on_buf at 1. cbn [modify].
  destruct (set_off_wf _ pre old Hw Hc) as [Hw1 Hc1]. change PTLS_HANDSHAKE_HEADER_SIZE with 4.
  assert (drop (Z.to_nat 4) (header ++ text) = text) as -> by (rewrite <- Hh; apply drop_len_app).
  set (n := len text + tag_size (aead_algo a)) in *. pose proof (len_nonneg text). pose proof (tag_size_range _ Haok).
  set (s1 := put_buf _ s). rewrite M_bind_run. set (name := public_name (cp_ech p)) in *.
  assert (len (zeroes n) = n) as Hn by (unfold zeroes; rewrite len_replicate; lia).
  assert (zeroes n = replicate (length (zeroes n)) 0) as Hz by (unfold zeroes; by rewrite length_replicate).
  pose proof (writes_client_hello (S:=S) c ENCODE_CH_MODE_OUTER p name (len pre) r (zeroes n) None rnd Hok Hz Hr) as Hwr.
  rewrite Hn in Hwr. destruct (Hwr s1) as [Ho [b1 Hb1]]; [by unfold s1; rewrite get_put_buf..|]. clear Hwr.
  destruct (encode_client_hello _ _ _ _ _ _ _ _ s1) as [[o|e] s2]; destruct Ho as (Hw2 & Ht2 & Ho); cbn [fst snd] in *.
  2:{ destruct Ho as [[->|(? & ? & _)] _]; done. }
  destruct Ho as [-> Hc2]. unfold s1 in Hc2. rewrite get_put_buf, Hc1 in Hc2. rewrite M_bind_run. cbn [gets]. rewrite M_bind_run.
  fold (ch_message c ENCODE_CH_MODE_OUTER p r (ch_exts c ENCODE_CH_MODE_OUTER p name (zeroes n) None rnd)) in Hc2.
  assert (drop (Z.to_nat (len pre + 4)) (contents (get_buf s2)) = drop 4 (outer_message c p r (zeroes n) rnd)) as Haad.
  { rewrite Hc2. replace (Z.to_nat (len pre + 4)) with (Z.to_nat (len pre) + 4)%nat by (pose proof (len_nonneg pre); lia).
    rewrite <- drop_drop, drop_len_app. done. }
  rewrite Haad. set (payload := sealed_payload c p r rnd a text).
  change (ptls_aead_encrypt a text _ _) with payload.
  assert (len payload = n) as Hpl by (apply seal_len; done).
  destruct (ok_cipher _ _ _ _ _ _ _ Hok eq_refl) as [cipher Hcipher].
  destruct (outer_message_split c p name r rnd n cipher Hcipher) as (before & after & _ & _ & Hsplit).
  destruct (Hsplit (zeroes n) Hn) as [Ez Hoff]. destruct (Hsplit payload Hpl) as [Ep _]. rewrite Hoff, <- len_app.
  unfold on_buf. cbn [modify mret M_ret]. rewrite Ez, app_assoc in Hc2.
  destruct (overwrite_contents (get_buf s2) (pre ++ before) (zeroes n) payload after (λ m, mem_write m (len (pre ++ before)) payload)) as [H1' H2'];
    [done|by rewrite Hc2|lia|by intros; apply mem_write_app; lia|].
  unfold poke, mret, M_ret. cbn [fst snd]. rewrite get_put_buf. split; [done|]. split; [done|]. split.
  - rewrite H2'. unfold outer_message. fold name. rewrite Ep. by rewrite <- !app_assoc.
  - eexists. rewrite Hb1. unfold s1. by rewrite !put_put_buf.
Qed.

End Outer.

(** ** The server's side *)

Section Server.
Context `{Allocator}.

(** The inner extensions as the client encodes them. *)
Definition inner_list (c : ptls_context_t) (p : ch_params) (sni_name : option bytes) (rnd : draws) : list inner_ext :=
  Own PTLS_EXTENSION_TYPE_ENCRYPTED_CLIENT_HELLO [PTLS_ECH_CLIENT_HELLO_TYPE_INNER] :: Refs [PTLS_EXTENSION_TYPE_KEY_SHARE] ::
  ((λ e, Own (fst e) (snd e)) <$> (offer_exts c p sni_name ++ psk_exts c ENCODE_CH_MODE_ENCODED_INNER p rnd)).

Lemma fmap_own (l : list (Z * bytes)) : enc_inner <$> ((λ e, Own (fst e) (snd e)) <$> l) = l.
Proof. induction l as [|[t body] l IH]; [done|]. by rewrite !fmap_cons, IH. Qed.

Lemma inner_list_enc c p sni_name rnd :
  is_inhabited (ech_aead (cp_ech p)) = true ->
  enc_inner <$> inner_list c p sni_name rnd = ch_exts c ENCODE_CH_MODE_ENCODED_INNER p sni_name [] None rnd.
Proof. intros Ha. unfold inner_list, ch_exts, ech_exts, key_share_exts. rewrite Ha, !fmap_cons, fmap_own. done. Qed.

Lemma expand_own outer (l : list (Z * bytes)) : expand outer ((λ e, Own (fst e) (snd e)) <$> l) = Some l.
Proof. induction l as [|[t body] l IH]; [done|]. rewrite fmap_cons. cbn [expand fst snd]. by rewrite IH. Qed.

(** With the extensions of the outer message, these are the inner ones. *)
Lemma inner_list_expand c p sni_name rnd outer_name payload rnd' :
  is_inhabited (ech_aead (cp_ech p)) = true -> is_Some (ech_cipher (cp_ech p)) ->
  expand (ch_exts c ENCODE_CH_MODE_OUTER p outer_name payload None rnd') (inner_list c p sni_name rnd)
  = Some (ch_exts c ENCODE_CH_MODE_INNER p sni_name [] None rnd).
Proof.
  intros Ha [cipher Hc]. unfold inner_list. cbn [expand take_refs]. unfold ch_exts, ech_exts at 1, key_share_exts at 1.
  rewrite Hc. cbn [opt app take_ref].
  change (PTLS_EXTENSION_TYPE_ENCRYPTED_CLIENT_HELLO =? PTLS_EXTENSION_TYPE_KEY_SHARE) with false. rewrite Z.eqb_refl. cbv iota.
  cbn [mbind option_bind]. rewrite expand_own. cbn [mbind option_bind]. unfold ech_exts, key_share_exts. rewrite Ha. done.
Qed.

Lemma inner_list_ok c p sni_name rnd :
  Forall ext_ok (ch_exts c ENCODE_CH_MODE_ENCODED_INNER p sni_name [] None rnd) ->
  (forall pr t body, cp_properties p = Some pr -> (t, body) ∈ additional_extensions pr -> ~ recognized t) ->
  is_inhabited (ech_aead (cp_ech p)) = true -> Forall inner_ok (inner_list c p sni_name rnd).
Proof.
  intros Hf Hadd Ha. rewrite <- inner_list_enc in Hf by done. unfold inner_list in *. rewrite !fmap_cons, fmap_own in Hf.
  inv Hf. inv H3. constructor; [by split|]. constructor.
  { split; [done|]. change (len [PTLS_EXTENSION_TYPE_KEY_SHARE]) with 1. split; [lia|]. by apply Forall_singleton. }
  rewrite Forall_fmap. rewrite Forall_forall in *. intros [t body] Hin. split; [by apply H5|]. cbn [fst snd].
  assert (forall x, PTLS_EXTENSION_TYPE_ECH_OUTER_EXTENSIONS = x -> x ∉ first_types ++ last_types) as Hnot.
  { intros x <-. apply (bool_decide_unpack _). vm_compute. exact I. }
  assert (t ∈ fst <$> ch_exts c ENCODE_CH_MODE_INNER p sni_name [] None rnd) as Ht.
  { unfold ch_exts. rewrite !fmap_app, !elem_of_app. apply elem_of_app in Hin as [Hin|Hin].
    - right. right. left. apply list_elem_of_fmap. by exists (t, body).
    - right. right. right. apply list_elem_of_fmap. exists (t, body). split; [done|]. unfold psk_exts in *. exact Hin. }
  pose proof (ch_types c ENCODE_CH_MODE_INNER p sni_name [] None rnd ltac:(done)) as Hs.
  pose proof (elem_of_sublist _ _ _ Ht Hs) as Hin'. rewrite !elem_of_app in Hin'. intros ->.
  destruct Hin' as [Hin'|[Hin'|Hin']].
  - by eapply Hnot, elem_of_app; [|left].
  - apply list_elem_of_fmap in Hin' as ([t' body'] & Et & Hin'). unfold additional in Hin'. cbn [fst] in Et.
    destruct (cp_properties p) as [pr|] eqn:E; [|by apply elem_of_nil in Hin']. apply (Hadd pr t' body' eq_refl Hin'). rewrite <- Et.
    apply (bool_decide_unpack _). vm_compute. exact I.
  - by eapply Hnot, elem_of_app; [|right].
Qed.

(** The whole message, whatever the extensions. *)
Lemma writes_rebuild_ch_inner {S} `{HasBuffer S} d o version r sid suites methods l outer es pad :
  0 <= version < 2 ^ 16 -> len r = PTLS_HELLO_RANDOM_SIZE -> len sid < 256 -> len suites < 65536 -> len methods < 256 ->
  Forall ext_ok outer -> Forall inner_ok l -> expand outer l = Some es ->
  len (enc_exts (enc_inner <$> l)) < 65536 -> len (enc_exts es) < 65536 -> Forall (λ b, b = 0) pad ->
  writes_at (S:=S) d o
    (rebuild_ch_inner (bytes16 version ++ r ++ block1 [] ++ block2 suites ++ block1 methods ++
                         block2 (enc_exts (enc_inner <$> l)) ++ pad) sid (enc_exts outer)) ()
    ([PTLS_HANDSHAKE_TYPE_CLIENT_HELLO] ++
     block3 (bytes16 version ++ r ++ block1 sid ++ block2 suites ++ block1 methods ++ block2 (enc_exts es))).
Proof.
  intros Hv Hr Hsid Hsu Hme Hout Hl Hex Hle Hls Hpad. unfold rebuild_ch_inner, push_message_unhashed.
  rewrite <- (app_nil_r (_ ++ block3 _)). eapply (writes_bind d o _ _ pad).
  2:{ assert (forallb (λ b, b =? 0) pad = true) as ->; [|apply writes_ret].
      apply forallb_forall. intros x Hx. rewrite Forall_forall in Hpad. apply Z.eqb_eq, Hpad. by apply list_elem_of_In. }
  eapply writes_bind; [apply writes_push; by apply Forall_singleton|].
  assert (len r = 32) as Hr' by exact Hr. apply writes_block3.
  { rewrite !len_app, !len_block2, !len_block1, len_bytes16. pose proof (len_nonneg sid). lia. }
  eapply writes_lift; [by apply decode16_push16|]. cbv beta iota. eapply writes_bind; [apply writes_push16|].
  eapply writes_lift.
  { unfold guard_err. rewrite (proj2 (Z.leb_le _ _)); [done|]. rewrite len_app, Hr.
    match goal with |- _ <= _ + len ?x => pose proof (len_nonneg x) end. lia. }
  rewrite <- Hr, take_len_app, drop_len_app. eapply writes_bind; [apply writes_pushv|].
  assert (forall o' (k : unit * bytes -> M S bytes) rest v bs, writes_at d o' (k ((), rest)) v bs ->
    writes_at d o' (open_block 1 (λ b, match b with [] => mret ((), []) | _ => fail PTLS_ALERT_ILLEGAL_PARAMETER end) (block1 [] ++ rest) ≫= k) v bs) as Hempty.
  { intros o' k rest v bs Hk. rewrite <- (app_nil_l bs). eapply writes_bind; [by apply writes_open1; [|apply writes_ret]|].
    change (len []) with 0. by rewrite Z.add_0_r. }
  apply Hempty. cbv beta iota. eapply writes_bind; [by apply writes_block1; [|apply writes_pushv]|].
  assert (forall o' rest, writes_at (S:=S) d o' (copy_block 2 (block2 suites ++ rest)) rest (block2 suites)) as Hc2.
  { intros o' rest. unfold copy_block. rewrite <- (app_nil_r (block2 suites)) at 2.
    eapply (writes_bind d o' _ _ ((), rest)); [|apply writes_ret]. apply writes_open2; [done|]. rewrite <- (app_nil_r (block2 suites)).
    eapply writes_bind; [by apply writes_block2; [|apply writes_pushv]|apply writes_ret]. }
  assert (forall o' rest, writes_at (S:=S) d o' (copy_block 1 (block1 methods ++ rest)) rest (block1 methods)) as Hc1.
  { intros o' rest. unfold copy_block. rewrite <- (app_nil_r (block1 methods)) at 2.
    eapply (writes_bind d o' _ _ ((), rest)); [|apply writes_ret]. apply writes_open1; [done|]. rewrite <- (app_nil_r (block1 methods)).
    eapply writes_bind; [by apply writes_block1; [|apply writes_pushv]|apply writes_ret]. }
  eapply writes_bind; [apply Hc2|]. eapply writes_bind; [apply Hc1|]. unfold rebuild_ch_inner_extensions.
  rewrite <- (app_nil_r (block2 (enc_exts es))).
  match goal with |- writes_at _ ?q _ _ _ => destruct (writes_rebuild d (q + 2) l (length (enc_exts (enc_inner <$> l))) outer es Hout Hl Hex) as [o2 Hw] end.
  { pose proof (enc_exts_length (enc_inner <$> l)) as Hlen. by rewrite length_fmap in Hlen. }
  eapply (writes_bind d _ _ _ (o2, pad)); [|apply writes_ret]. apply writes_block2; [done|]. by apply writes_open2.
Qed.

End Server.

(** ** From the client to the server *)

Lemma ch_ok_payload c mode p name payload payload' rnd :
  len payload = len payload' -> ch_ok c mode p name payload None rnd -> ch_ok c mode p name payload' None rnd.
Proof.
  intros Hl []. 
  assert (Forall ext_ok (ech_exts mode p payload' None) /\ len (enc_exts (ech_exts mode p payload' None)) = len (enc_exts (ech_exts mode p payload None))) as [Hf He].
  { apply Forall_app in ok_exts as [Hf _]. unfold ech_exts in *. destruct mode; [done|done|].
    destruct (ech_cipher _) as [cipher|]; [|done]. cbn [opt] in *. rewrite !enc_exts_one, !len_app, !len_block2, !len_app, !outer_header_len.
    split; [|lia]. apply ext_ok_cons in Hf as [Hs _]. apply Forall_singleton. split; [done|]. cbn [snd].
    rewrite len_app, outer_header_len in *. rewrite <- Hl. exact Hs. }
  split; try done.
  - unfold ch_exts in *. apply Forall_app in ok_exts as [_ Hr]. by apply Forall_app.
  - unfold ch_exts in *. rewrite enc_exts_app, len_app in *. lia.
Qed.

Section EndToEnd.
Context `{Allocator}.

Lemma open_payload_gives c p name r rnd (payload : bytes) a d (text : bytes) (second : bool) left_len ch :
  len payload = len text + tag_size (aead_algo a) ->
  (forall aad, aad = drop 4 (ch_message c ENCODE_CH_MODE_OUTER p r (ch_exts c ENCODE_CH_MODE_OUTER p name (zeroes (len payload)) None rnd)) ->
     ptls_aead_decrypt d payload (if second then 1 else 0) aad = Some text) ->
  is_Some (ech_cipher (cp_ech p)) -> che_payload (ch_ech ch) = Some payload ->
  left_len = len (enc_exts (rest_exts c ENCODE_CH_MODE_OUTER p name rnd)) -> che_payload_left (ch_ech ch) = left_len + len payload ->
  gives (open_payload d second ch (ch_message c ENCODE_CH_MODE_OUTER p r (ch_exts c ENCODE_CH_MODE_OUTER p name payload None rnd))) (Some text).
Proof.
  intros Hlen Hdec [cipher Hc] Hp Hleft Hl. unfold open_payload. rewrite Hp, Hl. cbn [default from_option id].
  destruct (malloc _); [|by right]. destruct (malloc _); [|by right]. left. f_equal. apply Hdec. change (Z.to_nat PTLS_HANDSHAKE_HEADER_SIZE) with 4%nat.
  destruct (outer_message_split c p name r rnd (len payload) cipher Hc) as (before & after & Hb & -> & Hsplit).
  assert (len (zeroes (len payload)) = len payload) as Hz by (unfold zeroes; rewrite len_replicate; pose proof (len_nonneg payload); lia).
  destruct (Hsplit payload eq_refl) as [-> _]. destruct (Hsplit _ Hz) as [-> _]. set (after := enc_exts _) in *.
  assert (forall x, drop 4 (before ++ x) = drop 4 before ++ x) as Hd by (intros x; apply drop_app_le; unfold len in Hb; lia).
  rewrite !Hd. replace (len (drop 4 before ++ payload ++ after) - (left_len + len payload)) with (len (drop 4 before)) by (rewrite !len_app; lia).
  unfold zeroes. rewrite to_nat_len. apply mem_write_app. unfold len. by rewrite length_replicate.
Qed.

Lemma outer_exts_at c mode p r exts :
  drop (Z.to_nat (PTLS_HANDSHAKE_HEADER_SIZE + (len (ch_prefix c mode p r) + 2))) (ch_message c mode p r exts) = enc_exts exts.
Proof.
  unfold ch_message, block3, ch_body, block2. set (q := be_encode 3 _). set (q2 := be_encode 2 _). rewrite !app_assoc.
  replace (PTLS_HANDSHAKE_HEADER_SIZE + _) with (len ((([PTLS_HANDSHAKE_TYPE_CLIENT_HELLO] ++ q) ++ ch_prefix c mode p r) ++ q2)).
  - apply drop_len_app.
  - rewrite !len_app. unfold q, q2. rewrite !len_be_encode. change (len [_]) with 1. unfold PTLS_HANDSHAKE_HEADER_SIZE. lia.
Qed.

(** What the server rebuilds from the sealed text and the extensions of the outer message. *)
Lemma rebuild_inner_gives c p sni_name name rnd payload rnd_out {B} (f : bytes -> B) :
  ch_ok c ENCODE_CH_MODE_INNER p sni_name [] None rnd -> ch_ok c ENCODE_CH_MODE_ENCODED_INNER p sni_name [] None rnd ->
  ch_ok c ENCODE_CH_MODE_OUTER p name payload None rnd_out -> is_inhabited (ech_aead (cp_ech p)) = true ->
  (forall pr t body, cp_properties p = Some pr -> (t, body) ∈ additional_extensions pr -> ~ recognized t) ->
  len (inner_client_random (cp_ech p)) = PTLS_HELLO_RANDOM_SIZE ->
  gives (let '(r, b) := rebuild_ch_inner (padded_body c p sni_name rnd) (cp_session_id p)
                          (enc_exts (ch_exts c ENCODE_CH_MODE_OUTER p name payload None rnd_out)) (ptls_buffer_init_rx EMPTY_STRING []) in
         _ ← r; Ok (f (contents b))) (f (inner_message c p sni_name rnd)).
Proof.
  intros Hin Hen Hout Hinh Hadd Hri. set (exts := ch_exts c ENCODE_CH_MODE_OUTER p name payload None rnd_out).
  pose proof (inner_list_ok c p sni_name rnd (ok_exts _ _ _ _ _ _ _ Hen) Hadd Hinh) as Hil.
  pose proof (inner_list_expand c p sni_name rnd name payload rnd_out Hinh (ok_cipher _ _ _ _ _ _ _ Hout eq_refl)) as Hex.
  pose proof (ok_size _ _ _ _ _ _ _ Hen) as Hsz. rewrite <- (inner_list_enc c p sni_name rnd Hinh) in Hsz.
  set (suites := concat (bytes16 <$> (cs_id <$> cipher_suites c))).
  assert (len suites < 65536) as Hsu by (unfold suites; rewrite len_concat16; unfold len; rewrite length_fmap; apply (ok_suites _ _ _ _ _ _ _ Hin)).
  unfold padded_body. set (pad := replicate _ 0).
  assert (encoded_body c p sni_name rnd ++ pad = bytes16 0x0303 ++ inner_client_random (cp_ech p) ++ block1 [] ++ block2 suites ++ block1 [0] ++
    block2 (enc_exts (enc_inner <$> inner_list c p sni_name rnd)) ++ pad) as Htext.
  { rewrite (inner_list_enc c p sni_name rnd Hinh). unfold encoded_body at 1, ch_body, ch_prefix.
    rewrite bool_decide_eq_true_2 by done. fold suites. by rewrite <- !app_assoc. }
  rewrite Htext.
  pose proof (writes_rebuild_ch_inner (S:=ptls_buffer_t) 0 0 0x0303 (inner_client_random (cp_ech p)) (cp_session_id p) suites [0]
    (inner_list c p sni_name rnd) exts _ pad ltac:(lia) Hri ltac:(pose proof (ok_session_id _ _ _ _ _ _ _ Hin); lia) Hsu ltac:(done)
    (ok_exts _ _ _ _ _ _ _ Hout) Hil Hex Hsz (ok_size _ _ _ _ _ _ _ Hin) ltac:(by apply Forall_replicate)) as Hwr.
  destruct (Hwr (ptls_buffer_init_rx EMPTY_STRING []) init_rx_wf eq_refl eq_refl) as [Ho _]. clear Hwr.
  destruct (rebuild_ch_inner _ _ _ _) as [[[]|e] b2]; destruct Ho as (_ & _ & Ho); cbn [fst snd get_buf HasBuffer_id] in Ho.
  - destruct Ho as [_ ->]. left. cbn [mbind result_bind]. do 2 f_equal. unfold inner_message, ch_message, ch_body, ch_prefix.
    rewrite bool_decide_eq_false_2 by done. fold suites. by rewrite <- !app_assoc.
  - destruct Ho as [[->|(? & ? & _)] _]; [by right|done].
Qed.

Lemma padded_body_nonempty c p sni_name rnd : 0 < len (padded_body c p sni_name rnd).
Proof.
  unfold padded_body, encoded_body, ch_body, ch_prefix. rewrite !len_app, len_bytes16.
  repeat match goal with |- context [len ?x] => lazymatch goal with H : 0 <= len x |- _ => fail | _ => pose proof (len_nonneg x) end end. lia.
Qed.

(** C10: ECH delivers the inner ClientHello.  The client takes the inner ClientHello it has built and hashed,
    re-encodes it with the key share left out, pads it, seals it under the outer ClientHello and sends that.
    A server with the key that opens what the client sealed decodes the outer message, zeroes the payload to
    get the same additional data, opens the payload, and puts back the session id and the key share of the
    outer message: what it obtains is the client's inner ClientHello, byte for byte, so that both hash the
    same transcript (or, on either side, memory runs out). *)
Theorem ech_inner_recovered sc sp c p sni_name r rnd_in rnd_enc rnd_out a d b pre :
  aead_ok (aead_algo a) -> opens d a -> ech_aead (cp_ech p) = Some a ->
  ch_ok c ENCODE_CH_MODE_INNER p sni_name [] None rnd_in ->
  ch_ok c ENCODE_CH_MODE_ENCODED_INNER p sni_name [] None rnd_in ->
  ch_ok c ENCODE_CH_MODE_ENCODED_INNER p sni_name [] None rnd_enc ->
  let size := len (padded_body c p sni_name rnd_in) + tag_size (aead_algo a) in
  ch_ok c ENCODE_CH_MODE_OUTER p (public_name (cp_ech p)) (zeroes size) None rnd_out ->
  ch_sensible sc sp c ENCODE_CH_MODE_OUTER p (public_name (cp_ech p)) ->
  (forall i n, is_bytes (rnd_out i n)) -> 0 <= max_name_length (cp_ech p) ->
  len (inner_client_random (cp_ech p)) = PTLS_HELLO_RANDOM_SIZE -> len r = PTLS_HELLO_RANDOM_SIZE ->
  buf_wf b -> tx b = 1 -> contents b = pre ++ inner_message c p sni_name rnd_in ->
  match encode_ch_inner c p sni_name rnd_enc (inner_message c p sni_name rnd_in) with
  | Err e => e = PTLS_ERROR_NO_MEMORY
  | Ok encoded =>
      match push_outer_hello c p r rnd_out a (len pre) encoded b with
      | (Err e, _) => e = PTLS_ERROR_NO_MEMORY
      | (Ok _, b') =>
          exists message ch, contents b' = pre ++ message /\
            decode_client_hello sc sp empty_client_hello (drop 4 message) = Ok ch /\
            gives (recover_inner d (cp_second_flight p) ch message) (Some (inner_message c p sni_name rnd_in))
      end
  end.
Proof.
  intros Haok Hd Ha Hin Hen Hen' size Hout Hs Hrb Hmax Hri Hr Hw Ht Hc.
  pose proof (encode_ch_inner_gives c p sni_name rnd_enc rnd_in Hen'
    (ok_rnd _ _ _ _ _ _ _ Hin _ _ (proj1 (ok_binder _ _ _ _ _ _ _ Hin))) Hri Hmax) as He.
  destruct He as [-> | ->]; [|done]. rewrite app_assoc. set (header := _ ++ be_encode 3 _). set (text := padded_body _ _ _ _) in *.
  pose proof (push_outer_run c p r rnd_out a pre _ header text b Haok eq_refl Hout Hr Hw Ht Hc) as Hp.
  destruct (push_outer_hello _ _ _ _ _ _ _ b) as [[o|e] b']; [|done]. destruct Hp as (_ & _ & Hc' & _).
  set (payload := sealed_payload _ _ _ _ _ _) in *. assert (len payload = size) as Hpl by (apply seal_len; done).
  pose proof (len_nonneg text). pose proof (tag_size_range _ Haok).
  assert (ch_ok c ENCODE_CH_MODE_OUTER p (public_name (cp_ech p)) payload None rnd_out) as Hout'.
  { eapply ch_ok_payload; [|exact Hout]. unfold zeroes. rewrite len_replicate. lia. }
  assert (payload <> []) as Hpn.
  { intros E. rewrite E in Hpl. pose proof (padded_body_nonempty c p sni_name rnd_in). change (len []) with 0 in Hpl.
    fold text in H2. lia. }
  pose proof (decode_written sc sp c ENCODE_CH_MODE_OUTER p (public_name (cp_ech p)) r payload rnd_out Hs Hout' Hrb Hr (λ _, Hpn)) as Hdec.
  eexists _, _. split; [exact Hc'|]. split; [exact Hdec|]. unfold recover_inner, outer_message.
  set (ch := seen _ _ _ _ _ _ _ _). destruct (ok_cipher _ _ _ _ _ _ _ Hout eq_refl) as [cipher Hcipher].
  assert (ch_ech ch = mkChEch PTLS_ECH_CLIENT_HELLO_TYPE_OUTER (ech_config_id (cp_ech p)) (hpke_kdf cipher) (hpke_aead_id cipher)
        (if cp_second_flight p then [] else ech_enc (cp_ech p)) (Some payload)
        (len (enc_exts (rest_exts c ENCODE_CH_MODE_OUTER p (public_name (cp_ech p)) rnd_out)) + len payload)) as Hche.
  { unfold ch, seen. destruct (if hides_psk _ _ then _ else _). cbn [ch_ech]. unfold seen_ech. by rewrite Hcipher. }
  eapply gives_bind.
  { eapply (open_payload_gives c p _ r rnd_out payload a d text); [exact Hpl| |by exists cipher|by rewrite Hche|done|by rewrite Hche].
    intros aad ->. destruct Hd as (Hd1 & Hd2 & Hd3). unfold ptls_aead_decrypt, aead_nonce, payload, sealed_payload, ptls_aead_encrypt, aead_nonce.
    rewrite Hd1, Hd2, Hd3. rewrite seal_len by done. by apply open_seal. }
  cbv beta iota.
  assert (first_extension_at ch = len (ch_prefix c ENCODE_CH_MODE_OUTER p r) + 2 /\ ch_legacy_session_id ch = cp_session_id p) as [Hfirst Hsid].
  { unfold ch, seen. by destruct (if hides_psk _ _ then _ else _). }
  rewrite Hfirst, Hsid, outer_exts_at. apply (rebuild_inner_gives c p sni_name (public_name (cp_ech p)) rnd_in payload rnd_out Some); try done.
  - by rewrite Ha.
  - intros pr t body E Hin'. by apply (s_additional _ _ _ _ _ _ Hs pr t body E Hin').
Qed.

End EndToEnd.

(** ** Instances for the witness *)

Definition toy_inner : bytes := inner_message toy_client_context toy_params (Some (str "example.com")) toy_draws.
Definition toy_wire : ptls_buffer_t := ptls_buffer_init 64 toy_inner 1.

Lemma toy_wire_wf : buf_wf (set_off (len toy_inner) toy_wire) /\ contents (set_off (len toy_inner) toy_wire) = [] ++ toy_inner.
Proof.
  split; [|vm_compute; reflexivity]. 
  split; [vm_compute; reflexivity|reflexivity|vm_compute; split; discriminate|vm_compute; discriminate|by right|by cbn|constructor].
Qed.

Lemma ech_inner_recovered_witness :
  match @encode_ch_inner bump_allocator toy_client_context toy_params (Some (str "example.com")) toy_draws toy_inner with
  | Err e => e = PTLS_ERROR_NO_MEMORY
  | Ok encoded =>
      match @push_outer_hello bump_allocator ptls_buffer_t _ toy_client_context toy_params (replicate 32 7) toy_draws toy_ctx 0 encoded
              (set_off (len toy_inner) toy_wire) with
      | (Err e, _) => e = PTLS_ERROR_NO_MEMORY
      | (Ok _, b') =>
          exists message ch, contents b' = [] ++ message /\
            decode_client_hello toy_context None empty_client_hello (drop 4 message) = Ok ch /\
            gives (@recover_inner bump_allocator toy_ctx false ch message) (Some toy_inner)
      end
  end.
Proof.
  apply (@ech_inner_recovered bump_allocator toy_context None toy_client_context toy_params (Some (str "example.com")) (replicate 32 7)
           toy_draws toy_draws toy_draws toy_ctx toy_ctx (set_off (len toy_inner) toy_wire) []).
  - apply toy_aead_ok.
  - by split.
  - reflexivity.
  - compute_ch_ok.
  - compute_ch_ok.
  - compute_ch_ok.
  - compute_ch_ok.
  - apply toy_ch_sensible. vm_compute. discriminate.
  - apply toy_draws_bytes.
  - vm_compute. discriminate.
  - reflexivity.
  - reflexivity.
  - apply toy_wire_wf.
  - reflexivity.
  - apply toy_wire_wf.
Defined.
