(* ===== verification/Export.v ===== *)
(** * Export: handing a connection over as a byte string ([lib/picotls.c])

    [ptls_export] writes the state of a server connection after its handshake, and [ptls_import]
    builds a connection from such bytes; [ptls_build_tls12_export_params] writes the state of a
    TLS 1.2 connection whose handshake another library has done. *)

From S2P Require Import Prelude Constants Wire Buffer Crypto KeySchedule Tls Record Emit Receive Conn.

Section Handover.
Context `{Allocator}.

(** The parameters all versions have; [ver_block] writes the version-specific part. *)
(* src lib/picotls.c:5296-5316 export_tls_params *)
Definition export_tls_params (is_server session_reused : bool) (protocol_version : Z)
    (cipher : ptls_cipher_suite_t) (client_random : bytes) (server_name : option bytes)
    (negotiated_protocol : bytes) (ver_block : M ptls_buffer_t unit) : M ptls_buffer_t unit :=
  ptls_buffer_push_block 2
    (_ ← ptls_buffer_push [if is_server then 1 else 0];
     _ ← ptls_buffer_push [if session_reused then 1 else 0];
     _ ← ptls_buffer_push16 protocol_version;
     _ ← ptls_buffer_push16 (cs_id cipher);
     _ ← ptls_buffer_pushv client_random;
     _ ← ptls_buffer_push_block 2 (ptls_buffer_pushv (match server_name with Some n => c_string n | None => [] end));
     _ ← ptls_buffer_push_block 2 (ptls_buffer_pushv negotiated_protocol);
     _ ← ptls_buffer_push_block 2 ver_block;
     ptls_buffer_push_block 2 (mret ())).

(* src lib/picotls.c:5318-5340 export_tls12_params *)
Definition export_tls12_params (is_server session_reused : bool) (cipher : ptls_cipher_suite_t)
    (client_random : bytes) (server_name : option bytes) (negotiated_protocol : bytes)
    (enc_key enc_iv : bytes) (enc_seq enc_record_iv : Z) (dec_key dec_iv : bytes) (dec_seq : Z)
    : M ptls_buffer_t unit :=
  let a := cs_aead cipher in
  let key := λ k : bytes, take (Z.to_nat (key_size a)) k in
  let iv := λ v : bytes, take (Z.to_nat (tls12_fixed_iv_size a)) v in
  export_tls_params is_server session_reused PTLS_PROTOCOL_VERSION_TLS12 cipher client_random server_name
    negotiated_protocol
    (_ ← ptls_buffer_pushv (key enc_key);
     _ ← ptls_buffer_pushv (iv enc_iv);
     _ ← ptls_buffer_push64 enc_seq;
     _ ← (if negb (tls12_record_iv_size a =? 0) then ptls_buffer_push64 enc_record_iv else mret ());
     _ ← ptls_buffer_pushv (key dec_key);
     _ ← ptls_buffer_pushv (iv dec_iv);
     ptls_buffer_push64 dec_seq).

(* src lib/picotls.c:5342-5382 ptls_build_tls12_export_params *)
Definition ptls_build_tls12_export_params (is_server session_reused : bool) (cipher : ptls_cipher_suite_t)
    (master_secret hello_randoms : bytes) (next_send_record_iv : Z) (server_name : option bytes)
    (negotiated_protocol : bytes) : M ptls_buffer_t unit :=
  let a := cs_aead cipher in
  _ ← lift (guard_err (negb (tls12_fixed_iv_size a + tls12_record_iv_size a =? 0)) ABORTED);
  let key_block_len := (key_size a + tls12_fixed_iv_size a) * 2 in
  _ ← lift (guard_err (key_block_len <=? (PTLS_MAX_SECRET_SIZE + PTLS_MAX_IV_SIZE) * 2) ABORTED);
  b ← gets id;
  _ ← lift (buffer_require_direction b 1);
  key_block ← lift (ptls_tls12_phash (cs_hash cipher) key_block_len
                 (take (Z.to_nat PTLS_TLS12_MASTER_SECRET_SIZE) master_secret) (str "key expansion")
                 (take (Z.to_nat (PTLS_HELLO_RANDOM_SIZE * 2)) hello_randoms));
  let at_ := λ o : Z, drop (Z.to_nat o) key_block in
  let client_key := at_ 0 in
  let server_key := at_ (key_size a) in
  let client_iv := at_ (key_size a * 2) in
  let server_iv := at_ (key_size a * 2 + tls12_fixed_iv_size a) in
  let client_random := take (Z.to_nat PTLS_HELLO_RANDOM_SIZE) (drop (Z.to_nat PTLS_HELLO_RANDOM_SIZE) hello_randoms) in
  if is_server then
    export_tls12_params is_server session_reused cipher client_random server_name negotiated_protocol
      server_key server_iv 1 next_send_record_iv client_key client_iv 1
  else
    export_tls12_params is_server session_reused cipher client_random server_name negotiated_protocol
      client_key client_iv 1 next_send_record_iv server_key server_iv 1.

(** The NULL cipher suite is not checked for. *)
(* src lib/picotls.c:5384-5422 ptls_export *)
Definition ptls_export (tls : ptls_t) : M ptls_buffer_t unit :=
  let proto := match negotiated_protocol tls with Some p => c_string p | None => [] end in
  b ← gets id;
  _ ← lift (buffer_require_direction b 1);
  if tx_detached tls then fail PTLS_ERROR_NOT_AVAILABLE
  else if negb (bool_decide (state tls = PTLS_STATE_SERVER_POST_HANDSHAKE)) then fail PTLS_ERROR_LIBRARY
  else
    match cipher_suite tls with
    | None => fail ABORTED
    | Some cipher =>
        if ptls_get_protocol_version tls =? PTLS_PROTOCOL_VERSION_TLS13 then
          let size := Z.to_nat (digest_size (cs_hash cipher)) in
          export_tls_params (is_server tls) (is_psk_handshake tls) PTLS_PROTOCOL_VERSION_TLS13 cipher
            (client_random tls) (server_name tls) proto
            (_ ← ptls_buffer_pushv (take size (tp_secret (enc tls)));
             _ ← ptls_buffer_push64 (seq (enc tls));
             _ ← ptls_buffer_pushv (take size (tp_secret (dec tls)));
             ptls_buffer_push64 (seq (dec tls)))
        else
          export_tls12_params (is_server tls) (is_psk_handshake tls) cipher (client_random tls)
            (server_name tls) proto (tp_secret (enc tls))
            (drop (Z.to_nat PTLS_MAX_SECRET_SIZE) (tp_secret (enc tls))) (seq (enc tls))
            (tls12_enc_record_iv (enc tls)) (tp_secret (dec tls))
            (drop (Z.to_nat PTLS_MAX_SECRET_SIZE) (tp_secret (dec tls))) (seq (dec tls))
    end.

(* src lib/picotls.c:2666-2674 ptls_find_cipher_suite *)
Fixpoint ptls_find_cipher_suite (cipher_suites : list ptls_cipher_suite_t) (id : Z) : option ptls_cipher_suite_t :=
  match cipher_suites with
  | [] => None
  | cs :: l => if cs_id cs =? id then Some cs else ptls_find_cipher_suite l id
  end.

(** Decoders that fill in the connection: the connection, and the bytes left. *)
(* src lib/picotls.c:5424-5449 import_tls12_traffic_protection *)
Definition import_tls12_traffic_protection (is_enc : bool) (suite : ptls_cipher_suite_t) (tls : ptls_t) (src : bytes)
    : result (ptls_t * bytes) :=
  let a := cs_aead suite in
  if len src <? key_size a + tls12_fixed_iv_size a + 8 then Err PTLS_ALERT_DECODE_ERROR
  else
    let tp := get_tp is_enc tls in
    let secret := mem_write (tp_secret tp) 0 (take (Z.to_nat (key_size a)) src) in
    let src := drop (Z.to_nat (key_size a)) src in
    let secret := mem_write secret PTLS_MAX_SECRET_SIZE (take (Z.to_nat (tls12_fixed_iv_size a)) src) in
    let src := drop (Z.to_nat (tls12_fixed_iv_size a)) src in
    '(sq, src) ← ptls_decode64 src;
    '(iv, src) ← (if is_enc && negb (tls12_record_iv_size a =? 0) then ptls_decode64 src
                  else Ok (tls12_enc_record_iv tp, src));
    match ptls_aead_new_direct a is_enc (take (Z.to_nat (key_size a)) secret)
            (take (Z.to_nat (iv_size a)) (drop (Z.to_nat PTLS_MAX_SECRET_SIZE) secret)) with
    | None => Err PTLS_ERROR_NO_MEMORY
    | Some ctx =>
        Ok (on_tp is_enc (λ tp, mkTp secret (epoch tp) (Some ctx) sq true iv) tls, src)
    end.

(** The bytes of the secret are copied without a look at how many there are. *)
(* src lib/picotls.c:5451-5465 import_tls13_traffic_protection *)
Definition import_tls13_traffic_protection (is_enc : bool) (suite : ptls_cipher_suite_t) (tls : ptls_t) (src : bytes)
    : result (ptls_t * bytes) :=
  let size := digest_size (cs_hash suite) in
  if len src <? size then Err OVER_READ
  else
    let tls := on_tp is_enc (write_secret (take (Z.to_nat size) src)) tls in
    let src := drop (Z.to_nat size) src in
    '(sq, src) ← ptls_decode64 src;
    let tls := on_tp is_enc (set_seq sq) tls in
    match setup_traffic_protection is_enc None 3 sq false tls with
    | (Ok _, tls) => Ok (tls, src)
    | (Err _, _) => Err PTLS_ERROR_INCOMPATIBLE_KEY
    end.

(* src lib/picotls.c:5662-5674 ptls_set_server_name *)
Definition ptls_set_server_name (name : option bytes) (name_len : Z) (tls : ptls_t) : result ptls_t :=
  match name with
  | None => Ok (set_server_name None tls)
  | Some n =>
      match duplicate_as_str (if negb (name_len =? 0) then take (Z.to_nat name_len) n else c_string n) with
      | None => Err PTLS_ERROR_NO_MEMORY
      | Some d => Ok (set_server_name (Some d) tls)
      end
  end.

(* src lib/picotls.c:5681-5692 ptls_set_negotiated_protocol *)
Definition ptls_set_negotiated_protocol (protocol : option bytes) (protocol_len : Z) (tls : ptls_t) : result ptls_t :=
  match protocol with
  | None => Ok (set_negotiated_protocol None tls)
  | Some n =>
      match duplicate_as_str (if negb (protocol_len =? 0) then take (Z.to_nat protocol_len) n else c_string n) with
      | None => Err PTLS_ERROR_NO_MEMORY
      | Some d => Ok (set_negotiated_protocol (Some d) tls)
      end
  end.

(** The keys, by version. *)
(* src lib/picotls.c:5514-5548 protocol_version *)
Definition import_keys (c : ptls_context_t) (protocol_version csid : Z) (tls : ptls_t) (src : bytes)
    : result (ptls_t * bytes) :=
  if protocol_version =? PTLS_PROTOCOL_VERSION_TLS12 then
    match ptls_find_cipher_suite (tls12_cipher_suites c) csid with
    | None => Err PTLS_ALERT_HANDSHAKE_FAILURE
    | Some suite =>
        '(tls, src) ← import_tls12_traffic_protection true suite (set_cipher_suite (Some suite) tls) src;
        import_tls12_traffic_protection false suite tls src
    end
  else if protocol_version =? PTLS_PROTOCOL_VERSION_TLS13 then
    match ptls_find_cipher_suite (cipher_suites c) csid with
    | None => Err PTLS_ALERT_HANDSHAKE_FAILURE
    | Some suite =>
        match key_schedule_new (Some suite) [] false with
        | None => Err PTLS_ERROR_NO_MEMORY
        | Some sched =>
            let tls := set_key_schedule (Some sched) (set_cipher_suite (Some suite) tls) in
            '(tls, src) ← import_tls13_traffic_protection true suite tls src;
            import_tls13_traffic_protection false suite tls src
        end
    end
  else Err PTLS_ALERT_ILLEGAL_PARAMETER.

Definition import_name (set : option bytes -> Z -> ptls_t -> result ptls_t) (tls : ptls_t) (src : bytes)
    : result (ptls_t * bytes) :=
  if negb (len src =? 0) then tls ← set (Some src) (len src) tls; Ok (tls, []) else Ok (tls, src).

(** The contents of the block. *)
(* src lib/picotls.c:5476-5553 new_instance *)
Definition import_body (c : ptls_context_t) (src : bytes) : result (ptls_t * bytes) :=
  match src with
  | is_server :: reused :: src =>
      match new_instance c (Z.odd is_server) with
      | None => Err PTLS_ERROR_NO_MEMORY
      | Some tls =>
          let tls := set_is_psk_handshake (Z.odd reused) tls in
          '(protocol_version, src) ← ptls_decode16 src;
          '(csid, src) ← ptls_decode16 src;
          _ ← guard_err (PTLS_HELLO_RANDOM_SIZE <=? len src) PTLS_ALERT_DECODE_ERROR;
          let tls := set_client_random (take (Z.to_nat PTLS_HELLO_RANDOM_SIZE) src) tls in
          let src := drop (Z.to_nat PTLS_HELLO_RANDOM_SIZE) src in
          '(tls, src) ← ptls_decode_open_block 2 (import_name ptls_set_server_name tls) src;
          '(tls, src) ← ptls_decode_open_block 2 (import_name ptls_set_negotiated_protocol tls) src;
          '(tls, src) ← ptls_decode_open_block 2 (import_keys c protocol_version csid tls) src;
          '(_, src) ← ptls_decode_open_block 2 (λ _, Ok ((), [])) src;
          Ok (tls, src)
      end
  | _ => Err PTLS_ALERT_DECODE_ERROR
  end.

(** The connection; it is freed, and the pointer NULL, on any error. *)
(* src lib/picotls.c:5467-5565 ptls_import *)
Definition ptls_import (c : ptls_context_t) (params : bytes) : result ptls_t :=
  tls ← ptls_decode_block 2 (import_body c) params;
  Ok (set_state (if is_server tls then PTLS_STATE_SERVER_POST_HANDSHAKE else PTLS_STATE_CLIENT_POST_HANDSHAKE) tls).

End Handover.

(** ** Round trip *)

Definition name_bytes (n : option bytes) : bytes := match n with Some n => c_string n | None => [] end.
Definition bit (b : bool) : Z := if b then 1 else 0.

(** The bytes of the parameters. *)
Definition param_body (server reused : bool) (version id : Z) (random name proto keys : bytes) : bytes :=
  [bit server] ++ [bit reused] ++ bytes16 version ++ bytes16 id ++ random ++
  block2 name ++ block2 proto ++ block2 keys ++ block2 [].

Lemma param_body_len server reused version id random name proto keys :
  len (param_body server reused version id random name proto keys)
  = 14 + len random + len name + len proto + len keys.
Proof.
  unfold param_body. rewrite !len_app, !len_block2. change (len [bit server]) with 1. change (len [bit reused]) with 1.
  rewrite !bytes16_be. unfold len at 1 2. rewrite !be_encode_length. rewrite len_nil. lia.
Qed.

Section Roundtrip.
Context `{Allocator}.

Lemma emits_block2 (block : M ptls_buffer_t unit) bs :
  len bs < 65536 -> emits block (Ok ((), bs)) -> emits (ptls_buffer_push_block 2 block) (Ok ((), block2 bs)).
Proof.
  intros Hl Hb. pose proof (emits_push_block 2 block () bs ltac:(lia) Hb) as He.
  change (256 ^ Z.of_nat 2) with 65536 in He. rewrite (proj2 (Z.leb_gt _ _)), andb_false_r in He by lia. exact He.
Qed.

Lemma bit_byte b : is_bytes [bit b].
Proof. apply Forall_singleton. by destruct b. Qed.

Lemma emits_export_params server reused version suite random name proto ver_block keys :
  14 + len random + len (name_bytes name) + len proto + len keys < 65536 ->
  emits ver_block (Ok ((), keys)) ->
  emits (export_tls_params server reused version suite random name proto ver_block)
    (Ok ((), block2 (param_body server reused version (cs_id suite) random (name_bytes name) proto keys))).
Proof.
  intros Hl Hk. pose proof (len_nonneg random). pose proof (len_nonneg (name_bytes name)).
  pose proof (len_nonneg proto). pose proof (len_nonneg keys).
  apply emits_block2; [by rewrite param_body_len|]. unfold param_body.
  eapply emits_seq; [apply emits_push, bit_byte|]. eapply emits_seq; [apply emits_push, bit_byte|].
  eapply emits_seq; [apply emits_push16|]. eapply emits_seq; [apply emits_push16|].
  eapply emits_seq; [apply emits_pushv|].
  eapply emits_seq; [apply emits_block2; [|apply emits_pushv]; unfold name_bytes in *; lia|].
  eapply emits_seq; [apply emits_block2; [|apply emits_pushv]; lia|].
  eapply emits_seq; [apply emits_block2; [|exact Hk]; lia|].
  apply emits_block2; [done|apply emits_ret].
Qed.

Lemma split_of_block2 body rest : len body < 65536 -> split_block 2 (block2 body ++ rest) = Ok (body, rest).
Proof. intros Hl. unfold block2. rewrite <- app_assoc. by apply split_block2. Qed.

(** A name of no bytes is no name. *)
Definition name_of (n : bytes) : option bytes := match n with [] => None | _ => Some n end.

Definition with_names (name proto : bytes) (t : ptls_t) : ptls_t :=
  set_negotiated_protocol (name_of proto) (set_server_name (name_of name) t).

Lemma import_name_run set field n t :
  (forall x t, set (Some x) (len x) t = match duplicate_as_str x with Some d => Ok (field (Some d) t) | None => Err PTLS_ERROR_NO_MEMORY end) ->
  (field None t = t) ->
  import_name set t n = Ok (field (name_of n) t, []) \/ import_name set t n = Err PTLS_ERROR_NO_MEMORY.
Proof.
  intros Hset Hid. unfold import_name. destruct n as [|b n]; [left; cbn; by rewrite Hid|].
  rewrite (proj2 (Z.eqb_neq _ 0)) by (rewrite len_cons; pose proof (len_nonneg n); lia). cbn [negb]. rewrite Hset. unfold duplicate_as_str. destruct (malloc _); [by left|by right].
Qed.

Lemma set_name_run x t :
  ptls_set_server_name (Some x) (len x) t
  = match duplicate_as_str x with Some d => Ok (set_server_name (Some d) t) | None => Err PTLS_ERROR_NO_MEMORY end.
Proof.
  unfold ptls_set_server_name. destruct (Z.eqb_spec (len x) 0) as [E|E]; cbn [negb].
  - by apply len_zero in E as ->.
  - by rewrite to_nat_len, firstn_all.
Qed.

Lemma set_protocol_run x t :
  ptls_set_negotiated_protocol (Some x) (len x) t
  = match duplicate_as_str x with Some d => Ok (set_negotiated_protocol (Some d) t) | None => Err PTLS_ERROR_NO_MEMORY end.
Proof.
  unfold ptls_set_negotiated_protocol. destruct (Z.eqb_spec (len x) 0) as [E|E]; cbn [negb].
  - by apply len_zero in E as ->.
  - by rewrite to_nat_len, firstn_all.
Qed.

(** The version-independent part of the import. *)
Lemma import_params c server reused version id random name proto keys :
  is_bytes random -> len random = PTLS_HELLO_RANDOM_SIZE -> 0 <= version < 2 ^ 16 -> 0 <= id < 2 ^ 16 ->
  14 + len random + len name + len proto + len keys < 65536 ->
  import_body c (param_body server reused version id random name proto keys) = Err PTLS_ERROR_NO_MEMORY \/
  exists t0, new_instance c server = Some t0 /\
    import_body c (param_body server reused version id random name proto keys)
    = ('(t, rest) ← import_keys c version id
                      (with_names name proto (set_client_random random (set_is_psk_handshake reused t0))) keys;
       _ ← ptls_decode_assert_block_close rest; Ok (t, [])).
Proof.
  intros Hrb Hr Hv Hid Hl. pose proof (len_nonneg random). pose proof (len_nonneg name). pose proof (len_nonneg proto). pose proof (len_nonneg keys).
  assert (forall b, Z.odd (bit b) = b) as Hodd by (by intros []).
  unfold import_body, param_body. cbn [app]. rewrite !Hodd.
  destruct (new_instance c server) as [t0|] eqn:Hnew; [|by left].
  rewrite !decode16_push16 by lia. cbn [mbind result_bind]. rewrite !decode16_push16 by lia. cbn [mbind result_bind].
  rewrite !len_app, (proj2 (Z.leb_le _ _)) by (rewrite !len_block2, len_nil; lia).
  cbn [guard_err mbind result_bind]. rewrite <- Hr, take_len_app, drop_len_app.
  set (t1 := set_client_random random _).
  assert (server_name t0 = None /\ negotiated_protocol t0 = None) as [Hn0 Hp0].
  { unfold new_instance in Hnew. destruct (malloc _); [|done]. by injection Hnew as <-. }
  assert (set_server_name None t1 = t1) as Hid1 by (unfold t1; destruct t0; cbn in *; by subst).
  assert (forall n, set_negotiated_protocol None (set_server_name n t1) = set_server_name n t1) as Hid2
    by (unfold t1; destruct t0; cbn in *; by subst).
  rewrite !open_block2_run by lia.
  destruct (import_name_run ptls_set_server_name set_server_name name t1) as [E|E];
    [apply set_name_run|done| |by left; rewrite E].
  rewrite E. cbn [mbind result_bind ptls_decode_assert_block_close]. rewrite !open_block2_run by lia.
  destruct (import_name_run ptls_set_negotiated_protocol set_negotiated_protocol proto (set_server_name (name_of name) t1))
    as [E'|E']; [apply set_protocol_run|done| |by left; rewrite E'].
  rewrite E'. cbn [mbind result_bind ptls_decode_assert_block_close]. rewrite !open_block2_run by lia.
  right. exists t0. split; [done|]. change (set_negotiated_protocol _ _) with (with_names name proto t1).
  destruct (import_keys _ _ _ _ keys) as [[t rest]|e]; [|done]. cbn [mbind result_bind].
  destruct (ptls_decode_assert_block_close rest) as [[]|]; done.
Qed.

(** The keys of TLS 1.3, in one direction. *)
Lemma import_tls13_run is_enc suite t s secret sq rest :
  hash_ok (cs_hash suite) -> cipher_suite t = Some suite -> key_schedule t = Some s -> algo0 s = cs_hash suite ->
  update_traffic_key (ctx t) = None -> len (tp_secret (get_tp is_enc t)) = PTLS_MAX_DIGEST_SIZE ->
  len secret = digest_size (cs_hash suite) -> 0 <= sq < 2 ^ 64 ->
  import_tls13_traffic_protection is_enc suite t (secret ++ bytes64 sq ++ rest) = Err PTLS_ERROR_INCOMPATIBLE_KEY \/
  exists a array, key_of is_enc suite secret (hkdf_label_prefix__obsolete (ctx t)) a /\
    take (Z.to_nat (digest_size (cs_hash suite))) array = secret /\
    import_tls13_traffic_protection is_enc suite t (secret ++ bytes64 sq ++ rest)
    = Ok (on_tp is_enc (λ tp, mkTp array 3 (Some a) sq (tls12 tp) (tls12_enc_record_iv tp)) t, rest).
Proof.
  intros Hh Hsu Hs Ha Hl Hlen Hsec Hsq. unfold import_tls13_traffic_protection.
  pose proof (digest_size_max _ Hh). pose proof (digest_size_pos _ Hh). pose proof (len_nonneg (bytes64 sq ++ rest)).
  rewrite len_app, (proj2 (Z.ltb_ge _ _)) by lia. rewrite <- Hsec, take_len_app, drop_len_app.
  rewrite decode64_push64 by done. cbn [mbind result_bind].
  set (t1 := on_tp is_enc (set_seq sq) _).
  set (array := mem_write (tp_secret (get_tp is_enc t)) 0 secret).
  assert (take (Z.to_nat (len secret)) array = secret) as Harr.
  { unfold array, mem_write. change (take (Z.to_nat 0) (tp_secret (get_tp is_enc t))) with (@nil Z). rewrite app_nil_l. apply take_len_app. }
  assert (has_secret is_enc suite secret t1) as Ht1.
  { split; [exists s; by destruct is_enc|by destruct is_enc|by destruct is_enc| |done]. rewrite <- Hsec.
    transitivity (take (Z.to_nat (len secret)) array); [|done]. unfold t1, array. by destruct is_enc. }
  pose proof (setup_keys_run is_enc 3 sq false suite secret t1 Ht1) as Hk.
  destruct (setup_traffic_protection _ _ _ _ _ t1) as [[[]|e] t2]; [right|by left].
  destruct Hk as (a & Hkey & ->). exists a, array. split; [by destruct is_enc|]. rewrite Hsec in *. split; [done|].
  f_equal. f_equal. unfold t1, array. by destruct is_enc.
Qed.

(** What an imported connection has in common with the exported one. *)
Record same_connection (suite : ptls_cipher_suite_t) (t t' : ptls_t) : Prop := {
  sc_state : state t' = state t;
  sc_server : is_server t' = is_server t;
  sc_psk : is_psk_handshake t' = is_psk_handshake t;
  sc_random : client_random t' = client_random t;
  sc_name : server_name t' = server_name t;
  sc_proto : negotiated_protocol t' = negotiated_protocol t;
  sc_suite : cipher_suite t' = Some suite;
  sc_version : ptls_get_protocol_version t' = ptls_get_protocol_version t;
  sc_keys : forall is_enc, exists secret a,
    has_secret is_enc suite secret t /\ has_secret is_enc suite secret t' /\
    seq (get_tp is_enc t') = seq (get_tp is_enc t) /\
    aead (get_tp is_enc t') = Some a /\ key_of is_enc suite secret (hkdf_label_prefix__obsolete (ctx t)) a;
}.

(** A name as [strlen] sees it. *)
Definition proper_name (n : option bytes) : Prop :=
  match n with Some n => n <> [] /\ Forall (λ b, b <> 0) n | None => True end.

Lemma proper_name_of n : proper_name n -> name_of (name_bytes n) = n.
Proof. destruct n as [n|]; [|done]. intros [Hn Hz]. cbn. rewrite c_string_id by done. by destruct n. Qed.

Lemma find_suite_id l id suite : ptls_find_cipher_suite l id = Some suite -> cs_id suite = id.
Proof.
  induction l as [|x l IH]; [done|]. cbn. destruct (Z.eqb_spec (cs_id x) id); [|done]. by intros [= <-].
Qed.

(** The states [ptls_export] accepts, for TLS 1.3. *)
Record exportable (suite : ptls_cipher_suite_t) (t : ptls_t) : Prop := {
  ex_state : state t = PTLS_STATE_SERVER_POST_HANDSHAKE;
  ex_server : is_server t = true;
  ex_detached : tx_detached t = false;
  ex_tls13 : tls12 (enc t) = false;
  ex_random : is_bytes (client_random t) /\ len (client_random t) = PTLS_HELLO_RANDOM_SIZE;
  ex_name : proper_name (server_name t);
  ex_proto : proper_name (negotiated_protocol t);
  ex_suite : ptls_find_cipher_suite (cipher_suites (ctx t)) (cs_id suite) = Some suite /\ 0 <= cs_id suite < 2 ^ 16;
  ex_keys : forall is_enc, exists secret, has_secret is_enc suite secret t;
  ex_seq : forall is_enc, 0 <= seq (get_tp is_enc t) < 2 ^ 64;
  ex_size : len (name_bytes (server_name t)) + len (name_bytes (negotiated_protocol t)) < 60000;
}.

Definition exported_keys13 (suite : ptls_cipher_suite_t) (t : ptls_t) : bytes :=
  let size := Z.to_nat (digest_size (cs_hash suite)) in
  take size (tp_secret (enc t)) ++ bytes64 (seq (enc t)) ++ take size (tp_secret (dec t)) ++ bytes64 (seq (dec t)).

Definition exported13 (suite : ptls_cipher_suite_t) (t : ptls_t) : bytes :=
  block2 (param_body (is_server t) (is_psk_handshake t) PTLS_PROTOCOL_VERSION_TLS13 (cs_id suite) (client_random t)
    (name_bytes (server_name t)) (name_bytes (negotiated_protocol t)) (exported_keys13 suite t)).

Lemma len_bytes64 v : len (bytes64 v) = 8.
Proof. rewrite bytes64_be. unfold len. by rewrite be_encode_length. Qed.

Lemma export_emits suite t b :
  hash_ok (cs_hash suite) -> exportable suite t -> buf_wf b -> tx b = 1 ->
  outcome (Ok ((), exported13 suite t)) (contents b) (tx b) (ptls_export t b).
Proof.
  intros Hh [Hst Hsrv Hdet H12 [Hrb Hrl] Hn Hp [Hf Hid] Hk Hs Hsz] Hw Ht. unfold ptls_export.
  rewrite M_bind_run. cbn [gets id]. rewrite M_bind_run. unfold buffer_require_direction. rewrite Ht. cbn [lift guard_err Z.eqb].
  change (1 =? 1) with true. cbn [guard_err]. rewrite Hdet, bool_decide_eq_true_2 by done. cbn [negb].
  destruct (Hk true) as (se & Hse), (Hk false) as (sd & Hsd). rewrite (hs_suite _ _ _ _ Hse).
  unfold ptls_get_protocol_version. rewrite Hdet, H12, Z.eqb_refl.
  pose proof (digest_size_max _ Hh). unfold PTLS_MAX_DIGEST_SIZE in *.
  assert (len (exported_keys13 suite t) <= 144) as Hkl.
  { unfold exported_keys13. rewrite !len_app, !len_bytes64, !len_take. lia. }
  rewrite <- Ht. apply emits_export_params; [|..|exact Hw].
  - rewrite Hrl. unfold PTLS_HELLO_RANDOM_SIZE. change (match negotiated_protocol t with Some p => c_string p | None => [] end)
      with (name_bytes (negotiated_protocol t)). lia.
  - unfold exported_keys13. eapply emits_seq; [apply emits_pushv|]. eapply emits_seq; [apply emits_push64|].
    eapply emits_seq; [apply emits_pushv|]. apply emits_push64.
Qed.

Lemma new_instance_fields c server t :
  new_instance c server = Some t ->
  t = set_send_change_cipher_spec (ctx_send_change_cipher_spec c) (set_is_server server (zero_tls c)).
Proof. unfold new_instance. destruct (malloc _); [|done]. by intros [= <-]. Qed.

Lemma import_exported13 suite t :
  hash_ok (cs_hash suite) -> exportable suite t ->
  match ptls_import (ctx t) (exported13 suite t) with
  | Ok t' => same_connection suite t t'
  | Err e => e = PTLS_ERROR_NO_MEMORY \/ e = PTLS_ERROR_INCOMPATIBLE_KEY
  end.
Proof.
  intros Hh [Hst Hsrv Hdet H12 [Hrb Hrl] Hn Hp [Hf Hid] Hk Hs Hsz].
  destruct (Hk true) as (se & Hse), (Hk false) as (sd & Hsd). pose proof (digest_size_max _ Hh).
  unfold PTLS_MAX_DIGEST_SIZE in *.
  assert (exported_keys13 suite t = se ++ bytes64 (seq (enc t)) ++ sd ++ bytes64 (seq (dec t))) as Hkeys.
  { unfold exported_keys13. by rewrite <- (hs_secret _ _ _ _ Hse), <- (hs_secret _ _ _ _ Hsd). }
  pose proof (hs_len _ _ _ _ Hse) as Hle. pose proof (hs_len _ _ _ _ Hsd) as Hld.
  unfold ptls_import, ptls_decode_block, exported13. rewrite <- (app_nil_r (block2 _)), open_block2_run.
  2:{ rewrite param_body_len, Hrl, Hkeys, !len_app, !len_bytes64. unfold PTLS_HELLO_RANDOM_SIZE. lia. }
  destruct (import_params (ctx t) (is_server t) (is_psk_handshake t) PTLS_PROTOCOL_VERSION_TLS13 (cs_id suite)
    (client_random t) (name_bytes (server_name t)) (name_bytes (negotiated_protocol t)) (exported_keys13 suite t))
    as [-> | (t0 & Hnew & ->)]; try done.
  { rewrite Hrl, Hkeys, !len_app, !len_bytes64. unfold PTLS_HELLO_RANDOM_SIZE. lia. }
  { by left. }
  apply new_instance_fields in Hnew. subst t0. unfold with_names. rewrite !proper_name_of by done.
  unfold import_keys. change (PTLS_PROTOCOL_VERSION_TLS13 =? PTLS_PROTOCOL_VERSION_TLS12) with false.
  rewrite Z.eqb_refl, Hf. destruct (key_schedule_new (Some suite) [] false) as [sched|] eqn:Hsched; [|by left].
  pose proof (schedule_new_algo _ _ Hsched) as Halg. pose proof (hs_layer _ _ _ _ Hse) as Hlayer. rewrite Hkeys.
  set (t1 := set_key_schedule _ _).
  destruct (import_tls13_run true suite t1 sched se (seq (enc t)) (sd ++ bytes64 (seq (dec t)))) as [-> |
    (a & arr & Hka & Harr & ->)]; try done; [apply (Hs true)|by right|]. cbn [mbind result_bind].
  set (t2 := on_tp true _ t1).
  rewrite <- (app_nil_r (bytes64 (seq (dec t)))).
  destruct (import_tls13_run false suite t2 sched sd (seq (dec t)) []) as [-> |
    (d & arr' & Hkd & Harr' & ->)]; try done; [apply (Hs false)|by right|]. cbn [mbind result_bind ptls_decode_assert_block_close].
  split; try done; cbn.
  - by rewrite Hsrv.
  - unfold ptls_get_protocol_version. cbn. by rewrite Hdet, H12.
  - intros []; [exists se, a|exists sd, d]; (split; [done|]; split; [|done]; split; try done; exists sched; done).
Qed.

(** C37: exporting and importing a TLS 1.3 connection.  The bytes [ptls_export] appends are a
    description from which [ptls_import], with the same context, builds a connection that has the
    same state, role, names, random, cipher suite and version, the same traffic secrets and
    sequence numbers in both directions, and the keys those secrets give.  Each side fails only
    when memory allocation fails (which the import of keys reports as an incompatible key). *)
Theorem export_import_roundtrip suite t b :
  hash_ok (cs_hash suite) -> exportable suite t -> buf_wf b -> tx b = 1 ->
  match ptls_export t b with
  | (Err e, _) => e = PTLS_ERROR_NO_MEMORY
  | (Ok _, b') =>
      exists params, contents b' = contents b ++ params /\
      match ptls_import (ctx t) params with
      | Ok t' => same_connection suite t t'
      | Err e => e = PTLS_ERROR_NO_MEMORY \/ e = PTLS_ERROR_INCOMPATIBLE_KEY
      end
  end.
Proof.
  intros Hh Hex Hw Ht. pose proof (export_emits suite t b Hh Hex Hw Ht) as Ho.
  destruct (ptls_export t b) as [[[]|e] b'].
  - destruct Ho as (_ & _ & _ & Hc). exists (exported13 suite t). split; [exact Hc|]. by apply import_exported13.
  - by destruct Ho as (_ & _ & [->|(?&?&?)] & _).
Qed.

(** ** Two defects of the import *)

(** [ptls_import] reads beyond the parameters.  Whenever the block of TLS 1.3 keys is shorter than the digest of
    the cipher suite, the secret is copied from beyond the end of the bytes given (nothing checks
    their number first), unless memory runs out before. *)
Theorem import_reads_beyond c suite server reused random name proto keys :
  ptls_find_cipher_suite (cipher_suites c) (cs_id suite) = Some suite -> 0 <= cs_id suite < 2 ^ 16 ->
  is_bytes random -> len random = PTLS_HELLO_RANDOM_SIZE ->
  14 + len random + len name + len proto + len keys < 65536 -> len keys < digest_size (cs_hash suite) ->
  ptls_import c (block2 (param_body server reused PTLS_PROTOCOL_VERSION_TLS13 (cs_id suite) random name proto keys))
    ∈ [Err OVER_READ; Err PTLS_ERROR_NO_MEMORY].
Proof.
  intros Hf Hid Hrb Hrl Hl Hk. unfold ptls_import, ptls_decode_block.
  rewrite <- (app_nil_r (block2 _)), open_block2_run by (rewrite param_body_len; lia).
  assert (forall e : Z, e = OVER_READ \/ e = PTLS_ERROR_NO_MEMORY -> @Err ptls_t e ∈ [Err OVER_READ; Err PTLS_ERROR_NO_MEMORY])
    as Hin by (intros e [-> | ->]; by repeat constructor).
  destruct (import_params c server reused PTLS_PROTOCOL_VERSION_TLS13 (cs_id suite) random name proto keys)
    as [-> | (t0 & Hnew & ->)]; try done; [by apply Hin; right|].
  unfold import_keys. change (PTLS_PROTOCOL_VERSION_TLS13 =? PTLS_PROTOCOL_VERSION_TLS12) with false.
  rewrite Z.eqb_refl, Hf. destruct (key_schedule_new _ _ _); [|by apply Hin; right].
  cbn zeta. set (t1 := set_key_schedule _ _).
  assert (import_tls13_traffic_protection true suite t1 keys = Err OVER_READ) as ->.
  { unfold import_tls13_traffic_protection. by rewrite (proj2 (Z.ltb_lt _ _)) by done. }
  by apply Hin; left.
Qed.

(** The field of early data stays what [new_instance] made it: zero. *)
Lemma import_tls13_skipped is_enc suite t src t' rest :
  import_tls13_traffic_protection is_enc suite t src = Ok (t', rest) ->
  early_data_skipped_bytes t' = early_data_skipped_bytes t /\ is_server t' = is_server t.
Proof.
  unfold import_tls13_traffic_protection. destruct (_ <? _); [done|]. intros E.
  apply result_bind_ok in E as ([sq src'] & _ & E). set (t1 := on_tp is_enc (set_seq sq) _) in E.
  assert (early_data_skipped_bytes t1 = early_data_skipped_bytes t /\ is_server t1 = is_server t) as [<- <-] by (by destruct is_enc).
  revert E. generalize t1. clear. intros t1.
  unfold setup_traffic_protection, get_schedule, get_suite. rewrite M_bind_run. cbn [mret M_ret].
  rewrite M_bind_run. cbn [modify]. rewrite !M_bind_run. cbn [gets]. destruct (key_schedule _); [|done]. cbn [mret M_ret].
  rewrite M_bind_run. cbn [gets]. rewrite M_bind_run. cbn [gets]. destruct (update_traffic_key _).
  - cbn zeta. destruct (_ =? 0); [|done]. intros [= <- _]. by destruct is_enc.
  - rewrite !M_bind_run. cbn [gets]. destruct (cipher_suite _); [|done]. cbn [mret M_ret].
    destruct (ptls_aead_new _ _ _ _ _); [|done]. intros [= <- _]. by destruct is_enc.
Qed.

Lemma import_tls12_skipped is_enc suite t src t' rest :
  import_tls12_traffic_protection is_enc suite t src = Ok (t', rest) ->
  early_data_skipped_bytes t' = early_data_skipped_bytes t /\ is_server t' = is_server t.
Proof.
  unfold import_tls12_traffic_protection. destruct (_ <? _); [done|]. intros E.
  apply result_bind_ok in E as ([sq src'] & _ & E). apply result_bind_ok in E as ([iv src''] & _ & E).
  destruct (ptls_aead_new_direct _ _ _ _); [|done]. injection E as <- _. by destruct is_enc.
Qed.

Lemma import_name_skipped set (field : option bytes -> ptls_t -> ptls_t) t src t' rest :
  (forall x n t t', set x n t = Ok t' -> exists y, t' = field y t) ->
  (forall y t, early_data_skipped_bytes (field y t) = early_data_skipped_bytes t /\ is_server (field y t) = is_server t) ->
  import_name set t src = Ok (t', rest) ->
  early_data_skipped_bytes t' = early_data_skipped_bytes t /\ is_server t' = is_server t.
Proof.
  intros Hset Hf. unfold import_name. destruct (negb _); [|by intros [= <- _]]. intros E.
  apply result_bind_ok in E as (t1 & E1 & E). injection E as <- _. apply Hset in E1 as [y ->]. apply Hf.
Qed.

Lemma set_name_field x n t t' : ptls_set_server_name x n t = Ok t' -> exists y, t' = set_server_name y t.
Proof.
  unfold ptls_set_server_name. destruct x; [destruct (duplicate_as_str _); [|done]|]; intros [= <-]; by eexists.
Qed.

Lemma set_protocol_field x n t t' : ptls_set_negotiated_protocol x n t = Ok t' -> exists y, t' = set_negotiated_protocol y t.
Proof.
  unfold ptls_set_negotiated_protocol. destruct x; [destruct (duplicate_as_str _); [|done]|]; intros [= <-]; by eexists.
Qed.

Lemma import_keys_skipped c version csid t src t' rest :
  import_keys c version csid t src = Ok (t', rest) ->
  early_data_skipped_bytes t' = early_data_skipped_bytes t /\ is_server t' = is_server t.
Proof.
  unfold import_keys. destruct (_ =? _); [|destruct (_ =? _); [|done]]; destruct (ptls_find_cipher_suite _ _); try done.
  - intros E. apply result_bind_ok in E as ([t1 src1] & E1 & E2).
    apply import_tls12_skipped in E1 as [H1 H2]. apply import_tls12_skipped in E2 as [H3 H4]. by rewrite H3, H4, H1, H2.
  - destruct (key_schedule_new _ _ _); [|done]. cbn zeta. intros E. apply result_bind_ok in E as ([t1 src1] & E1 & E2).
    apply import_tls13_skipped in E1 as [H1 H2]. apply import_tls13_skipped in E2 as [H3 H4]. by rewrite H3, H4, H1, H2.
Qed.

Lemma open_block_out {A} (P : A -> Prop) (block : bytes -> result (A * bytes)) cap src a rest :
  (forall inner rest, block inner = Ok (a, rest) -> P a) ->
  ptls_decode_open_block cap block src = Ok (a, rest) -> P a.
Proof.
  intros HP E. unfold ptls_decode_open_block in E. apply result_bind_ok in E as ([inner r] & _ & E).
  apply result_bind_ok in E as ([a' i'] & Eb & E). apply result_bind_ok in E as ([] & _ & E). injection E as <- _.
  by eapply HP.
Qed.

Lemma import_skipped c params t : ptls_import c params = Ok t -> early_data_skipped_bytes t = 0.
Proof.
  unfold ptls_import, ptls_decode_block. intros E. apply result_bind_ok in E as (t1 & E & [= <-]).
  change (early_data_skipped_bytes t1 = 0). apply result_bind_ok in E as ([t2 rest] & E & E2).
  apply result_bind_ok in E2 as ([] & _ & [= <-]). revert E. apply (open_block_out (λ t, early_data_skipped_bytes t = 0)).
  clear. intros src rest. unfold import_body. destruct src as [|srv [|reused src]]; [done|done|].
  destruct (new_instance c _) as [t0|] eqn:Hnew; [|done]. apply new_instance_fields in Hnew. subst t0. intros E.
  apply result_bind_ok in E as ([version src1] & _ & E). apply result_bind_ok in E as ([csid src2] & _ & E).
  apply result_bind_ok in E as ([] & _ & E). apply result_bind_ok in E as ([t3 src3] & E3 & E).
  apply result_bind_ok in E as ([t4 src4] & E4 & E). apply result_bind_ok in E as ([t5 src5] & E5 & E).
  apply result_bind_ok in E as ([[] src6] & _ & E). injection E as <- _.
  apply (open_block_out (λ t, early_data_skipped_bytes t = early_data_skipped_bytes t4)) in E5 as ->.
  2:{ intros inner r Ei. by apply import_keys_skipped in Ei as [? _]. }
  apply (open_block_out (λ t, early_data_skipped_bytes t = early_data_skipped_bytes t3)) in E4 as ->.
  2:{ intros inner r Ei. by apply (import_name_skipped _ set_negotiated_protocol) in Ei as [? _]; [|apply set_protocol_field|]. }
  apply (open_block_out (λ t, early_data_skipped_bytes t = 0)) in E3; [done|].
  intros inner r Ei. by apply (import_name_skipped _ set_server_name) in Ei as [-> _]; [|apply set_name_field|].
Qed.

(** An imported server connection discards forged records.  [ptls_import] leaves the field that
    counts skipped early data at zero, where [ptls_server_new] sets the value that means "not
    skipping"; so a record that does not decrypt is taken for early data to be skipped and handling
    goes on, without an error, where a connection that did its own handshake fails with
    bad_record_mac. *)
Theorem imported_server_skips_forgeries c params t a cb r db b o p :
  ptls_import c params = Ok t -> is_server t = true -> aead (dec t) = Some a ->
  rec_type r = PTLS_CONTENT_TYPE_APPDATA -> 0 <= rec_length r <= PTLS_MAX_EARLY_DATA_SKIP_SIZE ->
  ptls_aead_decrypt a (fragment r) (seq (dec t)) (build_aad (len (fragment r))) = None ->
  buf_wf db -> tx db = 0 ->
  ((handle_record cb r db (mkConn t b o p)).1.1 = PTLS_ERROR_IN_PROGRESS \/
   (handle_record cb r db (mkConn t b o p)).1.1 = PTLS_ERROR_NO_MEMORY) /\
  ((handle_record cb r db (mkConn (set_early_data_skipped_bytes UINT32_MAX t) b o p)).1.1 = PTLS_ALERT_BAD_RECORD_MAC \/
   (handle_record cb r db (mkConn (set_early_data_skipped_bytes UINT32_MAX t) b o p)).1.1 = PTLS_ERROR_NO_MEMORY).
Proof.
  intros Hi Hsrv Ha Hty Hl Hopen Hw Ht. apply import_skipped in Hi. unfold handle_record, aead_decrypt.
  cbn [cn_tls dec set_early_data_skipped_bytes]. rewrite Ha, Hty, Hopen.
  change (PTLS_CONTENT_TYPE_APPDATA =? PTLS_CONTENT_TYPE_ALERT) with false. rewrite Z.eqb_refl. cbn [negb].
  pose proof (reserve_aligned_cases (rec_length r) 0 0 db Hw ltac:(lia) ltac:(lia)) as Hres. unfold reserve.
  destruct (reserve_aligned _ 0 0 db) as [[[]|e] db1].
  2:{ destruct Hres as (_ & [[? ?]|(_ & -> & _)]); [congruence|]. split; by right. }
  unfold skips_early_data, server_skip_early_data.
  cbn [is_server set_early_data_skipped_bytes early_data_skipped_bytes on_tls cn_tls]. rewrite Hsrv, Hi. cbn [andb].
  change (negb (UINT32_MAX =? UINT32_MAX)) with false. change (negb (0 =? UINT32_MAX)) with true. cbn iota.
  split; [|by left]. left. unfold PTLS_MAX_EARLY_DATA_SKIP_SIZE in *. rewrite (proj2 (Z.ltb_ge _ _)); [done|].
  unfold u32. rewrite (Z.mod_small (rec_length r)) by lia. rewrite Z.mod_small; lia.
Qed.

End Roundtrip.

(** ** Witnesses *)

Lemma toy_exportable : exportable toy_suite (toy_tls true).
Proof.
  split; try done.
  - split; [|done]. apply (bool_decide_unpack _). vm_compute. exact I.
  - intros is_enc. exists (replicate 8 5). apply toy_secret.
  - by intros [].
Qed.

Lemma export_import_roundtrip_witness :
  match @ptls_export bump_allocator (toy_tls true) (ptls_buffer_init 64 [0; 0; 0; 0] 1) with
  | (Err e, _) => e = PTLS_ERROR_NO_MEMORY
  | (Ok _, b') =>
      exists params, contents b' = contents (ptls_buffer_init 64 [0; 0; 0; 0] 1) ++ params /\
      match @ptls_import bump_allocator toy_context params with
      | Ok t' => @same_connection bump_allocator toy_suite (toy_tls true) t'
      | Err e => e = PTLS_ERROR_NO_MEMORY \/ e = PTLS_ERROR_INCOMPATIBLE_KEY
      end
  end.
Proof.
  apply (@export_import_roundtrip bump_allocator toy_suite (toy_tls true) (ptls_buffer_init 64 [0; 0; 0; 0] 1));
    [apply toy_hash_ok|apply toy_exportable|apply bump_push_witness_wf|reflexivity].
Defined.

Lemma import_reads_beyond_witness :
  @ptls_import bump_allocator toy_context
    (block2 (param_body true false PTLS_PROTOCOL_VERSION_TLS13 0x1301 (replicate 32 1) [] [] [9; 9; 9]))
    ∈ [Err OVER_READ; Err PTLS_ERROR_NO_MEMORY].
Proof.
  apply (@import_reads_beyond bump_allocator toy_context toy_suite true false (replicate 32 1) [] [] [9; 9; 9]);
    [reflexivity|vm_compute; split; [discriminate|reflexivity]| |reflexivity|reflexivity|reflexivity].
  apply (bool_decide_unpack _). vm_compute. exact I.
Defined.

(** The parameters of an exported server connection, and the connection imported from them. *)
Definition toy_params : bytes := exported13 toy_suite (toy_tls true).
Definition toy_imported : ptls_t :=
  match @ptls_import bump_allocator toy_context toy_params with Ok t => t | Err _ => toy_tls true end.
Definition toy_dec_ctx : ptls_aead_context_t := default toy_ctx (aead (dec toy_imported)).

(** A record of application data that no key sealed. *)
Definition toy_forgery : st_ptls_record_t := mkRecord PTLS_CONTENT_TYPE_APPDATA 0x303 4 [1; 2; 3; 4].

Lemma toy_imported_ok : @ptls_import bump_allocator toy_context toy_params = Ok toy_imported.
Proof.
  unfold toy_imported. assert (is_ok (@ptls_import bump_allocator toy_context toy_params) = true) as E by (vm_compute; reflexivity).
  by destruct (@ptls_import _ _ _).
Qed.

Lemma toy_dec_ctx_ok : aead (dec toy_imported) = Some toy_dec_ctx.
Proof.
  unfold toy_dec_ctx. assert (bool_decide (is_Some (aead (dec toy_imported))) = true) as E by (vm_compute; reflexivity).
  by destruct (aead (dec toy_imported)).
Qed.

Lemma imported_server_skips_forgeries_witness :
  (@handle_record bump_allocator toy_handler toy_forgery toy_output (mkConn toy_imported toy_output [] None)).1.1
    = PTLS_ERROR_IN_PROGRESS \/
  (@handle_record bump_allocator toy_handler toy_forgery toy_output (mkConn toy_imported toy_output [] None)).1.1
    = PTLS_ERROR_NO_MEMORY.
Proof.
  eapply (proj1 (@imported_server_skips_forgeries bump_allocator toy_context toy_params toy_imported toy_dec_ctx toy_handler
    toy_forgery toy_output toy_output [] None toy_imported_ok ltac:(vm_compute; reflexivity) toy_dec_ctx_ok eq_refl
    ltac:(vm_compute; split; discriminate) ltac:(vm_compute; reflexivity) toy_output_wf eq_refl)).
Defined.
