(* ===== verification/Handshake.v ===== *)
(** * Handshake: Finished, and the order of the messages ([lib/picotls.c])

    What the code sends and checks to end the handshake, and the dispatch of handshake messages by
    the state of the connection. *)

From S2P Require Import Prelude Constants Wire Buffer Crypto KeySchedule Tls Record Receive Conn.

(** ** The dispatch

    The handlers of the messages that carry the negotiation, by the name of the C function. *)

Record handlers := mkHandlers {
  client_handle_hello : handler;
  client_handle_encrypted_extensions : handler;
  client_handle_certificate_request : handler;
  client_handle_certificate : handler;
  client_handle_compressed_certificate : handler;
  client_handle_certificate_verify : handler;
  client_handle_finished : handler;
  client_handle_new_session_ticket : handler;
  server_handle_hello : handler;
  server_handle_certificate : handler;
  server_handle_certificate_verify : handler;
}.

Section Dispatch.
Context `{Allocator} (h : handlers) (stack : bytes).

(** A handler of the connection object alone. *)
Definition tls_handler (m : bytes -> M ptls_t unit) : handler :=
  λ message _ c, let '(r, c) := tls_op (m message) c in (code r, c).

Definition reject (alert : Z) : handler := λ _ _ c, (alert, c).

(* src lib/picotls.c:5732-5815 handle_client_handshake_message *)
Definition handle_client_handshake_message : handler := λ message is_end_of_record c,
  let type := byte_at message 0 in
  (match state (cn_tls c) with
   | PTLS_STATE_CLIENT_EXPECT_SERVER_HELLO | PTLS_STATE_CLIENT_EXPECT_SECOND_SERVER_HELLO =>
       if (type =? PTLS_HANDSHAKE_TYPE_SERVER_HELLO) && is_end_of_record then client_handle_hello h
       else reject PTLS_ALERT_UNEXPECTED_MESSAGE
   | PTLS_STATE_CLIENT_EXPECT_ENCRYPTED_EXTENSIONS =>
       if type =? PTLS_HANDSHAKE_TYPE_ENCRYPTED_EXTENSIONS then client_handle_encrypted_extensions h
       else reject PTLS_ALERT_UNEXPECTED_MESSAGE
   | PTLS_STATE_CLIENT_EXPECT_CERTIFICATE_REQUEST_OR_CERTIFICATE =>
       if type =? PTLS_HANDSHAKE_TYPE_CERTIFICATE_REQUEST then client_handle_certificate_request h
       else if type =? PTLS_HANDSHAKE_TYPE_CERTIFICATE then client_handle_certificate h
       else if type =? PTLS_HANDSHAKE_TYPE_COMPRESSED_CERTIFICATE then client_handle_compressed_certificate h
       else reject PTLS_ALERT_UNEXPECTED_MESSAGE
   | PTLS_STATE_CLIENT_EXPECT_CERTIFICATE =>
       if type =? PTLS_HANDSHAKE_TYPE_CERTIFICATE then client_handle_certificate h
       else if type =? PTLS_HANDSHAKE_TYPE_COMPRESSED_CERTIFICATE then client_handle_compressed_certificate h
       else reject PTLS_ALERT_UNEXPECTED_MESSAGE
   | PTLS_STATE_CLIENT_EXPECT_CERTIFICATE_VERIFY =>
       if type =? PTLS_HANDSHAKE_TYPE_CERTIFICATE_VERIFY then client_handle_certificate_verify h
       else reject PTLS_ALERT_UNEXPECTED_MESSAGE
   | PTLS_STATE_CLIENT_EXPECT_FINISHED =>
       if (type =? PTLS_HANDSHAKE_TYPE_FINISHED) && is_end_of_record then client_handle_finished h
       else reject PTLS_ALERT_UNEXPECTED_MESSAGE
   | PTLS_STATE_CLIENT_POST_HANDSHAKE =>
       if type =? PTLS_HANDSHAKE_TYPE_NEW_SESSION_TICKET then client_handle_new_session_ticket h
       else if type =? PTLS_HANDSHAKE_TYPE_KEY_UPDATE then tls_handler (handle_key_update stack)
       else reject PTLS_ALERT_UNEXPECTED_MESSAGE
   | _ => reject ABORTED
   end) message is_end_of_record c.

(* src lib/picotls.c:5817-5886 handle_server_handshake_message *)
Definition handle_server_handshake_message : handler := λ message is_end_of_record c,
  let type := byte_at message 0 in
  (match state (cn_tls c) with
   | PTLS_STATE_SERVER_EXPECT_CLIENT_HELLO | PTLS_STATE_SERVER_EXPECT_SECOND_CLIENT_HELLO =>
       if (type =? PTLS_HANDSHAKE_TYPE_CLIENT_HELLO) && is_end_of_record then server_handle_hello h
       else reject PTLS_ALERT_HANDSHAKE_FAILURE
   | PTLS_STATE_SERVER_EXPECT_CERTIFICATE =>
       if type =? PTLS_HANDSHAKE_TYPE_CERTIFICATE then server_handle_certificate h
       else reject PTLS_ALERT_UNEXPECTED_MESSAGE
   | PTLS_STATE_SERVER_EXPECT_CERTIFICATE_VERIFY =>
       if type =? PTLS_HANDSHAKE_TYPE_CERTIFICATE_VERIFY then server_handle_certificate_verify h
       else reject PTLS_ALERT_UNEXPECTED_MESSAGE
   | PTLS_STATE_SERVER_EXPECT_END_OF_EARLY_DATA =>
       if omit_end_of_early_data (ctx (cn_tls c)) then reject ABORTED
       else if type =? PTLS_HANDSHAKE_TYPE_END_OF_EARLY_DATA then tls_handler server_handle_end_of_early_data
       else reject PTLS_ALERT_UNEXPECTED_MESSAGE
   | PTLS_STATE_SERVER_EXPECT_FINISHED =>
       if (type =? PTLS_HANDSHAKE_TYPE_FINISHED) && is_end_of_record then tls_handler server_handle_finished
       else reject PTLS_ALERT_HANDSHAKE_FAILURE
   | PTLS_STATE_SERVER_POST_HANDSHAKE =>
       if type =? PTLS_HANDSHAKE_TYPE_KEY_UPDATE then tls_handler (handle_key_update stack)
       else reject PTLS_ALERT_UNEXPECTED_MESSAGE
   | _ => reject ABORTED
   end) message is_end_of_record c.

(** ** The epochs *)

(* src lib/picotls.c:6937-6966 ptls_get_read_epoch *)
Definition ptls_get_read_epoch (tls : ptls_t) : result Z :=
  match state tls with
  | PTLS_STATE_CLIENT_HANDSHAKE_START | PTLS_STATE_CLIENT_EXPECT_SERVER_HELLO
  | PTLS_STATE_CLIENT_EXPECT_SECOND_SERVER_HELLO | PTLS_STATE_SERVER_EXPECT_CLIENT_HELLO
  | PTLS_STATE_SERVER_EXPECT_SECOND_CLIENT_HELLO => Ok 0
  | PTLS_STATE_SERVER_EXPECT_END_OF_EARLY_DATA =>
      _ ← guard_err (negb (omit_end_of_early_data (ctx tls))) ABORTED; Ok 1
  | PTLS_STATE_CLIENT_EXPECT_ENCRYPTED_EXTENSIONS
  | PTLS_STATE_CLIENT_EXPECT_CERTIFICATE_REQUEST_OR_CERTIFICATE | PTLS_STATE_CLIENT_EXPECT_CERTIFICATE
  | PTLS_STATE_CLIENT_EXPECT_CERTIFICATE_VERIFY | PTLS_STATE_CLIENT_EXPECT_FINISHED
  | PTLS_STATE_SERVER_GENERATING_CERTIFICATE_VERIFY | PTLS_STATE_SERVER_EXPECT_CERTIFICATE
  | PTLS_STATE_SERVER_EXPECT_CERTIFICATE_VERIFY | PTLS_STATE_SERVER_EXPECT_FINISHED => Ok 2
  | PTLS_STATE_CLIENT_POST_HANDSHAKE | PTLS_STATE_SERVER_POST_HANDSHAKE => Ok 3
  end.

(** A message from a transport with its own record layer; [client_hello] is [send_client_hello]. *)
(* src lib/picotls.c:6975-6995 ptls_client_handle_message *)
Definition ptls_client_handle_message (client_hello : conn -> Z * conn) (in_epoch : Z) (input : option bytes)
    (c : conn) : Z * conn :=
  if is_server (cn_tls c) then (ABORTED, c)
  else
    match buffer_require_direction (cn_send c) 1 with
    | Err e => (e, c)
    | Ok _ =>
        match input with
        | None => client_hello c
        | Some input =>
            match ptls_get_read_epoch (cn_tls c) with
            | Err e => (e, c)
            | Ok ep =>
                if negb (ep =? in_epoch) then (PTLS_ALERT_UNEXPECTED_MESSAGE, c)
                else handle_handshake_record handle_client_handshake_message PTLS_CONTENT_TYPE_HANDSHAKE input c
            end
        end
    end.

(** [finish] is [server_finish_handshake]. *)
(* src lib/picotls.c:6997-7021 ptls_server_handle_message *)
Definition ptls_server_handle_message (finish : conn -> Z * conn) (in_epoch : Z) (input : option bytes)
    (c : conn) : Z * conn :=
  if negb (is_server (cn_tls c)) then (ABORTED, c)
  else
    match buffer_require_direction (cn_send c) 1 with
    | Err e => (e, c)
    | Ok _ =>
        if bool_decide (state (cn_tls c) = PTLS_STATE_SERVER_GENERATING_CERTIFICATE_VERIFY) then
          match input with
          | None | Some [] => finish c
          | Some _ => (ABORTED, c)
          end
        else
          match input with
          | None => (ABORTED, c)
          | Some input =>
              match ptls_get_read_epoch (cn_tls c) with
              | Err e => (e, c)
              | Ok ep =>
                  if negb (ep =? in_epoch) then (PTLS_ALERT_UNEXPECTED_MESSAGE, c)
                  else handle_handshake_record handle_server_handshake_message PTLS_CONTENT_TYPE_HANDSHAKE input c
              end
          end
    end.

(* src lib/picotls.c:6968-6973 ptls_handle_message *)
Definition ptls_handle_message (client_hello finish : conn -> Z * conn) (in_epoch : Z) (input : option bytes)
    (c : conn) : Z * conn :=
  if is_server (cn_tls c) then ptls_server_handle_message finish in_epoch input c
  else ptls_client_handle_message client_hello in_epoch input c.

(** ** The handshake over records *)

(** [handle_input] until the handshake is complete, or fails, or the input is used up. *)
(* src lib/picotls.c:6166-6171 consumed *)
Fixpoint handshake_loop (fuel : nat) (cb : handler) (input : bytes) (ret : Z) (db : ptls_buffer_t) (c : conn)
    : Z * bytes * conn :=
  if (ret =? PTLS_ERROR_IN_PROGRESS) && negb (len input =? 0) then
    match fuel with
    | O => (OUT_OF_FUEL, input, c)
    | S fuel =>
        let '(ret, consumed, db, c) := handle_input cb input db c in
        let input := drop (Z.to_nat consumed) input in
        if negb (off db =? 0) then (ABORTED, input, c) else handshake_loop fuel cb input ret db c
    end
  else (ret, input, c).

(** What follows the loop: a failed handshake takes back what it has written, and sends an alert. *)
(* src lib/picotls.c:6175-6194 sendbuf_orig_off *)
Definition handshake_exit (sendbuf_orig_off ret : Z) (c : conn) : conn :=
  if (ret =? 0) || (ret =? PTLS_ERROR_IN_PROGRESS) || (ret =? PTLS_ERROR_STATELESS_RETRY) ||
     (ret =? PTLS_ERROR_ASYNC_OPERATION)
  then c
  else
    let c :=
      if negb (ret =? PTLS_ALERT_ECH_REQUIRED) then
        let b := cn_send c in
        rewind sendbuf_orig_off
          (put_buf (poke sendbuf_orig_off (replicate (Z.to_nat (off b - sendbuf_orig_off)) 0) b) c)
      else c in
    if negb (PTLS_ERROR_GET_CLASS ret =? PTLS_ERROR_CLASS_PEER_ALERT) then
      match ptls_send_alert PTLS_ALERT_LEVEL_FATAL
              (if PTLS_ERROR_GET_CLASS ret =? PTLS_ERROR_CLASS_SELF_ALERT then ret else PTLS_ALERT_INTERNAL_ERROR) c with
      | (Ok _, c) => c
      | (Err _, c) => rewind sendbuf_orig_off c
      end
    else c.

(** The code, the input that is left, and the connection.  [client_hello] and [finish] are
    [send_client_hello] and [server_finish_handshake]. *)
(* src lib/picotls.c:6135-6198 ptls_handshake *)
Definition ptls_handshake (client_hello finish : conn -> Z * conn) (input : bytes) (c : conn)
    : Z * bytes * conn :=
  let tls := cn_tls c in
  if is_post_handshake (state tls) then (ABORTED, input, c)
  else
    match buffer_require_direction (cn_send c) 1 with
    | Err e => (e, input, c)
    | Ok _ =>
        let sendbuf_orig_off := off (cn_send c) in
        match state tls with
        | PTLS_STATE_CLIENT_HANDSHAKE_START =>
            if negb (len input =? 0) then (ABORTED, input, c)
            else let '(ret, c) := client_hello c in (ret, input, c)
        | PTLS_STATE_SERVER_GENERATING_CERTIFICATE_VERIFY => let '(ret, c) := finish c in (ret, input, c)
        | _ =>
            let cb := if is_server tls then handle_server_handshake_message else handle_client_handshake_message in
            let '(ret, rest, c) :=
              handshake_loop (length input) cb input PTLS_ERROR_IN_PROGRESS (ptls_buffer_init_rx EMPTY_STRING []) c in
            (ret, rest, handshake_exit sendbuf_orig_off ret c)
        end
    end.

End Dispatch.

(** ** A failed handshake *)

Section Exit.
Context `{Allocator} (h : handlers) (stack : bytes).

(** The send buffer, with data added at its end. *)
Definition extends (b0 b : ptls_buffer_t) : Prop :=
  buf_wf b /\ tx b = tx b0 /\ exists bs, contents b = contents b0 ++ bs.

(** Handlers only add to the send buffer. *)
Definition appends (cb : handler) : Prop :=
  forall m e c b0, extends b0 (cn_send c) -> extends b0 (cn_send (cb m e c).2).

Lemma extends_refl b : buf_wf b -> extends b b.
Proof. intros Hw. split; [done|]. split; [done|]. exists []. by rewrite app_nil_r. Qed.

Lemma message_loop_appends cb fuel src ret c b0 :
  appends cb -> extends b0 (cn_send c) -> extends b0 (cn_send (message_loop fuel cb src ret c).2).
Proof.
  intros Hcb. revert src ret c. induction fuel as [|fuel IH]; intros src ret c Hc; cbn [message_loop].
  - destruct (_ <? _); [done|]. destruct (_ <? _); done.
  - destruct (_ <? _); [done|]. cbn zeta. destruct (_ <? _); [done|].
    pose proof (Hcb (take (Z.to_nat (4 + ntoh24 (drop 1 src))) src) (len src =? 4 + ntoh24 (drop 1 src)) c b0 Hc) as Hn.
    destruct (cb _ _ c) as [ret' c']. destruct (goes_on ret'); [by apply IH|done].
Qed.

Lemma handle_messages_appends cb src c b0 :
  appends cb -> extends b0 (cn_send c) -> extends b0 (cn_send (handle_messages cb src c).2).
Proof.
  intros Hcb Hc. unfold handle_messages.
  pose proof (message_loop_appends cb (length src) src PTLS_ERROR_IN_PROGRESS c b0 Hcb Hc) as Hm.
  destruct (message_loop _ _ _ _ _) as [[ret rest] c']. cbn [snd] in Hm. destruct (goes_on ret); [|done].
  unfold keep_partial. destruct (negb _); [|done]. destruct (message_buffer_is_overflow _ _); [done|].
  destruct (base _ =? 0); [|done]. by destruct (reserve _ _ _) as [[]].
Qed.

Lemma handle_handshake_record_appends cb type frag c b0 :
  appends cb -> extends b0 (cn_send c) -> extends b0 (cn_send (handle_handshake_record cb type frag c).2).
Proof.
  intros Hcb Hc. unfold handle_handshake_record. destruct (negb _); [done|].
  destruct (base _ =? 0); [by apply handle_messages_appends|]. destruct (message_buffer_is_overflow _ _); [done|].
  destruct (reserve _ _ _) as [[[]|e] b]; [by apply handle_messages_appends|done].
Qed.

Lemma handle_plain_appends cb type frag db c b0 :
  appends cb -> extends b0 (cn_send c) -> extends b0 (cn_send (handle_plain_record cb type frag db c).2).
Proof.
  intros Hcb Hc. unfold handle_plain_record. destruct (negb _ || _).
  { pose proof (handle_handshake_record_appends cb type frag c b0 Hcb Hc).
    by destruct (handle_handshake_record _ _ _ _). }
  destruct (_ =? PTLS_CONTENT_TYPE_APPDATA); [|by destruct (_ =? PTLS_CONTENT_TYPE_ALERT)].
  destruct (is_post_handshake _); [done|]. by destruct (bool_decide _).
Qed.

Lemma skip_appends n c b0 : extends b0 (cn_send c) -> extends b0 (cn_send (server_skip_early_data n c).2).
Proof. intros Hc. unfold server_skip_early_data. by destruct (_ <? _). Qed.

Lemma handle_record_appends cb r db c b0 :
  appends cb -> extends b0 (cn_send c) -> extends b0 (cn_send (handle_record cb r db c).2).
Proof.
  intros Hcb Hc. unfold handle_record. pose proof (skip_appends (rec_length r) c b0 Hc) as Hskip. destruct (aead _) as [a|].
  - destruct (_ =? PTLS_CONTENT_TYPE_ALERT); [by apply handle_plain_appends|]. destruct (negb _); [done|].
    destruct (reserve _ _ _) as [[[]|e] db']; [|done]. destruct (aead_decrypt _ _ _) as [[text|e] tp].
    + destruct (strip_padding _); [done|]. by apply handle_plain_appends.
    + destruct (skips_early_data _); [|done]. by destruct (server_skip_early_data _ _).
  - destruct (_ && _); [|by apply handle_plain_appends]. by destruct (server_skip_early_data _ _).
Qed.

Lemma handle_input_appends cb input db c b0 :
  appends cb -> extends b0 (cn_send c) -> extends b0 (cn_send (handle_input cb input db c).2).
Proof.
  intros Hcb Hc. unfold handle_input. destruct (parse_record _ _) as [[[r|e] consumed] rb]; [|done].
  destruct (_ =? PTLS_CONTENT_TYPE_CHANGE_CIPHER_SPEC); [by destruct (_ && _)|].
  pose proof (handle_record_appends cb r db (on_tls (set_recv_rec rb) c) b0 Hcb Hc).
  by destruct (handle_record _ _ _ _) as [[]].
Qed.

Lemma handshake_loop_appends cb fuel input ret db c b0 :
  appends cb -> extends b0 (cn_send c) -> extends b0 (cn_send (handshake_loop fuel cb input ret db c).2).
Proof.
  intros Hcb. revert input ret db c. induction fuel as [|fuel IH]; intros input ret db c Hc; cbn [handshake_loop].
  - by destruct (_ && _).
  - destruct (_ && _); [|done]. pose proof (handle_input_appends cb input db c b0 Hcb Hc) as Hn.
    destruct (handle_input _ _ _ _) as [[[ret' consumed] db'] c']. cbn zeta. destruct (negb _); [done|]. by apply IH.
Qed.

Lemma extends_rewind b0 c :
  extends b0 (cn_send c) -> buf_wf b0 ->
  let c' := rewind (off b0) c in
  buf_wf (cn_send c') /\ tx (cn_send c') = tx b0 /\ contents (cn_send c') = contents b0 /\ cn_tls c' = cn_tls c.
Proof.
  intros (Hw & Ht & bs & Hc) Hw0. cbn zeta. rewrite <- (contents_len b0 Hw0).
  split; [|split; [done|split; [by eapply rewind_contents|done]]].
  pose proof (contents_len _ Hw) as Ho. rewrite Hc, len_app in Ho. pose proof (len_nonneg bs). pose proof (len_nonneg (contents b0)).
  destruct Hw. split; cbn; try done. lia.
Qed.

(** Taking back what has been written, with the bytes cleared. *)
Lemma extends_take_back b0 c :
  extends b0 (cn_send c) -> buf_wf b0 ->
  let b := cn_send c in
  let c' := rewind (off b0) (put_buf (poke (off b0) (replicate (Z.to_nat (off b - off b0)) 0) b) c) in
  buf_wf (cn_send c') /\ tx (cn_send c') = tx b0 /\ contents (cn_send c') = contents b0 /\ cn_tls c' = cn_tls c.
Proof.
  intros (Hw & Ht & bs & Hc) Hw0. cbn zeta. pose proof (contents_len _ Hw) as Ho. rewrite Hc, len_app in Ho.
  rewrite <- (contents_len b0 Hw0). replace (off (cn_send c) - len (contents b0)) with (len bs) by lia.
  destruct (truncate_wf (cn_send c) (contents b0) bs Hw Hc) as (H1 & H2 & H3). split; [exact H1|].
  split; [|split; [exact H2|done]]. by etrans.
Qed.

Definition all_handlers : list handler :=
  [client_handle_hello h; client_handle_encrypted_extensions h; client_handle_certificate_request h;
   client_handle_certificate h; client_handle_compressed_certificate h; client_handle_certificate_verify h;
   client_handle_finished h; client_handle_new_session_ticket h; server_handle_hello h;
   server_handle_certificate h; server_handle_certificate_verify h].

Lemma reject_appends e : appends (reject e).
Proof. by intros m end_ c b0. Qed.

Lemma tls_handler_appends f : appends (tls_handler f).
Proof. intros m end_ c b0 Hc. unfold tls_handler, tls_op. by destruct (f m (cn_tls c)). Qed.

Lemma client_dispatch_appends : Forall appends all_handlers -> appends (handle_client_handshake_message h stack).
Proof.
  intros Hh m end_ c b0 Hc. unfold all_handlers in Hh. rewrite !Forall_cons in Hh.
  destruct Hh as (H1 & H2 & H3 & H4 & H5 & H6 & H7 & H8 & _).
  unfold handle_client_handshake_message. cbn zeta.
  destruct (state (cn_tls c)); repeat case_match;
    first [by apply reject_appends|by apply tls_handler_appends|by apply H1|by apply H2|by apply H3|by apply H4|by apply H5
          |by apply H6|by apply H7|by apply H8].
Qed.

Lemma server_dispatch_appends : Forall appends all_handlers -> appends (handle_server_handshake_message h stack).
Proof.
  intros Hh m end_ c b0 Hc. unfold all_handlers in Hh. rewrite !Forall_cons in Hh.
  destruct Hh as (_ & _ & _ & _ & _ & _ & _ & _ & H1 & H2 & H3 & _).
  unfold handle_server_handshake_message. cbn zeta.
  destruct (state (cn_tls c)); repeat case_match;
    first [by apply reject_appends|by apply tls_handler_appends|by apply H1|by apply H2|by apply H3].
Qed.

Definition alert_record (level description : Z) : bytes :=
  [PTLS_CONTENT_TYPE_ALERT; PTLS_RECORD_VERSION_MAJOR; PTLS_RECORD_VERSION_MINOR; 0; 2; level; description].

(** An alert on the wire: in the clear, or sealed. *)
Definition alert_wire (t : ptls_t) (level description : Z) (wire : bytes) : Prop :=
  wire = alert_record level description \/
  exists a, aead (enc t) = Some a /\
    wire = record13 a PTLS_CONTENT_TYPE_ALERT [level; description] (enc t).

Lemma send_alert_run level description c :
  buf_wf (cn_send c) -> tx (cn_send c) = 1 -> is_bytes [level; description] ->
  tls12 (enc (cn_tls c)) = false -> (forall a, aead (enc (cn_tls c)) = Some a -> aead_ok (aead_algo a)) ->
  match ptls_send_alert level description c with
  | (Ok _, c') => exists wire, alert_wire (cn_tls c) level description wire /\
                    contents (cn_send c') = contents (cn_send c) ++ wire
  | (Err _, c') => extends (cn_send c) (cn_send c')
  end.
Proof.
  intros Hw Ht Hb H12 Hok. unfold ptls_send_alert. rewrite M_bind_run. cbn [gets id].
  destruct (tx_detached (cn_tls c)); [by apply extends_refl|]. rewrite M_bind_run.
  assert (require_send_direction c = (Ok (), c)) as ->.
  { unfold require_send_direction, buffer_require_direction. rewrite M_bind_run. cbn [gets lift id]. by rewrite Ht. }
  rewrite M_bind_run. unfold record_op at 1. set (e0 := mkRec _ _).
  assert (triple (sender (enc (cn_tls c))) (buffer_push_record PTLS_CONTENT_TYPE_ALERT (ptls_buffer_push [level; description]))
    (Ok ((), alert_record level description)) (λ _, sender (enc (cn_tls c)))) as Htr.
  { unfold buffer_push_record.
    eapply (triple_seq _ _ _ () () [PTLS_CONTENT_TYPE_ALERT; PTLS_RECORD_VERSION_MAJOR; PTLS_RECORD_VERSION_MINOR] _ (λ _, sender (enc (cn_tls c)))); [|done|].
    - apply triple_push; [apply sender_stable|]. apply (bool_decide_unpack _). vm_compute. exact I.
    - change 2 with (Z.of_nat 2). apply (triple_push_block _ 2 _ () [level; description]); try done; try lia; try apply sender_stable.
      apply triple_push; [apply sender_stable|done]. }
  destruct (Htr e0 Hw (conj eq_refl Ht)) as [Ho HQ].
  destruct (buffer_push_record _ _ e0) as [[[]|er] e1]; cbn [fst snd] in *.
  2:{ destruct Ho as (Hw1 & Ht1 & _ & ds & Hc1). split; [done|]. split; [done|]. by exists ds. }
  destruct Ho as (Hw1 & Ht1 & _ & Hc1). destruct HQ as [He1 Htx1]. cbn in Hc1, Hw1, Ht1.
  destruct (aead (enc (cn_tls c))) as [a|] eqn:Ha.
  2:{ eexists. split; [by left|done]. }
  destruct (_ <=? _); [eexists; split; [by left|done]|].
  unfold record_op. cbn [cn_send cn_tls enc set_enc].
  pose proof (encrypt_record_fast a (contents (cn_send c)) PTLS_CONTENT_TYPE_ALERT 0 2 [level; description]
    (mkRec (rec_buf e1) (rec_enc e1)) (Hok a eq_refl) Hw1 Htx1) as Hf. rewrite He1 in Hf.
  specialize (Hf H12 Hc1 ltac:(done)). rewrite (contents_len _ Hw) in Hf. rewrite He1.
  destruct (buffer_encrypt_record _ _ _) as [[[]|er] e2]; cbn [cn_send rec_buf rec_enc] in *.
  - destruct Hf as (_ & Hc2 & _). eexists. split; [right; by exists a|done].
  - destruct Hf as [_ ->]. split; [done|]. split; [done|]. by eexists.
Qed.

Definition alert_of (ret : Z) : Z :=
  if PTLS_ERROR_GET_CLASS ret =? PTLS_ERROR_CLASS_SELF_ALERT then ret else PTLS_ALERT_INTERNAL_ERROR.

Lemma alert_of_byte ret : 0 <= ret -> is_byte (alert_of ret).
Proof.
  intros Hp. unfold alert_of, PTLS_ERROR_GET_CLASS, PTLS_ERROR_CLASS_SELF_ALERT.
  destruct (Z.eqb_spec (Z.land ret (Z.lnot 255)) 0) as [E|]; [|done]. split; [done|].
  change 255 with (Z.ones 8) in E. rewrite <- Z.ldiff_land, Z.ldiff_ones_r in E by lia. rewrite Z.shiftl_eq_0_iff in E by lia.
  rewrite Z.shiftr_div_pow2 in E by lia. pose proof (Z.div_small_iff ret (2 ^ 8) ltac:(lia)) as [Hs _].
  destruct (Hs E); lia.
Qed.

Lemma handshake_exit_wire b0 ret c1 :
  extends b0 (cn_send c1) -> buf_wf b0 -> tx b0 = 1 ->
  tls12 (enc (cn_tls c1)) = false -> (forall a, aead (enc (cn_tls c1)) = Some a -> aead_ok (aead_algo a)) ->
  ~ ret ∈ [0; PTLS_ERROR_IN_PROGRESS; PTLS_ERROR_STATELESS_RETRY; PTLS_ERROR_ASYNC_OPERATION; PTLS_ALERT_ECH_REQUIRED] ->
  0 <= ret ->
  exists wire, contents (cn_send (handshake_exit (off b0) ret c1)) = contents b0 ++ wire /\
    (wire = [] \/ PTLS_ERROR_GET_CLASS ret <> PTLS_ERROR_CLASS_PEER_ALERT /\
                  alert_wire (cn_tls c1) PTLS_ALERT_LEVEL_FATAL (alert_of ret) wire).
Proof.
  intros Hx Hw0 Ht0 H12 Hok Hret Hpos. rewrite !not_elem_of_cons in Hret. destruct Hret as (N1 & N2 & N3 & N4 & N5 & _).
  unfold handshake_exit. rewrite !(proj2 (Z.eqb_neq ret _)) by done. cbn [orb negb].
  destruct (extends_take_back b0 c1 Hx Hw0) as (Hw2 & Ht2 & Hc2 & Et2). set (c2 := rewind _ _) in *.
  destruct (Z.eqb_spec (PTLS_ERROR_GET_CLASS ret) PTLS_ERROR_CLASS_PEER_ALERT); cbn [negb].
  { exists []. rewrite app_nil_r. auto. }
  fold (alert_of ret). rewrite <- Et2 in H12, Hok |- *.
  pose proof (send_alert_run PTLS_ALERT_LEVEL_FATAL (alert_of ret) c2 Hw2 (eq_trans Ht2 Ht0)) as Hs.
  specialize (Hs ltac:(apply Forall_cons; split; [done|apply Forall_singleton; by apply alert_of_byte]) H12 Hok).
  destruct (ptls_send_alert _ _ c2) as [[[]|e] c3].
  - destruct Hs as (wire & Ha & Hc3). exists wire. rewrite Hc3, Hc2. auto.
  - exists []. rewrite app_nil_r. split; [|by left]. destruct Hs as (Hw3 & Ht3 & bs & Hc3). rewrite Hc2 in Hc3.
    destruct (extends_rewind b0 c3) as (_ & _ & Hc4 & _); [|done|done]. split; [done|]. split; [congruence|by exists bs].
Qed.


End Exit.

(** ** Finished *)

Section Finished.
Context `{Allocator}.

(** The value a Finished message must carry, for the traffic secret [secret]. *)
Definition finished_value (s : ptls_key_schedule_t) (secret : bytes) : bytes :=
  verify_data (algo0 s) (take (Z.to_nat (digest_size (algo0 s))) secret) (slot_ctx (slot0 s)).

Lemma finished_value_ok s secret :
  hash_ok (algo0 s) -> len (finished_value s secret) = digest_size (algo0 s) /\ is_bytes (finished_value s secret).
Proof. intros Ha. split; [by apply HMAC_len|by apply digest_bytes]. Qed.

Lemma verify_finished_run message t s :
  key_schedule t = Some s -> hash_ok (algo0 s) -> len (tp_secret (dec t)) = PTLS_MAX_DIGEST_SIZE -> is_bytes message ->
  exists r, verify_finished message t = (r, t) /\
  match r with
  | Ok _ => drop 4 message = finished_value s (tp_secret (dec t))
  | Err e =>
      e = PTLS_ALERT_DECODE_ERROR /\ len message <> 4 + digest_size (algo0 s) \/
      e = PTLS_ALERT_HANDSHAKE_FAILURE /\ len message = 4 + digest_size (algo0 s) /\
        drop 4 message <> finished_value s (tp_secret (dec t)) \/
      e = PTLS_ERROR_NO_MEMORY
  end.
Proof.
  intros Hs Ha Hl Hb. unfold verify_finished, get_schedule. rewrite !M_bind_run. cbn [gets]. rewrite Hs. cbn [mret M_ret].
  pose proof (digest_size_max _ Ha). pose proof (digest_size_pos _ Ha).
  change PTLS_HANDSHAKE_HEADER_SIZE with 4. change (Z.to_nat 4) with 4%nat.
  destruct (Z.eqb_spec (4 + digest_size (algo0 s)) (len message)) as [E|E]; cbn [negb].
  2:{ eexists. split; [reflexivity|]. left. split; [done|congruence]. }
  rewrite M_bind_run. cbn [gets]. rewrite M_bind_run. cbn [lift].
  destruct (calc_verify_data_spec s (tp_secret (dec t)) (algo0 s) (slot_ctx (slot0 s)) Ha eq_refl eq_refl ltac:(lia)) as [-> | ->].
  2:{ eexists. split; [reflexivity|]. by right; right. }
  fold (finished_value s (tp_secret (dec t))). destruct (finished_value_ok s (tp_secret (dec t)) Ha) as [Hvl Hvb].
  set (v := finished_value _ _) in *. 
  assert (take (Z.to_nat (digest_size (algo0 s))) (drop 4 message) = drop 4 message) as ->.
  { apply take_ge. rewrite length_drop. unfold len in *. lia. }
  assert (take (Z.to_nat (digest_size (algo0 s))) v = v) as -> by (apply take_ge; unfold len in *; lia).
  assert (length (drop 4 message) = length v) as Hlen by (rewrite length_drop; unfold len in *; lia).
  pose proof (mem_equal_spec (drop 4 message) v Hlen (Forall_drop _ _ _ Hb) Hvb) as Heq.
  destruct (mem_equal (drop 4 message) v); cbn [negb].
  - eexists. split; [reflexivity|]. by apply Heq.
  - eexists. split; [reflexivity|]. right; left. split; [done|]. split; [done|]. intros E'. apply Heq in E'. done.
Qed.

(** The server enters the application phase only on a genuine Finished.  [server_handle_finished]
    succeeds only if the message carries HMAC over the transcript under the key derived from the
    client's handshake secret (RFC 8446, section 4.4.4); then the pending application secret becomes
    the receiving secret (and is erased), its key is installed with counter zero, the message enters
    the transcript, and the state is post-handshake.  A message of another length or value is
    refused with the connection untouched; a genuine one fails only if memory runs out. *)
Theorem server_finished_authenticates message t s suite secret :
  key_schedule t = Some s -> hash_ok (algo0 s) -> algo0 s = cs_hash suite -> cipher_suite t = Some suite ->
  update_traffic_key (ctx t) = None -> len (tp_secret (dec t)) = PTLS_MAX_DIGEST_SIZE ->
  len (pending_traffic_secret t) = PTLS_MAX_DIGEST_SIZE ->
  take (Z.to_nat (digest_size (cs_hash suite))) (pending_traffic_secret t) = secret -> is_bytes message ->
  match server_handle_finished message t with
  | (Ok _, t') =>
      drop 4 message = finished_value s (tp_secret (dec t)) /\
      state t' = PTLS_STATE_SERVER_POST_HANDSHAKE /\
      has_secret false suite secret t' /\ seq (dec t') = 0 /\ epoch (dec t') = 3 /\
      (exists d, aead (dec t') = Some d /\ key_of false suite secret (hkdf_label_prefix__obsolete (ctx t)) d) /\
      pending_traffic_secret t' = replicate (Z.to_nat PTLS_MAX_DIGEST_SIZE) 0 /\
      key_schedule t' = Some (ptls__key_schedule_update_hash message false s)
  | (Err e, t') =>
      e = PTLS_ERROR_NO_MEMORY \/
      t' = t /\ drop 4 message <> finished_value s (tp_secret (dec t)) /\
      e = if len message =? 4 + digest_size (algo0 s) then PTLS_ALERT_HANDSHAKE_FAILURE else PTLS_ALERT_DECODE_ERROR
  end.
Proof.
  intros Hs Ha Halg Hsu Hlayer Hl Hpl Hsec Hb. unfold server_handle_finished. rewrite M_bind_run.
  destruct (verify_finished_run message t s Hs Ha Hl Hb) as (r & -> & Hr).
  destruct (finished_value_ok s (tp_secret (dec t)) Ha) as [Hvl Hvb]. pose proof (digest_size_pos _ Ha). pose proof (digest_size_max _ Ha).
  destruct r as [[]|e].
  2:{ destruct Hr as [[-> Hne]|[(-> & Hml & Hne)| ->]]; [| |by left].
      - right. split; [done|]. rewrite (proj2 (Z.eqb_neq _ _)) by done. split; [|done]. intros E.
        apply (f_equal len) in E. rewrite Hvl, len_drop in E. lia.
      - rewrite Hml, Z.eqb_refl. by right. }
  rewrite M_bind_run. cbn [modify]. set (t1 := set_pending_traffic_secret _ _).
  assert (has_secret false suite secret t1) as Ht1.
  { split; [by exists s|done|done|done|]. rewrite <- Hsec, len_take. rewrite Halg in *. lia. }
  rewrite M_bind_run. pose proof (setup_keys_run false 3 0 false suite secret t1 Ht1) as Hk.
  destruct (setup_traffic_protection _ _ _ _ _ t1) as [[[]|e] t2]; [|by left]. destruct Hk as (d & Hkd & ->).
  rewrite M_bind_run. unfold update_hash, get_schedule. rewrite !M_bind_run. cbn [gets].
  change (key_schedule (on_tp false _ t1)) with (key_schedule t). rewrite Hs. cbn [mret M_ret modify].
  split; [done|]. split; [done|]. split; [|split; [done|split; [done|split; [by exists d|done]]]].
  destruct Ht1 as [_ ? ? ? ?]. split; try done. eexists. split; [reflexivity|]. by rewrite update_hash_algo.
Qed.

(** Writing the Finished value for the secret [get] finds into space reserved in the send buffer. *)
Lemma triple_verify_data t s (get : conn -> bytes) secret :
  hash_ok (algo0 s) -> len secret = PTLS_MAX_DIGEST_SIZE -> (forall c, tls_is t c -> get c = secret) ->
  triple (tls_is t)
    (_ ← on_buf (reserve (digest_size (algo0 s)) 1);
     secret ← gets get;
     v ← lift (calc_verify_data s secret);
     on_buf (modify (append_reserved v)))
    (Ok ((), finished_value s secret)) (λ _, tls_is t).
Proof.
  intros Ha Hl Hget c Hw [Et Ht]. pose proof (digest_size_max _ Ha). pose proof (digest_size_pos _ Ha).
  destruct (finished_value_ok s secret Ha) as [Hvl _].
  pose proof (reserve_append_cases (digest_size (algo0 s)) 0 (finished_value s secret) (cn_send c) Hw Ht ltac:(lia) ltac:(lia)) as Hr.
  match goal with |- context [outcome _ _ _ (?m c)] => set (block := m) end.
  assert (block c = match reserve_aligned (digest_size (algo0 s)) 0 1 (cn_send c) with
    | (Ok _, b) => match calc_verify_data s secret with
                   | Ok v => (Ok (), put_buf (append_reserved v b) c)
                   | Err e => (Err e, put_buf b c)
                   end
    | (Err e, b) => (Err e, put_buf b c)
    end) as ->.
  { unfold block. rewrite M_bind_run. unfold on_buf at 1. cbn [get_buf put_buf conn_has_buffer]. unfold reserve.
    destruct (reserve_aligned _ 0 1 _) as [[[]|e] b']; [|done]. destruct Hr as (_ & _ & Ht1 & _).
    rewrite M_bind_run. cbn [gets]. rewrite (Hget (mkConn (cn_tls c) b' (cn_epoch_offsets c) (cn_properties c))) by (split; cbn; congruence).
    rewrite M_bind_run. cbn [lift]. by destruct (calc_verify_data s secret). }
  destruct (reserve_aligned _ 0 1 _) as [[[]|e] b'].
  - destruct Hr as (Hw1 & Hc1 & Ht1 & Hw2 & Hc2).
    destruct (calc_verify_data_spec s secret (algo0 s) (slot_ctx (slot0 s)) Ha eq_refl eq_refl ltac:(unfold PTLS_MAX_DIGEST_SIZE in *; lia))
      as [-> | ->].
    + split; [|split; [done|cbn; congruence]]. by split.
    + split; [|split; [done|cbn; congruence]]. split; [done|]. split; [done|]. split; [by left|]. exists []. by rewrite app_nil_r.
  - destruct Hr as [-> ->]. split; [|by split]. split; [done|]. split; [done|]. split; [by left|]. exists []. by rewrite app_nil_r.
Qed.

(** The Finished message for a traffic secret. *)
Definition finished_message (s : ptls_key_schedule_t) (secret : bytes) : bytes :=
  let v := finished_value s secret in [PTLS_HANDSHAKE_TYPE_FINISHED] ++ be_encode 3 (len v) ++ v.

Lemma finished_message_ok s secret :
  hash_ok (algo0 s) -> is_bytes (finished_message s secret) /\
  len (finished_message s secret) = 4 + digest_size (algo0 s) /\ drop 4 (finished_message s secret) = finished_value s secret.
Proof.
  intros Ha. destruct (finished_value_ok s secret Ha) as [Hl Hb]. unfold finished_message. cbn zeta.
  split; [|split; [|done]].
  - apply Forall_app. split; [by apply Forall_singleton|]. apply Forall_app. split; [apply be_encode_bytes|done].
  - rewrite !len_app, Hl. change (len [PTLS_HANDSHAKE_TYPE_FINISHED]) with 1. change (len (be_encode 3 _)) with 3. lia.
Qed.

(** a Finished message is what the peer expects.  [send_finished] seals exactly one record, with
    the message that carries the HMAC over the transcript under the sender's traffic secret (it fails
    only for lack of memory), and puts the message into its transcript; [verify_finished] accepts
    the message at any peer that has the same transcript and whose receiving secret is the
    sender's sending secret. *)
Theorem finished_accepted a c s peer sp :
  aead_ok (aead_algo a) -> buf_wf (cn_send c) -> tx (cn_send c) = 1 ->
  aead (enc (cn_tls c)) = Some a -> tls12 (enc (cn_tls c)) = false ->
  key_schedule (cn_tls c) = Some s -> key_schedule peer = Some sp -> hash_ok (algo0 s) ->
  algo0 sp = algo0 s -> slot_ctx (slot0 sp) = slot_ctx (slot0 s) ->
  tp_secret (dec peer) = tp_secret (enc (cn_tls c)) -> len (tp_secret (dec peer)) = PTLS_MAX_DIGEST_SIZE ->
  let m := finished_message s (tp_secret (enc (cn_tls c))) in
  match send_finished record_emitter c with
  | (Err e, _) => e = PTLS_ERROR_NO_MEMORY
  | (Ok _, c') =>
      contents (cn_send c') = contents (cn_send c) ++ record13 a PTLS_CONTENT_TYPE_HANDSHAKE m (enc (cn_tls c)) /\
      cn_tls c' = set_enc (advance 1 (enc (cn_tls c)))
                    (set_key_schedule (Some (ptls__key_schedule_update_hash m false s)) (cn_tls c))
  end /\
  (verify_finished m peer = (Ok (), peer) \/ verify_finished m peer = (Err PTLS_ERROR_NO_MEMORY, peer)).
Proof.
  intros Haead Hw Ht Hd H12 Hs Hsp Ha Halg Hctx Hsec Hl m. rewrite Hsec in Hl.
  destruct (finished_message_ok s (tp_secret (enc (cn_tls c))) Ha) as (Hm3 & Hm2 & Hm1). fold m in Hm1, Hm2, Hm3.
  pose proof (digest_size_max _ Ha). pose proof (digest_size_pos _ Ha). unfold PTLS_MAX_DIGEST_SIZE in *. split.
  - unfold send_finished. rewrite M_bind_run.
    assert (tls_op get_schedule c = (Ok s, c)) as ->
      by (unfold tls_op, get_schedule; rewrite M_bind_run; cbn [gets]; rewrite Hs; by destruct c).
    cbn beta iota.
    pose proof (push_message_sealed true PTLS_HANDSHAKE_TYPE_FINISHED _ (finished_value s (tp_secret (enc (cn_tls c)))) a c Haead Hw Ht
      Hd H12 ltac:(done) ltac:(rewrite (proj1 (finished_value_ok s _ Ha)); unfold PTLS_MAX_PLAINTEXT_RECORD_SIZE; lia)
      (triple_verify_data (cn_tls c) s _ _ Ha Hl ltac:(by intros ? [Ec0 _]; rewrite <- Ec0))) as Hm.
    cbn zeta in Hm. destruct (ptls_push_message _ _ _ _ c) as [[[]|e] c']; [|by destruct Hm].
    destruct Hm as (_ & Hc & Et). split; [done|]. rewrite Et. unfold hash_message. by rewrite Hs.
  - rewrite <- Halg in Ha. destruct (verify_finished_run m peer sp Hsp Ha ltac:(by rewrite Hsec) Hm3) as (r & -> & Hr).
    assert (finished_value sp (tp_secret (dec peer)) = finished_value s (tp_secret (enc (cn_tls c)))) as Hfv
      by (unfold finished_value; by rewrite Hsec, Halg, Hctx).
    rewrite Hfv in Hr. destruct r as [[]|e]; [by left|]. right.
    destruct Hr as [[_ Hr]|[(_ & _ & Hr)| ->]]; [|done|done]. rewrite Halg in Hr. lia.
Qed.

End Finished.

(** ** Witnesses *)

(** Handlers that refuse every message. *)
Definition toy_handlers : handlers :=
  let r := reject PTLS_ALERT_HANDSHAKE_FAILURE in mkHandlers r r r r r r r r r r r.

Lemma toy_handlers_append : Forall appends (all_handlers toy_handlers).
Proof. repeat (apply Forall_cons; split; [apply reject_appends|]). constructor. Qed.

(** A client that waits for the server's Finished. *)
Definition toy_waiting : conn :=
  mkConn (set_state PTLS_STATE_CLIENT_EXPECT_FINISHED (toy_tls false)) (ptls_buffer_init 64 [0; 0; 0; 0] 1) [] None.

(** A record of a type the client does not expect. *)
Definition toy_plain_record : bytes := [22; 3; 3; 0; 4; 11; 0; 0; 0].


(** The Finished message of the example connection. *)
Definition toy_finished : bytes := [20; 0; 0; 8] ++ finished_value toy_sched (replicate 64 5).

Lemma toy_finished_bytes : is_bytes toy_finished.
Proof. apply (bool_decide_unpack _). vm_compute. exact I. Qed.

Lemma server_finished_authenticates_witness :
  match @server_handle_finished bump_allocator toy_finished (toy_tls true) with
  | (Ok _, t') =>
      drop 4 toy_finished = finished_value toy_sched (replicate 64 5) /\
      state t' = PTLS_STATE_SERVER_POST_HANDSHAKE /\
      has_secret false toy_suite (replicate 8 0) t' /\ seq (dec t') = 0 /\ epoch (dec t') = 3 /\
      (exists d, aead (dec t') = Some d /\ @key_of bump_allocator false toy_suite (replicate 8 0) None d) /\
      pending_traffic_secret t' = replicate (Z.to_nat PTLS_MAX_DIGEST_SIZE) 0 /\
      key_schedule t' = Some (ptls__key_schedule_update_hash toy_finished false toy_sched)
  | (Err e, t') =>
      e = PTLS_ERROR_NO_MEMORY \/
      t' = toy_tls true /\ drop 4 toy_finished <> finished_value toy_sched (replicate 64 5) /\
      e = if len toy_finished =? 4 + digest_size (algo0 toy_sched) then PTLS_ALERT_HANDSHAKE_FAILURE else PTLS_ALERT_DECODE_ERROR
  end.
Proof.
  apply (@server_finished_authenticates bump_allocator toy_finished (toy_tls true) toy_sched toy_suite (replicate 8 0));
    [reflexivity|apply toy_hash_ok|reflexivity|reflexivity|reflexivity|reflexivity|reflexivity|reflexivity|apply toy_finished_bytes].
Defined.

Lemma finished_accepted_witness :
  let m := finished_message toy_sched (replicate 64 5) in
  match @send_finished bump_allocator (@record_emitter bump_allocator) (toy_conn true) with
  | (Err e, _) => e = PTLS_ERROR_NO_MEMORY
  | (Ok _, c') =>
      contents (cn_send c') = contents (cn_send (toy_conn true)) ++ record13 toy_ctx PTLS_CONTENT_TYPE_HANDSHAKE m (toy_tp 7) /\
      cn_tls c' = set_enc (advance 1 (toy_tp 7)) (set_key_schedule (Some (ptls__key_schedule_update_hash m false toy_sched)) (toy_tls true))
  end /\
  (@verify_finished bump_allocator m (toy_tls false) = (Ok (), toy_tls false) \/
   @verify_finished bump_allocator m (toy_tls false) = (Err PTLS_ERROR_NO_MEMORY, toy_tls false)).
Proof.
  apply (@finished_accepted bump_allocator toy_ctx (toy_conn true) toy_sched (toy_tls false) toy_sched);
    [apply toy_aead_ok|apply toy_send_wf|reflexivity|reflexivity|reflexivity|reflexivity|reflexivity|apply toy_hash_ok|
     reflexivity|reflexivity|reflexivity|reflexivity].
Defined.
