(* ===== verification/Progress.v ===== *)
(** * Progress: the loops over the input come to an end ([lib/picotls.c])

    [ptls_handshake] and [ptls_receive] call [handle_input] while there is input, and [handle_handshake_record] handles one message after
    another.  Each turn of these loops takes at least one byte, whatever the peer sends and the callbacks answer, so that
    the loops of the model, which count their turns, are those of the code, which do not. *)

From S2P Require Import Prelude Constants Wire Buffer Crypto KeySchedule Tls Record Receive Conn Handshake.

(** ** Loops without a count *)

(** [iterates turn s r]: turns from [s] on come to an end, with the result [r]. *)
Inductive iterates {S R : Type} (turn : S -> S + R) : S -> R -> Prop :=
| iterates_end s r : turn s = inr r -> iterates turn s r
| iterates_turn s s' r : turn s = inl s' -> iterates turn s' r -> iterates turn s r.

Lemma iterates_functional {S R} (turn : S -> S + R) s r r' : iterates turn s r -> iterates turn s r' -> r = r'.
Proof. intros H. induction H as [s r E|s s' r E H IH]; intros H'; inversion H' as [? ? E'|? ? ? E' H'']; subst; rewrite E in E'; simplify_eq; auto. Qed.

(** A measure that every turn makes smaller, from states with [P]. *)
Lemma iterates_measure {S R} (turn : S -> S + R) (P : S -> Prop) (m : S -> nat) (run : nat -> S -> R) :
  (forall s r n, P s -> (m s <= n)%nat -> turn s = inr r -> run n s = r) ->
  (forall s s' n, P s -> turn s = inl s' -> run (Datatypes.S n) s = run n s' /\ P s' /\ (m s' < m s)%nat) ->
  forall n s, P s -> (m s <= n)%nat -> iterates turn s (run n s).
Proof.
  intros Hend Hturn. induction n as [|n IH]; intros s Hs Hm; destruct (turn s) as [s'|r] eqn:E.
  - destruct (Hturn s s' 0%nat Hs E) as (_ & _ & ?). lia.
  - apply iterates_end. by rewrite (Hend s r).
  - destruct (Hturn s s' n Hs E) as (-> & Hs' & ?). eapply iterates_turn; [done|]. apply IH; [done|lia].
  - apply iterates_end. by rewrite (Hend s r).
Qed.

Section Progress.
Context `{Allocator} (cb : handler).

(** One turn of each loop. *)
(* src lib/picotls.c:5938-5953 handle_handshake_record *)
Definition message_turn (s : bytes * Z * conn) : bytes * Z * conn + Z * bytes * conn :=
  let '(src, ret, c) := s in
  if len src <? 4 then inr (ret, src, c)
  else
    let mess_len := 4 + ntoh24 (drop 1 src) in
    if len src <? mess_len then inr (ret, src, c)
    else
      let '(ret, c) := cb (take (Z.to_nat mess_len) src) (len src =? mess_len) c in
      if goes_on ret then inl (drop (Z.to_nat mess_len) src, ret, c) else inr (ret, src, c).

(* src lib/picotls.c:6166-6171 ptls_handshake *)
Definition handshake_turn (s : bytes * Z * ptls_buffer_t * conn) : bytes * Z * ptls_buffer_t * conn + Z * bytes * conn :=
  let '(input, ret, db, c) := s in
  if (ret =? PTLS_ERROR_IN_PROGRESS) && negb (len input =? 0) then
    let '(ret, consumed, db, c) := handle_input cb input db c in
    let input := drop (Z.to_nat consumed) input in
    if negb (off db =? 0) then inr (ABORTED, input, c) else inl (input, ret, db, c)
  else inr (ret, input, c).

(* src lib/picotls.c:6212-6236 ptls_receive *)
Definition receive_turn (orig_size : Z) (s : bytes * Z * ptls_buffer_t * conn) : bytes * Z * ptls_buffer_t * conn + Z * bytes * ptls_buffer_t * conn :=
  let '(input, ret, db, c) := s in
  if (ret =? 0) && negb (len input =? 0) && (orig_size =? off db) then
    let '(ret, consumed, db, c) := if tls12 (dec (cn_tls c)) then handle_input_tls12 input db c else handle_input cb input db c in
    inl (drop (Z.to_nat consumed) input, if ret =? PTLS_ERROR_IN_PROGRESS then 0 else ret, db, c)
  else inr (ret, input, db, c).

(** ** Every record takes some input *)

(** The input that a connection waits for: whole bytes, after a part of a record that is kept. *)
Definition waiting (input : bytes) (c : conn) : Prop := exists p, pending (recv_rec (cn_tls c)) p /\ is_bytes (p ++ input).

Lemma waiting_next input c : is_bytes input -> base (recv_rec (cn_tls c)) = 0 -> waiting input c.
Proof. intros Hb E. exists []. split; [by left|done]. Qed.

(** [NextRecord] is reached, or the code ends the loop. *)
Definition record_done (out : Z * ptls_buffer_t * conn) : Prop :=
  (out.1.1 <> 0 /\ out.1.1 <> PTLS_ERROR_IN_PROGRESS) \/ base (recv_rec (cn_tls out.2)) = 0.

Lemma plain_done type frag db c : record_done (handle_plain_record cb type frag db c).
Proof.
  unfold handle_plain_record, next_record. destruct (negb _ || _); [by destruct (handle_handshake_record _ _ _ _); right|].
  destruct (_ =? PTLS_CONTENT_TYPE_APPDATA); [destruct (is_post_handshake _); [by right|by destruct (bool_decide _); right]|].
  by destruct (_ =? PTLS_CONTENT_TYPE_ALERT); right.
Qed.

Lemma skip_done n db c : let '(ret, c) := server_skip_early_data n c in record_done (ret, db, c).
Proof. unfold server_skip_early_data. destruct (_ <? _); [by left|by right]. Qed.

Lemma reserve_code n t b e b' : reserve n t b = (Err e, b') -> e <> 0 /\ e <> PTLS_ERROR_IN_PROGRESS.
Proof.
  unfold reserve, reserve_aligned, buffer_require_direction. destruct (_ =? t); cbn [guard_err]; [|by intros [= <- <-]].
  destruct (_ =? 0); [by intros [= <- <-]|]. destruct (_ <? _); [by intros [= <- <-]|]. destruct (_ || _); [|done].
  destruct (grow_capacity _ _ _); [|by intros [= <- <-]]. destruct (buffer_alloc _ _ _ _); [done|by intros [= <- <-]].
Qed.

Lemma handle_record_done r db c : record_done (handle_record cb r db c).
Proof.
  unfold handle_record. pose proof (skip_done (rec_length r)) as Hskip. destruct (aead _) as [a|].
  - destruct (_ =? PTLS_CONTENT_TYPE_ALERT); [apply plain_done|]. destruct (negb _); [by left|].
    destruct (reserve _ _ _) as [[[]|e] db'] eqn:Er; [|left; by eapply reserve_code].
    unfold aead_decrypt. destruct (ptls_aead_decrypt _ _ _ _).
    + destruct (strip_padding _); [by left|apply plain_done].
    + destruct (skips_early_data _); [|by left]. specialize (Hskip db' c). by destruct (server_skip_early_data _ _).
  - destruct (_ && _); [|apply plain_done]. specialize (Hskip db c). by destruct (server_skip_early_data _ _).
Qed.

(** What is left after a call: less than before, unless the code ends the loop. *)
Definition progresses (input : bytes) (out : Z * Z * ptls_buffer_t * conn) : Prop :=
  (out.1.1.1 <> 0 /\ out.1.1.1 <> PTLS_ERROR_IN_PROGRESS) \/
  (1 <= out.1.1.2 /\ waiting (drop (Z.to_nat out.1.1.2) input) out.2).

(** The part of a call that reads the record. *)
Lemma parse_progresses input c (db : ptls_buffer_t) (k : st_ptls_record_t -> conn -> Z * ptls_buffer_t * conn) :
  input <> [] -> waiting input c -> (forall r c, record_done (k r c)) ->
  progresses input
    (let '(r, consumed, rb) := parse_record input (recv_rec (cn_tls c)) in
     let c := on_tls (set_recv_rec rb) c in
     match r with
     | Err e => (e, consumed, db, c)
     | Ok r => let '(ret, db, c) := k r c in (ret, consumed, db, c)
     end).
Proof.
  intros Hne (p & Hp & Hb) Hk. pose proof (parse_record_stream input _ p Hne Hb Hp) as Hs.
  destruct (parse_record _ _) as [[res consumed] rb]. destruct Hs as [Hs| ->]; [|by left].
  assert (0 < len input) as Hl by (destruct input; [done|rewrite len_cons; pose proof (len_nonneg input); lia]).
  assert (is_bytes input) as Hbi by (by apply Forall_app in Hb as [_ ?]).
  destruct (stream_record (p ++ input)) as [| |r] eqn:Es.
  - subst res. by left.
  - destruct Hs as (-> & -> & Hp'). right. cbn. split; [lia|]. exists (p ++ input). split; [done|].
    rewrite drop_ge by (unfold len; lia). by rewrite app_nil_r.
  - destruct Hs as (-> & ->). cbn zeta. specialize (Hk r (on_tls (set_recv_rec rb) c)). destruct (k r _) as [[ret db'] c'].
    destruct Hk as [Hk|Hk]; [by left|]. right. cbn. assert (1 <= 5 + rec_length r - len p) as H1.
    { destruct Hp as [[-> _]|(Hpn & _ & _ & _ & _ & _ & Hi)].
      - assert (stream_record [] = Incomplete) as Hi by done. destruct (complete_bounds [] input r Hb Hi Es). lia.
      - destruct (complete_bounds p input r Hb Hi Es). lia. }
    split; [done|]. apply waiting_next; [by apply Forall_drop|done].
Qed.

(** A record that has been read, whatever its type. *)
Definition after_parse (db : ptls_buffer_t) (r : st_ptls_record_t) (c : conn) : Z * ptls_buffer_t * conn :=
  if rec_type r =? PTLS_CONTENT_TYPE_CHANGE_CIPHER_SPEC then
    if negb (is_post_handshake (state (cn_tls c))) && (rec_length r =? 1) && (byte_at (fragment r) 0 =? 1)
    then let '(ret, c) := next_record PTLS_ERROR_IN_PROGRESS c in (ret, db, c)
    else (PTLS_ALERT_UNEXPECTED_MESSAGE, db, c)
  else handle_record cb r db c.

Lemma after_parse_done db r c : record_done (after_parse db r c).
Proof.
  unfold after_parse. destruct (_ =? PTLS_CONTENT_TYPE_CHANGE_CIPHER_SPEC); [|apply handle_record_done].
  by destruct (_ && _ && _); [right|left].
Qed.

Lemma handle_input_progresses input db c : input <> [] -> waiting input c -> progresses input (handle_input cb input db c).
Proof.
  intros Hne Hw. pose proof (parse_progresses input c db (after_parse db) Hne Hw (after_parse_done db)) as Hp.
  unfold handle_input. destruct (parse_record _ _) as [[[r|e] consumed] rb]; [|done]. cbn zeta in *. revert Hp. unfold after_parse.
  destruct (_ =? PTLS_CONTENT_TYPE_CHANGE_CIPHER_SPEC); [by destruct (_ && _ && _)|done].
Qed.

Definition after_parse_tls12 (db : ptls_buffer_t) (r : st_ptls_record_t) (c : conn) : Z * ptls_buffer_t * conn :=
  match aead (dec (cn_tls c)) with
  | None => (ABORTED, db, c)
  | Some a => let '(ret, db, c) := handle_record_tls12 a r db c in let '(ret, c) := next_record ret c in (ret, db, c)
  end.

Lemma after_parse_tls12_done db r c : record_done (after_parse_tls12 db r c).
Proof. unfold after_parse_tls12. destruct (aead _) as [a|]; [|by left]. destruct (handle_record_tls12 a r db c) as [[ret db'] c']. by right. Qed.

Lemma handle_input_tls12_progresses input db c : input <> [] -> waiting input c -> progresses input (handle_input_tls12 input db c).
Proof.
  intros Hne Hw. pose proof (parse_progresses input c db (after_parse_tls12 db) Hne Hw (after_parse_tls12_done db)) as Hp.
  unfold handle_input_tls12. destruct (parse_record _ _) as [[[r|e] consumed] rb]; [|done]. cbn zeta in *. revert Hp. unfold after_parse_tls12.
  destruct (aead _) as [a|]; [|done]. by destruct (handle_record_tls12 _ _ _ _) as [[]].
Qed.

(** The input gets shorter. *)
Lemma drop_shorter {A} (input : list A) n : input <> [] -> 1 <= n -> (length (drop (Z.to_nat n) input) < length input)%nat.
Proof. intros Hne Hn. rewrite length_drop. destruct input; [done|cbn; lia]. Qed.

Lemma nonempty_len {A} (l : list A) : negb (len l =? 0) = true -> l <> [].
Proof. by intros Hl ->. Qed.

(** ** The loops end *)

(** What a turn leaves to do: nothing once the code ends the loop. *)
Definition left_to_do (code : Z) (s : bytes * Z * ptls_buffer_t * conn) : nat := if s.1.1.2 =? code then length s.1.1.1 else 0.

Lemma handshake_ends input ret db c n :
  waiting input c -> (length input <= n)%nat ->
  iterates handshake_turn (input, ret, db, c) (handshake_loop n cb input ret db c).
Proof.
  intros Hw Hn.
  refine (iterates_measure handshake_turn (λ s, let '(input, ret, db, c) := s in ret = PTLS_ERROR_IN_PROGRESS -> waiting input c)
    (left_to_do PTLS_ERROR_IN_PROGRESS) (λ n s, let '(input, ret, db, c) := s in handshake_loop n cb input ret db c) _ _ n (input, ret, db, c) _ _);
    [| |by intros _|unfold left_to_do; cbn; destruct (_ =? _); lia].
  - intros [[[i r] d] c'] out m _ Hm. unfold left_to_do in Hm. cbn [handshake_turn fst snd] in *. destruct (_ && _) eqn:Eg; intros E.
    + apply andb_true_iff in Eg as [Er Ei]. rewrite Er in Hm. destruct m; [destruct i; [done|cbn in Hm; lia]|]. cbn [handshake_loop]. rewrite Er, Ei. cbn [andb].
      destruct (handle_input _ _ _ _) as [[[ret' consumed] db'] c1]. revert E. cbn zeta.
      destruct (negb (off db' =? 0)); [congruence|done].
    + destruct m; cbn [handshake_loop]; rewrite Eg; by simplify_eq.
  - intros [[[i r] d] c'] s' m Hp. cbn [handshake_turn]. destruct (_ && _) eqn:Eg; [|done]. intros E. cbn [handshake_loop]. rewrite Eg.
    apply andb_true_iff in Eg as [Er Ei%nonempty_len]. pose proof (handle_input_progresses i d c' Ei (Hp (proj1 (Z.eqb_eq _ _) Er))) as Hpr.
    destruct (handle_input _ _ _ _) as [[[ret' consumed] db'] c1]. revert E. cbn zeta. destruct (negb _); [done|]. intros [= <-].
    split; [done|]. split; [intros ->; by destruct Hpr as [[_ ?]|[_ ?]]|].
    unfold left_to_do. cbn [fst snd]. rewrite Er. destruct (Z.eqb_spec ret' PTLS_ERROR_IN_PROGRESS) as [->|_].
    + destruct Hpr as [[_ ?]|[? _]]; [done|by apply drop_shorter].
    + by destruct i; [|cbn; lia].
Qed.

Lemma receive_ends input orig_size ret db c n :
  waiting input c -> (length input <= n)%nat ->
  iterates (receive_turn orig_size) (input, ret, db, c) (receive_loop n cb input orig_size ret db c).
Proof.
  intros Hw Hn.
  refine (iterates_measure (receive_turn orig_size) (λ s, let '(input, ret, db, c) := s in ret = 0 -> waiting input c)
    (left_to_do 0) (λ n s, let '(input, ret, db, c) := s in receive_loop n cb input orig_size ret db c) _ _ n (input, ret, db, c) _ _);
    [| |by intros _|unfold left_to_do; cbn; destruct (_ =? _); lia].
  - intros [[[i r] d] c'] out m _ Hm. unfold left_to_do in Hm. cbn [receive_turn fst snd] in *. destruct (_ && _ && _) eqn:Eg; intros E.
    + by destruct (if tls12 _ then _ else _) as [[[ret' consumed] db'] c1].
    + destruct m; cbn [receive_loop]; rewrite Eg; by simplify_eq.
  - intros [[[i r] d] c'] s' m Hp. cbn [receive_turn]. destruct (_ && _ && _) eqn:Eg; [|done]. intros E. cbn [receive_loop]. rewrite Eg.
    apply andb_true_iff in Eg as [[Er Ei%nonempty_len]%andb_true_iff _]. specialize (Hp (proj1 (Z.eqb_eq _ _) Er)).
    assert (progresses i (if tls12 (dec (cn_tls c')) then handle_input_tls12 i d c' else handle_input cb i d c')) as Hpr
      by (destruct (tls12 _); [by apply handle_input_tls12_progresses|by apply handle_input_progresses]).
    destruct (if tls12 _ then _ else _) as [[[ret' consumed] db'] c1]. cbn zeta in E |- *. injection E as <-.
    assert (forall P : Prop, (1 <= consumed -> waiting (drop (Z.to_nat consumed) i) c1 -> P) ->
      (if ret' =? PTLS_ERROR_IN_PROGRESS then 0 else ret') = 0 -> P) as Hcase.
    { intros P HP. destruct Hpr as [[H0 H1]|[H0 H1]]; [|by auto]. cbn in H0, H1. by rewrite (proj2 (Z.eqb_neq _ _) H1). }
    split; [done|]. split; [by apply Hcase|].
    unfold left_to_do. cbn [fst snd]. rewrite Er. destruct (Z.eqb_spec (if ret' =? PTLS_ERROR_IN_PROGRESS then 0 else ret') 0) as [E0|_].
    + revert E0. apply Hcase. intros ? _. by apply drop_shorter.
    + by destruct i; [|cbn; lia].
Qed.

Lemma messages_end src ret c n :
  is_bytes src -> (length src <= n)%nat -> iterates message_turn (src, ret, c) (message_loop n cb src ret c).
Proof.
  intros Hb Hn.
  refine (iterates_measure message_turn (λ s, is_bytes s.1.1) (λ s, length s.1.1)
    (λ n s, let '(src, ret, c) := s in message_loop n cb src ret c) _ _ n (src, ret, c) _ _); [| |done|done].
  - intros [[i r] c'] out m Hi Hm. cbn [message_turn fst] in *. intros E.
    destruct m; cbn [message_loop]; (destruct (Z.ltb_spec (len i) 4) as [|H4]; [by simplify_eq|]); cbn zeta in *;
      (destruct (len i <? _); [by simplify_eq|]).
    + destruct i; [done|cbn in Hm; lia].
    + destruct (cb _ _ _) as [ret' c1]. revert E. destruct (goes_on ret'); [done|congruence].
  - intros [[i r] c'] s' m Hi. cbn [message_turn fst] in *. cbn [message_loop]. destruct (Z.ltb_spec (len i) 4) as [|H4]; [done|]. cbn zeta.
    destruct (len i <? _); [done|]. destruct (cb _ _ _) as [ret' c1]. destruct (goes_on ret'); [|done]. intros [= <-].
    split; [done|]. cbn [fst]. split; [by apply Forall_drop|]. apply drop_shorter; [by intros ->|].
    pose proof (ntoh24_nonneg (drop 1 i) (Forall_drop _ _ _ Hi)). lia.
Qed.

(** C9: the loops over the input end.  Whatever bytes arrive, whatever the handlers of messages and their callbacks do to the connection, from a
    connection that waits for input (with or without a part of a record kept from before): the loop of [ptls_handshake] over
    [handle_input], the loop of [ptls_receive], and the loop of [handle_handshake_record] over the messages of a record come to
    an end, each turn having used at least one byte; the results are those of the model with as many turns allowed as there are
    bytes, so that its counts are no restriction. *)
Theorem input_loops_terminate input src orig_size ret db c :
  waiting input c -> is_bytes src ->
  iterates handshake_turn (input, ret, db, c) (handshake_loop (length input) cb input ret db c) /\
  iterates (receive_turn orig_size) (input, ret, db, c) (receive_loop (length input) cb input orig_size ret db c) /\
  iterates message_turn (src, ret, c) (message_loop (length src) cb src ret c).
Proof. intros Hw Hb. split; [by apply handshake_ends|]. split; [by apply receive_ends|by apply messages_end]. Qed.

End Progress.

(** ** Witness *)

Lemma input_loops_terminate_witness :
  iterates (@handshake_turn bump_allocator toy_handler) (toy_plain_record, PTLS_ERROR_IN_PROGRESS, toy_output, toy_conn true)
    (@handshake_loop bump_allocator 9 toy_handler toy_plain_record PTLS_ERROR_IN_PROGRESS toy_output (toy_conn true)) /\
  iterates (message_turn toy_handler) (toy_messages, 0, toy_conn true) (message_loop 11 toy_handler toy_messages 0 (toy_conn true)).
Proof.
  destruct (@input_loops_terminate bump_allocator toy_handler toy_plain_record toy_messages 0 PTLS_ERROR_IN_PROGRESS toy_output (toy_conn true)) as (H1 & _ & _).
  - exists []. split; [left; split; reflexivity|apply (bool_decide_unpack (Forall _ _)); vm_compute; exact I].
  - apply (bool_decide_unpack (Forall _ _)); vm_compute; exact I.
  - split; [exact H1|].
    apply (@input_loops_terminate bump_allocator toy_handler toy_plain_record toy_messages 0 0 toy_output (toy_conn true)).
    + exists []. split; [left; split; reflexivity|apply (bool_decide_unpack (Forall _ _)); vm_compute; exact I].
    + apply (bool_decide_unpack (Forall _ _)); vm_compute; exact I.
Defined.
