(* ===== verification/Ticket.v ===== *)
(** * Ticket: session tickets ([lib/picotls.c])

    The server's view of a session (what it encrypts into a ticket), the NewSessionTicket message,
    and the client's record of a ticket.  Encrypting a ticket and storing one are callbacks of the
    context. *)

From S2P Require Import Prelude Constants Wire Buffer Extensions Crypto KeySchedule Tls Record Emit Negotiate Hpke Receive Conn Export.

(** ** Decoders *)

Record new_session_ticket := mkNst {
  nst_lifetime : Z; nst_age_add : Z; nst_nonce : bytes; nst_ticket : bytes; nst_max_early_data_size : Z }.

(** The comparison is inside the assignment: whatever the callback returns, the error is 1. *)
(* src lib/picotls.c:1591-1603 on_extension *)
Definition nst_extension (c : ptls_context_t) (exttype rest_len : Z) (max : Z) (inner : bytes) : result (Z * bytes) :=
  _ ← match on_extension c with
      | None => Ok ()
      | Some cb => guard_err (cb PTLS_HANDSHAKE_TYPE_NEW_SESSION_TICKET exttype inner =? 0) 1
      end;
  if exttype =? PTLS_EXTENSION_TYPE_EARLY_DATA then ptls_decode32 inner else Ok (max, []).

(* src lib/picotls.c:1566-1609 decode_new_session_ticket *)
Definition decode_new_session_ticket (c : ptls_context_t) (src : bytes) : result new_session_ticket :=
  '(lifetime, src) ← ptls_decode32 src;
  '(age_add, src) ← ptls_decode32 src;
  '(nonce, src) ← ptls_decode_open_block 1 (λ b, Ok (b, [])) src;
  '(ticket, src) ← ptls_decode_open_block 2 (λ b, match b with [] => Err PTLS_ALERT_DECODE_ERROR | _ => Ok (b, []) end) src;
  max ← decode_extensions PTLS_HANDSHAKE_TYPE_NEW_SESSION_TICKET (nst_extension c) 0 src;
  Ok (mkNst lifetime age_add nonce ticket max).

Record stored_ticket := mkStored {
  st_key_share : ptls_key_exchange_algorithm_t; st_suite : ptls_cipher_suite_t; st_secret : bytes;
  st_obfuscated_age : Z; st_ticket : bytes; st_max_early_data_size : Z }.

Definition SEVEN_DAYS_MS : Z := 7 * 86400 * 1000.

(* src lib/picotls.c:1611-1673 decode_stored_session_ticket *)
Definition decode_stored_session_ticket (c : ptls_context_t) (src : bytes) : result stored_ticket :=
  '(obtained_at, src) ← ptls_decode64 src;
  '(kxid, src) ← ptls_decode16 src;
  '(csid, src) ← ptls_decode16 src;
  '(nst, src) ← ptls_decode_open_block 3 (λ b, nst ← decode_new_session_ticket c b; Ok (nst, [])) src;
  secret ← ptls_decode_block 2 (λ b, Ok (b, [])) src;
  match find_key_exchange (kex_list c) kxid with
  | None => Err PTLS_ERROR_LIBRARY
  | Some kx =>
      match ptls_find_cipher_suite (cipher_suites c) csid with
      | None => Err PTLS_ERROR_LIBRARY
      | Some suite =>
          let now := get_time c in
          if negb ((obtained_at <=? now) && (now - obtained_at <? SEVEN_DAYS_MS)) then Err PTLS_ERROR_LIBRARY
          else Ok (mkStored kx suite secret (u32 (u32 (now - obtained_at) + nst_age_add nst))
                     (nst_ticket nst) (nst_max_early_data_size nst))
      end
  end.

(** ** What the server keeps in a ticket *)

(* src lib/picotls.c:1764 SESSION_IDENTIFIER_MAGIC *)
Definition SESSION_IDENTIFIER_MAGIC : bytes := str "ptls0001".
(* src lib/picotls.c:1765 SESSION_IDENTIFIER_MAGIC_SIZE *)
Definition SESSION_IDENTIFIER_MAGIC_SIZE : Z := len SESSION_IDENTIFIER_MAGIC.

Section Encode.
Context `{Allocator}.

(** The resumption secret, written into space reserved in a buffer of direction [t]. *)
Definition push_resumption_secret (t : Z) (sched : ptls_key_schedule_t) (nonce : bytes) : M ptls_buffer_t unit :=
  _ ← reserve (digest_size (algo0 sched)) t;
  secret ← lift (derive_resumption_secret sched nonce);
  modify (append_reserved secret).

(* src lib/picotls.c:1767-1809 encode_session_identifier *)
Definition encode_session_identifier (c : ptls_context_t) (ticket_age_add : Z) (ticket_nonce : bytes)
    (sched : ptls_key_schedule_t) (server_name : option bytes) (key_exchange_id csid : Z)
    (negotiated_protocol : option bytes) : M ptls_buffer_t unit :=
  ptls_buffer_push_block 2
    (_ ← ptls_buffer_pushv SESSION_IDENTIFIER_MAGIC;
     _ ← ptls_buffer_push64 (get_time c);
     _ ← ptls_buffer_push_block 2 (push_resumption_secret 1 sched ticket_nonce);
     _ ← ptls_buffer_push16 key_exchange_id;
     _ ← ptls_buffer_push16 csid;
     _ ← ptls_buffer_push32 ticket_age_add;
     _ ← ptls_buffer_push_block 2
           (match ticket_context c, server_name with
            | Some b, _ => ptls_buffer_pushv b
            | None, Some n => ptls_buffer_pushv (c_string n)
            | None, None => mret ()
            end);
     ptls_buffer_push_block 1
       (match negotiated_protocol with Some p => ptls_buffer_pushv (c_string p) | None => mret () end)).

End Encode.

Record session_identifier := mkSession {
  si_issued_at : Z; si_psk : bytes; si_age_add : Z; si_ctx : bytes; si_key_exchange_id : Z; si_csid : Z;
  si_protocol : bytes }.

(* src lib/picotls.c:1811-1848 decode_session_identifier *)
Definition decode_session_identifier (src : bytes) : result session_identifier :=
  ptls_decode_block 2 (λ src,
    if (len src <? SESSION_IDENTIFIER_MAGIC_SIZE) ||
       negb (bool_decide (take (Z.to_nat SESSION_IDENTIFIER_MAGIC_SIZE) src = SESSION_IDENTIFIER_MAGIC))
    then Err PTLS_ALERT_DECODE_ERROR
    else
      let src := drop (Z.to_nat SESSION_IDENTIFIER_MAGIC_SIZE) src in
      '(issued_at, src) ← ptls_decode64 src;
      '(psk, src) ← ptls_decode_open_block 2 (λ b, Ok (b, [])) src;
      '(key_exchange_id, src) ← ptls_decode16 src;
      '(csid, src) ← ptls_decode16 src;
      '(age_add, src) ← ptls_decode32 src;
      '(ctx, src) ← ptls_decode_open_block 2 (λ b, Ok (b, [])) src;
      '(protocol, src) ← ptls_decode_open_block 1 (λ b, Ok (b, [])) src;
      Ok (mkSession issued_at psk age_add ctx key_exchange_id csid protocol, src)) src.

(** ** Round trips *)

Section Proofs.
Context `{Allocator}.

Definition is_tx (t : Z) (b : ptls_buffer_t) : Prop := tx b = t.

Lemma is_tx_stable t : stable (is_tx t).
Proof. intros b b' E Hb. unfold is_tx in *. cbn in *. congruence. Qed.

Lemma triple_block2 t (block : M ptls_buffer_t unit) bs :
  len bs < 65536 -> triple (is_tx t) block (Ok ((), bs)) (λ _, is_tx t) ->
  triple (is_tx t) (ptls_buffer_push_block 2 block) (Ok ((), block2 bs)) (λ _, is_tx t).
Proof.
  intros Hl Hb.
  apply (triple_push_block (is_tx t) 2 block () bs (λ _, is_tx t)); [lia|exact Hl|apply is_tx_stable|apply is_tx_stable|by intros|exact Hb].
Qed.

Lemma triple_block1 t (block : M ptls_buffer_t unit) bs :
  len bs < 256 -> triple (is_tx t) block (Ok ((), bs)) (λ _, is_tx t) ->
  triple (is_tx t) (ptls_buffer_push_block 1 block) (Ok ((), block1 bs)) (λ _, is_tx t).
Proof.
  intros Hl Hb.
  apply (triple_push_block (is_tx t) 1 block () bs (λ _, is_tx t)); [lia|exact Hl|apply is_tx_stable|apply is_tx_stable|by intros|exact Hb].
Qed.

Lemma triple_block3 t (block : M ptls_buffer_t unit) bs :
  len bs < 2 ^ 24 -> triple (is_tx t) block (Ok ((), bs)) (λ _, is_tx t) ->
  triple (is_tx t) (ptls_buffer_push_block 3 block) (Ok ((), be_encode 3 (len bs) ++ bs)) (λ _, is_tx t).
Proof.
  intros Hl Hb.
  apply (triple_push_block (is_tx t) 3 block () bs (λ _, is_tx t)); [lia|exact Hl|apply is_tx_stable|apply is_tx_stable|by intros|exact Hb].
Qed.

Lemma triple_vec t src : triple (is_tx t) (ptls_buffer_pushv src) (Ok ((), src)) (λ _, is_tx t).
Proof. apply triple_pushv, is_tx_stable. Qed.

Lemma triple_unit t : triple (is_tx t) (mret ()) (Ok ((), [])) (λ _, is_tx t).
Proof. by apply triple_ret. Qed.

Lemma triple_resumption t sched nonce psk :
  t = 0 \/ t = 1 -> derive_resumption_secret sched nonce = Ok psk -> len psk <= digest_size (algo0 sched) ->
  triple (is_tx t) (push_resumption_secret t sched nonce) (Ok ((), psk)) (λ _, is_tx t).
Proof. intros Ht Hpsk Hl. apply triple_reserve_append; [done|by left|done].  Qed.

(** The contents of the session ID context and of the protocol. *)
Definition session_ctx (c : ptls_context_t) (name : option bytes) : bytes :=
  match ticket_context c with Some b => b | None => name_bytes name end.

Definition session_body (time : Z) (psk : bytes) (kx csid age : Z) (ctx proto : bytes) : bytes :=
  SESSION_IDENTIFIER_MAGIC ++ bytes64 time ++ block2 psk ++ bytes16 kx ++ bytes16 csid ++ bytes32 age ++
  block2 ctx ++ block1 proto.

Lemma session_body_len time psk kx csid age ctx proto :
  len (session_body time psk kx csid age ctx proto) = 29 + len psk + len ctx + len proto.
Proof.
  unfold session_body. rewrite !len_app, !len_block2, len_block1, len_bytes64, !len_bytes16, len_bytes32.
  change (len SESSION_IDENTIFIER_MAGIC) with 8. lia.
Qed.

Lemma encode_session_triple c age nonce sched name kx csid proto psk :
  derive_resumption_secret sched nonce = Ok psk -> len psk <= digest_size (algo0 sched) ->
  29 + len psk + len (session_ctx c name) + len (name_bytes proto) < 65536 -> len (name_bytes proto) < 256 ->
  triple (is_tx 1) (encode_session_identifier c age nonce sched name kx csid proto)
    (Ok ((), block2 (session_body (get_time c) psk kx csid age (session_ctx c name) (name_bytes proto)))) (λ _, is_tx 1).
Proof.
  intros Hpsk Hpl Hl Hp. pose proof (len_nonneg psk). pose proof (len_nonneg (session_ctx c name)). pose proof (len_nonneg (name_bytes proto)).
  unfold encode_session_identifier, session_body. apply triple_block2.
  { rewrite <- (session_body_len (get_time c) psk kx csid age (session_ctx c name) (name_bytes proto)) in Hl. exact Hl. }
  eapply triple_seq; [apply triple_vec|done|]. eapply triple_seq; [apply triple_vec|done|].
  eapply triple_seq; [apply triple_block2; [|apply triple_resumption; [by right|done|done]]; lia|done|].
  eapply triple_seq; [apply triple_vec|done|]. eapply triple_seq; [apply triple_vec|done|].
  eapply triple_seq; [apply triple_vec|done|].
  eapply triple_seq; [apply triple_block2 with (bs := session_ctx c name); [lia|]|done|].
  { unfold session_ctx. destruct (ticket_context c); [apply triple_vec|]. destruct name; [apply triple_vec|apply triple_unit]. }
  apply triple_block1; [done|]. destruct proto; [apply triple_vec|apply triple_unit].
Qed.

Lemma decode_session_body time psk kx csid age ctx proto :
  0 <= time < 2 ^ 64 -> 0 <= kx < 2 ^ 16 -> 0 <= csid < 2 ^ 16 -> 0 <= age < 2 ^ 32 ->
  29 + len psk + len ctx + len proto < 65536 -> len proto < 256 ->
  decode_session_identifier (block2 (session_body time psk kx csid age ctx proto))
  = Ok (mkSession time psk age ctx kx csid proto).
Proof.
  intros Ht Hk Hc Ha Hl Hp. pose proof (len_nonneg psk). pose proof (len_nonneg ctx). pose proof (len_nonneg proto).
  pose proof (session_body_len time psk kx csid age ctx proto) as Hbl.
  unfold decode_session_identifier, ptls_decode_block. rewrite <- (app_nil_r (block2 _)), open_block2_run by lia.
  change SESSION_IDENTIFIER_MAGIC_SIZE with (len SESSION_IDENTIFIER_MAGIC). rewrite Hbl.
  rewrite (proj2 (Z.ltb_ge _ _)) by (change (len SESSION_IDENTIFIER_MAGIC) with 8; lia).
  unfold session_body. rewrite take_len_app, drop_len_app, bool_decide_eq_true_2 by done. cbn [orb negb].
  rewrite decode64_push64 by done. cbn [mbind result_bind]. rewrite open_raw2 by lia. cbn [mbind result_bind].
  rewrite decode16_push16 by done. cbn [mbind result_bind]. rewrite decode16_push16 by done. cbn [mbind result_bind].
  rewrite decode32_push32 by done. cbn [mbind result_bind]. rewrite open_raw2 by lia. cbn [mbind result_bind].
  rewrite <- (app_nil_r (block1 proto)), open_raw1 by done. reflexivity.
Qed.

(** A session survives its ticket.  What [encode_session_identifier] writes for a session -- the
    time, the resumption secret of the transcript, key exchange, cipher suite, ticket age offset,
    the context (the one configured, else the server name) and the protocol -- is exactly what
    [decode_session_identifier] reads back. *)
Theorem session_identifier_roundtrip c age nonce sched name kx csid proto psk b :
  derive_resumption_secret sched nonce = Ok psk -> len psk <= digest_size (algo0 sched) ->
  29 + len psk + len (session_ctx c name) + len (name_bytes proto) < 65536 -> len (name_bytes proto) < 256 ->
  0 <= get_time c < 2 ^ 64 -> 0 <= kx < 2 ^ 16 -> 0 <= csid < 2 ^ 16 -> 0 <= age < 2 ^ 32 ->
  buf_wf b -> tx b = 1 ->
  match encode_session_identifier c age nonce sched name kx csid proto b with
  | (Err e, _) => e = PTLS_ERROR_NO_MEMORY
  | (Ok _, b') => exists id, contents b' = contents b ++ id /\
      decode_session_identifier id
      = Ok (mkSession (get_time c) psk age (session_ctx c name) kx csid (name_bytes proto))
  end.
Proof.
  intros Hpsk Hpl Hl Hp Ht Hk Hc Ha Hw Hb.
  destruct (encode_session_triple c age nonce sched name kx csid proto psk Hpsk Hpl Hl Hp b Hw Hb) as [Ho _].
  destruct (encode_session_identifier c age nonce sched name kx csid proto b) as [[[]|e] b'].
  - destruct Ho as (_ & _ & _ & Hcont). eexists. split; [exact Hcont|]. by apply decode_session_body.
  - by destruct Ho as (_ & _ & [->|(?&?&?)] & _).
Qed.

End Proofs.

(** ** The client's record of a ticket *)

Section Client.
Context `{Allocator}.

(** What [save_ticket] is given. *)
(* src lib/picotls.c:3622-3635 ticket_buf *)
Definition build_stored_ticket (t : ptls_t) (src nonce : bytes) : result bytes :=
  match key_share t, cipher_suite t, key_schedule t with
  | Some kx, Some suite, Some sched =>
      let '(r, b) :=
        (_ ← ptls_buffer_push64 (get_time (ctx t));
         _ ← ptls_buffer_push16 (kex_id kx);
         _ ← ptls_buffer_push16 (cs_id suite);
         _ ← ptls_buffer_push_block 3 (ptls_buffer_pushv src);
         ptls_buffer_push_block 2 (push_resumption_secret 0 sched nonce)) (ptls_buffer_init_rx EMPTY_STRING []) in
      match r with Ok _ => Ok (contents b) | Err e => Err e end
  | _, _, _ => Err ABORTED
  end.

(* src lib/picotls.c:3604-3644 client_handle_new_session_ticket *)
Definition handle_new_session_ticket (message : bytes) (t : ptls_t) : Z :=
  let src := drop (Z.to_nat PTLS_HANDSHAKE_HEADER_SIZE) message in
  match decode_new_session_ticket (ctx t) src with
  | Err e => e
  | Ok nst =>
      match save_ticket (ctx t) with
      | None => 0
      | Some save =>
          match build_stored_ticket t src (nst_nonce nst) with
          | Err e => e
          | Ok stored => save stored
          end
      end
  end.

Lemma find_kex_id l id k : find_key_exchange l id = Some k -> kex_id k = id.
Proof. induction l as [|x l IH]; [done|]. cbn. destruct (Z.eqb_spec (kex_id x) id); [|done]. by intros [= <-]. Qed.

(** The context, with another time on its clock. *)
Definition at_time (now : Z) (c : ptls_context_t) : ptls_context_t :=
  set_get_time now c.

(** the client's record of a ticket reads back.  For a NewSessionTicket message that decodes, what
    the client stores decodes, with the same context and within seven days, to the ticket and early
    data limit of the message, the key exchange and cipher suite of the connection, the resumption
    secret of its transcript and the ticket's nonce, and the age since then plus the offset of the
    message; after seven days, or with a clock that went back, it is refused. *)
Theorem stored_ticket_roundtrip t src nst psk sched kx suite now :
  decode_new_session_ticket (ctx t) src = Ok nst -> key_schedule t = Some sched ->
  key_share t = Some kx -> cipher_suite t = Some suite ->
  derive_resumption_secret sched (nst_nonce nst) = Ok psk -> len psk <= digest_size (algo0 sched) -> digest_size (algo0 sched) <= 64 ->
  find_key_exchange (kex_list (ctx t)) (kex_id kx) = Some kx ->
  ptls_find_cipher_suite (cipher_suites (ctx t)) (cs_id suite) = Some suite ->
  0 <= get_time (ctx t) < 2 ^ 64 -> 0 <= kex_id kx < 2 ^ 16 -> 0 <= cs_id suite < 2 ^ 16 -> len src < 2 ^ 24 ->
  match build_stored_ticket t src (nst_nonce nst) with
  | Err e => e = PTLS_ERROR_NO_MEMORY
  | Ok stored =>
      decode_stored_session_ticket (at_time now (ctx t)) stored =
        if (get_time (ctx t) <=? now) && (now - get_time (ctx t) <? SEVEN_DAYS_MS)
        then Ok (mkStored kx suite psk (u32 (u32 (now - get_time (ctx t)) + nst_age_add nst)) (nst_ticket nst)
                   (nst_max_early_data_size nst))
        else Err PTLS_ERROR_LIBRARY
  end.
Proof.
  intros Hdec Hs Hkx Hsu Hpsk Hpl Hds Hfk Hfs Ht Hk Hc Hl. unfold build_stored_ticket. rewrite Hkx, Hsu, Hs.
  set (m := _ ← ptls_buffer_push64 _; _). pose proof (len_nonneg psk). pose proof (len_nonneg src).
  assert (triple (is_tx 0) m (Ok ((), bytes64 (get_time (ctx t)) ++ bytes16 (kex_id kx) ++ bytes16 (cs_id suite) ++
    (be_encode 3 (len src) ++ src) ++ block2 psk)) (λ _, is_tx 0)) as Hm.
  { unfold m. eapply triple_seq; [apply triple_vec|done|]. eapply triple_seq; [apply triple_vec|done|].
    eapply triple_seq; [apply triple_vec|done|]. eapply triple_seq; [apply triple_block3; [done|apply triple_vec]|done|].
    apply triple_block2; [lia|]. apply triple_resumption; [by left|done|done]. }
  destruct (Hm _ init_rx_wf eq_refl) as [Ho _]. destruct (m _) as [[[]|e] b]; [|by destruct Ho as (_ & _ & [->|(?&?&?)] & _)].
  destruct Ho as (_ & _ & _ & Hcont). cbn [snd] in Hcont.
  change (contents (get_buf b)) with (contents b) in Hcont.
  change (contents (get_buf (ptls_buffer_init_rx EMPTY_STRING []))) with (@nil Z) in Hcont. rewrite app_nil_l in Hcont.
  rewrite Hcont. unfold decode_stored_session_ticket.
  rewrite decode64_push64 by done. cbn [mbind result_bind]. rewrite decode16_push16 by done. cbn [mbind result_bind].
  rewrite decode16_push16 by done. cbn [mbind result_bind]. rewrite <- app_assoc.
  assert (decode_new_session_ticket (at_time now (ctx t)) src = Ok nst) as Hdec' by exact Hdec.
  rewrite (open_block3 _ src (block2 psk) nst) by (done || by rewrite Hdec'). cbn [mbind result_bind].
  unfold ptls_decode_block. rewrite <- (app_nil_r (block2 psk)), open_raw2 by lia.
  cbn [mbind result_bind ptls_decode_assert_block_close].
  change (kex_list (at_time now (ctx t))) with (kex_list (ctx t)). rewrite Hfk.
  change (cipher_suites (at_time now (ctx t))) with (cipher_suites (ctx t)). rewrite Hfs.
  change (get_time (at_time now (ctx t))) with now. by destruct (_ && _).
Qed.

End Client.

(** ** Witnesses *)

Definition toy_psk : bytes :=
  match @derive_resumption_secret bump_allocator toy_sched [] with Ok p => p | Err _ => [] end.

Lemma toy_psk_ok : @derive_resumption_secret bump_allocator toy_sched [] = Ok toy_psk.
Proof. vm_compute. reflexivity. Qed.

Lemma session_identifier_roundtrip_witness :
  match @encode_session_identifier bump_allocator toy_context 77 [] toy_sched (Some (str "example.com")) 29 0x1301 None
          (ptls_buffer_init 64 [0; 0; 0; 0] 1) with
  | (Err e, _) => e = PTLS_ERROR_NO_MEMORY
  | (Ok _, b') => exists id, contents b' = contents (ptls_buffer_init 64 [0; 0; 0; 0] 1) ++ id /\
      decode_session_identifier id = Ok (mkSession 0 toy_psk 77 (str "example.com") 29 0x1301 [])
  end.
Proof.
  apply (@session_identifier_roundtrip bump_allocator toy_context 77 [] toy_sched (Some (str "example.com")) 29 0x1301 None
    toy_psk (ptls_buffer_init 64 [0; 0; 0; 0] 1));
    [apply toy_psk_ok|vm_compute; discriminate|vm_compute; reflexivity|vm_compute; reflexivity
    |vm_compute; split; [discriminate|reflexivity]|vm_compute; split; [discriminate|reflexivity]
    |vm_compute; split; [discriminate|reflexivity]|vm_compute; split; [discriminate|reflexivity]
    |apply bump_push_witness_wf|reflexivity].
Defined.

Definition toy_client : ptls_t :=
  set_key_share (Some toy_kex)
    (set_ctx (mkCtx 1000 (Some [toy_kex]) [toy_suite] [] [] None None None None [] None [] None None 86400 8192 65536 None false
                false false false false false false false None None None None None None [] 0 0 0)
       (toy_tls false)).

(** A ticket of three bytes, valid for an hour, without extensions. *)
Definition toy_nst : bytes := bytes32 3600 ++ bytes32 55 ++ block1 [] ++ block2 [1; 2; 3] ++ block2 [].

Lemma stored_ticket_roundtrip_witness :
  match @build_stored_ticket bump_allocator toy_client toy_nst [] with
  | Err e => e = PTLS_ERROR_NO_MEMORY
  | Ok stored =>
      decode_stored_session_ticket (at_time 5000 (ctx toy_client)) stored
      = if (1000 <=? 5000) && (5000 - 1000 <? SEVEN_DAYS_MS)
        then Ok (mkStored toy_kex toy_suite toy_psk (u32 (u32 (5000 - 1000) + 55)) [1; 2; 3] 0)
        else Err PTLS_ERROR_LIBRARY
  end.
Proof.
  apply (@stored_ticket_roundtrip bump_allocator toy_client toy_nst (mkNst 3600 55 [] [1; 2; 3] 0) toy_psk toy_sched toy_kex
    toy_suite 5000); [reflexivity|reflexivity|reflexivity|reflexivity|apply toy_psk_ok|vm_compute; discriminate
    |vm_compute; discriminate|reflexivity|reflexivity|vm_compute; split; [discriminate|reflexivity]
    |vm_compute; split; [discriminate|reflexivity]|vm_compute; split; [discriminate|reflexivity]|vm_compute; reflexivity].
Defined.
