(* ===== verification/ServerHello.v ===== *)
(** * ServerHello: the answer of the server ([lib/picotls.c])

    The message the server builds (a ServerHello, or a HelloRetryRequest, which is one with a special random), and its decoder at the client. *)

From S2P Require Import Prelude Constants Wire Buffer Extensions Crypto KeySchedule Tls Record Emit Negotiate Hpke ClientHello HelloFormat HelloDecode Receive Conn Export Ticket.

(** ** Decoding *)

(** The members of the union side by side.  [None] is a NULL pointer; [ech_left] stands for the pointer to
    the confirmation: the number of bytes of the message from there on. *)
(* src lib/picotls.c:422-434 st_ptls_server_hello_t *)
Record st_ptls_server_hello_t := mkSh {
  sh_session_id : bytes;
  is_retry_request : bool;
  peerkey : option bytes;
  selected_group : Z; (* [retry_request] *)
  retry_cookie : option bytes;
  retry_ech_left : option Z;
}.

(** With the variables [found_version] and [selected_psk_identity] of the loop over the extensions. *)
Record sh_found := mkFound {
  fd_peerkey : option bytes; fd_group : Z; fd_cookie : option bytes; fd_ech : option Z; fd_version : Z; fd_psk : Z }.

Definition found_none : sh_found := mkFound None UINT16_MAX None None UINT16_MAX UINT16_MAX.

(** One extension; what it leaves of its body is an error of the caller. *)
(* src lib/picotls.c:2737-2796 exttype *)
Definition sh_switch (t : ptls_t) (retry : bool) (exttype rest_len : Z) (f : sh_found) (src : bytes) : result (sh_found * bytes) :=
  let 'mkFound key group cookie ech version psk := f in
  if exttype =? PTLS_EXTENSION_TYPE_SUPPORTED_VERSIONS then
    '(v, src) ← ptls_decode16 src; Ok (mkFound key group cookie ech v psk, src)
  else if exttype =? PTLS_EXTENSION_TYPE_KEY_SHARE then
    match key_exchanges (ctx t) with
    | None => Err PTLS_ALERT_HANDSHAKE_FAILURE
    | Some _ =>
        if retry then '(g, src) ← ptls_decode16 src; Ok (mkFound key g cookie ech version psk, src)
        else
          '(g, k, src) ← decode_key_share_entry src;
          match src with
          | [] =>
              match key_share t with
              | Some ks => if kex_id ks =? g then Ok (mkFound (Some k) group cookie ech version psk, []) else Err PTLS_ALERT_ILLEGAL_PARAMETER
              | None => Err PTLS_ALERT_ILLEGAL_PARAMETER
              end
          | _ => Err PTLS_ALERT_DECODE_ERROR
          end
    end
  else if exttype =? PTLS_EXTENSION_TYPE_COOKIE then
    _ ← guard_err retry ABORTED;
    k ← ptls_decode_block 2 (λ b, match b with [] => Err PTLS_ALERT_DECODE_ERROR | _ => Ok (b, []) end) src;
    Ok (mkFound key group (Some k) ech version psk, [])
  else if exttype =? PTLS_EXTENSION_TYPE_PRE_SHARED_KEY then
    _ ← guard_err (negb retry) ABORTED;
    '(i, src) ← ptls_decode16 src; Ok (mkFound key group cookie ech version i, src)
  else if exttype =? PTLS_EXTENSION_TYPE_ENCRYPTED_CLIENT_HELLO then
    _ ← guard_err retry ABORTED;
    if bool_decide (ech_state (Tls.ech t) = PTLS_ECH_STATE_NONE) then Err PTLS_ALERT_UNSUPPORTED_EXTENSION
    else if negb (len src =? PTLS_ECH_CONFIRM_LENGTH) then Err PTLS_ALERT_DECODE_ERROR
    else Ok (mkFound key group cookie (Some (rest_len + len src)) version psk, [])
  else Ok (f, []).

(** The body of [decode_extensions]. *)
(* src lib/picotls.c:2731-2797 exttype *)
Definition sh_extension (t : ptls_t) (retry : bool) (exttype rest_len : Z) (f : sh_found) (src : bytes) : result (sh_found * bytes) :=
  _ ← match on_extension (ctx t) with
      | None => Ok ()
      | Some cb => guard_err (cb PTLS_HANDSHAKE_TYPE_SERVER_HELLO exttype src =? 0) 1
      end;
  sh_switch t retry exttype rest_len f src.

Definition is_some_or {A} (o : option A) (e : Z) : result A := match o with Some a => Ok a | None => Err e end.

(** What is checked after the extensions. *)
(* src lib/picotls.c:2799-2819 found_version *)
Definition sh_check (retry : bool) (f : sh_found) : M ptls_t unit :=
  _ ← lift (guard_err (is_supported_version (fd_version f)) PTLS_ALERT_ILLEGAL_PARAMETER);
  when (negb retry)
    (_ ← when (negb (fd_psk f =? UINT16_MAX))
           (offered ← gets offered_psk;
            _ ← lift (guard_err offered PTLS_ALERT_ILLEGAL_PARAMETER);
            _ ← lift (guard_err (fd_psk f =? 0) PTLS_ALERT_ILLEGAL_PARAMETER);
            modify (set_is_psk_handshake true));
     psk ← gets is_psk_handshake;
     lift (guard_err (is_inhabited (fd_peerkey f) || psk) PTLS_ALERT_ILLEGAL_PARAMETER)).

(** [src] is the message without its header. *)
(* src lib/picotls.c:2676-2824 decode_server_hello *)
Definition decode_server_hello (src : bytes) : M ptls_t st_ptls_server_hello_t :=
  _ ← lift (guard_err (2 <=? len src) PTLS_ALERT_DECODE_ERROR);
  let src := drop 2 src in
  _ ← lift (guard_err (PTLS_HELLO_RANDOM_SIZE <=? len src) PTLS_ALERT_DECODE_ERROR);
  let retry := bool_decide (take (Z.to_nat PTLS_HELLO_RANDOM_SIZE) src = hello_retry_random) in
  let src := drop (Z.to_nat PTLS_HELLO_RANDOM_SIZE) src in
  '(session_id, src) ← lift (ptls_decode_open_block 1 (λ b, if 32 <? len b then Err PTLS_ALERT_DECODE_ERROR else Ok (b, [])) src);
  '(csid, src) ← lift (ptls_decode16 src);
  _ ← modify (λ t, set_cipher_suite (ptls_find_cipher_suite (cipher_suites (ctx t)) csid) t);
  t ← gets id;
  _ ← lift (is_some_or (cipher_suite t) PTLS_ALERT_ILLEGAL_PARAMETER);
  '(method, src) ← lift (ptls_decode8 src);
  _ ← lift (guard_err (method =? 0) PTLS_ALERT_ILLEGAL_PARAMETER);
  f ← lift (decode_extensions (if retry then PTLS_HANDSHAKE_TYPE_PSEUDO_HRR else PTLS_HANDSHAKE_TYPE_SERVER_HELLO)
              (sh_extension t retry) found_none src);
  _ ← sh_check retry f;
  mret (mkSh session_id retry (fd_peerkey f) (fd_group f) (fd_cookie f) (fd_ech f)).

(** ** Emitting *)

(* src lib/picotls.c:4451 HANDSHAKE_MODE_FULL *)
Inductive handshake_mode := HANDSHAKE_MODE_FULL | HANDSHAKE_MODE_PSK | HANDSHAKE_MODE_PSK_DHE.

#[global] Instance handshake_mode_eq_dec : EqDecision handshake_mode.
Proof. solve_decision. Defined.

Section Emit.
Context `{Allocator} {S : Type} `{HasBuffer S}.

(** The message; what [extensions] gives, with the offset of the message. *)
(* src lib/picotls.c:4398-4420 EMIT_SERVER_HELLO *)
Definition push_server_hello {A} (session_id : bytes) (csid version : Z) (random : bytes) (extensions : M S A) : M S (Z * A) :=
  push_message_unhashed PTLS_HANDSHAKE_TYPE_SERVER_HELLO
    (o ← gets (λ s, off (get_buf s));
     let sh_start_off := o - PTLS_HANDSHAKE_HEADER_SIZE in
     _ ← ptls_buffer_push16 0x0303;
     _ ← push_reserved random;
     _ ← ptls_buffer_push_block 1 (ptls_buffer_pushv session_id);
     _ ← ptls_buffer_push16 csid;
     _ ← ptls_buffer_push [0];
     ptls_buffer_push_block 2
       (_ ← buffer_push_extension PTLS_EXTENSION_TYPE_SUPPORTED_VERSIONS (ptls_buffer_push16 version);
        a ← extensions;
        mret (sh_start_off, a))).

(** The extensions of a ServerHello; [key_share] is the group and the public key. *)
(* src lib/picotls.c:4850-4861 HANDSHAKE_MODE_PSK *)
Definition push_hello_extensions (mode : handshake_mode) (group : Z) (pubkey : bytes) (psk_index : Z) : M S unit :=
  _ ← when (negb (bool_decide (mode = HANDSHAKE_MODE_PSK)))
        (buffer_push_extension PTLS_EXTENSION_TYPE_KEY_SHARE
          (_ ← ptls_buffer_push16 group; ptls_buffer_push_block 2 (ptls_buffer_pushv pubkey)));
  when (negb (bool_decide (mode = HANDSHAKE_MODE_FULL)))
    (buffer_push_extension PTLS_EXTENSION_TYPE_PRE_SHARED_KEY (ptls_buffer_push16 (u16 psk_index))).

End Emit.

Section Conn.
Context `{Allocator} (em : ptls_message_emitter_t).

(** [post_action] is given the offset of the message and what [extensions] gives. *)
(* src lib/picotls.c:4398-4425 EMIT_SERVER_HELLO *)
Definition emit_server_hello {A} (ch : st_ptls_client_hello_t) (random : bytes) (extensions : M conn A)
    (post_action : Z -> A -> M conn unit) : M conn unit :=
  start ← em_begin em;
  suite ← tls_op get_suite;
  '(sh_start_off, a) ← push_server_hello (ch_legacy_session_id ch) (cs_id suite) (selected_version ch) random extensions;
  _ ← em_commit em start;
  _ ← post_action sh_start_off a;
  b ← gets cn_send;
  tls_op (update_hash (drop (Z.to_nat sh_start_off) (contents b))).

(* src lib/picotls.c:4427-4440 EMIT_HELLO_RETRY_REQUEST *)
Definition emit_hello_retry_request {A} (ch : st_ptls_client_hello_t) (negotiated_group : option ptls_key_exchange_algorithm_t)
    (additional_extensions : M conn A) (post_action : Z -> A -> M conn unit) : M conn unit :=
  emit_server_hello ch hello_retry_random
    (_ ← (match negotiated_group with
          | Some g => buffer_push_extension PTLS_EXTENSION_TYPE_KEY_SHARE (ptls_buffer_push16 (kex_id g))
          | None => mret ()
          end);
     additional_extensions)
    post_action.

(** The confirmation that ECH is accepted, written over its place in the message. *)
(* src lib/picotls.c:4722-4727 ech_confirm_off *)
Definition write_confirmation (label : bytes) (sh_start_off ech_confirm_off : Z) : M conn unit :=
  sched ← tls_op get_schedule;
  c ← gets id;
  confirm ← lift (ech_calc_confirmation sched (inner_client_random (Tls.ech (cn_tls c))) label
                    (drop (Z.to_nat sh_start_off) (contents (cn_send c))));
  on_buf (modify (poke ech_confirm_off confirm)).

End Conn.

(** ** The message in closed form *)

Definition sh_body (session_id : bytes) (csid version : Z) (random : bytes) (exts : list (Z * bytes)) : bytes :=
  bytes16 0x0303 ++ random ++ block1 session_id ++ bytes16 csid ++ [0] ++
  block2 (enc_exts ([(PTLS_EXTENSION_TYPE_SUPPORTED_VERSIONS, bytes16 version)] ++ exts)).

Definition sh_message (session_id : bytes) (csid version : Z) (random : bytes) (exts : list (Z * bytes)) : bytes :=
  [PTLS_HANDSHAKE_TYPE_SERVER_HELLO] ++ block3 (sh_body session_id csid version random exts).

(** Where the extensions after [supported_versions] start. *)
Definition sh_exts_off (session_id : bytes) (o : Z) : Z := o + 4 + 2 + PTLS_HELLO_RANDOM_SIZE + (1 + len session_id) + 2 + 1 + 2 + 6.

Section EmitProofs.
Context `{Allocator} {S : Type} `{HasBuffer S}.

Lemma writes_server_hello {A} o session_id csid version random (extensions : M S A) a exts :
  len random = PTLS_HELLO_RANDOM_SIZE -> len session_id <= 32 -> len (enc_exts exts) < 65000 ->
  writes_at 1 (sh_exts_off session_id o) extensions a (enc_exts exts) ->
  writes_at 1 o (push_server_hello session_id csid version random extensions) (o, a) (sh_message session_id csid version random exts).
Proof.
  intros Hr Hs Hl He. unfold push_server_hello, push_message_unhashed, sh_message.
  assert (len random = 32) as Hr' by exact Hr. pose proof (len_nonneg session_id). pose proof (len_nonneg (enc_exts exts)).
  assert (len (enc_exts ([(PTLS_EXTENSION_TYPE_SUPPORTED_VERSIONS, bytes16 version)] ++ exts)) = 6 + len (enc_exts exts)) as Hx
    by (rewrite enc_exts_app, enc_exts_one, len_app, len_app, len_block2, !len_bytes16; lia).
  eapply writes_bind; [apply writes_push; by apply Forall_singleton|]. change (len [_]) with 1.
  apply writes_block3.
  { unfold sh_body. rewrite !len_app, len_block1, len_block2, !len_bytes16, Hx. change (len [0]) with 1. lia. }
  apply writes_off. cbv zeta. replace (o + 1 + 3 - PTLS_HANDSHAKE_HEADER_SIZE) with o by (unfold PTLS_HANDSHAKE_HEADER_SIZE; lia).
  unfold sh_body.
  eapply writes_bind; [apply writes_push16|]. eapply writes_bind; [apply writes_reserved_unit|].
  eapply writes_bind; [apply writes_block1; [lia|apply writes_pushv]|]. eapply writes_bind; [apply writes_push16|].
  eapply writes_bind; [apply writes_push; by apply Forall_singleton|]. apply writes_block2; [lia|].
  rewrite enc_exts_app. eapply writes_bind; [apply writes_extension; [done|apply writes_push16]|].
  rewrite <- (app_nil_r (enc_exts exts)). eapply writes_bind; [|apply writes_ret].
  match goal with |- writes_at _ ?x _ _ _ => replace x with (sh_exts_off session_id o) end; [done|].
  unfold sh_exts_off. rewrite enc_exts_one, len_app, len_block1, len_block2, !len_bytes16, Hr. change (len [0]) with 1. lia.
Qed.

End EmitProofs.

(** ** The client reads what the server writes *)

Definition hello_hstype (retry : bool) : Z := if retry then PTLS_HANDSHAKE_TYPE_PSEUDO_HRR else PTLS_HANDSHAKE_TYPE_SERVER_HELLO.

(** The callback accepts the extensions. *)
Definition quiet (c : ptls_context_t) (hstype : Z) : Prop :=
  forall cb, on_extension c = Some cb -> forall t body, cb hstype t body = 0.

Lemma sh_extension_quiet t retry exttype n f src :
  quiet (ctx t) PTLS_HANDSHAKE_TYPE_SERVER_HELLO -> sh_extension t retry exttype n f src = sh_switch t retry exttype n f src.
Proof. intros Hq. unfold sh_extension. destruct (on_extension (ctx t)) as [cb|] eqn:E; [|done]. by rewrite (Hq cb E). Qed.

Lemma run_exts_ext {A} (block block' : Z -> Z -> A -> bytes -> result (A * bytes)) a es a' :
  (forall t n x src, block t n x src = block' t n x src) -> run_exts block a es a' -> run_exts block' a es a'.
Proof. intros He Hr. induction Hr as [|a t body es a1 a2 Hb Hr IH]; econstructor; [by rewrite <- He|done]. Qed.

Lemma decode_sh_body t session_id csid suite random exts f :
  quiet (ctx t) PTLS_HANDSHAKE_TYPE_SERVER_HELLO ->
  len random = PTLS_HELLO_RANDOM_SIZE -> len session_id <= 32 -> 0 <= csid < 2 ^ 16 ->
  ptls_find_cipher_suite (cipher_suites (ctx t)) csid = Some suite ->
  let retry := bool_decide (random = hello_retry_random) in
  len (enc_exts exts) < 65000 -> Forall ext_ok exts ->
  acceptable (hello_hstype retry) (PTLS_EXTENSION_TYPE_SUPPORTED_VERSIONS :: (fst <$> exts)) ->
  run_exts (sh_switch (set_cipher_suite (Some suite) t) retry)
    (mkFound None UINT16_MAX None None PTLS_PROTOCOL_VERSION_TLS13 UINT16_MAX) exts f ->
  decode_server_hello (sh_body session_id csid PTLS_PROTOCOL_VERSION_TLS13 random exts) t
  = (_ ← sh_check retry f; mret (mkSh session_id retry (fd_peerkey f) (fd_group f) (fd_cookie f) (fd_ech f)))
      (set_cipher_suite (Some suite) t).
Proof.
  intros Hq Hr Hs Hc Hfind retry Hl Hok Hacc Hrun. unfold decode_server_hello, sh_body. set (exts' := _ ++ exts).
  assert (len (enc_exts exts') = 6 + len (enc_exts exts)) as Hl'.
  { unfold exts'. rewrite enc_exts_app, enc_exts_one, len_app, len_app, len_block2, !len_bytes16. lia. }
  rewrite M_bind_run. cbn [lift]. rewrite (proj2 (Z.leb_le 2 _)).
  2:{ rewrite len_app, len_bytes16. match goal with |- _ <= _ + len ?x => pose proof (len_nonneg x) end. lia. }
  cbn [guard_err]. change (drop 2 (bytes16 771 ++ ?x)) with x. cbv zeta.
  rewrite M_bind_run. cbn [lift]. rewrite (proj2 (Z.leb_le _ _)).
  2:{ rewrite len_app, Hr. match goal with |- _ <= _ + len ?x => pose proof (len_nonneg x) end. lia. }
  cbn [guard_err]. rewrite <- Hr, take_len_app, drop_len_app. fold retry.
  rewrite M_bind_run. cbn [lift]. rewrite open_block1_run by lia. rewrite (proj2 (Z.ltb_ge _ _)) by done.
  cbn [mbind result_bind ptls_decode_assert_block_close]. rewrite M_bind_run. cbn [lift]. rewrite decode16_push16 by done.
  rewrite M_bind_run. cbn [modify]. rewrite Hfind. rewrite M_bind_run. cbn [gets id]. rewrite M_bind_run. cbn [lift cipher_suite set_cipher_suite is_some_or].
  cbn [app]. rewrite M_bind_run. cbn [lift]. rewrite decode8_cons. rewrite M_bind_run. cbn [lift guard_err Z.eqb].
  rewrite M_bind_run. unfold lift at 1. fold (hello_hstype retry).
  assert (decode_extensions (hello_hstype retry) (sh_extension (set_cipher_suite (Some suite) t) retry) found_none (block2 (enc_exts exts')) = Ok f) as ->.
  { unfold block2. apply decode_extensions_complete.
    - lia.
    - constructor; [done|exact Hok].
    - exact Hacc.
    - apply (run_exts_ext (sh_switch (set_cipher_suite (Some suite) t) retry)); [intros; by rewrite sh_extension_quiet|].
      eapply run_exts_cons; [|exact Hrun]. done. }
  done.
Qed.

Definition hello_exts (mode : handshake_mode) (group : Z) (pubkey : bytes) (psk_index : Z) : list (Z * bytes) :=
  ext_if (negb (bool_decide (mode = HANDSHAKE_MODE_PSK))) (PTLS_EXTENSION_TYPE_KEY_SHARE, bytes16 group ++ block2 pubkey) ++
  ext_if (negb (bool_decide (mode = HANDSHAKE_MODE_FULL))) (PTLS_EXTENSION_TYPE_PRE_SHARED_KEY, bytes16 (u16 psk_index)).

Lemma writes_hello_extensions `{Allocator} {S} `{HasBuffer S} mode group pubkey psk_index :
  len pubkey < 60000 ->
  writes (S:=S) 1 (push_hello_extensions mode group pubkey psk_index) (enc_exts (hello_exts mode group pubkey psk_index)).
Proof.
  intros Hl. unfold push_hello_extensions, hello_exts. pose proof (len_nonneg pubkey).
  assert (forall (c : bool) t (m : M S unit) bs, len bs < 65536 -> writes 1 m bs ->
    writes 1 (when c (buffer_push_extension t m)) (enc_exts (ext_if c (t, bs)))) as Hwhen.
  { intros c t m bs Hb Hm. destruct c; cbn [when ext_if]; [intros o; by apply writes_extension|apply writes_no_exts]. }
  rewrite enc_exts_app. apply writes_seq; apply Hwhen; try done.
  - rewrite len_app, len_bytes16, len_block2. lia.
  - apply writes_seq; [apply writes_push16|]. intros o. apply writes_block2; [lia|apply writes_pushv].
  - apply writes_push16.
Qed.

Lemma hello_exts_small mode group pubkey psk_index :
  0 <= group < 2 ^ 16 -> len pubkey < 60000 ->
  len (enc_exts (hello_exts mode group pubkey psk_index)) < 65000 /\ Forall ext_ok (hello_exts mode group pubkey psk_index).
Proof.
  intros Hg Hp. pose proof (len_nonneg pubkey). unfold hello_exts.
  assert (ext_ok (PTLS_EXTENSION_TYPE_KEY_SHARE, bytes16 group ++ block2 pubkey)).
  { split; [done|]. cbn [snd]. rewrite len_app, len_block2, len_bytes16. lia. }
  set (b1 := negb _). set (b2 := negb _). split.
  - rewrite enc_exts_app, len_app. destruct b1, b2; cbn [ext_if]; rewrite ?enc_exts_one, ?len_app, ?len_block2, ?len_app, ?len_bytes16, ?len_block2;
      change (len (enc_exts [])) with 0; lia.
  - apply Forall_app. split; [destruct b1|destruct b2]; cbn [ext_if]; try apply Forall_nil_2; by apply Forall_singleton.
Qed.

Section RoundTrip.
Context `{Allocator} {S : Type} `{HasBuffer S}.

(** C12: the client reads the ServerHello that the server writes.  Whatever the mode of the handshake, the message that
    the server appends to its buffer (unless memory runs out) decodes at a client that offered the cipher suite, the group
    and, where a pre-shared key is selected, one: the session identifier is the echoed one, the peer's key is there
    exactly if there is a key exchange, the cipher suite of the connection is the selected one, and the handshake is
    a PSK handshake from then on exactly if the server selected a key. *)
Theorem server_hello_roundtrip mode group pubkey session_id suite random (t : ptls_t) (s : S) :
  buf_wf (get_buf s) -> tx (get_buf s) = 1 ->
  len random = PTLS_HELLO_RANDOM_SIZE -> random <> hello_retry_random -> len session_id <= 32 -> len pubkey < 60000 ->
  0 <= cs_id suite < 2 ^ 16 -> 0 <= group < 2 ^ 16 ->
  quiet (ctx t) PTLS_HANDSHAKE_TYPE_SERVER_HELLO ->
  ptls_find_cipher_suite (cipher_suites (ctx t)) (cs_id suite) = Some suite ->
  (mode <> HANDSHAKE_MODE_PSK -> is_Some (key_exchanges (ctx t)) /\ exists k, key_share t = Some k /\ kex_id k = group) ->
  (mode <> HANDSHAKE_MODE_FULL -> offered_psk t = true) ->
  match push_server_hello session_id (cs_id suite) PTLS_PROTOCOL_VERSION_TLS13 random
          (push_hello_extensions mode group pubkey 0) s with
  | (Err e, _) => e = PTLS_ERROR_NO_MEMORY
  | (Ok (o, _), s') =>
      o = off (get_buf s) /\
      exists message, contents (get_buf s') = contents (get_buf s) ++ message /\
      decode_server_hello (drop (Z.to_nat PTLS_HANDSHAKE_HEADER_SIZE) message) t
      = (Ok (mkSh session_id false (if bool_decide (mode = HANDSHAKE_MODE_PSK) then None else Some pubkey) UINT16_MAX None None),
         (if bool_decide (mode = HANDSHAKE_MODE_FULL) then id else set_is_psk_handshake true) (set_cipher_suite (Some suite) t))
  end.
Proof.
  intros Hw Ht Hr Hnr Hs Hp Hcs Hg Hq Hfind Hkey Hpsk. destruct (hello_exts_small mode group pubkey 0 Hg Hp) as [Hl Hok].
  destruct (writes_server_hello (S:=S) (off (get_buf s)) session_id (cs_id suite) PTLS_PROTOCOL_VERSION_TLS13 random
    (push_hello_extensions mode group pubkey 0) () (hello_exts mode group pubkey 0) Hr Hs Hl) with (s := s) as [Ho _]; try done.
  { by apply writes_hello_extensions. }
  destruct (push_server_hello _ _ _ _ _ s) as [[[o []]|e] s']; destruct Ho as (_ & _ & Ho); cbn [fst snd] in Ho.
  2:{ destruct Ho as [[->|(? & ? & _)] _]; done. }
  destruct Ho as [[= ->] Hc]. split; [done|]. eexists. split; [exact Hc|].
  change (drop (Z.to_nat PTLS_HANDSHAKE_HEADER_SIZE) (sh_message ?a ?b ?c ?d ?e)) with (sh_body a b c d e).
  set (f := mkFound (if bool_decide (mode = HANDSHAKE_MODE_PSK) then None else Some pubkey) UINT16_MAX None None
              PTLS_PROTOCOL_VERSION_TLS13 (if bool_decide (mode = HANDSHAKE_MODE_FULL) then UINT16_MAX else 0)).
  rewrite (decode_sh_body t session_id (cs_id suite) suite random (hello_exts mode group pubkey 0) f Hq Hr Hs Hcs Hfind); try done.
  all: rewrite (bool_decide_eq_false_2 _ Hnr).
  - unfold f. destruct mode; [reflexivity| |]; specialize (Hpsk ltac:(done)); destruct t; simpl in Hpsk; subst; reflexivity.
  - apply (bool_decide_unpack _). destruct mode; vm_compute; exact I.
  - unfold hello_exts, f. set (key := if bool_decide (mode = HANDSHAKE_MODE_PSK) then None else Some pubkey).
    apply (run_if _ _ (mkFound key UINT16_MAX None None PTLS_PROTOCOL_VERSION_TLS13 UINT16_MAX)).
    + intros Hm. destruct Hkey as [[kx Hkx] (k & Hk & Hid)]; [by intros ->|].
      unfold sh_switch. change (PTLS_EXTENSION_TYPE_KEY_SHARE =? PTLS_EXTENSION_TYPE_SUPPORTED_VERSIONS) with false.
      rewrite Z.eqb_refl. cbv iota. cbn [ctx key_share set_cipher_suite]. rewrite Hkx. unfold decode_key_share_entry.
      rewrite decode16_push16 by done. cbn [mbind result_bind]. rewrite <- (app_nil_r (block2 pubkey)), open_raw2 by lia.
      cbn [mbind result_bind]. rewrite Hk, Hid, Z.eqb_refl. unfold key. apply negb_true_iff in Hm. by rewrite Hm.
    + intros Hm. unfold key. apply negb_false_iff in Hm. by rewrite Hm.
    + destruct mode; repeat econstructor.
Qed.

End RoundTrip.

(** A client that has sent its ClientHello: one cipher suite, one group. *)
Definition toy_offering : ptls_t :=
  set_cipher_suite None (set_key_share (Some toy_kex) (set_ctx toy_client_context (toy_tls false))).

Definition toy_pushed : result (Z * unit) * ptls_buffer_t :=
  @push_server_hello bump_allocator _ _ _ [7; 7] (cs_id toy_suite) PTLS_PROTOCOL_VERSION_TLS13 (replicate 32 1)
    (@push_hello_extensions bump_allocator _ _ HANDSHAKE_MODE_FULL 29 [4; 5; 6] 0) (ptls_buffer_init 64 [0; 0; 0; 0] 1).

Lemma toy_pushed_ok : is_ok toy_pushed.1 = true.
Proof. vm_compute. reflexivity. Qed.

Lemma server_hello_roundtrip_witness :
  exists message,
  decode_server_hello (drop 4 message) toy_offering
  = (Ok (mkSh [7; 7] false (Some [4; 5; 6]) UINT16_MAX None None), set_cipher_suite (Some toy_suite) toy_offering).
Proof.
  pose proof (@server_hello_roundtrip bump_allocator ptls_buffer_t _ HANDSHAKE_MODE_FULL 29 [4; 5; 6] [7; 7] toy_suite (replicate 32 1)
    toy_offering (ptls_buffer_init 64 [0; 0; 0; 0] 1) bump_push_witness_wf eq_refl eq_refl ltac:(discriminate)
    ltac:(vm_compute; discriminate) eq_refl ltac:(vm_compute; split; [discriminate|reflexivity])
    ltac:(vm_compute; split; [discriminate|reflexivity]) ltac:(intros cb; discriminate) eq_refl
    ltac:(intros _; split; [eexists; reflexivity|exists toy_kex; split; reflexivity]) ltac:(intros Hf; by destruct Hf)) as H.
  pose proof toy_pushed_ok as Hok. revert H Hok. unfold toy_pushed. destruct (push_server_hello _ _ _ _ _ _) as [[[o []]|e] s'];
    intros H Hok; [|discriminate].
  destruct H as (_ & message & _ & H). exists message. exact H.
Defined.
