(* ===== verification/Cookie.v ===== *)
(** * Cookie: stateless HelloRetryRequests ([lib/picotls.c])

    A server that keeps no state between the two ClientHellos puts what it must know into the cookie of the
    HelloRetryRequest, with a MAC, and finds it in the second ClientHello. *)

From S2P Require Import Prelude Constants Wire Buffer Extensions Crypto KeySchedule Tls Record Emit Negotiate Hpke ClientHello HelloFormat HelloDecode Receive Conn Export Ticket ServerHello.

(** An operation of the key schedule. *)
Definition sched_op {A} (m : M ptls_key_schedule_t A) : M ptls_t A :=
  s ← get_schedule;
  let '(r, s) := m s in
  _ ← modify (set_key_schedule (Some s));
  lift r.

Section Cookie.
Context `{Allocator}.

(** The pieces of [UPDATE_BLOCK] and [UPDATE16]: [None] when the assertion on the length fails. *)
(* src lib/picotls.c:4353-4366 UPDATE_BLOCK *)
Definition update_block (p : bytes) (h : st_picotls_hmac_context_t) : result st_picotls_hmac_context_t :=
  _ ← guard_err (len p <? 255) ABORTED;
  Ok (hmac_update p (hmac_update [u8 (len p)] h)).

(** [server_name] is a C string.  A NULL pointer where the code reads one stops the process. *)
(* src lib/picotls.c:4344-4381 calc_cookie_signature *)
Definition calc_cookie_signature (t : ptls_t) (properties : option ptls_handshake_properties_t)
    (negotiated_group : option ptls_key_exchange_algorithm_t) (tbs : bytes) : result bytes :=
  suite0 ← is_some_or (head (cipher_suites (ctx t))) ABORTED;
  let algo := cs_hash suite0 in
  pr ← is_some_or properties ABORTED;
  key ← is_some_or (cookie_key pr) ABORTED;
  hctx ← hmac_new algo (take (Z.to_nat (digest_size algo)) key);
  hctx ← update_block (client_random t) hctx;
  hctx ← update_block (match server_name t with Some n => c_string n | None => [] end) hctx;
  suite ← is_some_or (cipher_suite t) ABORTED;
  let hctx := hmac_update (bytes16 (cs_id suite)) hctx in
  let hctx := hmac_update (bytes16 (match negotiated_group with Some g => kex_id g | None => 0 end)) hctx in
  hctx ← update_block (cookie_additional_data pr) hctx;
  hctx ← update_block tbs hctx;
  Ok (hmac_final PTLS_HASH_FINAL_MODE_FREE hctx).1.

(** The cookie extension: the hash of the first ClientHello, whether a key share was asked for, and the MAC. *)
(* src lib/picotls.c:4687-4718 PTLS_EXTENSION_TYPE_COOKIE *)
Definition push_cookie (negotiated_group : option ptls_key_exchange_algorithm_t) (asks_key_share : bool) : M conn unit :=
  buffer_push_extension PTLS_EXTENSION_TYPE_COOKIE
    (ptls_buffer_push_block 2
      (tbs_start ← gets (λ c, off (cn_send c));
       _ ← ptls_buffer_push_block 2
             (_ ← ptls_buffer_push_block 1
                    (suite ← tls_op get_suite;
                     _ ← on_buf (reserve (digest_size (cs_hash suite)) 1);
                     h ← tls_op (sched_op key_schedule_extract_ch1hash);
                     on_buf (modify (append_reserved h)));
              ptls_buffer_push [if asks_key_share then 1 else 0]);
       c ← gets id;
       let tbs := drop (Z.to_nat tbs_start) (contents (cn_send c)) in
       ptls_buffer_push_block 1
         (suite0 ← lift (is_some_or (head (cipher_suites (ctx (cn_tls c)))) ABORTED);
          _ ← on_buf (reserve (digest_size (cs_hash suite0)) 1);
          signature ← lift (calc_cookie_signature (cn_tls c) (cn_properties c) negotiated_group tbs);
          on_buf (modify (append_reserved signature))))).

(** The extensions of a HelloRetryRequest that the server sends itself: the confirmation of ECH, left zero
    (its offset is returned, 0 if there is none), and the cookie. *)
(* src lib/picotls.c:4673-4719 retry_uses_cookie *)
Definition push_retry_extensions (is_ech : bool) (retry_uses_cookie : bool)
    (negotiated_group : option ptls_key_exchange_algorithm_t) (asks_key_share : bool) : M conn Z :=
  ech_confirm_off ←
    (if is_ech then
       buffer_push_extension PTLS_EXTENSION_TYPE_ENCRYPTED_CLIENT_HELLO
         (o ← gets (λ c, off (cn_send c));
          _ ← push_reserved (replicate (Z.to_nat PTLS_ECH_CONFIRM_LENGTH) 0);
          mret o)
     else mret 0);
  _ ← when retry_uses_cookie (push_cookie negotiated_group asks_key_share);
  mret ech_confirm_off.

(** The check of the second ClientHello. *)
(* src lib/picotls.c:4623-4632 sigsize *)
Definition check_cookie (t : ptls_t) (properties : option ptls_handshake_properties_t) (group : ptls_key_exchange_algorithm_t)
    (ch : st_ptls_client_hello_t) : result unit :=
  suite0 ← is_some_or (head (cipher_suites (ctx t))) ABORTED;
  let sigsize := digest_size (cs_hash suite0) in
  signature ← calc_cookie_signature t properties (Some group) (cookie_tbs ch);
  guard_err ((len (cookie_signature ch) =? sigsize) && mem_equal (cookie_signature ch) signature) PTLS_ALERT_HANDSHAKE_FAILURE.

End Cookie.

(** ** What is signed *)

Definition group_id (g : option ptls_key_exchange_algorithm_t) : Z := match g with Some g => kex_id g | None => 0 end.
Definition name_of (t : ptls_t) : bytes := match server_name t with Some n => c_string n | None => [] end.

Definition mac_input (random name : bytes) (csid group : Z) (additional tbs : bytes) : bytes :=
  block1 random ++ block1 name ++ bytes16 csid ++ bytes16 group ++ block1 additional ++ block1 tbs.

(** The configuration of a server that uses cookies: the first cipher suite, the key, the cipher suite in use. *)
Record cookie_config (t : ptls_t) (pr : ptls_handshake_properties_t) (a : ptls_hash_algorithm_t) (key : bytes)
    (suite : ptls_cipher_suite_t) : Prop := {
  cc_hash : cs_hash <$> head (cipher_suites (ctx t)) = Some a;
  cc_ok : hash_ok a;
  cc_key : cookie_key pr = Some key;
  cc_suite : cipher_suite t = Some suite;
  cc_random : len (client_random t) < 255;
  cc_additional : len (cookie_additional_data pr) < 255;
}.

Section Signature.
Context `{Allocator}.

Lemma update_block_at a key m p h :
  hmac_at a key m h -> len p < 255 -> exists h', update_block p h = Ok h' /\ hmac_at a key (m ++ block1 p) h'.
Proof.
  intros Hh Hp. unfold update_block. rewrite (proj2 (Z.ltb_lt _ _)) by done. eexists. split; [done|].
  unfold block1. pose proof (len_nonneg p).
  assert (be_encode 1 (len p) = [u8 (len p)]) as -> by (cbn [be_encode app]; f_equal; unfold u8; cbn; f_equal; lia).
  rewrite app_assoc. by apply hmac_update_at, hmac_update_at.
Qed.

(** Within the limits of the assertions, the signature is the HMAC of the fields with their lengths. *)
Lemma cookie_signature_gives t pr a key suite group tbs :
  cookie_config t pr a key suite -> len (name_of t) < 255 -> len tbs < 255 ->
  gives (calc_cookie_signature t (Some pr) group tbs)
    (HMAC a (take (Z.to_nat (digest_size a)) key)
       (mac_input (client_random t) (name_of t) (cs_id suite) (group_id group) (cookie_additional_data pr) tbs)).
Proof.
  intros [Hh Ha Hk Hs Hr Had] Hn Ht. unfold calc_cookie_signature. fold (name_of t). fold (group_id group).
  destruct (head (cipher_suites (ctx t))) as [s0|]; [|done]. injection Hh as Hh. cbn [is_some_or mbind result_bind].
  rewrite Hh, Hk. cbn [is_some_or mbind result_bind]. set (k := take _ key).
  assert (len k <= block_size a) as Hkl.
  { unfold k. rewrite len_take. pose proof (digest_block a Ha). pose proof (digest_size_pos a Ha). lia. }
  destruct (hmac_new_at a k Hkl) as [(h & -> & Hh0)| ->]; [|by right]. cbn [mbind result_bind].
  destruct (update_block_at a k [] (client_random t) h Hh0 Hr) as (h1 & -> & Hh1). cbn [mbind result_bind].
  destruct (update_block_at a k _ (name_of t) h1 Hh1 Hn) as (h2 & -> & Hh2). cbn [mbind result_bind]. rewrite Hs. cbn [is_some_or mbind result_bind].
  pose proof (hmac_update_at a k _ (bytes16 (group_id group)) _ (hmac_update_at a k _ (bytes16 (cs_id suite)) h2 Hh2)) as Hh3.
  destruct (update_block_at a k _ (cookie_additional_data pr) _ Hh3 Had) as (h4 & -> & Hh4). cbn [mbind result_bind].
  destruct (update_block_at a k _ tbs _ Hh4 Ht) as (h5 & -> & Hh5). cbn [mbind result_bind]. left. f_equal.
  destruct (hmac_final_at a k _ h5 PTLS_HASH_FINAL_MODE_FREE Hh5) as [-> _]. f_equal. unfold mac_input. by rewrite <- !app_assoc.
Qed.

End Signature.

Lemma block1_inj x y r s : len x < 255 -> len y < 255 -> block1 x ++ r = block1 y ++ s -> x = y /\ r = s.
Proof.
  intros Hx Hy E. unfold block1 in E. pose proof (len_nonneg x). pose proof (len_nonneg y). rewrite <- !app_assoc in E.
  apply app_inj_1 in E as [E1 E2]; [|by rewrite !be_encode_length]. apply (f_equal be_decode) in E1.
  rewrite !be_decode_encode, !Z.mod_small in E1 by (cbn; lia). by apply app_inj_1 in E2; [|unfold len in E1; lia].
Qed.

Lemma mac_input_inj r n cs g ad tbs r' n' cs' g' ad' tbs' :
  len r < 255 -> len n < 255 -> len ad < 255 -> len tbs < 255 -> 0 <= cs < 2 ^ 16 -> 0 <= g < 2 ^ 16 ->
  len r' < 255 -> len n' < 255 -> len ad' < 255 -> len tbs' < 255 -> 0 <= cs' < 2 ^ 16 -> 0 <= g' < 2 ^ 16 ->
  mac_input r n cs g ad tbs = mac_input r' n' cs' g' ad' tbs' ->
  r = r' /\ n = n' /\ cs = cs' /\ g = g' /\ ad = ad' /\ tbs = tbs'.
Proof.
  intros Hr Hn Had Ht Hc Hg Hr' Hn' Had' Ht' Hc' Hg' E. unfold mac_input in E.
  apply block1_inj in E as [-> E]; [|done|done]. apply block1_inj in E as [-> E]; [|done|done].
  assert (forall x y r s, 0 <= x < 2 ^ 16 -> 0 <= y < 2 ^ 16 -> bytes16 x ++ r = bytes16 y ++ s -> x = y /\ r = s) as H16.
  { intros x y u v Hx Hy Exy. pose proof (decode16_push16 x u Hx) as E1. rewrite Exy, decode16_push16 in E1 by done. by injection E1. }
  apply H16 in E as [-> E]; [|done|done]. apply H16 in E as [-> E]; [|done|done].
  apply block1_inj in E as [-> E]; [|done|done].
  rewrite <- (app_nil_r (block1 tbs)), <- (app_nil_r (block1 tbs')) in E. by apply block1_inj in E as [-> _].
Qed.

Section Check.
Context `{Allocator}.

Lemma update_block_ok p h h' : update_block p h = Ok h' -> len p < 255.
Proof. unfold update_block. destruct (Z.ltb_spec (len p) 255); [done|discriminate]. Qed.

Lemma cookie_signature_limits t properties group tbs sig :
  calc_cookie_signature t properties group tbs = Ok sig -> len (name_of t) < 255 /\ len tbs < 255.
Proof.
  unfold calc_cookie_signature. fold (name_of t). intros Hc.
  destruct (head _); [|done]. destruct properties as [pr|]; [|done]. cbn [is_some_or mbind result_bind] in Hc.
  destruct (cookie_key pr); [|done]. cbn [is_some_or mbind result_bind] in Hc.
  destruct (hmac_new _ _); [|done]. cbn [mbind result_bind] in Hc.
  destruct (update_block (client_random t) _); [|done]. cbn [mbind result_bind] in Hc.
  destruct (update_block (name_of t) _) eqn:E1; [|done]. cbn [mbind result_bind] in Hc.
  destruct (cipher_suite t); [|done]. cbn [is_some_or mbind result_bind] in Hc.
  destruct (update_block (cookie_additional_data pr) _); [|done]. cbn [mbind result_bind] in Hc.
  destruct (update_block tbs _) eqn:E2; [|done]. split; by eapply update_block_ok.
Qed.

(** C17: an accepted cookie is one that this server has signed for this client.  When the check of a second ClientHello
    succeeds, the signature in the cookie is the HMAC, under the server's key, of the client's random, the server name,
    the cipher suite and the group as they are now, the application's data and the signed part of the cookie; and the
    signed bytes determine each of these fields. *)
Theorem cookie_binds t pr a key suite group ch :
  cookie_config t pr a key suite -> is_bytes (cookie_signature ch) -> 0 <= cs_id suite < 2 ^ 16 -> 0 <= kex_id group < 2 ^ 16 ->
  check_cookie t (Some pr) group ch = Ok () ->
  let signed := mac_input (client_random t) (name_of t) (cs_id suite) (kex_id group) (cookie_additional_data pr) (cookie_tbs ch) in
  cookie_signature ch = HMAC a (take (Z.to_nat (digest_size a)) key) signed /\
  forall random name csid g additional tbs,
    len random < 255 -> len name < 255 -> len additional < 255 -> len tbs < 255 -> 0 <= csid < 2 ^ 16 -> 0 <= g < 2 ^ 16 ->
    mac_input random name csid g additional tbs = signed ->
    random = client_random t /\ name = name_of t /\ csid = cs_id suite /\ g = kex_id group /\
    additional = cookie_additional_data pr /\ tbs = cookie_tbs ch.
Proof.
  intros Hcc Hb Hcs Hg Hchk. cbv zeta. unfold check_cookie in Hchk.
  destruct (head (cipher_suites (ctx t))) as [s0|] eqn:E0; [|done]. cbn [is_some_or mbind result_bind] in Hchk.
  assert (cs_hash s0 = a) as Ha0 by (pose proof (cc_hash _ _ _ _ _ Hcc) as Hh; rewrite E0 in Hh; by injection Hh). rewrite Ha0 in Hchk.
  destruct (calc_cookie_signature _ _ _ _) as [sig|] eqn:Es; [|done]. cbn [mbind result_bind] in Hchk.
  destruct (cookie_signature_limits _ _ _ _ _ Es) as [Hn Ht].
  destruct (cookie_signature_gives t pr a key suite (Some group) (cookie_tbs ch) Hcc Hn Ht) as [Eg|Eg]; rewrite Eg in Es; [|done].
  injection Es as Es. split.
  - destruct (Z.eqb_spec (len (cookie_signature ch)) (digest_size a)) as [Hl|]; [|done].
    destruct (mem_equal _ _) eqn:Em; [|done]. rewrite <- Es in Em. apply mem_equal_spec in Em; [done| |done|].
    + match goal with |- _ = length (HMAC ?x ?k ?m) => pose proof (HMAC_len x k m (cc_ok _ _ _ _ _ Hcc)) as Hml end.
      unfold len in *. lia.
    + apply (digest_bytes a (cc_ok _ _ _ _ _ Hcc)).
  - intros random name csid g additional tbs ? ? ? ? ? ? E. apply mac_input_inj in E; try done; apply Hcc.
Qed.

End Check.

(** ** The cookie that is sent *)

Definition cookie_signed_part (h : bytes) (asks : bool) : bytes := block2 (block1 h ++ [if asks then 1 else 0]).
Definition cookie_bytes (h : bytes) (asks : bool) (signature : bytes) : bytes := cookie_signed_part h asks ++ block1 signature.

(** The server, when it sends the HelloRetryRequest; [s] is the key schedule, fed with the first ClientHello. *)
Record retrying (c : conn) (pr : ptls_handshake_properties_t) (a : ptls_hash_algorithm_t) (key : bytes)
    (suite : ptls_cipher_suite_t) (s : ptls_key_schedule_t) : Prop := {
  rt_config : cookie_config (cn_tls c) pr a key suite;
  rt_props : cn_properties c = Some pr;
  rt_name : len (name_of (cn_tls c)) < 255;
  rt_sched : key_schedule (cn_tls c) = Some s;
  rt_outer : slot_ctx_outer (slot0 s) = None;
  rt_algo : algo0 s = cs_hash suite;
  rt_hash : hash_ok (cs_hash suite);
}.

(** The connection beside its buffer. *)
Definition at_tls (t : ptls_t) (p : option ptls_handshake_properties_t) (c : conn) : Prop := cn_tls c = t /\ cn_properties c = p.

Lemma at_tls_beside t p : beside (at_tls t p).
Proof. intros b c [<- <-]. done. Qed.

Section Push.
Context `{Allocator}.

Lemma get_suite_run t suite : cipher_suite t = Some suite -> get_suite t = (Ok suite, t).
Proof. intros Hs. unfold get_suite. rewrite M_bind_run. cbn [gets]. by rewrite Hs. Qed.

Lemma get_schedule_run t s : key_schedule t = Some s -> get_schedule t = (Ok s, t).
Proof. intros Hs. unfold get_schedule. rewrite M_bind_run. cbn [gets]. by rewrite Hs. Qed.

(** A step that reads the connection and does not fail. *)
Lemma emits_tls_read {A B} t p o (m : M ptls_t A) x (k : A -> M conn B) b bs R :
  m t = (Ok x, t) -> emits_at (at_tls t p) o (k x) b bs R -> emits_at (at_tls t p) o (tls_op m ≫= k) b bs R.
Proof.
  intros Hm Hk. eapply emits_step; [|exact Hk]. intros c [Et Ep]. unfold tls_op. rewrite Et, Hm. done.
Qed.

Definition reset_schedule (s : ptls_key_schedule_t) (t : ptls_t) : ptls_t :=
  set_key_schedule (Some (set_hashes (mkSlot (algo0 s) [] None :: tail (hashes s)) s)) t.

Lemma extract_ch1hash_run s :
  slot_ctx_outer (slot0 s) = None ->
  key_schedule_extract_ch1hash s = (Ok (digest (algo0 s) (slot_ctx (slot0 s))), set_hashes (mkSlot (algo0 s) [] None :: tail (hashes s)) s).
Proof. intros Ho. unfold key_schedule_extract_ch1hash, mbind, M_bind, gets, lift, modify. cbn [id]. by rewrite Ho. Qed.

Lemma push_cookie_emits c pr a key suite s group asks o :
  retrying c pr a key suite s ->
  let t := cn_tls c in
  let h := digest (cs_hash suite) (slot_ctx (slot0 s)) in
  let signature := HMAC a (take (Z.to_nat (digest_size a)) key)
    (mac_input (client_random t) (name_of t) (cs_id suite) (group_id group) (cookie_additional_data pr) (cookie_signed_part h asks)) in
  emits_at (at_tls t (Some pr)) o (push_cookie group asks) ()
    (enc_exts [(PTLS_EXTENSION_TYPE_COOKIE, block2 (cookie_bytes h asks signature))]) (at_tls (reset_schedule s t) (Some pr)).
Proof.
  intros [Hcc Hpr Hn Hs Hout Halgo Hh]. cbv zeta. set (t := cn_tls c) in *. set (h := digest _ _). set (tbs := cookie_signed_part h asks).
  set (sig := HMAC _ _ _). pose proof (cc_ok _ _ _ _ _ Hcc) as Ha. pose proof (digest_size_max a Ha) as Hd. pose proof (digest_size_max _ Hh) as Hd2.
  assert (len h = digest_size (cs_hash suite)) as Hlh by apply (digest_len _ Hh).
  assert (len sig = digest_size a) as Hls by apply (HMAC_len a _ _ Ha). unfold PTLS_MAX_DIGEST_SIZE in *.
  pose proof (len_nonneg h). pose proof (len_nonneg sig).
  assert (len tbs = len h + 4) as Hlt by (unfold tbs, cookie_signed_part; rewrite len_block2, len_app, len_block1; change (len [_]) with 1; lia).
  unfold push_cookie. apply emits_extension; [|apply at_tls_beside..|].
  { unfold cookie_bytes. rewrite len_block2, len_app, len_block1. fold tbs. lia. }
  apply (emits_block2_at (S:=conn)); [|apply at_tls_beside..|].
  { unfold cookie_bytes. rewrite len_app, len_block1. fold tbs. lia. }
  unfold cookie_bytes. fold tbs. refine (emits_off (S:=conn) (at_tls t (Some pr)) _ _ _ _ _ _).
  eapply (emits_tail (S:=conn) (at_tls t (Some pr)) (at_tls (reset_schedule s t) (Some pr))).
  - apply (emits_block2_at (S:=conn)); [|apply at_tls_beside..|].
    { rewrite len_app, len_block1. change (len [_]) with 1. lia. }
    eapply emits_bind_at; [|apply emits_writes; [apply at_tls_beside|apply writes_push; apply Forall_singleton; by destruct asks]].
    apply (emits_block1_at (S:=conn)); [lia|apply at_tls_beside..|].
    eapply emits_tls_read; [apply get_suite_run, Hcc|]. apply (emits_reserved_step (S:=conn)); [apply at_tls_beside|apply at_tls_beside|lia|].
    intros c1 [Et Ep]. unfold tls_op, sched_op. rewrite Et, M_bind_run, (get_schedule_run t s Hs).
    rewrite extract_ch1hash_run by done. rewrite M_bind_run. cbn [modify lift]. split; [|done]. unfold h. by rewrite Halgo.
  - intros c0 [Et Ep] Hdrop. cbn [get_buf conn_has_buffer] in Hdrop. rewrite Hdrop, Et, Ep.
    apply (emits_block1_at (S:=conn)); [lia|apply at_tls_beside..|].
    destruct (head (cipher_suites (ctx t))) as [s0|] eqn:E0.
    2:{ pose proof (cc_hash _ _ _ _ _ Hcc) as Hx. rewrite E0 in Hx. done. }
    assert (cs_hash s0 = a) as Ea by (pose proof (cc_hash _ _ _ _ _ Hcc) as Hx; rewrite E0 in Hx; by injection Hx).
    cbn [reset_schedule set_key_schedule ctx]. rewrite E0.
    eapply emits_step; [by intros c1 Hc1; cbn [lift is_some_or]; split; [|split; [done|exact Hc1]]|].
    apply (emits_reserved_step (S:=conn)); [apply at_tls_beside|apply at_tls_beside|rewrite Ea; lia|]. intros c1 Hc1.
    change (calc_cookie_signature (reset_schedule s t) (Some pr) group tbs) with (calc_cookie_signature t (Some pr) group tbs).
    destruct (cookie_signature_gives t pr a key suite group tbs Hcc Hn ltac:(lia)) as [-> | ->]; cbn [lift]; done.
Qed.

End Push.

Lemma dec_cookie pr ch h asks signature :
  is_Some (cookie_key pr) -> cookie_sent_key_share ch = false -> len h < 128 -> len signature < 256 ->
  ch_ext_cookie (Some pr) ch (block2 (cookie_bytes h asks signature))
  = Ok (set_cookie_signature signature (set_cookie_tbs (cookie_signed_part h asks)
         (set_cookie_sent_key_share asks (set_cookie_ch1_hash h (set_cookie_all (block2 (cookie_bytes h asks signature)) ch))))).
Proof.
  intros [key Hk] Hsent Hh Hs. unfold ch_ext_cookie. cbn [mbind option_bind]. rewrite Hk. pose proof (len_nonneg h). pose proof (len_nonneg signature).
  set (ch0 := set_cookie_all _ ch). assert (cookie_sent_key_share ch0 = false) as Hs0 by exact Hsent. clearbody ch0. cbv zeta.
  apply decode_block2.
  { unfold cookie_bytes, cookie_signed_part. rewrite len_app, len_block2, len_app, !len_block1. change (len [_]) with 1. lia. }
  rewrite Hs0. unfold cookie_bytes. set (head := cookie_signed_part h asks).
  assert (forall (f : bytes -> result (bytes * bool * bytes)), f (block1 h ++ [if asks then 1 else 0]) = Ok (h, asks, []) ->
    ptls_decode_open_block 2 f (head ++ block1 signature) = Ok (h, asks, block1 signature)) as Hopen.
  { intros f Hf. unfold head, cookie_signed_part. rewrite open_block2_run by (rewrite len_app, len_block1; change (len [_]) with 1; lia).
    rewrite Hf. done. }
  rewrite Hopen.
  2:{ rewrite open_raw1 by lia. cbn [mbind result_bind]. rewrite decode8_cons. by destruct asks. }
  cbn [mbind result_bind]. rewrite length_app, Nat.add_sub, take_app_length. by rewrite (decode_block1 _ signature signature) by done.
Qed.

Section StatelessRetry.
Context `{Allocator}.

(** a cookie is accepted when it comes back.  Unless memory runs out, the server appends the cookie extension to the
    HelloRetryRequest, and its key schedule starts afresh.  When a second ClientHello carries that cookie to a server that
    has the same configuration, client random, name and cipher suite and selects the group that was signed, then it decodes:
    the bytes of the extension are there as a whole (from which the HelloRetryRequest is rebuilt), with the hash of the
    first ClientHello and whether a key share was asked for, and the check of the signature succeeds. *)
Theorem cookie_accepted c pr a key suite s group asks ch t2 :
  retrying c pr a key suite s -> buf_wf (cn_send c) -> tx (cn_send c) = 1 ->
  cookie_sent_key_share ch = false ->
  cipher_suites (ctx t2) = cipher_suites (ctx (cn_tls c)) -> client_random t2 = client_random (cn_tls c) ->
  name_of t2 = name_of (cn_tls c) -> cipher_suite t2 = Some suite ->
  match push_cookie (Some group) asks c with
  | (Err e, _) => e = PTLS_ERROR_NO_MEMORY
  | (Ok _, c') =>
      cn_tls c' = reset_schedule s (cn_tls c) /\
      exists body, contents (cn_send c') = contents (cn_send c) ++ enc_exts [(PTLS_EXTENSION_TYPE_COOKIE, body)] /\
      exists ch', ch_ext_cookie (Some pr) ch body = Ok ch' /\
        cookie_all ch' = body /\ cookie_ch1_hash ch' = digest (cs_hash suite) (slot_ctx (slot0 s)) /\
        cookie_sent_key_share ch' = asks /\ gives (check_cookie t2 (Some pr) group ch') ()
  end.
Proof.
  intros Hrt Hw Ht Hsent Ecs Er En Es. pose proof (rt_config _ _ _ _ _ _ Hrt) as Hcc.
  pose proof (cc_ok _ _ _ _ _ Hcc) as Ha. pose proof (digest_size_max a Ha) as Hd. pose proof (digest_size_max _ (rt_hash _ _ _ _ _ _ Hrt)) as Hd2.
  unfold PTLS_MAX_DIGEST_SIZE in *.
  destruct (push_cookie_emits c pr a key suite s (Some group) asks (off (cn_send c)) Hrt c Hw Ht eq_refl) as [Ho HQ].
  { split; [done|]. apply (rt_props _ _ _ _ _ _ Hrt). }
  destruct (push_cookie (Some group) asks c) as [[[]|e] c']; destruct Ho as (_ & _ & Ho); cbn [fst snd] in Ho.
  2:{ destruct Ho as [[->|(? & ? & _)] _]; done. }
  destruct (HQ eq_refl) as [Et _]. destruct Ho as [_ Hc]. split; [exact Et|]. eexists. split; [exact Hc|].
  set (h := digest _ _). set (sig := HMAC _ _ _). fold h in sig.
  assert (len h = digest_size (cs_hash suite)) as Hlh by apply (digest_len _ (rt_hash _ _ _ _ _ _ Hrt)).
  assert (len sig = digest_size a) as Hls by apply (HMAC_len a _ _ Ha).
  eexists. split; [apply dec_cookie; [by rewrite (cc_key _ _ _ _ _ Hcc)|done|lia|lia]|]. split; [done|]. split; [done|]. split; [done|].
  unfold check_cookie. rewrite Ecs. pose proof (cc_hash _ _ _ _ _ Hcc) as Hh.
  destruct (head (cipher_suites (ctx (cn_tls c)))) as [s0|] eqn:E0; [|done]. injection Hh as Hh. cbn [is_some_or mbind result_bind]. rewrite Hh.
  assert (cookie_config t2 pr a key suite) as Hcc2.
  { destruct Hcc. split; try done; rewrite ?Ecs, ?Er; done. }
  assert (len (cookie_signed_part h asks) = len h + 4) as Hlt
    by (unfold cookie_signed_part; rewrite len_block2, len_app, len_block1; change (len [_]) with 1; lia).
  cbn [cookie_tbs cookie_signature set_cookie_signature set_cookie_tbs].
  destruct (cookie_signature_gives t2 pr a key suite (Some group) (cookie_signed_part h asks) Hcc2) as [-> | ->].
  - rewrite En. apply (rt_name _ _ _ _ _ _ Hrt).
  - lia.
  - left. cbn [mbind result_bind group_id]. rewrite Er, En. match goal with |- context [mem_equal sig ?x] => change x with sig end.
    rewrite (proj2 (Z.eqb_eq _ _)) by lia. rewrite (proj2 (mem_equal_spec sig sig eq_refl (digest_bytes a Ha _) (digest_bytes a Ha _)) eq_refl). done.
  - by right.
Qed.

End StatelessRetry.

(** ** A server with cookies *)

Definition toy_properties : ptls_handshake_properties_t :=
  mkProps [] None None PTLS_EARLY_DATA_ACCEPTANCE_UNKNOWN false None None [] (Some (replicate 32 6)) (str "peer") true true [] None (λ _, 0).

Definition toy_retrying : conn :=
  mkConn (set_ctx toy_client_context (set_server_name (Some (str "example.com")) (toy_tls true))) (ptls_buffer_init 64 [0; 0; 0; 0] 1) []
    (Some toy_properties).

Lemma toy_cookie_config : cookie_config (cn_tls toy_retrying) toy_properties toy_hash (replicate 32 6) toy_suite.
Proof. split; try reflexivity. apply toy_hash_ok. Qed.

Lemma toy_retrying_ok : retrying toy_retrying toy_properties toy_hash (replicate 32 6) toy_suite toy_sched.
Proof. split; try reflexivity; [apply toy_cookie_config|apply toy_hash_ok]. Qed.

Definition toy_cookie_pushed : result unit * conn := @push_cookie bump_allocator (Some toy_kex) true toy_retrying.

Lemma toy_cookie_pushed_ok : is_ok toy_cookie_pushed.1 = true.
Proof. vm_compute. reflexivity. Qed.

Lemma cookie_accepted_witness :
  exists body ch', ch_ext_cookie (Some toy_properties) empty_client_hello body = Ok ch' /\
  @gives unit (@check_cookie bump_allocator (cn_tls toy_retrying) (Some toy_properties) toy_kex ch') ().
Proof.
  pose proof (@cookie_accepted bump_allocator toy_retrying toy_properties toy_hash (replicate 32 6) toy_suite toy_sched toy_kex true
    empty_client_hello (cn_tls toy_retrying) toy_retrying_ok bump_push_witness_wf eq_refl eq_refl eq_refl eq_refl eq_refl eq_refl) as Hc.
  pose proof toy_cookie_pushed_ok as Hok. revert Hc Hok. unfold toy_cookie_pushed.
  destruct (push_cookie (Some toy_kex) true toy_retrying) as [[[]|e] c']; intros Hc Hok; [|discriminate].
  destruct Hc as (_ & body & _ & ch' & Hd & _ & _ & _ & Hg). exists body, ch'. split; [exact Hd|exact Hg].
Defined.

(** A second ClientHello with a signature of the server. *)
Definition toy_second : st_ptls_client_hello_t :=
  let tbs := cookie_signed_part [1; 2; 3] true in
  set_cookie_tbs tbs (set_cookie_signature
    (HMAC toy_hash (replicate 8 6) (mac_input (replicate 32 1) (str "example.com") 0x1301 29 (str "peer") tbs)) empty_client_hello).

Lemma toy_second_accepted : @check_cookie bump_allocator (cn_tls toy_retrying) (Some toy_properties) toy_kex toy_second = Ok ().
Proof. vm_compute. reflexivity. Qed.

Lemma cookie_binds_witness :
  cookie_signature toy_second = HMAC toy_hash (take 8 (replicate 32 6))
    (mac_input (replicate 32 1) (str "example.com") 0x1301 29 (str "peer") (cookie_tbs toy_second)).
Proof.
  pose proof (@cookie_binds bump_allocator (cn_tls toy_retrying) toy_properties toy_hash (replicate 32 6) toy_suite toy_kex toy_second
    toy_cookie_config (digest_bytes toy_hash toy_hash_ok _) ltac:(vm_compute; split; [discriminate|reflexivity])
    ltac:(vm_compute; split; [discriminate|reflexivity]) toy_second_accepted) as Hc.
  destruct Hc as [Hc _]. exact Hc.
Defined.
