(* ===== verification/Psk.v ===== *)
(** * Psk: pre-shared keys and their binders ([lib/picotls.c])

    The client proves that it knows the key by a MAC over the ClientHello up to the binders; the server looks for an
    identity it can use and checks the MAC. *)

From S2P Require Import Prelude Constants Wire Buffer Extensions Crypto KeySchedule Tls Record Emit Negotiate Hpke ClientHello HelloFormat HelloDecode Receive Conn Ech EchMessage Export Ticket ServerHello Cookie.

(** ** The client *)

Section Client.
Context `{Allocator}.

Definition update_hash_of (use_outer : bool) (msg : bytes) : M ptls_t unit :=
  sched ← get_schedule;
  modify (set_key_schedule (Some (ptls__key_schedule_update_hash msg use_outer sched))).

(** The message is at the end of the buffer, from [ch_start] on; [binder_key] is there when a key is offered. *)
(* src lib/picotls.c:2404-2420 update_ch_hash_and_binder *)
Definition update_ch_hash_and_binder (ch_start : Z) (binder_key : option bytes) (is_outer : bool) : M conn unit :=
  hash_off ←
    match binder_key with
    | None => mret ch_start
    | Some key =>
        sched ← tls_op get_schedule;
        b ← gets cn_send;
        let psk_binder_off := off b - (3 + digest_size (algo0 sched)) in
        _ ← tls_op (update_hash_of is_outer (take (Z.to_nat (psk_binder_off - ch_start)) (drop (Z.to_nat ch_start) (contents b))));
        sched ← tls_op get_schedule;
        v ← lift (calc_verify_data sched key);
        _ ← on_buf (modify (poke (psk_binder_off + 3) v));
        mret psk_binder_off
    end;
  b ← gets cn_send;
  tls_op (update_hash_of is_outer (drop (Z.to_nat hash_off) (contents b))).

End Client.

(** ** The server *)

(** [strncmp(x, y, x.len) == 0 && y[x.len] == '\0'], with the terminator of [y] in the list: [None] if [y] is read beyond
    it. *)
(* src lib/picotls.c:4201-4204 vec_is_string *)
Fixpoint vec_is_string_at (whole x y : bytes) (n : nat) : option bool :=
  match x with
  | [] => b ← whole !! n; Some (b =? 0)
  | a :: x =>
      match y with
      | [] => None
      | b :: y =>
          if negb (a =? b) then Some false
          else if a =? 0 then b ← whole !! n; Some (b =? 0)
          else vec_is_string_at whole x y n
      end
  end.
Definition vec_is_string (x y : bytes) : option bool := vec_is_string_at (c_string y ++ [0]) x (c_string y ++ [0]) (length x).

(** The difference between the age of the ticket and what the client reports, in 64-bit arithmetic. *)
(* src lib/picotls.c:4263-4265 delta *)
Definition age_delta (now issue_at reported age_add : Z) : Z :=
  let delta := u64 (u64 (now - issue_at) - u32 (reported - age_add)) in
  let delta := if 2 ^ 63 <=? delta then delta - 2 ^ 64 else delta in
  if delta <? 0 then - delta else delta.

(** What the loop finds for an identity: the key exchange of the ticket, the secret, and whether early data is accepted. *)
Record psk_found := mkPskFound { pf_key_share : option ptls_key_exchange_algorithm_t; pf_secret : option bytes; pf_early_data : bool }.

Definition check {A} (c : bool) (k : result (option A)) : result (option A) := if c then k else Ok None.

(** The name in the ticket. *)
(* src lib/picotls.c:4269-4285 ticket_ctx *)
Definition ticket_ctx_ok (t : ptls_t) (ticket_ctx : bytes) : result bool :=
  match ticket_context (ctx t) with
  | Some b => Ok (bool_decide (ticket_ctx = b))
  | None =>
      match ticket_ctx, server_name t with
      | [], None => Ok true
      | [], Some _ => Ok false
      | _, None => Ok false
      | x, Some n => is_some_or (vec_is_string x n) OVER_READ
      end
  end.

(* src lib/picotls.c:4297-4303 ticket_negotiated_protocol *)
Definition ticket_protocol_ok (t : ptls_t) (protocol : bytes) : result bool :=
  match protocol, negotiated_protocol t with
  | [], _ => Ok true
  | _, None => Ok false
  | x, Some p => is_some_or (vec_is_string x p) OVER_READ
  end.

(** The ticket is decrypted; [can_accept_early_data] unless the callback says otherwise. *)
(* src lib/picotls.c:4251-4308 identity *)
Definition ticket_usable (t : ptls_t) (sched : ptls_key_schedule_t) (ch : st_ptls_client_hello_t) (can_accept_early_data : bool)
    (p : ptls_client_hello_psk_identity_t) (decrypted : bytes) : result (option psk_found) :=
  match decode_session_identifier decrypted with
  | Err _ => Ok None
  | Ok si =>
      let now := get_time (ctx t) in
      check (negb (now <? si_issued_at si)) (
      check (negb (ticket_lifetime (ctx t) * 1000 <? now - si_issued_at si)) (
      let accept_early_data :=
        early_data_indication ch && can_accept_early_data && negb (max_early_data_size (ctx t) =? 0) &&
        (age_delta now (si_issued_at si) (obfuscated_ticket_age p) (si_age_add si) <=? PTLS_EARLY_DATA_MAX_DELAY) in
      name_ok ← ticket_ctx_ok t (si_ctx si);
      check name_ok (
      match find_key_exchange (kex_list (ctx t)) (si_key_exchange_id si) with
      | None => Ok None
      | Some a =>
          suite ← is_some_or (cipher_suite t) ABORTED;
          check (si_csid si =? cs_id suite) (
          protocol_ok ← ticket_protocol_ok t (si_protocol si);
          check protocol_ok (
          check (len (si_psk si) =? digest_size (algo0 sched)) (
          check (len (binder p) =? digest_size (algo0 sched)) (
          Ok (Some (mkPskFound (Some a) (Some (si_psk si)) accept_early_data))))))
      end)))
  end.

(** One identity. *)
(* src lib/picotls.c:4223-4312 identity *)
Definition try_identity (t : ptls_t) (sched : ptls_key_schedule_t) (ch : st_ptls_client_hello_t) (psk_index : nat)
    (p : ptls_client_hello_psk_identity_t) : result (option psk_found) :=
  let first := bool_decide (psk_index = 0%nat) in
  match psk_identity (ctx t) with
  | Some id =>
      Ok (if bool_decide (identity p = id) then Some (mkPskFound None (psk_secret (ctx t)) (early_data_indication ch && first))
          else None)
  | None =>
      match encrypt_ticket (ctx t), key_exchanges (ctx t) with
      | Some cb, Some _ =>
          let '(ret, decrypted) := cb false (identity p) in
          if ret =? 0 then ticket_usable t sched ch first p decrypted
          else if ret =? PTLS_ERROR_REJECT_EARLY_DATA then ticket_usable t sched ch false p decrypted
          else Ok None
      | _, _ => Ok None
      end
  end.

(* src lib/picotls.c:4222-4312 psk_index *)
Fixpoint find_identity (t : ptls_t) (sched : ptls_key_schedule_t) (ch : st_ptls_client_hello_t) (psk_index : nat)
    (l : list ptls_client_hello_psk_identity_t) : result (option (nat * ptls_client_hello_psk_identity_t * psk_found)) :=
  match l with
  | [] => Ok None
  | p :: l =>
      f ← try_identity t sched ch psk_index p;
      match f with
      | Some f => Ok (Some (psk_index, p, f))
      | None => find_identity t sched ch (S psk_index) l
      end
  end.

Section Server.
Context `{Allocator}.

Definition binder_label (c : ptls_context_t) : bytes := if is_inhabited (psk_secret c) then str "ext binder" else str "res binder".

(** The index of the selected identity, [None] for [SIZE_MAX], and [*accept_early_data].  [ch_trunc] is the message up to
    the binders. *)
(* src lib/picotls.c:4210-4342 try_psk_handshake *)
Definition try_psk_handshake (ch : st_ptls_client_hello_t) (ch_trunc : bytes) (is_second_flight : bool) : M ptls_t (option nat * bool) :=
  t ← gets id;
  sched ← get_schedule;
  found ← lift (find_identity t sched ch 0 (psk_identities ch));
  match found with
  | None => _ ← modify (set_key_share None); mret (None, false)
  | Some (psk_index, p, f) =>
      _ ← modify (set_key_share (pf_key_share f));
      _ ← when (negb is_second_flight) (sched_op (key_schedule_extract (pf_secret f)));
      sched ← get_schedule;
      binder_key ← lift (derive_secret_with_empty_digest sched (binder_label (ctx t)));
      _ ← update_hash ch_trunc;
      sched ← get_schedule;
      v ← lift (calc_verify_data sched binder_key);
      let size := digest_size (algo0 sched) in
      _ ← lift (guard_err (size <=? len (binder p)) OVER_READ);
      _ ← lift (guard_err (mem_equal (take (Z.to_nat size) (binder p)) (take (Z.to_nat size) v)) PTLS_ALERT_DECRYPT_ERROR);
      mret (Some psk_index, pf_early_data f)
  end.

End Server.

(** ** The check of a binder *)

(** The binder for a key, over the transcript up to the binders. *)
Definition binder_value (a : ptls_hash_algorithm_t) (ikms : list (option bytes)) (label transcript : bytes) : bytes :=
  verify_data a (Derive_Secret a (schedule_secret a ikms) label []) transcript.

Lemma binder_value_ok a ikms label tr : hash_ok a -> len (binder_value a ikms label tr) = digest_size a /\ is_bytes (binder_value a ikms label tr).
Proof. intros Ha. split; [by apply HMAC_len|apply (digest_bytes a Ha)]. Qed.

Lemma take_derived a secret label tr : hash_ok a -> take (Z.to_nat (digest_size a)) (Derive_Secret a secret label tr) = Derive_Secret a secret label tr.
Proof.
  intros Ha. apply take_ge. pose proof (expand_label_len a secret label (digest a tr) (digest_size a) Ha) as Hl.
  pose proof (digest_size_pos a Ha). unfold Derive_Secret, len in *. lia.
Qed.

Section Check.
Context `{Allocator}.

Lemma sched_op_run {A} (m : M ptls_key_schedule_t A) t s :
  key_schedule t = Some s -> sched_op m t = ((m s).1, set_key_schedule (Some (m s).2) t).
Proof.
  intros Hs. unfold sched_op. rewrite M_bind_run, (get_schedule_run t s Hs). destruct (m s) as [r s']. rewrite M_bind_run. done.
Qed.

Lemma get_schedule_set s t : get_schedule (set_key_schedule (Some s) t) = (Ok s, set_key_schedule (Some s) t).
Proof. done. Qed.

Lemma binder_label_len c : len (PTLS_HKDF_EXPAND_LABEL_PREFIX ++ binder_label c) < 256.
Proof. unfold binder_label. by destruct (is_inhabited _). Qed.

Definition ikms_after (second : bool) (f : psk_found) (ikms : list (option bytes)) : list (option bytes) :=
  if second then ikms else pf_secret f :: ikms.

(** The end of [try_psk_handshake], once an identity is found: all its outcomes. *)
Lemma try_psk_found t s a ikms tr ch ch_trunc second i p f :
  hash_ok a -> key_schedule t = Some s -> sched_at a ikms tr s -> len ikms + 1 < 2 ^ 32 -> is_bytes (binder p) ->
  find_identity t s ch 0 (psk_identities ch) = Ok (Some (i, p, f)) ->
  let v := binder_value a (ikms_after second f ikms) (binder_label (ctx t)) (tr ++ ch_trunc) in
  let n := Z.to_nat (digest_size a) in
  match try_psk_handshake ch ch_trunc second t with
  | (Ok r, t') => r = (Some i, pf_early_data f) /\ take n (binder p) = v /\
      exists s', t' = set_key_schedule (Some s') (set_key_share (pf_key_share f) t) /\
                 sched_at a (ikms_after second f ikms) (tr ++ ch_trunc) s'
  | (Err e, _) => e = PTLS_ERROR_NO_MEMORY \/ (e = OVER_READ /\ len (binder p) < digest_size a) \/
      (e = PTLS_ALERT_DECRYPT_ERROR /\ take n (binder p) <> v)
  end.
Proof.
  intros Ha Hs Hat Hl Hb Hf. cbv zeta. set (label := binder_label (ctx t)). pose proof (binder_label_len (ctx t)) as Hlab. fold label in Hlab.
  unfold try_psk_handshake. rewrite M_bind_run. cbn [gets id]. rewrite M_bind_run, (get_schedule_run t s Hs), M_bind_run. cbn [lift].
  rewrite Hf, M_bind_run. cbn [modify]. set (t1 := set_key_share _ t). assert (key_schedule t1 = Some s) as Hs1 by exact Hs.
  set (w := when _ _).
  assert (match w t1 with
          | (Ok _, t2) => exists s2, t2 = set_key_schedule (Some s2) t1 /\ sched_at a (ikms_after second f ikms) tr s2
          | (Err e, _) => e = PTLS_ERROR_NO_MEMORY
          end) as Hw.
  { unfold w, ikms_after. destruct second; cbn [negb when].
    - exists s. split; [|done]. destruct t. cbn in *. by subst.
    - rewrite (sched_op_run _ t1 s Hs1). pose proof (sched_extract a ikms tr (pf_secret f) s Ha Hat Hl) as He.
      destruct (key_schedule_extract _ s) as [[[]|e] s2]; [|done]. by exists s2. }
  rewrite M_bind_run. destruct (w t1) as [[[]|e] t2]; [|by left]. destruct Hw as (s2 & -> & Hat2). clear w.
  set (ikms' := ikms_after second f ikms) in *.
  rewrite M_bind_run, get_schedule_set, M_bind_run. cbn [lift]. fold label.
  destruct (sched_derive_empty a ikms' tr s2 label Ha Hat2 Hlab) as [-> | ->]; [|by left].
  rewrite M_bind_run. unfold update_hash at 1. rewrite M_bind_run, get_schedule_set. cbn [modify].
  pose proof (sched_update a ikms' tr ch_trunc s2 Hat2) as Hat3. set (s3 := ptls__key_schedule_update_hash _ _ _) in *.
  rewrite M_bind_run, get_schedule_set, M_bind_run. cbn [lift]. rewrite (sched_algo _ _ _ _ Hat3).
  set (key := Derive_Secret a _ label []).
  assert (len key = digest_size a) as Hk by (apply expand_label_len; [done|pose proof (digest_size_pos a Ha); lia]).
  destruct (sched_verify a ikms' _ s3 key Ha Hat3 ltac:(lia)) as [-> | ->]; [|by left]. unfold key at 1. rewrite take_derived by done.
  fold (binder_value a ikms' label (tr ++ ch_trunc)). destruct (binder_value_ok a ikms' label (tr ++ ch_trunc) Ha) as [Hvl Hvb].
  set (v := binder_value _ _ _ _) in *. rewrite M_bind_run. cbn [lift].
  destruct (Z.leb_spec (digest_size a) (len (binder p))); cbn [guard_err]; [|by right; left]. rewrite M_bind_run. cbn [lift].
  rewrite (take_ge v) by (unfold len in Hvl; lia). destruct (mem_equal _ v) eqn:E; cbn [guard_err].
  - apply mem_equal_spec in E; [|rewrite length_take; unfold len in *; lia|by apply Forall_take|done].
    split; [done|]. split; [done|]. exists s3. split; [by destruct t|done].
  - right. right. split; [done|]. intros Et. rewrite Et in E.
    by rewrite (proj2 (mem_equal_spec v v eq_refl Hvb Hvb) eq_refl) in E.
Qed.

Lemma find_identity_spec t s ch l k :
  match find_identity t s ch k l with
  | Ok (Some (i, p, f)) => exists j, i = (k + j)%nat /\ l !! j = Some p /\ try_identity t s ch i p = Ok (Some f) /\
      forall j' p', (j' < j)%nat -> l !! j' = Some p' -> try_identity t s ch (k + j') p' = Ok None
  | _ => True
  end.
Proof.
  revert k. induction l as [|p l IH]; intros k; cbn [find_identity]; [done|].
  destruct (try_identity t s ch k p) as [[f|]|e] eqn:E; cbn [mbind result_bind]; [|specialize (IH (S k))|done].
  - exists 0%nat. rewrite Nat.add_0_r. split; [done|]. split; [done|]. split; [done|]. lia.
  - destruct (find_identity t s ch (S k) l) as [[[[i q] f]|]|]; try done. destruct IH as (j & -> & Hl & Ht & Hb).
    exists (S j). split; [lia|]. split; [done|]. split; [done|]. intros [|j'] p' Hj Hp.
    + injection Hp as <-. by rewrite Nat.add_0_r.
    + rewrite Nat.add_succ_r. apply (Hb j' p'); [lia|done].
Qed.


End Check.

(** ** From the client to the server *)

Section Accepted.
Context `{Allocator}.

(** The client's message gets its binder. *)
Lemma binder_filled c s a ikms tr label pre prefix header old :
  hash_ok a -> key_schedule (cn_tls c) = Some s -> sched_at a ikms tr s ->
  buf_wf (cn_send c) -> contents (cn_send c) = pre ++ prefix ++ header ++ old -> len header = 3 -> len old = digest_size a ->
  let v := binder_value a ikms label (tr ++ prefix) in
  match update_ch_hash_and_binder (len pre) (Some (Derive_Secret a (schedule_secret a ikms) label [])) false c with
  | (Err e, _) => e = PTLS_ERROR_NO_MEMORY
  | (Ok _, c') => buf_wf (cn_send c') /\ contents (cn_send c') = pre ++ prefix ++ header ++ v /\
      exists s', cn_tls c' = set_key_schedule (Some s') (cn_tls c) /\ sched_at a ikms (tr ++ prefix ++ header ++ v) s'
  end.
Proof.
  intros Ha Hs Hat Hw Hc Hh Ho. cbv zeta. set (key := Derive_Secret _ _ _ _). set (v := binder_value _ _ _ _).
  destruct (binder_value_ok a ikms label (tr ++ prefix) Ha) as [Hvl _]. fold v in Hvl.
  assert (len key = digest_size a) as Hk by (apply expand_label_len; [done|pose proof (digest_size_pos a Ha); lia]).
  pose proof (contents_len _ Hw) as Hoff. rewrite Hc, !len_app in Hoff.
  unfold update_ch_hash_and_binder. rewrite M_bind_run. rewrite M_bind_run. unfold tls_op at 1. rewrite (get_schedule_run _ s Hs).
  rewrite M_bind_run. cbn [gets cn_send cn_tls]. rewrite (sched_algo _ _ _ _ Hat).
  replace (off (cn_send c) - (3 + digest_size a)) with (len (pre ++ prefix)) by (rewrite len_app; lia).
  rewrite Hc, drop_len_app. replace (len (pre ++ prefix) - len pre) with (len prefix) by (rewrite len_app; lia). rewrite take_len_app.
  rewrite M_bind_run. unfold tls_op at 1, update_hash_of at 1. rewrite M_bind_run. cbn [cn_tls]. rewrite (get_schedule_run _ s Hs).
  cbn [modify]. pose proof (sched_update a ikms tr prefix s Hat) as Hat1. set (s1 := ptls__key_schedule_update_hash _ _ _) in *.
  rewrite M_bind_run. unfold tls_op at 1. cbn [cn_tls]. rewrite get_schedule_set. rewrite M_bind_run. cbn [lift].
  destruct (sched_verify a ikms (tr ++ prefix) s1 key Ha Hat1 ltac:(lia)) as [-> | ->]; [|done].
  unfold key at 1. rewrite take_derived by done. fold (binder_value a ikms label (tr ++ prefix)). fold v.
  rewrite M_bind_run. unfold on_buf, modify. cbn [get_buf put_buf conn_has_buffer cn_send cn_tls].
  unfold mret at 1, M_ret at 1. rewrite M_bind_run. cbn [gets cn_send].
  destruct (poke_end (cn_send c) (pre ++ prefix ++ header) old v Hw) as (Hw' & Hc' & _ & _); [by rewrite Hc, <- !app_assoc|lia|].
  replace (len (pre ++ prefix) + 3) with (len (pre ++ prefix ++ header)) by (rewrite !len_app; lia). rewrite Hc'.
  unfold tls_op, update_hash_of. rewrite M_bind_run. cbn [cn_tls]. rewrite get_schedule_set. cbn [modify cn_tls cn_send].
  split; [done|]. split; [by rewrite Hc', <- !app_assoc|]. eexists. split; [by destruct (cn_tls c)|].
  replace ((pre ++ prefix ++ header) ++ v) with ((pre ++ prefix) ++ header ++ v) by (by rewrite <- !app_assoc). rewrite drop_len_app.
  replace (tr ++ prefix ++ header ++ v) with ((tr ++ prefix) ++ header ++ v) by (by rewrite <- !app_assoc). by apply sched_update.
Qed.

(** C14: a client that knows the key is accepted.  The client fills the binder at the end of its ClientHello and hashes the
    message; a server with the same transcript, whose identity for that binder has the same secret, selects the identity
    when it is given the message up to the binders.  The only failure on either side is that memory runs out. *)
Theorem psk_binder_accepted c sc a ikms tr label pre prefix header old :
  hash_ok a -> key_schedule (cn_tls c) = Some sc -> sched_at a ikms tr sc ->
  buf_wf (cn_send c) -> contents (cn_send c) = pre ++ prefix ++ header ++ old -> len header = 3 -> len old = digest_size a ->
  match update_ch_hash_and_binder (len pre) (Some (Derive_Secret a (schedule_secret a ikms) label [])) false c with
  | (Err e, _) => e = PTLS_ERROR_NO_MEMORY
  | (Ok _, c') => exists b, contents (cn_send c') = pre ++ prefix ++ header ++ b /\ len b = digest_size a /\
      (exists sc', key_schedule (cn_tls c') = Some sc' /\ sched_at a ikms (tr ++ prefix ++ header ++ b) sc') /\
      forall t s ikms0 ch second i p f,
        key_schedule t = Some s -> sched_at a ikms0 tr s -> len ikms0 + 1 < 2 ^ 32 -> binder_label (ctx t) = label -> binder p = b ->
        find_identity t s ch 0 (psk_identities ch) = Ok (Some (i, p, f)) -> ikms_after second f ikms0 = ikms ->
        gives (try_psk_handshake ch prefix second t).1 (Some i, pf_early_data f)
  end.
Proof.
  intros Ha Hs Hat Hw Hc Hh Ho. pose proof (binder_filled c sc a ikms tr label pre prefix header old Ha Hs Hat Hw Hc Hh Ho) as Hb. cbv zeta in Hb.
  destruct (binder_value_ok a ikms label (tr ++ prefix) Ha) as [Hvl Hvb]. set (v := binder_value _ _ _ _) in *.
  destruct (update_ch_hash_and_binder _ _ _ c) as [[[]|e] c']; [|done]. destruct Hb as (_ & Hc' & sc' & Et & Hat').
  exists v. split; [done|]. split; [done|]. split; [exists sc'; by rewrite Et|].
  intros t s ikms0 ch second i p f Hst Hat0 Hl Hlab Hbp Hf Hik.
  assert (is_bytes (binder p)) as Hpb by (by rewrite Hbp).
  pose proof (try_psk_found t s a ikms0 tr ch prefix second i p f Ha Hst Hat0 Hl Hpb Hf) as Hr. cbv zeta in Hr. rewrite Hik, Hlab in Hr. fold v in Hr.
  destruct (try_psk_handshake ch prefix second t) as [[r|e] t']; cbn [fst].
  - destruct Hr as [-> _]. by left.
  - destruct Hr as [-> |[[_ Hr]|[_ Hr]]]; [by right|rewrite Hbp in Hr; lia|]. destruct Hr. rewrite Hbp. apply take_ge. unfold len in Hvl. lia.
Qed.

End Accepted.

(** ** A server with an external key *)

Definition toy_psk_context : ptls_context_t :=
  mkCtx 0 (Some [toy_kex]) [toy_suite] [] [] (Some (str "id")) (Some (str "key")) (Some toy_hash) None [] None [] None None 0 0 65536
    None false false false false false false false false None None None None None None [] 0 0 0.

Definition toy_psk_server : ptls_t := set_ctx toy_psk_context (toy_tls true).

Definition toy_prefix : bytes := str "ClientHello".
Definition toy_binder : bytes := binder_value toy_hash [Some (str "key")] (str "ext binder") toy_prefix.

Definition toy_psk_hello : st_ptls_client_hello_t :=
  set_psk_identities [mkPsk (str "other") 0 (replicate 8 0); mkPsk (str "id") 0 toy_binder] empty_client_hello.

Definition toy_psk_run : result (option nat * bool) * ptls_t := @try_psk_handshake bump_allocator toy_psk_hello toy_prefix false toy_psk_server.

Lemma toy_psk_run_ok : toy_psk_run.1 = Ok (Some 1%nat, false).
Proof. vm_compute. reflexivity. Qed.

Lemma toy_sched_at : sched_at toy_hash [] [] toy_sched.
Proof. split; [split; reflexivity|reflexivity|discriminate]. Qed.


(** A client that has written its ClientHello, with room for the binder. *)
Definition toy_message : bytes := toy_prefix ++ [0; 9; 8] ++ replicate 8 0.
Definition toy_keyed : ptls_key_schedule_t := (@key_schedule_extract bump_allocator (Some (str "key")) toy_sched).2.
Definition toy_psk_client : conn :=
  mkConn (set_key_schedule (Some toy_keyed) (set_ctx toy_psk_context (toy_tls false)))
    (set_off (len toy_message) (ptls_buffer_init 64 toy_message 1)) [] None.

Lemma toy_psk_buffer : buf_wf (cn_send toy_psk_client) /\ contents (cn_send toy_psk_client) = [] ++ toy_prefix ++ [0; 9; 8] ++ replicate 8 0.
Proof.
  split; [|vm_compute; reflexivity].
  split; [vm_compute; reflexivity|reflexivity|vm_compute; split; discriminate|vm_compute; discriminate|by right|by cbn|constructor].
Qed.

Lemma toy_keyed_at : sched_at toy_hash [Some (str "key")] [] toy_keyed.
Proof.
  pose proof (@sched_extract bump_allocator toy_hash [] [] (Some (str "key")) toy_sched toy_hash_ok toy_sched_at eq_refl) as Hs. unfold toy_keyed.
  assert (is_ok (@key_schedule_extract bump_allocator (Some (str "key")) toy_sched).1 = true) as Hok by (vm_compute; reflexivity).
  revert Hs Hok. by destruct (key_schedule_extract _ _) as [[[]|e] s].
Qed.

Lemma toy_psk_filled :
  is_ok (@update_ch_hash_and_binder bump_allocator 0 (Some (Derive_Secret toy_hash (schedule_secret toy_hash [Some (str "key")]) (str "ext binder") []))
           false toy_psk_client).1 = true.
Proof. vm_compute. reflexivity. Qed.

Lemma psk_binder_accepted_witness :
  exists b, len b = 8 /\ forall s, sched_at toy_hash [] [] s ->
    gives (@try_psk_handshake bump_allocator (set_psk_identities [mkPsk (str "id") 0 b] empty_client_hello) toy_prefix false
             (set_key_schedule (Some s) toy_psk_server)).1 (Some 0%nat, false).
Proof.
  pose proof (@psk_binder_accepted bump_allocator toy_psk_client toy_keyed toy_hash [Some (str "key")] [] (str "ext binder") [] toy_prefix [0; 9; 8]
    (replicate 8 0) toy_hash_ok eq_refl toy_keyed_at (proj1 toy_psk_buffer) (proj2 toy_psk_buffer) eq_refl eq_refl) as Hp.
  pose proof toy_psk_filled as Hok. revert Hp Hok. change (len []) with 0.
  destruct (update_ch_hash_and_binder _ _ _ _) as [[[]|e] c']; intros Hp Hok; [|discriminate].
  destruct Hp as (b & _ & Hl & _ & Hp). exists b. split; [exact Hl|]. intros s Hs.
  apply (Hp _ s [] _ false 0%nat (mkPsk (str "id") 0 b) (mkPskFound None (Some (str "key")) false)).
  all: try reflexivity; try exact Hs.
Defined.
