(* ===== verification/Certificate.v ===== *)
(** * Certificate: certificates and proofs of possession ([lib/picotls.c])

    Certificate, CertificateRequest and CertificateVerify: what the server (or a client that is asked to) sends, and what
    the peer checks through the callbacks of the application. *)

From S2P Require Import Prelude Constants Wire Buffer Extensions Crypto KeySchedule Tls Record Emit Negotiate Hpke ClientHello HelloFormat HelloDecode Receive Conn Export Ticket ServerHello Cookie.

(* src lib/picotls.c:96 PTLS_SERVER_CERTIFICATE_VERIFY_CONTEXT_STRING *)
Definition PTLS_SERVER_CERTIFICATE_VERIFY_CONTEXT_STRING : bytes := str "TLS 1.3, server CertificateVerify".
(* src lib/picotls.c:97 PTLS_CLIENT_CERTIFICATE_VERIFY_CONTEXT_STRING *)
Definition PTLS_CLIENT_CERTIFICATE_VERIFY_CONTEXT_STRING : bytes := str "TLS 1.3, client CertificateVerify".

(** The number of elements of the array [certs]. *)
Definition MAX_CERTS : Z := 16.

(** ** CertificateRequest *)

Section Request.
Context `{Allocator}.

(* src lib/picotls.c:3183-3195 exttype *)
Definition cr_extension (c : ptls_context_t) (exttype rest_len : Z) (algos : list Z) (src : bytes) : result (list Z * bytes) :=
  _ ← match on_extension c with
      | None => Ok ()
      | Some cb => guard_err (cb PTLS_HANDSHAKE_TYPE_CERTIFICATE_REQUEST exttype src =? 0) 1
      end;
  if exttype =? PTLS_EXTENSION_TYPE_SIGNATURE_ALGORITHMS then
    (algos ← decode_signature_algorithms algos src; Ok (algos, []))
  else Ok (algos, []).

(** [client.certificate_request] is filled in as the message is read. *)
(* src lib/picotls.c:3161-3206 decode_certificate_request *)
Definition decode_certificate_request (src : bytes) : M ptls_t unit :=
  '(context, src) ← lift (ptls_decode_open_block 1 (λ b,
      if 255 <? len b then Err PTLS_ALERT_DECODE_ERROR
      else match malloc (if len b =? 0 then 1 else len b) with
           | None => Err PTLS_ERROR_NO_MEMORY
           | Some _ => Ok (b, [])
           end) src);
  before ← gets (λ t, match certificate_request t with Some (_, l) => l | None => [] end);
  _ ← modify (set_certificate_request (Some (context, before)));
  c ← gets ctx;
  algos ← lift (decode_extensions PTLS_HANDSHAKE_TYPE_CERTIFICATE_REQUEST (cr_extension c) before src);
  _ ← modify (set_certificate_request (Some (context, algos)));
  lift (guard_err (negb (len algos =? 0)) PTLS_ALERT_MISSING_EXTENSION).

(* src lib/picotls.c:3321-3339 client_handle_certificate_request *)
Definition handle_certificate_request (message : bytes) : M ptls_t unit :=
  psk ← gets is_psk_handshake;
  _ ← lift (guard_err (negb psk) ABORTED);
  _ ← decode_certificate_request (drop (Z.to_nat PTLS_HANDSHAKE_HEADER_SIZE) message);
  context ← gets (λ t, match certificate_request t with Some (c, _) => c | None => [] end);
  _ ← lift (guard_err (len context =? 0) PTLS_ALERT_ILLEGAL_PARAMETER);
  _ ← modify (set_state PTLS_STATE_CLIENT_EXPECT_CERTIFICATE);
  _ ← update_hash message;
  fail PTLS_ERROR_IN_PROGRESS.

End Request.

(** ** Sending *)

Section Build.
Context `{Allocator} {S : Type} `{HasBuffer S}.

(** One certificate; the OCSP status goes with the first. *)
(* src lib/picotls.c:3217-3227 ocsp_status *)
Definition push_certificate (ocsp_status : bytes) (cert : bytes) : M S unit :=
  _ ← ptls_buffer_push_block 3 (ptls_buffer_pushv cert);
  ptls_buffer_push_block 2
    (when (negb (len ocsp_status =? 0))
       (buffer_push_extension PTLS_EXTENSION_TYPE_STATUS_REQUEST
          (_ ← ptls_buffer_push [1]; ptls_buffer_push_block 3 (ptls_buffer_pushv ocsp_status)))).

(* src lib/picotls.c:3208-3232 ptls_build_certificate_message *)
Definition ptls_build_certificate_message (context : bytes) (certificates : list bytes) (ocsp_status : bytes) : M S unit :=
  _ ← ptls_buffer_push_block 1 (ptls_buffer_pushv context);
  ptls_buffer_push_block 3
    (match certificates with
     | [] => mret ()
     | first :: others => _ ← push_certificate ocsp_status first; push_all (push_certificate []) others
     end).

End Build.

Section Send.
Context `{Allocator} (em : ptls_message_emitter_t).

(** The callback [emit_certificate]: the context, whether the status was asked for, the compression algorithms. *)
Context (emit_certificate : option (bytes -> bool -> list Z -> M conn unit)).

(* src lib/picotls.c:3234-3249 default_emit_certificate_cb *)
Definition default_emit_certificate_cb (context : bytes) (push_status_request : bool) (compress_algos : list Z) : M conn unit :=
  c ← gets (λ c, ctx (cn_tls c));
  ptls_push_message em true PTLS_HANDSHAKE_TYPE_CERTIFICATE (ptls_build_certificate_message context (certificates c) []).

(* src lib/picotls.c:3251-3280 send_certificate *)
Definition send_certificate (signature_algorithms : list Z) (context : bytes) (push_status_request : bool) (compress_algos : list Z)
    : M conn unit :=
  _ ← lift (guard_err (negb (len signature_algorithms =? 0)) PTLS_ALERT_MISSING_EXTENSION);
  match emit_certificate with
  | None => default_emit_certificate_cb context push_status_request compress_algos
  | Some cb =>
      catch (cb context push_status_request compress_algos) (λ e,
        if e =? PTLS_ERROR_DELEGATE then default_emit_certificate_cb context push_status_request compress_algos else fail e)
  end.

(** The signature of the callback [sign_certificate] is pushed by it; an asynchronous operation takes the output back. *)
(* src lib/picotls.c:3282-3319 send_certificate_verify *)
Definition send_certificate_verify (signature_algorithms : list Z) (context_string : bytes) : M conn unit :=
  c ← gets id;
  let start_off := off (cn_send c) in
  match sign_certificate (ctx (cn_tls c)) with
  | None => mret ()
  | Some sign =>
      catch
        (ptls_push_message em true PTLS_HANDSHAKE_TYPE_CERTIFICATE_VERIFY
          (algo_off ← gets (λ c, off (cn_send c));
           _ ← ptls_buffer_push16 0;
           ptls_buffer_push_block 2
             (sched ← tls_op get_schedule;
              '(algo, signature) ← lift (sign signature_algorithms (build_certificate_verify_signdata sched context_string));
              _ ← ptls_buffer_pushv signature;
              on_buf (modify (poke algo_off (bytes16 algo))))))
        (λ e,
          if e =? PTLS_ERROR_ASYNC_OPERATION then
            _ ← lift (guard_err (is_server (cn_tls c)) ABORTED);
            _ ← modify (rewind start_off);
            fail e
          else fail e)
  end.

End Send.

(** ** Receiving *)

Section Receive.
Context `{Allocator}.

(* src lib/picotls.c:3363-3369 PTLS_HANDSHAKE_TYPE_CERTIFICATE *)
Definition ct_extension (c : ptls_context_t) (exttype rest_len : Z) (u : unit) (src : bytes) : result (unit * bytes) :=
  _ ← match on_extension c with
      | None => Ok ()
      | Some cb => guard_err (cb PTLS_HANDSHAKE_TYPE_CERTIFICATE exttype src =? 0) 1
      end;
  Ok ((), []).

(* src lib/picotls.c:3348-3372 certs *)
Definition decode_certificates (c : ptls_context_t) (src : bytes) : result (list bytes) :=
  '(_, src) ← ptls_decode_open_block 1 (λ b, match b with [] => Ok ((), []) | _ => Err PTLS_ALERT_ILLEGAL_PARAMETER end) src;
  ptls_decode_block 3 (λ b : bytes, decode_while (length b) (λ certs src,
      '(certs, src) ← ptls_decode_open_block 3 (λ cert, Ok (push_upto MAX_CERTS certs cert, [])) src;
      '(_, src) ← decode_open_extensions PTLS_HANDSHAKE_TYPE_CERTIFICATE (ct_extension c) () src;
      Ok (certs, src)) [] b) src.

(** The name that the server must prove to have. *)
(* src lib/picotls.c:3374-3382 server_name *)
Definition name_to_verify (t : ptls_t) : option bytes :=
  if is_server t then None
  else if bool_decide (ech_state (Tls.ech t) = PTLS_ECH_STATE_OFFERED) then public_name (Tls.ech t)
  else server_name t.

(** Whether there were certificates. *)
(* src lib/picotls.c:3341-3391 handle_certificate *)
Definition handle_certificate (src : bytes) : M ptls_t bool :=
  t ← gets id;
  certs ← lift (decode_certificates (ctx t) src);
  _ ← match verify_certificate (ctx t) with
      | None => mret ()
      | Some v => cb ← lift (verify_cb v (name_to_verify t) certs); modify (set_certificate_verify cb)
      end;
  mret (negb (len certs =? 0)).

(* src lib/picotls.c:3393-3403 client_do_handle_certificate *)
Definition client_do_handle_certificate (src : bytes) : M ptls_t unit :=
  got_certs ← handle_certificate src;
  lift (guard_err got_certs PTLS_ALERT_ILLEGAL_PARAMETER).

(* src lib/picotls.c:3405-3416 client_handle_certificate *)
Definition do_client_handle_certificate (message : bytes) : M ptls_t unit :=
  _ ← client_do_handle_certificate (drop (Z.to_nat PTLS_HANDSHAKE_HEADER_SIZE) message);
  _ ← update_hash message;
  _ ← modify (set_state PTLS_STATE_CLIENT_EXPECT_CERTIFICATE_VERIFY);
  fail PTLS_ERROR_IN_PROGRESS.

(* src lib/picotls.c:3418-3463 client_handle_compressed_certificate *)
Definition do_client_handle_compressed_certificate (message : bytes) : M ptls_t unit :=
  c ← gets ctx;
  match decompress_certificate c with
  | None => fail PTLS_ALERT_UNEXPECTED_MESSAGE
  | Some d =>
      '(algo, src) ← lift (ptls_decode16 (drop (Z.to_nat PTLS_HANDSHAKE_HEADER_SIZE) message));
      '(uncompressed_size, src) ← lift (ptls_decode24 src);
      _ ← lift (guard_err (uncompressed_size <=? 65536) PTLS_ALERT_BAD_CERTIFICATE);
      _ ← lift (is_some_or (malloc uncompressed_size) PTLS_ERROR_NO_MEMORY);
      uncompressed ← lift (ptls_decode_block 3 (λ b, x ← decompress_cb d algo uncompressed_size b; Ok (x, [])) src);
      _ ← client_do_handle_certificate uncompressed;
      _ ← update_hash message;
      _ ← modify (set_state PTLS_STATE_CLIENT_EXPECT_CERTIFICATE_VERIFY);
      fail PTLS_ERROR_IN_PROGRESS
  end.

(* src lib/picotls.c:3465-3482 server_handle_certificate *)
Definition do_server_handle_certificate (message : bytes) : M ptls_t unit :=
  got_certs ← handle_certificate (drop (Z.to_nat PTLS_HANDSHAKE_HEADER_SIZE) message);
  _ ← update_hash message;
  _ ← modify (set_state (if (got_certs : bool) then PTLS_STATE_SERVER_EXPECT_CERTIFICATE_VERIFY else PTLS_STATE_SERVER_EXPECT_FINISHED));
  fail PTLS_ERROR_IN_PROGRESS.

(** The callback is called once. *)
(* src lib/picotls.c:3484-3518 handle_certificate_verify *)
Definition handle_certificate_verify (message context_string : bytes) : M ptls_t unit :=
  '(algo, src) ← lift (ptls_decode16 (drop (Z.to_nat PTLS_HANDSHAKE_HEADER_SIZE) message));
  signature ← lift (ptls_decode_block 2 (λ b, Ok (b, [])) src);
  sched ← get_schedule;
  cb ← gets certificate_verify;
  let ret := match cb with Some cb => cb algo (build_certificate_verify_signdata sched context_string) signature | None => 0 end in
  _ ← modify (set_certificate_verify None);
  _ ← lift (guard_err (ret =? 0) ret);
  update_hash message.

(* src lib/picotls.c:3520-3530 client_handle_certificate_verify *)
Definition do_client_handle_certificate_verify (message : bytes) : M ptls_t unit :=
  _ ← handle_certificate_verify message PTLS_SERVER_CERTIFICATE_VERIFY_CONTEXT_STRING;
  _ ← modify (set_state PTLS_STATE_CLIENT_EXPECT_FINISHED);
  fail PTLS_ERROR_IN_PROGRESS.

(* src lib/picotls.c:3532-3542 server_handle_certificate_verify *)
Definition do_server_handle_certificate_verify (message : bytes) : M ptls_t unit :=
  _ ← handle_certificate_verify message PTLS_CLIENT_CERTIFICATE_VERIFY_CONTEXT_STRING;
  _ ← modify (set_state PTLS_STATE_SERVER_EXPECT_FINISHED);
  fail PTLS_ERROR_IN_PROGRESS.

End Receive.

(** ** The chain reads back *)

Definition cert_entry (ocsp cert : bytes) : bytes :=
  block3 cert ++ block2 (enc_exts (ext_if (negb (len ocsp =? 0)) (PTLS_EXTENSION_TYPE_STATUS_REQUEST, [1] ++ block3 ocsp))).

(** The certificates with the status that goes with them. *)
Definition with_status (certs : list bytes) (ocsp : bytes) : list (bytes * bytes) :=
  match certs with [] => [] | first :: others => (ocsp, first) :: (pair [] <$> others) end.

Definition cert_entries (certs : list bytes) (ocsp : bytes) : bytes := concat (uncurry cert_entry <$> with_status certs ocsp).

Definition cert_body (context : bytes) (certs : list bytes) (ocsp : bytes) : bytes :=
  block1 context ++ block3 (cert_entries certs ocsp).

Section ChainProofs.
Context `{Allocator} {S : Type} `{HasBuffer S}.

Lemma writes_push_certificate ocsp cert :
  len cert < 2 ^ 24 -> len ocsp < 65000 -> writes (S:=S) 1 (push_certificate ocsp cert) (cert_entry ocsp cert).
Proof.
  intros Hc Ho. pose proof (len_nonneg ocsp). unfold push_certificate, cert_entry. apply writes_seq; intros o; [by apply writes_block3; [|apply writes_pushv]|].
  destruct (negb (len ocsp =? 0)); cbn [when ext_if].
  - assert (len ([1] ++ block3 ocsp) = 4 + len ocsp) as Hl by (rewrite len_app, len_block3; change (len [1]) with 1; lia).
    apply writes_block2; [rewrite enc_exts_one, len_app, len_bytes16, len_block2; lia|]. apply writes_extension; [lia|].
    eapply writes_bind; [apply writes_push; by apply Forall_singleton|]. apply writes_block3; [lia|apply writes_pushv].
  - apply writes_block2; [done|apply writes_ret].
Qed.

Lemma writes_certificate_message context certs ocsp :
  len context < 256 -> Forall (λ c, len c < 2 ^ 24) certs -> len ocsp < 65000 -> len (cert_entries certs ocsp) < 2 ^ 24 ->
  writes (S:=S) 1 (ptls_build_certificate_message context certs ocsp) (cert_body context certs ocsp).
Proof.
  intros Hx Hc Ho Hl. unfold ptls_build_certificate_message, cert_body. apply writes_seq; intros o; [apply writes_block1; [done|apply writes_pushv]|].
  apply writes_block3; [done|]. unfold cert_entries. destruct certs as [|first others]; cbn [with_status]; [apply writes_ret|]. inv Hc.
  rewrite fmap_cons, concat_cons, <- list_fmap_compose. eapply writes_bind; [by apply writes_push_certificate|]. apply writes_push_all. intros x Hin. rewrite Forall_forall in *.
  apply writes_push_certificate; [by apply H4|done].
Qed.

End ChainProofs.

Lemma decode_entry c ocsp cert certs rest :
  quiet c PTLS_HANDSHAKE_TYPE_CERTIFICATE -> len cert < 2 ^ 24 -> len ocsp < 65000 ->
  ('(certs, src) ← ptls_decode_open_block 3 (λ cert, Ok (push_upto MAX_CERTS certs cert, [])) (cert_entry ocsp cert ++ rest);
   '(_, src) ← decode_open_extensions PTLS_HANDSHAKE_TYPE_CERTIFICATE (ct_extension c) () src;
   Ok (certs, src)) = Ok (push_upto MAX_CERTS certs cert, rest).
Proof.
  intros Hq Hc Ho. unfold cert_entry. rewrite <- app_assoc. unfold block3 at 1. rewrite <- app_assoc.
  unfold ptls_decode_open_block at 1. rewrite split_block3 by exact Hc. cbn [mbind result_bind ptls_decode_assert_block_close].
  set (es := ext_if _ _). pose proof (len_nonneg ocsp).
  assert (len (enc_exts es) < 65536 /\ Forall ext_ok es /\ is_Some (bitmap_run 0 PTLS_HANDSHAKE_TYPE_CERTIFICATE (fst <$> es))) as (Hl & Hok & Hbit).
  { unfold es. destruct (negb _); cbn [ext_if]; [|split; [done|by split; [constructor|]]].
    assert (len ([1] ++ block3 ocsp) = 4 + len ocsp) as Hl by (rewrite len_app, len_block3; change (len [1]) with 1; lia).
    split; [rewrite enc_exts_one, len_app, len_bytes16, len_block2; lia|]. split; [|done]. apply Forall_singleton. split; [done|]. cbn [snd]. lia. }
  unfold decode_open_extensions. rewrite open_block2_run by done.
  erewrite ext_loop_complete; [done|done|done|done|].
  assert (forall t n u body, ct_extension c t n u body = Ok ((), [])) as Hct.
  { intros t n u body. unfold ct_extension. destruct (on_extension c) as [cb|] eqn:E; [|done]. by rewrite (Hq cb E). }
  unfold es. destruct (negb _); cbn [ext_if]; [econstructor; [apply Hct|]|]; constructor.
Qed.

Lemma decode_certificates_chain c certs ocsp :
  quiet c PTLS_HANDSHAKE_TYPE_CERTIFICATE -> Forall (λ c, len c < 2 ^ 24) certs -> len ocsp < 65000 -> len (cert_entries certs ocsp) < 2 ^ 24 ->
  decode_certificates c (cert_body [] certs ocsp) = Ok (take (Z.to_nat MAX_CERTS) certs).
Proof.
  intros Hq Hc Ho Hl. unfold decode_certificates, cert_body. rewrite open_block1_run by done. cbn [mbind result_bind ptls_decode_assert_block_close].
  assert (Forall (λ x, len x.2 < 2 ^ 24 /\ len x.1 < 65000) (with_status certs ocsp) /\ (snd <$> with_status certs ocsp) = certs) as [Hf Hs].
  { unfold with_status. destruct certs as [|first others]; [by split; constructor|]. inv Hc. split.
    - constructor; [by split|]. rewrite Forall_fmap. eapply Forall_impl; [done|]. intros x Hx. by split.
    - rewrite fmap_cons, <- list_fmap_compose. cbn [snd]. f_equal. apply list_fmap_id. }
  apply (block_ok 3 _ (cert_entries certs ocsp)); [lia|done|].
  unfold cert_entries. erewrite (decode_while_list _ (uncurry cert_entry) (λ l x, push_upto MAX_CERTS l x.2)).
  - do 2 f_equal. rewrite <- Hs at 2. rewrite <- push_upto_take by done. generalize (@nil bytes). clear.
    induction (with_status certs ocsp) as [|x l IH]; intros acc; [done|]. cbn. apply IH.
  - intros l [oc x] rest Hin. rewrite Forall_forall in Hf. destruct (Hf _ Hin) as [H1 H2]. by apply decode_entry.
  - intros [oc x] _ E. apply (f_equal len) in E. cbn [uncurry] in E. unfold cert_entry in E. rewrite len_app, len_block3, len_block2 in E.
    pose proof (len_nonneg x). match type of E with context [len (enc_exts ?es)] => pose proof (len_nonneg (enc_exts es)) end. change (len []) with 0 in E. lia.
  - done.
Qed.

Section ChainRoundTrip.
Context `{Allocator} {S : Type} `{HasBuffer S}.


End ChainRoundTrip.

(** ** The proof of possession is accepted *)

(** The body of CertificateVerify. *)
Definition verify_body (algo : Z) (signature : bytes) : bytes := bytes16 algo ++ block2 signature.

Definition verify_message (algo : Z) (signature : bytes) : bytes :=
  [PTLS_HANDSHAKE_TYPE_CERTIFICATE_VERIFY] ++ block3 (verify_body algo signature).

Section Possession.
Context `{Allocator}.

Lemma poke_in b pre old src post :
  buf_wf b -> contents b = pre ++ old ++ post -> len src = len old ->
  buf_wf (poke (len pre) src b) /\ contents (poke (len pre) src b) = pre ++ src ++ post.
Proof. intros Hw Hc Hl. apply (overwrite_contents b pre old src post (λ m, mem_write m (len pre) src)); [done|done|done|]. intros tl. by apply mem_write_app. Qed.

(** A failure for lack of memory, whatever was to be written. *)
Lemma outcome_no_memory {A} (x y : A * bytes) c t (e : Z) (s : conn) : outcome (Ok x) c t (Err e, s) -> outcome (Ok y) c t (Err e, s).
Proof. destruct x, y. intros (Hw & Ht & [->|(? & ? & _)] & Hc); [|done]. split; [done|]. split; [done|]. split; [by left|done]. Qed.

(** The signature block: the algorithm is filled in by the callback after its signature is pushed. *)
Lemma triple_signature t sched (sign : list Z -> bytes -> result (Z * bytes)) algos context_string algo signature :
  key_schedule t = Some sched -> sign algos (build_certificate_verify_signdata sched context_string) = Ok (algo, signature) -> len signature < 65536 ->
  triple (tls_is t)
    (algo_off ← gets (λ c, off (cn_send c));
     _ ← ptls_buffer_push16 0;
     ptls_buffer_push_block 2
       (sched ← tls_op get_schedule;
        '(algo, signature) ← lift (sign algos (build_certificate_verify_signdata sched context_string));
        _ ← ptls_buffer_pushv signature;
        on_buf (modify (poke algo_off (bytes16 algo)))))
    (Ok ((), verify_body algo signature)) (λ _, tls_is t).
Proof.
  intros Hs Hsign Hl c Hw Ht. pose proof (contents_len _ Hw) as Hoff. cbn [get_buf conn_has_buffer] in *.
  assert (triple (tls_is t) (_ ← ptls_buffer_push16 0; ptls_buffer_pushv [0; 0]) (Ok ((), [0; 0] ++ [0; 0])) (λ _, tls_is t)) as Hzeros.
  { eapply triple_seq with (Q := λ _, tls_is t); [|done|apply triple_pushv; apply tls_is_stable].
    apply triple_push; [apply tls_is_stable|]. by repeat constructor. }
  specialize (Hzeros c Hw Ht). revert Hzeros. rewrite !M_bind_run. cbn [gets]. rewrite !M_bind_run.
  destruct (ptls_buffer_push16 0 c) as [[[]|e] c1]; cbn [fst snd].
  2:{ intros [Ho HP]. split; [|done]. by eapply outcome_no_memory. }
  cbn beta iota. unfold ptls_buffer_push_block. cbn [Z.eqb].
  rewrite !M_bind_run. change (replicate (Z.to_nat 2) 0) with [0; 0]. destruct (ptls_buffer_pushv [0; 0] c1) as [[[]|e] c2]; cbn [fst snd].
  2:{ intros [Ho HP]. split; [|done]. by eapply outcome_no_memory. }
  intros [(Hw2 & Ht2 & _ & Hc2) HP]. cbn [fst snd get_buf conn_has_buffer] in *.
  rewrite !M_bind_run. cbn [gets]. rewrite !M_bind_run. 
  assert (tls_op get_schedule c2 = (Ok sched, c2)) as -> by (unfold tls_op; rewrite get_schedule_run with (s := sched) by (by rewrite (proj1 HP)); by destruct c2).
  rewrite !M_bind_run, Hsign. cbn [lift]. rewrite !M_bind_run. pose proof (triple_pushv (tls_is t) signature (tls_is_stable t) c2 Hw2 HP) as [Ho HP3].
  destruct (ptls_buffer_pushv signature c2) as [[[]|e] c3]; cbn [fst snd] in *.
  2:{ split; [|exact HP3]. cbn [fst snd]. destruct Ho as (Hw3 & Ht3 & [->|(? & ? & _)] & ds & Hd); [|done]. cbn [fst snd get_buf conn_has_buffer] in *.
      split; [done|]. split; [cbn; congruence|]. split; [by left|]. exists ([0; 0; 0; 0] ++ ds). cbn. rewrite Hd, Hc2. by rewrite <- !app_assoc. }
  destruct Ho as (Hw3 & Ht3 & _ & Hc3). cbn [fst snd get_buf conn_has_buffer] in *. rewrite Hc2, <- !app_assoc in Hc3.
  destruct (poke_in (cn_send c3) (contents (cn_send c)) [0; 0] (bytes16 algo) ([0; 0] ++ signature) Hw3 Hc3 (len_bytes16 algo)) as [Hw4 Hc4].
  unfold on_buf. cbn [modify get_buf put_buf conn_has_buffer mret M_ret]. rewrite <- Hoff. unfold mret, M_ret.
  rewrite !M_bind_run. cbn [gets]. set (b4 := poke _ _ (cn_send c3)) in *.
  set (c4 := mkConn _ b4 _ _). change (cn_send c4) with b4.
  rewrite <- (contents_len _ Hw4), <- (contents_len _ Hw2), Hc2, Hc4.
  replace (len (contents (cn_send c) ++ bytes16 algo ++ [0; 0] ++ signature) - len (contents (cn_send c) ++ [0; 0] ++ [0; 0])) with (len signature)
    by (rewrite !len_app, len_bytes16; change (len [0; 0]) with 2; lia).
  change (1 ≪ (2 * 8)) with 65536. rewrite (proj2 (Z.leb_gt _ _)) by done. rewrite andb_false_r. cbn [negb].
  rewrite !M_bind_run. cbn [modify get_buf put_buf conn_has_buffer mret M_ret].
  destruct (overwrite_contents b4 (contents (cn_send c) ++ bytes16 algo) [0; 0] (be_encode 2 (len signature)) signature
    (store_size 2 (len (contents (cn_send c) ++ [0; 0] ++ [0; 0])) (len signature))) as [Hw5 Hc5].
  { done. }
  { by rewrite Hc4, <- !app_assoc. }
  { done. }
  { intros tl. replace (len (contents (cn_send c) ++ [0; 0] ++ [0; 0])) with (len (contents (cn_send c) ++ bytes16 algo) + len [0; 0])
      by (rewrite !len_app, len_bytes16; change (len [0; 0]) with 2; lia). by apply store_size_spec. }
  change (Z.to_nat 2) with 2%nat. split.
  - unfold outcome, mret, M_ret. cbn [fst snd get_buf conn_has_buffer cn_send]. split; [done|]. split; [cbn; congruence|]. split; [done|].
    etrans; [exact Hc5|]. unfold verify_body, block2. by rewrite <- !app_assoc.
  - destruct HP3 as [HP3 HP4]. split; cbn; [done|congruence].
Qed.
Lemma handle_verify_run message context_string peer s cb algo signature :
  key_schedule peer = Some s -> certificate_verify peer = Some cb -> 0 <= algo < 2 ^ 16 -> len signature < 65536 ->
  message = verify_message algo signature ->
  let ret := cb algo (build_certificate_verify_signdata s context_string) signature in
  let peer' := set_certificate_verify None peer in
  handle_certificate_verify message context_string peer
  = if ret =? 0 then (Ok (), set_key_schedule (Some (ptls__key_schedule_update_hash message false s)) peer') else (Err ret, peer').
Proof.
  intros Hs Hcb Ha Hl Em ret peer'. unfold handle_certificate_verify.
  assert (drop (Z.to_nat PTLS_HANDSHAKE_HEADER_SIZE) message = verify_body algo signature) as ->.
  { rewrite Em. unfold verify_message, block3. change (Z.to_nat PTLS_HANDSHAKE_HEADER_SIZE) with (length ([PTLS_HANDSHAKE_TYPE_CERTIFICATE_VERIFY] ++ be_encode 3 (len (verify_body algo signature)))).
    by rewrite app_assoc, drop_app_length. }
  unfold verify_body. rewrite M_bind_run. cbn [lift]. rewrite decode16_push16 by done. rewrite M_bind_run. cbn [lift].
  unfold block2 at 1. rewrite (block_ok 2 _ signature signature) by (done || lia). rewrite M_bind_run.
  cbn [lift]. rewrite get_schedule_run with (s := s) by done. rewrite M_bind_run. cbn [gets]. rewrite Hcb, M_bind_run. fold ret.
  cbn [modify mret M_ret]. unfold mret, M_ret. rewrite M_bind_run. fold peer'. destruct (Z.eqb_spec ret 0) as [E|E]; cbn [guard_err lift]; [|done].
  unfold update_hash. rewrite M_bind_run, get_schedule_run with (s := s) by done. done.
Qed.

(** The proof of possession is about this handshake.  [send_certificate_verify] has the application sign the
    RFC 8446 content (64 spaces, the context string of the role, a zero, the hash of the transcript), and sends the algorithm and
    the signature in one sealed record (it fails only for lack of memory); at a peer that has the same transcript,
    [handle_certificate_verify] hands exactly that content, algorithm and signature to the verifier which the
    certificate left, goes on if and only if the verifier accepts, otherwise fails with its error, and forgets the
    verifier in both cases. *)
Theorem certificate_verify_accepted a c s sign algos context_string algo signature peer sp cb :
  aead_ok (aead_algo a) -> buf_wf (cn_send c) -> tx (cn_send c) = 1 ->
  aead (enc (cn_tls c)) = Some a -> tls12 (enc (cn_tls c)) = false ->
  key_schedule (cn_tls c) = Some s -> key_schedule peer = Some sp ->
  algo0 sp = algo0 s -> slot_ctx (slot0 sp) = slot_ctx (slot0 s) ->
  sign_certificate (ctx (cn_tls c)) = Some sign ->
  let content := replicate 64 32 ++ context_string ++ [0] ++ digest (algo0 s) (slot_ctx (slot0 s)) in
  sign algos content = Ok (algo, signature) -> 0 <= algo < 2 ^ 16 -> len signature + 8 <= PTLS_MAX_PLAINTEXT_RECORD_SIZE ->
  certificate_verify peer = Some cb ->
  let m := verify_message algo signature in
  match send_certificate_verify record_emitter algos context_string c with
  | (Err e, _) => e = PTLS_ERROR_NO_MEMORY
  | (Ok _, c') =>
      contents (cn_send c') = contents (cn_send c) ++ record13 a PTLS_CONTENT_TYPE_HANDSHAKE m (enc (cn_tls c)) /\
      cn_tls c' = set_enc (advance 1 (enc (cn_tls c)))
                    (set_key_schedule (Some (ptls__key_schedule_update_hash m false s)) (cn_tls c))
  end /\
  handle_certificate_verify m context_string peer
  = (let ret := cb algo content signature in
     let peer' := set_certificate_verify None peer in
     if ret =? 0 then (Ok (), set_key_schedule (Some (ptls__key_schedule_update_hash m false sp)) peer') else (Err ret, peer')).
Proof.
  intros Haead Hw Ht Hd H12 Hs Hsp Halg Hctx Hsc content Hsign Ha Hl Hcb m. unfold PTLS_MAX_PLAINTEXT_RECORD_SIZE in Hl. split.
  - unfold send_certificate_verify. rewrite M_bind_run. cbn [gets id]. rewrite Hsc. unfold catch.
    pose proof (push_message_sealed true PTLS_HANDSHAKE_TYPE_CERTIFICATE_VERIFY _ (verify_body algo signature) a c Haead Hw Ht
      Hd H12 ltac:(done) ltac:(unfold verify_body, PTLS_MAX_PLAINTEXT_RECORD_SIZE; rewrite len_app, len_bytes16, len_block2; lia)
      (triple_signature (cn_tls c) s sign algos context_string algo signature Hs Hsign ltac:(lia))) as Hm.
    cbn zeta in Hm. destruct (ptls_push_message _ _ _ _ c) as [[[]|e] c'].
    + destruct Hm as (_ & Hc & Et). split; [done|]. rewrite Et. unfold hash_message. by rewrite Hs.
    + destruct Hm as (-> & _). done.
  - rewrite (handle_verify_run m context_string peer sp cb algo signature Hsp Hcb Ha ltac:(lia) eq_refl).
    unfold build_certificate_verify_signdata. by rewrite Halg, Hctx.
Qed.

End Possession.

(** ** Witnesses *)

(** A toy signature: the scheme number, then the end of the content. *)
Definition toy_sign (algos : list Z) (content : bytes) : result (Z * bytes) := Ok (1027, drop 98 content).

Definition toy_check (algo : Z) (content signature : bytes) : Z :=
  if (algo =? 1027) && bool_decide (signature = drop 98 content) then 0 else PTLS_ALERT_DECRYPT_ERROR.

(** Accepts two certificates in the name of example.com. *)
Definition toy_verify : ptls_verify_certificate_t :=
  mkVerify (λ name certs, if bool_decide (name = Some (str "example.com") /\ certs = [[1; 2; 3]; [4]]) then Ok (Some toy_check)
                          else Err PTLS_ALERT_BAD_CERTIFICATE) [1027].

Definition toy_signing_context (certs : list bytes) : ptls_context_t :=
  mkCtx 0 None [toy_suite; toy_suite2] [] certs None None None None [] None [] (Some toy_sign) (Some toy_verify) 86400 8192 65536 None false false
    false false false false false false None None None None None None [] 0 0 0.

Definition toy_verifying : ptls_t := set_server_name (Some (str "example.com")) (set_ctx (toy_signing_context []) (toy_tls false)).

Definition toy_signing : conn :=
  mkConn (set_ctx (toy_signing_context [[1; 2; 3]; [4]]) (toy_tls true)) (ptls_buffer_init 64 [] 1) [] None.

Definition toy_chain : result unit * ptls_buffer_t :=
  @ptls_build_certificate_message bump_allocator _ _ [] [[1; 2; 3]; [4]] [9] (ptls_buffer_init 64 [0; 0; 0; 0] 1).

Lemma toy_chain_ok : is_ok toy_chain.1 = true.
Proof. vm_compute. reflexivity. Qed.


Lemma certificate_verify_accepted_witness :
  let m := verify_message 1027 (drop 98 (build_certificate_verify_signdata toy_sched PTLS_SERVER_CERTIFICATE_VERIFY_CONTEXT_STRING)) in
  let peer := set_certificate_verify (Some toy_check) toy_verifying in
  handle_certificate_verify m PTLS_SERVER_CERTIFICATE_VERIFY_CONTEXT_STRING peer
  = (Ok (), set_key_schedule (Some (ptls__key_schedule_update_hash m false toy_sched)) (set_certificate_verify None peer)).
Proof.
  intros m peer.
  destruct (@certificate_verify_accepted bump_allocator toy_ctx toy_signing toy_sched toy_sign [1027] PTLS_SERVER_CERTIFICATE_VERIFY_CONTEXT_STRING
    1027 (drop 98 (build_certificate_verify_signdata toy_sched PTLS_SERVER_CERTIFICATE_VERIFY_CONTEXT_STRING)) peer toy_sched toy_check
    toy_aead_ok (toy_send_wf true) eq_refl eq_refl eq_refl eq_refl eq_refl eq_refl eq_refl eq_refl eq_refl ltac:(split; [discriminate|reflexivity])
    ltac:(vm_compute; discriminate) eq_refl) as [_ H].
  unfold m. rewrite H. reflexivity.
Defined.
