(* ===== verification/Steps.v ===== *)
(** * Steps: what an operation leaves as it was

    [steps R m]: whatever the outcome, the state that [m] leaves is related by [R] to the one it began with.  For a preorder [R],
    the property goes through the constructions of the monad; the tactic [steps] follows the structure of a computation,
    with the lemmas of the database [steps] for the operations it calls. *)

From S2P Require Import Prelude Constants Wire Buffer Extensions Crypto KeySchedule Tls Record Emit Negotiate Hpke ClientHello Receive Conn Ech EchMessage Export Handshake Ticket ServerHello Cookie Psk Certificate.

Definition steps {S A} (R : relation S) (m : M S A) : Prop := forall s, R s (m s).2.

Create HintDb steps.

Section Rules.
Context {S : Type} (R : relation S) `{!PreOrder R}.

Lemma steps_bind {A B} (m : M S A) (f : A -> M S B) : steps R m -> (forall a, steps R (f a)) -> steps R (m ≫= f).
Proof.
  intros Hm Hf s. specialize (Hm s). rewrite M_bind_run. destruct (m s) as [[a|e] s1]; [|done]. etrans; [done|apply Hf].
Qed.

Lemma steps_ret {A} (a : A) : steps R (mret a).
Proof. intros s. done. Qed.

Lemma steps_fail {A} e : steps R (fail e : M S A).
Proof. intros s. done. Qed.

Lemma steps_lift {A} (r : result A) : steps R (lift r).
Proof. intros s. done. Qed.

Lemma steps_gets {A} (f : S -> A) : steps R (gets f).
Proof. intros s. done. Qed.

Lemma steps_when (c : bool) (m : M S unit) : steps R m -> steps R (when c m).
Proof. intros Hm. destruct c; [done|apply steps_ret]. Qed.

Lemma steps_catch {A} (m : M S A) (h : Z -> M S A) : steps R m -> (forall e, steps R (h e)) -> steps R (catch m h).
Proof. intros Hm Hh s. specialize (Hm s). unfold catch. destruct (m s) as [[a|e] s1]; [done|]. etrans; [done|apply Hh]. Qed.

End Rules.

Lemma steps_modify {S} (R : relation S) (f : S -> S) : (forall s, R s (f s)) -> steps R (modify f).
Proof. intros Hf s. apply Hf. Qed.

Lemma steps_impl {S A} (R R' : relation S) (m : M S A) : (forall s s', R s s' -> R' s s') -> steps R m -> steps R' m.
Proof. intros Hi Hm s. apply Hi, Hm. Qed.

(** A relation of connection objects, as one of connections: the buffer and the properties may change. *)
Definition of_tls (R : relation ptls_t) : relation conn := λ c c', R (cn_tls c) (cn_tls c').

#[global] Instance of_tls_preorder R `{!PreOrder R} : PreOrder (of_tls R).
Proof. split; unfold of_tls; [intros c; reflexivity|]. intros c1 c2 c3 H1 H2. by etrans. Qed.

Section Conn.
Context `{Allocator} (R : relation ptls_t) `{!PreOrder R}.

Lemma steps_tls_op {A} (m : M ptls_t A) : steps R m -> steps (of_tls R) (tls_op m).
Proof. intros Hm c. specialize (Hm (cn_tls c)). unfold tls_op, of_tls. by destruct (m (cn_tls c)). Qed.

Lemma steps_on_buf {A} (m : M ptls_buffer_t A) : steps (of_tls R) (on_buf (S:=conn) m).
Proof. intros c. unfold on_buf, of_tls. destruct (m (get_buf c)). reflexivity. Qed.

Lemma steps_on_tls f : (forall t, R t (f t)) -> steps (of_tls R) (modify (on_tls f)).
Proof. intros Hf c. apply Hf. Qed.

Lemma steps_block {A} cap (block : M conn A) : steps (of_tls R) block -> steps (of_tls R) (ptls_buffer_push_block cap block).
Proof.
  intros Hb. unfold ptls_buffer_push_block. apply steps_bind; [apply _|apply steps_on_buf|intros _].
  apply steps_bind; [apply _|apply steps_gets, _|intros x]. apply steps_bind; [apply _|done|intros a].
  apply steps_bind; [apply _|apply steps_gets, _|intros y]. cbn zeta.
  apply steps_bind; [apply _| |intros _; apply steps_ret, _]. destruct (negb _); [|apply steps_on_buf].
  destruct (_ && _); [apply steps_fail, _|apply steps_on_buf].
Qed.

Lemma steps_push_all {A} (push : A -> M conn unit) l : (forall x, steps (of_tls R) (push x)) -> steps (of_tls R) (push_all push l).
Proof.
  intros Hp. induction l as [|x l IH]; [apply steps_ret, _|]. cbn [push_all]. apply steps_bind; [apply _|apply Hp|intros _; apply IH].
Qed.

Lemma steps_push16_all l : steps (of_tls R) (push16_all l).
Proof. induction l as [|x l IH]; [apply steps_ret, _|]. cbn [push16_all]. apply steps_bind; [apply _|apply steps_on_buf|intros _; apply IH]. Qed.

End Conn.

(** Follows the structure of a computation; [side] proves what is left of each [modify]. *)
Ltac steps_with side :=
  repeat first
    [ solve [auto 3 with steps nocore]
    | match goal with
      | |- steps _ (_ ≫= _) => apply steps_bind; [apply _| |intros ?]
      | |- steps _ (mret _) => apply steps_ret, _
      | |- steps _ (fail _) => apply steps_fail, _
      | |- steps _ (lift _) => apply steps_lift, _
      | |- steps _ (gets _) => apply steps_gets, _
      | |- steps _ (when _ _) => apply steps_when; [apply _|]
      | |- steps _ (catch _ _) => apply steps_catch; [apply _| |intros ?]
      | |- steps (of_tls _) (tls_op _) => apply steps_tls_op
      | |- steps (of_tls _) (on_buf _) => apply steps_on_buf, _
      | |- steps (of_tls _) (ptls_buffer_push_block _ _) => apply steps_block; [apply _|]
      | |- steps (of_tls _) (push_all _ _) => apply steps_push_all; [apply _|intros ?]
      | |- steps (of_tls _) (push16_all _) => apply steps_push16_all, _
      | |- steps (of_tls _) (ptls_buffer_pushv _) => apply steps_on_buf, _
      | |- steps (of_tls _) (ptls_buffer_push _) => apply steps_on_buf, _
      | |- steps (of_tls _) (ptls_buffer_push16 _) => apply steps_on_buf, _
      | |- steps (of_tls _) (ptls_buffer_push32 _) => apply steps_on_buf, _
      | |- steps (of_tls _) (push_reserved _) => unfold push_reserved
      | |- steps (of_tls _) (push_message_unhashed _ _) => unfold push_message_unhashed
      | |- steps (of_tls _) (buffer_push_extension _ _) => unfold buffer_push_extension
      | |- steps (of_tls _) (modify (on_tls _)) => apply steps_on_tls; intros ?; side
      | |- steps _ (modify _) => apply steps_modify; intros ?; side
      | |- steps _ (let '(_, _) := ?x in _) => destruct x
      | |- steps _ (match ?x with _ => _ end) => destruct x
      | |- steps _ (let x := _ in _) => cbn zeta
      end ].

(** [leads P m Q]: from a state with [P], the operation leads to one with [Q], whatever its outcome. *)
Definition leads {S A} (P : S -> Prop) (m : M S A) (Q : S -> Prop) : Prop := forall s, P s -> Q (m s).2.

Lemma leads_bind {S A B} (R : relation S) (P Q : S -> Prop) (m : M S A) (f : A -> M S B) :
  (forall s s', R s s' -> P s -> P s') -> (forall s, P s -> Q s) -> steps R m -> (forall a, leads P (f a) Q) -> leads P (m ≫= f) Q.
Proof.
  intros Hk HQ Hm Hf s Hs. rewrite M_bind_run. specialize (Hm s). destruct (m s) as [[a|e] s1]; cbn [snd] in *.
  - apply Hf. by eapply Hk.
  - apply HQ. by eapply Hk.
Qed.

Lemma leads_seq {S A B} (P P' Q : S -> Prop) (m : M S A) (f : A -> M S B) :
  (forall s, P' s -> Q s) -> leads P m P' -> (forall a, leads P' (f a) Q) -> leads P (m ≫= f) Q.
Proof.
  intros HQ Hm Hf s Hs. rewrite M_bind_run. specialize (Hm s Hs). destruct (m s) as [[a|e] s1]; cbn [snd] in *; [by apply Hf|by apply HQ].
Qed.

(** The result is one with [V]. *)
Lemma leads_value {S A B} (P Q : S -> Prop) (V : A -> Prop) (m : M S A) (f : A -> M S B) :
  (forall s, P s -> Q s) -> leads P m P -> (forall s a, P s -> (m s).1 = Ok a -> V a) -> (forall a, V a -> leads P (f a) Q) -> leads P (m ≫= f) Q.
Proof.
  intros HQ Hm Hv Hf s Hs. rewrite M_bind_run. specialize (Hm s Hs). specialize (λ a, Hv s a Hs).
  destruct (m s) as [[a|e] s1]; cbn [fst snd] in *; [apply Hf; [by apply Hv|done]|by apply HQ].
Qed.

(** A success gives more than a failure. *)
Lemma leads_ok {S A B} (P P' Q : S -> Prop) (m : M S A) (f : A -> M S B) :
  leads P m Q -> (forall s a, P s -> (m s).1 = Ok a -> P' (m s).2) -> (forall a, leads P' (f a) Q) -> leads P (m ≫= f) Q.
Proof.
  intros Hm Ho Hf s Hs. rewrite M_bind_run. specialize (Hm s Hs). specialize (λ a, Ho s a Hs).
  destruct (m s) as [[a|e] s1]; cbn [fst snd] in *; [by apply Hf, (Ho a)|done].
Qed.

Lemma leads_steps {S A} (R : relation S) (P : S -> Prop) (m : M S A) : (forall s s', R s s' -> P s -> P s') -> steps R m -> leads P m P.
Proof. intros Hk Hm s Hs. by eapply Hk. Qed.

(** A property of the connection object, of a connection with its output. *)
Definition with_tls (P : ptls_t -> Prop) (c : conn) : Prop := P (cn_tls c).

Lemma leads_tls_op {A} (P Q : ptls_t -> Prop) (m : M ptls_t A) : leads P m Q -> leads (with_tls P) (tls_op m) (with_tls Q).
Proof. intros Hm c Hc. specialize (Hm (cn_tls c) Hc). unfold with_tls, tls_op. by destruct (m (cn_tls c)). Qed.

(** ** The course of a connection *)

(** Whose connection it is. *)
Record same_party (t t' : ptls_t) : Prop := {
  sp_ctx : ctx t' = ctx t;
  sp_name : server_name t' = server_name t;
  sp_server : is_server t' = is_server t;
}.

#[global] Instance same_party_preorder : PreOrder same_party.
Proof. split; [by intros t; split|]. intros t1 t2 t3 [] []. split; congruence. Qed.

(** The transcript of [t'] begins with that of [t]. *)
Definition extends_transcript (t t' : ptls_t) : Prop :=
  forall s, key_schedule t = Some s ->
  exists s' x, key_schedule t' = Some s' /\ algo0 s' = algo0 s /\ slot_ctx (slot0 s') = slot_ctx (slot0 s) ++ x.

(** There is a transcript. *)
Definition has_transcript (t : ptls_t) : Prop := exists s, key_schedule t = Some s /\ hashes s <> [].

(** The connection goes on: the same state and the same peer, and messages are added to the transcript. *)
Record continues (t t' : ptls_t) : Prop := {
  ct_party : same_party t t';
  ct_state : state t' = state t;
  ct_ech : Tls.ech t' = Tls.ech t;
  ct_psk : is_psk_handshake t' = is_psk_handshake t;
  ct_verify : certificate_verify t' = certificate_verify t;
  ct_pending : pending_handshake_secret t = None -> pending_handshake_secret t' = None;
  ct_transcript : extends_transcript t t';
  ct_has : has_transcript t -> has_transcript t';
}.

Lemma extends_transcript_refl t t' : key_schedule t' = key_schedule t -> extends_transcript t t'.
Proof. intros E s Hs. exists s, []. rewrite app_nil_r. by rewrite E. Qed.

Lemma extends_transcript_trans t1 t2 t3 : extends_transcript t1 t2 -> extends_transcript t2 t3 -> extends_transcript t1 t3.
Proof.
  intros H1 H2 s Hs. destruct (H1 s Hs) as (s2 & x & Hs2 & Ha & Hx). destruct (H2 s2 Hs2) as (s3 & y & Hs3 & Hb & Hy).
  exists s3, (x ++ y). split; [done|]. split; [congruence|]. by rewrite Hy, Hx, app_assoc.
Qed.

#[global] Instance continues_preorder : PreOrder continues.
Proof.
  split.
  - intros t. split; try done. by apply extends_transcript_refl.
  - intros t1 t2 t3 [] []. split; try congruence; [by etrans|by auto|by eapply extends_transcript_trans|by auto].
Qed.

(** Other fields may change. *)
Lemma continues_other t t' :
  ctx t' = ctx t -> server_name t' = server_name t -> is_server t' = is_server t -> state t' = state t -> Tls.ech t' = Tls.ech t ->
  is_psk_handshake t' = is_psk_handshake t -> certificate_verify t' = certificate_verify t ->
  (pending_handshake_secret t = None -> pending_handshake_secret t' = None) -> key_schedule t' = key_schedule t -> continues t t'.
Proof. intros ? ? ? ? ? ? ? ? E. split; try done; [by apply extends_transcript_refl|]. unfold has_transcript. by rewrite E. Qed.

Lemma steps_party {A} (m : M ptls_t A) : steps continues m -> steps same_party m.
Proof. apply steps_impl. by intros t t' []. Qed.

Lemma steps_party_conn {A} (m : M conn A) : steps (of_tls continues) m -> steps (of_tls same_party) m.
Proof. apply steps_impl. by intros t t' []. Qed.

(** A change of fields that these relations do not speak of. *)
Ltac other_fields :=
  repeat match goal with b : bool |- _ => destruct b end; first [by apply continues_other | done | by split | reflexivity].

Ltac steps := steps_with other_fields.

(** ** The operations of a connection *)

Section Keys.
Context `{Allocator}.

Lemma steps_get_schedule R `{!PreOrder R} : steps R get_schedule.
Proof. unfold get_schedule. steps. Qed.

Lemma steps_get_suite R `{!PreOrder R} : steps R get_suite.
Proof. unfold get_suite. steps. Qed.

Hint Extern 1 (steps _ get_schedule) => apply steps_get_schedule, _ : steps.
Hint Extern 1 (steps _ get_suite) => apply steps_get_suite, _ : steps.

Lemma on_tp_continues is_enc f t : continues t (on_tp is_enc f t).
Proof. unfold on_tp. destruct is_enc; by apply continues_other. Qed.

Lemma steps_on_tp is_enc f : steps continues (modify (on_tp is_enc f)).
Proof. apply steps_modify. intros t. apply on_tp_continues. Qed.

Hint Resolve steps_on_tp : steps.

Lemma steps_setup is_enc label ep sq skip : steps continues (setup_traffic_protection is_enc label ep sq skip).
Proof.
  unfold setup_traffic_protection. steps.
Qed.

Hint Resolve steps_setup : steps.

Lemma steps_commission : steps continues commission_handshake_secret.
Proof. unfold commission_handshake_secret. steps. Qed.

Lemma steps_exporter is_early : steps continues (derive_exporter_secret is_early).
Proof. unfold derive_exporter_secret. destruct is_early; steps. Qed.

Lemma steps_update_hash msg : steps continues (update_hash msg).
Proof.
  intros t. unfold update_hash, get_schedule. rewrite !M_bind_run. cbn [gets]. destruct (key_schedule t) as [s|] eqn:E; [|reflexivity].
  cbn. split; try done.
  - intros s0 [= <-]%(eq_trans (eq_sym E)). exists (ptls__key_schedule_update_hash msg false s).
    unfold algo0, slot0, ptls__key_schedule_update_hash. destruct s as [g k [|[a x o] l]]; cbn; [by exists []|by exists msg].
  - intros (s0 & [= <-]%(eq_trans (eq_sym E)) & Hh). eexists. split; [done|]. by destruct s as [g k [|[a x o] l]].
Qed.

(** An operation of the key schedule that does not touch the hashes. *)
Lemma steps_sched_op {A} (m : M ptls_key_schedule_t A) : steps (λ s s', hashes s' = hashes s) m -> steps continues (sched_op m).
Proof.
  intros Hm t. unfold sched_op, get_schedule. rewrite !M_bind_run. cbn [gets]. destruct (key_schedule t) as [s|] eqn:E; [|reflexivity].
  cbn. specialize (Hm s). destruct (m s) as [r s']. cbn in Hm. rewrite M_bind_run. cbn. split; try done.
  - intros s0 [= <-]%(eq_trans (eq_sym E)). exists s', []. unfold algo0, slot0. by rewrite Hm, app_nil_r.
  - intros (s0 & [= <-]%(eq_trans (eq_sym E)) & Hh). exists s'. split; [done|]. by rewrite Hm.
Qed.

Lemma steps_extract ikm : steps continues (sched_op (key_schedule_extract ikm)).
Proof.
  apply steps_sched_op. assert (PreOrder (λ s s' : ptls_key_schedule_t, hashes s' = hashes s)) by (split; red; intros; congruence).
  unfold key_schedule_extract. steps.
Qed.

Lemma steps_verify_finished message : steps continues (verify_finished message).
Proof. unfold verify_finished. steps. Qed.

Lemma steps_update_key stack message : steps continues (handle_key_update stack message).
Proof. unfold handle_key_update, do_update_traffic_key. steps. Qed.

End Keys.

#[export] Hint Extern 1 (steps _ get_schedule) => apply steps_get_schedule, _ : steps.
#[export] Hint Extern 1 (steps _ get_suite) => apply steps_get_suite, _ : steps.
#[export] Hint Resolve steps_on_tp steps_setup steps_commission steps_exporter steps_update_hash
  steps_extract steps_verify_finished steps_update_key : steps.

(** ** Proofs of possession *)

(** The peer has proved to be who it claims to be: the verifier accepted a chain in that name, and (unless it asked for no signature)
    the signature of a CertificateVerify, in the role [label], over the hash of the transcript up to that message. *)
Definition proves (v : ptls_verify_certificate_t) (name : option bytes) (label : bytes) (t : ptls_t) : Prop :=
  exists certs cb, certs <> [] /\ verify_cb v name certs = Ok cb /\
  forall f, cb = Some f ->
  exists s tr m rest algo src signature,
    key_schedule t = Some s /\ slot_ctx (slot0 s) = tr ++ m ++ rest /\
    ptls_decode16 (drop (Z.to_nat PTLS_HANDSHAKE_HEADER_SIZE) m) = Ok (algo, src) /\
    ptls_decode_block 2 (λ b, Ok (b, [])) src = Ok signature /\
    f algo (replicate 64 32 ++ label ++ [0] ++ digest (algo0 s) tr) signature = 0.

(** What the verifier of signatures answers is 0 or an error, not a code by which the handshake goes on. *)
Definition decisive (v : ptls_verify_certificate_t) : Prop :=
  forall name certs f algo content signature,
  verify_cb v name certs = Ok (Some f) -> goes_on (f algo content signature) = true -> f algo content signature = 0.

Lemma proves_extends v name label t t' : extends_transcript t t' -> proves v name label t -> proves v name label t'.
Proof.
  intros Ht (certs & cb & Hc & Hv & Hf). exists certs, cb. split; [done|]. split; [done|]. intros f E.
  destruct (Hf f E) as (s & tr & m & rest & algo & src & sg & Hs & Hx & Hd & Hb & Hok). destruct (Ht s Hs) as (s' & y & Hs' & Ha & Hy).
  exists s', tr, m, (rest ++ y), algo, src, sg. split; [done|]. split; [by rewrite Hy, Hx, <- !app_assoc|]. by rewrite Ha.
Qed.

(** Everything but the callback of the signature, which is called once. *)
Definition but_callback (t t' : ptls_t) : Prop := continues (set_certificate_verify None t) t'.

(** The signature is about the transcript up to this message, which the transcript has then. *)
Lemma certificate_verify_proves `{Allocator} v name label certs message t r t' :
  decisive v -> has_transcript t -> certs <> [] -> verify_cb v name certs = Ok (certificate_verify t) ->
  handle_certificate_verify message label t = (r, t') -> goes_on (code r) = true ->
  match r with Ok _ => proves v name label t' /\ but_callback t t' | Err _ => t' = t end.
Proof.
  intros Hd Hh Hc Hv. unfold handle_certificate_verify. rewrite !M_bind_run. cbn [lift].
  destruct (ptls_decode16 _) as [[algo src]|e] eqn:Ed; cbn [lift]; [|by intros [= <- <-]]. rewrite M_bind_run. cbn [lift].
  destruct (ptls_decode_block _ _ _) as [sg|e] eqn:Eb; cbn [lift]; [|by intros [= <- <-]]. rewrite M_bind_run.
  destruct Hh as (s & Es & Hh). unfold get_schedule. rewrite M_bind_run. cbn [gets]. rewrite Es. cbn [mret M_ret]. rewrite M_bind_run. cbn [gets].
  rewrite M_bind_run. cbn [modify]. rewrite M_bind_run.
  set (ret := match certificate_verify t with Some _ => _ | None => _ end).
  assert (goes_on ret = true -> ret = 0) as Hret.
  { unfold ret. destruct (certificate_verify t) as [f|] eqn:E; [|done]. by apply (Hd _ _ _ _ _ _ Hv). }
  destruct (Z.eqb_spec ret 0) as [E|E]; cbn [guard_err lift]; [|intros [= <- <-]; cbn [code]; naive_solver].
  set (t1 := set_certificate_verify None t). intros Er Hg. pose proof (steps_update_hash message t1) as Hc1. rewrite Er in Hc1.
  revert Er. unfold update_hash, get_schedule. rewrite !M_bind_run. cbn [gets]. change (key_schedule t1) with (key_schedule t). rewrite Es.
  cbn [mret M_ret modify]. intros [= <- <-]. split; [|done].
  exists certs, (certificate_verify t). split; [done|]. split; [done|]. intros f Ef. unfold ret in E. rewrite Ef in E.
  destruct s as [g k [|[a x o] l]]; [done|].
  exists (ptls__key_schedule_update_hash message false (mkSched g k (mkSlot a x o :: l))), x, message, [], algo, src, sg.
  split; [done|]. split; [cbn; by rewrite app_nil_r|]. done.
Qed.

(** ** Emitting *)

(** What the code relies on in what writes the messages out: it changes the connection only as [continues] allows (it seals
    with the sending key and advances its counter). *)
Class Emitter (em : ptls_message_emitter_t) : Prop := {
  steps_em_begin : steps (of_tls continues) (em_begin em);
  steps_em_commit start : steps (of_tls continues) (em_commit em start);
}.

#[export] Hint Resolve steps_em_begin steps_em_commit : steps.

Section Emit.
Context `{Allocator}.

Lemma steps_record_op {A} (m : M rec_env A) : steps (of_tls continues) (record_op m).
Proof. intros c. unfold record_op, of_tls. destruct (m _) as [r e]. by apply continues_other. Qed.

#[export] Instance record_emitter_steps : Emitter record_emitter.
Proof. split; intros; apply steps_record_op. Qed.

#[export] Instance raw_emitter_steps : Emitter raw_emitter.
Proof.
  split; [apply steps_gets, _|]. intros start. cbn [em_commit raw_emitter]. unfold commit_raw_message. steps.
Qed.

Context (em : ptls_message_emitter_t) `{!Emitter em}.

Lemma steps_push_message hashed type block : steps (of_tls continues) block -> steps (of_tls continues) (ptls_push_message em hashed type block).
Proof. intros Hb. unfold ptls_push_message, ptls_buffer_push_message_body, ptls_buffer_push, ptls_buffer_pushv. steps; auto with steps. Qed.

Lemma steps_send_finished : steps (of_tls continues) (send_finished em).
Proof. unfold send_finished. steps. apply steps_push_message. steps. Qed.

Lemma steps_certificate_message context certs ocsp : steps (of_tls continues) (ptls_build_certificate_message (S:=conn) context certs ocsp).
Proof. unfold ptls_build_certificate_message, push_certificate, buffer_push_extension, ptls_buffer_push, ptls_buffer_push16, ptls_buffer_pushv. steps. Qed.

Lemma steps_send_certificate_verify algos label : steps (of_tls continues) (send_certificate_verify em algos label).
Proof.
  unfold send_certificate_verify. steps. apply steps_push_message. unfold ptls_buffer_push16, ptls_buffer_pushv. steps.
Qed.

(** What a callback of the application that sends certificates must do: it writes messages, as the code does. *)
Definition writes_certificates (emit : option (bytes -> bool -> list Z -> M conn unit)) : Prop :=
  forall cb context status algos, emit = Some cb -> steps (of_tls continues) (cb context status algos).

Lemma steps_send_certificate emit algos context status compress :
  writes_certificates emit -> steps (of_tls continues) (send_certificate em emit algos context status compress).
Proof.
  intros Hw. unfold send_certificate, default_emit_certificate_cb. pose proof steps_push_message. pose proof steps_certificate_message.
  destruct emit as [cb|]; [pose proof (Hw cb context status compress eq_refl)|]; steps; auto.
Qed.

End Emit.

#[export] Hint Extern 1 (steps _ (mret _)) => apply steps_ret, _ : steps.
#[export] Hint Resolve steps_push_message steps_send_finished steps_certificate_message steps_send_certificate_verify : steps.
