(* ===== verification/CertCompress.v ===== *)
(** * CertCompress: precompressed certificates ([lib/certificate_compression.c])

    A server may prepare its chain once, compressed with Brotli (a library, two parameters here), as the
    callback that sends certificates; a client that gives the decompressor to its context receives the
    chain from the CompressedCertificate message. *)

From S2P Require Import Prelude Constants Wire Buffer Extensions Crypto KeySchedule Tls Record Emit Negotiate Hpke ClientHello HelloFormat HelloDecode Receive Conn Export Ticket ServerHello Cookie Certificate Steps.

(* src include/zpicotls/certificate_compression.h:32 PTLS_CERTIFICATE_COMPRESSION_ALGORITHM_BROTLI *)
Definition PTLS_CERTIFICATE_COMPRESSION_ALGORITHM_BROTLI : Z := 2.

(* src include/zpicotls/certificate_compression.h:37-40 st_ptls_compressed_certificate_entry_t *)
Record st_ptls_compressed_certificate_entry_t := mkEntry { uncompressed_length : Z; entry_bytes : bytes }.

(* src include/zpicotls/certificate_compression.h:34-41 ptls_emit_compressed_certificate_t *)
Record ptls_emit_compressed_certificate_t := mkCompressed
  { with_ocsp_status : st_ptls_compressed_certificate_entry_t; without_ocsp_status : st_ptls_compressed_certificate_entry_t }.

Definition no_entry : st_ptls_compressed_certificate_entry_t := mkEntry 0 [].

(** Brotli: what the encoder writes into the given number of bytes, and the decoder; [None] for failure. *)
Class Brotli := {
  BrotliEncoderCompress : bytes -> Z -> option bytes;
  BrotliDecoderDecompress : bytes -> Z -> option bytes;
  brotli_fits : forall m n z, BrotliEncoderCompress m n = Some z -> len z <= n;
  brotli_roundtrip : forall m n z, BrotliEncoderCompress m n = Some z -> BrotliDecoderDecompress z (len m) = Some m;
}.

Section Compression.
Context `{Allocator} `{Brotli}.

(** The bytes written to [output], of [size] bytes. *)
(* src lib/certificate_compression.c:28-44 decompress_certificate *)
Definition decompress_brotli (algorithm size : Z) (input : bytes) : result bytes :=
  _ ← guard_err (algorithm =? PTLS_CERTIFICATE_COMPRESSION_ALGORITHM_BROTLI) PTLS_ALERT_BAD_CERTIFICATE;
  match BrotliDecoderDecompress input size with
  | None => Err PTLS_ALERT_BAD_CERTIFICATE
  | Some output => _ ← guard_err (len output =? size) PTLS_ALERT_BAD_CERTIFICATE; Ok output
  end.

(* src lib/certificate_compression.c:46-48 ptls_decompress_certificate *)
Definition ptls_decompress_certificate : ptls_decompress_certificate_t :=
  mkDecompress [PTLS_CERTIFICATE_COMPRESSION_ALGORITHM_BROTLI] decompress_brotli.

(** The body of the message of an entry. *)
(* src lib/certificate_compression.c:73-77 entry *)
Definition push_entry {S} `{HasBuffer S} (entry : st_ptls_compressed_certificate_entry_t) : M S unit :=
  _ ← ptls_buffer_push16 PTLS_CERTIFICATE_COMPRESSION_ALGORITHM_BROTLI;
  _ ← ptls_buffer_push24 (uncompressed_length entry);
  ptls_buffer_push_block 3 (ptls_buffer_pushv (entry_bytes entry)).

(* src lib/certificate_compression.c:69-71 entry *)
Definition select_entry (self : ptls_emit_compressed_certificate_t) (push_status_request : bool) : st_ptls_compressed_certificate_entry_t :=
  if push_status_request && negb (uncompressed_length (with_ocsp_status self) =? 0) then with_ocsp_status self else without_ocsp_status self.

(* src lib/certificate_compression.c:50-83 emit_compressed_certificate *)
Definition emit_compressed_certificate (em : ptls_message_emitter_t) (self : ptls_emit_compressed_certificate_t) (context : bytes)
    (push_status_request : bool) (compress_algos : list Z) : M conn unit :=
  _ ← lift (guard_err (len context =? 0) ABORTED);
  if negb (existsb (Z.eqb PTLS_CERTIFICATE_COMPRESSION_ALGORITHM_BROTLI) compress_algos) then fail PTLS_ERROR_DELEGATE else
  ptls_push_message em true PTLS_HANDSHAKE_TYPE_COMPRESSED_CERTIFICATE (push_entry (select_entry self push_status_request)).

(** The buffer starts on a string literal of no bytes, at some address. *)
(* src lib/certificate_compression.c:85-120 build_compressed *)
Definition build_compressed (certificates : list bytes) (ocsp_status : bytes) : result st_ptls_compressed_certificate_entry_t :=
  let '(r, uncompressed) := ptls_build_certificate_message [] certificates ocsp_status (ptls_buffer_init_tx 64 []) in
  _ ← r;
  let n := off uncompressed - 1 in
  match malloc n with
  | None => Err PTLS_ERROR_NO_MEMORY
  | Some _ =>
      match BrotliEncoderCompress (contents uncompressed) n with
      | None => Err PTLS_ERROR_COMPRESSION_FAILURE
      | Some z => Ok (mkEntry (u32 (off uncompressed)) z)
      end
  end.

(* src lib/certificate_compression.c:122-143 ptls_init_compressed_certificate *)
Definition ptls_init_compressed_certificate (certificates : list bytes) (ocsp_status : bytes) : result ptls_emit_compressed_certificate_t :=
  without ← build_compressed certificates [];
  with_ocsp ← (if negb (len ocsp_status =? 0) then build_compressed certificates ocsp_status else Ok no_entry);
  Ok (mkCompressed with_ocsp without).

(** ** The chain arrives *)

(** What an entry stands for: a Certificate message, compressed. *)
Definition entry_of (m : bytes) (entry : st_ptls_compressed_certificate_entry_t) : Prop :=
  uncompressed_length entry = len m /\ len (entry_bytes entry) < len m /\ BrotliDecoderDecompress (entry_bytes entry) (len m) = Some m.

Lemma cert_body_len certs ocsp : len (cert_body [] certs ocsp) = 4 + len (cert_entries certs ocsp).
Proof. unfold cert_body. rewrite len_app, len_block3. change (len (block1 [])) with 1. lia. Qed.

Lemma build_compressed_entry certs ocsp entry :
  Forall (λ c, len c < 2 ^ 24) certs -> len ocsp < 65000 -> len (cert_entries certs ocsp) < 2 ^ 24 ->
  build_compressed certs ocsp = Ok entry -> entry_of (cert_body [] certs ocsp) entry.
Proof.
  intros Hc Ho Hl Hb. unfold build_compressed in Hb.
  assert (buf_wf (ptls_buffer_init_tx 64 [])) as Hw by (apply buffer_init_wf; [lia|vm_compute; discriminate|by right]).
  destruct (writes_certificate_message (S := ptls_buffer_t) [] certs ocsp ltac:(done) Hc Ho Hl 0 (ptls_buffer_init_tx 64 []) Hw eq_refl eq_refl)
    as [(Hw' & _ & Hout) _].
  destruct (ptls_build_certificate_message _ _ _ _) as [[[]|e] b]; [|done]. cbn [fst snd mbind result_bind] in *. destruct Hout as [_ Hout].
  change (contents b = cert_body [] certs ocsp) in Hout. pose proof (contents_len b Hw') as Hoff. rewrite Hout, cert_body_len in Hoff.
  pose proof (len_nonneg (cert_entries certs ocsp)).
  destruct (malloc _); [|done]. destruct (BrotliEncoderCompress _ _) as [z|] eqn:Ez; [|done]. injection Hb as <-. rewrite Hout in Ez.
  split; cbn [uncompressed_length entry_bytes].
  - rewrite u32_small, cert_body_len by lia. by rewrite Hoff.
  - split; [|by eapply brotli_roundtrip]. apply brotli_fits in Ez. rewrite cert_body_len. lia.
Qed.

Lemma writes_push24 {S} `{HasBuffer S} t v : writes (S := S) t (ptls_buffer_push24 v) (bytes24 v).
Proof. apply writes_pushv. Qed.

Definition entry_body (entry : st_ptls_compressed_certificate_entry_t) : bytes :=
  bytes16 PTLS_CERTIFICATE_COMPRESSION_ALGORITHM_BROTLI ++ bytes24 (uncompressed_length entry) ++ block3 (entry_bytes entry).

Lemma writes_push_entry {S} `{HasBuffer S} t entry : len (entry_bytes entry) < 2 ^ 24 -> writes (S := S) t (push_entry entry) (entry_body entry).
Proof.
  intros Hl. apply writes_seq; [apply writes_push16|]. apply writes_seq; [apply writes_push24|]. intros o. apply writes_block3; [done|apply writes_pushv].
Qed.

(** The client's handler sees the message that was compressed. *)
Lemma handle_compressed_entry entry m header (t : ptls_t) :
  decompress_certificate (ctx t) = Some ptls_decompress_certificate -> entry_of m entry -> len m <= 65536 -> length header = 4%nat ->
  is_Some (malloc (len m)) ->
  do_client_handle_compressed_certificate (header ++ entry_body entry) t =
  (_ ← client_do_handle_certificate m;
   _ ← update_hash (header ++ entry_body entry);
   _ ← modify (set_state PTLS_STATE_CLIENT_EXPECT_CERTIFICATE_VERIFY);
   fail PTLS_ERROR_IN_PROGRESS) t.
Proof.
  intros Hd (Hu & Hz & Hr) Hm Hh [mm Hmal]. pose proof (len_nonneg m). pose proof (len_nonneg (entry_bytes entry)).
  set (msg := header ++ entry_body entry).
  assert (drop (Z.to_nat PTLS_HANDSHAKE_HEADER_SIZE) msg = entry_body entry) as Hdrop by (unfold msg; by apply drop_app_length').
  assert (ptls_decode_block 3 (λ b, x ← decompress_cb ptls_decompress_certificate PTLS_CERTIFICATE_COMPRESSION_ALGORITHM_BROTLI (len m) b; Ok (x, []))
            (block3 (entry_bytes entry)) = Ok m) as Hblock.
  { apply (block_ok 3 _ (entry_bytes entry) m); [lia|lia|]. cbn [decompress_cb ptls_decompress_certificate]. unfold decompress_brotli.
    cbn [guard_err Z.eqb mbind result_bind]. by rewrite Hr, Z.eqb_refl. }
  unfold do_client_handle_compressed_certificate. rewrite M_bind_run. cbn [gets]. rewrite Hd, Hdrop. unfold entry_body.
  rewrite M_bind_run. cbn [lift]. rewrite decode16_push16 by done. cbv beta iota. rewrite M_bind_run. cbn [lift].
  rewrite decode24_push24 by lia. cbv beta iota. rewrite Hu. rewrite M_bind_run. cbn [lift]. rewrite (proj2 (Z.leb_le _ _)) by done. cbn [guard_err].
  rewrite M_bind_run. cbn [lift]. rewrite Hmal. cbn [is_some_or]. rewrite M_bind_run. cbn [lift]. by rewrite Hblock.
Qed.

(** The chain that an entry stands for makes the verifier be called on it. *)
Lemma client_handle_chain certs ocsp (t : ptls_t) v :
  certs <> [] -> Forall (λ c, len c < 2 ^ 24) certs -> len ocsp < 65000 -> len (cert_entries certs ocsp) < 2 ^ 24 ->
  quiet (ctx t) PTLS_HANDSHAKE_TYPE_CERTIFICATE -> verify_certificate (ctx t) = Some v ->
  client_do_handle_certificate (cert_body [] certs ocsp) t =
  match verify_cb v (name_to_verify t) (take (Z.to_nat MAX_CERTS) certs) with
  | Ok cb => (Ok (), set_certificate_verify cb t)
  | Err e => (Err e, t)
  end.
Proof.
  intros Hne Hc Ho Hl Hq Hv. unfold client_do_handle_certificate. rewrite M_bind_run. unfold handle_certificate. rewrite M_bind_run. cbn [gets id]. rewrite M_bind_run. cbn [lift].
  rewrite decode_certificates_chain by done. cbn [lift]. rewrite M_bind_run, Hv, M_bind_run. cbn [lift].
  destruct (verify_cb v _ _) as [cb|e]; [|done]. by destruct certs.
Qed.

(** The status is of a reasonable size, and the chain fits what a client accepts. *)
Definition chain_fits (certs : list bytes) (ocsp : bytes) : Prop :=
  certs <> [] /\ Forall (λ c, len c < 2 ^ 24) certs /\ len ocsp < 65000 /\ len (cert_body [] certs ocsp) <= 65536.

Lemma chain_fits_entries certs ocsp : chain_fits certs ocsp -> len (cert_entries certs ocsp) < 2 ^ 24.
Proof. intros (_ & _ & _ & Hl). rewrite cert_body_len in Hl. lia. Qed.

(** The entry that is selected stands for the chain, with the status if it was asked for and there is one. *)
Lemma select_entry_of certs ocsp self (status : bool) :
  chain_fits certs [] -> chain_fits certs ocsp -> ptls_init_compressed_certificate certs ocsp = Ok self ->
  entry_of (cert_body [] certs (if status then ocsp else [])) (select_entry self status).
Proof.
  intros F0 F1 Hi. unfold ptls_init_compressed_certificate in Hi. inv_ok. rename a into without, a0 into with_ocsp.
  pose proof (chain_fits_entries _ _ F0) as Hl0. pose proof (chain_fits_entries _ _ F1) as Hl1. destruct F0 as (_ & Hc & _ & _), F1 as (_ & _ & Ho & _).
  assert (entry_of (cert_body [] certs []) without) as He by (eapply build_compressed_entry; done).
  unfold select_entry. cbn [with_ocsp_status without_ocsp_status]. destruct status; cbn [andb]; [|done].
  destruct (Z.eqb_spec (len ocsp) 0) as [E|E]; cbn [negb] in Ha0.
  - injection Ha0 as <-. cbn. apply len_zero in E as ->. done.
  - apply build_compressed_entry in Ha0; try done. destruct Ha0 as (Hu & Hx). rewrite Hu, cert_body_len.
    pose proof (len_nonneg (cert_entries certs ocsp)). rewrite (proj2 (Z.eqb_neq _ _)) by lia. cbn [negb]. split; [by rewrite Hu, cert_body_len|done].
Qed.
End Compression.

(** C34: a precompressed chain arrives.  After [ptls_init_compressed_certificate] has built the entries of a
    chain (with an OCSP status or without), when the client offers Brotli the callback sends a
    CompressedCertificate message whose body, unless memory runs out, makes the client's handler call the
    application's verifier on exactly the chain (the first 16 certificates) and, if it agrees, go on to
    expect CertificateVerify, as with an uncompressed chain; when the client does not offer Brotli, the
    callback asks for the default. *)
Theorem compressed_certificate_roundtrip `{Allocator} `{Brotli} {St : Type} `{HasBuffer St} em certs ocsp self status algos (t : ptls_t) v (s : St) header :
  chain_fits certs [] -> chain_fits certs ocsp -> ptls_init_compressed_certificate certs ocsp = Ok self ->
  decompress_certificate (ctx t) = Some ptls_decompress_certificate -> quiet (ctx t) PTLS_HANDSHAKE_TYPE_CERTIFICATE ->
  verify_certificate (ctx t) = Some v -> (forall n, 0 <= n <= 65536 -> is_Some (malloc n)) ->
  buf_wf (get_buf s) -> tx (get_buf s) = 1 -> length header = 4%nat ->
  emit_compressed_certificate em self [] status algos =
    (if existsb (Z.eqb PTLS_CERTIFICATE_COMPRESSION_ALGORITHM_BROTLI) algos
     then ptls_push_message em true PTLS_HANDSHAKE_TYPE_COMPRESSED_CERTIFICATE (push_entry (select_entry self status))
     else fail PTLS_ERROR_DELEGATE) /\
  match push_entry (select_entry self status) s with
  | (Err e, _) => e = PTLS_ERROR_NO_MEMORY
  | (Ok _, s') =>
      exists body, contents (get_buf s') = contents (get_buf s) ++ body /\
      do_client_handle_compressed_certificate (header ++ body) t =
      match verify_cb v (name_to_verify t) (take (Z.to_nat MAX_CERTS) certs) with
      | Ok cb => (_ ← update_hash (header ++ body);
                  _ ← modify (set_state PTLS_STATE_CLIENT_EXPECT_CERTIFICATE_VERIFY);
                  fail PTLS_ERROR_IN_PROGRESS) (set_certificate_verify cb t)
      | Err e => (Err e, t)
      end
  end.
Proof.
  intros F0 F1 Hi Hd Hq Hv Hm Hw Ht Hh. split; [unfold emit_compressed_certificate; by destruct (existsb _ _)|].
  pose proof (select_entry_of certs ocsp self status F0 F1 Hi) as He. set (o := if status then ocsp else []) in *.
  assert (chain_fits certs o) as Hf by (unfold o; by destruct status).
  assert (len (cert_body [] certs o) <= 65536) as Hl by apply Hf.
  destruct (writes_push_entry (S := St) 1 (select_entry self status)) with (o := off (get_buf s)) (s := s) as [Hout _]; try done.
  { destruct He as (_ & Hz & _). lia. }
  destruct (push_entry _ s) as [[[]|e] s']; destruct Hout as (_ & _ & Hout); cbn [fst snd] in Hout.
  2:{ destruct Hout as [[->|(? & ? & _)] _]; done. }
  destruct Hout as [_ Hout]. eexists. split; [exact Hout|].
  rewrite (handle_compressed_entry (select_entry self status) (cert_body [] certs o)); try done; [|apply Hm; split; [apply len_nonneg|done]].
  rewrite M_bind_run, (client_handle_chain certs o t v); try done; try apply Hf; [|by apply chain_fits_entries].
  by destruct (verify_cb v _ _).
Qed.

(** The callback only writes messages, so the authentication of the handshake holds with it. *)
Lemma compressed_writes_certificates `{Allocator} em `{!Emitter em} self : writes_certificates (Some (emit_compressed_certificate em self)).
Proof.
  intros cb context status algos [= <-]. unfold emit_compressed_certificate. pose proof (steps_push_message em).
  unfold push_entry, ptls_buffer_push16, ptls_buffer_push24, ptls_buffer_pushv in *. steps; auto with steps. all: apply H0; steps.
Qed.

(** ** Evaluation *)

(** A compressor that drops a leading zero. *)
Definition toy_brotli : Brotli.
Proof.
  refine {| BrotliEncoderCompress := λ m n, match m with 0 :: r => if len r <=? n then Some r else None | _ => None end;
            BrotliDecoderDecompress := λ z n, if len z + 1 <=? n then Some (0 :: z) else None |}.
  - intros [|[|p|p] m] n z; try done. destruct (Z.leb_spec (len m) n); [|done]. by intros [= <-].
  - intros [|[|p|p] m] n z; try done. destruct (len m <=? n); [|done]. intros [= <-]. by rewrite len_cons, Z.add_comm, Z.leb_refl.
Defined.

Section Evaluation.
#[local] Existing Instance bump_allocator.
#[local] Existing Instance toy_brotli.

Definition toy_decompressing : ptls_t :=
  set_server_name (Some (str "example.com")) (set_ctx
    (mkCtx 0 None [toy_suite; toy_suite2] [] [] None None None None [] None [] (Some toy_sign) (Some toy_verify) 86400 8192 65536 None false false
       false false false false false false None None None (Some ptls_decompress_certificate) None None [] 0 0 0) (toy_tls false)).

Definition toy_compressed : ptls_emit_compressed_certificate_t :=
  Eval vm_compute in match ptls_init_compressed_certificate [[1; 2; 3]; [4]] [9] with Ok self => self | Err _ => mkCompressed no_entry no_entry end.

Lemma toy_compressed_ok : ptls_init_compressed_certificate [[1; 2; 3]; [4]] [9] = Ok toy_compressed.
Proof. vm_compute. reflexivity. Qed.

Lemma compressed_certificate_roundtrip_witness :
  exists body, do_client_handle_compressed_certificate ([25; 0; 0; 0] ++ body) toy_decompressing =
    (_ ← update_hash ([25; 0; 0; 0] ++ body);
     _ ← modify (set_state PTLS_STATE_CLIENT_EXPECT_CERTIFICATE_VERIFY);
     fail PTLS_ERROR_IN_PROGRESS) (set_certificate_verify (Some toy_check) toy_decompressing).
Proof.
  assert (forall o, len o < 65000 -> len (cert_body [] [[1; 2; 3]; [4]] o) <= 65536 -> chain_fits [[1; 2; 3]; [4]] o) as Hf.
  { intros o Ho Hl. split; [discriminate|]. split; [apply Forall_cons; split; [reflexivity|apply Forall_singleton; reflexivity]|]. split; assumption. }
  assert (is_ok (push_entry (S := ptls_buffer_t) (select_entry toy_compressed true) (ptls_buffer_init 64 [0; 0; 0; 0] 1)).1 = true) as Hok
    by (vm_compute; reflexivity).
  destruct (compressed_certificate_roundtrip (St := ptls_buffer_t) record_emitter [[1; 2; 3]; [4]] [9] toy_compressed true [2] toy_decompressing toy_verify
    (ptls_buffer_init 64 [0; 0; 0; 0] 1) [25; 0; 0; 0] (Hf [] eq_refl ltac:(vm_compute; discriminate)) (Hf [9] eq_refl ltac:(vm_compute; discriminate))
    toy_compressed_ok eq_refl ltac:(intros cb; discriminate) eq_refl
    ltac:(intros n Hn; cbn; destruct (Z.leb_spec 0 n); [eexists; reflexivity|lia]) bump_push_witness_wf eq_refl eq_refl) as [_ Hc].
  revert Hc Hok. destruct (push_entry _ _) as [[[]|e] s']; intros Hc Hok; [|discriminate].
  destruct Hc as (body & _ & Hc). exists body. rewrite Hc. reflexivity.
Defined.
End Evaluation.
