(* ===== verification/Client.v ===== *)
(** * Client: the client's side of the negotiation ([lib/picotls.c])

    The ClientHello of the first and of the second flight, and the handlers of ServerHello, HelloRetryRequest,
    EncryptedExtensions and Finished: how the client goes from one state to the next. *)

From S2P Require Import Prelude Constants Wire Buffer Extensions Crypto KeySchedule Tls Record Emit Negotiate Hpke ClientHello HelloFormat HelloDecode Receive Conn Ech EchMessage Export Handshake Ticket ServerHello Cookie Psk Certificate.

(** What the code asks of the outside: whether a name is an address (the resolver of the C library), the callback that
    sends certificates, what [random_bytes] writes ([inner_random] in [client_setup_ech], [grease_draws] in [client_setup_ech_grease],
    [hello_draws] in each of the three messages), what an uninitialised array on the stack holds. *)
Record client_env := mkClientEnv {
  is_ipaddr : bytes -> bool;
  emit_certificate : option (bytes -> bool -> list Z -> M conn unit);
  inner_random : bytes;
  grease_draws : draws;
  hello_draws : encode_ch_mode -> draws;
  stack : bytes;
}.

Definition on_props (f : ptls_handshake_properties_t -> ptls_handshake_properties_t) (c : conn) : conn :=
  mkConn (cn_tls c) (cn_send c) (cn_epoch_offsets c) (f <$> cn_properties c).

(** An operation of [tls->ech]. *)
Definition ech_op {A} (m : M st_ptls_ech_t A) : M conn A :=
  tls_op (λ t, let '(r, e) := m (Tls.ech t) in (r, set_ech e t)).

(** The name that goes into the message: no address does. *)
(* src lib/picotls.c:2439-2440 sni_name *)
Definition sni_of (env : client_env) (t : ptls_t) : option bytes :=
  match server_name t with
  | Some n => if is_ipaddr env (c_string n) then None else Some n
  | None => None
  end.

(** A pre-shared key to offer; [po_secret] is [None] for a NULL pointer. *)
(* src lib/picotls.c:2425-2430 psk *)
Record psk_offer := mkOffer { po_secret : option bytes; po_identity : bytes; po_label : bytes; po_age : Z }.

Definition no_offer : psk_offer := mkOffer None [] [] 0.

Section SendHello.
Context `{Allocator} (env : client_env) (em : ptls_message_emitter_t).

(* src lib/picotls.c:1995-2018 push_change_cipher_spec *)
Definition push_change_cipher_spec : M conn unit :=
  needed ← gets (λ c, send_change_cipher_spec (cn_tls c));
  when needed
    (_ ← lift (guard_err (em_records em) PTLS_ALERT_UNEXPECTED_MESSAGE);
     _ ← buffer_push_record PTLS_CONTENT_TYPE_CHANGE_CIPHER_SPEC (ptls_buffer_push [1]);
     modify (on_tls (set_send_change_cipher_spec false))).

(** A list of configurations that is broken, or has none to use, is ignored; an empty one asks for GREASE. *)
(* src lib/picotls.c:2442-2459 client_setup_ech_grease *)
Definition offer_ech (is_second_flight : bool) (sni_name : option bytes) : M conn unit :=
  c ← gets id;
  let ct := ctx (cn_tls c) in
  match cn_properties c, sni_name, ech_client_ciphers ct with
  | Some pr, Some name, Some ciphers =>
      if is_second_flight then mret ()
      else
        match ech_configs pr with
        | None => mret ()
        | Some [] => ech_op (modify (λ e, set_ech_state PTLS_ECH_STATE_GREASE
                       (client_setup_ech_grease (ech_client_kems ct) ciphers name (grease_draws env) e)))
        | Some configs =>
            let decoded := match client_decode_ech_config_list (is_ipaddr env) ct configs with Ok d => d | Err _ => no_config end in
            match ec_kem decoded, ec_cipher decoded with
            | Some _, Some _ => ech_op (client_setup_ech decoded (inner_random env))
            | _, _ => mret ()
            end
        end
  | _, _, _ => mret ()
  end.

(** [using_early_data], with the limit written where the application looks for it. *)
(* src lib/picotls.c:2472-2475 max_early_data_size *)
Definition offer_early_data (limit : Z) : M conn unit :=
  p ← gets cn_properties;
  match p with
  | Some pr =>
      when (is_inhabited (max_early_data_ptr pr))
        (_ ← modify (on_tls (set_using_early_data true)); modify (on_props (set_max_early_data_ptr (Some limit))))
  | None => mret ()
  end.

Definition same_hash (h : option ptls_hash_algorithm_t) (s : ptls_cipher_suite_t) : bool :=
  match h with Some h => hash_id (cs_hash s) =? hash_id h | None => false end.

(** The key that the application gave to the context. *)
(* src lib/picotls.c:2461-2482 pre_shared_key *)
Definition offer_external_psk (is_second_flight : bool) : M conn psk_offer :=
  t ← gets cn_tls;
  match psk_identity (ctx t) with
  | None => mret no_offer
  | Some identity =>
      _ ← (if is_second_flight then
             lift (guard_err (match cipher_suite t with Some s => same_hash (psk_hash (ctx t)) s | None => false end) ABORTED)
           else
             _ ← modify (on_tls (set_offered_psk true));
             _ ← match List.find (same_hash (psk_hash (ctx t))) (cipher_suites (ctx t)) with
                 | Some s => modify (on_tls (set_cipher_suite (Some s)))
                 | None => mret ()
                 end;
             s ← gets (λ c, cipher_suite (cn_tls c));
             _ ← lift (guard_err (is_inhabited s) ABORTED);
             offer_early_data SIZE_MAX);
      mret (mkOffer (psk_secret (ctx t)) identity (str "ext binder") 0)
  end.

(** A ticket of an earlier connection, unless there is a key already. *)
(* src lib/picotls.c:2484-2506 decode_stored_session_ticket *)
Definition offer_ticket (is_second_flight : bool) (psk : psk_offer) : M conn psk_offer :=
  c ← gets id;
  let t := cn_tls c in
  match po_secret psk, cn_properties c, key_exchanges (ctx t) with
  | None, Some pr, Some _ =>
      match session_ticket pr with
      | None => mret psk
      | Some ticket =>
          match decode_stored_session_ticket (ctx t) ticket with
          | Err _ => mret psk
          | Ok st =>
              _ ← modify (on_tls (λ t, set_cipher_suite (Some (st_suite st))
                    (set_key_share (match key_share t with Some k => Some k | None => Some (st_key_share st) end) (set_offered_psk true t))));
              _ ← when (negb is_second_flight && negb (st_max_early_data_size st =? 0)) (offer_early_data (st_max_early_data_size st));
              mret (mkOffer (Some (st_secret st)) (st_ticket st) (str "res binder") (st_obfuscated_age st))
          end
      end
  | _, _, _ => mret psk
  end.

(* src lib/picotls.c:2508-2517 early_data_acceptance *)
Definition signal_early_data : M conn unit :=
  early ← gets (λ c, using_early_data (cn_tls c));
  modify (on_props (λ pr,
    if (early : bool) then set_early_data_acceptance PTLS_EARLY_DATA_ACCEPTANCE_UNKNOWN pr
    else set_early_data_acceptance PTLS_EARLY_DATA_REJECTED (set_max_early_data_ptr ((λ _, 0) <$> max_early_data_ptr pr) pr))).

(* src lib/picotls.c:2519-2529 key_share_ctx *)
Definition choose_key_share : M conn unit :=
  c ← gets id;
  let before := match cn_properties c with Some pr => negotiate_before_key_exchange pr | None => false end in
  _ ← match key_share (cn_tls c), key_exchanges (ctx (cn_tls c)) with
      | None, Some l => when (negb before) (modify (on_tls (set_key_share (head l))))
      | _, _ => mret ()
      end;
  t ← gets cn_tls;
  _ ← lift (guard_err (negb (is_inhabited (key_share_ctx t))) ABORTED);
  match key_share t with
  | None => mret ()
  | Some k => kc ← lift (kex_create k); modify (on_tls (set_key_share_ctx (Some kc)))
  end.

(* src lib/picotls.c:2531-2539 key_schedule_new *)
Definition start_schedule (psk : psk_offer) : M conn unit :=
  t ← gets cn_tls;
  let sched := key_schedule_new (cipher_suite t) (cipher_suites (ctx t)) (is_inhabited (ech_aead (Tls.ech t))) in
  _ ← modify (on_tls (set_key_schedule sched));
  _ ← lift (is_some_or sched PTLS_ERROR_NO_MEMORY);
  tls_op (sched_op (key_schedule_extract (po_secret psk))).

(** What the three messages have in common. *)
(* src lib/picotls.c:2546-2552 encode_client_hello *)
Definition hello_params (is_second_flight : bool) (psk : psk_offer) (cookie : option bytes) : M conn ch_params :=
  sched ← tls_op get_schedule;
  c ← gets id;
  let t := cn_tls c in
  mret (mkChParams is_second_flight (cn_properties c) (key_share_ctx t) (legacy_session_id t) (Tls.ech t) (po_secret psk)
          (po_identity psk) (po_age psk) (digest_size (algo0 sched)) cookie (using_early_data t)).

(** The hash of the outer ClientHello takes the place of that of the inner one. *)
(* src lib/picotls.c:2626-2630 hashes *)
Definition adopt_outer : M ptls_key_schedule_t unit :=
  s ← gets id;
  _ ← lift (guard_err (forallb (λ sl, is_inhabited (slot_ctx_outer sl)) (hashes s)) ABORTED);
  modify (set_hashes ((λ sl, mkSlot (slot_algo sl) (default [] (slot_ctx_outer sl)) None) <$> hashes s)).

(** The outer ClientHello in place of the inner one. *)
(* src lib/picotls.c:2564-2640 ech_payload_size *)
Definition wrap_hello (p : ch_params) (sni_name : option bytes) (binder_key : option bytes) (mess_start : Z)
    (a : ptls_aead_context_t) : M conn unit :=
  c ← gets id;
  let t := cn_tls c in
  encoded_ch_inner ← lift (encode_ch_inner (ctx t) p sni_name (hello_draws env ENCODE_CH_MODE_ENCODED_INNER)
                             (drop (Z.to_nat mess_start) (contents (cn_send c))));
  ech_size_offset ← push_outer_hello (ctx t) p (client_random t) (hello_draws env ENCODE_CH_MODE_OUTER) a mess_start encoded_ch_inner;
  _ ← when (negb (cp_second_flight p))
        (b ← gets cn_send;
         let ech_payload_size := len encoded_ch_inner - PTLS_HANDSHAKE_HEADER_SIZE + tag_size (aead_algo a) in
         let header := outer_ech_header_size (len (ech_enc (Tls.ech t))) in
         _ ← lift (is_some_or (malloc (header + ech_payload_size)) PTLS_ERROR_NO_MEMORY);
         ech_op (modify (λ e,
           (if bool_decide (ech_state e = PTLS_ECH_STATE_GREASE) then id else set_ech_state PTLS_ECH_STATE_OFFERED)
           (set_first_ech (Some (take (Z.to_nat (header + ech_payload_size)) (drop (Z.to_nat (ech_size_offset - header)) (contents b)))) e))));
  grease ← gets (λ c, bool_decide (ech_state (Tls.ech (cn_tls c)) = PTLS_ECH_STATE_GREASE));
  if (grease : bool) then
    _ ← tls_op (sched_op adopt_outer);
    _ ← ech_op (modify (set_ech_aead None));
    update_ch_hash_and_binder mess_start binder_key false
  else
    b ← gets cn_send;
    tls_op (update_hash_of true (drop (Z.to_nat mess_start) (contents b))).

(** [cookie] is [None] for a NULL pointer, [Some None] for a vector with a NULL base. *)
(* src lib/picotls.c:2422-2664 send_client_hello *)
Definition send_client_hello (cookie : option (option bytes)) : M conn unit :=
  t ← gets cn_tls;
  let is_second_flight := is_inhabited (key_schedule t) in
  let sni_name := sni_of env t in
  _ ← offer_ech is_second_flight sni_name;
  psk ← offer_external_psk is_second_flight;
  psk ← offer_ticket is_second_flight psk;
  _ ← signal_early_data;
  _ ← choose_key_share;
  _ ← when (negb is_second_flight) (start_schedule psk);
  start ← em_begin em;
  mess_start ← gets (λ c, off (cn_send c));
  p ← hello_params is_second_flight psk (mjoin cookie);
  t ← gets cn_tls;
  let e := Tls.ech t in
  _ ← encode_client_hello (ctx t) ENCODE_CH_MODE_INNER p
        (if is_inhabited (ech_aead e) then inner_client_random e else client_random t) sni_name 0 (first_ech e)
        (hello_draws env ENCODE_CH_MODE_INNER);
  binder_key ← match po_secret psk with
               | None => mret None
               | Some _ => sched ← tls_op get_schedule; k ← lift (derive_secret_with_empty_digest sched (po_label psk)); mret (Some k)
               end;
  _ ← update_ch_hash_and_binder mess_start binder_key false;
  _ ← match ech_aead e with
      | None => mret ()
      | Some a => wrap_hello p sni_name binder_key mess_start a
      end;
  _ ← em_commit em start;
  early ← gets (λ c, using_early_data (cn_tls c));
  _ ← when early
        (_ ← lift (guard_err (negb is_second_flight) ABORTED);
         _ ← tls_op (setup_traffic_protection true (Some (str "c e traffic")) 1 0 false);
         push_change_cipher_spec);
  _ ← when (is_inhabited (po_secret psk) && negb is_second_flight) (tls_op (derive_exporter_secret true));
  _ ← modify (on_tls (set_state (if is_inhabited cookie then PTLS_STATE_CLIENT_EXPECT_SECOND_SERVER_HELLO
                                 else PTLS_STATE_CLIENT_EXPECT_SERVER_HELLO)));
  fail PTLS_ERROR_IN_PROGRESS.

End SendHello.

(** ** The answer of the server *)

(* src lib/picotls.c:1276 ECH_CONFIRMATION_SERVER_HELLO *)
Definition ECH_CONFIRMATION_SERVER_HELLO : bytes := str "ech accept confirmation".
(* src lib/picotls.c:1277 ECH_CONFIRMATION_HRR *)
Definition ECH_CONFIRMATION_HRR : bytes := str "hrr ech accept confirmation".

Section Hello.
Context `{Allocator} (env : client_env) (em : ptls_message_emitter_t).

(* src lib/picotls.c:2826-2868 handle_hello_retry_request *)
Definition handle_hello_retry_request (sh : st_ptls_server_hello_t) : M conn unit :=
  _ ← modify (on_tls (set_key_share_ctx None));
  t ← gets cn_tls;
  _ ← when (using_early_data t)
        (_ ← when (negb (is_inhabited (update_traffic_key (ctx t))))
               (_ ← lift (guard_err (is_inhabited (aead (enc t))) ABORTED); modify (on_tls (on_tp true (set_aead None))));
         modify (on_tls (set_using_early_data false)));
  _ ← (if negb (selected_group sh =? UINT16_MAX) then
         l ← lift (is_some_or (key_exchanges (ctx t)) ABORTED);
         k ← lift (is_some_or (find_key_exchange l (selected_group sh)) PTLS_ALERT_ILLEGAL_PARAMETER);
         modify (on_tls (set_key_share (Some k)))
       else lift (guard_err (is_inhabited (key_share t)) PTLS_ALERT_ILLEGAL_PARAMETER));
  send_client_hello env em (Some (retry_cookie sh)).

(** [confirm_hash_off] is 0 when there is no confirmation.  The bytes of the message are zeroed while the expected value is
    computed, and put back. *)
(* src lib/picotls.c:2870-2905 client_ech_select_hello *)
Definition client_ech_select_hello (message : bytes) (confirm_hash_off : Z) (label : bytes) : M ptls_t unit :=
  let reject := _ ← modify (λ t, set_ech (set_ech_aead None (Tls.ech t)) t); sched_op key_schedule_select_outer in
  if confirm_hash_off =? 0 then reject
  else
    let delivered := take (Z.to_nat PTLS_ECH_CONFIRM_LENGTH) (drop (Z.to_nat confirm_hash_off) message) in
    let zeroed := mem_write message confirm_hash_off (replicate (Z.to_nat PTLS_ECH_CONFIRM_LENGTH) 0) in
    sched ← get_schedule;
    e ← gets Tls.ech;
    expected ← lift (ech_calc_confirmation sched (inner_client_random e) label zeroed);
    if mem_equal delivered expected then modify (set_ech (set_ech_state PTLS_ECH_STATE_ACCEPTED e))
    else if bool_decide (ech_state e = PTLS_ECH_STATE_ACCEPTED) then fail PTLS_ALERT_ILLEGAL_PARAMETER
    else reject.

(** [ech.aead] is there, and the confirmation is looked for unless the offer was GREASE. *)
(* src lib/picotls.c:2944-2952 confirm_hash_off *)
Definition select_hello (message : bytes) (confirm_hash_off : Z) (label : bytes) : M ptls_t unit :=
  e ← gets Tls.ech;
  when (is_inhabited (ech_aead e))
    (client_ech_select_hello message (if bool_decide (ech_state e = PTLS_ECH_STATE_GREASE) then 0 else confirm_hash_off) label).

(* src lib/picotls.c:2922-2937 retry_request *)
Definition client_retry (sh : st_ptls_server_hello_t) (message : bytes) : M conn unit :=
  _ ← tls_op
        (suite ← get_suite;
         c ← gets ctx;
         _ ← sched_op (key_schedule_select_cipher suite false (psk_secret c));
         _ ← sched_op (modify key_schedule_transform_post_ch1hash);
         _ ← select_hello message (match retry_ech_left sh with Some n => len message - n | None => 0 end) ECH_CONFIRMATION_HRR;
         update_hash message);
  handle_hello_retry_request sh.

(** The keys of the handshake, from the secret of the key exchange. *)
(* src lib/picotls.c:2969-2993 ecdh_secret *)
Definition client_handshake_keys (sh : st_ptls_server_hello_t) : M ptls_t unit :=
  ecdh_secret ←
    match peerkey sh with
    | None => mret None
    | Some key =>
        kc ← gets key_share_ctx;
        kc ← lift (is_some_or kc ABORTED);
        _ ← modify (set_key_share_ctx None);
        secret ← lift (on_exchange kc key);
        mret (Some secret)
    end;
  _ ← sched_op (key_schedule_extract ecdh_secret);
  _ ← setup_traffic_protection false (Some (str "s hs traffic")) 2 0 false;
  t ← gets id;
  if using_early_data t then
    '(_, m) ← lift (is_some_or (malloc PTLS_MAX_DIGEST_SIZE) PTLS_ERROR_NO_MEMORY);
    _ ← modify (set_pending_handshake_secret (Some m));
    sched ← get_schedule;
    secret ← lift (derive_secret sched (str "c hs traffic"));
    let secret := mem_write m 0 secret in
    _ ← modify (set_pending_handshake_secret (Some secret));
    match update_traffic_key (ctx t) with
    | None => mret ()
    | Some cb => let ret := cb true 2 secret in lift (guard_err (ret =? 0) ret)
    end
  else setup_traffic_protection true (Some (str "c hs traffic")) 2 0 false.

(** A ServerHello that is no HelloRetryRequest. *)
(* src lib/picotls.c:2939-2996 key_schedule_select_cipher *)
Definition accept_hello (sh : st_ptls_server_hello_t) (message : bytes) : M ptls_t unit :=
  suite ← get_suite;
  t ← gets id;
  _ ← sched_op (key_schedule_select_cipher suite (offered_psk t && negb (is_psk_handshake t)) None);
  _ ← select_hello message (PTLS_HANDSHAKE_HEADER_SIZE + 2 + PTLS_HELLO_RANDOM_SIZE - PTLS_ECH_CONFIRM_LENGTH)
        ECH_CONFIRMATION_SERVER_HELLO;
  _ ← modify (λ t, set_ech (clear_ech false (Tls.ech t)) t);
  _ ← sched_op (modify (λ s, set_hashes (mkSlot (algo0 s) (slot_ctx (slot0 s)) None :: tail (hashes s)) s));
  t ← gets id;
  _ ← lift (guard_err (negb (is_inhabited (psk_identity (ctx t)) && negb (is_psk_handshake t))) PTLS_ALERT_HANDSHAKE_FAILURE);
  _ ← update_hash message;
  _ ← client_handshake_keys sh;
  _ ← modify (set_state PTLS_STATE_CLIENT_EXPECT_ENCRYPTED_EXTENSIONS);
  fail PTLS_ERROR_IN_PROGRESS.

(* src lib/picotls.c:2907-3004 client_handle_hello *)
Definition do_client_handle_hello (message : bytes) : M conn unit :=
  sh ← tls_op (decode_server_hello (drop (Z.to_nat PTLS_HANDSHAKE_HEADER_SIZE) message));
  t ← gets cn_tls;
  _ ← lift (guard_err ((len (sh_session_id sh) =? len (legacy_session_id t)) && mem_equal (sh_session_id sh) (legacy_session_id t))
              PTLS_ALERT_ILLEGAL_PARAMETER);
  if is_retry_request sh then client_retry sh message else tls_op (accept_hello sh message).

End Hello.

(** ** EncryptedExtensions *)

(** The variables of the loop: the negotiated protocol, the configurations for a retry (with [client.ech.retry_configs], [None]
    where the application left no place), the collected extensions ([None] before the first), [skip_early_data],
    [server_offered_cert_type]. *)
Record ee_found := mkEe {
  ee_protocol : option bytes; ee_retry_configs : option bytes; ee_unknown : option (list (Z * bytes)); ee_skip_early_data : bool;
  ee_cert_type : Z }.

Section EncryptedExtensions.
Context `{Allocator} (env : client_env).

(* src lib/picotls.c:3063-3079 PTLS_EXTENSION_TYPE_ALPN *)
Definition ee_ext_alpn (src : bytes) : result bytes :=
  ptls_decode_block 2 (λ b,
    '(p, src) ← ptls_decode_open_block 1 (λ b,
        match b with
        | [] => Err PTLS_ALERT_DECODE_ERROR
        | _ => p ← is_some_or (duplicate_as_str b) PTLS_ERROR_NO_MEMORY; Ok (p, [])
        end) b;
    match src with [] => Ok (p, []) | _ => Err PTLS_ALERT_HANDSHAKE_FAILURE end) src.

(** [sizeof(ptls_raw_extension_t)] *)
Definition SIZEOF_RAW_EXTENSION : Z := 24.

(* src lib/picotls.c:3118-3130 MAX_UNKNOWN_EXTENSIONS *)
Definition ee_ext_unknown (properties : option ptls_handshake_properties_t) (type : Z) (src : bytes) (f : ee_found) : result ee_found :=
  if should_collect_unknown_extension properties type then
    slots ← match ee_unknown f with
            | Some l => Ok l
            | None => _ ← is_some_or (malloc (SIZEOF_RAW_EXTENSION * (MAX_UNKNOWN_EXTENSIONS + 1))) PTLS_ERROR_NO_MEMORY; Ok []
            end;
    slots ← collect_unknown_extension type src slots;
    Ok (mkEe (ee_protocol f) (ee_retry_configs f) (Some slots) (ee_skip_early_data f) (ee_cert_type f))
  else Ok f.

(* src lib/picotls.c:3095-3117 PTLS_EXTENSION_TYPE_ENCRYPTED_CLIENT_HELLO *)
Definition ee_ext_ech (t : ptls_t) (src : bytes) (f : ee_found) : result ee_found :=
  let st := ech_state (Tls.ech t) in
  _ ← guard_err (bool_decide (st = PTLS_ECH_STATE_OFFERED \/ st = PTLS_ECH_STATE_GREASE)) PTLS_ALERT_UNSUPPORTED_EXTENSION;
  decoded ← client_decode_ech_config_list (is_ipaddr env) (ctx t) src;
  if negb (bool_decide (st = PTLS_ECH_STATE_GREASE)) && is_inhabited (ec_kem decoded) && is_inhabited (ec_cipher decoded)
     && is_inhabited (ee_retry_configs f)
  then
    _ ← is_some_or (malloc (len src)) PTLS_ERROR_NO_MEMORY;
    Ok (mkEe (ee_protocol f) (Some src) (ee_unknown f) (ee_skip_early_data f) (ee_cert_type f))
  else Ok f.

(* src lib/picotls.c:3048-3132 on_extension *)
Definition ee_extension (t : ptls_t) (properties : option ptls_handshake_properties_t) (exttype rest_len : Z) (f : ee_found)
    (src : bytes) : result (ee_found * bytes) :=
  _ ← match on_extension (ctx t) with
      | None => Ok ()
      | Some cb => guard_err (cb PTLS_HANDSHAKE_TYPE_ENCRYPTED_EXTENSIONS exttype src =? 0) 1
      end;
  f ← (if exttype =? PTLS_EXTENSION_TYPE_SERVER_NAME then
         _ ← guard_err (len src =? 0) PTLS_ALERT_DECODE_ERROR;
         _ ← guard_err (is_inhabited (sni_of env t)) PTLS_ALERT_ILLEGAL_PARAMETER;
         Ok f
       else if exttype =? PTLS_EXTENSION_TYPE_ALPN then
         p ← ee_ext_alpn src;
         Ok (mkEe (Some p) (ee_retry_configs f) (ee_unknown f) (ee_skip_early_data f) (ee_cert_type f))
       else if exttype =? PTLS_EXTENSION_TYPE_EARLY_DATA then
         _ ← guard_err (using_early_data t) PTLS_ALERT_ILLEGAL_PARAMETER;
         Ok (mkEe (ee_protocol f) (ee_retry_configs f) (ee_unknown f) false (ee_cert_type f))
       else if exttype =? PTLS_EXTENSION_TYPE_SERVER_CERTIFICATE_TYPE then
         _ ← guard_err (len src =? 1) PTLS_ALERT_DECODE_ERROR;
         Ok (mkEe (ee_protocol f) (ee_retry_configs f) (ee_unknown f) (ee_skip_early_data f) (byte_at src 0))
       else if exttype =? PTLS_EXTENSION_TYPE_ENCRYPTED_CLIENT_HELLO then ee_ext_ech t src f
       else ee_ext_unknown properties exttype src f);
  Ok (f, []).

(** With an error, what an extension before it has stored is not kept: the connection is dead then. *)
(* src lib/picotls.c:3038-3159 client_handle_encrypted_extensions *)
Definition do_client_handle_encrypted_extensions (message : bytes) : M conn unit :=
  c ← gets id;
  let t := cn_tls c in
  let pr := cn_properties c in
  f ← lift (decode_extensions PTLS_HANDSHAKE_TYPE_ENCRYPTED_EXTENSIONS (ee_extension t pr)
              (mkEe (negotiated_protocol t) (pr ≫= retry_configs) None true PTLS_CERTIFICATE_TYPE_X509)
              (drop (Z.to_nat PTLS_HANDSHAKE_HEADER_SIZE) message));
  _ ← modify (on_tls (set_negotiated_protocol (ee_protocol f)));
  _ ← modify (on_props (set_retry_configs (ee_retry_configs f)));
  _ ← lift (guard_err (ee_cert_type f =? if use_raw_public_keys (ctx t) then PTLS_CERTIFICATE_TYPE_RAW_PUBLIC_KEY else PTLS_CERTIFICATE_TYPE_X509)
              PTLS_ALERT_UNSUPPORTED_CERTIFICATE);
  _ ← when (using_early_data t)
        (_ ← when (ee_skip_early_data f) (modify (on_tls (set_using_early_data false)));
         modify (on_props (set_early_data_acceptance (if ee_skip_early_data f then PTLS_EARLY_DATA_REJECTED else PTLS_EARLY_DATA_ACCEPTED))));
  _ ← (let ret := report_unknown_extensions pr (default [] (ee_unknown f)) in lift (guard_err (ret =? 0) ret));
  _ ← tls_op (update_hash message);
  _ ← modify (on_tls (set_state (if is_psk_handshake t then PTLS_STATE_CLIENT_EXPECT_FINISHED
                                 else PTLS_STATE_CLIENT_EXPECT_CERTIFICATE_REQUEST_OR_CERTIFICATE)));
  fail PTLS_ERROR_IN_PROGRESS.

End EncryptedExtensions.

(** ** Finished *)

Section Finished.
Context `{Allocator} (env : client_env) (em : ptls_message_emitter_t).

(** The certificate the server asked for; the request is released, with an error too. *)
(* src lib/picotls.c:3576-3585 certificate_request *)
Definition answer_certificate_request : M conn unit :=
  request ← gets (λ c, certificate_request (cn_tls c));
  match request with
  | None => mret ()
  | Some (context, algos) =>
      let release := modify (on_tls (set_certificate_request None)) in
      _ ← catch
            (_ ← send_certificate em (emit_certificate env) algos context false [];
             send_certificate_verify em algos PTLS_CLIENT_CERTIFICATE_VERIFY_CONTEXT_STRING)
            (λ e, _ ← release; fail e);
      release
  end.

(** What [send_finished] returns is overwritten. *)
(* src lib/picotls.c:3544-3602 client_handle_finished *)
Definition do_client_handle_finished (message : bytes) : M conn unit :=
  alert_ech_required ← gets (λ c, bool_decide (ech_state (Tls.ech (cn_tls c)) = PTLS_ECH_STATE_OFFERED));
  _ ← tls_op (verify_finished message);
  _ ← tls_op (update_hash message);
  _ ← tls_op (sched_op (key_schedule_extract None));
  _ ← tls_op (setup_traffic_protection false (Some (str "s ap traffic")) 3 0 false);
  sched ← tls_op get_schedule;
  secret ← lift (derive_secret sched (str "c ap traffic"));
  let send_secret := secret ++ drop (length secret) (stack env) in
  _ ← tls_op (derive_exporter_secret false);
  t ← gets cn_tls;
  _ ← when (is_inhabited (pending_handshake_secret t))
        (_ ← lift (guard_err (is_inhabited (aead (enc t)) || is_inhabited (update_traffic_key (ctx t))) ABORTED);
         _ ← when (using_early_data t && negb (omit_end_of_early_data (ctx t)))
               (ptls_push_message em true PTLS_HANDSHAKE_TYPE_END_OF_EARLY_DATA (mret ()));
         _ ← modify (on_tls (set_using_early_data false));
         tls_op commission_handshake_secret);
  _ ← push_change_cipher_spec em;
  _ ← when (negb alert_ech_required) answer_certificate_request;
  _ ← catch (send_finished em) (λ e, if e =? ABORTED then fail e else mret ());
  _ ← modify (on_tls (on_tp true (set_tp_secret send_secret)));
  _ ← tls_op (setup_traffic_protection true None 3 0 false);
  _ ← modify (on_tls (set_state PTLS_STATE_CLIENT_POST_HANDSHAKE));
  when alert_ech_required (fail PTLS_ALERT_ECH_REQUIRED).

End Finished.

(** ** The handlers of a client *)

(** A handler of the connection and its output. *)
Definition conn_handler (m : bytes -> M conn unit) : handler := λ message _ c, let '(r, c) := m message c in (code r, c).
