(* ===== verification/ClientAuth.v ===== *)
(** * ClientAuth: the client knows the server

    The dispatch of the client's handlers as a state machine, the invariant of its states, and what a completed handshake
    means; the confirmation that ECH is accepted. *)

From S2P Require Import Prelude Constants Wire Buffer Extensions Crypto KeySchedule Tls Record Emit Negotiate Hpke ClientHello HelloFormat HelloDecode Receive Conn Ech EchMessage Export Handshake Ticket ServerHello Cookie Psk Certificate Steps Client.

(** ** The handlers *)

(** The handlers of a client; those of a server are not called. *)
Definition client_handlers `{Allocator} (env : client_env) (em : ptls_message_emitter_t) : handlers :=
  mkHandlers
    (conn_handler (do_client_handle_hello env em))
    (conn_handler (do_client_handle_encrypted_extensions env))
    (tls_handler handle_certificate_request)
    (tls_handler do_client_handle_certificate)
    (tls_handler do_client_handle_compressed_certificate)
    (tls_handler do_client_handle_certificate_verify)
    (conn_handler (do_client_handle_finished env em))
    (λ message _ c, (handle_new_session_ticket message (cn_tls c), c))
    (reject ABORTED) (reject ABORTED) (reject ABORTED).

(** One message after another, as long as the codes let the handshake go on. *)
Inductive client_run `{Allocator} (env : client_env) (em : ptls_message_emitter_t) (st : bytes) (c0 : conn) : conn -> Prop :=
| run_start : client_run env em st c0 c0
| run_message c message is_end ret c' :
    client_run env em st c0 c ->
    handle_client_handshake_message (client_handlers env em) st message is_end c = (ret, c') -> goes_on ret = true ->
    client_run env em st c0 c'.

(** ** The invariant *)

(** Once the hellos are over: the name of the connection, and none at all when ECH was rejected. *)
Definition claimed_name (t : ptls_t) : option bytes :=
  if bool_decide (ech_state (Tls.ech t) = PTLS_ECH_STATE_OFFERED) then None else server_name t.

(** The server has proved to be who it claims to be. *)
Definition proven (v : ptls_verify_certificate_t) (t : ptls_t) : Prop :=
  proves v (claimed_name t) PTLS_SERVER_CERTIFICATE_VERIFY_CONTEXT_STRING t.

Definition client_inv (v : ptls_verify_certificate_t) (t : ptls_t) : Prop :=
  is_server t = false /\ verify_certificate (ctx t) = Some v /\
  match state t with
  | PTLS_STATE_CLIENT_HANDSHAKE_START | PTLS_STATE_CLIENT_EXPECT_SERVER_HELLO | PTLS_STATE_CLIENT_EXPECT_SECOND_SERVER_HELLO => True
  | PTLS_STATE_CLIENT_EXPECT_ENCRYPTED_EXTENSIONS | PTLS_STATE_CLIENT_EXPECT_CERTIFICATE_REQUEST_OR_CERTIFICATE
  | PTLS_STATE_CLIENT_EXPECT_CERTIFICATE => public_name (Tls.ech t) = None /\ has_transcript t
  | PTLS_STATE_CLIENT_EXPECT_CERTIFICATE_VERIFY =>
      has_transcript t /\ exists certs, certs <> [] /\ verify_cb v (claimed_name t) certs = Ok (certificate_verify t)
  | PTLS_STATE_CLIENT_EXPECT_FINISHED | PTLS_STATE_CLIENT_POST_HANDSHAKE => is_psk_handshake t = true \/ proven v t
  | _ => False
  end.

Lemma claimed_name_continues t t' : continues t t' -> claimed_name t' = claimed_name t.
Proof. intros [[] ? E]. unfold claimed_name. by rewrite E, sp_name. Qed.

Lemma proven_continues v t t' : claimed_name t' = claimed_name t -> extends_transcript t t' -> proven v t -> proven v t'.
Proof. intros Hn Ht. unfold proven. rewrite Hn. by apply proves_extends. Qed.

Lemma inv_continues v t t' : continues t t' -> client_inv v t -> client_inv v t'.
Proof.
  intros Hc. pose proof (claimed_name_continues _ _ Hc) as Hn. destruct Hc as [[Ec En Es] Est Ee Ep Ev Ht Hh].
  intros (H1 & H2 & H3). split; [congruence|]. split; [congruence|]. rewrite Est. revert H3.
  destruct (state t); rewrite ?Ee, ?Hn, ?Ev, ?Ep; try done; try (by intros [Hp Hq]; split; auto);
    intros [Hp|Hp]; [by left|right|by left|right]; by eapply proven_continues.
Qed.

(** Another state, where what that state asks for holds. *)
Lemma inv_set_state v st t :
  is_server t = false -> verify_certificate (ctx t) = Some v ->
  client_inv v (set_state st t) <->
  match st with
  | PTLS_STATE_CLIENT_HANDSHAKE_START | PTLS_STATE_CLIENT_EXPECT_SERVER_HELLO | PTLS_STATE_CLIENT_EXPECT_SECOND_SERVER_HELLO => True
  | PTLS_STATE_CLIENT_EXPECT_ENCRYPTED_EXTENSIONS | PTLS_STATE_CLIENT_EXPECT_CERTIFICATE_REQUEST_OR_CERTIFICATE
  | PTLS_STATE_CLIENT_EXPECT_CERTIFICATE => public_name (Tls.ech t) = None /\ has_transcript t
  | PTLS_STATE_CLIENT_EXPECT_CERTIFICATE_VERIFY =>
      has_transcript t /\ exists certs, certs <> [] /\ verify_cb v (claimed_name t) certs = Ok (certificate_verify t)
  | PTLS_STATE_CLIENT_EXPECT_FINISHED | PTLS_STATE_CLIENT_POST_HANDSHAKE => is_psk_handshake t = true \/ proven v t
  | _ => False
  end.
Proof. intros Hs Hv. unfold client_inv. cbn [state set_state is_server ctx]. destruct st; tauto. Qed.

(** A client in the state [st], with the invariant, in a handshake that is by pre-shared key or not. *)
Record at_state (v : ptls_verify_certificate_t) (st : en_ptls_state_t) (psk : bool) (t : ptls_t) : Prop := {
  as_inv : client_inv v t;
  as_state : state t = st;
  as_psk : is_psk_handshake t = psk;
}.

Lemma at_state_continues v st psk t t' : continues t t' -> at_state v st psk t -> at_state v st psk t'.
Proof. intros Hc [Hi Hs Hp]. split; [by eapply inv_continues|by rewrite (ct_state _ _ Hc)|by rewrite (ct_psk _ _ Hc)]. Qed.

Lemma leads_step {A B} v st psk (m : M ptls_t A) (f : A -> M ptls_t B) :
  steps continues m -> (forall a, leads (at_state v st psk) (f a) (client_inv v)) -> leads (at_state v st psk) (m ≫= f) (client_inv v).
Proof. apply leads_bind; [apply at_state_continues|]. by intros t []. Qed.

Lemma leads_step_conn {A B} v st psk (m : M conn A) (f : A -> M conn B) :
  steps (of_tls continues) m -> (forall a, leads (with_tls (at_state v st psk)) (f a) (with_tls (client_inv v))) ->
  leads (with_tls (at_state v st psk)) (m ≫= f) (with_tls (client_inv v)).
Proof. apply leads_bind; [intros c c'; apply at_state_continues|]. by intros t []. Qed.

Ltac lead := repeat (first [apply leads_step_conn | apply leads_step]; [solve [steps]|intros ?]).

Section Handlers.
Context `{Allocator} (v : ptls_verify_certificate_t) (env : client_env) (em : ptls_message_emitter_t) `{!Emitter em}.

Lemma encrypted_extensions_inv message c :
  client_inv v (cn_tls c) -> state (cn_tls c) = PTLS_STATE_CLIENT_EXPECT_ENCRYPTED_EXTENSIONS ->
  client_inv v (cn_tls (do_client_handle_encrypted_extensions env message c).2).
Proof.
  intros Hi Hs. unfold do_client_handle_encrypted_extensions. rewrite M_bind_run. cbn [gets id].
  remember (is_psk_handshake (cn_tls c)) as psk eqn:Hp.
  match goal with |- client_inv v (cn_tls (?m c).2) =>
    enough (leads (with_tls (at_state v PTLS_STATE_CLIENT_EXPECT_ENCRYPTED_EXTENSIONS psk)) m (with_tls (client_inv v))) as Hl by (by apply Hl) end.
  lead.
  intros c1 [(H1 & H2 & H3) Hs1 Hp1]. rewrite M_bind_run. cbn. rewrite Hs1 in H3. apply inv_set_state; [done|done|].
  destruct psk; [by left|done].
Qed.

Lemma certificate_request_inv message t :
  client_inv v t -> state t = PTLS_STATE_CLIENT_EXPECT_CERTIFICATE_REQUEST_OR_CERTIFICATE ->
  client_inv v (handle_certificate_request message t).2.
Proof.
  intros Hi Hs. enough (leads (at_state v PTLS_STATE_CLIENT_EXPECT_CERTIFICATE_REQUEST_OR_CERTIFICATE (is_psk_handshake t))
    (handle_certificate_request message) (client_inv v)) as Hl by (by apply Hl).
  unfold handle_certificate_request, decode_certificate_request. lead.
  intros t1 [(H1 & H2 & H3) Hs1 _]. rewrite Hs1 in H3. rewrite M_bind_run. cbn [modify].
  pose proof (steps_update_hash message (set_state PTLS_STATE_CLIENT_EXPECT_CERTIFICATE t1)) as Hc. rewrite M_bind_run.
  destruct (update_hash message _) as [[]]; (eapply inv_continues; [exact Hc|]; by apply inv_set_state).
Qed.

(** The two states in which a certificate is expected. *)
Definition expects_certificate (st : en_ptls_state_t) : Prop :=
  st = PTLS_STATE_CLIENT_EXPECT_CERTIFICATE_REQUEST_OR_CERTIFICATE \/ st = PTLS_STATE_CLIENT_EXPECT_CERTIFICATE.

Lemma expects_certificate_inv t : expects_certificate (state t) -> client_inv v t ->
  is_server t = false /\ verify_certificate (ctx t) = Some v /\ public_name (Tls.ech t) = None /\ has_transcript t.
Proof. intros Hs (H1 & H2 & H3). split; [done|]. split; [done|]. by destruct Hs as [E|E]; rewrite E in H3. Qed.

(** What is left of a handler once the chain is accepted. *)
Lemma do_handle_certificate_inv {B} src t (k : M ptls_t B) :
  client_inv v t -> expects_certificate (state t) ->
  (forall t', is_server t' = false -> verify_certificate (ctx t') = Some v ->
     (exists certs, certs <> [] /\ verify_cb v (claimed_name t') certs = Ok (certificate_verify t')) ->
     state t' = state t -> public_name (Tls.ech t') = None -> has_transcript t' -> client_inv v (k t').2) ->
  client_inv v ((_ ← client_do_handle_certificate src; k) t).2.
Proof.
  intros Hi Hs Hk. destruct (expects_certificate_inv t Hs Hi) as (H1 & H2 & H3 & H4).
  assert (forall cb, client_inv v (set_certificate_verify cb t)) as Hcb.
  { intros cb. split; [done|]. split; [done|]. cbn [state set_certificate_verify]. by destruct Hs as [-> | ->]. }
  unfold client_do_handle_certificate, handle_certificate. rewrite !M_bind_run. cbn [gets id]. rewrite M_bind_run. cbn [lift].
  destruct (decode_certificates _ _) as [certs|e]; [|done]. cbn [lift]. rewrite M_bind_run, H2, M_bind_run. cbn [lift].
  destruct (verify_cb v _ _) as [cb|e] eqn:Ev; [|done]. cbn -[len]. destruct (Z.eqb_spec (len certs) 0) as [E|E]; [apply Hcb|]. cbn -[len].
  assert (name_to_verify t = claimed_name t) as Hn by (unfold name_to_verify, claimed_name; by rewrite H1, H3).
  apply Hk; try done. exists certs. split; [by intros ->|]. change (verify_cb v (claimed_name t) certs = Ok cb). by rewrite <- Hn.
Qed.

Lemma accept_certificate_inv src message t :
  client_inv v t -> expects_certificate (state t) ->
  client_inv v ((_ ← client_do_handle_certificate src;
                 _ ← update_hash message;
                 _ ← modify (set_state PTLS_STATE_CLIENT_EXPECT_CERTIFICATE_VERIFY);
                 fail (A:=unit) PTLS_ERROR_IN_PROGRESS) t).2.
Proof.
  intros Hi Hs. apply do_handle_certificate_inv; [done|done|].
  intros t' H1 H2 Hc Hs' Hp Hh. rewrite M_bind_run. pose proof (steps_update_hash message t') as Ht.
  assert (client_inv v t') as Hi' by (split; [done|split; [done|]]; by destruct Hs as [E|E]; rewrite Hs', E).
  destruct (update_hash message t') as [[[]|e] t2]; cbn [snd] in Ht; [|by eapply inv_continues].
  cbn. apply inv_set_state; [by rewrite (sp_server _ _ (ct_party _ _ Ht))|by rewrite (sp_ctx _ _ (ct_party _ _ Ht))|].
  split; [by apply (ct_has _ _ Ht)|]. by rewrite (claimed_name_continues _ _ Ht), (ct_verify _ _ Ht).
Qed.

Lemma compressed_certificate_inv message t :
  client_inv v t -> expects_certificate (state t) -> client_inv v (do_client_handle_compressed_certificate message t).2.
Proof.
  intros Hi Hs. unfold do_client_handle_compressed_certificate. rewrite M_bind_run. cbn [gets].
  destruct (decompress_certificate _) as [d|]; [|done].
  match goal with |- client_inv v (?m t).2 =>
    enough (leads (at_state v (state t) (is_psk_handshake t)) m (client_inv v)) as Hl by (by apply Hl) end.
  apply leads_step; [steps|intros [algo src]]. apply leads_step; [steps|intros [size src']]. do 3 (apply leads_step; [steps|intros ?]).
  intros t1 [Hi1 Hs1 _]. rewrite <- Hs1 in Hs. by apply accept_certificate_inv.
Qed.

Lemma certificate_verify_inv message t :
  decisive v -> client_inv v t -> state t = PTLS_STATE_CLIENT_EXPECT_CERTIFICATE_VERIFY ->
  let '(r, t') := do_client_handle_certificate_verify message t in goes_on (code r) = true -> client_inv v t'.
Proof.
  intros Hd Hi Hs. pose proof Hi as (H1 & H2 & H3). rewrite Hs in H3. destruct H3 as (Hh & certs & Hc & Hv).
  unfold do_client_handle_certificate_verify. rewrite M_bind_run.
  destruct (handle_certificate_verify _ _ t) as [r t1] eqn:E. pose proof (certificate_verify_proves _ _ _ _ _ _ _ _ Hd Hh Hc Hv E) as Hp.
  destruct r as [[]|e]; [|intros Hg; by rewrite (Hp Hg)]. intros _. destruct (Hp eq_refl) as [Hp1 Hct]. destruct (ct_party _ _ Hct) as [Ec _ Es]. apply inv_set_state; [by rewrite Es|by rewrite Ec|]. right.
  unfold proven. by rewrite (claimed_name_continues _ _ Hct).
Qed.

(** ** Finished *)

(** The callback of the application that sends certificates writes messages, as the code does. *)
Definition well_behaved (env : client_env) : Prop := writes_certificates (emit_certificate env).

Lemma steps_change_cipher_spec : steps (of_tls continues) (push_change_cipher_spec em).
Proof. unfold push_change_cipher_spec, buffer_push_record, ptls_buffer_push, ptls_buffer_pushv. steps. Qed.

Hint Resolve steps_change_cipher_spec : steps.

Lemma steps_answer_request : well_behaved env -> steps (of_tls continues) (answer_certificate_request env em).
Proof. intros Hw. pose proof (λ a c, steps_send_certificate em _ a c false [] Hw). unfold answer_certificate_request. steps. Qed.

(** The same peer, and ECH as it was decided. *)
Definition same_peer (t t' : ptls_t) : Prop := same_party t t' /\ Tls.ech t' = Tls.ech t.

#[local] Instance same_peer_preorder : PreOrder same_peer.
Proof. split; [by intros t|]. intros t1 t2 t3 [] []. split; [by etrans|congruence]. Qed.

Lemma steps_same_peer {A} (m : M conn A) : steps (of_tls continues) m -> steps (of_tls same_peer) m.
Proof. apply steps_impl. by intros c c' []. Qed.

Lemma finished_inv message c :
  well_behaved env -> client_inv v (cn_tls c) -> state (cn_tls c) = PTLS_STATE_CLIENT_EXPECT_FINISHED ->
  client_inv v (cn_tls (do_client_handle_finished env em message c).2).
Proof.
  intros Hw Hi Hs. pose proof (steps_answer_request Hw). unfold do_client_handle_finished. rewrite M_bind_run. cbn [gets].
  match goal with |- client_inv v (cn_tls (?m c).2) =>
    enough (leads (with_tls (at_state v PTLS_STATE_CLIENT_EXPECT_FINISHED (is_psk_handshake (cn_tls c)))) m (with_tls (client_inv v))) as Hl by (by apply Hl) end.
  lead.
  intros c1 [(H1 & H2 & H3) Hs1 _]. rewrite Hs1 in H3. rewrite M_bind_run. cbn [modify]. destruct (bool_decide _); by apply inv_set_state.
Qed.

Lemma steps_finished_peer message : well_behaved env -> steps (of_tls same_peer) (do_client_handle_finished env em message).
Proof.
  intros Hw. pose proof (steps_answer_request Hw). unfold do_client_handle_finished.
  repeat (apply steps_bind; [apply _|solve [apply steps_same_peer; steps]|intros ?]).
  apply steps_bind; [apply _|by apply steps_on_tls|intros ?]. apply steps_same_peer. steps.
Qed.

(** Success means that the Finished was genuine and that ECH, where it was offered, was accepted. *)
Lemma finished_success message c c' :
  well_behaved env -> do_client_handle_finished env em message c = (Ok (), c') ->
  verify_finished message (cn_tls c) = (Ok (), cn_tls c) /\ ech_state (Tls.ech (cn_tls c)) <> PTLS_ECH_STATE_OFFERED /\
  state (cn_tls c') = PTLS_STATE_CLIENT_POST_HANDSHAKE /\ same_peer (cn_tls c) (cn_tls c').
Proof.
  intros Hw E. pose proof (steps_finished_peer message Hw c) as Hp. rewrite E in Hp.
  unfold do_client_handle_finished in E. apply bind_ok in E as (alert & c0 & [= <- <-] & E).
  apply bind_ok in E as ([] & c1 & Ev & E). unfold tls_op in Ev.
  assert (steps eq (verify_finished message)) as Hv by (unfold verify_finished; steps). specialize (Hv (cn_tls c)).
  destruct (verify_finished message (cn_tls c)) as [r t1]. cbn in Hv. subst t1. injection Ev as -> _.
  do 13 (apply bind_ok in E as (? & ? & _ & E)).
  apply bind_ok in E as ([] & c2 & [= <-] & E). destruct (bool_decide_reflect (ech_state (Tls.ech (cn_tls c)) = PTLS_ECH_STATE_OFFERED)) as [Ho|Ho].
  - done.
  - injection E as <-. done.
Qed.

(** ** The hellos *)

(** While hellos are exchanged: the same party, and a server's hello is expected. *)
Definition negotiates (t t' : ptls_t) : Prop :=
  same_party t t' /\
  (state t' = state t \/ state t' = PTLS_STATE_CLIENT_EXPECT_SERVER_HELLO \/ state t' = PTLS_STATE_CLIENT_EXPECT_SECOND_SERVER_HELLO).

#[local] Instance negotiates_preorder : PreOrder negotiates.
Proof.
  split; [intros t; split; [reflexivity|by left]|]. intros t1 t2 t3 [H1 H2] [H3 H4]. split; [by etrans|].
  destruct H4 as [->|H4]; [done|by right].
Qed.

Lemma steps_negotiates {A} (m : M ptls_t A) : steps continues m -> steps negotiates m.
Proof. apply steps_impl. intros t t' []. split; [done|by left]. Qed.

Lemma steps_negotiates_conn {A} (m : M conn A) : steps (of_tls continues) m -> steps (of_tls negotiates) m.
Proof. apply steps_impl. intros t t' []. split; [done|by left]. Qed.

#[local] Ltac hello_fields :=
  try match goal with |- context [if ?b then _ else _] => destruct b end;
  first [split; [by split|first [by left | by right; left | by right; right]] | reflexivity].

#[local] Ltac hello := steps_with hello_fields.

Lemma steps_ech_op {A} (m : M st_ptls_ech_t A) : steps (of_tls negotiates) (ech_op m).
Proof. unfold ech_op. apply steps_tls_op. intros t. destruct (m _) as [r e]. hello_fields. Qed.

Lemma steps_on_props f : steps (of_tls negotiates) (modify (on_props f)).
Proof. apply steps_modify. intros c. unfold of_tls. reflexivity. Qed.

(** An operation of the key schedule, whatever it does. *)
Lemma steps_sched_any {A} (m : M ptls_key_schedule_t A) : steps negotiates (sched_op m).
Proof. unfold sched_op. hello. Qed.

Lemma steps_update_hash_of outer msg : steps negotiates (update_hash_of outer msg).
Proof. unfold update_hash_of. hello. Qed.

Hint Resolve steps_ech_op steps_on_props steps_sched_any steps_update_hash_of : steps.

Lemma steps_binder start key outer : steps (of_tls negotiates) (update_ch_hash_and_binder start key outer).
Proof. unfold update_ch_hash_and_binder. hello. Qed.

Lemma steps_encode_hello c mode p random name size replay rnd :
  steps (of_tls negotiates) (encode_client_hello (S:=conn) c mode p random name size replay rnd).
Proof.
  unfold encode_client_hello, push_message_unhashed, push_ech, push_ech_outer, push_key_share, push_key_share_entry, push_offers, push_psk,
    push_additional_extensions, push_signature_algorithms, emit_server_name_extension, buffer_push_extension, push_reserved,
    ptls_buffer_push32, ptls_buffer_push16, ptls_buffer_push, ptls_buffer_pushv.
  hello.
Qed.

Hint Resolve steps_binder steps_encode_hello : steps.

Lemma steps_wrap_hello p name key start a : steps (of_tls negotiates) (wrap_hello env p name key start a).
Proof. unfold wrap_hello, push_outer_hello. hello. Qed.

Lemma steps_offer_ech second name : steps (of_tls negotiates) (offer_ech env second name).
Proof. unfold offer_ech. hello. Qed.

Lemma steps_offer_external second : steps (of_tls negotiates) (offer_external_psk second).
Proof. unfold offer_external_psk, offer_early_data. hello. Qed.

Lemma steps_offer_ticket second psk : steps (of_tls negotiates) (offer_ticket second psk).
Proof. unfold offer_ticket, offer_early_data. hello. Qed.

Lemma steps_signal : steps (of_tls negotiates) signal_early_data.
Proof. unfold signal_early_data. hello. Qed.

Lemma steps_choose_key_share : steps (of_tls negotiates) choose_key_share.
Proof. unfold choose_key_share. hello. Qed.

Lemma steps_start_schedule psk : steps (of_tls negotiates) (start_schedule psk).
Proof. unfold start_schedule. hello. Qed.

Lemma steps_hello_params second psk cookie : steps (of_tls negotiates) (hello_params second psk cookie).
Proof. unfold hello_params. hello. Qed.

Hint Resolve steps_wrap_hello steps_offer_ech steps_offer_external steps_offer_ticket steps_signal steps_choose_key_share
  steps_start_schedule steps_hello_params : steps.
Hint Extern 2 (steps negotiates _) => apply steps_negotiates : steps.
Hint Extern 2 (steps (of_tls negotiates) _) => apply steps_negotiates_conn : steps.

Lemma steps_send_hello cookie : steps (of_tls negotiates) (send_client_hello env em cookie).
Proof. unfold send_client_hello. hello. Qed.

Hint Resolve steps_send_hello : steps.

Lemma steps_retry sh message : steps (of_tls negotiates) (client_retry env em sh message).
Proof. unfold client_retry, handle_hello_retry_request, select_hello, client_ech_select_hello. hello. Qed.

Lemma steps_decode_server_hello src : steps negotiates (decode_server_hello src).
Proof. unfold decode_server_hello, sh_check. hello. Qed.

Hint Resolve steps_retry steps_decode_server_hello : steps.

Lemma steps_select_hello message o label : steps negotiates (select_hello message o label).
Proof. unfold select_hello, client_ech_select_hello. hello. Qed.

Hint Resolve steps_select_hello : steps.

(** Keys are set up: what the invariant needs of a hello that is accepted stays. *)
Record proceeds (t t' : ptls_t) : Prop := {
  pr_party : same_party t t';
  pr_state : state t' = state t;
  pr_ech : Tls.ech t' = Tls.ech t;
  pr_has : has_transcript t -> has_transcript t';
}.

#[local] Instance proceeds_preorder : PreOrder proceeds.
Proof. split; [by intros t|]. intros t1 t2 t3 [] []. split; try congruence; [by etrans|by auto]. Qed.

Lemma steps_proceeds {A} (m : M ptls_t A) : steps continues m -> steps proceeds m.
Proof. apply steps_impl. by intros t t' []. Qed.

Hint Extern 2 (steps proceeds _) => apply steps_proceeds : steps.

Lemma steps_handshake_keys sh : steps proceeds (client_handshake_keys sh).
Proof. unfold client_handshake_keys. steps. Qed.

Hint Resolve steps_handshake_keys : steps.

(** A client that waits for a hello of the server. *)
Definition awaits_hello (t : ptls_t) : Prop :=
  is_server t = false /\ verify_certificate (ctx t) = Some v /\
  (state t = PTLS_STATE_CLIENT_EXPECT_SERVER_HELLO \/ state t = PTLS_STATE_CLIENT_EXPECT_SECOND_SERVER_HELLO).

Lemma awaits_negotiates t t' : negotiates t t' -> awaits_hello t -> awaits_hello t'.
Proof. intros [[E1 E2 E3] Hs] (H1 & H2 & H3). split; [congruence|]. split; [congruence|]. destruct Hs as [->|Hs]; [done|tauto]. Qed.

Lemma awaits_inv t : awaits_hello t -> client_inv v t.
Proof. intros (H1 & H2 & H3). split; [done|]. split; [done|]. by destruct H3 as [-> | ->]. Qed.

Lemma awaits_bind {A B} (m : M ptls_t A) (f : A -> M ptls_t B) :
  steps negotiates m -> (forall a, leads awaits_hello (f a) (client_inv v)) -> leads awaits_hello (m ≫= f) (client_inv v).
Proof. apply leads_bind; [apply awaits_negotiates|apply awaits_inv]. Qed.

(** ECH is cleared, and there is one hash. *)
Lemma accept_hello_inv sh message : leads awaits_hello (accept_hello sh message) (client_inv v).
Proof.
  unfold accept_hello. do 4 (apply awaits_bind; [hello|intros ?]).
  intros t Ht. rewrite M_bind_run. cbn [modify]. set (t1 := set_ech _ t). rewrite M_bind_run. unfold sched_op, get_schedule.
  rewrite !M_bind_run. cbn [gets]. change (key_schedule t1) with (key_schedule t). destruct (key_schedule t) as [s|]; [|by apply awaits_inv].
  cbn [mret M_ret modify]. rewrite M_bind_run. cbn [modify lift]. set (t2 := set_key_schedule _ t1).
  set (P := λ t', proceeds t2 t').
  match goal with |- client_inv v (?m t2).2 => enough (leads P m (client_inv v)) as Hl by (apply Hl; unfold P; reflexivity) end.
  assert (forall t', P t' -> awaits_hello t') as HP by (intros t' Hc; eapply awaits_negotiates; [split; [apply Hc|left; apply Hc]|exact Ht]).
  do 4 (apply (leads_bind proceeds); [intros t3 t4 ? ?; unfold P in *; by etrans|intros t3 H3; by apply awaits_inv, HP|steps|intros ?]).
  intros t3 H3. rewrite M_bind_run. cbn [modify]. destruct (HP _ H3) as (H1 & H2 & _). apply inv_set_state; [done|done|].
  split; [by rewrite (pr_ech _ _ H3)|]. apply (pr_has _ _ H3). by eexists.
Qed.

Lemma hello_inv message c : awaits_hello (cn_tls c) -> client_inv v (cn_tls (do_client_handle_hello env em message c).2).
Proof.
  intros Hc. enough (leads (with_tls awaits_hello) (do_client_handle_hello env em message) (with_tls (client_inv v))) as Hl by (by apply Hl).
  unfold do_client_handle_hello.
  do 3 (apply (leads_bind (of_tls negotiates)); [intros s s'; apply awaits_negotiates|intros s; apply awaits_inv|hello|intros ?]).
  destruct (is_retry_request a); intros c1 H1.
  - apply awaits_inv. eapply awaits_negotiates; [|exact H1]. apply steps_retry.
  - unfold with_tls, tls_op. pose proof (accept_hello_inv a message (cn_tls c1) H1). by destruct (accept_hello _ _ _).
Qed.

(** ** The dispatch *)

Lemma steps_negotiates_party {A} (m : M ptls_t A) : steps negotiates m -> steps same_party m.
Proof. apply steps_impl. by intros t t' []. Qed.

Lemma steps_negotiates_party_conn {A} (m : M conn A) : steps (of_tls negotiates) m -> steps (of_tls same_party) m.
Proof. apply steps_impl. by intros t t' []. Qed.

Lemma steps_keys_party sh : steps same_party (client_handshake_keys sh).
Proof. eapply steps_impl; [|apply steps_handshake_keys]. by intros t t' []. Qed.

Hint Resolve steps_keys_party : steps.
Hint Extern 2 (steps same_party _) => first [apply steps_party; solve [steps] | apply steps_negotiates_party; solve [hello]] : steps.
Hint Extern 2 (steps (of_tls same_party) _) =>
  first [apply steps_party_conn; solve [steps] | apply steps_negotiates_party_conn; solve [hello]] : steps.

Lemma steps_hello_party message : steps (of_tls same_party) (do_client_handle_hello env em message).
Proof. unfold do_client_handle_hello, accept_hello. steps. Qed.

Lemma steps_ee_party message : steps (of_tls same_party) (do_client_handle_encrypted_extensions env message).
Proof. unfold do_client_handle_encrypted_extensions. steps. Qed.

Lemma steps_certificates_party message :
  steps same_party (handle_certificate_request message) /\ steps same_party (do_client_handle_certificate message) /\
  steps same_party (do_client_handle_compressed_certificate message) /\ steps same_party (do_client_handle_certificate_verify message).
Proof.
  unfold handle_certificate_request, decode_certificate_request, do_client_handle_certificate, do_client_handle_compressed_certificate,
    do_client_handle_certificate_verify, handle_certificate_verify, client_do_handle_certificate, handle_certificate.
  split; [steps|split; [steps|split; steps]].
Qed.

Lemma run_conn_handler (P : conn -> Prop) (m : bytes -> M conn unit) message e c ret c' :
  conn_handler m message e c = (ret, c') -> P (m message c).2 -> P c'.
Proof. unfold conn_handler. destruct (m message c). by intros [= _ <-]. Qed.

Lemma run_tls_handler (P : ptls_t -> Prop) (m : bytes -> M ptls_t unit) message e c ret c' :
  tls_handler m message e c = (ret, c') -> P (m message (cn_tls c)).2 -> P (cn_tls c').
Proof. unfold tls_handler, tls_op. destruct (m message (cn_tls c)). by intros [= _ <-]. Qed.

Lemma dispatch_party st message e c ret c' :
  well_behaved env -> client_inv v (cn_tls c) ->
  handle_client_handshake_message (client_handlers env em) st message e c = (ret, c') -> same_party (cn_tls c) (cn_tls c').
Proof.
  intros Hw (_ & _ & Hi). unfold handle_client_handshake_message. destruct (steps_certificates_party message) as (S1 & S2 & S3 & S4).
  assert (forall alert, reject alert message e c = (ret, c') -> same_party (cn_tls c) (cn_tls c')) as Hrej by (by intros alert [= _ <-]).
  destruct (state (cn_tls c)); try done; repeat (match goal with |- context [if ?b then _ else _] => destruct b end); try apply Hrej; intros E.
  all: try (eapply (run_conn_handler (λ c', same_party (cn_tls c) (cn_tls c')));
    [exact E|]; first [apply steps_hello_party | apply steps_ee_party | by apply steps_finished_peer]).
  all: try (eapply (run_tls_handler (same_party (cn_tls c))); [exact E|];
    first [apply S1 | apply S2 | apply S3 | apply S4 | apply steps_party, steps_update_key]).
Qed.

Lemma dispatch_inv st message e c ret c' :
  decisive v -> well_behaved env -> client_inv v (cn_tls c) ->
  handle_client_handshake_message (client_handlers env em) st message e c = (ret, c') -> goes_on ret = true -> client_inv v (cn_tls c').
Proof.
  intros Hd Hw Hi. unfold handle_client_handshake_message.
  assert (forall alert, reject alert message e c = (ret, c') -> goes_on ret = true -> client_inv v (cn_tls c')) as Hrej by (by intros alert [= _ <-]).
  destruct (state (cn_tls c)) eqn:Hs; try (apply Hrej); repeat (match goal with |- context [if ?b then _ else _] => destruct b end); try apply Hrej; intros E Hret.
  all: try (eapply (run_conn_handler (λ c', client_inv v (cn_tls c'))); [exact E|];
    first [apply hello_inv; split; [apply Hi|split; [apply Hi|tauto]] | by apply encrypted_extensions_inv | by apply finished_inv]).
  all: try (eapply (run_tls_handler (client_inv v)); [exact E|];
    first [by apply certificate_request_inv | by apply accept_certificate_inv; [|left] | by apply accept_certificate_inv; [|right]
          | by apply compressed_certificate_inv; [|left] | by apply compressed_certificate_inv; [|right]
          | eapply inv_continues; [apply steps_update_key|done]]).
  unfold client_handlers, tls_handler, tls_op in E. cbn in E. pose proof (certificate_verify_inv message (cn_tls c) Hd Hi Hs) as Hv.
  destruct (do_client_handle_certificate_verify message (cn_tls c)). injection E as <- <-. by apply Hv.
Qed.

Lemma run_inv st c0 c : decisive v -> well_behaved env -> awaits_hello (cn_tls c0) -> client_run env em st c0 c ->
  client_inv v (cn_tls c) /\ same_party (cn_tls c0) (cn_tls c).
Proof.
  intros Hd Hw H0 Hrun. induction Hrun as [|c message is_end ret c1 Hr [IH1 IH2] Eh Hret]; [split; [by apply awaits_inv|reflexivity]|].
  split; [by eapply dispatch_inv|]. etrans; [exact IH2|]. by eapply dispatch_party.
Qed.

(** What the last step of a client relies on. *)
Lemma client_completes st c0 c message c' :
  decisive v -> well_behaved env -> awaits_hello (cn_tls c0) ->
  client_run env em st c0 c -> state (cn_tls c) = PTLS_STATE_CLIENT_EXPECT_FINISHED ->
  do_client_handle_finished env em message c = (Ok (), c') ->
  state (cn_tls c') = PTLS_STATE_CLIENT_POST_HANDSHAKE /\
  verify_finished message (cn_tls c) = (Ok (), cn_tls c) /\
  ech_state (Tls.ech (cn_tls c')) <> PTLS_ECH_STATE_OFFERED /\
  (is_psk_handshake (cn_tls c') = true \/ proves v (server_name (cn_tls c0)) PTLS_SERVER_CERTIFICATE_VERIFY_CONTEXT_STRING (cn_tls c')).
Proof.
  intros Hd Hw H0 Hrun Hs E.
  destruct (run_inv st c0 c Hd Hw H0 Hrun) as [Hi Hp].
  destruct (finished_success message c c' Hw E) as (Hv & He & Hs' & Hp' & Ee).
  pose proof (finished_inv message c Hw Hi Hs) as Hi'. rewrite E in Hi'. cbn [snd] in Hi'.
  destruct Hi' as (_ & _ & Hi'). rewrite Hs' in Hi'. rewrite <- Ee in He. split; [done|]. split; [done|]. split; [done|].
  destruct Hi' as [Hi'|(certs & cb & Hi')]; [by left|right]. exists certs, cb.
  unfold claimed_name in Hi'. rewrite bool_decide_eq_false_2 in Hi' by done.
  by rewrite (sp_name _ _ Hp'), (sp_name _ _ Hp) in Hi'.
Qed.

(** C2: a client that completes the handshake knows the server.  From a client that waits for the ServerHello, through any messages whose
    codes let the handshake go on: when [client_handle_finished] succeeds, the Finished message was verified under the keys of the
    connection, ECH was accepted if it was offered, and unless the handshake is by pre-shared key the application's verifier has
    accepted a non-empty chain in the name that the connection is for, and (unless it asked for no signature) a signature over the hash of
    the transcript of this connection up to the CertificateVerify message.  The state machine has no way round. *)
Theorem client_authenticates_server st c0 c message c' :
  decisive v -> well_behaved env -> awaits_hello (cn_tls c0) ->
  client_run env em st c0 c -> state (cn_tls c) = PTLS_STATE_CLIENT_EXPECT_FINISHED ->
  do_client_handle_finished env em message c = (Ok (), c') ->
  state (cn_tls c') = PTLS_STATE_CLIENT_POST_HANDSHAKE /\
  verify_finished message (cn_tls c) = (Ok (), cn_tls c) /\
  ech_state (Tls.ech (cn_tls c')) <> PTLS_ECH_STATE_OFFERED /\
  (is_psk_handshake (cn_tls c') = true \/
   exists certs cb, certs <> [] /\ verify_cb v (server_name (cn_tls c0)) certs = Ok cb /\
   forall f, cb = Some f ->
   exists s tr m rest algo src signature,
     key_schedule (cn_tls c') = Some s /\ slot_ctx (slot0 s) = tr ++ m ++ rest /\
     ptls_decode16 (drop (Z.to_nat PTLS_HANDSHAKE_HEADER_SIZE) m) = Ok (algo, src) /\
     ptls_decode_block 2 (λ b, Ok (b, [])) src = Ok signature /\
     f algo (replicate 64 32 ++ PTLS_SERVER_CERTIFICATE_VERIFY_CONTEXT_STRING ++ [0] ++ digest (algo0 s) tr) signature = 0).
Proof. apply client_completes. Qed.

(** After a rejection of ECH the server's certificate is checked against no name.  Whatever messages a client handled since its ClientHello: when ECH
    was offered and not accepted and a certificate is expected, the name that [handle_certificate] gives to the application's
    verifier is NULL, because [client_handle_hello] has released the public name of the configuration. *)
Theorem ech_rejected_name_lost st c0 c :
  decisive v -> well_behaved env -> awaits_hello (cn_tls c0) -> client_run env em st c0 c ->
  expects_certificate (state (cn_tls c)) -> ech_state (Tls.ech (cn_tls c)) = PTLS_ECH_STATE_OFFERED ->
  name_to_verify (cn_tls c) = None.
Proof.
  intros Hd Hw H0 Hrun Hs He. destruct (run_inv st c0 c Hd Hw H0 Hrun) as [Hi _].
  destruct (expects_certificate_inv _ Hs Hi) as (H1 & _ & H3 & _). unfold name_to_verify. rewrite H1, He, H3. done.
Qed.

End Handlers.

(** ** Witnesses *)

Definition toy_env : client_env := mkClientEnv (λ _, false) None (replicate 32 3) toy_draws (λ _, toy_draws) (replicate 64 0).

Definition toy_auth_context : ptls_context_t :=
  mkCtx 0 (Some [toy_kex]) [toy_suite] [] [] None None None (Some [toy_hpke]) [toy_kem] None [] None (Some toy_verify) 86400 8192 65536 None false false
    false false false false false false None None None None None None [] 0 0 0.

Definition toy_new_client : ptls_t :=
  set_server_name (Some (str "example.com")) (default (toy_tls false) (@ptls_client_new bump_allocator toy_auth_context (replicate 32 1) [])).

(** The handshake of a client with the messages of a toy server, one after another. *)
Definition toy_sent : result unit * conn :=
  @send_client_hello bump_allocator toy_env (@record_emitter bump_allocator) None (mkConn toy_new_client (ptls_buffer_init 64 [0; 0; 0; 0] 1) [] None).

Definition toy_receives (message : bytes) (c : conn) : Z * conn :=
  @handle_client_handshake_message bump_allocator (@client_handlers bump_allocator toy_env (@record_emitter bump_allocator)) [] message true c.

Definition toy_transcript (c : conn) : ptls_key_schedule_t := default (mkSched 0 [] []) (key_schedule (cn_tls c)).

Definition toy_hello : bytes :=
  sh_message [] (cs_id toy_suite) PTLS_PROTOCOL_VERSION_TLS13 (replicate 32 9) (hello_exts HANDSHAKE_MODE_FULL 29 [4; 5; 6] 0).
Definition toy_c1 : Z * conn := toy_receives toy_hello toy_sent.2.
Definition toy_c2 : Z * conn := toy_receives [8; 0; 0; 2; 0; 0] toy_c1.2.
Definition toy_c3 : Z * conn := toy_receives ([11] ++ block3 (cert_body [] [[1; 2; 3]; [4]] [])) toy_c2.2.
Definition toy_c4 : Z * conn :=
  toy_receives (verify_message 1027 (drop 98 (build_certificate_verify_signdata (toy_transcript toy_c3.2) PTLS_SERVER_CERTIFICATE_VERIFY_CONTEXT_STRING))) toy_c3.2.
Definition toy_finish : bytes := finished_message (toy_transcript toy_c4.2) (tp_secret (dec (cn_tls toy_c4.2))).
Abbreviation toy_c5 := (@do_client_handle_finished bump_allocator toy_env (@record_emitter bump_allocator) toy_finish toy_c4.2).

Lemma ok_pair {A B} (x : result A * B) a : x.1 = Ok a -> x = (Ok a, x.2).
Proof. destruct x. cbn. by intros ->. Qed.

Lemma toy_decisive : decisive toy_verify.
Proof.
  intros name certs f algo content signature. cbn [verify_cb toy_verify]. destruct (bool_decide _); [|done]. intros [= <-].
  unfold toy_check. by destruct (_ && _).
Qed.

Lemma toy_well_behaved : well_behaved toy_env.
Proof. by intros cb context status algos. Qed.

Lemma toy_awaits : awaits_hello toy_verify (cn_tls toy_sent.2).
Proof. split; [vm_compute; reflexivity|]. split; [vm_compute; reflexivity|]. left. vm_compute. reflexivity. Qed.

Lemma toy_codes : goes_on toy_c1.1 && goes_on toy_c2.1 && goes_on toy_c3.1 && goes_on toy_c4.1 = true.
Proof. vm_compute. reflexivity. Qed.

Lemma toy_step c0 m c r :
  @client_run bump_allocator toy_env (@record_emitter bump_allocator) [] c0 c -> r = toy_receives m c -> goes_on r.1 = true ->
  @client_run bump_allocator toy_env (@record_emitter bump_allocator) [] c0 r.2.
Proof.
  intros Hc Hr Hg. eapply (@run_message bump_allocator _ _ _ _ c m true r.1); [exact Hc|rewrite <- surjective_pairing; symmetry; exact Hr|exact Hg].
Qed.

Lemma toy_run : @client_run bump_allocator toy_env (@record_emitter bump_allocator) [] toy_sent.2 toy_c4.2.
Proof.
  pose proof toy_codes as Hok. apply andb_true_iff in Hok as [Hok H4]. apply andb_true_iff in Hok as [Hok H3]. apply andb_true_iff in Hok as [H1 H2].
  eapply toy_step; [|unfold toy_c4; reflexivity|exact H4]. eapply toy_step; [|unfold toy_c3; reflexivity|exact H3].
  eapply toy_step; [|unfold toy_c2; reflexivity|exact H2]. eapply toy_step; [|unfold toy_c1; reflexivity|exact H1]. apply run_start.
Qed.

Lemma toy_expects_finished : state (cn_tls toy_c4.2) = PTLS_STATE_CLIENT_EXPECT_FINISHED /\ toy_c5.1 = Ok ().
Proof. vm_compute. split; reflexivity. Qed.

Lemma toy_not_psk : is_psk_handshake (cn_tls toy_c5.2) = false.
Proof. vm_compute. reflexivity. Qed.

Lemma client_authenticates_server_witness :
  state (cn_tls toy_c5.2) = PTLS_STATE_CLIENT_POST_HANDSHAKE /\
  exists certs cb, certs <> [] /\ verify_cb toy_verify (server_name (cn_tls toy_sent.2)) certs = Ok cb.
Proof.
  destruct (@client_authenticates_server bump_allocator toy_verify toy_env (@record_emitter bump_allocator) _ [] toy_sent.2 toy_c4.2 toy_finish toy_c5.2
    toy_decisive toy_well_behaved toy_awaits toy_run (proj1 toy_expects_finished)
    (ok_pair _ () (proj2 toy_expects_finished))) as (H1 & _ & _ & H2).
  split; [exact H1|]. destruct H2 as [H2|(certs & cb & H2 & H3 & _)].
  - rewrite toy_not_psk in H2. discriminate H2.
  - exists certs, cb. split; [exact H2|exact H3].
Defined.

(** The same client with ECH, and a server that does not know it. *)
Definition toy_ech_properties : ptls_handshake_properties_t :=
  mkProps [] None None PTLS_EARLY_DATA_ACCEPTANCE_UNKNOWN false (Some (block2 (config_bytes 7 toy_kem [1; 2; 3] [toy_hpke] 64 (str "public")))) None
    [] None [] false false [] None (λ _, 0).

Definition toy_ech_sent : result unit * conn :=
  @send_client_hello bump_allocator toy_env (@record_emitter bump_allocator) None
    (mkConn toy_new_client (ptls_buffer_init 64 [0; 0; 0; 0] 1) [] (Some toy_ech_properties)).

Definition toy_r1 : Z * conn := toy_receives toy_hello toy_ech_sent.2.
Definition toy_r2 : Z * conn := toy_receives [8; 0; 0; 2; 0; 0] toy_r1.2.

Lemma toy_ech_awaits : awaits_hello toy_verify (cn_tls toy_ech_sent.2).
Proof. split; [vm_compute; reflexivity|]. split; [vm_compute; reflexivity|]. left. vm_compute. reflexivity. Qed.

Lemma toy_ech_codes : goes_on toy_r1.1 && goes_on toy_r2.1 = true.
Proof. vm_compute. reflexivity. Qed.

Lemma toy_ech_run : @client_run bump_allocator toy_env (@record_emitter bump_allocator) [] toy_ech_sent.2 toy_r2.2.
Proof.
  pose proof toy_ech_codes as Hok. apply andb_true_iff in Hok as [H1 H2].
  eapply toy_step; [|unfold toy_r2; reflexivity|exact H2]. eapply toy_step; [|unfold toy_r1; reflexivity|exact H1]. apply run_start.
Qed.

Lemma toy_rejected : state (cn_tls toy_r2.2) = PTLS_STATE_CLIENT_EXPECT_CERTIFICATE_REQUEST_OR_CERTIFICATE /\
  ech_state (Tls.ech (cn_tls toy_r2.2)) = PTLS_ECH_STATE_OFFERED /\ public_name (Tls.ech (cn_tls toy_ech_sent.2)) = Some (str "public").
Proof. vm_compute. repeat split. Qed.

Lemma ech_rejected_name_lost_witness :
  public_name (Tls.ech (cn_tls toy_ech_sent.2)) = Some (str "public") /\ name_to_verify (cn_tls toy_r2.2) = None.
Proof.
  split; [exact (proj2 (proj2 toy_rejected))|].
  exact (@ech_rejected_name_lost bump_allocator toy_verify toy_env (@record_emitter bump_allocator) _ [] toy_ech_sent.2 toy_r2.2
    toy_decisive toy_well_behaved toy_ech_awaits toy_ech_run (or_introl (proj1 toy_rejected)) (proj1 (proj2 toy_rejected))).
Defined.
