(* ===== verification/EchConfirm.v ===== *)
(** * EchConfirm: the server confirms that it took the inner ClientHello

    The confirmation that the server writes over its place in the ServerHello (or the HelloRetryRequest), and the decision of the
    client ([lib/picotls.c]). *)

From S2P Require Import Prelude Constants Wire Buffer Extensions Crypto KeySchedule Tls Record Emit Negotiate Hpke ClientHello HelloFormat HelloDecode Receive Conn Ech EchMessage Export Handshake Ticket ServerHello Cookie Psk Certificate Client.

(** draft-ietf-tls-esni, section 7.2: from the random of the inner ClientHello and the transcript, in which the place of the confirmation is
    zero. *)
Definition confirmation (a : ptls_hash_algorithm_t) (inner_random label transcript : bytes) : bytes :=
  HKDF_Expand_Label a (HKDF_Extract a [] inner_random) label (digest a transcript) PTLS_ECH_CONFIRM_LENGTH.

Lemma HKDF_Expand_bytes a prk info outlen : hash_ok a -> is_bytes (HKDF_Expand a prk info outlen).
Proof.
  intros Ha. apply Forall_take. induction (ceil_div _ _) as [|n IH]; [constructor|]. cbn [blocks]. apply Forall_app. split; [done|].
  by apply digest_bytes.
Qed.

Section Confirm.
Context `{Allocator}.

Lemma calc_confirmation_gives s inner_random label message :
  hash_ok (algo0 s) -> len (PTLS_HKDF_EXPAND_LABEL_PREFIX ++ label) < 256 ->
  gives (ech_calc_confirmation s inner_random label message)
    (confirmation (algo0 s) inner_random label (slot_ctx (slot0 s) ++ message)).
Proof.
  intros Ha Hl. pose proof (digest_size_pos _ Ha). pose proof (digest_size_max _ Ha). pose proof (digest_block _ Ha). unfold PTLS_MAX_DIGEST_SIZE in *.
  unfold ech_calc_confirmation, confirmation, guard_err. destruct (create_ok _); [|by right]. cbn [mbind result_bind].
  destruct (hkdf_extract_spec (algo0 s) [] inner_random Ha ltac:(change (len []) with 0; lia)) as [-> | ->]; [|by right]. cbn [mbind result_bind].
  destruct (hkdf_expand_label_prefix (algo0 s) (HKDF_Extract (algo0 s) [] inner_random) label (digest (algo0 s) (slot_ctx (slot0 s) ++ message)) 8 None Ha)
    as [-> | ->]; [unfold HKDF_Extract; rewrite HMAC_len by done; lia|lia|done|rewrite digest_len by done; lia|by left|by right].
Qed.

(** C20: the client accepts ECH on the server's confirmation, and on nothing else.  The server writes eight bytes that depend on the
    inner ClientHello's random and on the transcript over the zeros that it has left in its message, and changes nothing else (it fails
    only for lack of memory).  A client that has the same transcript and has drawn that random takes these bytes, and no others, for
    acceptance: it drops to the outer ClientHello otherwise, and refuses the handshake if the HelloRetryRequest had confirmed. *)
Theorem ech_confirmation_decides c s pre before after label t k x outer :
  buf_wf (cn_send c) -> hash_ok (algo0 s) -> len (PTLS_HKDF_EXPAND_LABEL_PREFIX ++ label) < 256 ->
  contents (cn_send c) = pre ++ before ++ replicate 8 0 ++ after -> before <> [] ->
  key_schedule (cn_tls c) = Some s ->
  key_schedule t = Some (mkSched 1 k [mkSlot (algo0 s) (slot_ctx (slot0 s)) outer]) -> outer = Some x ->
  inner_client_random (Tls.ech t) = inner_client_random (Tls.ech (cn_tls c)) ->
  let confirm := confirmation (algo0 s) (inner_client_random (Tls.ech (cn_tls c))) label (slot_ctx (slot0 s) ++ before ++ replicate 8 0 ++ after) in
  len confirm = 8 /\
  match write_confirmation label (len pre) (len pre + len before) c with
  | (Err e, _) => e = PTLS_ERROR_NO_MEMORY
  | (Ok _, c') => contents (cn_send c') = pre ++ before ++ confirm ++ after /\ cn_tls c' = cn_tls c
  end /\
  forall delivered, len delivered = 8 -> is_bytes delivered ->
  match client_ech_select_hello (before ++ delivered ++ after) (len before) label t with
  | (Err e, _) => e = PTLS_ERROR_NO_MEMORY \/
      e = PTLS_ALERT_ILLEGAL_PARAMETER /\ delivered <> confirm /\ ech_state (Tls.ech t) = PTLS_ECH_STATE_ACCEPTED
  | (Ok _, t') =>
      if decide (delivered = confirm) then t' = set_ech (set_ech_state PTLS_ECH_STATE_ACCEPTED (Tls.ech t)) t
      else ech_state (Tls.ech t) <> PTLS_ECH_STATE_ACCEPTED /\
           t' = set_key_schedule (Some (mkSched 1 k [mkSlot (algo0 s) x None])) (set_ech (set_ech_aead None (Tls.ech t)) t)
  end.
Proof.
  intros Hw Ha Hl Hc Hb Hs Hst -> Hr. set (r := inner_client_random (Tls.ech (cn_tls c))) in *.
  set (message := before ++ replicate 8 0 ++ after) in *. intros confirm.
  assert (len confirm = 8) as Hcl by (apply expand_label_len; [done|done]).
  assert (is_bytes confirm) as Hcb by (by apply HKDF_Expand_bytes).
  split; [done|]. split.
  - unfold write_confirmation. rewrite M_bind_run. unfold tls_op. rewrite get_schedule_run with (s := s) by done. rewrite M_bind_run. cbn [gets id].
    rewrite M_bind_run. cbn [cn_tls cn_send lift]. replace (drop (Z.to_nat (len pre)) (contents (cn_send c))) with message by (by rewrite Hc, drop_len_app).
    fold r. destruct (calc_confirmation_gives s r label message Ha Hl) as [-> | ->]; [|done]. fold confirm.
    unfold on_buf. cbn [modify mret M_ret get_buf put_buf conn_has_buffer]. cbn [cn_tls cn_send].
    destruct (poke_in (cn_send c) (pre ++ before) (replicate 8 0) confirm after Hw) as [_ Hp]; [by rewrite Hc, <- app_assoc|done|].
    rewrite len_app in Hp. cbn. split; [|done]. by rewrite Hp, <- app_assoc.
  - intros delivered Hd Hdb. unfold client_ech_select_hello.
    assert (len before <> 0) as Hne by (intros E; apply Hb; destruct before; [done|]; unfold len in E; cbn in E; lia).
    rewrite (proj2 (Z.eqb_neq _ _)) by done. cbn zeta. rewrite drop_len_app.
    replace (take (Z.to_nat PTLS_ECH_CONFIRM_LENGTH) (delivered ++ after)) with delivered
      by (change PTLS_ECH_CONFIRM_LENGTH with 8; by rewrite <- Hd, take_len_app).
    rewrite mem_write_app by (change (Z.to_nat PTLS_ECH_CONFIRM_LENGTH) with 8%nat; by rewrite Hd). change (Z.to_nat PTLS_ECH_CONFIRM_LENGTH) with 8%nat.
    fold message. rewrite M_bind_run. erewrite get_schedule_run by done. rewrite M_bind_run. cbn [gets]. rewrite M_bind_run. cbn [lift]. rewrite Hr.
    destruct (calc_confirmation_gives (mkSched 1 k [mkSlot (algo0 s) (slot_ctx (slot0 s)) (Some x)]) r label message Ha Hl) as [-> | ->]; [|by left].
    change (confirmation _ r label _) with confirm. pose proof (mem_equal_spec delivered confirm ltac:(unfold len in *; lia) Hdb Hcb) as Heq.
    destruct (mem_equal delivered confirm).
    + cbn. rewrite decide_True by (by apply Heq). done.
    + assert (delivered <> confirm) as Hn by (intros E; apply Heq in E; done).
      destruct (bool_decide_reflect (ech_state (Tls.ech t) = PTLS_ECH_STATE_ACCEPTED)) as [E|E]; [by right|].
      rewrite M_bind_run. cbn [modify]. unfold sched_op. rewrite M_bind_run. erewrite get_schedule_run by done.
      assert (key_schedule_select_outer (mkSched 1 k [mkSlot (algo0 s) (slot_ctx (slot0 s)) (Some x)])
              = (Ok (), mkSched 1 k [mkSlot (algo0 s) x None])) as -> by reflexivity.
      rewrite M_bind_run. cbn [modify lift]. by rewrite decide_False by done.
Qed.

End Confirm.

(** ** Witness *)

Definition toy_confirming : conn :=
  mkConn (set_ech toy_ech (toy_tls true)) (ptls_buffer_init 64 [0; 0; 0; 0] 1) [] None.

Definition toy_zeroed : bytes := [2; 0; 0; 20] ++ replicate 8 0 ++ [1; 2].

Definition toy_filled : result unit * conn := @ptls_buffer_pushv bump_allocator conn _ toy_zeroed toy_confirming.

Definition toy_deciding : ptls_t :=
  set_key_schedule (Some (mkSched 1 (replicate 64 0) [mkSlot (algo0 toy_sched) (slot_ctx (slot0 toy_sched)) (Some [9])])) (set_ech toy_ech (toy_tls false)).

Lemma toy_filled_ok : contents (cn_send toy_filled.2) = [] ++ [2; 0; 0; 20] ++ replicate 8 0 ++ [1; 2] /\
  buf_wf (cn_send toy_filled.2) /\ key_schedule (cn_tls toy_filled.2) = Some toy_sched /\
  inner_client_random (Tls.ech (cn_tls toy_filled.2)) = inner_client_random toy_ech.
Proof.
  pose proof (@emits_pushv bump_allocator conn _ toy_zeroed toy_confirming bump_push_witness_wf) as Ho. unfold toy_filled.
  assert (is_ok (@ptls_buffer_pushv bump_allocator conn _ toy_zeroed toy_confirming).1 = true) as Hok by (vm_compute; reflexivity).
  assert (forall c, cn_tls c = cn_tls (@ptls_buffer_pushv bump_allocator conn _ toy_zeroed c).2) as Ht
    by (intros c; unfold ptls_buffer_pushv, on_buf; by destruct (do_pushv _ _)).
  rewrite <- Ht. destruct (@ptls_buffer_pushv _ _ _ _ _) as [[[]|e] c]; [|done]. destruct Ho as (Hw & _ & _ & Hc). cbn [fst snd] in *.
  split; [exact Hc|]. split; [exact Hw|]. split; reflexivity.
Qed.

Lemma ech_confirmation_decides_witness :
  exists confirm, len confirm = 8 /\
  forall delivered, len delivered = 8 -> is_bytes delivered -> delivered <> confirm ->
  match @client_ech_select_hello bump_allocator ([2; 0; 0; 20] ++ delivered ++ [1; 2]) 4 ECH_CONFIRMATION_SERVER_HELLO toy_deciding with
  | (Ok _, t') => ech_aead (Tls.ech t') = None
  | (Err e, _) => e = PTLS_ERROR_NO_MEMORY
  end.
Proof.
  destruct toy_filled_ok as (Hc & Hw & Hs & Hr).
  destruct (@ech_confirmation_decides bump_allocator toy_filled.2 toy_sched [] [2; 0; 0; 20] [1; 2] ECH_CONFIRMATION_SERVER_HELLO toy_deciding (replicate 64 0) [9] (Some [9])
    Hw toy_hash_ok eq_refl Hc ltac:(discriminate) Hs eq_refl eq_refl (eq_sym Hr)) as (Hl & _ & H).
  set (confirm := confirmation _ _ _ _) in *. exists confirm. split; [exact Hl|]. intros delivered Hd Hb Hn. specialize (H delivered Hd Hb). change (len [2; 0; 0; 20]) with 4 in H.
  destruct (client_ech_select_hello _ _ _ _) as [[[]|e] t'].
  - destruct (decide (delivered = confirm)) as [E|E]; [contradiction|]. destruct H as [_ ->]. reflexivity.
  - destruct H as [H|(_ & _ & H)]; [exact H|discriminate H].
Defined.
