(* ===== verification/Server.v ===== *)
(** * Server: the server's side of the negotiation ([lib/picotls.c])

    What the server does with a ClientHello: the checks, ECH, the selection of parameters, HelloRetryRequest with a cookie or
    without, the pre-shared keys, and its whole flight up to Finished and the session tickets. *)

From S2P Require Import Prelude Constants Wire Buffer Extensions Crypto KeySchedule Tls Record Emit Negotiate Hpke ClientHello HelloFormat HelloDecode Receive Conn Ech EchMessage Export Handshake Ticket ServerHello Cookie Psk Certificate Client.

(** What the code asks of the outside.  [on_client_hello] is the callback: the message as decoded (of a version that is not supported,
    the caller gives only part of it), its bytes, and whether the version is incompatible; it may change the connection (the
    context, the server name, the protocol).  [server_random] is what [random_bytes] writes, [age_adds] what it writes for each ticket. *)
Record server_env := mkServerEnv {
  on_client_hello : option (st_ptls_client_hello_t -> bytes -> bool -> M ptls_t unit);
  sv_emit_certificate : option (bytes -> bool -> list Z -> M conn unit);
  server_random : bytes;
  age_adds : nat -> Z;
}.

(* src lib/picotls.c:5704-5716 ptls_is_ech_handshake *)
Definition ptls_is_ech_handshake (t : ptls_t) : bool := bool_decide (ech_state (Tls.ech t) = PTLS_ECH_STATE_ACCEPTED).

(** ** Finishing *)

Section Finish.
Context `{Allocator} (env : server_env) (em : ptls_message_emitter_t).

Definition set_transcript (x : bytes) (s : ptls_key_schedule_t) : ptls_key_schedule_t :=
  set_hashes (mkSlot (algo0 s) x (slot_ctx_outer (slot0 s)) :: tail (hashes s)) s.

(** The messages that the client will send enter the transcript before it sends them; what is pushed for that is taken back. *)
(* src lib/picotls.c:1941-1958 orig_off *)
Definition foresee_finished : M conn unit :=
  c ← gets id;
  let t := cn_tls c in
  let orig_off := off (cn_send c) in
  _ ← when (is_inhabited (pending_handshake_secret t) && negb (omit_end_of_early_data (ctx t)))
        (_ ← lift (guard_err (bool_decide (state t = PTLS_STATE_SERVER_EXPECT_END_OF_EARLY_DATA)) ABORTED);
         _ ← ptls_buffer_push_message_body true PTLS_HANDSHAKE_TYPE_END_OF_EARLY_DATA (mret ());
         modify (rewind orig_off));
  _ ← ptls_buffer_push_message_body true PTLS_HANDSHAKE_TYPE_FINISHED
        (sched ← tls_op get_schedule;
         _ ← on_buf (reserve (digest_size (algo0 sched)) 1);
         v ← lift (calc_verify_data sched (default (tp_secret (dec t)) (pending_handshake_secret t)));
         on_buf (modify (append_reserved v)));
  modify (rewind orig_off).

(** The session, encrypted for the server itself. *)
(* src lib/picotls.c:1962-1983 session_id *)
Definition push_ticket (ticket_age_add : Z) : M conn unit :=
  t ← gets cn_tls;
  sched ← tls_op get_schedule;
  session_id ←
    match key_share t with
    | None => mret []
    | Some k =>
        suite ← tls_op get_suite;
        let '(r, b) := encode_session_identifier (ctx t) ticket_age_add [] sched (server_name t) (kex_id k) (cs_id suite)
                         (negotiated_protocol t) (smallbuf 128) in
        _ ← lift r;
        mret (contents b)
    end;
  ptls_push_message em true PTLS_HANDSHAKE_TYPE_NEW_SESSION_TICKET
    (_ ← ptls_buffer_push32 (ticket_lifetime (ctx t));
     _ ← ptls_buffer_push32 ticket_age_add;
     _ ← ptls_buffer_push_block 1 (mret ());
     _ ← ptls_buffer_push_block 2
           (cb ← lift (is_some_or (encrypt_ticket (ctx t)) ABORTED);
            let '(ret, ticket) := cb true session_id in
            _ ← ptls_buffer_pushv ticket;
            lift (guard_err (ret =? 0) ret));
     ptls_buffer_push_block 2
       (when (negb (max_early_data_size (ctx t) =? 0))
          (buffer_push_extension PTLS_EXTENSION_TYPE_EARLY_DATA (ptls_buffer_push32 (max_early_data_size (ctx t)))))).

(** The transcript is put back, whatever happens. *)
(* src lib/picotls.c:1928-1993 send_session_ticket *)
Definition send_session_ticket (ticket_age_add : Z) : M conn unit :=
  sched ← tls_op get_schedule;
  let msghash_backup := slot_ctx (slot0 sched) in
  t ← gets cn_tls;
  _ ← lift (guard_err (negb (ticket_lifetime (ctx t) =? 0) && is_inhabited (encrypt_ticket (ctx t))) ABORTED);
  let restore := tls_op (sched_op (modify (set_transcript msghash_backup))) in
  _ ← catch (_ ← foresee_finished; push_ticket ticket_age_add) (λ e, _ ← restore; fail e);
  restore.

(* src lib/picotls.c:5041-5046 num_tickets_to_send *)
Fixpoint send_tickets (n i : nat) : M conn unit :=
  match n with
  | O => mret ()
  | S n => _ ← send_session_ticket (age_adds env i); send_tickets n (S i)
  end.

(* src lib/picotls.c:5026-5038 omit_end_of_early_data *)
Definition expect_client : M ptls_t unit :=
  t ← gets id;
  if is_inhabited (pending_handshake_secret t) then
    if omit_end_of_early_data (ctx t) then
      _ ← commission_handshake_secret;
      modify (set_state PTLS_STATE_SERVER_EXPECT_FINISHED)
    else modify (set_state PTLS_STATE_SERVER_EXPECT_END_OF_EARLY_DATA)
  else if require_client_authentication (ctx t) then modify (set_state PTLS_STATE_SERVER_EXPECT_CERTIFICATE)
  else modify (set_state PTLS_STATE_SERVER_EXPECT_FINISHED).

(** [signature_algorithms] is [None] when no CertificateVerify is sent. *)
(* src lib/picotls.c:4998-5056 server_finish_handshake *)
Definition server_finish_handshake (signature_algorithms : option (list Z)) : M conn unit :=
  _ ← match signature_algorithms with
      | None => mret ()
      | Some algos =>
          catch (send_certificate_verify em algos PTLS_SERVER_CERTIFICATE_VERIFY_CONTEXT_STRING) (λ e,
            _ ← when (e =? PTLS_ERROR_ASYNC_OPERATION) (modify (on_tls (set_state PTLS_STATE_SERVER_GENERATING_CERTIFICATE_VERIFY)));
            fail e)
      end;
  _ ← send_finished em;
  _ ← tls_op
        (sched ← get_schedule;
         _ ← lift (guard_err (generation sched =? 2) ABORTED);
         _ ← sched_op (key_schedule_extract None);
         _ ← setup_traffic_protection true (Some (str "s ap traffic")) 3 0 false;
         sched ← get_schedule;
         secret ← lift (derive_secret sched (str "c ap traffic"));
         _ ← modify (λ t, set_pending_traffic_secret (mem_write (pending_traffic_secret t) 0 secret) t);
         _ ← derive_exporter_secret false;
         expect_client);
  t ← gets cn_tls;
  _ ← when (negb (num_tickets_to_send t =? 0))
        (_ ← lift (guard_err (negb (ticket_lifetime (ctx t) =? 0)) ABORTED); send_tickets (Z.to_nat (num_tickets_to_send t)) 0);
  when (require_client_authentication (ctx t)) (fail PTLS_ERROR_IN_PROGRESS).

End Finish.

(** ** The ClientHello *)

Section Hello.
Context `{Allocator} (env : server_env).

(* src lib/picotls.c:4125-4146 call_on_client_hello_cb *)
Definition call_on_client_hello_cb (ch : st_ptls_client_hello_t) (raw_message : bytes) (incompatible_version : bool) : M ptls_t unit :=
  match on_client_hello env with
  | None => mret ()
  | Some cb => cb ch raw_message incompatible_version
  end.

(** [prev_random] is [None] in the first flight. *)
(* src lib/picotls.c:4148-4199 check_client_hello_constraints *)
Definition check_client_hello_constraints (ch : st_ptls_client_hello_t) (prev_random : option bytes) (ech_is_inner_ch : bool)
    (raw_message : bytes) : M ptls_t unit :=
  _ ← lift (guard_err (match prev_random with
                       | None => true
                       | Some r => mem_equal (take (Z.to_nat PTLS_HELLO_RANDOM_SIZE) (random_bytes ch)) (take (Z.to_nat PTLS_HELLO_RANDOM_SIZE) r)
                       end) PTLS_ALERT_HANDSHAKE_FAILURE);
  _ ← (if is_supported_version (selected_version ch) then mret ()
       else if ech_is_inner_ch then fail PTLS_ALERT_ILLEGAL_PARAMETER
       else
         _ ← when (negb (is_inhabited prev_random)) (call_on_client_hello_cb ch raw_message true);
         fail PTLS_ALERT_PROTOCOL_VERSION);
  _ ← lift (guard_err (negb (ch_legacy_version ch <=? 0x0300)) PTLS_ALERT_PROTOCOL_VERSION);
  _ ← lift (guard_err (bool_decide (compression_methods ch = [0])) PTLS_ALERT_ILLEGAL_PARAMETER);
  _ ← lift (guard_err (if is_inhabited (psk_hash_left ch) then psk_is_last_extension ch else negb (early_data_indication ch))
              PTLS_ALERT_ILLEGAL_PARAMETER);
  let payload := is_inhabited (che_payload (ch_ech ch)) in
  _ ← lift (guard_err (negb (ech_is_inner_ch && negb payload)) PTLS_ALERT_ILLEGAL_PARAMETER);
  lift (guard_err (negb (payload && negb (che_type (ch_ech ch) =?
                     if ech_is_inner_ch then PTLS_ECH_CLIENT_HELLO_TYPE_INNER else PTLS_ECH_CLIENT_HELLO_TYPE_OUTER)))
          PTLS_ALERT_ILLEGAL_PARAMETER).

(** The first decoding, the random of the connection, and in the second flight the consistency of the ECH extension. *)
(* src lib/picotls.c:4466-4487 decode_client_hello *)
Definition receive_hello (is_second_flight : bool) (message : bytes) : M conn st_ptls_client_hello_t :=
  c ← gets id;
  ch ← lift (decode_client_hello (ctx (cn_tls c)) (cn_properties c) empty_client_hello (drop (Z.to_nat PTLS_HANDSHAKE_HEADER_SIZE) message));
  _ ← tls_op (check_client_hello_constraints ch (if is_second_flight then Some (client_random (cn_tls c)) else None) false message);
  _ ← (if is_second_flight then
         e ← gets (λ c, Tls.ech (cn_tls c));
         when (is_inhabited (ech_aead e))
           (_ ← lift (guard_err (is_inhabited (che_payload (ch_ech ch))) PTLS_ALERT_MISSING_EXTENSION);
            cipher ← lift (is_some_or (ech_cipher e) ABORTED);
            lift (guard_err ((che_config_id (ch_ech ch) =? ech_config_id e) && (che_kdf (ch_ech ch) =? hpke_kdf cipher)
                             && (che_aead (ch_ech ch) =? hpke_aead_id cipher) && (len (che_enc (ch_ech ch)) =? 0))
                    PTLS_ALERT_ILLEGAL_PARAMETER))
       else modify (on_tls (set_client_random (take (Z.to_nat PTLS_HELLO_RANDOM_SIZE) (random_bytes ch)))));
  mret ch.

(** The inner ClientHello takes the place of the outer one: it is decoded and checked like a message. *)
(* src lib/picotls.c:4519-4536 rebuild_ch_inner *)
Definition adopt_inner (is_second_flight : bool) (ch : st_ptls_client_hello_t) (message text : bytes) : M conn (st_ptls_client_hello_t * bytes) :=
  _ ← ech_op (modify (set_ech_state PTLS_ECH_STATE_ACCEPTED));
  let '(r, b) := rebuild_ch_inner text (ch_legacy_session_id ch)
                   (drop (Z.to_nat (PTLS_HANDSHAKE_HEADER_SIZE + first_extension_at ch)) message)
                   (ptls_buffer_init_rx EMPTY_STRING []) in
  _ ← lift r;
  let message := contents b in
  c ← gets id;
  ch ← lift (decode_client_hello (ctx (cn_tls c)) (cn_properties c) empty_client_hello (drop (Z.to_nat PTLS_HANDSHAKE_HEADER_SIZE) message));
  _ ← tls_op (check_client_hello_constraints ch
                (if is_second_flight then Some (inner_client_random (Tls.ech (cn_tls c))) else None) true message);
  _ ← when (negb is_second_flight)
        (ech_op (modify (set_inner_client_random (take (Z.to_nat PTLS_HELLO_RANDOM_SIZE) (random_bytes ch)))));
  mret (ch, message).

(** The context that opens the payload. *)
(* src lib/picotls.c:4495-4503 create_opener *)
Definition create_opener (ch : st_ptls_client_hello_t) : M conn unit :=
  t ← gets cn_tls;
  _ ← ech_op (modify (set_ech_state PTLS_ECH_STATE_OFFERED));
  match ech_create_opener (ctx t) with
  | None => mret ()
  | Some cb =>
      let e := ch_ech ch in
      match cb (che_config_id e) (che_kdf e, che_aead e) (che_enc e) ech_info_prefix with
      | None => ech_op (modify (set_ech_aead None))
      | Some (kem, cipher, a) =>
          ech_op (modify (λ s, mkEch (ech_state s) (che_config_id e) (Some kem) (Some cipher) (Some a) (inner_client_random s) (ech_enc s)
                                 (max_name_length s) (public_name s) (first_ech s)))
      end
  end.

(** The message to go on with, decoded, and its bytes. *)
(* src lib/picotls.c:4490-4551 encoded_ch_inner *)
Definition open_hello (is_second_flight : bool) (ch : st_ptls_client_hello_t) (message : bytes) : M conn (st_ptls_client_hello_t * bytes) :=
  if is_inhabited (che_payload (ch_ech ch)) then
    _ ← lift (guard_err (che_type (ch_ech ch) =? PTLS_ECH_CLIENT_HELLO_TYPE_OUTER) PTLS_ALERT_ILLEGAL_PARAMETER);
    _ ← when (negb is_second_flight) (create_opener ch);
    e ← gets (λ c, Tls.ech (cn_tls c));
    match ech_aead e with
    | None => mret (ch, message)
    | Some a =>
        text ← lift (open_payload a is_second_flight ch message);
        match text with
        | Some text => adopt_inner is_second_flight ch message text
        | None =>
            if is_second_flight then fail PTLS_ALERT_DECRYPT_ERROR
            else _ ← ech_op (modify (set_ech_aead None)); mret (ch, message)
        end
    end
  else
    st ← gets (λ c, ech_state (Tls.ech (cn_tls c)));
    if bool_decide (st = PTLS_ECH_STATE_NONE) then mret (ch, message)
    else
      _ ← lift (guard_err is_second_flight ABORTED);
      fail PTLS_ALERT_ILLEGAL_PARAMETER.

(** The application is told of the first ClientHello; the second must agree with it. *)
(* src lib/picotls.c:4556-4589 call_on_client_hello_cb *)
Definition consider_hello (is_second_flight : bool) (ch : st_ptls_client_hello_t) (message : bytes) : M ptls_t unit :=
  if is_second_flight then
    _ ← lift (guard_err (negb (early_data_indication ch)) PTLS_ALERT_DECODE_ERROR);
    name ← gets server_name;
    match name with
    | None => mret ()
    | Some n => lift (guard_err (bool_decide (default [] (ch_server_name ch) = c_string n)) PTLS_ALERT_HANDSHAKE_FAILURE)
    end
  else
    _ ← when (negb (len (ch_legacy_session_id ch) =? 0)) (modify (set_send_change_cipher_spec true));
    _ ← call_on_client_hello_cb ch message false;
    c ← gets ctx;
    lift (guard_err (certificate_type_exists (server_certificate_types ch)
                       (if use_raw_public_keys c then PTLS_CERTIFICATE_TYPE_RAW_PUBLIC_KEY else PTLS_CERTIFICATE_TYPE_X509))
            PTLS_ALERT_UNSUPPORTED_CERTIFICATE).

(** Suites are compared by their pointers; the id stands for it. *)
(* src lib/picotls.c:4591-4609 select_cipher *)
Definition choose_cipher (is_second_flight : bool) (ch : st_ptls_client_hello_t) : M ptls_t unit :=
  c ← gets ctx;
  cs ← lift (select_cipher (cipher_suites c) (ch_cipher_suites ch) (server_cipher_preference c) (server_cipher_chacha_priority c) (psk_hash c));
  if is_second_flight then
    suite ← gets cipher_suite;
    lift (guard_err (match suite with Some s => cs_id s =? cs_id cs | None => false end) PTLS_ALERT_HANDSHAKE_FAILURE)
  else
    _ ← modify (set_cipher_suite (Some cs));
    let sched := key_schedule_new (Some cs) [] false in
    _ ← modify (set_key_schedule sched);
    _ ← lift (is_some_or sched PTLS_ERROR_NO_MEMORY);
    mret ().

(** The algorithm and the key of the client, if one of its key shares is of a known group. *)
(* src lib/picotls.c:4611-4618 select_key_share *)
Definition choose_group (c : ptls_context_t) (ch : st_ptls_client_hello_t) : result (option (ptls_key_exchange_algorithm_t * bytes)) :=
  match key_shares ch, key_exchanges c with
  | Some src, Some l => ptls_decode_block 2 (select_key_share l false) src
  | _, _ => Ok None
  end.

End Hello.

(** ** HelloRetryRequest *)

Section Retry.
Context `{Allocator} (em : ptls_message_emitter_t).

(** An error of the extraction is not looked at. *)
Definition extract_unchecked (ikm : option bytes) : M ptls_t unit := catch (sched_op (key_schedule_extract ikm)) (λ e, if e =? ABORTED then fail e else mret ()).

(** A second ClientHello of a handshake of which nothing was kept: what the cookie says of the first one enters the transcript, and
    the HelloRetryRequest is written again for its hash, and taken back. *)
(* src lib/picotls.c:4621-4649 hrr_start *)
Definition resume_from_cookie (ch : st_ptls_client_hello_t) (group : ptls_key_exchange_algorithm_t) : M conn unit :=
  c ← gets id;
  _ ← lift (check_cookie (cn_tls c) (cn_properties c) group ch);
  _ ← tls_op (sched_op (modify key_schedule_update_ch1hash_prefix));
  _ ← tls_op (update_hash (cookie_ch1_hash ch));
  _ ← tls_op (extract_unchecked (psk_secret (ctx (cn_tls c))));
  hrr_start ← gets (λ c, off (cn_send c));
  _ ← emit_hello_retry_request em ch (if cookie_sent_key_share ch then Some group else None)
        (buffer_push_extension PTLS_EXTENSION_TYPE_COOKIE (ptls_buffer_pushv (cookie_all ch))) (λ _ _, mret ());
  modify (rewind hrr_start).

(* src lib/picotls.c:4651-4740 negotiated_group *)
Definition send_retry (ch : st_ptls_client_hello_t) (message : bytes) (key_share_algorithm : option ptls_key_exchange_algorithm_t) : M conn unit :=
  c ← gets id;
  let t := cn_tls c in
  groups ← lift (is_some_or (negotiated_groups ch) PTLS_ALERT_MISSING_EXTENSION);
  negotiated_group ← lift (select_negotiated_group (kex_list (ctx t)) groups);
  _ ← tls_op (update_hash message);
  sched ← tls_op get_schedule;
  _ ← lift (guard_err (generation sched =? 0) ABORTED);
  let uses_cookie := match cn_properties c with Some pr => retry_uses_cookie pr | None => false end && negb (ptls_is_ech_handshake t) in
  _ ← when (negb uses_cookie)
        (_ ← tls_op (sched_op (modify key_schedule_transform_post_ch1hash)); tls_op (extract_unchecked (psk_secret (ctx t))));
  _ ← emit_hello_retry_request em ch (if is_inhabited key_share_algorithm then None else Some negotiated_group)
        (push_retry_extensions (ptls_is_ech_handshake t) uses_cookie (Some negotiated_group) (negb (is_inhabited key_share_algorithm)))
        (λ sh_start_off ech_confirm_off,
           when (negb (ech_confirm_off =? 0)) (write_confirmation ECH_CONFIRMATION_HRR sh_start_off ech_confirm_off));
  if (uses_cookie : bool) then
    _ ← push_change_cipher_spec em;
    fail PTLS_ERROR_STATELESS_RETRY
  else
    _ ← modify (on_tls (set_state PTLS_STATE_SERVER_EXPECT_SECOND_CLIENT_HELLO));
    _ ← when (early_data_indication ch) (modify (on_tls (set_early_data_skipped_bytes 0)));
    fail PTLS_ERROR_IN_PROGRESS.

(** Whether this is a second flight from here on. *)
(* src lib/picotls.c:4620-4741 is_second_flight *)
Definition retry_or_go_on (is_second_flight : bool) (ch : st_ptls_client_hello_t) (message : bytes)
    (share : option (ptls_key_exchange_algorithm_t * bytes)) : M conn bool :=
  c ← gets id;
  let enforced := match cn_properties c with Some pr => enforce_retry pr | None => false end in
  if is_second_flight then mret true
  else
    match (if negb (len (cookie_all ch) =? 0) then share else None) with
    | Some (group, _) => _ ← resume_from_cookie ch group; mret true
    | None =>
        if is_inhabited (key_shares ch) && is_inhabited (key_exchanges (ctx (cn_tls c))) && (negb (is_inhabited share) || enforced)
        then _ ← send_retry ch message (fst <$> share); mret false
        else mret false
    end.

End Retry.

(** ** The keys and the flight of the server *)

Section Flight.
Context `{Allocator} (env : server_env) (em : ptls_message_emitter_t).

Definition offers_mode (ch : st_ptls_client_hello_t) (mode : Z) : bool := Z.testbit (psk_ke_modes ch) mode.

(** [psk_index], [None] for [SIZE_MAX], and [accept_early_data]. *)
(* src lib/picotls.c:4747-4762 try_psk_handshake *)
Definition select_psk (is_second_flight : bool) (ch : st_ptls_client_hello_t) (message : bytes) : M ptls_t (option nat * bool) :=
  c ← gets ctx;
  r ← match psk_hash_left ch with
      | Some n =>
          if (offers_mode ch PTLS_PSK_KE_MODE_PSK || offers_mode ch PTLS_PSK_KE_MODE_PSK_DHE) && negb (require_client_authentication c)
             && ((negb is_second_flight && is_inhabited (encrypt_ticket c)) || is_inhabited (psk_identity c))
          then try_psk_handshake ch (take (Z.to_nat (len message - n)) message) is_second_flight
          else mret (None, false)
      | None => mret (None, false)
      end;
  _ ← lift (guard_err (negb (is_inhabited (psk_identity c) && negb (is_inhabited (fst r)))) PTLS_ALERT_UNKNOWN_PSK_IDENTITY);
  mret r.

(** The binder is copied into an array of [PTLS_MAX_DIGEST_SIZE] bytes. *)
(* src lib/picotls.c:4788-4792 selected_psk_binder *)
Definition report_binder (ch : st_ptls_client_hello_t) (psk_index : nat) : M conn unit :=
  p ← gets cn_properties;
  match p, psk_identities ch !! psk_index with
  | None, _ => mret ()
  | Some _, Some i =>
      _ ← lift (guard_err (len (binder i) <=? PTLS_MAX_DIGEST_SIZE) OVER_WRITE);
      modify (on_props (set_selected_psk_binder (binder i)))
  | Some _, None => fail OVER_READ
  end.

(* src lib/picotls.c:4770-4793 mode *)
Definition determine_mode (is_second_flight : bool) (ch : st_ptls_client_hello_t) (message : bytes) (psk_index : option nat) : M conn handshake_mode :=
  c ← gets (λ c, ctx (cn_tls c));
  match psk_index, require_client_authentication c with
  | Some i, false =>
      _ ← tls_op (update_hash (drop (Z.to_nat (len message - default 0 (psk_hash_left ch))) message));
      mode ← (if offers_mode ch PTLS_PSK_KE_MODE_PSK then mret HANDSHAKE_MODE_PSK
              else _ ← lift (guard_err (offers_mode ch PTLS_PSK_KE_MODE_PSK_DHE) ABORTED); mret HANDSHAKE_MODE_PSK_DHE);
      _ ← modify (on_tls (set_is_psk_handshake true));
      _ ← report_binder ch i;
      mret mode
  | _, _ =>
      _ ← tls_op (update_hash message);
      _ ← when (negb is_second_flight)
            (sched ← tls_op get_schedule;
             _ ← lift (guard_err (generation sched =? 0) ABORTED);
             tls_op (extract_unchecked None));
      _ ← modify (on_props (set_selected_psk_binder []));
      mret HANDSHAKE_MODE_FULL
  end.

(* src lib/picotls.c:4796-4810 max_tickets *)
Definition tickets_to_send (t : ptls_t) (ch : st_ptls_client_hello_t) : Z :=
  if negb (psk_ke_modes ch =? 0) && negb (ticket_lifetime (ctx t) =? 0) then
    let '(new_session, resumption) := ticket_request ch in
    let n := if negb (new_session =? 0) then (if is_psk_handshake t then resumption else new_session) else 1 in
    let max_tickets := if max_ticket_count (ctx t) =? 0 then PTLS_DEFAULT_MAX_TICKETS_TO_SERVE else max_ticket_count (ctx t) in
    if max_tickets <? n then max_tickets else n
  else 0.

(* src lib/picotls.c:4812-4821 accept_early_data *)
Definition accept_early (psk_index : option nat) (accept_early_data : bool) : M ptls_t unit :=
  c ← gets ctx;
  when (accept_early_data && negb (max_early_data_size c =? 0) && bool_decide (psk_index = Some 0%nat))
    ('(_, m) ← lift (is_some_or (malloc PTLS_MAX_DIGEST_SIZE) PTLS_ERROR_NO_MEMORY);
     _ ← modify (set_pending_handshake_secret (Some m));
     _ ← derive_exporter_secret true;
     setup_traffic_protection false (Some (str "c e traffic")) 1 0 false).

(** The public key and the secret; empty and NULL when no key is exchanged. *)
(* src lib/picotls.c:4824-4835 ecdh_secret *)
Definition exchange_keys (mode : handshake_mode) (ch : st_ptls_client_hello_t) (share : option (ptls_key_exchange_algorithm_t * bytes))
    : M ptls_t (Z * bytes * option bytes) :=
  if bool_decide (mode = HANDSHAKE_MODE_PSK) then mret (0, [], None)
  else
    match share with
    | None => fail (if is_inhabited (key_shares ch) then PTLS_ALERT_HANDSHAKE_FAILURE else PTLS_ALERT_MISSING_EXTENSION)
    | Some (k, peer_key) =>
        '(pubkey, secret) ← lift (kex_exchange k peer_key);
        _ ← modify (set_key_share (Some k));
        mret (kex_id k, pubkey, Some secret)
    end.

(** With ECH, the end of the random is left zero for the confirmation. *)
(* src lib/picotls.c:4837-4870 EMIT_SERVER_HELLO *)
Definition send_server_hello (ch : st_ptls_client_hello_t) (mode : handshake_mode) (group : Z) (pubkey : bytes) (psk_index : option nat) : M conn unit :=
  is_ech ← gets (λ c, ptls_is_ech_handshake (cn_tls c));
  let random := if (is_ech : bool) then mem_write (server_random env) (PTLS_HELLO_RANDOM_SIZE - PTLS_ECH_CONFIRM_LENGTH) (replicate (Z.to_nat PTLS_ECH_CONFIRM_LENGTH) 0)
                else server_random env in
  emit_server_hello em ch random
    (push_hello_extensions mode group pubkey (match psk_index with Some i => Z.of_nat i | None => SIZE_MAX end))
    (λ sh_start_off _,
       when is_ech (write_confirmation ECH_CONFIRMATION_SERVER_HELLO sh_start_off
                      (sh_start_off + PTLS_HANDSHAKE_HEADER_SIZE + 2 + PTLS_HELLO_RANDOM_SIZE - PTLS_ECH_CONFIRM_LENGTH))).

(* src lib/picotls.c:4878-4894 pending_handshake_secret *)
Definition server_handshake_keys (ch : st_ptls_client_hello_t) (ecdh_secret : option bytes) : M ptls_t unit :=
  sched ← get_schedule;
  _ ← lift (guard_err (generation sched =? 1) ABORTED);
  _ ← extract_unchecked ecdh_secret;
  _ ← setup_traffic_protection true (Some (str "s hs traffic")) 2 0 false;
  t ← gets id;
  match pending_handshake_secret t with
  | Some m =>
      sched ← get_schedule;
      secret ← lift (derive_secret sched (str "c hs traffic"));
      let secret := mem_write m 0 secret in
      _ ← modify (set_pending_handshake_secret (Some secret));
      match update_traffic_key (ctx t) with
      | None => mret ()
      | Some cb => let ret := cb false 2 secret in lift (guard_err (ret =? 0) ret)
      end
  | None =>
      _ ← setup_traffic_protection false (Some (str "c hs traffic")) 2 0 false;
      when (early_data_indication ch) (modify (set_early_data_skipped_bytes 0))
  end.

(* src lib/picotls.c:4896-4932 PTLS_HANDSHAKE_TYPE_ENCRYPTED_EXTENSIONS *)
Definition send_encrypted_extensions (ch : st_ptls_client_hello_t) : M conn unit :=
  c ← gets id;
  let t := cn_tls c in
  ptls_push_message em true PTLS_HANDSHAKE_TYPE_ENCRYPTED_EXTENSIONS
    (ptls_buffer_push_block 2
      (_ ← when (is_inhabited (server_name t)) (buffer_push_extension PTLS_EXTENSION_TYPE_SERVER_NAME (mret ()));
       _ ← when (use_raw_public_keys (ctx t))
             (buffer_push_extension PTLS_EXTENSION_TYPE_SERVER_CERTIFICATE_TYPE (ptls_buffer_push [PTLS_CERTIFICATE_TYPE_RAW_PUBLIC_KEY]));
       _ ← match negotiated_protocol t with
           | None => mret ()
           | Some p => buffer_push_extension PTLS_EXTENSION_TYPE_ALPN
                         (ptls_buffer_push_block 2 (ptls_buffer_push_block 1 (ptls_buffer_pushv (c_string p))))
           end;
       _ ← when (is_inhabited (pending_handshake_secret t)) (buffer_push_extension PTLS_EXTENSION_TYPE_EARLY_DATA (mret ()));
       _ ← when (bool_decide (ech_state (Tls.ech t) = PTLS_ECH_STATE_OFFERED) && is_inhabited (ech_create_opener (ctx t))
                 && negb (len (ech_retry_configs (ctx t)) =? 0))
             (buffer_push_extension PTLS_EXTENSION_TYPE_ENCRYPTED_CLIENT_HELLO (ptls_buffer_pushv (ech_retry_configs (ctx t))));
       _ ← when (negb (fst (ticket_request ch) =? 0) && negb (num_tickets_to_send t =? 0))
             (buffer_push_extension PTLS_EXTENSION_TYPE_TICKET_REQUEST (ptls_buffer_push [num_tickets_to_send t]));
       push_additional_extensions (cn_properties c))).

(* src lib/picotls.c:4936-4967 PTLS_HANDSHAKE_TYPE_CERTIFICATE_REQUEST *)
Definition send_certificate_request : M conn unit :=
  c ← gets (λ c, ctx (cn_tls c));
  ptls_push_message em true PTLS_HANDSHAKE_TYPE_CERTIFICATE_REQUEST
    (_ ← ptls_buffer_push [0];
     ptls_buffer_push_block 2
       (_ ← buffer_push_extension PTLS_EXTENSION_TYPE_SIGNATURE_ALGORITHMS (push_signature_algorithms (verify_certificate c));
        when (negb (len (client_ca_names c) =? 0))
          (buffer_push_extension PTLS_EXTENSION_TYPE_CERTIFICATE_AUTHORITIES
            (ptls_buffer_push_block 2 (push_all (λ name, ptls_buffer_push_block 2 (ptls_buffer_pushv name)) (client_ca_names c)))))).

(** The certificate, its proof and Finished. *)
(* src lib/picotls.c:4934-4980 HANDSHAKE_MODE_FULL *)
Definition prove_and_finish (ch : st_ptls_client_hello_t) (mode : handshake_mode) : M conn unit :=
  if bool_decide (mode = HANDSHAKE_MODE_FULL) then
    c ← gets (λ c, ctx (cn_tls c));
    _ ← when (require_client_authentication c) send_certificate_request;
    _ ← send_certificate em (sv_emit_certificate env) (ch_signature_algorithms ch) [] (status_request ch) (cert_compression_algos ch);
    server_finish_handshake env em (Some (ch_signature_algorithms ch))
  else server_finish_handshake env em None.

(** [sizeof(struct st_ptls_client_hello_t)]; the value does not matter. *)
Definition SIZEOF_CLIENT_HELLO : Z := 4096.

(** [ke_modes &= ~(1u << PTLS_PSK_KE_MODE_PSK)] *)
(* src lib/picotls.c:4553-4554 require_dhe_on_psk *)
Definition restrict_modes (c : ptls_context_t) (ch : st_ptls_client_hello_t) : st_ptls_client_hello_t :=
  if require_dhe_on_psk c then set_psk_ke_modes (Z.clearbit (psk_ke_modes ch) PTLS_PSK_KE_MODE_PSK) ch else ch.

(* src lib/picotls.c:4395-4996 server_handle_hello *)
Definition do_server_handle_hello (message : bytes) : M conn unit :=
  is_second_flight ← gets (λ c, bool_decide (state (cn_tls c) = PTLS_STATE_SERVER_EXPECT_SECOND_CLIENT_HELLO));
  _ ← lift (is_some_or (malloc SIZEOF_CLIENT_HELLO) PTLS_ERROR_NO_MEMORY);
  ch ← receive_hello env is_second_flight message;
  '(ch, message) ← open_hello env is_second_flight ch message;
  ch ← gets (λ c, restrict_modes (ctx (cn_tls c)) ch);
  _ ← tls_op (consider_hello env is_second_flight ch message);
  _ ← tls_op (choose_cipher is_second_flight ch);
  c ← gets id;
  share ← lift (choose_group (ctx (cn_tls c)) ch);
  is_second_flight ← retry_or_go_on em is_second_flight ch message share;
  _ ← (let ret := report_unknown_extensions (cn_properties c) (unknown_extensions ch) in lift (guard_err (ret =? 0) ret));
  '(psk_index, accept_early_data) ← tls_op (select_psk is_second_flight ch message);
  mode ← determine_mode is_second_flight ch message psk_index;
  _ ← modify (on_tls (λ t, set_num_tickets_to_send (tickets_to_send t ch) t));
  _ ← tls_op (accept_early psk_index accept_early_data);
  '(group, pubkey, ecdh_secret) ← tls_op (exchange_keys mode ch share);
  _ ← send_server_hello ch mode group pubkey psk_index;
  _ ← ech_op (modify (clear_ech true));
  _ ← push_change_cipher_spec em;
  _ ← tls_op (server_handshake_keys ch ecdh_secret);
  _ ← send_encrypted_extensions ch;
  prove_and_finish ch mode.

End Flight.

(** ** The handlers *)

(** The handlers of a server; those of a client are not called. *)
Definition server_handlers `{Allocator} (env : server_env) (em : ptls_message_emitter_t) : handlers :=
  mkHandlers (reject ABORTED) (reject ABORTED) (reject ABORTED) (reject ABORTED) (reject ABORTED) (reject ABORTED) (reject ABORTED) (reject ABORTED)
    (conn_handler (do_server_handle_hello env em))
    (tls_handler do_server_handle_certificate)
    (tls_handler do_server_handle_certificate_verify).
