(* ===== verification/Session.v ===== *)
(** * Session: the two sides together ([lib/picotls.c])

    A client and a server that exchange their records through [ptls_handshake] until both are done: every combination of the
    ways to authenticate, to retry, to hide the ClientHello and to resume, with concrete algorithms. *)

From S2P Require Import Prelude Constants Wire Buffer Extensions Crypto KeySchedule Tls Record Emit Negotiate Hpke ClientHello HelloFormat HelloDecode Receive Conn Ech EchMessage Export Handshake Ticket ServerHello Cookie Psk Certificate Client ClientAuth Server.

(** ** The driver *)

Section Driver.
Context `{Allocator} (ce : client_env) (se : server_env).

(** [init_record_message_emitter] and [ptls_handshake], as a client and as a server. *)
Definition client_step (input : bytes) (c : conn) : Z * bytes * conn :=
  ptls_handshake (client_handlers ce record_emitter) (stack ce)
    (λ c, let '(r, c) := send_client_hello ce record_emitter None c in (code r, c)) (λ c, (ABORTED, c)) input c.

Definition server_step (input : bytes) (c : conn) : Z * bytes * conn :=
  ptls_handshake (server_handlers se record_emitter) (stack ce)
    (λ c, (ABORTED, c)) (λ c, let '(r, c) := server_finish_handshake se record_emitter (Some []) c in (code r, c)) input c.

(** What the network does: it takes what is in the send buffer. *)
Definition take_output (c : conn) : bytes * conn := (contents (cn_send c), rewind 0 c).

(** The codes of the two, what the client has not read, and the two connections. *)
Record outcome := mkOutcome { client_code : Z; server_code : Z; unread : bytes; client_end : conn; server_end : conn }.

(** Turn by turn.  After a stateless retry the server is a new one, [fresh]. *)
Fixpoint converse (fuel : nat) (fresh : conn) (input : bytes) (c s : conn) : outcome :=
  match fuel with
  | O => mkOutcome OUT_OF_FUEL OUT_OF_FUEL input c s
  | S fuel =>
      let '(rc, rest, c) := client_step input c in
      let '(out, c) := take_output c in
      if negb (goes_on rc) then mkOutcome rc PTLS_ERROR_IN_PROGRESS rest c s
      else
        let '(rs, _, s) := server_step out s in
        let '(out, s) := take_output s in
        if rs =? PTLS_ERROR_STATELESS_RETRY then converse fuel fresh out c fresh
        else if (rc =? 0) || negb (goes_on rs) then mkOutcome rc rs rest c s
        else converse fuel fresh out c s
  end.

End Driver.

(** ** The configurations *)

Inductive auth_mode := by_certificate | mutual | by_psk | by_psk_dhe | by_ticket | by_ticket_early.
Inductive retry_mode := no_retry | stateful_retry | stateless_retry.

#[global] Instance auth_mode_eq : EqDecision auth_mode.
Proof. solve_decision. Defined.
#[global] Instance retry_mode_eq : EqDecision retry_mode.
Proof. solve_decision. Defined.

(** How the parties are authenticated, how a retry is asked for, whether ECH is offered (to a server that knows the key). *)
Record config := mkConfig { cf_auth : auth_mode; cf_retry : retry_mode; cf_ech : bool }.

Definition uses_psk (cf : config) : bool := bool_decide (cf_auth cf = by_psk) || bool_decide (cf_auth cf = by_psk_dhe).
Definition uses_ticket (cf : config) : bool := bool_decide (cf_auth cf = by_ticket) || bool_decide (cf_auth cf = by_ticket_early).
Definition by_certificate_config : config := mkConfig by_certificate no_retry false.

#[local] Existing Instance bump_allocator.

(** A hash that depends on the place of every byte, and a key exchange whose secret has both keys. *)
Definition mix_hash (id : Z) : ptls_hash_algorithm_t :=
  let d := λ m, be_encode 8 (foldl (λ a b, Z.land (3 * a + b + id) 0xffff) (len m) m) in
  mkHash id 16 8 true d (d []).

Definition mix_kex_ctx : ptls_key_exchange_context_t := mkKexCtx 29 [1; 2; 3] (λ peer, Ok ([1; 2; 3] ++ peer)).
Definition mix_kex : ptls_key_exchange_algorithm_t := mkKex 29 (Ok mix_kex_ctx) (λ peer, Ok ([4; 5; 6], peer ++ [4; 5; 6])).

Definition mix_suite : ptls_cipher_suite_t := mkSuite 0x1301 toy_aead (mix_hash 1).
Definition mix_suite2 : ptls_cipher_suite_t := mkSuite 0x1302 toy_aead (mix_hash 2).
Definition mix_kem : ptls_hpke_kem_t := mkKem 32 mix_kex (mix_hash 1).
Definition mix_hpke : ptls_hpke_cipher_suite_t := mkHpkeSuite 1 1 (mix_hash 1) toy_aead.

(** The ECH configuration of the server, and the private key to it. *)
Definition ech_config : bytes := config_bytes 7 mix_kem [7; 8; 9] [mix_hpke] 64 (str "public").
Definition ech_key : ptls_key_exchange_context_t := mkKexCtx 29 [7; 8; 9] (λ peer, Ok ([7; 8; 9] ++ peer)).

Definition open_ech (config_id : Z) (suite : Z * Z) (enc info : bytes) : option (ptls_hpke_kem_t * ptls_hpke_cipher_suite_t * ptls_aead_context_t) :=
  if config_id =? 7 then
    match ptls_hpke_setup_base_r mix_kem mix_hpke ech_key enc (info ++ ech_config) with
    | Ok (Some a) => Some (mix_kem, mix_hpke, a)
    | _ => None
    end
  else None.

(** Accepts the chain of the parties; nothing else. *)
Definition mix_verify : ptls_verify_certificate_t :=
  mkVerify (λ name certs, if bool_decide (certs = [[1; 2; 3]; [4]]) then Ok (Some toy_check) else Err PTLS_ALERT_BAD_CERTIFICATE) [1027].

(** The server takes the name and the first protocol that the client offers. *)
Definition mix_on_client_hello (ch : st_ptls_client_hello_t) (raw : bytes) (incompatible : bool) : M ptls_t unit :=
  _ ← modify (set_server_name (ch_server_name ch));
  modify (set_negotiated_protocol (head (alpn ch))).

Definition mix_client_env : client_env := mkClientEnv (λ _, false) None (replicate 32 3) toy_draws (λ _, toy_draws) (replicate 64 0).
Definition mix_server_env : server_env := mkServerEnv (Some mix_on_client_hello) None (replicate 32 5) (λ i, 1000 + Z.of_nat i).

(** The context of both.  Encryption puts a byte before a ticket. *)
Definition mix_context (cf : config) : ptls_context_t :=
  let psk := uses_psk cf in
  mkCtx 5000 (Some [mix_kex]) [mix_suite; mix_suite2] [] [[1; 2; 3]; [4]]
    (if psk then Some (str "id") else None) (if psk then Some (str "key") else None) (if psk then Some (mix_hash 1) else None)
    (if cf_ech cf then Some [mix_hpke] else None) [mix_kem] (Some open_ech) (block2 ech_config) (Some toy_sign) (Some mix_verify)
    86400 8192 65536 None (negb (bool_decide (cf_auth cf = by_psk))) true true (bool_decide (cf_auth cf = mutual)) false false false false
    (Some (λ is_encrypt b, (0, if is_encrypt : bool then 1 :: b else tail b))) (Some (λ _, 0)) None None None None [str "CA"] 2 1 0.

Definition client_properties (cf : config) (ticket : option bytes) : ptls_handshake_properties_t :=
  mkProps [str "h2"; str "http/1.1"] ticket (if bool_decide (cf_auth cf = by_ticket_early) then Some 0 else None)
    PTLS_EARLY_DATA_ACCEPTANCE_UNKNOWN false (if cf_ech cf then Some (block2 ech_config) else None) None
    [] None [] false false [] None (λ _, 0).

Definition server_properties (cf : config) : ptls_handshake_properties_t :=
  mkProps [] None None PTLS_EARLY_DATA_ACCEPTANCE_UNKNOWN false None None [] (Some (str "cookie key")) (str "address")
    (negb (bool_decide (cf_retry cf = no_retry))) (bool_decide (cf_retry cf = stateless_retry)) [] None (λ _, 0).

Definition new_connection (t : option ptls_t) (p : ptls_handshake_properties_t) : conn :=
  mkConn (default (toy_tls false) t) (ptls_buffer_init 64 [] 1) [] (Some p).

Definition new_client (cf : config) (ticket : option bytes) : conn :=
  on_tls (set_server_name (Some (str "example.com")))
    (new_connection (ptls_client_new (mix_context cf) (replicate 32 1) (replicate 32 2)) (client_properties cf ticket)).

Definition new_server (cf : config) : conn := new_connection (ptls_server_new (mix_context cf)) (server_properties cf).

(** Turns that are enough: two flights of each side, and a retry. *)
Definition TURNS : nat := 4.

Definition session_with (cf : config) (ticket : option bytes) : outcome :=
  converse mix_client_env mix_server_env TURNS (new_server cf) [] (new_client cf ticket) (new_server cf).

(** The client reads what came after the server's Finished. *)
Definition read_on (o : outcome) : Z * bytes * ptls_buffer_t * conn :=
  ptls_receive (handle_client_handshake_message (client_handlers mix_client_env record_emitter) (stack mix_client_env)) (unread o)
    (ptls_buffer_init_rx EMPTY_STRING []) (client_end o).

(** The ticket of an earlier session, as [save_ticket] has it: what is unread begins with the sealed message, and a record of the toy cipher ends
    with the type and two bytes. *)
Definition ticket_of (o : outcome) : option bytes :=
  let size := (Z.to_nat (byte_at (unread o) 4) - 7)%nat in
  match build_stored_ticket (cn_tls (client_end o)) (take size (drop 9 (unread o))) [] with
  | Ok b => Some b
  | Err _ => None
  end.

Definition earlier_ticket : option bytes := Eval vm_compute in ticket_of (session_with by_certificate_config None).

Lemma earlier_ticket_is : earlier_ticket = ticket_of (session_with by_certificate_config None) /\ is_Some earlier_ticket.
Proof. split; [vm_compute; reflexivity|by eexists]. Qed.

Definition session (cf : config) : outcome := session_with cf (if uses_ticket cf then earlier_ticket else None).

(** ** What the two have then *)

(** What one seals, the other opens: the same keys and counters, nothing pending, as [send_receive_roundtrip] asks. *)
Definition linked (c peer : conn) : Prop :=
  exists a d,
    aead_ok (aead_algo a) /\ tx_detached (cn_tls c) = false /\ needs_key_update (cn_tls c) = false /\ tls12 (enc (cn_tls c)) = false /\
    aead (enc (cn_tls c)) = Some a /\ 0 <= seq (enc (cn_tls c)) < KEY_UPDATE_SEQ /\
    opens d a /\ receiving d (cn_tls peer) /\ base (recv_rec (cn_tls peer)) = 0 /\ seq (dec (cn_tls peer)) = seq (enc (cn_tls c)).

(** The same as a computation: the algorithms, and whether the rest holds. *)
Definition link (c peer : conn) : option ptls_aead_algorithm_t * option ptls_aead_algorithm_t * bool :=
  let t := cn_tls c in
  let p := cn_tls peer in
  (aead_algo <$> aead (enc t), aead_algo <$> aead (dec p),
   negb (tx_detached t) && negb (needs_key_update t) && negb (tls12 (enc t)) && negb (tls12 (dec p))
   && bool_decide (aead_key <$> aead (enc t) = aead_key <$> aead (dec p)) && bool_decide (static_iv <$> aead (enc t) = static_iv <$> aead (dec p))
   && (0 <=? seq (enc t)) && (seq (enc t) <? KEY_UPDATE_SEQ) && (seq (dec p) =? seq (enc t))
   && is_post_handshake (state p) && (base (recv_mess p) =? 0) && (base (recv_rec p) =? 0)).

Lemma link_linked c peer : link c peer = (Some toy_aead, Some toy_aead, true) -> linked c peer.
Proof.
  unfold link, linked. destruct (aead (enc (cn_tls c))) as [a|]; [|done]. destruct (aead (dec (cn_tls peer))) as [d|] eqn:Ed; [|done]. cbn [fmap option_fmap option_map].
  intros [= Ea Ed' Hb]. repeat (apply andb_true_iff in Hb as [Hb ?]).
  repeat match goal with H : negb _ = true |- _ => apply negb_true_iff in H | H : bool_decide _ = true |- _ => apply bool_decide_eq_true in H end.
  exists a, d. rewrite Ea. split; [apply toy_aead_ok|]. split_and!; try done; try lia; try congruence.
  - split; [congruence|]. split; congruence.
  - split; [done|done|done|lia].
Qed.

(** The two agree on what was negotiated, and it is what the configuration says: with a ticket the session is resumed unless there
    was a retry, and early data is accepted with it. *)
Definition agree (cf : config) (c s : conn) : Prop :=
  let t := cn_tls c in
  let p := cn_tls s in
  let resumes := bool_decide (cf_retry cf = no_retry) in
  state t = PTLS_STATE_CLIENT_POST_HANDSHAKE /\ state p = PTLS_STATE_SERVER_POST_HANDSHAKE /\
  exporter_one_rtt t <> None /\ exporter_one_rtt p = exporter_one_rtt t /\
  server_name p = Some (str "example.com") /\ negotiated_protocol t = Some (str "h2") /\ negotiated_protocol p = Some (str "h2") /\
  is_psk_handshake t = uses_psk cf || uses_ticket cf && resumes /\ is_psk_handshake p = is_psk_handshake t /\
  ptls_is_ech_handshake t = cf_ech cf /\ ptls_is_ech_handshake p = cf_ech cf /\
  match early_data_acceptance <$> cn_properties c with
  | Some PTLS_EARLY_DATA_ACCEPTED => bool_decide (cf_auth cf = by_ticket_early) && resumes
  | _ => negb (bool_decide (cf_auth cf = by_ticket_early) && resumes)
  end = true.

#[local] Instance agree_dec cf c s : Decision (agree cf c s).
Proof. unfold agree. apply _. Defined.

(** Everything that is said of a session, in one computation: the algorithms, if the rest holds. *)
Definition report (cf : config) (o : outcome) : option (option ptls_aead_algorithm_t * option ptls_aead_algorithm_t * (option ptls_aead_algorithm_t * option ptls_aead_algorithm_t)) :=
  let '(ret, rest, db, c) := read_on o in
  let '(e1, d1, ok1) := link c (server_end o) in
  let '(e2, d2, ok2) := link (server_end o) c in
  if (client_code o =? 0) && (server_code o =? 0) && (ret =? 0) && bool_decide (rest = []) && bool_decide (contents db = [])
     && bool_decide (agree cf c (server_end o)) && ok1 && ok2
  then Some ((e1, d1), (e2, d2)) else None.

Definition completes (cf : config) (o : outcome) : Prop :=
  let '(ret, rest, db, c) := read_on o in
  client_code o = 0 /\ server_code o = 0 /\ ret = 0 /\ rest = [] /\ contents db = [] /\
  agree cf c (server_end o) /\ linked c (server_end o) /\ linked (server_end o) c.

Lemma report_completes cf o : report cf o = Some ((Some toy_aead, Some toy_aead), (Some toy_aead, Some toy_aead)) -> completes cf o.
Proof.
  unfold report, completes. destruct (read_on o) as [[[ret rest] db] c]. intros Hr.
  destruct (link c _) as [[e1 d1] ok1] eqn:L1, (link _ c) as [[e2 d2] ok2] eqn:L2.
  match type of Hr with (if ?b then _ else _) = _ => destruct b eqn:Hb; [|done] end. injection Hr as -> -> -> ->.
  repeat (apply andb_true_iff in Hb as [Hb ?]). subst.
  split_and!; try lia; try (by eapply bool_decide_eq_true); by apply link_linked.
Qed.

Lemma reports cf : report cf (session cf) = Some ((Some toy_aead, Some toy_aead), (Some toy_aead, Some toy_aead)).
Proof. destruct cf as [[] [] []]; vm_cast_no_check (eq_refl (Some ((Some toy_aead, Some toy_aead), (Some toy_aead, Some toy_aead)))). Qed.

