(* ===== verification/ServerAuth.v ===== *)
(** * ServerAuth: the server knows the client it asks for

    The server's handlers in the dispatch of the handshake, the invariant of its states under client authentication, what a
    completed handshake means then, and the transcript across session tickets. *)

From S2P Require Import Prelude Constants Wire Buffer Extensions Crypto KeySchedule Tls Record Emit Negotiate Hpke ClientHello HelloFormat HelloDecode Receive Conn Ech EchMessage Export Handshake Ticket ServerHello Cookie Psk Certificate Steps Client ClientAuth EchConfirm Server Session.

(** ** Runs *)

(** One message after another, as long as the codes let the handshake go on; a signature that takes its time is waited for, and
    the flight is finished then ([ptls_handshake] calls [server_finish_handshake] again). *)
Inductive server_run `{Allocator} (env : server_env) (em : ptls_message_emitter_t) (st : bytes) (c0 : conn) : conn -> Prop :=
| srun_start : server_run env em st c0 c0
| srun_message c message is_end ret c' :
    server_run env em st c0 c ->
    handle_server_handshake_message (server_handlers env em) st message is_end c = (ret, c') ->
    goes_on ret = true \/ ret = PTLS_ERROR_ASYNC_OPERATION /\ state (cn_tls c') = PTLS_STATE_SERVER_GENERATING_CERTIFICATE_VERIFY ->
    server_run env em st c0 c'
| srun_signed c algos r c' :
    server_run env em st c0 c -> state (cn_tls c) = PTLS_STATE_SERVER_GENERATING_CERTIFICATE_VERIFY ->
    server_finish_handshake env em (Some algos) c = (r, c') -> server_run env em st c0 c'.

(** ** Session tickets *)

Section Tickets.
Context `{Allocator} (env : server_env) (em : ptls_message_emitter_t) `{!Emitter em}.

Lemma steps_message_body hashed type block :
  steps (of_tls continues) block -> steps (of_tls continues) (ptls_buffer_push_message_body hashed type block).
Proof. intros Hb. unfold ptls_buffer_push_message_body. steps; auto with steps. Qed.

Lemma steps_rewind o : steps (of_tls continues) (modify (rewind o)).
Proof. apply steps_modify. intros c. unfold of_tls. reflexivity. Qed.

Hint Resolve steps_message_body steps_rewind : steps.

Lemma steps_foresee : steps (of_tls continues) foresee_finished.
Proof. unfold foresee_finished. steps; apply steps_message_body; steps. Qed.

Lemma steps_push_ticket age : steps (of_tls continues) (push_ticket em age).
Proof.
  unfold push_ticket.
  steps; (apply steps_push_message; [done|steps]).
Qed.

(** The transcript that is put back is the one of before. *)
Lemma restore_transcript s t t1 :
  key_schedule t = Some s -> hashes s <> [] -> continues t t1 ->
  let '(r, t2) := sched_op (modify (set_transcript (slot_ctx (slot0 s)))) t1 in
  r = Ok () /\ continues t t2 /\
  exists s2, key_schedule t2 = Some s2 /\ algo0 s2 = algo0 s /\ slot_ctx (slot0 s2) = slot_ctx (slot0 s).
Proof.
  intros Hs Hh Hc. destruct (ct_transcript _ _ Hc s Hs) as (s1 & x & Hs1 & Ha & Hx).
  unfold sched_op, get_schedule. rewrite !M_bind_run. cbn [gets]. rewrite Hs1. cbn [mret M_ret modify]. rewrite M_bind_run. cbn [modify lift].
  split; [done|]. destruct Hc. split; [|by eexists; split_and!].
  split; try done; [by destruct ct_party| |by eexists].
  intros s0 [= <-]%(eq_trans (eq_sym Hs)). eexists _, []. split; [done|]. split; [done|]. by rewrite app_nil_r.
Qed.

Lemma tls_schedule_run c s : key_schedule (cn_tls c) = Some s -> tls_op get_schedule c = (Ok s, c).
Proof. intros Hs. unfold tls_op, get_schedule. rewrite M_bind_run. cbn [gets]. rewrite Hs. by destruct c. Qed.

Lemma session_ticket_run age c s :
  key_schedule (cn_tls c) = Some s -> hashes s <> [] ->
  let c' := (send_session_ticket em age c).2 in
  continues (cn_tls c) (cn_tls c') /\
  exists s', key_schedule (cn_tls c') = Some s' /\ algo0 s' = algo0 s /\ slot_ctx (slot0 s') = slot_ctx (slot0 s).
Proof.
  intros Hs Hh. unfold send_session_ticket. rewrite M_bind_run, (tls_schedule_run c s Hs), M_bind_run. cbn [gets].
  rewrite M_bind_run. destruct (_ && _); cbn [guard_err lift snd]; [|split; [reflexivity|by exists s]].
  assert (steps (of_tls continues) (_ ← foresee_finished; push_ticket em age)) as Hst.
  { pose proof steps_foresee. pose proof steps_push_ticket. steps; auto. }
  specialize (Hst c). rewrite M_bind_run. unfold catch. unfold of_tls in Hst.
  destruct ((_ ← foresee_finished; push_ticket em age) c) as [r c1]. cbn [snd] in Hst.
  pose proof (restore_transcript s _ _ Hs Hh Hst) as Hr. set (restore := tls_op _).
  assert (exists t2, restore c1 = (Ok (), mkConn t2 (cn_send c1) (cn_epoch_offsets c1) (cn_properties c1)) /\
    continues (cn_tls c) t2 /\ exists s2, key_schedule t2 = Some s2 /\ algo0 s2 = algo0 s /\ slot_ctx (slot0 s2) = slot_ctx (slot0 s)) as (t2 & E & Ht2).
  { unfold restore, tls_op. destruct (sched_op _ _) as [r2 t2]. destruct Hr as [-> Hr]. by exists t2. }
  destruct r as [[]|e]; [by rewrite E|]. rewrite M_bind_run, E. done.
Qed.

(** Without a transcript the first thing that is done fails. *)
Lemma steps_session_ticket age c :
  has_transcript (cn_tls c) -> continues (cn_tls c) (cn_tls (send_session_ticket em age c).2).
Proof. intros (s & Hs & Hh). by apply (session_ticket_run age c s). Qed.

Lemma steps_send_tickets n i c :
  has_transcript (cn_tls c) -> continues (cn_tls c) (cn_tls (send_tickets env em n i c).2).
Proof.
  revert i c. induction n as [|n IH]; intros i c Hh; cbn [send_tickets]; [reflexivity|]. rewrite M_bind_run.
  pose proof (steps_session_ticket (age_adds env i) c Hh) as Hc. destruct (send_session_ticket _ _ c) as [[[]|e] c1]; cbn [snd] in *; [|done].
  etrans; [exact Hc|]. apply IH. by apply (ct_has _ _ Hc).
Qed.

(** What is hashed, and by which algorithm. *)
Definition transcript_hash (s : ptls_key_schedule_t) : bytes := digest (algo0 s) (slot_ctx (slot0 s)).

(** C21: session tickets do not disturb the handshake.  [send_session_ticket] adds the messages that the client will send to the transcript,
    and the ticket itself, and puts the transcript back: whatever its outcome, with whichever emitter and callbacks, the hash of
    the transcript is over the same bytes as before, in the same state, so that the Finished of the client is checked against what
    the two have said. *)
Theorem session_ticket_keeps_transcript age c s :
  key_schedule (cn_tls c) = Some s -> hashes s <> [] ->
  let t' := cn_tls (send_session_ticket em age c).2 in
  state t' = state (cn_tls c) /\
  exists s', key_schedule t' = Some s' /\ transcript_hash s' = transcript_hash s.
Proof.
  intros Hs Hh. destruct (session_ticket_run age c s Hs Hh) as (Hc & s' & Hs' & Ha & Hx). split; [apply Hc|].
  exists s'. split; [done|]. unfold transcript_hash. by rewrite Ha, Hx.
Qed.

End Tickets.

(** ** The invariant *)

(** The server asks for a certificate, and [v] verifies it. *)
Definition asks (v : ptls_verify_certificate_t) (c : ptls_context_t) : Prop :=
  require_client_authentication c = true /\ verify_certificate c = Some v.

(** The client has proved who it is, or the verifier is content with none. *)
Definition client_known (v : ptls_verify_certificate_t) (t : ptls_t) : Prop :=
  (exists cb, verify_cb v None [] = Ok cb) \/ proves v None PTLS_CLIENT_CERTIFICATE_VERIFY_CONTEXT_STRING t.

(** No early data is accepted, and no session is resumed. *)
Record full_server (v : ptls_verify_certificate_t) (t : ptls_t) : Prop := {
  fs_server : is_server t = true;
  fs_asks : asks v (ctx t);
  fs_pending : pending_handshake_secret t = None;
  fs_psk : is_psk_handshake t = false;
}.

(** What a state asks for. *)
Definition server_at (v : ptls_verify_certificate_t) (st : en_ptls_state_t) (t : ptls_t) : Prop :=
  match st with
  | PTLS_STATE_SERVER_EXPECT_CLIENT_HELLO => True
  | PTLS_STATE_SERVER_EXPECT_SECOND_CLIENT_HELLO | PTLS_STATE_SERVER_GENERATING_CERTIFICATE_VERIFY
  | PTLS_STATE_SERVER_EXPECT_CERTIFICATE => has_transcript t
  | PTLS_STATE_SERVER_EXPECT_CERTIFICATE_VERIFY =>
      has_transcript t /\ exists certs, certs <> [] /\ verify_cb v None certs = Ok (certificate_verify t)
  | PTLS_STATE_SERVER_EXPECT_FINISHED | PTLS_STATE_SERVER_POST_HANDSHAKE => client_known v t
  | _ => False
  end.

Definition server_inv (v : ptls_verify_certificate_t) (t : ptls_t) : Prop := full_server v t /\ server_at v (state t) t.

Lemma client_known_extends v t t' : extends_transcript t t' -> client_known v t -> client_known v t'.
Proof. intros Ht [Hk|Hk]; [by left|right; by eapply proves_extends]. Qed.

Lemma full_server_continues v t t' : continues t t' -> full_server v t -> full_server v t'.
Proof. intros [[Ec _ Es] _ _ Ep _ Hp _ _] []. split; [congruence|by rewrite Ec|by auto|congruence]. Qed.

Lemma server_inv_continues v t t' : continues t t' -> server_inv v t -> server_inv v t'.
Proof.
  intros Hc [Hf Ha]. split; [by eapply full_server_continues|]. destruct Hc as [_ Est _ _ Ev _ Ht Hh]. rewrite Est. revert Ha.
  unfold server_at. destruct (state t); rewrite ?Ev; try done; try (by intros [? ?]; split; auto); by apply client_known_extends.
Qed.


Section Handlers.
Context `{Allocator} (v : ptls_verify_certificate_t) (env : server_env) (em : ptls_message_emitter_t) `{!Emitter em}.

(** What happens before the server knows how to go on: it stays the server that it is, in the same state. *)
Record considers (t t' : ptls_t) : Prop := {
  cs_full : full_server v t -> full_server v t';
  cs_state : state t' = state t;
  cs_has : has_transcript t -> has_transcript t';
}.

#[local] Instance considers_preorder : PreOrder considers.
Proof. split; [by intros t|]. intros t1 t2 t3 [] []. split; [by auto|congruence|by auto]. Qed.

(** The state may be that of a second flight, or of a signature that is waited for. *)
Record flies (t t' : ptls_t) : Prop := {
  fl_full : full_server v t -> full_server v t';
  fl_state : state t' = state t \/ state t' = PTLS_STATE_SERVER_EXPECT_SECOND_CLIENT_HELLO
             \/ state t' = PTLS_STATE_SERVER_GENERATING_CERTIFICATE_VERIFY;
  fl_has : has_transcript t -> has_transcript t';
}.

#[local] Instance flies_preorder : PreOrder flies.
Proof.
  split; [intros t; split; [done|by left|done]|]. intros t1 t2 t3 [] [? Hs ?]. split; [by auto| |by auto].
  destruct Hs as [->|Hs]; [done|by right].
Qed.

Lemma considers_continues t t' : continues t t' -> considers t t'.
Proof. intros Hc. split; [by apply full_server_continues|apply Hc|apply Hc]. Qed.

Lemma flies_considers t t' : considers t t' -> flies t t'.
Proof. intros []. split; [done|by left|done]. Qed.

Lemma steps_considers {A} (m : M ptls_t A) : steps continues m -> steps considers m.
Proof. apply steps_impl, considers_continues. Qed.

Lemma steps_considers_conn {A} (m : M conn A) : steps (of_tls continues) m -> steps (of_tls considers) m.
Proof. apply steps_impl. intros c c'. apply considers_continues. Qed.

Lemma steps_flies {A} (m : M ptls_t A) : steps considers m -> steps flies m.
Proof. apply steps_impl, flies_considers. Qed.

Lemma steps_flies_conn {A} (m : M conn A) : steps (of_tls considers) m -> steps (of_tls flies) m.
Proof. apply steps_impl. intros c c'. apply flies_considers. Qed.

Hint Extern 2 (steps considers _) => apply steps_considers : steps.
Hint Extern 2 (steps (of_tls considers) _) => apply steps_considers_conn : steps.
Hint Extern 2 (steps flies _) => apply steps_flies, steps_considers : steps.
Hint Extern 3 (steps flies _) => apply steps_flies : steps.
Hint Extern 2 (steps (of_tls flies) _) => apply steps_flies_conn, steps_considers_conn : steps.
Hint Extern 3 (steps (of_tls flies) _) => apply steps_flies_conn : steps.

#[local] Ltac server_fields :=
  repeat match goal with b : bool |- _ => destruct b end;
  first [by apply considers_continues, continues_other | by split; [intros []; split|done|] | by split; [intros []; split|auto|] | reflexivity].

#[local] Ltac server := steps_with server_fields.

(** A server in the midst of its flight. *)
Definition in_flight (t : ptls_t) : Prop :=
  full_server v t /\ has_transcript t /\
  (state t = PTLS_STATE_SERVER_EXPECT_CLIENT_HELLO \/ state t = PTLS_STATE_SERVER_EXPECT_SECOND_CLIENT_HELLO
   \/ state t = PTLS_STATE_SERVER_GENERATING_CERTIFICATE_VERIFY).

Lemma in_flight_flies t t' : flies t t' -> in_flight t -> in_flight t'.
Proof. intros [Hf Hs Hh] (H1 & H2 & H3). split; [by auto|]. split; [by auto|]. destruct Hs as [->|Hs]; [done|by right]. Qed.

Lemma in_flight_inv t : in_flight t -> server_inv v t.
Proof. intros (H1 & H2 & H3). split; [done|]. by destruct H3 as [->|[-> | ->]]. Qed.

(** ** Finishing the flight *)

Lemma steps_prove algos : steps (of_tls flies)
  match algos with
  | None => mret ()
  | Some algos =>
      catch (send_certificate_verify em algos PTLS_SERVER_CERTIFICATE_VERIFY_CONTEXT_STRING) (λ e,
        _ ← when (e =? PTLS_ERROR_ASYNC_OPERATION) (modify (on_tls (set_state PTLS_STATE_SERVER_GENERATING_CERTIFICATE_VERIFY)));
        fail e)
  end.
Proof. destruct algos; server. Qed.

Lemma expect_client_inv : leads in_flight expect_client (λ t, server_inv v t /\ has_transcript t).
Proof.
  intros t (Hf & Hh & Hs). destruct Hf as [H1 [H2 H2'] H3 H4]. unfold expect_client. rewrite M_bind_run. cbn [gets id]. rewrite H3, H2. cbn.
  split; [|done]. split; [by split|done].
Qed.

(** With a transcript, tickets are sent in the state that is reached. *)
Definition waits (t : ptls_t) : Prop := server_inv v t /\ has_transcript t.

Lemma waits_continues t t' : continues t t' -> waits t -> waits t'.
Proof. intros Hc [Hi Hh]. split; [by eapply server_inv_continues|by apply (ct_has _ _ Hc)]. Qed.

Lemma flight_bind {A B} (m : M conn A) (f : A -> M conn B) :
  steps (of_tls flies) m -> (forall a, leads (with_tls in_flight) (f a) (with_tls (server_inv v))) ->
  leads (with_tls in_flight) (m ≫= f) (with_tls (server_inv v)).
Proof. apply leads_bind; [intros c c'; apply in_flight_flies|intros c; apply in_flight_inv]. Qed.

Lemma waits_bind {A B} (m : M conn A) (f : A -> M conn B) :
  leads (with_tls waits) m (with_tls waits) -> (forall a, leads (with_tls waits) (f a) (with_tls (server_inv v))) ->
  leads (with_tls waits) (m ≫= f) (with_tls (server_inv v)).
Proof. apply leads_seq. by intros c []. Qed.

(** The keys of the application data, and then the next message of the client. *)
Lemma finish_keys_inv :
  leads in_flight
    (sched ← get_schedule;
     _ ← lift (guard_err (generation sched =? 2) ABORTED);
     _ ← sched_op (key_schedule_extract None);
     _ ← setup_traffic_protection true (Some (str "s ap traffic")) 3 0 false;
     sched ← get_schedule;
     secret ← lift (derive_secret sched (str "c ap traffic"));
     _ ← modify (λ t, set_pending_traffic_secret (mem_write (pending_traffic_secret t) 0 secret) t);
     _ ← derive_exporter_secret false;
     expect_client) waits.
Proof.
  assert (forall t, in_flight t -> waits t) as Hw by (intros t Ht; split; [by apply in_flight_inv|apply Ht]).
  do 8 (apply (leads_bind flies); [intros t t'; apply in_flight_flies|done|server|intros ?]). apply expect_client_inv.
Qed.

Lemma finish_inv algos : leads (with_tls in_flight) (server_finish_handshake env em algos) (with_tls (server_inv v)).
Proof.
  unfold server_finish_handshake. apply flight_bind; [apply steps_prove|intros _]. apply flight_bind; [server|intros _].
  eapply leads_seq; [|apply leads_tls_op, finish_keys_inv|intros _]; [by intros c []|].
  apply waits_bind; [by apply (leads_steps (of_tls continues)); [intros ? ?; apply waits_continues|steps]|intros t].
  apply waits_bind; [|intros _; intros c [Hi _]; by destruct (require_client_authentication _)].
  destruct (negb (num_tickets_to_send t =? 0)); [|by intros c].
  eapply leads_seq; [|by apply (leads_steps (of_tls continues)); [intros ? ?; apply waits_continues|steps]|]; [by intros c|intros _ c Hc].
  eapply waits_continues; [|exact Hc]. apply steps_send_tickets; [done|apply Hc].
Qed.

(** ** The ClientHello *)

(** What the application may do when it is told of a ClientHello: name the server, choose a protocol, another context that asks for
    certificates too. *)
Definition well_informed : Prop :=
  forall cb, on_client_hello env = Some cb -> forall ch raw bad, steps considers (cb ch raw bad).

Lemma steps_ech_server {A} (m : M st_ptls_ech_t A) : steps (of_tls considers) (ech_op m).
Proof. unfold ech_op. apply steps_tls_op. intros t. destruct (m _) as [r e]. server_fields. Qed.

Lemma steps_props_server f : steps (of_tls considers) (modify (on_props f)).
Proof. apply steps_modify. intros c. unfold of_tls. reflexivity. Qed.

Hint Resolve steps_ech_server steps_props_server : steps.

Lemma steps_hello_cb ch raw bad : well_informed -> steps considers (call_on_client_hello_cb env ch raw bad).
Proof. intros Hw. unfold call_on_client_hello_cb. destruct (on_client_hello env) as [cb|] eqn:E; [by apply Hw|server]. Qed.

Lemma steps_constraints ch prev inner raw : well_informed -> steps considers (check_client_hello_constraints env ch prev inner raw).
Proof. intros Hw. pose proof (λ ch raw bad, steps_hello_cb ch raw bad Hw). unfold check_client_hello_constraints. server. Qed.

Lemma steps_receive_hello second message : well_informed -> steps (of_tls considers) (receive_hello env second message).
Proof. intros Hw. pose proof (λ ch prev inner raw, steps_constraints ch prev inner raw Hw). unfold receive_hello. server. Qed.

Lemma steps_open_hello second ch message : well_informed -> steps (of_tls considers) (open_hello env second ch message).
Proof.
  intros Hw. pose proof (λ ch prev inner raw, steps_constraints ch prev inner raw Hw). unfold open_hello, create_opener, adopt_inner. server.
Qed.

Lemma steps_consider_hello second ch message : well_informed -> steps considers (consider_hello env second ch message).
Proof. intros Hw. pose proof (λ ch raw bad, steps_hello_cb ch raw bad Hw). unfold consider_hello. server. Qed.

(** An operation of the key schedule that keeps its hashes, if not what they are of. *)
Lemma steps_sched_server {A} (m : M ptls_key_schedule_t A) :
  steps (λ s s', hashes s <> [] -> hashes s' <> []) m -> steps considers (sched_op m).
Proof.
  intros Hm t. unfold sched_op, get_schedule. rewrite !M_bind_run. cbn [gets]. destruct (key_schedule t) as [s|] eqn:E; [|reflexivity].
  cbn. specialize (Hm s). destruct (m s) as [r s']. cbn in Hm. rewrite M_bind_run. cbn. split; [by intros []; split|done|].
  intros (s0 & [= <-]%(eq_trans (eq_sym E)) & Hh). exists s'. by auto.
Qed.

Lemma steps_extract_unchecked ikm : steps continues (extract_unchecked ikm).
Proof. unfold extract_unchecked. steps. Qed.

Lemma steps_ch1hash : steps considers (sched_op key_schedule_extract_ch1hash).
Proof.
  apply steps_sched_server. intros s. unfold key_schedule_extract_ch1hash. rewrite M_bind_run. cbn [gets]. rewrite M_bind_run.
  by destruct (bool_decide _).
Qed.

Lemma steps_ch1hash_prefix : steps considers (sched_op (modify key_schedule_update_ch1hash_prefix)).
Proof. apply steps_sched_server, steps_modify. intros s. unfold key_schedule_update_ch1hash_prefix. by destruct (hashes s) eqn:E; cbn; rewrite E. Qed.

Lemma steps_post_ch1hash : steps considers (sched_op (modify key_schedule_transform_post_ch1hash)).
Proof. by apply steps_sched_server, steps_modify. Qed.

Hint Resolve steps_extract_unchecked steps_ch1hash steps_ch1hash_prefix steps_post_ch1hash steps_rewind steps_change_cipher_spec : steps.

Lemma steps_emit_hello {A} ch random (extensions : M conn A) post :
  steps (of_tls considers) extensions -> (forall o a, steps (of_tls considers) (post o a)) ->
  steps (of_tls considers) (emit_server_hello em ch random extensions post).
Proof.
  intros He Hp. unfold emit_server_hello, push_server_hello.
  server; auto.
Qed.

Lemma steps_emit_retry {A} ch group (extensions : M conn A) post :
  steps (of_tls considers) extensions -> (forall o a, steps (of_tls considers) (post o a)) ->
  steps (of_tls considers) (emit_hello_retry_request em ch group extensions post).
Proof.
  intros He Hp. apply steps_emit_hello; [|done]. server; auto.
Qed.

Lemma steps_confirmation label o o' : steps (of_tls considers) (write_confirmation label o o').
Proof. unfold write_confirmation. server. Qed.

Lemma steps_retry_extensions b1 b2 g b3 : steps (of_tls considers) (push_retry_extensions b1 b2 g b3).
Proof.
  unfold push_retry_extensions, push_cookie. server.
Qed.

Hint Resolve steps_confirmation steps_retry_extensions : steps.

Lemma steps_resume ch group : steps (of_tls considers) (resume_from_cookie em ch group).
Proof.
  unfold resume_from_cookie. server. apply steps_emit_retry; [|intros; server]. server.
Qed.

Lemma steps_send_retry ch message share : steps (of_tls flies) (send_retry em ch message share).
Proof.
  unfold send_retry. server; apply steps_flies_conn, steps_emit_retry; try (intros; server).
Qed.

Lemma steps_retry_or_go_on second ch message share : steps (of_tls flies) (retry_or_go_on em second ch message share).
Proof. pose proof steps_send_retry. pose proof (λ a b, steps_flies_conn _ (steps_resume a b)). unfold retry_or_go_on. server. Qed.

(** ** The answer *)

(** Before the cipher-suite is chosen, there is a transcript in the second flight only. *)
Definition hears (second : bool) (t : ptls_t) : Prop :=
  full_server v t /\ state t = (if second then PTLS_STATE_SERVER_EXPECT_SECOND_CLIENT_HELLO else PTLS_STATE_SERVER_EXPECT_CLIENT_HELLO) /\
  (second = true -> has_transcript t).

Lemma hears_considers second t t' : considers t t' -> hears second t -> hears second t'.
Proof. intros [] (H1 & H2 & H3). split; [by auto|]. split; [congruence|by auto]. Qed.

Lemma hears_inv second t : hears second t -> server_inv v t.
Proof. intros (H1 & H2 & H3). split; [done|]. rewrite H2. destruct second; [by apply H3|done]. Qed.

Lemma hears_bind {A B} second (m : M conn A) (f : A -> M conn B) :
  steps (of_tls considers) m -> (forall a, leads (with_tls (hears second)) (f a) (with_tls (server_inv v))) ->
  leads (with_tls (hears second)) (m ≫= f) (with_tls (server_inv v)).
Proof. apply leads_bind; [intros c c'; apply hears_considers|intros c; apply hears_inv]. Qed.

Lemma choose_cipher_inv second ch t :
  hears second t -> server_inv v (choose_cipher second ch t).2 /\ forall a, (choose_cipher second ch t).1 = Ok a -> in_flight (choose_cipher second ch t).2.
Proof.
  intros Ht. pose proof (hears_inv second t Ht) as Hi. destruct Ht as (H1 & H2 & H3). unfold choose_cipher. rewrite M_bind_run. cbn [gets].
  rewrite M_bind_run. destruct (select_cipher _ _ _ _ _) as [cs|e]; cbn [lift]; [|done]. destruct second.
  - rewrite M_bind_run. cbn [gets]. split; [done|]. intros [] _. split; [done|]. split; [by apply H3|]. right; by left.
  - rewrite M_bind_run. cbn [modify]. rewrite M_bind_run. cbn [modify]. rewrite M_bind_run.
    set (t' := set_key_schedule _ _). assert (full_server v t') as Hf by (by destruct H1; split).
    assert (server_inv v t') as Hi' by (split; [done|]; unfold t'; cbn [state set_key_schedule set_cipher_suite]; by rewrite H2).
    destruct (key_schedule_new (Some cs) [] false) as [s|] eqn:E; cbn [lift is_some_or]; [|done].
    split; [done|]. intros _ _. split; [done|]. split; [|by left]. exists s. split; [done|].
    unfold key_schedule_new in E. destruct (malloc _); [|done]. destruct (forallb _ _); [|done]. by injection E as <-.
Qed.

(** Clients that are asked for certificates do not resume. *)
Lemma select_psk_none second ch message t a :
  full_server v t -> (select_psk second ch message t).1 = Ok a -> a = (None, false).
Proof.
  intros [_ [Hr _] _ _]. unfold select_psk. rewrite M_bind_run. cbn [gets]. rewrite M_bind_run, Hr, andb_false_r. cbn [negb andb].
  destruct (psk_hash_left ch); cbn [mret M_ret]; rewrite M_bind_run; cbn [lift]; destruct (guard_err _ _); cbn; by intros [= <-].
Qed.

Lemma steps_select_psk second ch message : leads in_flight (select_psk second ch message) in_flight.
Proof.
  intros t Ht. unfold select_psk. rewrite M_bind_run. cbn [gets]. rewrite M_bind_run. destruct Ht as [Hf Ht]. destruct (fs_asks _ _ Hf) as [Hr _].
  rewrite Hr, andb_false_r. cbn [negb andb]. destruct (psk_hash_left ch); cbn [mret M_ret]; rewrite M_bind_run; cbn [lift]; by destruct (guard_err _ _).
Qed.

Lemma steps_full_mode second ch message : steps (of_tls flies) (determine_mode second ch message None).
Proof. unfold determine_mode. server. Qed.

Lemma steps_exchange mode ch share : steps flies (exchange_keys mode ch share).
Proof. unfold exchange_keys. server. Qed.

Lemma steps_send_hello_server ch mode group pubkey i : steps (of_tls flies) (send_server_hello env em ch mode group pubkey i).
Proof.
  unfold send_server_hello. server. apply steps_flies_conn, steps_emit_hello; [unfold push_hello_extensions|intros]; server.
Qed.

Lemma steps_hello_keys ch secret : leads in_flight (server_handshake_keys ch secret) in_flight.
Proof.
  unfold server_handshake_keys. do 4 (apply (leads_bind flies); [intros t t'; apply in_flight_flies|done|server|intros ?]).
  intros t Ht. rewrite M_bind_run. cbn [gets id]. rewrite (fs_pending _ _ (proj1 Ht)).
  revert t Ht. apply (leads_steps flies); [intros t t'; apply in_flight_flies|server].
Qed.

Lemma steps_encrypted_extensions ch : steps (of_tls continues) (send_encrypted_extensions em ch).
Proof. unfold send_encrypted_extensions. steps. apply steps_push_message; [done|]. unfold push_additional_extensions. steps. Qed.

Lemma steps_certificate_request : steps (of_tls continues) (send_certificate_request em).
Proof. unfold send_certificate_request. steps. apply steps_push_message; [done|]. unfold push_signature_algorithms. steps. Qed.

Hint Resolve steps_full_mode steps_exchange steps_send_hello_server steps_encrypted_extensions steps_certificate_request : steps.

Lemma prove_and_finish_inv ch mode :
  writes_certificates (sv_emit_certificate env) -> leads (with_tls in_flight) (prove_and_finish env em ch mode) (with_tls (server_inv v)).
Proof.
  intros Hw. unfold prove_and_finish. destruct (bool_decide _); [|apply finish_inv].
  apply flight_bind; [server|intros c]. apply flight_bind; [server|intros _].
  apply flight_bind; [|intros _; apply finish_inv]. by apply steps_flies_conn, steps_considers_conn, steps_send_certificate.
Qed.

(** Once the suite is chosen: no resumption, no early data. *)
Lemma answer_inv second ch message :
  writes_certificates (sv_emit_certificate env) ->
  leads (with_tls in_flight)
    (c ← gets id;
     share ← lift (choose_group (ctx (cn_tls c)) ch);
     is_second_flight ← retry_or_go_on em second ch message share;
     _ ← (let ret := report_unknown_extensions (cn_properties c) (unknown_extensions ch) in lift (guard_err (ret =? 0) ret));
     '(psk_index, accept_early_data) ← tls_op (select_psk is_second_flight ch message);
     mode ← determine_mode is_second_flight ch message psk_index;
     _ ← modify (on_tls (λ t, set_num_tickets_to_send (tickets_to_send t ch) t));
     _ ← tls_op (accept_early psk_index accept_early_data);
     '(group, pubkey, ecdh_secret) ← tls_op (exchange_keys mode ch share);
     _ ← send_server_hello env em ch mode group pubkey psk_index;
     _ ← ech_op (modify (clear_ech true));
     _ ← push_change_cipher_spec em;
     _ ← tls_op (server_handshake_keys ch ecdh_secret);
     _ ← send_encrypted_extensions em ch;
     prove_and_finish env em ch mode) (with_tls (server_inv v)).
Proof.
  intros Hw. apply flight_bind; [server|intros c]. apply flight_bind; [server|intros share]. apply flight_bind; [apply steps_retry_or_go_on|intros second'].
  apply flight_bind; [server|intros _].
  apply (leads_value _ _ (λ a, a = (None, false))); [intros c'; apply in_flight_inv|apply leads_tls_op, steps_select_psk| |].
  { intros c' a Hc. unfold tls_op. pose proof (λ a, select_psk_none second' ch message (cn_tls c') a (proj1 Hc)) as Hn.
    destruct (select_psk _ _ _ _) as [r t]. cbn [fst] in *. apply Hn. }
  intros [i early] [= -> ->]. apply flight_bind; [apply steps_full_mode|intros mode]. apply flight_bind; [server|intros _].
  apply flight_bind; [unfold accept_early; cbn [andb when]; server|intros _]. apply flight_bind; [server|intros [[group pubkey] secret]].
  apply flight_bind; [server|intros _]. apply flight_bind; [server|intros _]. apply flight_bind; [server|intros _].
  eapply leads_seq; [|apply leads_tls_op, steps_hello_keys|intros _]; [intros c'; apply in_flight_inv|].
  apply flight_bind; [server|intros _]. by apply prove_and_finish_inv.
Qed.

Lemma server_hello_inv message c :
  well_informed -> writes_certificates (sv_emit_certificate env) -> server_inv v (cn_tls c) ->
  state (cn_tls c) = PTLS_STATE_SERVER_EXPECT_CLIENT_HELLO \/ state (cn_tls c) = PTLS_STATE_SERVER_EXPECT_SECOND_CLIENT_HELLO ->
  server_inv v (cn_tls (do_server_handle_hello env em message c).2).
Proof.
  intros Hi Hw [Hf Ha] Hs. unfold do_server_handle_hello. rewrite M_bind_run. cbn [gets].
  set (second := bool_decide _). assert (hears second (cn_tls c)) as Hc.
  { unfold second. destruct Hs as [E|E]; rewrite E in *; [by split|split; [done|by split]]. }
  match goal with |- server_inv v (cn_tls (?m c).2) =>
    enough (leads (with_tls (hears second)) m (with_tls (server_inv v))) as Hl by (by apply Hl) end.
  apply hears_bind; [server|intros _]. apply hears_bind; [by apply steps_receive_hello|intros ch].
  apply hears_bind; [by apply steps_open_hello|intros [ch' message']]. apply hears_bind; [server|intros ch''].
  apply hears_bind; [by apply steps_tls_op, steps_consider_hello|intros _].
  apply (leads_ok _ (with_tls in_flight)); [| |intros _; by apply answer_inv].
  - apply leads_tls_op. intros t Ht. by apply choose_cipher_inv.
  - intros c' a Hc'. pose proof (choose_cipher_inv second ch'' (cn_tls c') Hc') as [_ Hok]. unfold with_tls, tls_op.
    destruct (choose_cipher _ _ _) as [r t]. cbn in *. by apply Hok.
Qed.

(** ** The certificate of the client *)

Lemma server_certificate_inv message t :
  server_inv v t -> state t = PTLS_STATE_SERVER_EXPECT_CERTIFICATE -> server_inv v (do_server_handle_certificate message t).2.
Proof.
  intros Hi Hs. pose proof Hi as [[H1 [H2 H2'] H3 H4] Ha]. rewrite Hs in Ha. unfold do_server_handle_certificate, handle_certificate.
  rewrite !M_bind_run. cbn [gets id]. rewrite !M_bind_run. cbn [lift]. destruct (decode_certificates _ _) as [certs|e]; [|done].
  rewrite M_bind_run, H2', M_bind_run. cbn [lift]. assert (name_to_verify t = None) as Hn by (unfold name_to_verify; by rewrite H1).
  destruct (verify_cb v _ _) as [cb|e] eqn:Ev; [|done]. rewrite Hn in Ev. cbn [modify mret M_ret].
  set (t1 := set_certificate_verify cb t). rewrite M_bind_run. pose proof (steps_update_hash message t1) as Hc.
  assert (server_inv v t1) as Hi1 by (split; [by split|]; change (state t1) with (state t); rewrite Hs; done).
  destruct (update_hash message t1) as [[[]|e] t2]; cbn [snd] in Hc; [|by eapply server_inv_continues].
  rewrite M_bind_run. cbn [modify]. destruct (server_inv_continues v _ _ Hc Hi1) as [[] _]. split; [by split|].
  destruct (Z.eqb_spec (len certs) 0) as [E|E]; cbn -[has_transcript].
  - left. assert (certs = []) as -> by (by destruct certs). by eexists.
  - split; [by apply (ct_has _ _ Hc)|]. exists certs. split; [by intros ->|]. by rewrite (ct_verify _ _ Hc).
Qed.

Lemma server_certificate_verify_inv message t :
  decisive v -> server_inv v t -> state t = PTLS_STATE_SERVER_EXPECT_CERTIFICATE_VERIFY ->
  let '(r, t') := do_server_handle_certificate_verify message t in goes_on (code r) = true -> server_inv v t'.
Proof.
  intros Hd Hi Hs. pose proof Hi as [Hf Ha]. rewrite Hs in Ha. destruct Ha as (Hh & certs & Hc & Hv).
  unfold do_server_handle_certificate_verify. rewrite M_bind_run.
  destruct (handle_certificate_verify _ _ t) as [r t1] eqn:E. pose proof (certificate_verify_proves _ _ _ _ _ _ _ _ Hd Hh Hc Hv E) as Hp.
  destruct r as [[]|e]; [|intros Hg; by rewrite (Hp Hg)]. intros _. destruct (Hp eq_refl) as [Hp1 Hct].
  assert (full_server v (set_certificate_verify None t)) as Hf' by (by destruct Hf; split).
  destruct (full_server_continues v _ _ Hct Hf'). split; [by split|by right].
Qed.

(** ** Finished, and the dispatch *)

Lemma server_finished_inv message t :
  server_inv v t -> state t = PTLS_STATE_SERVER_EXPECT_FINISHED -> server_inv v (server_handle_finished message t).2.
Proof.
  intros [Hf Ha] Hs. rewrite Hs in Ha.
  enough (leads (continues t) (server_handle_finished message) (server_inv v)) as Hl by (by apply Hl).
  assert (forall t', continues t t' -> server_inv v t') as Hi
    by (intros t' Hc; eapply server_inv_continues; [exact Hc|split; [done|by rewrite Hs]]).
  unfold server_handle_finished. repeat (apply (leads_bind continues); [intros t1 t2 H1 H2; by etrans|done|steps|intros ?]).
  intros t' Hc. destruct (Hi t' Hc) as [[] Hk]. rewrite (ct_state _ _ Hc), Hs in Hk. by split; [split|].
Qed.

Lemma certificate_verify_state message t :
  state (do_server_handle_certificate_verify message t).2 = state t \/
  state (do_server_handle_certificate_verify message t).2 = PTLS_STATE_SERVER_EXPECT_FINISHED.
Proof.
  assert (steps considers (handle_certificate_verify message PTLS_CLIENT_CERTIFICATE_VERIFY_CONTEXT_STRING)) as Hs
    by (unfold handle_certificate_verify; server).
  specialize (Hs t). unfold do_server_handle_certificate_verify. rewrite M_bind_run.
  destruct (handle_certificate_verify _ _ t) as [[[]|e] t']; [by right|left; apply Hs].
Qed.

Lemma server_dispatch_inv st message e c ret c' :
  decisive v -> well_informed -> writes_certificates (sv_emit_certificate env) -> server_inv v (cn_tls c) ->
  handle_server_handshake_message (server_handlers env em) st message e c = (ret, c') ->
  goes_on ret = true \/ ret = PTLS_ERROR_ASYNC_OPERATION /\ state (cn_tls c') = PTLS_STATE_SERVER_GENERATING_CERTIFICATE_VERIFY ->
  server_inv v (cn_tls c').
Proof.
  intros Hd Hw Hc Hi. unfold handle_server_handshake_message.
  assert (forall alert, reject alert message e c = (ret, c') -> server_inv v (cn_tls c')) as Hrej by (by intros alert [= _ <-]).
  destruct (state (cn_tls c)) eqn:Hs; try (intros E _; by eapply Hrej); repeat (match goal with |- context [if ?b then _ else _] => destruct b end);
    try (intros E _; by eapply Hrej); intros E Hret.
  all: try (eapply (run_conn_handler (λ c', server_inv v (cn_tls c'))); [exact E|]; apply server_hello_inv; auto; fail).
  all: try (by destruct Hi as [_ Hi]; rewrite Hs in Hi).
  all: try (eapply (run_tls_handler (server_inv v)); [exact E|];
    first [by apply server_certificate_inv | by apply server_finished_inv | eapply server_inv_continues; [apply steps_update_key|done]]).
  unfold server_handlers, tls_handler, tls_op in E. cbn in E. pose proof (server_certificate_verify_inv message (cn_tls c) Hd Hi Hs) as Hv.
  pose proof (certificate_verify_state message (cn_tls c)) as Hst.
  destruct (do_server_handle_certificate_verify message (cn_tls c)). injection E as <- <-. destruct Hret as [Hret|[_ Hret]]; [by apply Hv|].
  cbn in Hret, Hst. rewrite Hret, Hs in Hst. by destruct Hst.
Qed.

(** A server that has heard nothing yet. *)
Definition awaits_client (t : ptls_t) : Prop := full_server v t /\ state t = PTLS_STATE_SERVER_EXPECT_CLIENT_HELLO.

Lemma server_run_inv st c0 c :
  decisive v -> well_informed -> writes_certificates (sv_emit_certificate env) -> awaits_client (cn_tls c0) ->
  server_run env em st c0 c -> server_inv v (cn_tls c).
Proof.
  intros Hd Hw Hc [Hf Hs] Hrun. induction Hrun as [|c message is_end ret c1 Hr IH Eh Hret|c algos r c1 Hr IH Hst E].
  - split; [done|]. by rewrite Hs.
  - by eapply server_dispatch_inv.
  - pose proof (finish_inv (Some algos) c) as Hfin. rewrite E in Hfin. apply Hfin. destruct IH as [H1 H2]. rewrite Hst in H2.
    split; [done|]. split; [done|]. by right; right.
Qed.

(** C3: a server that asks for the client's certificate does not complete without.  From a new server with [require_client_authentication],
    through any messages whose codes let the handshake go on (ClientHellos, retries, session tickets and signatures that are
    waited for included): when [server_handle_finished] succeeds, the Finished was verified, no session was resumed and no early data
    accepted, and either the application's verifier was content with an empty chain, or it accepted the client's chain
    and (unless it asked for no signature) a signature in the client's role over the hash of the transcript of this connection up to the
    CertificateVerify.  Neither pre-shared keys nor 0-RTT nor a change of the order of messages lead round the check. *)
Theorem server_authenticates_client st c0 c message t' :
  decisive v -> well_informed -> writes_certificates (sv_emit_certificate env) -> awaits_client (cn_tls c0) ->
  server_run env em st c0 c -> state (cn_tls c) = PTLS_STATE_SERVER_EXPECT_FINISHED ->
  server_handle_finished message (cn_tls c) = (Ok (), t') ->
  state t' = PTLS_STATE_SERVER_POST_HANDSHAKE /\
  verify_finished message (cn_tls c) = (Ok (), cn_tls c) /\
  is_psk_handshake t' = false /\ pending_handshake_secret t' = None /\
  ((exists cb, verify_cb v None [] = Ok cb) \/
   exists certs cb, certs <> [] /\ verify_cb v None certs = Ok cb /\
   forall f, cb = Some f ->
   exists s tr m rest algo src signature,
     key_schedule t' = Some s /\ slot_ctx (slot0 s) = tr ++ m ++ rest /\
     ptls_decode16 (drop (Z.to_nat PTLS_HANDSHAKE_HEADER_SIZE) m) = Ok (algo, src) /\
     ptls_decode_block 2 (λ b, Ok (b, [])) src = Ok signature /\
     f algo (replicate 64 32 ++ PTLS_CLIENT_CERTIFICATE_VERIFY_CONTEXT_STRING ++ [0] ++ digest (algo0 s) tr) signature = 0).
Proof.
  intros Hd Hw Hc H0 Hrun Hs E. pose proof (server_run_inv st c0 c Hd Hw Hc H0 Hrun) as Hi.
  pose proof (server_finished_inv message (cn_tls c) Hi Hs) as Hi'. rewrite E in Hi'. destruct Hi' as [[] Hk].
  unfold server_handle_finished in E. apply bind_ok in E as ([] & t1 & Ev & E).
  assert (steps eq (verify_finished message)) as Hv by (unfold verify_finished; steps). specialize (Hv (cn_tls c)). rewrite Ev in Hv. cbn in Hv. subst t1.
  do 3 (apply bind_ok in E as (? & ? & _ & E)). injection E as <-. split; [done|]. split; [done|]. split; [done|]. split; [done|]. exact Hk.
Qed.


End Handlers.

(** ** Witnesses *)

(** The messages in the records of a flight; a record of the toy cipher ends with the type and two bytes. *)
Fixpoint sealed_messages (fuel : nat) (wire : bytes) : list bytes :=
  match fuel, wire with
  | S fuel, type :: _ :: _ :: _ :: n :: rest =>
      let n := Z.to_nat n in
      (if type =? PTLS_CONTENT_TYPE_APPDATA then [take (n - 3) rest] else []) ++ sealed_messages fuel (drop n rest)
  | _, _ => []
  end.

Definition mutual_config : config := mkConfig mutual no_retry false.

Definition toy_receives_server (message : bytes) (c : conn) : Z * conn :=
  @handle_server_handshake_message bump_allocator (@server_handlers bump_allocator mix_server_env (@record_emitter bump_allocator)) [] message true c.

(** The client's two flights, and the server after each message. *)
Definition toy_hello_sent : conn := (@client_step bump_allocator mix_client_env [] (new_client mutual_config None)).2.
Definition toy_s1 : Z * conn := toy_receives_server (drop 5 (contents (cn_send toy_hello_sent))) (new_server mutual_config).
Definition toy_answers : list bytes :=
  sealed_messages 4 (contents (cn_send (@client_step bump_allocator mix_client_env (contents (cn_send toy_s1.2)) (rewind 0 toy_hello_sent)).2)).
Definition toy_s2 : Z * conn := toy_receives_server (nth 0 toy_answers []) toy_s1.2.
Definition toy_s3 : Z * conn := toy_receives_server (nth 1 toy_answers []) toy_s2.2.
Abbreviation toy_s4 := (@server_handle_finished bump_allocator (nth 2 toy_answers []) (cn_tls toy_s3.2)).

Lemma mix_decisive : decisive mix_verify.
Proof.
  intros name certs f algo content signature. cbn [verify_cb mix_verify]. destruct (bool_decide _); [|done]. intros [= <-].
  unfold toy_check. by destruct (_ && _).
Qed.

Lemma mix_well_informed : well_informed mix_verify mix_server_env.
Proof.
  intros cb [= <-] ch raw bad t. unfold mix_on_client_hello. rewrite M_bind_run. cbn. split; [by intros []; split|done|done].
Qed.

Lemma mix_writes : writes_certificates (sv_emit_certificate mix_server_env).
Proof. by intros cb context status algos. Qed.

Lemma mix_awaits : awaits_client mix_verify (cn_tls (new_server mutual_config)).
Proof. split; [split; [vm_compute; reflexivity|split; vm_compute; reflexivity|vm_compute; reflexivity|vm_compute; reflexivity]|vm_compute; reflexivity]. Qed.

Lemma toy_server_codes : goes_on toy_s1.1 && goes_on toy_s2.1 && goes_on toy_s3.1 = true.
Proof. vm_compute. reflexivity. Qed.

Lemma toy_server_step c0 m c r :
  @server_run bump_allocator mix_server_env (@record_emitter bump_allocator) [] c0 c -> r = toy_receives_server m c -> goes_on r.1 = true ->
  @server_run bump_allocator mix_server_env (@record_emitter bump_allocator) [] c0 r.2.
Proof.
  intros Hc Hr Hg. eapply (@srun_message bump_allocator _ _ _ _ c m true r.1); [exact Hc|rewrite <- surjective_pairing; symmetry; exact Hr|left; exact Hg].
Qed.

Lemma toy_server_run : @server_run bump_allocator mix_server_env (@record_emitter bump_allocator) [] (new_server mutual_config) toy_s3.2.
Proof.
  pose proof toy_server_codes as Hok. apply andb_true_iff in Hok as [Hok H3]. apply andb_true_iff in Hok as [H1 H2].
  eapply toy_server_step; [|unfold toy_s3; reflexivity|exact H3]. eapply toy_server_step; [|unfold toy_s2; reflexivity|exact H2].
  eapply toy_server_step; [|unfold toy_s1; reflexivity|exact H1]. apply srun_start.
Qed.

Lemma toy_server_finished : state (cn_tls toy_s3.2) = PTLS_STATE_SERVER_EXPECT_FINISHED /\ toy_s4.1 = Ok ().
Proof. vm_compute. split; reflexivity. Qed.

Lemma server_authenticates_client_witness :
  state toy_s4.2 = PTLS_STATE_SERVER_POST_HANDSHAKE /\ is_psk_handshake toy_s4.2 = false /\
  exists certs cb, certs <> [] /\ verify_cb mix_verify None certs = Ok cb.
Proof.
  destruct (@server_authenticates_client bump_allocator mix_verify mix_server_env (@record_emitter bump_allocator) _ [] (new_server mutual_config) toy_s3.2
    (nth 2 toy_answers []) toy_s4.2 mix_decisive mix_well_informed mix_writes mix_awaits toy_server_run (proj1 toy_server_finished)
    (ok_pair _ () (proj2 toy_server_finished))) as (H1 & _ & H2 & _ & H3).
  split; [exact H1|]. split; [exact H2|]. destruct H3 as [(cb & H3)|(certs & cb & H3 & H4 & _)].
  - discriminate H3.
  - exists certs, cb. split; [exact H3|exact H4].
Defined.

Abbreviation toy_ticketed := (@send_session_ticket bump_allocator (@record_emitter bump_allocator) 77 toy_s3.2).

Lemma schedule_default (t : ptls_t) : is_inhabited (key_schedule t) = true -> key_schedule t = Some (default (mkSched 0 [] []) (key_schedule t)).
Proof. by destruct (key_schedule t). Qed.

Lemma toy_ticket_ready :
  is_inhabited (key_schedule (cn_tls toy_s3.2)) = true /\ len (hashes (toy_transcript toy_s3.2)) = 1 /\
  toy_ticketed.1 = Ok () /\ len (contents (cn_send toy_s3.2)) < len (contents (cn_send toy_ticketed.2)).
Proof. vm_compute. repeat split. Qed.

Lemma session_ticket_keeps_transcript_witness :
  toy_ticketed.1 = Ok () /\ len (contents (cn_send toy_s3.2)) < len (contents (cn_send toy_ticketed.2)) /\
  exists s', key_schedule (cn_tls toy_ticketed.2) = Some s' /\
  transcript_hash s' = transcript_hash (toy_transcript toy_s3.2).
Proof.
  destruct toy_ticket_ready as (H1 & H2 & H3 & H4). split; [exact H3|]. split; [exact H4|].
  destruct (@session_ticket_keeps_transcript bump_allocator (@record_emitter bump_allocator) _ 77 toy_s3.2 (toy_transcript toy_s3.2)
    (schedule_default _ H1) ltac:(intros E; rewrite E in H2; discriminate H2)) as [_ H]. exact H.
Defined.
