(* ===== verification/OpensslSign.v ===== *)
(** * OpensslSign: signatures and certificates of the OpenSSL backend ([lib/openssl.c])

    The signer ([sign_certificate], synchronous and asynchronous), the verifier of signatures
    ([verify_sign]) and the two verifiers of certificates: chains ([verify_cert]) and raw public keys
    ([verify_raw_cert]).  The functions of the library on keys, digests and certificates are records of
    functions; what they promise is stated by a class.  The verifiers are then put under the client of
    file ClientAuth. *)

From S2P Require Import Prelude Constants Wire Buffer Crypto Cipher KeySchedule Tls Record Emit Hpke Receive Conn Handshake ServerHello Certificate Steps Client ClientAuth.

(** ** Signature schemes *)

(** The type of a key; an elliptic curve has its NID. *)
Inductive pkey_id := EVP_PKEY_RSA | EVP_PKEY_EC (curve_name : Z) | EVP_PKEY_ED25519 | EVP_PKEY_OTHER.

Definition NID_X9_62_prime256v1 : Z := 415.
Definition NID_secp384r1 : Z := 715.
Definition NID_secp521r1 : Z := 716.

Inductive evp_md := EVP_sha256 | EVP_sha384 | EVP_sha512.

(* src include/zpicotls/openssl.h:175-178 ptls_openssl_signature_scheme_t *)
Record ptls_openssl_signature_scheme_t := mkScheme { scheme_id : Z; scheme_md : option evp_md }.

(** Lists of schemes are without the element that ends them. *)
(* src lib/openssl.c:107-110 rsa_signature_schemes *)
Definition rsa_signature_schemes : list ptls_openssl_signature_scheme_t :=
  [mkScheme PTLS_SIGNATURE_RSA_PSS_RSAE_SHA256 (Some EVP_sha256); mkScheme PTLS_SIGNATURE_RSA_PSS_RSAE_SHA384 (Some EVP_sha384);
   mkScheme PTLS_SIGNATURE_RSA_PSS_RSAE_SHA512 (Some EVP_sha512)].

(* src lib/openssl.c:111-112 secp256r1_signature_schemes *)
Definition secp256r1_signature_schemes : list ptls_openssl_signature_scheme_t := [mkScheme PTLS_SIGNATURE_ECDSA_SECP256R1_SHA256 (Some EVP_sha256)].

(* src lib/openssl.c:113-116 secp384r1_signature_schemes *)
Definition secp384r1_signature_schemes : list ptls_openssl_signature_scheme_t := [mkScheme PTLS_SIGNATURE_ECDSA_SECP384R1_SHA384 (Some EVP_sha384)].

(* src lib/openssl.c:117-120 secp521r1_signature_schemes *)
Definition secp521r1_signature_schemes : list ptls_openssl_signature_scheme_t := [mkScheme PTLS_SIGNATURE_ECDSA_SECP521R1_SHA512 (Some EVP_sha512)].

(* src lib/openssl.c:121-123 ed25519_signature_schemes *)
Definition ed25519_signature_schemes : list ptls_openssl_signature_scheme_t := [mkScheme PTLS_SIGNATURE_ED25519 None].

(* src lib/openssl.c:128-142 default_signature_schemes *)
Definition default_signature_schemes : list Z :=
  [PTLS_SIGNATURE_ED25519; PTLS_SIGNATURE_ECDSA_SECP256R1_SHA256; PTLS_SIGNATURE_ECDSA_SECP384R1_SHA384; PTLS_SIGNATURE_ECDSA_SECP521R1_SHA512;
   PTLS_SIGNATURE_RSA_PSS_RSAE_SHA512; PTLS_SIGNATURE_RSA_PSS_RSAE_SHA384; PTLS_SIGNATURE_RSA_PSS_RSAE_SHA256].

(* src lib/openssl.c:144-183 ptls_openssl_lookup_signature_schemes *)
Definition ptls_openssl_lookup_signature_schemes (key : pkey_id) : option (list ptls_openssl_signature_scheme_t) :=
  match key with
  | EVP_PKEY_RSA => Some rsa_signature_schemes
  | EVP_PKEY_EC curve =>
      if curve =? NID_X9_62_prime256v1 then Some secp256r1_signature_schemes
      else if curve =? NID_secp384r1 then Some secp384r1_signature_schemes
      else if curve =? NID_secp521r1 then Some secp521r1_signature_schemes
      else None
  | EVP_PKEY_ED25519 => Some ed25519_signature_schemes
  | EVP_PKEY_OTHER => None
  end.

(** The first of the available schemes that is among the algorithms. *)
(* src lib/openssl.c:185-197 ptls_openssl_select_signature_scheme *)
Fixpoint ptls_openssl_select_signature_scheme (available : list ptls_openssl_signature_scheme_t) (algorithms : list Z)
    : option ptls_openssl_signature_scheme_t :=
  match available with
  | [] => None
  | scheme :: available =>
      if existsb (Z.eqb (scheme_id scheme)) algorithms then Some scheme else ptls_openssl_select_signature_scheme available algorithms
  end.

(** The search of [verify_sign]. *)
(* src lib/openssl.c:1748-1750 SchemeFound *)
Fixpoint find_scheme (schemes : list ptls_openssl_signature_scheme_t) (algo : Z) : option ptls_openssl_signature_scheme_t :=
  match schemes with
  | [] => None
  | scheme :: schemes => if scheme_id scheme =? algo then Some scheme else find_scheme schemes algo
  end.

(** ** Keys and digests of the library *)

(** [None] is a return value other than 1; [true] is signing.  The two functions that are called first
    with a NULL signature give its size. *)
Record pkey_ops := mkPkey {
  EVP_PKEY : Type;
  EVP_PKEY_id : EVP_PKEY -> pkey_id;
  EVP_MD_CTX : Type;
  EVP_MD_CTX_create : option EVP_MD_CTX;
  digest_init : bool -> EVP_MD_CTX -> option evp_md -> EVP_PKEY -> option EVP_MD_CTX;
  set_rsa_padding_pss : EVP_MD_CTX -> option EVP_MD_CTX;
  set_rsa_pss_saltlen : EVP_MD_CTX -> Z -> option EVP_MD_CTX;
  set_rsa_mgf1_md : EVP_MD_CTX -> option evp_md -> option EVP_MD_CTX;
  digest_update : bool -> EVP_MD_CTX -> bytes -> option EVP_MD_CTX;
  sign_final_size : EVP_MD_CTX -> option Z;
  EVP_DigestSignFinal : EVP_MD_CTX -> option bytes;
  sign_size : EVP_MD_CTX -> bytes -> option Z;
  EVP_DigestSign : EVP_MD_CTX -> bytes -> option bytes;
  EVP_DigestVerifyFinal : EVP_MD_CTX -> bytes -> bool;
  EVP_DigestVerify : EVP_MD_CTX -> bytes -> bytes -> bool;
}.

Definition or_error {A} (r : option A) (e : Z) : result A := match r with Some a => Ok a | None => Err e end.

Section Pkey.
Context `{Allocator} (ops : pkey_ops).

(** The parameters of RSA-PSS. *)
(* src lib/openssl.c:1190-1202 set_rsa *)
Definition set_pss (md : option evp_md) (c : EVP_MD_CTX ops) : result (EVP_MD_CTX ops) :=
  c ← or_error (set_rsa_padding_pss ops c) PTLS_ERROR_LIBRARY;
  c ← or_error (set_rsa_pss_saltlen ops c (-1)) PTLS_ERROR_LIBRARY;
  or_error (set_rsa_mgf1_md ops c md) PTLS_ERROR_LIBRARY.

Definition is_rsa (id : pkey_id) : bool := match id with EVP_PKEY_RSA => true | _ => false end.

(** ** Signing *)

(** A job that has been begun: the memory of the signature is cleared. *)
(* src lib/openssl.c:1064-1072 async_sign_ctx *)
Record async_sign_ctx := mkAsync { async_scheme : ptls_openssl_signature_scheme_t; async_md : EVP_MD_CTX ops; async_siglen : Z; async_sig : bytes }.

(** The output buffer and [*async]. *)
Record signing := mkSigning { sg_buf : ptls_buffer_t; sg_async : option async_sign_ctx }.

#[export] Instance signing_buffer : HasBuffer signing.
Proof. by refine {| get_buf := sg_buf; put_buf := λ b s, mkSigning b (sg_async s) |}; intros; destruct s. Defined.

Definition set_async (a : option async_sign_ctx) (s : signing) : signing := mkSigning (sg_buf s) a.

(* src lib/openssl.c:1104-1120 async_sign_ctx_new *)
Definition async_sign_ctx_new (scheme : ptls_openssl_signature_scheme_t) (c : EVP_MD_CTX ops) (siglen : Z) : option async_sign_ctx :=
  match malloc (56 + siglen) with
  | None => None
  | Some _ => Some (mkAsync scheme c siglen (replicate (Z.to_nat siglen) 0))
  end.

(** What [ASYNC_start_job] answers for a job. *)
Inductive async_status := ASYNC_ERR | ASYNC_NO_JOBS | ASYNC_PAUSE | ASYNC_FINISH.
Context (ASYNC_start_job : async_sign_ctx -> async_status).

(** The job, run to its end: what the function returned, and the signature as it left it. *)
(* src lib/openssl.c:1122-1126 do_sign_async_job *)
Definition do_sign_async_job (a : async_sign_ctx) : Z * async_sign_ctx :=
  match EVP_DigestSignFinal ops (async_md a) with
  | Some sig => (1, mkAsync (async_scheme a) (async_md a) (len sig) sig)
  | None => (0, a)
  end.

(** The memory that a signature is put into was reserved for [siglen] bytes. *)
Definition put_signature (sig : bytes) : M signing unit :=
  s ← gets sg_buf;
  _ ← lift (guard_err (off s + len sig <=? capacity s) OVER_WRITE);
  on_buf (modify (λ b, set_off (off b + len sig) (set_mem (mem_write (mem b) (off b) sig) b))).

(* src lib/openssl.c:1128-1157 do_sign_async *)
Definition do_sign_async : M signing unit :=
  s ← gets id;
  a ← lift (or_error (sg_async s) ABORTED);
  match ASYNC_start_job a with
  | ASYNC_PAUSE => fail PTLS_ERROR_ASYNC_OPERATION
  | ASYNC_ERR | ASYNC_NO_JOBS => _ ← modify (set_async None); fail PTLS_ERROR_LIBRARY
  | ASYNC_FINISH =>
      let '(ret, a) := do_sign_async_job a in
      _ ← catch (ptls_buffer_pushv (async_sig a)) (λ e, _ ← modify (set_async None); fail e);
      modify (set_async None)
  end.

(** [may_async]: whether [async] is not NULL. *)
(* src lib/openssl.c:1160-1244 do_sign *)
Definition do_sign (key : EVP_PKEY ops) (scheme : ptls_openssl_signature_scheme_t) (input : bytes) (may_async : bool) : M signing unit :=
  let md := scheme_md scheme in
  c ← lift (or_error (EVP_MD_CTX_create ops) PTLS_ERROR_NO_MEMORY);
  c ← lift (or_error (digest_init ops true c md key) PTLS_ERROR_LIBRARY);
  match EVP_PKEY_id ops key with
  | EVP_PKEY_ED25519 =>
      siglen ← lift (or_error (sign_size ops c input) PTLS_ERROR_LIBRARY);
      s ← gets sg_buf;
      _ ← on_buf (reserve siglen (tx s));
      sig ← lift (or_error (EVP_DigestSign ops c input) PTLS_ERROR_LIBRARY);
      put_signature sig
  | id =>
      c ← lift (if is_rsa id then set_pss md c else Ok c);
      c ← lift (or_error (digest_update ops true c input) PTLS_ERROR_LIBRARY);
      siglen ← lift (or_error (sign_final_size ops c) PTLS_ERROR_LIBRARY);
      if may_async then
        a ← lift (or_error (async_sign_ctx_new scheme c siglen) PTLS_ERROR_NO_MEMORY);
        _ ← modify (set_async (Some a));
        do_sign_async
      else
        s ← gets sg_buf;
        _ ← on_buf (reserve siglen (tx s));
        sig ← lift (or_error (EVP_DigestSignFinal ops c) PTLS_ERROR_LIBRARY);
        put_signature sig
  end.

(* src include/zpicotls/openssl.h:190-203 ptls_openssl_sign_certificate_t *)
Record ptls_openssl_sign_certificate_t := mkSign { sign_key : EVP_PKEY ops; schemes : list ptls_openssl_signature_scheme_t; sign_async : bool }.

(* src lib/openssl.c:1812-1822 ptls_openssl_init_sign_certificate *)
Definition ptls_openssl_init_sign_certificate (key : EVP_PKEY ops) : result ptls_openssl_sign_certificate_t :=
  l ← or_error (ptls_openssl_lookup_signature_schemes (EVP_PKEY_id ops key)) PTLS_ERROR_INCOMPATIBLE_KEY;
  Ok (mkSign key l false).

(** The selected algorithm. *)
(* src lib/openssl.c:1697-1725 sign_certificate *)
Definition openssl_sign_certificate (self : ptls_openssl_sign_certificate_t) (may_async : bool) (input : bytes) (algorithms : list Z) : M signing Z :=
  s ← gets id;
  match may_async, sg_async s with
  | true, Some a => _ ← do_sign_async; mret (scheme_id (async_scheme a))
  | _, _ =>
      scheme ← lift (or_error (ptls_openssl_select_signature_scheme (schemes self) algorithms) PTLS_ALERT_HANDSHAKE_FAILURE);
      _ ← do_sign (sign_key self) scheme input (may_async && sign_async self);
      mret (scheme_id scheme)
  end.

(** ** Verifying signatures *)

(** [data] is [None] when its base is NULL: the verifier is only to be released. *)
(* src lib/openssl.c:1733-1810 verify_sign *)
Definition verify_sign (key : EVP_PKEY ops) (algo : Z) (data : option bytes) (signature : bytes) : result unit :=
  match data with
  | None => Ok ()
  | Some data =>
      schemes ← or_error (ptls_openssl_lookup_signature_schemes (EVP_PKEY_id ops key)) PTLS_ERROR_LIBRARY;
      scheme ← or_error (find_scheme schemes algo) PTLS_ALERT_ILLEGAL_PARAMETER;
      c ← or_error (EVP_MD_CTX_create ops) PTLS_ERROR_NO_MEMORY;
      match EVP_PKEY_id ops key with
      | EVP_PKEY_ED25519 =>
          c ← or_error (digest_init ops false c None key) PTLS_ERROR_LIBRARY;
          guard_err (EVP_DigestVerify ops c signature data) PTLS_ERROR_LIBRARY
      | id =>
          c ← or_error (digest_init ops false c (scheme_md scheme) key) PTLS_ERROR_LIBRARY;
          c ← (if is_rsa id then set_pss (scheme_md scheme) c else Ok c);
          c ← or_error (digest_update ops false c data) PTLS_ERROR_LIBRARY;
          guard_err (EVP_DigestVerifyFinal ops c signature) PTLS_ALERT_DECRYPT_ERROR
      end
  end.

(** ** Verifying certificates *)

(** The errors that [X509_STORE_CTX_get_error] gives and the code looks at. *)
Inductive x509_err :=
  | X509_V_OK | X509_V_ERR_OUT_OF_MEM | X509_V_ERR_CERT_REVOKED | X509_V_ERR_CERT_NOT_YET_VALID | X509_V_ERR_CERT_HAS_EXPIRED
  | X509_V_ERR_UNABLE_TO_GET_ISSUER_CERT | X509_V_ERR_UNABLE_TO_GET_ISSUER_CERT_LOCALLY | X509_V_ERR_CERT_UNTRUSTED
  | X509_V_ERR_CERT_REJECTED | X509_V_ERR_HOSTNAME_MISMATCH | X509_V_ERR_INVALID_CA | X509_V_ERR_CA_MD_TOO_WEAK
  | X509_V_ERR_UNSUPPORTED_SIGNATURE_ALGORITHM | X509_V_ERR_OTHER (e : Z).

(** What a verification is for: the purpose, the depth, and the name, as an address or as a host. *)
Inductive x509_purpose := X509_PURPOSE_SSL_CLIENT | X509_PURPOSE_SSL_SERVER.
Inductive x509_name := NO_NAME | IP_ASC (name : bytes) | HOST (name : bytes).
Record x509_params := mkParams { purpose : x509_purpose; depth : Z; param_name : x509_name }.

(** [X509_verify_cert store params cert chain]: [X509_V_OK] if it returns 1; [STORE_CTX] says whether
    the context is made ([None] for [X509_STORE_CTX_new], [Some false] for [X509_STORE_CTX_init]). *)
Record x509_ops := mkX509 {
  X509 : Type;
  X509_STORE : Type;
  d2i_X509 : bytes -> option X509;
  X509_get_pubkey : X509 -> option (EVP_PKEY ops);
  STORE_CTX : option bool;
  X509_verify_cert : X509_STORE -> x509_params -> X509 -> list X509 -> x509_err;
  i2d_PUBKEY : EVP_PKEY ops -> option bytes;
}.

Section Certificates.
Context (x : x509_ops) (is_ipaddr : bytes -> bool).

(* src lib/openssl.c:1916-1945 ossl_x509_err *)
Definition x509_alert (e : x509_err) : Z :=
  match e with
  | X509_V_OK => 0
  | X509_V_ERR_OUT_OF_MEM => PTLS_ERROR_NO_MEMORY
  | X509_V_ERR_CERT_REVOKED => PTLS_ALERT_CERTIFICATE_REVOKED
  | X509_V_ERR_CERT_NOT_YET_VALID | X509_V_ERR_CERT_HAS_EXPIRED => PTLS_ALERT_CERTIFICATE_EXPIRED
  | X509_V_ERR_UNABLE_TO_GET_ISSUER_CERT | X509_V_ERR_UNABLE_TO_GET_ISSUER_CERT_LOCALLY
  | X509_V_ERR_CERT_UNTRUSTED | X509_V_ERR_CERT_REJECTED => PTLS_ALERT_UNKNOWN_CA
  | X509_V_ERR_HOSTNAME_MISMATCH | X509_V_ERR_INVALID_CA | X509_V_ERR_CA_MD_TOO_WEAK
  | X509_V_ERR_UNSUPPORTED_SIGNATURE_ALGORITHM => PTLS_ALERT_BAD_CERTIFICATE
  | X509_V_ERR_OTHER _ => PTLS_ALERT_CERTIFICATE_UNKNOWN
  end.

(** The name is set when acting as a client. *)
(* src lib/openssl.c:1900-1913 params *)
Definition verify_params (is_server : bool) (server_name : option bytes) : x509_params :=
  mkParams (if is_server then X509_PURPOSE_SSL_CLIENT else X509_PURPOSE_SSL_SERVER) 98
    (match is_server, server_name with
     | false, Some name => if is_ipaddr name then IP_ASC name else HOST name
     | _, _ => NO_NAME
     end).

(** The code, and [*ossl_x509_err]. *)
(* src lib/openssl.c:1883-1957 verify_cert_chain *)
Definition verify_cert_chain (store : X509_STORE x) (cert : X509 x) (chain : list (X509 x)) (is_server : bool) (server_name : option bytes)
    : Z * x509_err :=
  match STORE_CTX x with
  | None => (PTLS_ERROR_NO_MEMORY, X509_V_OK)
  | Some false => (PTLS_ERROR_LIBRARY, X509_V_OK)
  | Some true => let e := X509_verify_cert x store (verify_params is_server server_name) cert chain in (x509_alert e, e)
  end.

(** The certificates after the first one; an element that is not a certificate is an error. *)
(* src lib/openssl.c:1972-1979 interm *)
Fixpoint to_chain (certs : list bytes) : option (list (X509 x)) :=
  match certs with
  | [] => Some []
  | c :: certs => interm ← d2i_X509 x c; chain ← to_chain certs; Some (interm :: chain)
  end.

(** [override]: the callback, from the code, the error, the certificate and the chain to a code. *)
(* src include/zpicotls/openssl.h:224-228 ptls_openssl_verify_certificate_t *)
Record ptls_openssl_verify_certificate_t := mkOpensslVerify {
  cert_store : X509_STORE x; override_callback : option (Z -> x509_err -> option (X509 x) -> list (X509 x) -> Z) }.

(** What the verifier of signatures answers: [verify_sign] with the data of the handshake. *)
Definition signature_verifier (key : EVP_PKEY ops) (algo : Z) (data signature : bytes) : Z := code (verify_sign key algo (Some data) signature).

(** The error, or the verifier of signatures that is set. *)
(* src lib/openssl.c:1959-2010 verify_cert *)
Definition verify_cert (self : ptls_openssl_verify_certificate_t) (is_server : bool) (server_name : option bytes) (certs : list bytes)
    : result (option (Z -> bytes -> bytes -> Z)) :=
  '(cert, chain, ret, err) ←
    match certs with
    | [] => Ok (None, [], PTLS_ALERT_CERTIFICATE_REQUIRED, X509_V_OK)
    | c :: certs =>
        cert ← or_error (d2i_X509 x c) PTLS_ALERT_BAD_CERTIFICATE;
        chain ← or_error (to_chain certs) PTLS_ALERT_BAD_CERTIFICATE;
        let '(ret, err) := verify_cert_chain (cert_store self) cert chain is_server server_name in
        Ok (Some cert, chain, ret, err)
    end;
  let ret := match override_callback self with None => ret | Some f => f ret err cert chain end in
  if negb (ret =? 0) then Err ret
  else match cert with
       | None => Ok None
       | Some cert =>
           key ← or_error (X509_get_pubkey x cert) PTLS_ALERT_BAD_CERTIFICATE;
           Ok (Some (signature_verifier key))
       end.

(** A public key that is expected as it is. *)
(* src lib/openssl.c:2054-2087 verify_raw_cert *)
Definition verify_raw_cert (expected_pubkey : EVP_PKEY ops) (certs : list bytes) : result (option (Z -> bytes -> bytes -> Z)) :=
  match certs with
  | [] => Err ABORTED
  | [c] =>
      der ← or_error (i2d_PUBKEY x expected_pubkey) PTLS_ALERT_BAD_CERTIFICATE;
      _ ← guard_err (len c =? len der) PTLS_ALERT_BAD_CERTIFICATE;
      _ ← guard_err (mem_equal der c) PTLS_ALERT_BAD_CERTIFICATE;
      Ok (Some (signature_verifier expected_pubkey))
  | _ => Err PTLS_ALERT_BAD_CERTIFICATE
  end.

(** The objects of [ptls_context_t]. *)
(* src lib/openssl.c:2012-2026 ptls_openssl_init_verify_certificate *)
Definition ptls_openssl_init_verify_certificate (store default_store : option (X509_STORE x)) : result ptls_openssl_verify_certificate_t :=
  match store with
  | Some store => Ok (mkOpensslVerify store None)
  | None => match default_store with Some store => Ok (mkOpensslVerify store None) | None => Err (-1) end
  end.

Definition openssl_verifier (self : ptls_openssl_verify_certificate_t) (is_server : bool) : ptls_verify_certificate_t :=
  mkVerify (verify_cert self is_server) default_signature_schemes.

(* src lib/openssl.c:2089-2094 ptls_openssl_raw_pubkey_init_verify_certificate *)
Definition ptls_openssl_raw_pubkey_init_verify_certificate (expected_pubkey : EVP_PKEY ops) : ptls_verify_certificate_t :=
  mkVerify (λ _, verify_raw_cert expected_pubkey) default_signature_schemes.
End Certificates.
End Pkey.

(** ** What the library promises *)

(** [made sign c key md pss data]: a context for signing (or verifying) with a key and a digest, with the
    parameters of RSA-PSS or without, that has been given [data]. [matches key pub] are the two halves of
    a pair. *)
Class Signatures (ops : pkey_ops) := {
  matches : EVP_PKEY ops -> EVP_PKEY ops -> Prop;
  made : bool -> EVP_MD_CTX ops -> EVP_PKEY ops -> option evp_md -> bool -> bytes -> Prop;
  matches_id : forall key pub, matches key pub -> EVP_PKEY_id ops pub = EVP_PKEY_id ops key;
  init_made : forall s c c' md key, EVP_MD_CTX_create ops = Some c -> digest_init ops s c md key = Some c' -> made s c' key md false [];
  pss_made : forall s c c' key md, made s c key md false [] -> set_pss ops md c = Ok c' -> made s c' key md true [];
  update_made : forall s c c' key md pss x, made s c key md pss [] -> digest_update ops s c x = Some c' -> made s c' key md pss x;
  verify_init : forall c c' md key pub, matches key pub -> EVP_MD_CTX_create ops = Some c -> digest_init ops true c md key = Some c' ->
    is_Some (digest_init ops false c md pub);
  verify_pss : forall c key md, made false c key md false [] -> EVP_PKEY_id ops key = EVP_PKEY_RSA -> is_ok (set_pss ops md c);
  verify_update : forall c key md pss x, made false c key md pss [] -> is_Some (digest_update ops false c x);
  size_nonneg : forall c x n, sign_final_size ops c = Some n \/ sign_size ops c x = Some n -> 0 <= n;
  final_size : forall c n sig, sign_final_size ops c = Some n -> EVP_DigestSignFinal ops c = Some sig -> len sig <= n;
  oneshot_size : forall c x n sig, sign_size ops c x = Some n -> EVP_DigestSign ops c x = Some sig -> len sig <= n;
  verify_final : forall c c' key pub md pss x sig, matches key pub -> made true c key md pss x -> EVP_DigestSignFinal ops c = Some sig ->
    made false c' pub md pss x -> EVP_DigestVerifyFinal ops c' sig = true;
  verify_oneshot : forall c c' key pub md x sig, matches key pub -> made true c key md false [] -> EVP_DigestSign ops c x = Some sig ->
    made false c' pub md false [] -> EVP_DigestVerify ops c' sig x = true;
}.

Section Proofs.
Context `{Allocator} (ops : pkey_ops).

Lemma or_error_ok {A} (r : option A) e a : or_error r e = Ok a <-> r = Some a.
Proof. destruct r; simpl; naive_solver. Qed.

(** ** The verifiers *)

(** Every error of [verify_sign] ends the handshake. *)
Lemma verify_sign_decides key algo data signature : goes_on (code (verify_sign ops key algo data signature)) = true ->
  verify_sign ops key algo data signature = Ok ().
Proof.
  unfold verify_sign. destruct data as [data|]; [|done]. unfold set_pss.
  repeat first [done | match goal with |- context [or_error ?r _] => destruct r; cbn [or_error mbind result_bind] end
    | match goal with |- context [guard_err ?b _] => destruct b; cbn [guard_err] end
    | match goal with |- context [match EVP_PKEY_id ops key with _ => _ end] => destruct (EVP_PKEY_id ops key); cbn [is_rsa mbind result_bind] end ].
Qed.

Lemma signature_verifier_decides key algo content signature : goes_on (signature_verifier ops key algo content signature) = true ->
  signature_verifier ops key algo content signature = 0.
Proof. unfold signature_verifier. intros Hg. by rewrite (verify_sign_decides _ _ _ _ Hg). Qed.

Lemma openssl_decisive x is_ipaddr self is_server : decisive (openssl_verifier ops x is_ipaddr self is_server).
Proof.
  intros name certs f algo content signature Hv. cbn in Hv. unfold verify_cert in Hv. apply result_bind_ok in Hv as ([[[cert chain] ret] err] & _ & Hv).
  destruct (negb _); [done|]. destruct cert as [cert|]; [|done]. apply result_bind_ok in Hv as (key & _ & [= <-]). apply signature_verifier_decides.
Qed.

(** What a chain that is accepted means. *)
Lemma verify_cert_sound x is_ipaddr self is_server name certs cb :
  override_callback ops x self = None -> verify_cert ops x is_ipaddr self is_server name certs = Ok cb ->
  exists c rest cert chain key, certs = c :: rest /\ d2i_X509 ops x c = Some cert /\ to_chain ops x rest = Some chain /\
    X509_verify_cert ops x (cert_store ops x self) (verify_params is_ipaddr is_server name) cert chain = X509_V_OK /\
    X509_get_pubkey ops x cert = Some key /\ cb = Some (signature_verifier ops key).
Proof.
  intros Ho Hv. unfold verify_cert in Hv. rewrite Ho in Hv. destruct certs as [|c rest]; [done|].
  destruct (d2i_X509 ops x c) as [cert|] eqn:Ec; [|done]. destruct (to_chain ops x rest) as [chain|] eqn:Er; [|done].
  cbn [or_error mbind result_bind] in Hv. unfold verify_cert_chain in Hv. destruct (STORE_CTX ops x) as [[]|]; [|done..].
  destruct (X509_verify_cert ops x _ _ _ _) eqn:Ev; try done. cbn in Hv. destruct (X509_get_pubkey ops x cert) as [key|] eqn:Ek; [|done].
  injection Hv as <-. by exists c, rest, cert, chain, key.
Qed.

Lemma raw_decisive x key : decisive (ptls_openssl_raw_pubkey_init_verify_certificate ops x key).
Proof.
  intros name [|c [|]] f algo content signature Hv; [done| |done]. cbn in Hv.
  apply result_bind_ok in Hv as (der & _ & Hv). apply result_bind_ok in Hv as (? & _ & Hv). apply result_bind_ok in Hv as (? & _ & [= <-]).
  apply signature_verifier_decides.
Qed.

(** ** The signer *)

Context `{Signatures ops} (job : async_sign_ctx ops -> async_status).

(** An error, without a change to the contents. *)
Definition unsigned (s : signing ops) (e : Z) (s' : signing ops) : Prop :=
  buf_wf (sg_buf ops s') /\ contents (sg_buf ops s') = contents (sg_buf ops s) /\ (e = PTLS_ERROR_NO_MEMORY \/ e = PTLS_ERROR_LIBRARY).

Lemma reserve_put n (r : option bytes) s : buf_wf (sg_buf ops s) -> 0 <= n -> (forall sig, r = Some sig -> len sig <= n) ->
  match (b ← gets (sg_buf ops); _ ← on_buf (reserve n (tx b)); sig ← lift (or_error r PTLS_ERROR_LIBRARY); put_signature ops sig) s with
  | (Ok _, s') => exists sig, r = Some sig /\ buf_wf (sg_buf ops s') /\ contents (sg_buf ops s') = contents (sg_buf ops s) ++ sig
  | (Err e, s') => unsigned s e s'
  end.
Proof.
  intros Hw Hn Hr. rewrite M_bind_run. cbn [gets]. rewrite M_bind_run. unfold on_buf at 1. cbn [get_buf signing_buffer].
  pose proof (reserve_aligned_cases n 0 (tx (sg_buf ops s)) (sg_buf ops s) Hw Hn ltac:(lia)) as Hc. unfold reserve.
  destruct (reserve_aligned _ _ _ _) as [[u|e] b1].
  2: { destruct Hc as (-> & [[? _]|(_ & -> & _)]); [done|]. split; [done|]. split; [done|]. by left. }
  destruct Hc as (Hw1 & Hc1 & Ho1 & Ht1 & _ & Hcap & _). cbn [put_buf signing_buffer]. rewrite M_bind_run. cbn [lift].
  destruct r as [sig|]; cbn [or_error]; [|split; [done|split; [done|by right]]]. specialize (Hr sig eq_refl).
  unfold put_signature. rewrite M_bind_run. cbn [gets sg_buf]. rewrite M_bind_run. cbn [lift]. rewrite (proj2 (Z.leb_le _ _)) by lia.
  cbn [guard_err]. exists sig. destruct (append_at_off b1 sig Hw1 ltac:(lia)) as [Hw2 Hc2]. cbn. split; [done|]. split; [exact Hw2|]. by rewrite <- Hc1.
Qed.

(** What a signature was made with. *)
Definition signed_with (key : EVP_PKEY ops) (scheme : ptls_openssl_signature_scheme_t) (input sig : bytes) : Prop :=
  exists c0 c1 c, EVP_MD_CTX_create ops = Some c0 /\ digest_init ops true c0 (scheme_md scheme) key = Some c1 /\
  match EVP_PKEY_id ops key with
  | EVP_PKEY_ED25519 => made true c key (scheme_md scheme) false [] /\ EVP_DigestSign ops c input = Some sig
  | id => made true c key (scheme_md scheme) (is_rsa id) input /\ EVP_DigestSignFinal ops c = Some sig
  end.

Lemma set_pss_err md c e : set_pss ops md c = Err e -> e = PTLS_ERROR_LIBRARY.
Proof.
  unfold set_pss. destruct (set_rsa_padding_pss ops c) as [c1|]; cbn; [|by intros [= <-]]. destruct (set_rsa_pss_saltlen ops c1 (-1)) as [c2|]; cbn; [|by intros [= <-]].
  destruct (set_rsa_mgf1_md ops c2 md); cbn; [done|by intros [= <-]].
Qed.

(** With a digest: everything but Ed25519. *)
Lemma sign_digest_run key md (pss : bool) c1 input s : buf_wf (sg_buf ops s) -> made true c1 key md false [] ->
  match (c ← lift (S := signing ops) (if pss then set_pss ops md c1 else Ok c1);
         c ← lift (or_error (digest_update ops true c input) PTLS_ERROR_LIBRARY);
         siglen ← lift (or_error (sign_final_size ops c) PTLS_ERROR_LIBRARY);
         b ← gets (sg_buf ops);
         _ ← on_buf (reserve siglen (tx b));
         sig ← lift (or_error (EVP_DigestSignFinal ops c) PTLS_ERROR_LIBRARY);
         put_signature ops sig) s with
  | (Ok _, s') => exists c sig, made true c key md pss input /\ EVP_DigestSignFinal ops c = Some sig /\
      buf_wf (sg_buf ops s') /\ contents (sg_buf ops s') = contents (sg_buf ops s) ++ sig
  | (Err e, s') => unsigned s e s'
  end.
Proof.
  intros Hw Hm. rewrite M_bind_run. cbn [lift]. destruct (if pss then set_pss ops md c1 else Ok c1) as [c2|e] eqn:E2.
  2: { destruct pss; [|done]. split; [done|]. split; [done|]. right. by eapply set_pss_err. }
  assert (made true c2 key md pss []) as Hm2 by (destruct pss; [by eapply pss_made|by injection E2 as <-]).
  rewrite M_bind_run. cbn [lift]. destruct (digest_update ops true c2 input) as [c3|] eqn:E3; cbn [or_error]; [|split; [done|split; [done|by right]]].
  pose proof (update_made _ _ _ _ _ _ _ Hm2 E3) as Hm3. rewrite M_bind_run. cbn [lift].
  destruct (sign_final_size ops c3) as [n|] eqn:E4; cbn [or_error]; [|split; [done|split; [done|by right]]].
  pose proof (reserve_put n (EVP_DigestSignFinal ops c3) s Hw (size_nonneg c3 [] n (or_introl E4)) (λ sig, final_size c3 n sig E4)) as Hr.
  match type of Hr with match ?m with _ => _ end => destruct m as [[u|e] s'] end; [|done].
  destruct Hr as (sig & Hs & Hr). by exists c3, sig.
Qed.

Lemma do_sign_sync key scheme input s : buf_wf (sg_buf ops s) ->
  match do_sign ops job key scheme input false s with
  | (Ok _, s') => exists sig, signed_with key scheme input sig /\ buf_wf (sg_buf ops s') /\ contents (sg_buf ops s') = contents (sg_buf ops s) ++ sig
  | (Err e, s') => unsigned s e s'
  end.
Proof.
  intros Hw. unfold do_sign, signed_with. rewrite M_bind_run. cbn [lift].
  destruct (EVP_MD_CTX_create ops) as [c0|] eqn:E0; cbn [or_error]; [|split; [done|split; [done|by left]]]. rewrite M_bind_run. cbn [lift].
  destruct (digest_init ops true c0 (scheme_md scheme) key) as [c1|] eqn:E1; cbn [or_error]; [|split; [done|split; [done|by right]]].
  pose proof (init_made _ _ _ _ _ E0 E1) as Hm.
  destruct (EVP_PKEY_id ops key) eqn:Eid.
  3: { rewrite M_bind_run. cbn [lift]. destruct (sign_size ops c1 input) as [n|] eqn:E4; cbn [or_error]; [|split; [done|split; [done|by right]]].
    pose proof (reserve_put n (EVP_DigestSign ops c1 input) s Hw (size_nonneg c1 input n (or_intror E4)) (λ sig, oneshot_size c1 input n sig E4)) as Hr.
    match type of Hr with match ?m with _ => _ end => destruct m as [[u|e] s'] end; [|done].
    destruct Hr as (sig & Hs & Hr). exists sig. split; [|done]. by exists c0, c1, c1. }
  all: pose proof (sign_digest_run key (scheme_md scheme) (is_rsa (EVP_PKEY_id ops key)) c1 input s Hw Hm) as Hr; rewrite Eid in Hr;
    match type of Hr with match ?m with _ => _ end => destruct m as [[u|e] s'] end; [|done];
    destruct Hr as (c & sig & Hc & Hs & Hr); exists sig; split; [|done]; by exists c0, c1, c.
Qed.

Lemma find_scheme_in l scheme : NoDup (scheme_id <$> l) -> scheme ∈ l -> find_scheme l (scheme_id scheme) = Some scheme.
Proof.
  induction l as [|a l IH]; intros Hn Hi; [by apply elem_of_nil in Hi|]. cbn [find_scheme]. rewrite fmap_cons, NoDup_cons in Hn. destruct Hn as [Ha Hn].
  apply elem_of_cons in Hi as [->|Hi]; [by rewrite Z.eqb_refl|]. destruct (Z.eqb_spec (scheme_id a) (scheme_id scheme)) as [E|E]; [|by apply IH].
  destruct Ha. rewrite E. by apply list_elem_of_fmap_2.
Qed.

Lemma select_scheme_spec l algos scheme : ptls_openssl_select_signature_scheme l algos = Some scheme -> scheme ∈ l /\ scheme_id scheme ∈ algos.
Proof.
  induction l as [|a l IH]; [done|]. cbn. destruct (existsb _ algos) eqn:E.
  - intros [= <-]. split; [apply list_elem_of_here|]. apply existsb_exists in E as (y & Hy & ->%Z.eqb_eq). by apply list_elem_of_In.
  - intros Hs. destruct (IH Hs). split; [by apply list_elem_of_further|done].
Qed.

Lemma lookup_distinct id l : ptls_openssl_lookup_signature_schemes id = Some l -> NoDup (scheme_id <$> l).
Proof.
  destruct id as [|curve| |]; cbn; [|repeat case_match; try done| |done]; intros [= <-]; by apply (bool_decide_unpack _).
Qed.

Lemma final_accepts key pub md pss c v input sig : matches key pub -> made true c key md pss input -> EVP_DigestSignFinal ops c = Some sig ->
  made false v pub md pss [] ->
  (c ← or_error (digest_update ops false v input) PTLS_ERROR_LIBRARY; guard_err (EVP_DigestVerifyFinal ops c sig) PTLS_ALERT_DECRYPT_ERROR) = Ok ().
Proof.
  intros Hm Hc Hs Hv. destruct (verify_update _ _ _ _ input Hv) as [v' Hv']. rewrite Hv'. cbn [or_error mbind result_bind].
  by rewrite (verify_final c v' key pub md pss input sig Hm Hc Hs (update_made _ _ _ _ _ _ _ Hv Hv')).
Qed.

(** A signature made with a scheme of a key is accepted under it. *)
Lemma signed_verifies key pub scheme l input sig : matches key pub -> ptls_openssl_lookup_signature_schemes (EVP_PKEY_id ops key) = Some l -> scheme ∈ l ->
  signed_with key scheme input sig -> verify_sign ops pub (scheme_id scheme) (Some input) sig = Ok ().
Proof.
  intros Hm Hl Hi (c0 & c1 & c & E0 & E1 & Hs). unfold verify_sign. rewrite (matches_id key pub Hm), Hl. cbn [or_error mbind result_bind].
  rewrite (find_scheme_in l scheme (lookup_distinct _ _ Hl) Hi). cbn [or_error mbind result_bind]. rewrite E0. cbn [or_error mbind result_bind].
  destruct (verify_init _ _ _ _ _ Hm E0 E1) as [v1 Hv1]. pose proof (init_made _ _ _ _ _ E0 Hv1) as Mv1. destruct (EVP_PKEY_id ops key) eqn:Eid.
  3: { assert (scheme_md scheme = None) as Hmd by (injection Hl as <-; apply list_elem_of_singleton in Hi as ->; done). rewrite Hmd in *.
       rewrite Hv1. cbn [or_error mbind result_bind]. destruct Hs as [Hc Hs]. by rewrite (verify_oneshot c v1 key pub None input sig Hm Hc Hs Mv1). }
  all: rewrite Hv1; cbn [or_error mbind result_bind is_rsa]; destruct Hs as [Hc Hs].
  1: { pose proof (verify_pss _ _ _ Mv1 ltac:(by rewrite (matches_id key pub Hm))) as Hp.
       destruct (set_pss ops (scheme_md scheme) v1) as [v2|] eqn:E2; [|done]. cbn [mbind result_bind]. pose proof (pss_made _ _ _ _ _ Mv1 E2) as Mv2.
       by apply (final_accepts key pub (scheme_md scheme) true c v2). }
  all: by apply (final_accepts key pub (scheme_md scheme) false c v1).
Qed.
End Proofs.

(** C19: the signer and the verifier of the OpenSSL backend agree.  A signer set up for a key either
    appends a signature to the output and reports an algorithm that the peer offered, and then the verifier
    with the public half of the key accepts that algorithm and signature for that input; or it leaves the contents
    as they were, because no scheme of the key is among the peer's algorithms (handshake_failure), or
    for lack of memory, or because the library refused.  For RSA-PSS, ECDSA and Ed25519 keys alike. *)
Theorem openssl_signature_accepted `{Allocator} ops `{Signatures ops} job self may_async key pub input algos s :
  ptls_openssl_init_sign_certificate ops key = Ok self -> matches key pub -> buf_wf (sg_buf ops s) -> sg_async ops s = None ->
  match openssl_sign_certificate ops job self may_async input algos s with
  | (Ok algo, s') => algo ∈ algos /\ buf_wf (sg_buf ops s') /\
      exists sig, contents (sg_buf ops s') = contents (sg_buf ops s) ++ sig /\ signature_verifier ops pub algo input sig = 0
  | (Err e, s') => buf_wf (sg_buf ops s') /\ contents (sg_buf ops s') = contents (sg_buf ops s) /\
      (e = PTLS_ERROR_NO_MEMORY \/ e = PTLS_ERROR_LIBRARY \/
       e = PTLS_ALERT_HANDSHAKE_FAILURE /\ forall scheme, scheme ∈ schemes ops self -> scheme_id scheme ∉ algos)
  end.
Proof.
  intros Hi Hm Hw Ha. unfold ptls_openssl_init_sign_certificate in Hi. apply result_bind_ok in Hi as (l & Hl%or_error_ok & [= <-]).
  unfold openssl_sign_certificate. rewrite M_bind_run. cbn [gets id]. rewrite Ha. cbn [schemes sign_key sign_async]. rewrite andb_false_r.
  replace (match may_async with true => _ | false => _ end) with
    (scheme ← lift (or_error (ptls_openssl_select_signature_scheme l algos) PTLS_ALERT_HANDSHAKE_FAILURE);
     _ ← do_sign ops job key scheme input false; mret (scheme_id scheme)) by (by destruct may_async).
  rewrite M_bind_run. cbn [lift]. destruct (ptls_openssl_select_signature_scheme l algos) as [scheme|] eqn:Es; cbn [or_error].
  - destruct (select_scheme_spec _ _ _ Es) as [Hin Hal]. pose proof (do_sign_sync ops job key scheme input s Hw) as Hr. rewrite M_bind_run.
    destruct (do_sign ops job key scheme input false s) as [[u|e] s'].
    + destruct Hr as (sig & Hs & Hw' & Hc). split; [done|]. split; [done|]. exists sig. split; [done|]. unfold signature_verifier.
      by rewrite (signed_verifies ops key pub scheme l input sig Hm Hl Hin Hs).
    + destruct Hr as (Hw' & Hc & He). split; [done|]. split; [done|]. tauto.
  - split; [done|]. split; [done|]. right. right. split; [done|]. intros scheme Hin Hal. clear -Es Hin Hal. induction l as [|a l IH]; [by apply elem_of_nil in Hin|].
    cbn in Es. destruct (existsb _ algos) eqn:E; [done|]. apply elem_of_cons in Hin as [->|Hin]; [|by apply IH].
    assert (existsb (Z.eqb (scheme_id a)) algos = true) as E'; [|congruence]. apply existsb_exists. exists (scheme_id a).
    rewrite <- list_elem_of_In. split; [done|apply Z.eqb_refl].
Qed.


(** ** Evaluation *)

(** Keys of one kind, whose signature is a function of key and data. *)
Definition toy_pkey : pkey_ops :=
  mkPkey bytes (λ _, EVP_PKEY_EC NID_X9_62_prime256v1) (bytes * bytes) (Some ([], [])) (λ _ _ _ key, Some (key, [])) Some (λ c _, Some c) (λ c _, Some c)
    (λ _ c x, Some (c.1, c.2 ++ x)) (λ _, Some 16) (λ c, Some (toy_block c.1 c.2)) (λ _ _, Some 16) (λ c x, Some (toy_block c.1 x))
    (λ c sig, bool_decide (sig = toy_block c.1 c.2)) (λ c sig x, bool_decide (sig = toy_block c.1 x)).

#[export] Instance toy_signatures : Signatures toy_pkey.
Proof.
  refine (Build_Signatures toy_pkey (λ key pub, key = pub) (λ _ c key _ _ x, c = (key, x)) _ _ _ _ _ _ _ _ _ _ _ _).
  - done.
  - by intros ? ? ? ? ? _ [= <-].
  - by intros ? ? ? ? ? -> [= <-].
  - by intros ? ? ? ? ? ? ? -> [= <-].
  - by eexists.
  - done.
  - by eexists.
  - by intros ? ? ? [[= <-]|[= <-]].
  - intros ? ? ? [= <-] [= <-]. unfold len, toy_block. by rewrite length_fmap, length_seq.
  - intros ? ? ? ? [= <-] [= <-]. unfold len, toy_block. by rewrite length_fmap, length_seq.
  - intros ? ? ? ? ? ? ? ? -> -> [= <-] ->. by apply bool_decide_eq_true_2.
  - intros ? ? ? ? ? ? ? -> -> [= <-] ->. by apply bool_decide_eq_true_2.
Defined.

(** A certificate is its key; the store trusts everything, for one host. *)
Definition toy_x509 : x509_ops toy_pkey :=
  mkX509 toy_pkey bytes unit (λ b, if bool_decide (b = []) then None else Some b) Some (Some true)
    (λ _ p _ _, match param_name p with HOST n => if bool_decide (n = str "example.com") then X509_V_OK else X509_V_ERR_HOSTNAME_MISMATCH
                | _ => X509_V_OK end) Some.

Definition toy_openssl : ptls_verify_certificate_t := openssl_verifier toy_pkey toy_x509 (λ _, false) (mkOpensslVerify toy_pkey toy_x509 () None) false.

Section Evaluation.
#[local] Existing Instance bump_allocator.

Definition toy_signer : ptls_openssl_sign_certificate_t toy_pkey := mkSign toy_pkey (str "key") secp256r1_signature_schemes false.
Definition toy_signing : signing toy_pkey := mkSigning toy_pkey (ptls_buffer_init 64 [0; 0; 0; 0] 1) None.

Lemma openssl_signature_accepted_witness :
  match openssl_sign_certificate toy_pkey (λ _, ASYNC_FINISH) toy_signer true (str "content") [2052; 1027] toy_signing with
  | (Ok algo, s') => algo = 1027 /\ signature_verifier toy_pkey (str "key") algo (str "content") (contents (sg_buf toy_pkey s')) = 0
  | _ => False
  end.
Proof.
  pose proof (openssl_signature_accepted toy_pkey (λ _, ASYNC_FINISH) toy_signer true (str "key") (str "key") (str "content") [2052; 1027] toy_signing
    eq_refl eq_refl bump_push_witness_wf eq_refl) as H.
  assert ((openssl_sign_certificate toy_pkey (λ _, ASYNC_FINISH) toy_signer true (str "content") [2052; 1027] toy_signing).1 = Ok 1027) as E
    by (vm_compute; reflexivity).
  destruct (openssl_sign_certificate toy_pkey (λ _, ASYNC_FINISH) toy_signer true (str "content") [2052; 1027] toy_signing) as [r s'].
  cbn [fst] in E. subst r. split; [reflexivity|].
  destruct H as (_ & _ & sig & Hc & Hv). change (contents (sg_buf toy_pkey toy_signing)) with (@nil Z) in Hc. cbn [app] in Hc. rewrite Hc. exact Hv.
Defined.

(** When the library fails to sign in an asynchronous job, the code of the job is not looked at: the
    cleared memory goes out as the signature. *)
Definition failing_pkey : pkey_ops :=
  mkPkey bytes (λ _, EVP_PKEY_RSA) unit (Some ()) (λ _ _ _ _, Some ()) Some (λ c _, Some c) (λ c _, Some c)
    (λ _ c _, Some c) (λ _, Some 4) (λ _, None) (λ _ _, None) (λ _ _, None) (λ _ _, false) (λ _ _ _, false).

Example async_failure_sends_zeroes :
  let s := mkSigning failing_pkey (ptls_buffer_init 64 [0; 0; 0; 0] 1) None in
  let '(r, s') := openssl_sign_certificate failing_pkey (λ _, ASYNC_FINISH) (mkSign failing_pkey [] rsa_signature_schemes true) true (str "content") [2052] s in
  r = Ok 2052 /\ contents (sg_buf failing_pkey s') = [0; 0; 0; 0].
Proof. vm_compute. split; reflexivity. Qed.

(** A client of "example.com", and a server that has the key of its certificate. *)
Definition openssl_context : ptls_context_t :=
  mkCtx 0 (Some [toy_kex]) [toy_suite] [] [] None None None (Some [toy_hpke]) [toy_kem] None [] None (Some toy_openssl) 86400 8192 65536 None false false
    false false false false false false None None None None None None [] 0 0 0.

Definition openssl_client : ptls_t :=
  set_server_name (Some (str "example.com")) (default (toy_tls false) (ptls_client_new openssl_context (replicate 32 1) [])).

Definition openssl_c0 : conn := (send_client_hello toy_env record_emitter None (mkConn openssl_client (ptls_buffer_init 64 [0; 0; 0; 0] 1) [] None)).2.
Definition openssl_c1 : Z * conn := toy_receives toy_hello openssl_c0.
Definition openssl_c2 : Z * conn := toy_receives [8; 0; 0; 2; 0; 0] openssl_c1.2.
Definition openssl_c3 : Z * conn := toy_receives ([11] ++ block3 (cert_body [] [[1; 2; 3]; [4]] [])) openssl_c2.2.
Definition openssl_c4 : Z * conn :=
  toy_receives (verify_message 1027 (toy_block [1; 2; 3]
    (build_certificate_verify_signdata (toy_transcript openssl_c3.2) PTLS_SERVER_CERTIFICATE_VERIFY_CONTEXT_STRING))) openssl_c3.2.
Definition openssl_finish : bytes := finished_message (toy_transcript openssl_c4.2) (tp_secret (dec (cn_tls openssl_c4.2))).
Abbreviation openssl_c5 := (do_client_handle_finished toy_env record_emitter openssl_finish openssl_c4.2).

Lemma openssl_codes :
  goes_on openssl_c1.1 && goes_on openssl_c2.1 && goes_on openssl_c3.1 && goes_on openssl_c4.1 = true /\
  state (cn_tls openssl_c4.2) = PTLS_STATE_CLIENT_EXPECT_FINISHED /\ openssl_c5.1 = Ok () /\ is_psk_handshake (cn_tls openssl_c5.2) = false.
Proof. vm_compute. repeat split; reflexivity. Qed.

Lemma openssl_run : client_run toy_env record_emitter [] openssl_c0 openssl_c4.2.
Proof.
  destruct openssl_codes as [Hok _]. apply andb_true_iff in Hok as [Hok H4]. apply andb_true_iff in Hok as [Hok H3]. apply andb_true_iff in Hok as [H1 H2].
  eapply toy_step; [|unfold openssl_c4; reflexivity|exact H4]. eapply toy_step; [|unfold openssl_c3; reflexivity|exact H3].
  eapply toy_step; [|unfold openssl_c2; reflexivity|exact H2]. eapply toy_step; [|unfold openssl_c1; reflexivity|exact H1]. apply run_start.
Qed.

Lemma openssl_awaits : awaits_hello toy_openssl (cn_tls openssl_c0).
Proof. split; [vm_compute; reflexivity|]. split; [reflexivity|]. left. vm_compute. reflexivity. Qed.

End Evaluation.
