(* ===== verification/Faults.v ===== *)
(** * Faults: messages that lead the code out of what C defines ([lib/picotls.c])

    Runs of the handshake, on concrete messages, that end in a write beyond an array, a failed assertion or a null pointer:
    evidence for defects, each found where a general theorem needed a condition that the code does not check. *)

From S2P Require Import Prelude Constants Wire Buffer Extensions Crypto KeySchedule Tls Record Emit Negotiate Hpke ClientHello HelloFormat HelloDecode Receive Conn Ech EchMessage Export Handshake Ticket ServerHello Cookie Psk Certificate Client ClientAuth Server Session.

#[local] Existing Instance bump_allocator.

(** ** A binder that is longer than any digest *)

(** [x] written over a list of bytes from [o] on. *)
Definition overwrite (o : nat) (x l : bytes) : bytes := take o l ++ x ++ drop (o + length x) l.

Definition psk_config : config := mkConfig by_psk no_retry false.

(** The ClientHello of a client that knows the key, in a record of its own. *)
Definition psk_hello : bytes := drop 5 (contents (cn_send (client_step mix_client_env [] (new_client psk_config None)).2)).

(** The same up to the binders, with the four lengths (of the extension, of all extensions, of the message) for a binder of 100 bytes. *)
Definition long_prefix : bytes :=
  overwrite 170 (bytes16 113) (overwrite 79 (bytes16 204) (overwrite 1 (be_encode 3 281) (take 182 psk_hello))).

(** The binder is right for this prefix, and goes on. *)
Definition long_hello : bytes :=
  long_prefix ++ bytes16 101 ++ [100] ++ take 8 (binder_value (mix_hash 1) [Some (str "key")] (str "ext binder") long_prefix) ++ replicate 92 65.


(** ** A stateless retry without the record layer *)

Definition retry_config : config := mkConfig by_certificate stateless_retry false.

(** ChangeCipherSpec is for records only. *)
Definition raw_context : ptls_context_t :=
  mkCtx 5000 (Some [mix_kex]) [mix_suite] [] [[1; 2; 3]; [4]] None None None None [] None [] (Some toy_sign) (Some mix_verify)
    86400 0 65536 None false false false false false false false false None None None None None None [] 0 0 0.

(** A connection whose messages go to a transport with its own records, from the beginning of its send buffer. *)
Definition raw (c : conn) : conn := mkConn (cn_tls c) (set_off 0 (cn_send c)) [0; 0; 0; 0; 0] (cn_properties c).

(** [ptls_handle_message] of the two sides, in epoch 0. *)
Definition raw_client (input : option bytes) (c : conn) : Z * conn :=
  ptls_handle_message (client_handlers mix_client_env raw_emitter) []
    (λ c, let '(r, c) := send_client_hello mix_client_env raw_emitter None c in (code r, c)) (λ c, (ABORTED, c)) 0 input c.

Definition raw_server (input : bytes) (c : conn) : Z * conn :=
  ptls_handle_message (server_handlers mix_server_env raw_emitter) [] (λ c, (ABORTED, c)) (λ c, (ABORTED, c)) 0 (Some input) c.

Definition raw_new_server : conn := raw (new_connection (ptls_server_new raw_context) (server_properties retry_config)).
Definition raw_hello : Z * conn := raw_client None (raw (on_tls (set_server_name (Some (str "example.com")))
    (new_connection (ptls_client_new raw_context (replicate 32 1) []) (client_properties retry_config None)))).
Definition raw_retry : Z * conn := raw_server (contents (cn_send raw_hello.2)) raw_new_server.
Definition raw_second : Z * conn := raw_client (Some (contents (cn_send raw_retry.2))) (raw raw_hello.2).

(** The second flight of a stateless retry fails an assertion when the transport has its own records.  Client and server that
    use [ptls_handle_message], a server that asks for a retry with a cookie, and the client's second ClientHello with
    that cookie: the server rebuilds its HelloRetryRequest in the send buffer and takes it back by [emitter->buf->off = hrr_start], but the
    offsets of the epochs that [commit_raw_message] has moved stay; when the ServerHello is committed, the assertion that they are
    where the message began does not hold.  (Over records the same exchange completes.) *)
Theorem raw_cookie_retry_aborts :
  raw_hello.1 = PTLS_ERROR_IN_PROGRESS /\ raw_retry.1 = PTLS_ERROR_STATELESS_RETRY /\ raw_second.1 = PTLS_ERROR_IN_PROGRESS /\
  (raw_server (contents (cn_send raw_second.2)) raw_new_server).1 = ABORTED.
Proof. vm_compute. repeat split. Qed.

(** ** A ticket for a client without key exchange *)

(** The context of a client that authenticates by a pre-shared key only: [key_exchanges] is NULL. *)
Definition psk_only_context : ptls_context_t :=
  mkCtx 5000 None [mix_suite] [] [] (Some (str "id")) (Some (str "key")) (Some (mix_hash 1)) None [] None [] None None
    86400 0 65536 None false false false false false false false false
    (Some (λ is_encrypt b, (0, if is_encrypt : bool then 1 :: b else tail b))) (Some (λ _, 0)) None None None None [] 0 0 0.

Definition psk_only_session : outcome :=
  converse mix_client_env mix_server_env TURNS (new_server psk_config) []
    (on_tls (set_server_name (Some (str "example.com")))
       (new_connection (ptls_client_new psk_only_context (replicate 32 1) []) (client_properties psk_config None)))
    (new_connection (ptls_server_new psk_only_context) (server_properties psk_config)).

(** A session ticket makes a client without key exchanges read through a null pointer.  The handshake of a client and a server that have a
    pre-shared key and no key exchange completes, in the mode that needs none; the NewSessionTicket that the server sends by default then
    leads [client_handle_new_session_ticket] to [tls->key_share->id] with [key_share] NULL. *)
Example psk_only_ticket_null :
  client_code psk_only_session = 0 /\ server_code psk_only_session = 0 /\ key_share (cn_tls (client_end psk_only_session)) = None /\
  (read_on psk_only_session).1.1.1 = ABORTED.
Proof. vm_compute. repeat split. Qed.
