(* ===== verification/Gf2.v ===== *)
(** * Gf2: polynomials with bits as coefficients

    What the multiplication of GCM is about.  A polynomial over the field of two elements is a number:
    bit [i] is the coefficient of [z^i], the sum is [N.lxor] and the product [clmul] is the carry-less
    product that the instruction PCLMULQDQ computes.  They form a ring, in which [ring] decides
    equations.  [ghash_modulus] is the polynomial of GCM as it reads with the first bit of a block as
    the highest coefficient; [gcm_mul] is the multiplication of blocks of NIST SP 800-38D, and
    [gcm_mul_unique] is what an implementation needs to show in order to compute it. *)

From S2P Require Import Prelude.
From Stdlib Require Import NArith Ring.

#[local] Open Scope N_scope.

(** ** The product *)

Fixpoint pclmul (a : N) (b : positive) : N :=
  match b with
  | xH => a
  | xO b => N.double (pclmul a b)
  | xI b => N.lxor a (N.double (pclmul a b))
  end.

Definition clmul (a b : N) : N := match b with N0 => 0 | Npos b => pclmul a b end.

Lemma clmul_0_r a : clmul a 0 = 0.
Proof. done. Qed.

Lemma clmul_1_r a : clmul a 1 = a.
Proof. done. Qed.

Lemma clmul_double_r a b : clmul a (N.double b) = N.double (clmul a b).
Proof. by destruct b. Qed.

Lemma clmul_succ_double_r a b : clmul a (N.succ_double b) = N.lxor a (N.double (clmul a b)).
Proof. destruct b; [by rewrite N.lxor_0_r|done]. Qed.

Lemma double_shiftl a : N.double a = N.shiftl a 1.
Proof. by destruct a. Qed.

Lemma double_lxor a b : N.double (N.lxor a b) = N.lxor (N.double a) (N.double b).
Proof. rewrite !double_shiftl. apply N.shiftl_lxor. Qed.

Lemma succ_double_lxor a : N.succ_double a = N.lxor 1 (N.double a).
Proof. by destruct a. Qed.

#[local] Hint Rewrite clmul_double_r clmul_succ_double_r double_lxor N.lxor_0_l N.lxor_0_r : gf2.

(** Sums of many terms, up to their order. *)
Ltac lxor_solve :=
  apply N.bits_inj; intros ?; rewrite ?N.lxor_spec;
  repeat match goal with |- context [N.testbit ?a ?i] => destruct (N.testbit a i) end; reflexivity.

Lemma clmul_0_l a : clmul 0 a = 0.
Proof. induction a as [|a IH|a IH] using N.binary_ind; [done| |]; autorewrite with gf2; by rewrite IH. Qed.

Lemma clmul_double_l a b : clmul (N.double a) b = N.double (clmul a b).
Proof. induction b as [|b IH|b IH] using N.binary_ind; [done| |]; autorewrite with gf2; by rewrite IH. Qed.

Lemma clmul_lxor_l a b c : clmul (N.lxor a b) c = N.lxor (clmul a c) (clmul b c).
Proof.
  induction c as [|c IH|c IH] using N.binary_ind; [done| |]; autorewrite with gf2; rewrite IH; autorewrite with gf2; [done|].
  lxor_solve.
Qed.

Lemma clmul_1_l a : clmul 1 a = a.
Proof.
  induction a as [|a IH|a IH] using N.binary_ind; [done| |]; autorewrite with gf2; rewrite IH; [done|].
  by rewrite succ_double_lxor.
Qed.

Lemma clmul_comm a b : clmul a b = clmul b a.
Proof.
  induction b as [|b IH|b IH] using N.binary_ind; [by rewrite clmul_0_l| |]; autorewrite with gf2; rewrite IH.
  - by rewrite clmul_double_l.
  - by rewrite succ_double_lxor, clmul_lxor_l, clmul_1_l, clmul_double_l.
Qed.

Lemma clmul_assoc a b c : clmul a (clmul b c) = clmul (clmul a b) c.
Proof.
  induction c as [|c IH|c IH] using N.binary_ind; [done| |]; autorewrite with gf2; [by rewrite IH|].
  by rewrite !(clmul_comm a), clmul_lxor_l, clmul_double_l, !(clmul_comm _ a), IH.
Qed.

(** Bits are the coefficients that [ring] computes with: [1 + 1] is zero. *)
Definition of_bit (b : bool) : N := if b then 1 else 0.

Lemma gf2_ring : ring_theory 0 1 N.lxor clmul N.lxor (fun a => a) (@eq N).
Proof.
  split; auto using N.lxor_0_l, N.lxor_comm, clmul_1_l, clmul_comm, clmul_assoc, clmul_lxor_l, N.lxor_nilpotent.
  intros. by rewrite N.lxor_assoc.
Qed.

Lemma gf2_morph : ring_morph 0 1 N.lxor clmul N.lxor (fun a => a) (@eq N) false true xorb andb xorb (fun b => b) Bool.eqb of_bit.
Proof. split; try done; by intros [] []. Qed.

Ltac gf2_constant t := match t with 0 => false | 1 => true | _ => InitialRing.NotConstant end.

Add Ring gf2 : gf2_ring (morphism gf2_morph, constants [gf2_constant]).

(** ** Degrees and shifts *)

Lemma clmul_pow2 a k : clmul a (2 ^ k) = N.shiftl a k.
Proof.
  induction k as [|k IH] using N.peano_ind; [by rewrite N.shiftl_0_r|].
  rewrite N.pow_succ_r', <- N.double_spec, clmul_double_r, IH, double_shiftl, N.shiftl_shiftl. f_equal. lia.
Qed.

Lemma clmul_2_l a : clmul 2 a = N.shiftl a 1.
Proof. rewrite clmul_comm. exact (clmul_pow2 a 1). Qed.

Lemma lt_pow2_bits a k : a < 2 ^ k <-> ∀ i, k <= i -> N.testbit a i = false.
Proof.
  split.
  - intros Ha i Hi. rewrite <- (N.mod_small a (2 ^ k)) by done. by apply N.mod_pow2_bits_high.
  - intros Hb. destruct (decide (a = 0)) as [->|Hn]; [apply N.neq_0_lt_0, N.pow_nonzero; lia|].
    apply N.log2_lt_pow2; [lia|]. destruct (decide (N.log2 a < k)) as [|Hle]; [done|].
    specialize (Hb (N.log2 a) ltac:(lia)). by rewrite N.bit_log2 in Hb.
Qed.

Lemma lxor_lt_pow2 a b k : a < 2 ^ k -> b < 2 ^ k -> N.lxor a b < 2 ^ k.
Proof. rewrite !lt_pow2_bits. intros Ha Hb i Hi. by rewrite N.lxor_spec, Ha, Hb. Qed.

Lemma double_lt_pow2 a k : a < 2 ^ k -> N.double a < 2 ^ (1 + k).
Proof. rewrite N.pow_add_r, N.double_spec. lia. Qed.

Lemma clmul_lt_pow2 a b m n : a < 2 ^ m -> b < 2 ^ n -> clmul a b < 2 ^ (m + n).
Proof.
  intros Ha. revert n. induction b as [|b IH|b IH] using N.binary_ind; intros n Hb.
  - apply N.neq_0_lt_0, N.pow_nonzero. lia.
  - destruct (decide (b = 0)) as [->|Hb0]; [by apply IH|]. destruct n as [|n] using N.peano_ind; [rewrite N.double_spec in Hb; cbn in Hb; lia|].
    rewrite clmul_double_r. replace (m + N.succ n) with (1 + (m + n)) by lia. apply double_lt_pow2, IH.
    rewrite N.pow_succ_r', N.double_spec in Hb. lia.
  - destruct n as [|n] using N.peano_ind; [rewrite N.succ_double_spec in Hb; cbn in Hb|].
    { assert (b = 0) as -> by lia. rewrite clmul_succ_double_r. cbn. rewrite N.lxor_0_r. by rewrite N.add_0_r. }
    rewrite clmul_succ_double_r. replace (m + N.succ n) with (1 + (m + n)) by lia. apply lxor_lt_pow2.
    + apply (N.lt_le_trans _ _ _ Ha), N.pow_le_mono_r; lia.
    + apply double_lt_pow2, IH. rewrite N.pow_succ_r', N.succ_double_spec in Hb. lia.
Qed.

(** The leading coefficient of a product. *)
Lemma clmul_top a b : a <> 0 -> b <> 0 -> N.testbit (clmul a b) (N.log2 a + N.log2 b) = true.
Proof.
  intros Ha. induction b as [|b IH|b IH] using N.binary_ind; intros Hb; [done| |];
    (destruct (decide (b = 0)) as [->|Hb0];
      [first [done | cbn; rewrite ?N.lxor_0_r, N.add_0_r; by apply N.bit_log2]|specialize (IH Hb0)]).
  - rewrite clmul_double_r, !N.double_spec, N.log2_double by lia.
    by rewrite N.add_succ_r, N.double_bits_succ.
  - rewrite clmul_succ_double_r, N.succ_double_spec, N.log2_succ_double, N.lxor_spec, N.double_spec by lia.
    rewrite N.add_succ_r, N.double_bits_succ, IH, N.bits_above_log2 by lia. done.
Qed.

(** ** Congruence *)

Definition cong (m a b : N) : Prop := ∃ q, a = N.lxor b (clmul q m).

Section Congruence.
Context (m : N).

#[export] Instance cong_equiv : Equivalence (cong m).
Proof.
  split.
  - intros a. exists 0. ring.
  - intros a b [q ->]. exists q. ring.
  - intros a b c [q ->] [r ->]. exists (N.lxor q r). ring.
Qed.

#[export] Instance cong_lxor : Proper (cong m ==> cong m ==> cong m) N.lxor.
Proof. intros a ? [q ->] b ? [r ->]. exists (N.lxor q r). ring. Qed.

#[export] Instance cong_clmul : Proper (cong m ==> cong m ==> cong m) clmul.
Proof.
  intros a a' [q ->] b b' [r ->]. exists (N.lxor (N.lxor (clmul q b') (clmul a' r)) (clmul (clmul q r) m)). ring.
Qed.

(** A modulus with a constant coefficient has no common factor with [z]. *)
Lemma cong_cancel_z a : N.testbit m 0 = true -> cong m (clmul a 2) 0 -> cong m a 0.
Proof.
  intros Hm [q Hq]. rewrite N.lxor_0_l in Hq.
  destruct (N.binary_rect (λ q, {r | q = N.double r} + {r | q = N.succ_double r}) ltac:(left; by exists 0)
              ltac:(intros r _; left; by exists r) ltac:(intros r _; right; by exists r) q)%type as [[r ->]|[r ->]].
  - exists r. rewrite N.lxor_0_l. rewrite clmul_double_l in Hq. change 2 with (N.double 1) in Hq.
    rewrite clmul_double_r, clmul_1_r in Hq. rewrite !N.double_spec in Hq. lia.
  - exfalso. apply (f_equal (λ n, N.testbit n 0)) in Hq. change 2 with (N.double 1) in Hq.
    rewrite clmul_double_r, (clmul_comm (N.succ_double r)), clmul_succ_double_r, N.lxor_spec, !N.double_spec, !N.testbit_even_0, Hm in Hq.
    done.
Qed.

Lemma cong_cancel_pow2 a k : N.testbit m 0 = true -> cong m (clmul (2 ^ k) a) 0 -> cong m a 0.
Proof.
  intros Hm. induction k as [|k IH] using N.peano_ind; [by rewrite clmul_1_l|].
  rewrite N.pow_succ_r', <- N.double_spec, clmul_double_l. intros Ha. apply IH, cong_cancel_z; [done|].
  change 2 with (N.double 1) at 2. by rewrite clmul_double_r, clmul_1_r.
Qed.

Lemma cong_cancel_both a b k : N.testbit m 0 = true -> cong m (clmul (2 ^ k) a) (clmul (2 ^ k) b) -> cong m a b.
Proof.
  intros Hm H. generalize (cong_cancel_pow2 (N.lxor a b) k Hm). generalize dependent (2 ^ k). intros p H Hp.
  destruct Hp as [q Hq].
  - transitivity (N.lxor (clmul p a) (clmul p b)); [exists 0; ring|]. rewrite H. exists 0. ring.
  - exists q. rewrite N.lxor_0_l in Hq. rewrite <- Hq. ring.
Qed.

(** Below the degree of the modulus, what is congruent is equal. *)
Lemma cong_small a b : m <> 0 -> a < 2 ^ N.log2 m -> b < 2 ^ N.log2 m -> cong m a b -> a = b.
Proof.
  intros Hm Ha Hb [q Hq]. destruct (decide (q = 0)) as [->|Hn]; [by rewrite Hq, clmul_0_l, N.lxor_0_r|].
  exfalso. pose proof (lxor_lt_pow2 _ _ _ Ha Hb) as Hlt.
  assert (N.lxor a b = clmul q m) as E by (rewrite Hq; ring).
  rewrite lt_pow2_bits in Hlt. specialize (Hlt (N.log2 q + N.log2 m) ltac:(lia)).
  rewrite E, clmul_top in Hlt by done. done.
Qed.

End Congruence.

(** ** The multiplication of blocks in GCM *)

Definition ghash_modulus : N := 2 ^ 128 + 2 ^ 127 + 2 ^ 126 + 2 ^ 121 + 1.

(** SP 800-38D, algorithm 1; the first bit of a block is bit 127 of the number. *)
Definition gcm_R : N := N.shiftl 0xe1 120.

Definition gcm_halve (v : N) : N := if N.testbit v 0 then N.lxor (N.shiftr v 1) gcm_R else N.shiftr v 1.

Fixpoint gcm_mul_loop (n : nat) (x v z : N) : N :=
  match n with
  | O => z
  | S n => gcm_mul_loop n x (gcm_halve v) (if N.testbit x (N.of_nat n) then N.lxor z v else z)
  end.

Definition gcm_mul (x y : N) : N := gcm_mul_loop 128 x y 0.

Lemma gcm_halve_spec v : cong ghash_modulus (clmul 2 (gcm_halve v)) v.
Proof.
  unfold gcm_halve. rewrite clmul_2_l.
  exists (if N.testbit v 0 then 1 else 0). destruct (N.testbit v 0) eqn:Hv.
  - rewrite clmul_1_l, N.shiftl_lxor. change (N.shiftl gcm_R 1) with (N.lxor ghash_modulus 1).
    rewrite <- N.lxor_assoc, (N.lxor_comm _ ghash_modulus), N.lxor_assoc, N.lxor_comm. f_equal.
    apply N.bits_inj. intros i. rewrite N.lxor_spec. destruct (decide (i = 0)) as [->|Hi].
    + by rewrite N.shiftl_spec_low, Hv by lia.
    + rewrite N.shiftl_spec_high', N.shiftr_spec' by lia. replace (i - 1 + 1) with i by lia.
      change 1 with (2 ^ 0) at 1. rewrite N.pow2_bits_false by done. by destruct (N.testbit v i).
  - rewrite clmul_0_l, N.lxor_0_r. apply N.bits_inj. intros i. destruct (decide (i = 0)) as [->|Hi].
    + by rewrite N.shiftl_spec_low, Hv by lia.
    + rewrite N.shiftl_spec_high', N.shiftr_spec' by lia. f_equal. lia.
Qed.

Lemma mod_pow2_succ x n : x mod 2 ^ N.succ n = N.lxor (x mod 2 ^ n) (if N.testbit x n then 2 ^ n else 0).
Proof.
  apply N.bits_inj. intros i. rewrite N.lxor_spec. destruct (decide (i < n)) as [Hlt|Hge].
  - rewrite !N.mod_pow2_bits_low by lia. destruct (N.testbit x n); rewrite ?N.pow2_bits_false, ?N.bits_0 by lia; by rewrite xorb_false_r.
  - rewrite (N.mod_pow2_bits_high _ n) by lia. destruct (decide (i = n)) as [->|Hne].
    + rewrite N.mod_pow2_bits_low by lia. by destruct (N.testbit x n); rewrite ?N.pow2_bits_true, ?N.bits_0.
    + rewrite N.mod_pow2_bits_high by lia. by destruct (N.testbit x n); rewrite ?N.pow2_bits_false, ?N.bits_0 by lia.
Qed.

Lemma gcm_mul_loop_spec n x v z :
  cong ghash_modulus (clmul (2 ^ N.of_nat n) (gcm_mul_loop n x v z))
    (N.lxor (clmul (2 ^ N.of_nat n) z) (clmul (clmul 2 v) (x mod 2 ^ N.of_nat n))).
Proof.
  revert v z. induction n as [|n IH]; intros v z.
  - cbn [gcm_mul_loop]. change (2 ^ N.of_nat 0) with 1. rewrite N.mod_1_r. exists 0. ring.
  - cbn [gcm_mul_loop]. rewrite Nat2N.inj_succ, mod_pow2_succ, N.pow_succ_r'.
    replace (2 * 2 ^ N.of_nat n) with (clmul 2 (2 ^ N.of_nat n)) by (rewrite clmul_pow2, N.shiftl_mul_pow2; done).
    rewrite <- clmul_assoc, IH. set (p := 2 ^ N.of_nat n). set (xm := x mod p).
    transitivity (N.lxor (clmul 2 (clmul p (if N.testbit x (N.of_nat n) then N.lxor z v else z)))
                    (clmul 2 (clmul (clmul 2 (gcm_halve v)) xm))); [by exists 0; ring|].
    rewrite gcm_halve_spec. exists 0. destruct (N.testbit x (N.of_nat n)); ring.
Qed.

Lemma gcm_halve_lt v : v < 2 ^ 128 -> gcm_halve v < 2 ^ 128.
Proof.
  intros Hv. assert (N.shiftr v 1 < 2 ^ 128).
  { rewrite N.shiftr_div_pow2. apply (N.le_lt_trans _ v); [apply N.Div0.div_le_upper_bound; lia|done]. }
  unfold gcm_halve. destruct (N.testbit v 0); [|done]. by apply lxor_lt_pow2.
Qed.

Lemma gcm_mul_loop_lt n x v z : v < 2 ^ 128 -> z < 2 ^ 128 -> gcm_mul_loop n x v z < 2 ^ 128.
Proof.
  revert v z. induction n as [|n IH]; intros v z Hv Hz; [done|]. cbn. apply IH; [by apply gcm_halve_lt|].
  destruct (N.testbit x (N.of_nat n)); [by apply lxor_lt_pow2|done].
Qed.

Lemma gcm_mul_lt x y : y < 2 ^ 128 -> gcm_mul x y < 2 ^ 128.
Proof. intros. unfold gcm_mul. apply gcm_mul_loop_lt; [assumption|lia]. Qed.

(** A product of blocks is the product of polynomials divided by [z^127]. *)
Lemma gcm_mul_spec x y : x < 2 ^ 128 -> cong ghash_modulus (clmul (2 ^ 128) (gcm_mul x y)) (clmul 2 (clmul x y)).
Proof.
  intros Hx. unfold gcm_mul. pose proof (gcm_mul_loop_spec 128 x y 0) as H. change (N.of_nat 128) with 128 in H.
  rewrite (N.mod_small x) in H by done. rewrite H. exists 0. ring.
Qed.

Lemma gcm_mul_unique r x y :
  x < 2 ^ 128 -> y < 2 ^ 128 -> r < 2 ^ 128 ->
  cong ghash_modulus (clmul (2 ^ 128) r) (clmul 2 (clmul x y)) -> r = gcm_mul x y.
Proof.
  intros Hx Hy Hr H. apply (cong_small ghash_modulus); [done|done|by apply gcm_mul_lt|].
  apply (cong_cancel_both _ _ _ 128); [done|]. by rewrite H, gcm_mul_spec.
Qed.

#[global] Opaque gcm_mul.

(** ** Products of blocks form a commutative ring *)

Create HintDb blocks.
#[export] Hint Resolve gcm_mul_lt lxor_lt_pow2 : blocks.


Lemma gcm_mul_comm x y : x < 2 ^ 128 -> y < 2 ^ 128 -> gcm_mul x y = gcm_mul y x.
Proof.
  intros Hx Hy. apply gcm_mul_unique; auto with blocks. rewrite gcm_mul_spec by done. by rewrite (clmul_comm x).
Qed.

Lemma gcm_mul_lxor_l x y h : x < 2 ^ 128 -> y < 2 ^ 128 -> h < 2 ^ 128 ->
  gcm_mul (N.lxor x y) h = N.lxor (gcm_mul x h) (gcm_mul y h).
Proof.
  intros Hx Hy Hh. symmetry. apply gcm_mul_unique; auto with blocks.
  transitivity (N.lxor (clmul (2 ^ 128) (gcm_mul x h)) (clmul (2 ^ 128) (gcm_mul y h))); [exists 0; ring|].
  rewrite !gcm_mul_spec by done. exists 0. ring.
Qed.

Lemma gcm_mul_assoc x y z : x < 2 ^ 128 -> y < 2 ^ 128 -> z < 2 ^ 128 ->
  gcm_mul (gcm_mul x y) z = gcm_mul x (gcm_mul y z).
Proof.
  intros Hx Hy Hz. apply gcm_mul_unique; auto with blocks. apply (cong_cancel_both _ _ _ 128); [done|].
  rewrite gcm_mul_spec by auto with blocks.
  transitivity (clmul (clmul 2 z) (clmul (2 ^ 128) (gcm_mul x y))); [exists 0; ring|].
  rewrite gcm_mul_spec by done.
  transitivity (clmul (clmul 2 x) (clmul (2 ^ 128) (gcm_mul y z))); [|exists 0; ring].
  rewrite gcm_mul_spec by done. exists 0. ring.
Qed.

Lemma gcm_mul_0_l h : h < 2 ^ 128 -> gcm_mul 0 h = 0.
Proof. intros Hh. symmetry. apply gcm_mul_unique; try lia. exists 0. ring. Qed.

(** ** GHASH *)

(** The hash of blocks under the key [h], from the hash [y] of those before. *)
Definition ghash_from (h y : N) (blocks : list N) : N := foldl (λ y x, gcm_mul (N.lxor y x) h) y blocks.

(** [h] multiplied with itself, [k + 1] factors. *)
Fixpoint hpow (h : N) (k : nat) : N := match k with O => h | S k => gcm_mul (hpow h k) h end.

(** Every block multiplied with the power that its distance from the end calls for. *)
Fixpoint weighted (h : N) (blocks : list N) : N :=
  match blocks with [] => 0 | x :: l => N.lxor (gcm_mul x (hpow h (length l))) (weighted h l) end.

Lemma ghash_from_cons h y x l : ghash_from h y (x :: l) = ghash_from h (gcm_mul (N.lxor y x) h) l.
Proof. done. Qed.

Lemma ghash_from_app h y l k : ghash_from h y (l ++ k) = ghash_from h (ghash_from h y l) k.
Proof. apply foldl_app. Qed.

Section Ghash.
Context (h : N) (Hh : h < 2 ^ 128).

Lemma hpow_lt k : hpow h k < 2 ^ 128.
Proof. destruct k; cbn; auto with blocks. Qed.

#[local] Hint Resolve hpow_lt : blocks.

Lemma hpow_step k x : x < 2 ^ 128 -> gcm_mul (gcm_mul x h) (hpow h k) = gcm_mul x (hpow h (S k)).
Proof.
  intros Hx. rewrite gcm_mul_assoc by auto with blocks. f_equal. cbn. apply gcm_mul_comm; auto with blocks.
Qed.

Lemma ghash_from_lt y l : y < 2 ^ 128 -> Forall (λ x, x < 2 ^ 128) l -> ghash_from h y l < 2 ^ 128.
Proof.
  intros Hy Hl. revert y Hy. induction Hl as [|x l Hx _ IH]; intros y Hy; [done|]. rewrite ghash_from_cons. auto with blocks.
Qed.

Lemma ghash_from_mul x l :
  x < 2 ^ 128 -> Forall (λ x, x < 2 ^ 128) l ->
  ghash_from h (gcm_mul x h) l = N.lxor (gcm_mul x (hpow h (length l))) (weighted h l).
Proof.
  intros Hx Hl. revert x Hx. induction Hl as [|y l Hy _ IH]; intros x Hx; [cbn; by rewrite N.lxor_0_r|].
  rewrite ghash_from_cons. cbn [weighted length]. 
  rewrite IH by auto with blocks. rewrite gcm_mul_lxor_l by auto with blocks.
  rewrite hpow_step by auto with blocks. ring.
Qed.

(** Horner's scheme and the sum of products are the same. *)
Lemma ghash_weighted y x l :
  y < 2 ^ 128 -> Forall (λ x, x < 2 ^ 128) (x :: l) -> ghash_from h y (x :: l) = weighted h (N.lxor y x :: l).
Proof.
  intros Hy [Hx Hl]%Forall_cons. rewrite ghash_from_cons. apply ghash_from_mul; auto with blocks.
Qed.

End Ghash.
