(* ===== verification/Simd.v ===== *)
(** * Simd: vector registers, their instructions, and memory

    The intrinsics that [lib/fusion.c] is written in, as Intel documents them.  A register of 128 bits is
    a number below [2^128], its lanes are its digits with the lowest one first, which is the order of the
    bytes in memory.  A register of 256 bits is two of 128.  Memory is made of pages: an access to a page
    that is not mapped is an error, and so is an aligned access to an address that is not aligned. *)

From S2P Require Import Prelude Gf2.
From Stdlib Require Export ZifyNat ZifyN.

#[local] Open Scope N_scope.

Abbreviation m128 := N.

(** ** Lanes *)

Fixpoint lanes (w : N) (n : nat) (x : N) : list N :=
  match n with O => [] | S n => x mod 2 ^ w :: lanes w n (x / 2 ^ w) end.

Fixpoint of_lanes (w : N) (l : list N) : N :=
  match l with [] => 0 | x :: l => x + 2 ^ w * of_lanes w l end.

Definition map_lanes (w : N) (n : nat) (f : N -> N) (x : N) : N := of_lanes w (f <$> lanes w n x).

Definition zip_lanes (w : N) (n : nat) (f : N -> N -> N) (x y : N) : N := of_lanes w (zip_with f (lanes w n x) (lanes w n y)).

Definition lane (w : N) (n : nat) (x : N) (i : N) : N := nth (N.to_nat i) (lanes w n x) 0.

(** ** Instructions on 128 bits *)

Definition _mm_setzero_si128 : m128 := 0.
Definition _mm_xor_si128 (x y : m128) : m128 := N.lxor x y.
Definition _mm_and_si128 (x y : m128) : m128 := N.land x y.
Definition _mm_or_si128 (x y : m128) : m128 := N.lor x y.
Definition _mm_slli_si128 (x : m128) (n : N) : m128 := N.shiftl x (8 * n) mod 2 ^ 128.
Definition _mm_srli_si128 (x : m128) (n : N) : m128 := N.shiftr x (8 * n).
Definition _mm_slli_epi64 (x : m128) (n : N) : m128 := map_lanes 64 2 (λ a, N.shiftl a n mod 2 ^ 64) x.
Definition _mm_srli_epi64 (x : m128) (n : N) : m128 := map_lanes 64 2 (λ a, N.shiftr a n) x.
Definition _mm_add_epi64 (x y : m128) : m128 := zip_lanes 64 2 (λ a b, (a + b) mod 2 ^ 64) x y.

(** Two bits of the immediate per lane choose the lane to copy. *)
Definition _mm_shuffle_epi32 (x : m128) (imm : N) : m128 :=
  of_lanes 32 ((λ i, lane 32 4 x (N.shiftr imm (2 * i) mod 4)) <$> [0; 1; 2; 3]).

(** A byte of the pattern with its highest bit set gives zero, another one the byte it numbers. *)
Definition _mm_shuffle_epi8 (x pattern : m128) : m128 :=
  map_lanes 8 16 (λ p, if N.testbit p 7 then 0 else lane 8 16 x (p mod 16)) pattern.

Definition sign32 (a : N) : Z := if N.testbit a 31 then (Z.of_N a - 2 ^ 32)%Z else Z.of_N a.

Definition _mm_cmplt_epi32 (x y : m128) : m128 :=
  zip_lanes 32 4 (λ a b, if (sign32 a <? sign32 b)%Z then N.ones 32 else 0) x y.

Definition _mm_cmpeq_epi8 (x y : m128) : m128 := zip_lanes 8 16 (λ a b, if a =? b then N.ones 8 else 0) x y.

(** The highest bits of the bytes. *)
Definition _mm_movemask_epi8 (x : m128) : N := of_lanes 1 ((λ b, of_bit (N.testbit b 7)) <$> lanes 8 16 x).

Definition _mm_insert (w : N) (n : nat) (x v i : N) : m128 := of_lanes w (<[N.to_nat i := v mod 2 ^ w]> (lanes w n x)).
Definition _mm_insert_epi32 : m128 -> N -> N -> m128 := _mm_insert 32 4.
Definition _mm_insert_epi64 : m128 -> N -> N -> m128 := _mm_insert 64 2.

Definition _mm_set_epi32 (e3 e2 e1 e0 : N) : m128 := of_lanes 32 ((λ e, e mod 2 ^ 32) <$> [e0; e1; e2; e3]).

(** Bit 0 of the immediate chooses the half of the first operand, bit 4 that of the second. *)
Definition _mm_clmulepi64_si128 (x y : m128) (imm : N) : m128 :=
  clmul (lane 64 2 x (of_bit (N.testbit imm 0))) (lane 64 2 y (of_bit (N.testbit imm 4))).

(** ** Instructions on 256 bits *)

Record m256 := M256 { lane0 : m128; lane1 : m128 }.

Definition both (f : m128 -> m128) (x : m256) : m256 := M256 (f (lane0 x)) (f (lane1 x)).
Definition both2 (f : m128 -> m128 -> m128) (x y : m256) : m256 := M256 (f (lane0 x) (lane0 y)) (f (lane1 x) (lane1 y)).

Definition _mm256_setzero_si256 : m256 := M256 0 0.
Definition _mm256_xor_si256 : m256 -> m256 -> m256 := both2 _mm_xor_si128.
Definition _mm256_and_si256 : m256 -> m256 -> m256 := both2 _mm_and_si128.
Definition _mm256_add_epi64 : m256 -> m256 -> m256 := both2 _mm_add_epi64.
Definition _mm256_shuffle_epi8 : m256 -> m256 -> m256 := both2 _mm_shuffle_epi8.
Definition _mm256_shuffle_epi32 (x : m256) (imm : N) : m256 := both (λ a, _mm_shuffle_epi32 a imm) x.
Definition _mm256_clmulepi64_epi128 (x y : m256) (imm : N) : m256 := both2 (λ a b, _mm_clmulepi64_si128 a b imm) x y.
Definition _mm256_broadcastsi128_si256 (x : m128) : m256 := M256 x x.
Definition _mm256_castsi256_si128 (x : m256) : m128 := lane0 x.
Definition _mm256_extractf128_si256 (x : m256) (i : N) : m128 := if N.testbit i 0 then lane1 x else lane0 x.
Definition _mm256_zextsi128_si256 (x : m128) : m256 := M256 x 0.

(** The upper half is whatever the register held. *)
Definition _mm256_castsi128_si256 (upper x : m128) : m256 := M256 x upper.

Definition permute_half (x y : m256) (ctl : N) : m128 :=
  if N.testbit ctl 3 then 0
  else match ctl mod 4 with 0 => lane0 x | 1 => lane1 x | 2 => lane0 y | _ => lane1 y end.

Definition _mm256_permute2f128_si256 (x y : m256) (imm : N) : m256 :=
  M256 (permute_half x y (imm mod 16)) (permute_half x y (N.shiftr imm 4 mod 16)).

(** Eight lanes of 32 bits. *)
Definition _mm256_insert_epi32 (x : m256) (v i : N) : m256 :=
  if i <? 4 then M256 (_mm_insert_epi32 (lane0 x) v i) (lane1 x) else M256 (lane0 x) (_mm_insert_epi32 (lane1 x) v (i - 4)).

(** ** Registers as bytes *)

Definition of_bytes (l : bytes) : N := of_lanes 8 (Z.to_N <$> l).
Definition to_bytes (n : nat) (x : N) : bytes := Z.of_N <$> lanes 8 n x.

(** ** Memory *)

Abbreviation memory := (Z -> Z).

Definition PAGE_SIZE : Z := 4096.

Definition read (m : memory) (p : Z) (n : nat) : bytes := (λ i : nat, m (p + Z.of_nat i)%Z) <$> seq 0 n.

Definition write (m : memory) (p : Z) (l : bytes) : memory :=
  λ a, match (if (p <=? a)%Z then l !! Z.to_nat (a - p) else None) with Some b => b | None => m a end.

Section Memory.
Context (mapped : Z -> bool).

(** The pages that [n > 0] bytes at [p] lie in; no access here spans more than two. *)
Definition accessible (p n : Z) : bool := mapped (p / PAGE_SIZE)%Z && mapped ((p + n - 1) / PAGE_SIZE)%Z.

Definition load (n : nat) (p : Z) : M memory bytes :=
  λ m, (if accessible p (Z.of_nat n) then Ok (read m p n) else Err OVER_READ, m).

Definition store (p : Z) (l : bytes) : M memory unit :=
  λ m, if accessible p (len l) then (Ok (), write m p l) else (Err OVER_WRITE, m).

Definition _mm_loadu_si128 (p : Z) : M memory m128 := l ← load 16 p; mret (of_bytes l).
Definition _mm_storeu_si128 (p : Z) (v : m128) : M memory unit := store p (to_bytes 16 v).

Definition _mm_load_si128 (p : Z) : M memory m128 :=
  when (negb (p mod 16 =? 0)%Z) (fail ABORTED);; _mm_loadu_si128 p.

Definition _mm256_loadu_si256 (p : Z) : M memory m256 :=
  l ← load 32 p; mret (M256 (of_bytes (take 16 l)) (of_bytes (drop 16 l))).
Definition _mm256_storeu_si256 (p : Z) (v : m256) : M memory unit := store p (to_bytes 16 (lane0 v) ++ to_bytes 16 (lane1 v)).

End Memory.

#[global] Arguments map_lanes : simpl never.
#[global] Arguments zip_lanes : simpl never.
#[global] Arguments lane : simpl never.
#[global] Arguments of_bytes : simpl never.
#[global] Arguments to_bytes : simpl never.
#[global] Arguments read : simpl never.
#[global] Arguments write : simpl never.
#[global] Arguments _mm_xor_si128 : simpl never.
#[global] Arguments _mm_and_si128 : simpl never.
#[global] Arguments _mm_or_si128 : simpl never.
#[global] Arguments _mm_slli_si128 : simpl never.
#[global] Arguments _mm_srli_si128 : simpl never.
#[global] Arguments _mm_slli_epi64 : simpl never.
#[global] Arguments _mm_srli_epi64 : simpl never.
#[global] Arguments _mm_add_epi64 : simpl never.
#[global] Arguments _mm_shuffle_epi32 : simpl never.
#[global] Arguments _mm_shuffle_epi8 : simpl never.
#[global] Arguments _mm_cmplt_epi32 : simpl never.
#[global] Arguments _mm_cmpeq_epi8 : simpl never.
#[global] Arguments _mm_movemask_epi8 : simpl never.
#[global] Arguments _mm_insert : simpl never.
#[global] Arguments _mm_insert_epi32 : simpl never.
#[global] Arguments _mm_insert_epi64 : simpl never.
#[global] Arguments _mm_set_epi32 : simpl never.
#[global] Arguments _mm_clmulepi64_si128 : simpl never.
#[global] Arguments _mm256_xor_si256 : simpl never.
#[global] Arguments _mm256_and_si256 : simpl never.
#[global] Arguments _mm256_add_epi64 : simpl never.
#[global] Arguments _mm256_shuffle_epi8 : simpl never.
#[global] Arguments _mm256_shuffle_epi32 : simpl never.
#[global] Arguments _mm256_clmulepi64_epi128 : simpl never.
#[global] Arguments _mm256_broadcastsi128_si256 : simpl never.
#[global] Arguments _mm256_castsi256_si128 : simpl never.
#[global] Arguments _mm256_extractf128_si256 : simpl never.
#[global] Arguments _mm256_zextsi128_si256 : simpl never.
#[global] Arguments _mm256_castsi128_si256 : simpl never.
#[global] Arguments _mm256_permute2f128_si256 : simpl never.
#[global] Arguments _mm256_insert_epi32 : simpl never.

(** ** Lemmas on lanes *)

(** Linear arithmetic with divisions by constants. *)
Ltac div_lia := zify; Z.to_euclidean_division_equations; lia.

Lemma pow2_pos k : 0 < 2 ^ k.
Proof. apply N.neq_0_lt_0, N.pow_nonzero. lia. Qed.

Lemma lanes_length w n x : length (lanes w n x) = n.
Proof. revert x. induction n; intros; cbn; auto. Qed.

Lemma lanes_lt w n x : Forall (λ a, a < 2 ^ w) (lanes w n x).
Proof. revert x. induction n; intros; cbn; constructor; auto. apply N.mod_lt, N.pow_nonzero. lia. Qed.

Lemma of_lanes_lt w l : Forall (λ a, a < 2 ^ w) l -> of_lanes w l < 2 ^ (w * N.of_nat (length l)).
Proof.
  induction 1 as [|a l Ha _ IH]; [by rewrite N.mul_0_r|].
  cbn [of_lanes length]. rewrite Nat2N.inj_succ, N.mul_succ_r, N.add_comm, N.add_comm, N.pow_add_r. nia.
Qed.

Lemma of_lanes_lanes w n x : x < 2 ^ (w * N.of_nat n) -> of_lanes w (lanes w n x) = x.
Proof.
  revert x. induction n as [|n IH]; intros x Hx; [rewrite N.mul_0_r in Hx; cbn in *; lia|].
  cbn [lanes of_lanes]. rewrite IH.
  - rewrite N.add_comm. symmetry. apply N.div_mod, N.pow_nonzero. lia.
  - rewrite Nat2N.inj_succ, N.mul_succ_r, N.pow_add_r, N.mul_comm in Hx. by apply N.Div0.div_lt_upper_bound.
Qed.

Lemma lanes_of_lanes w l : Forall (λ a, a < 2 ^ w) l -> lanes w (length l) (of_lanes w l) = l.
Proof.
  induction 1 as [|a l Ha _ IH]; [done|]. cbn [of_lanes length lanes]. f_equal.
  - rewrite N.mul_comm, N.Div0.mod_add. by apply N.mod_small.
  - rewrite N.mul_comm, N.div_add, N.div_small, N.add_0_l by (done || (apply N.pow_nonzero; lia)). done.
Qed.

Lemma lanes_of_lanes' w n l : length l = n -> Forall (λ a, a < 2 ^ w) l -> lanes w n (of_lanes w l) = l.
Proof. intros <-. apply lanes_of_lanes. Qed.

Lemma of_lanes_app w l k : of_lanes w (l ++ k) = of_lanes w l + 2 ^ (w * N.of_nat (length l)) * of_lanes w k.
Proof.
  induction l as [|a l IH]; [by rewrite N.mul_0_r, N.mul_1_l|].
  cbn [app of_lanes length]. rewrite IH, Nat2N.inj_succ, N.mul_succ_r, N.pow_add_r. lia.
Qed.

(** Digits that do not overlap. *)
Lemma join_lxor a b k : a < 2 ^ k -> a + 2 ^ k * b = N.lxor a (clmul (2 ^ k) b).
Proof.
  intros Ha. rewrite clmul_comm, clmul_pow2, <- N.add_nocarry_lxor, N.shiftl_mul_pow2; [lia|].
  apply N.bits_inj. intros i. rewrite N.land_spec, N.bits_0. destruct (decide (i < k)) as [Hi|Hi].
  - by rewrite N.shiftl_spec_low, andb_false_r.
  - by rewrite (proj1 (lt_pow2_bits a k) Ha) by lia.
Qed.

Lemma lxor_mod_pow2 a b k : N.lxor a b mod 2 ^ k = N.lxor (a mod 2 ^ k) (b mod 2 ^ k).
Proof.
  apply N.bits_inj. intros i. rewrite N.lxor_spec. destruct (decide (i < k)).
  - by rewrite !N.mod_pow2_bits_low, N.lxor_spec.
  - by rewrite !N.mod_pow2_bits_high by lia.
Qed.

Lemma lxor_div_pow2 a b k : N.lxor a b / 2 ^ k = N.lxor (a / 2 ^ k) (b / 2 ^ k).
Proof. rewrite <- !N.shiftr_div_pow2. apply N.shiftr_lxor. Qed.

Lemma lanes_lxor w n x y : lanes w n (N.lxor x y) = zip_with N.lxor (lanes w n x) (lanes w n y).
Proof. revert x y. induction n as [|n IH]; intros; [done|]. cbn. by rewrite lxor_mod_pow2, lxor_div_pow2, IH. Qed.

(** *** Halves *)

Definition lo64 (x : m128) : N := x mod 2 ^ 64.
Definition hi64 (x : m128) : N := x / 2 ^ 64.

Lemma lo64_lt x : lo64 x < 2 ^ 64.
Proof. apply N.mod_lt. done. Qed.

Lemma hi64_lt x : x < 2 ^ 128 -> hi64 x < 2 ^ 64.
Proof. intros. by apply N.Div0.div_lt_upper_bound. Qed.

Lemma halves x : x = N.lxor (lo64 x) (clmul (2 ^ 64) (hi64 x)).
Proof. rewrite <- join_lxor by apply lo64_lt. rewrite N.add_comm. by apply N.div_mod. Qed.

Lemma lanes_64 x : x < 2 ^ 128 -> lanes 64 2 x = [lo64 x; hi64 x].
Proof. intros Hx. cbn [lanes]. rewrite (N.mod_small (x / _)); [done|]. by apply hi64_lt. Qed.

Lemma clmulepi64_spec x y imm :
  x < 2 ^ 128 -> y < 2 ^ 128 ->
  _mm_clmulepi64_si128 x y imm
  = clmul (if N.testbit imm 0 then hi64 x else lo64 x) (if N.testbit imm 4 then hi64 y else lo64 y).
Proof.
  intros Hx Hy. unfold _mm_clmulepi64_si128, lane. rewrite !lanes_64 by done.
  by destruct (N.testbit imm 0), (N.testbit imm 4).
Qed.

Lemma clmulepi64_00 x y : x < 2 ^ 128 -> y < 2 ^ 128 -> _mm_clmulepi64_si128 x y 0x00 = clmul (lo64 x) (lo64 y).
Proof. exact (clmulepi64_spec x y 0x00). Qed.
Lemma clmulepi64_11 x y : x < 2 ^ 128 -> y < 2 ^ 128 -> _mm_clmulepi64_si128 x y 0x11 = clmul (hi64 x) (hi64 y).
Proof. exact (clmulepi64_spec x y 0x11). Qed.
Lemma clmulepi64_10 x y : x < 2 ^ 128 -> y < 2 ^ 128 -> _mm_clmulepi64_si128 x y 0x10 = clmul (lo64 x) (hi64 y).
Proof. exact (clmulepi64_spec x y 0x10). Qed.

Lemma clmulepi64_lt x y imm : x < 2 ^ 128 -> y < 2 ^ 128 -> _mm_clmulepi64_si128 x y imm < 2 ^ 128.
Proof.
  intros Hx Hy. rewrite clmulepi64_spec by done. pose proof (lo64_lt x). pose proof (lo64_lt y).
  pose proof (hi64_lt x Hx). pose proof (hi64_lt y Hy). change 128 with (64 + 64).
  destruct (N.testbit imm 0), (N.testbit imm 4); by apply clmul_lt_pow2.
Qed.

(** [0x4e]: the halves exchanged. *)
Lemma shuffle_halves x : x < 2 ^ 128 -> _mm_shuffle_epi32 x 78 = N.lxor (hi64 x) (clmul (2 ^ 64) (lo64 x)).
Proof.
  intros Hx. rewrite <- join_lxor by (by apply hi64_lt). unfold lo64, hi64.
  change (_mm_shuffle_epi32 x 78) with
    (of_lanes 32 [x / 2 ^ 32 / 2 ^ 32 mod 2 ^ 32; x / 2 ^ 32 / 2 ^ 32 / 2 ^ 32 mod 2 ^ 32; x mod 2 ^ 32; x / 2 ^ 32 mod 2 ^ 32]).
  cbn [of_lanes]. change (2 ^ 64) with 18446744073709551616. change (2 ^ 32) with 4294967296.
  change (2 ^ 128) with 340282366920938463463374607431768211456 in Hx. div_lia.
Qed.

Lemma slli_si128_8 x : _mm_slli_si128 x 8 = clmul (2 ^ 64) (lo64 x).
Proof.
  unfold _mm_slli_si128, lo64. rewrite clmul_comm, clmul_pow2, !N.shiftl_mul_pow2. change (2 ^ 128) with (2 ^ 64 * 2 ^ 64).
  change (8 * 8) with 64. rewrite N.mul_mod_distr_r by done. done.
Qed.

Lemma srli_si128_8 x : _mm_srli_si128 x 8 = hi64 x.
Proof. unfold _mm_srli_si128, hi64. by rewrite N.shiftr_div_pow2. Qed.
