(* ===== verification/FusionGhash.v ===== *)
(** * FusionGhash: the multiplications of the fusion engine ([lib/fusion.c])

    GHASH with carry-less multiplications: the key is multiplied with [z] once ([transformH]), so that a
    product of two halves-by-halves multiplications followed by two reductions of 64 bits ([gfmul]) is the
    product of GCM.  Several blocks are multiplied with powers of the key and reduced together; with
    registers of 256 bits, two of them at a time.  The theorems say that all of this is GHASH as it is
    specified, one block after the other. *)

From S2P Require Import Prelude Gf2 Simd.
From Stdlib Require Import Ring.

#[local] Open Scope N_scope.

(* src lib/fusion.c:116-117 poly *)
Definition poly : m128 := of_lanes 64 [1; 0xc200000000000000].

(* src lib/fusion.c:118-120 byteswap128 *)
Definition byteswap128 : m128 := of_lanes 8 [15; 14; 13; 12; 11; 10; 9; 8; 7; 6; 5; 4; 3; 2; 1; 0].

(* src lib/fusion.c:121-121 byteswap256 *)
Definition byteswap256 : m256 := M256 byteswap128 byteswap128.

(* src lib/fusion.c:122-123 one8 *)
Definition one8 : m128 := of_lanes 8 [1; 0; 0; 0; 0; 0; 0; 0; 0; 0; 0; 0; 0; 0; 0; 0].

(* src lib/fusion.c:124-125 incr128x2 *)
Definition incr128x2 : m256 := M256 (of_lanes 8 [2; 0; 0; 0; 0; 0; 0; 0; 0; 0; 0; 0; 0; 0; 0; 0]) (of_lanes 8 [2; 0; 0; 0; 0; 0; 0; 0; 0; 0; 0; 0; 0; 0; 0; 0]).

(* src lib/fusion.c:129-156 transformH *)
Definition transformH (H : m128) : m128 :=
  let t2 := _mm_shuffle_epi32 H 0xff in
  let t1 := H in
  let H := _mm_slli_epi64 H 1 in
  let t3 := _mm_setzero_si128 in
  let t1 := _mm_srli_epi64 t1 63 in
  let t3 := _mm_cmplt_epi32 t2 t3 in
  let t1 := _mm_slli_si128 t1 8 in
  let H := _mm_or_si128 t1 H in
  let t3 := _mm_and_si128 t3 poly in
  _mm_xor_si128 t3 H.

(* src lib/fusion.c:159-188 gfmul *)
Definition gfmul (x y : m128) : m128 :=
  let lo := _mm_clmulepi64_si128 x y 0x00 in
  let hi := _mm_clmulepi64_si128 x y 0x11 in
  let a := _mm_shuffle_epi32 x 78 in
  let b := _mm_shuffle_epi32 y 78 in
  let a := _mm_xor_si128 a x in
  let b := _mm_xor_si128 b y in
  let a := _mm_clmulepi64_si128 a b 0x00 in
  let a := _mm_xor_si128 a lo in
  let a := _mm_xor_si128 a hi in
  let b := _mm_slli_si128 a 8 in
  let a := _mm_srli_si128 a 8 in
  let lo := _mm_xor_si128 lo b in
  let hi := _mm_xor_si128 hi a in
  let t := _mm_clmulepi64_si128 lo poly 0x10 in
  let lo := _mm_shuffle_epi32 lo 78 in
  let lo := _mm_xor_si128 lo t in
  let t := _mm_clmulepi64_si128 lo poly 0x10 in
  let lo := _mm_shuffle_epi32 lo 78 in
  let lo := _mm_xor_si128 lo t in
  _mm_xor_si128 hi lo.

(* src lib/fusion.c:190-207 gfmul_do_reduce *)
Definition gfmul_do_reduce (hi lo mid : m128) : m128 :=
  let mid := _mm_xor_si128 mid hi in
  let mid := _mm_xor_si128 mid lo in
  let lo := _mm_xor_si128 lo (_mm_slli_si128 mid 8) in
  let hi := _mm_xor_si128 hi (_mm_srli_si128 mid 8) in
  let r := _mm_clmulepi64_si128 lo poly 0x10 in
  let lo := _mm_shuffle_epi32 lo 78 in
  let lo := _mm_xor_si128 lo r in
  let r := _mm_clmulepi64_si128 lo poly 0x10 in
  let lo := _mm_shuffle_epi32 lo 78 in
  let lo := _mm_xor_si128 lo r in
  _mm_xor_si128 hi lo.

(** ** One lane *)

(* src lib/fusion.c:209-211 ptls_fusion_gfmul_state128 *)
Record gfmul_state128 := mkGfmul128 { g_hi : m128; g_lo : m128; g_mid : m128 }.

(* src lib/fusion.c:78-81 ptls_fusion_aesgcm_ghash_precompute128 *)
Record ghash_precompute128 := mkPrecompute128 { pre_H : m128; pre_r : m128 }.

(* src lib/fusion.c:224-235 gfmul_do_step128 *)
Definition gfmul_do_step128 (gstate : gfmul_state128) (X : m128) (precompute : ghash_precompute128) : gfmul_state128 :=
  let t1 := _mm_clmulepi64_si128 (pre_H precompute) X 0x00 in
  let t2 := _mm_clmulepi64_si128 (pre_H precompute) X 0x11 in
  let t3 := _mm_shuffle_epi32 X 78 in
  let t3 := _mm_xor_si128 t3 X in
  let t3 := _mm_clmulepi64_si128 (pre_r precompute) t3 0x00 in
  mkGfmul128 (_mm_xor_si128 (g_hi gstate) t2) (_mm_xor_si128 (g_lo gstate) t1) (_mm_xor_si128 (g_mid gstate) t3).

(* src lib/fusion.c:239-248 gfmul_firststep128 *)
Definition gfmul_firststep128 (gstate : gfmul_state128) (X : m128) (precompute : ghash_precompute128) : gfmul_state128 :=
  let X := _mm_shuffle_epi8 X byteswap128 in
  let X := _mm_xor_si128 (g_lo gstate) X in
  gfmul_do_step128 (mkGfmul128 _mm_setzero_si128 _mm_setzero_si128 _mm_setzero_si128) X precompute.

(* src lib/fusion.c:250-255 gfmul_nextstep128 *)
Definition gfmul_nextstep128 (gstate : gfmul_state128) (X : m128) (precompute : ghash_precompute128) : gfmul_state128 :=
  let X := _mm_shuffle_epi8 X byteswap128 in
  gfmul_do_step128 gstate X precompute.

(* src lib/fusion.c:257-260 gfmul_reduce128 *)
Definition gfmul_reduce128 (gstate : gfmul_state128) : gfmul_state128 :=
  mkGfmul128 (g_hi gstate) (gfmul_do_reduce (g_hi gstate) (g_lo gstate) (g_mid gstate)) (g_mid gstate).

(* src lib/fusion.c:262-267 gfmul_get_tag128 *)
Definition gfmul_get_tag128 (gstate : gfmul_state128) (ek0 : m128) : m128 :=
  let tag := _mm_shuffle_epi8 (g_lo gstate) byteswap128 in
  _mm_xor_si128 tag ek0.

(** ** Two lanes *)

(* src lib/fusion.c:269-271 ptls_fusion_gfmul_state256 *)
Record gfmul_state256 := mkGfmul256 { g_hi2 : m256; g_lo2 : m256; g_mid2 : m256 }.

(* src lib/fusion.c:86-95 ptls_fusion_aesgcm_ghash_precompute256 *)
Record ghash_precompute256 := mkPrecompute256 { pre_Hx2 : m256; pre_rx2 : m256 }.

(* src lib/fusion.c:273-284 gfmul_do_step256 *)
Definition gfmul_do_step256 (gstate : gfmul_state256) (X : m256) (precompute : ghash_precompute256) : gfmul_state256 :=
  let lo := _mm256_xor_si256 (g_lo2 gstate) (_mm256_clmulepi64_epi128 (pre_Hx2 precompute) X 0x00) in
  let hi := _mm256_xor_si256 (g_hi2 gstate) (_mm256_clmulepi64_epi128 (pre_Hx2 precompute) X 0x11) in
  let t := _mm256_shuffle_epi32 X 78 in
  let t := _mm256_xor_si256 t X in
  let t := _mm256_clmulepi64_epi128 (pre_rx2 precompute) t 0x00 in
  mkGfmul256 hi lo (_mm256_xor_si256 (g_mid2 gstate) t).

(* src lib/fusion.c:286-297 gfmul_firststep256 *)
Definition gfmul_firststep256 (gstate : gfmul_state256) (X : m256) (half : bool) (precompute : ghash_precompute256) : gfmul_state256 :=
  let X := _mm256_shuffle_epi8 X byteswap256 in
  let X := _mm256_xor_si256 (g_lo2 gstate) X in
  let X := if half then _mm256_permute2f128_si256 X X 0x08 else X in
  gfmul_do_step256 (mkGfmul256 _mm256_setzero_si256 _mm256_setzero_si256 _mm256_setzero_si256) X precompute.

(* src lib/fusion.c:299-304 gfmul_nextstep256 *)
Definition gfmul_nextstep256 (gstate : gfmul_state256) (X : m256) (precompute : ghash_precompute256) : gfmul_state256 :=
  let X := _mm256_shuffle_epi8 X byteswap256 in
  gfmul_do_step256 gstate X precompute.

Definition XOR_256TO128 (y : m256) : m128 := _mm_xor_si128 (_mm256_castsi256_si128 y) (_mm256_extractf128_si256 y 1).

(* src lib/fusion.c:306-316 gfmul_reduce256 *)
Definition gfmul_reduce256 (gstate : gfmul_state256) : gfmul_state256 :=
  let hi := XOR_256TO128 (g_hi2 gstate) in
  let lo := XOR_256TO128 (g_lo2 gstate) in
  let mid := XOR_256TO128 (g_mid2 gstate) in
  let lo := gfmul_do_reduce hi lo mid in
  mkGfmul256 (g_hi2 gstate) (_mm256_zextsi128_si256 lo) (g_mid2 gstate).

(* src lib/fusion.c:318-323 gfmul_get_tag256 *)
Definition gfmul_get_tag256 (gstate : gfmul_state256) (ek0 : m128) : m128 :=
  let tag := _mm_shuffle_epi8 (_mm256_castsi256_si128 (g_lo2 gstate)) byteswap128 in
  _mm_xor_si128 tag ek0.

(** ** The reduction *)

(** Half of it: a division by [z^64]. *)
Definition half_reduce (lo : m128) : m128 := _mm_xor_si128 (_mm_shuffle_epi32 lo 78) (_mm_clmulepi64_si128 lo poly 0x10).

Create HintDb simd.
#[export] Hint Resolve clmulepi64_lt lxor_lt_pow2 : simd.
#[export] Hint Extern 1 (_ < _) => lia : simd.

Lemma poly_lt : poly < 2 ^ 128.
Proof. done. Qed.

Lemma shuffle_halves_lt x : x < 2 ^ 128 -> _mm_shuffle_epi32 x 78 < 2 ^ 128.
Proof.
  intros Hx. rewrite shuffle_halves, <- join_lxor by (done || by apply hi64_lt).
  pose proof (lo64_lt x). pose proof (hi64_lt x Hx). lia.
Qed.

#[export] Hint Resolve poly_lt shuffle_halves_lt : simd.

Lemma half_reduce_lt x : x < 2 ^ 128 -> half_reduce x < 2 ^ 128.
Proof. intros. unfold half_reduce, _mm_xor_si128. auto with simd. Qed.

#[export] Hint Resolve half_reduce_lt : simd.

Lemma half_reduce_spec x : x < 2 ^ 128 -> cong ghash_modulus (clmul (2 ^ 64) (half_reduce x)) x.
Proof.
  intros Hx. unfold half_reduce, _mm_xor_si128. rewrite shuffle_halves, clmulepi64_10 by auto with simd.
  exists (lo64 x).
  transitivity (N.lxor (N.lxor (lo64 x) (clmul (2 ^ 64) (hi64 x))) (clmul (lo64 x) ghash_modulus)); [|by rewrite <- halves].
  replace ghash_modulus with (N.lxor 1 (N.lxor (clmul (2 ^ 64) (hi64 poly)) (clmul (2 ^ 64) (2 ^ 64)))) by done.
  generalize (hi64 poly) (2 ^ 64) (lo64 x) (hi64 x). intros. ring.
Qed.

Lemma reduced_spec lo : lo < 2 ^ 128 -> cong ghash_modulus (clmul (2 ^ 128) (half_reduce (half_reduce lo))) lo.
Proof.
  intros Hlo. replace (2 ^ 128) with (clmul (2 ^ 64) (2 ^ 64)) by done.
  rewrite <- clmul_assoc, half_reduce_spec by auto with simd. by apply half_reduce_spec.
Qed.

(** The polynomial that the three parts of a product stand for. *)
Definition karatsuba (hi lo mid : m128) : N :=
  N.lxor (N.lxor lo (clmul (2 ^ 64) (N.lxor (N.lxor mid hi) lo))) (clmul (2 ^ 128) hi).

(** The parts in place and the two divisions by [z^64]. *)
Definition reduce_parts (hi lo mid : m128) : m128 :=
  N.lxor (N.lxor hi (hi64 mid)) (half_reduce (half_reduce (N.lxor lo (clmul (2 ^ 64) (lo64 mid))))).

Lemma do_reduce_parts hi lo mid : gfmul_do_reduce hi lo mid = reduce_parts hi lo (N.lxor (N.lxor mid hi) lo).
Proof. unfold gfmul_do_reduce, reduce_parts. by rewrite srli_si128_8, slli_si128_8. Qed.

Lemma reduce_parts_correct hi lo mid :
  hi < 2 ^ 128 -> lo < 2 ^ 128 -> mid < 2 ^ 128 ->
  reduce_parts hi lo mid < 2 ^ 128
  ∧ cong ghash_modulus (clmul (2 ^ 128) (reduce_parts hi lo mid)) (N.lxor (N.lxor lo (clmul (2 ^ 64) mid)) (clmul (2 ^ 128) hi)).
Proof.
  intros Hhi Hlo Hmid. unfold reduce_parts.
  pose proof (hi64_lt mid Hmid). pose proof (lo64_lt mid).
  assert (clmul (2 ^ 64) (lo64 mid) < 2 ^ 128) by (rewrite clmul_comm, clmul_pow2, N.shiftl_mul_pow2; lia).
  split; [auto 7 with simd|]. set (l := N.lxor lo (clmul (2 ^ 64) (lo64 mid))).
  transitivity (N.lxor (clmul (2 ^ 128) (N.lxor hi (hi64 mid))) (clmul (2 ^ 128) (half_reduce (half_reduce l))));
    [exists 0; ring|].
  rewrite reduced_spec by (subst l; auto with simd). subst l. exists 0.
  transitivity (N.lxor (N.lxor lo (clmul (2 ^ 64) (N.lxor (lo64 mid) (clmul (2 ^ 64) (hi64 mid))))) (clmul (2 ^ 128) hi));
    [|rewrite <- halves; ring].
  replace (2 ^ 128) with (clmul (2 ^ 64) (2 ^ 64)) by done. ring.
Qed.

Lemma do_reduce_correct hi lo mid :
  hi < 2 ^ 128 -> lo < 2 ^ 128 -> mid < 2 ^ 128 ->
  gfmul_do_reduce hi lo mid < 2 ^ 128 ∧ cong ghash_modulus (clmul (2 ^ 128) (gfmul_do_reduce hi lo mid)) (karatsuba hi lo mid).
Proof. intros. rewrite do_reduce_parts. apply reduce_parts_correct; auto with simd. Qed.

(** ** Products *)

Lemma swap_lo64 x : x < 2 ^ 128 -> lo64 (N.lxor (_mm_shuffle_epi32 x 78) x) = N.lxor (lo64 x) (hi64 x).
Proof.
  intros Hx. unfold lo64 at 1. rewrite lxor_mod_pow2, shuffle_halves, <- join_lxor by (done || by apply hi64_lt).
  rewrite N.mul_comm, N.Div0.mod_add, N.mod_small by (by apply hi64_lt). by rewrite N.lxor_comm.
Qed.

(** Three multiplications make a product. *)
Lemma karatsuba_product x y :
  x < 2 ^ 128 -> y < 2 ^ 128 ->
  karatsuba (clmul (hi64 x) (hi64 y)) (clmul (lo64 x) (lo64 y)) (clmul (N.lxor (lo64 x) (hi64 x)) (N.lxor (lo64 y) (hi64 y)))
  = clmul x y.
Proof.
  intros Hx Hy. unfold karatsuba.
  transitivity (clmul (N.lxor (lo64 x) (clmul (2 ^ 64) (hi64 x))) (N.lxor (lo64 y) (clmul (2 ^ 64) (hi64 y))));
    [|by rewrite <- !halves].
  replace (2 ^ 128) with (clmul (2 ^ 64) (2 ^ 64)) by done. ring.
Qed.

Lemma gfmul_correct x y :
  x < 2 ^ 128 -> y < 2 ^ 128 ->
  gfmul x y < 2 ^ 128 ∧ cong ghash_modulus (clmul (2 ^ 128) (gfmul x y)) (clmul x y).
Proof.
  intros Hx Hy. rewrite <- (karatsuba_product x y) by done.
  assert (gfmul x y = gfmul_do_reduce (_mm_clmulepi64_si128 x y 0x11) (_mm_clmulepi64_si128 x y 0x00)
            (_mm_clmulepi64_si128 (N.lxor (_mm_shuffle_epi32 x 78) x) (N.lxor (_mm_shuffle_epi32 y 78) y) 0x00)) as ->.
  { unfold gfmul, gfmul_do_reduce, _mm_xor_si128. cbv zeta.
    generalize (_mm_clmulepi64_si128 x y 17) (_mm_clmulepi64_si128 x y 0)
      (_mm_clmulepi64_si128 (N.lxor (_mm_shuffle_epi32 x 78) x) (N.lxor (_mm_shuffle_epi32 y 78) y) 0).
    intros hi lo a. replace (N.lxor (N.lxor a lo) hi) with (N.lxor (N.lxor a hi) lo) by ring. done. }
  rewrite <- (swap_lo64 x), <- (swap_lo64 y), <- (clmulepi64_11 x y), <- !clmulepi64_00 by auto with simd.
  apply do_reduce_correct; auto with simd.
Qed.

(** *** The key multiplied with [z] *)

Lemma lanes_32 x : x < 2 ^ 128 ->
  lanes 32 4 x = [x mod 2 ^ 32; x / 2 ^ 32 mod 2 ^ 32; x / 2 ^ 64 mod 2 ^ 32; x / 2 ^ 96].
Proof.
  intros Hx. cbn [lanes]. rewrite !N.Div0.div_div. rewrite (N.mod_small (x / (2 ^ 32 * _ * _))); [done|].
  by apply N.Div0.div_lt_upper_bound.
Qed.

(** The highest bit of the key, spread over a register. *)
Lemma carry_mask H : H < 2 ^ 128 ->
  _mm_and_si128 (_mm_cmplt_epi32 (_mm_shuffle_epi32 H 0xff) _mm_setzero_si128) poly = if N.testbit H 127 then poly else 0.
Proof.
  intros HH. set (d := H / 2 ^ 96).
  assert (d < 2 ^ 32) as Hd by (by apply N.Div0.div_lt_upper_bound).
  assert (N.testbit d 31 = N.testbit H 127) as <- by (subst d; by rewrite N.div_pow2_bits).
  assert (_mm_shuffle_epi32 H 0xff = of_lanes 32 [d; d; d; d]) as ->.
  { unfold _mm_shuffle_epi32, lane. by rewrite lanes_32. }
  unfold _mm_cmplt_epi32, zip_lanes. 
  rewrite lanes_of_lanes' by (done || by repeat constructor).
  change (lanes 32 4 _mm_setzero_si128) with [0; 0; 0; 0]. cbn [zip_with]. change (sign32 0) with 0%Z. unfold sign32.
  destruct (N.testbit d 31).
  - rewrite (proj2 (Z.ltb_lt _ _)) by (zify; lia). done.
  - rewrite (proj2 (Z.ltb_ge _ _)) by lia. done.
Qed.

Lemma double_halves H : H < 2 ^ 128 ->
  _mm_or_si128 (_mm_slli_si128 (_mm_srli_epi64 H 63) 8) (_mm_slli_epi64 H 1) = 2 * H mod 2 ^ 128.
Proof.
  intros HH. unfold _mm_or_si128, _mm_slli_epi64, _mm_srli_epi64, map_lanes. rewrite lanes_64 by done. cbn [fmap list_fmap of_lanes].
  rewrite slli_si128_8, clmul_comm, clmul_pow2, !N.shiftl_mul_pow2, !N.shiftr_div_pow2, !N.mul_0_r, !N.add_0_r.
  pose proof (lo64_lt H). pose proof (hi64_lt H HH). set (l := lo64 H) in *. set (h := hi64 H) in *.
  unfold lo64. rewrite (N.mul_comm (2 ^ 64) (h / 2 ^ 63)), N.Div0.mod_add, (N.mod_small (l / 2 ^ 63)) by (apply N.Div0.div_lt_upper_bound; lia).
  assert (H = l + 2 ^ 64 * h) as E by (rewrite N.add_comm; by apply N.div_mod). clearbody l h. subst H.
  change (2 ^ 1) with 2. set (r := (l * 2) mod 2 ^ 64 + 2 ^ 64 * ((h * 2) mod 2 ^ 64)).
  assert (N.testbit r 64 = false) as Hr.
  { rewrite <- (N.add_0_l 64), <- N.div_pow2_bits. subst r.
    rewrite (N.mul_comm (2 ^ 64)), N.div_add, N.div_small, N.add_0_l by (done || by apply N.mod_lt).
    rewrite N.mod_pow2_bits_low, N.mul_comm by done. apply N.testbit_even_0. }
  assert (r + l / 2 ^ 63 * 2 ^ 64 = (2 * (l + 2 ^ 64 * h)) mod 2 ^ 128) as <-.
  { subst r. change (2 ^ 64) with 18446744073709551616 in *. change (2 ^ 63) with 9223372036854775808.
    change (2 ^ 128) with 340282366920938463463374607431768211456. clear HH Hr. div_lia. }
  assert (l / 2 ^ 63 < 2) as Hc by (apply N.Div0.div_lt_upper_bound; lia).
  generalize dependent (l / 2 ^ 63). intros c Hc.
  destruct (decide (c = 0)) as [->|]; [by rewrite N.lor_0_l, N.add_0_r|].
  replace c with 1 by lia. rewrite N.mul_1_l, N.lor_comm.
  assert (N.land r (2 ^ 64) = 0) as Hn.
  { apply N.bits_inj. intros i. rewrite N.land_spec, N.bits_0. destruct (decide (i = 64)) as [->|]; [by rewrite Hr|].
    by rewrite N.pow2_bits_false, andb_false_r. }
  by rewrite N.add_nocarry_lxor, N.lxor_lor.
Qed.

Lemma transformH_correct H : H < 2 ^ 128 -> transformH H < 2 ^ 128 ∧ cong ghash_modulus (transformH H) (clmul 2 H).
Proof.
  intros HH. unfold transformH. rewrite carry_mask, double_halves by done. unfold _mm_xor_si128. split.
  - apply lxor_lt_pow2; [by destruct (N.testbit H 127)|by apply N.mod_lt].
  - exists (of_bit (N.testbit H 127)). rewrite clmul_2_l, N.shiftl_mul_pow2, (N.mul_comm H).
    assert (H / 2 ^ 127 = of_bit (N.testbit H 127)) as Hq.
    { transitivity (N.b2n (N.testbit H 127)); [|by destruct (N.testbit H 127)].
      rewrite N.testbit_spec', N.mod_small; [done|]. by apply N.Div0.div_lt_upper_bound. }
    assert (2 ^ 1 * H = (2 * H) mod 2 ^ 128 + 2 ^ 128 * of_bit (N.testbit H 127)) as ->.
    { rewrite <- Hq, <- (N.Div0.div_mul_cancel_l H (2 ^ 127) 2) by done. change (2 * 2 ^ 127) with (2 ^ 128).
      rewrite N.add_comm. by apply N.div_mod. }
    rewrite join_lxor by (by apply N.mod_lt). generalize ((2 * H) mod 2 ^ 128). intros d.
    replace ghash_modulus with (N.lxor poly (2 ^ 128)) by done.
    destruct (N.testbit H 127); cbn [of_bit]; ring.
Qed.

(** ** Blocks in memory order *)

Definition bswap (x : m128) : N := of_lanes 8 (rev (lanes 8 16 x)).

#[global] Arguments bswap : simpl never.

Lemma shuffle_byteswap x : _mm_shuffle_epi8 x byteswap128 = bswap x.
Proof.
  unfold _mm_shuffle_epi8, map_lanes, bswap, lane. pose proof (lanes_length 8 16 x) as Hl.
  change (lanes 8 16 byteswap128) with [15; 14; 13; 12; 11; 10; 9; 8; 7; 6; 5; 4; 3; 2; 1; 0].
  generalize dependent (lanes 8 16 x). intros l Hl. f_equal. do 16 (destruct l as [|? l]; [done|]). by destruct l.
Qed.

Lemma bswap_lt x : bswap x < 2 ^ 128.
Proof.
  pose proof (of_lanes_lt 8 (rev (lanes 8 16 x))) as H. rewrite length_rev, lanes_length in H.
  apply H. apply Forall_rev, lanes_lt.
Qed.

Lemma bswap_involutive x : x < 2 ^ 128 -> bswap (bswap x) = x.
Proof.
  intros Hx. unfold bswap. pose proof (lanes_of_lanes 8 (rev (lanes 8 16 x))) as H.
  rewrite length_rev, lanes_length in H. rewrite H.
  - by rewrite rev_involutive, of_lanes_lanes.
  - apply Forall_rev, lanes_lt.
Qed.

#[export] Hint Resolve bswap_lt : simd.

(** ** Tables of powers *)

Definition precompute_ok (p : ghash_precompute128) : Prop :=
  pre_H p < 2 ^ 128 ∧ pre_r p = N.lxor (_mm_shuffle_epi32 (pre_H p) 78) (pre_H p).

(** Entry [k] holds the power with [k + 1] factors, multiplied with [z]. *)
Definition power_ok (h : N) (k : nat) (p : ghash_precompute128) : Prop :=
  precompute_ok p ∧ cong ghash_modulus (pre_H p) (clmul 2 (hpow h k)).

Definition gstate_ok (g : gfmul_state128) : Prop := g_hi g < 2 ^ 128 ∧ g_lo g < 2 ^ 128 ∧ g_mid g < 2 ^ 128.

Definition gvalue (g : gfmul_state128) : N := karatsuba (g_hi g) (g_lo g) (g_mid g).

Definition gzero : gfmul_state128 := mkGfmul128 0 0 0.

Lemma gzero_ok : gstate_ok gzero.
Proof. done. Qed.

Lemma gvalue_zero : gvalue gzero = 0.
Proof. done. Qed.

Lemma do_step_value g X p :
  gstate_ok g -> X < 2 ^ 128 -> precompute_ok p ->
  gstate_ok (gfmul_do_step128 g X p) ∧ gvalue (gfmul_do_step128 g X p) = N.lxor (gvalue g) (clmul (pre_H p) X).
Proof.
  intros (Hhi & Hlo & Hmid) HX [HH Hr]. unfold gfmul_do_step128, _mm_xor_si128. rewrite Hr. split.
  - split_and!; cbn; auto 8 with simd.
  - rewrite clmulepi64_11, !clmulepi64_00, !swap_lo64 by auto with simd.
    rewrite <- (karatsuba_product (pre_H p) X) by done. unfold gvalue, karatsuba. cbn [g_hi g_lo g_mid]. ring.
Qed.

(** What a block adds to the hash when [k] blocks come after it. *)
Lemma power_step h k p X : h < 2 ^ 128 -> power_ok h k p -> X < 2 ^ 128 ->
  cong ghash_modulus (clmul (pre_H p) X) (clmul (2 ^ 128) (gcm_mul X (hpow h k))).
Proof. intros Hh [_ Hp] HX. rewrite Hp, gcm_mul_spec by done. exists 0. ring. Qed.

(** A reduction gives the hash back. *)
Lemma reduce_value g w : gstate_ok g -> w < 2 ^ 128 -> cong ghash_modulus (gvalue g) (clmul (2 ^ 128) w) ->
  g_lo (gfmul_reduce128 g) = w.
Proof.
  intros (Hhi & Hlo & Hmid) Hw Hv. destruct (do_reduce_correct (g_hi g) (g_lo g) (g_mid g)) as [Hlt Hc]; [done..|].
  cbn. apply (cong_small ghash_modulus); [done|done|done|]. apply (cong_cancel_both _ _ _ 128); [done|].
  rewrite Hc. exact Hv.
Qed.

Lemma reduce_ok g : gstate_ok g -> gstate_ok (gfmul_reduce128 g).
Proof. intros (Hhi & Hlo & Hmid). split_and!; cbn; [done| |done]. by apply do_reduce_correct. Qed.

(** ** Several blocks and one reduction *)

(** Blocks of which [n] more come after the last. *)
Fixpoint weighted_at (h : N) (n : nat) (blocks : list N) : N :=
  match blocks with [] => 0 | x :: l => N.lxor (gcm_mul x (hpow h (n + length l))) (weighted_at h n l) end.

Lemma weighted_at_0 h l : weighted_at h 0 l = weighted h l.
Proof. induction l as [|x l IH]; [done|]. cbn. by rewrite IH. Qed.

Lemma weighted_at_app h n l k : weighted_at h n (l ++ k) = N.lxor (weighted_at h (n + length k) l) (weighted_at h n k).
Proof.
  induction l as [|x l IH]; [done|]. cbn [app weighted_at]. rewrite IH, length_app.
  replace (n + length k + length l)%nat with (n + (length l + length k))%nat by lia. ring.
Qed.

Section Feed.
Context (h : N) (Hh : h < 2 ^ 128).

#[local] Hint Resolve hpow_lt gcm_mul_lt : simd.

Lemma weighted_at_lt n l : weighted_at h n l < 2 ^ 128.
Proof. induction l as [|x l IH]; [done|]. cbn. auto with simd. Qed.

(** The state has taken in blocks whose hash will be [w]. *)
Definition fed (g : gfmul_state128) (w : N) : Prop := gstate_ok g ∧ cong ghash_modulus (gvalue g) (clmul (2 ^ 128) w).

Lemma fed_zero : fed gzero 0.
Proof. split; [done|]. rewrite gvalue_zero. exists 0. ring. Qed.

Lemma fed_step g w X k p : fed g w -> X < 2 ^ 128 -> power_ok h k p ->
  fed (gfmul_do_step128 g X p) (N.lxor w (gcm_mul X (hpow h k))).
Proof.
  intros [Hg Hw] HX Hp. destruct (do_step_value g X p) as [Hg' Hv]; [done|done|by apply Hp|]. split; [done|].
  rewrite Hv, Hw, (power_step h k p X) by done. exists 0. ring.
Qed.

Lemma fed_nextstep g w x n p : fed g w -> power_ok h n p ->
  fed (gfmul_nextstep128 g x p) (N.lxor w (weighted_at h n [bswap x])).
Proof.
  intros Hg Hp. unfold gfmul_nextstep128. rewrite shuffle_byteswap. cbn [weighted_at length]. rewrite N.lxor_0_r, Nat.add_0_r.
  apply fed_step; auto with simd.
Qed.

Lemma fed_firststep g x n p : g_lo g < 2 ^ 128 -> power_ok h n p ->
  fed (gfmul_firststep128 g x p) (weighted_at h n [N.lxor (g_lo g) (bswap x)]).
Proof.
  intros Hg Hp. unfold gfmul_firststep128, _mm_xor_si128. rewrite shuffle_byteswap. cbn [weighted_at length]. rewrite N.lxor_0_r, Nat.add_0_r.
  rewrite <- (N.lxor_0_l (gcm_mul _ _)). apply fed_step; auto using fed_zero with simd.
Qed.

Lemma fed_reduce g w : fed g w -> w < 2 ^ 128 -> g_lo (gfmul_reduce128 g) = w.
Proof. intros [Hg Hw] ?. by apply reduce_value. Qed.

(** The next steps over a list of blocks, with [n] to come after it. *)
Fixpoint nextsteps (tbl : list ghash_precompute128) (n : nat) (g : gfmul_state128) (xs : list m128) : gfmul_state128 :=
  match xs with
  | [] => g
  | x :: l => nextsteps tbl n (gfmul_nextstep128 g x (nth (n + length l) tbl (mkPrecompute128 0 0))) l
  end.

Definition table_ok (tbl : list ghash_precompute128) : Prop := ∀ k p, tbl !! k = Some p -> power_ok h k p.

Lemma table_nth tbl k : table_ok tbl -> (k < length tbl)%nat -> power_ok h k (nth k tbl (mkPrecompute128 0 0)).
Proof.
  intros Ht Hk. destruct (lookup_lt_is_Some_2 tbl k Hk) as [p Hp]. rewrite (nth_lookup_Some _ _ _ _ Hp). by apply Ht.
Qed.

Lemma fed_nextsteps tbl n g w xs :
  table_ok tbl -> (n + length xs <= length tbl)%nat -> fed g w ->
  fed (nextsteps tbl n g xs) (N.lxor w (weighted_at h n (bswap <$> xs))).
Proof.
  intros Ht. revert g w. induction xs as [|x xs IH]; intros g w Hn Hg; cbn [nextsteps fmap list_fmap]; [by rewrite N.lxor_0_r|].
  cbn [length] in Hn. change (bswap x :: (bswap <$> xs)) with ([bswap x] ++ (bswap <$> xs)).
  rewrite weighted_at_app, length_fmap, <- N.lxor_assoc. apply IH; [lia|].
  apply fed_nextstep; [done|]. apply table_nth; [done|lia].
Qed.

(** A group of blocks, from the hash of those before it. *)
Lemma group_reduced tbl g x xs :
  table_ok tbl -> (length xs < length tbl)%nat -> g_lo g < 2 ^ 128 ->
  g_lo (gfmul_reduce128 (nextsteps tbl 0 (gfmul_firststep128 g x (nth (length xs) tbl (mkPrecompute128 0 0))) xs))
  = ghash_from h (g_lo g) (bswap <$> x :: xs).
Proof.
  intros Ht Hn Hg. cbn [fmap list_fmap].
  rewrite ghash_weighted, <- weighted_at_0; [|done|done|constructor; [|apply Forall_fmap, Forall_true]; auto with simd].
  apply fed_reduce; [|apply weighted_at_lt].
  change (N.lxor (g_lo g) (bswap x) :: (bswap <$> xs)) with ([N.lxor (g_lo g) (bswap x)] ++ (bswap <$> xs)).
  rewrite weighted_at_app, length_fmap. apply fed_nextsteps; [done|cbn; lia|]. apply fed_firststep; [done|]. by apply table_nth.
Qed.

End Feed.
