(* ===== verification/FusionAes.v ===== *)
(** * FusionAes: AES with the instructions of the processor ([lib/fusion.c])

    The instructions do one round each; the engine expands the key, keeps the round keys in an array that
    is also read as an array of registers of 256 bits, and runs the rounds.  What they compute is AES as
    FIPS 197 defines it, for both sizes of the key ([aesecb_is_aes]).  The context of the one-block CTR
    cipher is here too. *)

From S2P Require Import Prelude Constants Gf2 Simd FusionGhash.
From Stdlib Require Import Ring.

#[local] Open Scope N_scope.

(** ** The transformations of FIPS 197

    On a state of 16 bytes, column after column. *)

Definition sbox : list N :=
  [0x63; 0x7c; 0x77; 0x7b; 0xf2; 0x6b; 0x6f; 0xc5; 0x30; 0x01; 0x67; 0x2b; 0xfe; 0xd7; 0xab; 0x76;
   0xca; 0x82; 0xc9; 0x7d; 0xfa; 0x59; 0x47; 0xf0; 0xad; 0xd4; 0xa2; 0xaf; 0x9c; 0xa4; 0x72; 0xc0;
   0xb7; 0xfd; 0x93; 0x26; 0x36; 0x3f; 0xf7; 0xcc; 0x34; 0xa5; 0xe5; 0xf1; 0x71; 0xd8; 0x31; 0x15;
   0x04; 0xc7; 0x23; 0xc3; 0x18; 0x96; 0x05; 0x9a; 0x07; 0x12; 0x80; 0xe2; 0xeb; 0x27; 0xb2; 0x75;
   0x09; 0x83; 0x2c; 0x1a; 0x1b; 0x6e; 0x5a; 0xa0; 0x52; 0x3b; 0xd6; 0xb3; 0x29; 0xe3; 0x2f; 0x84;
   0x53; 0xd1; 0x00; 0xed; 0x20; 0xfc; 0xb1; 0x5b; 0x6a; 0xcb; 0xbe; 0x39; 0x4a; 0x4c; 0x58; 0xcf;
   0xd0; 0xef; 0xaa; 0xfb; 0x43; 0x4d; 0x33; 0x85; 0x45; 0xf9; 0x02; 0x7f; 0x50; 0x3c; 0x9f; 0xa8;
   0x51; 0xa3; 0x40; 0x8f; 0x92; 0x9d; 0x38; 0xf5; 0xbc; 0xb6; 0xda; 0x21; 0x10; 0xff; 0xf3; 0xd2;
   0xcd; 0x0c; 0x13; 0xec; 0x5f; 0x97; 0x44; 0x17; 0xc4; 0xa7; 0x7e; 0x3d; 0x64; 0x5d; 0x19; 0x73;
   0x60; 0x81; 0x4f; 0xdc; 0x22; 0x2a; 0x90; 0x88; 0x46; 0xee; 0xb8; 0x14; 0xde; 0x5e; 0x0b; 0xdb;
   0xe0; 0x32; 0x3a; 0x0a; 0x49; 0x06; 0x24; 0x5c; 0xc2; 0xd3; 0xac; 0x62; 0x91; 0x95; 0xe4; 0x79;
   0xe7; 0xc8; 0x37; 0x6d; 0x8d; 0xd5; 0x4e; 0xa9; 0x6c; 0x56; 0xf4; 0xea; 0x65; 0x7a; 0xae; 0x08;
   0xba; 0x78; 0x25; 0x2e; 0x1c; 0xa6; 0xb4; 0xc6; 0xe8; 0xdd; 0x74; 0x1f; 0x4b; 0xbd; 0x8b; 0x8a;
   0x70; 0x3e; 0xb5; 0x66; 0x48; 0x03; 0xf6; 0x0e; 0x61; 0x35; 0x57; 0xb9; 0x86; 0xc1; 0x1d; 0x9e;
   0xe1; 0xf8; 0x98; 0x11; 0x69; 0xd9; 0x8e; 0x94; 0x9b; 0x1e; 0x87; 0xe9; 0xce; 0x55; 0x28; 0xdf;
   0x8c; 0xa1; 0x89; 0x0d; 0xbf; 0xe6; 0x42; 0x68; 0x41; 0x99; 0x2d; 0x0f; 0xb0; 0x54; 0xbb; 0x16].

Definition SubByte (b : N) : N := nth (N.to_nat b) sbox 0.
Definition SubBytes (s : list N) : list N := SubByte <$> s.

Definition ShiftRows (s : list N) : list N :=
  (λ i : nat, nth i s 0) <$> [0; 5; 10; 15; 4; 9; 14; 3; 8; 13; 2; 7; 12; 1; 6; 11]%nat.

(** Multiplication with [x] in the field of 256 elements. *)
Definition xtime (b : N) : N := N.lxor (2 * b mod 256) (if N.testbit b 7 then 0x1b else 0).

Definition MixColumn (a b c d : N) : list N :=
  let mix a b c d := N.lxor (N.lxor (xtime a) (N.lxor (xtime b) b)) (N.lxor c d) in
  [mix a b c d; mix b c d a; mix c d a b; mix d a b c].

Fixpoint MixColumns (s : list N) : list N :=
  match s with a :: b :: c :: d :: s => MixColumn a b c d ++ MixColumns s | _ => [] end.

(** *** Words of the key expansion *)

Definition SubWord (w : N) : N := map_lanes 8 4 SubByte w.

(** The bytes [a0 a1 a2 a3] of a word become [a1 a2 a3 a0]. *)
Definition RotWord (w : N) : N := of_lanes 8 (match lanes 8 4 w with a :: l => l ++ [a] | [] => [] end).

(** ** The instructions *)

Definition on_state (f : list N -> list N) (x : m128) : m128 := of_lanes 8 (f (lanes 8 16 x)).

Definition _mm_aesenc_si128 (x k : m128) : m128 := N.lxor (on_state (λ s, MixColumns (SubBytes (ShiftRows s))) x) k.
Definition _mm_aesenclast_si128 (x k : m128) : m128 := N.lxor (on_state (λ s, SubBytes (ShiftRows s)) x) k.

Definition _mm_aeskeygenassist_si128 (x : m128) (rcon : N) : m128 :=
  let X1 := lane 32 4 x 1 in
  let X3 := lane 32 4 x 3 in
  of_lanes 32 [SubWord X1; N.lxor (RotWord (SubWord X1)) rcon; SubWord X3; N.lxor (RotWord (SubWord X3)) rcon].

#[global] Arguments _mm_aesenc_si128 : simpl never.
#[global] Arguments _mm_aesenclast_si128 : simpl never.
#[global] Arguments _mm_aeskeygenassist_si128 : simpl never.

(** ** The context *)

(** [keys.m128] and [keys.m256] share their memory: 15 registers of 256 bits, the lower half of each in
    the slot with an even number. *)
(* src include/zpicotls/fusion.h:41-48 ptls_fusion_aesecb_context_t *)
Record ptls_fusion_aesecb_context_t := mkEcb { keys : list m128; rounds : nat; aesni256 : bool }.

Definition PTLS_FUSION_AES128_ROUNDS : nat := 10.
Definition PTLS_FUSION_AES256_ROUNDS : nat := 14.

Definition KEY_SLOTS : nat := 2 * (PTLS_FUSION_AES256_ROUNDS + 1).

Definition key_m128 (ctx : ptls_fusion_aesecb_context_t) (i : nat) : m128 := nth i (keys ctx) 0.
Definition key_m256 (ctx : ptls_fusion_aesecb_context_t) (i : nat) : m256 := M256 (nth (2 * i) (keys ctx) 0) (nth (2 * i + 1) (keys ctx) 0).

Definition set_keys (ks : list m128) (ctx : ptls_fusion_aesecb_context_t) : ptls_fusion_aesecb_context_t :=
  mkEcb ks (rounds ctx) (aesni256 ctx).

(** [ROUNDKEY(i)] *)
Definition ROUNDKEY (ctx : ptls_fusion_aesecb_context_t) (i : nat) : m128 :=
  if aesni256 ctx then _mm256_castsi256_si128 (key_m256 ctx i) else key_m128 ctx i.

(* src lib/fusion.c:325-337 aesecb_encrypt *)
Definition aesecb_encrypt (ctx : ptls_fusion_aesecb_context_t) (v : m128) : m128 :=
  let v := _mm_xor_si128 v (ROUNDKEY ctx 0) in
  let v := foldl (λ v i, _mm_aesenc_si128 v (ROUNDKEY ctx i)) v (seq 1 (rounds ctx - 1)) in
  _mm_aesenclast_si128 v (ROUNDKEY ctx (rounds ctx)).

(* src lib/fusion.c:955-964 expand_key *)
Definition expand_key (key temp : m128) : m128 :=
  let key := _mm_xor_si128 key (_mm_slli_si128 key 4) in
  let key := _mm_xor_si128 key (_mm_slli_si128 key 4) in
  let key := _mm_xor_si128 key (_mm_slli_si128 key 4) in
  _mm_xor_si128 key temp.

(** [keys.m128[i] = expand_key(...)] with the round constant [R] and the lane that [imm] chooses. *)
Definition expand_one (key_size : nat) (R imm : N) (i : nat) (ks : list m128) : list m128 :=
  <[i := expand_key (nth (i - key_size / 16) ks 0) (_mm_shuffle_epi32 (_mm_aeskeygenassist_si128 (nth (i - 1) ks 0) R) imm)]> ks.

(** [EXPAND(R)] for the constants in order, until [break].  The loop around them would start over with
    the first constant; it is left before. *)
(* src lib/fusion.c:989-1016 EXPAND *)
Fixpoint expand_loop (key_size nrounds : nat) (Rs : list N) (i : nat) (ks : list m128) : result (list m128) :=
  match Rs with
  | [] => Err OUT_OF_FUEL
  | R :: Rs =>
    let ks := expand_one key_size R 0xff i ks in
    if (i =? nrounds)%nat then Ok ks
    else
      let i := S i in
      if (24 <? key_size)%nat then expand_loop key_size nrounds Rs (S i) (expand_one key_size R 0xaa i ks)
      else expand_loop key_size nrounds Rs i ks
  end.

Definition round_constants : list N := [0x1; 0x2; 0x4; 0x8; 0x10; 0x20; 0x40; 0x80; 0x1b; 0x36].

(** [keys.m256[i] = broadcast(keys.m128[i])], for [n - 1] down to zero. *)
Fixpoint broadcast_keys (n : nat) (ks : list m128) : list m128 :=
  match n with
  | O => ks
  | S i => let k := nth i ks 0 in broadcast_keys i (<[2 * i + 1 := k]> (<[2 * i := k]> ks))%nat
  end.

(** [key]: the bytes that the code loads, [key_size] of them. *)
(* src lib/fusion.c:966-1025 ptls_fusion_aesecb_init *)
Definition ptls_fusion_aesecb_init (ctx : ptls_fusion_aesecb_context_t) (is_enc : bool) (key : bytes) (key_size : Z) (aesni256 : bool)
    : result ptls_fusion_aesecb_context_t :=
  _ ← guard_err is_enc ABORTED;
  let ks := Z.to_nat key_size in
  nrounds ← match ks with 16%nat => Ok PTLS_FUSION_AES128_ROUNDS | 32%nat => Ok PTLS_FUSION_AES256_ROUNDS | _ => Err ABORTED end;
  let m := <[0%nat := of_bytes (take 16 key)]> (keys ctx) in
  let '(i, m) := if (ks =? 32)%nat then (2%nat, <[1%nat := of_bytes (take 16 (drop 16 key))]> m) else (1%nat, m) in
  m ← expand_loop ks nrounds round_constants i m;
  Ok (mkEcb (if aesni256 then broadcast_keys (S nrounds) m else m) nrounds aesni256).

(* src lib/fusion.c:1027-1030 ptls_fusion_aesecb_dispose *)
Definition ptls_fusion_aesecb_dispose (ctx : ptls_fusion_aesecb_context_t) : ptls_fusion_aesecb_context_t :=
  mkEcb (replicate KEY_SLOTS 0) 0 false.

(* src lib/fusion.c:1032-1037 ptls_fusion_aesecb_encrypt *)
Definition ptls_fusion_aesecb_encrypt (ctx : ptls_fusion_aesecb_context_t) (src : bytes) : bytes :=
  to_bytes 16 (aesecb_encrypt ctx (of_bytes (take 16 src))).

(** ** FIPS 197 *)

(** The words of the key, then one after the other. *)
Definition next_word (Nk : nat) (w : list N) : N :=
  let i := length w in
  let temp := List.last w 0 in
  let temp :=
    if (i mod Nk =? 0)%nat then N.lxor (SubWord (RotWord temp)) (nth (i / Nk - 1) round_constants 0)
    else if (6 <? Nk)%nat && (i mod Nk =? 4)%nat then SubWord temp
    else temp in
  N.lxor (nth (i - Nk) w 0) temp.

Fixpoint expand_words (Nk n : nat) (w : list N) : list N :=
  match n with O => w | S n => expand_words Nk n (w ++ [next_word Nk w]) end.

Definition key_words (key : bytes) : list N := lanes 32 (length key / 4) (of_bytes key).

(** The round keys: [Nr + 1] of four words, [Nr = Nk + 6]. *)
Definition KeyExpansion (key : bytes) : list N :=
  let Nk := (length key / 4)%nat in expand_words Nk (4 * (Nk + 7) - Nk) (key_words key).

Definition round_key (w : list N) (i : nat) : m128 := of_lanes 32 (take 4 (drop (4 * i) w)).

Definition Cipher (w : list N) (Nr : nat) (v : m128) : m128 :=
  let AddRoundKey s i := N.lxor s (round_key w i) in
  let v := AddRoundKey v 0%nat in
  let v := foldl (λ v i, AddRoundKey (on_state (λ s, MixColumns (ShiftRows (SubBytes s))) v) i) v (seq 1 (Nr - 1)) in
  AddRoundKey (on_state (λ s, ShiftRows (SubBytes s)) v) Nr.

Definition AES (key : bytes) (v : m128) : m128 := Cipher (KeyExpansion key) (length key / 4 + 6) v.

(** ** Words and registers *)

Lemma of_lanes_lxor w l k :
  length l = length k -> Forall (λ a, a < 2 ^ w) l -> Forall (λ a, a < 2 ^ w) k ->
  N.lxor (of_lanes w l) (of_lanes w k) = of_lanes w (zip_with N.lxor l k).
Proof.
  intros Hlen Hl Hk. set (n := length l).
  rewrite <- (of_lanes_lanes w n (N.lxor (of_lanes w l) (of_lanes w k))).
  - rewrite lanes_lxor. subst n. rewrite (lanes_of_lanes w l) by done. rewrite Hlen, lanes_of_lanes by done. done.
  - apply lxor_lt_pow2; [by apply of_lanes_lt|]. subst n. rewrite Hlen. by apply of_lanes_lt.
Qed.

Lemma SubByte_lt b : SubByte b < 256.
Proof.
  unfold SubByte. destruct (nth_in_or_default (N.to_nat b) sbox 0) as [Hin| ->]; [|done].
  assert (Forall (λ a, a < 256) sbox) as Hs by (apply (bool_decide_unpack _); by vm_compute).
  by apply (proj1 (List.Forall_forall _ _) Hs).
Qed.

Lemma SubWord_lt w : SubWord w < 2 ^ 32.
Proof.
  unfold SubWord, map_lanes. pose proof (of_lanes_lt 8 (SubByte <$> lanes 8 4 w)) as H. rewrite length_fmap, lanes_length in H.
  apply H. apply Forall_fmap, Forall_true. apply SubByte_lt.
Qed.

Lemma RotWord_lt w : RotWord w < 2 ^ 32.
Proof.
  unfold RotWord. pose proof (lanes_lt 8 4 w) as Hl. pose proof (lanes_length 8 4 w) as Hn. destruct (lanes 8 4 w) as [|a l]; [done|].
  pose proof (of_lanes_lt 8 (l ++ [a])) as H. rewrite length_app in H. cbn [length] in *. replace (length l + 1)%nat with 4%nat in H by lia.
  apply H. apply Forall_cons in Hl as []. apply Forall_app. split; [done|by constructor].
Qed.

Lemma SubWord_RotWord w : SubWord (RotWord w) = RotWord (SubWord w).
Proof.
  unfold SubWord, RotWord, map_lanes. pose proof (lanes_lt 8 4 w) as Hl. pose proof (lanes_length 8 4 w) as Hn.
  destruct (lanes 8 4 w) as [|a l]; [done|]. apply Forall_cons in Hl as [Ha Hl]. cbn [length] in Hn.
  assert (lanes 8 4 (of_lanes 8 (l ++ [a])) = l ++ [a]) as ->.
  { replace 4%nat with (length (l ++ [a])) by (rewrite length_app; cbn; lia). apply lanes_of_lanes, Forall_app. split; [done|by constructor]. }
  assert (lanes 8 4 (of_lanes 8 (SubByte <$> a :: l)) = SubByte <$> a :: l) as ->.
  { replace 4%nat with (length (SubByte <$> a :: l)) by (rewrite length_fmap; cbn; lia).
    apply lanes_of_lanes, Forall_fmap, Forall_true, SubByte_lt. }
  cbn [fmap list_fmap]. by rewrite fmap_app.
Qed.

Create HintDb words.
#[export] Hint Resolve SubWord_lt RotWord_lt lxor_lt_pow2 : words.

Definition is_word (a : N) : Prop := a < 2 ^ 32.

Lemma slli_lanes_4 a b c d : is_word a -> is_word b -> is_word c -> is_word d ->
  _mm_slli_si128 (of_lanes 32 [a; b; c; d]) 4 = of_lanes 32 [0; a; b; c].
Proof.
  unfold is_word, _mm_slli_si128. intros. rewrite N.shiftl_mul_pow2. cbn [of_lanes].
  change (2 ^ (8 * 4)) with 4294967296. change (2 ^ 32) with 4294967296 in *.
  change (2 ^ 128) with 340282366920938463463374607431768211456.
  symmetry. apply (N.mod_unique _ _ d); lia.
Qed.

(** Sums of all the words up to each. *)
Lemma expand_key_words a b c d t : is_word a -> is_word b -> is_word c -> is_word d -> is_word t ->
  expand_key (of_lanes 32 [a; b; c; d]) (of_lanes 32 [t; t; t; t])
  = let n0 := N.lxor a t in let n1 := N.lxor b n0 in let n2 := N.lxor c n1 in of_lanes 32 [n0; n1; n2; N.lxor d n2].
Proof.
  intros Ha Hb Hc Hd Ht. unfold expand_key, _mm_xor_si128.
  assert (is_word 0) by done.
  do 3 (rewrite slli_lanes_4, of_lanes_lxor by (repeat constructor; unfold is_word in *; auto with words); cbn [zip_with]).
  rewrite of_lanes_lxor by (repeat constructor; unfold is_word in *; auto with words). cbn [zip_with]. cbv zeta.
  apply f_equal. do 4 (apply (f_equal2 cons); [ring|]). done.
Qed.

(** ** The key expansion *)

(** What is done to the last word before a group of four, by the index of the group. *)
Definition group_temp (Nk j : nat) (t : N) : N :=
  if (4 * j mod Nk =? 0)%nat then N.lxor (SubWord (RotWord t)) (nth (4 * j / Nk - 1) round_constants 0)
  else if (6 <? Nk)%nat && (4 * j mod Nk =? 4)%nat then SubWord t else t.

Lemma next_word_app Nk u a v :
  (length v + 1 = Nk)%nat ->
  next_word Nk (u ++ a :: v)
  = N.lxor a (let i := (length u + Nk)%nat in
              if (i mod Nk =? 0)%nat then N.lxor (SubWord (RotWord (List.last (a :: v) 0))) (nth (i / Nk - 1) round_constants 0)
              else if (6 <? Nk)%nat && (i mod Nk =? 4)%nat then SubWord (List.last (a :: v) 0) else List.last (a :: v) 0).
Proof.
  intros Hv. unfold next_word. rewrite length_app. cbn [length].
  replace (length u + S (length v))%nat with (length u + Nk)%nat by lia.
  replace (length u + Nk - Nk)%nat with (length u + 0)%nat by lia. rewrite app_nth2_plus. cbn [nth].
  rewrite (List.app_nth2 u) || idtac. f_equal.
  assert (List.last (u ++ a :: v) 0 = List.last (a :: v) 0) as ->; [|done].
  induction u as [|x u IH]; [done|]. cbn [app]. rewrite <- IH. destruct (u ++ a :: v) eqn:E; [|done]. by destruct u.
Qed.

(** Within a group every word is the one [Nk] before it plus the previous one. *)
Lemma next_word_inner Nk u a v :
  (length v + 1 = Nk)%nat -> (Nk = 4 ∨ Nk = 8)%nat -> (length u mod 4 <> 0)%nat ->
  next_word Nk (u ++ a :: v) = N.lxor a (List.last (a :: v) 0).
Proof.
  intros Hv HN Hu. rewrite next_word_app by done. cbv zeta.
  rewrite (proj2 (Nat.eqb_neq _ 0)) by (destruct HN as [-> | ->]; div_lia).
  destruct HN as [-> | ->]; [done|]. rewrite (proj2 (Nat.eqb_neq _ 4)) by div_lia. done.
Qed.

Lemma expand_group Nk u a0 a1 a2 a3 v t :
  (Nk = 4 ∨ Nk = 8)%nat -> (length v + 4 = Nk)%nat -> (length u mod 4 = 0)%nat -> List.last (a3 :: v) 0 = t ->
  let w := u ++ [a0; a1; a2; a3] ++ v in
  let n0 := N.lxor a0 (group_temp Nk (length w / 4) t) in let n1 := N.lxor a1 n0 in let n2 := N.lxor a2 n1 in
  expand_words Nk 4 w = w ++ [n0; n1; n2; N.lxor a3 n2].
Proof.
  intros HN Hv Hu Ht. cbn zeta. set (w := u ++ _ ++ v). set (n0 := N.lxor a0 _). set (n1 := N.lxor a1 n0). set (n2 := N.lxor a2 n1).
  assert (next_word Nk w = n0) as E0.
  { subst n0 w. cbn [app]. rewrite next_word_app by (cbn; lia). unfold group_temp. f_equal.
    assert (4 * (length (u ++ a0 :: a1 :: a2 :: a3 :: v) / 4) = length u + Nk)%nat as ->.
    { rewrite !length_app. cbn [length]. destruct HN as [-> | ->]; div_lia. }
    assert (List.last (a0 :: a1 :: a2 :: a3 :: v) 0 = t) as -> by done. done. }
  assert (∀ x (l : list N) d, List.last (x :: l ++ [d]) 0 = d) as Hlast by (intros x l d; apply (List.last_last (x :: l))).
  assert (∀ a x y z, w = x ++ a :: y -> (length x mod 4 <> 0)%nat ->
            (length y + length z + 2 = Nk)%nat -> ∀ d, next_word Nk (w ++ z ++ [d]) = N.lxor a d) as Hin.
  { intros a x y z -> Hx Hz d. rewrite <- app_assoc. cbn [app]. rewrite next_word_inner; [|rewrite !length_app; cbn; lia|done|done].
    by rewrite app_assoc, Hlast. }
  assert (next_word Nk (w ++ [n0]) = n1) as E1.
  { apply (Hin a1 (u ++ [a0]) (a2 :: a3 :: v) []); [subst w; by rewrite <- !app_assoc|rewrite length_app; cbn [length]; div_lia|cbn [length]; lia]. }
  assert (next_word Nk (w ++ [n0; n1]) = n2) as E2.
  { apply (Hin a2 (u ++ [a0; a1]) (a3 :: v) [n0]); [subst w; by rewrite <- !app_assoc|rewrite length_app; cbn [length]; div_lia|cbn [length]; lia]. }
  assert (next_word Nk (w ++ [n0; n1; n2]) = N.lxor a3 n2) as E3.
  { apply (Hin a3 (u ++ [a0; a1; a2]) v [n0; n1]); [subst w; by rewrite <- !app_assoc|rewrite length_app; cbn [length]; div_lia|cbn [length]; lia]. }
  cbn [expand_words]. rewrite E0, E1, <- !app_assoc. cbn [app]. rewrite E2, ?E3. done.
Qed.

(** The first [i] round keys are in place. *)
Record expanded (w : list N) (ks : list m128) (i : nat) : Prop := {
  ex_len : length w = (4 * i)%nat;
  ex_words : Forall is_word w;
  ex_keys : ∀ j, (j < i)%nat -> nth j ks 0 = round_key w j;
  ex_slots : length ks = KEY_SLOTS;
}.

Lemma round_key_app w v j : (4 * j + 4 <= length w)%nat -> round_key (w ++ v) j = round_key w j.
Proof. intros H. unfold round_key. rewrite drop_app_le, take_app_le by (rewrite ?length_drop; lia). done. Qed.

Lemma round_key_at u a b c d v j : length u = (4 * j)%nat -> round_key (u ++ [a; b; c; d] ++ v) j = of_lanes 32 [a; b; c; d].
Proof. intros H. unfold round_key. rewrite drop_app_length' by lia. done. Qed.

Lemma lanes_round_key w j : Forall is_word w -> (4 * j + 4 <= length w)%nat -> lanes 32 4 (round_key w j) = take 4 (drop (4 * j) w).
Proof.
  intros Hw Hj. unfold round_key. pose proof (lanes_of_lanes 32 (take 4 (drop (4 * j) w))) as H.
  rewrite length_take, length_drop, Nat.min_l in H by lia. apply H. by apply Forall_take, Forall_drop.
Qed.

Lemma last_nth (w : list N) : List.last w 0 = nth (length w - 1) w 0.
Proof.
  induction w as [|a w IH]; [done|]. cbn [length]. rewrite Nat.sub_succ, Nat.sub_0_r. destruct w as [|b w]; [done|].
  change (List.last (a :: b :: w) 0) with (List.last (b :: w) 0). rewrite IH. cbn [length]. rewrite Nat.sub_succ, Nat.sub_0_r. done.
Qed.

Lemma lane3_round_key w i : Forall is_word w -> length w = (4 * i)%nat -> (0 < i)%nat -> lane 32 4 (round_key w (i - 1)) 3 = List.last w 0.
Proof.
  intros Hw Hl Hi. unfold lane. rewrite lanes_round_key by (done || lia). change (N.to_nat 3) with 3%nat.
  rewrite nth_lookup, lookup_take_lt, lookup_drop, <- nth_lookup, last_nth by lia. f_equal. lia.
Qed.

(** The lane that the immediate chooses, in all four places. *)
Lemma assist_rot w R : is_word R -> _mm_shuffle_epi32 (_mm_aeskeygenassist_si128 w R) 0xff
  = let t := N.lxor (SubWord (RotWord (lane 32 4 w 3))) R in of_lanes 32 [t; t; t; t].
Proof.
  intros HR. unfold _mm_shuffle_epi32, _mm_aeskeygenassist_si128, lane at 1. rewrite SubWord_RotWord. unfold is_word in HR.
  rewrite lanes_of_lanes'; [done|done|]. repeat constructor; auto with words.
Qed.

Lemma assist_sub w R : is_word R -> _mm_shuffle_epi32 (_mm_aeskeygenassist_si128 w R) 0xaa
  = let t := SubWord (lane 32 4 w 3) in of_lanes 32 [t; t; t; t].
Proof.
  intros HR. unfold _mm_shuffle_epi32, _mm_aeskeygenassist_si128, lane at 1. unfold is_word in HR.
  rewrite lanes_of_lanes'; [done|done|]. repeat constructor; auto with words.
Qed.

Lemma round_constants_word i : is_word (nth i round_constants 0).
Proof.
  destruct (nth_in_or_default i round_constants 0) as [Hin| ->]; [|done].
  assert (Forall is_word round_constants) as H by (by repeat constructor). by apply (proj1 (List.Forall_forall _ _) H).
Qed.

Lemma group_temp_word Nk j t : is_word t -> is_word (group_temp Nk j t).
Proof.
  intros Ht. unfold group_temp. pose proof (round_constants_word (4 * j / Nk - 1)). unfold is_word in *.
  repeat case_match; auto with words.
Qed.

(** One assignment to [keys.m128[i]]. *)
Lemma expand_one_step Nk R imm w ks i :
  (Nk = 4 ∨ Nk = 8)%nat -> expanded w ks i -> (Nk / 4 <= i)%nat -> (i < KEY_SLOTS)%nat ->
  (let t := group_temp Nk i (List.last w 0) in
   _mm_shuffle_epi32 (_mm_aeskeygenassist_si128 (round_key w (i - 1)) R) imm = of_lanes 32 [t; t; t; t]) ->
  expanded (expand_words Nk 4 w) (expand_one (4 * Nk) R imm i ks) (S i).
Proof.
  intros HN [Hl Hw Hk Hs] Hi Hslots Hassist. cbv zeta in Hassist.
  assert (∃ u a0 a1 a2 a3 v, w = u ++ [a0; a1; a2; a3] ++ v ∧ (length v + 4 = Nk)%nat ∧ length u = (4 * (i - Nk / 4))%nat)
    as (u & a0 & a1 & a2 & a3 & v & -> & Hv & Hu).
  { exists (take (4 * i - Nk) w). destruct (drop (4 * i - Nk) w) as [|a0 [|a1 [|a2 [|a3 v]]]] eqn:E;
      apply (f_equal length) in E as E'; rewrite length_drop in E'; cbn [length] in E'; try (destruct HN as [-> | ->]; cbn in Hi; lia).
    exists a0, a1, a2, a3, v. split_and!; [|destruct HN as [-> | ->]; cbn in Hi; lia|].
    - cbn [app]. rewrite <- E. by rewrite take_drop.
    - rewrite length_take. destruct HN as [-> | ->]; cbn in *; lia. }
  set (t := group_temp Nk i _) in *.
  assert (is_word t).
  { apply group_temp_word. destruct (decide (u ++ [a0; a1; a2; a3] ++ v = [])) as [->|]; [done|].
    rewrite last_nth. apply (proj1 (List.Forall_forall _ _) Hw), nth_In. rewrite !length_app. cbn. lia. }
  pose proof Hw as Hw'. apply Forall_app in Hw' as [Hwu [Hwa Hwv]%Forall_app].
  assert (is_word a0 ∧ is_word a1 ∧ is_word a2 ∧ is_word a3) as (? & ? & ? & ?) by (by repeat match goal with H : Forall _ (_ :: _) |- _ => apply Forall_cons in H as [] end).
  rewrite (expand_group Nk u a0 a1 a2 a3 v (List.last (u ++ [a0; a1; a2; a3] ++ v) 0)); [|done|done|rewrite Hu; div_lia|].
  2: { rewrite !(last_nth (_ ++ _)), last_nth. rewrite (app_assoc u [a0; a1; a2] (a3 :: v) : u ++ [a0; a1; a2; a3] ++ v = _).
       rewrite app_nth2; [f_equal|]; rewrite !length_app; cbn [length]; lia. }
  rewrite Hl. replace (4 * i / 4)%nat with i by div_lia. fold t. cbv zeta.
  split.
  - rewrite length_app, Hl. cbn [length]. lia.
  - apply Forall_app. split; [done|]. unfold is_word in *. repeat constructor; auto with words.
  - intros j Hj. unfold expand_one. destruct (decide (j = i)) as [->|Hne].
    + rewrite nth_lookup, list_lookup_insert_eq by lia. cbn [default].
      replace (4 * Nk / 16)%nat with (Nk / 4)%nat by (by destruct HN as [-> | ->]).
      rewrite !Hk by (destruct HN as [-> | ->]; cbn in *; lia). rewrite Hassist, round_key_at by done.
      rewrite expand_key_words by done. symmetry. apply (round_key_at (u ++ [a0; a1; a2; a3] ++ v)  _ _ _ _ []). done.
    + rewrite nth_lookup, list_lookup_insert_ne, <- nth_lookup, Hk by lia. symmetry. apply round_key_app. rewrite Hl. lia.
  - unfold expand_one. by rewrite length_insert.
Qed.

Lemma expand_words_add Nk m n w : expand_words Nk (m + n) w = expand_words Nk n (expand_words Nk m w).
Proof. revert w. induction m as [|m IH]; intros w; [done|]. cbn. apply IH. Qed.

Lemma group_temp_rot Nk i t : (4 * i mod Nk = 0)%nat -> group_temp Nk i t = N.lxor (SubWord (RotWord t)) (nth (4 * i / Nk - 1) round_constants 0).
Proof. intros H. unfold group_temp. by rewrite H. Qed.

(** The assignment with the round constant. *)
Lemma expand_one_rot Nk w ks i :
  (Nk = 4 ∨ Nk = 8)%nat -> expanded w ks i -> (Nk / 4 <= i)%nat -> (i < KEY_SLOTS)%nat -> (4 * i mod Nk = 0)%nat ->
  expanded (expand_words Nk 4 w) (expand_one (4 * Nk) (nth (4 * i / Nk - 1) round_constants 0) 0xff i ks) (S i).
Proof.
  intros HN Hex Hi Hs Hm. apply expand_one_step; [done..|]. cbv zeta. rewrite assist_rot by apply round_constants_word. cbv zeta.
  destruct Hex as [Hl Hw _ _]. rewrite lane3_round_key, group_temp_rot by (done || destruct HN as [-> | ->]; cbn in Hi; lia). done.
Qed.

Lemma expand_one_sub R w ks i :
  expanded w ks i -> (2 <= i)%nat -> (i < KEY_SLOTS)%nat -> (i mod 2 = 1)%nat -> is_word R ->
  expanded (expand_words 8 4 w) (expand_one 32 R 0xaa i ks) (S i).
Proof.
  intros Hex Hi Hs Hm HR. apply (expand_one_step 8); [by right|done..|]. cbv zeta. rewrite assist_sub by done. cbv zeta.
  destruct Hex as [Hl Hw _ _]. rewrite lane3_round_key by (done || lia). unfold group_temp.
  replace (4 * i mod 8)%nat with 4%nat by div_lia. done.
Qed.

Lemma drop_round_constants i : (i < 10)%nat -> drop i round_constants = nth i round_constants 0 :: drop (S i) round_constants.
Proof. intros Hi. do 10 (destruct i as [|i]; [done|]). lia. Qed.

Lemma expand_loop_128 n i w ks :
  (i + n = 10)%nat -> (1 <= i)%nat -> expanded w ks i ->
  ∃ ks', expand_loop 16 10 (drop (i - 1) round_constants) i ks = Ok ks' ∧ expanded (expand_words 4 (4 * S n) w) ks' 11.
Proof.
  revert i w ks. induction n as [|n IH]; intros i w ks Hn Hi Hex;
    rewrite drop_round_constants by lia; cbn [expand_loop];
    pose proof (expand_one_rot 4 w ks i ltac:(by left) Hex Hi ltac:(cbn; lia) ltac:(div_lia)) as Hex';
    replace (4 * i / 4)%nat with i in Hex' by div_lia; cbn [Nat.mul Nat.add] in Hex'.
  - replace i with 10%nat in * by lia. cbn [Nat.eqb]. eexists. split; [done|]. exact Hex'.
  - rewrite (proj2 (Nat.eqb_neq i 10)) by lia. cbn [Nat.ltb Nat.leb]. destruct (IH (S i) _ _ ltac:(lia) ltac:(lia) Hex') as (ks' & Hks & Hex2).
    replace (S i - 1)%nat with (S (i - 1)) in Hks by lia. exists ks'. split; [done|].
    replace (4 * S (S n))%nat with (4 + 4 * S n)%nat by lia. by rewrite expand_words_add.
Qed.

Lemma expand_loop_256 n i w ks :
  (i + 2 * n = 14)%nat -> (2 <= i)%nat -> expanded w ks i ->
  ∃ ks', expand_loop 32 14 (drop (i / 2 - 1) round_constants) i ks = Ok ks' ∧ expanded (expand_words 8 (4 * S (2 * n)) w) ks' 15.
Proof.
  revert i w ks. induction n as [|n IH]; intros i w ks Hn Hi Hex;
    rewrite drop_round_constants by div_lia; cbn [expand_loop];
    pose proof (expand_one_rot 8 w ks i ltac:(by right) Hex ltac:(cbn; lia) ltac:(cbn; lia) ltac:(div_lia)) as Hex';
    replace (4 * i / 8)%nat with (i / 2)%nat in Hex' by div_lia; change (4 * 8)%nat with 32%nat in Hex'.
  - replace i with 14%nat in * by lia. cbn [Nat.eqb]. eexists. split; [done|]. exact Hex'.
  - rewrite (proj2 (Nat.eqb_neq i 14)) by lia. change (24 <? 32)%nat with true. cbv iota.
    pose proof (expand_one_sub (nth (i / 2 - 1) round_constants 0) _ _ (S i) Hex' ltac:(lia) ltac:(cbn; lia) ltac:(div_lia) ltac:(apply round_constants_word)) as Hex2.
    destruct (IH (S (S i)) _ _ ltac:(lia) ltac:(lia) Hex2) as (ks' & Hks & Hex3).
    replace (S (S i) / 2 - 1)%nat with (S (i / 2 - 1)) in Hks by div_lia. exists ks'. split; [done|].
    replace (4 * S (2 * S n))%nat with (4 + (4 + 4 * S (2 * n)))%nat by lia. by rewrite !expand_words_add.
Qed.

(** ** The union of the two arrays *)

Lemma broadcast_keys_spec n ks :
  (2 * n <= length ks)%nat ->
  (∀ i, (i < n)%nat -> nth (2 * i) (broadcast_keys n ks) 0 = nth i ks 0 ∧ nth (2 * i + 1) (broadcast_keys n ks) 0 = nth i ks 0)
  ∧ (∀ j, (2 * n <= j)%nat -> nth j (broadcast_keys n ks) 0 = nth j ks 0).
Proof.
  revert ks. induction n as [|n IH]; intros ks Hl; [split; [lia|done]|]. cbn [broadcast_keys].
  set (ks' := <[_ := _]> (<[_ := _]> ks)).
  assert (length ks' = length ks) as Hl' by (subst ks'; by rewrite !length_insert).
  assert (∀ j, j <> (2 * n)%nat -> j <> (2 * n + 1)%nat -> nth j ks' 0 = nth j ks 0) as Hother.
  { intros j H1 H2. subst ks'. rewrite !nth_lookup, !list_lookup_insert_ne by lia. done. }
  destruct (IH ks') as [Hin Hout]; [lia|]. split.
  - intros i Hi. destruct (decide (i = n)) as [->|Hne].
    + rewrite !Hout by lia. subst ks'. rewrite !nth_lookup, list_lookup_insert_eq by (rewrite length_insert; lia).
      rewrite list_lookup_insert_ne, list_lookup_insert_eq by lia. done.
    + destruct (Hin i) as [-> ->]; [lia|]. by rewrite !Hother by lia.
  - intros j Hj. rewrite Hout, Hother by lia. done.
Qed.

(** ** What the context computes *)

Lemma rounds_fold f g w ctx n v :
  (∀ i, (i < n)%nat -> ROUNDKEY ctx i = round_key w i) -> (∀ x k, f x k = N.lxor (g x) k) ->
  foldl (λ v i, f v (ROUNDKEY ctx i)) v (seq 1 (n - 1)) = foldl (λ v i, N.lxor (g v) (round_key w i)) v (seq 1 (n - 1)).
Proof.
  intros Hk Hf. revert v. assert (Forall (λ i, i < n)%nat (seq 1 (n - 1))) as Hs by (apply Forall_seq; lia).
  induction Hs as [|i l Hi _ IH]; intros v; [done|]. cbn. rewrite IH, Hf, Hk by done. done.
Qed.

Lemma shift_sub s : length s = 16%nat -> SubBytes (ShiftRows s) = ShiftRows (SubBytes s).
Proof. intros Hs. do 16 (destruct s as [|? s]; [done|]). by destruct s. Qed.

Lemma on_state_ext f g x : (∀ s, length s = 16%nat -> f s = g s) -> on_state f x = on_state g x.
Proof. intros H. unfold on_state. by rewrite H by apply lanes_length. Qed.

Lemma rounds_are_cipher w ctx v :
  (∀ i, (i <= rounds ctx)%nat -> ROUNDKEY ctx i = round_key w i) -> aesecb_encrypt ctx v = Cipher w (rounds ctx) v.
Proof.
  intros Hk. unfold aesecb_encrypt, Cipher, _mm_xor_si128. rewrite Hk by lia.
  rewrite (rounds_fold _mm_aesenc_si128 (on_state (λ s, MixColumns (ShiftRows (SubBytes s)))) w ctx (rounds ctx)).
  - unfold _mm_aesenclast_si128. rewrite Hk by done. rewrite (on_state_ext _ (λ s, ShiftRows (SubBytes s))); [done|]. apply shift_sub.
  - intros i Hi. apply Hk. lia.
  - intros x k. unfold _mm_aesenc_si128.
    rewrite (on_state_ext _ (λ s, MixColumns (ShiftRows (SubBytes s)))); [done|]. intros s Hs. by rewrite shift_sub.
Qed.

Lemma of_bytes_lt l : is_bytes l -> of_bytes l < 2 ^ (8 * N.of_nat (length l)).
Proof.
  intros Hl. unfold of_bytes. rewrite <- (length_fmap Z.to_N l). apply of_lanes_lt, Forall_fmap.
  apply (Forall_impl _ _ _ Hl). intros b Hb. unfold is_byte in Hb. cbn. lia.
Qed.

Lemma of_bytes_app l k : of_bytes (l ++ k) = of_bytes l + 2 ^ (8 * N.of_nat (length l)) * of_bytes k.
Proof. unfold of_bytes. by rewrite fmap_app, of_lanes_app, length_fmap. Qed.

Lemma lanes_app w m n a b : a < 2 ^ (w * N.of_nat m) ->
  lanes w (m + n) (a + 2 ^ (w * N.of_nat m) * b) = lanes w m a ++ lanes w n b.
Proof.
  revert a. induction m as [|m IH]; intros a Ha.
  - rewrite N.mul_0_r in *. cbn [Nat.add lanes app]. f_equal. cbn in Ha. lia.
  - cbn [Nat.add lanes app]. rewrite Nat2N.inj_succ, N.mul_succ_r, N.pow_add_r in *.
    rewrite (N.mul_comm _ (2 ^ w)), <- N.mul_assoc, (N.mul_comm (2 ^ w)), N.Div0.mod_add, N.div_add by (apply N.pow_nonzero; lia).
    f_equal. apply IH. apply N.Div0.div_lt_upper_bound. lia.
Qed.

(** The first round keys are the key. *)
Lemma expanded_start key ks :
  is_bytes key -> length ks = KEY_SLOTS -> (length key = 16 ∨ length key = 32)%nat ->
  expanded (key_words key)
    (let m := <[0%nat := of_bytes (take 16 key)]> ks in
     if (length key =? 32)%nat then <[1%nat := of_bytes (take 16 (drop 16 key))]> m else m) (length key / 16).
Proof.
  intros Hb Hs Hl. unfold key_words.
  assert (is_bytes (take 16 key) ∧ is_bytes (drop 16 key)) as [Hb1 Hb2] by (split; [by apply Forall_take|by apply Forall_drop]).
  pose proof (of_bytes_lt _ Hb1) as H1. pose proof (of_bytes_lt _ Hb2) as H2. rewrite length_take in H1. rewrite length_drop in H2.
  assert (∀ x : N, x < 2 ^ 128 -> of_lanes 32 (lanes 32 4 x) = x) as Hround by (intros x Hx; by apply of_lanes_lanes).
  destruct Hl as [Hl|Hl]; rewrite Hl in *; cbn in H1, H2.
  - change (16 / 16)%nat with 1%nat. change (16 / 4)%nat with 4%nat. change (16 =? 32)%nat with false. cbv zeta iota. split.
    + apply lanes_length.
    + apply (lanes_lt 32).
    + intros j Hj. replace j with 0%nat by lia. rewrite nth_lookup, list_lookup_insert_eq by (rewrite Hs; cbn; lia). cbn [default].
      unfold round_key. cbn [Nat.mul]. rewrite drop_0, (take_ge (lanes 32 4 _)) by (rewrite lanes_length; lia). rewrite (take_ge key) in * by lia. by rewrite Hround.
    + by rewrite length_insert.
  - assert (lanes 32 8 (of_bytes key) = lanes 32 4 (of_bytes (take 16 key)) ++ lanes 32 4 (of_bytes (drop 16 key))) as Hlanes.
    { rewrite <- (take_drop 16 key) at 1. rewrite of_bytes_app, length_take, Hl. apply (lanes_app 32 4 4). done. }
    change (32 / 16)%nat with 2%nat. change (32 / 4)%nat with 8%nat. change (32 =? 32)%nat with true. cbv zeta iota. split.
    + apply lanes_length.
    + apply (lanes_lt 32).
    + intros j Hj. unfold round_key. rewrite Hlanes. assert (j = 0 ∨ j = 1)%nat as [-> | ->] by lia.
      * rewrite nth_lookup, list_lookup_insert_ne, list_lookup_insert_eq by (rewrite ?Hs; cbn; lia). cbn [default Nat.mul].
        rewrite drop_0, take_app_length' by (by rewrite lanes_length). by rewrite Hround.
      * rewrite nth_lookup, list_lookup_insert_eq by (rewrite length_insert, Hs; cbn; lia). cbn [default Nat.mul Nat.add].
        rewrite drop_app_length' by (by rewrite lanes_length). rewrite (take_ge (lanes 32 4 _)) by (rewrite lanes_length; lia).
        rewrite (take_ge (drop 16 key)) by (rewrite length_drop; lia). by rewrite Hround.
    + by rewrite !length_insert.
Qed.

(** A context with the round keys of a key, in whichever of the two arrays it reads. *)
Definition keyed_with (key : bytes) (ctx : ptls_fusion_aesecb_context_t) : Prop :=
  rounds ctx = (length key / 4 + 6)%nat ∧ ∀ i, (i <= rounds ctx)%nat ->
    ROUNDKEY ctx i = round_key (KeyExpansion key) i ∧ (aesni256 ctx = true -> lane1 (key_m256 ctx i) = round_key (KeyExpansion key) i).

Lemma init_keyed ctx key aesni :
  is_bytes key -> length (keys ctx) = KEY_SLOTS -> (length key = 16 ∨ length key = 32)%nat ->
  ∃ c, ptls_fusion_aesecb_init ctx true key (len key) aesni = Ok c ∧ keyed_with key c ∧ aesni256 c = aesni.
Proof.
  intros Hb Hs Hl. pose proof (expanded_start key (keys ctx) Hb Hs Hl) as Hex. unfold ptls_fusion_aesecb_init.
  cbn [guard_err mbind result_bind]. unfold len. rewrite Nat2Z.id.
  assert (∃ n ks', (match length key with 16%nat => Ok PTLS_FUSION_AES128_ROUNDS | 32%nat => Ok PTLS_FUSION_AES256_ROUNDS | _ => Err ABORTED end) = Ok n
    ∧ n = (length key / 4 + 6)%nat ∧ (2 * S n <= KEY_SLOTS)%nat
    ∧ (let m := <[0%nat := of_bytes (take 16 key)]> (keys ctx) in
       let '(i, m) := if (length key =? 32)%nat then (2%nat, <[1%nat := of_bytes (take 16 (drop 16 key))]> m) else (1%nat, m) in
       expand_loop (length key) n round_constants i m) = Ok ks'
    ∧ expanded (KeyExpansion key) ks' (S n)) as (n & ks' & -> & Hn & Hslots & Hloop & [Hw _ Hk Hks]).
  { unfold KeyExpansion. destruct Hl as [Hl|Hl]; rewrite Hl in *.
    - destruct (expand_loop_128 9 1 _ _ eq_refl ltac:(lia) Hex) as (ks' & Hks & Hex'). exists 10%nat, ks'. split_and!; [done..|unfold KEY_SLOTS; cbn; lia|exact Hks|exact Hex'].
    - destruct (expand_loop_256 6 2 _ _ eq_refl ltac:(lia) Hex) as (ks' & Hks & Hex'). exists 14%nat, ks'. split_and!; [done..|unfold KEY_SLOTS; cbn; lia|exact Hks|exact Hex']. }
  cbn [mbind result_bind]. cbv zeta in Hloop |- *.
  destruct (length key =? 32)%nat; rewrite Hloop; cbn [mbind result_bind].
  all: eexists; split; [done|]; split; [|done]; split; [done|]; cbn [rounds aesni256]; intros i' Hi.
  all: unfold ROUNDKEY, key_m128, key_m256; cbn [keys aesni256 lane1 _mm256_castsi256_si128 lane0]; rewrite <- Hk by lia.
  all: destruct aesni; [|done]; destruct (broadcast_keys_spec (S n) ks') as [Hin _]; [lia|]; by destruct (Hin i') as [-> ->]; [lia|].
Qed.

Lemma keyed_encrypts key ctx v : keyed_with key ctx -> aesecb_encrypt ctx v = AES key v.
Proof. intros [Hr Hk]. unfold AES. rewrite <- Hr. apply rounds_are_cipher. intros i Hi. by apply Hk. Qed.

(** C27: the AES of the engine is AES.  For a key of 16 or of 32 bytes the set-up succeeds, whatever the
    context held, and what the context then computes with the instructions is the cipher of FIPS 197
    under the key expansion of FIPS 197; it does not depend on whether the round keys were spread over the
    array of registers of 256 bits, which shares its memory with the one they were computed in. *)
Theorem aesecb_is_aes ctx key aesni :
  is_bytes key -> length (keys ctx) = KEY_SLOTS -> (length key = 16 ∨ length key = 32)%nat ->
  ∃ c, ptls_fusion_aesecb_init ctx true key (len key) aesni = Ok c ∧ ∀ v, aesecb_encrypt c v = AES key v.
Proof.
  intros Hb Hs Hl. destruct (init_keyed ctx key aesni Hb Hs Hl) as (c & Hc & Hk & _). exists c. split; [done|].
  intros v. by apply keyed_encrypts.
Qed.

(** *** Blocks stay blocks *)

Lemma nth_word l i : Forall is_word l -> is_word (nth i l 0).
Proof. intros Hl. destruct (nth_in_or_default i l 0) as [Hin| ->]; [|done]. by apply (proj1 (List.Forall_forall _ _) Hl). Qed.

Lemma next_word_word Nk w : Forall is_word w -> is_word (next_word Nk w).
Proof.
  intros Hw. unfold next_word. rewrite last_nth. apply lxor_lt_pow2; [by apply nth_word|].
  pose proof (nth_word w (length w - 1) Hw). pose proof (round_constants_word (length w / Nk - 1)). unfold is_word in *.
  repeat case_match; auto with words.
Qed.

Lemma expand_words_word Nk n w : Forall is_word w -> Forall is_word (expand_words Nk n w).
Proof. revert w. induction n as [|n IH]; intros w Hw; [done|]. cbn. apply IH, Forall_app. split; [done|]. constructor; [by apply next_word_word|done]. Qed.

Lemma round_key_lt w i : Forall is_word w -> round_key w i < 2 ^ 128.
Proof.
  intros Hw. unfold round_key. eapply N.lt_le_trans; [apply of_lanes_lt; by apply Forall_take, Forall_drop|].
  apply N.pow_le_mono_r; [lia|]. rewrite length_take. lia.
Qed.

Lemma AES_lt key v : AES key v < 2 ^ 128.
Proof.
  unfold AES, Cipher. cbv zeta. apply lxor_lt_pow2; [|apply round_key_lt; apply expand_words_word, lanes_lt].
  match goal with |- on_state ?f ?x < _ => generalize x end. intros x.
  unfold on_state. apply (of_lanes_lt 8 (ShiftRows (SubBytes (lanes 8 16 x)))).
  unfold ShiftRows. apply Forall_fmap, Forall_true. intros i. cbn [compose]. unfold SubBytes.
  destruct (nth_in_or_default i (SubByte <$> lanes 8 16 x) 0) as [Hin| ->]; [|done]. apply in_map_iff in Hin as (b & <- & _). apply SubByte_lt.
Qed.

#[global] Opaque AES.

(** ** Evaluation *)

Definition ecb0 : ptls_fusion_aesecb_context_t := mkEcb (replicate KEY_SLOTS 0xdead) 3 true.

(** The vectors of [test_ecb] in [t/fusion.c]. *)
Example ecb_vectors :
  (λ c, ptls_fusion_aesecb_encrypt c (str "hello world!!!!!")) <$> ptls_fusion_aesecb_init ecb0 true (replicate 16 0%Z) 16 false
  = Ok [0x17; 0x2a; 0xfe; 0xcb; 0x50; 0xb5; 0xf1; 0x23; 0x78; 0x14; 0xb2; 0xf7; 0xcb; 0x51; 0xd0; 0xf7]%Z
  ∧ (λ c, ptls_fusion_aesecb_encrypt c (str "hello world!!!!!")) <$> ptls_fusion_aesecb_init ecb0 true (replicate 32 0%Z) 32 true
  = Ok [0x2a; 0x03; 0x3f; 0x06; 0x27; 0xb3; 0x55; 0x4a; 0xa4; 0xfe; 0x57; 0x86; 0x55; 0x07; 0x36; 0xff]%Z.
Proof. by vm_compute. Qed.

Lemma aesecb_is_aes_witness :
  length (keys ecb0) = KEY_SLOTS ∧
  ∃ c, ptls_fusion_aesecb_init ecb0 true (replicate 32 0%Z) 32 true = Ok c ∧ ∀ v, aesecb_encrypt c v = AES (replicate 32 0%Z) v.
Proof.
  split; [reflexivity|]. apply (aesecb_is_aes ecb0 (replicate 32 0%Z) true); [|reflexivity|right; reflexivity].
  apply Forall_replicate. vm_compute. split; congruence.
Defined.
