(* ===== verification/FusionLoad.v ===== *)
(** * FusionLoad: partial loads and stores, and scattered input ([lib/fusion.c])

    A block at the end of the input has less than 16 bytes, but a register is loaded at once.  The code
    may read beyond the bytes it was given as long as it stays on pages that hold some of them:
    [loadn128_correct] says that it does, and that what it reads beyond does not matter.  The same for
    256 bits holds unless the bytes lie across the middle of the last 32 bytes of a page
    ([loadn256_loses_byte] is such a case).  [fusion_input] reads a list of buffers as one. *)

From S2P Require Import Prelude Gf2 Simd FusionGhash FusionAes.

#[local] Open Scope Z_scope.

(** A register from a constant table. *)
Definition table_at (t : bytes) (off : Z) (n : nat) : result bytes :=
  if (0 <=? off) && (off + Z.of_nat n <=? len t) then Ok (take n (drop (Z.to_nat off) t)) else Err OVER_READ.

(* src lib/fusion.c:339-342 loadn_mask *)
Definition loadn_mask : bytes := replicate 32 0xff ++ replicate 31 0.

(* src lib/fusion.c:343-346 loadn_shuffle *)
Definition loadn_shuffle : bytes := [0; 1; 2; 3; 4; 5; 6; 7; 8; 9; 10; 11; 12; 13; 14; 15] ++ replicate 15 0x80.

Section Loads.
Context (mapped : Z -> bool).

(* src lib/fusion.c:348-354 loadn_end_of_page *)
Definition loadn_end_of_page (p l : Z) : M memory m128 :=
  let shift := Z.land p 15 in
  pattern ← lift (of_bytes <$> table_at loadn_shuffle shift 16);
  v ← _mm_load_si128 mapped (p - shift);
  mret (_mm_shuffle_epi8 v pattern).

(* src lib/fusion.c:356-370 loadn128 *)
Definition loadn128 (p l : Z) : M memory m128 :=
  mask ← lift (of_bytes <$> table_at loadn_mask (32 - l) 16);
  let mod4k := p mod 4096 in
  v ← if (mod4k <=? 4096 - 16) || (4096 <? mod4k + l) then _mm_loadu_si128 mapped p else loadn_end_of_page p l;
  mret (_mm_and_si128 v mask).

(** [undef]: what the upper half of a register is after a cast from 128 bits. *)
(* src lib/fusion.c:372-391 loadn256 *)
Definition loadn256 (undef : m128) (p l : Z) : M memory m256 :=
  mask ← lift (table_at loadn_mask (32 - l) 32);
  let mask := M256 (of_bytes (take 16 mask)) (of_bytes (drop 16 mask)) in
  let mod4k := p mod 4096 in
  v ← if (mod4k <? 4096 - 32) || (4096 <? mod4k + l) then _mm256_loadu_si256 mapped p
      else if 16 <? l then
        first16 ← _mm_loadu_si128 mapped p;
        second16 ← loadn128 (p + 16) (l - 16);
        mret (_mm256_permute2f128_si256 (_mm256_castsi128_si256 undef first16) (_mm256_castsi128_si256 undef second16) 0x20%N)
      else if l =? 16 then v ← _mm_loadu_si128 mapped p; mret (_mm256_castsi128_si256 undef v)
      else v ← loadn_end_of_page p l; mret (_mm256_castsi128_si256 undef v);
  mret (_mm256_and_si256 v mask).

(** [p[i] = buf[i]], one byte after the other. *)
Fixpoint store_bytes (p : Z) (l : bytes) : M memory unit :=
  match l with [] => mret () | b :: l => store mapped p [b];; store_bytes (p + 1) l end.

(* src lib/fusion.c:393-401 storen128 *)
Definition storen128 (p : Z) (l : nat) (v : m128) : M memory unit := store_bytes p (take l (to_bytes 16 v)).

(** ** Scattered input *)

(** A buffer: where it starts and how long it is. *)
Record ptls_iovec_t := mkIovec { base : Z; iov_len : Z }.

(* src lib/fusion.c:403-409 fusion_input *)
Record fusion_input := mkInput { fi_ptr : Z; fi_len : Z; fi_vec : list ptls_iovec_t; vec_index : nat; vec_count : nat }.

(* src lib/fusion.c:411-414 fusion_input_iovec *)
Definition fusion_input_iovec (input : list ptls_iovec_t) : fusion_input := mkInput 0 0 input 0 (length input).

Fixpoint input_next_loop (fuel : nat) (src : fusion_input) : fusion_input :=
  match fuel with
  | O => src
  | S fuel =>
    if (fi_len src =? 0) && negb (vec_index src =? vec_count src)%nat then
      let v := nth (vec_index src) (fi_vec src) (mkIovec 0 0) in
      input_next_loop fuel (mkInput (base v) (iov_len v) (fi_vec src) (S (vec_index src)) (vec_count src))
    else src
  end.

(** Whether there is input, and the reader at it; the fuel is the number of buffers that are left. *)
(* src lib/fusion.c:416-424 fusion_input_next *)
Definition fusion_input_next (src : fusion_input) : bool * fusion_input :=
  let src := input_next_loop (vec_count src - vec_index src) src in (negb (fi_len src =? 0), src).

(* src lib/fusion.c:442-446 fusion_input_consume *)
Definition fusion_input_consume (src : fusion_input) (n : Z) : fusion_input :=
  mkInput (fi_ptr src + n) (fi_len src - n) (fi_vec src) (vec_index src) (vec_count src).

Fixpoint input_read_loop (fuel : nat) (src : fusion_input) (dst : bytes) (max : Z) : M memory (bytes * fusion_input) :=
  match fuel with
  | O => fail OUT_OF_FUEL
  | S fuel =>
    if len dst =? max then mret (dst, src)
    else
      let '(more, src) := fusion_input_next src in
      if negb more then mret (dst, src)
      else
        let n := Z.min (max - len dst) (fi_len src) in
        l ← load mapped (Z.to_nat n) (fi_ptr src);
        input_read_loop fuel (fusion_input_consume src n) (dst ++ l) max
  end.

(** What has been written to [dst]; every round but the last takes a byte at least. *)
(* src lib/fusion.c:426-440 fusion_input_read *)
Definition fusion_input_read (src : fusion_input) (max : Z) : M memory (bytes * fusion_input) :=
  input_read_loop (S (Z.to_nat max)) src [] max.

End Loads.

(** ** Bytes *)

Lemma is_bytes_N l : is_bytes l -> Forall (λ a, a < 2 ^ 8)%N (Z.to_N <$> l).
Proof. intros Hl. apply Forall_fmap. apply (Forall_impl _ _ _ Hl). intros b Hb. unfold is_byte in Hb. cbn. lia. Qed.

Lemma lanes_of_bytes n l : is_bytes l -> length l = n -> lanes 8 n (of_bytes l) = Z.to_N <$> l.
Proof. intros Hl Hn. unfold of_bytes. apply lanes_of_lanes'; [by rewrite length_fmap|by apply is_bytes_N]. Qed.

Lemma to_of_bytes n l : is_bytes l -> length l = n -> to_bytes n (of_bytes l) = l.
Proof.
  intros Hl Hn. unfold to_bytes. rewrite lanes_of_bytes by done. rewrite <- list_fmap_compose.
  rewrite <- (list_fmap_id l) at 2. apply list_fmap_ext. intros i b Hb.
  apply (Forall_lookup_1 _ _ _ _ Hl) in Hb. unfold is_byte in Hb. cbn. lia.
Qed.

Lemma to_bytes_length n x : length (to_bytes n x) = n.
Proof. unfold to_bytes. by rewrite length_fmap, lanes_length. Qed.

Lemma to_bytes_bytes n x : is_bytes (to_bytes n x).
Proof. unfold to_bytes. apply Forall_fmap. apply (Forall_impl _ _ _ (lanes_lt 8 n x)). intros a Ha. unfold is_byte. cbn in *. lia. Qed.

Lemma of_to_bytes n x : (x < 2 ^ (8 * N.of_nat n))%N -> of_bytes (to_bytes n x) = x.
Proof.
  intros Hx. unfold of_bytes, to_bytes. rewrite <- list_fmap_compose.
  rewrite (list_fmap_ext _ id); [|intros; cbn; by rewrite N2Z.id]. rewrite list_fmap_id. by apply of_lanes_lanes.
Qed.

Lemma to_bytes_lxor n x y : to_bytes n (N.lxor x y) = zip_with Z.lxor (to_bytes n x) (to_bytes n y).
Proof.
  unfold to_bytes. rewrite lanes_lxor. generalize (lanes 8 n x) (lanes 8 n y). intros l.
  induction l as [|a l IH]; intros [|b k]; cbn; try done. by rewrite IH, N2Z.inj_lxor.
Qed.

Lemma of_lanes_zeros w l n : of_lanes w (l ++ replicate n 0%N) = of_lanes w l.
Proof.
  assert (of_lanes w (replicate n 0%N) = 0%N) as Hz by (induction n as [|n IH]; [done|]; cbn [replicate of_lanes]; rewrite IH; lia).
  rewrite of_lanes_app, Hz. lia.
Qed.

Lemma of_bytes_zeros l n : of_bytes (l ++ replicate n 0) = of_bytes l.
Proof. unfold of_bytes. rewrite fmap_app, fmap_replicate. apply of_lanes_zeros. Qed.

Lemma lanes_land w n x y : lanes w n (N.land x y) = zip_with N.land (lanes w n x) (lanes w n y).
Proof.
  revert x y. induction n as [|n IH]; intros; [done|]. cbn.
  rewrite <- !N.shiftr_div_pow2, N.shiftr_land, !N.shiftr_div_pow2, IH. f_equal.
  apply N.bits_inj. intros i. rewrite N.land_spec. destruct (decide (i < w)%N).
  - by rewrite !N.mod_pow2_bits_low, N.land_spec.
  - by rewrite !N.mod_pow2_bits_high by lia.
Qed.

Lemma land_lt_pow2 a b k : (a < 2 ^ k -> N.land a b < 2 ^ k)%N.
Proof. rewrite !lt_pow2_bits. intros Ha i Hi. by rewrite N.land_spec, Ha. Qed.

(** A mask keeps the first bytes. *)
Lemma and_mask (v : bytes) (l : nat) :
  is_bytes v -> length v = 16%nat -> (l <= 16)%nat ->
  N.land (of_bytes v) (of_bytes (replicate l 255 ++ replicate (16 - l) 0)) = of_bytes (take l v).
Proof.
  intros Hv Hlen Hl. pose proof (of_bytes_lt v Hv) as Hlt. rewrite Hlen in Hlt.
  rewrite <- (of_lanes_lanes 8 16 (N.land _ _)) by (by apply land_lt_pow2).
  rewrite lanes_land, (lanes_of_bytes 16 v), lanes_of_bytes;
    [|apply Forall_app; split; apply Forall_replicate; done|rewrite length_app, !length_replicate; lia|done|done].
  rewrite <- (of_bytes_zeros (take l v) (16 - l)). unfold of_bytes. f_equal.
  rewrite <- (take_drop l v) at 1. rewrite !fmap_app, zip_with_app by (by rewrite !length_fmap, length_take, length_replicate; lia).
  f_equal.
  - rewrite fmap_replicate. apply Forall_take with (n := l) in Hv. assert (length (take l v) = l) as E by (rewrite length_take; lia).
    revert E. generalize l at 2 4. induction Hv as [|b k Hb _ IH]; intros [|n] E; try done. cbn. rewrite IH by (cbn in E; lia). f_equal.
    unfold is_byte in Hb. change 255%N with (N.ones 8). rewrite N.land_ones. apply N.mod_small. change (2 ^ 8)%N with 256%N. lia.
  - assert (length (drop l v) = (16 - l)%nat) as E by (rewrite length_drop; lia). rewrite !fmap_replicate. revert E.
    generalize (drop l v) (16 - l)%nat. intros k. induction k as [|b k IH]; intros [|n] E; try done. cbn. rewrite IH by (cbn in E; lia). by rewrite N.land_0_r.
Qed.

(** ** Memory *)

Lemma read_length m p n : length (read m p n) = n.
Proof. unfold read. by rewrite length_fmap, length_seq. Qed.

Lemma read_lookup m p n i : (i < n)%nat -> read m p n !! i = Some (m (p + Z.of_nat i)).
Proof. intros Hi. unfold read. by rewrite list_lookup_fmap, lookup_seq_lt. Qed.

Lemma list_eq_read m p n l : length l = n -> (∀ i b, l !! i = Some b -> b = m (p + Z.of_nat i)) -> l = read m p n.
Proof.
  intros Hl H. apply list_eq. intros i. destruct (decide (i < n)%nat) as [Hi|Hi].
  - rewrite read_lookup by done. destruct (l !! i) as [b|] eqn:E; [by rewrite (H _ _ E)|]. apply lookup_ge_None in E. lia.
  - rewrite !lookup_ge_None_2 by (rewrite ?read_length; lia). done.
Qed.

Lemma take_read m p k n : (k <= n)%nat -> take k (read m p n) = read m p k.
Proof.
  intros Hk. apply list_eq_read; [rewrite length_take, read_length; lia|]. intros i b.
  intros [Hb Hi]%lookup_take_Some. rewrite read_lookup in Hb by lia. by inv Hb.
Qed.

Lemma drop_read m p k n : drop k (read m p n) = read m (p + Z.of_nat k) (n - k).
Proof.
  apply list_eq_read; [by rewrite length_drop, read_length|]. intros i b Hb.
  rewrite lookup_drop in Hb. pose proof (lookup_lt_Some _ _ _ Hb) as Hi. rewrite read_length in Hi.
  rewrite read_lookup in Hb by done. inv Hb. f_equal. lia.
Qed.

Lemma read_app m p k n : read m p (k + n) = read m p k ++ read m (p + Z.of_nat k) n.
Proof. rewrite <- (take_drop k (read m p (k + n))), take_read, drop_read by lia. f_equal. f_equal. lia. Qed.

(** Memory holds bytes. *)
Definition byte_memory (m : memory) : Prop := ∀ a, is_byte (m a).

Lemma read_bytes m p n : byte_memory m -> is_bytes (read m p n).
Proof. intros Hm. unfold read. apply Forall_fmap, Forall_true. intros i. apply Hm. Qed.

Section Pages.
Context (mapped : Z -> bool).

(** The pages that hold the bytes are there. *)
Definition pages_mapped (p n : Z) : Prop := ∀ a, p <= a < p + n -> mapped (a / PAGE_SIZE) = true.

Lemma accessible_pages p n : 0 < n -> pages_mapped p n -> accessible mapped p n = true.
Proof. intros Hn Hp. unfold accessible. rewrite !Hp by lia. done. Qed.

(** It is enough that the first and the last byte lie on pages of bytes that are there. *)
Lemma accessible_near p n a b : mapped (a / PAGE_SIZE) = true -> mapped (b / PAGE_SIZE) = true ->
  p / PAGE_SIZE = a / PAGE_SIZE -> (p + n - 1) / PAGE_SIZE = b / PAGE_SIZE -> accessible mapped p n = true.
Proof. intros Ha Hb Hpa Hpb. unfold accessible. by rewrite Hpa, Hpb, Ha, Hb. Qed.

Lemma load_ok m n p : accessible mapped p (Z.of_nat n) = true -> load mapped n p m = (Ok (read m p n), m).
Proof. intros H. unfold load. by rewrite H. Qed.

Lemma loadu_ok m p : accessible mapped p 16 = true -> _mm_loadu_si128 mapped p m = (Ok (of_bytes (read m p 16)), m).
Proof. intros H. unfold _mm_loadu_si128. rewrite M_bind_run, load_ok by done. done. Qed.

Lemma loadu_mapped m p : pages_mapped p 16 -> _mm_loadu_si128 mapped p m = (Ok (of_bytes (read m p 16)), m).
Proof. intros H. apply loadu_ok. by apply accessible_pages. Qed.

Lemma land_15 p : Z.land p 15 = p mod 16.
Proof. change 15 with (Z.ones 4). by rewrite Z.land_ones. Qed.

Lemma mask_table n l : 0 < l <= Z.of_nat n -> (n <= 32)%nat ->
  table_at loadn_mask (32 - l) n = Ok (replicate (Z.to_nat l) 255 ++ replicate (n - Z.to_nat l) 0).
Proof.
  intros Hl Hn. unfold table_at. change (len loadn_mask) with 63. rewrite !(proj2 (Z.leb_le _ _)) by lia. cbn [andb]. f_equal.
  unfold loadn_mask. rewrite drop_app_le, drop_replicate, take_app, take_replicate, take_replicate by (rewrite ?length_replicate; lia).
  rewrite length_replicate. f_equal; f_equal; lia.
Qed.

(** The bytes behind the shift come first. *)
Lemma shuffle_pattern (v : bytes) (s : Z) : is_bytes v -> length v = 16%nat -> 0 <= s < 16 ->
  ∃ pat, table_at loadn_shuffle s 16 = Ok pat ∧
    _mm_shuffle_epi8 (of_bytes v) (of_bytes pat) = of_bytes (drop (Z.to_nat s) v ++ replicate (Z.to_nat s) 0).
Proof.
  intros Hv Hl Hs. unfold _mm_shuffle_epi8, map_lanes, lane. rewrite lanes_of_bytes by done.
  unfold of_bytes at 2. rewrite <- Hl in *. do 16 (destruct v as [|? v]; [done|]). destruct v; [|done].
  assert (s ∈ seqZ 0 16) as Hin by (apply elem_of_seqZ; lia).
  repeat (apply elem_of_cons in Hin as [->|Hin]; [eexists; split; [reflexivity|reflexivity]|]). by apply elem_of_nil in Hin.
Qed.

(** The bytes to the end of the aligned 16, whatever follows. *)
Lemma end_of_page_correct m p l :
  byte_memory m -> 0 < l -> p mod 16 + l <= 16 -> mapped (p / PAGE_SIZE) = true ->
  ∃ v, loadn_end_of_page mapped p l m = (Ok (of_bytes v), m) ∧ is_bytes v ∧ length v = 16%nat ∧ take (Z.to_nat l) v = read m p (Z.to_nat l).
Proof.
  intros Hm Hl Hend Hp. unfold loadn_end_of_page. rewrite land_15. set (s := p mod 16).
  pose proof (Z.mod_pos_bound p 16 ltac:(lia)) as Hs. fold s in Hs.
  assert (accessible mapped (p - s) 16 = true) as Hacc.
  { apply (accessible_near _ _ p p); try done; unfold PAGE_SIZE, s; clear; div_lia. }
  destruct (shuffle_pattern (read m (p - s) 16) s (read_bytes _ _ _ Hm) (read_length _ _ _) Hs) as (pat & Hpat & Hshuf).
  rewrite M_bind_run, Hpat. cbn [lift fmap result_fmap].
  unfold _mm_load_si128. rewrite (proj2 (Z.eqb_eq _ 0)) by (unfold s; clear; div_lia). cbn [negb when].
  rewrite !M_bind_run. cbn [mret M_ret]. rewrite loadu_ok by done. cbn [mret M_ret]. rewrite Hshuf.
  eexists. split; [done|]. split_and!.
  - apply Forall_app. split; [by apply Forall_drop, read_bytes|by apply Forall_replicate].
  - rewrite length_app, length_drop, read_length, length_replicate. lia.
  - rewrite drop_read, take_app_le by (rewrite read_length; lia). rewrite take_read by lia. f_equal. lia.
Qed.

Lemma loadn128_correct m p l :
  byte_memory m -> 0 < l <= 16 -> pages_mapped p l -> loadn128 mapped p l m = (Ok (of_bytes (read m p (Z.to_nat l))), m).
Proof.
  intros Hm Hl Hp. unfold loadn128. rewrite M_bind_run, mask_table by lia. cbn [lift fmap result_fmap].
  rewrite M_bind_run. pose proof (Hp p ltac:(lia)) as Hfirst. pose proof (Hp (p + l - 1) ltac:(lia)) as Hlast.
  assert (∃ v, (if (p mod 4096 <=? 4096 - 16) || (4096 <? p mod 4096 + l) then _mm_loadu_si128 mapped p else loadn_end_of_page mapped p l) m
    = (Ok (of_bytes v), m) ∧ is_bytes v ∧ length v = 16%nat ∧ take (Z.to_nat l) v = read m p (Z.to_nat l)) as (v & -> & Hv & Hlen & Htake).
  { destruct ((p mod 4096 <=? 4096 - 16) || (4096 <? p mod 4096 + l)) eqn:Hcase.
    - exists (read m p 16). rewrite read_length, take_read by lia. split_and!; [|by apply read_bytes|done|done].
      apply loadu_ok. apply orb_true_iff in Hcase. rewrite Z.leb_le, Z.ltb_lt in Hcase. unfold PAGE_SIZE in *.
      destruct Hcase as [Hcase|Hcase]; [apply (accessible_near _ _ p p)|apply (accessible_near _ _ p (p + l - 1))]; try done; unfold PAGE_SIZE; clear - Hcase Hl; div_lia.
    - apply orb_false_iff in Hcase. rewrite Z.leb_gt, Z.ltb_ge in Hcase. apply end_of_page_correct; [done|lia|div_lia|done]. }
  unfold _mm_and_si128. cbn [mret M_ret]. rewrite and_mask by (done || lia). by rewrite Htake.
Qed.

(** The mask of 256 bits, half by half. *)
Lemma mask_halves l : 0 < l <= 32 ->
  ∃ mask, table_at loadn_mask (32 - l) 32 = Ok mask
    ∧ take 16 mask = replicate (Z.to_nat l `min` 16) 255 ++ replicate (16 - Z.to_nat l `min` 16) 0
    ∧ drop 16 mask = replicate (Z.to_nat l - 16) 255 ++ replicate (16 - (Z.to_nat l - 16)) 0.
Proof.
  intros Hl. eexists. split; [by apply mask_table|]. split.
  - rewrite take_app, !take_replicate, length_replicate. f_equal; f_equal; lia.
  - rewrite drop_app, !drop_replicate, length_replicate. f_equal; f_equal; lia.
Qed.

Lemma loadn256_correct undef m p l :
  byte_memory m -> 0 < l <= 32 -> pages_mapped p l ->
  16 <= l ∨ p mod 4096 < 4064 ∨ 4096 < p mod 4096 + l ∨ p mod 16 + l <= 16 ->
  loadn256 mapped undef p l m
  = (Ok (M256 (of_bytes (take 16 (read m p (Z.to_nat l)))) (of_bytes (drop 16 (read m p (Z.to_nat l))))), m).
Proof.
  intros Hm Hl Hp Hgap. unfold loadn256. destruct (mask_halves l Hl) as (mask & Hmask & Hlo & Hhi).
  rewrite M_bind_run, Hmask. cbn [lift]. rewrite Hlo, Hhi, M_bind_run. cbv zeta.
  pose proof (Hp p ltac:(lia)) as Hfirst. pose proof (Hp (p + l - 1) ltac:(lia)) as Hlast. remember (Z.to_nat l) as n eqn:Hn.
  assert (∀ v w, is_bytes v -> length v = 16%nat -> take (n `min` 16) v = take 16 (read m p n) ->
     (N.land w (of_bytes (replicate (n - 16) 255 ++ replicate (16 - (n - 16)) 0)) = of_bytes (drop 16 (read m p n))) ->
     _mm256_and_si256 (M256 (of_bytes v) w) (M256 (of_bytes (replicate (n `min` 16) 255 ++ replicate (16 - n `min` 16) 0))
        (of_bytes (replicate (n - 16) 255 ++ replicate (16 - (n - 16)) 0)))
     = M256 (of_bytes (take 16 (read m p n))) (of_bytes (drop 16 (read m p n)))) as Hand.
  { intros v w Hv Hlen Ht Hw. unfold _mm256_and_si256, both2, _mm_and_si128. cbn [lane0 lane1]. rewrite Hw, and_mask by (done || lia). by rewrite Ht. }
  assert (∀ w, l <= 16 -> N.land w (of_bytes (replicate (n - 16) 255 ++ replicate (16 - (n - 16)) 0)) = of_bytes (drop 16 (read m p n))) as Hnone.
  { clear - Hn. intros w Hle. assert (n - 16 = 0)%nat as -> by lia. rewrite (drop_ge (read m p n)) by (rewrite read_length; lia). apply N.land_0_r. }
  destruct ((p mod 4096 <? 4096 - 32) || (4096 <? p mod 4096 + l)) eqn:Hcase.
  { unfold _mm256_loadu_si256. rewrite M_bind_run, load_ok.
    2: { apply orb_true_iff in Hcase. rewrite !Z.ltb_lt in Hcase. unfold PAGE_SIZE in *.
         destruct Hcase as [Hcase|Hcase]; [apply (accessible_near _ _ p p)|apply (accessible_near _ _ p (p + l - 1))]; try done; unfold PAGE_SIZE; clear - Hcase Hl; div_lia. }
    cbn [mret M_ret]. rewrite take_read, drop_read by (clear; lia).
    rewrite Hand; [done|by apply read_bytes|by rewrite read_length|clear - Hn|].
    - rewrite take_read by lia. destruct (decide (n <= 16)%nat).
      + rewrite (take_ge (read m p n)) by (rewrite read_length; lia). f_equal. lia.
      + rewrite take_read by lia. f_equal. lia.
    - clear - Hm Hn Hl. rewrite and_mask; [|by apply read_bytes|by rewrite read_length|lia]. rewrite drop_read, take_read by lia. done. }
  apply orb_false_iff in Hcase. rewrite !Z.ltb_ge in Hcase. destruct (16 <? l) eqn:Hgt.
  { apply Z.ltb_lt in Hgt. rewrite M_bind_run, loadu_ok by (apply (accessible_near _ _ p p); try done; unfold PAGE_SIZE; clear - Hcase Hgt; div_lia).
    rewrite M_bind_run, loadn128_correct; [|done|lia|]. 2: { intros a Ha. apply Hp. lia. }
    cbn [mret M_ret].
    change (_mm256_permute2f128_si256 (_mm256_castsi128_si256 undef ?x) (_mm256_castsi128_si256 undef ?y) 0x20%N) with (M256 x y).
    rewrite Hand; [done|by apply read_bytes|by rewrite read_length|clear - Hn Hgt|clear - Hm Hn Hgt Hl].
    - rewrite Nat.min_r, take_read, take_read by lia. done.
    - rewrite drop_read. replace (n - 16)%nat with (Z.to_nat (l - 16)) by lia. generalize (read_bytes m (p + 16) (Z.to_nat (l - 16)) Hm).
      pose proof (read_length m (p + 16) (Z.to_nat (l - 16))) as Hlen. change (Z.of_nat 16) with 16.
      generalize dependent (read m (p + 16) (Z.to_nat (l - 16))). intros k Hlen Hk.
      rewrite <- (of_bytes_zeros k (16 - length k)) at 1. rewrite <- Hlen.
      rewrite and_mask; [|apply Forall_app; split; [done|by apply Forall_replicate]|rewrite length_app, length_replicate; lia|lia].
      by rewrite take_app_length. }
  destruct (l =? 16) eqn:Heq.
  { apply Z.eqb_eq in Heq. rewrite M_bind_run, loadu_ok by (apply (accessible_near _ _ p p); try done; unfold PAGE_SIZE; clear - Hcase Heq; div_lia).
    cbn [mret M_ret]. unfold _mm256_castsi128_si256. rewrite Hand; [done|by apply read_bytes|by rewrite read_length| |apply Hnone; by rewrite Heq].
    rewrite Hn, Heq. by rewrite take_read. }
  apply Z.ltb_ge in Hgt. apply Z.eqb_neq in Heq.
  destruct (end_of_page_correct m p l Hm ltac:(clear - Hl; lia) ltac:(clear - Hgap Hcase Hgt Heq; lia) Hfirst) as (v & Hv & Hb & Hlen & Ht).
  rewrite M_bind_run, Hv. cbn [mret M_ret]. unfold _mm256_castsi128_si256. rewrite Hand; [done|done|done| |by apply Hnone].
  clear - Hn Ht Hgt.
  rewrite <- Hn in Ht. rewrite Nat.min_l, Ht, (take_ge (read m p n)) by (rewrite ?read_length; lia). done.
Qed.

End Pages.

(** Five bytes from 20 bytes before the end of a page: the last one is read as zero. *)
Example loadn256_loses_byte :
  (loadn256 (λ _, true) 0 4076 5 (λ _, 7)).1 = Ok (M256 (of_bytes [7; 7; 7; 7; 0]) 0)
  ∧ read (λ _, 7) 4076 5 = [7; 7; 7; 7; 7].
Proof. by vm_compute. Qed.

(** ** Stores *)

Lemma write_byte_memory m p l : byte_memory m -> is_bytes l -> byte_memory (write m p l).
Proof.
  intros Hm Hl a. unfold write. destruct (p <=? a); [|apply Hm]. destruct (l !! _) eqn:E; [|apply Hm]. by apply (Forall_lookup_1 _ _ _ _ Hl E).
Qed.

Lemma write_nil m p a : write m p [] a = m a.
Proof. unfold write. destruct (p <=? a); [|done]. by rewrite lookup_nil. Qed.

(** Memories that hold the same. *)
Definition same_memory (m m' : memory) : Prop := ∀ a, m a = m' a.

#[export] Instance same_memory_equiv : Equivalence same_memory.
Proof. split; [done|by intros m m' H a|intros m m' m'' H H' a; by rewrite H, H']. Qed.

#[export] Instance read_proper : Proper (same_memory ==> eq ==> eq ==> eq) read.
Proof. intros m m' H p ? <- n ? <-. unfold read. apply list_fmap_ext. intros. apply H. Qed.

#[export] Instance write_proper : Proper (same_memory ==> eq ==> eq ==> same_memory) write.
Proof. intros m m' H p ? <- l ? <- a. unfold write. destruct (p <=? a); [|apply H]. destruct (l !! _); [done|apply H]. Qed.

#[export] Instance byte_memory_proper : Proper (same_memory ==> iff) byte_memory.
Proof. intros m m' H. unfold byte_memory. split; intros Hm a; [rewrite <- H|rewrite H]; apply Hm. Qed.

Lemma write_app m p l k : same_memory (write (write m p l) (p + len l) k) (write m p (l ++ k)).
Proof.
  intros a. unfold write, len. destruct (decide (a < p)) as [Hlt|Hge].
  - rewrite !(proj2 (Z.leb_gt _ _)) by lia. done.
  - rewrite (proj2 (Z.leb_le p a)) by lia. destruct (decide (a < p + Z.of_nat (length l))) as [Hin|Hout].
    + rewrite (proj2 (Z.leb_gt _ _)) by lia. by rewrite lookup_app_l by lia.
    + rewrite (proj2 (Z.leb_le _ _)) by lia. rewrite lookup_app_r by lia. rewrite (lookup_ge_None_2 l) by lia.
      replace (Z.to_nat (a - (p + Z.of_nat (length l)))) with (Z.to_nat (a - p) - length l)%nat by lia. done.
Qed.

Lemma read_write_same m p l : read (write m p l) p (length l) = l.
Proof.
  symmetry. apply list_eq_read; [done|]. intros i b Hb. unfold write. rewrite (proj2 (Z.leb_le _ _)) by lia.
  replace (Z.to_nat (p + Z.of_nat i - p)) with i by lia. by rewrite Hb.
Qed.

(** What a write leaves alone. *)
Lemma read_write_other m p l q n : q + Z.of_nat n <= p ∨ p + len l <= q -> read (write m p l) q n = read m q n.
Proof.
  intros Hd. apply list_eq_read; [by rewrite read_length|]. intros i b Hb. pose proof (lookup_lt_Some _ _ _ Hb) as Hi.
  rewrite read_length in Hi. rewrite read_lookup in Hb by done. inv Hb. unfold write, len in *.
  destruct (p <=? q + Z.of_nat i) eqn:E; [|done]. apply Z.leb_le in E. rewrite lookup_ge_None_2; [done|]. lia.
Qed.

Section Stores.
Context (mapped : Z -> bool).

Lemma store_ok m p l : accessible mapped p (len l) = true -> store mapped p l m = (Ok (), write m p l).
Proof. intros H. unfold store. by rewrite H. Qed.

Lemma storeu_ok m p v : pages_mapped mapped p 16 -> _mm_storeu_si128 mapped p v m = (Ok (), write m p (to_bytes 16 v)).
Proof. intros H. unfold _mm_storeu_si128. apply store_ok. unfold len. rewrite to_bytes_length. by apply accessible_pages. Qed.

Lemma store_bytes_ok m p l : pages_mapped mapped p (len l) ->
  ∃ m', store_bytes mapped p l m = (Ok (), m') ∧ same_memory m' (write m p l).
Proof.
  revert m p. induction l as [|b l IH]; intros m p Hp; cbn [store_bytes].
  - exists m. split; [done|]. intros a. by rewrite write_nil.
  - rewrite len_cons in Hp. pose proof (len_nonneg l). rewrite M_bind_run, store_ok by (apply accessible_pages; [done|]; intros a Ha; apply Hp; change (len [b]) with 1 in Ha; lia).
    destruct (IH (write m p [b]) (p + 1)) as (m' & -> & Hm'); [intros a Ha; apply Hp; lia|]. exists m'. split; [done|].
    rewrite Hm'. apply (write_app m p [b] l).
Qed.

Lemma storen128_ok m p l v : (l <= 16)%nat -> pages_mapped mapped p (Z.of_nat l) ->
  ∃ m', storen128 mapped p l v m = (Ok (), m') ∧ same_memory m' (write m p (take l (to_bytes 16 v))).
Proof.
  intros Hl Hp. apply store_bytes_ok. unfold len. rewrite length_take, to_bytes_length, Nat.min_l by done. done.
Qed.

End Stores.
