(* ===== verification/FusionContext.v ===== *)
(** * FusionContext: the contexts of AES-GCM and their tables of powers ([lib/fusion.c])

    A context has the round keys and, behind them, one entry per block that can be hashed with a single
    reduction.  Entry [k] is computed from entry [k - 1] when the context is made or grown; with registers
    of 256 bits two powers share an entry, the odd one first.  [aesgcm_context_ok] is the invariant. *)

From S2P Require Import Prelude Constants Buffer Gf2 Simd FusionGhash FusionAes.
From Stdlib Require Import Ring.

(** The flexible array at the end of the context, by the kind of the context. *)
Inductive ghash_table :=
| Table128 (l : list ghash_precompute128)
| Table256 (l : list ghash_precompute256).

(* src lib/fusion.c:70-96 ptls_fusion_aesgcm_context *)
Record ptls_fusion_aesgcm_context_t := mkGcm {
  ecb : ptls_fusion_aesecb_context_t;
  capacity : Z;
  ghash_cnt : Z;
  ghash : ghash_table;
}.

Definition set_ghash (t : ghash_table) (n : Z) (ctx : ptls_fusion_aesgcm_context_t) : ptls_fusion_aesgcm_context_t :=
  mkGcm (ecb ctx) (capacity ctx) n t.

(** Memory that was allocated and not written. *)
Definition uninit128 : ghash_precompute128 := mkPrecompute128 0 0.
Definition uninit256 : ghash_precompute256 := mkPrecompute256 (M256 0 0) (M256 0 0).

Definition get128 (l : list ghash_precompute128) (i : nat) : ghash_precompute128 := nth i l uninit128.
Definition get256 (l : list ghash_precompute256) (i : nat) : ghash_precompute256 := nth i l uninit256.

(* src lib/fusion.c:1042-1046 aesgcm_calc_ghash_cnt *)
Definition aesgcm_calc_ghash_cnt (capacity : Z) : Z := u64 ((u64 (capacity + 15)) / 16 + 2).

(** [mem[i]] of [H[2]] and [r[2]]. *)
Definition half (x : m256) (i : bool) : m128 := if i then lane1 x else lane0 x.
Definition set_half (x : m256) (i : bool) (v : m128) : m256 := if i then M256 (lane0 x) v else M256 v (lane1 x).

(* src lib/fusion.c:1048-1075 setup_one_ghash_entry *)
Definition setup_one_ghash_entry (ctx : ptls_fusion_aesgcm_context_t) : ptls_fusion_aesgcm_context_t :=
  let i := Z.to_nat (ghash_cnt ctx) in
  match ghash ctx with
  | Table256 l =>
      let slot j := (j / 2, j mod 2 =? 0)%nat in
      let H0 := half (pre_Hx2 (get256 l 0)) true in
      let '(e, b) := slot i in
      let H := match i with O => half (pre_Hx2 (get256 l e)) b | S j => let '(e', b') := slot j in gfmul (half (pre_Hx2 (get256 l e')) b') H0 end in
      let r := _mm_xor_si128 (_mm_shuffle_epi32 H 78) H in
      set_ghash (Table256 (<[e := mkPrecompute256 (set_half (pre_Hx2 (get256 l e)) b H) (set_half (pre_rx2 (get256 l e)) b r)]> l)) (ghash_cnt ctx + 1) ctx
  | Table128 l =>
      let H0 := pre_H (get128 l 0) in
      let H := match i with O => pre_H (get128 l 0) | S j => gfmul (pre_H (get128 l j)) H0 end in
      let r := _mm_xor_si128 (_mm_shuffle_epi32 H 78) H in
      set_ghash (Table128 (<[i := mkPrecompute128 H r]> l)) (ghash_cnt ctx + 1) ctx
  end.

(** [offsetof(struct ..., ghash)] and the sizes of the entries: the round keys (15 registers of 256
    bits), [rounds], [aesni256] and padding are 512 bytes, then [capacity] and [ghash_cnt]. *)
Definition OFFSETOF_GHASH : Z := 544.
Definition SIZEOF_PRECOMPUTE128 : Z := 32.
Definition SIZEOF_PRECOMPUTE256 : Z := 64.

(** The size, and the number of entries, which is made even for 256 bits. *)
(* src lib/fusion.c:1077-1091 calc_aesgcm_context_size *)
Definition calc_aesgcm_context_size (cnt : Z) (aesni : bool) : Z * Z :=
  if aesni then
    let cnt := if cnt mod 2 =? 0 then cnt else cnt + 1 in
    (OFFSETOF_GHASH + SIZEOF_PRECOMPUTE256 * cnt / 2, cnt)
  else (OFFSETOF_GHASH + SIZEOF_PRECOMPUTE128 * cnt, cnt).

(** [while (ctx->ghash_cnt < cnt) setup_one_ghash_entry(ctx);] *)
Definition setup_entries (n : nat) (ctx : ptls_fusion_aesgcm_context_t) : ptls_fusion_aesgcm_context_t := Nat.iter n setup_one_ghash_entry ctx.

Section New.
Context `{Allocator}.

(** What the key slots of fresh memory hold. *)
Context (uninit : ptls_fusion_aesecb_context_t).

(** [Ok None] is NULL. *)
(* src lib/fusion.c:1093-1119 new_aesgcm *)
Definition new_aesgcm (key : bytes) (key_size capacity : Z) (aesni : bool) : result (option ptls_fusion_aesgcm_context_t) :=
  let '(ctx_size, cnt) := calc_aesgcm_context_size (aesgcm_calc_ghash_cnt capacity) aesni in
  match malloc ctx_size with
  | None => Ok None
  | Some _ =>
      ecb ← ptls_fusion_aesecb_init uninit true key key_size aesni;
      let H0 := aesecb_encrypt ecb _mm_setzero_si128 in
      let H0 := _mm_shuffle_epi8 H0 byteswap128 in
      let H0 := transformH H0 in
      let n := Z.to_nat cnt in
      let t := if aesni256 ecb then Table256 (<[0%nat := mkPrecompute256 (M256 0 H0) (M256 0 0)]> (replicate (n / 2) uninit256))
               else Table128 (<[0%nat := mkPrecompute128 H0 0]> (replicate n uninit128)) in
      Ok (Some (setup_entries n (mkGcm ecb capacity 0 t)))
  end.

(* src lib/fusion.c:1121-1124 ptls_fusion_aesgcm_new *)
Definition ptls_fusion_aesgcm_new (key : bytes) (key_size capacity : Z) : result (option ptls_fusion_aesgcm_context_t) :=
  new_aesgcm key key_size capacity false.

(** The entries that were there, and room for more. *)
Definition grow (n : nat) (t : ghash_table) : ghash_table :=
  match t with
  | Table128 l => Table128 (l ++ replicate (n - length l) uninit128)
  | Table256 l => Table256 (l ++ replicate (n / 2 - length l) uninit256)
  end.

(** [None] is NULL; the old context is freed then only if there is a new one. *)
(* src lib/fusion.c:1126-1149 ptls_fusion_aesgcm_set_capacity *)
Definition ptls_fusion_aesgcm_set_capacity (ctx : ptls_fusion_aesgcm_context_t) (capacity : Z) : option ptls_fusion_aesgcm_context_t :=
  let cnt := aesgcm_calc_ghash_cnt capacity in
  if cnt <=? ghash_cnt ctx then Some ctx
  else
    let '(new_size, cnt) := calc_aesgcm_context_size cnt (aesni256 (ecb ctx)) in
    match malloc new_size with
    | None => None
    | Some _ => Some (setup_entries (Z.to_nat (cnt - ghash_cnt ctx)) (mkGcm (ecb ctx) capacity (ghash_cnt ctx) (grow (Z.to_nat cnt) (ghash ctx))))
    end.
End New.

(** The table and the round keys are cleared before the memory is released. *)
(* src lib/fusion.c:1151-1157 ptls_fusion_aesgcm_free *)
Definition ptls_fusion_aesgcm_free (ctx : ptls_fusion_aesgcm_context_t) : bytes :=
  replicate (Z.to_nat (calc_aesgcm_context_size (ghash_cnt ctx) (aesni256 (ecb ctx))).1) 0.

(** ** The invariant *)

(** The hash key of a block cipher. *)
Definition hash_key (E : m128 -> m128) : N := bswap (E 0%N).

(** Entry [e] of 256 bits: the higher power in the lower half. *)
Definition powers256_ok (h : N) (e : nat) (p : ghash_precompute256) : Prop :=
  power_ok h (2 * e + 1) (mkPrecompute128 (lane0 (pre_Hx2 p)) (lane0 (pre_rx2 p)))
  ∧ power_ok h (2 * e) (mkPrecompute128 (lane1 (pre_Hx2 p)) (lane1 (pre_rx2 p))).

Definition aesgcm_context_ok (key : bytes) (ctx : ptls_fusion_aesgcm_context_t) : Prop :=
  keyed_with key (ecb ctx) ∧ 0 <= capacity ctx < 2 ^ 60 ∧ aesgcm_calc_ghash_cnt (capacity ctx) <= ghash_cnt ctx ∧
  match ghash ctx with
  | Table128 l => aesni256 (ecb ctx) = false ∧ len l = ghash_cnt ctx ∧ table_ok (hash_key (AES key)) l
  | Table256 l => aesni256 (ecb ctx) = true ∧ 2 * len l = ghash_cnt ctx ∧ ∀ e p, l !! e = Some p -> powers256_ok (hash_key (AES key)) e p
  end.

Lemma hash_key_lt E : (hash_key E < 2 ^ 128)%N.
Proof. apply bswap_lt. Qed.

(** The next power from the last and the first. *)
Lemma power_next h k a b :
  (h < 2 ^ 128 -> a < 2 ^ 128 -> b < 2 ^ 128 ->
  cong ghash_modulus a (clmul 2 (hpow h k)) -> cong ghash_modulus b (clmul 2 h) ->
  gfmul a b < 2 ^ 128 ∧ cong ghash_modulus (gfmul a b) (clmul 2 (hpow h (S k))))%N.
Proof.
  intros Hh Ha Hb Hca Hcb. destruct (gfmul_correct a b Ha Hb) as [Hlt Hc]. split; [done|].
  apply (cong_cancel_both _ _ _ 128%N); [done|]. rewrite Hc, Hca, Hcb. cbn [hpow]. pose proof (hpow_lt h Hh k) as Hp.
  transitivity (clmul 2 (clmul (2 ^ 128) (gcm_mul (hpow h k) h)))%N; [|exists 0%N; ring].
  rewrite gcm_mul_spec by done. exists 0%N. ring.
Qed.

(** [_r] of an entry. *)
Lemma power_entry h k H : (H < 2 ^ 128)%N -> cong ghash_modulus H (clmul 2 (hpow h k)) ->
  power_ok h k (mkPrecompute128 H (_mm_xor_si128 (_mm_shuffle_epi32 H 78) H)).
Proof. intros HH Hc. by repeat split. Qed.

Section Setup.
Context (h : N) (Hh : (h < 2 ^ 128)%N).

(** The key is in place and the first [i] of [n] entries are set. *)
Definition partial128 (n i : nat) (l : list ghash_precompute128) : Prop :=
  length l = n ∧ (pre_H (get128 l 0) < 2 ^ 128)%N ∧ cong ghash_modulus (pre_H (get128 l 0)) (clmul 2 h) ∧ ∀ k, (k < i)%nat -> power_ok h k (get128 l k).

Lemma setup_step128 n i e c l : partial128 n i l -> (i < n)%nat ->
  ∃ l', setup_one_ghash_entry (mkGcm e c (Z.of_nat i) (Table128 l)) = mkGcm e c (Z.of_nat (S i)) (Table128 l') ∧ partial128 n (S i) l'.
Proof.
  intros (Hl & H0 & Hc & Hk) Hi. unfold setup_one_ghash_entry. cbn [ghash ghash_cnt ecb capacity set_ghash]. rewrite Nat2Z.id.
  set (H := match i with O => _ | S _ => _ end).
  assert ((H < 2 ^ 128)%N ∧ cong ghash_modulus H (clmul 2 (hpow h i))) as [HH HHc].
  { subst H. destruct i as [|j]; [done|]. destruct (Hk j ltac:(lia)) as [[Hj _] Hjc]. by apply power_next. }
  eexists. split; [unfold set_ghash; cbn [ecb capacity]; f_equal; lia|].
  assert (∀ k, get128 (<[i := mkPrecompute128 H (_mm_xor_si128 (_mm_shuffle_epi32 H 78) H)]> l) k
            = if decide (k = i) then mkPrecompute128 H (_mm_xor_si128 (_mm_shuffle_epi32 H 78) H) else get128 l k) as Hget.
  { intros k. unfold get128. rewrite !nth_lookup. case_decide as E; [subst; by rewrite list_lookup_insert_eq by lia|by rewrite list_lookup_insert_ne]. }
  split_and!.
  - by rewrite length_insert.
  - rewrite Hget. case_decide as E; [|done]. done.
  - rewrite Hget. case_decide as E; [|done]. subst i. done.
  - intros k Hk'. rewrite Hget. case_decide as E; [subst; by apply power_entry|]. apply Hk. lia.
Qed.

Lemma setup_all128 n m i e c l : partial128 n i l -> (i + m = n)%nat ->
  ∃ l', setup_entries m (mkGcm e c (Z.of_nat i) (Table128 l)) = mkGcm e c (Z.of_nat n) (Table128 l') ∧ partial128 n n l'.
Proof.
  revert i l. induction m as [|m IH]; intros i l Hp Hn.
  - exists l. replace n with i in * by lia. done.
  - unfold setup_entries. rewrite Nat.iter_succ_r. destruct (setup_step128 n i e c l Hp ltac:(lia)) as (l' & -> & Hp'). apply (IH (S i)); [done|lia].
Qed.

Lemma partial_table l n : partial128 n n l -> len l = Z.of_nat n ∧ table_ok h l.
Proof.
  intros (Hl & _ & _ & Hk). unfold len. split; [by rewrite Hl|]. intros k p Hp. pose proof (lookup_lt_Some _ _ _ Hp).
  specialize (Hk k ltac:(lia)). unfold get128 in Hk. by rewrite (nth_lookup_Some _ _ _ _ Hp) in Hk.
Qed.

(** *** Registers of 256 bits *)

Definition slot256 (l : list ghash_precompute256) (k : nat) : ghash_precompute128 :=
  let p := get256 l (k / 2) in let b := (k mod 2 =? 0)%nat in mkPrecompute128 (half (pre_Hx2 p) b) (half (pre_rx2 p) b).

Definition partial256 (n i : nat) (l : list ghash_precompute256) : Prop :=
  (2 * length l = n)%nat ∧ (pre_H (slot256 l 0) < 2 ^ 128)%N ∧ cong ghash_modulus (pre_H (slot256 l 0)) (clmul 2 h)
  ∧ ∀ k, (k < i)%nat -> power_ok h k (slot256 l k).

Lemma setup_step256 n i e c l : partial256 n i l -> (i < n)%nat ->
  ∃ l', setup_one_ghash_entry (mkGcm e c (Z.of_nat i) (Table256 l)) = mkGcm e c (Z.of_nat (S i)) (Table256 l') ∧ partial256 n (S i) l'.
Proof.
  intros (Hl & H0 & Hc & Hk) Hi. unfold setup_one_ghash_entry. cbn [ghash ghash_cnt ecb capacity set_ghash]. rewrite Nat2Z.id.
  set (H := match i with O => _ | S _ => _ end).
  assert ((H < 2 ^ 128)%N ∧ cong ghash_modulus H (clmul 2 (hpow h i))) as [HH HHc].
  { subst H. destruct i as [|j]; [done|]. destruct (Hk j ltac:(lia)) as [[Hj _] Hjc]. apply power_next; done. }
  eexists. split; [unfold set_ghash; cbn [ecb capacity]; f_equal; lia|].
  set (l' := <[_ := _]> l).
  assert (∀ k, slot256 l' k = if decide (k = i) then mkPrecompute128 H (_mm_xor_si128 (_mm_shuffle_epi32 H 78) H) else slot256 l k) as Hget.
  { intros k. unfold slot256, get256. subst l'. rewrite !nth_lookup. destruct (decide (k / 2 = i / 2)%nat) as [E|E].
    - rewrite E, list_lookup_insert_eq by (clear - Hl Hi; div_lia). cbn [default]. case_decide as E'.
      + subst k. cbn [pre_Hx2 pre_rx2]. by destruct (i mod 2 =? 0)%nat.
      + assert ((k mod 2 =? 0)%nat = negb (i mod 2 =? 0)%nat) as ->.
        { clear - E E'. destruct (Nat.eqb_spec (k mod 2) 0), (Nat.eqb_spec (i mod 2) 0); cbn; try done; exfalso; div_lia. }
        unfold get256. rewrite !nth_lookup. cbn [pre_Hx2 pre_rx2]. by destruct (i mod 2 =? 0)%nat.
    - rewrite list_lookup_insert_ne by done. rewrite decide_False by (intros ->; done). done. }
  split_and!.
  - subst l'. by rewrite length_insert.
  - rewrite Hget. case_decide as E; [|done]. done.
  - rewrite Hget. case_decide as E; [|done]. subst i. done.
  - intros k Hk'. rewrite Hget. case_decide as E; [subst; by apply power_entry|]. apply Hk. lia.
Qed.

Lemma setup_all256 n m i e c l : partial256 n i l -> (i + m = n)%nat ->
  ∃ l', setup_entries m (mkGcm e c (Z.of_nat i) (Table256 l)) = mkGcm e c (Z.of_nat n) (Table256 l') ∧ partial256 n n l'.
Proof.
  revert i l. induction m as [|m IH]; intros i l Hp Hn.
  - exists l. replace n with i in * by lia. done.
  - unfold setup_entries. rewrite Nat.iter_succ_r. destruct (setup_step256 n i e c l Hp ltac:(lia)) as (l' & -> & Hp'). apply (IH (S i)); [done|lia].
Qed.

Lemma partial_powers l n : partial256 n n l -> 2 * len l = Z.of_nat n ∧ ∀ e p, l !! e = Some p -> powers256_ok h e p.
Proof.
  intros (Hl & _ & _ & Hk). unfold len. split; [lia|]. intros e p Hp. pose proof (lookup_lt_Some _ _ _ Hp).
  pose proof (Hk (2 * e + 1)%nat ltac:(lia)) as H1. pose proof (Hk (2 * e)%nat ltac:(lia)) as H0. unfold slot256, get256 in H0, H1.
  replace ((2 * e + 1) / 2)%nat with e in H1 by div_lia. replace (2 * e / 2)%nat with e in H0 by div_lia.
  replace ((2 * e + 1) mod 2)%nat with 1%nat in H1 by div_lia. replace (2 * e mod 2)%nat with 0%nat in H0 by div_lia.
  rewrite (nth_lookup_Some _ _ _ _ Hp) in H0, H1. done.
Qed.

(** *** Tables with room for more *)

Lemma partial128_grow l n : table_ok h l -> (0 < length l <= n)%nat -> partial128 n (length l) (l ++ replicate (n - length l) uninit128).
Proof.
  intros Ht Hl.
  assert (∀ k, (k < length l)%nat -> power_ok h k (get128 (l ++ replicate (n - length l) uninit128) k)) as Hpow.
  { intros k Hk. unfold get128. rewrite app_nth1 by done. by apply table_nth. }
  destruct (Hpow 0%nat ltac:(lia)) as [[H0 _] Hc0]. split; [rewrite length_app, length_replicate; lia|by split].
Qed.

Lemma partial256_grow l n : (∀ e p, l !! e = Some p -> powers256_ok h e p) -> (0 < length l)%nat -> (2 * length l <= n)%nat -> (n mod 2 = 0)%nat ->
  partial256 n (2 * length l) (l ++ replicate (n / 2 - length l) uninit256).
Proof.
  intros Ht Hl Hn Heven.
  assert (∀ k, (k < 2 * length l)%nat -> power_ok h k (slot256 (l ++ replicate (n / 2 - length l) uninit256) k)) as Hpow.
  { intros k Hk. unfold slot256, get256. rewrite app_nth1 by (clear - Hk; div_lia).
    destruct (lookup_lt_is_Some_2 l (k / 2)) as [p Hp]; [clear - Hk; div_lia|]. rewrite (nth_lookup_Some _ _ _ _ Hp).
    destruct (Ht _ _ Hp) as [H1 H0]. destruct (Nat.eqb_spec (k mod 2) 0) as [E|E]; cbn [half].
    - replace (2 * (k / 2))%nat with k in H0 by (clear - E; div_lia). done.
    - replace (2 * (k / 2) + 1)%nat with k in H1 by (clear - E; div_lia). done. }
  destruct (Hpow 0%nat ltac:(lia)) as [[H0 _] Hc0].
  split; [rewrite length_app, length_replicate; clear - Heven Hl Hn; div_lia|by split].
Qed.

End Setup.

(** Enough entries for the blocks of any split of the capacity into additional data and text, and for
    the block of their lengths. *)
Lemma ghash_cnt_enough c a b : 0 <= a -> 0 <= b -> a + b <= c < 2 ^ 60 -> (a + 15) / 16 + (b + 15) / 16 + 1 <= aesgcm_calc_ghash_cnt c.
Proof.
  intros Ha Hb Hc. unfold aesgcm_calc_ghash_cnt. rewrite (u64_small (c + 15)) by lia.
  change (2 ^ 60) with 1152921504606846976 in Hc.
  assert ((c + 15) / 16 < 2 ^ 60) by (change (2 ^ 60) with 1152921504606846976; div_lia).
  rewrite u64_small by (change (2 ^ 60) with 1152921504606846976 in *; split; [div_lia|lia]). div_lia.
Qed.

Lemma calc_ghash_cnt_range c : 0 <= c < 2 ^ 60 -> 2 <= aesgcm_calc_ghash_cnt c < 2 ^ 60.
Proof.
  intros Hc. pose proof (ghash_cnt_enough c 0 c ltac:(lia) ltac:(lia) ltac:(lia)) as H. unfold aesgcm_calc_ghash_cnt in *.
  change (2 ^ 60) with 1152921504606846976 in *. rewrite (u64_small (c + 15)) in * by (cbn; lia).
  rewrite u64_small in * by (split; [div_lia|cbn; div_lia]). div_lia.
Qed.

Lemma calc_ghash_cnt_mono a b : 0 <= a <= b -> b < 2 ^ 60 -> aesgcm_calc_ghash_cnt a <= aesgcm_calc_ghash_cnt b.
Proof.
  intros Ha Hb. unfold aesgcm_calc_ghash_cnt. change (2 ^ 60) with 1152921504606846976 in *. rewrite !(u64_small (_ + 15)) by (cbn; lia).
  rewrite !u64_small by (split; [div_lia|cbn; div_lia]). div_lia.
Qed.

(** The number of entries that is allocated: at least what was asked for, even for 256 bits. *)
Lemma context_size_cnt cnt aesni : 0 <= cnt ->
  let n := (calc_aesgcm_context_size cnt aesni).2 in cnt <= n ∧ (aesni = true -> n mod 2 = 0).
Proof. intros Hc. unfold calc_aesgcm_context_size. destruct aesni; [|cbn; lia]. destruct (Z.eqb_spec (cnt mod 2) 0); cbn [snd]; split; intros; div_lia. Qed.

Section Preserved.
Context `{Allocator}.
Context (uninit : ptls_fusion_aesecb_context_t) (Huninit : length (keys uninit) = KEY_SLOTS).
Context (key : bytes) (Hkey : is_bytes key) (Hsize : (length key = 16 ∨ length key = 32)%nat).

(** The first entry has the hash key, multiplied with [z]. *)
Lemma first_entry c : keyed_with key c ->
  (let H0 := transformH (_mm_shuffle_epi8 (aesecb_encrypt c _mm_setzero_si128) byteswap128) in
   H0 < 2 ^ 128 ∧ cong ghash_modulus H0 (clmul 2 (hash_key (AES key))))%N.
Proof.
  intros Hc. cbv zeta. rewrite shuffle_byteswap, (keyed_encrypts key c) by done. unfold hash_key.
  change _mm_setzero_si128 with 0%N. generalize (bswap_lt (AES key 0%N)). generalize (bswap (AES key 0%N)). exact transformH_correct.
Qed.

Lemma new_aesgcm_ok cap aesni : 0 <= cap < 2 ^ 60 ->
  ∃ r, new_aesgcm uninit key (len key) cap aesni = Ok r ∧ ∀ ctx, r = Some ctx -> aesgcm_context_ok key ctx ∧ capacity ctx = cap ∧ aesni256 (ecb ctx) = aesni.
Proof.
  intros Hcap. unfold new_aesgcm. pose proof (calc_ghash_cnt_range cap Hcap) as Hr.
  pose proof (context_size_cnt (aesgcm_calc_ghash_cnt cap) aesni ltac:(lia)) as Hn. cbv zeta in Hn.
  destruct (calc_aesgcm_context_size _ _) as [sz n]. cbn [snd] in Hn. destruct Hn as [Hn Heven]. destruct (malloc sz) as [x|]; [|by exists None].
  destruct (init_keyed uninit key aesni Hkey Huninit Hsize) as (c & -> & Hk & Hni). cbn [mbind result_bind]. destruct (first_entry c Hk) as [HH Hc].
  cbv zeta. set (H0 := transformH _) in *. rewrite Hni. eexists. split; [done|]. intros ctx Hctx%(inj Some). subst ctx. destruct aesni.
  - specialize (Heven eq_refl). destruct (setup_all256 _ (hash_key_lt (AES key)) (Z.to_nat n) (Z.to_nat n) 0 c cap
      (<[0%nat := mkPrecompute256 (M256 0 H0) (M256 0 0)]> (replicate (Z.to_nat n / 2) uninit256))) as (l & Hl & Hp); [|done|].
    + assert (slot256 (<[0%nat := mkPrecompute256 (M256 0 H0) (M256 0 0)]> (replicate (Z.to_nat n / 2) uninit256)) 0 = mkPrecompute128 H0 0) as E.
      { unfold slot256, get256. change (0 / 2)%nat with 0%nat. rewrite nth_lookup, list_lookup_insert_eq; [done|]. rewrite length_replicate. clear - Hn Hr. div_lia. }
      unfold partial256. rewrite E, length_insert, length_replicate. split_and!; [clear - Heven Hn Hr; div_lia|done|done|intros; lia].
    + change (Z.of_nat 0) with 0 in Hl. rewrite Hl. apply (partial_powers _ (hash_key_lt _)) in Hp as [Hlen Hp]. unfold aesgcm_context_ok. split_and!; cbn [ecb ghash ghash_cnt capacity]; [exact Hk|lia|lia|lia|split; [exact Hni|split; [lia|exact Hp]]|reflexivity|exact Hni].
  - destruct (setup_all128 _ (hash_key_lt (AES key)) (Z.to_nat n) (Z.to_nat n) 0 c cap
      (<[0%nat := mkPrecompute128 H0 0]> (replicate (Z.to_nat n) uninit128))) as (l & Hl & Hp); [|done|].
    + assert (get128 (<[0%nat := mkPrecompute128 H0 0]> (replicate (Z.to_nat n) uninit128)) 0 = mkPrecompute128 H0 0) as E.
      { unfold get128. rewrite nth_lookup, list_lookup_insert_eq; [done|]. rewrite length_replicate. lia. }
      unfold partial128. rewrite E, length_insert, length_replicate. split_and!; [done|done|done|intros; lia].
    + change (Z.of_nat 0) with 0 in Hl. rewrite Hl. apply (partial_table _ (hash_key_lt _)) in Hp as [Hlen Hp]. unfold aesgcm_context_ok. split_and!; cbn [ecb ghash ghash_cnt capacity]; [exact Hk|lia|lia|lia|split; [exact Hni|split; [lia|exact Hp]]|reflexivity|exact Hni].
Qed.

(** A context that is grown keeps the invariant, and can hash more. *)
Lemma set_capacity_ok ctx cap ctx' : aesgcm_context_ok key ctx -> 0 <= cap < 2 ^ 60 ->
  ptls_fusion_aesgcm_set_capacity ctx cap = Some ctx' ->
  aesgcm_context_ok key ctx' ∧ aesgcm_calc_ghash_cnt cap <= ghash_cnt ctx' ∧ ecb ctx' = ecb ctx.
Proof.
  intros (Hk & Hcr & Hcap & Ht) Hc. unfold ptls_fusion_aesgcm_set_capacity. destruct (Z.leb_spec (aesgcm_calc_ghash_cnt cap) (ghash_cnt ctx)) as [Hle|Hgt].
  { intros [= <-]. done. }
  pose proof (calc_ghash_cnt_range cap Hc) as Hr. pose proof (context_size_cnt (aesgcm_calc_ghash_cnt cap) (aesni256 (ecb ctx)) ltac:(lia)) as Hn. cbv zeta in Hn.
  destruct (calc_aesgcm_context_size _ _) as [sz n]. cbn [snd] in Hn. destruct Hn as [Hn Heven]. destruct (malloc sz); [|done].
  intros Hctx%(inj Some). subst ctx'. unfold len in Ht.
  assert (0 < ghash_cnt ctx) as Hpos.
  { pose proof (calc_ghash_cnt_range _ Hcr). lia. }
  destruct (ghash ctx) as [l|l]; destruct Ht as (Hni & Hlen & Htab); cbn [grow].
  - destruct (setup_all128 _ (hash_key_lt (AES key)) (Z.to_nat n) (Z.to_nat (n - ghash_cnt ctx)) (length l) (ecb ctx) cap
      (l ++ replicate (Z.to_nat n - length l) uninit128)) as (l' & Hl & Hp); [apply partial128_grow; [apply hash_key_lt|exact Htab|lia]|lia|].
    rewrite Hlen in Hl. rewrite Hl. apply (partial_table _ (hash_key_lt _)) in Hp as [Hlen' Hp].
    unfold aesgcm_context_ok. split_and!; cbn [ecb ghash ghash_cnt capacity]; [exact Hk|lia|lia|lia|split; [exact Hni|split; [lia|exact Hp]]|lia|reflexivity].
  - specialize (Heven Hni).
    destruct (setup_all256 _ (hash_key_lt (AES key)) (Z.to_nat n) (Z.to_nat (n - ghash_cnt ctx)) (2 * length l) (ecb ctx) cap
      (l ++ replicate (Z.to_nat n / 2 - length l) uninit256)) as (l' & Hl & Hp);
      [apply partial256_grow; [apply hash_key_lt|exact Htab|lia|lia|clear - Heven Hlen Hgt Hn; div_lia]|lia|].
    replace (Z.of_nat (2 * length l)) with (ghash_cnt ctx) in Hl by lia. rewrite Hl. apply (partial_powers _ (hash_key_lt _)) in Hp as [Hlen' Hp].
    unfold aesgcm_context_ok. split_and!; cbn [ecb ghash ghash_cnt capacity]; [exact Hk|lia|lia|lia|split; [exact Hni|split; [lia|exact Hp]]|lia|reflexivity].
Qed.

End Preserved.

(** ** Evaluation *)

(** A context of the key of sixteen zeros. *)
Definition zero_key : bytes := replicate 16 0.

Definition zero_context (cap : Z) (aesni : bool) : ptls_fusion_aesgcm_context_t :=
  match @new_aesgcm bump_allocator ecb0 zero_key 16 cap aesni with Ok (Some ctx) => ctx | _ => mkGcm ecb0 0 0 (Table128 []) end.

Lemma zero_context_ok cap aesni : 0 <= cap < 2 ^ 60 ->
  aesgcm_context_ok zero_key (zero_context cap aesni) ∧ capacity (zero_context cap aesni) = cap ∧ aesni256 (ecb (zero_context cap aesni)) = aesni.
Proof.
  intros Hcap. assert (is_bytes zero_key) as Hk by (by apply Forall_replicate).
  destruct (@new_aesgcm_ok bump_allocator ecb0 eq_refl zero_key Hk (or_introl eq_refl) cap aesni Hcap) as (r & Hr & Hok).
  unfold zero_context. change (len zero_key) with 16 in Hr. rewrite Hr. destruct r as [ctx|]; [by apply Hok|]. exfalso.
  unfold new_aesgcm in Hr. pose proof (calc_ghash_cnt_range cap Hcap) as Hc.
  assert (0 <= (calc_aesgcm_context_size (aesgcm_calc_ghash_cnt cap) aesni).1) as Hsz.
  { pose proof (context_size_cnt (aesgcm_calc_ghash_cnt cap) aesni ltac:(lia)) as Hn. unfold calc_aesgcm_context_size in *. unfold OFFSETOF_GHASH, SIZEOF_PRECOMPUTE256, SIZEOF_PRECOMPUTE128.
    destruct aesni; cbn [fst snd] in *; div_lia. }
  destruct (calc_aesgcm_context_size _ _) as [sz n]. cbn [fst malloc bump_allocator] in *. rewrite (proj2 (Z.leb_le _ _)) in Hr by done.
  by destruct (ptls_fusion_aesecb_init ecb0 true zero_key 16 aesni).
Qed.

Lemma zero_context_room cap aesni n : 0 <= n <= cap -> cap < 2 ^ 60 -> aesgcm_calc_ghash_cnt n <= ghash_cnt (zero_context cap aesni).
Proof.
  intros Hn Hcap. destruct (zero_context_ok cap aesni ltac:(lia)) as ((_ & _ & Hcnt & _) & Hc & _). rewrite Hc in Hcnt.
  pose proof (calc_ghash_cnt_mono n cap ltac:(lia) Hcap). lia.
Qed.
