(* ===== verification/Gcm.v ===== *)
(** * Gcm: Galois/Counter Mode

    The mode of operation of NIST SP 800-38D over a block cipher, with a nonce of 96 bits: what the
    routines of the fusion engine are compared with.  Blocks are registers, the bytes of a block in the
    order of memory; [bswap] gives the number that the first byte leads.  A text is cut into [chunks] of 16
    bytes, of which the last may be shorter, and is then padded with zeros. *)

From S2P Require Import Prelude Gf2 Simd FusionGhash FusionAes FusionLoad.

#[local] Open Scope nat_scope.

Fixpoint chunks_aux (n : nat) (l : bytes) : list bytes :=
  match n with
  | O => []
  | S n => match l with [] => [] | _ => take 16 l :: chunks_aux n (drop 16 l) end
  end.

Definition chunks (l : bytes) : list bytes := chunks_aux (length l) l.

Section Gcm.
Context (E : m128 -> m128).

(** The nonce is in the upper 96 bits of [c0]. *)
Definition counter_block (c0 i : N) : m128 := bswap (c0 + i).

Fixpoint gcm_crypt (c0 i : N) (cs : list bytes) : bytes :=
  match cs with
  | [] => []
  | c :: cs => take (length c) (to_bytes 16 (N.lxor (of_bytes c) (E (counter_block c0 i)))) ++ gcm_crypt c0 (i + 1) cs
  end.

(** GCTR from the second counter on. *)
Definition gctr (c0 : N) (p : bytes) : bytes := gcm_crypt c0 2 (chunks p).

(** The lengths in bits, as 64 bits each. *)
Definition length_block (aadlen clen : nat) : m128 := bswap (8 * N.of_nat clen + 2 ^ 64 * (8 * N.of_nat aadlen)).

Definition gcm_blocks (aad c : bytes) : list m128 :=
  (of_bytes <$> chunks aad) ++ (of_bytes <$> chunks c) ++ [length_block (length aad) (length c)].

Definition gcm_hash (h : N) (aad c : bytes) : N := ghash_from h 0 (bswap <$> gcm_blocks aad c).

Definition gcm_tag (c0 : N) (aad c : bytes) : m128 :=
  N.lxor (bswap (gcm_hash (bswap (E 0)) aad c)) (E (counter_block c0 1)).

(** The ciphertext and the tag. *)
Definition gcm_seal (c0 : N) (aad p : bytes) : bytes := let c := gctr c0 p in c ++ to_bytes 16 (gcm_tag c0 aad c).

Definition gcm_open (c0 : N) (aad c : bytes) (tag : m128) : option bytes :=
  if (gcm_tag c0 aad c =? tag)%N then Some (gctr c0 c) else None.

End Gcm.

Lemma counter_block_eq c0 i : bswap (c0 + i) = counter_block c0 i.
Proof. done. Qed.

(** ** Chunks *)

Lemma chunks_aux_enough n m l : length l <= n -> length l <= m -> chunks_aux n l = chunks_aux m l.
Proof.
  revert m l. induction n as [|n IH]; intros m l Hn Hm; destruct m as [|m]; destruct l as [|b l]; try done; cbn [length] in *; try lia.
  cbn [chunks_aux]. f_equal. apply IH; rewrite length_drop; cbn [length]; lia.
Qed.

Lemma chunks_nil : chunks [] = [].
Proof. done. Qed.

Lemma chunks_cons l : l <> [] -> chunks l = take 16 l :: chunks (drop 16 l).
Proof.
  intros Hl. unfold chunks. destruct l as [|b l]; [done|]. cbn [length chunks_aux]. f_equal.
  apply chunks_aux_enough; rewrite length_drop; cbn [length]; lia.
Qed.

(** Induction on the chunks of a text. *)
Lemma chunks_ind (P : bytes -> Prop) : P [] -> (∀ l, l <> [] -> P (drop 16 l) -> P l) -> ∀ l, P l.
Proof.
  intros H0 Hs l. remember (length l) as n eqn:Hn. revert l Hn. induction n as [n IH] using lt_wf_ind. intros l ->.
  destruct l as [|b l]; [done|]. apply Hs; [done|]. eapply IH; [|done]. rewrite length_drop. cbn [length]. lia.
Qed.

Lemma chunks_small l : 0 < length l <= 16 -> chunks l = [l].
Proof.
  intros Hl. rewrite chunks_cons by (by intros ->; cbn in Hl; lia). rewrite take_ge, drop_ge by lia. done.
Qed.

Lemma chunks_app l k : length l mod 16 = 0 -> chunks (l ++ k) = chunks l ++ chunks k.
Proof.
  revert k. induction l as [|l Hl IH] using chunks_ind; intros k Hm; [done|].
  assert (16 <= length l) as H16 by (destruct l; [done|]; cbn [length] in *; clear - Hm; div_lia).
  rewrite (chunks_cons (l ++ k)) by (by destruct l). rewrite (chunks_cons l) by done.
  rewrite take_app_le, drop_app_le by done. cbn [app]. f_equal. apply IH. rewrite length_drop. clear - Hm H16. div_lia.
Qed.

Lemma chunks_length l : length (chunks l) = (length l + 15) / 16.
Proof.
  induction l as [|l Hl IH] using chunks_ind; [done|]. rewrite chunks_cons by done. cbn [length]. rewrite IH, length_drop.
  assert (0 < length l) as H by (destruct l; [done|cbn; lia]). clear - H. div_lia.
Qed.

Lemma chunks_forall (P : Z -> Prop) l : Forall P l -> Forall (λ c, Forall P c ∧ 0 < length c <= 16) (chunks l).
Proof.
  induction l as [|l Hl IH] using chunks_ind; intros HP; [constructor|]. rewrite chunks_cons by done. constructor; [|by apply IH, Forall_drop].
  split; [by apply Forall_take|]. rewrite length_take. destruct l; [done|]. cbn [length]. lia.
Qed.

Lemma chunks_lookup i : ∀ l, 16 * i < length l -> chunks l !! i = Some (take 16 (drop (16 * i) l)).
Proof.
  induction i as [|i IH]; intros l Hl; rewrite chunks_cons by (by intros ->; cbn in Hl; lia); [done|]. cbn [lookup list_lookup].
  rewrite IH by (rewrite length_drop; lia). rewrite drop_drop. do 3 f_equal. lia.
Qed.

Section Crypt.
Context (E : m128 -> m128).

(** [E c0 i cs] of the chunks of two texts. *)
Lemma gcm_crypt_app c0 i cs ds : gcm_crypt E c0 i (cs ++ ds) = gcm_crypt E c0 i cs ++ gcm_crypt E c0 (i + N.of_nat (length cs)) ds.
Proof.
  revert i. induction cs as [|c cs IH]; intros i; cbn [app gcm_crypt length]; [by rewrite N.add_0_r|].
  rewrite IH, <- app_assoc. do 3 f_equal. lia.
Qed.

Lemma gcm_crypt_length c0 i cs : Forall (λ c, length c <= 16) cs -> length (gcm_crypt E c0 i cs) = length (mjoin cs).
Proof.
  intros Hc. revert i. induction Hc as [|c cs Hc _ IH]; intros i; [done|]. cbn [gcm_crypt mjoin list_join].
  rewrite !length_app, IH, length_take, to_bytes_length, Nat.min_l by done. done.
Qed.

Lemma chunks_join l : mjoin (chunks l) = l.
Proof. induction l as [|l Hl IH] using chunks_ind; [done|]. rewrite chunks_cons by done.
  change (mjoin (?c :: ?cs)) with (c ++ mjoin cs). by rewrite IH, take_drop. Qed.

Lemma chunks_short l : Forall (λ c, length c <= 16) (chunks l).
Proof.
  apply (Forall_impl (λ c, Forall (λ _, True) c ∧ 0 < length c <= 16)); [|intros c [_ H]; lia].
  apply chunks_forall. by apply Forall_true.
Qed.

Lemma gctr_length c0 p : length (gctr E c0 p) = length p.
Proof. unfold gctr. rewrite gcm_crypt_length by apply chunks_short. by rewrite chunks_join. Qed.

(** From the middle of a text on. *)
Lemma gctr_drop c0 p n : n <= length p -> n mod 16 = 0 -> gcm_crypt E c0 (2 + N.of_nat (n / 16)) (chunks (drop n p)) = drop n (gctr E c0 p).
Proof.
  intros Hn Hmod. unfold gctr. rewrite <- (take_drop n p) at 2. assert (length (take n p) = n) as Ht by (rewrite length_take; lia).
  rewrite chunks_app by (by rewrite Ht). rewrite gcm_crypt_app, chunks_length, Ht.
  rewrite drop_app_length' by (rewrite gcm_crypt_length by apply chunks_short; by rewrite chunks_join, Ht).
  f_equal. clear - Hmod. div_lia.
Qed.

Lemma gcm_crypt_bytes c0 i cs : is_bytes (gcm_crypt E c0 i cs).
Proof.
  revert i. induction cs as [|c cs IH]; intros i; [constructor|]. cbn. apply Forall_app. split; [|done]. apply Forall_take, to_bytes_bytes.
Qed.

End Crypt.
