(* ===== verification/FusionIter.v ===== *)
(** * FusionIter: encryption of scattered input, a block at a time ([lib/fusion.c])

    [fusion_aesgcm_encrypt_iter] is the routine behind [do_encrypt_v_s]: one AES block, one block of input,
    one multiplication.  [encrypt_iter_correct] says that it writes the ciphertext and the tag of GCM over
    the concatenation of the buffers, whichever way the input is cut, and writes nothing else. *)

From S2P Require Import Prelude Constants Buffer Gf2 Simd FusionGhash FusionAes FusionLoad FusionContext Gcm.

#[local] Open Scope Z_scope.

Section Iter.
Context (mapped : Z -> bool).

(** The table of a context that is used with registers of 128 bits. *)
Definition table128 (ctx : ptls_fusion_aesgcm_context_t) : list ghash_precompute128 :=
  match ghash ctx with Table128 l => l | Table256 _ => [] end.

(* src lib/fusion.c:448-453 fusion_ghash_update128 *)
Definition fusion_ghash_update128 (ctx : ptls_fusion_aesgcm_context_t) (gstate : gfmul_state128) (block : m128) : gfmul_state128 :=
  gfmul_reduce128 (gfmul_firststep128 gstate block (get128 (table128 ctx) 0)).

(** [(int)n * 8] in a lane of 32 bits. *)
Definition bits32 (n : Z) : N := Z.to_N (u32 (n * 8)).

(** [ac] *)
Definition lengths_register (aadlen inlen : Z) : m128 := _mm_shuffle_epi8 (_mm_set_epi32 0 (bits32 aadlen) 0 (bits32 inlen)) byteswap128.

(** The additional data, a block at a time. *)
Fixpoint iter_aad (fuel : nat) (ctx : ptls_fusion_aesgcm_context_t) (gstate : gfmul_state128) (aad aadlen : Z) : M memory gfmul_state128 :=
  match fuel with
  | O => fail OUT_OF_FUEL
  | S fuel =>
    if 16 <=? aadlen then
      v ← _mm_loadu_si128 mapped aad;
      iter_aad fuel ctx (fusion_ghash_update128 ctx gstate v) (aad + 16) (aadlen - 16)
    else if negb (aadlen =? 0) then v ← loadn128 mapped aad aadlen; mret (fusion_ghash_update128 ctx gstate v)
    else mret gstate
  end.

(** The payload: the hash, and where the output ends. *)
Fixpoint iter_blocks (fuel : nat) (ctx : ptls_fusion_aesgcm_context_t) (gstate : gfmul_state128) (ctr : m128) (input : fusion_input) (dst left : Z)
    : M memory (gfmul_state128 * Z) :=
  match fuel with
  | O => fail OUT_OF_FUEL
  | S fuel =>
    if left =? 0 then mret (gstate, dst)
    else
      let ctr := _mm_add_epi64 ctr one8 in
      let bits := aesecb_encrypt (ecb ctx) (_mm_shuffle_epi8 ctr byteswap128) in
      let '(more, input) := fusion_input_next input in
      if more && (16 <=? fi_len input) then
        v ← _mm_loadu_si128 mapped (fi_ptr input);
        let enc := _mm_xor_si128 v bits in
        _mm_storeu_si128 mapped dst enc;;
        iter_blocks fuel ctx (fusion_ghash_update128 ctx gstate enc) ctr (fusion_input_consume input 16) (dst + 16) (left - 16)
      else
        '(block, input) ← fusion_input_read mapped input (if left <? 16 then left else 16);
        let blocklen := len block in
        when (blocklen =? 0) (fail ABORTED);;
        let enc := _mm_xor_si128 (of_bytes block) bits in
        storen128 mapped dst (Z.to_nat blocklen) enc;;
        let enc := of_bytes (take (Z.to_nat blocklen) (to_bytes 16 enc)) in
        iter_blocks fuel ctx (fusion_ghash_update128 ctx gstate enc) ctr input (dst + blocklen) (left - blocklen)
  end.

(** The loops take a byte at least per round. *)
(* src lib/fusion.c:455-507 fusion_aesgcm_encrypt_iter *)
Definition fusion_aesgcm_encrypt_iter (ctx : ptls_fusion_aesgcm_context_t) (output : Z) (input : fusion_input) (inlen : Z) (ctr : m128) (aad aadlen : Z)
    : M memory unit :=
  when (aesni256 (ecb ctx)) (fail ABORTED);;
  gstate ← iter_aad (S (Z.to_nat aadlen)) ctx gzero aad aadlen;
  let ctr := _mm_insert_epi32 ctr 1 0 in
  let ek0 := aesecb_encrypt (ecb ctx) (_mm_shuffle_epi8 ctr byteswap128) in
  '(gstate, dst) ← iter_blocks (S (Z.to_nat inlen)) ctx gstate ctr input output inlen;
  let gstate := fusion_ghash_update128 ctx gstate (lengths_register aadlen inlen) in
  _mm_storeu_si128 mapped dst (gfmul_get_tag128 gstate ek0).

End Iter.

(** ** Counters and lengths *)

(** The nonce: the counter without its lowest 32 bits. *)
Definition nonce_of (ctr : m128) : N := (2 ^ 32 * (ctr / 2 ^ 32))%N.

Lemma insert_counter ctr v : (ctr < 2 ^ 128 -> v < 2 ^ 32 -> _mm_insert_epi32 ctr v 0 = nonce_of ctr + v)%N.
Proof.
  intros Hc Hv. unfold _mm_insert_epi32, _mm_insert, nonce_of. rewrite (N.mod_small v) by done. change (N.to_nat 0) with 0%nat.
  change (lanes 32 4 ctr) with (ctr mod 2 ^ 32 :: lanes 32 3 (ctr / 2 ^ 32))%N. cbn [insert list_insert].
  change (of_lanes 32 (?a :: ?l)) with (a + 2 ^ 32 * of_lanes 32 l)%N. rewrite of_lanes_lanes by (by apply N.Div0.div_lt_upper_bound). lia.
Qed.

Lemma add_one x : (x < 2 ^ 128 -> x mod 2 ^ 64 + 1 < 2 ^ 64 -> _mm_add_epi64 x one8 = x + 1)%N.
Proof.
  intros Hx Hlo. unfold _mm_add_epi64, zip_lanes. rewrite lanes_64 by done. change (lanes 64 2 one8) with [1; 0]%N. cbn [zip_with of_lanes].
  pose proof (hi64_lt x Hx). rewrite !N.mod_small by (unfold lo64; lia). unfold lo64, hi64.
  rewrite (N.div_mod x (2 ^ 64)) at 3 by done. lia.
Qed.

(** Counters do not reach the nonce. *)
Lemma next_counter ctr i : (ctr < 2 ^ 128 -> i + 1 < 2 ^ 32 -> _mm_add_epi64 (nonce_of ctr + i) one8 = nonce_of ctr + (i + 1))%N.
Proof.
  intros Hc Hi. unfold nonce_of. set (q := (ctr / 2 ^ 32)%N).
  assert (q < 2 ^ 96)%N as Hq by (by apply N.Div0.div_lt_upper_bound).
  rewrite add_one; [lia|change (2 ^ 128)%N with (2 ^ 32 * 2 ^ 96)%N; lia|].
  change (2 ^ 64)%N with 18446744073709551616%N. change (2 ^ 32)%N with 4294967296%N in *. clear - Hi. div_lia.
Qed.

Lemma lengths_register_spec a n : 0 <= a < 2 ^ 29 -> 0 <= n < 2 ^ 29 -> lengths_register a n = length_block (Z.to_nat a) (Z.to_nat n).
Proof.
  intros Ha Hn. unfold lengths_register, length_block, bits32. rewrite shuffle_byteswap. f_equal. rewrite !u32_small by lia.
  unfold _mm_set_epi32. cbn [fmap list_fmap of_lanes]. rewrite !(N.mod_small (Z.to_N _)) by lia. rewrite N.mod_0_l by done. lia.
Qed.

(** ** The reader *)

Section Reader.
Context (mapped : Z -> bool).

Definition vec_bytes (m : memory) (vs : list ptls_iovec_t) : bytes := mjoin ((λ v, read m (base v) (Z.to_nat (iov_len v))) <$> vs).

(** A buffer that is mapped and does not overlap with the bytes from [lo] to [hi]. *)
Definition buffer_ok (lo hi p n : Z) : Prop := 0 <= n ∧ pages_mapped mapped p n ∧ (p + n <= lo ∨ hi <= p).

Definition vec_ok (lo hi : Z) (v : ptls_iovec_t) : Prop := buffer_ok lo hi (base v) (iov_len v).

(** What is still to be read. *)
Definition input_bytes (m : memory) (src : fusion_input) : bytes :=
  read m (fi_ptr src) (Z.to_nat (fi_len src)) ++ vec_bytes m (drop (vec_index src) (fi_vec src)).

Definition input_ok (lo hi : Z) (src : fusion_input) : Prop :=
  (vec_count src = length (fi_vec src) ∧ vec_index src <= vec_count src)%nat ∧ buffer_ok lo hi (fi_ptr src) (fi_len src) ∧ Forall (vec_ok lo hi) (drop (vec_index src) (fi_vec src)).

Lemma vec_bytes_cons m v vs : vec_bytes m (v :: vs) = read m (base v) (Z.to_nat (iov_len v)) ++ vec_bytes m vs.
Proof. done. Qed.

Lemma input_next_loop_spec lo hi m fuel src :
  input_ok lo hi src -> (length (fi_vec src) - vec_index src <= fuel)%nat ->
  let src' := input_next_loop fuel src in
  input_ok lo hi src' ∧ input_bytes m src' = input_bytes m src ∧ (fi_len src' = 0 -> input_bytes m src' = []).
Proof.
  revert src. induction fuel as [|fuel IH]; intros src (Hc & Hb & Hv) Hf; cbn [input_next_loop].
  - split; [done|]. split; [done|]. intros H0. unfold input_bytes. rewrite H0, drop_ge by lia. done.
  - destruct ((fi_len src =? 0) && negb (vec_index src =? vec_count src)%nat) eqn:Hcase.
    + apply andb_true_iff in Hcase as [H0%Z.eqb_eq Hne%negb_true_iff%Nat.eqb_neq].
      destruct (drop (vec_index src) (fi_vec src)) as [|v vs] eqn:Hd.
      { apply (f_equal length) in Hd. rewrite length_drop in Hd. cbn in Hd. lia. }
      assert (fi_vec src !! vec_index src = Some v) as Hlook.
      { rewrite <- (Nat.add_0_r (vec_index src)), <- lookup_drop, Hd. done. }
      rewrite (nth_lookup_Some _ _ _ _ Hlook). apply Forall_cons in Hv as [Hv Hvs].
      assert (drop (S (vec_index src)) (fi_vec src) = vs) as Hd' by (rewrite <- Nat.add_1_r, <- drop_drop, Hd; done).
      edestruct (IH (mkInput (base v) (iov_len v) (fi_vec src) (S (vec_index src)) (vec_count src))) as (Hok & Hbytes & Hend).
      * split; [cbn; lia|]. split; [done|]. cbn [fi_vec vec_index]. by rewrite Hd'.
      * cbn [fi_vec vec_index]. pose proof (lookup_lt_Some _ _ _ Hlook). lia.
      * split; [done|]. split; [|done]. rewrite Hbytes. unfold input_bytes. cbn [fi_ptr fi_len vec_index fi_vec]. by rewrite Hd', Hd, H0.
    + split; [done|]. split; [done|]. intros H0. rewrite H0 in Hcase. cbn in Hcase. apply negb_false_iff, Nat.eqb_eq in Hcase.
      unfold input_bytes. rewrite H0, drop_ge by lia. done.
Qed.

Lemma input_next_spec lo hi m src :
  input_ok lo hi src ->
  let '(more, src') := fusion_input_next src in
  input_ok lo hi src' ∧ input_bytes m src' = input_bytes m src ∧ more = negb (fi_len src' =? 0) ∧ (more = false -> input_bytes m src = []).
Proof.
  intros Hok. unfold fusion_input_next. cbv zeta. pose proof Hok as (Hc & _ & _).
  destruct (input_next_loop_spec lo hi m (vec_count src - vec_index src) src Hok ltac:(lia)) as (Hok' & Hb & Hend).
  split_and!; [done|done|done|]. intros H0%negb_false_iff%Z.eqb_eq. rewrite <- Hb. by apply Hend.
Qed.

(** Taking bytes from the buffer at hand. *)
Lemma input_consume_spec lo hi m src n :
  input_ok lo hi src -> 0 <= n <= fi_len src ->
  input_ok lo hi (fusion_input_consume src n) ∧ input_bytes m src = read m (fi_ptr src) (Z.to_nat n) ++ input_bytes m (fusion_input_consume src n).
Proof.
  intros (Hc & (Hl & Hp & Hd) & Hv) Hn. split.
  - split; [done|]. split; [|done]. split; cbn [fi_ptr fi_len fusion_input_consume]; [lia|]. split; [|lia]. intros a Ha. apply Hp. lia.
  - unfold input_bytes. cbn [fi_vec vec_index vec_count fi_ptr fi_len fusion_input_consume]. rewrite app_assoc. f_equal.
    replace (Z.to_nat (fi_len src)) with (Z.to_nat n + Z.to_nat (fi_len src - n))%nat by lia. rewrite read_app. do 2 f_equal. lia.
Qed.

Lemma input_read_loop_spec lo hi m fuel src dst max :
  input_ok lo hi src -> len dst <= max <= 16 -> (Z.to_nat (max - len dst) < fuel)%nat ->
  ∃ l src', input_read_loop mapped fuel src dst max m = (Ok (dst ++ l, src'), m)
    ∧ input_ok lo hi src' ∧ input_bytes m src = l ++ input_bytes m src' ∧ (len (dst ++ l) = max ∨ input_bytes m src' = []) ∧ len (dst ++ l) <= max.
Proof.
  revert src dst. induction fuel as [|fuel IH]; intros src dst Hok Hmax Hf; [lia|]. cbn [input_read_loop].
  destruct (Z.eqb_spec (len dst) max) as [Heq|Hne].
  { exists [], src. rewrite app_nil_r. split_and!; [done|done|done|by left|lia]. }
  pose proof (input_next_spec lo hi m src Hok) as Hnext. destruct (fusion_input_next src) as [more src1]. destruct Hnext as (Hok1 & Hb1 & Hmore & Hend).
  destruct more; cbn [negb]; [|exists [], src1; rewrite app_nil_r; split_and!; [done|done|done|right; rewrite Hb1; by apply Hend|lia]].
  symmetry in Hmore. apply negb_true_iff, Z.eqb_neq in Hmore. pose proof Hok1 as (_ & (Hl1 & Hp1 & _) & _). set (n := Z.min (max - len dst) (fi_len src1)).
  assert (0 < n <= fi_len src1) as Hn by lia.
  rewrite M_bind_run, load_ok.
  2: { rewrite Z2Nat.id by lia. apply accessible_pages; [lia|]. intros a Ha. apply Hp1. lia. }
  destruct (input_consume_spec lo hi m src1 n Hok1 ltac:(lia)) as [Hok2 Hb2]. set (l1 := read m (fi_ptr src1) (Z.to_nat n)) in *.
  assert (len l1 = n) as Hl1' by (unfold len, l1; rewrite read_length; lia).
  destruct (IH (fusion_input_consume src1 n) (dst ++ l1) Hok2) as (l & src' & Hr & Hok3 & Hb3 & Hfin & Hle); [rewrite len_app; lia|rewrite len_app; lia|].
  exists (l1 ++ l), src'. rewrite Hr, app_assoc. split_and!; [done|done| |done|done]. by rewrite <- Hb1, Hb2, Hb3, app_assoc.
Qed.

(** At most [max] bytes, and less only at the end of the input. *)
Lemma input_read_spec lo hi m src max :
  input_ok lo hi src -> 0 <= max <= 16 ->
  ∃ src', fusion_input_read mapped src max m = (Ok (take (Z.to_nat max) (input_bytes m src), src'), m)
    ∧ input_ok lo hi src' ∧ input_bytes m src' = drop (Z.to_nat max) (input_bytes m src).
Proof.
  intros Hok Hmax. unfold fusion_input_read.
  destruct (input_read_loop_spec lo hi m (S (Z.to_nat max)) src [] max Hok) as (l & src' & -> & Hok' & Hb & Hfin & Hle); [rewrite len_nil; lia..|].
  exists src'. cbn [app] in *. rewrite Hb. unfold len in *. destruct Hfin as [Hl|Hnil].
  - rewrite take_app_length', drop_app_length' by lia. done.
  - rewrite Hnil, app_nil_r, take_ge, drop_ge by lia. done.
Qed.

(** A write elsewhere does not change what is read. *)
Lemma input_bytes_write lo hi m p l src : input_ok lo hi src -> lo <= p -> p + len l <= hi -> input_bytes (write m p l) src = input_bytes m src.
Proof.
  intros (_ & (Hl & _ & Hd) & Hv) Hlo Hhi. unfold input_bytes. f_equal; [apply read_write_other; lia|].
  induction Hv as [|v vs (Hlv & _ & Hdv) _ IH]; [done|]. rewrite !vec_bytes_cons, IH. f_equal. apply read_write_other. lia.
Qed.

#[export] Instance input_bytes_proper : Proper (same_memory ==> eq ==> eq) input_bytes.
Proof.
  intros m m' H src ? <-. unfold input_bytes. f_equal; [by apply read_proper|].
  induction (drop _ _) as [|v vs IH]; [done|]. rewrite !vec_bytes_cons, IH. f_equal. by apply read_proper.
Qed.

End Reader.

(** ** The hash *)

Section Correct.
Context (key : bytes).

Abbreviation E := (AES key).
Abbreviation h := (hash_key (AES key)).

(** A context with a table for registers of 128 bits. *)
Definition context128 (ctx : ptls_fusion_aesgcm_context_t) : Prop :=
  aesgcm_context_ok key ctx ∧ aesni256 (ecb ctx) = false.

Lemma context128_table ctx : context128 ctx ->
  keyed_with key (ecb ctx) ∧ aesni256 (ecb ctx) = false ∧ len (table128 ctx) = ghash_cnt ctx ∧ table_ok h (table128 ctx) ∧ 2 <= ghash_cnt ctx.
Proof.
  intros [(Hk & Hr & Hcnt & Ht) Hni]. unfold table128. pose proof (calc_ghash_cnt_range _ Hr).
  destruct (ghash ctx) as [l|l]; destruct Ht as (Hni' & Hlen & Htab); [|congruence]. split_and!; try done. lia.
Qed.

Definition hash_blocks (y : N) (cs : list bytes) : N := ghash_from h y (bswap <$> (of_bytes <$> cs)).

Lemma hash_blocks_lt y cs : (y < 2 ^ 128)%N -> (hash_blocks y cs < 2 ^ 128)%N.
Proof.
  intros Hy. apply ghash_from_lt; [apply hash_key_lt|done|]. apply Forall_fmap, Forall_true. intros x. apply bswap_lt.
Qed.

Lemma update_spec ctx g x : context128 ctx -> (g_lo g < 2 ^ 128)%N ->
  g_lo (fusion_ghash_update128 ctx g x) = ghash_from h (g_lo g) [bswap x].
Proof.
  intros Hc Hg. destruct (context128_table ctx Hc) as (_ & _ & Hlen & Ht & Hcnt). unfold fusion_ghash_update128.
  apply (group_reduced h (hash_key_lt _) (table128 ctx) g x []); [done| |done]. unfold len in Hlen. cbn [length]. lia.
Qed.

Lemma update_chunk ctx g y c cs : context128 ctx -> (y < 2 ^ 128)%N -> g_lo g = y ->
  hash_blocks (g_lo (fusion_ghash_update128 ctx g (of_bytes c))) cs = hash_blocks y (c :: cs).
Proof. intros Hc Hy <-. unfold hash_blocks. rewrite update_spec by done. cbn [fmap list_fmap]. by rewrite ghash_from_cons. Qed.

(** The first chunk of the ciphertext, and the rest. *)
Lemma crypt_chunks c0 i p : p <> [] ->
  let c1 := take (length (take 16 p)) (to_bytes 16 (N.lxor (of_bytes (take 16 p)) (E (counter_block c0 i)))) in
  gcm_crypt E c0 i (chunks p) = c1 ++ gcm_crypt E c0 (i + 1) (chunks (drop 16 p))
  ∧ chunks (gcm_crypt E c0 i (chunks p)) = c1 :: chunks (gcm_crypt E c0 (i + 1) (chunks (drop 16 p))) ∧ length c1 = length (take 16 p).
Proof.
  intros Hp. cbv zeta. rewrite (chunks_cons p) by done. cbn [gcm_crypt].
  set (c1 := take _ (to_bytes 16 _)). set (rest := gcm_crypt E c0 (i + 1) _).
  assert (length c1 = length (take 16 p)) as Hl1 by (subst c1; rewrite length_take, to_bytes_length, length_take; lia).
  split; [done|]. split; [|done]. assert (0 < length p)%nat by (destruct p; [done|cbn; lia]). rewrite length_take in Hl1.
  destruct (decide (16 <= length p)%nat) as [Hge|Hlt].
  - rewrite chunks_app by (rewrite Hl1, Nat.min_l by lia; done). rewrite chunks_small by lia. done.
  - assert (rest = []) as -> by (subst rest; rewrite drop_ge by lia; done). rewrite app_nil_r, chunks_small by lia. done.
Qed.

Context (mapped : Z -> bool).

Lemma iter_aad_spec ctx fuel m g aad aadlen :
  context128 ctx -> byte_memory m -> (g_lo g < 2 ^ 128)%N -> 0 <= aadlen < Z.of_nat fuel -> pages_mapped mapped aad aadlen ->
  ∃ g', iter_aad mapped fuel ctx g aad aadlen m = (Ok g', m) ∧ g_lo g' = hash_blocks (g_lo g) (chunks (read m aad (Z.to_nat aadlen))).
Proof.
  intros Hc Hm. revert g aad aadlen. induction fuel as [|fuel IH]; intros g aad aadlen Hg Hl Hp; [lia|]. cbn [iter_aad].
  destruct (Z.leb_spec 16 aadlen) as [H16|H16].
  - rewrite M_bind_run, loadu_mapped by (intros a Ha; apply Hp; lia).
    assert (Z.to_nat aadlen = 16 + Z.to_nat (aadlen - 16))%nat as Hsplit by lia. rewrite Hsplit, read_app.
    edestruct (IH (fusion_ghash_update128 ctx g (of_bytes (read m aad 16))) (aad + 16) (aadlen - 16)) as (g' & -> & Hg').
    + rewrite update_spec by done. apply (hash_blocks_lt _ [read m aad 16]). done.
    + lia.
    + intros a Ha. apply Hp. lia.
    + exists g'. split; [done|]. rewrite Hg', (update_chunk ctx g (g_lo g)) by done. f_equal.
      rewrite chunks_app by (by rewrite read_length). rewrite (chunks_small (read m aad 16)) by (rewrite read_length; lia). done.
  - destruct (Z.eqb_spec aadlen 0) as [->|Hne]; cbn [negb].
    + exists g. done.
    + rewrite M_bind_run, loadn128_correct by (done || lia). eexists. split; [done|].
      rewrite chunks_small by (rewrite read_length; lia). by rewrite update_spec.
Qed.


(** ** The payload *)

Lemma xor_stream_lt l v : is_bytes l -> (length l <= 16)%nat -> (N.lxor (of_bytes l) (E v) < 2 ^ 128)%N.
Proof.
  intros Hl Hn. apply lxor_lt_pow2; [|apply AES_lt]. eapply N.lt_le_trans; [by apply of_bytes_lt|]. apply N.pow_le_mono_r; lia.
Qed.

Lemma iter_blocks_spec ctx lo hi fuel ctr :
  context128 ctx -> (ctr < 2 ^ 128)%N -> ∀ m g i input dst left,
  byte_memory m -> (g_lo g < 2 ^ 128)%N -> input_ok mapped lo hi input -> lo <= dst -> dst + left <= hi ->
  len (input_bytes m input) = left -> left < Z.of_nat fuel -> Z.of_N i + left + 1 < 2 ^ 32 -> pages_mapped mapped dst left ->
  let c := gcm_crypt E (nonce_of ctr) (i + 1) (chunks (input_bytes m input)) in
  ∃ g' m', iter_blocks mapped fuel ctx g (nonce_of ctr + i) input dst left m = (Ok (g', dst + left), m')
    ∧ same_memory m' (write m dst c) ∧ g_lo g' = hash_blocks (g_lo g) (chunks c).
Proof.
  intros Hc Hctr. destruct (context128_table ctx Hc) as (Hk & _).
  induction fuel as [|fuel IH]; intros m g i input dst left Hm Hg Hok Hlo Hhi Hlen Hf Hi Hp; pose proof (len_nonneg (input_bytes m input)) as Hnn; [lia|].
  cbn [iter_blocks]. cbv zeta. destruct (Z.eqb_spec left 0) as [->|Hne].
  { apply len_zero in Hlen. rewrite Hlen. cbn. exists g, m. rewrite Z.add_0_r. split_and!; [done| |done]. intros a. by rewrite write_nil. }
  rewrite next_counter, shuffle_byteswap, (keyed_encrypts key) by (done || lia). rewrite (counter_block_eq (nonce_of ctr) (i + 1)).
  pose proof (input_next_spec mapped lo hi m input Hok) as Hnext. destruct (fusion_input_next input) as [more src]. destruct Hnext as (Hok1 & Hb1 & Hmore & _).
  rewrite Hlen in Hnn. rewrite <- Hb1 in Hlen |- *. set (P := input_bytes m src) in *. clear input Hok Hb1.
  assert (P <> []) as HP by (intros E0; rewrite E0, len_nil in Hlen; lia).
  destruct (crypt_chunks (nonce_of ctr) (i + 1) P HP) as (HC & Hchunks & Hl1). set (c1 := take (length (take 16 P)) _) in *.
  rewrite HC in Hchunks. rewrite HC, Hchunks. assert (is_bytes c1) as Hc1 by (apply Forall_take, to_bytes_bytes).
  assert (∀ m1 src' n, byte_memory m1 -> same_memory m1 (write m dst c1) -> input_ok mapped lo hi src' ->
    input_bytes m src' = drop 16 P -> n = len c1 -> ∃ g' m',
     iter_blocks mapped fuel ctx (fusion_ghash_update128 ctx g (of_bytes c1)) (nonce_of ctr + (i + 1)) src' (dst + n) (left - n) m1 = (Ok (g', dst + left), m')
     ∧ same_memory m' (write m dst (c1 ++ gcm_crypt E (nonce_of ctr) (i + 1 + 1) (chunks (drop 16 P))))
     ∧ g_lo g' = hash_blocks (g_lo g) (c1 :: chunks (gcm_crypt E (nonce_of ctr) (i + 1 + 1) (chunks (drop 16 P))))) as Hrest.
  { intros m1 src' n Hm1 Hsame Hok' Hb' ->. unfold len in *. rewrite length_take in Hl1.
    assert (input_bytes m1 src' = drop 16 P) as Hb1.
    { rewrite (input_bytes_proper _ _ Hsame src' src' eq_refl), (input_bytes_write mapped lo hi) by (done || unfold len; lia). done. }
    edestruct (IH m1 (fusion_ghash_update128 ctx g (of_bytes c1)) (i + 1)%N src' (dst + Z.of_nat (length c1)) (left - Z.of_nat (length c1))) as (g' & m' & Hr & Hs & Hh').
    - done.
    - rewrite update_spec by done. by apply (hash_blocks_lt _ [c1]).
    - done.
    - lia.
    - lia.
    - rewrite Hb1, length_drop. lia.
    - lia.
    - lia.
    - intros a Ha. apply Hp. lia.
    - exists g', m'. rewrite Hr. split_and!; [do 3 f_equal; lia| |].
      + rewrite Hs, Hb1, Hsame. apply write_app.
      + rewrite Hh', Hb1. by apply update_chunk. }
  destruct (more && (16 <=? fi_len src)) eqn:Hcase.
  - apply andb_true_iff in Hcase as [_ Hlen16%Z.leb_le]. pose proof Hok1 as (_ & (_ & Hps & _) & _).
    rewrite M_bind_run, loadu_mapped by (intros a Ha; apply Hps; lia).
    destruct (input_consume_spec mapped lo hi m src 16 Hok1 ltac:(lia)) as [Hok2 Hb2]. fold P in Hb2. change (Z.to_nat 16) with 16%nat in Hb2.
    assert (take 16 P = read m (fi_ptr src) 16) as Htake by (rewrite Hb2, take_app_length' by (by rewrite read_length); done).
    assert (c1 = to_bytes 16 (N.lxor (of_bytes (read m (fi_ptr src) 16)) (E (counter_block (nonce_of ctr) (i + 1))))) as Hc1e.
    { subst c1. rewrite Htake, read_length, take_ge by (by rewrite to_bytes_length). done. }
    unfold _mm_xor_si128. rewrite M_bind_run, storeu_ok.
    2: { intros a Ha. apply Hp. assert (16 <= length P)%nat by (rewrite Hb2, length_app, read_length; lia). unfold len in Hlen. lia. }
    rewrite <- Hc1e. replace (N.lxor (of_bytes (read m (fi_ptr src) 16)) (E (counter_block (nonce_of ctr) (i + 1)))) with (of_bytes c1)
      by (rewrite Hc1e, of_to_bytes; [done|]; apply xor_stream_lt; [by apply read_bytes|by rewrite read_length]).
    apply Hrest; [by apply write_byte_memory|done|done| |].
    + rewrite Hb2, drop_app_length' by (by rewrite read_length). done.
    + unfold len. by rewrite Hc1e, to_bytes_length.
  - set (max := if left <? 16 then left else 16).
    assert (0 < max <= 16) as Hmax by (unfold max; destruct (Z.ltb_spec left 16); lia).
    destruct (input_read_spec mapped lo hi m src max Hok1 ltac:(lia)) as (src' & Hr & Hok2 & Hb2). fold P in Hr, Hb2.
    assert (take (Z.to_nat max) P = take 16 P) as Htake.
    { unfold max, len in *. destruct (Z.ltb_spec left 16); [|done]. rewrite !take_ge by lia. done. }
    assert (drop (Z.to_nat max) P = drop 16 P) as Hdrop.
    { unfold max, len in *. destruct (Z.ltb_spec left 16); [|done]. rewrite !drop_ge by lia. done. }
    rewrite M_bind_run, Hr. rewrite Htake in *. cbv zeta.
    assert (0 < len (take 16 P)) as Hpos by (unfold len; rewrite length_take; destruct P; [done|]; cbn [length]; lia).
    rewrite (proj2 (Z.eqb_neq (len (take 16 P)) 0)) by lia. cbn [when].
    rewrite M_bind_run. cbn [mret M_ret]. unfold _mm_xor_si128. rewrite to_nat_len. rewrite M_bind_run.
    destruct (storen128_ok mapped m dst (length (take 16 P)) (N.lxor (of_bytes (take 16 P)) (E (counter_block (nonce_of ctr) (i + 1))))) as (m1 & -> & Hs1).
    { rewrite length_take. lia. }
    { intros a Ha. apply Hp. unfold len in *. rewrite length_take in Ha. lia. }
    fold c1 in Hs1 |- *. apply Hrest; [|done|done|by rewrite Hb2|by unfold len; rewrite Hl1].
    rewrite Hs1. by apply write_byte_memory.
Qed.

(** The last block and the tag. *)
Lemma tag_correct ctx g ctr aad p y :
  context128 ctx -> g_lo g = y -> y = hash_blocks (hash_blocks 0 (chunks aad)) (chunks (gctr E (nonce_of ctr) p)) ->
  gfmul_get_tag128 (fusion_ghash_update128 ctx g (length_block (length aad) (length p))) (E (counter_block (nonce_of ctr) 1))
  = gcm_tag E (nonce_of ctr) aad (gctr E (nonce_of ctr) p).
Proof.
  intros Hc Hg Hy. assert (y < 2 ^ 128)%N as Hlt by (rewrite Hy; by apply hash_blocks_lt, hash_blocks_lt).
  unfold gfmul_get_tag128, gcm_tag, _mm_xor_si128. rewrite shuffle_byteswap, update_spec by (done || by rewrite Hg). rewrite Hg, Hy.
  unfold gcm_hash, gcm_blocks, hash_blocks, hash_key. rewrite !fmap_app, !ghash_from_app, gctr_length. done.
Qed.

End Correct.

(** Encryption of scattered input.  For a context of a key of AES, buffers that are mapped and do not
    overlap with the output, and lengths below 2^28, [fusion_aesgcm_encrypt_iter] ends, reads only pages
    that hold input, and leaves memory as it was but for the output, which is the ciphertext followed by
    the tag of AES-GCM (SP 800-38D) over the concatenation of the buffers. *)
Theorem encrypt_iter_correct mapped key ctx m output vecs inlen ctr aad aadlen :
  context128 key ctx -> byte_memory m -> (ctr < 2 ^ 128)%N ->
  0 <= aadlen < 2 ^ 28 -> pages_mapped mapped aad aadlen ->
  0 <= inlen < 2 ^ 28 -> Forall (vec_ok mapped output (output + inlen + 16)) vecs -> len (vec_bytes m vecs) = inlen ->
  pages_mapped mapped output (inlen + 16) -> 0 <= output ->
  ∃ m', fusion_aesgcm_encrypt_iter mapped ctx output (fusion_input_iovec vecs) inlen ctr aad aadlen m = (Ok (), m')
    ∧ same_memory m' (write m output (gcm_seal (AES key) (nonce_of ctr) (read m aad (Z.to_nat aadlen)) (vec_bytes m vecs))).
Proof.
  intros Hc Hm Hctr Haad Hpa Hin Hvecs Hlen Hpo Hout. destruct (context128_table key ctx Hc) as (Hk & Hni & _).
  unfold fusion_aesgcm_encrypt_iter. rewrite Hni. cbn [when]. rewrite M_bind_run. cbn [mret M_ret].
  destruct (iter_aad_spec key mapped ctx (S (Z.to_nat aadlen)) m gzero aad aadlen Hc Hm) as (g & Hg & Hgl); [done|lia|done|].
  rewrite M_bind_run, Hg. rewrite insert_counter, shuffle_byteswap, (keyed_encrypts key) by done. rewrite (counter_block_eq (nonce_of ctr) 1).
  assert (input_bytes m (fusion_input_iovec vecs) = vec_bytes m vecs) as Hb by done.
  destruct (iter_blocks_spec key mapped ctx output (output + inlen + 16) (S (Z.to_nat inlen)) ctr Hc Hctr m g 1 (fusion_input_iovec vecs) output inlen)
    as (g' & m' & Hr & Hs & Hg'); try done; try lia.
  { rewrite Hgl. by apply hash_blocks_lt. }
  { split; [cbn; lia|]. split; [|done]. cbn. split; [lia|]. split; [intros a Ha; lia|lia]. }
  { intros a Ha. apply Hpo. lia. }
  rewrite M_bind_run, Hr. rewrite Hb in *. cbv zeta. set (P := vec_bytes m vecs) in *. set (A := read m aad (Z.to_nat aadlen)) in *.
  rewrite lengths_register_spec by lia.
  assert (Z.to_nat aadlen = length A ∧ Z.to_nat inlen = length P) as [-> ->] by (subst A; rewrite read_length; unfold len in Hlen; lia).
  rewrite (tag_correct key ctx g' ctr A P (g_lo g')) by (done || by rewrite Hg', Hgl). rewrite storeu_ok by (intros a Ha; apply Hpo; lia).
  eexists. split; [done|]. rewrite Hs. unfold gcm_seal. cbv zeta. fold (gctr (AES key) (nonce_of ctr) P).
  replace (output + inlen) with (output + len (gctr (AES key) (nonce_of ctr) P)) by (unfold len in *; rewrite gctr_length; lia). apply write_app.
Qed.

(** ** Evaluation *)

Definition no_memory : memory := λ a, a mod 251.

Lemma no_memory_bytes : byte_memory no_memory.
Proof. intros a. unfold no_memory, is_byte. pose proof (Z.mod_pos_bound a 251 ltac:(lia)). lia. Qed.

Lemma zero_context128 cap : 0 <= cap < 2 ^ 60 -> context128 zero_key (zero_context cap false).
Proof. intros Hc. destruct (zero_context_ok cap false Hc) as (Hok & _ & Hni). by split. Qed.

(** Three buffers, one of them empty, with blocks across their ends; 13 bytes of additional data. *)
Lemma encrypt_iter_correct_witness :
  let vecs := [mkIovec 100 7; mkIovec 0 0; mkIovec 200 30] in
  ∃ m', fusion_aesgcm_encrypt_iter (λ _, true) (zero_context 100 false) 1000 (fusion_input_iovec vecs) 37 5 300 13 no_memory = (Ok (), m')
    ∧ same_memory m' (write no_memory 1000 (gcm_seal (AES zero_key) (nonce_of 5) (read no_memory 300 13) (vec_bytes no_memory vecs))).
Proof.
  apply (encrypt_iter_correct (λ _, true) zero_key (zero_context 100 false) no_memory 1000 [mkIovec 100 7; mkIovec 0 0; mkIovec 200 30] 37 5 300 13);
    [apply zero_context128; lia|apply no_memory_bytes|reflexivity|lia|intros ? ?; reflexivity|lia| |reflexivity|intros ? ?; reflexivity|lia].
  repeat constructor; cbn; lia.
Defined.
