(* ===== verification/FusionEncrypt.v ===== *)
(** * FusionEncrypt: pipelined encryption ([lib/fusion.c])

    [ptls_fusion_aesgcm_encrypt] encrypts six blocks at a time and hashes, between the rounds of AES, six
    blocks that were encrypted before; the hash is reduced once, at the end.  The last slots of the AES
    pipeline compute the mask of the tag and, for QUIC, the block that hides the packet number, out of
    ciphertext that was just written.  [encrypt_correct]: what is written is AES-GCM. *)

From S2P Require Import Prelude Constants Buffer Gf2 Simd FusionGhash FusionAes FusionLoad FusionContext Gcm FusionIter.

#[local] Open Scope Z_scope.

(** The block to encrypt besides: the round keys of its cipher, where it is, where the result goes. *)
Record fusion_supp := mkFusionSupp { s_ecb : ptls_fusion_aesecb_context_t; s_input : Z; s_output : Z }.

Definition STATE_EK0_BEEN_FED : Z := 0x3.
Definition STATE_EK0_INCOMPLETE : Z := 0x2.
Definition STATE_EK0_READY (state : Z) : bool := Z.land state STATE_EK0_BEEN_FED =? 0x1.
Definition STATE_SUPP_USED : Z := 0x4.
Definition STATE_SUPP_IN_PROCESS : Z := 0x8.

(** The AES pipeline: six registers, and whether the fifth runs with the keys of [supp]. *)
Record aes6 := mkAes6 { a_ctr : m128; a_ek0 : m128; a_bits : list m128; a_supp : bool; a_state : Z }.

(** Where the blocks to be hashed next are: in [gdatabuf], or the six at an address. *)
Inductive gdata := InBuf (l : list m128) | AtDst (p : Z).

Definition gdata_cnt (g : gdata) : nat := match g with InBuf l => length l | AtDst _ => 6 end.

(** The variables of the main loop; [g_pos] is [ghash_precompute - ctx->ghash]. *)
Record enc_locals := mkEnc {
  e_aes : aes6;
  e_gstate : gfmul_state128;
  g_pos : nat;
  e_src : Z; e_dst : Z; e_srclen : Z;
  e_aad : Z; e_aadlen : Z;
  dst_ghash : Z; dst_ghashlen : Z;
  e_gdata : gdata;
}.

Section Encrypt.
Context (mapped : Z -> bool) (ctx : ptls_fusion_aesgcm_context_t) (supp : option fusion_supp).

Definition supp_key (i : nat) : m128 := match supp with Some s => key_m128 (s_ecb s) i | None => 0%N end.

(** ** AES *)

(** Every slot with the round key of its cipher. *)
Definition map_bits (f : m128 -> m128 -> m128) (i : nat) (a : aes6) : aes6 :=
  let k := key_m128 (ecb ctx) i in
  let k4 := if a_supp a then supp_key i else k in
  mkAes6 (a_ctr a) (a_ek0 a) (zip_with f (a_bits a) [k; k; k; k; k4; k]) (a_supp a) (a_state a).

(** The fifth slot for the block of [supp], if the stream does not need it and the sample was hashed. *)
(* src lib/fusion.c:534-538 STATE_SUPP_IN_PROCESS *)
Definition feed_supp (srclen dst_ghash : Z) (bits4 : m128) (s4 : bool) (state : Z) : M memory (m128 * bool * Z) :=
  match supp with
  | Some s =>
      if negb (Z.land state STATE_SUPP_USED =? 0) && (srclen <=? 16 * 4) && (s_input s + 16 <=? dst_ghash) then
        v ← _mm_loadu_si128 mapped (s_input s); mret (v, true, Z.lor state STATE_SUPP_IN_PROCESS)
      else mret (bits4, s4, state)
  | None => mret (bits4, s4, state)
  end.

(* src lib/fusion.c:513-546 AESECB6_INIT *)
Definition AESECB6_INIT (srclen dst_ghash : Z) (a : aes6) : M memory aes6 :=
  let ctr := _mm_add_epi64 (a_ctr a) one8 in let bits0 := _mm_shuffle_epi8 ctr byteswap128 in
  let ctr := _mm_add_epi64 ctr one8 in let bits1 := _mm_shuffle_epi8 ctr byteswap128 in
  let ctr := _mm_add_epi64 ctr one8 in let bits2 := _mm_shuffle_epi8 ctr byteswap128 in
  let ctr := _mm_add_epi64 ctr one8 in let bits3 := _mm_shuffle_epi8 ctr byteswap128 in
  let ctr := _mm_add_epi64 ctr one8 in let bits4 := _mm_shuffle_epi8 ctr byteswap128 in
  let bits5 := nth 5 (a_bits a) 0%N in
  if 16 * 5 <? srclen then
    let ctr := _mm_add_epi64 ctr one8 in let bits5 := _mm_shuffle_epi8 ctr byteswap128 in
    mret (map_bits _mm_xor_si128 0 (mkAes6 ctr (a_ek0 a) [bits0; bits1; bits2; bits3; bits4; bits5] (a_supp a) (a_state a)))
  else
    let '(bits5, state) := if Z.land (a_state a) STATE_EK0_BEEN_FED =? 0 then (a_ek0 a, Z.lor (a_state a) STATE_EK0_BEEN_FED) else (bits5, a_state a) in
    '(bits4, s4, state) ← feed_supp srclen dst_ghash bits4 (a_supp a) state;
    mret (map_bits _mm_xor_si128 0 (mkAes6 ctr (a_ek0 a) [bits0; bits1; bits2; bits3; bits4; bits5] s4 state)).

(* src lib/fusion.c:549-558 AESECB6_UPDATE *)
Definition AESECB6_UPDATE : nat -> aes6 -> aes6 := map_bits _mm_aesenc_si128.

(* src lib/fusion.c:561-570 AESECB6_FINAL *)
Definition AESECB6_FINAL : nat -> aes6 -> aes6 := map_bits _mm_aesenclast_si128.

(** ** Blocks to be hashed *)

(** [gfmul_nextstep128(&gstate, x, --ghash_precompute)] *)
Definition ghash_step (g : gfmul_state128) (pos : nat) (x : m128) : result (gfmul_state128 * nat) :=
  match pos with
  | O => Err OVER_READ
  | S pos => match table128 ctx !! pos with Some e => Ok (gfmul_nextstep128 g x e, pos) | None => Err OVER_READ end
  end.

(** Blocks into [gdatabuf], from the additional data or from the ciphertext: what is left of them, and
    whether the loop was left because they are used up. *)
(* src lib/fusion.c:711-726 GdataFillDST *)
Fixpoint fill_gdata (fuel : nat) (p n : Z) (buf : list m128) : M memory (Z * Z * list m128 * bool) :=
  match fuel with
  | O => fail OUT_OF_FUEL
  | S fuel =>
    if (length buf <? 6)%nat then
      if n <? 16 then
        if negb (n =? 0) then v ← loadn128 mapped p n; mret (p, 0, buf ++ [v], true)
        else mret (p, n, buf, true)
      else
        v ← _mm_loadu_si128 mapped p;
        fill_gdata fuel (p + 16) (n - 16) (buf ++ [v])
    else mret (p, n, buf, false)
  end.

(** *** [/* setup gdata */] *)
(** The flag is [goto Finish]. *)
Definition fill_from (l : enc_locals) (buf : list m128) : M memory (enc_locals * bool) :=
  '(p, n, buf, out) ← fill_gdata 7 (dst_ghash l) (dst_ghashlen l) buf;
  mret (mkEnc (e_aes l) (e_gstate l) (g_pos l) (e_src l) (e_dst l) (e_srclen l) (e_aad l) (e_aadlen l) p n (InBuf buf), out && (length buf <? 6)%nat).

(* src lib/fusion.c:690-728 gdata *)
Definition setup_gdata (l : enc_locals) : M memory (enc_locals * bool) :=
  if negb (e_aadlen l =? 0) then
    '(aad, aadlen, buf, out) ← fill_gdata 7 (e_aad l) (e_aadlen l) [];
    let l := mkEnc (e_aes l) (e_gstate l) (g_pos l) (e_src l) (e_dst l) (e_srclen l) aad aadlen (dst_ghash l) (dst_ghashlen l) (InBuf buf) in
    if out : bool then fill_from l buf else mret (l, false)
  else if 6 * 16 <=? dst_ghashlen l then
    mret (mkEnc (e_aes l) (e_gstate l) (g_pos l) (e_src l) (e_dst l) (e_srclen l) (e_aad l) (e_aadlen l)
            (dst_ghash l + 96) (dst_ghashlen l - 96) (AtDst (dst_ghash l)), false)
  else fill_from l [].

(** ** AES and GHASH together *)

Definition gdata_load (g : gdata) (k : nat) : M memory m128 :=
  match g with InBuf l => mret (nth k l 0%N) | AtDst p => _mm_loadu_si128 mapped (p + 16 * Z.of_nat k) end.

(** [n] blocks from block [k] on, each with round [k + first] of AES. *)
(* src lib/fusion.c:625-629 gfmul_nextstep128 *)
Fixpoint interleave (first n k : nat) (gd : gdata) (a : aes6) (g : gfmul_state128) (pos : nat) : M memory (aes6 * gfmul_state128 * nat) :=
  match n with
  | O => mret (a, g, pos)
  | S n =>
      let a := AESECB6_UPDATE (k + first) a in
      x ← gdata_load gd k;
      '(g, pos) ← lift (ghash_step g pos x);
      interleave first n (S k) gd a g pos
  end.

(** The rounds that are left, and the last one. *)
(* src lib/fusion.c:630-632 AESECB6_FINAL *)
Definition finish_aes (i : nat) (a : aes6) : aes6 :=
  AESECB6_FINAL (i `max` rounds (ecb ctx)) (foldl (λ a i, AESECB6_UPDATE i a) a (seq i (rounds (ecb ctx) - i))).

(** ** Applying the stream *)

(** [APPLY(i)] with a full block. *)
Definition apply_block (src dst : Z) (bits : m128) : M memory unit :=
  v ← _mm_loadu_si128 mapped src; _mm_storeu_si128 mapped dst (_mm_xor_si128 v bits).

Fixpoint apply_six (bits : list m128) (src dst : Z) : M memory unit :=
  match bits with [] => mret () | b :: bits => apply_block src dst b;; apply_six bits (src + 16) (dst + 16) end.

(** [APPLY(0)] to [APPLY(5)], up to [ApplyEnd]. *)
(* src lib/fusion.c:656-682 APPLY *)
Fixpoint apply_some (bits : list m128) (src dst srclen : Z) : M memory (Z * Z * Z) :=
  match bits with
  | [] => mret (src, dst, srclen)
  | b :: bits =>
      if 16 <=? srclen then apply_block src dst b;; apply_some bits (src + 16) (dst + 16) (srclen - 16)
      else if negb (srclen =? 0) then
        v ← loadn128 mapped src srclen;
        storen128 mapped dst (Z.to_nat srclen) (_mm_xor_si128 v b);;
        mret (src, dst + srclen, 0)
      else mret (src, dst, srclen)
  end.

(** What the slots of the tag's mask and of [supp] have computed. *)
Definition collect (a : aes6) : M memory aes6 :=
  let '(ek0, state) := if Z.land (a_state a) STATE_EK0_BEEN_FED =? STATE_EK0_BEEN_FED
                       then (nth 5 (a_bits a) 0%N, Z.land (a_state a) (Z.lnot STATE_EK0_INCOMPLETE)) else (a_ek0 a, a_state a) in
  match supp with
  | Some s =>
      if negb (Z.land state STATE_SUPP_IN_PROCESS =? 0) then
        _mm_storeu_si128 mapped (s_output s) (nth 4 (a_bits a) 0%N);;
        mret (mkAes6 (a_ctr a) ek0 (a_bits a) (a_supp a) (Z.land state (Z.lnot (Z.lor STATE_SUPP_USED STATE_SUPP_IN_PROCESS))))
      else mret (mkAes6 (a_ctr a) ek0 (a_bits a) (a_supp a) state)
  | None => mret (mkAes6 (a_ctr a) ek0 (a_bits a) (a_supp a) state)
  end.

(* src lib/fusion.c:634-683 srclen *)
Definition apply_stream (l : enc_locals) (a : aes6) : M memory (aes6 * (Z * Z * Z)) :=
  if 6 * 16 <=? e_srclen l then
    apply_six (a_bits a) (e_src l) (e_dst l);;
    mret (a, (e_src l + 96, e_dst l + 96, e_srclen l - 96))
  else
    a ← collect a;
    p ← (if negb (e_srclen l =? 0) then apply_some (a_bits a) (e_src l) (e_dst l) (e_srclen l) else mret (e_src l, e_dst l, e_srclen l));
    mret (a, p).

(** A round of the main loop; the flag is [goto Finish]. *)
(* src lib/fusion.c:622-728 MainLoop *)
Definition main_round (l : enc_locals) : M memory (enc_locals * bool) :=
  let n := gdata_cnt (e_gdata l) in
  '(a, g, pos) ← interleave 2 n 0 (e_gdata l) (e_aes l) (e_gstate l) (g_pos l);
  let a := finish_aes (n + 2) a in
  '(a, (src, dst, srclen)) ← apply_stream l a;
  a ← AESECB6_INIT srclen (dst_ghash l) a;
  let a := AESECB6_UPDATE 1 a in
  setup_gdata (mkEnc a g pos src dst srclen (e_aad l) (e_aadlen l) (dst_ghash l) (dst_ghashlen l) (e_gdata l)).

Fixpoint main_loop (fuel : nat) (l : enc_locals) : M memory enc_locals :=
  match fuel with
  | O => fail OUT_OF_FUEL
  | S fuel => '(l, finish) ← main_round l; if finish : bool then mret l else main_loop fuel l
  end.

(** The blocks of [gdatabuf] that are left. *)
Fixpoint ghash_rest (xs : list m128) (g : gfmul_state128) (pos : nat) : result (gfmul_state128 * nat) :=
  match xs with [] => Ok (g, pos) | x :: xs => '(g, pos) ← ghash_step g pos x; ghash_rest xs g pos end.

(** [supp], if it was not done in the pipeline: from round [i] on. *)
(* src lib/fusion.c:744-759 STATE_SUPP_USED *)
Definition finish_supp (a : aes6) : M memory unit :=
  match supp with
  | Some s =>
      if negb (Z.land (a_state a) STATE_SUPP_USED =? 0) then
        '(bits4, i) ← (if Z.land (a_state a) STATE_SUPP_IN_PROCESS =? 0 then v ← _mm_loadu_si128 mapped (s_input s); mret (_mm_xor_si128 v (supp_key 0), 1%nat)
                       else mret (nth 4 (a_bits a) 0%N, 2%nat));
        let bits4 := foldl (λ b i, _mm_aesenc_si128 b (supp_key i)) bits4 (seq i (rounds (ecb ctx) - i)) in
        _mm_storeu_si128 mapped (s_output s) (_mm_aesenclast_si128 bits4 (supp_key (rounds (ecb ctx))))
      else mret ()
  | None => mret ()
  end.

(** Every round of the loop but the last hashes six blocks. *)
(* src lib/fusion.c:509-767 ptls_fusion_aesgcm_encrypt *)
Definition ptls_fusion_aesgcm_encrypt (output input inlen : Z) (ctr : m128) (aad aadlen : Z) : M memory unit :=
  let ac := lengths_register aadlen inlen in
  let blocks := ((aadlen + 15) / 16 + (inlen + 15) / 16 + 1)%Z in
  let state := match supp with Some _ => STATE_SUPP_USED | None => 0 end in
  let ctr := _mm_insert_epi32 ctr 1 0 in
  let ek0 := _mm_shuffle_epi8 ctr byteswap128 in
  a ← AESECB6_INIT inlen output (mkAes6 ctr ek0 (replicate 6 0%N) false state);
  let a := AESECB6_UPDATE 1 a in
  '(aad', aadlen', buf) ← (if negb (aadlen =? 0) then '(p, n, buf, _) ← fill_gdata 7 aad aadlen []; mret (p, n, buf) else mret (aad, aadlen, []));
  l ← main_loop (Z.to_nat blocks + 2) (mkEnc a gzero (Z.to_nat blocks) input output inlen aad' aadlen' output inlen (InBuf buf));
  let buf := match e_gdata l with InBuf buf => buf ++ [ac] | AtDst _ => [ac] end in
  when (negb (STATE_EK0_READY (a_state (e_aes l)))) (fail ABORTED);;
  '(g, _) ← lift (ghash_rest buf (e_gstate l) (g_pos l));
  let g := gfmul_reduce128 g in
  _mm_storeu_si128 mapped (e_dst l) (gfmul_get_tag128 g (a_ek0 (e_aes l)));;
  finish_supp (e_aes l).

End Encrypt.

(** ** Memory, loads and stores *)

Definition apart (p n q k : Z) : Prop := p + n <= q ∨ q + k <= p.

(** A text that is overwritten from its beginning on, or not at all. *)
Definition one_way (src dst n : Z) : Prop := dst <= src ∨ src + n <= dst.

Lemma write_comm mm p l q k : apart p (len l) q (len k) -> same_memory (write (write mm p l) q k) (write (write mm q k) p l).
Proof.
  intros Hap a. unfold write, len, apart in *. destruct (q <=? a) eqn:Eq, (p <=? a) eqn:Ep; try done.
  - apply Z.leb_le in Eq, Ep. destruct (k !! Z.to_nat (a - q)) eqn:E1; [|done]. apply lookup_lt_Some in E1.
    rewrite (lookup_ge_None_2 l) by lia. done.
Qed.

Section Passes.
Context (mapped : Z -> bool).

(** From a text [D] of which memory holds as much as can be needed. *)
Lemma fill_gdata_spec m : byte_memory m -> ∀ fuel p (D : bytes) buf,
  (6 - length buf < fuel)%nat -> (length buf <= 6)%nat -> pages_mapped mapped p (len D) ->
  (∀ n, (n <= length D)%nat -> (n <= 16 * (6 - length buf))%nat -> read m p n = take n D) ->
  ∃ p' j X out, fill_gdata mapped fuel p (len D) buf m = (Ok (p', len D - Z.of_nat j, buf ++ X, out), m)
    ∧ (of_bytes <$> chunks D) = X ++ (of_bytes <$> chunks (drop j D)) ∧ (j <= length D)%nat ∧ (length (buf ++ X) <= 6)%nat
    ∧ ((j < length D)%nat -> p' = p + Z.of_nat j ∧ (j mod 16 = 0)%nat) ∧ p <= p' <= p + Z.of_nat j ∧ (j <= 16 * (6 - length buf))%nat
    ∧ (if out then j = length D else length (buf ++ X) = 6%nat).
Proof.
  intros Hm. induction fuel as [|fuel IH]; intros p D buf Hf Hbuf Hp Hread; [lia|]. cbn [fill_gdata].
  destruct (Nat.ltb_spec (length buf) 6) as [Hlt|Hge].
  2: { exists p, 0%nat, [], false. rewrite app_nil_r, Z.sub_0_r, Z.add_0_r. cbn [drop app]. split_and!; try done; lia. }
  unfold len in *. destruct (Z.ltb_spec (Z.of_nat (length D)) 16) as [Hs|Hs].
  - destruct (Z.eqb_spec (Z.of_nat (length D)) 0) as [H0|H0]; cbn [negb].
    + exists p, 0%nat, [], true. destruct D; [|cbn in H0; lia]. rewrite app_nil_r. cbn [drop app length chunks fmap]. split_and!; try done; try lia.
    + rewrite M_bind_run, loadn128_correct by (done || lia). rewrite Nat2Z.id, Hread by lia. rewrite take_ge by lia.
      exists p, (length D), [of_bytes D], true. cbn [mret M_ret]. rewrite drop_ge, (chunks_small D), Z.sub_diag by lia.
      split_and!; try done; try lia. rewrite length_app; cbn; lia.
  - rewrite M_bind_run, loadu_mapped by (intros a Ha; apply Hp; lia). rewrite Hread by lia.
    destruct (IH (p + 16) (drop 16 D) (buf ++ [of_bytes (take 16 D)])) as (p' & j & X & out & Hr & Hc & Hj & HX & Hp' & Hpp & Hj' & Hout).
    + rewrite length_app. cbn. lia.
    + rewrite length_app. cbn. lia.
    + intros a Ha. rewrite length_drop in Ha. apply Hp. lia.
    + intros n Hn1 Hn2. rewrite length_drop in Hn1. rewrite length_app in Hn2. cbn [length] in Hn2. change 16 with (Z.of_nat 16).
      assert (read m p (16 + n) = take (16 + n) D) as E by (apply Hread; lia). apply (f_equal (drop 16)) in E.
      rewrite drop_read, skipn_firstn_comm in E. replace (16 + n - 16)%nat with n in E by lia. done.
    + rewrite length_drop in *. rewrite <- app_assoc in Hr. rewrite length_app in *. cbn [length app] in *.
      exists p', (16 + j)%nat, (of_bytes (take 16 D) :: X), out.
      replace (Z.of_nat (length D) - 16) with (Z.of_nat (length D - 16)) by lia. rewrite Hr. split_and!.
      * replace (Z.of_nat (length D - 16) - Z.of_nat j) with (Z.of_nat (length D) - Z.of_nat (16 + j)) by lia. done.
      * rewrite chunks_cons by (intros ->; cbn in Hs; lia). cbn [fmap list_fmap app]. rewrite Hc, drop_drop. done.
      * lia.
      * rewrite !length_app in *. cbn [length] in *. lia.
      * intros Hlt'. destruct Hp' as [-> Hmod]; [lia|]. split; [lia|]. clear - Hmod. div_lia.
      * lia.
      * lia.
      * lia.
      * destruct out; [lia|]. rewrite !length_app in *. cbn [length] in *. lia.
Qed.

Lemma apply_six_some bits : ∀ src dst srclen m, 16 * len bits <= srclen ->
  apply_some mapped bits src dst srclen m
  = (apply_six mapped bits src dst;; mret (src + 16 * len bits, dst + 16 * len bits, srclen - 16 * len bits)) m.
Proof.
  induction bits as [|b bits IH]; intros src dst srclen m Hl; cbn [apply_some apply_six].
  - rewrite M_bind_run. cbn [mret M_ret]. rewrite Z.mul_0_r, !Z.add_0_r, Z.sub_0_r. done.
  - rewrite len_cons in *. pose proof (len_nonneg bits). rewrite (proj2 (Z.leb_le _ _)) by lia. rewrite !M_bind_run.
    destruct (apply_block mapped src dst b m) as [[u|e] m1]; [|done]. rewrite IH by lia. rewrite !M_bind_run.
    destruct (apply_six mapped bits (src + 16) (dst + 16) m1) as [[u'|e] m2]; [|done]. match goal with |- mret ?x _ = mret ?y _ => replace y with x; [done|] end. f_equal; [f_equal|]; lia.
Qed.

Context (key : bytes).

Lemma apply_some_spec c0 bits : ∀ m src dst srclen i,
  byte_memory m -> 0 <= srclen -> pages_mapped mapped src srclen -> pages_mapped mapped dst srclen -> one_way src dst srclen ->
  (∀ k b, bits !! k = Some b -> 16 * Z.of_nat k < srclen -> b = AES key (counter_block c0 (i + N.of_nat k))) ->
  let n := srclen `min` (16 * len bits) in
  ∃ m' src', apply_some mapped bits src dst srclen m = (Ok (src', dst + n, srclen - n), m')
    ∧ same_memory m' (write m dst (take (Z.to_nat n) (gcm_crypt (AES key) c0 i (chunks (read m src (Z.to_nat srclen))))))
    ∧ (n < srclen -> src' = src + n).
Proof.
  induction bits as [|b bits IH]; intros m src dst srclen i Hm Hl Hps Hpd Hway Hbits; cbv zeta; cbn [apply_some].
  { change (len (@nil m128)) with 0. rewrite Z.mul_0_r, Z.min_r, Z.add_0_r, Z.sub_0_r by lia. exists m, src. split_and!; [done| |lia]. intros a. by rewrite write_nil. }
  rewrite len_cons. pose proof (len_nonneg bits). set (P := read m src (Z.to_nat srclen)).
  assert (length P = Z.to_nat srclen) as HlP by apply read_length.
  destruct (Z.eqb_spec srclen 0) as [->|H0].
  { rewrite (proj2 (Z.leb_gt 16 0)) by lia. cbn [negb]. rewrite Z.min_l, Z.add_0_r by lia. exists m, src. split_and!; [done| |lia]. intros a. by rewrite write_nil. }
  assert (P <> []) as HP by (intros E0; rewrite E0 in HlP; cbn in HlP; lia).
  destruct (crypt_chunks key c0 i P HP) as (HC & _ & Hl1). set (c1 := take _ _) in HC, Hl1. rewrite HC. rewrite length_take, HlP in Hl1.
  rewrite (Hbits 0%nat b eq_refl ltac:(lia)), N.add_0_r in *. cbn [negb].
  destruct (Z.leb_spec 16 srclen) as [H16|H16].
  - assert (take 16 P = read m src 16) as Ht by (apply take_read; lia).
    assert (c1 = to_bytes 16 (N.lxor (of_bytes (read m src 16)) (AES key (counter_block c0 i)))) as Hc1.
    { subst c1. rewrite Ht, read_length, take_ge by (by rewrite to_bytes_length). done. }
    unfold apply_block, _mm_xor_si128. rewrite !M_bind_run, loadu_mapped by (intros a Ha; apply Hps; lia).
    rewrite storeu_ok by (intros a Ha; apply Hpd; lia). rewrite <- Hc1.
    assert (is_bytes c1) as Hcb by (apply Forall_take, to_bytes_bytes).
    assert (read (write m dst c1) (src + 16) (Z.to_nat (srclen - 16)) = drop 16 P) as Hrest.
    { rewrite read_write_other by (unfold len; rewrite Hl1; destruct Hway; lia). unfold P. rewrite drop_read. f_equal. lia. }
    destruct (IH (write m dst c1) (src + 16) (dst + 16) (srclen - 16) (i + 1)%N) as (m' & src' & -> & Hs & Hsrc).
    + by apply write_byte_memory.
    + lia.
    + intros a Ha. apply Hps. lia.
    + intros a Ha. apply Hpd. lia.
    + destruct Hway; [left|right]; lia.
    + intros k b' Hb' Hk. rewrite (Hbits (S k) b' Hb' ltac:(lia)). do 2 f_equal. lia.
    + exists m', src'. split_and!.
      * do 2 f_equal. f_equal; [f_equal|]; lia.
      * rewrite Hs, Hrest. replace (dst + 16) with (dst + len c1) by (unfold len; lia). rewrite write_app.
        rewrite take_app, (take_ge c1) by lia. replace (Z.to_nat ((srclen - 16) `min` (16 * len bits))) with (Z.to_nat (srclen `min` (16 * (1 + len bits))) - length c1)%nat by lia. done.
      * intros Hn. rewrite Hsrc by lia. lia.
  - rewrite M_bind_run, loadn128_correct by (done || lia). fold P. unfold _mm_xor_si128. rewrite M_bind_run.
    destruct (storen128_ok mapped m dst (Z.to_nat srclen) (N.lxor (of_bytes P) (AES key (counter_block c0 i)))) as (m1 & -> & Hs1); [lia|intros a Ha; apply Hpd; lia|].
    rewrite Z.min_l by lia. exists m1, src. rewrite Z.sub_diag. split_and!; [done| |lia]. rewrite Hs1.
    rewrite (drop_ge P) by lia. cbn [chunks chunks_aux length gcm_crypt]. rewrite app_nil_r, (take_ge c1) by lia.
    subst c1. rewrite (take_ge P), HlP by lia. done.
Qed.

End Passes.

(** ** The rounds of AES *)

Section Correct.
Context (ctx : ptls_fusion_aesgcm_context_t) (supp : option fusion_supp).

(** A block before round [j], with the round keys [K]. *)
Definition rounds_to (K : nat -> m128) (j : nat) (v : m128) : m128 :=
  foldl (λ b i, _mm_aesenc_si128 b (K i)) (_mm_xor_si128 v (K 0%nat)) (seq 1 (j - 1)).

Lemma rounds_to_S K j v : (1 <= j)%nat -> _mm_aesenc_si128 (rounds_to K j v) (K j) = rounds_to K (S j) v.
Proof.
  intros Hj. unfold rounds_to. replace (S j - 1)%nat with (S (j - 1)) by lia. rewrite seq_S, foldl_app. cbn [foldl].
  by replace (1 + (j - 1))%nat with j by lia.
Qed.

Lemma rounds_to_fold K i n v : (1 <= i)%nat -> foldl (λ b i, _mm_aesenc_si128 b (K i)) (rounds_to K i v) (seq i n) = rounds_to K (i + n) v.
Proof.
  revert i. induction n as [|n IH]; intros i Hi; [by rewrite Nat.add_0_r|]. cbn [seq foldl].
  rewrite rounds_to_S, IH by lia. f_equal. lia.
Qed.

Lemma rounds_last c v : aesni256 c = false -> _mm_aesenclast_si128 (rounds_to (key_m128 c) (rounds c) v) (key_m128 c (rounds c)) = aesecb_encrypt c v.
Proof. intros Hni. unfold rounds_to, aesecb_encrypt, ROUNDKEY. by rewrite Hni. Qed.

(** The round keys of the six slots. *)
Definition slot_keys (s : bool) : list (nat -> m128) :=
  let k := key_m128 (ecb ctx) in [k; k; k; k; if s then supp_key supp else k; k].

(** The slots before round [j]. *)
Definition slots (a : aes6) (j : nat) (v : list m128) : Prop :=
  length v = 6%nat ∧ a_bits a = zip_with (λ K x, rounds_to K j x) (slot_keys (a_supp a)) v.

Definition with_bits (b : list m128) (a : aes6) : aes6 := mkAes6 (a_ctr a) (a_ek0 a) b (a_supp a) (a_state a).

Lemma map_bits_with f i a : ∃ b, map_bits ctx supp f i a = with_bits b a.
Proof. by eexists. Qed.

Lemma update_slots j a v : (1 <= j)%nat -> slots a j v -> ∃ b, AESECB6_UPDATE ctx supp j a = with_bits b a ∧ slots (with_bits b a) (S j) v.
Proof.
  intros Hj [Hv Hb]. eexists. split; [done|]. split; [done|]. cbn [a_bits with_bits a_supp]. rewrite Hb. unfold slot_keys.
  do 6 (destruct v as [|? v]; [done|]). destruct v; [|done]. cbn [zip_with]. destruct (a_supp a); by rewrite !rounds_to_S by done.
Qed.

Lemma updates_slots i n a v : (1 <= i)%nat -> slots a i v ->
  ∃ b, foldl (λ a i, AESECB6_UPDATE ctx supp i a) a (seq i n) = with_bits b a ∧ slots (with_bits b a) (i + n) v.
Proof.
  revert i a. induction n as [|n IH]; intros i a Hi Ha.
  - exists (a_bits a). rewrite Nat.add_0_r. by destruct a.
  - cbn [seq foldl]. destruct (update_slots i a v Hi Ha) as (b & -> & Hb). destruct (IH (S i) _ ltac:(lia) Hb) as (b' & -> & Hb').
    exists b'. split; [done|]. by replace (i + S n)%nat with (S i + n)%nat by lia.
Qed.


(** What a slot computes. *)
Definition slot_result (s : bool) (k : nat) (x : m128) : m128 :=
  let K := nth k (slot_keys s) (key_m128 (ecb ctx)) in _mm_aesenclast_si128 (rounds_to K (rounds (ecb ctx)) x) (K (rounds (ecb ctx))).

Lemma finish_slots i a v : (1 <= i <= rounds (ecb ctx))%nat -> slots a i v ->
  ∃ b, finish_aes ctx supp i a = with_bits b a ∧ length b = 6%nat ∧ ∀ k, (k < 6)%nat -> nth k b 0%N = slot_result (a_supp a) k (nth k v 0%N).
Proof.
  intros Hi Ha. unfold finish_aes. destruct (updates_slots i (rounds (ecb ctx) - i) a v ltac:(lia) Ha) as (b & -> & Hv & Hb).
  rewrite Nat.max_r by lia. replace (i + (rounds (ecb ctx) - i))%nat with (rounds (ecb ctx)) in Hb by lia.
  eexists. split; [done|]. cbn [a_bits with_bits a_supp] in *. rewrite Hb. unfold slot_result, slot_keys.
  do 6 (destruct v as [|? v]; [done|]). destruct v; [|done]. split; [done|]. intros k Hk.
  do 6 (destruct k as [|k]; [by destruct (a_supp a)|]). lia.
Qed.

Context (key : bytes) (Hctx : context128 key ctx).

Abbreviation E := (AES key).
Abbreviation h := (hash_key (AES key)).

Lemma slot_stream s k x : (k = 4%nat -> s = false) -> (k < 6)%nat -> slot_result s k x = E x.
Proof.
  intros Hs Hk. destruct (context128_table key ctx Hctx) as (Hkey & Hni & _).
  unfold slot_result. replace (nth k (slot_keys s) (key_m128 (ecb ctx))) with (key_m128 (ecb ctx)).
  - rewrite rounds_last by done. by apply keyed_encrypts.
  - unfold slot_keys. do 6 (destruct k as [|k]; [first [done|by rewrite Hs]|]). lia.
Qed.

(** ** Blocks to be hashed *)

Definition total : nat := length (table128 ctx).

Lemma ghash_step_fed g pos F x : (0 < pos <= total)%nat -> fed g (weighted_at h pos (bswap <$> F)) ->
  ∃ g', ghash_step ctx g pos x = Ok (g', (pos - 1)%nat) ∧ fed g' (weighted_at h (pos - 1) (bswap <$> (F ++ [x]))).
Proof.
  intros Hpos Hg. destruct (context128_table key ctx Hctx) as (_ & _ & _ & Ht & _). destruct pos as [|pos]; [lia|]. cbn [ghash_step].
  destruct (lookup_lt_is_Some_2 (table128 ctx) pos) as [e He]; [unfold total in Hpos; lia|]. rewrite He. replace (S pos - 1)%nat with pos by lia.
  eexists. split; [done|]. rewrite fmap_app, weighted_at_app. cbn [fmap list_fmap length].
  replace (pos + 1)%nat with (S pos) by lia. apply fed_nextstep; [apply hash_key_lt|done|]. by apply Ht.
Qed.


Lemma ghash_rest_spec xs : ∀ g pos F, (length xs <= pos <= total)%nat -> fed g (weighted_at h pos (bswap <$> F)) ->
  ∃ g', ghash_rest ctx xs g pos = Ok (g', (pos - length xs)%nat) ∧ fed g' (weighted_at h (pos - length xs) (bswap <$> (F ++ xs))).
Proof.
  induction xs as [|x xs IH]; intros g pos F Hpos Hg; cbn [length ghash_rest] in *.
  - exists g. by rewrite Nat.sub_0_r, app_nil_r.
  - destruct (ghash_step_fed g pos F x ltac:(lia) Hg) as (g1 & -> & Hg1). cbn [mbind result_bind].
    destruct (IH g1 (pos - 1)%nat (F ++ [x]) ltac:(lia) Hg1) as (g' & -> & Hg').
    exists g'. replace (pos - 1 - length xs)%nat with (pos - S (length xs))%nat in * by lia. split; [done|]. by rewrite <- app_assoc in Hg'.
Qed.

Context (mapped : Z -> bool).

Lemma interleave_spec first gd m v xs : ∀ k a g pos F,
  (1 <= first)%nat -> slots a (k + first) v -> (length xs <= pos <= total)%nat -> fed g (weighted_at h pos (bswap <$> F)) ->
  (∀ i x, xs !! i = Some x -> gdata_load mapped gd (k + i) m = (Ok x, m)) ->
  ∃ b g', interleave mapped ctx supp first (length xs) k gd a g pos m = (Ok (with_bits b a, g', (pos - length xs)%nat), m)
    ∧ slots (with_bits b a) (k + length xs + first) v ∧ fed g' (weighted_at h (pos - length xs) (bswap <$> (F ++ xs))).
Proof.
  induction xs as [|x xs IH]; intros k a g pos F Hf Ha Hpos Hg Hload; cbn [length interleave] in *.
  - exists (a_bits a), g. rewrite Nat.sub_0_r, Nat.add_0_r, app_nil_r. by destruct a.
  - destruct (update_slots (k + first) a v ltac:(lia) Ha) as (b & -> & Hb).
    rewrite M_bind_run. pose proof (Hload 0%nat x eq_refl) as H0. rewrite Nat.add_0_r in H0. rewrite H0.
    destruct (ghash_step_fed g pos F x ltac:(lia) Hg) as (g1 & Hs & Hg1). rewrite M_bind_run, Hs. cbn [lift].
    destruct (IH (S k) (with_bits b a) g1 (pos - 1)%nat (F ++ [x])) as (b' & g' & -> & Hb' & Hg'); [done|done|lia|done| |].
    { intros i y Hy. rewrite Nat.add_succ_comm. by apply Hload. }
    exists b', g'. replace (pos - 1 - length xs)%nat with (pos - S (length xs))%nat in * by lia. split; [done|].
    replace (k + S (length xs))%nat with (S k + length xs)%nat by lia. split; [done|]. by rewrite <- app_assoc in Hg'.
Qed.

(** ** The invariant of the main loop *)

Context (Hkeylen : (length key = 16 ∨ length key = 32)%nat).

Lemma rounds_range : (8 <= rounds (ecb ctx))%nat.
Proof. destruct Hctx as [((Hr & _) & _) _]. rewrite Hr. destruct Hkeylen as [->| ->]; cbn; lia. Qed.

Section Run.
Context (m : memory) (output input inlen aad aadlen : Z) (ctr : m128) (key2 : bytes).

(** The cipher of [supp] has as many rounds; its output is apart from everything else. *)
Definition supp_ok (s : fusion_supp) : Prop :=
  keyed_with key2 (s_ecb s) ∧ aesni256 (s_ecb s) = false ∧ rounds (s_ecb s) = rounds (ecb ctx) ∧
  pages_mapped mapped (s_input s) 16 ∧ pages_mapped mapped (s_output s) 16 ∧
  apart (s_output s) 16 output (inlen + 16) ∧ apart (s_output s) 16 input inlen ∧ apart (s_output s) 16 aad aadlen.

Context (Hm : byte_memory m) (Hctr : (ctr < 2 ^ 128)%N) (Hsupp : ∀ s, supp = Some s -> supp_ok s).
Context (Haad : 0 <= aadlen < 2 ^ 28) (Hin : 0 <= inlen < 2 ^ 28).
Context (Hpa : pages_mapped mapped aad aadlen) (Hpi : pages_mapped mapped input inlen) (Hpo : pages_mapped mapped output (inlen + 16)).
Context (Hway : one_way input output inlen) (Hapart : apart aad aadlen output inlen).
Context (Hcap : (aadlen + 15) / 16 + (inlen + 15) / 16 + 1 <= Z.of_nat total).

Abbreviation c0 := (nonce_of ctr).
Abbreviation ek0_block := (counter_block (nonce_of ctr) 1).
Definition text : bytes := read m input (Z.to_nat inlen).
Definition extra : bytes := read m aad (Z.to_nat aadlen).
Definition sealed_text : bytes := gctr E c0 text.

(** Memory at the end, without the output of [supp]. *)
Definition sealed : memory := write m output (gcm_seal E c0 extra text).

Definition sample (s : fusion_supp) : m128 := of_bytes (read sealed (s_input s) 16).

Inductive ek_phase := EkNot | EkFed | EkReady.
Inductive supp_phase := SuppWaiting | SuppRunning | SuppDone.

Definition ek_code (e : ek_phase) : Z := match e with EkNot => 0 | EkFed => 3 | EkReady => 1 end.
Definition supp_code (u : supp_phase) : Z := match u with SuppWaiting => 4 | SuppRunning => 12 | SuppDone => 0 end.

(** Memory outside of the output. *)
Definition base_of (u : supp_phase) : memory :=
  match supp, u with Some s, SuppDone => write m (s_output s) (to_bytes 16 (AES key2 (sample s))) | _, _ => m end.

(** The output up to [d]. *)
Definition written (u : supp_phase) (d : Z) : memory := write (base_of u) output (take (Z.to_nat d) sealed_text).

(** The pipeline before round [j], with the blocks from [d] on in its slots. *)
Definition pipeline (j : nat) (e : ek_phase) (u : supp_phase) (d : Z) (a : aes6) : Prop :=
  ∃ v, slots a j v ∧ a_state a = ek_code e + supp_code u
  ∧ (∀ k, (k < 6)%nat -> 16 * Z.of_nat k < inlen - d -> nth k v 0%N = counter_block c0 (2 + Z.to_N (d / 16) + N.of_nat k)%N)
  ∧ (80 < inlen - d -> a_ctr a = (c0 + (7 + Z.to_N (d / 16)))%N)
  ∧ match e with
    | EkNot => 80 < inlen - d ∧ a_ek0 a = ek0_block
    | EkFed => inlen - d <= 80 ∧ nth 5 v 0%N = ek0_block
    | EkReady => inlen - d <= 80 ∧ a_ek0 a = E ek0_block
    end
  ∧ match u with
    | SuppWaiting => is_Some supp ∧ a_supp a = false
    | SuppRunning => ∃ s, supp = Some s ∧ a_supp a = true ∧ inlen - d <= 64 ∧ nth 4 v 0%N = sample s
    | SuppDone => supp = None ∧ a_supp a = false ∨ d = inlen
    end.

(** The pipeline when its results have been used. *)
Definition idle (e : ek_phase) (u : supp_phase) (d : Z) (a : aes6) : Prop :=
  a_state a = ek_code e + supp_code u ∧ (d < inlen -> a_ctr a = (c0 + (1 + Z.to_N (d / 16)))%N)
  ∧ match e with EkNot => a_ek0 a = ek0_block | EkFed => False | EkReady => inlen - d <= 80 ∧ a_ek0 a = E ek0_block end
  ∧ match u with
    | SuppWaiting => is_Some supp ∧ a_supp a = false
    | SuppRunning => False
    | SuppDone => supp = None ∧ a_supp a = false ∨ d = inlen
    end.

Lemma sealed_length : length sealed_text = Z.to_nat inlen.
Proof. unfold sealed_text, text. by rewrite gctr_length, read_length. Qed.

Lemma seal_split : gcm_seal E c0 extra text = sealed_text ++ to_bytes 16 (gcm_tag E c0 extra sealed_text).
Proof. done. Qed.

(** What is written before [d] stays. *)
Lemma read_written d p n : 0 <= d <= inlen -> p + Z.of_nat n <= output + d -> read (written SuppWaiting d) p n = read sealed p n.
Proof.
  intros Hd Hp. symmetry. apply list_eq_read; [apply read_length|]. intros i b Hb. pose proof (lookup_lt_Some _ _ _ Hb) as Hi. rewrite read_length in Hi.
  rewrite read_lookup in Hb by done. apply (inj Some) in Hb as <-. unfold sealed, written, write.
  destruct (output <=? p + Z.of_nat i) eqn:E1; [|by unfold base_of; destruct supp]. apply Z.leb_le in E1. rewrite seal_split.
  rewrite lookup_take_lt by lia. rewrite lookup_app_l by (rewrite sealed_length; lia).
  destruct (sealed_text !! Z.to_nat (p + Z.of_nat i - output)) eqn:E2; [done|]. by unfold base_of; destruct supp.
Qed.

Lemma init_slots c e b s st : length b = 6%nat -> slots (map_bits ctx supp _mm_xor_si128 0 (mkAes6 c e b s st)) 1 b.
Proof.
  intros Hb. split; [done|]. do 6 (destruct b as [|? b]; [done|]). destruct b; [|done]. by destruct s.
Qed.

(** *** The flags *)

Abbreviation code e u := (ek_code e + supp_code u).

Lemma code_ek e u : Z.land (code e u) STATE_EK0_BEEN_FED = ek_code e.
Proof. by destruct e, u. Qed.
Lemma code_feed u : Z.lor (code EkNot u) STATE_EK0_BEEN_FED = code EkFed u.
Proof. by destruct u. Qed.
Lemma code_ready u : Z.land (code EkFed u) (Z.lnot STATE_EK0_INCOMPLETE) = code EkReady u.
Proof. by destruct u. Qed.
Lemma code_used e u : (Z.land (code e u) STATE_SUPP_USED =? 0) = match u with SuppDone => true | _ => false end.
Proof. by destruct e, u. Qed.
Lemma code_run e : Z.lor (code e SuppWaiting) STATE_SUPP_IN_PROCESS = code e SuppRunning.
Proof. by destruct e. Qed.
Lemma code_running e u : (Z.land (code e u) STATE_SUPP_IN_PROCESS =? 0) = match u with SuppRunning => false | _ => true end.
Proof. by destruct e, u. Qed.
Lemma code_done e : Z.land (code e SuppRunning) (Z.lnot (Z.lor STATE_SUPP_USED STATE_SUPP_IN_PROCESS)) = code e SuppDone.
Proof. by destruct e. Qed.

Lemma counter_register i : (i < 2 ^ 32)%N -> _mm_shuffle_epi8 (c0 + i)%N byteswap128 = counter_block c0 i.
Proof. intros _. rewrite shuffle_byteswap. apply counter_block_eq. Qed.

Lemma tick c i : c = (c0 + i)%N -> (i + 1 < 2 ^ 32)%N -> _mm_add_epi64 c one8 = (c0 + (i + 1))%N.
Proof. intros -> Hi. by apply next_counter. Qed.

Lemma feed_supp_spec e u d g x4 s4 mem : 0 <= d <= inlen -> same_memory mem (written u d) -> g <= output + d ->
  match u with SuppWaiting => is_Some supp ∧ s4 = false | SuppRunning => False | SuppDone => supp = None ∧ s4 = false ∨ d = inlen end ->
  ∃ x4' s4' u', feed_supp mapped supp (inlen - d) g x4 s4 (code e u) mem = (Ok (x4', s4', code e u'), mem) ∧ base_of u' = base_of u
    ∧ (64 < inlen - d -> x4' = x4)
    ∧ match u' with
      | SuppWaiting => is_Some supp ∧ s4' = false
      | SuppRunning => ∃ s, supp = Some s ∧ s4' = true ∧ inlen - d <= 64 ∧ x4' = sample s
      | SuppDone => supp = None ∧ s4' = false ∨ d = inlen
      end.
Proof.
  intros Hd Hmem Hg Hu. unfold feed_supp. case_eq supp; [intros s Hs|intros Hs].
  2: { exists x4, s4, u. split_and!; [done|done|done|]. destruct u; [destruct Hu as [[? ?] _]; congruence|done|destruct Hu as [[_ ?]|?]; [by left|by right]]. }
  rewrite code_used. destruct u; [|done|]; cbn [negb andb].
  - destruct ((inlen - d <=? 16 * 4) && (s_input s + 16 <=? g)) eqn:Hcond.
    + apply andb_true_iff in Hcond as [H64%Z.leb_le Hg'%Z.leb_le]. destruct (Hsupp s Hs) as (_ & _ & _ & Hps & _).
      rewrite M_bind_run, loadu_mapped by done. rewrite code_run. eexists _, _, SuppRunning. split; [done|].
      split_and!; [unfold base_of; by rewrite Hs|lia|]. exists s. split_and!; [done|done|lia|]. unfold sample. f_equal.
      rewrite (read_proper _ _ Hmem _ _ eq_refl _ _ eq_refl). apply read_written; lia.
    + exists x4, s4, SuppWaiting. split_and!; try done. apply Hu.
  - exists x4, s4, SuppDone. split_and!; [done|done|done|]. destruct Hu as [[? ?]|?]; [congruence|by right].
Qed.

(** Filling the pipeline. *)
Lemma init_spec e u d g a mem :
  0 <= d <= inlen -> idle e u d a -> same_memory mem (written u d) -> g <= output + d ->
  ∃ e' u' a', AESECB6_INIT mapped ctx supp (inlen - d) g a mem = (Ok a', mem) ∧ pipeline 1 e' u' d a'
    ∧ base_of u' = base_of u ∧ (e = EkReady -> e' = EkReady).
Proof.
  intros Hd (Hst & Hc & He & Hu) Hmem Hg. unfold AESECB6_INIT. cbv zeta. set (q := Z.to_N (d / 16)) in *.
  assert (d / 16 < 2 ^ 28) as Hq by (change (2 ^ 28) with 268435456 in *; div_lia).
  assert (q < 2 ^ 28)%N as HqN by lia.
  set (c1 := _mm_add_epi64 (a_ctr a) one8). set (c2 := _mm_add_epi64 c1 one8). set (c3 := _mm_add_epi64 c2 one8).
  set (c4 := _mm_add_epi64 c3 one8). set (c5 := _mm_add_epi64 c4 one8). set (c6 := _mm_add_epi64 c5 one8).
  assert (d < inlen -> c1 = (c0 + (1 + q + 1))%N ∧ c2 = (c0 + (1 + q + 1 + 1))%N ∧ c3 = (c0 + (1 + q + 1 + 1 + 1))%N
    ∧ c4 = (c0 + (1 + q + 1 + 1 + 1 + 1))%N ∧ c5 = (c0 + (1 + q + 1 + 1 + 1 + 1 + 1))%N ∧ c6 = (c0 + (1 + q + 1 + 1 + 1 + 1 + 1 + 1))%N) as Hcs.
  { intros Hlt. specialize (Hc Hlt). assert (c1 = (c0 + (1 + q + 1))%N) as E1 by (apply tick; [done|lia]).
    assert (c2 = (c0 + (1 + q + 1 + 1))%N) as E2 by (apply tick; [done|lia]). assert (c3 = (c0 + (1 + q + 1 + 1 + 1))%N) as E3 by (apply tick; [done|lia]).
    assert (c4 = (c0 + (1 + q + 1 + 1 + 1 + 1))%N) as E4 by (apply tick; [done|lia]). assert (c5 = (c0 + (1 + q + 1 + 1 + 1 + 1 + 1))%N) as E5 by (apply tick; [done|lia]).
    split_and!; try done. apply tick; [done|lia]. }
  clearbody c1 c2 c3 c4 c5 c6.
  assert (∀ x4 x5, (64 < inlen - d -> x4 = _mm_shuffle_epi8 c5 byteswap128) -> (80 < inlen - d -> x5 = _mm_shuffle_epi8 c6 byteswap128) ->
    ∀ k, (k < 6)%nat -> 16 * Z.of_nat k < inlen - d ->
    nth k [_mm_shuffle_epi8 c1 byteswap128; _mm_shuffle_epi8 c2 byteswap128; _mm_shuffle_epi8 c3 byteswap128; _mm_shuffle_epi8 c4 byteswap128; x4; x5] 0%N
    = counter_block c0 (2 + q + N.of_nat k)) as Hslots.
  { intros x4 x5 H4 H5 k Hk Hkd. destruct Hcs as (-> & -> & -> & -> & -> & ->); [lia|]. clear - H4 H5 Hk Hkd HqN.
    do 6 (destruct k as [|k]; [cbn [nth]; rewrite ?H4, ?H5 by lia; rewrite shuffle_byteswap, counter_block_eq; f_equal; lia|]). lia. }
  destruct (Z.ltb_spec (16 * 5) (inlen - d)) as [Hbig|Hsmall].
  - exists EkNot, u. eexists. split; [done|]. destruct e; [|done|lia]. split; [|done].
    eexists. split; [by apply init_slots|]. cbn [a_state a_ctr a_ek0 a_supp map_bits]. split_and!; try done.
    + by apply Hslots.
    + intros _. destruct Hcs as (_ & _ & _ & _ & _ & ->); [lia|]. f_equal. lia.
    + destruct u; [done|done|]. done.
  - set (r := if Z.land (a_state a) STATE_EK0_BEEN_FED =? 0 then _ else _).
    assert (∃ e' x5, r = (x5, code e' u) ∧ (e = EkReady -> e' = EkReady) ∧ match e' with EkNot => False | EkFed => x5 = ek0_block | EkReady => a_ek0 a = E ek0_block end)
      as (e' & x5 & -> & Hready & He').
    { subst r. rewrite Hst, code_ek. destruct e; [|done|]; cbn [ek_code Z.eqb].
      - exists EkFed, (a_ek0 a). rewrite code_feed. done.
      - exists EkReady, (nth 5 (a_bits a) 0%N). split_and!; [done|done|apply He]. }
    destruct (feed_supp_spec e' u d g (_mm_shuffle_epi8 c5 byteswap128) (a_supp a) mem Hd Hmem Hg Hu) as (x4 & s4 & u' & Hf & Hb & H4 & Hu').
    rewrite M_bind_run, Hf. exists e', u'. eexists. split; [done|]. split; [|done]. eexists. split; [by apply init_slots|].
    cbn [a_state a_ctr a_ek0 a_supp map_bits]. split_and!; [done|apply Hslots; [done|lia]|lia| |done].
    destruct e'; [done|split; [lia|done]|split; [lia|done]].
Qed.

(** *** Memory *)


Lemma base_bytes u : byte_memory (base_of u).
Proof. unfold base_of. destruct supp, u; try done. apply write_byte_memory; [done|apply to_bytes_bytes]. Qed.

Lemma written_bytes u d : byte_memory (written u d).
Proof. apply write_byte_memory; [apply base_bytes|]. apply Forall_take, gcm_crypt_bytes. Qed.

Lemma len_taken d : 0 <= d <= inlen -> len (take (Z.to_nat d) sealed_text) = d.
Proof. intros Hd. unfold len. rewrite length_take, sealed_length. lia. Qed.

(** What is neither output nor output of [supp]. *)
Lemma base_other u p n : (∀ s, supp = Some s -> apart (s_output s) 16 p (Z.of_nat n)) -> read (base_of u) p n = read m p n.
Proof.
  intros Hs. unfold base_of. case_eq supp; [intros s Es|done]. destruct u; [done|done|]. apply read_write_other.
  unfold len. rewrite to_bytes_length. destruct (Hs s Es); [right|left]; lia.
Qed.

Lemma read_rest u d : 0 <= d <= inlen -> read (written u d) (input + d) (Z.to_nat (inlen - d)) = drop (Z.to_nat d) text.
Proof.
  intros Hd. unfold written. rewrite read_write_other by (rewrite len_taken by done; destruct Hway; lia). rewrite base_other.
  - unfold text. rewrite drop_read. f_equal; lia.
  - intros s Hs. destruct (Hsupp s Hs) as (_ & _ & _ & _ & _ & _ & Hi & _). unfold apart in *. lia.
Qed.

Lemma read_extra u d p n : 0 <= d <= inlen -> aad <= p -> p + Z.of_nat n <= aad + aadlen -> read (written u d) p n = read m p n.
Proof.
  intros Hd Hp Hn. unfold written. rewrite read_write_other by (rewrite len_taken by done; unfold apart in Hapart; lia). apply base_other.
  intros s Hs. destruct (Hsupp s Hs) as (_ & _ & _ & _ & _ & _ & _ & Ha). unfold apart in *. lia.
Qed.

Lemma read_sealed u d g n : 0 <= g -> g + Z.of_nat n <= d <= inlen -> read (written u d) (output + g) n = take n (drop (Z.to_nat g) sealed_text).
Proof.
  intros Hg Hn. symmetry. apply list_eq_read; [rewrite length_take, length_drop, sealed_length; lia|]. intros i b Hb.
  pose proof (lookup_lt_Some _ _ _ Hb) as Hi. rewrite length_take in Hi. rewrite lookup_take_lt, lookup_drop in Hb by lia.
  unfold written, write. rewrite (proj2 (Z.leb_le _ _)) by lia. rewrite lookup_take_lt by lia.
  replace (Z.to_nat (output + g + Z.of_nat i - output)) with (Z.to_nat g + i)%nat by lia. by rewrite Hb.
Qed.

(** The next part of the ciphertext. *)
Lemma crypt_drop d : 0 <= d <= inlen -> d mod 16 = 0 ->
  gcm_crypt E c0 (2 + Z.to_N (d / 16)) (chunks (drop (Z.to_nat d) text)) = drop (Z.to_nat d) sealed_text.
Proof.
  intros Hd Hmod. unfold sealed_text. rewrite <- gctr_drop; [f_equal; clear - Hd; div_lia|unfold text; rewrite read_length; lia|clear - Hmod Hd; div_lia].
Qed.

Lemma written_more u d n : 0 <= d -> 0 <= n -> d + n <= inlen ->
  same_memory (write (written u d) (output + d) (take (Z.to_nat n) (drop (Z.to_nat d) sealed_text))) (written u (d + n)).
Proof.
  intros Hd Hn Hle. unfold written. rewrite <- (len_taken d) at 2 by lia. rewrite write_app. f_equiv.
  replace (Z.to_nat (d + n)) with (Z.to_nat d + Z.to_nat n)%nat by lia. apply take_take_drop.
Qed.

Lemma written_supp s d : supp = Some s -> 0 <= d <= inlen ->
  same_memory (write (written SuppWaiting d) (s_output s) (to_bytes 16 (AES key2 (sample s)))) (written SuppDone d).
Proof.
  intros Hs Hd. destruct (Hsupp s Hs) as (_ & _ & _ & _ & _ & Ho & _). unfold written, base_of. rewrite Hs. apply write_comm.
  rewrite len_taken by done. unfold len, apart in *. rewrite to_bytes_length. lia.
Qed.

(** *** The results of the pipeline *)

Definition next (d : Z) : Z := (d + 96) `min` inlen.

Lemma slot_supp s x : supp = Some s -> slot_result true 4 x = AES key2 x.
Proof.
  intros Hs. destruct (Hsupp s Hs) as (Hk & Hni & Hr & _). unfold slot_result, slot_keys. cbn [nth].
  assert (supp_key supp = key_m128 (s_ecb s)) as -> by (by unfold supp_key; rewrite Hs).
  rewrite <- Hr, rounds_last by done. by apply keyed_encrypts.
Qed.

Lemma apply_text u d src bits mem : 0 <= d <= inlen -> (d < inlen -> d mod 96 = 0 ∧ src = input + d) -> length bits = 6%nat -> same_memory mem (written u d) ->
  (∀ k, (k < 6)%nat -> 16 * Z.of_nat k < inlen - d -> nth k bits 0%N = E (counter_block c0 (2 + Z.to_N (d / 16) + N.of_nat k))) ->
  ∃ mem' src', apply_some mapped bits src (output + d) (inlen - d) mem = (Ok (src', output + next d, inlen - next d), mem')
    ∧ same_memory mem' (written u (next d)) ∧ (next d < inlen -> src' = input + next d).
Proof.
  intros Hd Hsrc Hlen Hmem Hbits. assert (len bits = 6) as Hl by (unfold len; lia).
  destruct (decide (d = inlen)) as [->|Hne].
  - destruct bits as [|b bits]; [done|]. cbn [apply_some]. rewrite Z.sub_diag. cbn. unfold next. rewrite Z.min_r by lia.
    rewrite Z.sub_diag. exists mem, src. split_and!; [done|done|lia].
  - destruct Hsrc as [Hmod ->]; [lia|]. assert (d mod 16 = 0) as Hmod16 by (clear - Hmod; div_lia).
    destruct (apply_some_spec mapped key c0 bits mem (input + d) (output + d) (inlen - d) (2 + Z.to_N (d / 16))) as (mem' & src' & -> & Hs & Hsrc).
    + rewrite Hmem. apply written_bytes.
    + lia.
    + intros a Ha. apply Hpi. lia.
    + intros a Ha. apply Hpo. lia.
    + destruct Hway; [left|right]; lia.
    + intros k b Hb Hk. rewrite <- Hbits by (done || by apply lookup_lt_Some in Hb; lia). by rewrite (nth_lookup_Some _ _ _ _ Hb).
    + rewrite Hl in *. exists mem', src'. replace (next d) with (d + (inlen - d) `min` (16 * 6)) by (unfold next; lia). split_and!.
      * do 2 f_equal. f_equal; [f_equal|]; lia.
      * rewrite Hs, Hmem, read_rest, crypt_drop by (done || lia). apply written_more; lia.
      * lia.
Qed.

(** The stream of the slots, where the text needs it. *)
Lemma stream_slots j e u d a b : pipeline j e u d a -> length b = 6%nat ->
  (∀ v, slots a j v -> ∀ k, (k < 6)%nat -> nth k b 0%N = slot_result (a_supp a) k (nth k v 0%N)) ->
  ∀ k, (k < 6)%nat -> 16 * Z.of_nat k < inlen - d -> nth k b 0%N = E (counter_block c0 (2 + Z.to_N (d / 16) + N.of_nat k)).
Proof.
  intros (v & Hv & _ & Hstream & _ & _ & Hu) Hlen Hb k Hk Hkd. rewrite (Hb v Hv k Hk), Hstream by done. apply slot_stream; [|done].
  intros ->. destruct u; [apply Hu|destruct Hu as (s & _ & _ & Hs & _); lia|destruct Hu as [[_ Hs]|?]; [done|lia]].
Qed.

Lemma collect_spec j e u d a b mem : pipeline j e u d a -> 0 <= d <= inlen -> inlen - d < 96 -> same_memory mem (written u d) ->
  (∀ v, slots a j v -> ∀ k, (k < 6)%nat -> nth k b 0%N = slot_result (a_supp a) k (nth k v 0%N)) ->
  ∃ e' u' a' mem', collect mapped supp (with_bits b a) mem = (Ok a', mem') ∧ a_bits a' = b ∧ idle e' u' inlen a'
    ∧ same_memory mem' (written u' d) ∧ (inlen - d <= 80 -> e' = EkReady).
Proof.
  intros (v & Hv & Hst & _ & _ & He & Hu) Hd Hs Hmem Hb. specialize (Hb v Hv). unfold collect. cbn [a_state with_bits a_bits a_ek0 a_ctr a_supp].
  set (r := if Z.land (a_state a) STATE_EK0_BEEN_FED =? STATE_EK0_BEEN_FED then _ else _).
  assert (∃ e' x, r = (x, code e' u) ∧ (inlen - d <= 80 -> e' = EkReady) ∧ match e' with EkNot => x = ek0_block | EkFed => False | EkReady => x = E ek0_block end)
    as (e' & x & -> & Hready & He').
  { subst r. rewrite Hst, code_ek. destruct e; cbn [ek_code]; cbv [STATE_EK0_BEEN_FED Z.eqb Pos.eqb].
    - exists EkNot, (a_ek0 a). split_and!; [done|lia|apply He].
    - exists EkReady, (nth 5 b 0%N). rewrite code_ready. split_and!; [done|done|]. rewrite Hb, slot_stream by (done || lia). f_equal. apply He.
    - exists EkReady, (a_ek0 a). split_and!; [done|done|apply He]. }
  assert (∀ u' mem', match u' with SuppWaiting => is_Some supp ∧ a_supp a = false | SuppRunning => False | SuppDone => True end ->
    same_memory mem' (written u' d) ->
    ∃ e'' u'' a' mem'', (Ok (mkAes6 (a_ctr a) x b (a_supp a) (code e' u')), mem') = (Ok a', mem'') ∧ a_bits a' = b ∧ idle e'' u'' inlen a'
      ∧ same_memory mem'' (written u'' d) ∧ (inlen - d <= 80 -> e'' = EkReady)) as Hfin.
  { intros u' mem' Hu' Hmem'. exists e', u', (mkAes6 (a_ctr a) x b (a_supp a) (code e' u')), mem'. split_and!; try done.
    split; [done|]. split; [lia|]. cbn [a_ek0 a_supp]. split; [destruct e'; [done|done|split; [lia|done]]|]. destruct u'; [done|done|by right]. }
  case_eq supp; [intros s Es|intros Es].
  - rewrite code_running. destruct u; cbn [negb].
    + apply Hfin; [done|done].
    + destruct Hu as (s' & Es' & Hsupp4 & _ & Hsample). rewrite Es in Es'. apply (inj Some) in Es' as <-.
      destruct (Hsupp s Es) as (_ & _ & _ & _ & Hpo' & _). rewrite M_bind_run, storeu_ok by done. rewrite code_done. apply (Hfin SuppDone); [done|].
      rewrite Hb, Hsupp4, (slot_supp s), Hsample by (done || lia). rewrite Hmem.
      transitivity (write (written SuppWaiting d) (s_output s) (to_bytes 16 (AES key2 (sample s)))); [|by apply written_supp].
      unfold written, base_of. by rewrite Es.
    + apply Hfin; [done|done].
  - apply Hfin; [|done]. destruct u; [done|destruct Hu as (s & ? & _); congruence|done].
Qed.

(** Finishing a batch of blocks and using them. *)
Lemma stream_spec i e u d l a mem :
  0 <= d <= inlen -> (1 <= i <= rounds (ecb ctx))%nat -> pipeline i e u d a -> same_memory mem (written u d) ->
  e_srclen l = inlen - d -> e_dst l = output + d -> (d < inlen -> d mod 96 = 0 ∧ e_src l = input + d) ->
  ∃ e' u' a' mem' src', apply_stream mapped supp l (finish_aes ctx supp i a) mem = (Ok (a', (src', output + next d, inlen - next d)), mem')
    ∧ idle e' u' (next d) a' ∧ same_memory mem' (written u' (next d)) ∧ (next d < inlen -> next d mod 96 = 0 ∧ src' = input + next d)
    ∧ (inlen - d <= 80 -> e' = EkReady).
Proof.
  intros Hd Hi Hp Hmem Hlen Hdst Hsrc. pose proof Hp as (v & Hv & Hst & Hstream & Hc & He & Hu).
  destruct (finish_slots i a v Hi Hv) as (b & -> & Hb6 & Hb).
  assert (∀ v', slots a i v' -> ∀ k, (k < 6)%nat -> nth k b 0%N = slot_result (a_supp a) k (nth k v' 0%N)) as Hb'.
  { intros v' Hv'. destruct (finish_slots i a v' Hi Hv') as (b' & Hfb & _ & Hb'). destruct (finish_slots i a v Hi Hv) as (b'' & Hfb'' & _ & Hb''). intros k Hk.
    rewrite Hfb in Hfb''. apply (f_equal a_bits) in Hfb''. cbn in Hfb''. subst b''. rewrite Hb, <- Hb'', <- Hb' by done. done. }
  pose proof (stream_slots i e u d a b Hp Hb6 Hb') as Hbits.
  assert (d < inlen -> next d < inlen -> next d mod 96 = 0) as Hnext.
  { intros Hlt Hlt'. destruct Hsrc as [Hmod _]; [done|]. unfold next in *. replace ((d + 96) `min` inlen) with (d + 96) by lia. clear - Hmod. div_lia. }
  unfold apply_stream. rewrite Hlen, Hdst. destruct (Z.leb_spec (6 * 16) (inlen - d)) as [Hbig|Hsmall].
  - destruct (apply_text u d (e_src l) b mem Hd Hsrc Hb6 Hmem Hbits) as (mem' & src' & Hap & Hmem' & Hsrc').
    rewrite apply_six_some in Hap by (unfold len; lia). rewrite M_bind_run. rewrite (M_bind_run (apply_six mapped b (e_src l) (output + d))) in Hap. cbn [a_bits with_bits].
    destruct (apply_six mapped b (e_src l) (output + d) mem) as [[[]|?] mem1]; [|done]. cbn [mret M_ret] in Hap |- *.
    assert (len b = 6) as Hl by (unfold len; lia). rewrite Hl in Hap. change (16 * 6) with 96 in Hap. injection Hap as <- Hd1 Hd2 <-.
    rewrite Hd1, Hd2. destruct e; [|lia|lia]. exists EkNot, u, (with_bits b a), mem1, (e_src l + 96). split_and!; [done| |done| |lia].
    + split; [done|]. cbn [a_ctr with_bits a_ek0 a_supp]. split_and!.
      * intros Hlt. rewrite Hc by lia. f_equal. unfold next in *. replace ((d + 96) `min` inlen) with (d + 96) by lia. clear - Hd. div_lia.
      * apply He.
      * destruct u; [done|destruct Hu as (s & _ & _ & ? & _); lia|destruct Hu as [?|?]; [by left|lia]].
    + intros Hlt. split; [apply Hnext; lia|by apply Hsrc'].
  - destruct (collect_spec i e u d a b mem Hp Hd ltac:(lia) Hmem Hb') as (e' & u' & a' & mem1 & Hcol & Hab & Hidle & Hmem1 & Hready).
    rewrite M_bind_run, Hcol. assert (next d = inlen) as Hn by (unfold next; lia).
    destruct (apply_text u' d (e_src l) b mem1 Hd Hsrc Hb6 Hmem1 Hbits) as (mem' & src' & Hap & Hmem' & Hsrc'). rewrite Hn in *. rewrite Z.sub_diag in *.
    destruct (Z.eqb_spec (inlen - d) 0) as [H0|H0]; cbn [negb].
    + rewrite M_bind_run. cbn [mret M_ret]. exists e', u', a', mem1, (e_src l). rewrite H0. replace (output + d) with (output + inlen) by lia. split_and!; [done|done| |lia|intros _; apply Hready; lia].
      by replace inlen with d by lia.
    + rewrite M_bind_run, Hab, Hap. exists e', u', a', mem', src'. split_and!; [done|done|done|lia|done].
Qed.

(** *** The blocks that wait *)

Lemma next_range d : 0 <= d <= inlen -> d <= next d <= inlen.
Proof. unfold next. lia. Qed.

Abbreviation blocks_of l := (of_bytes <$> chunks l).

(** Additional data, and the ciphertext from [g] on. *)
Definition pending (d : Z) (l : enc_locals) (R : list m128) : Prop :=
  aad <= e_aad l ∧ 0 <= e_aadlen l ∧ e_aad l + e_aadlen l <= aad + aadlen ∧
  ∃ g, 0 <= g <= d ∧ dst_ghashlen l = inlen - g ∧ (g < inlen -> g mod 16 = 0 ∧ dst_ghash l = output + g) ∧ dst_ghash l <= output + d
    ∧ R = blocks_of (read m (e_aad l) (Z.to_nat (e_aadlen l))) ++ blocks_of (drop (Z.to_nat g) sealed_text).

Definition gdata_holds (gd : gdata) (G : list m128) (mem : memory) : Prop :=
  gdata_cnt gd = length G ∧ (length G <= 6)%nat ∧ ∀ i x, G !! i = Some x -> gdata_load mapped gd i mem = (Ok x, mem).

Lemma holds_buf G mem : (length G <= 6)%nat -> gdata_holds (InBuf G) G mem.
Proof. intros HG. split_and!; [done|done|]. intros i x Hx. cbn [gdata_load]. by rewrite (nth_lookup_Some _ _ _ _ Hx). Qed.

Lemma fill_sealed u d g p buf mem :
  0 <= g <= d -> d <= inlen -> (g < inlen -> g mod 16 = 0 ∧ p = output + g) -> p <= output + d -> (length buf <= 6)%nat -> same_memory mem (written u (next d)) ->
  ∃ p' g' X out, fill_gdata mapped 7 p (inlen - g) buf mem = (Ok (p', inlen - g', buf ++ X, out), mem)
    ∧ blocks_of (drop (Z.to_nat g) sealed_text) = X ++ blocks_of (drop (Z.to_nat g') sealed_text) ∧ g <= g' <= next d
    ∧ (g' < inlen -> g' mod 16 = 0 ∧ p' = output + g') ∧ p' <= output + next d ∧ (length (buf ++ X) <= 6)%nat
    ∧ (if out then g' = inlen else length (buf ++ X) = 6%nat).
Proof.
  intros Hg Hd Hp Hpd Hbuf Hmem. set (D := drop (Z.to_nat g) sealed_text).
  assert (len D = inlen - g) as HlD by (unfold D, len; rewrite length_drop, sealed_length; lia). unfold len in HlD.
  destruct (fill_gdata_spec mapped mem) with (fuel := 7%nat) (p := p) (D := D) (buf := buf) as (p' & j & X & out & Hr & Hc & Hj & HX & Hp' & Hpp & Hj' & Hout).
  - rewrite Hmem. apply written_bytes.
  - lia.
  - done.
  - intros a Ha. unfold len in Ha. destruct Hp as [_ ->]; [lia|]. apply Hpo. lia.
  - intros n Hn1 Hn2. destruct (decide (g < inlen)) as [Hlt|Hge]; [|replace n with 0%nat by lia; done].
    destruct Hp as [_ ->]; [done|]. rewrite Hmem. apply read_sealed; [lia|]. unfold next. lia.
  - unfold len in Hr. rewrite HlD in Hr. exists p', (g + Z.of_nat j), X, out.
    replace (inlen - (g + Z.of_nat j)) with (inlen - g - Z.of_nat j) by lia. split_and!; [done| | | | | | |].
    + rewrite Hc. unfold D. rewrite drop_drop. do 4 f_equal. lia.
    + lia.
    + unfold next. lia.
    + intros Hlt. destruct Hp' as [-> Hmod]; [lia|]. destruct Hp as [Hgm ->]; [lia|]. split; [clear - Hgm Hmod Hg; div_lia|lia].
    + unfold next. destruct (decide (g < inlen)) as [Hlt|Hge]; [destruct Hp as [_ ->]; [done|]; lia|lia].
    + done.
    + destruct out; [lia|done].
Qed.

Definition same_front (l l' : enc_locals) : Prop :=
  e_aes l' = e_aes l ∧ e_gstate l' = e_gstate l ∧ g_pos l' = g_pos l ∧ e_src l' = e_src l ∧ e_dst l' = e_dst l ∧ e_srclen l' = e_srclen l.

(** The next blocks: the last ones if there are fewer than six. *)
Lemma setup_spec u d l mem R :
  0 <= d <= inlen -> pending d l R -> same_memory mem (written u (next d)) ->
  ∃ l' G R' fin, setup_gdata mapped l mem = (Ok (l', fin), mem) ∧ same_front l l' ∧ pending (next d) l' R' ∧ R = G ++ R'
    ∧ gdata_holds (e_gdata l') G mem ∧ (if fin : bool then R' = [] ∧ e_gdata l' = InBuf G ∧ (length G < 6)%nat else length G = 6%nat).
Proof.
  intros Hd (Ha & Ha0 & Hae & g & Hg & Hgl & Hgp & Hgo & ->) Hmem. pose proof (next_range d Hd) as Hn. unfold setup_gdata.
  assert (∀ l1 buf, (length buf <= 6)%nat -> same_front l l1 -> aad <= e_aad l1 -> e_aadlen l1 = 0 -> e_aad l1 <= aad + aadlen ->
    dst_ghash l1 = dst_ghash l -> dst_ghashlen l1 = dst_ghashlen l ->
    ∃ l' X R' fin, fill_from mapped l1 buf mem = (Ok (l', fin), mem) ∧ same_front l l' ∧ pending (next d) l' R'
      ∧ blocks_of (drop (Z.to_nat g) sealed_text) = X ++ R' ∧ gdata_holds (e_gdata l') (buf ++ X) mem
      ∧ (if fin : bool then R' = [] ∧ e_gdata l' = InBuf (buf ++ X) ∧ (length (buf ++ X) < 6)%nat else length (buf ++ X) = 6%nat)) as Hfill.
  { intros l1 buf Hbuf Hfront Ha1 Hz Ha1' Hdg Hdl. unfold fill_from. rewrite Hdg, Hdl, Hgl.
    destruct (fill_sealed u d g (dst_ghash l) buf mem) as (p' & g' & X & out & Hr & Hc & Hg' & Hp' & Hpo' & HX & Hout); [done|lia|done|done|done|done|].
    rewrite M_bind_run, Hr. eexists _, X, (blocks_of (drop (Z.to_nat g') sealed_text)), _. split; [done|]. split; [done|]. split_and!.
    - split_and!; [done|cbn; lia|cbn; lia|]. exists g'. cbn [dst_ghash dst_ghashlen e_aad e_aadlen]. split_and!; try done; try lia.
      rewrite Hz. done.
    - done.
    - cbn. by apply holds_buf.
    - destruct out; cbn [andb].
      + destruct (Nat.ltb_spec (length (buf ++ X)) 6); [|lia]. subst g'. split_and!; [|done|done].
        rewrite drop_ge by (rewrite sealed_length; lia). done.
      + done. }
  destruct (Z.eqb_spec (e_aadlen l) 0) as [H0|H0]; cbn [negb].
  - rewrite H0. change (read m (e_aad l) (Z.to_nat 0)) with (@nil Z). cbn [chunks chunks_aux length fmap list_fmap app].
    destruct (Z.leb_spec (6 * 16) (dst_ghashlen l)) as [Hbig|Hsmall].
    + destruct Hgp as [Hgm Hgp]; [lia|]. set (D := drop (Z.to_nat g) sealed_text).
      assert (length D = Z.to_nat (inlen - g)) as HlD by (unfold D; rewrite length_drop, sealed_length; lia).
      exists (mkEnc (e_aes l) (e_gstate l) (g_pos l) (e_src l) (e_dst l) (e_srclen l) (e_aad l) 0 (dst_ghash l + 96) (dst_ghashlen l - 96) (AtDst (dst_ghash l))).
      exists (blocks_of (take 96 D)), (blocks_of (drop 96 D)), false. split_and!; [done|done| | | |].
      * split_and!; [done|cbn; lia|cbn; lia|]. exists (g + 96). cbn [dst_ghash dst_ghashlen e_aad e_aadlen]. unfold next. split_and!; try lia.
        unfold D. rewrite drop_drop. replace (Z.to_nat (g + 96)) with (Z.to_nat g + 96)%nat by lia. done.
      * rewrite <- (take_drop 96 D) at 1. rewrite chunks_app, fmap_app by (rewrite length_take, HlD, Nat.min_l by lia; done). done.
      * assert (length (blocks_of (take 96 D)) = 6%nat) as H6 by (rewrite length_fmap, chunks_length, length_take, HlD, Nat.min_l by lia; done).
        split_and!; [done|lia|]. intros i x Hx. cbn [gdata_load e_gdata]. pose proof (lookup_lt_Some _ _ _ Hx) as Hi. rewrite H6 in Hi.
        rewrite list_lookup_fmap, chunks_lookup in Hx by (rewrite length_take, HlD; lia). apply (inj Some) in Hx as <-.
        rewrite loadu_mapped by (intros a Haa; apply Hpo; lia). rewrite (read_proper _ _ Hmem _ _ eq_refl _ _ eq_refl). do 3 f_equal. rewrite Hgp.
        replace (output + g + 16 * Z.of_nat i) with (output + (g + 16 * Z.of_nat i)) by lia. rewrite read_sealed by (unfold next; lia).
        unfold D. rewrite skipn_firstn_comm, drop_drop, take_take. rewrite Nat.min_l by lia. f_equal. f_equal. f_equal. lia.
      * rewrite length_fmap, chunks_length, length_take, HlD, Nat.min_l by lia. done.
    + destruct (Hfill l []) as (l' & X & R' & fin & -> & Hfront & Hpen & HX & Hgd & Hfin); try done; [cbn; lia|lia|].
      exists l', X, R', fin. done.
  - set (D := read m (e_aad l) (Z.to_nat (e_aadlen l))). assert (len D = e_aadlen l) as HlD by (unfold D, len; rewrite read_length; lia).
    destruct (fill_gdata_spec mapped mem) with (fuel := 7%nat) (p := e_aad l) (D := D) (buf := @nil m128) as (p' & j & X & out & Hr & Hc & Hj & HX & Hp' & Hpp & _ & Hout).
    + rewrite Hmem. apply written_bytes.
    + cbn. lia.
    + cbn. lia.
    + rewrite HlD. intros a Haa. apply Hpa. lia.
    + unfold len in HlD. intros n Hn1 _. rewrite Hmem, read_extra by lia. unfold D. rewrite take_read by lia. done.
    + rewrite HlD in Hr. rewrite M_bind_run, Hr. cbn [app] in *. unfold len in HlD. destruct out.
      * match goal with |- context [fill_from mapped ?l1 X] => destruct (Hfill l1 X) as (l' & X' & R' & fin & -> & Hfront & Hpen & HX' & Hgd & Hfin) end;
          [done|done|cbn; lia|cbn; lia|cbn; lia|done|done|].
        exists l', (X ++ X'), R', fin. rewrite Hc, Hout, drop_ge by lia. cbn [chunks chunks_aux length fmap list_fmap]. rewrite app_nil_r, HX', <- app_assoc. done.
      * eexists _, X, _, false. split; [done|]. split; [done|]. split; [|split; [rewrite Hc, <- app_assoc; done|split; [by apply holds_buf|done]]].
        split_and!; [cbn; lia|cbn; lia|cbn; lia|]. exists g. cbn [dst_ghash dst_ghashlen e_aad e_aadlen]. split_and!; try done; try lia.
        do 2 f_equal. destruct (decide (j < length D)%nat) as [Hlt|Hge].
        -- destruct Hp' as [-> _]; [done|]. unfold D. rewrite drop_read. do 2 f_equal. lia.
        -- rewrite drop_ge by lia. replace (Z.to_nat (e_aadlen l - Z.of_nat j)) with 0%nat by lia. done.
Qed.

(** *** A round *)

Abbreviation last_block := (length_block (length extra) (length sealed_text)).

Definition all_blocks : list m128 := gcm_blocks extra sealed_text.

Record head (e : ek_phase) (u : supp_phase) (d : Z) (F G R : list m128) (l : enc_locals) (mem : memory) : Prop := {
  head_range : 0 <= d <= inlen;
  head_src : d < inlen -> d mod 96 = 0 ∧ e_src l = input + d;
  head_srclen : e_srclen l = inlen - d;
  head_dst : e_dst l = output + d;
  head_aes : pipeline 2 e u d (e_aes l);
  head_memory : same_memory mem (written u d);
  head_gdata : gdata_holds (e_gdata l) G mem;
  head_pending : pending d l R;
  head_pos : g_pos l = (length all_blocks - length F)%nat;
  head_fed : fed (e_gstate l) (weighted_at h (g_pos l) (bswap <$> F));
  head_blocks : all_blocks = F ++ G ++ R ++ [last_block];
}.

Lemma blocks_length : length all_blocks = Z.to_nat ((aadlen + 15) / 16 + (inlen + 15) / 16 + 1) ∧ (length all_blocks <= total)%nat.
Proof.
  unfold all_blocks, gcm_blocks. rewrite !length_app, !length_fmap, !chunks_length, sealed_length. unfold extra. rewrite read_length. cbn [length].
  clear - Hcap Haad Hin. div_lia.
Qed.

(** More than 80 bytes of text to go: six blocks at least. *)
Lemma pending_long d l R : pending d l R -> d <= inlen -> 80 < inlen - d -> (6 <= length R)%nat.
Proof.
  intros (_ & _ & _ & g & Hg & _ & _ & _ & ->) Hd Hs. rewrite length_app, !length_fmap, !chunks_length, length_drop, sealed_length.
  clear - Hg Hs. div_lia.
Qed.

Lemma round_spec e u d F G R l mem : head e u d F G R l mem ->
  ∃ e' u' G' R' l' fin mem', main_round mapped ctx supp l mem = (Ok (l', fin), mem') ∧ head e' u' (next d) (F ++ G) G' R' l' mem' ∧ R = G' ++ R'
    ∧ (if fin : bool then R' = [] ∧ e_gdata l' = InBuf G' ∧ e' = EkReady ∧ next d = inlen else length G' = 6%nat).
Proof.
  intros []. destruct head_gdata0 as (Hcnt & HG & Hload). pose proof blocks_length as [_ Hb]. pose proof (next_range d head_range0) as Hn. pose proof rounds_range as Hr.
  pose proof head_pending0 as (Ha & Ha0 & Hae & g & Hg & Hgl & Hgp & Hgo & HR).
  assert (length all_blocks = length F + length G + length R + 1)%nat as Hlen by (rewrite head_blocks0, !length_app; cbn; lia).
  destruct head_aes0 as (v & Hv & Hrest).
  destruct (interleave_spec 2 (e_gdata l) mem v G 0 (e_aes l) (e_gstate l) (g_pos l) F) as (b & g' & Hint & Hb' & Hfed); [lia|done|lia|done|done|].
  assert (pipeline (length G + 2) e u d (with_bits b (e_aes l))) as Hpipe by (exists v; split; [exact Hb'|exact Hrest]).
  unfold main_round. cbv zeta. rewrite Hcnt, M_bind_run, Hint.
  destruct (stream_spec (length G + 2) e u d l (with_bits b (e_aes l)) mem) as (e1 & u1 & a1 & mem1 & src1 & Hst & Hidle & Hmem1 & Hsrc1 & Hready); try done; [lia|].
  rewrite M_bind_run, Hst.
  destruct (init_spec e1 u1 (next d) (dst_ghash l) a1 mem1) as (e2 & u2 & a2 & Hinit & Hp2 & Hbase & Hready2); [lia|done|done|lia|].
  rewrite M_bind_run, Hinit. cbv zeta.
  assert (same_memory mem1 (written u2 (next d))) as Hmem2 by (unfold written in *; by rewrite Hbase).
  destruct Hp2 as (v2 & Hv2 & Hrest2). destruct (update_slots 1 a2 v2 ltac:(lia) Hv2) as (b2 & -> & Hb2).
  match goal with |- context [setup_gdata mapped ?l1] => set (l1' := l1) end.
  destruct (setup_spec u2 d l1' mem1 R) as (l' & G' & R' & fin & -> & (Hf1 & Hf2 & Hf3 & Hf4 & Hf5 & Hf6) & Hpen & HRG & Hgd & Hfin); [done| |done|].
  { split_and!; [done|done|done|]. by exists g. }
  exists e2, u2, G', R', l', fin, mem1. split; [done|]. split; [|split; [done|]].
  - split.
    + clear - Hn head_range0. lia.
    + rewrite Hf4. done.
    + rewrite Hf6. done.
    + rewrite Hf5. done.
    + rewrite Hf1. exists v2. split; [exact Hb2|exact Hrest2].
    + done.
    + done.
    + done.
    + rewrite Hf3. cbn [l1' g_pos]. rewrite head_pos0, length_app. clear. lia.
    + rewrite Hf2, Hf3. exact Hfed.
    + rewrite head_blocks0, HRG, <- !app_assoc. done.
  - destruct fin; [|done]. destruct Hfin as (-> & Hbuf & HG'). rewrite app_nil_r in HRG. rewrite <- HRG in HG'.
    assert (inlen - d <= 80) as H80.
    { destruct (decide (80 < inlen - d)) as [H|H]; [|lia]. pose proof (pending_long d l _ head_pending0 ltac:(lia) H). lia. }
    split_and!; [done|done|apply Hready2, Hready, H80|unfold next; lia].
Qed.

Lemma loop_spec fuel : ∀ e u d F G R l mem, head e u d F G R l mem -> (length R < fuel)%nat ->
  ∃ u' F' G' l' mem', main_loop mapped ctx supp fuel l mem = (Ok l', mem') ∧ head EkReady u' inlen F' G' [] l' mem' ∧ e_gdata l' = InBuf G'.
Proof.
  induction fuel as [|fuel IH]; intros e u d F G R l mem Hh Hf; [lia|]. cbn [main_loop].
  destruct (round_spec e u d F G R l mem Hh) as (e' & u' & G' & R' & l' & fin & mem' & Hr & Hh' & -> & Hfin). rewrite M_bind_run, Hr. destruct fin.
  - destruct Hfin as (-> & Hbuf & -> & Hd). rewrite Hd in Hh'. by exists u', (F ++ G), G', l', mem'.
  - rewrite length_app in Hf. eapply IH; [done|lia].
Qed.

(** *** The end *)

Definition finished : memory :=
  match supp with Some s => write sealed (s_output s) (to_bytes 16 (AES key2 (sample s))) | None => sealed end.

Lemma supp_rounds s i x : supp = Some s -> (1 <= i <= rounds (ecb ctx))%nat ->
  _mm_aesenclast_si128 (foldl (λ b i, _mm_aesenc_si128 b (supp_key supp i)) (rounds_to (supp_key supp) i x) (seq i (rounds (ecb ctx) - i))) (supp_key supp (rounds (ecb ctx)))
  = AES key2 x.
Proof. intros Hs Hi. rewrite rounds_to_fold by lia. replace (i + (rounds (ecb ctx) - i))%nat with (rounds (ecb ctx)) by lia. by apply (slot_supp s). Qed.

Lemma finish_supp_spec e u a mem : pipeline 2 e u inlen a -> same_memory mem (write (base_of u) output (gcm_seal E c0 extra text)) ->
  ∃ mem', finish_supp mapped ctx supp a mem = (Ok (), mem') ∧ same_memory mem' finished.
Proof.
  intros (v & [Hv6 Hv] & Hst & _ & _ & _ & Hu) Hmem. pose proof rounds_range as Hr.
  assert (∀ s i b, supp = Some s -> (1 <= i <= 2)%nat -> b = rounds_to (supp_key supp) i (sample s) -> same_memory mem sealed ->
    ∃ mem', _mm_storeu_si128 mapped (s_output s) (_mm_aesenclast_si128 (foldl (λ b i, _mm_aesenc_si128 b (supp_key supp i)) b (seq i (rounds (ecb ctx) - i)))
      (supp_key supp (rounds (ecb ctx)))) mem = (Ok (), mem') ∧ same_memory mem' (write sealed (s_output s) (to_bytes 16 (AES key2 (sample s))))) as Hfin.
  { intros s i b Hs Hi -> Hsame. destruct (Hsupp s Hs) as (_ & _ & _ & _ & Hps & _). rewrite (supp_rounds s), storeu_ok by (done || lia).
    eexists. split; [done|]. by rewrite Hsame. }
  unfold finish_supp, finished. rewrite Hst. case_eq supp; [intros s Hs|intros Hs].
  - rewrite <- Hs, code_used, code_running. destruct u; cbn [negb].
    + destruct (Hsupp s Hs) as (_ & _ & _ & Hps & _). assert (same_memory mem sealed) as Hsame by (rewrite Hmem; unfold base_of; by rewrite Hs).
      rewrite M_bind_run, M_bind_run, loadu_mapped by done. cbn [mret M_ret]. apply (Hfin s 1%nat); [done|lia| |done].
      unfold rounds_to. cbn [Nat.sub seq foldl]. unfold sample. do 2 f_equal. by rewrite Hsame.
    + destruct Hu as (s' & Hs' & H4 & _ & Hsample). rewrite Hs in Hs'. apply (inj Some) in Hs' as <-.
      rewrite M_bind_run. cbn [mret M_ret]. apply (Hfin s 2%nat); [done|lia| |rewrite Hmem; unfold base_of; by rewrite Hs].
      rewrite Hv, H4, <- Hsample. unfold slot_keys. do 6 (destruct v as [|? v]; [done|]). by destruct v.
    + exists mem. split; [done|]. rewrite Hmem. unfold base_of. rewrite Hs. apply write_comm.
      destruct (Hsupp s Hs) as (_ & _ & _ & _ & _ & Ho & _). rewrite seal_split. unfold len, apart in *. rewrite length_app, !to_bytes_length, sealed_length. lia.
  - exists mem. split; [done|]. rewrite Hmem. unfold base_of. by rewrite Hs.
Qed.

(** The hash of all the blocks. *)
Lemma all_fed g : fed g (weighted_at h 0 (bswap <$> all_blocks)) -> g_lo (gfmul_reduce128 g) = gcm_hash h extra sealed_text.
Proof.
  intros Hg. unfold gcm_hash. fold all_blocks. destruct all_blocks as [|x xs] eqn:Eb; [by pose proof (proj1 blocks_length) as Hl; rewrite Eb in Hl; clear - Hl Haad Hin; cbn in Hl; div_lia|].
  cbn [fmap list_fmap]. rewrite ghash_weighted, <- weighted_at_0, N.lxor_0_l; [|apply hash_key_lt|done|constructor; [apply bswap_lt|apply Forall_fmap, Forall_true; intros; apply bswap_lt]].
  apply fed_reduce; [done|]. apply weighted_at_lt, hash_key_lt.
Qed.

Lemma start_spec : ∃ e u G R a aad' aadlen' buf,
  (a ← AESECB6_INIT mapped ctx supp inlen output (mkAes6 (_mm_insert_epi32 ctr 1 0) (_mm_shuffle_epi8 (_mm_insert_epi32 ctr 1 0) byteswap128) (replicate 6 0%N) false
     (match supp with Some _ => STATE_SUPP_USED | None => 0 end)); mret (AESECB6_UPDATE ctx supp 1 a)) m = (Ok a, m)
  ∧ (if negb (aadlen =? 0) then '(p, n, buf, _) ← fill_gdata mapped 7 aad aadlen []; mret (p, n, buf) else mret (aad, aadlen, [])) m = (Ok (aad', aadlen', buf), m)
  ∧ head e u 0 [] G R (mkEnc a gzero (length all_blocks) input output inlen aad' aadlen' output inlen (InBuf buf)) m.
Proof.
  assert (∃ u, idle EkNot u 0 (mkAes6 (_mm_insert_epi32 ctr 1 0) (_mm_shuffle_epi8 (_mm_insert_epi32 ctr 1 0) byteswap128) (replicate 6 0%N) false
     (match supp with Some _ => STATE_SUPP_USED | None => 0 end)) ∧ same_memory m (written u 0)) as (u & Hidle & Hmem).
  { rewrite insert_counter, shuffle_byteswap, counter_block_eq by done. exists (match supp with Some _ => SuppWaiting | None => SuppDone end). split.
    - unfold idle. cbn [a_state a_ctr a_ek0 a_supp]. case_eq supp; [intros s Hs|intros Hs]; split_and!; try done. by left.
    - unfold written, base_of. intros a. rewrite write_nil. by destruct supp. }
  destruct (init_spec EkNot u 0 output _ m ltac:(lia) Hidle Hmem ltac:(lia)) as (e & u' & a & Hinit & Hp & Hbase & _). rewrite Z.sub_0_r in Hinit.
  destruct Hp as (v & Hv & Hrest). destruct (update_slots 1 a v ltac:(lia) Hv) as (b & Hup & Hb).
  assert (∃ p' j X, (if negb (aadlen =? 0) then '(p, n, buf, _) ← fill_gdata mapped 7 aad aadlen []; mret (p, n, buf) else mret (aad, aadlen, [])) m = (Ok (p', aadlen - Z.of_nat j, X), m)
    ∧ blocks_of extra = X ++ blocks_of (drop j extra) ∧ (j <= length extra)%nat ∧ (length X <= 6)%nat ∧ ((j < length extra)%nat -> p' = aad + Z.of_nat j) ∧ aad <= p' <= aad + Z.of_nat j)
    as (p' & j & X & Hfill & Hblocks & Hj & HX & Hp' & Hpp).
  { destruct (Z.eqb_spec aadlen 0) as [H0|H0]; cbn [negb].
    - exists aad, 0%nat, []. rewrite Z.sub_0_r, Z.add_0_r. cbn [length]. split_and!; try done; try lia.
    - assert (len extra = aadlen) as Hle by (unfold len, extra; rewrite read_length; lia).
      destruct (fill_gdata_spec mapped m Hm 7 aad extra []) as (p' & j & X & out & Hr & Hc & Hj & HX & Hp' & Hpp & _ & _); [cbn; lia|cbn; lia|by rewrite Hle| |].
      { intros n Hn _. unfold len in Hle. unfold extra. rewrite take_read by lia. done. }
      rewrite Hle in Hr. rewrite M_bind_run, Hr. exists p', j, X. split_and!; try done; [|lia|lia]. intros H. by apply Hp'. }
  assert (length extra = Z.to_nat aadlen) as Hle by apply read_length.
  exists e, u', X, (blocks_of (drop j extra) ++ blocks_of sealed_text), (with_bits b a), p', (aadlen - Z.of_nat j), X.
  rewrite M_bind_run, Hinit, Hup. split; [done|]. split; [done|]. split; cbn [e_src e_srclen e_dst e_aes e_gdata g_pos e_gstate].
  - lia.
  - intros _. split; [done|lia].
  - lia.
  - lia.
  - exists v. split; [exact Hb|exact Hrest].
  - unfold written in *. by rewrite Hbase.
  - by apply holds_buf.
  - split_and!; cbn [e_aad e_aadlen]; [lia|lia|lia|]. exists 0. cbn [dst_ghash dst_ghashlen]. split_and!; try lia. f_equal.
    destruct (decide (j < length extra)%nat) as [Hlt|Hge].
    + rewrite Hp' by done. unfold extra. rewrite drop_read. do 2 f_equal. f_equal. lia.
    + rewrite drop_ge by lia. replace (Z.to_nat (aadlen - Z.of_nat j)) with 0%nat by lia. done.
  - cbn. lia.
  - apply fed_zero.
  - unfold all_blocks, gcm_blocks. rewrite Hblocks, <- !app_assoc. done.
Qed.

Lemma encrypt_spec : ∃ m', ptls_fusion_aesgcm_encrypt mapped ctx supp output input inlen ctr aad aadlen m = (Ok (), m') ∧ same_memory m' finished.
Proof.
  destruct start_spec as (e & u & G & R & a & aad' & aadlen' & buf & Hinit & Hfill & Hhead). pose proof blocks_length as [Hlen Htotal].
  unfold ptls_fusion_aesgcm_encrypt. cbv zeta. rewrite M_bind_run. rewrite (M_bind_run (AESECB6_INIT _ _ _ _ _ _)) in Hinit. destruct (AESECB6_INIT mapped ctx supp inlen output _ m) as [[a0|] m0]; [|done].
  cbn [mret M_ret] in Hinit. injection Hinit as -> ->. rewrite M_bind_run, Hfill, <- Hlen.
  destruct (loop_spec (length all_blocks + 2) _ _ _ _ _ _ _ _ Hhead) as (u' & F & G' & l & mem & Hloop & Hh & Hbuf).
  { rewrite (head_blocks _ _ _ _ _ _ _ _ Hhead), !length_app. lia. }
  rewrite M_bind_run, Hloop. destruct Hh. destruct head_aes0 as (v & Hv & Hst & Hrest). rewrite Hst, Hbuf. unfold STATE_EK0_READY. rewrite code_ek.
  cbn [ek_code Z.eqb Pos.eqb negb when]. rewrite M_bind_run. cbn [mret M_ret]. cbn [app] in head_blocks0.
  assert (lengths_register aadlen inlen = last_block) as Hac.
  { rewrite lengths_register_spec by lia. f_equal; [unfold extra; by rewrite read_length|by rewrite sealed_length]. }
  assert (length all_blocks = length F + length (G' ++ [last_block]))%nat as Hsum by (by rewrite head_blocks0, length_app).
  destruct (ghash_rest_spec (G' ++ [last_block]) (e_gstate l) (g_pos l) F) as (g' & Hgr & Hfed); [lia|done|].
  rewrite Hac, M_bind_run, Hgr. cbn [lift].
  replace (g_pos l - length (G' ++ [last_block]))%nat with 0%nat in Hfed by lia.
  rewrite <- head_blocks0 in Hfed. rewrite M_bind_run, head_dst0, storeu_ok by (intros x Hx; apply Hpo; lia).
  assert (gfmul_get_tag128 (gfmul_reduce128 g') (a_ek0 (e_aes l)) = gcm_tag E c0 extra sealed_text) as ->.
  { unfold gfmul_get_tag128, gcm_tag, _mm_xor_si128. rewrite shuffle_byteswap, all_fed by done. f_equal. destruct Hrest as (_ & _ & [_ He] & _). exact He. }
  apply (finish_supp_spec EkReady u'); [exists v; done|]. rewrite head_memory0, seal_split. unfold written.
  rewrite take_ge by (rewrite sealed_length; lia). replace (output + inlen) with (output + len sealed_text) by (unfold len; rewrite sealed_length; lia). apply write_app.
Qed.

End Run.

End Correct.

(** The table is long enough for all the blocks. *)
Lemma room_enough key c aadlen inlen : context128 key c -> 0 <= aadlen < 2 ^ 28 -> 0 <= inlen < 2 ^ 28 ->
  aesgcm_calc_ghash_cnt (aadlen + inlen) <= ghash_cnt c -> (aadlen + 15) / 16 + (inlen + 15) / 16 + 1 <= Z.of_nat (total c).
Proof.
  intros Hc Ha Hi Hcap. destruct (context128_table key c Hc) as (_ & _ & Hlen & _). destruct Hc as [(_ & Hr & Hcnt & _) _].
  pose proof (ghash_cnt_enough (aadlen + inlen) aadlen inlen ltac:(lia) ltac:(lia) ltac:(lia)). unfold total, len in *. lia.
Qed.

(** C28: the pipelined encryption is AES-GCM.  For a context whose table is long enough for the blocks, additional data
    apart from the output, and a text that is apart from the output or not before it (in place included),
    [ptls_fusion_aesgcm_encrypt] ends, reads only pages that hold its arguments, and leaves memory as it
    was but for the ciphertext, the tag that follows it, and, if asked for, the AES of the 16 bytes at
    [supp->input] as they are after the encryption, whether they lie in the ciphertext, in the tag or
    before both, and whether that block went through the pipeline or was computed at the end. *)
Theorem encrypt_correct mapped key key2 ctx supp m output input inlen ctr aad aadlen :
  context128 key ctx -> (length key = 16 ∨ length key = 32)%nat -> byte_memory m -> (ctr < 2 ^ 128)%N ->
  0 <= aadlen < 2 ^ 28 -> 0 <= inlen < 2 ^ 28 -> aesgcm_calc_ghash_cnt (aadlen + inlen) <= ghash_cnt ctx ->
  pages_mapped mapped aad aadlen -> pages_mapped mapped input inlen -> pages_mapped mapped output (inlen + 16) ->
  one_way input output inlen -> apart aad aadlen output inlen -> (∀ s, supp = Some s -> supp_ok ctx mapped output input inlen aad aadlen key2 s) ->
  let sealed := write m output (gcm_seal (AES key) (nonce_of ctr) (read m aad (Z.to_nat aadlen)) (read m input (Z.to_nat inlen))) in
  ∃ m', ptls_fusion_aesgcm_encrypt mapped ctx supp output input inlen ctr aad aadlen m = (Ok (), m')
    ∧ same_memory m' match supp with
                     | Some s => write sealed (s_output s) (to_bytes 16 (AES key2 (of_bytes (read sealed (s_input s) 16))))
                     | None => sealed
                     end.
Proof.
  intros Hc Hk Hm Hctr Ha Hi Hcap Hpa Hpi Hpo Hway Hap Hsupp.
  apply (encrypt_spec ctx supp key Hc mapped Hk m output input inlen aad aadlen ctr key2); try done. by apply (room_enough key).
Qed.

(** ** Evaluation *)

(** 150 bytes in place, the sample within the ciphertext. *)
Lemma encrypt_correct_witness :
  let supp := mkFusionSupp (ecb (zero_context 0 false)) 1100 5000 in
  let sealed := write no_memory 1000 (gcm_seal (AES zero_key) (nonce_of 7) (read no_memory 900 20) (read no_memory 1000 150)) in
  ∃ m', ptls_fusion_aesgcm_encrypt (λ _, true) (zero_context 200 false) (Some supp) 1000 1000 150 7 900 20 no_memory = (Ok (), m')
    ∧ same_memory m' (write sealed 5000 (to_bytes 16 (AES zero_key (of_bytes (read sealed 1100 16))))).
Proof.
  destruct (zero_context_ok 200 false ltac:(lia)) as (Hok & Hcap & Hni). destruct (zero_context_ok 0 false ltac:(lia)) as ((Hk & _) & _ & Hni0).
  apply (encrypt_correct (λ _, true) zero_key zero_key (zero_context 200 false) (Some (mkFusionSupp (ecb (zero_context 0 false)) 1100 5000)) no_memory 1000 1000 150 7 900 20);
    [by split|by left|apply no_memory_bytes|reflexivity|lia|lia|apply (zero_context_room 200 false 170); lia|intros ? ?; reflexivity|intros ? ?; reflexivity|intros ? ?; reflexivity|left; lia|left; lia|].
  intros s [= <-]. split_and!; [exact Hk|exact Hni0| |intros ? ?; reflexivity|intros ? ?; reflexivity|right; cbn; lia|right; cbn; lia|right; cbn; lia].
  cbn [s_ecb]. destruct Hk as [-> _]. destruct Hok as ((-> & _) & _). reflexivity.
Defined.
