(* ===== verification/FusionDecrypt.v ===== *)
(** * FusionDecrypt: decryption with one pass ([lib/fusion.c])

    [ptls_fusion_aesgcm_decrypt] hashes the ciphertext and decrypts it in one pass, six blocks at a time:
    the slots of AES that are taken by additional data in the hash stay unused, so that the hash is never
    behind, and the ciphertext can be overwritten by the text.  [decrypt_correct]: the text and the verdict
    are those of AES-GCM. *)

From S2P Require Import Prelude Constants Buffer Gf2 Simd FusionGhash FusionAes FusionLoad FusionContext Gcm FusionIter FusionEncrypt.

#[local] Open Scope Z_scope.

Definition STATE_IS_FIRST_RUN : Z := 0x1.
Definition STATE_GHASH_HAS_MORE : Z := 0x2.

(** The variables of the loop; the registers and [state] are in [d_aes]. *)
Record dec_locals := mkDec {
  d_aes : aes6;
  d_gstate : gfmul_state128;
  d_pos : nat;
  d_aad : Z; d_aadlen : Z;
  src_ghash : Z; src_ghashlen : Z;
  src_aes : Z; src_aeslen : Z;
  d_dst : Z;
  nondata_aes_cnt : nat;
}.

Definition set_state (s : Z) (a : aes6) : aes6 := mkAes6 (a_ctr a) (a_ek0 a) (a_bits a) (a_supp a) s.
Definition set_ek0 (x : m128) (a : aes6) : aes6 := mkAes6 (a_ctr a) x (a_bits a) (a_supp a) (a_state a).

Section Decrypt.
Context (mapped : Z -> bool) (ctx : ptls_fusion_aesgcm_context_t) (ac : m128).

(** [GdataFillSrc]: ciphertext, and the block of the lengths when it is used up. *)
(* src lib/fusion.c:821-841 GdataFillSrc *)
Definition fill_src (l : dec_locals) (buf : list m128) : M memory (dec_locals * gdata) :=
  '(_, n, buf, out) ← fill_gdata mapped 7 (src_ghash l) (src_ghashlen l) buf;
  let a := d_aes l in
  let '(buf, a) := if out && (length buf <? 6)%nat && negb (Z.land (a_state a) STATE_GHASH_HAS_MORE =? 0)
                   then (buf ++ [ac], set_state (Z.land (a_state a) (Z.lnot STATE_GHASH_HAS_MORE)) a) else (buf, a) in
  mret (mkDec a (d_gstate l) (d_pos l) (d_aad l) (d_aadlen l) (src_ghash l + (src_ghashlen l - n)) n (src_aes l) (src_aeslen l) (d_dst l) (nondata_aes_cnt l), InBuf buf).

(** The blocks to hash next; a block of additional data takes a slot of AES. *)
(* src lib/fusion.c:799-841 nondata_aes_cnt *)
Definition setup_gdata_dec (l : dec_locals) : M memory (dec_locals * gdata) :=
  if negb (d_aadlen l =? 0) then
    '(aad, aadlen, buf, out) ← fill_gdata mapped 7 (d_aad l) (d_aadlen l) [];
    let l := mkDec (d_aes l) (d_gstate l) (d_pos l) aad aadlen (src_ghash l) (src_ghashlen l) (src_aes l) (src_aeslen l) (d_dst l) (nondata_aes_cnt l + length buf) in
    if out : bool then fill_src l buf else mret (l, InBuf buf)
  else if 6 * 16 <=? src_ghashlen l then
    mret (mkDec (d_aes l) (d_gstate l) (d_pos l) (d_aad l) (d_aadlen l) (src_ghash l + 96) (src_ghashlen l - 96) (src_aes l) (src_aeslen l) (d_dst l) (nondata_aes_cnt l),
          AtDst (src_ghash l))
  else fill_src l [].

(** The slots from number [skip] on. *)
(* src lib/fusion.c:843-859 INIT_BITS *)
Fixpoint INIT_BITS (skip : nat) (ctr : m128) (bits : list m128) : m128 * list m128 :=
  match bits with
  | [] => (ctr, [])
  | b :: bits =>
    match skip with
    | S skip => let '(ctr, bits) := INIT_BITS skip ctr bits in (ctr, b :: bits)
    | O =>
        let ctr := _mm_add_epi64 ctr one8 in
        let b := _mm_xor_si128 (_mm_shuffle_epi8 ctr byteswap128) (key_m128 (ecb ctx) 0) in
        let '(ctr, bits) := INIT_BITS O ctr bits in (ctr, b :: bits)
    end
  end.

(** [APPLY(i)] of the slots that are given; the last value is what [bits0] is at [Finish]. *)
(* src lib/fusion.c:909-926 APPLY *)
Fixpoint apply_dec (bits : list m128) (src dst srclen : Z) : M memory (Z * Z * Z * option m128) :=
  match bits with
  | [] => mret (src, dst, srclen, None)
  | b :: bits =>
      if 16 <? srclen then apply_block mapped src dst b;; apply_dec bits (src + 16) (dst + 16) (srclen - 16)
      else mret (src, dst, srclen, Some b)
  end.

(** A round: [Some] is [goto Finish], with the block for what is left. *)
(* src lib/fusion.c:797-929 aesi *)
Definition dec_round (l : dec_locals) : M memory (dec_locals * option m128) :=
  '(l, gd) ← setup_gdata_dec l;
  let n := gdata_cnt gd in
  let '(ctr, bits) := INIT_BITS (nondata_aes_cnt l) (a_ctr (d_aes l)) (a_bits (d_aes l)) in
  let a := mkAes6 ctr (a_ek0 (d_aes l)) bits false (a_state (d_aes l)) in
  '(a, g, pos) ← interleave mapped ctx None 1 n 0 gd a (d_gstate l) (d_pos l);
  let a := finish_aes ctx None (n + 1) a in
  if (nondata_aes_cnt l =? 0)%nat && (6 * 16 <=? src_aeslen l) then
    apply_six mapped (a_bits a) (src_aes l) (d_dst l);;
    mret (mkDec a g pos (d_aad l) (d_aadlen l) (src_ghash l) (src_ghashlen l) (src_aes l + 96) (src_aeslen l - 96) (d_dst l + 96) (nondata_aes_cnt l), None)
  else
    let a := if negb (Z.land (a_state a) STATE_IS_FIRST_RUN =? 0)
             then set_state (Z.land (a_state a) (Z.lnot STATE_IS_FIRST_RUN)) (set_ek0 (nth 0 (a_bits a) 0%N) a) else a in
    '(src, dst, srclen, fin) ← apply_dec (drop (nondata_aes_cnt l) (a_bits a)) (src_aes l) (d_dst l) (src_aeslen l);
    mret (mkDec a g pos (d_aad l) (d_aadlen l) (src_ghash l) (src_ghashlen l) src srclen dst (match fin with Some _ => nondata_aes_cnt l | None => O end), fin).

Fixpoint dec_loop (fuel : nat) (l : dec_locals) : M memory (dec_locals * m128) :=
  match fuel with
  | O => fail OUT_OF_FUEL
  | S fuel => '(l, fin) ← dec_round l; match fin with Some b => mret (l, b) | None => dec_loop fuel l end
  end.

End Decrypt.

(** Whether the tag is right.  A round of the loop but the last takes a block of the hash or of the text. *)
(* src lib/fusion.c:769-953 ptls_fusion_aesgcm_decrypt *)
Definition ptls_fusion_aesgcm_decrypt (mapped : Z -> bool) (ctx : ptls_fusion_aesgcm_context_t) (output input inlen : Z) (ctr : m128) (aad aadlen tag : Z)
    : M memory bool :=
  let ac := lengths_register aadlen inlen in
  let blocks := (aadlen + 15) / 16 + (inlen + 15) / 16 + 1 in
  let ctr := _mm_add_epi64 ctr one8 in
  let bits0 := _mm_xor_si128 (_mm_shuffle_epi8 ctr byteswap128) (key_m128 (ecb ctx) 0) in
  let state := Z.lor STATE_IS_FIRST_RUN STATE_GHASH_HAS_MORE in
  '(l, b) ← dec_loop mapped ctx ac (Z.to_nat (blocks + inlen) + 3)
    (mkDec (mkAes6 ctr 0 (bits0 :: replicate 5 0%N) false state) gzero (Z.to_nat blocks) aad aadlen input inlen input inlen output 1);
  (if src_aeslen l =? 16 then apply_block mapped (src_aes l) (d_dst l) b
   else if negb (src_aeslen l =? 0) then
     v ← loadn128 mapped (src_aes l) (src_aeslen l);
     storen128 mapped (d_dst l) (Z.to_nat (src_aeslen l)) (_mm_xor_si128 v b)
   else mret ());;
  let state := a_state (d_aes l) in
  when (negb (Z.land state STATE_IS_FIRST_RUN =? 0)) (fail ABORTED);;
  g ← lift (if negb (Z.land state STATE_GHASH_HAS_MORE =? 0) then
              if (d_pos l =? 1)%nat then fst <$> ghash_step ctx (d_gstate l) (d_pos l) ac else Err ABORTED
            else Ok (d_gstate l));
  let g := gfmul_reduce128 g in
  let calctag := gfmul_get_tag128 g (a_ek0 (d_aes l)) in
  t ← _mm_loadu_si128 mapped tag;
  mret (_mm_movemask_epi8 (_mm_cmpeq_epi8 calctag t) =? 0xffff)%N.

(** ** The comparison of tags *)

Definition equal_byte (a b : N) : N := if (a =? b)%N then N.ones 8 else 0%N.

Lemma same_lanes l : ∀ k n, length l = length k -> ((λ b, of_bit (N.testbit b 7)) <$> zip_with equal_byte l k) = replicate n 1%N -> l = k.
Proof.
  induction l as [|a l IH]; intros [|b k] n Hl H; try done. destruct n as [|n]; [done|]. cbn in H. injection H as H1 H2.
  f_equal; [|by apply (IH k n); [by injection Hl|]]. unfold equal_byte in H1. by destruct (N.eqb_spec a b).
Qed.

Lemma movemask_cmpeq x y : (x < 2 ^ 128)%N -> (y < 2 ^ 128)%N -> (_mm_movemask_epi8 (_mm_cmpeq_epi8 x y) =? 0xffff)%N = (x =? y)%N.
Proof.
  intros Hx Hy.
  assert (∀ l k, Forall (λ a, a < 2 ^ 8)%N (zip_with equal_byte l k)) as Hf.
  { induction l as [|a l IH]; intros [|b k]; cbn; constructor; [|done]. unfold equal_byte. by destruct (a =? b)%N. }
  assert (length (zip_with equal_byte (lanes 8 16 x) (lanes 8 16 y)) = 16%nat) as Hlen by (rewrite length_zip_with, !lanes_length; done).
  unfold _mm_movemask_epi8, _mm_cmpeq_epi8, zip_lanes. fold equal_byte. rewrite lanes_of_lanes' by done.
  apply eq_iff_eq_true. rewrite !N.eqb_eq. split.
  - intros H. assert (((λ b, of_bit (N.testbit b 7)) <$> zip_with equal_byte (lanes 8 16 x) (lanes 8 16 y)) = replicate 16 1%N) as Hones.
    { rewrite <- (lanes_of_lanes' 1 16 (_ <$> _)); [by rewrite H|by rewrite length_fmap|]. apply Forall_fmap, Forall_true. intros b. cbn. by destruct (N.testbit b 7). }
    rewrite <- (of_lanes_lanes 8 16 x), <- (of_lanes_lanes 8 16 y) by done. f_equal.
    apply (same_lanes (lanes 8 16 x) (lanes 8 16 y) 16); [by rewrite !lanes_length|exact Hones].
  - intros <-. assert (zip_with equal_byte (lanes 8 16 x) (lanes 8 16 x) = replicate 16 (N.ones 8)) as ->; [|done].
    rewrite <- (lanes_length 8 16 x) at 3. clear. induction (lanes 8 16 x) as [|a l IH]; [done|]. cbn. rewrite IH. unfold equal_byte at 1. by rewrite N.eqb_refl.
Qed.

(** ** The invariant of the loop *)

Section DecCorrect.
Context (mapped : Z -> bool) (key : bytes) (ctx : ptls_fusion_aesgcm_context_t).
Context (Hctx : context128 key ctx) (Hkeylen : (length key = 16 ∨ length key = 32)%nat).

Abbreviation E := (AES key).
Abbreviation h := (hash_key (AES key)).

Section DecRun.
Context (m : memory) (output input inlen aad aadlen : Z) (ctr : m128).
Context (Hm : byte_memory m) (Hctr : (ctr < 2 ^ 128)%N).
Context (Haad : 0 <= aadlen < 2 ^ 28) (Hin : 0 <= inlen < 2 ^ 28).
Context (Hpa : pages_mapped mapped aad aadlen) (Hpi : pages_mapped mapped input inlen) (Hpo : pages_mapped mapped output inlen).
Context (Hway : one_way input output inlen) (Hapart : apart aad aadlen output inlen).
Context (Hcap : (aadlen + 15) / 16 + (inlen + 15) / 16 + 1 <= Z.of_nat (total ctx)).

Abbreviation c0 := (nonce_of ctr).
Abbreviation ek0_block := (counter_block (nonce_of ctr) 1).
Abbreviation blocks_of l := (of_bytes <$> chunks l).
Definition dec_cipher : bytes := read m input (Z.to_nat inlen).
Definition dec_extra : bytes := read m aad (Z.to_nat aadlen).
Definition dec_plain : bytes := gctr E c0 dec_cipher.
Definition dec_blocks : list m128 := gcm_blocks dec_extra dec_cipher.
Abbreviation last_block := (length_block (length dec_extra) (length dec_cipher)).

Definition opened (d : Z) : memory := write m output (take (Z.to_nat d) dec_plain).

Definition dec_code (first more : bool) : Z := (if first then 1 else 0) + (if more then 2 else 0).

(** The ciphertext from [g] on is to be hashed. *)
Definition dec_pending (a g : Z) (l : dec_locals) (R : list m128) : Prop :=
  aad <= d_aad l ∧ 0 <= d_aadlen l ∧ d_aad l + d_aadlen l <= aad + aadlen ∧
  a <= g <= inlen ∧ src_ghashlen l = inlen - g ∧ src_ghash l = input + g ∧ (g < inlen -> g mod 16 = 0)
  ∧ R = blocks_of (read m (d_aad l) (Z.to_nat (d_aadlen l))) ++ blocks_of (drop (Z.to_nat g) dec_cipher).

Definition more_block (more : bool) : list m128 := if more then [last_block] else [].

(** Before a round: the text up to [a] is written. *)
Record dec_head (first more : bool) (a g : Z) (F R : list m128) (l : dec_locals) (mem : memory) : Prop := {
  dh_range : 0 <= a <= inlen;
  dh_mod : a mod 16 = 0;
  dh_src : src_aes l = input + a ∧ src_aeslen l = inlen - a ∧ d_dst l = output + a;
  dh_ctr : a_ctr (d_aes l) = (c0 + (1 + Z.to_N (a / 16)))%N;
  dh_bits : length (a_bits (d_aes l)) = 6%nat;
  dh_state : a_state (d_aes l) = dec_code first more;
  dh_first : if first then nth 0 (a_bits (d_aes l)) 0%N = _mm_xor_si128 ek0_block (key_m128 (ecb ctx) 0) ∧ nondata_aes_cnt l = 1%nat
             else a_ek0 (d_aes l) = E ek0_block ∧ nondata_aes_cnt l = 0%nat;
  dh_memory : same_memory mem (opened a);
  dh_pending : dec_pending a g l R;
  dh_pos : d_pos l = (length dec_blocks - length F)%nat;
  dh_fed : fed (d_gstate l) (weighted_at h (d_pos l) (bswap <$> F));
  dh_blocks : dec_blocks = F ++ R ++ more_block more;
  dh_rest : more = false -> R = [];
}.

Lemma cipher_length : length dec_cipher = Z.to_nat inlen.
Proof. apply read_length. Qed.

Lemma plain_length : length dec_plain = Z.to_nat inlen.
Proof. unfold dec_plain. by rewrite gctr_length, cipher_length. Qed.

Lemma opened_bytes d : byte_memory (opened d).
Proof. apply write_byte_memory; [done|]. apply Forall_take, gcm_crypt_bytes. Qed.

Lemma len_opened d : 0 <= d <= inlen -> len (take (Z.to_nat d) dec_plain) = d.
Proof. intros Hd. unfold len. rewrite length_take, plain_length. lia. Qed.

Lemma opened_rest a g n : 0 <= a <= g -> g + Z.of_nat n <= inlen -> read (opened a) (input + g) n = take n (drop (Z.to_nat g) dec_cipher).
Proof.
  intros Ha Hn. unfold opened. rewrite read_write_other by (rewrite len_opened by lia; destruct Hway; lia).
  unfold dec_cipher. rewrite drop_read, take_read by lia. f_equal. lia.
Qed.

Lemma opened_extra a p n : 0 <= a <= inlen -> aad <= p -> p + Z.of_nat n <= aad + aadlen -> read (opened a) p n = read m p n.
Proof. intros Ha Hp Hn. unfold opened. rewrite read_write_other; [done|]. rewrite len_opened by done. unfold apart in Hapart. lia. Qed.

Lemma opened_more a n : 0 <= a -> 0 <= n -> a + n <= inlen ->
  same_memory (write (opened a) (output + a) (take (Z.to_nat n) (drop (Z.to_nat a) dec_plain))) (opened (a + n)).
Proof.
  intros Ha Hn Hle. unfold opened. rewrite <- (len_opened a) at 2 by lia. rewrite write_app. f_equiv.
  replace (Z.to_nat (a + n)) with (Z.to_nat a + Z.to_nat n)%nat by lia. apply take_take_drop.
Qed.

Lemma plain_drop a : 0 <= a <= inlen -> a mod 16 = 0 ->
  gcm_crypt E c0 (2 + Z.to_N (a / 16)) (chunks (drop (Z.to_nat a) dec_cipher)) = drop (Z.to_nat a) dec_plain.
Proof.
  intros Ha Hmod. unfold dec_plain. rewrite <- gctr_drop; [f_equal; clear - Ha; div_lia|rewrite cipher_length; lia|clear - Hmod Ha; div_lia].
Qed.

(** [n] bytes with the stream in [bits]. *)
Lemma dec_apply_some a bits mem : 0 <= a <= inlen -> a mod 16 = 0 -> same_memory mem (opened a) ->
  (∀ k b, bits !! k = Some b -> 16 * Z.of_nat k < inlen - a -> b = E (counter_block c0 (2 + Z.to_N (a / 16) + N.of_nat k))) ->
  let n := (inlen - a) `min` (16 * len bits) in
  ∃ mem' src', apply_some mapped bits (input + a) (output + a) (inlen - a) mem = (Ok (src', output + a + n, inlen - a - n), mem') ∧ same_memory mem' (opened (a + n)).
Proof.
  intros Ha Hmod Hmem Hbits n. destruct (apply_some_spec mapped key c0 bits mem (input + a) (output + a) (inlen - a) (2 + Z.to_N (a / 16))) as (mem' & src' & Hr & Hs & _).
  - rewrite Hmem. apply opened_bytes.
  - lia.
  - intros x Hx. apply Hpi. lia.
  - intros x Hx. apply Hpo. lia.
  - destruct Hway; [left|right]; lia.
  - done.
  - exists mem', src'. split; [exact Hr|]. rewrite Hs, Hmem, opened_rest by lia.
    rewrite (take_ge (drop _ _)) by (rewrite length_drop, cipher_length; lia). rewrite plain_drop by done. apply opened_more; [lia| |]; unfold n, len; lia.
Qed.

Lemma dec_apply_block a b mem : 0 <= a -> a + 16 <= inlen -> a mod 16 = 0 -> same_memory mem (opened a) -> b = E (counter_block c0 (2 + Z.to_N (a / 16))) ->
  ∃ mem', apply_block mapped (input + a) (output + a) b mem = (Ok (), mem') ∧ same_memory mem' (opened (a + 16)).
Proof.
  intros Ha Hle Hmod Hmem Hb. destruct (dec_apply_some a [b] mem) as (mem' & src' & Hr & Hs); [lia|done|done| |].
  { intros [|k] x Hx _; [|done]. injection Hx as <-. by rewrite N.add_0_r. }
  cbn [apply_some] in Hr. rewrite (proj2 (Z.leb_le _ _)) in Hr by lia. rewrite M_bind_run in Hr.
  destruct (apply_block mapped (input + a) (output + a) b mem) as [[[]|?] mem1]; [|done]. cbn [mret M_ret] in Hr. injection Hr as _ _ _ <-.
  exists mem1. split; [done|]. replace ((inlen - a) `min` (16 * len [b])) with 16 in Hs; [done|]. unfold len. cbn [length]. lia.
Qed.

Lemma apply_dec_spec bits : ∀ a mem, 0 <= a <= inlen -> a mod 16 = 0 -> same_memory mem (opened a) ->
  (∀ k b, bits !! k = Some b -> b = E (counter_block c0 (2 + Z.to_N (a / 16) + N.of_nat k))) ->
  ∃ a' fin mem', apply_dec mapped bits (input + a) (output + a) (inlen - a) mem = (Ok (input + a', output + a', inlen - a', fin), mem')
    ∧ same_memory mem' (opened a') ∧ a' mod 16 = 0 ∧ a <= a' <= inlen
    ∧ match fin with
      | Some b => inlen - a' <= 16 ∧ b = E (counter_block c0 (2 + Z.to_N (a' / 16))) ∧ a' + 16 <= a + 16 * len bits
      | None => a' = a + 16 * len bits
      end.
Proof.
  induction bits as [|b bits IH]; intros a mem Ha Hmod Hmem Hbits; cbn [apply_dec].
  - exists a, None, mem. split_and!; try done; try lia. unfold len. cbn. lia.
  - pose proof (Hbits 0%nat b eq_refl) as Hb. rewrite N.add_0_r in Hb. pose proof (len_nonneg bits). rewrite len_cons.
    destruct (Z.ltb_spec 16 (inlen - a)) as [Hlt|Hge].
    + rewrite M_bind_run. destruct (dec_apply_block a b mem ltac:(lia) ltac:(lia) Hmod Hmem Hb) as (mem1 & -> & Hmem1).
      destruct (IH (a + 16) mem1) as (a' & fin & mem' & Hr & Hm' & Hmod' & Ha' & Hfin); [lia|clear - Hmod; div_lia|done| |].
      { intros k x Hx. rewrite (Hbits (S k) x Hx). do 2 f_equal. clear - Ha. div_lia. }
      exists a', fin, mem'. rewrite !Z.add_assoc in Hr. replace (inlen - (a + 16)) with (inlen - a - 16) in Hr by lia.
      split_and!; try done; try lia. destruct fin; [|lia]. destruct Hfin as (? & ? & ?). split_and!; [done|done|lia].
    + exists a, (Some b), mem. split_and!; try done; lia.
Qed.

(** *** The blocks to hash *)

Lemma dec_more_flag first more : (Z.land (dec_code first more) STATE_GHASH_HAS_MORE =? 0) = negb more.
Proof. by destruct first, more. Qed.
Lemma dec_no_more first : Z.land (dec_code first true) (Z.lnot STATE_GHASH_HAS_MORE) = dec_code first false.
Proof. by destruct first. Qed.
Lemma dec_first_flag first more : (Z.land (dec_code first more) STATE_IS_FIRST_RUN =? 0) = negb first.
Proof. by destruct first, more. Qed.
Lemma dec_not_first more : Z.land (dec_code true more) (Z.lnot STATE_IS_FIRST_RUN) = dec_code false more.
Proof. by destruct more. Qed.

Lemma set_state_same a : set_state (a_state a) a = a.
Proof. by destruct a. Qed.

Lemma fill_src_spec first more a g l buf mem :
  0 <= a <= g -> g <= inlen -> src_ghashlen l = inlen - g -> src_ghash l = input + g -> (g < inlen -> g mod 16 = 0) ->
  a_state (d_aes l) = dec_code first more -> (length buf <= 6)%nat -> same_memory mem (opened a) -> (more = false -> g = inlen) ->
  ∃ gd Y g' more', fill_src mapped last_block l buf mem
    = (Ok (mkDec (set_state (dec_code first more') (d_aes l)) (d_gstate l) (d_pos l) (d_aad l) (d_aadlen l) (input + g') (inlen - g')
             (src_aes l) (src_aeslen l) (d_dst l) (nondata_aes_cnt l), gd), mem)
    ∧ gdata_holds mapped gd (buf ++ Y) mem
    ∧ blocks_of (drop (Z.to_nat g) dec_cipher) ++ more_block more = Y ++ blocks_of (drop (Z.to_nat g') dec_cipher) ++ more_block more'
    ∧ g <= g' <= inlen ∧ (g' < inlen -> g' mod 16 = 0 ∧ g' = g + 16 * (6 - len buf)) ∧ (more' = false -> g' = inlen).
Proof.
  intros Ha Hg Hgl Hgs Hgm Hst Hbuf Hmem Hmore. unfold fill_src. set (D := drop (Z.to_nat g) dec_cipher).
  assert (len D = inlen - g) as HlD by (unfold D, len; rewrite length_drop, cipher_length; lia).
  destruct (fill_gdata_spec mapped mem) with (fuel := 7%nat) (p := src_ghash l) (D := D) (buf := buf) as (p' & j & X & out & Hr & Hc & Hj & HX & Hp' & Hpp & Hj' & Hout).
  - rewrite Hmem. apply opened_bytes.
  - lia.
  - done.
  - rewrite HlD, Hgs. intros x Hx. apply Hpi. lia.
  - unfold len in HlD. intros n Hn1 Hn2. rewrite Hgs, Hmem, opened_rest by lia. done.
  - rewrite HlD in Hr. rewrite Hgl, M_bind_run, Hr. rewrite Hst, dec_more_flag, negb_involutive, Hgs. unfold len in HlD.
    replace (input + g + (inlen - g - (inlen - g - Z.of_nat j))) with (input + (g + Z.of_nat j)) by lia. replace (inlen - g - Z.of_nat j) with (inlen - (g + Z.of_nat j)) by lia.
    assert (blocks_of (drop (Z.to_nat (g + Z.of_nat j)) dec_cipher) = blocks_of (drop j D)) as HD by (unfold D; rewrite drop_drop; do 3 f_equal; lia).
    assert (g + Z.of_nat j < inlen -> (g + Z.of_nat j) mod 16 = 0 ∧ g + Z.of_nat j = g + 16 * (6 - len buf)) as Hlead.
    { intros Hlt. destruct Hp' as [_ Hmod]; [lia|]. specialize (Hgm ltac:(lia)). split; [clear - Hgm Hmod Ha; div_lia|].
      destruct out; [lia|]. apply (f_equal length) in Hc. rewrite length_app, !length_fmap, !chunks_length, length_drop in Hc. rewrite length_app in Hout. unfold len.
      clear - Hc Hout Hmod Hlt HlD Hj. div_lia. }
    destruct (out && (length (buf ++ X) <? 6)%nat && more) eqn:Hadd.
    + apply andb_true_iff in Hadd as [[-> Hlt%Nat.ltb_lt]%andb_true_iff ->]. rewrite dec_no_more.
      exists (InBuf ((buf ++ X) ++ [last_block])), (X ++ [last_block]), (g + Z.of_nat j), false. split_and!; try done; try lia.
      * rewrite app_assoc. apply holds_buf. rewrite length_app. cbn [length]. lia.
      * rewrite HD, Hc, Hout, drop_ge by lia. cbn. by rewrite !app_nil_r.
    + exists (InBuf (buf ++ X)), X, (g + Z.of_nat j), more. rewrite <- Hst, set_state_same. split_and!; try done; try lia.
      * by apply holds_buf.
      * by rewrite HD, Hc, <- app_assoc.
Qed.

Lemma setup_dec_spec first more a g F R l mem : dec_head first more a g F R l mem ->
  ∃ l' gd G R' g' more' x, setup_gdata_dec mapped last_block l mem = (Ok (l', gd), mem)
    ∧ (d_aes l' = set_state (dec_code first more') (d_aes l) ∧ d_gstate l' = d_gstate l ∧ d_pos l' = d_pos l
       ∧ src_aes l' = src_aes l ∧ src_aeslen l' = src_aeslen l ∧ d_dst l' = d_dst l)
    ∧ nondata_aes_cnt l' = (nondata_aes_cnt l + x)%nat ∧ (x <= length G)%nat
    ∧ gdata_holds mapped gd G mem ∧ R ++ more_block more = G ++ R' ++ more_block more' ∧ dec_pending a g' l' R' ∧ (more' = false -> R' = [])
    ∧ (g' = inlen ∨ a + 16 * (6 - Z.of_nat x) <= g') ∧ (0 < d_aadlen l' -> x = 6%nat).
Proof.
  intros []. destruct dh_pending0 as (Ha & Ha0 & Hae & Hag & Hgl & Hgs & Hgm & HR). unfold setup_gdata_dec.
  assert (more = false -> d_aadlen l = 0 ∧ g = inlen) as Hempty.
  { intros Hm'. specialize (dh_rest0 Hm'). rewrite HR in dh_rest0. apply app_eq_nil in dh_rest0 as [H1%(f_equal length) H2%(f_equal length)].
    rewrite length_fmap, chunks_length, read_length in H1. rewrite length_fmap, chunks_length, length_drop, cipher_length in H2. cbn [length] in H1, H2.
    clear - H1 H2 Ha0 Hag dh_range0. div_lia. }
  destruct (Z.eqb_spec (d_aadlen l) 0) as [H0|H0]; cbn [negb].
  - rewrite H0 in HR. change (read m (d_aad l) (Z.to_nat 0)) with (@nil Z) in HR. cbn [chunks chunks_aux length fmap list_fmap app] in HR.
    destruct (Z.leb_spec (6 * 16) (src_ghashlen l)) as [Hbig|Hsmall].
    + set (D := drop (Z.to_nat g) dec_cipher) in *. assert (length D = Z.to_nat (inlen - g)) as HlD by (unfold D; rewrite length_drop, cipher_length; lia).
      specialize (Hgm ltac:(lia)). assert (length (blocks_of (take 96 D)) = 6%nat) as H6 by (rewrite length_fmap, chunks_length, length_take, HlD, Nat.min_l by lia; done).
      assert (D = take 96 D ++ drop 96 D) as HD by (by rewrite take_drop).
      assert (blocks_of D = blocks_of (take 96 D) ++ blocks_of (drop 96 D)) as Hsplit.
      { rewrite HD at 1. rewrite chunks_app, fmap_app by (rewrite length_take, HlD, Nat.min_l by lia; done). done. }
      eexists _, _, (blocks_of (take 96 D)), (blocks_of (drop 96 D)), (g + 96), more, 0%nat. split; [done|].
      cbn [d_aes d_gstate d_pos src_aes src_aeslen d_dst nondata_aes_cnt d_aadlen]. split_and!; try done; try lia.
      * by rewrite <- dh_state0, set_state_same.
      * split_and!; [done|lia|]. intros i x Hx. cbn [gdata_load]. pose proof (lookup_lt_Some _ _ _ Hx) as Hi. rewrite H6 in Hi.
        rewrite list_lookup_fmap, chunks_lookup in Hx by (rewrite length_take, HlD; lia). apply (inj Some) in Hx as <-.
        rewrite loadu_mapped by (intros y Hy; apply Hpi; lia). rewrite (read_proper _ _ dh_memory0 _ _ eq_refl _ _ eq_refl). do 3 f_equal. rewrite Hgs.
        replace (input + g + 16 * Z.of_nat i) with (input + (g + 16 * Z.of_nat i)) by lia. rewrite opened_rest by lia.
        unfold D. rewrite skipn_firstn_comm, drop_drop, take_take. rewrite Nat.min_l by lia. do 2 f_equal. lia.
      * rewrite HR, Hsplit, <- app_assoc. done.
      * split_and!; cbn [d_aad d_aadlen src_ghashlen src_ghash]; try lia.
        rewrite H0. unfold D. rewrite drop_drop. replace (Z.to_nat (g + 96)) with (Z.to_nat g + 96)%nat by lia. done.
    + destruct (fill_src_spec first more a g l [] mem) as (gd & Y & g' & more' & Hf & Hgd & HY & Hg' & Hlead & Hend); try done; try (cbn; lia).
      eexists _, _, Y, (blocks_of (drop (Z.to_nat g') dec_cipher)), g', more', 0%nat. split; [exact Hf|].
      cbn [d_aes d_gstate d_pos src_aes src_aeslen d_dst nondata_aes_cnt d_aadlen]. split_and!; try done; try lia.
      * by rewrite HR.
      * split_and!; cbn [d_aad d_aadlen src_ghashlen src_ghash]; try done; try lia. by rewrite H0.
      * intros Hm'. rewrite Hend by done. rewrite drop_ge by (rewrite cipher_length; lia). done.
      * destruct (decide (g' < inlen)) as [Hlt|Hge]; [right|left; lia]. destruct Hlead as [_ ->]; [done|]. unfold len. cbn. lia.
  - set (D := read m (d_aad l) (Z.to_nat (d_aadlen l))) in *. assert (len D = d_aadlen l) as HlD by (unfold D, len; rewrite read_length; lia).
    destruct (fill_gdata_spec mapped mem) with (fuel := 7%nat) (p := d_aad l) (D := D) (buf := @nil m128) as (p' & j & X & out & Hr & Hc & Hj & HX & Hp' & Hpp & _ & Hout).
    { rewrite dh_memory0. apply opened_bytes. }
    { cbn. lia. }
    { cbn. lia. }
    { rewrite HlD. intros x Hx. apply Hpa. lia. }
    { unfold len in HlD. intros n Hn1 _. rewrite dh_memory0, opened_extra by lia. unfold D. rewrite take_read by lia. done. }
    rewrite HlD in Hr. rewrite M_bind_run, Hr. cbn [app] in *. unfold len in HlD. assert (more = true) as -> by (destruct more; [done|]; destruct Hempty; [done|]; lia).
    destruct out.
    + match goal with |- context [fill_src mapped last_block ?l1 X] => destruct (fill_src_spec first true a g l1 X mem) as (gd & Y & g' & more' & Hf & Hgd & HY & Hg' & Hlead & Hend) end;
        try done; try lia.
      rewrite Hf. eexists _, _, (X ++ Y), (blocks_of (drop (Z.to_nat g') dec_cipher)), g', more', (length X). split; [done|].
      cbn [d_aes d_gstate d_pos src_aes src_aeslen d_dst nondata_aes_cnt d_aadlen d_aad]. split_and!; try done; try lia.
      * rewrite length_app. lia.
      * rewrite HR, Hc, Hout, drop_ge by lia. cbn [chunks chunks_aux length fmap list_fmap]. by rewrite app_nil_r, <- !app_assoc, HY.
      * split_and!; cbn [d_aad d_aadlen src_ghashlen src_ghash]; try done; try lia.
        replace (Z.to_nat (d_aadlen l - Z.of_nat j)) with 0%nat by lia. done.
      * intros Hm'. rewrite Hend by done. rewrite drop_ge by (rewrite cipher_length; lia). done.
      * destruct (decide (g' < inlen)) as [Hlt|Hge]; [right|left; lia]. destruct Hlead as [_ ->]; [done|]. unfold len. lia.
    + eexists _, _, X, (blocks_of (drop j D) ++ blocks_of (drop (Z.to_nat g) dec_cipher)), g, true, (length X). split; [done|].
      cbn [d_aes d_gstate d_pos src_aes src_aeslen d_dst nondata_aes_cnt d_aadlen d_aad]. split_and!; try done; try lia.
      * by rewrite <- dh_state0, set_state_same.
      * by apply holds_buf.
      * rewrite HR, Hc, <- !app_assoc. done.
      * split_and!; cbn [d_aad d_aadlen src_ghashlen src_ghash]; try done; try lia. do 2 f_equal. destruct (decide (j < length D)%nat) as [Hlt|Hge].
        -- destruct Hp' as [-> _]; [done|]. unfold D. rewrite drop_read. do 2 f_equal. lia.
        -- rewrite drop_ge by lia. replace (Z.to_nat (d_aadlen l - Z.of_nat j)) with 0%nat by lia. done.
Qed.

(** *** A round *)

Lemma INIT_BITS_spec bits : ∀ skip c i, c = (c0 + i)%N -> (i + N.of_nat (length bits) < 2 ^ 32)%N ->
  ∃ bits', INIT_BITS ctx skip c bits = ((c0 + (i + N.of_nat (length bits - skip)))%N, bits') ∧ length bits' = length bits
    ∧ ∀ k, (k < length bits)%nat -> nth k bits' 0%N
      = if (k <? skip)%nat then nth k bits 0%N else _mm_xor_si128 (counter_block c0 (i + 1 + N.of_nat (k - skip))) (key_m128 (ecb ctx) 0).
Proof.
  induction bits as [|b bits IH]; intros skip c i Hc Hi; cbn [INIT_BITS length] in *.
  - exists []. rewrite Hc. split_and!; [|done|lia]. do 2 f_equal. lia.
  - destruct skip as [|skip].
    + destruct (IH 0%nat (_mm_add_epi64 c one8) (i + 1)%N) as (bits' & -> & Hl & Hb); [apply tick; [done|done|lia]|lia|].
      eexists. split; [f_equal; f_equal; lia|]. cbn [length]. split; [lia|]. intros [|k] Hk; cbn [nth].
      * change (0 <? 0)%nat with false. cbv iota. change (N.of_nat (0 - 0)) with 0%N. rewrite (tick ctr Hctr c i) by (done || lia). rewrite shuffle_byteswap, counter_block_eq, N.add_0_r. done.
      * rewrite Hb by lia. change (k <? 0)%nat with false. change (S k <? 0)%nat with false. cbv iota. do 2 f_equal. lia.
    + destruct (IH skip c i Hc ltac:(lia)) as (bits' & -> & Hl & Hb). eexists. split; [done|]. cbn [length]. split; [lia|].
      intros [|k] Hk; cbn [nth]; [done|]. rewrite Hb by lia. done.
Qed.

(** Any registers, seen as blocks before the first round. *)
Lemma slots_any c e b s : length b = 6%nat -> slots ctx None (mkAes6 c e b false s) 1 ((λ x, _mm_xor_si128 x (key_m128 (ecb ctx) 0)) <$> b).
Proof.
  intros Hb. split; [by rewrite length_fmap|]. cbn [a_bits a_supp]. unfold slot_keys, rounds_to. do 6 (destruct b as [|? b]; [done|]). destruct b; [|done].
  cbn [fmap list_fmap zip_with Nat.sub seq foldl]. unfold _mm_xor_si128. by rewrite !N.lxor_assoc, !N.lxor_nilpotent, !N.lxor_0_r.
Qed.

Definition dec_done (more : bool) (a : Z) (F : list m128) (l : dec_locals) (mem : memory) : Prop :=
  0 <= a <= inlen ∧ a mod 16 = 0 ∧ inlen - a <= 16 ∧ (src_aes l = input + a ∧ src_aeslen l = inlen - a ∧ d_dst l = output + a)
  ∧ same_memory mem (opened a) ∧ a_state (d_aes l) = dec_code false more ∧ a_ek0 (d_aes l) = E ek0_block
  ∧ d_pos l = (length dec_blocks - length F)%nat ∧ fed (d_gstate l) (weighted_at h (d_pos l) (bswap <$> F)) ∧ dec_blocks = F ++ more_block more.

(** What is to be done yet. *)
Definition dec_measure (more : bool) (a : Z) (R : list m128) : Z := len R + len (more_block more) + (inlen - a).

Lemma dec_blocks_length : length dec_blocks = Z.to_nat ((aadlen + 15) / 16 + (inlen + 15) / 16 + 1) ∧ (length dec_blocks <= total ctx)%nat.
Proof.
  unfold dec_blocks, gcm_blocks. rewrite !length_app, !length_fmap, !chunks_length, cipher_length. unfold dec_extra. rewrite read_length. cbn [length].
  clear - Hcap Haad Hin. div_lia.
Qed.

Lemma dec_round_spec first more a g F R l mem : dec_head first more a g F R l mem ->
  ∃ l' fin mem', dec_round mapped ctx last_block l mem = (Ok (l', fin), mem') ∧
    match fin with
    | None => ∃ more' a' g' F' R', dec_head false more' a' g' F' R' l' mem' ∧ dec_measure more' a' R' < dec_measure more a R
    | Some b => ∃ more' a' F', dec_done more' a' F' l' mem' ∧ b = E (counter_block c0 (2 + Z.to_N (a' / 16)))
    end.
Proof.
  intros Hh. destruct (setup_dec_spec first more a g F R l mem Hh) as (l1 & gd & G & R' & g' & more' & x & Hset & (Ha1 & Hg1 & Hp1 & Hs1 & Hs2 & Hs3) & Hnd & Hx & Hgd & HR & Hpen & Hrest & Hlead & Haad6).
  destruct Hh, Hgd as (Hcnt & HG & Hload). pose proof dec_blocks_length as [_ Hb]. pose proof (rounds_range ctx key Hctx mapped Hkeylen) as Hr8.
  assert (a / 16 < 2 ^ 28) as Hq by (clear - dh_range0 Hin; change (2 ^ 28) with 268435456 in *; div_lia).
  assert (length dec_blocks = length F + length G + length R' + length (more_block more'))%nat as Hlen.
  { rewrite dh_blocks0, length_app, HR, !length_app. lia. }
  assert (dec_measure more' a R' = dec_measure more a R - len G) as Hmeas.
  { unfold dec_measure, len. apply (f_equal length) in HR. rewrite !length_app in HR. clear - HR. lia. }
  unfold dec_round. rewrite M_bind_run, Hset, Ha1. cbn [a_ctr a_bits a_ek0 a_state set_state].
  destruct (INIT_BITS_spec (a_bits (d_aes l)) (nondata_aes_cnt l1) (a_ctr (d_aes l)) (1 + Z.to_N (a / 16)) dh_ctr0) as (bits & -> & Hbl & Hbits); [rewrite dh_bits0; lia|].
  rewrite dh_bits0 in *. cbv zeta. rewrite Hcnt, M_bind_run. set (A := mkAes6 _ _ bits false _).
  assert (slots ctx None A 1 ((λ x, _mm_xor_si128 x (key_m128 (ecb ctx) 0)) <$> bits)) as Hslots by (by apply slots_any).
  destruct (interleave_spec ctx None key Hctx mapped 1 gd mem _ G 0 A (d_gstate l1) (d_pos l1) F ltac:(lia) Hslots) as (b & gs & Hint & Hb' & Hfed);
    [rewrite Hp1; lia|by rewrite Hp1, Hg1|done|].
  rewrite Hint. destruct (finish_slots ctx None (length G + 1) (with_bits b A) _ ltac:(lia) Hb') as (b2 & -> & Hb2l & Hb2). cbn [a_supp with_bits A] in Hb2.
  assert (∀ k, (k < 6)%nat -> nth k b2 0%N = E (_mm_xor_si128 (nth k bits 0%N) (key_m128 (ecb ctx) 0))) as Hres.
  { intros k Hk. rewrite Hb2, slot_stream with (key := key) by done. f_equal. rewrite !nth_lookup, list_lookup_fmap.
    destruct (lookup_lt_is_Some_2 bits k ltac:(lia)) as [y Hy]. by rewrite Hy. }
  assert (∀ z, _mm_xor_si128 (_mm_xor_si128 z (key_m128 (ecb ctx) 0)) (key_m128 (ecb ctx) 0) = z) as Hxx by (intros; unfold _mm_xor_si128; by rewrite N.lxor_assoc, N.lxor_nilpotent, N.lxor_0_r).
  assert (∀ k, (nondata_aes_cnt l1 <= k < 6)%nat -> nth k b2 0%N = E (counter_block c0 (2 + Z.to_N (a / 16) + N.of_nat (k - nondata_aes_cnt l1)))) as Hstream.
  { intros k Hk. rewrite Hres, Hbits by lia. destruct (Nat.ltb_spec k (nondata_aes_cnt l1)); [lia|]. rewrite Hxx. do 2 f_equal. lia. }
  assert (first = true -> nth 0 b2 0%N = E ek0_block) as Hek0.
  { intros ->. destruct dh_first0 as [Hn0 Hn1]. rewrite Hres, Hbits by lia. destruct (Nat.ltb_spec 0 (nondata_aes_cnt l1)); [|lia]. by rewrite Hn0, Hxx. }
  assert (dec_blocks = (F ++ G) ++ R' ++ more_block more') as Hblocks by (rewrite dh_blocks0, HR, <- !app_assoc; done).
  assert ((d_pos l1 - length G)%nat = (length dec_blocks - length (F ++ G))%nat) as Hpos by (rewrite Hp1, dh_pos0, length_app; clear; lia).
  cbn [a_bits with_bits a_state]. destruct dh_src0 as (Hsrc & Hsrcl & Hdst). rewrite Hs1, Hs2, Hs3, Hsrc, Hsrcl, Hdst.
  destruct ((nondata_aes_cnt l1 =? 0)%nat && (6 * 16 <=? inlen - a)) eqn:Hfast.
  - apply andb_true_iff in Hfast as [Hz%Nat.eqb_eq Hbig%Z.leb_le]. destruct first; [lia|]. destruct dh_first0 as [Hek Hn0].
    assert (len b2 = 6) as Hl6 by (unfold len; lia).
    destruct (dec_apply_some a b2 mem dh_range0 dh_mod0 dh_memory0) as (mem' & src' & Hap & Hmem').
    { intros k y Hy Hk. pose proof (lookup_lt_Some _ _ _ Hy). rewrite <- (nth_lookup_Some _ _ 0%N _ Hy), Hstream by lia. do 3 f_equal. lia. }
    rewrite apply_six_some, M_bind_run in Hap by lia. rewrite M_bind_run.
    destruct (apply_six mapped b2 (input + a) (output + a) mem) as [[[]|?] mem1]; [|done]. cbn [mret M_ret] in Hap. injection Hap as _ _ _ <-.
    replace ((inlen - a) `min` (16 * len b2)) with 96 in Hmem' by lia. eexists _, None, mem1. split; [done|].
    exists more', (a + 96), g', (F ++ G), R'. split; [|unfold dec_measure, len in *; lia].
    split; cbn [d_aes d_gstate d_pos src_aes src_aeslen d_dst a_ctr a_bits a_state a_ek0 with_bits A nondata_aes_cnt]; try done; try lia.
    + destruct Hpen as (? & ? & ? & ? & ? & ? & ? & ?). split_and!; try done; lia.
  - change (a_state A) with (dec_code first more'). rewrite dec_first_flag, negb_involutive. set (A' := if first then _ else _).
    assert (a_bits A' = b2 ∧ a_ctr A' = (c0 + (1 + Z.to_N (a / 16) + N.of_nat (6 - nondata_aes_cnt l1)))%N ∧ a_ek0 A' = E ek0_block ∧ a_state A' = dec_code false more') as (Hab & Hac & Hae & Has).
    { subst A'. destruct first; cbn; [rewrite dec_not_first, Hek0 by done; done|]. destruct dh_first0. done. }
    clearbody A'. rewrite Hab.
    destruct (apply_dec_spec (drop (nondata_aes_cnt l1) b2) a mem dh_range0 dh_mod0 dh_memory0) as (a' & fin & mem' & Hap & Hmem' & Hmod' & Ha' & Hfin).
    { intros k y Hy. rewrite lookup_drop in Hy. pose proof (lookup_lt_Some _ _ _ Hy). rewrite <- (nth_lookup_Some _ _ 0%N _ Hy), Hstream by lia. do 3 f_equal. lia. }
    assert (len (drop (nondata_aes_cnt l1) b2) = Z.of_nat (6 - nondata_aes_cnt l1)) as Hld by (unfold len; rewrite length_drop; lia). rewrite Hld in Hfin.
    rewrite M_bind_run, Hap. eexists _, fin, mem'. split; [done|]. destruct fin as [y|].
    + destruct Hfin as (Hle & Hy & Hslot). exists more', a', (F ++ G). split; [|done].
      assert (R' = []) as HR'.
      { destruct Hpen as (_ & Hz0 & _ & Hgr & _ & _ & _ & ->). assert (d_aadlen l1 = 0) as -> by lia. assert (g' = inlen) as -> by lia.
        rewrite (drop_ge dec_cipher) by (rewrite cipher_length; lia). done. }
      rewrite HR' in Hblocks. split_and!; cbn [d_aes d_gstate d_pos src_aes src_aeslen d_dst]; try done; lia.
    + exists more', a', g', (F ++ G), R'. split.
      * split; cbn [d_aes d_gstate d_pos src_aes src_aeslen d_dst nondata_aes_cnt]; try done; try lia.
        { by rewrite Hab. }
        destruct Hpen as (? & ? & ? & ? & ? & ? & ? & ?). split_and!; try done; lia.
      * unfold dec_measure, len in *. destruct first; lia.
Qed.

Lemma dec_loop_spec fuel : ∀ first more a g F R l mem, dec_head first more a g F R l mem -> dec_measure more a R < Z.of_nat fuel ->
  ∃ more' a' F' l' mem', dec_loop mapped ctx last_block fuel l mem = (Ok (l', E (counter_block c0 (2 + Z.to_N (a' / 16)))), mem') ∧ dec_done more' a' F' l' mem'.
Proof.
  induction fuel as [|fuel IH]; intros first more a g F R l mem Hh Hf.
  { pose proof (dh_range _ _ _ _ _ _ _ _ Hh). unfold dec_measure in Hf. pose proof (len_nonneg R). pose proof (len_nonneg (more_block more)). lia. }
  cbn [dec_loop]. destruct (dec_round_spec first more a g F R l mem Hh) as (l' & fin & mem' & Hr & Hfin). rewrite M_bind_run, Hr. destruct fin as [b|].
  - destruct Hfin as (more' & a' & F' & Hd & ->). by exists more', a', F', l', mem'.
  - destruct Hfin as (more' & a' & g' & F' & R' & Hh' & Hlt). eapply IH; [done|lia].
Qed.

(** The hash of all the blocks. *)
Lemma dec_all_fed g : fed g (weighted_at h 0 (bswap <$> dec_blocks)) -> g_lo (gfmul_reduce128 g) = gcm_hash h dec_extra dec_cipher.
Proof.
  intros Hg. unfold gcm_hash. fold dec_blocks. destruct dec_blocks as [|x xs] eqn:Eb; [by pose proof (proj1 dec_blocks_length) as Hl; rewrite Eb in Hl; clear - Hl Haad Hin; cbn in Hl; div_lia|].
  cbn [fmap list_fmap]. rewrite ghash_weighted, <- weighted_at_0, N.lxor_0_l; [|apply hash_key_lt|done|constructor; [apply bswap_lt|apply Forall_fmap, Forall_true; intros; apply bswap_lt]].
  apply fed_reduce; [done|]. apply weighted_at_lt, hash_key_lt.
Qed.

(** The last block of the text. *)
Lemma dec_last more a F l mem : dec_done more a F l mem ->
  ∃ mem', (if src_aeslen l =? 16 then apply_block mapped (src_aes l) (d_dst l) (E (counter_block c0 (2 + Z.to_N (a / 16))))
           else if negb (src_aeslen l =? 0) then
             v ← loadn128 mapped (src_aes l) (src_aeslen l);
             storen128 mapped (d_dst l) (Z.to_nat (src_aeslen l)) (_mm_xor_si128 v (E (counter_block c0 (2 + Z.to_N (a / 16)))))
           else mret ()) mem = (Ok (), mem') ∧ same_memory mem' (opened inlen).
Proof.
  intros (Ha & Hmod & Hle & (-> & -> & ->) & Hmem & _). destruct (Z.eqb_spec (inlen - a) 16) as [H16|H16].
  - destruct (dec_apply_block a (E (counter_block c0 (2 + Z.to_N (a / 16)))) mem) as (mem' & Hr & Hm'); [lia|lia|done|done|done|].
    exists mem'. split; [done|]. by replace inlen with (a + 16) by lia.
  - destruct (Z.eqb_spec (inlen - a) 0) as [H0|H0]; cbn [negb].
    + exists mem. split; [done|]. by replace inlen with a by lia.
    + destruct (dec_apply_some a [E (counter_block c0 (2 + Z.to_N (a / 16)))] mem) as (mem' & src' & Hr & Hs); [lia|done|done| |].
      { intros [|k] x Hx _; [|done]. injection Hx as <-. by rewrite N.add_0_r. }
      cbn [apply_some] in Hr. rewrite (proj2 (Z.leb_gt _ _)), (proj2 (Z.eqb_neq _ _)) in Hr by lia. cbn [negb] in Hr. rewrite M_bind_run in Hr. rewrite M_bind_run.
      destruct (loadn128 mapped (input + a) (inlen - a) mem) as [[v|?] mem1]; [|done]. rewrite M_bind_run in Hr.
      destruct (storen128 mapped (output + a) (Z.to_nat (inlen - a)) _ mem1) as [[[]|?] mem2]; [|done]. cbn [mret M_ret] in Hr. injection Hr as _ _ _ <-.
      exists mem2. split; [done|]. replace (a + (inlen - a) `min` (16 * len [E (counter_block c0 (2 + Z.to_N (a / 16)))])) with inlen in Hs; [done|].
      unfold len. cbn [length]. lia.
Qed.

Context (tag : Z) (Hlow : (ctr mod 2 ^ 32 = 0)%N) (Hpt : pages_mapped mapped tag 16) (Htag : apart tag 16 output inlen).

Lemma decrypt_spec : ∃ m', ptls_fusion_aesgcm_decrypt mapped ctx output input inlen ctr aad aadlen tag m
    = (Ok (gcm_tag E c0 dec_extra dec_cipher =? of_bytes (read m tag 16))%N, m')
  ∧ same_memory m' (write m output dec_plain).
Proof.
  pose proof dec_blocks_length as [Hlen Htotal].
  assert (lengths_register aadlen inlen = last_block) as Hac.
  { rewrite lengths_register_spec by lia. f_equal; [unfold dec_extra; by rewrite read_length|by rewrite cipher_length]. }
  assert (_mm_add_epi64 ctr one8 = (c0 + 1)%N) as Htick.
  { apply (tick ctr Hctr ctr 0); [|done]. unfold nonce_of. rewrite N.add_0_r. pose proof (N.div_mod ctr (2 ^ 32) ltac:(done)) as Hdm. rewrite Hlow, N.add_0_r in Hdm. done. }
  unfold ptls_fusion_aesgcm_decrypt. cbv zeta. rewrite Hac, Htick, shuffle_byteswap, counter_block_eq.
  set (l0 := mkDec _ _ _ _ _ _ _ _ _ _ _).
  assert (dec_head true true 0 0 [] (blocks_of dec_extra ++ blocks_of dec_cipher) l0 m) as Hhead.
  { split; cbn [l0 d_aes d_gstate d_pos src_aes src_aeslen d_dst a_ctr a_bits a_state a_ek0 nondata_aes_cnt].
    - lia.
    - done.
    - lia.
    - done.
    - done.
    - done.
    - done.
    - intros x. unfold opened. by rewrite write_nil.
    - split_and!; cbn [l0 d_aad d_aadlen src_ghash src_ghashlen]; try done; try lia.
    - cbn [length]. lia.
    - apply fed_zero.
    - unfold dec_blocks, gcm_blocks. cbn [app more_block]. by rewrite <- app_assoc.
    - done. }
  destruct (dec_loop_spec (Z.to_nat ((aadlen + 15) / 16 + (inlen + 15) / 16 + 1 + inlen) + 3) _ _ _ _ _ _ _ _ Hhead) as (more & a & F & l & mem & Hloop & Hd).
  { unfold dec_measure, len. rewrite length_app, !length_fmap, !chunks_length, cipher_length. unfold dec_extra. rewrite read_length. cbn [more_block length].
    clear - Haad Hin. div_lia. }
  rewrite M_bind_run, Hloop. destruct (dec_last more a F l mem Hd) as (mem' & Hlast & Hmem'). rewrite M_bind_run, Hlast.
  destruct Hd as (_ & _ & _ & _ & _ & Hst & Hek & Hpos & Hfed & Hblocks). rewrite Hst, dec_first_flag, dec_more_flag, !negb_involutive. cbn [when]. rewrite M_bind_run. cbn [mret M_ret].
  assert (∃ g, (if more then if (d_pos l =? 1)%nat then fst <$> ghash_step ctx (d_gstate l) (d_pos l) last_block else Err ABORTED else Ok (d_gstate l)) = Ok g
    ∧ fed g (weighted_at h 0 (bswap <$> dec_blocks))) as (gs & Hg & Hgf).
  { assert (d_pos l = length (more_block more)) as Hp by (rewrite Hpos, Hblocks, length_app; clear; lia). rewrite Hblocks. destruct more; cbn [more_block length] in *.
    - rewrite Hp in *. destruct (ghash_step_fed ctx key Hctx (d_gstate l) 1 F last_block ltac:(rewrite Hblocks, length_app in Htotal; cbn [length] in Htotal; lia) Hfed) as (g' & -> & Hg'). by exists g'.
    - rewrite Hp in Hfed. rewrite app_nil_r. by exists (d_gstate l). }
  rewrite Hg, M_bind_run. cbn [lift]. rewrite M_bind_run, loadu_mapped by done. exists mem'. cbn [mret M_ret]. split.
  - assert (read mem' tag 16 = read m tag 16) as ->.
    { rewrite Hmem'. unfold opened. apply read_write_other. rewrite len_opened by lia. unfold apart in Htag. lia. }
    assert (gfmul_get_tag128 (gfmul_reduce128 gs) (a_ek0 (d_aes l)) = gcm_tag E c0 dec_extra dec_cipher) as ->.
    { unfold gfmul_get_tag128, gcm_tag, _mm_xor_si128. by rewrite shuffle_byteswap, dec_all_fed, Hek. }
    rewrite movemask_cmpeq; [done| |].
    + unfold gcm_tag. apply lxor_lt_pow2; [apply bswap_lt|apply AES_lt].
    + apply (of_bytes_lt (read m tag 16)). by apply read_bytes.
  - rewrite Hmem'. unfold opened. rewrite take_ge by (rewrite plain_length; lia). done.
Qed.

End DecRun.
End DecCorrect.

(** C29: the one-pass decryption is AES-GCM.  For a context whose table is long enough for the blocks, a counter whose
    lowest 32 bits are zero, additional data and a tag apart from the output, and a ciphertext that is
    apart from the output or not before it (in place included), [ptls_fusion_aesgcm_decrypt] ends, its
    assertions hold, it reads only pages that hold its arguments, it returns whether the tag is that of
    AES-GCM over the ciphertext as it was given, and it leaves memory as it was but for the output, which
    is the text. *)
Theorem decrypt_correct mapped key ctx m output input inlen ctr aad aadlen tag :
  context128 key ctx -> (length key = 16 ∨ length key = 32)%nat -> byte_memory m -> (ctr < 2 ^ 128)%N -> (ctr mod 2 ^ 32 = 0)%N ->
  0 <= aadlen < 2 ^ 28 -> 0 <= inlen < 2 ^ 28 -> aesgcm_calc_ghash_cnt (aadlen + inlen) <= ghash_cnt ctx ->
  pages_mapped mapped aad aadlen -> pages_mapped mapped input inlen -> pages_mapped mapped output inlen -> pages_mapped mapped tag 16 ->
  one_way input output inlen -> apart aad aadlen output inlen -> apart tag 16 output inlen ->
  let a := read m aad (Z.to_nat aadlen) in
  let c := read m input (Z.to_nat inlen) in
  ∃ m', ptls_fusion_aesgcm_decrypt mapped ctx output input inlen ctr aad aadlen tag m
      = (Ok (gcm_tag (AES key) (nonce_of ctr) a c =? of_bytes (read m tag 16))%N, m')
    ∧ same_memory m' (write m output (gctr (AES key) (nonce_of ctr) c)).
Proof.
  intros Hc Hk Hm Hctr Hlow Ha Hi Hcap Hpa Hpi Hpo Hpt Hway Hap Htag.
  apply (decrypt_spec mapped key ctx Hc Hk m output input inlen aad aadlen ctr); try done. by apply (room_enough key).
Qed.

(** ** Evaluation *)

(** 150 bytes in place, the tag behind them. *)
Lemma decrypt_correct_witness :
  let c := read no_memory 1000 150 in
  ∃ m', ptls_fusion_aesgcm_decrypt (λ _, true) (zero_context 200 false) 1000 1000 150 (2 ^ 32 * 9) 900 20 1150 no_memory
      = (Ok (gcm_tag (AES zero_key) (nonce_of (2 ^ 32 * 9)) (read no_memory 900 20) c =? of_bytes (read no_memory 1150 16))%N, m')
    ∧ same_memory m' (write no_memory 1000 (gctr (AES zero_key) (nonce_of (2 ^ 32 * 9)) c)).
Proof.
  destruct (zero_context_ok 200 false ltac:(lia)) as (Hok & Hcap & Hni).
  apply (decrypt_correct (λ _, true) zero_key (zero_context 200 false) no_memory 1000 1000 150 (2 ^ 32 * 9) 900 20 1150);
    [by split|by left|apply no_memory_bytes|reflexivity|reflexivity|lia|lia|apply (zero_context_room 200 false 170); lia|intros ? ?; reflexivity|intros ? ?; reflexivity|intros ? ?; reflexivity|intros ? ?; reflexivity|left; lia|left; lia|right; lia].
Defined.
