(* ===== verification/FusionAead.v ===== *)
(** * FusionAead: the ciphers that the engine offers to TLS and QUIC ([lib/fusion.c])

    [struct ctr_context] is AES-CTR for a single block, which hides packet numbers; [struct aesgcm_context]
    is AES-GCM behind the callbacks of an AEAD: it keeps the static IV as a number, a context that grows
    with the lengths it meets, and a buffer to gather scattered input in.  The theorems say that these
    callbacks are AES-GCM with the nonces of TLS. *)

From S2P Require Import Prelude Constants Buffer Wire Crypto Cipher Gf2 Simd FusionGhash FusionAes FusionLoad FusionContext Gcm FusionIter FusionEncrypt FusionDecrypt.

#[local] Open Scope Z_scope.

(** ** AES-CTR *)

(* src lib/fusion.c:98-103 ctr_context *)
Record ctr_context := mkCtr { c_fusion : ptls_fusion_aesecb_context_t; c_bits : m128; c_is_ready : bool }.

Section Ctr.
Context (mapped : Z -> bool).

(* src lib/fusion.c:1159-1164 ctr_dispose *)
Definition ctr_dispose (ctx : ctr_context) : ctr_context := mkCtr (ptls_fusion_aesecb_dispose (c_fusion ctx)) _mm_setzero_si128 (c_is_ready ctx).

(* src lib/fusion.c:1166-1171 ctr_init *)
Definition ctr_init (ctx : ctr_context) (iv : Z) : M memory ctr_context :=
  v ← _mm_loadu_si128 mapped iv;
  mret (mkCtr (c_fusion ctx) (aesecb_encrypt (c_fusion ctx) v) true).

(* src lib/fusion.c:1173-1186 ctr_transform *)
Definition ctr_transform (ctx : ctr_context) (output input len : Z) : M memory ctr_context :=
  when (negb (c_is_ready ctx && (len <=? 16))) (fail ABORTED);;
  let ctx := mkCtr (c_fusion ctx) (c_bits ctx) false in
  (if len <? 16 then
     v ← loadn128 mapped input len;
     storen128 mapped output (Z.to_nat len) (_mm_xor_si128 (c_bits ctx) v)
   else
     v ← _mm_loadu_si128 mapped input;
     _mm_storeu_si128 mapped output (_mm_xor_si128 (c_bits ctx) v));;
  mret ctx.

(** [ctx]: what the memory of the context held. *)
(* src lib/fusion.c:1188-1199 aesctr_setup *)
Definition aesctr_setup (ctx : ctr_context) (is_enc : bool) (key : bytes) (key_size : Z) : result ctr_context :=
  c ← ptls_fusion_aesecb_init (c_fusion ctx) true key key_size false;
  Ok (mkCtr c (c_bits ctx) false).

(* src lib/fusion.c:1201-1204 aes128ctr_setup *)
Definition aes128ctr_setup (ctx : ctr_context) (is_enc : bool) (key : bytes) : result ctr_context := aesctr_setup ctx is_enc key PTLS_AES128_KEY_SIZE.

(* src lib/fusion.c:1206-1209 aes256ctr_setup *)
Definition aes256ctr_setup (ctx : ctr_context) (is_enc : bool) (key : bytes) : result ctr_context := aesctr_setup ctx is_enc key PTLS_AES256_KEY_SIZE.

End Ctr.

(** ** AES-GCM *)

(** The context, [None] when it is NULL; the address of [scratch]. *)
(* src lib/fusion.c:105-114 aesgcm_context *)
Record aesgcm_context := mkAesgcm { aesgcm : option ptls_fusion_aesgcm_context_t; scratch : option Z; scratch_capacity : Z; gcm_static_iv : m128 }.

(* src lib/fusion.c:1269-1276 calc_counter *)
Definition calc_counter (ctx : aesgcm_context) (seq : Z) : m128 :=
  let ctr := _mm_setzero_si128 in
  let ctr := _mm_insert_epi64 ctr (Z.to_N seq) 0 in
  let ctr := _mm_slli_si128 ctr 4 in
  _mm_xor_si128 (gcm_static_iv ctx) ctr.

Section Aead.
Context `{Allocator} (mapped : Z -> bool).

(** [ptls_clear_memory(p, n)] *)
Definition clear_bytes (p n : Z) : M memory unit := store_bytes mapped p (replicate (Z.to_nat n) 0).

Fixpoint load_bytes (p : Z) (n : nat) : M memory bytes :=
  match n with O => mret [] | S n => b ← load mapped 1 p; l ← load_bytes (p + 1) n; mret (b ++ l) end.

(** [memmove(dst, src, n)] *)
Definition memmove (dst src n : Z) : M memory unit := l ← load_bytes src (Z.to_nat n); store_bytes mapped dst l.

(* src lib/fusion.c:1211-1223 aesgcm_dispose_crypto *)
Definition aesgcm_dispose_crypto (ctx : aesgcm_context) : M memory aesgcm_context :=
  match scratch ctx with
  | Some p => clear_bytes p (scratch_capacity ctx);; mret (mkAesgcm None None 0 (gcm_static_iv ctx))
  | None => mret (mkAesgcm None None (scratch_capacity ctx) (gcm_static_iv ctx))
  end.

(* src lib/fusion.c:1225-1238 aesgcm_get_scratch *)
Definition aesgcm_get_scratch (ctx : aesgcm_context) (required : Z) : M memory (Z * aesgcm_context) :=
  ctx ← (if scratch_capacity ctx <? required then
           match malloc required with
           | None => fail ABORTED
           | Some (newp, _) =>
               match scratch ctx with Some p => clear_bytes p (scratch_capacity ctx) | None => mret () end;;
               mret (mkAesgcm (aesgcm ctx) (Some newp) required (gcm_static_iv ctx))
           end
         else mret ctx);
  match scratch ctx with Some p => mret (p, ctx) | None => mret (0, ctx) end.

(* src lib/fusion.c:1240-1250 aesgcm_ensure_capacity *)
Definition aesgcm_ensure_capacity (ctx : aesgcm_context) (textlen aadlen : Z) : M memory (ptls_fusion_aesgcm_context_t * aesgcm_context) :=
  when (SIZE_MAX - textlen <? aadlen) (fail ABORTED);;
  let required := textlen + aadlen in
  match aesgcm ctx with
  | None => fail ABORTED
  | Some c =>
      if capacity c <? required then
        match ptls_fusion_aesgcm_set_capacity c required with
        | None => fail ABORTED
        | Some c => mret (c, mkAesgcm (Some c) (scratch ctx) (scratch_capacity ctx) (gcm_static_iv ctx))
        end
      else mret (c, ctx)
  end.

(** [assert(!"FIXME")] *)
(* src lib/fusion.c:1252-1255 aead_do_encrypt_init *)
Definition aead_do_encrypt_init (ctx : aesgcm_context) : M memory aesgcm_context := fail ABORTED.
(* src lib/fusion.c:1257-1261 aead_do_encrypt_update *)
Definition aead_do_encrypt_update (ctx : aesgcm_context) : M memory aesgcm_context := fail ABORTED.
(* src lib/fusion.c:1263-1267 aead_do_encrypt_final *)
Definition aead_do_encrypt_final (ctx : aesgcm_context) : M memory aesgcm_context := fail ABORTED.

(* src lib/fusion.c:1278-1285 aead_do_encrypt *)
Definition aead_do_encrypt (ctx : aesgcm_context) (output input inlen seq aad aadlen : Z) (supp : option fusion_supp) : M memory aesgcm_context :=
  '(c, ctx) ← aesgcm_ensure_capacity ctx inlen aadlen;
  ptls_fusion_aesgcm_encrypt mapped c supp output input inlen (calc_counter ctx seq) aad aadlen;;
  mret ctx.

(* src include/zpicotls.h:2267-2277 ptls_aead__sum_iovec *)
Fixpoint sum_iovec (input : list ptls_iovec_t) (inlen : Z) : result Z :=
  match input with
  | [] => Ok inlen
  | i :: input => _ ← guard_err (iov_len i <=? SIZE_MAX - inlen) ABORTED; sum_iovec input (inlen + iov_len i)
  end.

(** An input that overlaps with the output, and is not where it will be gathered. *)
(* src lib/fusion.c:1300-1310 use_scratch *)
Fixpoint use_scratch (output inlen off : Z) (input : list ptls_iovec_t) : bool :=
  match input with
  | [] => false
  | i :: input =>
      let in_start := base i in let in_end := in_start + iov_len i in
      let out_start := output in let out_end := out_start + inlen in
      if negb (iov_len i =? 0) && (in_start <? out_end) && (out_start <? in_end) && negb (base i =? output + off) then true
      else use_scratch output inlen (off + iov_len i) input
  end.

(* src lib/fusion.c:1315-1320 memmove *)
Fixpoint gather (buf off : Z) (input : list ptls_iovec_t) : M memory unit :=
  match input with
  | [] => mret ()
  | i :: input =>
      (if negb (iov_len i =? 0) then memmove (buf + off) (base i) (iov_len i) else mret ());;
      gather buf (off + iov_len i) input
  end.

(* src lib/fusion.c:1287-1326 aead_do_encrypt_v *)
Definition aead_do_encrypt_v (ctx : aesgcm_context) (output : Z) (input : list ptls_iovec_t) (seq aad aadlen : Z) : M memory aesgcm_context :=
  inlen ← lift (sum_iovec input 0);
  match input with
  | [i] => aead_do_encrypt ctx output (base i) (iov_len i) seq aad aadlen None
  | _ =>
      let us := use_scratch output inlen 0 input in
      '(buf, ctx) ← (if us then aesgcm_get_scratch ctx inlen else mret (output, ctx));
      gather buf 0 input;;
      ctx ← aead_do_encrypt ctx output buf inlen seq aad aadlen None;
      (if us then clear_bytes buf inlen else mret ());;
      mret ctx
  end.

(** With a context of [aesctr_setup]. *)
(* src include/zpicotls.h:2305-2312 ptls_aead__do_supplementary *)
Definition do_supplementary (supp : option fusion_supp) : M memory unit :=
  match supp with
  | Some s =>
      c ← ctr_init mapped (mkCtr (s_ecb s) 0 false) (s_input s);
      clear_bytes (s_output s) 16;;
      ctr_transform mapped c (s_output s) (s_output s) 16;;
      mret ()
  | None => mret ()
  end.

(* src lib/fusion.c:1328-1339 aead_do_encrypt_v_s *)
Definition aead_do_encrypt_v_s (ctx : aesgcm_context) (output : Z) (input : list ptls_iovec_t) (seq aad aadlen : Z) (supp : option fusion_supp)
    : M memory aesgcm_context :=
  inlen ← lift (sum_iovec input 0);
  let input_iter := fusion_input_iovec input in
  '(c, ctx) ← aesgcm_ensure_capacity ctx inlen aadlen;
  fusion_aesgcm_encrypt_iter mapped c output input_iter inlen (calc_counter ctx seq) aad aadlen;;
  do_supplementary supp;;
  mret ctx.

(** [None] is [SIZE_MAX]. *)
(* src lib/fusion.c:1341-1355 aead_do_decrypt *)
Definition aead_do_decrypt (ctx : aesgcm_context) (output input inlen seq aad aadlen : Z) : M memory (option Z * aesgcm_context) :=
  if inlen <? 16 then mret (None, ctx)
  else
    let enclen := inlen - 16 in
    '(c, ctx) ← aesgcm_ensure_capacity ctx enclen aadlen;
    ok ← ptls_fusion_aesgcm_decrypt mapped c output input enclen (calc_counter ctx seq) aad aadlen (input + enclen);
    mret (if ok : bool then Some enclen else None, ctx).

(* src lib/fusion.c:1357-1363 aesgcm_get_iv *)
Definition aesgcm_get_iv (ctx : aesgcm_context) (iv : Z) : M memory unit :=
  storen128 mapped iv (Z.to_nat PTLS_AESGCM_IV_SIZE) (_mm_shuffle_epi8 (gcm_static_iv ctx) byteswap128).

(* src lib/fusion.c:1365-1371 aesgcm_set_iv *)
Definition aesgcm_set_iv (ctx : aesgcm_context) (iv : Z) : M memory aesgcm_context :=
  v ← loadn128 mapped iv PTLS_AESGCM_IV_SIZE;
  mret (mkAesgcm (aesgcm ctx) (scratch ctx) (scratch_capacity ctx) (_mm_shuffle_epi8 v byteswap128)).

(** Without a key only the IV is set: the pointer to the context is what it was. *)
(* src lib/fusion.c:1373-1398 aesgcm_setup *)
Definition aesgcm_setup (uninit : ptls_fusion_aesecb_context_t) (ctx : aesgcm_context) (is_enc : bool) (key : option bytes) (iv : Z) (key_size : Z)
    : M memory aesgcm_context :=
  v ← loadn128 mapped iv PTLS_AESGCM_IV_SIZE;
  let static_iv := _mm_shuffle_epi8 v byteswap128 in
  match key with
  | None => mret (mkAesgcm (aesgcm ctx) None 0 static_iv)
  | Some key =>
      r ← lift (new_aesgcm uninit key key_size 1500 false);
      match r with None => fail ABORTED | Some c => mret (mkAesgcm (Some c) None 0 static_iv) end
  end.

(* src lib/fusion.c:1400-1403 aes128gcm_setup *)
Definition aes128gcm_setup uninit ctx is_enc key iv := aesgcm_setup uninit ctx is_enc key iv PTLS_AES128_KEY_SIZE.

(* src lib/fusion.c:1405-1408 aes256gcm_setup *)
Definition aes256gcm_setup uninit ctx is_enc key iv := aesgcm_setup uninit ctx is_enc key iv PTLS_AES256_KEY_SIZE.

End Aead.

(** ** The processor *)

Record cpuid_t := mkCpuid { eax : Z; ebx : Z; ecx : Z }.

Section Cpu.
(** What CPUID answers for a leaf. *)
Context (cpuid : Z -> cpuid_t).

(** With [_WIN32]; the result, and [ptls_fusion_can_aesni256] after it. *)
(* src lib/fusion.c:2427-2456 ptls_fusion_is_supported_by_cpu *)
Definition ptls_fusion_is_supported_by_cpu_windows (can_aesni256 : bool) : bool * bool :=
  if 7 <=? eax (cpuid 0) then
    let leaf1_ecx := ecx (cpuid 1) in
    if negb (Z.land leaf1_ecx (Z.shiftl 1 5) =? 0) && negb (Z.land leaf1_ecx (Z.shiftl 1 25) =? 0) then
      let is_supported := negb (Z.land (ebx (cpuid 7)) (Z.shiftl 1 5) =? 0) in
      (is_supported, if is_supported && negb (Z.land (ecx (cpuid 7)) 0x600 =? 0) && negb can_aesni256 then true else can_aesni256)
    else (false, can_aesni256)
  else (false, can_aesni256).

(* src lib/fusion.c:2458-2486 ptls_fusion_is_supported_by_cpu *)
Definition ptls_fusion_is_supported_by_cpu (can_aesni256 : bool) : bool * bool :=
  if eax (cpuid 0) <? 7 then (false, can_aesni256)
  else
    let leaf1_ecx := ecx (cpuid 1) in let leaf7_ebx := ebx (cpuid 7) in let leaf7_ecx := ecx (cpuid 7) in
    if Z.land leaf7_ebx (Z.shiftl 1 5) =? 0 then (false, can_aesni256)
    else if Z.land leaf1_ecx (Z.shiftl 1 25) =? 0 then (false, can_aesni256)
    else if Z.land leaf1_ecx (Z.shiftl 1 1) =? 0 then (false, can_aesni256)
    else (true, if negb (Z.land leaf7_ecx 0x600 =? 0) && negb can_aesni256 then true else can_aesni256).

End Cpu.

(** ** Nonces *)

Lemma of_bytes_rev (l : bytes) : is_bytes l -> of_bytes (rev l) = Z.to_N (be_decode l).
Proof.
  induction l as [|b l IH] using rev_ind; intros Hl; [done|]. apply Forall_app in Hl as [Hl Hb]. apply Forall_inv in Hb. specialize (IH Hl).
  rewrite rev_app_distr. change (rev [b] ++ rev l) with (b :: rev l). change (of_bytes (b :: rev l)) with (Z.to_N b + 2 ^ 8 * of_bytes (rev l))%N. rewrite IH.
  unfold be_decode. rewrite foldl_app. cbn [foldl]. fold (be_decode l). unfold is_byte in Hb.
  assert (0 <= be_decode l) as Hd by (by apply be_decode_bound). lia.
Qed.

(** Twelve bytes in the upper bits of a register. *)
Lemma bswap_short l : is_bytes l -> length l = 12%nat -> bswap (of_bytes l) = (2 ^ 32 * of_bytes (rev l))%N.
Proof.
  intros Hl Hlen. unfold bswap. rewrite <- (of_bytes_zeros l 4), lanes_of_bytes; [|apply Forall_app; split; [done|by apply Forall_replicate]|rewrite length_app, length_replicate; lia].
  rewrite fmap_app, rev_app_distr. change (rev (Z.to_N <$> replicate 4 0)) with (replicate 4 0%N). rewrite of_lanes_app. change (of_lanes 8 (replicate 4 0%N)) with 0%N.
  rewrite N.add_0_l. unfold of_bytes. change (Z.to_N <$> rev l) with (map Z.to_N (rev l)). by rewrite map_rev.
Qed.

Lemma zip_rev (l k : bytes) : length l = length k -> rev (zip_with Z.lxor l k) = zip_with Z.lxor (rev l) (rev k).
Proof.
  revert k. induction l as [|a l IH]; intros [|b k] Hl; try done. cbn. rewrite IH by (by injection Hl).
  rewrite zip_with_app by (rewrite !length_rev; by injection Hl). done.
Qed.

Lemma of_bytes_zip l k : is_bytes l -> is_bytes k -> length l = length k -> of_bytes (zip_with Z.lxor l k) = N.lxor (of_bytes l) (of_bytes k).
Proof.
  intros Hl Hk Hlen. rewrite <- (of_to_bytes (length l) (N.lxor (of_bytes l) (of_bytes k))).
  - rewrite to_bytes_lxor, !to_of_bytes by done. done.
  - apply lxor_lt_pow2; [by apply of_bytes_lt|rewrite Hlen; by apply of_bytes_lt].
Qed.

(** The register that the counters start from. *)
Definition nonce_register (iv : bytes) (seq : Z) : m128 := bswap (of_bytes (ptls_aead__build_iv PTLS_AESGCM_IV_SIZE iv seq)).

Lemma calc_counter_nonce ctx iv seq : is_bytes iv -> length iv = 12%nat -> 0 <= seq < 2 ^ 64 -> gcm_static_iv ctx = bswap (of_bytes iv) ->
  calc_counter ctx seq = nonce_register iv seq ∧ (nonce_register iv seq < 2 ^ 128)%N ∧ (nonce_register iv seq mod 2 ^ 32 = 0)%N.
Proof.
  intros Hb Hl Hseq Hiv. unfold nonce_register, ptls_aead__build_iv. change (Z.to_nat (PTLS_AESGCM_IV_SIZE - 8)) with 4%nat. rewrite build_iv_seq.
  rewrite (take_ge (drop 4 iv)) by (rewrite length_drop; lia). set (k := zip_with Z.lxor (drop 4 iv) (be_encode 8 seq)).
  assert (is_bytes (drop 4 iv) ∧ is_bytes (take 4 iv)) as [Hbd Hbt] by (split; [by apply Forall_drop|by apply Forall_take]).
  assert (length (drop 4 iv) = 8%nat) as Hld by (rewrite length_drop; lia).
  assert (of_bytes (rev k) = N.lxor (of_bytes (rev (drop 4 iv))) (Z.to_N seq)) as Hk.
  { unfold k. rewrite zip_rev by (rewrite be_encode_length; lia). rewrite of_bytes_zip; [|by apply Forall_rev|apply Forall_rev, be_encode_bytes|by rewrite !length_rev, be_encode_length].
    rewrite (of_bytes_rev (be_encode 8 seq)) by apply be_encode_bytes. rewrite be_decode_encode. change (256 ^ Z.of_nat 8) with (2 ^ 64). by rewrite Z.mod_small. }
  assert (is_bytes k ∧ length k = 8%nat) as [Hkb Hkl].
  { assert (length k = 8%nat) as E by (unfold k; rewrite length_zip_with, be_encode_length; lia). split; [|done].
    apply is_bytes_zip_lxor; [done|apply be_encode_bytes]. }
  split_and!.
  - rewrite bswap_short; [|apply Forall_app; split; done|rewrite length_app, length_take; lia].
    unfold calc_counter. rewrite Hiv, bswap_short by done.
    assert (_mm_slli_si128 (_mm_insert_epi64 _mm_setzero_si128 (Z.to_N seq) 0) 4 = (2 ^ 32 * Z.to_N seq)%N) as ->.
    { assert (_mm_insert_epi64 _mm_setzero_si128 (Z.to_N seq) 0 = Z.to_N seq) as ->.
      { change (_mm_insert_epi64 _mm_setzero_si128 (Z.to_N seq) 0) with (of_lanes 64 [Z.to_N seq mod 2 ^ 64; 0])%N. cbn [of_lanes]. rewrite N.mod_small by lia. lia. }
      unfold _mm_slli_si128. rewrite N.shiftl_mul_pow2. change (2 ^ (8 * 4))%N with (2 ^ 32)%N.
      rewrite N.mod_small; [apply N.mul_comm|]. change (2 ^ 128)%N with (2 ^ 96 * 2 ^ 32)%N. apply N.mul_lt_mono_pos_r; [done|]. apply (N.lt_trans _ (2 ^ 64)); [lia|done]. }
    unfold _mm_xor_si128. rewrite !(N.mul_comm (2 ^ 32)), <- !N.shiftl_mul_pow2, <- N.shiftl_lxor. f_equal.
    rewrite <- (take_drop 4 iv) at 1. rewrite !rev_app_distr, !of_bytes_app, !length_rev, Hkl, Hld, Hk. change (8 * N.of_nat 8)%N with 64%N.
    assert (of_bytes (rev (drop 4 iv)) < 2 ^ 64)%N as Hd.
    { pose proof (of_bytes_lt (rev (drop 4 iv)) (Forall_rev Hbd)) as H. rewrite length_rev, Hld in H. exact H. }
    rewrite !join_lxor by (done || (apply lxor_lt_pow2; [done|lia])). rewrite !N.lxor_assoc. f_equal. apply N.lxor_comm.
  - apply bswap_lt.
  - rewrite bswap_short; [|apply Forall_app; split; done|rewrite length_app, length_take; lia]. rewrite N.mul_comm. by apply N.Div0.mod_mul.
Qed.

(** ** The stream twice *)

Lemma to_bytes_short l : is_bytes l -> (length l <= 16)%nat -> to_bytes 16 (of_bytes l) = l ++ replicate (16 - length l) 0.
Proof.
  intros Hl Hn. rewrite <- (of_bytes_zeros l (16 - length l)). apply to_of_bytes; [apply Forall_app; split; [done|by apply Forall_replicate]|].
  rewrite length_app, length_replicate. lia.
Qed.

(** A chunk and the stream, as bytes. *)
Lemma crypt_chunk l s : is_bytes l -> (length l <= 16)%nat ->
  take (length l) (to_bytes 16 (N.lxor (of_bytes l) s)) = zip_with Z.lxor l (take (length l) (to_bytes 16 s)).
Proof.
  intros Hl Hn. rewrite to_bytes_lxor, to_bytes_short by done. rewrite zip_with_take, take_app_length. done.
Qed.

Lemma gctr_twice key c0 p : is_bytes p -> gctr (AES key) c0 (gctr (AES key) c0 p) = p.
Proof.
  unfold gctr. generalize 2%N. intros i Hp. revert i Hp. induction p as [|p Hne IH] using chunks_ind; intros i Hp; [done|].
  destruct (crypt_chunks key c0 i p Hne) as (_ & Hc & Hl). set (c1 := take _ _) in Hc, Hl. rewrite Hc. cbn [gcm_crypt]. rewrite IH by (by apply Forall_drop).
  transitivity (take 16 p ++ drop 16 p); [f_equal|apply take_drop]. set (t := take 16 p) in *. assert (is_bytes t) as Ht by (by apply Forall_take).
  assert (length t <= 16)%nat as Hlt by (unfold t; rewrite length_take; lia). set (s := AES key _) in *.
  assert (c1 = zip_with Z.lxor t (take (length t) (to_bytes 16 s))) as E by (by apply crypt_chunk). rewrite E in Hl |- *. clear c1 Hc E. rewrite crypt_chunk; [|apply is_bytes_zip_lxor; [done|by apply Forall_take, to_bytes_bytes]|lia].
  rewrite Hl. apply zip_lxor_cancel. rewrite length_take, to_bytes_length. lia.
Qed.

(** ** The contexts *)

Section Contexts.
Context `{Allocator} (mapped : Z -> bool) (key iv : bytes).

(** The engine stops the process when there is no memory. *)
Definition memory_available : Prop := ∀ n, 0 <= n <= SIZE_MAX -> is_Some (malloc n).

Definition aead_ready (ctx : aesgcm_context) : Prop :=
  gcm_static_iv ctx = bswap (of_bytes iv) ∧ (scratch ctx = None -> scratch_capacity ctx = 0) ∧ ∃ c, aesgcm ctx = Some c ∧ context128 key c.

Context (Hkey : (length key = 16 ∨ length key = 32)%nat) (Hiv : is_bytes iv) (Hivlen : length iv = 12%nat) (Hmalloc : memory_available).

Lemma setup_ready uninit ctx is_enc p m : is_bytes key -> length (keys uninit) = KEY_SLOTS -> byte_memory m -> pages_mapped mapped p 12 -> read m p 12 = iv ->
  ∃ ctx', aesgcm_setup mapped uninit ctx is_enc (Some key) p (len key) m = (Ok ctx', m) ∧ aead_ready ctx'.
Proof.
  intros Hkb Hun Hm Hp Hread. unfold aesgcm_setup. change PTLS_AESGCM_IV_SIZE with 12. rewrite M_bind_run, loadn128_correct by (done || lia).
  change (Z.to_nat 12) with 12%nat. rewrite Hread, shuffle_byteswap, M_bind_run.
  destruct (new_aesgcm_ok uninit Hun key Hkb Hkey 1500 false ltac:(lia)) as (r & Hr & Hok). rewrite Hr. cbn [lift]. destruct r as [c|].
  - eexists. split; [done|]. destruct (Hok c eq_refl) as (Hc & _ & Hni). split; [done|]. split; [done|]. exists c. by split.
  - exfalso. unfold new_aesgcm in Hr. destruct (Hmalloc (calc_aesgcm_context_size (aesgcm_calc_ghash_cnt 1500) false).1) as [x Hx]; [vm_compute; by split|].
    destruct (calc_aesgcm_context_size (aesgcm_calc_ghash_cnt 1500) false) as [sz n]. cbn [fst] in Hx. rewrite Hx in Hr. by destruct (ptls_fusion_aesecb_init uninit true key (len key) false).
Qed.

(** The IV can be read back. *)
Lemma get_iv_ok ctx p m : aead_ready ctx -> pages_mapped mapped p 12 -> ∃ m', aesgcm_get_iv mapped ctx p m = (Ok (), m') ∧ same_memory m' (write m p iv).
Proof.
  intros (Hs & _) Hp. unfold aesgcm_get_iv. rewrite Hs, shuffle_byteswap. change (Z.to_nat PTLS_AESGCM_IV_SIZE) with 12%nat.
  destruct (storen128_ok mapped m p 12 (bswap (bswap (of_bytes iv)))) as (m' & E & Hm'); [lia|done|]. exists m'. split; [done|].
  assert (of_bytes iv < 2 ^ 128)%N by (eapply N.lt_le_trans; [by apply of_bytes_lt|rewrite Hivlen; done]).
  rewrite bswap_involutive, to_bytes_short in Hm' by (done || lia). by rewrite (take_app_length' iv) in Hm' by lia.
Qed.

(** Nothing that was gathered is left when a context is disposed of. *)
Lemma dispose_clears ctx m p : scratch ctx = Some p -> 0 <= scratch_capacity ctx -> pages_mapped mapped p (scratch_capacity ctx) ->
  ∃ ctx' m', aesgcm_dispose_crypto mapped ctx m = (Ok ctx', m') ∧ aesgcm ctx' = None ∧ scratch ctx' = None
    ∧ read m' p (Z.to_nat (scratch_capacity ctx)) = replicate (Z.to_nat (scratch_capacity ctx)) 0.
Proof.
  intros Hs Hn Hp. unfold aesgcm_dispose_crypto, clear_bytes. rewrite Hs, M_bind_run. set (z := replicate _ 0).
  destruct (store_bytes_ok mapped m p z) as (m' & -> & Hm'); [unfold z; rewrite len_replicate, Z2Nat.id by done; done|].
  eexists _, m'. split; [done|]. split; [done|]. split; [done|]. rewrite Hm'. pose proof (read_write_same m p z) as E. unfold z at 2 in E. by rewrite length_replicate in E.
Qed.

Lemma ensure_capacity_ok ctx textlen aadlen m : aead_ready ctx -> 0 <= textlen < 2 ^ 28 -> 0 <= aadlen < 2 ^ 28 ->
  ∃ c ctx', aesgcm_ensure_capacity ctx textlen aadlen m = (Ok (c, ctx'), m) ∧ aead_ready ctx' ∧ context128 key c
    ∧ aesgcm_calc_ghash_cnt (aadlen + textlen) <= ghash_cnt c ∧ scratch ctx' = scratch ctx ∧ scratch_capacity ctx' = scratch_capacity ctx.
Proof.
  intros (Hs & Hsc & c & Hc & Hok & Hni) Ht Ha. unfold aesgcm_ensure_capacity. rewrite (proj2 (Z.ltb_ge _ _)) by (unfold SIZE_MAX; lia). cbn [when]. rewrite M_bind_run. cbn [mret M_ret].
  rewrite Hc. cbv zeta. rewrite (Z.add_comm textlen aadlen). destruct (Z.ltb_spec (capacity c) (aadlen + textlen)) as [Hlt|Hge].
  - destruct (ptls_fusion_aesgcm_set_capacity c (aadlen + textlen)) as [c'|] eqn:Hset.
    + destruct (set_capacity_ok ecb0 eq_refl key Hkey c (aadlen + textlen) c' Hok ltac:(lia) Hset) as (Hok' & Hcnt & Hecb).
      assert (context128 key c') as Hc' by (split; [done|by rewrite Hecb]).
      eexists c', _. split; [done|]. split_and!; try done. split; [done|]. split; [done|]. by exists c'.
    + exfalso. unfold ptls_fusion_aesgcm_set_capacity in Hset. destruct (aesgcm_calc_ghash_cnt (aadlen + textlen) <=? ghash_cnt c); [done|]. rewrite Hni in Hset. cbn [calc_aesgcm_context_size] in Hset.
      destruct (Hmalloc (OFFSETOF_GHASH + SIZEOF_PRECOMPUTE128 * aesgcm_calc_ghash_cnt (aadlen + textlen))) as [x Hx]; [|by rewrite Hx in Hset].
      pose proof (calc_ghash_cnt_range (aadlen + textlen) ltac:(lia)) as Hr. pose proof (calc_ghash_cnt_mono (aadlen + textlen) (2 ^ 29) ltac:(lia) ltac:(lia)) as Hmono.
      change (aesgcm_calc_ghash_cnt (2 ^ 29)) with 33554434 in Hmono. unfold OFFSETOF_GHASH, SIZEOF_PRECOMPUTE128, SIZE_MAX. lia.
  - exists c, ctx. destruct Hok as (Hk & Hr & Hcnt & Htab). pose proof (calc_ghash_cnt_mono (aadlen + textlen) (capacity c) ltac:(lia) ltac:(lia)).
    split_and!; try done; [|lia]. split; [done|]. split; [done|]. by exists c.
Qed.

Lemma nonce_of_register seq : 0 <= seq < 2 ^ 64 -> nonce_of (nonce_register iv seq) = nonce_register iv seq ∧ (nonce_register iv seq < 2 ^ 128)%N ∧ (nonce_register iv seq mod 2 ^ 32 = 0)%N.
Proof.
  intros Hseq. destruct (calc_counter_nonce (mkAesgcm None None 0 (bswap (of_bytes iv))) iv seq Hiv Hivlen Hseq eq_refl) as (_ & Hlt & Hlow). split_and!; try done.
  unfold nonce_of. pose proof (N.div_mod (nonce_register iv seq) (2 ^ 32) ltac:(done)) as Hdm. rewrite Hlow, N.add_0_r in Hdm. done.
Qed.

Section Calls.
Context (m : memory) (output input inlen seq aad aadlen : Z).
Context (Hm : byte_memory m) (Hseq : 0 <= seq < 2 ^ 64) (Haad : 0 <= aadlen < 2 ^ 28) (Hin : 0 <= inlen < 2 ^ 28).
Context (Hpa : pages_mapped mapped aad aadlen) (Hpi : pages_mapped mapped input inlen).

Abbreviation N := (nonce_register iv seq).

Lemma aead_encrypt_ok ctx : aead_ready ctx -> pages_mapped mapped output (inlen + 16) -> one_way input output inlen -> apart aad aadlen output inlen ->
  ∃ ctx' m', aead_do_encrypt mapped ctx output input inlen seq aad aadlen None m = (Ok ctx', m') ∧ aead_ready ctx'
    ∧ scratch ctx' = scratch ctx ∧ scratch_capacity ctx' = scratch_capacity ctx
    ∧ same_memory m' (write m output (gcm_seal (AES key) N (read m aad (Z.to_nat aadlen)) (read m input (Z.to_nat inlen)))).
Proof.
  intros Hr Hpo Hway Hap. destruct (ensure_capacity_ok ctx inlen aadlen m Hr Hin Haad) as (c & ctx' & He & Hr' & Hc & Hcap & Hs & Hsc). destruct (nonce_of_register seq Hseq) as (Hn & Hlt & Hlow).
  unfold aead_do_encrypt. rewrite M_bind_run, He. destruct (calc_counter_nonce ctx' iv seq Hiv Hivlen Hseq (proj1 Hr')) as (-> & _).
  destruct (encrypt_spec c None key Hc mapped Hkey m output input inlen aad aadlen N []) as (m' & He' & Hm'); try done; [by apply (room_enough key)|].
  unfold finished, sealed, sealed_text, extra, text in Hm'. rewrite Hn in Hm'.
  exists ctx', m'. rewrite M_bind_run, He'. done.
Qed.

Lemma aead_decrypt_ok ctx : aead_ready ctx -> pages_mapped mapped output inlen -> pages_mapped mapped (input + inlen) 16 -> one_way input output inlen ->
  apart aad aadlen output inlen -> apart (input + inlen) 16 output inlen ->
  let a := read m aad (Z.to_nat aadlen) in
  let c := read m input (Z.to_nat inlen) in
  ∃ ctx' m', aead_do_decrypt mapped ctx output input (inlen + 16) seq aad aadlen m
      = (Ok (if (gcm_tag (AES key) N a c =? of_bytes (read m (input + inlen) 16))%N then Some inlen else None, ctx'), m')
    ∧ aead_ready ctx' ∧ same_memory m' (write m output (gctr (AES key) N c)).
Proof.
  intros Hr Hpo Hpt Hway Hap Htag a c. destruct (ensure_capacity_ok ctx inlen aadlen m Hr Hin Haad) as (g & ctx' & He & Hr' & Hc & Hcap & _ & _). destruct (nonce_of_register seq Hseq) as (Hn & Hlt & Hlow).
  unfold aead_do_decrypt. rewrite (proj2 (Z.ltb_ge _ _)) by lia. cbv zeta. replace (inlen + 16 - 16) with inlen by lia.
  rewrite M_bind_run, He. destruct (calc_counter_nonce ctx' iv seq Hiv Hivlen Hseq (proj1 Hr')) as (-> & _).
  destruct (decrypt_spec mapped key g Hc Hkey m output input inlen aad aadlen N) with (tag := input + inlen) as (m' & He' & Hm'); try done; [by apply (room_enough key)|].
  unfold dec_extra, dec_cipher, dec_plain in *. rewrite Hn in He', Hm'.
  exists ctx', m'. rewrite M_bind_run, He'. done.
Qed.

End Calls.
End Contexts.

(** ** From one side to the other *)

Lemma gcm_tag_lt key c0 a c : (gcm_tag (AES key) c0 a c < 2 ^ 128)%N.
Proof. unfold gcm_tag. apply lxor_lt_pow2; [apply bswap_lt|apply AES_lt]. Qed.

(** C32: what a context seals a context of the same key and IV opens.  Every text below 256 megabytes is encrypted
    with its additional data and a sequence number, and the record, decrypted with the same, is accepted and becomes the
    text again, in place or into a buffer that does not run into it; both contexts stay usable, having grown as needed. *)
Theorem fusion_aead_roundtrip `{Allocator} (mapped : Z -> bool) (key iv : bytes) enc dec m record input inlen plain seq aad aadlen :
  (length key = 16 ∨ length key = 32)%nat -> is_bytes iv -> length iv = 12%nat -> memory_available -> byte_memory m ->
  aead_ready key iv enc -> aead_ready key iv dec -> 0 <= seq < 2 ^ 64 -> 0 <= aadlen < 2 ^ 28 -> 0 <= inlen < 2 ^ 28 ->
  pages_mapped mapped aad aadlen -> pages_mapped mapped input inlen -> pages_mapped mapped record (inlen + 16) -> pages_mapped mapped plain inlen ->
  one_way input record inlen -> apart aad aadlen record (inlen + 16) ->
  one_way record plain inlen -> apart aad aadlen plain inlen -> apart (record + inlen) 16 plain inlen ->
  ∃ enc' dec' m1 m2, aead_do_encrypt mapped enc record input inlen seq aad aadlen None m = (Ok enc', m1)
    ∧ aead_do_decrypt mapped dec plain record (inlen + 16) seq aad aadlen m1 = (Ok (Some inlen, dec'), m2)
    ∧ read m2 plain (Z.to_nat inlen) = read m input (Z.to_nat inlen) ∧ aead_ready key iv enc' ∧ aead_ready key iv dec'.
Proof.
  intros Hkey Hiv Hivl Hmal Hm He Hd Hseq Haad Hin Hpa Hpi Hpr Hpp Hw1 Ha1 Hw2 Ha2 Ht.
  destruct (aead_encrypt_ok mapped key iv Hkey Hiv Hivl Hmal m record input inlen seq aad aadlen Hm Hseq Haad Hin Hpa Hpi enc He Hpr Hw1) as (enc' & m1 & -> & He' & _ & _ & Hm1); [unfold apart in *; lia|].
  set (N := nonce_register iv seq) in *. set (a := read m aad _) in *. set (t := read m input _) in *. set (c := gctr (AES key) N t).
  assert (is_bytes t) as Htb by (by apply read_bytes).
  assert (len c = inlen) as Hlc by (unfold c, t, len; rewrite gctr_length, read_length; lia).
  assert (gcm_seal (AES key) N a t = c ++ to_bytes 16 (gcm_tag (AES key) N a c)) as Hs by done. rewrite Hs in Hm1.
  assert (is_bytes (c ++ to_bytes 16 (gcm_tag (AES key) N a c))) as Hcb by (apply Forall_app; split; [apply gcm_crypt_bytes|apply to_bytes_bytes]).
  assert (read m1 aad (Z.to_nat aadlen) = a) as Ra.
  { rewrite Hm1. apply read_write_other. rewrite len_app. unfold len at 2. rewrite to_bytes_length. unfold apart in Ha1. lia. }
  assert (read m1 record (Z.to_nat inlen) = c ∧ read m1 (record + inlen) 16 = to_bytes 16 (gcm_tag (AES key) N a c)) as [Rc Rt].
  { rewrite Hm1. pose proof (read_write_same m record (c ++ to_bytes 16 (gcm_tag (AES key) N a c))) as E. rewrite length_app, to_bytes_length, read_app in E.
    apply app_inj_1 in E as [E1 E2]; [|by rewrite read_length]. unfold len in Hlc. rewrite Hlc in E2. split; [|done]. by replace (Z.to_nat inlen) with (length c) by lia. }
  destruct (aead_decrypt_ok mapped key iv Hkey Hiv Hivl Hmal m1 plain record inlen seq aad aadlen) with (ctx := dec) as (dec' & m2 & Hdec & Hd' & Hm2); try done.
  { rewrite Hm1. by apply write_byte_memory. }
  { intros x Hx. apply Hpr. lia. } { intros x Hx. apply Hpr. lia. }
  fold N in Hm2, Hdec. rewrite Rc in Hm2. rewrite Ra, Rc, Rt, of_to_bytes, N.eqb_refl in Hdec by apply gcm_tag_lt. unfold c in Hm2. rewrite gctr_twice in Hm2 by done.
  exists enc', dec', m1, m2. split_and!; try done. rewrite Hm2. replace (Z.to_nat inlen) with (length t) by (unfold t; by rewrite read_length). apply read_write_same.
Qed.

(** A context of the zero key, with the IV [7, ..., 7]. *)
Lemma zero_aead_ready : aead_ready zero_key (replicate 12 7) (mkAesgcm (Some (zero_context 1500 false)) None 0 (bswap (of_bytes (replicate 12 7)))).
Proof. split; [done|]. split; [done|]. exists (zero_context 1500 false). split; [done|apply zero_context128; lia]. Qed.

Lemma bump_available : @memory_available bump_allocator.
Proof. intros n Hn. cbn [malloc bump_allocator]. rewrite (proj2 (Z.leb_le _ _)) by lia. by eexists. Qed.

(** A record of 1600 bytes, more than the contexts were made for, with 13 bytes before it, opened in place. *)
Lemma fusion_aead_roundtrip_witness :
  let ctx := mkAesgcm (Some (zero_context 1500 false)) None 0 (bswap (of_bytes (replicate 12 7))) in
  ∃ enc' dec' m1 m2, @aead_do_encrypt bump_allocator (λ _, true) ctx 8192 8192 1600 5 8000 13 None no_memory = (Ok enc', m1)
    ∧ @aead_do_decrypt bump_allocator (λ _, true) ctx 8192 8192 (1600 + 16) 5 8000 13 m1 = (Ok (Some 1600, dec'), m2)
    ∧ read m2 8192 (Z.to_nat 1600) = read no_memory 8192 (Z.to_nat 1600) ∧ aead_ready zero_key (replicate 12 7) enc' ∧ aead_ready zero_key (replicate 12 7) dec'.
Proof.
  intros ctx. pose proof zero_aead_ready as Hr.
  apply (@fusion_aead_roundtrip bump_allocator (λ _, true) zero_key (replicate 12 7) ctx ctx no_memory 8192 8192 1600 8192 5 8000 13); try assumption;
    [by left|by apply Forall_replicate|reflexivity|apply bump_available|apply no_memory_bytes|lia|lia|lia|by intros ? ?|by intros ? ?|by intros ? ?|by intros ? ?|left; lia|left; lia|left; lia|left; lia|right; lia].
Defined.

(** ** Gathering *)

#[export] Instance vec_bytes_proper : Proper (same_memory ==> eq ==> eq) vec_bytes.
Proof. intros m m' Hm v ? <-. unfold vec_bytes. f_equal. apply list_fmap_ext. intros. by rewrite Hm. Qed.

Section Gather.
Context (mapped : Z -> bool).

Lemma load_bytes_ok m n p : pages_mapped mapped p (Z.of_nat n) -> load_bytes mapped p n m = (Ok (read m p n), m).
Proof.
  revert p. induction n as [|n IH]; intros p Hp; [done|]. cbn [load_bytes]. rewrite M_bind_run, load_ok by (apply accessible_pages; [lia|]; intros a Ha; apply Hp; lia).
  rewrite M_bind_run, IH by (intros a Ha; apply Hp; lia). change (S n) with (1 + n)%nat. by rewrite (read_app m p 1 n).
Qed.

Lemma memmove_ok m dst src n : 0 <= n -> pages_mapped mapped src n -> pages_mapped mapped dst n ->
  ∃ m', memmove mapped dst src n m = (Ok (), m') ∧ same_memory m' (write m dst (read m src (Z.to_nat n))).
Proof.
  intros Hn Hs Hd. unfold memmove. rewrite M_bind_run, load_bytes_ok by (by rewrite Z2Nat.id).
  apply store_bytes_ok. unfold len. by rewrite read_length, Z2Nat.id.
Qed.

Lemma clear_bytes_ok m p n : 0 <= n -> pages_mapped mapped p n ->
  ∃ m', clear_bytes mapped p n m = (Ok (), m') ∧ same_memory m' (write m p (replicate (Z.to_nat n) 0)).
Proof. intros Hn Hp. apply store_bytes_ok. unfold len. by rewrite length_replicate, Z2Nat.id. Qed.

Definition iovec_ok (v : ptls_iovec_t) : Prop := 0 <= iov_len v ∧ pages_mapped mapped (base v) (iov_len v).

(** Where an input may lie: away from the buffer, or at its place in it. *)
Fixpoint placed (buf total off : Z) (input : list ptls_iovec_t) : Prop :=
  match input with
  | [] => True
  | v :: input => (iov_len v = 0 ∨ apart (base v) (iov_len v) buf total ∨ base v = buf + off) ∧ placed buf total (off + iov_len v) input
  end.

Definition total_len (input : list ptls_iovec_t) : Z := foldr Z.add 0 (iov_len <$> input).

Lemma total_len_nonneg input : Forall iovec_ok input -> 0 <= total_len input.
Proof. unfold total_len. induction 1 as [|v input [Hv _] _ IH]; cbn; lia. Qed.

Lemma vec_bytes_len m input : Forall iovec_ok input -> len (vec_bytes m input) = total_len input.
Proof.
  unfold total_len. induction 1 as [|v input [Hv _] _ IH]; [done|]. rewrite vec_bytes_cons, len_app, IH. cbn. unfold len. rewrite read_length. lia.
Qed.

Lemma sum_iovec_ok input n : Forall iovec_ok input -> 0 <= n -> n + total_len input <= SIZE_MAX -> sum_iovec input n = Ok (n + total_len input).
Proof.
  intros Hv. revert n. induction Hv as [|v input [Hl Hp] Hv IH]; intros n Hn Hs; cbn [sum_iovec]; [unfold total_len; cbn; f_equal; lia|].
  pose proof (total_len_nonneg input Hv). change (total_len (v :: input)) with (iov_len v + total_len input) in *. rewrite (proj2 (Z.leb_le _ _)) by lia.
  cbn [guard_err mbind result_bind]. rewrite IH by lia. f_equal. lia.
Qed.

(** What was put into the buffer before it does not change what is gathered next. *)
Lemma placed_read m l buf total off off' input : Forall iovec_ok input -> placed buf total off' input -> 0 <= off -> off + len l <= off' -> off + len l <= total ->
  vec_bytes (write m (buf + off) l) input = vec_bytes m input.
Proof.
  intros Hv. revert off'. induction Hv as [|v input [Hl Hp] Hv IH]; intros off' Hpl Ho Hoff Ht; [done|]. destruct Hpl as [Hpl Hrest].
  rewrite !vec_bytes_cons. f_equal; [|by apply (IH (off' + iov_len v)); try done; lia].
  destruct Hpl as [->|[Hap|Heq]]; [done|apply read_write_other; unfold apart in Hap; lia|apply read_write_other; lia].
Qed.

(** The buffer holds the concatenation, though parts of it may be in the buffer when the copying begins. *)
Lemma gather_ok buf total input m off : Forall iovec_ok input -> placed buf total off input -> 0 <= off -> off + total_len input <= total ->
  pages_mapped mapped buf total -> ∃ m', gather mapped buf off input m = (Ok (), m') ∧ same_memory m' (write m (buf + off) (vec_bytes m input)).
Proof.
  intros Hv. revert m off. induction Hv as [|v input [Hl Hp] Hv IH]; intros m off Hpl Ho Hs Hb.
  { exists m. split; [done|]. intros a. symmetry. apply write_nil. }
  destruct Hpl as [Hpl Hrest]. pose proof (total_len_nonneg input Hv). change (total_len (v :: input)) with (iov_len v + total_len input) in Hs.
  assert (∃ m1, (if negb (iov_len v =? 0) then memmove mapped (buf + off) (base v) (iov_len v) else mret ()) m = (Ok (), m1)
    ∧ same_memory m1 (write m (buf + off) (read m (base v) (Z.to_nat (iov_len v))))) as (m1 & E1 & Hm1).
  { destruct (Z.eqb_spec (iov_len v) 0) as [->|Hne]; cbn [negb].
    - exists m. split; [done|]. intros a. symmetry. apply write_nil.
    - apply memmove_ok; [done|done|]. intros a Ha. apply Hb. lia. }
  cbn [gather]. rewrite M_bind_run, E1. destruct (IH m1 (off + iov_len v)) as (m' & -> & Hm'); try done; try lia. exists m'. split; [done|].
  set (l := read m (base v) _) in *. assert (len l = iov_len v) as Hll by (unfold l, len; rewrite read_length; lia).
  rewrite Hm', Hm1, (placed_read m l buf total off (off + iov_len v)) by (done || lia). rewrite vec_bytes_cons. fold l.
  rewrite <- write_app, Hll. by rewrite Z.add_assoc.
Qed.

Lemma not_scratch_placed output total input off : use_scratch output total off input = false -> placed output total off input.
Proof.
  revert off. induction input as [|v input IH]; intros off Hu; [done|]. cbn [use_scratch] in Hu.
  destruct (negb (iov_len v =? 0) && (base v <? output + total) && (output <? base v + iov_len v) && negb (base v =? output + off)) eqn:E; [done|].
  split; [|by apply IH]. unfold apart. lia.
Qed.

Lemma scratch_not_empty output total input off : Forall iovec_ok input -> use_scratch output total off input = true -> 0 < total_len input.
Proof.
  intros Hv. revert off. induction Hv as [|v input [Hl _] Hv IH]; intros off Hu; [done|]. cbn [use_scratch] in Hu. pose proof (total_len_nonneg input Hv).
  change (total_len (v :: input)) with (iov_len v + total_len input). destruct (Z.eqb_spec (iov_len v) 0) as [E|E]; [|lia]. apply IH in Hu. lia.
Qed.

Lemma apart_placed buf total input off : Forall (λ v, apart (base v) (iov_len v) buf total) input -> placed buf total off input.
Proof. intros Ha. revert off. induction Ha as [|v input Hv Ha IH]; intros off; [done|]. split; [by right; left|apply IH]. Qed.

End Gather.

(** ** Scattered input *)

Section EncryptV.
Context `{Allocator} (mapped : Z -> bool) (key iv : bytes) (m : memory) (output : Z) (input : list ptls_iovec_t) (seq aad aadlen : Z).

(** A buffer that is nowhere near what the call works on. *)
Definition region_free (p n : Z) : Prop :=
  0 <= n ∧ pages_mapped mapped p n ∧ apart p n output (total_len input + 16) ∧ apart p n aad aadlen ∧ Forall (λ v, apart (base v) (iov_len v) p n) input.

Definition scratch_free (ctx : aesgcm_context) : Prop :=
  (∀ p, scratch ctx = Some p -> region_free p (scratch_capacity ctx)) ∧ ∀ p c, malloc (total_len input) = Some (p, c) -> region_free p (total_len input).

Lemma region_free_le p n k : region_free p n -> 0 <= k <= n -> region_free p k.
Proof.
  intros (Hn & Hp & Ho & Ha & Hi) Hk. unfold region_free, apart in *. split; [lia|]. split; [intros a Hx; apply Hp; lia|]. split; [lia|]. split; [lia|].
  eapply Forall_impl; [exact Hi|]. intros v Hv. cbn in *. lia.
Qed.

(** Writing there changes nothing of the input. *)
Lemma region_free_write mm p l n : region_free p n -> len l = n -> 0 <= aadlen -> Forall (iovec_ok mapped) input ->
  read (write mm p l) aad (Z.to_nat aadlen) = read mm aad (Z.to_nat aadlen) ∧ vec_bytes (write mm p l) input = vec_bytes mm input.
Proof.
  intros (Hn & _ & _ & Ha & Hi) Hl Haad Hv. split; [apply read_write_other; unfold apart in Ha; lia|]. revert Hi.
  induction Hv as [|v vs [Hvl _] Hv IH]; intros Hi; [done|]. apply Forall_cons in Hi as [Hd Hi]. rewrite !vec_bytes_cons, IH by done. f_equal.
  apply read_write_other. unfold apart in Hd. lia.
Qed.

Lemma vec_bytes_bytes mm vs : byte_memory mm -> is_bytes (vec_bytes mm vs).
Proof. intros Hmm. induction vs as [|v vs IH]; [by constructor|]. rewrite vec_bytes_cons. apply Forall_app. split; [by apply read_bytes|done]. Qed.

Context (Hkey : (length key = 16 ∨ length key = 32)%nat) (Hiv : is_bytes iv) (Hivlen : length iv = 12%nat) (Hmalloc : memory_available).
Context (Hm : byte_memory m) (Hseq : 0 <= seq < 2 ^ 64) (Haad : 0 <= aadlen < 2 ^ 28) (Hin : total_len input < 2 ^ 28) (Hvecs : Forall (iovec_ok mapped) input).
Context (Hpa : pages_mapped mapped aad aadlen) (Hpo : pages_mapped mapped output (total_len input + 16)) (Hap : apart aad aadlen output (total_len input + 16)).

Abbreviation total := (total_len input).
Abbreviation sealed_v := (gcm_seal (AES key) (nonce_register iv seq) (read m aad (Z.to_nat aadlen)) (vec_bytes m input)).

Lemma sealed_v_length : len sealed_v = total + 16.
Proof. unfold gcm_seal. rewrite len_app. unfold len at 1 2. rewrite to_bytes_length, gctr_length. fold (len (vec_bytes m input)). rewrite (vec_bytes_len mapped) by done. lia. Qed.

Lemma get_scratch_ok ctx : aead_ready key iv ctx -> scratch_free ctx -> 0 < total ->
  ∃ p ctx' m1, aesgcm_get_scratch mapped ctx total m = (Ok (p, ctx'), m1) ∧ aead_ready key iv ctx' ∧ region_free p total ∧ scratch ctx' = Some p
    ∧ byte_memory m1 ∧ read m1 aad (Z.to_nat aadlen) = read m aad (Z.to_nat aadlen) ∧ vec_bytes m1 input = vec_bytes m input.
Proof.
  intros Hr [Hold Hnew] Htot. pose proof Hr as (Hs & Hsc & Hctx). unfold aesgcm_get_scratch. rewrite M_bind_run. destruct (Z.ltb_spec (scratch_capacity ctx) total) as [Hlt|Hge].
  - destruct (Hmalloc total) as [[p c] Hp]; [unfold SIZE_MAX; lia|]. rewrite Hp. destruct (scratch ctx) as [q|] eqn:Eq.
    + destruct (Hold q eq_refl) as (Hn & Hmap & Hrest). destruct (clear_bytes_ok mapped m q (scratch_capacity ctx) Hn Hmap) as (m1 & E & Hm1). rewrite M_bind_run, E. cbn.
      destruct (region_free_write m q (replicate (Z.to_nat (scratch_capacity ctx)) 0) _ (Hold q eq_refl)) as [Ra Ri]; [rewrite len_replicate; lia|lia|done|].
      eexists p, _, m1. split; [done|]. split; [by split_and!|]. split; [by apply (Hnew p c)|]. split; [done|]. split_and!; rewrite Hm1; [apply write_byte_memory; [done|by apply Forall_replicate]|done|done].
    + eexists p, _, m. split; [done|]. split; [by split_and!|]. split; [by apply (Hnew p c)|]. done.
  - destruct (scratch ctx) as [q|] eqn:Eq; [|rewrite Hsc in Hge by done; lia]. exists q, ctx, m. cbn. rewrite Eq. split; [done|]. split; [done|].
    split; [|done]. apply (region_free_le q (scratch_capacity ctx)); [by apply Hold|lia].
Qed.

(** Gathered at [buf], then encrypted. *)
Lemma gathered_ok ctx buf m1 : aead_ready key iv ctx -> byte_memory m1 -> read m1 aad (Z.to_nat aadlen) = read m aad (Z.to_nat aadlen) -> vec_bytes m1 input = vec_bytes m input ->
  placed buf total 0 input -> pages_mapped mapped buf total -> one_way buf output total -> apart buf total aad aadlen ->
  ∃ m2 ctx' m3, gather mapped buf 0 input m1 = (Ok (), m2) ∧ aead_do_encrypt mapped ctx output buf total seq aad aadlen None m2 = (Ok ctx', m3)
    ∧ aead_ready key iv ctx' ∧ scratch ctx' = scratch ctx ∧ read m3 output (Z.to_nat (total + 16)) = sealed_v.
Proof.
  intros Hr Hm1 Ra Ri Hpl Hpb Hway Hab. pose proof (total_len_nonneg mapped input Hvecs) as Htot. destruct (gather_ok mapped buf total input m1 0) as (m2 & E & Hm2); try done.
  rewrite Z.add_0_r, Ri in Hm2. pose proof (vec_bytes_len mapped m input Hvecs) as Hl. exists m2.
  assert (byte_memory m2) as Hb2. { rewrite Hm2. apply write_byte_memory; [done|]. rewrite <- Ri. apply vec_bytes_bytes, Hm1. }
  destruct (aead_encrypt_ok mapped key iv Hkey Hiv Hivlen Hmalloc m2 output buf total seq aad aadlen Hb2 Hseq Haad ltac:(lia) Hpa Hpb ctx Hr Hpo Hway) as (ctx' & m3 & Henc & Hr' & Hsc & _ & Hm3); [unfold apart in *; lia|].
  exists ctx', m3. split_and!; try done. rewrite Hm3.
  assert (read m2 aad (Z.to_nat aadlen) = read m aad (Z.to_nat aadlen)) as -> by (rewrite Hm2, read_write_other by (unfold apart in Hab; lia); done).
  assert (read m2 buf (Z.to_nat total) = vec_bytes m input) as -> by (rewrite Hm2; replace (Z.to_nat total) with (length (vec_bytes m input)) by (unfold len in Hl; lia); apply read_write_same).
  pose proof sealed_v_length as Hsl. unfold len in Hsl. rewrite <- Hsl, Nat2Z.id. apply read_write_same.
Qed.

Lemma encrypt_v_scratch ctx : aead_ready key iv ctx -> scratch_free ctx -> use_scratch output total 0 input = true ->
  ∃ ctx' m', ('(buf, c) ← aesgcm_get_scratch mapped ctx total;
              gather mapped buf 0 input;; c ← aead_do_encrypt mapped c output buf total seq aad aadlen None; clear_bytes mapped buf total;; mret c) m = (Ok ctx', m')
    ∧ aead_ready key iv ctx' ∧ read m' output (Z.to_nat (total + 16)) = sealed_v
    ∧ ∃ p, scratch ctx' = Some p ∧ read m' p (Z.to_nat total) = replicate (Z.to_nat total) 0.
Proof.
  intros Hr Hf Hu. pose proof (scratch_not_empty mapped _ _ _ _ Hvecs Hu) as Htot.
  destruct (get_scratch_ok ctx Hr Hf Htot) as (p & c & m1 & E & Hc & Hreg & Hp & Hb1 & Ra & Ri). rewrite M_bind_run, E. pose proof Hreg as (_ & Hpm & Hpo' & Hpaad & Hpi).
  destruct (gathered_ok c p m1) as (m2 & c' & m3 & Eg & Ee & Hr' & Hs & Hout); try done; [by apply apart_placed|unfold apart, one_way in *; lia|].
  destruct (clear_bytes_ok mapped m3 p total) as (m4 & Ec & Hm4); [lia|done|]. exists c', m4. rewrite M_bind_run, Eg, M_bind_run, Ee, M_bind_run, Ec.
  split; [done|]. split; [done|]. split; [|exists p; split; [by rewrite Hs|]].
  - rewrite Hm4, read_write_other; [done|]. rewrite len_replicate. unfold apart in Hpo'. lia.
  - rewrite Hm4. pose proof (read_write_same m3 p (replicate (Z.to_nat total) 0)) as Ez. by rewrite length_replicate in Ez.
Qed.

Lemma encrypt_v_direct ctx : aead_ready key iv ctx -> use_scratch output total 0 input = false ->
  ∃ ctx' m', (gather mapped output 0 input;; c ← aead_do_encrypt mapped ctx output output total seq aad aadlen None; mret ();; mret c) m = (Ok ctx', m')
    ∧ aead_ready key iv ctx' ∧ read m' output (Z.to_nat (total + 16)) = sealed_v.
Proof.
  intros Hr Hu. apply (not_scratch_placed mapped) in Hu.
  destruct (gathered_ok ctx output m) as (m2 & c' & m3 & Eg & Ee & Hr' & Hs & Hout); try done; [intros a Ha; apply Hpo; lia|left; lia|unfold apart in *; lia|].
  exists c', m3. rewrite M_bind_run, Eg, M_bind_run, Ee. done.
Qed.

Lemma encrypt_v_many ctx : aead_ready key iv ctx -> scratch_free ctx ->
  let us := use_scratch output total 0 input in
  ∃ ctx' m', ('(buf, c) ← (if us then aesgcm_get_scratch mapped ctx total else mret (output, ctx));
              gather mapped buf 0 input;; c ← aead_do_encrypt mapped c output buf total seq aad aadlen None; (if us then clear_bytes mapped buf total else mret ());; mret c) m = (Ok ctx', m')
    ∧ aead_ready key iv ctx' ∧ read m' output (Z.to_nat (total + 16)) = sealed_v
    ∧ (us = true -> ∃ p, scratch ctx' = Some p ∧ read m' p (Z.to_nat total) = replicate (Z.to_nat total) 0).
Proof.
  intros Hr Hf us. unfold us. destruct (use_scratch output total 0 input) eqn:Hu.
  - destruct (encrypt_v_scratch ctx Hr Hf Hu) as (ctx' & m' & E & Hr' & Hout & Hcl). by exists ctx', m'.
  - destruct (encrypt_v_direct ctx Hr Hu) as (ctx' & m' & E & Hr' & Hout). by exists ctx', m'.
Qed.

Lemma encrypt_v_single ctx v : aead_ready key iv ctx -> input = [v] -> one_way (base v) output (iov_len v) ->
  ∃ ctx' m', aead_do_encrypt mapped ctx output (base v) (iov_len v) seq aad aadlen None m = (Ok ctx', m')
    ∧ aead_ready key iv ctx' ∧ read m' output (Z.to_nat (total + 16)) = sealed_v.
Proof.
  intros Hr Hi Hway. pose proof sealed_v_length as Hsl. assert (total = iov_len v) as Ht by (rewrite Hi; unfold total_len; cbn; lia).
  assert (iovec_ok mapped v) as [Hl Hp] by (rewrite Hi in Hvecs; by apply Forall_inv in Hvecs). rewrite Ht in *.
  destruct (aead_encrypt_ok mapped key iv Hkey Hiv Hivlen Hmalloc m output (base v) (iov_len v) seq aad aadlen Hm Hseq Haad ltac:(lia) Hpa Hp ctx Hr Hpo Hway) as (ctx' & m' & E & Hr' & _ & _ & Hm'); [unfold apart in *; lia|].
  exists ctx', m'. split_and!; try done. assert (vec_bytes m input = read m (base v) (Z.to_nat (iov_len v))) as Hv by (rewrite Hi; unfold vec_bytes; cbn; by rewrite app_nil_r).
  rewrite <- Hv in Hm'. rewrite Hm'. unfold len in Hsl. rewrite <- Hsl, Nat2Z.id. apply read_write_same.
Qed.

End EncryptV.

(** C31: scattered input.  Whatever pieces a text comes in, and wherever they lie -- away from the output, at their place
    in it, or across it -- [aead_do_encrypt_v] writes the record of their concatenation: it notices the pieces that copying
    would overwrite, and gathers these elsewhere, in a buffer that it clears of the text again.  A single piece is
    encrypted from where it is, so it must not run into the output from below. *)
Theorem encrypt_v_gathers `{Allocator} (mapped : Z -> bool) (key iv : bytes) ctx m output input seq aad aadlen :
  (length key = 16 ∨ length key = 32)%nat -> is_bytes iv -> length iv = 12%nat -> memory_available -> byte_memory m ->
  aead_ready key iv ctx -> scratch_free mapped output input aad aadlen ctx -> 0 <= seq < 2 ^ 64 -> 0 <= aadlen < 2 ^ 28 ->
  Forall (iovec_ok mapped) input -> total_len input < 2 ^ 28 ->
  pages_mapped mapped aad aadlen -> pages_mapped mapped output (total_len input + 16) -> apart aad aadlen output (total_len input + 16) ->
  match input with [v] => one_way (base v) output (iov_len v) | _ => True end ->
  ∃ ctx' m', aead_do_encrypt_v mapped ctx output input seq aad aadlen m = (Ok ctx', m') ∧ aead_ready key iv ctx'
    ∧ read m' output (Z.to_nat (total_len input + 16)) = gcm_seal (AES key) (nonce_register iv seq) (read m aad (Z.to_nat aadlen)) (vec_bytes m input)
    ∧ (length input <> 1%nat -> use_scratch output (total_len input) 0 input = true ->
       ∃ p, scratch ctx' = Some p ∧ read m' p (Z.to_nat (total_len input)) = replicate (Z.to_nat (total_len input)) 0).
Proof.
  intros Hkey Hiv Hivl Hmal Hm Hr Hf Hseq Haad Hv Hlen Hpa Hpo Hap Hone. pose proof (total_len_nonneg mapped input Hv).
  unfold aead_do_encrypt_v. rewrite M_bind_run, (sum_iovec_ok mapped) by (done || unfold SIZE_MAX; lia). rewrite Z.add_0_l. cbn [lift].
  pose proof (encrypt_v_many mapped key iv m output input seq aad aadlen Hkey Hiv Hivl Hmal Hm Hseq Haad Hlen Hv Hpa Hpo Hap ctx Hr Hf) as Hmany. cbv zeta in Hmany.
  destruct input as [|v [|w input]].
  - destruct Hmany as (ctx' & m' & E & Hr' & Hout & Hcl). exists ctx', m'. by split_and!.
  - clear Hmany. destruct (encrypt_v_single mapped key iv m output [v] seq aad aadlen) with (ctx := ctx) (v := v) as (ctx' & m' & E & Hr' & Hout); try done.
    exists ctx', m'. by split_and!.
  - destruct Hmany as (ctx' & m' & E & Hr' & Hout & Hcl). exists ctx', m'. by split_and!.
Qed.

(** Two halves of a text, the second one before the first and both where the record goes. *)
Lemma encrypt_v_gathers_witness :
  let ctx := mkAesgcm (Some (zero_context 1500 false)) None 0 (bswap (of_bytes (replicate 12 7))) in
  let input := [mkIovec 8222 30; mkIovec 8192 30] in
  use_scratch 8192 60 0 input = true ∧
  ∃ ctx' m', @aead_do_encrypt_v bump_allocator (λ _, true) ctx 8192 input 5 9000 13 no_memory = (Ok ctx', m') ∧ aead_ready zero_key (replicate 12 7) ctx'
    ∧ read m' 8192 (Z.to_nat (60 + 16)) = gcm_seal (AES zero_key) (nonce_register (replicate 12 7) 5) (read no_memory 9000 (Z.to_nat 13)) (vec_bytes no_memory input)
    ∧ (length input <> 1%nat -> use_scratch 8192 60 0 input = true -> ∃ p, scratch ctx' = Some p ∧ read m' p (Z.to_nat 60) = replicate (Z.to_nat 60) 0).
Proof.
  intros ctx input. split; [reflexivity|]. pose proof zero_aead_ready as Hr.
  apply (@encrypt_v_gathers bump_allocator (λ _, true) zero_key (replicate 12 7) ctx no_memory 8192 input 5 9000 13);
    [by left|by apply Forall_replicate|reflexivity|apply bump_available|apply no_memory_bytes|exact Hr| |lia|lia|repeat constructor; cbn; lia|reflexivity|by intros ? ?|by intros ? ?|right; cbn; lia|exact I].
  split; [intros p Hp; discriminate Hp|]. intros p c Hp. assert (p = 4096) as -> by (vm_compute in Hp; congruence).
    split; [cbn; lia|]. split; [by intros ? ?|]. split; [left; cbn; lia|]. split; [left; cbn; lia|]. constructor; [right; cbn; lia|]. constructor; [right; cbn; lia|constructor].
Defined.

(** ** The mask *)

Lemma write_twice m p l k : length l = length k -> same_memory (write (write m p l) p k) (write m p k).
Proof.
  intros Hl a. unfold write. destruct (p <=? a); [|done]. destruct (k !! Z.to_nat (a - p)) eqn:E; [done|]. apply lookup_ge_None in E. by rewrite lookup_ge_None_2 by lia.
Qed.

Lemma supplementary_ok mapped key2 s m : keyed_with key2 (s_ecb s) -> pages_mapped mapped (s_input s) 16 -> pages_mapped mapped (s_output s) 16 ->
  ∃ m', do_supplementary mapped (Some s) m = (Ok (), m') ∧ same_memory m' (write m (s_output s) (to_bytes 16 (AES key2 (of_bytes (read m (s_input s) 16))))).
Proof.
  intros Hk Hi Ho. unfold do_supplementary, ctr_init. rewrite M_bind_run, M_bind_run, loadu_mapped by done. cbn [mret M_ret c_fusion]. rewrite (keyed_encrypts key2) by done.
  set (v := AES key2 _). destruct (clear_bytes_ok mapped m (s_output s) 16) as (m1 & E1 & Hm1); [lia|done|]. change (Z.to_nat 16) with 16%nat in Hm1.
  rewrite M_bind_run, E1. unfold ctr_transform. cbn [c_is_ready andb negb when]. rewrite !M_bind_run. cbn [Z.leb Z.compare Pos.compare Pos.compare_cont andb negb when mret M_ret Z.ltb c_bits].
  rewrite !M_bind_run, loadu_mapped by done. assert (read m1 (s_output s) 16 = replicate 16 0) as -> by (rewrite Hm1; apply (read_write_same m (s_output s) (replicate 16 0))).
  change (of_bytes (replicate 16 0)) with 0%N. unfold _mm_xor_si128. rewrite N.lxor_0_r, storeu_ok by done. eexists. split; [done|].
  rewrite Hm1. apply write_twice. by rewrite to_bytes_length.
Qed.



(** ** The processor *)

Lemma land_bit x n : 0 <= n -> negb (Z.land x (Z.shiftl 1 n) =? 0) = Z.testbit x n.
Proof.
  intros Hn. apply eq_true_iff_eq. rewrite negb_true_iff, Z.eqb_neq. split.
  - intros Hx. destruct (Z.testbit x n) eqn:E; [done|]. exfalso. apply Hx. apply Z.bits_inj'. intros i Hi. rewrite Z.land_spec, Z.bits_0, Z.shiftl_spec by done.
    destruct (decide (i = n)) as [->|Hne]; [by rewrite E|]. change 1 with (2 ^ 0). rewrite Z.pow2_bits_false by lia. apply andb_false_r.
  - intros Hx E. assert (Z.testbit (Z.land x (Z.shiftl 1 n)) n = true) as H; [|by rewrite E, Z.bits_0 in H].
    rewrite Z.land_spec, Hx, Z.shiftl_spec by done. by rewrite Z.sub_diag.
Qed.

(** The engine is used where there are the instructions it is written in: AVX2, AES and PCLMULQDQ (bit 1). *)
Lemma supported_iff cpuid can : (ptls_fusion_is_supported_by_cpu cpuid can).1
  = (7 <=? eax (cpuid 0)) && Z.testbit (ebx (cpuid 7)) 5 && Z.testbit (ecx (cpuid 1)) 25 && Z.testbit (ecx (cpuid 1)) 1.
Proof.
  unfold ptls_fusion_is_supported_by_cpu. rewrite <- !land_bit by lia. rewrite Z.ltb_antisym. destruct (7 <=? eax (cpuid 0)); [|done]. cbn [negb].
  destruct (Z.land (ebx (cpuid 7)) _ =? 0); [done|]. destruct (Z.land (ecx (cpuid 1)) (Z.shiftl 1 25) =? 0); [done|]. by destruct (Z.land (ecx (cpuid 1)) _ =? 0).
Qed.

(** The variant for Windows looks at bit 5 of the word (VMX) for PCLMULQDQ: it takes a processor that lacks the
    instruction, and rejects one that has it when its virtualisation is hidden. *)
Example windows_tests_wrong_bit :
  let with_ecx c := λ leaf, if leaf =? 1 then mkCpuid 0 0 c else mkCpuid 7 (2 ^ 5) 0 in
  let vmx := with_ecx (2 ^ 25 + 2 ^ 5) in let pclmul := with_ecx (2 ^ 25 + 2 ^ 1) in
  (ptls_fusion_is_supported_by_cpu_windows vmx false).1 = true ∧ (ptls_fusion_is_supported_by_cpu vmx false).1 = false
  ∧ (ptls_fusion_is_supported_by_cpu_windows pclmul false).1 = false ∧ (ptls_fusion_is_supported_by_cpu pclmul false).1 = true.
Proof. by vm_compute. Qed.
