(* ===== verification/FusionQuicLb.v ===== *)
(** * FusionQuicLb: the QUIC-LB cipher of the engine ([lib/fusion.c])

    The rounds of [QuicLb] over the AES of [FusionAes].  [fusion_ecb] presents that AES as a cipher object,
    so that what [QuicLb] proves of every block cipher holds of it. *)

From S2P Require Import Prelude Constants Wire Buffer Crypto Cipher QuicLb Gf2 Simd FusionGhash FusionAes FusionLoad FusionContext.

#[local] Open Scope Z_scope.

(** The direction is the [do_transform] that is set. *)
(* src lib/fusion.c:2370-2373 fusion_quiclb_context *)
Record fusion_quiclb_context := mkFusionQuicLb { q_is_enc : bool; q_aesecb : ptls_fusion_aesecb_context_t }.

(* src lib/fusion.c:2375-2379 fusion_quiclb_dispose *)
Definition fusion_quiclb_dispose (ctx : fusion_quiclb_context) : fusion_quiclb_context :=
  mkFusionQuicLb (q_is_enc ctx) (ptls_fusion_aesecb_dispose (q_aesecb ctx)).

(* src lib/fusion.c:2381-2384 fusion_quiclb_aes *)
Definition fusion_quiclb_aes (aesecb : ptls_fusion_aesecb_context_t) (block : bytes) : result (bytes * ptls_fusion_aesecb_context_t) :=
  Ok (to_bytes 16 (aesecb_encrypt aesecb (of_bytes block)), aesecb).

(* src lib/fusion.c:2386-2390 fusion_quiclb_encrypt *)
Definition fusion_quiclb_encrypt (ctx : fusion_quiclb_context) (input : bytes) : result (bytes * fusion_quiclb_context) :=
  '(out, c) ← picotls_quiclb_transform fusion_quiclb_aes (q_aesecb ctx) input true;
  Ok (out, mkFusionQuicLb (q_is_enc ctx) c).

(* src lib/fusion.c:2392-2396 fusion_quiclb_decrypt *)
Definition fusion_quiclb_decrypt (ctx : fusion_quiclb_context) (input : bytes) : result (bytes * fusion_quiclb_context) :=
  '(out, c) ← picotls_quiclb_transform fusion_quiclb_aes (q_aesecb ctx) input false;
  Ok (out, mkFusionQuicLb (q_is_enc ctx) c).

(** [uninit]: what the memory of the context held. *)
(* src lib/fusion.c:2398-2408 fusion_quiclb_setup_crypto *)
Definition fusion_quiclb_setup_crypto (uninit : ptls_fusion_aesecb_context_t) (is_enc : bool) (key : bytes) : result fusion_quiclb_context :=
  c ← ptls_fusion_aesecb_init uninit true key PTLS_AES128_KEY_SIZE false;
  Ok (mkFusionQuicLb is_enc c).

(** Four pointers, then the context of AES, which is aligned to 32 bytes. *)
(* src lib/fusion.c:2410-2417 ptls_fusion_quiclb *)
Definition ptls_fusion_quiclb (uninit : ptls_fusion_aesecb_context_t) : ptls_cipher_algorithm_t :=
  mkCipher PTLS_QUICLB_KEY_SIZE 8 0 544 fusion_quiclb_context (fusion_quiclb_setup_crypto uninit) (Some (λ ctx iv, Ok ctx))
    (λ ctx, (if q_is_enc ctx then fusion_quiclb_encrypt else fusion_quiclb_decrypt) ctx).

(** ** The block cipher *)

(** A key, with the context that was made from it. *)
Definition key_ok (key : bytes) : Prop := is_bytes key ∧ length key = 16%nat.

#[export] Instance key_ok_dec key : Decision (key_ok key).
Proof. apply and_dec; apply _. Defined.

Definition fusion_ecb (uninit : ptls_fusion_aesecb_context_t) : ptls_cipher_algorithm_t :=
  mkCipher 16 16 0 0 ptls_fusion_aesecb_context_t
    (λ _ key, if decide (key_ok key) then ptls_fusion_aesecb_init uninit true key 16 false else Err ABORTED) None fusion_quiclb_aes.

Definition aes_bytes (key b : bytes) : bytes := to_bytes 16 (AES key (of_bytes b)).

Lemma aes_setup uninit key : length (keys uninit) = KEY_SLOTS -> key_ok key ->
  ∃ c, ptls_fusion_aesecb_init uninit true key 16 false = Ok c ∧ keyed_with key c.
Proof.
  intros Hu [Hb Hl]. destruct (init_keyed uninit key false Hb Hu (or_introl Hl)) as (c & Hc & Hk & _). unfold len in Hc. rewrite Hl in Hc. by exists c.
Qed.

Program Definition fusion_block_cipher uninit (Hu : length (keys uninit) = KEY_SLOTS) : BlockCipher (fusion_ecb uninit) :=
  {| block := aes_bytes; block_keyed := λ st key, keyed_with key st |}.
Next Obligation. intros. apply to_bytes_bytes. Qed.
Next Obligation. intros. apply to_bytes_length. Qed.
Next Obligation.
  intros uninit Hu key st Hs. cbn [setup_crypto fusion_ecb] in Hs. destruct (decide (key_ok key)) as [Hk|]; [|done].
  destruct (aes_setup uninit key Hu Hk) as (c & Hc & Hkey). rewrite Hc in Hs. by injection Hs as <-.
Qed.
Next Obligation.
  intros uninit Hu st key b Hk _. exists st. split; [|done]. unfold ptls_cipher_encrypt, aes_bytes. cbn. unfold fusion_quiclb_aes. by rewrite (keyed_encrypts key).
Qed.

(** ** What the object computes *)

(** The cipher decrypts what it has encrypted, for every length from 7 to 19 bytes and every key; setting it up does not
    fail, and the ciphertext is that of the four rounds over AES-128. *)
Theorem fusion_quiclb_roundtrip uninit key p : length (keys uninit) = KEY_SLOTS -> key_ok key -> 7 <= len p <= 19 -> is_bytes p ->
  ∃ ce cd c ce' cd', setup_crypto (ptls_fusion_quiclb uninit) true key = Ok ce ∧ setup_crypto (ptls_fusion_quiclb uninit) false key = Ok cd
    ∧ do_transform (ptls_fusion_quiclb uninit) ce p = Ok (c, ce') ∧ do_transform (ptls_fusion_quiclb uninit) cd c = Ok (p, cd') ∧ len c = len p.
Proof.
  intros Hu Hk Hn Hp. destruct (aes_setup uninit key Hu Hk) as (e & He & Hke).
  pose (BC := fusion_block_cipher uninit Hu). destruct (@transform_inverts (fusion_ecb uninit) BC key e e p Hke Hke Hn Hp) as (c & e1 & e2 & Hc & Hce & Hcd).
  exists (mkFusionQuicLb true e), (mkFusionQuicLb false e), c, (mkFusionQuicLb true e1), (mkFusionQuicLb false e2).
  change (picotls_quiclb_transform fusion_quiclb_aes e p true = Ok (c, e1)) in Hce. change (picotls_quiclb_transform fusion_quiclb_aes e c false = Ok (p, e2)) in Hcd.
  cbn [setup_crypto do_transform ptls_fusion_quiclb q_is_enc]. unfold fusion_quiclb_setup_crypto, fusion_quiclb_encrypt, fusion_quiclb_decrypt. cbn [q_aesecb q_is_enc].
  change PTLS_AES128_KEY_SIZE with 16. rewrite He, Hce, Hcd. done.
Qed.

Section Agree.
Context (uninit : ptls_fusion_aesecb_context_t) (Hu : length (keys uninit) = KEY_SLOTS) (aes128ecb : ptls_cipher_algorithm_t) `{BlockCipher aes128ecb} (key : bytes).
Context (Hblk : ∀ b, length b = 16%nat -> block key b = aes_bytes key b).

Abbreviation engine_round := (@quiclb_round (fusion_ecb uninit) (fusion_block_cipher uninit Hu)).

Lemma rounds_agree x y mask lp : length y = 16%nat -> length mask = 16%nat -> length lp = 16%nat ->
  quiclb_round aes128ecb key x y mask lp = engine_round key x y mask lp.
Proof.
  intros Hy Hm Hl. unfold quiclb_round. f_equal. apply Hblk. unfold lor_block, land_block. rewrite !length_zip_with. lia.
Qed.

Lemma all_rounds_agree n l r : 7 <= n <= 19 -> length l = 16%nat -> length r = 16%nat ->
  enc_rounds aes128ecb key n (l, r) = @enc_rounds (fusion_ecb uninit) (fusion_block_cipher uninit Hu) key n (l, r)
  ∧ dec_rounds aes128ecb key n (l, r) = @dec_rounds (fusion_ecb uninit) (fusion_block_cipher uninit Hu) key n (l, r).
Proof.
  intros Hn Hl Hr. destruct (mask_of_len n Hn) as [Hml Hmr]. unfold enc_rounds, dec_rounds. destruct (mask_of n) as [ml mr]. cbn [fst snd] in *.
  split; rewrite !rounds_agree by (first [done|by repeat apply round_len]); done.
Qed.

(** The engine and the binding of OpenSSL are one cipher: over any implementation of AES-ECB, the objects compute the same. *)
Theorem quiclb_backends_agree c p (is_enc : bool) : key_ok key -> 7 <= len p <= 19 -> is_bytes p -> block_keyed c key ->
  ∃ ce ce' c' out, fusion_quiclb_setup_crypto uninit is_enc key = Ok ce
    ∧ do_transform (ptls_fusion_quiclb uninit) ce p = Ok (out, ce')
    ∧ picotls_quiclb_transform (picotls_quiclb_cipher_aes (algo := aes128ecb)) c p is_enc = Ok (out, c').
Proof.
  intros Hk Hn Hp Hc. destruct (aes_setup uninit key Hu Hk) as (e & He & Hke).
  destruct (@transform_pure (fusion_ecb uninit) (fusion_block_cipher uninit Hu) e key p is_enc Hke Hn Hp) as (e' & He' & _).
  destruct (transform_pure aes128ecb c key p is_enc Hc Hn Hp) as (c' & Hc' & _). cbv zeta in He', Hc'.
  pose proof (split_len p (len p) Hn eq_refl Hp) as Hs. destruct (picotls_quiclb_split_input p (len p)) as [l r]. destruct Hs as (Hl & Hr & _).
  destruct (all_rounds_agree (len p) l r Hn Hl Hr) as [Ee Ed].
  match type of He' with _ = ?x => change (picotls_quiclb_transform fusion_quiclb_aes e p is_enc = x) in He' end.
  assert (fusion_quiclb_setup_crypto uninit is_enc key = Ok (mkFusionQuicLb is_enc e)) as -> by (unfold fusion_quiclb_setup_crypto; change PTLS_AES128_KEY_SIZE with 16; by rewrite He).
  destruct is_enc; [rewrite Ee in Hc'|rewrite Ed in Hc'].
  all: eexists _, (mkFusionQuicLb _ e'), c', _; split; [done|]; split; [|exact Hc'].
  all: cbn [do_transform ptls_fusion_quiclb q_is_enc]; unfold fusion_quiclb_encrypt, fusion_quiclb_decrypt; cbn [q_aesecb q_is_enc]; by rewrite He'.
Qed.

End Agree.

(** Seven bytes, whose fourth is shared by the halves. *)
Lemma fusion_quiclb_roundtrip_witness : let p := [0x31; 0x44; 0x1a; 0x9c; 0x69; 0xc2; 0x75] in
  ∃ ce cd c ce' cd', setup_crypto (ptls_fusion_quiclb ecb0) true zero_key = Ok ce ∧ setup_crypto (ptls_fusion_quiclb ecb0) false zero_key = Ok cd
    ∧ do_transform (ptls_fusion_quiclb ecb0) ce p = Ok (c, ce') ∧ do_transform (ptls_fusion_quiclb ecb0) cd c = Ok (p, cd') ∧ len c = len p.
Proof.
  intros p. apply (fusion_quiclb_roundtrip ecb0 zero_key p); [reflexivity|split; [by apply Forall_replicate|reflexivity]|vm_compute; split; discriminate|].
  repeat (constructor; [vm_compute; split; congruence|]). constructor.
Defined.
